(* ===== verification/_CoqProject ===== *)
-Q . S2P
Prelude.v
Chainparams.v
Amount.v
AmountText.v
HtlcState.v
Wire.v
FeeStates.v
CommitFee.v
Features.v
Script.v
Hashing.v
Sha256.v
Ripemd160.v
Hkdf.v
Shachain.v
Keys.v
Tapscript.v
ChannelState.v
Tx.v
SymScripts.v
Opening.v
TcovScripts.v
TapMachine.v
SymSettle.v
SymState.v
SymSpend.v
SymFactory.v
TcovLeaves.v
CreditLeaf.v
TcovSpend.v
Channel.v
SymChannel.v
CommitTx.v
Signature.v
LaneWire.v
PeerState.v
Peer.v
Signer.v
Opend.v
CommitAgree.v
CommitMirror.v
CommitValue.v
Example.v
CommitExample.v
Penalty.v
SignerFacts.v
SymFacts.v
OpenFacts.v
OpenHonest.v
OnchainState.v
OnchainTcov.v
OnchainSym.v
Onchaind.v
OnchainClose.v
OnchainMain.v
OnchainFacts.v
OnchainCheat.v
OnchainLate.v
SignerExample.v
SymExample.v
OpenExample.v
OnchainExample.v
ChannelInv.v
ChannelSteps.v
History.v
ChannelBranches.v
Solvency.v
Progress.v
PeerSteps.v
PeerFacts.v
Link.v
PeerExample.v
Ledger.v
Follow.v
Pending.v
Track.v
TwoParty.v
Attend.v
Rest.v
TwoPartyExample.v
