(* ===== verification/Prelude.v ===== *)
(** * Verification of the SeqLN channel core

    SeqLN is a Lightning node for chains whose outputs carry assets, derived
    from Core Lightning.  It runs as a set of processes: lightningd keeps the
    database and the RPC, and starts for each peer openingd (to negotiate a
    channel), channeld (to run it), closingd and onchaind; connectd holds the
    sockets, hsmd the keys, gossipd the map of the network; plugins talk to the
    RPC.  What they share is under common/, wire/ and bitcoin/.

    This development is about the part that decides who owns what, over the
    life of a channel: openingd/openingd.c agrees on it, channeld/channeld.c and
    channeld/full_channel.c run it, onchaind/onchaind.c collects what is ours
    when it is closed, and hsmd/libhsmd.c signs for them.  A channel holds, in
    two views (the commitment transaction of each side), what is owed to each
    side, in the channel's own asset (lane 0) and in any number of further
    assets (lanes 1, 2, ...); a table of HTLCs, each in one of twenty states;
    the feerates and blockheights proposed; and at most one swap between lanes.
    There are three families of channels: those of the BOLTs; covenant channels
    (common/tcov_scripts.c), whose outputs are taproot trees that constrain the
    transaction that spends them, with a credit variant; and symmetric channels
    (common/sym_scripts.c), where both sides hold the same state, a newer state
    replaces an older one on the chain, and a settlement pays it out.

    ** Files

    Foundations:
    - Prelude: machine integers ([wrap_u64], [wrap_s64], ...), the [outcome] of C
      code that can abort ([Crash] is a failed assertion, status_failed, a NULL
      dereference, an index out of range, a division by zero), arrays indexed by
      side, sums over lists, the [cint] hints.
    - Chainparams: bitcoin/chainparams.c.  Amount, AmountText: common/amount.c
      and common/overflows.h, arithmetic and text.  Wire: wire/towire.c,
      wire/fromwire.c, common/bigsize.c, bitcoin/varint.c.
    - HtlcState: common/htlc_state.c.  FeeStates: common/fee_states.c and
      common/blockheight_states.c.  CommitFee: common/htlc_trim.c,
      common/htlc_tx.h, common/initial_commit_tx.h.  Features:
      common/features.c and common/channel_type.c.
    - Hashing, Sha256, Ripemd160, Hkdf: ccan/crypto; [Sha256.Fips],
      [Ripemd160.Ripemd] and [Hkdf.Rfc] are what the standards say.
    - Shachain: ccan/crypto/shachain, the store of revocation secrets.  Keys:
      common/key_derive.c, common/keyset.c, common/point_lock.c over an
      interface to libsecp256k1.  Signature: bitcoin/signature.c.
    - Script: bitcoin/script.c.  Tapscript: bitcoin/tapscript.c.  Tx:
      bitcoin/tx.c and common/permute_tx.c.

    The channel and its transactions:
    - ChannelState: struct channel (common/initial_channel.c), its lanes
      (common/sym_lanes.c).  Channel: channeld/full_channel.c: adding and
      removing HTLCs, updates, swaps, the four commitment steps around
      [change_htlcs], [channel_force_htlcs] and [init_channel].
    - CommitTx: channeld/commit_tx.c, common/initial_commit_tx.c,
      common/htlc_tx.c, common/tcov_commit_tx.c and [channel_txs].
    - TcovScripts: common/tcov_scripts.c and common/credit_scripts.c.
    - SymScripts, SymState, SymChannel, SymFactory: common/sym_scripts.c,
      common/sym_state.c, common/sym_channel.c, common/sym_factory.c.
    - TapMachine: the interpreter of leaves, which is the node's, as a class
      with a law for each opcode, and an instance that has the laws.

    The daemons:
    - PeerState, Peer: channeld/channeld.c.  [peer] is struct peer with what was
      written to the peer and to lightningd; [peer_in] handles a message of the
      peer, [req_in] a request of lightningd, [send_commit_if_not_stfu] is the
      commit timer; a [run] ends the process with a warning, an error or an
      abort, or goes on.  hsmd is an argument, [signer].
    - Signer: hsmd/libhsmd.c as far as channeld and openingd use it for
      commitments, common/penalty_base.c, channeld's side of it; [hsm_signer]
      is the [signer] made of them.
    - Opening, LaneWire, Opend: openingd/common.c, the blobs of
      common/sym_lanes.c, and both sides of openingd/openingd.c, cut at the
      messages they wait for; a [negotiation] is agreed on, refused or broken.
    - OnchainState, OnchainTcov, OnchainSym, Onchaind, OnchainClose,
      OnchainMain: onchaind/onchaind.c.  [onchaind] has its static variables,
      what lightningd sent it and what it wrote; a [daemon] step returns, waits
      for a message that has not come, or exits.  [main] tells the kinds of
      close apart, the handler of each kind finds out what every output is,
      [wait_for_resolved] handles what lightningd reports of the chain.
      [onchain_env] is what main is told, [onchain_world] what is not of the
      process: the chain, libwally, hsmd, the sort, uninitialised memory.

    What follows:
    - CommitAgree, CommitMirror, CommitValue, Penalty: closed forms of the
      commitments, that two sides build the same, what they pay, what is kept
      to punish them.
    - SymSettle, SymSpend, TcovLeaves, CreditLeaf, TcovSpend: what settlements
      pay and what the leaves let through.
    - SignerFacts, SymFacts, OpenFacts, OpenHonest: what one side signs, the
      other accepts, after and during the opening.
    - ChannelInv, ChannelSteps, History, ChannelBranches, Solvency, Progress:
      the accounts of a channel; [chan_step], one operation, as a relation;
      [reachable] channels: opened, then any operations and restarts.
    - PeerSteps, PeerFacts: what channeld does to its channel, and when.
    - Link, Ledger, Follow, Pending, Track, TwoParty, Attend, Rest: two
      channelds on one connection; the channel as a function of the messages.
    - OnchainFacts, OnchainCheat, OnchainLate: what onchaind comes to.
    - Example, CommitExample, SignerExample, SymExample, OpenExample,
      OnchainExample, PeerExample, TwoPartyExample: concrete inputs, at which
      the theorems are instantiated.

    ** Conventions

    A C integer is a [Z] with its wrap-around written out.  A function with a
    bool result and an out-parameter it writes on success returns an [option];
    one that can abort an [outcome]; one that updates a structure returns the
    new one.  The global [chainparams], the serialization of transactions and
    the hash of a transaction to sign (libwally), and the C library's sort are
    arguments; so are SHA256, RIPEMD160 and HKDF where they are only called
    ([Digest] is all that is asked of them, which [sha256_digest] and
    [ripemd160_digest] discharge).  libsecp256k1 is a class of operations
    ([Secp256k1], [Ecdsa], [Taproot]) and a class of documented laws.  Pointers
    that may be NULL are options.  The table of HTLCs, a hash table in C, is a
    list.  Messages are decoded: their codecs are generated when the program is
    built.

    ** What the theorems show

    - Two honest channelds (TwoParty, Rest): whatever the order in which
      messages cross, neither refuses the other's commitments or revocations
      (it can still abort for a fault of its own side, see the limits below);
      as long as an HTLC is not settled on both sides something is on its way,
      and without new requests the conversation comes to rest.
    - Opening (OpenFacts, OpenHonest): two nodes that follow openingd agree on
      the terms; without lanes or a factory they make mirror channels and never
      fail at each other's first signatures.
    - Money (History): in every reachable channel, in each view and each lane,
      the two balances and the HTLCs committed there add up to what the lane was
      funded with; when nothing is half way the two views agree; a restart,
      whatever the order in which the HTLCs are handed back, finds the balances
      of both views again; ids stay unique and no dead HTLC stays in the table.
    - Progress: in a reachable channel none of the four commitment steps
      aborts, in whatever order the peers commit and revoke.  The checks of
      [add_htlc] and of swaps look at an earlier state of one or both views;
      Solvency finds the amounts that stay above zero meanwhile.
    - The chain (OnchainCheat, OnchainFacts): a revoked commitment made by
      [commit_tx] is told by the number hidden in it, its secret is found, and
      every output of it is recognised: ours goes to the wallet, a penalty that
      fits the output's script is asked for every other one.  An old state of a
      symmetric channel is answered with a spend that its UPD leaf accepts.
      [wait_for_resolved] drops no output and forgets no resolution, and
      reports the end only when all is resolved a hundred blocks deep.
    - Transactions (CommitAgree, CommitMirror, CommitValue, Tx, Script): two
      sides whose channels mirror each other build the same commitment and
      second-stage transactions, although their tables are ordered differently
      and the CLTV array is partly uninitialised; a commitment leaves the fee it
      should; outputs are sorted as BOLT 3 says.
    - Symmetric channels (SymSpend, SymSettle, SymFactory, SymFacts): an update
      replaces exactly the older states; a settlement's leaf lets its
      transaction through, and its outputs add up to the funding; a factory
      splits into its channels; a state reads back from the wire.
    - Covenant channels (TcovLeaves, TcovSpend, CreditLeaf): exactly which
      spends each leaf accepts; what a cheat claims can still be taken; a credit
      holder is paid the largest note once.
    - Revocation (Shachain, Keys): the compact store behaves as a list of all
      secrets; a secret that was accepted opens the revocation key of its
      commitment.
    - Signatures (Signature, SignerFacts, Penalty): the DER form, that grinding
      for a low R returns; what one side signs for a commitment is what the
      other checks; the penalty base names every output that can be taken.
    - Hashes: the streaming code computes the standards' functions however its
      input is cut.
    - channeld (PeerSteps, PeerFacts): its handlers only move the channel by the
      operations of [chan_step]; it never has two commitments unrevoked; after
      stfu it is silent.
    - State machine, arithmetic, formats (HtlcState, FeeStates, Amount,
      CommitFee, Wire, AmountText, Features): the flag table implements an
      abstract life of an HTLC; the 128-bit multiplication in 64-bit pieces;
      writers and readers are inverse to each other.
    - Limits: theorems that show where the code does not do what its comments
      or checks say: amounts of 2^63 and more in [add_htlc], two honest sides
      whose HTLCs cross and make channeld abort (PeerExample), signatures of a
      symmetric state that do not bind its output, a settlement whose outputs
      can be exchanged, a factory anyone can burn, a delay of zero that locks
      the funds, and in OnchainLate a preimage that comes after its HTLC was
      ignored and one that makes onchaind take our own penalty for the peer's;
      and others.

    ** Bounds

    [reachable] asks of every channel on the way that the funding of each lane
    and all that is in flight count in an s64 ([within]).  All bitcoins in
    millisatoshis do, four times over; the code does not ensure it, and
    [add_htlc_wraps] shows what happens beyond.  A restart hands back the whole
    table and the swap.  The decimal printer of AmountText has fuel for 20
    digits, enough for a u64, which the round trips prove.  The blocks of a hash and of
    HKDF have fuel for as many bytes as there are, the bytes of a number in a
    script for its width.  The grinding of [sign_hash] takes a bound on its attempts, which [sign_hash_returns] shows
    is enough when one of them succeeds.  [wait_rounds] has as many rounds as
    there are messages, each of which reads one; [waits_long_enough] shows that
    more change nothing.  The loops over feerates and lease delays count down
    from their number.  Every other loop is a structural recursion.

    ** What is not modelled

    The serialization of transactions, which is libwally's.  Of channeld:
    splices, the reestablishment of a connection, announcements and what the
    watchtower is given.  Of openingd: dualopend, whose interactive
    transactions are another protocol, and warnings or errors of the peer in
    between.  Of onchaind: the billboard.  Of hsmd: all that is not about the
    signatures of a commitment and its opening.  closingd; TLV streams; onions
    and the handshake, which are calls of cryptographic libraries; the
    database, the RPC, lightningd's control of the daemons, gossip and the
    plugins.  Logging, memory management and the copying of values have no
    counterpart. *)

From stdpp Require Export prelude.

#[export] Set Default Proof Using "Type".
Local Open Scope Z_scope.

(** ** Machine integers

    A C integer is a [Z]; every operation that can leave the width of its C
    type goes through one of the [wrap] functions below, so unsigned
    wrap-around is written out where the source has it. *)
Abbreviation UINT8_MAX := 255.
Abbreviation UINT16_MAX := 65535.
Abbreviation UINT32_MAX := 4294967295.
Abbreviation UINT64_MAX := 18446744073709551615.
Abbreviation INT64_MAX := 9223372036854775807.

Definition wrap_u8 (z : Z) : Z := z mod 256.
Definition wrap_u16 (z : Z) : Z := z mod 65536.
Definition wrap_u32 (z : Z) : Z := z mod 4294967296.
Definition wrap_u64 (z : Z) : Z := z mod 18446744073709551616.

(** Conversion of a 64-bit pattern to [s64] (two's complement). *)
Definition wrap_s64 (z : Z) : Z :=
  (z + 9223372036854775808) mod 18446744073709551616 - 9223372036854775808.

Abbreviation in_u8 z := (0 <= z <= UINT8_MAX) (only parsing).
Abbreviation in_u16 z := (0 <= z <= UINT16_MAX) (only parsing).
Abbreviation in_u32 z := (0 <= z <= UINT32_MAX) (only parsing).
Abbreviation in_u64 z := (0 <= z <= UINT64_MAX) (only parsing).
Abbreviation in_s64 z := (-9223372036854775808 <= z <= INT64_MAX) (only parsing).

Lemma wrap_u8_small z : in_u8 z -> wrap_u8 z = z.
Proof. intros; apply Z.mod_small; lia. Qed.
Lemma wrap_u16_small z : in_u16 z -> wrap_u16 z = z.
Proof. intros; apply Z.mod_small; lia. Qed.
Lemma wrap_u32_small z : in_u32 z -> wrap_u32 z = z.
Proof. intros; apply Z.mod_small; lia. Qed.
Lemma wrap_u64_small z : in_u64 z -> wrap_u64 z = z.
Proof. intros; apply Z.mod_small; lia. Qed.
Lemma wrap_s64_small z : in_s64 z -> wrap_s64 z = z.
Proof. intros; unfold wrap_s64; rewrite Z.mod_small; lia. Qed.

Lemma wrap_u8_range z : in_u8 (wrap_u8 z).
Proof. pose proof (Z.mod_pos_bound z 256 eq_refl); unfold wrap_u8; lia. Qed.
Lemma wrap_u32_range z : in_u32 (wrap_u32 z).
Proof. pose proof (Z.mod_pos_bound z 4294967296 eq_refl); unfold wrap_u32; lia. Qed.
Lemma wrap_u64_range z : in_u64 (wrap_u64 z).
Proof.
  pose proof (Z.mod_pos_bound z 18446744073709551616 eq_refl); unfold wrap_u64; lia.
Qed.

Lemma wrap_s64_add a b : wrap_s64 (wrap_s64 a + b) = wrap_s64 (a + b).
Proof.
  unfold wrap_s64. f_equal.
  replace (_ - _ + b + _) with ((a + 9223372036854775808) mod 18446744073709551616 + b) by lia.
  rewrite Z.add_mod_idemp_l by lia. f_equal. lia.
Qed.

(** The rewriting database that removes a [wrap] whose argument is in range. *)
Create HintDb cint.
Create Rewrite HintDb cint.
#[export] Hint Rewrite wrap_u8_small wrap_u16_small wrap_u32_small wrap_u64_small
  wrap_s64_small using lia : cint.
#[export] Hint Resolve wrap_u8_range wrap_u32_range wrap_u64_range : cint.

(** ** Outcomes

    A C function that can stop the process (a failed [assert], [abort()],
    [status_failed], a division by zero) returns an [outcome].  A function that
    reports failure through its result returns an [option] or the source's own
    error enumeration; the two compose as [outcome (option A)]. *)
Inductive outcome (A : Type) : Type :=
| Ret (a : A)
| Crash.
Arguments Ret {_} _.
Arguments Crash {_}.

#[export] Instance outcome_ret : MRet outcome := fun A a => Ret a.
#[export] Instance outcome_fmap : FMap outcome :=
  fun A B f o => match o with Ret a => Ret (f a) | Crash => Crash end.
#[export] Instance outcome_bind : MBind outcome :=
  fun A B k o => match o with Ret a => k a | Crash => Crash end.

(** [assert(b)] followed by the rest of the function. *)
Definition assert_then {A} (b : bool) (k : outcome A) : outcome A :=
  if b then k else Crash.

(** C's [/] and [%] on an unsigned type: the process dies on a zero divisor. *)
Definition udiv (a b : Z) : outcome Z := if b =? 0 then Crash else Ret (a / b).
Definition umod (a b : Z) : outcome Z := if b =? 0 then Crash else Ret (a mod b).

Lemma bind_Ret_inv {A B} (o : outcome A) (k : A -> outcome B) b :
  (o ≫= k) = Ret b -> exists a, o = Ret a /\ k a = Ret b.
Proof. destruct o; [eauto|discriminate]. Qed.

Lemma Ret_inj {A} (a b : A) : Ret a = Ret b -> a = b.
Proof. congruence. Qed.

(** Destruct the scrutinee of a [match] or an [if] of the goal or the context,
    keeping the equation for [lia]. *)
Ltac case_if :=
  match goal with
  | |- context [if ?b then _ else _] => destruct b eqn:?
  | H : context [if ?b then _ else _] |- _ => destruct b eqn:?
  end.

(** Remove the wraps, then the C tests, then close arithmetic goals. *)
Ltac cint := autorewrite with cint in *.

(** Remove wraps whose argument is in range, innermost first. *)
Ltac unwrap :=
  repeat match goal with
         | |- context [wrap_u64 ?x] =>
             lazymatch x with
             | context [wrap_u64 _] => fail
             | _ => rewrite (wrap_u64_small x) by lia
             end
         | |- context [wrap_u32 ?x] =>
             lazymatch x with
             | context [wrap_u32 _] => fail
             | _ => rewrite (wrap_u32_small x) by lia
             end
         end.
Ltac cases := repeat case_if; try discriminate; simplify_eq; try done; try lia.

(** ** Lists *)

(** The sum of [f] over a list, the shape of every total the channel keeps. *)
Definition sum_with {A} (f : A -> Z) (l : list A) : Z :=
  foldr (fun a acc => f a + acc) 0 l.

Section sum.
Context {A : Type}.
Implicit Types (f g : A -> Z) (l k : list A).

Lemma sum_with_app f l k : sum_with f (l ++ k) = sum_with f l + sum_with f k.
Proof. induction l; simpl; lia. Qed.

Lemma sum_with_perm f l k : Permutation l k -> sum_with f l = sum_with f k.
Proof. induction 1; simpl in *; lia. Qed.

Lemma sum_with_ext f g l :
  (forall a, a ∈ l -> f a = g a) -> sum_with f l = sum_with g l.
Proof.
  induction l as [|a l IH]; intros H; [done|]. simpl.
  rewrite H by set_solver. rewrite IH; [done|set_solver].
Qed.

Lemma sum_with_nonneg f l : (forall a, a ∈ l -> 0 <= f a) -> 0 <= sum_with f l.
Proof.
  induction l as [|a l IH]; intros H; simpl; [lia|].
  assert (0 <= f a) by (apply H; set_solver).
  assert (0 <= sum_with f l) by (apply IH; set_solver). lia.
Qed.

Lemma sum_with_plus f g l :
  sum_with (fun a => f a + g a) l = sum_with f l + sum_with g l.
Proof. induction l; simpl; lia. Qed.

Lemma sum_with_filter f (P : A -> bool) l :
  sum_with f (filter (fun a => P a = true) l) = sum_with (fun a => if P a then f a else 0) l.
Proof.
  induction l as [|a l IH]; [done|]. rewrite filter_cons.
  case_decide as E; simpl; destruct (P a); try congruence; lia.
Qed.

Lemma sum_with_le_mem f l a : (forall b, b ∈ l -> 0 <= f b) -> a ∈ l -> f a <= sum_with f l.
Proof.
  induction l as [|b l IH]; intros Hn Ha; [set_solver|]. simpl.
  assert (0 <= f b) by (apply Hn; set_solver).
  assert (0 <= sum_with f l) by (apply sum_with_nonneg; set_solver).
  apply elem_of_cons in Ha as [->|Ha]; [lia|].
  assert (f a <= sum_with f l) by (apply IH; set_solver). lia.
Qed.
End sum.

#[export] Instance sum_with_Proper {A} (f : A -> Z) :
  Proper (Permutation ==> eq) (sum_with f).
Proof. intros l k. apply sum_with_perm. Qed.

(** ** Bit operations as arithmetic *)

Lemma land_ones_mod a n : 0 <= n -> Z.land a (2 ^ n - 1) = a mod 2 ^ n.
Proof. intros. rewrite <- Z.land_ones by done. f_equal. rewrite Z.ones_equiv. lia. Qed.

Lemma land_1_mod a : Z.land a 1 = a mod 2.
Proof. apply (Z.land_ones a 1). lia. Qed.

(** Disjoint bits: [or] is addition. *)
Lemma lor_disjoint_add a b n :
  0 <= n -> 0 <= b < 2 ^ n -> Z.lor (a * 2 ^ n) b = a * 2 ^ n + b.
Proof.
  intros Hn Hb. rewrite <- Z.add_lor_land.
  enough (Z.land (a * 2 ^ n) b = 0) by lia.
  apply Z.bits_inj'. intros k Hk. rewrite Z.land_spec, Z.bits_0.
  destruct (Z.lt_ge_cases k n).
  - rewrite Z.mul_pow2_bits_low by lia. done.
  - rewrite <- (Z.mod_small b (2 ^ n)) by lia.
    rewrite Z.mod_pow2_bits_high by lia. by rewrite andb_false_r.
Qed.
