(* ===== verification/Chainparams.v ===== *)
(** * Amount types and chain parameters

    The data shared by every other component: the [struct amount_sat] and
    [struct amount_msat] of common/amount.h, and the [struct chainparams] of
    bitcoin/chainparams.h with its table of networks and its lookups
    (bitcoin/chainparams.c).  The fields of the struct that only start a
    backend process or a BIP32 library call ([cli], [cli_args],
    [cli_min_supported_version], [bip32_key_version]) are left out. *)

From stdpp Require Import strings.
From S2P Require Import Prelude.
Local Open Scope Z_scope.

(** common/amount.h: amounts are wrapped integers, for type safety. *)
Record amount_sat_t := mk_sat { satoshis : Z }.
Record amount_msat_t := mk_msat { millisatoshis : Z }.
Record amount_asset_t := mk_asset { asset_value : Z; asset_id : list Z }.

#[export] Instance amount_sat_eq_dec : EqDecision amount_sat_t.
Proof. solve_decision. Defined.
#[export] Instance amount_msat_eq_dec : EqDecision amount_msat_t.
Proof. solve_decision. Defined.

Abbreviation MSAT_PER_SAT := 1000.
Abbreviation SAT_PER_BTC := 100000000.
Abbreviation MSAT_PER_BTC := 100000000000.

(** An amount that fits its [u64] field. *)
Abbreviation wf_sat a := (in_u64 (satoshis a)) (only parsing).
Abbreviation wf_msat a := (in_u64 (millisatoshis a)) (only parsing).

Record chainparams := {
  network_name : string;
  onchain_hrp : string;
  lightning_hrp : string;
  bip70_name : string;
  genesis_blockhash : list Z;
  rpc_port : Z;
  ln_port : Z;
  dust_limit : amount_sat_t;
  max_funding : amount_sat_t;
  max_payment : amount_msat_t;
  max_supply : amount_sat_t;
  when_lightning_became_cool : Z;
  p2pkh_version : Z;
  p2sh_version : Z;
  testnet : bool;
  is_elements : bool;
  fee_asset_tag : option (list Z);
  has_anchor_header : bool;
  has_tapscript_introspection : bool;
}.

Definition liquid_fee_asset : list Z :=
  [1; 109; 82; 28; 56; 236; 30; 161; 87; 52; 174; 34; 183; 196; 96; 100; 65;
   40; 41; 192; 208; 87; 159; 10; 113; 61; 28; 4; 237; 233; 121; 2; 111].

Definition liquid_regtest_fee_asset : list Z :=
  [1; 92; 231; 185; 99; 211; 127; 143; 45; 81; 202; 251; 186; 146; 138; 170;
   158; 34; 11; 139; 188; 102; 5; 113; 73; 156; 3; 98; 138; 56; 81; 184; 206].

Definition sequentia_testnet_fee_asset : list Z :=
  [1; 64; 62; 174; 47; 85; 135; 134; 77; 16; 226; 176; 56; 108; 110; 195; 28;
   16; 25; 131; 77; 67; 30; 211; 28; 147; 225; 83; 9; 207; 202; 236; 200].

Definition sequentia_regtest_fee_asset : list Z :=
  [1; 127; 229; 229; 255; 211; 211; 210; 193; 51; 227; 37; 210; 93; 250; 22;
   236; 37; 53; 78; 107; 117; 143; 138; 60; 38; 36; 124; 230; 124; 23; 27;
   77].

Definition networks : list chainparams := [
  {| network_name := "bitcoin"; onchain_hrp := "bc"; lightning_hrp := "bc";
     bip70_name := "main";
     genesis_blockhash :=
     [111; 226; 140; 10; 182; 241; 179; 114; 193; 166; 162; 70; 174; 99;
      247; 79; 147; 30; 131; 101; 225; 90; 8; 156; 104; 214; 25; 0; 0; 0; 0;
      0];
     rpc_port := 8332; ln_port := 9735;
     dust_limit := mk_sat 546; max_funding := mk_sat (Z.shiftl 1 24 - 1);
     max_payment := mk_msat 4294967295; max_supply := mk_sat 2100000000000000;
     when_lightning_became_cool := 504500;
     p2pkh_version := 0; p2sh_version := 5;
     testnet := false; is_elements := false;
     fee_asset_tag := None;
     has_anchor_header := false;
     has_tapscript_introspection := false |};
  {| network_name := "regtest"; onchain_hrp := "bcrt"; lightning_hrp := "bcrt";
     bip70_name := "regtest";
     genesis_blockhash :=
     [6; 34; 110; 70; 17; 26; 11; 89; 202; 175; 18; 96; 67; 235; 91; 191;
      40; 195; 79; 58; 94; 51; 42; 31; 199; 178; 183; 60; 241; 136; 145;
      15];
     rpc_port := 18443; ln_port := 19846;
     dust_limit := mk_sat 546; max_funding := mk_sat (Z.shiftl 1 24 - 1);
     max_payment := mk_msat 4294967295; max_supply := mk_sat 2100000000000000;
     when_lightning_became_cool := 1;
     p2pkh_version := 111; p2sh_version := 196;
     testnet := true; is_elements := false;
     fee_asset_tag := None;
     has_anchor_header := false;
     has_tapscript_introspection := false |};
  {| network_name := "signet"; onchain_hrp := "tb"; lightning_hrp := "tbs";
     bip70_name := "signet";
     genesis_blockhash :=
     [246; 30; 238; 59; 99; 163; 128; 164; 119; 160; 99; 175; 50; 178; 187;
      201; 124; 159; 249; 240; 31; 44; 66; 37; 233; 115; 152; 129; 8; 0; 0;
      0];
     rpc_port := 38332; ln_port := 39735;
     dust_limit := mk_sat 546; max_funding := mk_sat (Z.shiftl 1 24 - 1);
     max_payment := mk_msat 4294967295; max_supply := mk_sat 2100000000000000;
     when_lightning_became_cool := 1;
     p2pkh_version := 111; p2sh_version := 196;
     testnet := true; is_elements := false;
     fee_asset_tag := None;
     has_anchor_header := false;
     has_tapscript_introspection := false |};
  {| network_name := "testnet"; onchain_hrp := "tb"; lightning_hrp := "tb";
     bip70_name := "test";
     genesis_blockhash :=
     [67; 73; 127; 215; 248; 38; 149; 113; 8; 244; 163; 15; 217; 206; 195;
      174; 186; 121; 151; 32; 132; 233; 14; 173; 1; 234; 51; 9; 0; 0; 0; 0];
     rpc_port := 18332; ln_port := 19735;
     dust_limit := mk_sat 546; max_funding := mk_sat (Z.shiftl 1 24 - 1);
     max_payment := mk_msat 4294967295; max_supply := mk_sat 2100000000000000;
     when_lightning_became_cool := 0;
     p2pkh_version := 111; p2sh_version := 196;
     testnet := true; is_elements := false;
     fee_asset_tag := None;
     has_anchor_header := false;
     has_tapscript_introspection := false |};
  {| network_name := "testnet4"; onchain_hrp := "tb"; lightning_hrp := "tb";
     bip70_name := "testnet4";
     genesis_blockhash :=
     [67; 240; 139; 218; 176; 80; 227; 91; 86; 124; 134; 75; 145; 244; 127;
      80; 174; 114; 90; 226; 222; 83; 188; 251; 186; 242; 132; 218; 0; 0; 0;
      0];
     rpc_port := 48332; ln_port := 49735;
     dust_limit := mk_sat 546; max_funding := mk_sat (Z.shiftl 1 24 - 1);
     max_payment := mk_msat 4294967295; max_supply := mk_sat 2100000000000000;
     when_lightning_became_cool := 0;
     p2pkh_version := 111; p2sh_version := 196;
     testnet := true; is_elements := false;
     fee_asset_tag := None;
     has_anchor_header := false;
     has_tapscript_introspection := false |};
  {| network_name := "liquid-regtest"; onchain_hrp := "ert"; lightning_hrp := "ert";
     bip70_name := "liquid-regtest";
     genesis_blockhash :=
     [159; 135; 235; 88; 11; 158; 95; 17; 220; 33; 30; 159; 182; 106; 187;
      54; 153; 153; 144; 68; 248; 254; 20; 104; 1; 22; 35; 147; 54; 66; 134;
      198];
     rpc_port := 19332; ln_port := 20735;
     dust_limit := mk_sat 546; max_funding := mk_sat (Z.shiftl 1 24 - 1);
     max_payment := mk_msat 4294967295; max_supply := mk_sat 2100000000000000;
     when_lightning_became_cool := 1;
     p2pkh_version := 91; p2sh_version := 75;
     testnet := true; is_elements := true;
     fee_asset_tag := (Some liquid_regtest_fee_asset);
     has_anchor_header := false;
     has_tapscript_introspection := false |};
  {| network_name := "liquid"; onchain_hrp := "ex"; lightning_hrp := "ex";
     bip70_name := "liquidv1";
     genesis_blockhash :=
     [20; 102; 39; 88; 54; 34; 13; 178; 148; 76; 160; 89; 163; 161; 14; 246;
      253; 46; 166; 132; 176; 104; 141; 44; 55; 146; 150; 136; 138; 32; 96;
      3];
     rpc_port := 7041; ln_port := 9735;
     dust_limit := mk_sat 546; max_funding := mk_sat (Z.shiftl 1 24 - 1);
     max_payment := mk_msat 4294967295; max_supply := mk_sat 2100000000000000;
     when_lightning_became_cool := 1;
     p2pkh_version := 57; p2sh_version := 39;
     testnet := false; is_elements := true;
     fee_asset_tag := (Some liquid_fee_asset);
     has_anchor_header := false;
     has_tapscript_introspection := false |};
  {| network_name := "sequentia-testnet"; onchain_hrp := "tb"; lightning_hrp := "tsqt";
     bip70_name := "test";
     genesis_blockhash :=
     [46; 169; 78; 252; 134; 32; 52; 56; 247; 3; 113; 142; 183; 180; 11; 17;
      225; 216; 5; 206; 49; 253; 0; 68; 217; 43; 122; 200; 84; 29; 209;
      221];
     rpc_port := 18776; ln_port := 19836;
     dust_limit := mk_sat 546; max_funding := mk_sat (Z.shiftl 1 24 - 1);
     max_payment := mk_msat 4294967295; max_supply := mk_sat 2100000000000000;
     when_lightning_became_cool := 1;
     p2pkh_version := 111; p2sh_version := 196;
     testnet := true; is_elements := true;
     fee_asset_tag := (Some sequentia_testnet_fee_asset);
     has_anchor_header := true;
     has_tapscript_introspection := true |};
  {| network_name := "sequentia-regtest"; onchain_hrp := "bcrt"; lightning_hrp := "sqrt";
     bip70_name := "sequentia-regtest";
     genesis_blockhash :=
     [5; 37; 151; 121; 228; 242; 135; 102; 50; 238; 210; 162; 79; 174; 177;
      216; 28; 10; 233; 230; 58; 14; 83; 26; 30; 126; 7; 20; 218; 28; 71;
      72];
     rpc_port := 18884; ln_port := 19946;
     dust_limit := mk_sat 546; max_funding := mk_sat (Z.shiftl 1 24 - 1);
     max_payment := mk_msat 4294967295; max_supply := mk_sat 2100000000000000;
     when_lightning_became_cool := 1;
     p2pkh_version := 111; p2sh_version := 196;
     testnet := true; is_elements := true;
     fee_asset_tag := (Some sequentia_regtest_fee_asset);
     has_anchor_header := true;
     has_tapscript_introspection := true |};
  {| network_name := "sequentia"; onchain_hrp := "bc"; lightning_hrp := "sqt";
     bip70_name := "sequentia";
     genesis_blockhash :=
     replicate 32 0;
     rpc_port := 7332; ln_port := 9836;
     dust_limit := mk_sat 546; max_funding := mk_sat (Z.shiftl 1 24 - 1);
     max_payment := mk_msat 4294967295; max_supply := mk_sat 2100000000000000;
     when_lightning_became_cool := 1;
     p2pkh_version := 0; p2sh_version := 5;
     testnet := false; is_elements := true;
     fee_asset_tag := None;
     has_anchor_header := true;
     has_tapscript_introspection := true |}
]%string.

Definition chainparams_for_network (name : string) : option chainparams :=
  find (fun p => String.eqb name (network_name p)) networks.

Definition chainparams_by_chainhash (chain_hash : list Z) : option chainparams :=
  find (fun p => bool_decide (chain_hash = genesis_blockhash p)) networks.

Definition chainparams_by_lightning_hrp (hrp : string) : option chainparams :=
  find (fun p => String.eqb hrp (lightning_hrp p)) networks.

Definition chainparams_max_htlc_cltv (params : option chainparams) : Z :=
  match params with
  | None => 2016
  | Some p => if has_anchor_header p then 20160 else 2016
  end.

(** A comma-separated list, starting from [networks[0]]. *)
Definition chainparams_get_network_names : outcome string :=
  match networks with
  | [] => Crash
  | p :: ps => Ret (foldl (fun s q => (s ++ ", " ++ network_name q)%string)
                          (network_name p) ps)
  end.

Definition chainparams_get_ln_port (params : option chainparams) : outcome Z :=
  match params with
  | None => Crash
  | Some p => Ret (ln_port p)
  end.
