(* ===== verification/Amount.v ===== *)
(** * Checked amount arithmetic (common/amount.c, common/overflows.h)

    Every operation of the source on [struct amount_sat] and
    [struct amount_msat].  A C function [bool f(T *out, ...)] that writes [*out]
    only on success returns [option T] here.  A function that can reach an
    [assert], an [abort] or a division by a variable returns an [outcome].
    The text forms of the amounts are in AmountText.v, the wire forms in
    Wire.v. *)

From stdpp Require Import strings.
From S2P Require Import Prelude Chainparams.
Local Open Scope Z_scope.

(** ** common/overflows.h *)

Definition add_overflows_u64 (a b : Z) : bool := wrap_u64 (a + b) <? a.

Definition mul_overflows_u64 (a b : Z) : bool :=
  if a =? 0 then false
  else let ret := wrap_u64 (a * b) in negb (ret / a =? b).

(** The [assign_overflow] functions return true when the value fits. *)
Definition assign_overflow_u32 (v : Z) : option Z :=
  let dst := wrap_u32 v in if dst =? v then Some dst else None.

(** ** Construction, conversion, addition and subtraction *)

Definition amount_msat (millisatoshis : Z) : amount_msat_t := mk_msat millisatoshis.
Definition amount_sat (satoshis : Z) : amount_sat_t := mk_sat satoshis.

Definition amount_sat_to_msat (sat : amount_sat_t) : option amount_msat_t :=
  if mul_overflows_u64 (satoshis sat) MSAT_PER_SAT then None
  else Some (mk_msat (wrap_u64 (satoshis sat * MSAT_PER_SAT))).

Definition amount_msat_to_sat (msat : amount_msat_t) : option amount_sat_t :=
  if negb (millisatoshis msat mod MSAT_PER_SAT =? 0) then None
  else Some (mk_sat (millisatoshis msat / MSAT_PER_SAT)).

Definition amount_msat_to_sat_round_down (msat : amount_msat_t) : amount_sat_t :=
  mk_sat (millisatoshis msat / MSAT_PER_SAT).

Definition amount_msat_to_sat_remainder (msat : amount_msat_t) : amount_msat_t :=
  mk_msat (millisatoshis msat mod MSAT_PER_SAT).

Definition amount_msat_add (a b : amount_msat_t) : option amount_msat_t :=
  if add_overflows_u64 (millisatoshis a) (millisatoshis b) then None
  else Some (mk_msat (wrap_u64 (millisatoshis a + millisatoshis b))).

Definition amount_msat_sub (a b : amount_msat_t) : option amount_msat_t :=
  if millisatoshis a <? millisatoshis b then None
  else Some (mk_msat (millisatoshis a - millisatoshis b)).

Definition amount_sat_add (a b : amount_sat_t) : option amount_sat_t :=
  if add_overflows_u64 (satoshis a) (satoshis b) then None
  else Some (mk_sat (wrap_u64 (satoshis a + satoshis b))).

Definition amount_sat_sub (a b : amount_sat_t) : option amount_sat_t :=
  if satoshis a <? satoshis b then None
  else Some (mk_sat (satoshis a - satoshis b)).

Definition amount_msat_sub_sat (a : amount_msat_t) (b : amount_sat_t) : option amount_msat_t :=
  msatb ← amount_sat_to_msat b; amount_msat_sub a msatb.

Definition amount_sat_sub_msat (a : amount_sat_t) (b : amount_msat_t) : option amount_msat_t :=
  msata ← amount_sat_to_msat a; amount_msat_sub msata b.

Definition amount_msat_add_sat (a : amount_msat_t) (b : amount_sat_t) : option amount_msat_t :=
  msatb ← amount_sat_to_msat b; amount_msat_add a msatb.

(** The in-place forms: [*a] keeps its value when they return false, so the
    caller of the model goes on with [default a _]. *)
Definition amount_msat_accumulate (a b : amount_msat_t) : option amount_msat_t :=
  amount_msat_add a b.

Definition amount_msat_deduct (a b : amount_msat_t) : option amount_msat_t :=
  amount_msat_sub a b.

Definition amount_msat_deduct_sat (a : amount_msat_t) (b : amount_sat_t) : option amount_msat_t :=
  amount_msat_sub_sat a b.

(** [b] is an [s64]; [amount_sat(-b)] converts [-b] to [u64]. *)
Definition amount_msat_add_sat_s64 (a : amount_msat_t) (b : Z) : option amount_msat_t :=
  if b <? 0 then amount_msat_sub_sat a (amount_sat (wrap_u64 (- b)))
  else amount_msat_add_sat a (amount_sat b).

Definition amount_sat_add_sat_s64 (a : amount_sat_t) (b : Z) : option amount_sat_t :=
  if b <? 0 then amount_sat_sub a (amount_sat (wrap_u64 (- b)))
  else amount_sat_add a (amount_sat b).

Definition amount_msat_can_add_sat_s64 (a : amount_msat_t) (b : Z) : bool :=
  bool_decide (is_Some (amount_msat_add_sat_s64 a b)).

(** ** Comparison *)

Definition amount_sat_eq (a b : amount_sat_t) : bool := satoshis a =? satoshis b.
Definition amount_sat_is_zero (a : amount_sat_t) : bool := satoshis a =? 0.
Definition amount_msat_is_zero (a : amount_msat_t) : bool := millisatoshis a =? 0.
Definition amount_msat_eq (a b : amount_msat_t) : bool := millisatoshis a =? millisatoshis b.
Definition amount_sat_greater (a b : amount_sat_t) : bool := satoshis b <? satoshis a.
Definition amount_msat_greater (a b : amount_msat_t) : bool :=
  millisatoshis b <? millisatoshis a.
Definition amount_sat_greater_eq (a b : amount_sat_t) : bool := satoshis b <=? satoshis a.
Definition amount_msat_greater_eq (a b : amount_msat_t) : bool :=
  millisatoshis b <=? millisatoshis a.
Definition amount_sat_less (a b : amount_sat_t) : bool := satoshis a <? satoshis b.
Definition amount_msat_less (a b : amount_msat_t) : bool :=
  millisatoshis a <? millisatoshis b.
Definition amount_sat_less_eq (a b : amount_sat_t) : bool := satoshis a <=? satoshis b.
Definition amount_msat_less_eq (a b : amount_msat_t) : bool :=
  millisatoshis a <=? millisatoshis b.

(** The mixed comparisons return false when the satoshi amount has no
    millisatoshi form. *)
Definition amount_msat_greater_sat (msat : amount_msat_t) (sat : amount_sat_t) : bool :=
  match amount_sat_to_msat sat with
  | None => false
  | Some from_sat => millisatoshis from_sat <? millisatoshis msat
  end.

Definition amount_msat_greater_eq_sat (msat : amount_msat_t) (sat : amount_sat_t) : bool :=
  match amount_sat_to_msat sat with
  | None => false
  | Some from_sat => millisatoshis from_sat <=? millisatoshis msat
  end.

Definition amount_msat_less_sat (msat : amount_msat_t) (sat : amount_sat_t) : bool :=
  match amount_sat_to_msat sat with
  | None => false
  | Some from_sat => millisatoshis msat <? millisatoshis from_sat
  end.

Definition amount_msat_less_eq_sat (msat : amount_msat_t) (sat : amount_sat_t) : bool :=
  match amount_sat_to_msat sat with
  | None => false
  | Some from_sat => millisatoshis msat <=? millisatoshis from_sat
  end.

Definition amount_msat_eq_sat (msat : amount_msat_t) (sat : amount_sat_t) : bool :=
  match amount_sat_to_msat sat with
  | None => false
  | Some from_sat => millisatoshis msat =? millisatoshis from_sat
  end.

Definition amount_msat_to_u32 (msat : amount_msat_t) : option Z :=
  if amount_msat_greater_eq msat (mk_msat 4294967296) then None
  else Some (wrap_u32 (millisatoshis msat)).

(** ** Multiplication and division *)

Definition amount_msat_ratio_floor (a b : amount_msat_t) : outcome Z :=
  udiv (millisatoshis a) (millisatoshis b).

Definition amount_msat_ratio_ceil (a b : amount_msat_t) : outcome Z :=
  udiv (wrap_u64 (millisatoshis a + millisatoshis b - 1)) (millisatoshis b).

Definition amount_msat_div (msat : amount_msat_t) (div : Z) : outcome amount_msat_t :=
  mk_msat <$> udiv (millisatoshis msat) div.

Definition amount_msat_div_ceil (msat : amount_msat_t) (div : Z) : outcome amount_msat_t :=
  res ← udiv (millisatoshis msat) div;
  mret (mk_msat (wrap_u64
    (res + (if wrap_u64 (div * res) =? millisatoshis msat then 0 else 1)))).

Definition amount_sat_div (sat : amount_sat_t) (div : Z) : outcome amount_sat_t :=
  mk_sat <$> udiv (satoshis sat) div.

Definition amount_sat_mul (sat : amount_sat_t) (mul : Z) : option amount_sat_t :=
  if mul_overflows_u64 (satoshis sat) mul then None
  else Some (mk_sat (wrap_u64 (satoshis sat * mul))).

Definition amount_msat_mul (msat : amount_msat_t) (mul : Z) : option amount_msat_t :=
  if mul_overflows_u64 (millisatoshis msat) mul then None
  else Some (mk_msat (wrap_u64 (millisatoshis msat * mul))).

Definition amount_msat_mul_div (msat : amount_msat_t) (mul div : Z)
  : outcome (option amount_msat_t) :=
  if mul_overflows_u64 mul div then mret None
  else
    let x := millisatoshis msat in
    q ← udiv x div;
    r ← umod x div;
    f ← udiv (wrap_u64 (mul * r)) div;
    mret (Some (mk_msat (wrap_u64 (wrap_u64 (mul * q) + f)))).

(** ** Routing fees (BOLT 7) *)

Definition amount_msat_fee (amt : amount_msat_t) (fee_base_msat fee_proportional_millionths : Z)
  : outcome (option amount_msat_t) :=
  o ← amount_msat_mul_div amt fee_proportional_millionths 1000000;
  match o with
  | None => mret None
  | Some fee_prop => mret (amount_msat_add (mk_msat fee_base_msat) fee_prop)
  end.

Definition amount_msat_add_fee (amt : amount_msat_t)
  (fee_base_msat fee_proportional_millionths : Z) : outcome (option amount_msat_t) :=
  o ← amount_msat_fee amt fee_base_msat fee_proportional_millionths;
  match o with
  | None => mret None
  | Some fee => mret (amount_msat_add amt fee)
  end.

(** Does [input] give enough to provide the fee for [out]? *)
Definition within_fee (input out : amount_msat_t)
  (fee_base_msat fee_proportional_millionths : Z) : outcome bool :=
  o ← amount_msat_add_fee out fee_base_msat fee_proportional_millionths;
  match o with
  | None => mret false
  | Some with_fee => mret (amount_msat_less_eq with_fee input)
  end.

(** [1000000 + fee_proportional_millionths] is computed in [u32]. *)
Definition amount_msat_sub_fee (input : amount_msat_t)
  (fee_base_msat fee_proportional_millionths : Z) : outcome amount_msat_t :=
  match amount_msat_sub input (amount_msat fee_base_msat) with
  | None => mret (mk_msat 0)
  | Some out =>
      o ← amount_msat_mul_div out 1000000 (wrap_u32 (1000000 + fee_proportional_millionths));
      match o with
      | None => mret (mk_msat 0)
      | Some out =>
          ok ← within_fee input out fee_base_msat fee_proportional_millionths;
          assert_then ok
            match amount_msat_add out (mk_msat 1) with
            | None => mret out
            | Some out_plus_one =>
                ok1 ← within_fee input out_plus_one fee_base_msat fee_proportional_millionths;
                mret (if ok1 : bool then out_plus_one else out)
            end
      end
  end.

(** ** Transaction fees *)

Definition amount_tx_fee_rounded_down (fee_per_kw weight : Z) : outcome amount_sat_t :=
  assert_then (negb (mul_overflows_u64 fee_per_kw weight))
    (mret (mk_sat (wrap_u64 (fee_per_kw * weight) / 1000))).

Definition amount_tx_fee (params : option chainparams) (fee_per_kw weight : Z)
  : outcome amount_sat_t :=
  if match params with Some p => has_anchor_header p | None => false end then
    assert_then (negb (mul_overflows_u64 fee_per_kw weight))
      (let fee := wrap_u64 (wrap_u64 (fee_per_kw * weight) + 999) / 1000 in
       assert_then ((0 <? fee) || (fee_per_kw =? 0) || (weight =? 0))
         (mret (mk_sat fee)))
  else amount_tx_fee_rounded_down fee_per_kw weight.

Definition amount_feerate (fee : amount_sat_t) (weight : Z) : outcome (option Z) :=
  assert_then (negb (weight =? 0))
    match amount_sat_mul fee 1000 with
    | None => mret None
    | Some fee => q ← udiv (satoshis fee) weight; mret (assign_overflow_u32 q)
    end.

(** ** Conversion to an asset at the node's exchange rate *)

Abbreviation EXCHANGE_RATE_SCALE := 100000000.

(** One round of the restoring division of [u64_mul_add_div_portable]: the
    remainder takes bit [i] of [lo], and [q] gets bit [i] when the remainder
    then holds [div]. *)
Definition div_round (lo div : Z) (i : nat) (rq : Z * Z) : Z * Z :=
  let '(r, q) := rq in
  let carry := negb (Z.shiftr r 63 =? 0) in
  let r := Z.lor (wrap_u64 (Z.shiftl r 1)) (Z.land (Z.shiftr lo (Z.of_nat i)) 1) in
  if carry || (div <=? r) then (wrap_u64 (r - div), Z.lor q (Z.shiftl 1 (Z.of_nat i)))
  else (r, q).

(** [for (int i = n - 1; i >= 0; i--)]. *)
Fixpoint div_rounds (lo div : Z) (n : nat) (rq : Z * Z) : Z * Z :=
  match n with
  | O => rq
  | S i => div_rounds lo div i (div_round lo div i rq)
  end.

Definition u64_mul_add_div_portable (a b add div : Z) : outcome Z :=
  let a_lo := Z.land a 4294967295 in let a_hi := Z.shiftr a 32 in
  let b_lo := Z.land b 4294967295 in let b_hi := Z.shiftr b 32 in
  let ll := wrap_u64 (a_lo * b_lo) in let lh := wrap_u64 (a_lo * b_hi) in
  let hl := wrap_u64 (a_hi * b_lo) in let hh := wrap_u64 (a_hi * b_hi) in
  let mid := wrap_u64 (Z.shiftr ll 32 + Z.land lh 4294967295 + Z.land hl 4294967295) in
  let lo := Z.lor (Z.land ll 4294967295) (wrap_u64 (Z.shiftl mid 32)) in
  let hi := wrap_u64 (hh + Z.shiftr lh 32 + Z.shiftr hl 32 + Z.shiftr mid 32) in
  assert_then (negb (div =? 0))
    (let hi := if wrap_u64 (lo + add) <? lo then wrap_u64 (hi + 1) else hi in
     let lo := wrap_u64 (lo + add) in
     if div <=? hi then mret UINT64_MAX
     else mret (snd (div_rounds lo div 64 (hi, 0)))).

(** The [__int128] form: 128-bit arithmetic, then saturation. *)
Definition u64_mul_add_div (a b add div : Z) : outcome Z :=
  v ← udiv ((a * b + add) mod 2 ^ 128) div;
  mret (if UINT64_MAX <? v then UINT64_MAX else v).

Definition feerate_in_asset (feerate_per_kw rate : Z) : outcome Z :=
  if (rate =? 0) || (rate =? EXCHANGE_RATE_SCALE) then mret feerate_per_kw
  else
    v ← u64_mul_add_div feerate_per_kw EXCHANGE_RATE_SCALE (wrap_u64 (rate - 1)) rate;
    mret (if UINT32_MAX <? v then UINT32_MAX else v).

Definition u64_in_asset (ref rate : Z) : outcome Z :=
  if (rate =? 0) || (rate =? EXCHANGE_RATE_SCALE) then mret ref
  else u64_mul_add_div ref EXCHANGE_RATE_SCALE (wrap_u64 (rate - 1)) rate.

Definition amount_sat_in_asset (ref : amount_sat_t) (rate : Z) : outcome amount_sat_t :=
  amount_sat <$> u64_in_asset (satoshis ref) rate.

Definition amount_msat_in_asset (ref : amount_msat_t) (rate : Z) : outcome amount_msat_t :=
  amount_msat <$> u64_in_asset (millisatoshis ref) rate.

(** ** Assets *)

Definition amount_asset_is (params : chainparams) (amount : amount_asset_t)
  (asset : list Z) : bool :=
  if negb (is_elements params) then true
  else bool_decide (asset_id amount = asset).

(** [fee_asset_tag] is only read on elements chains; a NULL tag there is an
    invalid read. *)
Definition amount_asset_is_main (params : chainparams) (amount : amount_asset_t)
  : outcome bool :=
  if negb (is_elements params) then mret true
  else match fee_asset_tag params with
       | None => Crash
       | Some tag => mret (amount_asset_is params amount tag)
       end.

Definition amount_asset_to_sat (params : chainparams) (amount : amount_asset_t)
  : outcome amount_sat_t :=
  ok ← amount_asset_is_main params amount;
  assert_then ok (mret (mk_sat (asset_value amount))).

Definition amount_sat_to_asset (sat : amount_sat_t) (asset : list Z) : amount_asset_t :=
  mk_asset (satoshis sat) asset.

(** ** Theorems: the overflow tests *)

Lemma add_overflows_u64_spec a b :
  in_u64 a -> in_u64 b -> add_overflows_u64 a b = (UINT64_MAX <? a + b).
Proof.
  intros Ha Hb. unfold add_overflows_u64.
  destruct (Z.le_gt_cases (a + b) UINT64_MAX).
  - rewrite wrap_u64_small by lia. lia.
  - replace (wrap_u64 (a + b)) with (a + b - 18446744073709551616); [lia|].
    unfold wrap_u64. apply (Z.mod_unique_pos _ _ 1); lia.
Qed.

Lemma mul_overflows_u64_spec a b :
  in_u64 a -> in_u64 b -> mul_overflows_u64 a b = (UINT64_MAX <? a * b).
Proof.
  intros Ha Hb. unfold mul_overflows_u64.
  destruct (Z.eqb_spec a 0) as [->|Hnz]; [lia|].
  destruct (Z.le_gt_cases (a * b) UINT64_MAX) as [H|H].
  - rewrite wrap_u64_small by nia.
    rewrite Z.mul_comm, Z.div_mul by lia. nia.
  - assert (wrap_u64 (a * b) <> a * b) by (pose proof (wrap_u64_range (a * b)); lia).
    assert (wrap_u64 (a * b) / a < b); [|lia].
    pose proof (wrap_u64_range (a * b)). apply Z.div_lt_upper_bound; nia.
Qed.

Lemma amount_sat_to_msat_spec s :
  wf_sat s ->
  amount_sat_to_msat s =
  if satoshis s * 1000 <=? UINT64_MAX then Some (mk_msat (satoshis s * 1000)) else None.
Proof.
  intros Hs. unfold amount_sat_to_msat. rewrite mul_overflows_u64_spec by lia.
  case_if; case_if; try lia; [done|]. by rewrite wrap_u64_small by lia.
Qed.

Lemma amount_msat_add_spec a b :
  wf_msat a -> wf_msat b ->
  amount_msat_add a b =
  if millisatoshis a + millisatoshis b <=? UINT64_MAX
  then Some (mk_msat (millisatoshis a + millisatoshis b)) else None.
Proof.
  intros Ha Hb. unfold amount_msat_add. rewrite add_overflows_u64_spec by lia.
  case_if; case_if; try lia; [done|]. by rewrite wrap_u64_small by lia.
Qed.

Lemma amount_sat_add_spec a b :
  wf_sat a -> wf_sat b ->
  amount_sat_add a b =
  if satoshis a + satoshis b <=? UINT64_MAX
  then Some (mk_sat (satoshis a + satoshis b)) else None.
Proof.
  intros Ha Hb. unfold amount_sat_add. rewrite add_overflows_u64_spec by lia.
  case_if; case_if; try lia; [done|]. by rewrite wrap_u64_small by lia.
Qed.

Lemma amount_msat_sub_spec a b c :
  amount_msat_sub a b = Some c <->
  millisatoshis b <= millisatoshis a /\ c = mk_msat (millisatoshis a - millisatoshis b).
Proof. unfold amount_msat_sub. split; intros; cases; naive_solver lia. Qed.

(** Subtracting satoshis from millisatoshis succeeds exactly when the result
    is not negative: the conversion of the subtrahend cannot be the obstacle. *)
Lemma amount_msat_sub_sat_spec a b :
  wf_msat a -> wf_sat b ->
  amount_msat_sub_sat a b =
  if satoshis b * 1000 <=? millisatoshis a
  then Some (mk_msat (millisatoshis a - satoshis b * 1000)) else None.
Proof.
  intros Ha Hb. unfold amount_msat_sub_sat. rewrite amount_sat_to_msat_spec by lia.
  case_if; simpl; unfold amount_msat_sub; simpl; cases.
Qed.

Lemma amount_msat_add_sat_spec a b :
  wf_msat a -> wf_sat b ->
  amount_msat_add_sat a b =
  if millisatoshis a + satoshis b * 1000 <=? UINT64_MAX
  then Some (mk_msat (millisatoshis a + satoshis b * 1000)) else None.
Proof.
  intros Ha Hb. unfold amount_msat_add_sat. rewrite amount_sat_to_msat_spec by lia.
  case_if; simpl; [rewrite amount_msat_add_spec by (simpl; lia); done|]. cases.
Qed.

Lemma amount_sat_sub_msat_spec a b c :
  wf_sat a ->
  amount_sat_sub_msat a b = Some c ->
  satoshis a * 1000 = millisatoshis b + millisatoshis c.
Proof.
  intros Ha. unfold amount_sat_sub_msat. rewrite amount_sat_to_msat_spec by lia.
  case_if; [|discriminate]. simpl. intros [? ->]%amount_msat_sub_spec. simpl in *. lia.
Qed.

Lemma wf_amount_msat_sub a b c :
  wf_msat a -> wf_msat b -> amount_msat_sub a b = Some c -> wf_msat c.
Proof. intros ? ? [? ->]%amount_msat_sub_spec. simpl. lia. Qed.

(** Adding a signed number of satoshis is exact whenever the result is
    representable, and refused otherwise. *)
Lemma amount_msat_add_sat_s64_spec a b :
  wf_msat a -> in_s64 b ->
  amount_msat_add_sat_s64 a b =
  if (0 <=? millisatoshis a + b * 1000) && (millisatoshis a + b * 1000 <=? UINT64_MAX)
  then Some (mk_msat (millisatoshis a + b * 1000)) else None.
Proof.
  intros Ha Hb. unfold amount_msat_add_sat_s64, amount_sat. case_if.
  - rewrite wrap_u64_small by lia. rewrite amount_msat_sub_sat_spec by (simpl; lia). simpl.
    replace (millisatoshis a - - b * 1000) with (millisatoshis a + b * 1000) by lia. cases.
  - rewrite amount_msat_add_sat_spec by (simpl; lia). simpl. cases.
Qed.

(** The mixed comparisons against a satoshi amount. *)
Lemma amount_msat_greater_eq_sat_spec m s :
  wf_msat m -> wf_sat s ->
  amount_msat_greater_eq_sat m s = (satoshis s * 1000 <=? millisatoshis m).
Proof.
  intros Hm Hs. unfold amount_msat_greater_eq_sat.
  rewrite amount_sat_to_msat_spec by lia. cases.
Qed.

Lemma amount_msat_greater_sat_spec m s :
  wf_msat m -> wf_sat s ->
  amount_msat_greater_sat m s = (satoshis s * 1000 <? millisatoshis m).
Proof.
  intros Hm Hs. unfold amount_msat_greater_sat.
  rewrite amount_sat_to_msat_spec by lia. cases.
Qed.

(** [amount_msat_less_sat] and [amount_msat_less_eq_sat] answer false for a
    satoshi amount too large to convert, where the mathematical answer is
    true. *)
Lemma amount_msat_less_sat_spec m s :
  wf_msat m -> wf_sat s ->
  amount_msat_less_sat m s =
  (millisatoshis m <? satoshis s * 1000) && (satoshis s * 1000 <=? UINT64_MAX).
Proof.
  intros Hm Hs. unfold amount_msat_less_sat.
  rewrite amount_sat_to_msat_spec by lia. case_if; simpl; lia.
Qed.

(** ** Theorems: routing fees *)

(** The identity behind [amount_msat_mul_div]: splitting [x] by [d] loses
    nothing. *)
Lemma mul_div_split m x d : 0 < d -> m * (x / d) + m * (x mod d) / d = m * x / d.
Proof.
  intros Hd. rewrite (Z.div_mod x d) at 3 by lia.
  replace (m * (d * (x / d) + x mod d)) with (m * (x mod d) + m * (x / d) * d) by lia.
  rewrite Z.div_add by lia. lia.
Qed.

(** [amount_msat_mul_div] is exact when neither [mul * div] nor the result
    leaves 64 bits. *)
Lemma amount_msat_mul_div_exact x mul div :
  in_u64 x -> 0 <= mul -> 0 < div <= UINT64_MAX -> mul * div <= UINT64_MAX -> mul * x / div <= UINT64_MAX ->
  amount_msat_mul_div (mk_msat x) mul div = Ret (Some (mk_msat (mul * x / div))).
Proof.
  intros Hx Hm Hd Hmd Hr. unfold amount_msat_mul_div.
  assert (mul <= mul * div) by nia. rewrite mul_overflows_u64_spec by lia.
  replace (UINT64_MAX <? mul * div) with false by lia.
  unfold udiv, umod. replace (div =? 0) with false by lia. cbn.
  pose proof (Z.mod_pos_bound x div ltac:(lia)).
  pose proof (mul_div_split mul x div ltac:(lia)).
  assert (0 <= x / div) by (apply Z.div_pos; lia).
  assert (0 <= mul * (x mod div) / div) by (apply Z.div_pos; nia).
  do 3 f_equal. rewrite (wrap_u64_small (mul * (x mod div))) by nia.
  rewrite (wrap_u64_small (mul * (x / div))) by nia. rewrite wrap_u64_small; lia.
Qed.

(** The fee BOLT 7 asks for. *)
Definition bolt7_fee (amt base prop : Z) : Z := base + prop * amt / 1000000.

Lemma amount_msat_fee_exact amt base prop :
  wf_msat amt -> in_u32 base -> in_u32 prop ->
  prop * millisatoshis amt / 1000000 <= UINT64_MAX ->
  amount_msat_fee amt base prop =
  Ret (if bolt7_fee (millisatoshis amt) base prop <=? UINT64_MAX
       then Some (mk_msat (bolt7_fee (millisatoshis amt) base prop)) else None).
Proof.
  intros Ha Hb Hp Hr. destruct amt as [x]; simpl in *. unfold amount_msat_fee.
  rewrite amount_msat_mul_div_exact by lia. cbn.
  assert (0 <= prop * x / 1000000) by (apply Z.div_pos; nia).
  rewrite amount_msat_add_spec by (simpl; lia). done.
Qed.

(** With [fee_proportional_millionths] at most one million (a fee of at most
    the amount) no intermediate product can wrap. *)
Lemma fee_prop_small x prop : in_u64 x -> 0 <= prop <= 1000000 -> prop * x / 1000000 <= x.
Proof. intros. apply Z.div_le_upper_bound; nia. Qed.

Lemma within_fee_spec input out base prop :
  wf_msat input -> wf_msat out -> in_u32 base -> in_u32 prop ->
  prop * millisatoshis out / 1000000 <= UINT64_MAX ->
  within_fee input out base prop =
  Ret (millisatoshis out + bolt7_fee (millisatoshis out) base prop <=? millisatoshis input).
Proof.
  intros Hi Ho Hb Hp Hr. unfold within_fee, amount_msat_add_fee.
  rewrite amount_msat_fee_exact by lia. cbn.
  assert (0 <= bolt7_fee (millisatoshis out) base prop).
  { unfold bolt7_fee. assert (0 <= prop * millisatoshis out / 1000000); [|lia].
    apply Z.div_pos; nia. }
  case_if; cbn; [|f_equal; lia].
  rewrite amount_msat_add_spec by (simpl; lia). simpl.
  case_if; cbn; f_equal; unfold amount_msat_less_eq; simpl; lia.
Qed.

(** Arithmetic of the reverse fee: [q] fits, and nothing past [q + 1] does. *)
Lemma reverse_fee_fits y P :
  0 <= y -> 0 <= P -> let q := 1000000 * y / (1000000 + P) in q + P * q / 1000000 <= y.
Proof.
  intros Hy HP q. pose proof (Z.mul_div_le (1000000 * y) (1000000 + P) ltac:(lia)) as Hq.
  fold q in Hq. assert (P * q / 1000000 <= y - q); [|lia].
  apply Z.div_le_upper_bound; lia.
Qed.

Lemma reverse_fee_max y P o :
  0 <= y -> 0 <= P -> 1000000 * y / (1000000 + P) + 2 <= o -> y < o + P * o / 1000000.
Proof.
  intros Hy HP Ho. set (q := 1000000 * y / (1000000 + P)) in *.
  pose proof (Z.mul_succ_div_gt (1000000 * y) (1000000 + P) ltac:(lia)) as Hq. fold q in Hq.
  pose proof (Z.mul_succ_div_gt (P * o) 1000000 ltac:(lia)) as Hf. nia.
Qed.

(** Even one above [q], the proportional fee is far from wrapping. *)
Lemma reverse_fee_no_wrap y P :
  in_u64 y -> 0 <= P <= UINT32_MAX ->
  let q := 1000000 * y / (1000000 + P) in
  0 <= q <= y /\ P * (q + 1) / 1000000 <= UINT64_MAX.
Proof.
  intros Hy HP q. assert (0 <= q) by (apply Z.div_pos; lia).
  pose proof (reverse_fee_fits y P ltac:(lia) ltac:(lia)) as Hfit. cbv zeta in Hfit. fold q in Hfit.
  assert (0 <= P * q / 1000000) by (apply Z.div_pos; nia).
  split; [lia|]. replace (P * (q + 1)) with (P * q + P) by lia.
  assert ((P * q + P) / 1000000 <= P * q / 1000000 + P / 1000000 + 1).
  { pose proof (Z.mul_succ_div_gt (P * q) 1000000 ltac:(lia)).
    pose proof (Z.mul_succ_div_gt P 1000000 ltac:(lia)).
    apply Z.lt_succ_r, Z.div_lt_upper_bound; lia. }
  assert (P / 1000000 <= 4294) by (apply Z.lt_succ_r, Z.div_lt_upper_bound; lia).
  destruct (Z.le_gt_cases y 9223372036854775807); [lia|].
  assert (4296 <= q); [|lia]. apply Z.div_le_lower_bound; lia.
Qed.

(** [amount_msat_sub_fee] inverts the forwarding fee: for every amount and
    base fee, and every proportional fee below [2^32 - 1000000], it never trips
    its own assertion and returns the largest amount that can be forwarded
    within [input], or 0 when [input] does not cover the base fee. *)
Theorem amount_msat_sub_fee_maximal input base prop :
  wf_msat input -> in_u32 base -> 0 <= prop <= UINT32_MAX - 1000000 ->
  exists out,
    amount_msat_sub_fee input base prop = Ret out /\ wf_msat out /\
    (millisatoshis input < base -> out = mk_msat 0) /\
    (base <= millisatoshis input ->
     millisatoshis out + bolt7_fee (millisatoshis out) base prop <= millisatoshis input /\
     forall o, millisatoshis out < o -> millisatoshis input < o + bolt7_fee o base prop).
Proof.
  intros Hi Hb Hp. destruct input as [inp]; simpl in *. unfold amount_msat_sub_fee.
  unfold amount_msat_sub, amount_msat. simpl. case_if.
  { eexists; split; [done|]. simpl. split; [lia|]. split; [done|lia]. }
  set (y := inp - base). rewrite wrap_u32_small by lia.
  pose proof (reverse_fee_no_wrap y prop ltac:(lia) ltac:(lia)) as [Hq Hw].
  pose proof (reverse_fee_fits y prop ltac:(lia) ltac:(lia)) as Hfit.
  pose proof (fun o => reverse_fee_max y prop o ltac:(lia) ltac:(lia)) as Hmax.
  rewrite amount_msat_mul_div_exact by lia.
  set (q := 1000000 * y / (1000000 + prop)) in *. cbv zeta in *.
  assert (prop * q / 1000000 <= prop * (q + 1) / 1000000) by (apply Z.div_le_mono; nia).
  cbn. rewrite within_fee_spec by (simpl; lia). cbn. unfold bolt7_fee in *.
  replace (q + _ <=? inp) with true by lia. simpl.
  rewrite amount_msat_add_spec by (simpl; lia). simpl.
  case_if; cbn.
  - rewrite within_fee_spec by (simpl; lia). cbn. unfold bolt7_fee.
    case_if; eexists; (split; [done|]); simpl; (split; [lia|]); (split; [lia|]);
      intros _; (split; [lia|]); intros o Ho.
    + specialize (Hmax o ltac:(lia)). lia.
    + destruct (Z.eq_dec o (q + 1)) as [->|]; [lia|]. specialize (Hmax o ltac:(lia)). lia.
  - eexists; split; [done|]; simpl; split; [lia|]; split; [lia|]; intros _.
    split; [lia|]. intros o Ho.
    assert (0 <= prop * o / 1000000) by (apply Z.div_pos; nia). lia.
Qed.

Lemma amount_msat_sub_fee_maximal_witness :
  exists out, amount_msat_sub_fee (mk_msat 1001001) 1000 10 = Ret out /\
    millisatoshis out + bolt7_fee (millisatoshis out) 1000 10 <= 1001001.
Proof.
  destruct (amount_msat_sub_fee_maximal (mk_msat 1001001) 1000 10) as (out & H & _ & _ & Hb);
    [simpl; lia..|].
  exists out. split; [exact H|]. apply Hb. simpl. lia.
Defined.

(** ** Theorems: 128-bit division on 64-bit words *)

(** The shifted remainder with the next bit, as the machine computes it: the
    carry out of bit 63 is lost. *)
Lemma shift_in_spec r bit :
  in_u64 r -> 0 <= bit <= 1 ->
  Z.lor (wrap_u64 (Z.shiftl r 1)) bit =
  if 9223372036854775808 <=? r then 2 * r - 18446744073709551616 + bit else 2 * r + bit.
Proof.
  intros Hr Hb. rewrite Z.shiftl_mul_pow2 by lia. change (2 ^ 1) with 2.
  assert (wrap_u64 (r * 2) =
          (if 9223372036854775808 <=? r then r - 9223372036854775808 else r) * 2 ^ 1) as ->.
  { change (2 ^ 1) with 2. case_if; [|rewrite wrap_u64_small; lia].
    unfold wrap_u64. symmetry. apply (Z.mod_unique_pos _ _ 1); lia. }
  rewrite lor_disjoint_add by (simpl; lia). change (2 ^ 1) with 2. cases.
Qed.

Lemma carry_spec r :
  in_u64 r -> negb (Z.shiftr r 63 =? 0) = (9223372036854775808 <=? r).
Proof.
  intros Hr. rewrite Z.shiftr_div_pow2 by lia. change (2 ^ 63) with 9223372036854775808.
  destruct (Z.leb_spec 9223372036854775808 r).
  - assert (1 <= r / 9223372036854775808) by (apply Z.div_le_lower_bound; lia). lia.
  - rewrite Z.div_small by lia. done.
Qed.

(** Setting bit [n] of a number whose lower [n + 1] bits are clear. *)
Lemma lor_set_bit q n :
  0 <= n -> Z.lor (q * 2 ^ (n + 1)) (Z.shiftl 1 n) = (2 * q + 1) * 2 ^ n.
Proof.
  intros Hn. rewrite Z.shiftl_mul_pow2, Z.mul_1_l by lia.
  rewrite lor_disjoint_add; rewrite ?Z.pow_add_r by lia; change (2 ^ 1) with 2;
    pose proof (Z.pow_pos_nonneg 2 n eq_refl Hn); lia.
Qed.

(** One round keeps the remainder below the divisor and adds one quotient
    bit. *)
Lemma div_round_spec lo div i r q :
  0 < div <= UINT64_MAX -> in_u64 lo -> 0 <= r < div ->
  exists r' b, div_round lo div i (r, q * 2 ^ (Z.of_nat i + 1)) =
    (r', (2 * q + b) * 2 ^ Z.of_nat i) /\ 0 <= r' < div /\
    b * div + r' = 2 * r + (lo / 2 ^ Z.of_nat i) mod 2.
Proof.
  intros Hd Hlo Hr. unfold div_round. set (n := Z.of_nat i). assert (0 <= n) by lia.
  rewrite land_1_mod, (Z.shiftr_div_pow2 lo) by lia.
  set (bit := (lo / 2 ^ n) mod 2).
  assert (0 <= bit <= 1) by (pose proof (Z.mod_pos_bound (lo / 2 ^ n) 2 eq_refl); lia).
  rewrite shift_in_spec, carry_spec, lor_set_bit by lia.
  destruct (Z.leb_spec 9223372036854775808 r); simpl.
  { exists (2 * r + bit - div), 1. split; [|lia]. f_equal.
    unfold wrap_u64. symmetry. apply (Z.mod_unique_pos _ _ (-1)); lia. }
  destruct (Z.leb_spec div (2 * r + bit)).
  - exists (2 * r + bit - div), 1. split; [|lia]. by rewrite wrap_u64_small by lia.
  - exists (2 * r + bit), 0. split; [|lia]. f_equal.
    rewrite Z.pow_add_r by lia. change (2 ^ 1) with 2. lia.
Qed.

Lemma div_rounds_spec lo div n : forall r q,
  0 < div <= UINT64_MAX -> in_u64 lo -> 0 <= r < div ->
  exists r', fst (div_rounds lo div n (r, q * 2 ^ Z.of_nat n)) = r' /\ 0 <= r' < div /\
    snd (div_rounds lo div n (r, q * 2 ^ Z.of_nat n)) * div + r' =
    q * 2 ^ Z.of_nat n * div + r * 2 ^ Z.of_nat n + lo mod 2 ^ Z.of_nat n.
Proof.
  induction n as [|i IH]; intros r q Hd Hlo Hr.
  { exists r. cbn. rewrite Z.mod_1_r. lia. }
  replace (Z.of_nat (S i)) with (Z.of_nat i + 1) by lia. cbn [div_rounds].
  destruct (div_round_spec lo div i r q Hd Hlo Hr) as (r1 & b & -> & Hr1 & Hb).
  destruct (IH r1 (2 * q + b) Hd Hlo Hr1) as (r' & E & Hr' & Hs).
  exists r'. split; [done|]. split; [done|]. rewrite Hs. set (m := 2 ^ Z.of_nat i) in *.
  assert (0 < m) by (apply Z.pow_pos_nonneg; lia).
  rewrite Z.pow_add_r by lia. fold m. change (2 ^ 1) with 2.
  rewrite (Z.rem_mul_r lo m 2) by lia. nia.
Qed.

(** The schoolbook product of two [u64], as the source assembles it from four
    32-bit partial products. *)
Lemma schoolbook_product a b :
  in_u64 a -> in_u64 b ->
  let M := 4294967296 in
  let ll := a mod M * (b mod M) in let lh := a mod M * (b / M) in
  let hl := a / M * (b mod M) in let hh := a / M * (b / M) in
  let mid := ll / M + lh mod M + hl mod M in
  let lo := ll mod M + mid mod M * M in
  let hi := hh + lh / M + hl / M + mid / M in
  hi * 18446744073709551616 + lo = a * b /\ in_u64 lo /\ in_u64 hi /\
  in_u64 ll /\ in_u64 lh /\ in_u64 hl /\ in_u64 hh /\ in_u64 mid.
Proof.
  intros Ha Hb. cbv zeta.
  assert (0 <= a / 4294967296 <= 4294967295 /\ 0 <= a mod 4294967296 <= 4294967295 /\
          a = 4294967296 * (a / 4294967296) + a mod 4294967296) as (?&?&Ea)
    by (Z.div_mod_to_equations; lia).
  assert (0 <= b / 4294967296 <= 4294967295 /\ 0 <= b mod 4294967296 <= 4294967295 /\
          b = 4294967296 * (b / 4294967296) + b mod 4294967296) as (?&?&Eb)
    by (Z.div_mod_to_equations; lia).
  set (ah := a / 4294967296) in *. set (al := a mod 4294967296) in *.
  set (bh := b / 4294967296) in *. set (bl := b mod 4294967296) in *.
  assert (forall x y, 0 <= x <= 4294967295 -> 0 <= y <= 4294967295 ->
            0 <= x * y <= 4294967295 * 4294967295) as Hp by nia.
  pose proof (Hp al bl ltac:(lia) ltac:(lia)). pose proof (Hp al bh ltac:(lia) ltac:(lia)).
  pose proof (Hp ah bl ltac:(lia) ltac:(lia)). pose proof (Hp ah bh ltac:(lia) ltac:(lia)).
  assert (a * b = ah * bh * 18446744073709551616 + (ah * bl + al * bh) * 4294967296 + al * bl)
    as -> by (rewrite Ea, Eb; ring).
  generalize dependent (al * bl). generalize dependent (al * bh).
  generalize dependent (ah * bl). generalize dependent (ah * bh).
  intros hh ? hl ? lh ? ll ?. Z.div_mod_to_equations. lia.
Qed.

(** Adding [c] to the double word [hi:lo]. *)
Lemma double_word_add hi lo c :
  in_u64 hi -> in_u64 lo -> in_u64 c -> hi * 18446744073709551616 + lo + c < 2 ^ 128 ->
  let hi' := if wrap_u64 (lo + c) <? lo then wrap_u64 (hi + 1) else hi in
  hi' * 18446744073709551616 + wrap_u64 (lo + c) = hi * 18446744073709551616 + lo + c
  /\ in_u64 hi'.
Proof.
  change (2 ^ 128) with 340282366920938463463374607431768211456. intros Hh Hl Hc Hb. cbv zeta.
  change (wrap_u64 (lo + c) <? lo) with (add_overflows_u64 lo c).
  rewrite add_overflows_u64_spec by lia. case_if.
  - rewrite (wrap_u64_small (hi + 1)) by lia.
    replace (wrap_u64 (lo + c)) with (lo + c - 18446744073709551616); [lia|].
    unfold wrap_u64. apply (Z.mod_unique_pos _ _ 1); lia.
  - rewrite wrap_u64_small by lia. lia.
Qed.

(** Dividing the double word [hi:lo], with the quotient cut at 64 bits. *)
Lemma double_word_div hi lo div :
  in_u64 hi -> in_u64 lo -> 0 < div <= UINT64_MAX ->
  (if div <=? hi then UINT64_MAX else snd (div_rounds lo div 64 (hi, 0))) =
  (let v := (hi * 18446744073709551616 + lo) / div in
   if UINT64_MAX <? v then UINT64_MAX else v).
Proof.
  intros Hh Hl Hd. cbv zeta. set (V := hi * 18446744073709551616 + lo).
  destruct (Z.leb_spec div hi) as [Hq|Hq].
  { assert (18446744073709551616 <= V / div) by (apply Z.div_le_lower_bound; nia). cases. }
  destruct (div_rounds_spec lo div 64 hi 0 Hd Hl ltac:(lia)) as (r & _ & Hr & Hs).
  change (2 ^ Z.of_nat 64) with 18446744073709551616 in Hs. rewrite !Z.mul_0_l in Hs.
  rewrite (Z.mod_small lo) in Hs by lia.
  replace (V / div) with (snd (div_rounds lo div 64 (hi, 0))).
  2:{ apply (Z.div_unique_pos _ _ _ r); lia. }
  case_if; [|done]. nia.
Qed.

(** C26. The portable 32-bit-limb routine computes the same function as the
    [__int128] one, on all 64-bit arguments: the build the compiler selects
    makes no difference to a converted fee. *)
Theorem u64_mul_add_div_portable_correct a b add div :
  in_u64 a -> in_u64 b -> in_u64 add -> in_u64 div ->
  u64_mul_add_div_portable a b add div = u64_mul_add_div a b add div.
Proof.
  intros Ha Hb Hadd Hd. unfold u64_mul_add_div_portable, u64_mul_add_div, udiv.
  destruct (Z.eqb_spec div 0) as [->|Hnz]; [done|]. cbn [assert_then negb].
  rewrite !(land_ones_mod _ 32), !Z.shiftr_div_pow2 by lia. change (2 ^ 32) with 4294967296.
  pose proof (schoolbook_product a b Ha Hb) as
    (Hprod & Hlo & Hhi & Hll & Hlh & Hhl & Hhh & Hmid). cbv zeta in *.
  rewrite (wrap_u64_small (a mod 4294967296 * (b mod 4294967296))) by lia.
  rewrite (wrap_u64_small (a mod 4294967296 * (b / 4294967296))) by lia.
  rewrite (wrap_u64_small (a / 4294967296 * (b mod 4294967296))) by lia.
  rewrite (wrap_u64_small (a / 4294967296 * (b / 4294967296))) by lia.
  set (ll := a mod 4294967296 * (b mod 4294967296)) in *.
  set (lh := a mod 4294967296 * (b / 4294967296)) in *.
  set (hl := a / 4294967296 * (b mod 4294967296)) in *.
  set (hh := a / 4294967296 * (b / 4294967296)) in *.
  set (mid := ll / 4294967296 + lh mod 4294967296 + hl mod 4294967296) in *.
  rewrite (wrap_u64_small mid) by lia.
  rewrite (wrap_u64_small (hh + _ + _ + _)) by lia.
  replace (Z.lor (ll mod 4294967296) (wrap_u64 (Z.shiftl mid 32)))
    with (ll mod 4294967296 + mid mod 4294967296 * 4294967296).
  2:{ rewrite Z.shiftl_mul_pow2 by lia. change (2 ^ 32) with 4294967296. unfold wrap_u64.
      change 18446744073709551616 with (4294967296 * 4294967296).
      rewrite Z.mul_mod_distr_r, Z.lor_comm by lia. change 4294967296 with (2 ^ 32) at 5.
      rewrite lor_disjoint_add; [change (2 ^ 32) with 4294967296; lia|lia|].
      pose proof (Z.mod_pos_bound ll 4294967296 eq_refl). lia. }
  set (lo := ll mod 4294967296 + _) in *. set (hi := hh + _ + _ + _) in *.
  assert (a * b + add < 340282366920938463463374607431768211456) by nia.
  pose proof (double_word_add hi lo add Hhi Hlo Hadd) as Hdw.
  change (2 ^ 128) with 340282366920938463463374607431768211456 in *.
  specialize (Hdw ltac:(lia)). cbv zeta in Hdw. destruct Hdw as [Hsum Hhi'].
  set (hi' := if _ : bool then _ else hi) in *.
  rewrite Z.mod_small by nia. cbn.
  pose proof (double_word_div hi' (wrap_u64 (lo + add)) div Hhi' (wrap_u64_range _) ltac:(lia))
    as Hdiv. cbv zeta in Hdiv. rewrite Hsum in Hdiv.
  replace (a * b + add) with (hi * 18446744073709551616 + lo + add) by lia.
  rewrite <- Hdiv. destruct (div <=? hi'); done.
Qed.

Lemma u64_mul_add_div_portable_witness :
  u64_mul_add_div_portable 4000000000 100000000 332 333 = Ret 1201201201201202 /\
  u64_mul_add_div 4000000000 100000000 332 333 = Ret 1201201201201202.
Proof.
  rewrite (u64_mul_add_div_portable_correct 4000000000 100000000 332 333) by lia.
  split; reflexivity.
Defined.

(** ** Theorems: conversion to an asset, and transaction fees *)

Lemma u64_mul_add_div_spec a b add div :
  in_u64 a -> in_u64 b -> in_u64 add -> 0 < div ->
  u64_mul_add_div a b add div = Ret (Z.min UINT64_MAX ((a * b + add) / div)).
Proof.
  intros Ha Hb Hadd Hd. unfold u64_mul_add_div, udiv.
  change (2 ^ 128) with 340282366920938463463374607431768211456.
  rewrite Z.mod_small by nia. replace (div =? 0) with false by lia. cbn. f_equal. case_if; lia.
Qed.

(** [v] is the least whole number of atoms of an asset at [rate] that is worth
    [ref] reference atoms. *)
Definition least_cover (ref rate v : Z) : Prop :=
  ref * EXCHANGE_RATE_SCALE <= v * rate /\ (v - 1) * rate < ref * EXCHANGE_RATE_SCALE.

Lemma ceil_div_least_cover ref rate :
  0 <= ref -> 0 < rate -> least_cover ref rate ((ref * EXCHANGE_RATE_SCALE + (rate - 1)) / rate).
Proof.
  intros Hr Hrate. unfold least_cover.
  pose proof (Z.mul_div_le (ref * 100000000 + (rate - 1)) rate Hrate).
  pose proof (Z.mul_succ_div_gt (ref * 100000000 + (rate - 1)) rate Hrate). nia.
Qed.

(** The fee rate quoted in an asset never undercharges: at a non-zero
    exchange rate it is the least rate in the asset worth the reference rate,
    unless it saturates at the top of its 32 bits, and the conversion never
    fails. *)
Theorem feerate_in_asset_covers feerate rate :
  in_u32 feerate -> 0 < rate <= UINT64_MAX ->
  exists v, feerate_in_asset feerate rate = Ret v /\ in_u32 v /\
    (least_cover feerate rate v \/
     v = UINT32_MAX /\ forall v', least_cover feerate rate v' -> UINT32_MAX <= v').
Proof.
  intros Hf Hr. unfold feerate_in_asset. case_if.
  { exists feerate. split; [done|]. split; [done|]. left. unfold least_cover. lia. }
  rewrite wrap_u64_small by lia. rewrite u64_mul_add_div_spec by lia. cbn.
  pose proof (ceil_div_least_cover feerate rate ltac:(lia) ltac:(lia)) as Hc.
  assert (0 <= (feerate * 100000000 + (rate - 1)) / rate) by (apply Z.div_pos; lia).
  set (c := (feerate * 100000000 + (rate - 1)) / rate) in *.
  eexists. split; [done|]. case_if.
  - split; [lia|]. right. split; [done|]. unfold least_cover in *. intros v' Hv'. nia.
  - split; [lia|]. left. replace (Z.min _ c) with c by lia. done.
Qed.

Lemma feerate_in_asset_covers_witness :
  exists v, feerate_in_asset 253 30000000000 = Ret v /\ in_u32 v.
Proof.
  destruct (feerate_in_asset_covers 253 30000000000) as (v & H & Hv & _); [lia|lia|].
  exists v. split; [exact H|exact Hv].
Defined.

Lemma amount_tx_fee_spec params fee_per_kw weight :
  in_u32 fee_per_kw -> 0 <= weight -> fee_per_kw * weight <= UINT64_MAX - 999 -> weight <= UINT64_MAX ->
  amount_tx_fee params fee_per_kw weight =
  Ret (mk_sat ((fee_per_kw * weight
     + if match params with Some p => has_anchor_header p | None => false end
       then 999 else 0) / 1000)).
Proof.
  intros Hf Hw Hm Hw2. unfold amount_tx_fee, amount_tx_fee_rounded_down.
  rewrite mul_overflows_u64_spec by lia. replace (UINT64_MAX <? _) with false by lia.
  rewrite (wrap_u64_small (fee_per_kw * weight)) by nia.
  destruct (match params with Some p => has_anchor_header p | None => false end); cbn [assert_then negb].
  - rewrite wrap_u64_small by nia.
    replace (_ || _) with true; [done|].
    destruct (Z.eqb_spec fee_per_kw 0), (Z.eqb_spec weight 0); rewrite ?orb_true_r; try done.
    assert (1 <= (fee_per_kw * weight + 999) / 1000) by (apply Z.div_le_lower_bound; nia). lia.
  - by rewrite Z.add_0_r.
Qed.

(** On a Sequentia network a transaction fee is never short of its feerate,
    by less than one atom too many, and never 0 for a positive feerate; on the
    other networks it is the largest whole number of satoshis within the
    feerate.  Both assertions of the source hold for any real weight. *)
Theorem amount_tx_fee_covers p fee_per_kw weight :
  in_u32 fee_per_kw -> 0 <= weight <= UINT32_MAX ->
  exists fee, amount_tx_fee (Some p) fee_per_kw weight = Ret (mk_sat fee) /\
    if has_anchor_header p
    then fee_per_kw * weight <= 1000 * fee < fee_per_kw * weight + 1000 /\
         (0 < fee_per_kw -> 0 < weight -> 0 < fee)
    else 1000 * fee <= fee_per_kw * weight < 1000 * fee + 1000.
Proof.
  intros Hf Hw. rewrite amount_tx_fee_spec by nia. eexists. split; [done|].
  assert (0 <= fee_per_kw * weight) by nia.
  assert (0 < fee_per_kw -> 0 < weight -> 0 < fee_per_kw * weight) by nia.
  generalize dependent (fee_per_kw * weight). intros m Hm Hpos.
  destruct (has_anchor_header p); Z.div_mod_to_equations; lia.
Qed.

Lemma amount_tx_fee_covers_witness :
  exists p fee, chainparams_for_network "sequentia-testnet" = Some p /\
    amount_tx_fee (Some p) 253 724 = Ret (mk_sat fee) /\ fee = 184.
Proof.
  destruct (chainparams_for_network "sequentia-testnet") as [p|] eqn:E; [|discriminate].
  assert (has_anchor_header p = true) as Ha by (vm_compute in E; by simplify_eq).
  destruct (amount_tx_fee_covers p 253 724) as (fee & H & Hb); [lia|lia|].
  exists p, fee. rewrite Ha in Hb. split; [done|]. split; [exact H|lia].
Defined.

(** [amount_msat_mul_div] guards [mul * div], not the result, so a
    proportional fee above 100% of a large amount wraps: the routing fee comes
    out smaller than the fee BOLT 7 asks for, and the call reports success. *)
Theorem amount_msat_fee_wraps :
  exists fee, amount_msat_fee (mk_msat 9223372036854775808) 0 2000000 = Ret (Some fee) /\
    millisatoshis fee < bolt7_fee 9223372036854775808 0 2000000.
Proof. eexists. split; [reflexivity|]. vm_compute. reflexivity. Qed.

(** The divisor of [amount_msat_sub_fee] is a [u32] sum: at
    [fee_proportional_millionths = 2^32 - 1000000] it wraps to 0 and the
    division kills the process, for every input that covers the base fee. *)
Theorem amount_msat_sub_fee_div_zero input base :
  wf_msat input -> in_u32 base -> base <= millisatoshis input ->
  amount_msat_sub_fee input base 4293967296 = Crash.
Proof.
  intros Hi Hb Hle. unfold amount_msat_sub_fee, amount_msat_sub, amount_msat.
  replace (millisatoshis input <? millisatoshis (mk_msat base)) with false by (simpl; lia).
  reflexivity.
Qed.

Lemma amount_msat_sub_fee_div_zero_witness :
  amount_msat_sub_fee (mk_msat 100000) 1000 4293967296 = Crash.
Proof. apply (amount_msat_sub_fee_div_zero (mk_msat 100000) 1000); simpl; lia. Defined.
