(* ===== verification/AmountText.v ===== *)
(** * Text forms of amounts (common/amount.c, the parse and fmt functions)

    A C string with its length is a [list ascii]; a NUL inside it ends the
    scan, as in the source.  A pointer into the string with a length is the
    sublist it designates, and a NULL pointer is [None]. *)

From Stdlib Require Import Ascii String.
From stdpp Require Import list.
From S2P Require Import Prelude Chainparams Amount.
Local Open Scope Z_scope.

Definition text (s : string) : list ascii := list_ascii_of_string s.

Definition code (c : ascii) : Z := Z.of_N (N_of_ascii c).
Definition cisdigit (c : ascii) : bool := (48 <=? code c) && (code c <=? 57).

(** ** Formatting *)

Definition digit (d : Z) : ascii := ascii_of_N (Z.to_N (48 + d)).

(** Decimal digits of [n], most significant first, in front of [acc]. *)
Fixpoint dec_digits (fuel : nat) (n : Z) (acc : list ascii) : list ascii :=
  match fuel with
  | O => acc
  | S fuel => if n <? 10 then digit n :: acc
              else dec_digits fuel (n / 10) (digit (n mod 10) :: acc)
  end.

(** The [PRIu64] conversion: twenty digits are enough for a [u64]. *)
Definition PRIu64 (n : Z) : list ascii := dec_digits 20 n [].

(** The same, padded on the left with zeros to width [w]. *)
Definition PRIu64_0 (w : nat) (n : Z) : list ascii :=
  let d := PRIu64 n in replicate (w - length d) "0"%char ++ d.

Definition fmt_amount_msat_btc (msat : amount_msat_t) (append_unit : bool) : list ascii :=
  if millisatoshis msat =? 0 then text (if append_unit then "0btc" else "0")
  else PRIu64 (millisatoshis msat / MSAT_PER_BTC) ++ ["."%char] ++
       PRIu64_0 11 (millisatoshis msat mod MSAT_PER_BTC) ++
       text (if append_unit then "btc" else "").

Definition fmt_amount_msat (msat : amount_msat_t) : list ascii :=
  PRIu64 (millisatoshis msat) ++ text "msat".

(** The loop that cuts the trailing zeros of [last], on the reversed text. *)
Fixpoint cut_zeros (rev_last : list ascii) : list ascii :=
  match rev_last with
  | c :: l => if bool_decide (c = "0"%char) then cut_zeros l else rev_last
  | [] => []
  end.

Definition fmt_amount_m_as_sat (msat : amount_msat_t) : list ascii :=
  let last :=
    if negb (millisatoshis msat mod MSAT_PER_SAT =? 0)
    then reverse (cut_zeros (reverse
           ("."%char :: PRIu64_0 3 (millisatoshis msat mod MSAT_PER_SAT))))
    else [] in
  PRIu64 (millisatoshis msat / MSAT_PER_SAT) ++ last ++ text "sat".

Definition fmt_amount_sat_btc (sat : amount_sat_t) (append_unit : bool) : list ascii :=
  if satoshis sat =? 0 then text (if append_unit then "0btc" else "0")
  else PRIu64 (satoshis sat / SAT_PER_BTC) ++ ["."%char] ++
       PRIu64_0 8 (satoshis sat mod SAT_PER_BTC) ++
       text (if append_unit then "btc" else "").

Definition fmt_amount_sat (sat : amount_sat_t) : list ascii :=
  PRIu64 (satoshis sat) ++ text "sat".

(** ** Parsing *)

(** The digits a scan consumes, and what it stops at. *)
Fixpoint span_digits (s : list ascii) : list ascii * list ascii :=
  match s with
  | c :: s' => if cisdigit c then let '(d, r) := span_digits s' in (c :: d, r)
               else ([], s)
  | [] => ([], [])
  end.

(** [i >= slen || str[i] == NUL]. *)
Definition at_end (s : list ascii) : bool :=
  match s with [] => true | c :: _ => code c =? 0 end.

Record broken_up := {
  whole_number : list ascii;
  post_decimal : option (list ascii);
  suffix : option (list ascii);
}.

Definition breakup (str : list ascii) : option broken_up :=
  let '(whole, rest) := span_digits str in
  if at_end rest then
    match whole with
    | [] => None
    | _ => Some {| whole_number := whole; post_decimal := None; suffix := None |}
    end
  else
    match rest with
    | "."%char :: rest =>
        let '(post, rest) := span_digits rest in
        if at_end rest then
          match post with
          | [] => None
          | _ => Some {| whole_number := whole; post_decimal := Some post; suffix := None |}
          end
        else Some {| whole_number := whole; post_decimal := Some post; suffix := Some rest |}
    | _ => Some {| whole_number := whole; post_decimal := None; suffix := Some rest |}
    end.

(** The digits of [s] onto [res], each step checked for overflow. *)
Fixpoint from_digits (res : Z) (s : list ascii) : outcome (option Z) :=
  match s with
  | [] => mret (Some res)
  | c :: s =>
      if mul_overflows_u64 res 10 then mret None
      else
        let res := wrap_u64 (res * 10) in
        assert_then (cisdigit c)
          (if add_overflows_u64 res (code c - 48) then mret None
           else from_digits (wrap_u64 (res + (code c - 48))) s)
  end.

(** [while (tens_factor > 0)]. *)
Fixpoint times_tens (tens_factor : nat) (res : Z) : option Z :=
  match tens_factor with
  | O => Some res
  | S t => if mul_overflows_u64 res 10 then None else times_tens t (wrap_u64 (res * 10))
  end.

Definition from_number (s : list ascii) (tens_factor : nat) : outcome (option Z) :=
  match s with
  | [] => mret None
  | _ => o ← from_digits 0 s; mret (o ≫= times_tens tens_factor)
  end.

Definition from_numbers (s1 : list ascii) (tens_factor : nat) (s2 : list ascii)
  : outcome (option Z) :=
  if (tens_factor <? length s2)%nat then mret None
  else
    p1 ← from_number s1 tens_factor;
    match p1 with
    | None => mret None
    | Some p1 =>
        p2 ← from_number s2 (tens_factor - length s2);
        match p2 with
        | None => mret None
        | Some p2 => mret (if add_overflows_u64 p1 p2 then None else Some (wrap_u64 (p1 + p2)))
        end
    end.

(** ccan/mem: [memstarts_str] and [memends]; a NULL pointer has length 0. *)
Fixpoint starts (p s : list ascii) : bool :=
  match p, s with
  | [], _ => true
  | c :: p, d :: s => bool_decide (c = d) && starts p s
  | _ :: _, [] => false
  end.

Definition memstarts_str (a : option (list ascii)) (s : string) : bool :=
  starts (text s) (default [] a).

Definition memends (s suffix : list ascii) : bool := starts (reverse suffix) (reverse s).

Definition parse_amount_msat (s : list ascii) : outcome (option amount_msat_t) :=
  match breakup s with
  | None => mret None
  | Some b =>
      let no_decimal := bool_decide (post_decimal b = None) in
      fmap mk_msat <$>
      if no_decimal && bool_decide (suffix b = None) then from_number (whole_number b) 0
      else if no_decimal && memstarts_str (suffix b) "msat" then from_number (whole_number b) 0
      else if no_decimal && memstarts_str (suffix b) "sat" then from_number (whole_number b) 3
      else if memstarts_str (suffix b) "btc" then
        match post_decimal b with
        | Some ((_ :: _) as p) => from_numbers (whole_number b) 11 p
        | _ => from_number (whole_number b) 11
        end
      else mret None
  end.

Definition parse_amount_sat (s : list ascii) : outcome (option amount_sat_t) :=
  match breakup s with
  | None => mret None
  | Some b =>
      let no_decimal := bool_decide (post_decimal b = None) in
      let whole := whole_number b in
      fmap mk_sat <$>
      if no_decimal && bool_decide (suffix b = None) then from_number whole 0
      else if no_decimal && memstarts_str (suffix b) "sat" then from_number whole 0
      else if no_decimal && memstarts_str (suffix b) "msat" then
        if negb (memends whole (text "000")) then
          if memstarts_str (Some whole) "0" then from_number whole 0 else mret None
        else from_number (take (length whole - 3) whole) 0
      else if memstarts_str (suffix b) "btc" then
        match post_decimal b with
        | Some ((_ :: _) as p) => from_numbers whole 8 p
        | _ => from_number whole 8
        end
      else mret None
  end.

(** ** Theorems *)

(** The value a digit string denotes. *)
Fixpoint decval_acc (res : Z) (s : list ascii) : Z :=
  match s with [] => res | c :: s => decval_acc (res * 10 + (code c - 48)) s end.
Definition decval (s : list ascii) : Z := decval_acc 0 s.

Abbreviation digits s := (forallb cisdigit s = true) (only parsing).

Lemma cisdigit_range c : cisdigit c = true -> 0 <= code c - 48 <= 9.
Proof. unfold cisdigit. lia. Qed.

Lemma decval_acc_ge s : forall res, digits s -> 0 <= res -> res <= decval_acc res s.
Proof.
  induction s as [|c s IH]; intros res Hd Hr; simpl in *; [lia|].
  apply andb_prop in Hd as [Hc%cisdigit_range Hd].
  specialize (IH (res * 10 + (code c - 48)) Hd ltac:(lia)). lia.
Qed.

Lemma from_digits_spec s : forall res,
  digits s -> in_u64 res ->
  from_digits res s = Ret (if decval_acc res s <=? UINT64_MAX then Some (decval_acc res s) else None).
Proof.
  induction s as [|c s IH]; intros res Hd Hr; simpl in *.
  { case_if; [done|lia]. }
  apply andb_prop in Hd as [Hc Hd]. rewrite Hc. pose proof (cisdigit_range c Hc).
  rewrite mul_overflows_u64_spec by lia.
  pose proof (decval_acc_ge s (res * 10 + (code c - 48)) Hd ltac:(lia)).
  destruct (Z.ltb_spec UINT64_MAX (res * 10)); simpl; [case_if; [exfalso; lia|done]|].
  rewrite (wrap_u64_small (res * 10)), add_overflows_u64_spec by lia.
  destruct (Z.ltb_spec UINT64_MAX (res * 10 + (code c - 48))); simpl; [case_if; [exfalso; lia|done]|].
  rewrite wrap_u64_small by lia. apply IH; [done|lia].
Qed.

Lemma times_tens_spec t : forall res,
  in_u64 res ->
  times_tens t res =
  if res * 10 ^ Z.of_nat t <=? UINT64_MAX then Some (res * 10 ^ Z.of_nat t) else None.
Proof.
  induction t as [|t IH]; intros res Hr; simpl times_tens.
  { rewrite Z.mul_1_r. case_if; [done|lia]. }
  rewrite mul_overflows_u64_spec by lia.
  replace (Z.of_nat (S t)) with (1 + Z.of_nat t) by lia.
  rewrite Z.pow_add_r, Z.mul_assoc by lia. change (10 ^ 1) with 10.
  pose proof (Z.pow_pos_nonneg 10 (Z.of_nat t) eq_refl ltac:(lia)).
  destruct (Z.ltb_spec UINT64_MAX (res * 10)); [case_if; [nia|done]|].
  rewrite wrap_u64_small by lia. apply IH. lia.
Qed.

(** Parsing a decimal number never wraps and never trips the digit
    assertion: it gives the number scaled by the unit when that fits 64 bits,
    and refuses it otherwise. *)
Lemma from_number_exact s tens_factor :
  digits s -> s <> [] ->
  from_number s tens_factor =
  Ret (let v := decval s * 10 ^ Z.of_nat tens_factor in
       if v <=? UINT64_MAX then Some v else None).
Proof.
  intros Hd Hne. unfold from_number. destruct s as [|c s']; [done|].
  rewrite from_digits_spec by (done || lia). cbv zeta. fold (decval (c :: s')).
  assert (0 <= decval (c :: s')) as Hv by (apply decval_acc_ge; [done|lia]).
  generalize dependent (decval (c :: s')). intros v Hv. unfold mbind, outcome_bind.
  pose proof (Z.pow_pos_nonneg 10 (Z.of_nat tens_factor) eq_refl ltac:(lia)).
  destruct (Z.leb_spec v UINT64_MAX); simpl; [rewrite times_tens_spec by lia; done|].
  case_if; [nia|done].
Qed.

(** *** Printing and parsing back *)

Lemma code_digit d : 0 <= d <= 9 -> code (digit d) = 48 + d.
Proof.
  intros Hd. unfold code, digit. rewrite N_ascii_embedding; [lia|].
  change 256%N with (Z.to_N 256). lia.
Qed.

Lemma cisdigit_digit d : 0 <= d <= 9 -> cisdigit (digit d) = true.
Proof. intros Hd. unfold cisdigit. rewrite code_digit by done. lia. Qed.

Lemma dec_digits_spec fuel : forall n acc,
  0 <= n < 10 ^ Z.of_nat fuel -> (0 < fuel)%nat -> digits acc ->
  digits (dec_digits fuel n acc) /\ dec_digits fuel n acc <> [] /\
  decval (dec_digits fuel n acc) = decval_acc n acc.
Proof.
  induction fuel as [|fuel IH]; intros n acc Hn Hf Ha; [lia|]. simpl dec_digits.
  destruct (Z.ltb_spec n 10).
  { simpl. rewrite cisdigit_digit, Ha by lia. unfold decval. simpl.
    rewrite code_digit by lia. split_and!; [done..|]. f_equal. lia. }
  pose proof (Z.mod_pos_bound n 10 eq_refl).
  rewrite Nat2Z.inj_succ, Z.pow_succ_r in Hn by lia.
  assert (0 <= n / 10 < 10 ^ Z.of_nat fuel).
  { split; [apply Z.div_pos; lia|apply Z.div_lt_upper_bound; lia]. }
  assert (0 < fuel)%nat by (destruct fuel; simpl in *; lia).
  destruct (IH (n / 10) (digit (n mod 10) :: acc)) as (? & ? & ->); [done..| |].
  { simpl. by rewrite cisdigit_digit, Ha by lia. }
  split_and!; [done..|]. simpl. rewrite code_digit by lia. f_equal.
  rewrite (Z.div_mod n 10) at 3; lia.
Qed.

Lemma dec_digits_length fuel : forall n acc w,
  0 <= n < 10 ^ Z.of_nat w -> (0 < w)%nat ->
  (length (dec_digits fuel n acc) <= w + length acc)%nat.
Proof.
  induction fuel as [|fuel IH]; intros n acc w Hn Hw; simpl; [lia|].
  destruct (Z.ltb_spec n 10); simpl; [lia|].
  destruct w as [|w]; [lia|]. rewrite Nat2Z.inj_succ, Z.pow_succ_r in Hn by lia.
  assert (0 < w)%nat by (destruct w; simpl in *; lia).
  specialize (IH (n / 10) (digit (n mod 10) :: acc) w). simpl in IH.
  etransitivity; [apply IH|lia]; [|done].
  split; [apply Z.div_pos; lia|apply Z.div_lt_upper_bound; lia].
Qed.

Lemma PRIu64_spec n :
  in_u64 n -> digits (PRIu64 n) /\ PRIu64 n <> [] /\ decval (PRIu64 n) = n.
Proof. intros Hn. apply (dec_digits_spec 20 n []); [simpl; lia|lia|done]. Qed.

Lemma decval_zeros k s : decval (replicate k "0"%char ++ s) = decval s.
Proof. induction k; [done|]. unfold decval in *. simpl. change (0 * 10 + _) with 0. done. Qed.

Lemma PRIu64_0_spec w n :
  in_u64 n -> n < 10 ^ Z.of_nat w -> (0 < w)%nat ->
  digits (PRIu64_0 w n) /\ length (PRIu64_0 w n) = w /\ decval (PRIu64_0 w n) = n.
Proof.
  intros Hn Hw Hpos. destruct (PRIu64_spec n Hn) as (Hd & _ & Hv). unfold PRIu64_0.
  rewrite forallb_app, Hd, decval_zeros, Hv, length_app, length_replicate.
  pose proof (dec_digits_length 20 n [] w ltac:(lia) Hpos) as Hl.
  fold (PRIu64 n) in Hl. change (length (@nil ascii)) with 0%nat in Hl. split_and!; [|lia|done]. rewrite andb_true_r.
  apply forallb_forall. intros c Hc%list_elem_of_In%elem_of_replicate. destruct Hc as [? ?]. by subst c.
Qed.

Lemma span_digits_app ds rest :
  digits ds -> match rest with [] => True | c :: _ => cisdigit c = false end ->
  span_digits (ds ++ rest) = (ds, rest).
Proof.
  induction ds as [|c ds IH]; intros Hd Hr; simpl in *.
  - destruct rest as [|c rest]; [done|]. simpl. by rewrite Hr.
  - apply andb_prop in Hd as [-> Hd]. by rewrite IH.
Qed.

(** A text that can follow the digits: neither a digit, nor NUL, nor a dot. *)
Definition unit_text (s : list ascii) : Prop :=
  match s with
  | [] => False
  | c :: _ => cisdigit c = false /\ code c <> 0 /\ c <> "."%char
  end.

Lemma breakup_whole ds u :
  digits ds -> unit_text u ->
  breakup (ds ++ u) = Some {| whole_number := ds; post_decimal := None; suffix := Some u |}.
Proof.
  intros Hd Hu. unfold breakup. destruct u as [|c u]; [done|]. destruct Hu as (Hc & Hn & Hdot).
  rewrite span_digits_app by done. simpl. replace (code c =? 0) with false by lia.
  by destruct c as [[] [] [] [] [] [] [] []].
Qed.

Lemma breakup_decimal ds ps u :
  digits ds -> digits ps -> unit_text u ->
  breakup (ds ++ "."%char :: ps ++ u) =
  Some {| whole_number := ds; post_decimal := Some ps; suffix := Some u |}.
Proof.
  intros Hd Hp Hu. unfold breakup. destruct u as [|c u]; [done|]. destruct Hu as (Hc & Hn & _).
  rewrite span_digits_app by done. simpl. rewrite span_digits_app by done. simpl.
  by replace (code c =? 0) with false by lia.
Qed.

Lemma from_numbers_exact s1 t s2 :
  digits s1 -> s1 <> [] -> digits s2 -> length s2 = t -> s2 <> [] ->
  decval s1 * 10 ^ Z.of_nat t + decval s2 <= UINT64_MAX ->
  from_numbers s1 t s2 = Ret (Some (decval s1 * 10 ^ Z.of_nat t + decval s2)).
Proof.
  intros H1 N1 H2 Hl N2 Hm. unfold from_numbers.
  replace (t <? length s2)%nat with false by (symmetry; apply Nat.ltb_ge; lia).
  replace (t - length s2)%nat with 0%nat by lia.
  assert (0 <= decval s1) by (apply decval_acc_ge; [done|lia]).
  assert (0 <= decval s2) by (apply decval_acc_ge; [done|lia]).
  pose proof (Z.pow_pos_nonneg 10 (Z.of_nat t) eq_refl ltac:(lia)).
  rewrite !from_number_exact by done. cbv zeta. change (10 ^ Z.of_nat 0) with 1.
  rewrite Z.mul_1_r. replace (_ * _ <=? UINT64_MAX) with true by nia. cbn.
  replace (decval s2 <=? UINT64_MAX) with true by nia.
  rewrite add_overflows_u64_spec by nia. replace (UINT64_MAX <? _) with false by lia.
  by rewrite wrap_u64_small by nia.
Qed.

(** The BTC form: whole part, a dot, and a fraction of fixed width [w]. *)
Lemma from_numbers_btc x w u B :
  B = 10 ^ Z.of_nat w -> in_u64 x -> (0 < w <= 11)%nat -> unit_text u ->
  exists b, breakup (PRIu64 (x / B) ++ ["."%char] ++ PRIu64_0 w (x mod B) ++ u) = Some b /\
    suffix b = Some u /\ (exists p, post_decimal b = Some p /\ p <> [] /\
      from_numbers (whole_number b) w p = Ret (Some x)).
Proof.
  intros HB Hx Hw Hu. assert (0 < B) by (subst; apply Z.pow_pos_nonneg; lia).
  assert (B <= 10 ^ 11) by (subst; apply Z.pow_le_mono_r; lia).
  assert (in_u64 (x / B)) by (split; [apply Z.div_pos; lia|apply Z.div_le_upper_bound; nia]).
  pose proof (Z.mod_pos_bound x B ltac:(lia)).
  destruct (PRIu64_spec (x / B)) as (Hd & Hne & Hv); [done|].
  destruct (PRIu64_0_spec w (x mod B)) as (Hd' & Hl' & Hv'); [lia|lia|lia|].
  simpl app. rewrite breakup_decimal by done. eexists. split; [done|]. split; [done|].
  eexists. simpl. split; [done|]. assert (PRIu64_0 w (x mod B) <> []).
  { intros E. rewrite E in Hl'. simpl in Hl'. lia. }
  split; [done|]. rewrite from_numbers_exact; rewrite ?Hv, ?Hv'; try done; rewrite <- ?HB;
    pose proof (Z.div_mod x B ltac:(lia)); [do 2 f_equal|]; lia.
Qed.

(** Every millisatoshi amount survives printing and parsing, in the plain
    form and in the BTC form with its unit. *)
Theorem parse_fmt_amount_msat m :
  wf_msat m ->
  parse_amount_msat (fmt_amount_msat m) = Ret (Some m) /\
  parse_amount_msat (fmt_amount_msat_btc m true) = Ret (Some m).
Proof.
  destruct m as [x]. simpl. intros Hx. split.
  - unfold fmt_amount_msat. simpl. destruct (PRIu64_spec x Hx) as (Hd & Hne & Hv).
    unfold parse_amount_msat. rewrite breakup_whole by done. simpl.
    rewrite from_number_exact, Hv by done. cbv zeta. rewrite Z.mul_1_r.
    by replace (x <=? UINT64_MAX) with true by lia.
  - unfold fmt_amount_msat_btc. simpl millisatoshis.
    destruct (Z.eqb_spec x 0) as [->|]; [done|]. unfold parse_amount_msat.
    destruct (from_numbers_btc x 11 (text "btc") MSAT_PER_BTC) as (b & -> & Hs & [|c p] & Hp & Hne & Hf);
      [done|done|lia|done|done|]. rewrite Hs, Hp. simpl. by rewrite Hf.
Qed.

Lemma parse_fmt_amount_msat_witness :
  parse_amount_msat (fmt_amount_msat_btc (mk_msat 123456789012) true) =
  Ret (Some (mk_msat 123456789012)).
Proof. apply (parse_fmt_amount_msat (mk_msat 123456789012)). simpl. lia. Defined.

(** The same for satoshi amounts. *)
Theorem parse_fmt_amount_sat a :
  wf_sat a ->
  parse_amount_sat (fmt_amount_sat a) = Ret (Some a) /\
  parse_amount_sat (fmt_amount_sat_btc a true) = Ret (Some a).
Proof.
  destruct a as [x]. simpl. intros Hx. split.
  - unfold fmt_amount_sat. simpl. destruct (PRIu64_spec x Hx) as (Hd & Hne & Hv).
    unfold parse_amount_sat. rewrite breakup_whole by done. simpl.
    rewrite from_number_exact, Hv by done. cbv zeta. rewrite Z.mul_1_r.
    by replace (x <=? UINT64_MAX) with true by lia.
  - unfold fmt_amount_sat_btc. simpl satoshis.
    destruct (Z.eqb_spec x 0) as [->|]; [done|]. unfold parse_amount_sat.
    destruct (from_numbers_btc x 8 (text "btc") SAT_PER_BTC) as (b & -> & Hs & [|c p] & Hp & Hne & Hf);
      [done|done|lia|done|done|]. rewrite Hs, Hp. simpl. by rewrite Hf.
Qed.

Lemma parse_fmt_amount_sat_witness :
  parse_amount_sat (fmt_amount_sat_btc (mk_sat 123456789) true) = Ret (Some (mk_sat 123456789)).
Proof. apply (parse_fmt_amount_sat (mk_sat 123456789)). simpl. lia. Defined.

Lemma span_digits_digits s d r : span_digits s = (d, r) -> digits d.
Proof.
  revert d r. induction s as [|c s IH]; intros d r; simpl; [by intros [= <- _]|].
  destruct (cisdigit c) eqn:E; [|by intros [= <- _]].
  destruct (span_digits s) as [d' r']. intros [= <- _]. simpl. rewrite E. eauto.
Qed.

Lemma breakup_digits s b :
  breakup s = Some b ->
  digits (whole_number b) /\ (forall p, post_decimal b = Some p -> digits p).
Proof.
  unfold breakup. destruct (span_digits s) as [w r] eqn:E1.
  apply span_digits_digits in E1. intros H. repeat case_match; simplify_eq; simpl;
    (split; [done|]); intros; simplify_eq; eauto using span_digits_digits.
Qed.

Lemma from_number_total s t : digits s -> exists r, from_number s t = Ret r.
Proof.
  intros Hd. destruct s as [|c s]; [by eexists|]. rewrite from_number_exact by done. by eexists.
Qed.

Lemma from_numbers_total s1 t s2 :
  digits s1 -> digits s2 -> exists r, from_numbers s1 t s2 = Ret r.
Proof.
  intros H1 H2. unfold from_numbers. case_if; [by eexists|].
  destruct (from_number_total s1 t H1) as [[p1|] ->]; [|by eexists].
  destruct (from_number_total s2 (t - length s2) H2) as [[p2|] E]; cbn; rewrite E; by eexists.
Qed.

Lemma digits_take n s : digits s -> digits (take n s).
Proof.
  rewrite !forallb_forall. intros H c Hc. apply H.
  apply list_elem_of_In. apply list_elem_of_In in Hc. by eapply elem_of_take in Hc as (?&?%list_elem_of_lookup_2&?).
Qed.

Create HintDb parse.
#[export] Hint Resolve from_number_total from_numbers_total digits_take : parse.

(** No text crashes the parsers: the digit assertion of [from_number] is
    unreachable from [parse_amount_msat] and [parse_amount_sat]. *)
Theorem parse_amount_total s :
  (exists r, parse_amount_msat s = Ret r) /\ (exists r, parse_amount_sat s = Ret r).
Proof.
  unfold parse_amount_msat, parse_amount_sat.
  destruct (breakup s) as [b|] eqn:E; [|split; by eexists].
  destruct (breakup_digits s b E) as [Hw Hp].
  assert (forall A B (f : A -> B) (o : outcome A), (exists r, o = Ret r) ->
            exists r, f <$> o = Ret r) as Hmap by (intros A B f o [r ->]; by eexists).
  split; apply Hmap; repeat case_match; try (by eexists); auto with parse.
Qed.

(** A number of millisatoshis written with a leading zero is read as that
    many satoshis, a thousand times as much: [parse_amount_sat] means to accept
    only zero there. *)
Theorem parse_amount_sat_leading_zero d :
  1 <= d <= 9 ->
  parse_amount_sat ("0"%char :: digit d :: text "msat") = Ret (Some (mk_sat d)) /\
  parse_amount_msat ("0"%char :: digit d :: text "msat") = Ret (Some (mk_msat d)).
Proof.
  intros Hd. assert (d = 1 \/ d = 2 \/ d = 3 \/ d = 4 \/ d = 5 \/ d = 6 \/ d = 7 \/ d = 8 \/ d = 9)
    as [->|[->|[->|[->|[->|[->|[->|[->| ->]]]]]]]] by lia; split; reflexivity.
Qed.

Lemma parse_amount_sat_leading_zero_witness :
  parse_amount_sat (text "01msat") = Ret (Some (mk_sat 1)).
Proof. apply (parse_amount_sat_leading_zero 1). lia. Defined.
