(* ===== verification/HtlcState.v ===== *)
(** * The HTLC state machine (common/htlc_state.h, common/htlc_state.c,
    common/htlc.h)

    The twenty states of [enum htlc_state] are the constructors, in the order
    of the enumeration; [HTLC_STATE_INVALID], the value after the last one, is
    the [None] of [state_succ].  The flag word of a state is an integer with
    the bits of the source, tested with [Z.land]. *)

From S2P Require Import Prelude.
Local Open Scope Z_scope.

Inductive side := LOCAL | REMOTE.

#[export] Instance side_eq_dec : EqDecision side.
Proof. solve_decision. Defined.

Definition side_num (s : side) : Z := match s with LOCAL => 0 | REMOTE => 1 end.

(** [!side]. *)
Definition other (s : side) : side := match s with LOCAL => REMOTE | REMOTE => LOCAL end.

Inductive htlc_state :=
| SENT_ADD_HTLC
| SENT_ADD_COMMIT
| RCVD_ADD_REVOCATION
| RCVD_ADD_ACK_COMMIT
| SENT_ADD_ACK_REVOCATION
| RCVD_REMOVE_HTLC
| RCVD_REMOVE_COMMIT
| SENT_REMOVE_REVOCATION
| SENT_REMOVE_ACK_COMMIT
| RCVD_REMOVE_ACK_REVOCATION
| RCVD_ADD_HTLC
| RCVD_ADD_COMMIT
| SENT_ADD_REVOCATION
| SENT_ADD_ACK_COMMIT
| RCVD_ADD_ACK_REVOCATION
| SENT_REMOVE_HTLC
| SENT_REMOVE_COMMIT
| RCVD_REMOVE_REVOCATION
| RCVD_REMOVE_ACK_COMMIT
| SENT_REMOVE_ACK_REVOCATION.

#[export] Instance htlc_state_eq_dec : EqDecision htlc_state.
Proof. solve_decision. Defined.

(** Every state below [HTLC_STATE_INVALID], in enumeration order. *)
Definition all_states : list htlc_state :=
  [SENT_ADD_HTLC; SENT_ADD_COMMIT; RCVD_ADD_REVOCATION; RCVD_ADD_ACK_COMMIT;
   SENT_ADD_ACK_REVOCATION; RCVD_REMOVE_HTLC; RCVD_REMOVE_COMMIT;
   SENT_REMOVE_REVOCATION; SENT_REMOVE_ACK_COMMIT; RCVD_REMOVE_ACK_REVOCATION;
   RCVD_ADD_HTLC; RCVD_ADD_COMMIT; SENT_ADD_REVOCATION; SENT_ADD_ACK_COMMIT;
   RCVD_ADD_ACK_REVOCATION; SENT_REMOVE_HTLC; SENT_REMOVE_COMMIT;
   RCVD_REMOVE_REVOCATION; RCVD_REMOVE_ACK_COMMIT; SENT_REMOVE_ACK_REVOCATION].

(** The value of the enumerator. *)
Definition state_num (s : htlc_state) : nat :=
  match s with
  | SENT_ADD_HTLC => 0 | SENT_ADD_COMMIT => 1 | RCVD_ADD_REVOCATION => 2
  | RCVD_ADD_ACK_COMMIT => 3 | SENT_ADD_ACK_REVOCATION => 4
  | RCVD_REMOVE_HTLC => 5 | RCVD_REMOVE_COMMIT => 6 | SENT_REMOVE_REVOCATION => 7
  | SENT_REMOVE_ACK_COMMIT => 8 | RCVD_REMOVE_ACK_REVOCATION => 9
  | RCVD_ADD_HTLC => 10 | RCVD_ADD_COMMIT => 11 | SENT_ADD_REVOCATION => 12
  | SENT_ADD_ACK_COMMIT => 13 | RCVD_ADD_ACK_REVOCATION => 14
  | SENT_REMOVE_HTLC => 15 | SENT_REMOVE_COMMIT => 16 | RCVD_REMOVE_REVOCATION => 17
  | RCVD_REMOVE_ACK_COMMIT => 18 | SENT_REMOVE_ACK_REVOCATION => 19
  end%nat.

(** The enumerator of a value, [None] from [HTLC_STATE_INVALID] on. *)
Definition state_of_num (n : nat) : option htlc_state := all_states !! n.

(** [state + 1]. *)
Definition state_succ (s : htlc_state) : option htlc_state :=
  state_of_num (S (state_num s)).

(** ** Flags *)

Definition HTLC_ADDING := 0x1000.
Definition HTLC_REMOVING := 0x2000.
Definition HTLC_F_PENDING := 0x01.
Definition HTLC_F_COMMITTED := 0x02.
Definition HTLC_F_REVOKED := 0x04.
Definition HTLC_F_OWNER := 0x08.
Definition HTLC_F_WAS_COMMITTED := 0x10.
Definition HTLC_F_WILL_SEND := 0x20.

Definition HTLC_FLAG (side : side) (flag : Z) : Z := Z.shiftl flag (side_num side * 6).

Definition HTLC_REMOTE_F_PENDING := HTLC_FLAG REMOTE HTLC_F_PENDING.
Definition HTLC_REMOTE_F_COMMITTED := HTLC_FLAG REMOTE HTLC_F_COMMITTED.
Definition HTLC_REMOTE_F_REVOKED := HTLC_FLAG REMOTE HTLC_F_REVOKED.
Definition HTLC_REMOTE_F_OWNER := HTLC_FLAG REMOTE HTLC_F_OWNER.
Definition HTLC_REMOTE_F_WAS_COMMITTED := HTLC_FLAG REMOTE HTLC_F_WAS_COMMITTED.
Definition HTLC_REMOTE_F_WILL_SEND := HTLC_FLAG REMOTE HTLC_F_WILL_SEND.
Definition HTLC_LOCAL_F_PENDING := HTLC_FLAG LOCAL HTLC_F_PENDING.
Definition HTLC_LOCAL_F_COMMITTED := HTLC_FLAG LOCAL HTLC_F_COMMITTED.
Definition HTLC_LOCAL_F_REVOKED := HTLC_FLAG LOCAL HTLC_F_REVOKED.
Definition HTLC_LOCAL_F_OWNER := HTLC_FLAG LOCAL HTLC_F_OWNER.
Definition HTLC_LOCAL_F_WAS_COMMITTED := HTLC_FLAG LOCAL HTLC_F_WAS_COMMITTED.
Definition HTLC_LOCAL_F_WILL_SEND := HTLC_FLAG LOCAL HTLC_F_WILL_SEND.

(** This is the flags for each state. *)
Definition per_state_bits (state : htlc_state) : Z :=
  match state with
  | SENT_ADD_HTLC =>
      HTLC_ADDING + HTLC_LOCAL_F_OWNER + HTLC_REMOTE_F_PENDING
      + HTLC_REMOTE_F_WILL_SEND + HTLC_LOCAL_F_WILL_SEND
  | SENT_ADD_COMMIT =>
      HTLC_ADDING + HTLC_LOCAL_F_OWNER + HTLC_REMOTE_F_COMMITTED
      + HTLC_REMOTE_F_WAS_COMMITTED + HTLC_REMOTE_F_WILL_SEND + HTLC_LOCAL_F_WILL_SEND
  | RCVD_ADD_REVOCATION =>
      HTLC_ADDING + HTLC_LOCAL_F_OWNER + HTLC_REMOTE_F_COMMITTED
      + HTLC_REMOTE_F_REVOKED + HTLC_LOCAL_F_PENDING + HTLC_REMOTE_F_WAS_COMMITTED
      + HTLC_REMOTE_F_WILL_SEND + HTLC_LOCAL_F_WILL_SEND
  | RCVD_ADD_ACK_COMMIT =>
      HTLC_ADDING + HTLC_LOCAL_F_OWNER + HTLC_REMOTE_F_COMMITTED
      + HTLC_REMOTE_F_REVOKED + HTLC_LOCAL_F_COMMITTED + HTLC_LOCAL_F_WAS_COMMITTED
      + HTLC_REMOTE_F_WAS_COMMITTED + HTLC_LOCAL_F_WILL_SEND
  | SENT_ADD_ACK_REVOCATION =>
      HTLC_LOCAL_F_OWNER + HTLC_REMOTE_F_COMMITTED + HTLC_REMOTE_F_REVOKED
      + HTLC_LOCAL_F_COMMITTED + HTLC_LOCAL_F_REVOKED + HTLC_LOCAL_F_WAS_COMMITTED
      + HTLC_REMOTE_F_WAS_COMMITTED
  | RCVD_REMOVE_HTLC =>
      HTLC_REMOVING + HTLC_LOCAL_F_OWNER + HTLC_LOCAL_F_PENDING
      + HTLC_LOCAL_F_COMMITTED + HTLC_REMOTE_F_COMMITTED + HTLC_LOCAL_F_WAS_COMMITTED
      + HTLC_REMOTE_F_WAS_COMMITTED + HTLC_REMOTE_F_WILL_SEND + HTLC_LOCAL_F_WILL_SEND
  | RCVD_REMOVE_COMMIT =>
      HTLC_REMOVING + HTLC_LOCAL_F_OWNER + HTLC_REMOTE_F_COMMITTED
      + HTLC_LOCAL_F_WAS_COMMITTED + HTLC_REMOTE_F_WAS_COMMITTED
      + HTLC_REMOTE_F_WILL_SEND + HTLC_LOCAL_F_WILL_SEND
  | SENT_REMOVE_REVOCATION =>
      HTLC_REMOVING + HTLC_LOCAL_F_OWNER + HTLC_REMOTE_F_COMMITTED
      + HTLC_LOCAL_F_REVOKED + HTLC_REMOTE_F_PENDING + HTLC_LOCAL_F_WAS_COMMITTED
      + HTLC_REMOTE_F_WAS_COMMITTED + HTLC_REMOTE_F_WILL_SEND + HTLC_LOCAL_F_WILL_SEND
  | SENT_REMOVE_ACK_COMMIT =>
      HTLC_REMOVING + HTLC_LOCAL_F_OWNER + HTLC_LOCAL_F_REVOKED
      + HTLC_LOCAL_F_WAS_COMMITTED + HTLC_REMOTE_F_WAS_COMMITTED
      + HTLC_REMOTE_F_WILL_SEND
  | RCVD_REMOVE_ACK_REVOCATION =>
      HTLC_LOCAL_F_OWNER + HTLC_LOCAL_F_REVOKED + HTLC_REMOTE_F_REVOKED
      + HTLC_LOCAL_F_WAS_COMMITTED + HTLC_REMOTE_F_WAS_COMMITTED
  | RCVD_ADD_HTLC =>
      HTLC_ADDING + HTLC_REMOTE_F_OWNER + HTLC_LOCAL_F_PENDING
      + HTLC_REMOTE_F_WILL_SEND + HTLC_LOCAL_F_WILL_SEND
  | RCVD_ADD_COMMIT =>
      HTLC_ADDING + HTLC_REMOTE_F_OWNER + HTLC_LOCAL_F_COMMITTED
      + HTLC_LOCAL_F_WAS_COMMITTED + HTLC_REMOTE_F_WILL_SEND + HTLC_LOCAL_F_WILL_SEND
  | SENT_ADD_REVOCATION =>
      HTLC_ADDING + HTLC_REMOTE_F_OWNER + HTLC_LOCAL_F_COMMITTED + HTLC_LOCAL_F_REVOKED
      + HTLC_REMOTE_F_PENDING + HTLC_LOCAL_F_WAS_COMMITTED + HTLC_REMOTE_F_WILL_SEND
      + HTLC_LOCAL_F_WILL_SEND
  | SENT_ADD_ACK_COMMIT =>
      HTLC_ADDING + HTLC_REMOTE_F_OWNER + HTLC_LOCAL_F_COMMITTED + HTLC_LOCAL_F_REVOKED
      + HTLC_REMOTE_F_COMMITTED + HTLC_LOCAL_F_WAS_COMMITTED
      + HTLC_REMOTE_F_WAS_COMMITTED + HTLC_REMOTE_F_WILL_SEND
  | RCVD_ADD_ACK_REVOCATION =>
      HTLC_REMOTE_F_OWNER + HTLC_LOCAL_F_COMMITTED + HTLC_LOCAL_F_REVOKED
      + HTLC_REMOTE_F_COMMITTED + HTLC_REMOTE_F_REVOKED + HTLC_LOCAL_F_WAS_COMMITTED
      + HTLC_REMOTE_F_WAS_COMMITTED
  | SENT_REMOVE_HTLC =>
      HTLC_REMOVING + HTLC_REMOTE_F_OWNER + HTLC_REMOTE_F_PENDING
      + HTLC_LOCAL_F_COMMITTED + HTLC_REMOTE_F_COMMITTED + HTLC_LOCAL_F_WAS_COMMITTED
      + HTLC_REMOTE_F_WAS_COMMITTED + HTLC_REMOTE_F_WILL_SEND + HTLC_LOCAL_F_WILL_SEND
  | SENT_REMOVE_COMMIT =>
      HTLC_REMOVING + HTLC_REMOTE_F_OWNER + HTLC_LOCAL_F_COMMITTED
      + HTLC_LOCAL_F_WAS_COMMITTED + HTLC_REMOTE_F_WAS_COMMITTED
      + HTLC_REMOTE_F_WILL_SEND + HTLC_LOCAL_F_WILL_SEND
  | RCVD_REMOVE_REVOCATION =>
      HTLC_REMOVING + HTLC_REMOTE_F_OWNER + HTLC_LOCAL_F_COMMITTED
      + HTLC_REMOTE_F_REVOKED + HTLC_LOCAL_F_PENDING + HTLC_LOCAL_F_WAS_COMMITTED
      + HTLC_REMOTE_F_WAS_COMMITTED + HTLC_REMOTE_F_WILL_SEND + HTLC_LOCAL_F_WILL_SEND
  | RCVD_REMOVE_ACK_COMMIT =>
      HTLC_REMOVING + HTLC_REMOTE_F_OWNER + HTLC_REMOTE_F_REVOKED
      + HTLC_LOCAL_F_WAS_COMMITTED + HTLC_REMOTE_F_WAS_COMMITTED
      + HTLC_LOCAL_F_WILL_SEND
  | SENT_REMOVE_ACK_REVOCATION =>
      HTLC_REMOTE_F_OWNER + HTLC_REMOTE_F_REVOKED + HTLC_LOCAL_F_REVOKED
      + HTLC_LOCAL_F_WAS_COMMITTED + HTLC_REMOTE_F_WAS_COMMITTED
  end.

(** The two assertions hold of every state: the index by the type, the flags
    by [htlc_state_flags_nonzero]. *)
Definition htlc_state_flags (state : htlc_state) : Z := per_state_bits state.

(** [htlc_state_flags(state) & flag] as a condition. *)
Definition state_has (state : htlc_state) (flag : Z) : bool :=
  negb (Z.land (htlc_state_flags state) flag =? 0).

(** [htlc_state_owner]; its assertions are [htlc_state_owner_flags]. *)
Definition htlc_state_owner (state : htlc_state) : side :=
  if (state_num state <? state_num RCVD_ADD_HTLC)%nat then LOCAL else REMOTE.

(** The state the other side's channeld has for the same HTLC (dump_htlc). *)
Definition remote_state (state : htlc_state) : option htlc_state :=
  if (state_num state <=? state_num RCVD_REMOVE_ACK_REVOCATION)%nat
  then state_of_num (state_num state + 10) else state_of_num (state_num state - 10).

Definition htlc_state_is_dead (state : htlc_state) : bool :=
  bool_decide (state = RCVD_REMOVE_ACK_REVOCATION) ||
  bool_decide (state = SENT_REMOVE_ACK_REVOCATION).

(** ** Theorems *)

Lemma htlc_state_flags_nonzero state : htlc_state_flags state <> 0.
Proof. by destruct state. Qed.

Lemma htlc_state_owner_flags state :
  Z.land (htlc_state_flags state) (Z.lor HTLC_REMOTE_F_OWNER HTLC_LOCAL_F_OWNER) =
  HTLC_FLAG (htlc_state_owner state) HTLC_F_OWNER.
Proof. by destruct state. Qed.

Lemma state_has_owner state s :
  state_has state (HTLC_FLAG s HTLC_F_OWNER) = bool_decide (htlc_state_owner state = s).
Proof. by destruct state, s. Qed.

Lemma other_involutive s : other (other s) = s.
Proof. by destruct s. Qed.

Lemma other_ne s : other s <> s.
Proof. by destruct s. Qed.

Lemma state_of_num_num s : state_of_num (state_num s) = Some s.
Proof. by destruct s. Qed.

Lemma state_num_of_num n s : state_of_num n = Some s -> state_num s = n.
Proof.
  intros H. pose proof (lookup_lt_Some _ _ _ H) as Hn. simpl in Hn.
  do 20 (destruct n as [|n]; [injection H as <-; done|]). lia.
Qed.

Lemma all_states_complete s : s ∈ all_states.
Proof. apply list_elem_of_lookup. eexists. apply state_of_num_num. Qed.

(** The place of a state in its HTLC's life, from its addition (0) to its
    removal from both commitments (9). *)
Definition phase (s : htlc_state) : nat :=
  match htlc_state_owner s with LOCAL => state_num s | REMOTE => state_num s - 10 end.

Definition state_at (owner : side) (phase : nat) : option htlc_state :=
  if (phase <? 10)%nat then
    state_of_num (match owner with LOCAL => phase | REMOTE => phase + 10 end)
  else None.

Lemma state_at_phase s : state_at (htlc_state_owner s) (phase s) = Some s.
Proof. by destruct s. Qed.

Lemma phase_lt s : (phase s < 10)%nat.
Proof. apply Nat.ltb_lt. by destruct s. Qed.

(** The phases in which the flag table has an HTLC in a commitment
    transaction, for the side that received it and the side that owns it. *)
Definition spec_committed (owner s : side) (p : nat) : bool :=
  if bool_decide (s = owner) then (3 <=? p)%nat && (p <=? 5)%nat
  else (1 <=? p)%nat && (p <=? 7)%nat.
Definition spec_was_committed (owner s : side) (p : nat) : bool :=
  if bool_decide (s = owner) then (3 <=? p)%nat else (1 <=? p)%nat.
Definition spec_pending (owner s : side) (p : nat) : bool :=
  if bool_decide (s = owner) then (p =? 2)%nat || (p =? 5)%nat
  else (p =? 0)%nat || (p =? 7)%nat.

(** The flag table implements the commitment protocol of an HTLC: in the
    order of its life, the receiver's commitment holds it from the first
    commitment signed to it until the removal is signed back, the owner's from
    the third step to the sixth; each commitment ever holds it exactly from its
    first on; and a change is pending on a side exactly one step before that
    side's commitment changes. *)
Theorem flags_implement_lifecycle state s :
  let owner := htlc_state_owner state in
  let p := phase state in
  state_has state (HTLC_FLAG s HTLC_F_COMMITTED) = spec_committed owner s p /\
  state_has state (HTLC_FLAG s HTLC_F_WAS_COMMITTED) = spec_was_committed owner s p /\
  state_has state (HTLC_FLAG s HTLC_F_PENDING) = spec_pending owner s p /\
  (state_has state (HTLC_FLAG s HTLC_F_PENDING) = true ->
   exists next, state_succ state = Some next /\
     state_has next (HTLC_FLAG s HTLC_F_COMMITTED) <>
     state_has state (HTLC_FLAG s HTLC_F_COMMITTED)).
Proof.
  destruct state, s; repeat split; try done; intros H; try discriminate H; by eexists.
Qed.

(** The two nodes' tables are mirror images: the peer's state of the same
    HTLC, as [dump_htlc] computes it, has every flag of this node's state with
    the two sides exchanged, and mirroring twice is the identity. *)
Theorem remote_state_mirrors state :
  exists peer, remote_state state = Some peer /\ remote_state peer = Some state /\
    htlc_state_owner peer = other (htlc_state_owner state) /\
    (forall s f, f ∈ [HTLC_F_PENDING; HTLC_F_COMMITTED; HTLC_F_REVOKED; HTLC_F_OWNER;
                      HTLC_F_WAS_COMMITTED; HTLC_F_WILL_SEND] ->
       state_has peer (HTLC_FLAG s f) = state_has state (HTLC_FLAG (other s) f)) /\
    state_has peer HTLC_ADDING = state_has state HTLC_ADDING /\
    state_has peer HTLC_REMOVING = state_has state HTLC_REMOVING.
Proof.
  destruct state; eexists; (split; [reflexivity|]); repeat split; try done;
    intros [] f Hf; repeat (apply elem_of_cons in Hf as [->|Hf]; [done|]);
    by apply elem_of_nil in Hf.
Qed.
