(* ===== verification/Wire.v ===== *)
(** * The wire format (wire/towire.c, wire/fromwire.c, common/bigsize.c,
    bitcoin/varint.c, and the wire functions of common/amount.c)

    A byte is a [Z] between 0 and 255.  A writer appends to the message, so it
    is the list of bytes it appends.  A reader moves a cursor, a pointer to the
    bytes left in memory and the count [max] it may read: a state monad over
    [cursor].  As in the source a failed read does not stop the reader, it
    clears the cursor and yields zero; callers look at the cursor. *)

From S2P Require Import Prelude Chainparams.
Local Open Scope Z_scope.

Record cursor := mk_cursor { ptr : option (list Z); max : nat }.

Definition reader (A : Type) : Type := cursor -> A * cursor.

#[export] Instance reader_ret : MRet reader := fun A a c => (a, c).
#[export] Instance reader_bind : MBind reader :=
  fun A B k m c => let '(a, c) := m c in k a c.

(** The message left is in memory; a cleared cursor reads nothing. *)
Definition wf_cursor (c : cursor) : Prop :=
  match ptr c with Some l => (max c <= length l)%nat | None => max c = 0%nat end.

Abbreviation bytes l := (Forall (fun b => in_u8 b) l).

(** ** Big-endian integers *)

(** The [n] low bytes of [v], most significant first. *)
Fixpoint be_bytes (n : nat) (v : Z) : list Z :=
  match n with
  | O => []
  | S n => wrap_u8 (Z.shiftr v (8 * Z.of_nat n)) :: be_bytes n v
  end.

Definition be_value (l : list Z) : Z := fold_left (fun acc b => acc * 256 + b) l 0.

(** Two's complement reading of an unsigned value. *)
Definition to_signed (bits : Z) (v : Z) : Z :=
  if v <? 2 ^ (bits - 1) then v else v - 2 ^ bits.

(** ** Reading *)

Definition fromwire_fail : reader unit := fun _ => (tt, mk_cursor None 0).

(** The pointer to the bytes read; [None] is the NULL it returns on failure. *)
Definition fromwire (n : nat) : reader (option (list Z)) := fun c =>
  if (max c <? n)%nat then (None, mk_cursor None 0)
  else match ptr c with
       | Some l => (Some (take n l), mk_cursor (Some (drop n l)) (max c - n))
       | None => (None, mk_cursor None (max c - n))
       end.

(** The buffer the caller passes as [copy], zeroed on failure. *)
Definition fromwire_copy (n : nat) : reader (list Z) :=
  r ← fromwire n; mret (default (replicate n 0) r).

(** [if (!fromwire(...)) return 0; return be_to_cpu(ret)]. *)
Definition fromwire_be (n : nat) : reader Z :=
  r ← fromwire n; mret (match r with None => 0 | Some l => be_value l end).

Definition fromwire_peektypen (c : cursor) : Z :=
  let '(be_type, c) := fromwire_copy 2 c in
  match ptr c with None => -1 | Some _ => be_value be_type end.

Definition fromwire_peektype (msg : list Z) : Z :=
  fromwire_peektypen (mk_cursor (Some msg) (length msg)).

Definition fromwire_u8 : reader Z := fromwire_be 1.
Definition fromwire_u16 : reader Z := fromwire_be 2.
Definition fromwire_u32 : reader Z := fromwire_be 4.
Definition fromwire_u64 : reader Z := fromwire_be 8.
Definition fromwire_s8 : reader Z := v ← fromwire_u8; mret (to_signed 8 v).
Definition fromwire_s16 : reader Z := v ← fromwire_u16; mret (to_signed 16 v).
Definition fromwire_s32 : reader Z := v ← fromwire_u32; mret (to_signed 32 v).
Definition fromwire_s64 : reader Z := v ← fromwire_u64; mret (to_signed 64 v).

(** Truncated integers of TLVs: the whole of the field, no leading zero.  The
    assertion on [maxlen] holds at the three call sites. *)
Definition fromwire_tlv_uint (maxlen : nat) : reader Z := fun c =>
  let length := max c in
  if (maxlen <? length)%nat then (_ ← fromwire_fail; mret 0) c
  else
    let '(bytes, c) := fromwire_copy length c in
    match bytes with
    | 0 :: _ => (_ ← fromwire_fail; mret 0) c
    | _ => (be_value bytes, c)
    end.

Definition fromwire_tu16 : reader Z := fromwire_tlv_uint 2.
Definition fromwire_tu32 : reader Z := fromwire_tlv_uint 4.
Definition fromwire_tu64 : reader Z := fromwire_tlv_uint 8.

Definition fromwire_bool : reader bool :=
  r ← fromwire 1;
  match r with
  | None => mret false
  | Some l =>
      let ret := be_value l in
      if negb (ret =? 0) && negb (ret =? 1) then _ ← fromwire_fail; mret (negb (ret =? 0))
      else mret (negb (ret =? 0))
  end.

Definition fromwire_jsonrpc_errcode : reader Z := v ← fromwire_u32; mret (to_signed 32 v).
Definition fromwire_sha256 : reader (list Z) := fromwire_copy 32.
Definition fromwire_ripemd160 : reader (list Z) := fromwire_copy 20.
Definition fromwire_u8_array (num : nat) : reader (list Z) := fromwire_copy num.
Definition fromwire_siphash_seed : reader (list Z) := fromwire_copy 16.

(** No array for [num = 0]: NULL without a failure. *)
Definition fromwire_tal_arrn (num : nat) : reader (option (list Z)) := fun c =>
  if (num =? 0)%nat then (None, c)
  else if (max c <? num)%nat then (_ ← fromwire_fail; mret None) c
  else let '(arr, c) := fromwire_u8_array num c in
       match ptr c with None => (None, c) | Some _ => (Some arr, c) end.

Definition fromwire_pad (num : nat) : reader unit := _ ← fromwire num; mret tt.

(** The index of the terminating NUL, [None] at a control character or the end. *)
Fixpoint find_nul (l : list Z) (i : nat) : option nat :=
  match l with
  | [] => None
  | b :: l => if b =? 0 then Some i else if b <? 32 then None else find_nul l (S i)
  end.

Definition fromwire_wirestring : reader (option (list Z)) := fun c =>
  match find_nul (take (max c) (default [] (ptr c))) 0 with
  | Some i => let '(str, c) := fromwire_copy (i + 1) c in (Some str, c)
  | None => (_ ← fromwire_fail; mret None) c
  end.

(** ** Writing *)

Definition towire_u8 (v : Z) : list Z := be_bytes 1 v.
Definition towire_u16 (v : Z) : list Z := be_bytes 2 v.
Definition towire_u32 (v : Z) : list Z := be_bytes 4 v.
Definition towire_u64 (v : Z) : list Z := be_bytes 8 v.
Definition towire_s8 (v : Z) : list Z := towire_u8 (v mod 2 ^ 8).
Definition towire_s16 (v : Z) : list Z := towire_u16 (v mod 2 ^ 16).
Definition towire_s32 (v : Z) : list Z := towire_u32 (v mod 2 ^ 32).
Definition towire_s64 (v : Z) : list Z := towire_u64 (v mod 2 ^ 64).

Fixpoint skip_zeroes (l : list Z) : list Z :=
  match l with b :: l' => if b =? 0 then skip_zeroes l' else l | [] => [] end.

Definition towire_tlv_uint (v : Z) : list Z := skip_zeroes (be_bytes 8 v).
Definition towire_tu16 (v : Z) : list Z := towire_tlv_uint v.
Definition towire_tu32 (v : Z) : list Z := towire_tlv_uint v.
Definition towire_tu64 (v : Z) : list Z := towire_tlv_uint v.
Definition towire_bool (v : bool) : list Z := [if v then 1 else 0].
Definition towire_jsonrpc_errcode (v : Z) : list Z := towire_u32 (v mod 2 ^ 32).
Definition towire_pad (num : nat) : list Z := replicate num 0.
(** [str] up to its NUL, which is sent too. *)
Definition towire_wirestring (str : list Z) : list Z := str ++ [0].

Definition fromwire_amount_msat : reader amount_msat_t :=
  v ← fromwire_u64; mret (mk_msat v).
Definition fromwire_amount_sat : reader amount_sat_t :=
  v ← fromwire_u64; mret (mk_sat v).
Definition towire_amount_msat (msat : amount_msat_t) : list Z := towire_u64 (millisatoshis msat).
Definition towire_amount_sat (sat : amount_sat_t) : list Z := towire_u64 (satoshis sat).

(** ** BigSize and varint *)

Definition bigsize_len (v : Z) : nat :=
  if v <? 0xfd then 1 else if v <=? 0xffff then 3 else if v <=? 0xffffffff then 5 else 9.

(** The bytes put in the buffer; the length returned is theirs. *)
Definition bigsize_put (v : Z) : list Z :=
  let b n := wrap_u8 (Z.shiftr v n) in
  if v <? 0xfd then [wrap_u8 v]
  else if v <=? 0xffff then [0xfd; b 8; wrap_u8 v]
  else if v <=? 0xffffffff then [0xfe; b 24; b 16; b 8; wrap_u8 v]
  else [0xff; b 56; b 48; b 40; b 32; b 24; b 16; b 8; wrap_u8 v].

(** The length and the value; [None] is the length 0 of a failure. *)
Definition bigsize_get (p : list Z) (max : nat) : option (nat * Z) :=
  let at_ i n := Z.shiftl (nth i p 0) n in
  if (max <? 1)%nat then None
  else if nth 0 p 0 =? 0xfd then
    if (max <? 3)%nat then None
    else let val := at_ 1%nat 8 + nth 2 p 0 in
         if val <? 0xfd then None else Some (3%nat, val)
  else if nth 0 p 0 =? 0xfe then
    if (max <? 5)%nat then None
    else let val := at_ 1%nat 24 + at_ 2%nat 16 + at_ 3%nat 8 + nth 4 p 0 in
         if Z.shiftr val 16 =? 0 then None else Some (5%nat, val)
  else if nth 0 p 0 =? 0xff then
    if (max <? 9)%nat then None
    else let val := at_ 1%nat 56 + at_ 2%nat 48 + at_ 3%nat 40 + at_ 4%nat 32
                    + at_ 5%nat 24 + at_ 6%nat 16 + at_ 7%nat 8 + nth 8 p 0 in
         if Z.shiftr val 32 =? 0 then None else Some (9%nat, val)
  else Some (1%nat, nth 0 p 0).

(** The assertion [len <= *max] is [bigsize_get_le]. *)
Definition fromwire_bigsize : reader Z := fun c =>
  match bigsize_get (default [] (ptr c)) (max c) with
  | None => (_ ← fromwire_fail; mret 0) c
  | Some (len, v) => (_ ← fromwire len; mret v) c
  end.

Definition towire_bigsize (val : Z) : list Z := bigsize_put val.

Definition varint_size (v : Z) : nat :=
  if v <? 0xfd then 1 else if v <=? 0xffff then 3 else if v <=? 0xffffffff then 5 else 9.

Definition varint_put (v : Z) : list Z :=
  let b n := wrap_u8 (Z.shiftr v n) in
  if v <? 0xfd then [wrap_u8 v]
  else if v <=? 0xffff then [0xfd; wrap_u8 v; b 8]
  else if v <=? 0xffffffff then [0xfe; wrap_u8 v; b 8; b 16; b 24]
  else [0xff; wrap_u8 v; b 8; b 16; b 24; b 32; b 40; b 48; b 56].

Definition varint_get (p : list Z) (max : nat) : option (nat * Z) :=
  let at_ i n := Z.shiftl (nth i p 0) n in
  if (max <? 1)%nat then None
  else if nth 0 p 0 =? 0xfd then
    if (max <? 3)%nat then None else Some (3%nat, at_ 2%nat 8 + nth 1 p 0)
  else if nth 0 p 0 =? 0xfe then
    if (max <? 5)%nat then None
    else Some (5%nat, at_ 4%nat 24 + at_ 3%nat 16 + at_ 2%nat 8 + nth 1 p 0)
  else if nth 0 p 0 =? 0xff then
    if (max <? 9)%nat then None
    else Some (9%nat, at_ 8%nat 56 + at_ 7%nat 48 + at_ 6%nat 40 + at_ 5%nat 32
                      + at_ 4%nat 24 + at_ 3%nat 16 + at_ 2%nat 8 + nth 1 p 0)
  else Some (1%nat, nth 0 p 0).

(** ** Big-endian lemmas *)

Lemma be_bytes_length n v : length (be_bytes n v) = n.
Proof. induction n; simpl; auto. Qed.

Lemma be_bytes_bytes n v : bytes (be_bytes n v).
Proof. induction n; simpl; constructor; auto using wrap_u8_range. Qed.

Lemma be_value_acc l acc :
  fold_left (fun acc b => acc * 256 + b) l acc = acc * 256 ^ Z.of_nat (length l) + be_value l.
Proof.
  unfold be_value. revert acc. induction l as [|b l IH]; intros acc; simpl length; simpl fold_left.
  { rewrite Z.mul_1_r. lia. }
  rewrite IH, (IH (0 * 256 + b)), Nat2Z.inj_succ, Z.pow_succ_r by lia. lia.
Qed.

Lemma be_value_cons b l : be_value (b :: l) = b * 256 ^ Z.of_nat (length l) + be_value l.
Proof. unfold be_value at 1. simpl. rewrite be_value_acc. lia. Qed.

Lemma be_value_app l k :
  be_value (l ++ k) = be_value l * 256 ^ Z.of_nat (length k) + be_value k.
Proof. unfold be_value at 1. rewrite fold_left_app, be_value_acc. done. Qed.

Lemma be_value_range l : bytes l -> 0 <= be_value l < 256 ^ Z.of_nat (length l).
Proof.
  induction 1 as [|b l Hb _ IH]; [done|]. rewrite be_value_cons. simpl length.
  rewrite Nat2Z.inj_succ, Z.pow_succ_r by lia. nia.
Qed.

Lemma shiftr_256 v n : Z.shiftr v (8 * Z.of_nat n) = v / 256 ^ Z.of_nat n.
Proof. rewrite Z.shiftr_div_pow2 by lia. by rewrite Z.pow_mul_r by lia. Qed.

Lemma be_value_be_bytes n v : be_value (be_bytes n v) = v mod 256 ^ Z.of_nat n.
Proof.
  induction n as [|n IH]; [by rewrite Z.mod_1_r|]. simpl be_bytes.
  rewrite be_value_cons, be_bytes_length, IH, shiftr_256.
  rewrite Nat2Z.inj_succ, Z.pow_succ_r, (Z.mul_comm 256) by lia.
  rewrite Z.rem_mul_r by lia. unfold wrap_u8. lia.
Qed.

Lemma be_bytes_mod n v k : (n <= k)%nat -> be_bytes n (v mod 256 ^ Z.of_nat k) = be_bytes n v.
Proof.
  induction n as [|n IH]; intros Hn; [done|]. simpl. rewrite IH by lia. f_equal.
  rewrite !shiftr_256. unfold wrap_u8.
  replace (Z.of_nat k) with (Z.of_nat n + Z.of_nat (k - n)) by lia.
  rewrite Z.pow_add_r, Z.rem_mul_r by lia.
  rewrite Z.mul_comm, Z.div_add, Z.div_small by (try apply Z.mod_pos_bound; lia).
  rewrite Z.add_0_l. replace (Z.of_nat (k - n)) with (Z.succ (Z.of_nat (k - n - 1))) by lia.
  rewrite Z.pow_succ_r by lia. apply Z.mod_mod_divide. exists (256 ^ Z.of_nat (k - n - 1)). lia.
Qed.

Lemma be_bytes_be_value l : bytes l -> be_bytes (length l) (be_value l) = l.
Proof.
  induction 1 as [|b l Hb Hl IH]; [done|]. simpl. pose proof (be_value_range l Hl).
  rewrite be_value_cons, shiftr_256.
  rewrite Z.add_comm, Z.div_add, Z.div_small, wrap_u8_small by lia. f_equal.
  rewrite <- (be_bytes_mod _ _ (length l)), Z.mod_add, be_bytes_mod by lia. done.
Qed.

Lemma be_value_inj l k :
  bytes l -> bytes k -> length l = length k -> be_value l = be_value k -> l = k.
Proof. intros Hl Hk E V. rewrite <- (be_bytes_be_value l), <- (be_bytes_be_value k); congruence. Qed.

(** ** Reading back what was written

    [reads r v l]: from a cursor at the bytes [l], whatever follows them, the
    reader returns [v] and stops after [l]. *)
Definition reads {A} (r : reader A) (v : A) (l : list Z) : Prop :=
  forall rest k, (k <= length rest)%nat ->
    r (mk_cursor (Some (l ++ rest)) (length l + k)) = (v, mk_cursor (Some rest) k).

Lemma reads_ret {A} (v : A) : reads (mret v) v [].
Proof. by intros rest k Hk. Qed.

Lemma reads_bind {A B} (r : reader A) (f : A -> reader B) v w l k :
  reads r v l -> reads (f v) w k -> reads (r ≫= f) w (l ++ k).
Proof.
  intros Hr Hf rest n Hn. unfold mbind, reader_bind. rewrite <- app_assoc, length_app, <- Nat.add_assoc.
  rewrite Hr by (rewrite length_app; lia). by apply Hf.
Qed.

Lemma reads_fmap {A B} (r : reader A) (f : A -> B) v l :
  reads r v l -> reads (a ← r; mret (f a)) (f v) l.
Proof. intros Hr. rewrite <- (app_nil_r l). eapply reads_bind; [done|]. apply reads_ret. Qed.

Lemma reads_fromwire l : reads (fromwire (length l)) (Some l) l.
Proof.
  intros rest k Hk. unfold fromwire. simpl max. simpl ptr.
  replace (_ <? _)%nat with false by (symmetry; apply Nat.ltb_ge; lia).
  rewrite take_app_length, drop_app_length. do 2 f_equal. lia.
Qed.

Lemma reads_copy n l : length l = n -> reads (fromwire_copy n) l l.
Proof.
  intros <-. exact (reads_fmap _ (default (replicate (length l) 0)) _ _ (reads_fromwire l)).
Qed.

Lemma reads_be n v : 0 <= v < 256 ^ Z.of_nat n -> reads (fromwire_be n) v (be_bytes n v).
Proof.
  intros Hv. pose proof (reads_fromwire (be_bytes n v)) as H. rewrite be_bytes_length in H.
  apply (reads_fmap _ (fun r => match r with None => 0 | Some l => be_value l end)) in H.
  by rewrite be_value_be_bytes, Z.mod_small in H.
Qed.

Lemma reads_u8 v : in_u8 v -> reads fromwire_u8 v (towire_u8 v).
Proof. intros; apply reads_be; lia. Qed.
Lemma reads_u16 v : in_u16 v -> reads fromwire_u16 v (towire_u16 v).
Proof. intros; apply reads_be; lia. Qed.
Lemma reads_u32 v : in_u32 v -> reads fromwire_u32 v (towire_u32 v).
Proof. intros; apply reads_be; lia. Qed.
Lemma reads_u64 v : in_u64 v -> reads fromwire_u64 v (towire_u64 v).
Proof. intros; apply reads_be; lia. Qed.

Lemma reads_bool v : reads fromwire_bool v (towire_bool v).
Proof.
  intros rest k Hk. pose proof (reads_fromwire (towire_bool v) rest k Hk) as H.
  unfold fromwire_bool, mbind, reader_bind. change (length (towire_bool v)) with 1%nat in *.
  rewrite H. by destruct v.
Qed.

Lemma to_signed_mod bits v :
  0 < bits -> - 2 ^ (bits - 1) <= v < 2 ^ (bits - 1) -> to_signed bits (v mod 2 ^ bits) = v.
Proof.
  intros Hb Hv. unfold to_signed. assert (2 ^ bits = 2 * 2 ^ (bits - 1)) as ->.
  { rewrite <- Z.pow_succ_r by lia. f_equal. lia. }
  destruct (Z.lt_ge_cases v 0).
  - rewrite <- (Z.mod_unique_pos v _ (-1) (v + 2 * 2 ^ (bits - 1))) by lia.
    replace (_ <? _) with false by lia. lia.
  - rewrite Z.mod_small by lia. by replace (_ <? _) with true by lia.
Qed.

Lemma reads_amount_msat m : wf_msat m -> reads fromwire_amount_msat m (towire_amount_msat m).
Proof. destruct m as [x]. intros. exact (reads_fmap _ mk_msat _ _ (reads_u64 x ltac:(done))). Qed.
Lemma reads_amount_sat a : wf_sat a -> reads fromwire_amount_sat a (towire_amount_sat a).
Proof. destruct a as [x]. intros. exact (reads_fmap _ mk_sat _ _ (reads_u64 x ltac:(done))). Qed.

Create HintDb wire.
#[export] Hint Resolve reads_ret reads_u8 reads_u16 reads_u32 reads_u64 reads_bool
  reads_amount_msat reads_amount_sat : wire.

(** ** BigSize is a canonical encoding *)

Lemma bigsize_put_be v :
  bigsize_put v =
  if v <? 0xfd then be_bytes 1 v
  else if v <=? 0xffff then 0xfd :: be_bytes 2 v
  else if v <=? 0xffffffff then 0xfe :: be_bytes 4 v
  else 0xff :: be_bytes 8 v.
Proof. unfold bigsize_put. simpl. by rewrite Z.shiftr_0_r. Qed.

(** The value bytes after the first byte. *)
Definition get_be (n : nat) (p : list Z) : Z := be_value (take n (tail p)).

Ltac nth_bytes p :=
  repeat (destruct p as [|? p]; [simpl in *; lia|]);
  unfold get_be, be_value; cbn [nth take tail];
  rewrite ?take_0; cbn [fold_left]; rewrite !Z.shiftl_mul_pow2 by lia; lia.

Lemma nth_be_2 p : (3 <= length p)%nat -> Z.shiftl (nth 1 p 0) 8 + nth 2 p 0 = get_be 2 p.
Proof. intros. nth_bytes p. Qed.
Lemma nth_be_4 p :
  (5 <= length p)%nat ->
  Z.shiftl (nth 1 p 0) 24 + Z.shiftl (nth 2 p 0) 16 + Z.shiftl (nth 3 p 0) 8 + nth 4 p 0 =
  get_be 4 p.
Proof. intros. nth_bytes p. Qed.
Lemma nth_be_8 p :
  (9 <= length p)%nat ->
  Z.shiftl (nth 1 p 0) 56 + Z.shiftl (nth 2 p 0) 48 + Z.shiftl (nth 3 p 0) 40 +
  Z.shiftl (nth 4 p 0) 32 + Z.shiftl (nth 5 p 0) 24 + Z.shiftl (nth 6 p 0) 16 +
  Z.shiftl (nth 7 p 0) 8 + nth 8 p 0 = get_be 8 p.
Proof. intros. nth_bytes p. Qed.

Lemma bigsize_get_be p m :
  (m <= length p)%nat ->
  bigsize_get p m =
  if (m <? 1)%nat then None
  else if nth 0 p 0 =? 0xfd then
    if (m <? 3)%nat || (get_be 2 p <? 0xfd) then None else Some (3%nat, get_be 2 p)
  else if nth 0 p 0 =? 0xfe then
    if (m <? 5)%nat || (Z.shiftr (get_be 4 p) 16 =? 0) then None else Some (5%nat, get_be 4 p)
  else if nth 0 p 0 =? 0xff then
    if (m <? 9)%nat || (Z.shiftr (get_be 8 p) 32 =? 0) then None else Some (9%nat, get_be 8 p)
  else Some (1%nat, nth 0 p 0).
Proof.
  intros Hm. unfold bigsize_get.
  destruct (Nat.ltb_spec m 1); [done|].
  destruct (nth 0 p 0 =? 0xfd).
  { destruct (Nat.ltb_spec m 3); [done|]. by rewrite nth_be_2 by lia. }
  destruct (nth 0 p 0 =? 0xfe).
  { destruct (Nat.ltb_spec m 5); [done|]. by rewrite nth_be_4 by lia. }
  destruct (nth 0 p 0 =? 0xff); [|done].
  destruct (Nat.ltb_spec m 9); [done|]. by rewrite nth_be_8 by lia.
Qed.

Lemma bigsize_get_le p m n v : bigsize_get p m = Some (n, v) -> (1 <= n <= m)%nat.
Proof.
  unfold bigsize_get. destruct (Nat.ltb_spec m 1); [done|]. cbv zeta.
  repeat case_match; intros; simplify_eq;
    repeat match goal with H : (_ <? _)%nat = false |- _ => apply Nat.ltb_ge in H end; lia.
Qed.

Lemma get_be_small n b v rest :
  0 <= v < 256 ^ Z.of_nat n -> get_be n (b :: be_bytes n v ++ rest) = v.
Proof.
  intros Hv. unfold get_be. simpl tail. rewrite take_app_le by (rewrite be_bytes_length; lia).
  rewrite take_ge by (rewrite be_bytes_length; lia). rewrite be_value_be_bytes.
  by apply Z.mod_small.
Qed.

Lemma bigsize_put_length v : length (bigsize_put v) = bigsize_len v.
Proof. rewrite bigsize_put_be. unfold bigsize_len. by repeat case_match. Qed.

Lemma reads_bigsize v : in_u64 v -> reads fromwire_bigsize v (towire_bigsize v).
Proof.
  intros Hv rest k Hk. unfold fromwire_bigsize, towire_bigsize. simpl ptr. simpl max. simpl default.
  enough (bigsize_get (bigsize_put v ++ rest) (length (bigsize_put v) + k) =
          Some (length (bigsize_put v), v)) as ->.
  { unfold mbind, reader_bind. by rewrite reads_fromwire. }
  pose proof (Z.div_le_lower_bound v (2 ^ 16) 1 eq_refl).
  pose proof (Z.div_le_lower_bound v (2 ^ 32) 1 eq_refl).
  rewrite bigsize_get_be by (rewrite length_app; lia). rewrite bigsize_put_be.
  destruct (Z.ltb_spec v 0xfd).
  { unfold be_bytes, wrap_u8. change (8 * Z.of_nat 0) with 0.
    rewrite Z.shiftr_0_r, Z.mod_small by lia. cbn [app nth length Nat.add Nat.ltb Nat.leb].
    replace (v =? 0xfd) with false by lia. replace (v =? 0xfe) with false by lia.
    by replace (v =? 0xff) with false by lia. }
  destruct (Z.leb_spec v 0xffff); [|destruct (Z.leb_spec v 0xffffffff)];
    rewrite length_cons, be_bytes_length, <- app_comm_cons, get_be_small by lia;
    rewrite ?Z.shiftr_div_pow2 by lia; cbn [nth Z.eqb Pos.eqb Nat.add Nat.ltb Nat.leb orb].
  - by replace (v <? 253) with false by lia.
  - by replace (v / 2 ^ 16 =? 0) with false by lia.
  - by replace (v / 2 ^ 32 =? 0) with false by lia.
Qed.
#[export] Hint Resolve reads_bigsize : wire.

Lemma get_be_unique n p :
  bytes p -> (S n <= length p)%nat ->
  take n (tail p) = be_bytes n (get_be n p) /\ 0 <= get_be n p < 256 ^ Z.of_nat n.
Proof.
  intros Hp Hn. unfold get_be. destruct p as [|b p]; simpl in *; [lia|].
  apply Forall_cons in Hp as [_ Hp]. assert (bytes (take n p)) by by apply Forall_take.
  assert (length (take n p) = n) as E by (rewrite length_take; lia).
  split; [rewrite <- E at 2; by rewrite be_bytes_be_value|].
  pose proof (be_value_range (take n p)) as R. rewrite E in R. auto.
Qed.

Lemma take_head n p b : (S n <= length p)%nat -> nth 0 p 0 = b -> take (S n) p = b :: take n (tail p).
Proof. destruct p; simpl; [lia|]. by intros _ ->. Qed.

(** BigSize is canonical: whatever bytes are in memory, an encoding that is
    accepted is the one [bigsize_put] writes for that value, of the length
    [bigsize_len] gives and within the bytes available; so no two encodings of
    a number are accepted, and every 64-bit number reads back. *)
Theorem bigsize_canonical p m :
  bytes p -> (m <= length p)%nat ->
  (forall n v, bigsize_get p m = Some (n, v) ->
     in_u64 v /\ (n <= m)%nat /\ n = bigsize_len v /\ take n p = bigsize_put v) /\
  (forall v, in_u64 v -> reads fromwire_bigsize v (towire_bigsize v)).
Proof.
  intros Hp Hm. split; [|eauto with wire]. intros n v H.
  pose proof (bigsize_get_le _ _ _ _ H) as Hn. rewrite bigsize_get_be in H by done.
  enough (in_u64 v /\ take n p = bigsize_put v) as [Hv Ht].
  { split; [done|]. split; [lia|]. split; [|done].
    rewrite <- bigsize_put_length, <- Ht, length_take. lia. }
  destruct (Nat.ltb_spec m 1); [done|].
  assert (in_u8 (nth 0 p 0)) as Hb by (clear H; destruct Hp; [simpl in Hm; lia|done]).
  destruct (Z.eqb_spec (nth 0 p 0) 0xfd) as [E|];
    [|destruct (Z.eqb_spec (nth 0 p 0) 0xfe) as [E|];
      [|destruct (Z.eqb_spec (nth 0 p 0) 0xff) as [E|]]].
  1-3: case_if; simplify_eq; erewrite take_head by (lia || done);
    apply orb_false_iff in Heqb as [_ Hc]; rewrite bigsize_put_be;
    rewrite ?Z.shiftr_div_pow2 in Hc by lia.
  - destruct (get_be_unique 2 p Hp ltac:(lia)) as [-> Hr]. split; [lia|].
    replace (_ <? _) with false by lia. by replace (_ <=? _) with true by lia.
  - destruct (get_be_unique 4 p Hp ltac:(lia)) as [-> Hr]. split; [lia|].
    pose proof (Z.div_small (get_be 4 p) (2 ^ 16)).
    replace (_ <? _) with false by lia. replace (_ <=? _) with false by lia.
    by replace (_ <=? _) with true by lia.
  - destruct (get_be_unique 8 p Hp ltac:(lia)) as [-> Hr]. split; [lia|].
    pose proof (Z.div_small (get_be 8 p) (2 ^ 32)).
    replace (_ <? _) with false by lia. replace (_ <=? _) with false by lia.
    by replace (_ <=? _) with false by lia.
  - simplify_eq. split; [lia|]. unfold bigsize_put. replace (_ <? _) with true by lia.
    rewrite wrap_u8_small by done. destruct p; [simpl in Hm; lia|]. by simpl; rewrite take_0.
Qed.

Lemma bigsize_canonical_witness :
  take 3 [0xfd; 0x01; 0x00; 0xaa] = bigsize_put 256.
Proof.
  apply (bigsize_canonical [0xfd; 0x01; 0x00; 0xaa] 4); [repeat constructor; lia|simpl; lia|].
  reflexivity.
Defined.

(** ** Truncated integers *)

Lemma be_value_zeros k l : be_value (replicate k 0 ++ l) = be_value l.
Proof. induction k as [|k IH]; [done|]. simpl. rewrite be_value_cons, IH. lia. Qed.

Lemma skip_zeroes_split l :
  exists k, l = replicate k 0 ++ skip_zeroes l /\ nth 0 (skip_zeroes l) 1 <> 0.
Proof.
  induction l as [|b l [k [IH Hn]]]; [by exists 0%nat|]. simpl.
  destruct (Z.eqb_spec b 0) as [->|Hb]; [exists (S k)|exists 0%nat]; simpl.
  - split; [|done]. by f_equal.
  - done.
Qed.

Lemma skip_zeroes_app k l : nth 0 l 1 <> 0 -> skip_zeroes (replicate k 0 ++ l) = l.
Proof.
  intros Hl. induction k as [|k IH]; simpl; [|done]. destruct l as [|b l]; [done|]. simpl in *.
  by destruct (Z.eqb_spec b 0).
Qed.

(** A value with no leading zero byte needs all its bytes. *)
Lemma be_value_minimal l n :
  bytes l -> nth 0 l 1 <> 0 -> be_value l < 256 ^ Z.of_nat n -> (length l <= n)%nat.
Proof.
  intros Hl H0 Hv. destruct Hl as [|b l Hb Hl]; [simpl; lia|].
  rewrite be_value_cons in Hv. simpl in *. pose proof (be_value_range l Hl).
  apply Nat.nlt_ge. intros Hlt.
  assert (256 ^ Z.of_nat n <= 256 ^ Z.of_nat (length l)) by (apply Z.pow_le_mono_r; lia). nia.
Qed.

Lemma towire_tlv_uint_spec v :
  in_u64 v ->
  bytes (towire_tlv_uint v) /\ nth 0 (towire_tlv_uint v) 1 <> 0 /\ be_value (towire_tlv_uint v) = v.
Proof.
  intros Hv. unfold towire_tlv_uint.
  destruct (skip_zeroes_split (be_bytes 8 v)) as (k & E & Hn).
  pose proof (be_bytes_bytes 8 v) as Hb. pose proof (be_value_be_bytes 8 v) as V.
  rewrite E in Hb, V. apply Forall_app in Hb as [_ Hb]. rewrite be_value_zeros in V.
  split; [done|]. split; [done|]. rewrite V. apply Z.mod_small. lia.
Qed.

Lemma towire_tlv_uint_unique l :
  bytes l -> (length l <= 8)%nat -> nth 0 l 1 <> 0 -> towire_tlv_uint (be_value l) = l.
Proof.
  intros Hl H8 H0. unfold towire_tlv_uint.
  rewrite (be_value_inj (be_bytes 8 (be_value l)) (replicate (8 - length l) 0 ++ l)).
  - by apply skip_zeroes_app.
  - apply be_bytes_bytes.
  - apply Forall_app. split; [|done]. apply Forall_replicate. lia.
  - rewrite be_bytes_length, length_app, length_replicate. lia.
  - rewrite be_value_zeros, be_value_be_bytes. pose proof (be_value_range l Hl).
    apply Z.mod_small. assert (256 ^ Z.of_nat (length l) <= 256 ^ Z.of_nat 8); [|lia].
    apply Z.pow_le_mono_r; lia.
Qed.

Lemma fromwire_tlv_uint_some maxlen l rest :
  fromwire_tlv_uint maxlen (mk_cursor (Some (l ++ rest)) (length l)) =
  if (maxlen <? length l)%nat || (nth 0 l 1 =? 0) then (0, mk_cursor None 0)
  else (be_value l, mk_cursor (Some rest) 0).
Proof.
  unfold fromwire_tlv_uint. cbn [max]. destruct (_ <? _)%nat; [done|].
  pose proof (reads_copy _ _ eq_refl rest 0%nat ltac:(lia) : fromwire_copy (length l) _ = _) as E.
  rewrite Nat.add_0_r in E. rewrite E. destruct l as [|[] l]; done.
Qed.

(** The truncated integers of a TLV are canonical: of all byte strings of at
    most [maxlen] bytes exactly the minimal ones are accepted, each as the value
    it writes, and every value that fits is written within [maxlen] bytes and
    reads back.  The field must be the whole of what is left to read. *)
Theorem tlv_uint_canonical maxlen l rest :
  bytes l -> (maxlen <= 8)%nat ->
  let '(v, c) := fromwire_tlv_uint maxlen (mk_cursor (Some (l ++ rest)) (length l)) in
  (ptr c <> None <-> exists w, 0 <= w < 256 ^ Z.of_nat maxlen /\ l = towire_tlv_uint w) /\
  (ptr c <> None -> c = mk_cursor (Some rest) 0 /\ l = towire_tlv_uint v).
Proof.
  intros Hl Hm. rewrite fromwire_tlv_uint_some.
  destruct (Nat.ltb_spec maxlen (length l)) as [Hlen|Hlen];
    [|destruct (Z.eqb_spec (nth 0 l 1) 0) as [H0|H0]]; cbn [orb ptr].
  1-2: split; [|done]; split; [done|]; intros (w & Hw & ->);
    assert (256 ^ Z.of_nat maxlen <= 256 ^ Z.of_nat 8) by (apply Z.pow_le_mono_r; lia);
    destruct (towire_tlv_uint_spec w ltac:(lia)) as (Hb & Hn & E).
  - pose proof (be_value_minimal _ maxlen Hb Hn ltac:(lia)). lia.
  - done.
  - pose proof (be_value_range l Hl). split; [|by rewrite towire_tlv_uint_unique by (done || lia)].
    split; [|done]. intros _. exists (be_value l).
    assert (256 ^ Z.of_nat (length l) <= 256 ^ Z.of_nat maxlen) by (apply Z.pow_le_mono_r; lia).
    split; [lia|]. by rewrite towire_tlv_uint_unique by (done || lia).
Qed.

Lemma tlv_uint_canonical_witness :
  let '(_, c) := fromwire_tlv_uint 4 (mk_cursor (Some ([1; 0] ++ [7])) 2) in
  ptr c <> None <-> exists w, 0 <= w < 256 ^ 4 /\ [1; 0] = towire_tlv_uint w.
Proof. apply (tlv_uint_canonical 4 [1; 0] [7]); [repeat constructor; lia|lia]. Defined.

(** ** Varints, signed integers and strings *)

Lemma nth_le_bytes v n :
  0 <= v < 256 ^ Z.of_nat n -> be_value (be_bytes n v) = v.
Proof. intros. by rewrite be_value_be_bytes, Z.mod_small. Qed.

Lemma varint_get_put v rest k :
  in_u64 v -> (k <= length rest)%nat ->
  varint_get (varint_put v ++ rest) (length (varint_put v) + k) = Some (varint_size v, v).
Proof.
  intros Hv Hk. unfold varint_put, varint_size.
  destruct (Z.ltb_spec v 0xfd).
  { rewrite wrap_u8_small by lia. unfold varint_get. cbn [app nth length Nat.add Nat.ltb Nat.leb].
    replace (v =? 0xfd) with false by lia. replace (v =? 0xfe) with false by lia.
    by replace (v =? 0xff) with false by lia. }
  destruct (Z.leb_spec v 0xffff);
    [pose proof (nth_le_bytes v 2 ltac:(lia)) as E|
     destruct (Z.leb_spec v 0xffffffff);
     [pose proof (nth_le_bytes v 4 ltac:(lia)) as E|pose proof (nth_le_bytes v 8 ltac:(lia)) as E]];
    unfold be_value in E; cbn [be_bytes fold_left] in E;
    repeat match type of E with
           | context [8 * Z.of_nat ?n] =>
               let x := eval compute in (8 * Z.of_nat n) in change (8 * Z.of_nat n) with x in E
           end; rewrite Z.shiftr_0_r in E;
    unfold varint_get; cbn [app nth length Nat.add Nat.ltb Nat.leb Z.eqb Pos.eqb];
    rewrite !Z.shiftl_mul_pow2 by lia; do 2 f_equal; lia.
Qed.

Lemma reads_s16 v : -32768 <= v <= 32767 -> reads fromwire_s16 v (towire_s16 v).
Proof.
  intros Hv. pose proof (reads_fmap _ (to_signed 16) _ _
    (reads_u16 (v mod 2 ^ 16) ltac:(pose proof (Z.mod_pos_bound v (2 ^ 16)); lia))) as H.
  by rewrite to_signed_mod in H by lia.
Qed.
Lemma reads_s32 v : -2147483648 <= v <= 2147483647 -> reads fromwire_s32 v (towire_s32 v).
Proof.
  intros Hv. pose proof (reads_fmap _ (to_signed 32) _ _
    (reads_u32 (v mod 2 ^ 32) ltac:(pose proof (Z.mod_pos_bound v (2 ^ 32)); lia))) as H.
  by rewrite to_signed_mod in H by lia.
Qed.
Lemma reads_s64 v : in_s64 v -> reads fromwire_s64 v (towire_s64 v).
Proof.
  intros Hv. pose proof (reads_fmap _ (to_signed 64) _ _
    (reads_u64 (v mod 2 ^ 64) ltac:(pose proof (Z.mod_pos_bound v (2 ^ 64)); lia))) as H.
  by rewrite to_signed_mod in H by lia.
Qed.
#[export] Hint Resolve reads_s16 reads_s32 reads_s64 : wire.

Lemma find_nul_app str rest i :
  Forall (fun b => 32 <= b <= 255) str -> find_nul (str ++ 0 :: rest) i = Some (i + length str)%nat.
Proof.
  intros H. revert i. induction H as [|b str Hb _ IH]; intros i; simpl; [f_equal; lia|].
  replace (b =? 0) with false by lia. replace (b <? 32) with false by lia. rewrite IH. f_equal. lia.
Qed.

(** Text without control characters reads back, with its NUL. *)
Lemma reads_wirestring str :
  Forall (fun b => 32 <= b <= 255) str ->
  reads fromwire_wirestring (Some (str ++ [0])) (towire_wirestring str).
Proof.
  intros H rest k Hk. unfold fromwire_wirestring, towire_wirestring. cbn [ptr max from_option id].
  rewrite take_app_ge by (rewrite length_app; simpl; lia). rewrite <- !app_assoc. cbn [app].
  rewrite find_nul_app by done. rewrite length_app. cbn [length Nat.add].
  pose proof (reads_copy (length str + 1) (str ++ [0]) ltac:(by rewrite length_app) rest k Hk) as E.
  rewrite length_app in E. rewrite <- app_assoc in E. cbn [app length] in E. by rewrite E.
Qed.
