(* ===== verification/FeeStates.v ===== *)
(** * Feerate and blockheight updates (common/fee_states.c,
    common/blockheight_states.c)

    Both structures are an array of optional values indexed by [htlc_state],
    here a function from states updated with stdpp's [<[s := v]>].  A value
    moves through the states of an added HTLC of the opener and stays in the
    last one. *)

From Stdlib Require Import SpecFloat.
From stdpp Require Import functions.
From S2P Require Import Prelude HtlcState Wire.
Local Open Scope Z_scope.

(** [u32 *arr[HTLC_STATE_INVALID]]. *)
Abbreviation state_array := (htlc_state -> option Z).

Record fee_states := mk_fee_states { feerate : state_array }.
Record height_states := mk_height_states { height : state_array }.

Definition first_fee_state (opener : side) : htlc_state :=
  if bool_decide (opener = LOCAL) then SENT_ADD_HTLC else RCVD_ADD_HTLC.

Definition last_fee_state (opener : side) : htlc_state :=
  if bool_decide (opener = LOCAL) then SENT_ADD_ACK_REVOCATION else RCVD_ADD_ACK_REVOCATION.

(** The states [i] of [for (i = first; i <= last; i++)]. *)
Definition fee_range (opener : side) : list htlc_state :=
  let first := state_num (first_fee_state opener) in
  let last := state_num (last_fee_state opener) in
  omap state_of_num (seq first (last + 1 - first)).

Definition new_state_array (opener : side) (v : option Z) : state_array :=
  <[last_fee_state opener := v]> (fun _ => None).

(** The first value committed to [side]; [abort()] when the loop runs out. *)
Fixpoint first_committed (arr : state_array) (side : side) (l : list htlc_state) : outcome Z :=
  match l with
  | [] => Crash
  | i :: l =>
      match arr i with
      | None => first_committed arr side l
      | Some v => if negb (state_has i (HTLC_FLAG side HTLC_F_COMMITTED))
                  then first_committed arr side l else Ret v
      end
  end.

Definition changes_done (arr : state_array) (ignore_uncommitted : bool) : bool :=
  let counted i :=
    negb (ignore_uncommitted && (bool_decide (i = RCVD_ADD_HTLC) || bool_decide (i = SENT_ADD_HTLC)))
    && bool_decide (arr i <> None) in
  (length (filter (fun i => counted i = true) all_states) =? 1)%nat.

(** Move the value of [hstate] to [hstate + 1]; whether there was one. *)
Definition inc_state (arr : state_array) (hstate : htlc_state) : outcome (bool * state_array) :=
  assert_then (state_has hstate HTLC_ADDING)
    match arr hstate, state_succ hstate with
    | None, _ => Ret (false, arr)
    | Some v, Some next => Ret (true, <[hstate := None]> (<[next := Some v]> arr))
    | Some _, None => Crash
    end.

Definition towire_state (arr : state_array) (i : htlc_state) : list Z :=
  if negb (state_has i (Z.lor HTLC_REMOTE_F_COMMITTED HTLC_LOCAL_F_COMMITTED))
  then towire_bool false
  else match arr i with
       | None => towire_bool false
       | Some v => towire_bool true ++ towire_u32 v
       end.

Fixpoint fromwire_state_array (l : list htlc_state) (arr : state_array) : reader state_array :=
  match l with
  | [] => mret arr
  | i :: l =>
      present ← fromwire_bool;
      if (present : bool) then v ← fromwire_u32; fromwire_state_array l (<[i := Some v]> arr)
      else fromwire_state_array l (<[i := None]> arr)
  end.

(** [if ( !*cursor ) return tal_free(states); return states]. *)
Definition unless_failed {A} (a : A) : reader (option A) := fun c =>
  (match ptr c with None => None | Some _ => Some a end, c).

(** ** Feerates *)

Definition new_fee_states (opener : side) (feerate_per_kw : option Z) : fee_states :=
  mk_fee_states (new_state_array opener feerate_per_kw).

Definition get_feerate (fs : fee_states) (opener side : side) : outcome Z :=
  first_committed (feerate fs) side (fee_range opener).

Definition feerate_changes_done (fs : fee_states) (ignore_uncommitted : bool) : bool :=
  changes_done (feerate fs) ignore_uncommitted.

Definition start_fee_update (fs : fee_states) (opener : side) (feerate_per_kw : Z) : fee_states :=
  mk_fee_states (<[first_fee_state opener := Some feerate_per_kw]> (feerate fs)).

Definition inc_fee_state (fs : fee_states) (hstate : htlc_state) : outcome (bool * fee_states) :=
  '(b, arr) ← inc_state (feerate fs) hstate; mret (b, mk_fee_states arr).

Definition towire_fee_states (fs : fee_states) : list Z :=
  concat (map (towire_state (feerate fs)) all_states).

Definition fromwire_fee_states : reader (option fee_states) :=
  arr ← fromwire_state_array all_states (fun _ => None); unless_failed (mk_fee_states arr).

Definition fee_states_valid (fs : fee_states) (opener : side) : bool :=
  bool_decide (feerate fs (last_fee_state opener) <> None).

(** ** Blockheights *)

Definition new_height_states (opener : side) (blockheight : option Z) : height_states :=
  mk_height_states (new_state_array opener blockheight).

Definition get_blockheight (hs : height_states) (opener side : side) : outcome Z :=
  first_committed (height hs) side (fee_range opener).

Definition start_height_update (hs : height_states) (opener : side) (blockheight : Z) : height_states :=
  mk_height_states (<[first_fee_state opener := Some blockheight]> (height hs)).

Definition blockheight_changes_done (hs : height_states) (ignore_uncommitted : bool) : bool :=
  changes_done (height hs) ignore_uncommitted.

Definition inc_height_state (hs : height_states) (hstate : htlc_state) : outcome (bool * height_states) :=
  '(b, arr) ← inc_state (height hs) hstate; mret (b, mk_height_states arr).

Definition height_states_valid (hs : height_states) (opener : side) : bool :=
  bool_decide (height hs (last_fee_state opener) <> None).

Definition towire_height_states (hs : height_states) : list Z :=
  concat (map (towire_state (height hs)) all_states).

Definition fromwire_height_states : reader (option height_states) :=
  arr ← fromwire_state_array all_states (fun _ => None); unless_failed (mk_height_states arr).

(** ** The margin on the current feerate

    [double] arithmetic is IEEE binary64, with the standard library's
    [spec_float] operations: round to nearest, 53 bits. *)

Definition double_of_int (n : Z) : spec_float := binary_normalize 53 1024 n 0 false.
(** The nearest doubles of the literals 1.1 and 0.9. *)
Definition double_1_1 : spec_float := S754_finite false 4953959590107546 (-52).
Definition double_0_9 : spec_float := S754_finite false 8106479329266893 (-53).

(** Conversion to [u32]: truncation, undefined out of range. *)
Definition double_to_u32 (x : spec_float) : outcome Z :=
  match x with
  | S754_zero _ => Ret 0
  | S754_finite s m e =>
      let a := if 0 <=? e then Z.pos m * 2 ^ e else Z.pos m / 2 ^ (- e) in
      let v := if s then - a else a in
      if (0 <=? v) && (v <=? UINT32_MAX) then Ret v else Crash
  | _ => Crash
  end.

Definition marginal_feerate (current_feerate : Z) : outcome Z :=
  let minfeerate := 253 in
  let maxfeerate := 45000 in
  let current_feerate := if current_feerate <? minfeerate then minfeerate else current_feerate in
  if maxfeerate <? current_feerate then
    double_to_u32 (SFmul 53 1024 (double_of_int current_feerate) double_1_1)
  else
    let proportion :=
      SFsub 53 1024 (double_of_int 1)
        (SFmul 53 1024
           (SFdiv 53 1024
              (SFsub 53 1024 (double_of_int current_feerate) (double_of_int minfeerate))
              (double_of_int (maxfeerate - minfeerate)))
           double_0_9) in
    double_to_u32
      (SFadd 53 1024 (double_of_int current_feerate)
         (SFmul 53 1024 proportion (double_of_int current_feerate))).

(** ** Theorems *)

Lemma marginal_feerate_values :
  map marginal_feerate [0; 253; 1000; 10000; 45000; 45001; 3904515724] =
  [Ret 506; Ret 506; Ret 1984; Ret 18039; Ret 49500; Ret 49501; Crash].
Proof. reflexivity. Qed.

Definition set_to (arr : state_array) (s : htlc_state) : Prop := arr s <> None.

Lemma last_in_range opener : last_fee_state opener ∈ fee_range opener.
Proof. destruct opener; apply list_elem_of_lookup; by exists 4%nat. Qed.

Lemma last_committed opener s :
  state_has (last_fee_state opener) (HTLC_FLAG s HTLC_F_COMMITTED) = true.
Proof. by destruct opener, s. Qed.

Lemma first_committed_total arr s l i :
  i ∈ l -> arr i <> None -> state_has i (HTLC_FLAG s HTLC_F_COMMITTED) = true ->
  exists v, first_committed arr s l = Ret v.
Proof.
  intros Hi Hv Hc. induction l as [|j l IH]; [by apply elem_of_nil in Hi|]. simpl.
  apply elem_of_cons in Hi as [<-|Hi].
  - destruct (arr i); [|done]. rewrite Hc. by eexists.
  - destruct (arr j); [case_if|]; [by apply IH|by eexists|by apply IH].
Qed.

Lemma first_committed_ext arr arr' s l :
  (forall i, i ∈ l -> state_has i (HTLC_FLAG s HTLC_F_COMMITTED) = true -> arr i = arr' i) ->
  first_committed arr s l = first_committed arr' s l.
Proof.
  induction l as [|j l IH]; intros H; [done|]. simpl.
  destruct (state_has j (HTLC_FLAG s HTLC_F_COMMITTED)) eqn:E.
  - rewrite H by (done || set_solver). destruct (arr' j); [done|]. apply IH. set_solver.
  - simpl. rewrite IH by set_solver. by destruct (arr j), (arr' j).
Qed.

Lemma inc_state_last arr hstate b arr' opener :
  arr (last_fee_state opener) <> None -> inc_state arr hstate = Ret (b, arr') ->
  arr' (last_fee_state opener) <> None.
Proof.
  intros Hv. unfold inc_state, assert_then.
  destruct (state_has hstate HTLC_ADDING) eqn:Ha; [|done].
  assert (hstate <> last_fee_state opener) by (intros ->; destruct opener; discriminate).
  destruct (arr hstate), (state_succ hstate) as [n|]; intros [= <- <-]; try done.
  rewrite fn_lookup_insert_ne by done. unfold insert, fn_insert. by case_decide.
Qed.

(** Some feerate is always set: once the states are valid for the opener
    they stay valid through every update and every step of the state machine,
    and neither side's current feerate ever hits the [abort]. *)
Theorem feerate_never_aborts fs opener :
  fee_states_valid fs opener = true ->
  (forall side, exists r, get_feerate fs opener side = Ret r) /\
  (forall r, fee_states_valid (start_fee_update fs opener r) opener = true) /\
  (forall hstate b fs', inc_fee_state fs hstate = Ret (b, fs') -> fee_states_valid fs' opener = true).
Proof.
  unfold fee_states_valid. rewrite bool_decide_eq_true. intros Hv. split; [|split].
  - intros s. eapply first_committed_total; [apply last_in_range|done|apply last_committed].
  - intros r. apply bool_decide_eq_true. simpl. rewrite fn_lookup_insert_ne; [done|].
    by destruct opener.
  - intros hstate b fs' H. apply bool_decide_eq_true. unfold inc_fee_state in H.
    apply bind_Ret_inv in H as ([b' arr'] & H & [= <- <-]). by eapply inc_state_last.
Qed.

Lemma feerate_never_aborts_witness :
  exists r, get_feerate (new_fee_states LOCAL (Some 253)) LOCAL REMOTE = Ret r.
Proof. apply (feerate_never_aborts (new_fee_states LOCAL (Some 253)) LOCAL). reflexivity. Defined.

(** The first [k] increments of an update, from the state it starts in. *)
Fixpoint incs (k : nat) (hstate : htlc_state) (fs : fee_states) : outcome fee_states :=
  match k with
  | O => Ret fs
  | S k => '(_, fs) ← inc_fee_state fs hstate;
           match state_succ hstate with Some next => incs k next fs | None => Crash end
  end.

(** An update of the feerate reaches each commitment transaction exactly
    when an HTLC added with it would: with one feerate [r0] agreed and a new one
    [r] proposed, after [k] steps of the state machine a side's current feerate
    is [r] from the step that commits that side on and [r0] before, and after
    all four steps the update is the only feerate left. *)
Theorem fee_update_follows_commitments opener r0 r k s :
  (k <= 4)%nat ->
  exists fs, incs k (first_fee_state opener)
               (start_fee_update (new_fee_states opener (Some r0)) opener r) = Ret fs /\
    get_feerate fs opener s = Ret (if spec_committed opener s k then r else r0) /\
    feerate_changes_done fs false = (k =? 4)%nat.
Proof.
  intros Hk. do 5 (destruct k as [|k]; [destruct opener, s; (eexists; split; [reflexivity|]; split; reflexivity)|]).
  lia.
Qed.

Lemma fee_update_follows_commitments_witness :
  exists fs, incs 2 SENT_ADD_HTLC (start_fee_update (new_fee_states LOCAL (Some 253)) LOCAL 500) = Ret fs /\
    get_feerate fs LOCAL REMOTE = Ret 500 /\ feerate_changes_done fs false = false.
Proof. apply (fee_update_follows_commitments LOCAL 253 500 2 REMOTE). lia. Defined.

(** What is sent of the states: the values committed to some side. *)
Definition sent (arr : state_array) (i : htlc_state) : option Z :=
  if state_has i (Z.lor HTLC_REMOTE_F_COMMITTED HTLC_LOCAL_F_COMMITTED) then arr i else None.

Lemma reads_state_array arr l acc :
  (forall i v, arr i = Some v -> in_u32 v) ->
  exists arr', reads (fromwire_state_array l acc) arr' (concat (map (towire_state arr) l)) /\
    (forall i, arr' i = if bool_decide (i ∈ l) then sent arr i else acc i).
Proof.
  intros Hv. revert acc. induction l as [|i l IH]; intros acc;
    cbn [map concat fromwire_state_array].
  { exists acc. split; [apply reads_ret|]. intros i. by rewrite bool_decide_eq_false_2 by set_solver. }
  destruct (IH (<[i := sent arr i]> acc)) as (arr' & Hr & Ha). exists arr'. split.
  - unfold towire_state, sent in *. destruct (state_has i _) eqn:E; cbn [negb]; [destruct (arr i) eqn:Ei|];
      [rewrite <- (app_assoc (towire_bool true))| |]; (eapply reads_bind; [apply reads_bool|]); [|done|done].
    eapply reads_bind; [by eauto with wire|]. done.
  - intros j. rewrite Ha. case_bool_decide as Hj.
    + by rewrite bool_decide_eq_true_2 by set_solver.
    + unfold insert, fn_insert. case_decide as Hij; subst.
      * by rewrite bool_decide_eq_true_2 by set_solver.
      * by rewrite bool_decide_eq_false_2 by set_solver.
Qed.

Lemma sent_committed arr i s :
  state_has i (HTLC_FLAG s HTLC_F_COMMITTED) = true -> sent arr i = arr i.
Proof. unfold sent. intros H. by destruct i, s. Qed.

(** The states sent to another daemon and read back there keep every value
    some side has committed to, so both sides' current feerates and the validity
    for the opener are unchanged; only proposals not yet signed are dropped. *)
Theorem fee_states_wire_roundtrip fs :
  (forall i v, feerate fs i = Some v -> in_u32 v) ->
  exists fs', reads fromwire_fee_states (Some fs') (towire_fee_states fs) /\
    (forall i, feerate fs' i = sent (feerate fs) i) /\
    (forall opener, fee_states_valid fs' opener = fee_states_valid fs opener) /\
    (forall opener side, get_feerate fs' opener side = get_feerate fs opener side).
Proof.
  intros Hv. destruct (reads_state_array (feerate fs) all_states (fun _ => None) Hv) as (arr & Hr & Ha).
  exists (mk_fee_states arr).
  assert (forall i, arr i = sent (feerate fs) i) as E.
  { intros i. rewrite Ha. by rewrite bool_decide_eq_true_2 by apply all_states_complete. }
  split; [|split; [done|split]].
  - unfold fromwire_fee_states, towire_fee_states. rewrite <- (app_nil_r (concat _)).
    eapply reads_bind; [done|]. by intros rest k Hk.
  - intros o. unfold fee_states_valid. simpl. rewrite E, (sent_committed _ _ LOCAL); [done|].
    apply last_committed.
  - intros o s. apply first_committed_ext. intros i _ Hc. simpl. rewrite E. by apply (sent_committed _ _ s).
Qed.

Lemma fee_states_wire_roundtrip_witness :
  exists fs', reads fromwire_fee_states (Some fs') (towire_fee_states (new_fee_states REMOTE (Some 7500))) /\
    get_feerate fs' REMOTE LOCAL = Ret 7500.
Proof.
  destruct (fee_states_wire_roundtrip (new_fee_states REMOTE (Some 7500))) as (fs' & Hr & _ & _ & Hg).
  - intros i v. simpl. unfold new_state_array, insert, fn_insert. case_decide; [|done]. intros [= <-]. lia.
  - exists fs'. split; [done|]. rewrite Hg. reflexivity.
Defined.
