(* ===== verification/CommitFee.v ===== *)
(** * Fees and trimming of commitment transactions (common/htlc_tx.h,
    common/htlc_trim.c, common/initial_commit_tx.h, the overhead of
    bitcoin/tx.h and [try_subtract_fee] of common/initial_commit_tx.c)

    The global [chainparams] is an argument.  Sizes are [size_t], 64 bits. *)

From stdpp Require Import strings.
From S2P Require Import Prelude Chainparams Amount HtlcState.
Local Open Scope Z_scope.

Definition elements_tx_overhead (params : chainparams) (incount outcount : Z) : Z :=
  if negb (is_elements params) then 0
  else
    let overhead := 2 * 4 in
    let overhead := overhead + (8 + 1) * 4 in
    let overhead := wrap_u64 (overhead + wrap_u64 ((32 + 1 + 1 + 1) * 4 * wrap_u64 (outcount + 1))) in
    wrap_u64 (overhead + wrap_u64 (6 * incount)).

Definition htlc_timeout_fee (params : chainparams) (feerate_per_kw : Z)
    (option_anchor_outputs option_anchors_zero_fee_htlc_tx : bool) : outcome amount_sat_t :=
  if option_anchors_zero_fee_htlc_tx then mret (mk_sat 0)
  else
    let base := if option_anchor_outputs then 666 else 663 in
    amount_tx_fee (Some params) (wrap_u32 (base + elements_tx_overhead params 1 1)) feerate_per_kw.

Definition htlc_success_fee (params : chainparams) (feerate_per_kw : Z)
    (option_anchor_outputs option_anchors_zero_fee_htlc_tx : bool) : outcome amount_sat_t :=
  if option_anchors_zero_fee_htlc_tx then mret (mk_sat 0)
  else
    let base := if option_anchor_outputs then 706 else 703 in
    amount_tx_fee (Some params) (wrap_u32 (base + elements_tx_overhead params 1 1)) feerate_per_kw.

Definition htlc_is_trimmed (params : chainparams) (htlc_owner : side) (htlc_amount : amount_msat_t)
    (feerate_per_kw : Z) (dust_limit : amount_sat_t) (side : side)
    (option_anchor_outputs option_anchors_zero_fee_htlc_tx : bool) : outcome bool :=
  htlc_fee ← (if bool_decide (htlc_owner = side)
              then htlc_timeout_fee params feerate_per_kw option_anchor_outputs
                     option_anchors_zero_fee_htlc_tx
              else htlc_success_fee params feerate_per_kw option_anchor_outputs
                     option_anchors_zero_fee_htlc_tx);
  match amount_sat_add dust_limit htlc_fee with
  | None => mret true
  | Some htlc_min => mret (amount_msat_less_sat htlc_amount htlc_min)
  end.

(** [max] of two [u32] sums. *)
Definition htlc_trim_feerate_ceiling (feerate_per_kw : Z) : Z :=
  let a := wrap_u32 (feerate_per_kw + feerate_per_kw / 4) in
  let b := wrap_u32 (feerate_per_kw + 2530) in
  if b <? a then a else b.

Definition commit_tx_base_weight (params : chainparams) (num_untrimmed_htlcs : Z)
    (option_anchor_outputs option_anchors_zero_fee_htlc_tx : bool) : Z :=
  let '(weight, num_outputs) :=
    if option_anchor_outputs || option_anchors_zero_fee_htlc_tx then (1124, 4) else (724, 2) in
  let weight := wrap_u64 (weight + wrap_u64 (172 * num_untrimmed_htlcs)) in
  let num_outputs := wrap_u64 (num_outputs + num_untrimmed_htlcs) in
  wrap_u64 (weight + elements_tx_overhead params 1 num_outputs).

Definition commit_tx_base_fee (params : chainparams) (feerate_per_kw num_untrimmed_htlcs : Z)
    (option_anchor_outputs option_anchors_zero_fee_htlc_tx : bool) : outcome amount_sat_t :=
  amount_tx_fee (Some params) feerate_per_kw
    (commit_tx_base_weight params num_untrimmed_htlcs option_anchor_outputs
       option_anchors_zero_fee_htlc_tx).

(** The result, and the amounts of the two sides after it. *)
Definition try_subtract_fee (opener side : side) (base_fee : amount_sat_t)
    (self other : amount_msat_t) : bool * amount_msat_t * amount_msat_t :=
  let opener_amount := if bool_decide (opener = side) then self else other in
  let '(ok, opener_amount) :=
    match amount_msat_deduct_sat opener_amount base_fee with
    | Some rest => (true, rest)
    | None => (false, mk_msat 0)
    end in
  if bool_decide (opener = side) then (ok, opener_amount, other) else (ok, self, opener_amount).

(** ** Theorems *)

(** The fee the owner of an HTLC output pays to spend it, as trimming counts it. *)
Definition spend_fee (params : chainparams) (owned : bool) (feerate_per_kw : Z) (ao az : bool)
  : outcome amount_sat_t :=
  if owned then htlc_timeout_fee params feerate_per_kw ao az
  else htlc_success_fee params feerate_per_kw ao az.

Lemma elements_tx_overhead_bounds params i o :
  0 <= i <= 4 -> 0 <= o <= UINT32_MAX -> 0 <= elements_tx_overhead params i o <= 140 * o + 208.
Proof.
  intros Hi Ho. unfold elements_tx_overhead. destruct (negb (is_elements params)); [lia|].
  cbv zeta. unwrap. lia.
Qed.

Lemma spend_fee_value params owned f ao az :
  in_u32 f ->
  exists base, 0 <= base <= 2000 /\
    spend_fee params owned f ao az =
    Ret (mk_sat ((base * f + if has_anchor_header params && negb az then 999 else 0) / 1000)) /\
    (forall f', in_u32 f' -> spend_fee params owned f' ao az =
      Ret (mk_sat ((base * f' + if has_anchor_header params && negb az then 999 else 0) / 1000))).
Proof.
  intros Hf. pose proof (elements_tx_overhead_bounds params 1 1 ltac:(lia) ltac:(lia)).
  unfold spend_fee, htlc_timeout_fee, htlc_success_fee. destruct az.
  { exists 0. rewrite andb_false_r. split; [lia|]. by destruct owned. }
  exists ((if owned then if ao then 666 else 663 else if ao then 706 else 703)
          + elements_tx_overhead params 1 1).
  destruct owned, ao; (split; [lia|]); cint; rewrite andb_true_r;
    split; intros; rewrite amount_tx_fee_spec by nia; done.
Qed.

Lemma htlc_is_trimmed_spec params owner amt f dust s ao az :
  wf_msat amt -> wf_sat dust -> in_u32 f ->
  exists fee, spend_fee params (bool_decide (owner = s)) f ao az = Ret (mk_sat fee) /\
    0 <= fee <= 8589934592 /\
    htlc_is_trimmed params owner amt f dust s ao az =
    Ret (if satoshis dust + fee <=? UINT64_MAX
         then amount_msat_less_sat amt (mk_sat (satoshis dust + fee)) else true).
Proof.
  intros Ha Hd Hf.
  destruct (spend_fee_value params (bool_decide (owner = s)) f ao az Hf) as (base & Hb & E & _).
  eexists. split; [exact E|].
  assert (forall c, 0 <= c <= 999 -> 0 <= (base * f + c) / 1000 <= 8589934592) as Hfee.
  { intros c Hc. split; [apply Z.div_pos; nia|apply Z.div_le_upper_bound; nia]. }
  split; [destruct (_ && _); apply Hfee; lia|].
  unfold htlc_is_trimmed. unfold spend_fee in E. rewrite E. simpl.
  rewrite amount_sat_add_spec; [|done|simpl; destruct (_ && _); pose proof (Hfee 999); pose proof (Hfee 0); lia].
  simpl. by case_if.
Qed.

(** Raising the feerate only trims more: an HTLC that has an output at some
    feerate has one at every lower feerate. *)
Theorem htlc_is_trimmed_monotone params owner amt dust s ao az f f' :
  wf_msat amt -> wf_sat dust -> in_u32 f' -> 0 <= f <= f' ->
  (satoshis dust + 8589934592) * 1000 <= UINT64_MAX ->
  htlc_is_trimmed params owner amt f dust s ao az = Ret true ->
  htlc_is_trimmed params owner amt f' dust s ao az = Ret true.
Proof.
  intros Ha Hd Hf' Hf Hsmall H.
  destruct (htlc_is_trimmed_spec params owner amt f dust s ao az) as (fee & E & Hr & T); [done|done|lia|].
  destruct (htlc_is_trimmed_spec params owner amt f' dust s ao az) as (fee' & E' & Hr' & T'); [done..|].
  rewrite T in H. rewrite T'. injection H as H.
  destruct (spend_fee_value params (bool_decide (owner = s)) f ao az ltac:(lia)) as (base & Hb & V & V').
  rewrite V in E. rewrite V' in E' by lia. injection E as E. injection E' as E'.
  assert (fee <= fee').
  { rewrite <- E, <- E'. apply Z.div_le_mono; [lia|].
    apply Z.add_le_mono_r, Z.mul_le_mono_nonneg_l; lia. }
  replace (satoshis dust + fee <=? UINT64_MAX) with true in H by lia.
  replace (satoshis dust + fee' <=? UINT64_MAX) with true by lia.
  rewrite amount_msat_less_sat_spec in * by (simpl; lia). simpl in *.
  apply andb_true_iff in H. f_equal. apply andb_true_iff. lia.
Qed.

Lemma htlc_is_trimmed_monotone_witness :
  exists p, chainparams_for_network "bitcoin"%string = Some p /\
    htlc_is_trimmed p LOCAL (mk_msat 600000) 500 (mk_sat 546) LOCAL false false = Ret true.
Proof.
  destruct (chainparams_for_network "bitcoin"%string) as [p|] eqn:E; [|discriminate].
  exists p. split; [done|]. assert (is_elements p = false /\ has_anchor_header p = false) as [H1 H2]
    by (vm_compute in E; by simplify_eq).
  apply (htlc_is_trimmed_monotone p LOCAL (mk_msat 600000) (mk_sat 546) LOCAL false false 253 500);
    try (simpl; lia).
  unfold htlc_is_trimmed, htlc_timeout_fee, elements_tx_overhead, amount_tx_fee. simpl.
  rewrite H1, H2. reflexivity.
Defined.

(** An HTLC output can always be spent: an HTLC that is not trimmed is worth
    the dust limit of the transaction's owner and the fee of the transaction that
    spends it, whenever that sum counts in millisatoshis. *)
Theorem htlc_untrimmed_spendable params owner amt f dust s ao az :
  wf_msat amt -> wf_sat dust -> in_u32 f ->
  (satoshis dust + 8589934592) * 1000 <= UINT64_MAX ->
  exists fee, spend_fee params (bool_decide (owner = s)) f ao az = Ret (mk_sat fee) /\ 0 <= fee /\
    (htlc_is_trimmed params owner amt f dust s ao az = Ret false <->
     (satoshis dust + fee) * 1000 <= millisatoshis amt).
Proof.
  intros Ha Hd Hf Hs.
  destruct (htlc_is_trimmed_spec params owner amt f dust s ao az) as (fee & E & Hr & ->); [done..|].
  exists fee. split; [done|]. split; [lia|].
  replace (satoshis dust + fee <=? UINT64_MAX) with true by lia.
  rewrite amount_msat_less_sat_spec by (simpl; lia). simpl satoshis.
  replace ((satoshis dust + fee) * 1000 <=? UINT64_MAX) with true by lia. rewrite andb_true_r.
  split; [intros [= H]; lia|intros H; f_equal; lia].
Qed.

Lemma htlc_untrimmed_spendable_witness :
  exists p fee, spend_fee p true 253 false false = Ret (mk_sat fee) /\ 0 <= fee.
Proof.
  destruct (chainparams_for_network "liquid-regtest") as [p|] eqn:E; [|discriminate].
  destruct (htlc_untrimmed_spendable p LOCAL (mk_msat 1000000) 253 (mk_sat 330) LOCAL false false)
    as (fee & H & Hf & _); [simpl; lia..|].
  exists p, fee. done.
Defined.

(** Where the threshold itself does not count in millisatoshis the comparison
    says "not less", so nothing is trimmed: an HTLC of one millisatoshi then has
    an output below the dust limit.  The source's comment expects the opposite. *)
Theorem htlc_is_trimmed_overflow params owner amt f dust s ao az :
  wf_msat amt -> in_u32 f -> UINT64_MAX / 1000 < satoshis dust <= UINT64_MAX - 8589934592 ->
  htlc_is_trimmed params owner amt f dust s ao az = Ret false.
Proof.
  intros Ha Hf Hd. change (UINT64_MAX / 1000) with 18446744073709551 in Hd.
  destruct (htlc_is_trimmed_spec params owner amt f dust s ao az) as (fee & E & Hr & ->); [done|lia|done|].
  replace (satoshis dust + fee <=? UINT64_MAX) with true by lia.
  rewrite amount_msat_less_sat_spec by (simpl; lia). simpl satoshis.
  replace (_ <=? UINT64_MAX) with false by lia. by rewrite andb_false_r.
Qed.

Lemma htlc_is_trimmed_overflow_witness :
  exists p, htlc_is_trimmed p LOCAL (mk_msat 1) 253 (mk_sat 18446744073709552) REMOTE false false = Ret false.
Proof.
  destruct (chainparams_for_network "bitcoin") as [p|] eqn:E; [|discriminate].
  exists p. apply (htlc_is_trimmed_overflow p LOCAL (mk_msat 1) 253 (mk_sat 18446744073709552));
    [simpl; lia|lia|]. split; [reflexivity|simpl; lia].
Defined.

(** The feerate at which dust is counted is at least the [dust_buffer_feerate]
    of the specification and above the current feerate, as long as it fits 32
    bits; it is the current feerate plus 2530 below 10120, where the
    specification's is smaller.  At the top of the range the sum wraps and the
    feerate used is below the current one. *)
Theorem htlc_trim_feerate_ceiling_bounds f :
  in_u32 f ->
  (f + Z.max (f / 4) 2530 <= UINT32_MAX ->
   htlc_trim_feerate_ceiling f = f + Z.max (f / 4) 2530 /\
   Z.max 2530 (f + f / 4) <= htlc_trim_feerate_ceiling f) /\
  htlc_trim_feerate_ceiling UINT32_MAX < UINT32_MAX.
Proof.
  intros Hf. split; [|reflexivity]. intros H. assert (0 <= f / 4) by (apply Z.div_pos; lia).
  unfold htlc_trim_feerate_ceiling. rewrite !wrap_u32_small by lia.
  destruct (Z.ltb_spec (f + 2530) (f + f / 4)); lia.
Qed.

Lemma htlc_trim_feerate_ceiling_bounds_witness : htlc_trim_feerate_ceiling 253 = 253 + 2530.
Proof. apply (htlc_trim_feerate_ceiling_bounds 253); [lia|]. vm_compute. discriminate. Defined.

Lemma commit_tx_base_weight_value params n ao az :
  0 <= n <= UINT32_MAX ->
  commit_tx_base_weight params n ao az =
  (if ao || az then 1124 else 724) + 172 * n +
  (if is_elements params then 190 + 140 * ((if ao || az then 4 else 2) + n) else 0).
Proof.
  intros Hn. unfold commit_tx_base_weight, elements_tx_overhead.
  destruct (ao || az), (is_elements params); cbn [negb]; cbv zeta; unwrap; lia.
Qed.

(** The base fee grows with the feerate and with the number of HTLC outputs. *)
Lemma commit_tx_base_fee_monotone params f f' n n' ao az :
  in_u32 f' -> 0 <= f <= f' -> 0 <= n <= n' -> n' <= 65535 ->
  exists fee fee', commit_tx_base_fee params f n ao az = Ret (mk_sat fee) /\
    commit_tx_base_fee params f' n' ao az = Ret (mk_sat fee') /\ 0 <= fee <= fee'.
Proof.
  intros Hf' Hf Hn Hn'. unfold commit_tx_base_fee.
  assert (0 <= commit_tx_base_weight params n ao az <= commit_tx_base_weight params n' ao az /\
          commit_tx_base_weight params n' ao az <= 21000000) as Hw
    by (rewrite !commit_tx_base_weight_value by lia; destruct (ao || az), (is_elements params); lia).
  revert Hw. generalize (commit_tx_base_weight params n ao az), (commit_tx_base_weight params n' ao az).
  intros w w' Hw. rewrite !amount_tx_fee_spec by nia.
  do 2 eexists. split; [done|]. split; [done|].
  set (c := if has_anchor_header params then 999 else 0).
  assert (0 <= c) by (subst c; case_if; lia). clearbody c.
  split; [apply Z.div_pos; nia|]. apply Z.div_le_mono; nia.
Qed.

(** The opener pays all of the fee or loses all it has; the other side is
    untouched. *)
Lemma try_subtract_fee_spec opener s fee self oth ok self' oth' :
  wf_msat self -> wf_msat oth -> wf_sat fee ->
  try_subtract_fee opener s fee self oth = (ok, self', oth') ->
  let pays := if bool_decide (opener = s) then self else oth in
  let pays' := if bool_decide (opener = s) then self' else oth' in
  (if bool_decide (opener = s) then oth' = oth else self' = self) /\
  ok = (satoshis fee * 1000 <=? millisatoshis pays) /\
  millisatoshis pays' = Z.max 0 (millisatoshis pays - satoshis fee * 1000).
Proof.
  intros Hs Ho Hf. unfold try_subtract_fee, amount_msat_deduct_sat.
  rewrite amount_msat_sub_sat_spec by (try case_bool_decide; done).
  case_bool_decide; case_if; intros; simplify_eq; simpl; repeat split; lia.
Qed.
