(* ===== verification/Features.v ===== *)
(** * Feature bits and channel types (common/features.c, common/features.h,
    common/channel_type.c)

    A feature vector is a big-endian bitfield, a list of bytes whose last byte
    holds bits 0 to 7.  Bit numbers are [Z]; NULL and the empty array are both
    [[]], which the source does not tell apart here. *)

From S2P Require Import Prelude Wire.
Local Open Scope Z_scope.

Inductive feature_place :=
| INIT_FEATURE | GLOBAL_INIT_FEATURE | NODE_ANNOUNCE_FEATURE | CHANNEL_FEATURE
| BOLT11_FEATURE | BOLT12_OFFER_FEATURE | BOLT12_INVREQ_FEATURE | BOLT12_INVOICE_FEATURE
| CHANNEL_TYPE_FEATURE.

Record feature_set := mk_feature_set { bits : feature_place -> list Z }.

Definition COMPULSORY_FEATURE (x : Z) : Z := Z.land x 0xFFFFFFFE.
Definition OPTIONAL_FEATURE (x : Z) : Z := Z.lor x 1.

Definition OPT_STATIC_REMOTEKEY := 12.
Definition OPT_PAYMENT_SECRET := 14.
Definition OPT_BASIC_MPP := 16.
Definition OPT_ANCHOR_OUTPUTS_DEPRECATED := 20.
Definition OPT_ANCHORS_ZERO_FEE_HTLC_TX := 22.
Definition OPT_SCID_ALIAS := 46.
Definition OPT_ZEROCONF := 50.
Definition OPT_SEQ_TAPROOT_COVENANT := 172.
Definition OPT_SEQ_CREDIT := 176.
Definition OPT_SEQ_SYMMETRIC := 178.
Definition OPT_SEQ_SYMMETRIC_CLOCK := 180.
Definition OPT_SEQ_SYMMETRIC_FACTORY := 182.
Definition OPT_SEQ_SYMMETRIC_LANES := 184.

(** The index of the byte that holds [bit]. *)
Definition byte_index (features : list Z) (bit : Z) : nat :=
  length features - 1 - Z.to_nat (bit / 8).

Fixpoint trim_features (features : list Z) : list Z :=
  match features with
  | b :: rest => if b =? 0 then trim_features rest else features
  | [] => []
  end.

Definition clear_feature_bit (features : list Z) (bit : Z) : list Z :=
  if Z.of_nat (length features) <=? bit / 8 then features
  else
    let i := byte_index features bit in
    <[i := Z.land (nth i features 0) (wrap_u8 (Z.lnot (Z.shiftl 1 (bit mod 8))))]> features.

Definition set_feature_bit (ptr : list Z) (bit : Z) : list Z :=
  let ptr :=
    if Z.of_nat (length ptr) <=? bit / 8
    then replicate (Z.to_nat (bit / 8 + 1) - length ptr) 0 ++ ptr else ptr in
  let i := byte_index ptr bit in
  <[i := Z.lor (nth i ptr 0) (Z.shiftl 1 (bit mod 8))]> ptr.

(** The assertion is the guard of [feature_is_set], and the loop bound of
    [all_supported_features]. *)
Definition test_bit (features : list Z) (byte bit : Z) : bool :=
  negb (Z.land (nth (length features - 1 - Z.to_nat byte) features 0)
          (Z.shiftl 1 (bit mod 8)) =? 0).

Definition feature_is_set (features : list Z) (bit : Z) : bool :=
  let bytenum := bit / 8 in
  if Z.of_nat (length features) <=? bytenum then false
  else test_bit features bytenum (bit mod 8).

Definition feature_offered (features : list Z) (f : Z) : bool :=
  feature_is_set features (COMPULSORY_FEATURE f) || feature_is_set features (OPTIONAL_FEATURE f).

Definition feature_negotiated (our_features : feature_set) (their_features : list Z) (f : Z) : bool :=
  feature_offered their_features f && feature_offered (bits our_features INIT_FEATURE) f.

(** The dependency missing, with the feature that needs it. *)
Definition feature_check_depends (their_features : list Z) : option (Z * Z) :=
  let feature_deps := [(OPT_BASIC_MPP, OPT_PAYMENT_SECRET)] in
  find (fun d => feature_offered their_features (fst d) &&
                 negb (feature_offered their_features (snd d))) feature_deps.

(** The bit numbers [0 .. 8 * len) of a vector. *)
Definition bit_range (len : nat) : list Z := map Z.of_nat (seq 0 (8 * len)).

Definition all_supported_features (our_features : feature_set) (bitmap : list Z)
    (p : feature_place) : Z :=
  match find (fun bitnum => Z.even bitnum && test_bit bitmap (bitnum / 8) (bitnum mod 8)
                            && negb (feature_offered (bits our_features p) bitnum))
             (bit_range (length bitmap)) with
  | Some bitnum => bitnum
  | None => -1
  end.

Definition features_unsupported (our_features : feature_set) (their_features : list Z)
    (p : feature_place) : Z :=
  all_supported_features our_features their_features p.

Definition featurebits_or (f1 f2 : list Z) : list Z :=
  let '(f1, f2) := if (length f1 <? length f2)%nat then (f2, f1) else (f1, f2) in
  take (length f1 - length f2) f1 ++ zip_with Z.lor (drop (length f1 - length f2) f1) f2.

(** The mask is [0 << (bit % 8)]. *)
Definition featurebits_unset (ptr : list Z) (bit : Z) : list Z :=
  if Z.of_nat (length ptr) <=? bit / 8 then ptr
  else
    let i := byte_index ptr bit in
    trim_features (<[i := Z.land (nth i ptr 0) (Z.shiftl 0 (bit mod 8))]> ptr).

Definition featurebits_eq (f1 f2 : list Z) : bool :=
  forallb (fun i => Bool.eqb (feature_is_set f1 i) (feature_is_set f2 i))
    (bit_range (Nat.max (length f1) (length f2))).

(** ** Channel types *)

Record channel_type := mk_channel_type { features : list Z }.

Definition new_channel_type : channel_type := mk_channel_type [].
Definition with_bit (t : channel_type) (f : Z) : channel_type :=
  mk_channel_type (set_feature_bit (features t) (COMPULSORY_FEATURE f)).

Definition channel_type_none_obsolete : channel_type := new_channel_type.
Definition channel_type_static_remotekey : channel_type :=
  with_bit new_channel_type OPT_STATIC_REMOTEKEY.
Definition channel_type_anchor_outputs_obsolete : channel_type :=
  with_bit (with_bit new_channel_type OPT_ANCHOR_OUTPUTS_DEPRECATED) OPT_STATIC_REMOTEKEY.
Definition channel_type_set_zeroconf (t : channel_type) : channel_type := with_bit t OPT_ZEROCONF.
Definition channel_type_set_scid_alias (t : channel_type) : channel_type := with_bit t OPT_SCID_ALIAS.
Definition channel_type_anchors_zero_fee_htlc : channel_type :=
  with_bit (with_bit new_channel_type OPT_ANCHORS_ZERO_FEE_HTLC_TX) OPT_STATIC_REMOTEKEY.
Definition channel_type_seq_taproot_covenant : channel_type :=
  with_bit (with_bit new_channel_type OPT_SEQ_TAPROOT_COVENANT) OPT_STATIC_REMOTEKEY.
Definition channel_type_seq_credit : channel_type :=
  with_bit channel_type_seq_taproot_covenant OPT_SEQ_CREDIT.
Definition channel_type_seq_symmetric : channel_type :=
  with_bit (with_bit new_channel_type OPT_SEQ_SYMMETRIC) OPT_STATIC_REMOTEKEY.
Definition channel_type_seq_symmetric_factory : channel_type :=
  with_bit channel_type_seq_symmetric OPT_SEQ_SYMMETRIC_FACTORY.
Definition channel_type_seq_symmetric_lanes : channel_type :=
  with_bit channel_type_seq_symmetric OPT_SEQ_SYMMETRIC_LANES.
Definition channel_type_seq_symmetric_clock : channel_type :=
  with_bit channel_type_seq_symmetric OPT_SEQ_SYMMETRIC_CLOCK.

Definition channel_type_has (t : channel_type) (feature : Z) : bool :=
  feature_offered (features t) feature.

Definition channel_type_has_anchors (t : channel_type) : bool :=
  feature_offered (features t) OPT_ANCHOR_OUTPUTS_DEPRECATED
  || feature_offered (features t) OPT_ANCHORS_ZERO_FEE_HTLC_TX.

Definition channel_type_eq (a b : channel_type) : bool := featurebits_eq (features a) (features b).

Definition accept_feats : list Z :=
  [OPT_ANCHORS_ZERO_FEE_HTLC_TX; OPT_STATIC_REMOTEKEY; OPT_SCID_ALIAS; OPT_ZEROCONF;
   OPT_SEQ_TAPROOT_COVENANT; OPT_SEQ_CREDIT; OPT_SEQ_SYMMETRIC; OPT_SEQ_SYMMETRIC_FACTORY;
   OPT_SEQ_SYMMETRIC_LANES; OPT_SEQ_SYMMETRIC_CLOCK].
Definition accept_variants : list Z := [OPT_SCID_ALIAS; OPT_ZEROCONF].
Definition known_types : list channel_type :=
  [channel_type_static_remotekey; channel_type_anchors_zero_fee_htlc;
   channel_type_seq_taproot_covenant; channel_type_seq_credit; channel_type_seq_symmetric;
   channel_type_seq_symmetric_factory; channel_type_seq_symmetric_lanes;
   channel_type_seq_symmetric_clock].

Definition channel_type_accept (t : list Z) (our_features : feature_set) : option channel_type :=
  let ours := bits our_features INIT_FEATURE in
  if negb (forallb (fun f => if feature_offered t f then feature_offered ours f
                             else negb (feature_is_set ours (COMPULSORY_FEATURE f))) accept_feats)
  then None
  else
    let proposed := mk_channel_type (fold_left featurebits_unset accept_variants t) in
    if existsb (channel_type_eq proposed) known_types then Some (mk_channel_type t) else None.

(** ** A feature vector is the integer its bytes write *)

Lemma land_bit_nonzero b j : 0 <= j -> negb (Z.land b (Z.shiftl 1 j) =? 0) = Z.testbit b j.
Proof.
  intros Hj. rewrite Z.shiftl_1_l.
  assert (Z.land b (2 ^ j) = if Z.testbit b j then 2 ^ j else 0) as ->.
  { apply Z.bits_inj'. intros n Hn. rewrite Z.land_spec, Z.pow2_bits_eqb by lia.
    destruct (Z.eqb_spec j n) as [->|].
    - rewrite andb_true_r. destruct (Z.testbit b n); [|by rewrite Z.bits_0].
      by rewrite Z.pow2_bits_true.
    - rewrite andb_false_r. destruct (Z.testbit b j); [|by rewrite Z.bits_0].
      symmetry. by apply Z.pow2_bits_false. }
  pose proof (Z.pow_pos_nonneg 2 j eq_refl Hj). destruct (Z.testbit b j); lia.
Qed.

(** Byte [k] from the end, zero beyond the front. *)
Definition byte_at (f : list Z) (k : nat) : Z := nth k (rev f) 0.

Lemma pow_256_2 k : 256 ^ Z.of_nat k = 2 ^ (8 * Z.of_nat k).
Proof. by rewrite Z.pow_mul_r by lia. Qed.

Lemma byte_at_value f k : bytes f -> byte_at f k = be_value f / 256 ^ Z.of_nat k mod 256.
Proof.
  intros Hf. unfold byte_at. revert k. induction f as [|b f IH] using rev_ind; intros k.
  { change (be_value []) with 0. rewrite Z.div_0_l by lia. by destruct k. }
  apply Forall_app in Hf as [Hf Hb]. apply Forall_cons in Hb as [Hb _].
  rewrite rev_app_distr, be_value_app. cbn [rev app length]. unfold be_value at 2. cbn [fold_left].
  rewrite Z.mul_0_l, Z.add_0_l. change (256 ^ Z.of_nat 1) with 256. destruct k as [|k]; cbn [nth].
  - change (256 ^ Z.of_nat 0) with 1. rewrite Z.div_1_r, Z.add_comm, Z.mod_add, Z.mod_small by lia. done.
  - rewrite IH by done. rewrite Nat2Z.inj_succ, Z.pow_succ_r by lia.
    rewrite <- Z.div_div by lia. do 2 f_equal.
    rewrite Z.div_add_l, Z.div_small by lia. lia.
Qed.

Lemma byte_at_range f k : bytes f -> in_u8 (byte_at f k).
Proof. intros Hf. rewrite byte_at_value by done. pose proof (Z.mod_pos_bound (be_value f / 256 ^ Z.of_nat k) 256). lia. Qed.

Lemma byte_at_nth f k :
  (k < length f)%nat -> nth (length f - 1 - k) f 0 = byte_at f k.
Proof. intros Hk. unfold byte_at. rewrite rev_nth by done. f_equal. lia. Qed.

Lemma byte_at_beyond f k : (length f <= k)%nat -> byte_at f k = 0.
Proof. intros. apply nth_overflow. by rewrite length_rev. Qed.

Lemma byte_at_insert f k k' b :
  (k < length f)%nat ->
  byte_at (<[(length f - 1 - k)%nat := b]> f) k' = if (k' =? k)%nat then b else byte_at f k'.
Proof.
  intros Hk. destruct (Nat.lt_ge_cases k' (length f)).
  - rewrite <- byte_at_nth by (rewrite length_insert; lia). rewrite length_insert.
    rewrite !nth_lookup. destruct (Nat.eqb_spec k' k) as [->|].
    + by rewrite list_lookup_insert_eq by lia.
    + rewrite list_lookup_insert_ne by lia. rewrite <- nth_lookup. by apply byte_at_nth.
  - rewrite !byte_at_beyond by (rewrite ?length_insert; lia). by destruct (Nat.eqb_spec k' k); [lia|].
Qed.

Lemma testbit_be_value f i :
  bytes f -> 0 <= i -> Z.testbit (be_value f) i = Z.testbit (byte_at f (Z.to_nat (i / 8))) (i mod 8).
Proof.
  intros Hf Hi. assert (0 <= i / 8) by (apply Z.div_pos; lia).
  pose proof (Z.mod_pos_bound i 8 eq_refl). rewrite byte_at_value by done. change 256 with (2 ^ 8) at 2.
  rewrite Z.mod_pow2_bits_low by lia. rewrite pow_256_2, <- Z.shiftr_div_pow2 by lia.
  rewrite Z.shiftr_spec by lia. f_equal. rewrite Z2Nat.id by lia.
  pose proof (Z.div_mod i 8). lia.
Qed.

Lemma feature_is_set_testbit f i :
  bytes f -> 0 <= i -> feature_is_set f i = Z.testbit (be_value f) i.
Proof.
  intros Hf Hi. assert (0 <= i / 8) by (apply Z.div_pos; lia).
  rewrite testbit_be_value by done. unfold feature_is_set. destruct (Z.leb_spec (Z.of_nat (length f)) (i / 8)).
  - rewrite byte_at_beyond by lia. by rewrite Z.bits_0.
  - unfold test_bit. rewrite Z.mod_mod, byte_at_nth by lia. apply land_bit_nonzero.
    by apply Z.mod_pos_bound.
Qed.

Lemma bytes_insert f i b : bytes f -> in_u8 b -> bytes (<[i := b]> f).
Proof. intros. by apply Forall_insert. Qed.

Lemma testbit_insert f k b i :
  bytes f -> in_u8 b -> (k < length f)%nat -> 0 <= i ->
  Z.testbit (be_value (<[(length f - 1 - k)%nat := b]> f)) i =
  if (Z.to_nat (i / 8) =? k)%nat then Z.testbit b (i mod 8) else Z.testbit (be_value f) i.
Proof.
  intros Hf Hb Hk Hi. rewrite !testbit_be_value by (done || by apply bytes_insert).
  rewrite byte_at_insert by done. by case_match.
Qed.

Lemma same_bit i bit :
  0 <= i -> 0 <= bit ->
  (i =? bit) = (Z.to_nat (i / 8) =? Z.to_nat (bit / 8))%nat && (i mod 8 =? bit mod 8).
Proof.
  intros Hi Hb. assert (0 <= i / 8) by (apply Z.div_pos; lia).
  assert (0 <= bit / 8) by (apply Z.div_pos; lia).
  destruct (Nat.eqb_spec (Z.to_nat (i / 8)) (Z.to_nat (bit / 8))) as [E|E]; simpl.
  - pose proof (Z.div_mod i 8). pose proof (Z.div_mod bit 8). lia.
  - apply Z.eqb_neq. by intros ->.
Qed.

Lemma in_u8_bits b : 0 <= b -> (forall n, 8 <= n -> Z.testbit b n = false) -> in_u8 b.
Proof.
  intros Hb H. enough (b = b mod 2 ^ 8) as -> by (pose proof (Z.mod_pos_bound b (2 ^ 8)); lia).
  apply Z.bits_inj'. intros n Hn. destruct (Z.lt_ge_cases n 8).
  - by rewrite Z.mod_pow2_bits_low.
  - rewrite Z.mod_pow2_bits_high by lia. by apply H.
Qed.

Lemma u8_high_bits b n : in_u8 b -> 8 <= n -> Z.testbit b n = false.
Proof.
  intros Hb Hn. rewrite <- (Z.mod_small b (2 ^ 8)) by lia. apply Z.mod_pow2_bits_high. lia.
Qed.

Lemma pow2_bit j n : 0 <= j -> Z.testbit (Z.shiftl 1 j) n = (n =? j).
Proof. intros Hj. rewrite Z.shiftl_1_l, Z.pow2_bits_eqb by done. apply Z.eqb_sym. Qed.

Lemma set_feature_bit_value f bit :
  bytes f -> 0 <= bit ->
  bytes (set_feature_bit f bit) /\ be_value (set_feature_bit f bit) = Z.setbit (be_value f) bit.
Proof.
  intros Hf Hb. unfold set_feature_bit. cbv zeta.
  match goal with |- context [byte_index ?x bit] => set (g := x) end.
  assert (bytes g /\ be_value g = be_value f /\ bit / 8 < Z.of_nat (length g)) as (Hg & V & L).
  { subst g. destruct (Z.leb_spec (Z.of_nat (length f)) (bit / 8)); [|done].
    rewrite be_value_zeros, length_app, length_replicate. split; [|split; [done|lia]].
    apply Forall_app. split; [apply Forall_replicate; lia|done]. }
  clearbody g. rewrite <- V. clear V Hf f. assert (0 <= bit / 8) by (apply Z.div_pos; lia).
  pose proof (Z.mod_pos_bound bit 8 eq_refl). unfold byte_index. rewrite byte_at_nth by lia.
  pose proof (byte_at_range g (Z.to_nat (bit / 8)) Hg).
  assert (in_u8 (Z.lor (byte_at g (Z.to_nat (bit / 8))) (Z.shiftl 1 (bit mod 8)))) as Hu.
  { apply in_u8_bits; [apply Z.lor_nonneg; rewrite Z.shiftl_nonneg; lia|].
    intros n Hn. rewrite Z.lor_spec, pow2_bit, u8_high_bits by lia. simpl. lia. }
  split; [by apply bytes_insert|]. apply Z.bits_inj'. intros i Hi.
  rewrite testbit_insert, Z.setbit_eqb, (Z.eqb_sym bit i), same_bit by (done || lia).
  destruct (Nat.eqb_spec (Z.to_nat (i / 8)) (Z.to_nat (bit / 8))) as [E|]; [|done].
  rewrite Z.lor_spec, pow2_bit, (testbit_be_value g i), E by (done || lia). simpl. apply orb_comm.
Qed.

Lemma clear_feature_bit_value f bit :
  bytes f -> 0 <= bit ->
  bytes (clear_feature_bit f bit) /\ be_value (clear_feature_bit f bit) = Z.clearbit (be_value f) bit.
Proof.
  intros Hf Hb. unfold clear_feature_bit. assert (0 <= bit / 8) by (apply Z.div_pos; lia).
  pose proof (Z.mod_pos_bound bit 8 eq_refl).
  destruct (Z.leb_spec (Z.of_nat (length f)) (bit / 8)).
  { split; [done|]. apply Z.bits_inj'. intros i Hi. rewrite Z.clearbit_eqb.
    destruct (Z.eqb_spec bit i) as [<-|]; [|by rewrite andb_true_r].
    rewrite testbit_be_value, byte_at_beyond by (done || lia). by rewrite Z.bits_0. }
  unfold byte_index. rewrite byte_at_nth by lia.
  pose proof (byte_at_range f (Z.to_nat (bit / 8)) Hf).
  set (m := wrap_u8 _). assert (forall n, 0 <= n < 8 -> Z.testbit m n = negb (n =? bit mod 8)) as Hm.
  { intros n Hn. subst m. unfold wrap_u8. change 256 with (2 ^ 8).
    by rewrite Z.mod_pow2_bits_low, Z.lnot_spec, pow2_bit by lia. }
  assert (in_u8 (Z.land (byte_at f (Z.to_nat (bit / 8))) m)) as Hu.
  { apply in_u8_bits; [apply Z.land_nonneg; lia|].
    intros n Hn. by rewrite Z.land_spec, u8_high_bits by lia. }
  split; [by apply bytes_insert|]. apply Z.bits_inj'. intros i Hi.
  rewrite testbit_insert, Z.clearbit_eqb, (Z.eqb_sym bit i), same_bit by (done || lia).
  destruct (Nat.eqb_spec (Z.to_nat (i / 8)) (Z.to_nat (bit / 8))) as [E|]; [|by rewrite andb_true_r].
  rewrite Z.land_spec, Hm, (testbit_be_value f i), E by (done || lia || by apply Z.mod_pos_bound).
  done.
Qed.

Lemma trim_features_value f : be_value (trim_features f) = be_value f.
Proof.
  induction f as [|b f IH]; [done|]. simpl. destruct (Z.eqb_spec b 0) as [->|]; [|done].
  rewrite IH, be_value_cons. lia.
Qed.

Lemma trim_features_bytes f : bytes f -> bytes (trim_features f).
Proof. induction 1; simpl; [done|]. case_if; [done|]. by constructor. Qed.

Lemma featurebits_eq_value f g :
  bytes f -> bytes g -> featurebits_eq f g = (be_value f =? be_value g).
Proof.
  intros Hf Hg. apply eq_iff_eq_true. unfold featurebits_eq. rewrite forallb_forall, Z.eqb_eq. split.
  - intros H. apply Z.bits_inj'. intros i Hi. rewrite <- !feature_is_set_testbit by done.
    destruct (Z.lt_ge_cases (i / 8) (Z.of_nat (Nat.max (length f) (length g)))).
    + apply eqb_prop, H. apply in_map_iff. exists (Z.to_nat i). rewrite in_seq.
      split; [lia|]. Z.div_mod_to_equations. lia.
    + unfold feature_is_set. replace (_ <=? _) with true by lia. by replace (_ <=? _) with true by lia.
  - intros E i Hi. apply in_map_iff in Hi as (n & <- & _).
    rewrite !feature_is_set_testbit, E by (done || lia). apply eqb_reflx.
Qed.

Lemma lor_range r s n : 0 <= n -> 0 <= r < 2 ^ n -> 0 <= s < 2 ^ n -> 0 <= Z.lor r s < 2 ^ n.
Proof.
  intros Hn Hr Hs. enough (Z.lor r s = Z.lor r s mod 2 ^ n) as -> by (apply Z.mod_pos_bound; lia).
  apply Z.bits_inj'. intros k Hk. destruct (Z.lt_ge_cases k n).
  - by rewrite Z.mod_pow2_bits_low.
  - rewrite Z.mod_pow2_bits_high, Z.lor_spec by lia.
    rewrite <- (Z.mod_small r (2 ^ n)), <- (Z.mod_small s (2 ^ n)) by lia.
    by rewrite !Z.mod_pow2_bits_high by lia.
Qed.

Lemma lor_concat x y r s n :
  0 <= n -> 0 <= r < 2 ^ n -> 0 <= s < 2 ^ n ->
  Z.lor (x * 2 ^ n + r) (y * 2 ^ n + s) = Z.lor x y * 2 ^ n + Z.lor r s.
Proof.
  intros Hn Hr Hs. rewrite <- !lor_disjoint_add by (try apply lor_range; lia).
  rewrite <- !Z.shiftl_mul_pow2 by lia. rewrite Z.shiftl_lor.
  apply Z.bits_inj'. intros k Hk. rewrite !Z.lor_spec. by destruct (Z.testbit _ k), (Z.testbit r k), (Z.testbit s k), (Z.testbit _ k).
Qed.

Lemma be_value_zip_lor l k :
  bytes l -> bytes k -> length l = length k ->
  be_value (zip_with Z.lor l k) = Z.lor (be_value l) (be_value k) /\ bytes (zip_with Z.lor l k).
Proof.
  intros Hl. revert k. induction Hl as [|b l Hb Hl IH]; intros [|c k] Hk E; try done.
  apply Forall_cons in Hk as [Hc Hk]. simpl in E. injection E as E.
  destruct (IH k Hk E) as [V B]. cbn [zip_with]. rewrite !be_value_cons, V, length_zip_with_l, <- E by lia.
  split.
  - pose proof (be_value_range l Hl). pose proof (be_value_range k Hk) as R. rewrite <- E in R.
    rewrite pow_256_2 in *. by rewrite lor_concat by (done || lia).
  - constructor; [|done]. pose proof (lor_range b c 8). lia.
Qed.

Lemma featurebits_or_value f g :
  bytes f -> bytes g ->
  bytes (featurebits_or f g) /\ be_value (featurebits_or f g) = Z.lor (be_value f) (be_value g).
Proof.
  assert (forall a b, bytes a -> bytes b -> (length b <= length a)%nat ->
    bytes (take (length a - length b) a ++ zip_with Z.lor (drop (length a - length b) a) b) /\
    be_value (take (length a - length b) a ++ zip_with Z.lor (drop (length a - length b) a) b)
      = Z.lor (be_value a) (be_value b)) as H.
  { intros a b Ha Hb L. set (n := (length a - length b)%nat).
    assert (length (drop n a) = length b) as E by (rewrite length_drop; lia).
    assert (bytes (take n a) /\ bytes (drop n a)) as [Ht Hd] by (split; [by apply Forall_take|by apply Forall_drop]).
    destruct (be_value_zip_lor (drop n a) b) as [V B]; [done..|]. split; [by apply Forall_app|].
    rewrite be_value_app, V, length_zip_with_l by lia. rewrite <- (take_drop n a) at 4.
    rewrite be_value_app. rewrite E. pose proof (be_value_range _ Hb) as R. pose proof (be_value_range _ Hd) as R'.
    rewrite E in R'. rewrite pow_256_2 in *.
    rewrite <- (Z.add_0_l (be_value b)) at 2. rewrite <- (Z.mul_0_l (2 ^ (8 * Z.of_nat (length b)))).
    by rewrite lor_concat, Z.lor_0_r by (done || lia). }
  intros Hf Hg. unfold featurebits_or. destruct (Nat.ltb_spec (length f) (length g)).
  - rewrite (Z.lor_comm (be_value f)). by apply H; [..|lia].
  - by apply H.
Qed.

(** Feature vectors are integers: reading a byte string as the big-endian
    integer it writes, [feature_is_set] tests a bit whatever the length,
    setting, clearing and combining are the bit operations, two vectors compare
    equal when they are the same set of bits, and trimming changes nothing. *)
Theorem feature_vectors_are_integers f g i :
  bytes f -> bytes g -> 0 <= i ->
  feature_is_set f i = Z.testbit (be_value f) i /\
  be_value (set_feature_bit f i) = Z.setbit (be_value f) i /\
  be_value (clear_feature_bit f i) = Z.clearbit (be_value f) i /\
  be_value (featurebits_or f g) = Z.lor (be_value f) (be_value g) /\
  featurebits_eq f g = (be_value f =? be_value g) /\
  featurebits_eq (trim_features f) f = true.
Proof.
  intros Hf Hg Hi. split; [by apply feature_is_set_testbit|].
  split; [by apply set_feature_bit_value|]. split; [by apply clear_feature_bit_value|].
  split; [by apply featurebits_or_value|]. split; [by apply featurebits_eq_value|].
  rewrite featurebits_eq_value by (done || by apply trim_features_bytes).
  rewrite trim_features_value. apply Z.eqb_refl.
Qed.

Lemma feature_vectors_are_integers_witness :
  be_value (set_feature_bit [0x10; 0x00] 22) = Z.setbit 4096 22.
Proof. apply (feature_vectors_are_integers [0x10; 0x00] [] 22); [repeat constructor; lia|constructor|lia]. Defined.

Lemma featurebits_unset_bits f bit i :
  bytes f -> 0 <= bit -> 0 <= i ->
  feature_is_set (featurebits_unset f bit) i = feature_is_set f i && negb (i / 8 =? bit / 8).
Proof.
  intros Hf Hb Hi. unfold featurebits_unset. assert (0 <= bit / 8) by (apply Z.div_pos; lia).
  assert (0 <= i / 8) by (apply Z.div_pos; lia).
  destruct (Z.leb_spec (Z.of_nat (length f)) (bit / 8)).
  { destruct (Z.eqb_spec (i / 8) (bit / 8)) as [E|]; [|by rewrite andb_true_r].
    unfold feature_is_set. by replace (_ <=? i / 8) with true by lia. }
  rewrite Z.shiftl_0_l, Z.land_0_r. unfold byte_index.
  assert (bytes (<[(length f - 1 - Z.to_nat (bit / 8))%nat := 0]> f)) by (apply bytes_insert; [done|lia]).
  rewrite !feature_is_set_testbit, trim_features_value by (done || by apply trim_features_bytes).
  rewrite testbit_insert by (done || lia).
  destruct (Nat.eqb_spec (Z.to_nat (i / 8)) (Z.to_nat (bit / 8))), (Z.eqb_spec (i / 8) (bit / 8));
    try lia; [by rewrite Z.bits_0, andb_false_r|by rewrite andb_true_r].
Qed.

(** [featurebits_unset] does not clear a bit, it clears the byte the bit is
    in: its mask is zero, so the seven neighbours go too. *)
Theorem featurebits_unset_clears_byte f bit i :
  bytes f -> 0 <= bit -> 0 <= i ->
  feature_is_set (featurebits_unset f bit) i = feature_is_set f i && negb (i / 8 =? bit / 8).
Proof. apply featurebits_unset_bits. Qed.

Lemma featurebits_unset_clears_byte_witness :
  feature_is_set (featurebits_unset [0x41; 0; 0; 0; 0; 0] 46) 40 = false.
Proof.
  rewrite (featurebits_unset_clears_byte [0x41; 0; 0; 0; 0; 0] 46 40);
    [reflexivity|repeat constructor; lia|lia|lia].
Defined.

(** So a channel type with any unknown bits between 40 and 55 is taken for
    one of the known types: a node that offers only [option_static_remotekey]
    accepts the type of bits 12 and 40, which no basic type or variant has. *)
Theorem channel_type_accept_unknown_bits :
  let t := set_feature_bit (set_feature_bit [] 12) 40 in
  channel_type_accept t (mk_feature_set (fun _ => set_feature_bit [] 13)) = Some (mk_channel_type t) /\
  forallb (fun k => negb (channel_type_eq (mk_channel_type t) k) &&
                    negb (channel_type_eq (mk_channel_type t) (channel_type_set_zeroconf k)) &&
                    negb (channel_type_eq (mk_channel_type t) (channel_type_set_scid_alias k)) &&
                    negb (channel_type_eq (mk_channel_type t)
                            (channel_type_set_scid_alias (channel_type_set_zeroconf k))))
    known_types = true.
Proof. split; vm_compute; reflexivity. Qed.

Lemma featurebits_unset_bytes f bit : bytes f -> bytes (featurebits_unset f bit).
Proof.
  intros Hf. unfold featurebits_unset. case_if; [done|]. apply trim_features_bytes, bytes_insert; [done|].
  rewrite Z.shiftl_0_l, Z.land_0_r. lia.
Qed.

Lemma channel_type_accept_inv t ours c :
  channel_type_accept t ours = Some c ->
  c = mk_channel_type t /\
  forallb (fun f => if feature_offered t f then feature_offered (bits ours INIT_FEATURE) f
                    else negb (feature_is_set (bits ours INIT_FEATURE) (COMPULSORY_FEATURE f)))
    accept_feats = true /\
  exists k, k ∈ known_types /\
    channel_type_eq (mk_channel_type (fold_left featurebits_unset accept_variants t)) k = true.
Proof.
  unfold channel_type_accept. destruct (forallb _ accept_feats); [|done]. cbn [negb].
  destruct (existsb _ known_types) eqn:E; [|done]. intros [= <-].
  apply existsb_exists in E as (k & Hk & E). split; [done|]. split; [done|].
  exists k. by rewrite list_elem_of_In.
Qed.

(** What [channel_type_accept] accepts is what was proposed; this node offers
    every negotiable feature of it and requires none that it lacks; and outside
    the two bytes of the variant bits it has exactly the bits of a known type. *)
Theorem channel_type_accept_sound t ours c :
  bytes t -> channel_type_accept t ours = Some c ->
  c = mk_channel_type t /\
  (forall f, f ∈ accept_feats ->
     if feature_offered t f then feature_offered (bits ours INIT_FEATURE) f = true
     else feature_is_set (bits ours INIT_FEATURE) (COMPULSORY_FEATURE f) = false) /\
  exists k, k ∈ known_types /\
    forall i, 0 <= i -> i / 8 <> 5 -> i / 8 <> 6 -> feature_is_set t i = feature_is_set (features k) i.
Proof.
  intros Ht H. apply channel_type_accept_inv in H as (-> & Hf & k & Hk & E). split; [done|]. split.
  - intros f Hin. rewrite forallb_forall in Hf. specialize (Hf f).
    rewrite <- list_elem_of_In in Hf. specialize (Hf Hin).
    destruct (feature_offered t f); [done|]. by apply negb_true_iff.
  - exists k. split; [done|]. intros i Hi H5 H6. unfold channel_type_eq in E.
    assert (bytes (features k)) as Hbk.
    { repeat (apply elem_of_cons in Hk as [->|Hk]; [vm_compute; repeat constructor; discriminate|]).
      by apply elem_of_nil in Hk. }
    pose proof (featurebits_unset_bytes t OPT_SCID_ALIAS Ht) as Hb.
    rewrite featurebits_eq_value in E by (try done; by apply featurebits_unset_bytes).
    apply Z.eqb_eq in E. rewrite (feature_is_set_testbit (features k)), <- E by done.
    rewrite <- feature_is_set_testbit by (done || by apply featurebits_unset_bytes).
    cbn [features fold_left accept_variants]. rewrite !featurebits_unset_bits by done.
    change (OPT_SCID_ALIAS / 8) with 5. change (OPT_ZEROCONF / 8) with 6.
    replace (i / 8 =? 5) with false by lia. replace (i / 8 =? 6) with false by lia.
    by rewrite !andb_true_r.
Qed.

Lemma channel_type_accept_sound_witness :
  exists k, k ∈ known_types /\ feature_is_set [0x10; 0x00] 12 = feature_is_set (features k) 12.
Proof.
  destruct (channel_type_accept_sound [0x10; 0x00] (mk_feature_set (fun _ => [0x10; 0x00]))
              (mk_channel_type [0x10; 0x00])) as (_ & _ & k & Hk & H).
  - repeat constructor; lia.
  - reflexivity.
  - exists k. split; [done|]. apply H; [lia|discriminate|discriminate].
Defined.
