(* ===== verification/Script.v ===== *)
(** * Scripts (bitcoin/script.c, the script functions of common/htlc_tx.c,
    common/initial_commit_tx.c and bitcoin/pubkey.c)

    A script is the list of its bytes; building one appends to it, so every
    builder here returns what it appends.  A [struct pubkey] is its compressed
    encoding, the 33 bytes [pubkey_to_der] gives.  The hash functions are
    arguments; [Digest] says how long their results are, which is what the
    assertions on the length of an output script rely on. *)

From stdpp Require Import list.
From S2P Require Import Prelude.
Local Open Scope Z_scope.

(** [f] gives [n] bytes. *)
Class Digest (f : list Z -> list Z) (n : nat) : Prop := {
  digest_length m : length (f m) = n;
  digest_bytes m b : b ∈ f m -> 0 <= b < 256;
}.
#[export] Hint Mode Digest ! - : typeclass_instances.

(** ** Opcodes *)

Definition OP_0 := 0x00.
Definition OP_1 := 0x51.
Definition OP_PUSHDATA1 := 0x4c.
Definition OP_PUSHDATA2 := 0x4d.
Definition OP_PUSHDATA4 := 0x4e.
Definition OP_IF := 0x63.
Definition OP_NOTIF := 0x64.
Definition OP_ELSE := 0x67.
Definition OP_ENDIF := 0x68.
Definition OP_IFDUP := 0x73.
Definition OP_DROP := 0x75.
Definition OP_DUP := 0x76.
Definition OP_SWAP := 0x7c.
Definition OP_SIZE := 0x82.
Definition OP_EQUAL := 0x87.
Definition OP_EQUALVERIFY := 0x88.
Definition OP_HASH160 := 0xa9.
Definition OP_CHECKSIG := 0xac.
Definition OP_CHECKSIGVERIFY := 0xad.
Definition OP_CHECKMULTISIG := 0xae.
Definition OP_CHECKLOCKTIMEVERIFY := 0xb1.
Definition OP_CHECKSEQUENCEVERIFY := 0xb2.

(** ** Bytes *)

(** The [n] low bytes of [z], the lowest first. *)
Fixpoint le_bytes (n : nat) (z : Z) : list Z :=
  match n with O => [] | S n => z mod 256 :: le_bytes n (z / 256) end.

(** The value a little-endian byte string stands for. *)
Fixpoint le_value (l : list Z) : Z := match l with [] => 0 | b :: l => b + 256 * le_value l end.

(** [memcmp] of two arrays of the same length. *)
Fixpoint memcmp (a b : list Z) : comparison :=
  match a, b with
  | x :: a, y :: b => match x ?= y with Eq => memcmp a b | c => c end
  | _, _ => Eq
  end.

Definition pubkey_cmp (a b : list Z) : comparison := memcmp a b.

(** ** Pieces of a script *)

Definition script_push_bytes (mem : list Z) : list Z :=
  let len := Z.of_nat (length mem) in
  (if len <? 76 then [len]
   else if len <? 256 then [OP_PUSHDATA1; len]
   else if len <? 65536 then OP_PUSHDATA2 :: le_bytes 2 len
   else OP_PUSHDATA4 :: le_bytes 4 len) ++ mem.

Definition add_number (num : Z) : list Z :=
  if num =? 0 then [0]
  else if num <=? 16 then [0x50 + num]
  else if num <=? 0x0000007F then script_push_bytes (le_bytes 1 num)
  else if num <=? 0x00007FFF then script_push_bytes (le_bytes 2 num)
  else if num <=? 0x007FFFFF then script_push_bytes (le_bytes 3 num)
  else if num <=? 0x7FFFFFFF then script_push_bytes (le_bytes 4 num)
  else script_push_bytes (le_bytes 5 num).

Definition add_push_key (key : list Z) : list Z := script_push_bytes key.

Definition bitcoin_redeem_2of2 (key1 key2 : list Z) : list Z :=
  add_number 2
  ++ (match pubkey_cmp key1 key2 with
      | Lt => add_push_key key1 ++ add_push_key key2
      | _ => add_push_key key2 ++ add_push_key key1
      end)
  ++ add_number 2 ++ [OP_CHECKMULTISIG].

(** A byte of a script that is long enough. *)
Definition byte (script : list Z) (i : nat) : Z := nth i script 0.

Definition is_to_remote_anchored_witness_script (script : list Z) : bool :=
  let len := length script in
  negb ((len <? 37)%nat || (39 <? len)%nat)
  && (byte script 0 =? 33) && (byte script 34 =? OP_CHECKSIGVERIFY)
  && (byte script (len - 1) =? OP_CHECKSEQUENCEVERIFY).

Definition bitcoin_wscript_to_remote_anchored (remote_key : list Z) (csv_lock : Z) : outcome (list Z) :=
  let script := add_push_key remote_key ++ [OP_CHECKSIGVERIFY] ++ add_number csv_lock
                ++ [OP_CHECKSEQUENCEVERIFY] in
  assert_then (is_to_remote_anchored_witness_script script) (Ret script).

Definition is_anchor_witness_script (script : list Z) : bool :=
  (length script =? 40)%nat && (byte script 0 =? 33) && (byte script 34 =? OP_CHECKSIG)
  && (byte script 35 =? OP_IFDUP) && (byte script 36 =? OP_NOTIF) && (byte script 37 =? 0x50 + 16)
  && (byte script 38 =? OP_CHECKSEQUENCEVERIFY) && (byte script 39 =? OP_ENDIF).

Definition bitcoin_wscript_anchor (funding_pubkey : list Z) : outcome (list Z) :=
  let script := add_push_key funding_pubkey ++ [OP_CHECKSIG; OP_IFDUP; OP_NOTIF] ++ add_number 16
                ++ [OP_CHECKSEQUENCEVERIFY; OP_ENDIF] in
  assert_then (is_anchor_witness_script script) (Ret script).

Definition bitcoin_wscript_to_local (to_self_delay lease_remaining : Z)
    (revocation_pubkey local_delayedkey : list Z) : list Z :=
  [OP_IF] ++ add_push_key revocation_pubkey ++ [OP_ELSE] ++ add_number (Z.max lease_remaining to_self_delay)
  ++ [OP_CHECKSEQUENCEVERIFY; OP_DROP] ++ add_push_key local_delayedkey ++ [OP_ENDIF; OP_CHECKSIG].

Definition bitcoin_wscript_htlc_tx (to_self_delay : Z) (revocation_pubkey local_delayedkey : list Z) : list Z :=
  [OP_IF] ++ add_push_key revocation_pubkey ++ [OP_ELSE] ++ add_number to_self_delay
  ++ [OP_CHECKSEQUENCEVERIFY; OP_DROP] ++ add_push_key local_delayedkey ++ [OP_ENDIF; OP_CHECKSIG].

(** Keys needed to derive a particular commitment tx (common/keyset.h). *)
Record keyset := mk_keyset {
  self_revocation_key : list Z;
  self_htlc_key : list Z;
  other_htlc_key : list Z;
  self_delayed_payment_key : list Z;
  self_payment_key : list Z;
  other_payment_key : list Z;
}.

Section Hashes.
Context (sha256 ripemd160 : list Z -> list Z).

Definition hash160 (mem : list Z) : list Z := ripemd160 (sha256 mem).
Definition pubkey_to_hash160 (key : list Z) : list Z := ripemd160 (sha256 key).

Definition scriptpubkey_p2sh_hash (redeemhash : list Z) : list Z :=
  [OP_HASH160] ++ script_push_bytes redeemhash ++ [OP_EQUAL].
Definition scriptpubkey_p2sh (redeemscript : list Z) : list Z :=
  scriptpubkey_p2sh_hash (hash160 redeemscript).
Definition scriptpubkey_p2pkh (addr : list Z) : list Z :=
  [OP_DUP; OP_HASH160] ++ script_push_bytes addr ++ [OP_EQUALVERIFY; OP_CHECKSIG].
Definition scriptpubkey_p2wsh (witnessscript : list Z) : list Z :=
  [OP_0] ++ script_push_bytes (sha256 witnessscript).
Definition scriptpubkey_p2wpkh (key : list Z) : list Z :=
  [OP_0] ++ script_push_bytes (pubkey_to_hash160 key).
Definition scriptpubkey_witness_raw (version : Z) (wprog : list Z) : list Z :=
  add_number version ++ script_push_bytes wprog.

(** The end of both HTLC scripts: one block to wait, with anchors. *)
Definition csv_one (option_anchor_outputs option_anchors_zero_fee_htlc_tx : bool) : list Z :=
  if option_anchor_outputs || option_anchors_zero_fee_htlc_tx
  then add_number 1 ++ [OP_CHECKSEQUENCEVERIFY; OP_DROP] else [].

Definition bitcoin_wscript_htlc_offer_ripemd160 (localhtlckey remotehtlckey payment_ripemd
    revocationkey : list Z) (ao az : bool) : list Z :=
  [OP_DUP; OP_HASH160] ++ script_push_bytes (pubkey_to_hash160 revocationkey)
  ++ [OP_EQUAL; OP_IF; OP_CHECKSIG; OP_ELSE] ++ add_push_key remotehtlckey
  ++ [OP_SWAP; OP_SIZE] ++ add_number 32 ++ [OP_EQUAL; OP_NOTIF; OP_DROP] ++ add_number 2
  ++ [OP_SWAP] ++ add_push_key localhtlckey ++ add_number 2
  ++ [OP_CHECKMULTISIG; OP_ELSE; OP_HASH160] ++ script_push_bytes payment_ripemd
  ++ [OP_EQUALVERIFY; OP_CHECKSIG; OP_ENDIF] ++ csv_one ao az ++ [OP_ENDIF].

Definition bitcoin_wscript_htlc_receive_ripemd (htlc_abstimeout : Z) (localhtlckey remotehtlckey
    payment_ripemd revocationkey : list Z) (ao az : bool) : list Z :=
  [OP_DUP; OP_HASH160] ++ script_push_bytes (pubkey_to_hash160 revocationkey)
  ++ [OP_EQUAL; OP_IF; OP_CHECKSIG; OP_ELSE] ++ add_push_key remotehtlckey
  ++ [OP_SWAP; OP_SIZE] ++ add_number 32 ++ [OP_EQUAL; OP_IF; OP_HASH160]
  ++ script_push_bytes payment_ripemd ++ [OP_EQUALVERIFY] ++ add_number 2
  ++ [OP_SWAP] ++ add_push_key localhtlckey ++ add_number 2
  ++ [OP_CHECKMULTISIG; OP_ELSE; OP_DROP] ++ add_number htlc_abstimeout
  ++ [OP_CHECKLOCKTIMEVERIFY; OP_DROP; OP_CHECKSIG; OP_ENDIF] ++ csv_one ao az ++ [OP_ENDIF].

Definition htlc_offered_wscript (ripemd : list Z) (ks : keyset) (ao az : bool) : list Z :=
  bitcoin_wscript_htlc_offer_ripemd160 (self_htlc_key ks) (other_htlc_key ks) ripemd
    (self_revocation_key ks) ao az.
Definition htlc_received_wscript (ripemd : list Z) (expiry : Z) (ks : keyset) (ao az : bool) : list Z :=
  bitcoin_wscript_htlc_receive_ripemd expiry (self_htlc_key ks) (other_htlc_key ks) ripemd
    (self_revocation_key ks) ao az.
Definition to_self_wscript (to_self_delay csv : Z) (ks : keyset) : list Z :=
  bitcoin_wscript_to_local to_self_delay csv (self_revocation_key ks) (self_delayed_payment_key ks).
End Hashes.

(** ** Recognising output scripts *)

Definition is_p2pkh (script : list Z) : option (list Z) :=
  if (length script =? 25)%nat && (byte script 0 =? OP_DUP) && (byte script 1 =? OP_HASH160)
     && (byte script 2 =? 20) && (byte script 23 =? OP_EQUALVERIFY) && (byte script 24 =? OP_CHECKSIG)
  then Some (take 20 (drop 3 script)) else None.
Definition is_p2sh (script : list Z) : option (list Z) :=
  if (length script =? 23)%nat && (byte script 0 =? OP_HASH160) && (byte script 1 =? 20)
     && (byte script 22 =? OP_EQUAL)
  then Some (take 20 (drop 2 script)) else None.
Definition is_p2wsh (script : list Z) : option (list Z) :=
  if (length script =? 34)%nat && (byte script 0 =? OP_0) && (byte script 1 =? 32)
  then Some (take 32 (drop 2 script)) else None.
Definition is_p2wpkh (script : list Z) : option (list Z) :=
  if (length script =? 22)%nat && (byte script 0 =? OP_0) && (byte script 1 =? 20)
  then Some (take 20 (drop 2 script)) else None.
Definition is_p2tr (script : list Z) : option (list Z) :=
  if (length script =? 34)%nat && (byte script 0 =? OP_1) && (byte script 1 =? 32)
  then Some (take 32 (drop 2 script)) else None.

Definition found {A} (o : option A) : bool := match o with Some _ => true | None => false end.

Definition is_known_scripttype (script : list Z) : bool :=
  found (is_p2wpkh script) || found (is_p2wsh script) || found (is_p2sh script)
  || found (is_p2pkh script) || found (is_p2tr script).
Definition is_known_segwit_scripttype (script : list Z) : bool :=
  found (is_p2wpkh script) || found (is_p2wsh script) || found (is_p2tr script).

(** ** Lemmas *)

Lemma memcmp_antisym a b : memcmp b a = CompOpp (memcmp a b).
Proof.
  revert b; induction a as [|x a IH]; intros [|y b]; cbn; try done.
  rewrite (Z.compare_antisym x y). by destruct (x ?= y); cbn.
Qed.

Lemma memcmp_eq a b : length a = length b -> memcmp a b = Eq -> a = b.
Proof.
  revert b; induction a as [|x a IH]; intros [|y b]; cbn; try done.
  intros [= Hl]. destruct (Z.compare_spec x y) as [->|?|?]; try done. intros ?. by rewrite (IH b).
Qed.

Lemma memcmp_refl a : memcmp a a = Eq.
Proof. induction a as [|x a IH]; cbn; [done|]. by rewrite Z.compare_refl. Qed.

Lemma le_bytes_length n z : length (le_bytes n z) = n.
Proof. revert z; induction n; intros; cbn; auto. Qed.

Lemma le_value_bytes n z : 0 <= z < 256 ^ Z.of_nat n -> le_value (le_bytes n z) = z.
Proof.
  revert z; induction n as [|n IH]; intros z Hz; cbn [le_bytes le_value].
  - cbn in Hz. lia.
  - rewrite Nat2Z.inj_succ, Z.pow_succ_r in Hz by lia.
    pose proof (Z.div_mod z 256). rewrite IH; [lia|].
    split; [apply Z.div_pos; lia | apply Z.div_lt_upper_bound; lia].
Qed.

Lemma push_key_length k : length k = 33%nat -> add_push_key k = 33 :: k.
Proof. intros H. unfold add_push_key, script_push_bytes. by rewrite H. Qed.

Lemma push_short m : (length m < 76)%nat -> script_push_bytes m = Z.of_nat (length m) :: m.
Proof. intros H. unfold script_push_bytes. rewrite (proj2 (Z.ltb_lt _ _)) by lia. done. Qed.

(** *** Numbers *)

(** How the interpreter of scripts reads a number off the top of a script: a
    small-number opcode, or a push of at most five bytes, little-endian with
    the top bit of the last byte as its sign. *)
Definition script_num (l : list Z) : Z :=
  let v := le_value l in
  match last l with
  | Some b => if 128 <=? b then - (v - 128 * 256 ^ Z.of_nat (length l - 1)) else v
  | None => 0
  end.
Definition read_number (script : list Z) : option (Z * list Z) :=
  match script with
  | [] => None
  | b :: rest =>
    if (0x51 <=? b) && (b <=? 0x60) then Some (b - 0x50, rest)
    else if (b <=? 5) && (Z.to_nat b <=? length rest)%nat
         then Some (script_num (take (Z.to_nat b) rest), drop (Z.to_nat b) rest)
         else None
  end.

Lemma le_bytes_last n z :
  last (le_bytes (S n) z) = Some (z / 256 ^ Z.of_nat n mod 256).
Proof.
  revert z; induction n as [|n IH]; intros z.
  - cbn. by rewrite Z.div_1_r.
  - change (le_bytes (S (S n)) z) with ((z mod 256) :: le_bytes (S n) (z / 256)).
    specialize (IH (z / 256)). destruct (le_bytes (S n) (z / 256)) as [|b l] eqn:E; [done|].
    change (last (z mod 256 :: b :: l)) with (last (b :: l)). rewrite IH. do 2 f_equal.
    rewrite Nat2Z.inj_succ, Z.pow_succ_r, Z.div_div by lia. done.
Qed.

(** A non-negative number whose top bit is clear reads back. *)
Lemma script_num_bytes n z :
  0 <= z < 128 * 256 ^ Z.of_nat n -> script_num (le_bytes (S n) z) = z.
Proof.
  intros Hz. unfold script_num. rewrite le_bytes_last.
  assert (Hq : z / 256 ^ Z.of_nat n < 128)
    by (apply Z.div_lt_upper_bound; nia).
  assert (0 <= z / 256 ^ Z.of_nat n) by (apply Z.div_pos; lia).
  rewrite Z.mod_small by lia. rewrite (proj2 (Z.leb_gt _ _)) by lia.
  apply le_value_bytes. rewrite Nat2Z.inj_succ, Z.pow_succ_r; lia.
Qed.

Lemma read_number_push n z rest :
  (n < 5)%nat -> 0 <= z < 128 * 256 ^ Z.of_nat n ->
  read_number (script_push_bytes (le_bytes (S n) z) ++ rest) = Some (z, rest).
Proof.
  intros Hn Hz. rewrite push_short by (rewrite le_bytes_length; lia).
  rewrite le_bytes_length. unfold read_number. cbn [app].
  rewrite (proj2 (Z.leb_gt 0x51 _)) by lia. cbn [andb].
  rewrite (proj2 (Z.leb_le (Z.of_nat (S n)) 5)) by lia. rewrite Nat2Z.id, length_app, le_bytes_length.
  rewrite (proj2 (Nat.leb_le _ _)) by lia. cbn [andb].
  rewrite take_app_le, drop_app_le, take_ge, drop_ge by (rewrite le_bytes_length; lia).
  by rewrite script_num_bytes.
Qed.

(** [add_number] writes what a script means by the number: read back by
    the interpreter's rule, signed and little-endian, every 32-bit number is
    itself and the rest of the script is untouched. *)
Theorem add_number_reads_back n rest :
  0 <= n < 2 ^ 32 -> read_number (add_number n ++ rest) = Some (n, rest).
Proof.
  intros Hn. unfold add_number.
  destruct (Z.eqb_spec n 0) as [->|]; [reflexivity|].
  destruct (Z.leb_spec n 16).
  { cbn -[Z.add]. rewrite (proj2 (Z.leb_le 0x51 _)), (proj2 (Z.leb_le _ 0x60)) by lia. cbn [andb].
    f_equal; f_equal; lia. }
  repeat (match goal with |- context [n <=? ?k] => destruct (Z.leb_spec n k) end;
          [by apply read_number_push; [lia|cbn; lia]|]).
  apply read_number_push; [lia|cbn; lia].
Qed.

Lemma add_number_reads_back_witness :
  add_number 144 = [2; 144; 0] /\ read_number (add_number 144 ++ [OP_DROP]) = Some (144, [OP_DROP]).
Proof. split; [reflexivity|]. apply (add_number_reads_back 144 [OP_DROP]); lia. Defined.

(** *** The funding script *)

(** The funding script does not depend on which of the two keys is whose,
    so both sides of a channel build the same one. *)
Theorem redeem_2of2_comm key1 key2 :
  length key1 = 33%nat -> length key2 = 33%nat ->
  bitcoin_redeem_2of2 key1 key2 = bitcoin_redeem_2of2 key2 key1.
Proof.
  intros H1 H2. unfold bitcoin_redeem_2of2, pubkey_cmp. rewrite (memcmp_antisym key1 key2).
  destruct (memcmp key1 key2) eqn:E; cbn [CompOpp]; try done.
  by rewrite (memcmp_eq key1 key2) by congruence.
Qed.

Lemma redeem_2of2_comm_witness :
  bitcoin_redeem_2of2 (repeat 2 33) (repeat 3 33) = bitcoin_redeem_2of2 (repeat 3 33) (repeat 2 33).
Proof. apply (redeem_2of2_comm (repeat 2 33) (repeat 3 33)); reflexivity. Defined.

(** *** Output scripts *)

Lemma found_iff {A} (o : option A) x : o = Some x -> found o = true.
Proof. by intros ->. Qed.

Lemma is_p2sh_hash h : length h = 20%nat -> is_p2sh (scriptpubkey_p2sh_hash h) = Some h.
Proof. intros Hl. repeat (destruct h as [|? h]; try done). Qed.

Lemma is_p2pkh_p2pkh h : length h = 20%nat -> is_p2pkh (scriptpubkey_p2pkh h) = Some h.
Proof. intros Hl. repeat (destruct h as [|? h]; try done). Qed.

Lemma is_p2tr_raw x : length x = 32%nat -> is_p2tr (scriptpubkey_witness_raw 1 x) = Some x.
Proof. intros Hl. repeat (destruct x as [|? x]; try done). Qed.


Section Hashed.
#[local] Set Default Proof Using "Type*".
Context (sha256 ripemd160 : list Z -> list Z) `{!Digest sha256 32, !Digest ripemd160 20}.

Lemma p2wsh_shape w : scriptpubkey_p2wsh sha256 w = OP_0 :: 32 :: sha256 w.
Proof.
  unfold scriptpubkey_p2wsh. rewrite push_short by (rewrite digest_length; lia).
  by rewrite digest_length.
Qed.

Lemma p2wpkh_shape k : scriptpubkey_p2wpkh sha256 ripemd160 k = OP_0 :: 20 :: pubkey_to_hash160 sha256 ripemd160 k.
Proof.
  unfold scriptpubkey_p2wpkh, pubkey_to_hash160. rewrite push_short by (rewrite digest_length; lia).
  by rewrite digest_length.
Qed.

(** The assertions of [scriptpubkey_p2wsh] hold. *)
Lemma p2wsh_length w : length (scriptpubkey_p2wsh sha256 w) = 34%nat.
Proof. rewrite p2wsh_shape. cbn. by rewrite digest_length. Qed.

Lemma is_p2wsh_p2wsh w : is_p2wsh (scriptpubkey_p2wsh sha256 w) = Some (sha256 w).
Proof.
  rewrite p2wsh_shape. unfold is_p2wsh. cbn [length]. rewrite digest_length. cbn.
  rewrite drop_0, take_ge; [done|]. by rewrite digest_length.
Qed.

Lemma is_p2wpkh_p2wpkh k :
  is_p2wpkh (scriptpubkey_p2wpkh sha256 ripemd160 k) = Some (pubkey_to_hash160 sha256 ripemd160 k).
Proof.
  rewrite p2wpkh_shape. unfold is_p2wpkh, pubkey_to_hash160. cbn [length]. rewrite digest_length. cbn.
  rewrite drop_0, take_ge; [done|]. by rewrite digest_length.
Qed.

#[export] Instance hash160_digest : Digest (hash160 sha256 ripemd160) 20.
Proof.
  split; intros m.
  - apply (digest_length (f := ripemd160)).
  - intros b. apply (digest_bytes (f := ripemd160)).
Qed.

(** Each kind of output script is recognised as its own kind, with the
    hash or key it was built from, and as nothing else. *)
Theorem output_scripts_recognised w k (addr x : list Z) :
  length addr = 20%nat -> length x = 32%nat ->
  is_p2wsh (scriptpubkey_p2wsh sha256 w) = Some (sha256 w)
  /\ is_p2wpkh (scriptpubkey_p2wpkh sha256 ripemd160 k) = Some (pubkey_to_hash160 sha256 ripemd160 k)
  /\ is_p2sh (scriptpubkey_p2sh sha256 ripemd160 w) = Some (hash160 sha256 ripemd160 w)
  /\ is_p2pkh (scriptpubkey_p2pkh addr) = Some addr
  /\ is_p2tr (scriptpubkey_witness_raw 1 x) = Some x.
Proof.
  intros Ha Hx. rewrite is_p2wsh_p2wsh, is_p2wpkh_p2wpkh, is_p2pkh_p2pkh, is_p2tr_raw by done.
  repeat split. apply is_p2sh_hash, digest_length.
Qed.
End Hashed.

(** A hash for the examples: it keeps every byte and the length. *)
Definition toy_digest (n : nat) (m : list Z) : list Z :=
  let s := foldl (fun a b => (31 * a + b) mod 251) 7 m in
  (fun i => (s + Z.of_nat i) mod 256) <$> seq 0 n.
#[export] Instance toy_digest_ok n : Digest (toy_digest n) n.
Proof.
  split; intros m.
  - unfold toy_digest. by rewrite length_fmap, length_seq.
  - intros b (i & -> & _)%list_elem_of_fmap. apply Z.mod_pos_bound. lia.
Qed.

Lemma output_scripts_recognised_witness :
  is_p2wsh (scriptpubkey_p2wsh (toy_digest 32) [1; 2]) = Some (toy_digest 32 [1; 2])
  /\ is_p2tr (scriptpubkey_witness_raw 1 (repeat 9 32)) = Some (repeat 9 32).
Proof.
  destruct (output_scripts_recognised (toy_digest 32) (toy_digest 20) [1; 2] (repeat 2 33)
              (repeat 5 20) (repeat 9 32)) as (H1 & _ & _ & _ & H2); [reflexivity..|].
  by split.
Defined.

(** ** The assertions of the witness scripts *)

Lemma wscript_anchor_ok k : length k = 33%nat ->
  exists s, bitcoin_wscript_anchor k = Ret s /\ length s = 40%nat.
Proof.
  intros Hl. unfold bitcoin_wscript_anchor. rewrite push_key_length by done.
  repeat (destruct k as [|? k]; try done). by eexists.
Qed.

(** The assertion on a [to_remote] script fails exactly when the lock needs
    more than two bytes. *)
Lemma wscript_to_remote_crash k lock : length k = 33%nat -> 0 <= lock < 2 ^ 32 ->
  bitcoin_wscript_to_remote_anchored k lock = Crash <-> 0x7FFF < lock.
Proof.
  intros Hl Hc. unfold bitcoin_wscript_to_remote_anchored. rewrite push_key_length by done.
  do 33 (destruct k as [|? k]; [done|]). destruct k; [|done].
  assert (Hn : forall n, (n <= 5)%nat -> script_push_bytes (le_bytes n lock) = Z.of_nat n :: le_bytes n lock).
  { intros n ?. rewrite push_short; rewrite le_bytes_length; [done|lia]. }
  unfold add_number.
  destruct (Z.eqb_spec lock 0); [cbn; split; [done|lia]|].
  destruct (Z.leb_spec lock 16); [cbn; split; [done|lia]|].
  rewrite !Hn by lia.
  repeat (match goal with |- context [lock <=? ?b] => destruct (Z.leb_spec lock b) end;
          [cbn -[Z.modulo Z.div]; split; (done || lia)|]).
  cbn -[Z.modulo Z.div]. split; [lia|done].
Qed.
