(* ===== verification/Hashing.v ===== *)
(** * Hashing by blocks (the part ccan/crypto/sha256/sha256.c and
    ccan/crypto/ripemd160/ripemd160.c share)

    Both keep a state, a buffer of one block and a count of bytes; [add] feeds
    data through the buffer and [done] pads.  The theorems say that however the
    data is cut into pieces, the state is that of the whole blocks of the padded
    message one after the other. *)

From stdpp Require Import list.
From S2P Require Import Prelude Script.
Local Open Scope Z_scope.

Section Stream.
Context {St : Type} (Transform : St -> list Z -> St).
(** Whether the data is aligned, when so much of it is left. *)
Context (alignment_ok : nat -> bool).

Record hash_ctx := mk_ctx { ctx_s : St; ctx_buf : list Z; ctx_bytes : Z }.

(** [memcpy] into the buffer. *)
Definition memcpy_at (buf : list Z) (at_ : nat) (data : list Z) : list Z :=
  take at_ buf ++ data ++ drop (at_ + length data) buf.

(** Whole blocks, straight from the data; one pass for each 64 bytes. *)
Fixpoint add_blocks (fuel : nat) (ctx : hash_ctx) (data : list Z) : hash_ctx * list Z :=
  match fuel with
  | O => (ctx, data)
  | S fuel =>
    if (64 <=? length data)%nat then
      let block := take 64 data in
      let buf := if alignment_ok (length data) then ctx_buf ctx else block in
      add_blocks fuel (mk_ctx (Transform (ctx_s ctx) block) buf (wrap_u64 (ctx_bytes ctx + 64))) (drop 64 data)
    else (ctx, data)
  end.

Definition add (ctx : hash_ctx) (data : list Z) : hash_ctx :=
  let bufsize := Z.to_nat (ctx_bytes ctx mod 64) in
  let '(ctx, data, bufsize) :=
    if (64 <=? bufsize + length data)%nat then
      let room := (64 - bufsize)%nat in
      let buf := memcpy_at (ctx_buf ctx) bufsize (take room data) in
      (mk_ctx (Transform (ctx_s ctx) buf) buf (wrap_u64 (ctx_bytes ctx + Z.of_nat room)), drop room data, 0%nat)
    else (ctx, data, bufsize) in
  let '(ctx, data) := add_blocks (length data) ctx data in
  if (length data =? 0)%nat then ctx
  else mk_ctx (ctx_s ctx) (memcpy_at (ctx_buf ctx) bufsize data) (wrap_u64 (ctx_bytes ctx + Z.of_nat (length data))).

(** The padding, and the length in bits as [size] writes it. *)
Definition pad_bytes (bytes : Z) : list Z :=
  take (Z.to_nat (1 + (128 - 8 - bytes mod 64 - 1) mod 64)) (0x80 :: repeat 0 63).
Definition finish (size : Z -> list Z) (ctx : hash_ctx) : hash_ctx :=
  let sizedesc := size (wrap_u64 (ctx_bytes ctx * 8)) in
  add (add ctx (pad_bytes (ctx_bytes ctx))) sizedesc.

(** ** The whole blocks of a message *)

Fixpoint blocks (n : nat) (m : list Z) : list (list Z) :=
  match n with O => [] | S n => take 64 m :: blocks n (drop 64 m) end.
Definition full_blocks (m : list Z) : list (list Z) := blocks (length m / 64) m.
Definition rest (m : list Z) : list Z := drop (64 * (length m / 64)) m.

(** The message, padded to whole blocks. *)
Definition padded (size : Z -> list Z) (m : list Z) : list Z :=
  m ++ pad_bytes (Z.of_nat (length m)) ++ size (Z.of_nat (length m) * 8).
Definition digest_state (size : Z -> list Z) (init : St) (m : list Z) : St :=
  fold_left Transform (full_blocks (padded size m)) init.
End Stream.

Arguments mk_ctx {St}.
Arguments ctx_s {St}.
Arguments ctx_buf {St}.
Arguments ctx_bytes {St}.

(** ** Blocks *)

Lemma blocks_app n k m : blocks (n + k) m = blocks n m ++ blocks k (drop (64 * n) m).
Proof.
  revert m. induction n as [|n IH]; intros m; [done|]. change (S n + k)%nat with (S (n + k)). cbn [blocks app].
  rewrite IH, drop_drop. by replace (64 * S n)%nat with (64 + 64 * n)%nat by lia.
Qed.
Lemma blocks_prefix n m p : (64 * n <= length m)%nat -> blocks n (m ++ p) = blocks n m.
Proof.
  revert m. induction n as [|n IH]; intros m Hn; [done|]. cbn [blocks].
  rewrite take_app_le, drop_app_le by lia. rewrite IH by (rewrite length_drop; lia). done.
Qed.

Lemma full_blocks_app a b q : length a = (64 * q)%nat -> full_blocks (a ++ b) = blocks q a ++ full_blocks b.
Proof.
  intros Ha. unfold full_blocks. rewrite length_app, Ha, (Nat.mul_comm 64), Nat.div_add_l, blocks_app by lia.
  rewrite blocks_prefix by lia. f_equal. f_equal. rewrite <- Ha. by rewrite drop_app_length.
Qed.
Lemma full_blocks_small a : (length a < 64)%nat -> full_blocks a = [].
Proof. intros Ha. unfold full_blocks. by rewrite Nat.div_small. Qed.
Lemma full_blocks_one a : length a = 64%nat -> full_blocks a = [a].
Proof. intros Ha. unfold full_blocks. rewrite Ha. cbn. by rewrite take_ge by lia. Qed.
Lemma rest_app a b q : length a = (64 * q)%nat -> rest (a ++ b) = rest b.
Proof.
  intros Ha. unfold rest. rewrite length_app, Ha, (Nat.mul_comm 64 q), Nat.div_add_l by lia.
  rewrite Nat.mul_add_distr_l, <- Ha, <- drop_drop. by rewrite drop_app_length.
Qed.
Lemma rest_small a : (length a < 64)%nat -> rest a = a.
Proof. intros Ha. unfold rest. by rewrite Nat.div_small. Qed.
Lemma rest_one a : length a = 64%nat -> rest a = [].
Proof. intros Ha. unfold rest. rewrite Ha. apply drop_ge. by rewrite Ha. Qed.

(** A message is whole blocks and a rest. *)
Lemma message_split m :
  exists a q, m = a ++ rest m /\ length a = (64 * q)%nat /\ length (rest m) = (length m mod 64)%nat.
Proof.
  exists (take (64 * (length m / 64)) m), (length m / 64)%nat. unfold rest. rewrite take_drop.
  pose proof (Nat.div_mod_eq (length m) 64). rewrite length_take, length_drop. split; [done|]. lia.
Qed.
Lemma full_blocks_next m t :
  length t = (64 - length m mod 64)%nat -> full_blocks (m ++ t) = full_blocks m ++ [rest m ++ t] /\ rest (m ++ t) = [].
Proof.
  intros Ht. destruct (message_split m) as (a & q & Hm & Ha & Hr).
  assert (length m mod 64 < 64)%nat by (by apply Nat.mod_upper_bound).
  rewrite Hm at 1 2 4. rewrite <- app_assoc, !(full_blocks_app a _ q), (rest_app a _ q) by done.
  rewrite (full_blocks_small (rest m)), (full_blocks_one (rest m ++ t)) by (rewrite ?length_app; lia).
  split; [by rewrite app_nil_r|]. apply rest_one. rewrite length_app. lia.
Qed.
Lemma rest_next m t : (length m mod 64 + length t < 64)%nat ->
  full_blocks (m ++ t) = full_blocks m /\ rest (m ++ t) = rest m ++ t.
Proof.
  intros Ht. destruct (message_split m) as (a & q & Hm & Ha & Hr).
  rewrite Hm at 1 2 3. rewrite <- app_assoc, !(full_blocks_app a _ q), (rest_app a _ q) by done.
  rewrite (full_blocks_small (rest m)), (full_blocks_small (rest m ++ t)), (rest_small (rest m ++ t))
    by (rewrite ?length_app; lia). done.
Qed.

(** The padding, with the number of zero bits of the standards. *)
Lemma take_repeat {A} (x : A) n k : (n <= k)%nat -> take n (repeat x k) = repeat x n.
Proof. revert k. induction n as [|n IH]; intros [|k] Hn; try done; [lia|]. cbn. rewrite IH; [done|lia]. Qed.
Lemma pad_bytes_zeros L : pad_bytes L = 0x80 :: repeat 0 (Z.to_nat ((448 - 1 - 8 * L) mod 512 / 8)).
Proof.
  unfold pad_bytes. replace ((448 - 1 - 8 * L) mod 512 / 8) with ((128 - 8 - L mod 64 - 1) mod 64)
    by (Z.to_euclidean_division_equations; lia).
  pose proof (Z.mod_pos_bound (128 - 8 - L mod 64 - 1) 64 eq_refl). set (r := (128 - 8 - L mod 64 - 1) mod 64) in *.
  replace (Z.to_nat (1 + r)) with (S (Z.to_nat r)) by lia. cbn [take]. f_equal. apply take_repeat. lia.
Qed.

(** ** Streaming *)

Section StreamFacts.
Context {St : Type} (Transform : St -> list Z -> St) (alignment_ok : nat -> bool) (init : St).
Notation add := (add Transform alignment_ok).
Notation add_blocks := (add_blocks Transform alignment_ok).

(** The context has taken in the message [m]. *)
Record absorbed (ctx : hash_ctx (St := St)) (m : list Z) : Prop := {
  ab_bytes : ctx_bytes ctx = Z.of_nat (length m);
  ab_state : ctx_s ctx = fold_left Transform (full_blocks m) init;
  ab_buf : length (ctx_buf ctx) = 64%nat;
  ab_rest : take (length m mod 64) (ctx_buf ctx) = rest m;
}.

Lemma absorbed_bufsize ctx m : absorbed ctx m -> Z.to_nat (ctx_bytes ctx mod 64) = (length m mod 64)%nat.
Proof. intros [-> _ _ _]. rewrite <- (Nat2Z.inj_mod _ 64). apply Nat2Z.id. Qed.

Lemma memcpy_length buf at_ data : (at_ + length data <= length buf)%nat -> length (memcpy_at buf at_ data) = length buf.
Proof. intros Hl. unfold memcpy_at. rewrite !length_app, length_take, length_drop. lia. Qed.
Lemma memcpy_take buf at_ data : (at_ + length data <= length buf)%nat ->
  take (at_ + length data) (memcpy_at buf at_ data) = take at_ buf ++ data.
Proof.
  intros Hl. unfold memcpy_at. rewrite app_assoc. rewrite take_app_le by (rewrite length_app, length_take; lia).
  apply take_ge. rewrite length_app, length_take. lia.
Qed.

Lemma absorbed_block ctx m t buf :
  absorbed ctx m -> length t = (64 - length m mod 64)%nat -> length buf = 64%nat ->
  Z.of_nat (length m) + 64 < 2 ^ 64 ->
  absorbed (mk_ctx (Transform (ctx_s ctx) (rest m ++ t)) buf (wrap_u64 (ctx_bytes ctx + Z.of_nat (length t)))) (m ++ t).
Proof.
  intros [Hb Hs _ _] Ht Hbuf Hlt. destruct (full_blocks_next m t Ht) as [E1 E2].
  assert (length m mod 64 < 64)%nat by (by apply Nat.mod_upper_bound).
  split; cbn [ctx_s ctx_buf ctx_bytes]; [|by rewrite E1, fold_left_app, Hs|done|].
  - rewrite wrap_u64_small, Hb, length_app by lia. lia.
  - rewrite E2. assert ((length (m ++ t) mod 64) = 0)%nat as ->; [|done].
    rewrite length_app, Ht. pose proof (Nat.div_mod_eq (length m) 64).
    replace (length m + (64 - length m mod 64))%nat with ((length m / 64 + 1) * 64)%nat by lia. by apply Nat.Div0.mod_mul.
Qed.

Lemma absorbed_rest ctx m t :
  absorbed ctx m -> (length m mod 64 + length t < 64)%nat -> Z.of_nat (length m) + 64 < 2 ^ 64 ->
  absorbed (mk_ctx (ctx_s ctx) (memcpy_at (ctx_buf ctx) (length m mod 64) t)
              (wrap_u64 (ctx_bytes ctx + Z.of_nat (length t)))) (m ++ t).
Proof.
  intros [Hb Hs Hbuf Hr] Ht Hlt. destruct (rest_next m t Ht) as [E1 E2].
  split; cbn [ctx_s ctx_buf ctx_bytes]; [|by rewrite E1| |].
  - rewrite wrap_u64_small, Hb, length_app by lia. lia.
  - rewrite memcpy_length by lia. done.
  - rewrite E2, <- Hr, length_app.
    assert (((length m + length t) mod 64) = length m mod 64 + length t)%nat as ->; [|apply memcpy_take; lia].
    rewrite <- Nat.Div0.add_mod_idemp_l. by apply Nat.mod_small.
Qed.

Lemma add_blocks_small fuel ctx data : (length data < 64)%nat -> add_blocks fuel ctx data = (ctx, data).
Proof. intros Hl. destruct fuel; [done|]. cbn [Hashing.add_blocks]. by rewrite (proj2 (Nat.leb_gt 64 _)). Qed.

Lemma add_blocks_absorbs fuel ctx m data :
  (length data <= fuel)%nat -> absorbed ctx m -> (length m mod 64 = 0)%nat ->
  Z.of_nat (length m + length data) < 2 ^ 62 ->
  exists ctx' c d, add_blocks fuel ctx data = (ctx', d) /\ data = c ++ d /\ (length d < 64)%nat
    /\ absorbed ctx' (m ++ c) /\ (length (m ++ c) mod 64 = 0)%nat.
Proof.
  revert ctx m data. induction fuel as [|fuel IH]; intros ctx m data Hf Ha Hm Hlt.
  { assert (data = []) as -> by (apply length_zero_iff_nil; lia). exists ctx, [], []. rewrite !app_nil_r.
    split_and!; try done. cbn. lia. }
  cbn [Hashing.add_blocks]. destruct (Nat.leb_spec 64 (length data)) as [Hl|Hl].
  2: { exists ctx, [], data. rewrite (app_nil_r m). by split_and!. }
  assert (Ht : length (take 64 data) = 64%nat) by (rewrite length_take; lia).
  assert (rest m = []) as Hr by (destruct Ha as [_ _ _ <-]; by rewrite Hm).
  pose proof (absorbed_block ctx m (take 64 data)
    (if alignment_ok (length data) then ctx_buf ctx else take 64 data) Ha) as Hb.
  rewrite Hr, Ht, Hm in Hb. specialize (Hb eq_refl ltac:(destruct (alignment_ok _); [apply Ha|done]) ltac:(lia)).
  assert (Hm' : (length (m ++ take 64 data) mod 64 = 0)%nat).
  { rewrite length_app, Ht, <- Nat.Div0.add_mod_idemp_l, Hm. done. }
  destruct (IH _ _ (drop 64 data) ltac:(rewrite length_drop; lia) Hb Hm') as (ctx' & c & d & E & Ed & Hd & Ha' & Hm'').
  { rewrite length_app, Ht, length_drop. lia. }
  exists ctx', (take 64 data ++ c), d. rewrite app_assoc. split_and!; [exact E| |done..].
  by rewrite <- app_assoc, <- Ed, take_drop.
Qed.

Lemma add_tail ctx m data bufsize (k := add_blocks (length data) ctx data) :
  absorbed ctx m -> bufsize = (length m mod 64)%nat -> (length data < 64 \/ bufsize = 0)%nat ->
  (bufsize + length data < 64 \/ bufsize = 0)%nat ->
  Z.of_nat (length m + length data) < 2 ^ 62 ->
  absorbed (if (length (snd k) =? 0)%nat then fst k
            else mk_ctx (ctx_s (fst k)) (memcpy_at (ctx_buf (fst k)) bufsize (snd k))
                   (wrap_u64 (ctx_bytes (fst k) + Z.of_nat (length (snd k))))) (m ++ data).
Proof.
  intros Ha Hbs H1 H2 Hlt. subst k.
  assert (exists ctx' c d, add_blocks (length data) ctx data = (ctx', d) /\ data = c ++ d
            /\ absorbed ctx' (m ++ c) /\ (length (m ++ c) mod 64 = bufsize)%nat /\ (bufsize + length d < 64)%nat)
    as (ctx' & c & d & -> & -> & Ha' & Hm' & Hd).
  { destruct (decide (bufsize = 0)%nat) as [E|E].
    - destruct (add_blocks_absorbs (length data) ctx m data) as (x & c & d & E1 & E2 & E3 & E4 & E5); try done; [lia..|].
      exists x, c, d. split_and!; try done; lia.
    - rewrite add_blocks_small by lia. exists ctx, [], data. rewrite (app_nil_r m). split_and!; try done; lia. }
  cbn [fst snd]. rewrite app_assoc. destruct (Nat.eqb_spec (length d) 0) as [E0|E0].
  - apply length_zero_iff_nil in E0 as ->. by rewrite app_nil_r.
  - rewrite <- Hm'. rewrite length_app in Hlt. apply absorbed_rest; [done|lia|rewrite length_app; lia].
Qed.

Lemma add_absorbs ctx m data :
  absorbed ctx m -> Z.of_nat (length m + length data) < 2 ^ 62 -> absorbed (add ctx data) (m ++ data).
Proof.
  intros Ha Hlt. unfold Hashing.add. rewrite (absorbed_bufsize ctx m Ha).
  assert (Hmod : (length m mod 64 < 64)%nat) by (by apply Nat.mod_upper_bound).
  destruct (Nat.leb_spec 64 (length m mod 64 + length data)) as [Hl|Hl].
  - set (t := take (64 - length m mod 64) data).
    assert (Ht : length t = (64 - length m mod 64)%nat) by (unfold t; rewrite length_take; lia).
    assert (Hbuf : memcpy_at (ctx_buf ctx) (length m mod 64) t = rest m ++ t).
    { destruct Ha as [_ _ Hb Hr]. rewrite <- Hr. rewrite <- (memcpy_take (ctx_buf ctx) (length m mod 64) t) by lia.
      symmetry. apply take_ge. rewrite memcpy_length; lia. }
    rewrite Hbuf. replace (Z.of_nat (64 - length m mod 64)) with (Z.of_nat (length t)) by lia.
    assert (Hlen : length (rest m ++ t) = 64%nat).
    { destruct (message_split m) as (_ & _ & _ & _ & Hr). rewrite length_app. lia. }
    pose proof (absorbed_block ctx m t (rest m ++ t) Ha Ht Hlen ltac:(lia)) as Hb.
    assert (Hm' : 0%nat = (length (m ++ t) mod 64)%nat).
    { rewrite length_app, Ht. pose proof (Nat.div_mod_eq (length m) 64).
      replace (length m + (64 - length m mod 64))%nat with ((length m / 64 + 1) * 64)%nat by lia. by rewrite Nat.Div0.mod_mul. }
    pose proof (add_tail _ _ (drop (64 - length m mod 64) data) 0 Hb Hm' ltac:(tauto) ltac:(tauto)) as Hf.
    destruct (add_blocks _ _ _) as [x d]. cbn [fst snd] in Hf. unfold t in Hf. rewrite <- app_assoc, take_drop in Hf.
    apply Hf. rewrite length_app, length_take, length_drop. lia.
  - pose proof (add_tail ctx m data (length m mod 64) Ha eq_refl ltac:(lia) ltac:(lia) Hlt) as Hf.
    by destruct (add_blocks _ _ _) as [x d].
Qed.

(** The state at the end is that of the padded message. *)
Lemma finish_digest size ctx m :
  absorbed ctx m -> Z.of_nat (length m) < 2 ^ 61 -> (forall n, length (size n) = 8%nat) ->
  ctx_s (finish Transform alignment_ok size ctx) = digest_state Transform size init m.
Proof.
  intros Ha Hlt Hs. unfold finish, digest_state, padded. pose proof (ab_bytes _ _ Ha) as Hb. rewrite Hb, wrap_u64_small by lia.
  assert (Hp : (length (pad_bytes (Z.of_nat (length m))) <= 64)%nat).
  { unfold pad_bytes. rewrite length_take. cbn [length]. rewrite repeat_length. lia. }
  rewrite app_assoc. apply ab_state. apply add_absorbs; [apply add_absorbs; [done|lia]|rewrite length_app, Hs; lia].
Qed.

Lemma fold_add_absorbs ctx m chunks :
  absorbed ctx m -> Z.of_nat (length (m ++ concat chunks)) < 2 ^ 62 ->
  absorbed (fold_left add chunks ctx) (m ++ concat chunks).
Proof.
  revert ctx m. induction chunks as [|c l IH]; intros ctx m Ha Hlt; cbn [fold_left concat] in *; [by rewrite app_nil_r|].
  rewrite app_assoc in *. apply IH; [|done]. apply add_absorbs; [done|]. rewrite !length_app in Hlt. lia.
Qed.
End StreamFacts.
