(* ===== verification/Sha256.v ===== *)
(** * SHA-256 (ccan/crypto/sha256/sha256.c)

    The unrolled compression function with its rolling message schedule, and the
    streaming interface.  [Fips] is the function of FIPS 180-4, written as the
    standard has it; the theorems say that the code computes it. *)

From stdpp Require Import list.
From S2P Require Import Prelude Amount Wire Script Hashing.
Local Open Scope Z_scope.

(** ** The compression function *)

(** [x >> n | x << (32 - n)] *)
Definition ror (x n : Z) : Z := Z.lor (Z.shiftr x n) (wrap_u32 (Z.shiftl x (32 - n))).

Definition Ch (x y z : Z) : Z := Z.lxor z (Z.land x (Z.lxor y z)).
Definition Maj (x y z : Z) : Z := Z.lor (Z.land x y) (Z.land z (Z.lor x y)).
Definition Sigma0 (x : Z) : Z := Z.lxor (Z.lxor (ror x 2) (ror x 13)) (ror x 22).
Definition Sigma1 (x : Z) : Z := Z.lxor (Z.lxor (ror x 6) (ror x 11)) (ror x 25).
Definition sigma0 (x : Z) : Z := Z.lxor (Z.lxor (ror x 7) (ror x 18)) (Z.shiftr x 3).
Definition sigma1 (x : Z) : Z := Z.lxor (Z.lxor (ror x 17) (ror x 19)) (Z.shiftr x 10).

(** The new [d] and [h]. *)
Definition Round (a b c d e f g h k w : Z) : Z * Z :=
  let t1 := wrap_u32 (h + Sigma1 e + Ch e f g + k + w) in
  let t2 := wrap_u32 (Sigma0 a + Maj a b c) in
  (wrap_u32 (d + t1), wrap_u32 (t1 + t2)).

Definition be32 (chunk : list Z) (i : nat) : Z := be_value (take 4 (drop (4 * i) chunk)).

Notation words8 := (Z * Z * Z * Z * Z * Z * Z * Z)%type.

Definition Transform (s : words8) (chunk : list Z) : words8 :=
  let '(s0, s1, s2, s3, s4, s5, s6, s7) := s in
  let '(a, b, c, d, e, f, g, h) := s in
  let w0 := be32 chunk 0 in
  let '(d, h) := Round a b c d e f g h 0x428a2f98 w0 in
  let w1 := be32 chunk 1 in
  let '(c, g) := Round h a b c d e f g 0x71374491 w1 in
  let w2 := be32 chunk 2 in
  let '(b, f) := Round g h a b c d e f 0xb5c0fbcf w2 in
  let w3 := be32 chunk 3 in
  let '(a, e) := Round f g h a b c d e 0xe9b5dba5 w3 in
  let w4 := be32 chunk 4 in
  let '(h, d) := Round e f g h a b c d 0x3956c25b w4 in
  let w5 := be32 chunk 5 in
  let '(g, c) := Round d e f g h a b c 0x59f111f1 w5 in
  let w6 := be32 chunk 6 in
  let '(f, b) := Round c d e f g h a b 0x923f82a4 w6 in
  let w7 := be32 chunk 7 in
  let '(e, a) := Round b c d e f g h a 0xab1c5ed5 w7 in
  let w8 := be32 chunk 8 in
  let '(d, h) := Round a b c d e f g h 0xd807aa98 w8 in
  let w9 := be32 chunk 9 in
  let '(c, g) := Round h a b c d e f g 0x12835b01 w9 in
  let w10 := be32 chunk 10 in
  let '(b, f) := Round g h a b c d e f 0x243185be w10 in
  let w11 := be32 chunk 11 in
  let '(a, e) := Round f g h a b c d e 0x550c7dc3 w11 in
  let w12 := be32 chunk 12 in
  let '(h, d) := Round e f g h a b c d 0x72be5d74 w12 in
  let w13 := be32 chunk 13 in
  let '(g, c) := Round d e f g h a b c 0x80deb1fe w13 in
  let w14 := be32 chunk 14 in
  let '(f, b) := Round c d e f g h a b 0x9bdc06a7 w14 in
  let w15 := be32 chunk 15 in
  let '(e, a) := Round b c d e f g h a 0xc19bf174 w15 in
  let w0 := wrap_u32 (w0 + (sigma1 w14 + w9 + sigma0 w1)) in
  let '(d, h) := Round a b c d e f g h 0xe49b69c1 w0 in
  let w1 := wrap_u32 (w1 + (sigma1 w15 + w10 + sigma0 w2)) in
  let '(c, g) := Round h a b c d e f g 0xefbe4786 w1 in
  let w2 := wrap_u32 (w2 + (sigma1 w0 + w11 + sigma0 w3)) in
  let '(b, f) := Round g h a b c d e f 0x0fc19dc6 w2 in
  let w3 := wrap_u32 (w3 + (sigma1 w1 + w12 + sigma0 w4)) in
  let '(a, e) := Round f g h a b c d e 0x240ca1cc w3 in
  let w4 := wrap_u32 (w4 + (sigma1 w2 + w13 + sigma0 w5)) in
  let '(h, d) := Round e f g h a b c d 0x2de92c6f w4 in
  let w5 := wrap_u32 (w5 + (sigma1 w3 + w14 + sigma0 w6)) in
  let '(g, c) := Round d e f g h a b c 0x4a7484aa w5 in
  let w6 := wrap_u32 (w6 + (sigma1 w4 + w15 + sigma0 w7)) in
  let '(f, b) := Round c d e f g h a b 0x5cb0a9dc w6 in
  let w7 := wrap_u32 (w7 + (sigma1 w5 + w0 + sigma0 w8)) in
  let '(e, a) := Round b c d e f g h a 0x76f988da w7 in
  let w8 := wrap_u32 (w8 + (sigma1 w6 + w1 + sigma0 w9)) in
  let '(d, h) := Round a b c d e f g h 0x983e5152 w8 in
  let w9 := wrap_u32 (w9 + (sigma1 w7 + w2 + sigma0 w10)) in
  let '(c, g) := Round h a b c d e f g 0xa831c66d w9 in
  let w10 := wrap_u32 (w10 + (sigma1 w8 + w3 + sigma0 w11)) in
  let '(b, f) := Round g h a b c d e f 0xb00327c8 w10 in
  let w11 := wrap_u32 (w11 + (sigma1 w9 + w4 + sigma0 w12)) in
  let '(a, e) := Round f g h a b c d e 0xbf597fc7 w11 in
  let w12 := wrap_u32 (w12 + (sigma1 w10 + w5 + sigma0 w13)) in
  let '(h, d) := Round e f g h a b c d 0xc6e00bf3 w12 in
  let w13 := wrap_u32 (w13 + (sigma1 w11 + w6 + sigma0 w14)) in
  let '(g, c) := Round d e f g h a b c 0xd5a79147 w13 in
  let w14 := wrap_u32 (w14 + (sigma1 w12 + w7 + sigma0 w15)) in
  let '(f, b) := Round c d e f g h a b 0x06ca6351 w14 in
  let w15 := wrap_u32 (w15 + (sigma1 w13 + w8 + sigma0 w0)) in
  let '(e, a) := Round b c d e f g h a 0x14292967 w15 in
  let w0 := wrap_u32 (w0 + (sigma1 w14 + w9 + sigma0 w1)) in
  let '(d, h) := Round a b c d e f g h 0x27b70a85 w0 in
  let w1 := wrap_u32 (w1 + (sigma1 w15 + w10 + sigma0 w2)) in
  let '(c, g) := Round h a b c d e f g 0x2e1b2138 w1 in
  let w2 := wrap_u32 (w2 + (sigma1 w0 + w11 + sigma0 w3)) in
  let '(b, f) := Round g h a b c d e f 0x4d2c6dfc w2 in
  let w3 := wrap_u32 (w3 + (sigma1 w1 + w12 + sigma0 w4)) in
  let '(a, e) := Round f g h a b c d e 0x53380d13 w3 in
  let w4 := wrap_u32 (w4 + (sigma1 w2 + w13 + sigma0 w5)) in
  let '(h, d) := Round e f g h a b c d 0x650a7354 w4 in
  let w5 := wrap_u32 (w5 + (sigma1 w3 + w14 + sigma0 w6)) in
  let '(g, c) := Round d e f g h a b c 0x766a0abb w5 in
  let w6 := wrap_u32 (w6 + (sigma1 w4 + w15 + sigma0 w7)) in
  let '(f, b) := Round c d e f g h a b 0x81c2c92e w6 in
  let w7 := wrap_u32 (w7 + (sigma1 w5 + w0 + sigma0 w8)) in
  let '(e, a) := Round b c d e f g h a 0x92722c85 w7 in
  let w8 := wrap_u32 (w8 + (sigma1 w6 + w1 + sigma0 w9)) in
  let '(d, h) := Round a b c d e f g h 0xa2bfe8a1 w8 in
  let w9 := wrap_u32 (w9 + (sigma1 w7 + w2 + sigma0 w10)) in
  let '(c, g) := Round h a b c d e f g 0xa81a664b w9 in
  let w10 := wrap_u32 (w10 + (sigma1 w8 + w3 + sigma0 w11)) in
  let '(b, f) := Round g h a b c d e f 0xc24b8b70 w10 in
  let w11 := wrap_u32 (w11 + (sigma1 w9 + w4 + sigma0 w12)) in
  let '(a, e) := Round f g h a b c d e 0xc76c51a3 w11 in
  let w12 := wrap_u32 (w12 + (sigma1 w10 + w5 + sigma0 w13)) in
  let '(h, d) := Round e f g h a b c d 0xd192e819 w12 in
  let w13 := wrap_u32 (w13 + (sigma1 w11 + w6 + sigma0 w14)) in
  let '(g, c) := Round d e f g h a b c 0xd6990624 w13 in
  let w14 := wrap_u32 (w14 + (sigma1 w12 + w7 + sigma0 w15)) in
  let '(f, b) := Round c d e f g h a b 0xf40e3585 w14 in
  let w15 := wrap_u32 (w15 + (sigma1 w13 + w8 + sigma0 w0)) in
  let '(e, a) := Round b c d e f g h a 0x106aa070 w15 in
  let w0 := wrap_u32 (w0 + (sigma1 w14 + w9 + sigma0 w1)) in
  let '(d, h) := Round a b c d e f g h 0x19a4c116 w0 in
  let w1 := wrap_u32 (w1 + (sigma1 w15 + w10 + sigma0 w2)) in
  let '(c, g) := Round h a b c d e f g 0x1e376c08 w1 in
  let w2 := wrap_u32 (w2 + (sigma1 w0 + w11 + sigma0 w3)) in
  let '(b, f) := Round g h a b c d e f 0x2748774c w2 in
  let w3 := wrap_u32 (w3 + (sigma1 w1 + w12 + sigma0 w4)) in
  let '(a, e) := Round f g h a b c d e 0x34b0bcb5 w3 in
  let w4 := wrap_u32 (w4 + (sigma1 w2 + w13 + sigma0 w5)) in
  let '(h, d) := Round e f g h a b c d 0x391c0cb3 w4 in
  let w5 := wrap_u32 (w5 + (sigma1 w3 + w14 + sigma0 w6)) in
  let '(g, c) := Round d e f g h a b c 0x4ed8aa4a w5 in
  let w6 := wrap_u32 (w6 + (sigma1 w4 + w15 + sigma0 w7)) in
  let '(f, b) := Round c d e f g h a b 0x5b9cca4f w6 in
  let w7 := wrap_u32 (w7 + (sigma1 w5 + w0 + sigma0 w8)) in
  let '(e, a) := Round b c d e f g h a 0x682e6ff3 w7 in
  let w8 := wrap_u32 (w8 + (sigma1 w6 + w1 + sigma0 w9)) in
  let '(d, h) := Round a b c d e f g h 0x748f82ee w8 in
  let w9 := wrap_u32 (w9 + (sigma1 w7 + w2 + sigma0 w10)) in
  let '(c, g) := Round h a b c d e f g 0x78a5636f w9 in
  let w10 := wrap_u32 (w10 + (sigma1 w8 + w3 + sigma0 w11)) in
  let '(b, f) := Round g h a b c d e f 0x84c87814 w10 in
  let w11 := wrap_u32 (w11 + (sigma1 w9 + w4 + sigma0 w12)) in
  let '(a, e) := Round f g h a b c d e 0x8cc70208 w11 in
  let w12 := wrap_u32 (w12 + (sigma1 w10 + w5 + sigma0 w13)) in
  let '(h, d) := Round e f g h a b c d 0x90befffa w12 in
  let w13 := wrap_u32 (w13 + (sigma1 w11 + w6 + sigma0 w14)) in
  let '(g, c) := Round d e f g h a b c 0xa4506ceb w13 in
  let '(f, b) := Round c d e f g h a b 0xbef9a3f7 (wrap_u32 (w14 + sigma1 w12 + w7 + sigma0 w15)) in
  let '(e, a) := Round b c d e f g h a 0xc67178f2 (wrap_u32 (w15 + sigma1 w13 + w8 + sigma0 w0)) in
  (wrap_u32 (s0 + a), wrap_u32 (s1 + b), wrap_u32 (s2 + c), wrap_u32 (s3 + d),
   wrap_u32 (s4 + e), wrap_u32 (s5 + f), wrap_u32 (s6 + g), wrap_u32 (s7 + h)).

(** ** Streaming *)

Notation sha256_ctx := (hash_ctx (St := words8)).

Definition SHA256_INIT : words8 :=
  (0x6a09e667, 0xbb67ae85, 0x3c6ef372, 0xa54ff53a, 0x510e527f, 0x9b05688c, 0x1f83d9ab, 0x5be0cd19).

(** [(size_t)-1] *)
Definition INVALID := 18446744073709551615.
Definition invalidate_sha256 (ctx : sha256_ctx) : sha256_ctx := mk_ctx (ctx_s ctx) (ctx_buf ctx) INVALID.

(** [cpu_to_be32] of each word. *)
Definition words8_bytes (s : words8) : list Z :=
  let '(a, b, c, d, e, f, g, h) := s in
  be_bytes 4 a ++ be_bytes 4 b ++ be_bytes 4 c ++ be_bytes 4 d
  ++ be_bytes 4 e ++ be_bytes 4 f ++ be_bytes 4 g ++ be_bytes 4 h.

Section Sha256.
Context (alignment_ok : nat -> bool).

Definition sha256_init : sha256_ctx := mk_ctx SHA256_INIT (repeat 0 64) 0.

Definition sha256_update (ctx : sha256_ctx) (p : list Z) : outcome sha256_ctx :=
  assert_then (negb (ctx_bytes ctx =? INVALID)) (Ret (add Transform alignment_ok ctx p)).

Definition sha256_done (ctx : sha256_ctx) : list Z * sha256_ctx :=
  let ctx := finish Transform alignment_ok (be_bytes 8) ctx in
  (words8_bytes (ctx_s ctx), invalidate_sha256 ctx).

Definition sha256 (p : list Z) : outcome (list Z) :=
  ctx ← sha256_update sha256_init p;
  Ret (fst (sha256_done ctx)).

Definition sha256_u8 (ctx : sha256_ctx) (v : Z) : outcome sha256_ctx := sha256_update ctx [v].
Definition sha256_le16 (ctx : sha256_ctx) (v : Z) : outcome sha256_ctx := sha256_update ctx (le_bytes 2 v).
Definition sha256_le32 (ctx : sha256_ctx) (v : Z) : outcome sha256_ctx := sha256_update ctx (le_bytes 4 v).
Definition sha256_le64 (ctx : sha256_ctx) (v : Z) : outcome sha256_ctx := sha256_update ctx (le_bytes 8 v).
Definition sha256_be16 (ctx : sha256_ctx) (v : Z) : outcome sha256_ctx := sha256_update ctx (be_bytes 2 v).
Definition sha256_be32 (ctx : sha256_ctx) (v : Z) : outcome sha256_ctx := sha256_update ctx (be_bytes 4 v).
Definition sha256_be64 (ctx : sha256_ctx) (v : Z) : outcome sha256_ctx := sha256_update ctx (be_bytes 8 v).
End Sha256.

(** ** FIPS 180-4 *)

Module Fips.
(** Section 4.2.2: the first thirty-two bits of the fractional parts of the
    cube roots of the first sixty-four primes; section 5.3.3: of the square
    roots of the first eight. *)
Definition primes : list Z :=
  filter (fun n => forallb (fun d => negb (n mod Z.of_nat d =? 0)) (seq 2 (Z.to_nat n - 2)) = true)
    (Z.of_nat <$> seq 2 310).
Fixpoint cube_root (bits : nat) (r n : Z) : Z :=
  match bits with
  | O => r
  | S k => let r' := r + 2 ^ Z.of_nat k in cube_root k (if r' ^ 3 <=? n then r' else r) n
  end.
Definition K : list Z :=
  Eval vm_compute in (fun p => cube_root 36 0 (p * 2 ^ 96) mod 2 ^ 32) <$> primes.
Definition square_root_word (i : nat) : Z := Z.sqrt (nth i primes 0 * 2 ^ 64) mod 2 ^ 32.
Definition initial : words8 :=
  Eval vm_compute in
  let w := square_root_word in (w 0%nat, w 1%nat, w 2%nat, w 3%nat, w 4%nat, w 5%nat, w 6%nat, w 7%nat).

(** ROTR, and the functions of section 4.1.2. *)
Definition ROTR (n x : Z) : Z := Z.lor (x / 2 ^ n) (x * 2 ^ (32 - n) mod 2 ^ 32).
Definition Choose (x y z : Z) : Z := Z.lxor (Z.land x y) (Z.land (2 ^ 32 - 1 - x) z).
Definition Majority (x y z : Z) : Z := Z.lxor (Z.lxor (Z.land x y) (Z.land x z)) (Z.land y z).
Definition Sum0 (x : Z) : Z := Z.lxor (Z.lxor (ROTR 2 x) (ROTR 13 x)) (ROTR 22 x).
Definition Sum1 (x : Z) : Z := Z.lxor (Z.lxor (ROTR 6 x) (ROTR 11 x)) (ROTR 25 x).
Definition sig0 (x : Z) : Z := Z.lxor (Z.lxor (ROTR 7 x) (ROTR 18 x)) (x / 2 ^ 3).
Definition sig1 (x : Z) : Z := Z.lxor (Z.lxor (ROTR 17 x) (ROTR 19 x)) (x / 2 ^ 10).

(** The message schedule: the words so far, the last first. *)
Definition word (ws : list Z) (t : nat) : Z := nth (t - 1) ws 0.
Definition next_word (ws : list Z) : Z :=
  (sig1 (word ws 2) + word ws 7 + sig0 (word ws 15) + word ws 16) mod 2 ^ 32.
Fixpoint schedule (n : nat) (ws : list Z) : list Z :=
  match n with O => ws | S n => schedule n (next_word ws :: ws) end.
Definition message_schedule (block : list Z) : list Z :=
  rev (schedule 48 (rev (be32 block <$> seq 0 16))).

(** Section 6.2.2, step 3. *)
Definition round (s : words8) (kw : Z * Z) : words8 :=
  let '(a, b, c, d, e, f, g, h) := s in
  let T1 := (h + Sum1 e + Choose e f g + fst kw + snd kw) mod 2 ^ 32 in
  let T2 := (Sum0 a + Majority a b c) mod 2 ^ 32 in
  ((T1 + T2) mod 2 ^ 32, a, b, c, (d + T1) mod 2 ^ 32, e, f, g).

Definition compress (H : words8) (block : list Z) : words8 :=
  let '(H0, H1, H2, H3, H4, H5, H6, H7) := H in
  let '(a, b, c, d, e, f, g, h) := fold_left round (zip K (message_schedule block)) H in
  ((a + H0) mod 2 ^ 32, (b + H1) mod 2 ^ 32, (c + H2) mod 2 ^ 32, (d + H3) mod 2 ^ 32,
   (e + H4) mod 2 ^ 32, (f + H5) mod 2 ^ 32, (g + H6) mod 2 ^ 32, (h + H7) mod 2 ^ 32).

(** Section 5.1.1: a one bit, [k] zero bits to 448 modulo 512, the length; and
    section 6.2. *)
Definition pad (m : list Z) : list Z :=
  let k := (448 - 1 - 8 * Z.of_nat (length m)) mod 512 in
  m ++ 0x80 :: repeat 0 (Z.to_nat (k / 8)) ++ be_bytes 8 (8 * Z.of_nat (length m)).
Definition digest (m : list Z) : list Z :=
  words8_bytes (fold_left compress (blocks (length (pad m) / 64) (pad m)) initial).
End Fips.

(** ** Theorems *)

(** *** The functions *)

Lemma ror_ROTR x n : 0 <= n <= 32 -> ror x n = Fips.ROTR n x.
Proof. intros Hn. unfold ror, Fips.ROTR, wrap_u32. rewrite Z.shiftr_div_pow2, Z.shiftl_mul_pow2 by lia. done. Qed.
Lemma Sigma0_Sum0 x : Sigma0 x = Fips.Sum0 x.
Proof. unfold Sigma0, Fips.Sum0. by rewrite !ror_ROTR by lia. Qed.
Lemma Sigma1_Sum1 x : Sigma1 x = Fips.Sum1 x.
Proof. unfold Sigma1, Fips.Sum1. by rewrite !ror_ROTR by lia. Qed.
Lemma sigma0_sig0 x : sigma0 x = Fips.sig0 x.
Proof. unfold sigma0, Fips.sig0. rewrite !ror_ROTR by lia. by rewrite Z.shiftr_div_pow2 by lia. Qed.
Lemma sigma1_sig1 x : sigma1 x = Fips.sig1 x.
Proof. unfold sigma1, Fips.sig1. rewrite !ror_ROTR by lia. by rewrite Z.shiftr_div_pow2 by lia. Qed.

Lemma Maj_Maj x y z : Maj x y z = Fips.Majority x y z.
Proof.
  apply Z.bits_inj'. intros i _. unfold Maj, Fips.Majority. rewrite ?Z.lxor_spec, ?Z.land_spec, ?Z.lor_spec, ?Z.land_spec, ?Z.lor_spec.
  by destruct (Z.testbit x i), (Z.testbit y i), (Z.testbit z i).
Qed.
Lemma Ch_Ch x y z : in_u32 x -> in_u32 z -> Ch x y z = Fips.Choose x y z.
Proof.
  intros Hx Hz. apply Z.bits_inj'. intros i Hi. unfold Ch, Fips.Choose.
  replace (2 ^ 32 - 1 - x) with (Z.lnot x mod 2 ^ 32)
    by (unfold Z.lnot; symmetry; apply (Z.mod_unique_pos _ _ (-1)); lia).
  rewrite ?Z.lxor_spec, ?Z.land_spec, ?Z.lxor_spec.
  destruct (Z.ltb_spec i 32) as [Hlt|Hge].
  - rewrite Z.mod_pow2_bits_low, Z.lnot_spec by lia.
    by destruct (Z.testbit x i), (Z.testbit y i), (Z.testbit z i).
  - rewrite Z.mod_pow2_bits_high by lia. rewrite <- (Z.mod_small z (2 ^ 32)), <- (Z.mod_small x (2 ^ 32)) by lia.
    rewrite !Z.mod_pow2_bits_high by lia. by destruct (Z.testbit y i).
Qed.

(** *** The unrolled rounds *)

(** One round of the code, with the registers renamed. *)
Definition code_round (s : words8) (kw : Z * Z) : words8 :=
  let '(a, b, c, d, e, f, g, h) := s in
  let '(d, h) := Round a b c d e f g h (fst kw) (snd kw) in (h, a, b, c, d, e, f, g).

(** The next word, from the last sixteen, the oldest first. *)
Definition roll (win : list Z) : Z :=
  wrap_u32 (nth 0 win 0 + (sigma1 (nth 14 win 0) + nth 9 win 0 + sigma0 (nth 1 win 0))).
Fixpoint rolling (ks : list Z) (s : words8) (win : list Z) : words8 :=
  match ks with
  | [] => s
  | k :: ks => let w := roll win in rolling ks (code_round s (k, w)) (tail win ++ [w])
  end.

Definition add_state (s t : words8) : words8 :=
  let '(s0, s1, s2, s3, s4, s5, s6, s7) := s in
  let '(a, b, c, d, e, f, g, h) := t in
  (wrap_u32 (s0 + a), wrap_u32 (s1 + b), wrap_u32 (s2 + c), wrap_u32 (s3 + d),
   wrap_u32 (s4 + e), wrap_u32 (s5 + f), wrap_u32 (s6 + g), wrap_u32 (s7 + h)).

Lemma code_round_eq a b c d e f g h k w :
  code_round (a, b, c, d, e, f, g, h) (k, w)
  = (let '(d, h) := Round a b c d e f g h k w in (h, a, b, c, d, e, f, g)).
Proof. done. Qed.
Lemma rolling_cons k ks s w0 w1 w2 w3 w4 w5 w6 w7 w8 w9 w10 w11 w12 w13 w14 w15
    (w := wrap_u32 (w0 + (sigma1 w14 + w9 + sigma0 w1))) :
  rolling (k :: ks) s [w0; w1; w2; w3; w4; w5; w6; w7; w8; w9; w10; w11; w12; w13; w14; w15]
  = rolling ks (code_round s (k, w)) [w1; w2; w3; w4; w5; w6; w7; w8; w9; w10; w11; w12; w13; w14; w15; w].
Proof. done. Qed.

(** Both sides take one round, with a fresh name for the new word. *)
Ltac both_round :=
  rewrite code_round_eq;
  match goal with |- context [Round ?a ?b ?c ?d ?e ?f ?g ?h ?k ?w] =>
    is_var w; destruct (Round a b c d e f g h k w) as [? ?] end;
  cbv beta iota.
Ltac code_word :=
  match goal with |- (let x := ?e in @?B x) = ?R => change (B e = R); cbv beta end.
Ltac next_round := code_word; rewrite rolling_cons;
  match goal with |- context [wrap_u32 (?x + (sigma1 ?y + ?z + sigma0 ?t))] =>
    generalize (wrap_u32 (x + (sigma1 y + z + sigma0 t))); intros ? end;
  both_round.

Lemma Transform_rounds s chunk (ws := be32 chunk <$> seq 0 16) :
  Transform s chunk
  = add_state s (rolling (drop 16 Fips.K) (fold_left code_round (zip (take 16 Fips.K) ws) s) ws).
Proof.
  destruct s as [[[[[[[a b] c] d] e] f] g] h]. subst ws.
  match goal with |- _ = add_state _ ?r =>
    let r' := eval cbn [seq fmap list_fmap zip zip_with take drop Fips.K fold_left] in r in change r with r' end.
  cbv beta iota delta [Transform].
  do 16 (code_word; match goal with |- context [be32 chunk ?i] => generalize (be32 chunk i); intros ? end; both_round).
  do 46 next_round.
  do 2 (rewrite rolling_cons; cbv zeta; rewrite !Z.add_assoc;
        match goal with |- context [wrap_u32 (?x + sigma1 ?y + ?z + sigma0 ?t)] =>
          generalize (wrap_u32 (x + sigma1 y + z + sigma0 t)); intros ? end; both_round).
  reflexivity.
Qed.

(** *** The message schedule *)

(** The words after [ws], which holds the last first. *)
Fixpoint later_words (n : nat) (ws : list Z) : list Z :=
  match n with O => [] | S n => let w := Fips.next_word ws in w :: later_words n (w :: ws) end.
Lemma schedule_later n ws : rev (Fips.schedule n ws) = rev ws ++ later_words n ws.
Proof.
  revert ws. induction n as [|n IH]; intros ws; cbn [Fips.schedule later_words]; [by rewrite app_nil_r|].
  rewrite IH. cbn [rev]. by rewrite <- app_assoc.
Qed.

Lemma roll_next ws : (16 <= length ws)%nat -> roll (rev (take 16 ws)) = Fips.next_word ws.
Proof.
  intros Hl. do 16 (destruct ws as [|? ws]; [cbn in Hl; lia|]).
  unfold roll, Fips.next_word, Fips.word, wrap_u32. rewrite !firstn_cons, take_0. cbn [rev app nth Nat.sub].
  rewrite sigma1_sig1, sigma0_sig0. f_equal. lia.
Qed.
Lemma window_next (ws : list Z) w : (16 <= length ws)%nat -> tail (rev (take 16 ws)) ++ [w] = rev (take 16 (w :: ws)).
Proof. intros Hl. do 16 (destruct ws as [|? ws]; [cbn in Hl; lia|]). done. Qed.

Lemma rolling_rounds ks s ws : (16 <= length ws)%nat ->
  rolling ks s (rev (take 16 ws)) = fold_left code_round (zip ks (later_words (length ks) ws)) s.
Proof.
  revert s ws. induction ks as [|k ks IH]; intros s ws Hl; [done|].
  cbn [rolling length later_words zip zip_with fold_left]. rewrite roll_next, window_next by done.
  rewrite IH by (cbn; lia). done.
Qed.

(** *** The compression function *)

Definition u32_state (s : words8) : Prop :=
  let '(a, b, c, d, e, f, g, h) := s in
  in_u32 a /\ in_u32 b /\ in_u32 c /\ in_u32 d /\ in_u32 e /\ in_u32 f /\ in_u32 g /\ in_u32 h.

Lemma code_round_fips s kw : u32_state s -> code_round s kw = Fips.round s kw /\ u32_state (code_round s kw).
Proof.
  destruct s as [[[[[[[a b] c] d] e] f] g] h], kw as [k w]. intros (Ha & Hb & Hc & Hd & He & Hf & Hg & Hh).
  unfold code_round, Round, Fips.round. cbn [fst snd]. split.
  - rewrite Sigma0_Sum0, Sigma1_Sum1, Maj_Maj, Ch_Ch by done. done.
  - unfold u32_state. auto 10 with cint.
Qed.
Lemma code_rounds_fips l s : u32_state s ->
  fold_left code_round l s = fold_left Fips.round l s /\ u32_state (fold_left code_round l s).
Proof.
  revert s. induction l as [|kw l IH]; intros s Hs; [done|]. cbn [fold_left].
  destruct (code_round_fips s kw Hs) as [E Hs']. rewrite <- E. by apply IH.
Qed.

Lemma Transform_compress s chunk : u32_state s -> Transform s chunk = Fips.compress s chunk /\ u32_state (Transform s chunk).
Proof.
  intros Hs. rewrite Transform_rounds. set (ws := be32 chunk <$> seq 0 16).
  assert (Hr : rolling (drop 16 Fips.K) (fold_left code_round (zip (take 16 Fips.K) ws) s) ws
               = fold_left Fips.round (zip Fips.K (Fips.message_schedule chunk)) s).
  { unfold Fips.message_schedule. rewrite schedule_later, rev_involutive. fold ws.
    replace ws with (rev (take 16 (rev ws))) at 2 by (rewrite take_ge by done; apply rev_involutive).
    rewrite rolling_rounds by done. rewrite <- fold_left_app. rewrite <- (proj1 (code_rounds_fips _ s Hs)). done. }
  rewrite Hr. clear Hr. destruct s as [[[[[[[s0 s1] s2] s3] s4] s5] s6] s7]. unfold Fips.compress.
  destruct (fold_left _ _ _) as [[[[[[[a b] c] d] e] f] g] h]. cbn [add_state]. split.
  - unfold wrap_u32. change 4294967296 with (2 ^ 32). by rewrite (Z.add_comm s0), (Z.add_comm s1), (Z.add_comm s2), (Z.add_comm s3),
      (Z.add_comm s4), (Z.add_comm s5), (Z.add_comm s6), (Z.add_comm s7).
  - unfold u32_state. auto 10 with cint.
Qed.

(** *** Messages *)

Lemma padding_fips m : padded (be_bytes 8) m = Fips.pad m.
Proof. unfold padded, Fips.pad. rewrite pad_bytes_zeros, (Z.mul_comm 8). done. Qed.

Lemma blocks_compress l s : u32_state s -> fold_left Transform l s = fold_left Fips.compress l s.
Proof.
  revert s. induction l as [|b l IH]; intros s Hs; [done|]. cbn [fold_left].
  destruct (Transform_compress s b Hs) as [<- Hs']. by apply IH.
Qed.

Lemma digest_fips m : words8_bytes (digest_state Transform (be_bytes 8) SHA256_INIT m) = Fips.digest m.
Proof. change SHA256_INIT with Fips.initial. unfold digest_state, Fips.digest, full_blocks. rewrite padding_fips, blocks_compress; [done|]. cbn. lia. Qed.

Section Streams.
Context (alignment_ok : nat -> bool).
Notation sha256_update := (sha256_update alignment_ok).
Notation sha256_done := (sha256_done alignment_ok).
Notation absorbs := (absorbed Transform SHA256_INIT).

Lemma init_absorbs : absorbs sha256_init [].
Proof. by split. Qed.

Lemma update_absorbs ctx m p :
  absorbs ctx m -> Z.of_nat (length m + length p) < 2 ^ 62 ->
  exists ctx', sha256_update ctx p = Ret ctx' /\ absorbs ctx' (m ++ p).
Proof.
  intros Ha Hlt. unfold Sha256.sha256_update. rewrite (proj2 (Z.eqb_neq _ _)).
  - eexists. split; [done|]. by apply add_absorbs.
  - rewrite (ab_bytes _ _ _ _ Ha). unfold INVALID. lia.
Qed.
Lemma done_fips ctx m : absorbs ctx m -> Z.of_nat (length m) < 2 ^ 61 -> fst (sha256_done ctx) = Fips.digest m.
Proof.
  intros Ha Hlt. unfold Sha256.sha256_done. cbn [fst]. rewrite (finish_digest _ _ _ _ _ _ Ha Hlt) by (intros; apply be_bytes_length). apply digest_fips.
Qed.

Fixpoint updates (ctx : sha256_ctx) (chunks : list (list Z)) : outcome sha256_ctx :=
  match chunks with
  | [] => Ret ctx
  | p :: chunks => ctx ← sha256_update ctx p; updates ctx chunks
  end.
Lemma updates_absorb ctx m chunks :
  absorbs ctx m -> Z.of_nat (length (m ++ concat chunks)) < 2 ^ 62 ->
  exists ctx', updates ctx chunks = Ret ctx' /\ absorbs ctx' (m ++ concat chunks).
Proof.
  revert ctx m. induction chunks as [|p l IH]; intros ctx m Ha Hlt; cbn [updates concat] in *.
  { rewrite app_nil_r. by eexists. }
  rewrite app_assoc in *. destruct (update_absorbs ctx m p Ha) as (ctx' & -> & Ha').
  - rewrite !length_app in Hlt. lia.
  - cbn. by apply IH.
Qed.

(** C40. SHA-256: however a message of less than 2^61 bytes is cut into pieces,
    one [sha256_update] for each, between [sha256_init] and [sha256_done],
    gives the SHA-256 of FIPS 180-4 of the whole message, whatever the
    alignment of the pieces. *)
Theorem sha256_is_fips chunks :
  Z.of_nat (length (concat chunks)) < 2 ^ 61 ->
  exists ctx, updates sha256_init chunks = Ret ctx /\ fst (sha256_done ctx) = Fips.digest (concat chunks).
Proof.
  intros Hlt. destruct (updates_absorb sha256_init [] chunks init_absorbs ltac:(cbn; lia)) as (ctx & E & Ha).
  exists ctx. split; [done|]. by apply done_fips.
Qed.

Lemma sha256_fips m : Z.of_nat (length m) < 2 ^ 61 -> sha256 alignment_ok m = Ret (Fips.digest m).
Proof.
  intros Hlt. unfold Sha256.sha256. destruct (update_absorbs sha256_init [] m init_absorbs) as (ctx & -> & Ha); [cbn; lia|].
  cbn -[Sha256.sha256_done]. f_equal. by apply done_fips.
Qed.
End Streams.

Lemma words8_bytes_length s : length (words8_bytes s) = 32%nat.
Proof. destruct s as [[[[[[[a b] c] d] e] f] g] h]. unfold words8_bytes. by rewrite !length_app, !be_bytes_length. Qed.
#[export] Instance sha256_digest : Digest Fips.digest 32.
Proof.
  split; intros m; [apply words8_bytes_length|]. intros b. unfold Fips.digest, words8_bytes.
  destruct (fold_left _ _ _) as [[[[[[[s0 s1] s2] s3] s4] s5] s6] s7]. rewrite !elem_of_app.
  intros Hb. assert (exists s, b ∈ be_bytes 4 s) as [s Hs].
  { destruct Hb as [Hb|[Hb|[Hb|[Hb|[Hb|[Hb|[Hb|Hb]]]]]]]; by eexists. }
  apply (proj1 (Forall_forall _ _) (be_bytes_bytes _ _)) in Hs. lia.
Qed.

(** ** Examples *)

(** "abc", in two pieces. *)
Lemma sha256_is_fips_witness :
  exists ctx, updates (fun _ => false) sha256_init [[97]; [98; 99]] = Ret ctx
    /\ fst (sha256_done (fun _ => false) ctx)
       = [0xba; 0x78; 0x16; 0xbf; 0x8f; 0x01; 0xcf; 0xea; 0x41; 0x41; 0x40; 0xde; 0x5d; 0xae; 0x22; 0x23;
          0xb0; 0x03; 0x61; 0xa3; 0x96; 0x17; 0x7a; 0x9c; 0xb4; 0x10; 0xff; 0x61; 0xf2; 0x00; 0x15; 0xad].
Proof.
  destruct (sha256_is_fips (fun _ => false) [[97]; [98; 99]] ltac:(cbn; lia)) as (ctx & E1 & E2).
  exists ctx. split; [exact E1|]. rewrite E2. vm_compute. reflexivity.
Defined.
