(* ===== verification/Ripemd160.v ===== *)
(** * RIPEMD-160 (ccan/crypto/ripemd160/ripemd160.c)

    The two interleaved lines of eighty unrolled steps, and the streaming
    interface.  [Ripemd] is the function as its designers published it, with its
    tables; the theorems say that the code computes it. *)

From stdpp Require Import list.
From S2P Require Import Prelude Wire Script Hashing Sha256.
Local Open Scope Z_scope.

(** ** The compression function *)

Definition not32 (x : Z) : Z := Z.lxor x 0xFFFFFFFF.
Definition f1 (x y z : Z) : Z := Z.lxor (Z.lxor x y) z.
Definition f2 (x y z : Z) : Z := Z.lor (Z.land x y) (Z.land (not32 x) z).
Definition f3 (x y z : Z) : Z := Z.lxor (Z.lor x (not32 y)) z.
Definition f4 (x y z : Z) : Z := Z.lor (Z.land x z) (Z.land y (not32 z)).
Definition f5 (x y z : Z) : Z := Z.lxor x (Z.lor y (not32 z)).

Definition rol (x i : Z) : Z := Z.lor (wrap_u32 (Z.shiftl x i)) (Z.shiftr x (32 - i)).

(** The new [a] and [c]. *)
Definition Round (a b c d e f x k r : Z) : Z * Z :=
  (wrap_u32 (rol (wrap_u32 (a + f + x + k)) r + e), rol c 10).

Definition R11 (a b c d e x r : Z) : Z * Z := Round a b c d e (f1 b c d) x 0 r.
Definition R21 (a b c d e x r : Z) : Z * Z := Round a b c d e (f2 b c d) x 0x5A827999 r.
Definition R31 (a b c d e x r : Z) : Z * Z := Round a b c d e (f3 b c d) x 0x6ED9EBA1 r.
Definition R41 (a b c d e x r : Z) : Z * Z := Round a b c d e (f4 b c d) x 0x8F1BBCDC r.
Definition R51 (a b c d e x r : Z) : Z * Z := Round a b c d e (f5 b c d) x 0xA953FD4E r.

Definition R12 (a b c d e x r : Z) : Z * Z := Round a b c d e (f5 b c d) x 0x50A28BE6 r.
Definition R22 (a b c d e x r : Z) : Z * Z := Round a b c d e (f4 b c d) x 0x5C4DD124 r.
Definition R32 (a b c d e x r : Z) : Z * Z := Round a b c d e (f3 b c d) x 0x6D703EF3 r.
Definition R42 (a b c d e x r : Z) : Z * Z := Round a b c d e (f2 b c d) x 0x7A6D76E9 r.
Definition R52 (a b c d e x r : Z) : Z * Z := Round a b c d e (f1 b c d) x 0 r.

Definition le32 (chunk : list Z) (i : nat) : Z := le_value (take 4 (drop (4 * i) chunk)).

Notation words5 := (Z * Z * Z * Z * Z)%type.

Definition Transform (s : words5) (chunk : list Z) : words5 :=
  let '(s0, s1, s2, s3, s4) := s in
  let '(a1, b1, c1, d1, e1) := s in
  let '(a2, b2, c2, d2, e2) := s in
  let w0 := le32 chunk 0 in
  let w1 := le32 chunk 1 in
  let w2 := le32 chunk 2 in
  let w3 := le32 chunk 3 in
  let w4 := le32 chunk 4 in
  let w5 := le32 chunk 5 in
  let w6 := le32 chunk 6 in
  let w7 := le32 chunk 7 in
  let w8 := le32 chunk 8 in
  let w9 := le32 chunk 9 in
  let w10 := le32 chunk 10 in
  let w11 := le32 chunk 11 in
  let w12 := le32 chunk 12 in
  let w13 := le32 chunk 13 in
  let w14 := le32 chunk 14 in
  let w15 := le32 chunk 15 in
  let '(a1, c1) := R11 a1 b1 c1 d1 e1 w0 11 in
  let '(a2, c2) := R12 a2 b2 c2 d2 e2 w5 8 in
  let '(e1, b1) := R11 e1 a1 b1 c1 d1 w1 14 in
  let '(e2, b2) := R12 e2 a2 b2 c2 d2 w14 9 in
  let '(d1, a1) := R11 d1 e1 a1 b1 c1 w2 15 in
  let '(d2, a2) := R12 d2 e2 a2 b2 c2 w7 9 in
  let '(c1, e1) := R11 c1 d1 e1 a1 b1 w3 12 in
  let '(c2, e2) := R12 c2 d2 e2 a2 b2 w0 11 in
  let '(b1, d1) := R11 b1 c1 d1 e1 a1 w4 5 in
  let '(b2, d2) := R12 b2 c2 d2 e2 a2 w9 13 in
  let '(a1, c1) := R11 a1 b1 c1 d1 e1 w5 8 in
  let '(a2, c2) := R12 a2 b2 c2 d2 e2 w2 15 in
  let '(e1, b1) := R11 e1 a1 b1 c1 d1 w6 7 in
  let '(e2, b2) := R12 e2 a2 b2 c2 d2 w11 15 in
  let '(d1, a1) := R11 d1 e1 a1 b1 c1 w7 9 in
  let '(d2, a2) := R12 d2 e2 a2 b2 c2 w4 5 in
  let '(c1, e1) := R11 c1 d1 e1 a1 b1 w8 11 in
  let '(c2, e2) := R12 c2 d2 e2 a2 b2 w13 7 in
  let '(b1, d1) := R11 b1 c1 d1 e1 a1 w9 13 in
  let '(b2, d2) := R12 b2 c2 d2 e2 a2 w6 7 in
  let '(a1, c1) := R11 a1 b1 c1 d1 e1 w10 14 in
  let '(a2, c2) := R12 a2 b2 c2 d2 e2 w15 8 in
  let '(e1, b1) := R11 e1 a1 b1 c1 d1 w11 15 in
  let '(e2, b2) := R12 e2 a2 b2 c2 d2 w8 11 in
  let '(d1, a1) := R11 d1 e1 a1 b1 c1 w12 6 in
  let '(d2, a2) := R12 d2 e2 a2 b2 c2 w1 14 in
  let '(c1, e1) := R11 c1 d1 e1 a1 b1 w13 7 in
  let '(c2, e2) := R12 c2 d2 e2 a2 b2 w10 14 in
  let '(b1, d1) := R11 b1 c1 d1 e1 a1 w14 9 in
  let '(b2, d2) := R12 b2 c2 d2 e2 a2 w3 12 in
  let '(a1, c1) := R11 a1 b1 c1 d1 e1 w15 8 in
  let '(a2, c2) := R12 a2 b2 c2 d2 e2 w12 6 in
  let '(e1, b1) := R21 e1 a1 b1 c1 d1 w7 7 in
  let '(e2, b2) := R22 e2 a2 b2 c2 d2 w6 9 in
  let '(d1, a1) := R21 d1 e1 a1 b1 c1 w4 6 in
  let '(d2, a2) := R22 d2 e2 a2 b2 c2 w11 13 in
  let '(c1, e1) := R21 c1 d1 e1 a1 b1 w13 8 in
  let '(c2, e2) := R22 c2 d2 e2 a2 b2 w3 15 in
  let '(b1, d1) := R21 b1 c1 d1 e1 a1 w1 13 in
  let '(b2, d2) := R22 b2 c2 d2 e2 a2 w7 7 in
  let '(a1, c1) := R21 a1 b1 c1 d1 e1 w10 11 in
  let '(a2, c2) := R22 a2 b2 c2 d2 e2 w0 12 in
  let '(e1, b1) := R21 e1 a1 b1 c1 d1 w6 9 in
  let '(e2, b2) := R22 e2 a2 b2 c2 d2 w13 8 in
  let '(d1, a1) := R21 d1 e1 a1 b1 c1 w15 7 in
  let '(d2, a2) := R22 d2 e2 a2 b2 c2 w5 9 in
  let '(c1, e1) := R21 c1 d1 e1 a1 b1 w3 15 in
  let '(c2, e2) := R22 c2 d2 e2 a2 b2 w10 11 in
  let '(b1, d1) := R21 b1 c1 d1 e1 a1 w12 7 in
  let '(b2, d2) := R22 b2 c2 d2 e2 a2 w14 7 in
  let '(a1, c1) := R21 a1 b1 c1 d1 e1 w0 12 in
  let '(a2, c2) := R22 a2 b2 c2 d2 e2 w15 7 in
  let '(e1, b1) := R21 e1 a1 b1 c1 d1 w9 15 in
  let '(e2, b2) := R22 e2 a2 b2 c2 d2 w8 12 in
  let '(d1, a1) := R21 d1 e1 a1 b1 c1 w5 9 in
  let '(d2, a2) := R22 d2 e2 a2 b2 c2 w12 7 in
  let '(c1, e1) := R21 c1 d1 e1 a1 b1 w2 11 in
  let '(c2, e2) := R22 c2 d2 e2 a2 b2 w4 6 in
  let '(b1, d1) := R21 b1 c1 d1 e1 a1 w14 7 in
  let '(b2, d2) := R22 b2 c2 d2 e2 a2 w9 15 in
  let '(a1, c1) := R21 a1 b1 c1 d1 e1 w11 13 in
  let '(a2, c2) := R22 a2 b2 c2 d2 e2 w1 13 in
  let '(e1, b1) := R21 e1 a1 b1 c1 d1 w8 12 in
  let '(e2, b2) := R22 e2 a2 b2 c2 d2 w2 11 in
  let '(d1, a1) := R31 d1 e1 a1 b1 c1 w3 11 in
  let '(d2, a2) := R32 d2 e2 a2 b2 c2 w15 9 in
  let '(c1, e1) := R31 c1 d1 e1 a1 b1 w10 13 in
  let '(c2, e2) := R32 c2 d2 e2 a2 b2 w5 7 in
  let '(b1, d1) := R31 b1 c1 d1 e1 a1 w14 6 in
  let '(b2, d2) := R32 b2 c2 d2 e2 a2 w1 15 in
  let '(a1, c1) := R31 a1 b1 c1 d1 e1 w4 7 in
  let '(a2, c2) := R32 a2 b2 c2 d2 e2 w3 11 in
  let '(e1, b1) := R31 e1 a1 b1 c1 d1 w9 14 in
  let '(e2, b2) := R32 e2 a2 b2 c2 d2 w7 8 in
  let '(d1, a1) := R31 d1 e1 a1 b1 c1 w15 9 in
  let '(d2, a2) := R32 d2 e2 a2 b2 c2 w14 6 in
  let '(c1, e1) := R31 c1 d1 e1 a1 b1 w8 13 in
  let '(c2, e2) := R32 c2 d2 e2 a2 b2 w6 6 in
  let '(b1, d1) := R31 b1 c1 d1 e1 a1 w1 15 in
  let '(b2, d2) := R32 b2 c2 d2 e2 a2 w9 14 in
  let '(a1, c1) := R31 a1 b1 c1 d1 e1 w2 14 in
  let '(a2, c2) := R32 a2 b2 c2 d2 e2 w11 12 in
  let '(e1, b1) := R31 e1 a1 b1 c1 d1 w7 8 in
  let '(e2, b2) := R32 e2 a2 b2 c2 d2 w8 13 in
  let '(d1, a1) := R31 d1 e1 a1 b1 c1 w0 13 in
  let '(d2, a2) := R32 d2 e2 a2 b2 c2 w12 5 in
  let '(c1, e1) := R31 c1 d1 e1 a1 b1 w6 6 in
  let '(c2, e2) := R32 c2 d2 e2 a2 b2 w2 14 in
  let '(b1, d1) := R31 b1 c1 d1 e1 a1 w13 5 in
  let '(b2, d2) := R32 b2 c2 d2 e2 a2 w10 13 in
  let '(a1, c1) := R31 a1 b1 c1 d1 e1 w11 12 in
  let '(a2, c2) := R32 a2 b2 c2 d2 e2 w0 13 in
  let '(e1, b1) := R31 e1 a1 b1 c1 d1 w5 7 in
  let '(e2, b2) := R32 e2 a2 b2 c2 d2 w4 7 in
  let '(d1, a1) := R31 d1 e1 a1 b1 c1 w12 5 in
  let '(d2, a2) := R32 d2 e2 a2 b2 c2 w13 5 in
  let '(c1, e1) := R41 c1 d1 e1 a1 b1 w1 11 in
  let '(c2, e2) := R42 c2 d2 e2 a2 b2 w8 15 in
  let '(b1, d1) := R41 b1 c1 d1 e1 a1 w9 12 in
  let '(b2, d2) := R42 b2 c2 d2 e2 a2 w6 5 in
  let '(a1, c1) := R41 a1 b1 c1 d1 e1 w11 14 in
  let '(a2, c2) := R42 a2 b2 c2 d2 e2 w4 8 in
  let '(e1, b1) := R41 e1 a1 b1 c1 d1 w10 15 in
  let '(e2, b2) := R42 e2 a2 b2 c2 d2 w1 11 in
  let '(d1, a1) := R41 d1 e1 a1 b1 c1 w0 14 in
  let '(d2, a2) := R42 d2 e2 a2 b2 c2 w3 14 in
  let '(c1, e1) := R41 c1 d1 e1 a1 b1 w8 15 in
  let '(c2, e2) := R42 c2 d2 e2 a2 b2 w11 14 in
  let '(b1, d1) := R41 b1 c1 d1 e1 a1 w12 9 in
  let '(b2, d2) := R42 b2 c2 d2 e2 a2 w15 6 in
  let '(a1, c1) := R41 a1 b1 c1 d1 e1 w4 8 in
  let '(a2, c2) := R42 a2 b2 c2 d2 e2 w0 14 in
  let '(e1, b1) := R41 e1 a1 b1 c1 d1 w13 9 in
  let '(e2, b2) := R42 e2 a2 b2 c2 d2 w5 6 in
  let '(d1, a1) := R41 d1 e1 a1 b1 c1 w3 14 in
  let '(d2, a2) := R42 d2 e2 a2 b2 c2 w12 9 in
  let '(c1, e1) := R41 c1 d1 e1 a1 b1 w7 5 in
  let '(c2, e2) := R42 c2 d2 e2 a2 b2 w2 12 in
  let '(b1, d1) := R41 b1 c1 d1 e1 a1 w15 6 in
  let '(b2, d2) := R42 b2 c2 d2 e2 a2 w13 9 in
  let '(a1, c1) := R41 a1 b1 c1 d1 e1 w14 8 in
  let '(a2, c2) := R42 a2 b2 c2 d2 e2 w9 12 in
  let '(e1, b1) := R41 e1 a1 b1 c1 d1 w5 6 in
  let '(e2, b2) := R42 e2 a2 b2 c2 d2 w7 5 in
  let '(d1, a1) := R41 d1 e1 a1 b1 c1 w6 5 in
  let '(d2, a2) := R42 d2 e2 a2 b2 c2 w10 15 in
  let '(c1, e1) := R41 c1 d1 e1 a1 b1 w2 12 in
  let '(c2, e2) := R42 c2 d2 e2 a2 b2 w14 8 in
  let '(b1, d1) := R51 b1 c1 d1 e1 a1 w4 9 in
  let '(b2, d2) := R52 b2 c2 d2 e2 a2 w12 8 in
  let '(a1, c1) := R51 a1 b1 c1 d1 e1 w0 15 in
  let '(a2, c2) := R52 a2 b2 c2 d2 e2 w15 5 in
  let '(e1, b1) := R51 e1 a1 b1 c1 d1 w5 5 in
  let '(e2, b2) := R52 e2 a2 b2 c2 d2 w10 12 in
  let '(d1, a1) := R51 d1 e1 a1 b1 c1 w9 11 in
  let '(d2, a2) := R52 d2 e2 a2 b2 c2 w4 9 in
  let '(c1, e1) := R51 c1 d1 e1 a1 b1 w7 6 in
  let '(c2, e2) := R52 c2 d2 e2 a2 b2 w1 12 in
  let '(b1, d1) := R51 b1 c1 d1 e1 a1 w12 8 in
  let '(b2, d2) := R52 b2 c2 d2 e2 a2 w5 5 in
  let '(a1, c1) := R51 a1 b1 c1 d1 e1 w2 13 in
  let '(a2, c2) := R52 a2 b2 c2 d2 e2 w8 14 in
  let '(e1, b1) := R51 e1 a1 b1 c1 d1 w10 12 in
  let '(e2, b2) := R52 e2 a2 b2 c2 d2 w7 6 in
  let '(d1, a1) := R51 d1 e1 a1 b1 c1 w14 5 in
  let '(d2, a2) := R52 d2 e2 a2 b2 c2 w6 8 in
  let '(c1, e1) := R51 c1 d1 e1 a1 b1 w1 12 in
  let '(c2, e2) := R52 c2 d2 e2 a2 b2 w2 13 in
  let '(b1, d1) := R51 b1 c1 d1 e1 a1 w3 13 in
  let '(b2, d2) := R52 b2 c2 d2 e2 a2 w13 6 in
  let '(a1, c1) := R51 a1 b1 c1 d1 e1 w8 14 in
  let '(a2, c2) := R52 a2 b2 c2 d2 e2 w14 5 in
  let '(e1, b1) := R51 e1 a1 b1 c1 d1 w11 11 in
  let '(e2, b2) := R52 e2 a2 b2 c2 d2 w0 15 in
  let '(d1, a1) := R51 d1 e1 a1 b1 c1 w6 8 in
  let '(d2, a2) := R52 d2 e2 a2 b2 c2 w3 13 in
  let '(c1, e1) := R51 c1 d1 e1 a1 b1 w15 5 in
  let '(c2, e2) := R52 c2 d2 e2 a2 b2 w9 11 in
  let '(b1, d1) := R51 b1 c1 d1 e1 a1 w13 6 in
  let '(b2, d2) := R52 b2 c2 d2 e2 a2 w11 11 in
  (wrap_u32 (s1 + c1 + d2), wrap_u32 (s2 + d1 + e2), wrap_u32 (s3 + e1 + a2),
   wrap_u32 (s4 + a1 + b2), wrap_u32 (s0 + b1 + c2)).

(** ** Streaming *)

Notation ripemd160_ctx := (hash_ctx (St := words5)).

Definition RIPEMD160_INIT : words5 := (0x67452301, 0xEFCDAB89, 0x98BADCFE, 0x10325476, 0xC3D2E1F0).

Definition invalidate_ripemd160 (ctx : ripemd160_ctx) : ripemd160_ctx := mk_ctx (ctx_s ctx) (ctx_buf ctx) INVALID.

Definition words5_bytes (s : words5) : list Z :=
  let '(a, b, c, d, e) := s in
  le_bytes 4 a ++ le_bytes 4 b ++ le_bytes 4 c ++ le_bytes 4 d ++ le_bytes 4 e.

Section Ripemd160.
Context (alignment_ok : nat -> bool).

Definition ripemd160_init : ripemd160_ctx := mk_ctx RIPEMD160_INIT (repeat 0 64) 0.

Definition ripemd160_update (ctx : ripemd160_ctx) (p : list Z) : outcome ripemd160_ctx :=
  assert_then (negb (ctx_bytes ctx =? INVALID)) (Ret (add Transform alignment_ok ctx p)).

Definition ripemd160_done (ctx : ripemd160_ctx) : list Z * ripemd160_ctx :=
  let ctx := finish Transform alignment_ok (le_bytes 8) ctx in
  (words5_bytes (ctx_s ctx), invalidate_ripemd160 ctx).

Definition ripemd160 (p : list Z) : outcome (list Z) :=
  ctx ← ripemd160_update ripemd160_init p;
  Ret (fst (ripemd160_done ctx)).
End Ripemd160.

(** ** The function as it was published *)

Module Ripemd.
(** The selection of message words and the rotations, of the left line and of
    the right one. *)
Definition r : list nat := [
  0; 1; 2; 3; 4; 5; 6; 7; 8; 9; 10; 11; 12; 13; 14; 15;
  7; 4; 13; 1; 10; 6; 15; 3; 12; 0; 9; 5; 2; 14; 11; 8;
  3; 10; 14; 4; 9; 15; 8; 1; 2; 7; 0; 6; 13; 11; 5; 12;
  1; 9; 11; 10; 0; 8; 12; 4; 13; 3; 7; 15; 14; 5; 6; 2;
  4; 0; 5; 9; 7; 12; 2; 10; 14; 1; 3; 8; 11; 6; 15; 13]%nat.
Definition r' : list nat := [
  5; 14; 7; 0; 9; 2; 11; 4; 13; 6; 15; 8; 1; 10; 3; 12;
  6; 11; 3; 7; 0; 13; 5; 10; 14; 15; 8; 12; 4; 9; 1; 2;
  15; 5; 1; 3; 7; 14; 6; 9; 11; 8; 12; 2; 10; 0; 4; 13;
  8; 6; 4; 1; 3; 11; 15; 0; 5; 12; 2; 13; 9; 7; 10; 14;
  12; 15; 10; 4; 1; 5; 8; 7; 6; 2; 13; 14; 0; 3; 9; 11]%nat.
Definition s : list Z := [
  11; 14; 15; 12; 5; 8; 7; 9; 11; 13; 14; 15; 6; 7; 9; 8;
  7; 6; 8; 13; 11; 9; 7; 15; 7; 12; 15; 9; 11; 7; 13; 12;
  11; 13; 6; 7; 14; 9; 13; 15; 14; 8; 13; 6; 5; 12; 7; 5;
  11; 12; 14; 15; 14; 15; 9; 8; 9; 14; 5; 6; 8; 6; 5; 12;
  9; 15; 5; 11; 6; 8; 13; 12; 5; 12; 13; 14; 11; 8; 5; 6].
Definition s' : list Z := [
  8; 9; 9; 11; 13; 15; 15; 5; 7; 7; 8; 11; 14; 14; 12; 6;
  9; 13; 15; 7; 12; 8; 9; 11; 7; 7; 12; 7; 6; 15; 13; 11;
  9; 7; 15; 11; 8; 6; 6; 14; 12; 13; 5; 14; 13; 13; 7; 5;
  15; 5; 8; 11; 14; 14; 6; 14; 6; 9; 12; 9; 12; 5; 15; 8;
  8; 5; 12; 9; 12; 5; 14; 6; 8; 13; 6; 5; 15; 13; 11; 11].

(** The functions and the constants of the five rounds of each line. *)
Definition f (j : nat) : Z -> Z -> Z -> Z :=
  match (j / 16)%nat with 0%nat => f1 | 1%nat => f2 | 2%nat => f3 | 3%nat => f4 | _ => f5 end.
Definition K (j : nat) : Z :=
  match (j / 16)%nat with
  | 0%nat => 0 | 1%nat => 0x5A827999 | 2%nat => 0x6ED9EBA1 | 3%nat => 0x8F1BBCDC | _ => 0xA953FD4E
  end.
Definition K' (j : nat) : Z :=
  match (j / 16)%nat with
  | 0%nat => 0x50A28BE6 | 1%nat => 0x5C4DD124 | 2%nat => 0x6D703EF3 | 3%nat => 0x7A6D76E9 | _ => 0
  end.

(** [T := rol_s(A + f(B, C, D) + X + K) + E; A := E; E := D; D := rol_10(C);
    C := B; B := T] *)
Definition step (fn : Z -> Z -> Z -> Z) (k x rot : Z) (st : words5) : words5 :=
  let '(A, B, C, D, E) := st in
  (E, (rol ((A + fn B C D + x + k) mod 2 ^ 32) rot + E) mod 2 ^ 32, B, rol C 10, D).

Definition left (X : nat -> Z) (st : words5) (j : nat) : words5 :=
  step (f j) (K j) (X (nth j r 0%nat)) (nth j s 0) st.
Definition right (X : nat -> Z) (st : words5) (j : nat) : words5 :=
  step (f (79 - j)) (K' j) (X (nth j r' 0%nat)) (nth j s' 0) st.

Definition compress (h : words5) (block : list Z) : words5 :=
  let '(h0, h1, h2, h3, h4) := h in
  let '(A, B, C, D, E) := fold_left (left (le32 block)) (seq 0 80) h in
  let '(A', B', C', D', E') := fold_left (right (le32 block)) (seq 0 80) h in
  ((h1 + C + D') mod 2 ^ 32, (h2 + D + E') mod 2 ^ 32, (h3 + E + A') mod 2 ^ 32,
   (h4 + A + B') mod 2 ^ 32, (h0 + B + C') mod 2 ^ 32).

(** The padding of MD4: a one bit, zero bits to 448 modulo 512, the length with
    its low byte first. *)
Definition pad (m : list Z) : list Z :=
  let k := (448 - 1 - 8 * Z.of_nat (length m)) mod 512 in
  m ++ 0x80 :: repeat 0 (Z.to_nat (k / 8)) ++ le_bytes 8 (8 * Z.of_nat (length m)).
Definition digest (m : list Z) : list Z :=
  words5_bytes (fold_left compress (blocks (length (pad m) / 64) (pad m)) RIPEMD160_INIT).
End Ripemd.

(** ** Theorems *)

(** The steps of both lines in turn, as the code takes them, with the
    registers renamed after each; [k] takes what the lines end with. *)
Fixpoint in_turn (Rnd : Z -> Z -> Z -> Z -> Z -> Z -> Z -> Z -> Z -> Z * Z) (X : nat -> Z) (n j : nat)
    (a1 b1 c1 d1 e1 a2 b2 c2 d2 e2 : Z) (k : words5 -> words5 -> words5) {struct n} : words5 :=
  match n with
  | O => k (a1, b1, c1, d1, e1) (a2, b2, c2, d2, e2)
  | S n =>
    let '(a1, c1) := Rnd a1 b1 c1 d1 e1 (Ripemd.f j b1 c1 d1) (X (nth j Ripemd.r 0%nat)) (Ripemd.K j) (nth j Ripemd.s 0) in
    let '(a2, c2) :=
      Rnd a2 b2 c2 d2 e2 (Ripemd.f (79 - j) b2 c2 d2) (X (nth j Ripemd.r' 0%nat)) (Ripemd.K' j) (nth j Ripemd.s' 0) in
    in_turn Rnd X n (S j) e1 a1 b1 c1 d1 e2 a2 b2 c2 d2 k
  end.

Definition combine (h p q : words5) : words5 :=
  let '(h0, h1, h2, h3, h4) := h in
  let '(A, B, C, D, E) := p in
  let '(A', B', C', D', E') := q in
  (wrap_u32 (h1 + C + D'), wrap_u32 (h2 + D + E'), wrap_u32 (h3 + E + A'), wrap_u32 (h4 + A + B'), wrap_u32 (h0 + B + C')).

Lemma Transform_in_turn a b c d e chunk :
  Transform (a, b, c, d, e) chunk
  = in_turn Round (le32 chunk) 80 0 a b c d e a b c d e (combine (a, b, c, d, e)).
Proof.
  unfold Transform, R11, R12, R21, R22, R31, R32, R41, R42, R51, R52. generalize Round. generalize (le32 chunk).
  intros X Rnd.
  cbv delta [in_turn Ripemd.f Ripemd.K Ripemd.K' Ripemd.r Ripemd.r' Ripemd.s Ripemd.s' nth Nat.div Nat.divmod Nat.sub fst]
    beta iota.
  cbv beta iota delta [combine]. reflexivity.
Qed.

Lemma in_turn_lines X n j a1 b1 c1 d1 e1 a2 b2 c2 d2 e2 k :
  in_turn Round X n j a1 b1 c1 d1 e1 a2 b2 c2 d2 e2 k
  = k (fold_left (Ripemd.left X) (seq j n) (a1, b1, c1, d1, e1)) (fold_left (Ripemd.right X) (seq j n) (a2, b2, c2, d2, e2)).
Proof.
  revert j a1 b1 c1 d1 e1 a2 b2 c2 d2 e2. induction n as [|n IH]; intros; [done|].
  cbn [in_turn seq fold_left]. unfold Round. apply IH.
Qed.

Lemma Transform_steps h chunk : Transform h chunk = Ripemd.compress h chunk.
Proof.
  destruct h as [[[[a b] c] d] e]. rewrite Transform_in_turn, in_turn_lines. unfold Ripemd.compress, combine.
  destruct (fold_left (Ripemd.left _) _ _) as [[[[A B] C] D] E].
  destruct (fold_left (Ripemd.right _) _ _) as [[[[A' B'] C'] D'] E']. reflexivity.
Qed.

Lemma padding_ripemd m : padded (le_bytes 8) m = Ripemd.pad m.
Proof. unfold padded, Ripemd.pad. rewrite pad_bytes_zeros, (Z.mul_comm 8). done. Qed.

Lemma digest_ripemd m : words5_bytes (digest_state Transform (le_bytes 8) RIPEMD160_INIT m) = Ripemd.digest m.
Proof.
  unfold digest_state, Ripemd.digest, full_blocks. rewrite padding_ripemd. f_equal.
  generalize (blocks (length (Ripemd.pad m) / 64) (Ripemd.pad m)), RIPEMD160_INIT.
  intros l. induction l as [|b l IH]; intros s; [done|]. cbn [fold_left]. by rewrite Transform_steps, IH.
Qed.

Lemma le_bytes_range n z b : b ∈ le_bytes n z -> 0 <= b < 256.
Proof.
  revert z. induction n as [|n IH]; intros z; cbn [le_bytes]; [by rewrite elem_of_nil|].
  rewrite elem_of_cons. intros [->|Hb]; [by apply Z.mod_pos_bound|by eapply IH].
Qed.

Section Streams.
Context (alignment_ok : nat -> bool).
Notation ripemd160_update := (ripemd160_update alignment_ok).
Notation absorbs := (absorbed Transform RIPEMD160_INIT).

Fixpoint ripemd_updates (ctx : ripemd160_ctx) (chunks : list (list Z)) : outcome ripemd160_ctx :=
  match chunks with
  | [] => Ret ctx
  | p :: chunks => ctx ← ripemd160_update ctx p; ripemd_updates ctx chunks
  end.
Lemma ripemd_updates_absorb ctx m chunks :
  absorbs ctx m -> Z.of_nat (length (m ++ concat chunks)) < 2 ^ 62 ->
  exists ctx', ripemd_updates ctx chunks = Ret ctx' /\ absorbs ctx' (m ++ concat chunks).
Proof.
  revert ctx m. induction chunks as [|p l IH]; intros ctx m Ha Hlt; cbn [ripemd_updates concat] in *.
  { rewrite app_nil_r. by eexists. }
  rewrite app_assoc in *. unfold Ripemd160.ripemd160_update.
  rewrite (proj2 (Z.eqb_neq _ _)); [|rewrite (ab_bytes _ _ _ _ Ha); unfold INVALID; rewrite !length_app in Hlt; lia].
  cbn [negb assert_then mbind outcome_bind]. apply IH; [|done]. apply add_absorbs; [done|]. rewrite !length_app in Hlt. lia.
Qed.

(** RIPEMD-160: however a message of less than 2^61 bytes is cut into pieces,
    one [ripemd160_update] for each, between [ripemd160_init] and
    [ripemd160_done], gives its RIPEMD-160 as it was published, whatever the
    alignment of the pieces. *)
Theorem ripemd160_is_ripemd chunks :
  Z.of_nat (length (concat chunks)) < 2 ^ 61 ->
  exists ctx, ripemd_updates ripemd160_init chunks = Ret ctx
    /\ fst (ripemd160_done alignment_ok ctx) = Ripemd.digest (concat chunks).
Proof.
  intros Hlt. destruct (ripemd_updates_absorb ripemd160_init [] chunks) as (ctx & E & Ha); [by split|cbn; lia|].
  exists ctx. split; [done|]. unfold ripemd160_done. cbn [fst].
  rewrite (finish_digest _ _ _ _ _ _ Ha Hlt) by (intros; apply le_bytes_length). apply digest_ripemd.
Qed.
End Streams.

#[export] Instance ripemd160_digest : Digest Ripemd.digest 20.
Proof.
  split; intros m; unfold Ripemd.digest, words5_bytes; destruct (fold_left _ _ _) as [[[[a b] c] d] e].
  - by rewrite !length_app, !le_bytes_length.
  - intros x. rewrite !elem_of_app. intros Hx. assert (exists s, x ∈ le_bytes 4 s) as [s Hs].
    { destruct Hx as [Hb|[Hb|[Hb|[Hb|Hb]]]]; by eexists. }
    by apply le_bytes_range in Hs.
Qed.

(** ** Examples *)

(** "abc", in two pieces. *)
Lemma ripemd160_is_ripemd_witness :
  exists ctx, ripemd_updates (fun _ => true) ripemd160_init [[97]; [98; 99]] = Ret ctx
    /\ fst (ripemd160_done (fun _ => true) ctx)
       = [0x8e; 0xb2; 0x08; 0xf7; 0xe0; 0x5d; 0x98; 0x7a; 0x9b; 0x04; 0x4a; 0x8e; 0x98; 0xc6; 0xb0; 0x87;
          0xf1; 0x5a; 0x0b; 0xfc].
Proof.
  destruct (ripemd160_is_ripemd (fun _ => true) [[97]; [98; 99]] ltac:(cbn; lia)) as (ctx & E1 & E2).
  exists ctx. split; [exact E1|]. rewrite E2. vm_compute. reflexivity.
Defined.
