(* ===== verification/Hkdf.v ===== *)
(** * HMAC and HKDF (ccan/crypto/hmac_sha256/hmac_sha256.c,
    ccan/crypto/hkdf_sha256/hkdf_sha256.c)

    What is built on SHA-256; [Rfc] has the functions of RFC 2104 and RFC 5869,
    and the theorems say that the code computes them. *)

From stdpp Require Import list.
From S2P Require Import Prelude Wire Script Hashing Sha256.
Local Open Scope Z_scope.

Section Hkdf.
Context (alignment_ok : nat -> bool).
Notation sha256 := (sha256 alignment_ok).
Notation sha256_update := (sha256_update alignment_ok).
Notation sha256_done := (sha256_done alignment_ok).

(** ** HMAC (ccan/crypto/hmac_sha256/hmac_sha256.c) *)

Definition HMAC_SHA256_BLOCKSIZE := 64%nat.
Definition IPAD := 0x36.
Definition OPAD := 0x5C.

(** Eight equal bytes at a time. *)
Definition xor_block (block : list Z) (pad : Z) : list Z := (fun b => Z.lxor b pad) <$> block.

Record hmac_sha256_ctx := mk_hmac { hmac_sha : sha256_ctx; k_opad : list Z }.

Definition hmac_sha256_init (k : list Z) : outcome hmac_sha256_ctx :=
  k ← (if (HMAC_SHA256_BLOCKSIZE <? length k)%nat then sha256 k else Ret k);
  let k_ipad := xor_block (k ++ repeat 0 (HMAC_SHA256_BLOCKSIZE - length k)) IPAD in
  sha ← sha256_update sha256_init k_ipad;
  Ret (mk_hmac sha (xor_block k_ipad (Z.lxor IPAD OPAD))).

Definition hmac_sha256_update (ctx : hmac_sha256_ctx) (p : list Z) : outcome hmac_sha256_ctx :=
  sha ← sha256_update (hmac_sha ctx) p;
  Ret (mk_hmac sha (k_opad ctx)).

Definition hmac_sha256_done (ctx : hmac_sha256_ctx) : outcome (list Z) :=
  let '(inner, _) := sha256_done (hmac_sha ctx) in
  sha ← sha256_update sha256_init (k_opad ctx);
  sha ← sha256_update sha inner;
  Ret (fst (sha256_done sha)).

Definition hmac_sha256 (k d : list Z) : outcome (list Z) :=
  ctx ← hmac_sha256_init k;
  ctx ← hmac_sha256_update ctx d;
  hmac_sha256_done ctx.

(** ** HKDF (ccan/crypto/hkdf_sha256/hkdf_sha256.c) *)

(** The loop: what is left to write, the counter, the last block; one pass for
    each 32 bytes. *)
Fixpoint hkdf_expand (fuel : nat) (okm_size : nat) (prk info t : list Z) (c : Z) : outcome (list Z) :=
  match fuel with
  | O => Crash
  | S fuel =>
    if (32 <? okm_size)%nat then
      let c := wrap_u8 (c + 1) in
      ctx ← hmac_sha256_init prk;
      ctx ← hmac_sha256_update ctx t;
      ctx ← hmac_sha256_update ctx info;
      ctx ← hmac_sha256_update ctx [c];
      next ← hmac_sha256_done ctx;
      okm ← hkdf_expand fuel (okm_size - 32) prk info next c;
      Ret (t ++ okm)
    else Ret (take okm_size t)
  end.

Definition hkdf_sha256 (okm_size : nat) (s k info : list Z) : outcome (list Z) :=
  assert_then (okm_size <? 255 * 32)%nat
    (prk ← hmac_sha256 s k;
     ctx ← hmac_sha256_init prk;
     ctx ← hmac_sha256_update ctx info;
     ctx ← hmac_sha256_update ctx [1];
     t ← hmac_sha256_done ctx;
     hkdf_expand (S okm_size) okm_size prk info t 1).
End Hkdf.

Module Rfc.
Import Fips.
Definition key_block (k : list Z) : list Z :=
  let k := if (64 <? length k)%nat then digest k else k in k ++ repeat 0 (64 - length k).
Definition hmac (k text : list Z) : list Z :=
  digest ((Z.lxor 0x5C <$> key_block k) ++ digest ((Z.lxor 0x36 <$> key_block k) ++ text)).
(** [T n], for [T(n)] of the RFC. *)
Fixpoint T (prk info : list Z) (n : nat) : list Z :=
  match n with O => [] | S n => hmac prk (T prk info n ++ info ++ [Z.of_nat (S n)]) end.
Definition hkdf (L : nat) (salt ikm info : list Z) : list Z :=
  let prk := hmac salt ikm in
  take L (concat (T prk info <$> seq 1 ((L + 31) / 32))).
End Rfc.

(** ** Theorems *)

Section HkdfFacts.
Context (alignment_ok : nat -> bool).
Notation absorbs := (absorbed Transform SHA256_INIT).

(** The context of an HMAC that was given the message [m]. *)
Record keyed (k : list Z) (ctx : hmac_sha256_ctx) (m : list Z) : Prop := {
  keyed_inner : absorbs (hmac_sha ctx) ((Z.lxor IPAD <$> Rfc.key_block k) ++ m);
  keyed_opad : k_opad ctx = Z.lxor OPAD <$> Rfc.key_block k;
}.

Lemma xor_block_lxor l pad : xor_block l pad = Z.lxor pad <$> l.
Proof. unfold xor_block. apply list_fmap_ext. intros i x _. apply Z.lxor_comm. Qed.
Lemma key_block_length k : length (Rfc.key_block k) = 64%nat.
Proof.
  unfold Rfc.key_block. rewrite length_app, repeat_length.
  destruct (Nat.ltb_spec 64 (length k)); [rewrite digest_length|]; lia.
Qed.

Lemma hmac_init_keyed k :
  Z.of_nat (length k) < 2 ^ 61 -> exists ctx, hmac_sha256_init alignment_ok k = Ret ctx /\ keyed k ctx [].
Proof.
  intros Hk. unfold hmac_sha256_init, HMAC_SHA256_BLOCKSIZE.
  assert (exists k', (if (64 <? length k)%nat then sha256 alignment_ok k else Ret k) = Ret k'
            /\ k' ++ repeat 0 (64 - length k') = Rfc.key_block k) as (k' & -> & Eb).
  { unfold Rfc.key_block. destruct (64 <? length k)%nat; [rewrite sha256_fips by done|]; by eexists. }
  cbn [mbind outcome_bind]. rewrite Eb, !xor_block_lxor.
  destruct (update_absorbs alignment_ok sha256_init [] (Z.lxor IPAD <$> Rfc.key_block k) init_absorbs) as (sha & -> & Ha).
  { rewrite length_fmap, key_block_length. cbn. lia. }
  cbn [mbind outcome_bind]. eexists. split; [done|]. split; cbn [hmac_sha k_opad]; [by rewrite app_nil_r|].
  rewrite <- list_fmap_compose. apply list_fmap_ext. intros i x _. cbn. by rewrite <- Z.lxor_assoc.
Qed.

Lemma hmac_update_keyed k ctx m p :
  keyed k ctx m -> Z.of_nat (length m + length p) < 2 ^ 61 ->
  exists ctx', hmac_sha256_update alignment_ok ctx p = Ret ctx' /\ keyed k ctx' (m ++ p).
Proof.
  intros [Ha Ho] Hlt. unfold hmac_sha256_update.
  destruct (update_absorbs alignment_ok _ _ p Ha) as (sha & -> & Ha').
  { rewrite length_app, length_fmap, key_block_length. lia. }
  eexists. split; [done|]. split; [by rewrite app_assoc|done].
Qed.

Lemma hmac_done_rfc k ctx m :
  keyed k ctx m -> Z.of_nat (length m) < 2 ^ 60 -> hmac_sha256_done alignment_ok ctx = Ret (Rfc.hmac k m).
Proof.
  intros [Ha Ho] Hlt. unfold hmac_sha256_done.
  pose proof (done_fips alignment_ok _ _ Ha) as Hd. destruct (sha256_done alignment_ok (hmac_sha ctx)) as [inner x].
  cbn [fst] in Hd. rewrite Hd, Ho by (rewrite length_app, length_fmap, key_block_length; lia).
  set (i := Fips.digest _). assert (Hi : length i = 32%nat) by apply digest_length.
  destruct (update_absorbs alignment_ok sha256_init [] (Z.lxor OPAD <$> Rfc.key_block k) init_absorbs) as (c1 & -> & Ha1).
  { rewrite length_fmap, key_block_length. cbn. lia. }
  cbn [mbind outcome_bind]. rewrite app_nil_l in Ha1. destruct (update_absorbs alignment_ok c1 _ i Ha1) as (c2 & -> & Ha2).
  { rewrite length_fmap, key_block_length. lia. }
  cbn [mbind outcome_bind]. f_equal. rewrite (done_fips alignment_ok _ _ Ha2); [done|].
  rewrite length_app, length_fmap, key_block_length. lia.
Qed.

(** A round of the expansion. *)
Lemma hmac_rounds k a b c :
  Z.of_nat (length k) < 2 ^ 61 -> Z.of_nat (length a + length b) < 2 ^ 59 ->
  (ctx ← hmac_sha256_init alignment_ok k;
   ctx ← hmac_sha256_update alignment_ok ctx a;
   ctx ← hmac_sha256_update alignment_ok ctx b;
   ctx ← hmac_sha256_update alignment_ok ctx [c];
   hmac_sha256_done alignment_ok ctx) = Ret (Rfc.hmac k (a ++ b ++ [c])).
Proof.
  intros Hk Hl. destruct (hmac_init_keyed k Hk) as (c0 & -> & K0). cbn [mbind outcome_bind].
  destruct (hmac_update_keyed k c0 [] a K0) as (c1 & -> & K1); [cbn; lia|]. cbn [mbind outcome_bind].
  destruct (hmac_update_keyed k c1 _ b K1) as (c2 & -> & K2); [cbn; lia|]. cbn [mbind outcome_bind].
  destruct (hmac_update_keyed k c2 _ [c] K2) as (c3 & -> & K3); [cbn; rewrite length_app; lia|]. cbn [mbind outcome_bind].
  cbn [app] in K3. rewrite <- app_assoc in K3. apply (hmac_done_rfc k c3 _ K3). rewrite !length_app. cbn. lia.
Qed.

Lemma T_length prk info n : length (Rfc.T prk info (S n)) = 32%nat.
Proof. cbn [Rfc.T]. unfold Rfc.hmac. apply digest_length. Qed.

Lemma expand_rfc fuel size prk info n :
  (size < fuel)%nat -> length prk = 32%nat -> Z.of_nat (length info) < 2 ^ 58 -> (n + (size + 31) / 32 <= 255)%nat ->
  hkdf_expand alignment_ok fuel size prk info (Rfc.T prk info (S n)) (Z.of_nat (S n))
  = Ret (take size (concat (Rfc.T prk info <$> seq (S n) ((size + 31) / 32)))).
Proof.
  revert size n. induction fuel as [|fuel IH]; intros size n Hf Hp Hi Hn; [lia|]. cbn [hkdf_expand].
  destruct (Nat.ltb_spec 32 size) as [Hs|Hs].
  - assert (E : ((size + 31) / 32 = S ((size - 32 + 31) / 32))%nat).
    { replace (size + 31)%nat with (1 * 32 + (size - 32 + 31))%nat by lia. by rewrite Nat.div_add_l by lia. }
    assert (Hc : wrap_u8 (Z.of_nat (S n) + 1) = Z.of_nat (S (S n))).
    { unfold wrap_u8. rewrite Z.mod_small; [lia|]. assert (1 <= (size - 32 + 31) / 32)%nat; [|lia].
      apply Nat.div_le_lower_bound; lia. }
    rewrite Hc. pose proof (hmac_rounds prk (Rfc.T prk info (S n)) info (Z.of_nat (S (S n)))) as Hr.
    rewrite T_length in Hr. specialize (Hr ltac:(lia) ltac:(lia)).
    repeat (apply bind_Ret_inv in Hr as (? & -> & Hr); cbn [mbind outcome_bind]). rewrite Hr. cbn [mbind outcome_bind].
    change (Rfc.hmac prk (Rfc.T prk info (S n) ++ info ++ [Z.of_nat (S (S n))])) with (Rfc.T prk info (S (S n))).
    rewrite IH by lia. cbn [mbind outcome_bind]. f_equal. rewrite E. change (seq (S n) (S ?x)) with (S n :: seq (S (S n)) x).
    cbn [fmap list_fmap concat]. rewrite take_app_ge by (rewrite T_length; lia). by rewrite T_length.
  - f_equal. destruct size as [|size]; [by rewrite !take_0|].
    replace ((S size + 31) / 32)%nat with 1%nat by (apply (Nat.div_unique _ _ _ size); lia).
    cbn [seq fmap list_fmap concat]. by rewrite app_nil_r.
Qed.

(** HKDF: [hkdf_sha256] gives the output keying material of RFC 5869, over
    the HMAC of RFC 2104 and the SHA-256 of FIPS 180-4, for every length its
    assertion allows. *)
Theorem hkdf_is_rfc5869 size s k info :
  (size < 255 * 32)%nat -> Z.of_nat (length s) < 2 ^ 61 -> Z.of_nat (length k) < 2 ^ 60 ->
  Z.of_nat (length info) < 2 ^ 58 ->
  hkdf_sha256 alignment_ok size s k info = Ret (Rfc.hkdf size s k info).
Proof.
  intros Hsz Hs Hk Hi. unfold hkdf_sha256. rewrite (proj2 (Nat.ltb_lt _ _) Hsz). cbn [assert_then]. unfold hmac_sha256.
  destruct (hmac_init_keyed s Hs) as (c0 & -> & K0). cbn [mbind outcome_bind].
  destruct (hmac_update_keyed s c0 [] k K0) as (c1 & -> & K1); [cbn; lia|]. cbn [mbind outcome_bind].
  rewrite (hmac_done_rfc s c1 k K1) by lia. cbn [mbind outcome_bind]. set (prk := Rfc.hmac s k).
  assert (Hp : length prk = 32%nat) by (unfold prk, Rfc.hmac; apply digest_length).
  destruct (hmac_init_keyed prk ltac:(lia)) as (d0 & -> & L0). cbn [mbind outcome_bind].
  destruct (hmac_update_keyed prk d0 [] info L0) as (d1 & -> & L1); [cbn; lia|]. cbn [mbind outcome_bind].
  destruct (hmac_update_keyed prk d1 _ [1] L1) as (d2 & -> & L2); [cbn; lia|]. cbn [mbind outcome_bind].
  rewrite (hmac_done_rfc prk d2 _ L2) by (rewrite length_app; cbn; lia). cbn [mbind outcome_bind].
  apply (expand_rfc (S size) size prk info 0); [lia|done|done|].
  assert ((size + 31) / 32 < 256)%nat; [|lia]. apply Nat.div_lt_upper_bound; lia.
Qed.
End HkdfFacts.

(** ** Examples *)

(** The first test case of RFC 5869. *)
Lemma hkdf_is_rfc5869_witness :
  hkdf_sha256 (fun _ => true) 42 [0; 1; 2; 3; 4; 5; 6; 7; 8; 9; 10; 11; 12] (repeat 0x0b 22)
    [0xf0; 0xf1; 0xf2; 0xf3; 0xf4; 0xf5; 0xf6; 0xf7; 0xf8; 0xf9]
  = Ret [0x3c; 0xb2; 0x5f; 0x25; 0xfa; 0xac; 0xd5; 0x7a; 0x90; 0x43; 0x4f; 0x64; 0xd0; 0x36; 0x2f; 0x2a;
         0x2d; 0x2d; 0x0a; 0x90; 0xcf; 0x1a; 0x5a; 0x4c; 0x5d; 0xb0; 0x2d; 0x56; 0xec; 0xc4; 0xc5; 0xbf;
         0x34; 0x00; 0x72; 0x08; 0xd5; 0xb8; 0x87; 0x18; 0x58; 0x65].
Proof. rewrite (hkdf_is_rfc5869 (fun _ => true)) by (cbn; lia). vm_compute. reflexivity. Defined.
