(* ===== verification/Shachain.v ===== *)
(** * Revocation secrets (ccan/crypto/shachain, the shachain functions of
    common/derive_basepoints.c and .h)

    A node hands out one secret per revoked commitment, from index
    2^[SHACHAIN_BITS]-1 downwards, and a peer keeps them all in
    [SHACHAIN_BITS]+1 entries: an entry stands for every index that differs
    from its own only below its lowest set bit.  [SHACHAIN_BITS] is the macro
    (48 in this build) and SHA256 an argument; hashes are 32-byte strings. *)

From stdpp Require Import list.
From S2P Require Import Prelude.
Local Open Scope Z_scope.

(** *** Definitions *)

Record shachain := mk_shachain {
  min_index : Z;
  num_valid : nat;
  known : list (Z * list Z);
}.

Definition change_bit (arr : list Z) (index : Z) : list Z :=
  alter (fun b => Z.lxor b (Z.shiftl 1 (index mod 8))) (Z.to_nat (index / 8)) arr.

(** The bits a positive number takes; 0 for 0. *)
Definition ilog64 (v : Z) : Z := if v =? 0 then 0 else Z.log2 v + 1.

Section Bits.
Context (sha256 : list Z -> list Z) (SHACHAIN_BITS : nat).

Fixpoint ctz_from (n : nat) (i : Z) (index : Z) : Z :=
  match n with
  | O => i
  | S n => if Z.testbit index i then i else ctz_from n (i + 1) index
  end.
Definition count_trailing_zeroes (index : Z) : Z := ctz_from SHACHAIN_BITS 0 index.

Definition can_derive (from to : Z) : bool :=
  if from =? 0 then true
  else
    let mask := wrap_u64 (Z.lnot (Z.shiftl 1 (count_trailing_zeroes from) - 1)) in
    Z.land (Z.lxor from to) mask =? 0.

(** The loop of [derive], bit [n]-1 first. *)
Fixpoint derive_bits (n : nat) (branches : Z) (hash : list Z) : list Z :=
  match n with
  | O => hash
  | S n =>
    derive_bits n branches
      (if Z.testbit branches (Z.of_nat n) then sha256 (change_bit hash (Z.of_nat n)) else hash)
  end.
Definition derive (from to : Z) (from_hash : list Z) : outcome (list Z) :=
  assert_then (can_derive from to)
    (let branches := Z.lxor from to in Ret (derive_bits (Z.to_nat (ilog64 branches)) branches from_hash)).

Definition shachain_from_seed (seed : list Z) (index : Z) : outcome (list Z) := derive 0 index seed.

Definition shachain_next_index (chain : shachain) : Z := wrap_u64 (min_index chain - 1).

(** [known] keeps whatever the memory held. *)
Definition shachain_init (chain : shachain) : shachain :=
  mk_shachain (wrap_u64 (Z.shiftr UINT64_MAX (64 - Z.of_nat SHACHAIN_BITS) + 1)) 0 (known chain).

(** The test of [shachain_add_hash]: entries [0] to [n]-1 derive from the new
    one.  Reading past the end of [known] is an invalid access. *)
Fixpoint derive_as_expected (n : nat) (i : nat) (chain : shachain) (index : Z) (hash : list Z)
  : outcome bool :=
  match n with
  | O => Ret true
  | S n =>
    match known chain !! i with
    | None => Crash
    | Some (k, h) =>
      expect ← derive index k hash;
      if bool_decide (expect = h) then derive_as_expected n (S i) chain index hash else Ret false
    end
  end.

(** [None] is a false return, which leaves the chain as it was. *)
Definition shachain_add_hash (chain : shachain) (index : Z) (hash : list Z) : outcome (option shachain) :=
  assert_then (index =? shachain_next_index chain)
    (let pos := Z.to_nat (count_trailing_zeroes index) in
     ok ← derive_as_expected pos 0 chain index hash;
     if negb ok then Ret None
     else if (pos <? length (known chain))%nat
     then Ret (Some (mk_shachain index (Nat.max (num_valid chain) (pos + 1))
                       (<[pos := (index, hash)]> (known chain))))
     else Crash).

Fixpoint get_hash_from (n i : nat) (chain : shachain) (index : Z) : outcome (option (list Z)) :=
  match n with
  | O => Ret None
  | S n =>
    match known chain !! i with
    | None => Crash
    | Some (k, h) =>
      if negb (can_derive k index) then get_hash_from n (S i) chain index
      else Some <$> derive k index h
    end
  end.
Definition shachain_get_hash (chain : shachain) (index : Z) : outcome (option (list Z)) :=
  get_hash_from (num_valid chain) 0 chain index.

(** common/derive_basepoints: commitment [n] uses index 2^[SHACHAIN_BITS]-1-[n]. *)
Definition shachain_index (per_commit_index : Z) : outcome Z :=
  assert_then (per_commit_index <? Z.shiftl 1 (Z.of_nat SHACHAIN_BITS))
    (Ret (Z.shiftl 1 (Z.of_nat SHACHAIN_BITS) - 1 - per_commit_index)).
Definition revocations_received (chain : shachain) : Z :=
  wrap_u64 (Z.shiftl 1 (Z.of_nat SHACHAIN_BITS) - wrap_u64 (shachain_next_index chain + 1)).
Definition per_commit_secret (shaseed : list Z) (per_commit_index : Z) : outcome (option (list Z)) :=
  if Z.shiftl 1 (Z.of_nat SHACHAIN_BITS) <=? per_commit_index then Ret None
  else i ← shachain_index per_commit_index; Some <$> shachain_from_seed shaseed i.
Definition shachain_get_secret (chain : shachain) (commit_num : Z) : outcome (option (list Z)) :=
  if Z.shiftl 1 (Z.of_nat SHACHAIN_BITS) <=? commit_num then Ret None
  else i ← shachain_index commit_num; shachain_get_hash chain i.
End Bits.

(** *** Lemmas: bits and derivation *)

Lemma mod_pow2_bits x c : 0 <= c -> (forall j, 0 <= j < c -> Z.testbit x j = false) -> x mod 2 ^ c = 0.
Proof.
  intros Hc H. apply Z.bits_inj_0. intros j. destruct (Z.lt_ge_cases j 0); [by apply Z.testbit_neg_r|].
  destruct (Z.lt_ge_cases j c); [rewrite Z.mod_pow2_bits_low by lia; apply H; lia|].
  by rewrite Z.mod_pow2_bits_high by lia.
Qed.

(** The bits of a sum whose two parts do not overlap. *)
Lemma testbit_split k d1 d2 i :
  0 <= k -> d1 mod 2 ^ k = 0 -> 0 <= d2 < 2 ^ k -> 0 <= i ->
  Z.testbit (d1 + d2) i = if i <? k then Z.testbit d2 i else Z.testbit d1 i.
Proof.
  intros Hk H1 H2 Hi. destruct (Z.ltb_spec i k).
  - rewrite <- (Z.mod_pow2_bits_low (d1 + d2) k) by lia.
    rewrite Zplus_mod, H1, Z.add_0_l, Z.mod_mod, Z.mod_small by lia. done.
  - apply Z.mod_divide in H1 as [q ->]; [|lia].
    rewrite <- (Z.sub_add k i) at 1. rewrite <- (Z.div_pow2_bits _ k) by lia.
    rewrite Z.div_add_l, Z.div_small, Z.add_0_r by lia.
    rewrite <- (Z.sub_add k i) at 2. by rewrite <- Z.div_pow2_bits, Z.div_mul by lia.
Qed.

Lemma testbit_low k d i : d mod 2 ^ k = 0 -> 0 <= i < k -> Z.testbit d i = false.
Proof. intros H Hi. rewrite <- (Z.mod_pow2_bits_low d k) by lia. by rewrite H, Z.bits_0. Qed.

Lemma testbit_high k d i : 0 <= d < 2 ^ k -> 0 <= k <= i -> Z.testbit d i = false.
Proof. intros H Hi. rewrite <- (Z.mod_small d (2 ^ k)) by lia. by apply Z.mod_pow2_bits_high. Qed.

Lemma mask_testbit c j : 0 <= c -> 0 <= j < 64 ->
  Z.testbit (wrap_u64 (Z.lnot (Z.shiftl 1 c - 1))) j = (c <=? j).
Proof.
  intros Hc Hj. unfold wrap_u64. change 18446744073709551616 with (2 ^ 64).
  rewrite Z.mod_pow2_bits_low, Z.lnot_spec by lia.
  rewrite Z.shiftl_1_l. change (2 ^ c - 1) with (Z.pred (2 ^ c)). rewrite <- Z.ones_equiv.
  rewrite Z.testbit_ones_nonneg by lia. lia.
Qed.

Lemma mask_testbit_high c j : 64 <= j -> Z.testbit (wrap_u64 (Z.lnot (Z.shiftl 1 c - 1))) j = false.
Proof. intros Hj. unfold wrap_u64. by apply (Z.mod_pow2_bits_high _ 64). Qed.

(** The multiples of a power of two have it as a factor of their distance. *)
Lemma multiples_apart x y k : 0 <= k -> x mod 2 ^ k = 0 -> y mod 2 ^ k = 0 -> x < y -> x + 2 ^ k <= y.
Proof.
  intros Hk Hx Hy Hlt. apply Z.mod_divide in Hx as [a ->]; [|lia].
  apply Z.mod_divide in Hy as [b ->]; [|lia]. assert (0 < 2 ^ k) by lia.
  apply Z.mul_lt_mono_pos_r in Hlt; [|done]. nia.
Qed.

Section Derivation.
Context (sha256 : list Z -> list Z).

Lemma derive_bits_ext n d d' h :
  (forall i, 0 <= i < Z.of_nat n -> Z.testbit d i = Z.testbit d' i) ->
  derive_bits sha256 n d h = derive_bits sha256 n d' h.
Proof.
  revert h; induction n as [|n IH]; intros h H; cbn [derive_bits]; [done|].
  rewrite H by lia. apply IH. intros i Hi. apply H. lia.
Qed.

Lemma derive_bits_0 n h : derive_bits sha256 n 0 h = h.
Proof. induction n as [|n IH]; cbn [derive_bits]; [done|]. by rewrite Z.bits_0. Qed.

Lemma derive_bits_low n k d h :
  d mod 2 ^ k = 0 -> Z.of_nat n <= k -> derive_bits sha256 n d h = h.
Proof.
  intros Hd Hn. rewrite (derive_bits_ext n d 0); [apply derive_bits_0|].
  intros i Hi. rewrite Z.bits_0. apply (testbit_low k); [done|lia].
Qed.

Lemma derive_bits_compose n k d1 d2 h :
  0 <= k -> d1 mod 2 ^ k = 0 -> 0 <= d2 < 2 ^ k ->
  derive_bits sha256 n (d1 + d2) h = derive_bits sha256 n d2 (derive_bits sha256 n d1 h).
Proof.
  intros Hk H1 H2. revert h; induction n as [|n IH]; intros h; [done|].
  destruct (Z.le_gt_cases k (Z.of_nat n)).
  - cbn [derive_bits]. rewrite (testbit_split k) by (done || lia).
    rewrite (proj2 (Z.ltb_ge _ _)) by lia. rewrite IH.
    by rewrite (testbit_high k d2) by lia.
  - rewrite (derive_bits_low (S n) k d1) by (done || lia). apply derive_bits_ext.
    intros i Hi. rewrite (testbit_split k) by (done || lia). by rewrite (proj2 (Z.ltb_lt _ _)) by lia.
Qed.

(** Bits above the number are not there. *)
Lemma derive_bits_ilog n d h :
  0 <= d < 2 ^ Z.of_nat n ->
  derive_bits sha256 (Z.to_nat (ilog64 d)) d h = derive_bits sha256 n d h.
Proof.
  unfold ilog64. destruct (Z.eqb_spec d 0) as [->|Hd]; [intros _; by rewrite !derive_bits_0|].
  intros Hr. assert (Hl : Z.log2 d < Z.of_nat n) by (apply Z.log2_lt_pow2; lia).
  pose proof (Z.log2_nonneg d). destruct (Z.log2_spec d) as [_ Hs]; [lia|].
  induction n as [|n IH]; [lia|]. destruct (decide (Z.log2 d + 1 = Z.of_nat (S n))) as [E|E].
  { by rewrite E, Nat2Z.id. }
  assert (d < 2 ^ Z.of_nat n).
  { eapply Z.lt_le_trans; [exact Hs|]. apply Z.pow_le_mono_r; lia. }
  cbn [derive_bits]. rewrite (testbit_high (Z.of_nat n) d) by lia. apply IH; lia.
Qed.
End Derivation.

Section Ctz.
#[local] Set Default Proof Using "Type*".
Context (BITS : nat).
Notation B := (Z.of_nat BITS).
Notation ctz := (count_trailing_zeroes BITS).

Lemma ctz_from_spec n i x :
  0 <= i -> (forall j, 0 <= j < i -> Z.testbit x j = false) ->
  let c := ctz_from n i x in
  i <= c <= i + Z.of_nat n /\ (forall j, 0 <= j < c -> Z.testbit x j = false)
  /\ (c = i + Z.of_nat n \/ Z.testbit x c = true).
Proof.
  revert i; induction n as [|n IH]; intros i Hi Hz; cbn [ctz_from].
  - split_and!; [lia|lia|done|left; lia].
  - destruct (Z.testbit x i) eqn:E; [split_and!; [lia|lia|done|by right]|].
    destruct (IH (i + 1)) as (H1 & H2 & H3); [lia| |split_and!; [lia|lia|done|]].
    + intros j Hj. destruct (decide (j = i)) as [->|]; [done|apply Hz; lia].
    + destruct H3; [left; lia|by right].
Qed.

(** Trailing zeroes, in arithmetic. *)
Lemma ctz_spec x : 0 <= x < 2 ^ B ->
  0 <= ctz x <= B /\ x mod 2 ^ ctz x = 0
  /\ (x = 0 /\ ctz x = B \/ exists q, ctz x < B /\ 0 <= q /\ x = 2 ^ ctz x * (2 * q + 1)).
Proof.
  intros Hx. destruct (ctz_from_spec BITS 0 x) as (H1 & H2 & H3); [lia|lia|].
  fold (ctz x) in *. rewrite Z.add_0_l in *.
  assert (Hm : x mod 2 ^ ctz x = 0) by (apply mod_pow2_bits; [lia|done]).
  split_and!; [lia|lia|done|]. destruct (decide (ctz x = B)) as [E|E].
  - left. split; [|done]. rewrite E, Z.mod_small in Hm by lia. done.
  - right. destruct H3 as [H3|H3]; [lia|]. apply Z.testbit_true in H3; [|lia].
    exists (x / 2 ^ ctz x / 2). split_and!; [lia| |].
    + apply Z.div_pos; [apply Z.div_pos; lia|lia].
    + pose proof (Z.div_mod (x / 2 ^ ctz x) 2 ltac:(lia)).
      pose proof (Z.div_mod x (2 ^ ctz x) ltac:(lia)). congruence || nia.
Qed.

Context (Hbits : (BITS <= 63)%nat).

(** [to] is [from] with bits set below the lowest set bit of [from]. *)
Lemma can_derive_spec from to : 0 <= from < 2 ^ B -> 0 <= to < 2 ^ B ->
  can_derive BITS from to = true <-> from <= to < from + 2 ^ ctz from.
Proof.
  intros Hf Ht. destruct (ctz_spec from Hf) as (Hc & Hm & Hcase). unfold can_derive.
  destruct (Z.eqb_spec from 0) as [->|Hnz].
  { destruct Hcase as [[_ ->]|(q & ? & ? & E)]; [lia|nia]. }
  assert (Hpow : 2 ^ B < 2 ^ 64) by (apply Z.pow_lt_mono_r; lia).
  set (c := ctz from) in *. rewrite Z.eqb_eq. split.
  - intros Hland. assert (Hd : from / 2 ^ c = to / 2 ^ c).
    { apply Z.bits_inj'. intros j Hj. rewrite !Z.div_pow2_bits by lia.
      destruct (Z.lt_ge_cases (j + c) 64).
      - assert (Hb : Z.testbit (Z.land (Z.lxor from to) (wrap_u64 (Z.lnot (Z.shiftl 1 c - 1)))) (j + c) = false)
          by (by rewrite Hland, Z.bits_0).
        rewrite Z.land_spec, mask_testbit, (proj2 (Z.leb_le _ _)), andb_true_r, Z.lxor_spec in Hb by lia.
        by apply xorb_eq.
      - by rewrite !(testbit_high 64) by lia. }
    pose proof (Z.div_mod to (2 ^ c) ltac:(lia)). pose proof (Z.div_mod from (2 ^ c) ltac:(lia)).
    pose proof (Z.mod_pos_bound to (2 ^ c) ltac:(lia)). rewrite Hd in *. lia.
  - intros Hr. apply Z.bits_inj_0. intros j. destruct (Z.lt_ge_cases j 0); [by apply Z.testbit_neg_r|].
    rewrite Z.land_spec. destruct (Z.lt_ge_cases j 64); [|by rewrite mask_testbit_high, andb_false_r by lia].
    rewrite mask_testbit, Z.lxor_spec by lia. destruct (Z.leb_spec c j); [|apply andb_false_r].
    rewrite andb_true_r. replace to with (from + (to - from)) by lia.
    rewrite (testbit_split c), (proj2 (Z.ltb_ge _ _)) by lia. apply xorb_nilpotent.
Qed.

Context (sha256 : list Z -> list Z).

(** The hash of [to], from that of [from]. *)
Definition chain_to (from to : Z) (h : list Z) : list Z := derive_bits sha256 BITS (to - from) h.

Lemma derive_spec from to h : 0 <= from < 2 ^ B -> 0 <= to < 2 ^ B ->
  from <= to < from + 2 ^ ctz from -> derive sha256 BITS from to h = Ret (chain_to from to h).
Proof.
  intros Hf Ht Hr. unfold derive. rewrite (proj2 (can_derive_spec from to Hf Ht) Hr). cbn -[derive_bits].
  destruct (ctz_spec from Hf) as (Hc & Hm & _).
  assert (E : Z.lxor from to = to - from).
  { apply Z.bits_inj'. intros j Hj. rewrite Z.lxor_spec. replace to with (from + (to - from)) at 1 by lia.
    rewrite (testbit_split (ctz from)) by lia. destruct (Z.ltb_spec j (ctz from)).
    - by rewrite (testbit_low (ctz from) from) by lia.
    - rewrite xorb_nilpotent. symmetry. apply (testbit_high (ctz from)); lia. }
  rewrite E. unfold chain_to. f_equal. apply derive_bits_ilog. lia.
Qed.

Lemma chain_to_refl x h : chain_to x x h = h.
Proof. unfold chain_to. rewrite Z.sub_diag. apply derive_bits_0. Qed.

(** Deriving in two steps. *)
Lemma chain_to_trans a b c h :
  0 <= b < 2 ^ B -> a mod 2 ^ ctz b = 0 -> b <= c < b + 2 ^ ctz b ->
  chain_to a c h = chain_to b c (chain_to a b h).
Proof.
  intros Hb Ha Hc. unfold chain_to. destruct (ctz_spec b Hb) as (? & Hm & _).
  replace (c - a) with ((b - a) + (c - b)) by lia. apply (derive_bits_compose _ _ (ctz b)); [lia| |lia].
  rewrite Zminus_mod, Hm, Ha. done.
Qed.

Lemma ctz_ge x k : 0 <= x < 2 ^ B -> 0 <= k <= B -> x mod 2 ^ k = 0 -> k <= ctz x.
Proof.
  intros Hx Hk Hm. destruct (ctz_spec x Hx) as (Hc & _ & [[-> ->]|(q & Hlt & Hq & E)]); [lia|].
  destruct (Z.le_gt_cases k (ctz x)) as [|Hgt]; [done|exfalso].
  assert (Hdiv : (2 ^ (ctz x + 1) | x)).
  { apply Z.divide_trans with (2 ^ k); [|apply Z.mod_divide; lia].
    exists (2 ^ (k - (ctz x + 1))). rewrite <- Z.pow_add_r by lia. f_equal. lia. }
  destruct Hdiv as [r Hr]. rewrite Z.pow_add_r in Hr by lia. change (2 ^ 1) with 2 in Hr.
  assert (0 < 2 ^ ctz x) by lia. assert (2 * q + 1 = 2 * r) by nia. lia.
Qed.

Lemma ctz_multiple x k : 0 <= x < 2 ^ B -> 0 <= k <= ctz x -> x mod 2 ^ k = 0.
Proof.
  intros Hx Hk. destruct (ctz_spec x Hx) as (_ & Hm & _). apply Z.mod_divide; [lia|].
  apply Z.divide_trans with (2 ^ ctz x); [|apply Z.mod_divide; lia].
  exists (2 ^ (ctz x - k)). rewrite <- Z.pow_add_r by lia. f_equal. lia.
Qed.

(** Setting one bit below the lowest set one. *)
Lemma ctz_set x i : 0 <= x < 2 ^ B -> 0 <= i < ctz x -> 0 <= x + 2 ^ i < 2 ^ B /\ ctz (x + 2 ^ i) = i.
Proof.
  intros Hx Hi. destruct (ctz_spec x Hx) as (Hc & Hm & _).
  assert (Hp : 2 ^ i < 2 ^ ctz x) by (apply Z.pow_lt_mono_r; lia).
  assert (Hub : x + 2 ^ ctz x <= 2 ^ B).
  { apply multiples_apart; [lia|done| |lia]. apply Z.mod_divide; [lia|].
    exists (2 ^ (B - ctz x)). rewrite <- Z.pow_add_r by lia. f_equal. lia. }
  assert (Hr : 0 <= x + 2 ^ i < 2 ^ B) by lia. split; [done|]. apply Z.le_antisymm.
  - destruct (Z.le_gt_cases (ctz (x + 2 ^ i)) i) as [|Hgt]; [done|exfalso].
    assert (H1 : (x + 2 ^ i) mod 2 ^ (i + 1) = 0) by (apply ctz_multiple; lia).
    assert (H2 : x mod 2 ^ (i + 1) = 0) by (apply ctz_multiple; lia).
    pose proof (multiples_apart x (x + 2 ^ i) (i + 1) ltac:(lia) H2 H1 ltac:(lia)) as H3.
    rewrite Z.pow_add_r in H3 by lia. lia.
  - apply ctz_ge; [done|lia|]. rewrite Zplus_mod, (ctz_multiple x i), Z_mod_same_full by lia. done.
Qed.

(** Every index has an entry to derive it from: the last one of its kind that
    was added, for some kind. *)
Lemma covered m j : 0 <= m <= j -> j < 2 ^ B ->
  exists x, m <= x <= j /\ j < x + 2 ^ ctz x /\ forall y, m <= y < x -> ctz y <> ctz x.
Proof.
  intros Hm Hj. cut (forall x, 0 <= x -> m <= x <= j -> j < x + 2 ^ ctz x ->
    exists x, m <= x <= j /\ j < x + 2 ^ ctz x /\ forall y, m <= y < x -> ctz y <> ctz x).
  { intros H. destruct (ctz_spec j ltac:(lia)) as [? _].
    assert (0 < 2 ^ ctz j) by lia. apply (H j); lia. }
  intros x. induction (Z.lt_wf 0 x) as [x _ IH]. intros Hx0 Hxj Hjx.
  assert (Hr : 0 <= x < 2 ^ B) by lia. destruct (ctz_spec x Hr) as (Hc & Hxm & Hcase).
  destruct (Z.lt_ge_cases (x - 2 ^ ctz x) m) as [Hlt|Hge].
  - exists x. split_and!; [lia|lia|done|]. intros y Hy E.
    assert (Hym : y mod 2 ^ ctz x = 0) by (rewrite <- E; apply ctz_spec; lia).
    pose proof (multiples_apart y x (ctz x)). lia.
  - destruct Hcase as [[-> E]|(q & Hcb & Hq & E)]; [lia|].
    assert (Hge' : ctz x + 1 <= ctz (x - 2 ^ ctz x)).
    { apply ctz_ge; [lia|lia|]. apply Z.mod_divide; [lia|]. exists q. rewrite Z.pow_add_r by lia. lia. }
    assert (2 ^ (ctz x + 1) <= 2 ^ ctz (x - 2 ^ ctz x)) by (apply Z.pow_le_mono_r; lia).
    rewrite Z.pow_add_r in * by lia. apply (IH (x - 2 ^ ctz x)); lia.
Qed.

(** *** The invariant of a chain, for the hashes [v] added so far *)

Record chain_ok (v : Z -> list Z) (chain : shachain) : Prop := {
  ok_min : 0 <= min_index chain <= 2 ^ B;
  ok_len : length (known chain) = S BITS;
  ok_entry (i : nat) : (i < num_valid chain)%nat ->
    exists x, known chain !! i = Some (x, v x) /\ min_index chain <= x < 2 ^ B /\ ctz x = Z.of_nat i
      /\ forall y, min_index chain <= y < x -> ctz y <> ctz x;
  ok_kind y : min_index chain <= y < 2 ^ B -> ctz y < Z.of_nat (num_valid chain);
  ok_derive (i : nat) x h j : (i < num_valid chain)%nat -> known chain !! i = Some (x, h) ->
    min_index chain <= j < 2 ^ B -> x <= j < x + 2 ^ ctz x -> chain_to x j h = v j;
}.

(** The entry of each kind is the last of that kind. *)
Lemma ok_entry_at v chain x :
  chain_ok v chain -> min_index chain <= x < 2 ^ B ->
  (forall y, min_index chain <= y < x -> ctz y <> ctz x) ->
  known chain !! Z.to_nat (ctz x) = Some (x, v x) /\ (Z.to_nat (ctz x) < num_valid chain)%nat.
Proof.
  intros Hok Hx Hmin. pose proof (ok_min _ _ Hok). pose proof (ok_kind _ _ Hok x Hx) as Hk.
  destruct (ctz_spec x ltac:(lia)) as [Hc _]. split; [|lia].
  destruct (ok_entry _ _ Hok (Z.to_nat (ctz x)) ltac:(lia)) as (x' & E & Hx' & Hc' & Hmin').
  rewrite Z2Nat.id in Hc' by lia. destruct (Z.lt_trichotomy x x') as [?|[->|?]]; [|done|].
  - by destruct (Hmin' x ltac:(lia)).
  - by destruct (Hmin x' ltac:(lia)).
Qed.

Lemma get_hash_from_spec n i v chain j :
  chain_ok v chain -> min_index chain <= j < 2 ^ B -> (i + n = num_valid chain)%nat ->
  (exists k x, (i <= k < i + n)%nat /\ known chain !! k = Some (x, v x)
      /\ min_index chain <= x < 2 ^ B /\ x <= j < x + 2 ^ ctz x) ->
  get_hash_from sha256 BITS n i chain j = Ret (Some (v j)).
Proof.
  intros Hok Hj. pose proof (ok_min _ _ Hok). revert i; induction n as [|n IH]; intros i Hn (k & x & Hk & Ek & Hx & Hd).
  { lia. }
  cbn [get_hash_from]. destruct (ok_entry _ _ Hok i ltac:(lia)) as (y & Ey & Hy & Hc & _). rewrite Ey.
  destruct (can_derive BITS y j) eqn:E; cbn [negb].
  - rewrite can_derive_spec in E by lia. rewrite derive_spec by lia. cbn.
    rewrite (ok_derive _ _ Hok i y _ j) by (done || lia). done.
  - apply IH; [lia|]. exists k, x. split_and!; try done; try lia.
    destruct (decide (k = i)) as [->|]; [|lia]. rewrite Ey in Ek. simplify_eq.
    rewrite (proj2 (can_derive_spec x j ltac:(lia) ltac:(lia)) Hd) in E. done.
Qed.

Lemma get_hash_ok v chain j :
  chain_ok v chain -> min_index chain <= j < 2 ^ B ->
  shachain_get_hash sha256 BITS chain j = Ret (Some (v j)).
Proof.
  intros Hok Hj. pose proof (ok_min _ _ Hok). apply (get_hash_from_spec _ _ v); [done|done|lia|].
  destruct (covered (min_index chain) j) as (x & Hx & Hd & Hmin); [lia|lia|].
  destruct (ok_entry_at _ _ x Hok ltac:(lia) Hmin) as [E Hlt].
  exists (Z.to_nat (ctz x)), x. split_and!; try done; lia.
Qed.

(** An index below them all cannot be derived. *)
Lemma get_hash_missing v chain j :
  chain_ok v chain -> 0 <= j < min_index chain ->
  shachain_get_hash sha256 BITS chain j = Ret None.
Proof.
  intros Hok Hj. pose proof (ok_min _ _ Hok). unfold shachain_get_hash.
  assert (Hn : (0 + num_valid chain = num_valid chain)%nat) by lia. revert Hn.
  generalize (num_valid chain) at 1 3 as n, 0%nat as i. induction n as [|n IH]; intros i Hn; [done|].
  cbn [get_hash_from]. destruct (ok_entry _ _ Hok i ltac:(lia)) as (y & Ey & Hy & _). rewrite Ey.
  destruct (can_derive BITS y j) eqn:E; cbn [negb].
  - rewrite can_derive_spec in E by lia. lia.
  - apply IH. lia.
Qed.

(** *** Adding the next hash *)

Definition learn (v : Z -> list Z) (index : Z) (hash : list Z) (j : Z) : list Z :=
  if j =? index then hash else v j.

(** The entries an index can derive hold the indices it can reach by one bit. *)
Lemma entry_below v chain index i :
  chain_ok v chain -> 0 <= index -> index = min_index chain - 1 -> 0 <= i < ctz index ->
  known chain !! Z.to_nat i = Some (index + 2 ^ i, v (index + 2 ^ i))
  /\ (Z.to_nat i < num_valid chain)%nat.
Proof.
  intros Hok H0 Hi Hlt. pose proof (ok_min _ _ Hok).
  destruct (ctz_set index i ltac:(lia) Hlt) as [Hr Hc]. assert (0 < 2 ^ i) by lia.
  destruct (ok_entry_at _ _ (index + 2 ^ i) Hok ltac:(lia)) as [E Hn]; [|by rewrite Hc in *].
  rewrite Hc. intros y Hy Hyi.
  assert (y mod 2 ^ i = 0) by (rewrite <- Hyi; apply ctz_spec; lia).
  assert (index mod 2 ^ i = 0) by (apply ctz_multiple; lia).
  pose proof (multiples_apart index y i). lia.
Qed.

Lemma derive_as_expected_spec n i v chain index hash :
  chain_ok v chain -> 0 <= index -> index = min_index chain - 1 ->
  Z.of_nat (i + n) = ctz index ->
  exists b, derive_as_expected sha256 BITS n i chain index hash = Ret b
    /\ (b = true <-> forall k, Z.of_nat i <= k < ctz index ->
                     chain_to index (index + 2 ^ k) hash = v (index + 2 ^ k)).
Proof.
  intros Hok H0 Hi. pose proof (ok_min _ _ Hok). revert i; induction n as [|n IH]; intros i Hn; cbn [derive_as_expected].
  { exists true. split; [done|]. split; [lia|done]. }
  destruct (entry_below v chain index (Z.of_nat i) Hok H0 Hi ltac:(lia)) as [E _].
  rewrite Nat2Z.id in E. rewrite E.
  destruct (ctz_set index (Z.of_nat i) ltac:(lia) ltac:(lia)) as [Hr _].
  assert (2 ^ Z.of_nat i < 2 ^ ctz index) by (apply Z.pow_lt_mono_r; lia).
  rewrite derive_spec by lia. cbn [mbind outcome_bind].
  case_bool_decide as Hb.
  - destruct (IH (S i) ltac:(lia)) as (b & -> & Hiff). exists b. split; [done|]. rewrite Hiff. split.
    + intros Hall k Hk. destruct (decide (k = Z.of_nat i)) as [->|]; [done|]. apply Hall. lia.
    + intros Hall k Hk. apply Hall. lia.
  - exists false. split; [done|]. split; [done|]. intros Hall. destruct Hb. apply Hall. lia.
Qed.

(** What the new entry derives is what was added. *)
Lemma new_entry_derives v chain index hash j :
  chain_ok v chain -> 0 <= index -> index = min_index chain - 1 ->
  (forall k, 0 <= k < ctz index -> chain_to index (index + 2 ^ k) hash = v (index + 2 ^ k)) ->
  index < j < index + 2 ^ ctz index -> j < 2 ^ B -> chain_to index j hash = v j.
Proof.
  intros Hok H0 Hi Hexp Hj Hjb. pose proof (ok_min _ _ Hok).
  destruct (ctz_spec index ltac:(lia)) as (Hci & Him & _).
  destruct (covered (min_index chain) j) as (x & Hx & Hd & Hmin); [lia|lia|].
  destruct (ctz_spec x ltac:(lia)) as (Hcx & Hxm & _).
  assert (Hlt : ctz x < ctz index).
  { destruct (Z.lt_ge_cases (ctz x) (ctz index)); [done|exfalso].
    assert (x mod 2 ^ ctz index = 0) by (apply ctz_multiple; lia).
    pose proof (multiples_apart index x (ctz index)). lia. }
  destruct (ok_entry_at _ _ x Hok ltac:(lia) Hmin) as [E Hn].
  destruct (entry_below v chain index (ctz x) Hok H0 Hi ltac:(lia)) as [E' _].
  rewrite E in E'. injection E' as Ex Ev.
  rewrite (chain_to_trans index x j) by (try lia; apply ctz_multiple; lia).
  rewrite Ex at 2. rewrite Hexp, <- Ex by lia. apply (ok_derive _ _ Hok (Z.to_nat (ctz x))); [done|done|lia|lia].
Qed.

Lemma add_hash_keeps v chain index hash :
  chain_ok v chain -> 0 <= index -> index = min_index chain - 1 ->
  (forall k, 0 <= k < ctz index -> chain_to index (index + 2 ^ k) hash = v (index + 2 ^ k)) ->
  chain_ok (learn v index hash)
    (mk_shachain index (Nat.max (num_valid chain) (Z.to_nat (ctz index) + 1))
       (<[Z.to_nat (ctz index) := (index, hash)]> (known chain))).
Proof.
  intros Hok H0 Hi Hexp. pose proof (ok_min _ _ Hok). pose proof (ok_len _ _ Hok).
  destruct (ctz_spec index ltac:(lia)) as (Hci & Him & _).
  assert (Hpos : (Z.to_nat (ctz index) <= num_valid chain)%nat).
  { destruct (decide (ctz index = 0)); [lia|].
    destruct (entry_below v chain index (ctz index - 1) Hok H0 Hi ltac:(lia)). lia. }
  assert (Hold : forall i, i <> Z.to_nat (ctz index) ->
            (i < Nat.max (num_valid chain) (Z.to_nat (ctz index) + 1))%nat -> (i < num_valid chain)%nat) by lia.
  split; cbn.
  - lia.
  - by rewrite length_insert.
  - intros i Hi'. destruct (decide (i = Z.to_nat (ctz index))) as [->|Hne].
    + exists index. rewrite list_lookup_insert_eq by lia. unfold learn. rewrite Z.eqb_refl.
      split_and!; [done|lia|lia|lia|lia].
    + destruct (ok_entry _ _ Hok i (Hold i Hne Hi')) as (x & E & Hx & Hc & Hmin).
      exists x. rewrite list_lookup_insert_ne by done. unfold learn. rewrite (proj2 (Z.eqb_neq x index)) by lia.
      split_and!; [done|lia|lia|done|]. intros y Hy. destruct (decide (y = index)) as [->|]; [lia|apply Hmin; lia].
  - intros y Hy. destruct (decide (y = index)) as [->|]; [lia|].
    pose proof (ok_kind _ _ Hok y ltac:(lia)). lia.
  - intros i x h j Hi' E Hj Hd. unfold learn. destruct (decide (i = Z.to_nat (ctz index))) as [->|Hne].
    + rewrite list_lookup_insert_eq in E by lia. injection E as <- <-.
      destruct (Z.eqb_spec j index) as [->|]; [apply chain_to_refl|].
      apply (new_entry_derives v chain); try done; lia.
    + rewrite list_lookup_insert_ne in E by done. pose proof (Hold i Hne Hi') as Hlt.
      destruct (ok_entry _ _ Hok i Hlt) as (x' & E' & Hx & _). rewrite E in E'. simplify_eq.
      rewrite (proj2 (Z.eqb_neq j (min_index chain - 1))) by lia. apply (ok_derive _ _ Hok i); [done|done|lia|lia].
Qed.

(** [shachain_add_hash] on the next index: it never fails an assertion, and it
    succeeds exactly when what was added before derives from the new hash. *)
Lemma add_hash_spec v chain hash :
  chain_ok v chain -> 0 < min_index chain ->
  let index := min_index chain - 1 in
  exists r, shachain_add_hash sha256 BITS chain (shachain_next_index chain) hash = Ret r
    /\ (is_Some r <-> forall k, 0 <= k < ctz index -> chain_to index (index + 2 ^ k) hash = v (index + 2 ^ k))
    /\ forall chain', r = Some chain' -> min_index chain' = index /\ chain_ok (learn v index hash) chain'.
Proof.
  intros Hok Hpos index. pose proof (ok_min _ _ Hok). pose proof (ok_len _ _ Hok).
  assert (2 ^ B < 2 ^ 64) by (apply Z.pow_lt_mono_r; lia).
  assert (Hnext : shachain_next_index chain = index) by (apply Z.mod_small; lia).
  unfold shachain_add_hash. rewrite Hnext, Z.eqb_refl. cbn [assert_then].
  destruct (ctz_spec index ltac:(lia)) as (Hci & _).
  destruct (derive_as_expected_spec (Z.to_nat (ctz index)) 0 v chain index hash) as (b & -> & Hiff);
    [done|lia|done|lia|]. cbn [mbind outcome_bind].
  destruct b; cbn [negb].
  - rewrite (proj2 (Nat.ltb_lt _ _)) by lia. eexists. split; [done|]. split.
    + split; [|done]. intros _ k Hk. apply Hiff; [done|lia].
    + intros chain' [= <-]. split; [done|]. apply add_hash_keeps; try done; [lia|].
      intros k Hk. apply Hiff; [done|lia].
  - exists None. split; [done|]. split; [|done]. split; [by intros []|]. intros Hall.
    discriminate (proj2 Hiff Hall).
Qed.

Lemma init_min chain : min_index (shachain_init BITS chain) = 2 ^ B.
Proof.
  cbn [shachain_init min_index]. rewrite Z.shiftr_div_pow2 by lia.
  assert (Hp : 2 ^ 64 = 2 ^ (64 - B) * 2 ^ B) by (rewrite <- Z.pow_add_r by lia; f_equal; lia).
  assert (2 ^ B < 2 ^ 64) by (apply Z.pow_lt_mono_r; lia).
  rewrite <- (Z.div_unique_pos UINT64_MAX (2 ^ (64 - B)) (2 ^ B - 1) (2 ^ (64 - B) - 1)); [|lia|lia].
  unfold wrap_u64. rewrite Z.mod_small; lia.
Qed.

Lemma init_ok v chain : length (known chain) = S BITS -> chain_ok v (shachain_init BITS chain).
Proof.
  intros Hl. split; rewrite ?init_min; try done; try lia; cbn in *; lia.
Qed.
End Ctz.

(** *** The chain as the list of the secrets received *)

Section Received.
#[local] Set Default Proof Using "Type*".
Context (sha256 : list Z -> list Z) (BITS : nat).
Notation B := (Z.of_nat BITS).

(** The chains that [shachain_init] and successful additions give, with what
    was added, in order.  There are 2^[SHACHAIN_BITS] secrets to receive. *)
Inductive received : shachain -> list (list Z) -> Prop :=
| received_none chain : length (known chain) = S BITS -> received (shachain_init BITS chain) []
| received_next chain hs h chain' :
    received chain hs -> Z.of_nat (length hs) < 2 ^ B ->
    shachain_add_hash sha256 BITS chain (shachain_next_index chain) h = Ret (Some chain') ->
    received chain' (hs ++ [h]).

Context (Hbits : (BITS <= 63)%nat).

(** The hash at an index, as the list has it. *)
Definition at_index (hs : list (list Z)) (j : Z) : list Z := default [] (hs !! Z.to_nat (2 ^ B - 1 - j)).

Lemma chain_ok_ext v w chain :
  (forall j, min_index chain <= j < 2 ^ B -> v j = w j) ->
  chain_ok BITS sha256 v chain -> chain_ok BITS sha256 w chain.
Proof.
  intros E [H1 H2 H3 H4 H5]. split; try done.
  - intros i Hi. destruct (H3 i Hi) as (x & Hx & Hr & ?). exists x. by rewrite <- E.
  - intros i x h j Hi Hk Hj Hd. rewrite <- E by done. by apply (H5 i).
Qed.

Lemma received_ok chain hs :
  received chain hs ->
  chain_ok BITS sha256 (at_index hs) chain /\ min_index chain = 2 ^ B - Z.of_nat (length hs)
  /\ Z.of_nat (length hs) <= 2 ^ B.
Proof.
  induction 1 as [chain Hl|chain hs h chain' Hr IH Hlt Hadd].
  { rewrite init_min by done. split_and!; [by apply init_ok|cbn; lia|cbn; lia]. }
  destruct IH as (Hok & Hm & Hlen).
  destruct (add_hash_spec BITS Hbits sha256 _ chain h Hok ltac:(lia)) as (r & E & _ & Hk).
  rewrite Hadd in E. injection E as <-. destruct (Hk _ eq_refl) as [Hm' Hok'].
  rewrite length_app. cbn [length]. split_and!; [|lia|lia].
  apply (chain_ok_ext (learn (at_index hs) (min_index chain - 1) h)); [|done].
  intros j Hj. unfold learn, at_index. destruct (Z.eqb_spec j (min_index chain - 1)) as [->|].
  + rewrite lookup_app_r by lia. by replace (_ - length hs)%nat with 0%nat by lia.
  + by rewrite lookup_app_l by lia.
Qed.

Lemma get_secret_received chain hs n :
  received chain hs -> 0 <= n < 2 ^ B -> shachain_get_secret sha256 BITS chain n = Ret (hs !! Z.to_nat n).
Proof.
  intros Hr Hn. destruct (received_ok _ _ Hr) as (Hok & Hm & Hlen).
  unfold shachain_get_secret, shachain_index. rewrite Z.shiftl_1_l.
  rewrite (proj2 (Z.leb_gt _ _)), (proj2 (Z.ltb_lt _ _)) by lia. cbn [assert_then mbind outcome_bind].
  destruct (decide (n < Z.of_nat (length hs))).
  - rewrite (get_hash_ok BITS Hbits sha256 (at_index hs)) by (done || lia). unfold at_index.
    replace (2 ^ B - 1 - (2 ^ B - 1 - n)) with n by lia.
    destruct (lookup_lt_is_Some_2 hs (Z.to_nat n) ltac:(lia)) as [x ->]. done.
  - rewrite (get_hash_missing BITS Hbits sha256 (at_index hs)) by (done || lia).
    by rewrite lookup_ge_None_2 by lia.
Qed.

(** C24. A chain stands for the list of the secrets received: whatever the
    order of the bits, [shachain_get_secret] gives back the [n]-th secret that
    was added, nothing for one that was not, and the count
    [revocations_received] reads off the chain is the length of the list. *)
Theorem shachain_refines_list chain hs n :
  received chain hs -> 0 <= n < 2 ^ B ->
  shachain_get_secret sha256 BITS chain n = Ret (hs !! Z.to_nat n)
  /\ revocations_received BITS chain = Z.of_nat (length hs).
Proof.
  intros Hr Hn. split; [by apply get_secret_received|].
  destruct (received_ok _ _ Hr) as (_ & Hm & Hlen).
  assert (2 ^ B < 2 ^ 64) by (apply Z.pow_lt_mono_r; lia).
  unfold revocations_received, shachain_next_index. rewrite Z.shiftl_1_l, Hm.
  destruct (decide (Z.of_nat (length hs) = 2 ^ B)) as [E|].
  - rewrite E, Z.sub_diag. change (wrap_u64 (wrap_u64 (0 - 1) + 1)) with 0. unfold wrap_u64.
    rewrite Z.mod_small; lia.
  - unwrap. lia.
Qed.

Lemma per_commit_secret_spec seed n : 0 <= n < 2 ^ B ->
  per_commit_secret sha256 BITS seed n = Ret (Some (chain_to BITS sha256 0 (2 ^ B - 1 - n) seed)).
Proof.
  intros Hn. unfold per_commit_secret, shachain_index, shachain_from_seed. rewrite Z.shiftl_1_l.
  rewrite (proj2 (Z.leb_gt _ _)), (proj2 (Z.ltb_lt _ _)) by lia. cbn [assert_then mbind outcome_bind].
  rewrite derive_spec; [done|done|lia|lia|].
  destruct (ctz_spec BITS 0 ltac:(lia)) as (? & _ & [[_ ->]|(q & ? & ? & E)]); [lia|].
  assert (0 < 2 ^ count_trailing_zeroes BITS 0) by lia. nia.
Qed.

(** The secrets of one seed are always accepted, in order: when what was
    received so far came from [shachain_from_seed], the next secret of that
    seed is added without failing a check or an assertion. *)
Theorem seed_secrets_accepted chain hs seed h :
  received chain hs -> Z.of_nat (length hs) < 2 ^ B ->
  (forall k x, hs !! k = Some x -> per_commit_secret sha256 BITS seed (Z.of_nat k) = Ret (Some x)) ->
  per_commit_secret sha256 BITS seed (Z.of_nat (length hs)) = Ret (Some h) ->
  exists chain', shachain_add_hash sha256 BITS chain (shachain_next_index chain) h = Ret (Some chain').
Proof.
  intros Hr Hlt Hseed Hh. destruct (received_ok _ _ Hr) as (Hok & Hm & _).
  destruct (add_hash_spec BITS Hbits sha256 _ chain h Hok ltac:(lia)) as (r & E & Hiff & _).
  destruct r as [chain'|]; [by exists chain'|exfalso].
  destruct (proj2 Hiff) as [? [=]]. intros k Hk.
  set (index := min_index chain - 1) in *.
  destruct (ctz_set BITS Hbits index k ltac:(lia) Hk) as [Hrange Hck]. assert (0 < 2 ^ k) by lia.
  rewrite per_commit_secret_spec in Hh by lia. injection Hh as <-.
  replace (2 ^ B - 1 - Z.of_nat (length hs)) with index by lia.
  unfold at_index. set (m := 2 ^ B - 1 - (index + 2 ^ k)).
  destruct (lookup_lt_is_Some_2 hs (Z.to_nat m) ltac:(lia)) as [x Hx]. rewrite Hx. cbn [default].
  specialize (Hseed _ _ Hx). rewrite Z2Nat.id, per_commit_secret_spec in Hseed by lia.
  injection Hseed as <-.
  replace (2 ^ B - 1 - m) with (index + 2 ^ k) by lia.
  destruct (ctz_spec BITS index ltac:(lia)) as (? & ? & _).
  symmetry. apply (chain_to_trans BITS Hbits); [lia|by rewrite Z.mod_0_l by lia|].
  split; [lia|]. apply Z.add_lt_mono_l, Z.pow_lt_mono_r; lia.
Qed.
End Received.

(** *** Examples: four bits *)

Module FourBits.
Definition hash (m : list Z) : list Z := map (fun b => (7 * b + 3) mod 256) m.
Definition empty : shachain := mk_shachain 0 0 (repeat (0, []) 5).
Definition secret (n : Z) : list Z :=
  match per_commit_secret hash 4 [17; 34] n with Ret (Some h) => h | _ => [] end.
Definition add (chain : shachain) (h : list Z) : shachain :=
  match shachain_add_hash hash 4 chain (shachain_next_index chain) h with Ret (Some c) => c | _ => chain end.
Definition chain3 : shachain := foldl add (shachain_init 4 empty) [secret 0; secret 1; secret 2].

Lemma received3 : received hash 4 chain3 [secret 0; secret 1; secret 2].
Proof.
  apply (received_next hash 4 (foldl add (shachain_init 4 empty) [secret 0; secret 1]) [secret 0; secret 1] (secret 2));
    [|reflexivity|vm_compute; reflexivity].
  apply (received_next hash 4 (foldl add (shachain_init 4 empty) [secret 0]) [secret 0] (secret 1));
    [|reflexivity|vm_compute; reflexivity].
  apply (received_next hash 4 (shachain_init 4 empty) [] (secret 0)); [|reflexivity|vm_compute; reflexivity].
  apply (received_none hash 4 empty). reflexivity.
Qed.
End FourBits.

Lemma shachain_refines_list_witness :
  shachain_get_secret FourBits.hash 4 FourBits.chain3 1 = Ret (Some (FourBits.secret 1))
  /\ FourBits.secret 1 <> FourBits.secret 0.
Proof.
  split; [|vm_compute; discriminate].
  apply (shachain_refines_list FourBits.hash 4 ltac:(lia) FourBits.chain3
           [FourBits.secret 0; FourBits.secret 1; FourBits.secret 2] 1); [apply FourBits.received3|cbn; lia].
Defined.

Lemma seed_secrets_accepted_witness :
  exists chain', shachain_add_hash FourBits.hash 4 FourBits.chain3
    (shachain_next_index FourBits.chain3) (FourBits.secret 3) = Ret (Some chain').
Proof.
  apply (seed_secrets_accepted FourBits.hash 4 ltac:(lia) FourBits.chain3
           [FourBits.secret 0; FourBits.secret 1; FourBits.secret 2] [17; 34]);
    [apply FourBits.received3|reflexivity| |vm_compute; reflexivity].
  intros [|[|[|k]]] x [= <-]; vm_compute; reflexivity.
Defined.
