(* ===== verification/Keys.v ===== *)
(** * Channel keys (common/key_derive.c, common/keyset.c, common/point_lock.c)

    Every commitment has its own keys, derived from basepoints and a
    per-commitment point.  Curve arithmetic is libsecp256k1's: the functions
    the code calls are the operations of a class, what their documentation
    promises is a second one.  Secrets are 32-byte strings, public keys their
    33-byte encodings; [None] is a call that returns 0. *)

From stdpp Require Import list.
From S2P Require Import Prelude Script Shachain.
Local Open Scope Z_scope.

Class Secp256k1 := {
  ec_pubkey_create : list Z -> option (list Z);
  ec_pubkey_tweak_add : list Z -> list Z -> option (list Z);
  ec_pubkey_tweak_mul : list Z -> list Z -> option (list Z);
  ec_pubkey_combine : list Z -> list Z -> option (list Z);
  ec_seckey_tweak_add : list Z -> list Z -> option (list Z);
  ec_seckey_tweak_mul : list Z -> list Z -> option (list Z);
}.

(** A secret and its public key are tweaked alike; the sum of two public keys
    is that of the sum of their secrets. *)
Class Secp256k1Laws `(Secp256k1) : Prop := {
  tweak_add_pubkey s t s' : ec_seckey_tweak_add s t = Some s' ->
    ec_pubkey_create s' = (p ← ec_pubkey_create s; ec_pubkey_tweak_add p t);
  tweak_mul_pubkey s t s' : ec_seckey_tweak_mul s t = Some s' ->
    ec_pubkey_create s' = (p ← ec_pubkey_create s; ec_pubkey_tweak_mul p t);
  combine_pubkey a b c : ec_seckey_tweak_add a b = Some c ->
    ec_pubkey_create c = (p ← ec_pubkey_create a; q ← ec_pubkey_create b; ec_pubkey_combine p q);
  pubkey_create_length s p : ec_pubkey_create s = Some p -> length p = 33%nat;
  tweak_add_length p t q : ec_pubkey_tweak_add p t = Some q -> length q = 33%nat;
  combine_length p q r : ec_pubkey_combine p q = Some r -> length r = 33%nat;
}.

(** common/derive_basepoints.h *)
Record basepoints := mk_basepoints {
  bp_revocation : list Z;
  bp_payment : list Z;
  bp_htlc : list Z;
  bp_delayed_payment : list Z;
}.

Section Derive.
Context (sha256 : list Z -> list Z) `{Secp256k1}.

Definition derive_simple_key (basepoint per_commitment_point : list Z) : option (list Z) :=
  ec_pubkey_tweak_add basepoint (sha256 (per_commitment_point ++ basepoint)).

Definition derive_simple_privkey (base_secret basepoint per_commitment_point : list Z) : option (list Z) :=
  ec_seckey_tweak_add base_secret (sha256 (per_commitment_point ++ basepoint)).

Definition derive_revocation_key (basepoint per_commitment_point : list Z) : option (list Z) :=
  add0 ← ec_pubkey_tweak_mul basepoint (sha256 (basepoint ++ per_commitment_point));
  add1 ← ec_pubkey_tweak_mul per_commitment_point (sha256 (per_commitment_point ++ basepoint));
  ec_pubkey_combine add0 add1.

Definition derive_revocation_privkey (base_secret per_commitment_secret basepoint
    per_commitment_point : list Z) : option (list Z) :=
  key ← ec_seckey_tweak_mul base_secret (sha256 (basepoint ++ per_commitment_point));
  part2 ← ec_seckey_tweak_mul per_commitment_secret (sha256 (per_commitment_point ++ basepoint));
  ec_seckey_tweak_add key part2.

Definition derive_keyset (per_commitment_point : list Z) (self other : basepoints)
    (option_static_remotekey : bool) : option keyset :=
  self_payment ← derive_simple_key (bp_payment self) per_commitment_point;
  other_payment ← (if option_static_remotekey then Some (bp_payment other)
                   else derive_simple_key (bp_payment other) per_commitment_point);
  self_htlc ← derive_simple_key (bp_htlc self) per_commitment_point;
  other_htlc ← derive_simple_key (bp_htlc other) per_commitment_point;
  self_delayed ← derive_simple_key (bp_delayed_payment self) per_commitment_point;
  self_revocation ← derive_revocation_key (bp_revocation other) per_commitment_point;
  Some (mk_keyset self_revocation self_htlc other_htlc self_delayed self_payment other_payment).
End Derive.

(** ** Point locks (common/point_lock.c) *)

(** [ec_pubkey_create] fails on what is not a valid scalar. *)
Definition point_lock_point_of `{Secp256k1} (s : list Z) : option (list Z) := ec_pubkey_create s.
Definition point_lock_opens `{Secp256k1} (lock s : list Z) : bool := bool_decide (point_lock_point_of s = Some lock).
Definition point_lock_payment_hash (lock : list Z) : list Z := take 32 (drop 1 lock).

(** ** Theorems *)

Section DeriveFacts.
#[local] Set Default Proof Using "Type*".
Context (sha256 : list Z -> list Z) `{!Secp256k1, !Secp256k1Laws _}.

(** Whoever holds the basepoint secret holds the key a commitment pays:
    the secret [derive_simple_privkey] computes is that of the public key
    [derive_simple_key] computes. *)
Theorem simple_privkey_opens secret basepoint point key :
  ec_pubkey_create secret = Some basepoint ->
  derive_simple_privkey sha256 secret basepoint point = Some key ->
  ec_pubkey_create key = derive_simple_key sha256 basepoint point.
Proof.
  intros Hb Hk. rewrite (tweak_add_pubkey _ _ _ Hk). by rewrite Hb.
Qed.

Lemma revocation_privkey_opens secret commit_secret basepoint point key :
  ec_pubkey_create secret = Some basepoint ->
  ec_pubkey_create commit_secret = Some point ->
  derive_revocation_privkey sha256 secret commit_secret basepoint point = Some key ->
  ec_pubkey_create key = derive_revocation_key sha256 basepoint point.
Proof.
  intros Hb Hp Hk. unfold derive_revocation_privkey in Hk.
  destruct (ec_seckey_tweak_mul secret _) as [k1|] eqn:E1; [|done]. cbn in Hk.
  destruct (ec_seckey_tweak_mul commit_secret _) as [k2|] eqn:E2; [|done]. cbn in Hk.
  rewrite (combine_pubkey _ _ _ Hk), (tweak_mul_pubkey _ _ _ E1), (tweak_mul_pubkey _ _ _ E2), Hb, Hp.
  done.
Qed.

(** C23. A revoked commitment can be punished: from the secrets received for
    the old commitments, each checked against the point of its commitment, the
    chain gives back the one of commitment [n], and with the revocation
    basepoint secret it yields the private key of the revocation key that
    commitment's outputs pay. *)
Theorem revoked_commitment_punishable BITS chain hs n point secret self other static ks key :
  (BITS <= 63)%nat -> received sha256 BITS chain hs -> 0 <= n < 2 ^ Z.of_nat BITS ->
  (forall s, hs !! Z.to_nat n = Some s -> ec_pubkey_create s = Some point) ->
  n < Z.of_nat (length hs) ->
  ec_pubkey_create secret = Some (bp_revocation other) ->
  derive_keyset sha256 point self other static = Some ks ->
  exists s, shachain_get_secret sha256 BITS chain n = Ret (Some s)
    /\ (derive_revocation_privkey sha256 secret s (bp_revocation other) point = Some key ->
        ec_pubkey_create key = Some (self_revocation_key ks)).
Proof.
  intros Hb Hr Hn Hpt Hlt Hs Hks.
  destruct (lookup_lt_is_Some_2 hs (Z.to_nat n) ltac:(lia)) as [s E]. exists s.
  rewrite (get_secret_received _ _ Hb _ _ _ Hr Hn), E. split; [done|]. intros Hk.
  rewrite (revocation_privkey_opens _ _ _ _ _ Hs (Hpt s E) Hk).
  unfold derive_keyset in Hks.
  repeat match type of Hks with
         | (_ ≫= _) = Some _ => let E := fresh "E" in apply bind_Some in Hks as (? & E & Hks)
         end.
  by injection Hks as <-.
Qed.

(** Every key of a keyset is a public key. *)
Lemma derive_keyset_lengths point self other static ks :
  derive_keyset sha256 point self other static = Some ks ->
  length (bp_payment other) = 33%nat ->
  Forall (fun k => length k = 33%nat)
    [self_revocation_key ks; self_htlc_key ks; other_htlc_key ks; self_delayed_payment_key ks;
     self_payment_key ks; other_payment_key ks].
Proof.
  intros Hk Hl. unfold derive_keyset in Hk.
  repeat match type of Hk with
         | (_ ≫= _) = Some _ => let E := fresh "E" in apply bind_Some in Hk as (? & E & Hk)
         end.
  injection Hk as <-. cbn.
  apply bind_Some in E4 as (? & _ & E4). apply bind_Some in E4 as (? & _ & E4).
  repeat constructor; try (by eapply combine_length); try (by eapply tweak_add_length).
  destruct static; [by injection E0 as <-|by eapply tweak_add_length].
Qed.
End DeriveFacts.

(** A group for the examples: secrets are numbers modulo 101. *)
Module Toy.
Definition scalar (s : list Z) : Z := le_value s mod 101.
Definition point (z : Z) : list Z := 2 :: z mod 101 :: repeat 0 31.
#[export] Instance secp : Secp256k1 := {
  ec_pubkey_create s := Some (point (scalar s));
  ec_pubkey_tweak_add p t := Some (point (byte p 1 + scalar t));
  ec_pubkey_tweak_mul p t := Some (point (byte p 1 * scalar t));
  ec_pubkey_combine p q := Some (point (byte p 1 + byte q 1));
  ec_seckey_tweak_add s t := Some [(scalar s + scalar t) mod 101];
  ec_seckey_tweak_mul s t := Some [(scalar s * scalar t) mod 101];
}.
Lemma scalar_one z : scalar [z] = z mod 101.
Proof. unfold scalar. cbn [le_value]. f_equal. lia. Qed.
Lemma point_mod a b : a mod 101 = b mod 101 -> point a = point b.
Proof. intros E. unfold point. by rewrite E. Qed.
Lemma byte_point z : byte (point z) 1 = z mod 101.
Proof. done. Qed.
#[export] Instance secp_laws : Secp256k1Laws secp.
Proof.
  split; cbn -[scalar point byte Z.modulo]; intros; simplify_eq; try done;
    rewrite ?scalar_one, ?byte_point; f_equal; apply point_mod;
    rewrite ?Z.mod_mod, ?Zplus_mod_idemp_l, ?Zplus_mod_idemp_r, ?Zmult_mod_idemp_l by lia; done.
Qed.
End Toy.
Import Toy.

Lemma simple_privkey_opens_witness :
  exists key, derive_simple_privkey (toy_digest 32) [5] (Toy.point 5) (Toy.point 9) = Some key
    /\ ec_pubkey_create key = derive_simple_key (toy_digest 32) (Toy.point 5) (Toy.point 9).
Proof.
  eexists. split; [vm_compute; reflexivity|].
  apply (simple_privkey_opens (toy_digest 32) [5]); [reflexivity|vm_compute; reflexivity].
Defined.

Definition toy_bases (n : Z) : basepoints :=
  mk_basepoints (Toy.point n) (Toy.point (n + 1)) (Toy.point (n + 2)) (Toy.point (n + 3)).

Definition toy_point : list Z := Toy.point (Toy.scalar (FourBits.secret 1)).
Definition toy_keyset : keyset :=
  default (mk_keyset [] [] [] [] [] [])
    (derive_keyset FourBits.hash toy_point (toy_bases 1) (toy_bases 5) true).
Definition toy_revocation_key : list Z :=
  default [] (derive_revocation_privkey FourBits.hash [5] (FourBits.secret 1) (Toy.point 5) toy_point).

Lemma revoked_commitment_punishable_witness :
  shachain_get_secret FourBits.hash 4 FourBits.chain3 1 = Ret (Some (FourBits.secret 1))
  /\ ec_pubkey_create toy_revocation_key = Some (self_revocation_key toy_keyset).
Proof.
  destruct (revoked_commitment_punishable FourBits.hash 4 FourBits.chain3
    [FourBits.secret 0; FourBits.secret 1; FourBits.secret 2] 1 toy_point [5] (toy_bases 1) (toy_bases 5) true
    toy_keyset toy_revocation_key ltac:(lia) FourBits.received3 ltac:(cbn; lia)) as (s & E & H).
  - by intros s [= <-].
  - cbn. lia.
  - reflexivity.
  - vm_compute. reflexivity.
  - assert (s = FourBits.secret 1) as -> by (vm_compute in E; injection E as <-; vm_compute; reflexivity).
    split; [done|]. apply H. vm_compute. reflexivity.
Defined.
