(* ===== verification/Tapscript.v ===== *)
(** * Taproot outputs (bitcoin/tapscript.c)

    The hashes of leaves and branches as the Elements chains compute them, the
    tree of two or three leaves with the output it makes, its control blocks
    and witnesses, and Schnorr signatures.  SHA256 is an argument; libwally's
    tweak of the internal key and libsecp256k1's Schnorr signatures are an
    interface. *)

From stdpp Require Import list.
From S2P Require Import Prelude Wire Script Keys.
Local Open Scope Z_scope.

Definition PUBKEY_CMPR_LEN := 33%nat.
Definition TAPSCRIPT_LEAF_VERSION_ELEMENTS := 0xc4.
Definition TAP_ANNEX_TAG := 0x50.
Definition TAP_SIGHASH_DEFAULT := 0x00.
Definition SECP256K1_TAG_PUBKEY_ODD := 0x03.

(** [wally_ec_public_key_bip341_tweak] with the flag of Elements, of a
    compressed key and a merkle root; [secp256k1_schnorrsig_sign32] without
    auxiliary randomness, of a message and a secret key, and
    [secp256k1_schnorrsig_verify], of an x-only key. *)
Class Taproot := {
  bip341_tweak : list Z -> list Z -> option (list Z);
  schnorr_sign : list Z -> list Z -> option (list Z);
  schnorr_verify : list Z -> list Z -> list Z -> bool;
}.

Definition pubkey_to_xonly (key : list Z) : list Z := drop 1 key.

(** What a signature is made with verifies it. *)
Class TaprootLaws `(Secp256k1) `(Taproot) : Prop := {
  schnorr_verifies msg secret sig key :
    schnorr_sign msg secret = Some sig -> ec_pubkey_create secret = Some key ->
    schnorr_verify sig msg (pubkey_to_xonly key) = true;
}.

(** A tweaked key is a compressed key. *)
Class TweakLaws `(Taproot) : Prop :=
  tweak_length : forall key root der, bip341_tweak key root = Some der -> length der = PUBKEY_CMPR_LEN.

(** Without the annex: the last of two or more items that starts with 0x50. *)
Definition tap_witness_items (wit : list (list Z)) : nat :=
  match last wit with
  | Some (b :: _) => if (2 <=? length wit)%nat && (b =? TAP_ANNEX_TAG) then length wit - 1 else length wit
  | _ => length wit
  end.

Section Tapscript.
Context (sha256 : list Z -> list Z) `{Taproot}.

(** "TapLeaf/elements" and "TapBranch/elements". *)
Definition TapLeaf_elements : list Z := [84; 97; 112; 76; 101; 97; 102; 47; 101; 108; 101; 109; 101; 110; 116; 115].
Definition TapBranch_elements : list Z :=
  [84; 97; 112; 66; 114; 97; 110; 99; 104; 47; 101; 108; 101; 109; 101; 110; 116; 115].

(** What [tagged_init] has hashed. *)
Definition tagged_init (tag : list Z) : list Z := sha256 tag ++ sha256 tag.

Definition tap_leaf_hash_version (version : Z) (script : list Z) : list Z :=
  sha256 (tagged_init TapLeaf_elements ++ [version] ++ varint_put (Z.of_nat (length script)) ++ script).
Definition tap_leaf_hash (script : list Z) : list Z := tap_leaf_hash_version TAPSCRIPT_LEAF_VERSION_ELEMENTS script.
Definition tap_branch_hash (a b : list Z) : list Z :=
  let '(a, b) := match memcmp a b with Gt => (b, a) | _ => (a, b) end in
  sha256 (tagged_init TapBranch_elements ++ a ++ b).

(** [leaf] has [nleaves] elements, two or three. *)
Record tap_tree2 := mk_tap_tree2 {
  leaf : list (list Z);
  leaf_hash : list (list Z);
  branch01 : list Z;
  merkle_root : list Z;
  internal_key : list Z;
  output_der : list Z;
}.

Definition tap_tree2_finish (leaves : list (list Z)) (key : list Z) : outcome tap_tree2 :=
  match leaves with
  | leaf0 :: leaf1 :: rest =>
    let branch01 := tap_branch_hash (tap_leaf_hash leaf0) (tap_leaf_hash leaf1) in
    root ← (match rest with
            | [] => Ret branch01
            | [leaf2] => Ret (tap_branch_hash (tap_leaf_hash leaf2) branch01)
            | _ => Crash
            end);
    match bip341_tweak key root with
    | Some der => Ret (mk_tap_tree2 leaves (tap_leaf_hash <$> leaves) branch01 root key der)
    | None => Crash
    end
  | _ => Crash
  end.

Definition tap_tree2_program (tree : tap_tree2) : list Z := drop 1 (output_der tree).
Definition tap_tree2_scriptpubkey (tree : tap_tree2) : list Z := OP_1 :: 32 :: tap_tree2_program tree.

Definition parity (der : list Z) : Z := if byte der 0 =? SECP256K1_TAG_PUBKEY_ODD then 1 else 0.

Definition tap_tree2_control_block (tree : tap_tree2) (n : nat) : outcome (list Z) :=
  assert_then (n <? length (leaf tree))%nat
    (let hash i := nth i (leaf_hash tree) [] in
     Ret ([Z.lor TAPSCRIPT_LEAF_VERSION_ELEMENTS (parity (output_der tree))]
          ++ pubkey_to_xonly (internal_key tree)
          ++ (if (n =? 2)%nat then branch01 tree
              else hash (1 - n)%nat ++ (if (length (leaf tree) =? 3)%nat then hash 2%nat else [])))).

Definition tap_tree2_witness (tree : tap_tree2) (n : nat) (stack : list (list Z)) : outcome (list (list Z)) :=
  cb ← tap_tree2_control_block tree n;
  Ret (stack ++ [nth n (leaf tree) []; cb]).

(** [None] aborts. *)
Definition tap_sign (sighash privkey : list Z) : outcome (list Z) :=
  match schnorr_sign sighash privkey with Some sig => Ret sig | None => Crash end.
Definition tap_check_sig (sighash key sig : list Z) : bool := schnorr_verify sig sighash (pubkey_to_xonly key).
Definition tap_sig_to_witness (sig : list Z) (sighash_type : Z) : list Z :=
  if sighash_type =? TAP_SIGHASH_DEFAULT then sig else sig ++ [sighash_type].
End Tapscript.

(** ** What a control block proves *)

Section Facts.
#[local] Set Default Proof Using "Type*".
Context (sha256 : list Z -> list Z) `{Taproot}.
Notation tap_branch_hash := (tap_branch_hash sha256).
Notation tap_leaf_hash := (tap_leaf_hash sha256).

(** Which of two hashes of the same length comes first does not matter. *)
Lemma tap_branch_comm a b : length a = length b -> tap_branch_hash a b = tap_branch_hash b a.
Proof.
  intros Hl. unfold Tapscript.tap_branch_hash. rewrite (memcmp_antisym a b). destruct (memcmp a b) eqn:E; cbn [CompOpp]; try done.
  by rewrite (memcmp_eq a b).
Qed.

(** How a node checks a script path (BIP341): the leaf's hash, with the 32
    bytes of each step of the path, must give the root the output commits to. *)
Fixpoint merkle_path (fuel : nat) (h path : list Z) : list Z :=
  match fuel with
  | O => h
  | S k => match path with [] => h | _ => merkle_path k (tap_branch_hash h (take 32 path)) (drop 32 path) end
  end.
Definition opens (tweak : list Z -> list Z -> option (list Z)) (program script control_block : list Z) : Prop :=
  exists key der, pubkey_to_xonly key = take 32 (drop 1 control_block)
    /\ tweak key (merkle_path 128 (tap_leaf_hash script) (drop 33 control_block)) = Some der
    /\ program = drop 1 der
    /\ byte control_block 0 = Z.lor TAPSCRIPT_LEAF_VERSION_ELEMENTS (parity der).

Context `{!Digest sha256 32}.
Lemma tap_leaf_length script : length (tap_leaf_hash script) = 32%nat.
Proof. apply (digest_length (f := sha256)). Qed.
Lemma tap_branch_length a b : length (tap_branch_hash a b) = 32%nat.
Proof. unfold Tapscript.tap_branch_hash. destruct (memcmp a b); apply (digest_length (f := sha256)). Qed.

Lemma merkle_path_1 k h a : length a = 32%nat -> merkle_path (S (S k)) h a = tap_branch_hash h a.
Proof.
  intros Ha. destruct a as [|x a]; [done|]. cbn [merkle_path]. rewrite (take_ge (x :: a)), (drop_ge (x :: a)) by lia. by destruct k.
Qed.
Lemma merkle_path_2 k h a b :
  length a = 32%nat -> length b = 32%nat -> merkle_path (S (S (S k))) h (a ++ b) = tap_branch_hash (tap_branch_hash h a) b.
Proof.
  intros Ha Hb. rewrite <- (merkle_path_1 k _ b Hb). destruct a as [|x a]; [done|]. cbn [merkle_path app].
  change (x :: a ++ b) with ((x :: a) ++ b). by rewrite take_app_length', drop_app_length' by done.
Qed.

(** The path of each leaf leads to the root. *)
Lemma control_block_path leaves key tree n cb :
  tap_tree2_finish sha256 leaves key = Ret tree -> tap_tree2_control_block tree n = Ret cb ->
  exists path, cb = Z.lor TAPSCRIPT_LEAF_VERSION_ELEMENTS (parity (output_der tree)) :: pubkey_to_xonly key ++ path
    /\ (n < length leaves)%nat /\ merkle_path 128 (tap_leaf_hash (nth n leaves [])) path = merkle_root tree
    /\ bip341_tweak key (merkle_root tree) = Some (output_der tree).
Proof.
  intros E Ecb. destruct leaves as [|l0 [|l1 rest]]; [done..|]. cbn [tap_tree2_finish] in E.
  apply bind_Ret_inv in E as (root & Er & E). destruct (bip341_tweak key root) as [der|] eqn:Et; [|done]. injection E as <-.
  unfold tap_tree2_control_block, assert_then in Ecb. cbn [leaf leaf_hash branch01 internal_key output_der merkle_root fmap list_fmap length] in *.
  destruct (n <? _)%nat eqn:En; [|done]. apply Nat.ltb_lt in En. injection Ecb as <-. eexists. split; [reflexivity|].
  split; [done|]. split; [|done].
  destruct rest as [|l2 [|? ?]]; cbn [length] in *; [..|done]; injection Er as <-;
    destruct n as [|[|[|n]]]; try lia; cbn [Nat.eqb Nat.sub nth app]; rewrite ?app_nil_r.
  - by rewrite merkle_path_1 by apply tap_leaf_length.
  - rewrite merkle_path_1 by apply tap_leaf_length. apply tap_branch_comm. by rewrite !tap_leaf_length.
  - rewrite merkle_path_2 by apply tap_leaf_length. apply tap_branch_comm. by rewrite tap_leaf_length, tap_branch_length.
  - rewrite merkle_path_2 by apply tap_leaf_length. rewrite (tap_branch_comm (tap_leaf_hash l1)) by (by rewrite !tap_leaf_length).
    apply tap_branch_comm. by rewrite tap_leaf_length, tap_branch_length.
  - by rewrite merkle_path_1 by apply tap_branch_length.
Qed.

(** Every leaf of a tree can be spent: for trees of two and of three
    leaves, the control block [tap_tree2_control_block] makes for a leaf is
    one that the check of BIP341 accepts for the output's program. *)
Theorem control_block_opens leaves key tree n cb :
  length key = PUBKEY_CMPR_LEN -> tap_tree2_finish sha256 leaves key = Ret tree ->
  tap_tree2_control_block tree n = Ret cb ->
  opens bip341_tweak (tap_tree2_program tree) (nth n leaves []) cb.
Proof.
  intros Hk E Ecb. destruct (control_block_path _ _ _ _ _ E Ecb) as (path & -> & _ & Hp & Ht).
  assert (Hx : length (pubkey_to_xonly key) = 32%nat) by (unfold pubkey_to_xonly; by rewrite length_drop, Hk).
  exists key, (output_der tree). cbn [drop]. rewrite drop_0, take_app_length' by done.
  rewrite (drop_app_length' (pubkey_to_xonly key)) by done. by rewrite Hp.
Qed.
End Facts.
