(* ===== verification/ChannelState.v ===== *)
(** * The state of a channel (common/initial_channel.h, common/initial_channel.c,
    common/channel_config.h, channeld/channeld_htlc.h, common/sym_lanes.h, the
    lane accessors of common/sym_lanes.c, bitcoin/locktime.c)

    An array indexed by [enum side] is a pair [sides].  Opaque values the
    channel only carries (keys, hashes, onions) are byte lists.  The table of
    HTLCs is a list: the source's hash table has no order a caller may rely on,
    and the amounts read off it are sums, which have none either. *)

From stdpp Require Import list.
From S2P Require Import Prelude Chainparams Amount HtlcState Wire FeeStates Features.
Local Open Scope Z_scope.

(** ** Pairs indexed by side *)

Record sides (A : Type) := mk_sides { at_local : A; at_remote : A }.
Arguments mk_sides {_} _ _.
Arguments at_local {_} _.
Arguments at_remote {_} _.

Definition sel {A} (p : sides A) (s : side) : A :=
  match s with LOCAL => at_local p | REMOTE => at_remote p end.
Definition upd {A} (s : side) (v : A) (p : sides A) : sides A :=
  match s with
  | LOCAL => mk_sides v (at_remote p)
  | REMOTE => mk_sides (at_local p) v
  end.
Definition sides_map {A B} (f : A -> B) (p : sides A) : sides B :=
  mk_sides (f (at_local p)) (f (at_remote p)).

Declare Scope chan_scope.
Delimit Scope chan_scope with chan.
Notation "p .[ s ]" := (sel p s) (at level 1, left associativity, format "p .[ s ]") : chan_scope.
Open Scope chan_scope.

Lemma sel_upd {A} (p : sides A) s v t : (upd s v p).[t] = if decide (s = t) then v else p.[t].
Proof. by destruct s, t. Qed.
Lemma sel_map {A B} (f : A -> B) p s : (sides_map f p).[s] = f p.[s].
Proof. by destruct s. Qed.
Lemma sides_eq {A} (p q : sides A) : (forall s, p.[s] = q.[s]) -> p = q.
Proof. intros H. destruct p, q. f_equal; [apply (H LOCAL)|apply (H REMOTE)]. Qed.

#[export] Instance sides_eq_dec {A} `{EqDecision A} : EqDecision (sides A).
Proof. solve_decision. Defined.

(** ** HTLCs *)

(** Why an HTLC failed; the onion and the hash are carried, not read. *)
Record failed_htlc := mk_failed {
  failed_id : Z;
  sha256_of_onion : option (list Z);
  badonion : Z;
  onion : option (list Z);
}.

Record htlc := mk_htlc {
  h_state : htlc_state;
  h_id : Z;
  h_amount : amount_msat_t;
  h_expiry : Z;
  h_rhash : list Z;
  h_r : option (list Z);
  h_lock_point : option (list Z);
  h_lane : nat;
  h_failed : option failed_htlc;
  h_routing : list Z;
  h_path_key : option (list Z);
  h_extra_tlvs : option (list (Z * list Z));
  h_fail_immediate : bool;
}.

Definition set_h_state (s : htlc_state) (h : htlc) : htlc :=
  mk_htlc s (h_id h) (h_amount h) (h_expiry h) (h_rhash h) (h_r h) (h_lock_point h) (h_lane h)
    (h_failed h) (h_routing h) (h_path_key h) (h_extra_tlvs h) (h_fail_immediate h).
Definition set_h_r (r : option (list Z)) (h : htlc) : htlc :=
  mk_htlc (h_state h) (h_id h) (h_amount h) (h_expiry h) (h_rhash h) r (h_lock_point h) (h_lane h)
    (h_failed h) (h_routing h) (h_path_key h) (h_extra_tlvs h) (h_fail_immediate h).
Definition set_h_fail_immediate (b : bool) (h : htlc) : htlc :=
  mk_htlc (h_state h) (h_id h) (h_amount h) (h_expiry h) (h_rhash h) (h_r h) (h_lock_point h)
    (h_lane h) (h_failed h) (h_routing h) (h_path_key h) (h_extra_tlvs h) b.
(** What [channel_force_htlcs] fills in after [add_htlc]. *)
Definition set_h_restored (lock_point r : option (list Z)) (failed : option failed_htlc) (h : htlc) : htlc :=
  mk_htlc (h_state h) (h_id h) (h_amount h) (h_expiry h) (h_rhash h) r lock_point (h_lane h)
    failed (h_routing h) (h_path_key h) (h_extra_tlvs h) (h_fail_immediate h).
Definition set_h_lock_point (point : option (list Z)) (h : htlc) : htlc :=
  set_h_restored point (h_r h) (h_failed h) h.
Definition set_h_failed (f : option failed_htlc) (h : htlc) : htlc :=
  set_h_restored (h_lock_point h) (h_r h) f h.

Definition htlc_has (h : htlc) (flag : Z) : bool := state_has (h_state h) flag.
Definition htlc_owner (h : htlc) : side := htlc_state_owner (h_state h).
Definition htlc_is_dead (h : htlc) : bool := htlc_state_is_dead (h_state h).

Definition htlc_get (htlcs : list htlc) (id : Z) (owner : side) : option htlc :=
  find (fun h => (h_id h =? id) && htlc_has h (HTLC_FLAG owner HTLC_F_OWNER)) htlcs.

(** ** Lanes and swaps *)

Record sym_lane := mk_lane { lane_asset : list Z; lane_outnum : Z; lane_funding_sats : amount_sat_t }.

(** [owed[view][side]]. *)
Record sym_lane_balance := mk_lane_bal { lane_owed : sides (sides amount_msat_t) }.

Record sym_swap := mk_swap {
  swap_id : Z;
  swap_state : htlc_state;
  give_lane : nat;
  take_lane : nat;
  swap_give : amount_msat_t;
  swap_take : amount_msat_t;
}.
#[export] Instance sym_swap_eq_dec : EqDecision sym_swap.
Proof. solve_decision. Defined.
Definition set_swap_state (s : htlc_state) (w : sym_swap) : sym_swap :=
  mk_swap (swap_id w) s (give_lane w) (take_lane w) (swap_give w) (swap_take w).

(** ** The channel *)

Record channel_config := mk_config {
  conf_id : Z;
  conf_dust_limit : amount_sat_t;
  max_htlc_value_in_flight : amount_msat_t;
  channel_reserve : amount_sat_t;
  htlc_minimum : amount_msat_t;
  to_self_delay : Z;
  max_accepted_htlcs : Z;
  max_dust_htlc_exposure_msat : amount_msat_t;
}.

Record channel_view := mk_view {
  owed : sides amount_msat_t;
  lowest_splice_amnt : sides Z;
}.

Record outpoint := mk_outpoint { txid : list Z; outnum : Z }.
#[export] Instance outpoint_eq_dec : EqDecision outpoint.
Proof. solve_decision. Defined.

(** Keys ([funding_pubkey], [basepoints]) and [sym_issuer] only reach the
    scripts: the functions that build those take them as arguments. *)
Record channel := mk_channel {
  cid : list Z;
  funding : outpoint;
  funding_sats : amount_sat_t;
  channel_asset : list Z;
  minimum_depth : Z;
  opener : side;
  config : sides channel_config;
  commitment_number_obscurer : Z;
  htlcs : option (list htlc);
  chan_fee_states : fee_states;
  blockheight_states : option height_states;
  view : sides channel_view;
  chan_type : channel_type;
  option_wumbo : bool;
  lease_expiry : Z;
  credit_floor : amount_sat_t;
  sym_lanes : option (list sym_lane);
  sym_lane_bal : option (list sym_lane_balance);
  chan_sym_swap : option sym_swap;
  sym_swap_req : option sym_swap;
}.

Definition set_funding (f : outpoint) (sats : amount_sat_t) (c : channel) : channel :=
  mk_channel (cid c) f sats (channel_asset c) (minimum_depth c) (opener c) (config c)
    (commitment_number_obscurer c) (htlcs c) (chan_fee_states c) (blockheight_states c) (view c)
    (chan_type c) (option_wumbo c) (lease_expiry c) (credit_floor c) (sym_lanes c) (sym_lane_bal c)
    (chan_sym_swap c) (sym_swap_req c).
Definition set_htlcs (l : option (list htlc)) (c : channel) : channel :=
  mk_channel (cid c) (funding c) (funding_sats c) (channel_asset c) (minimum_depth c) (opener c)
    (config c) (commitment_number_obscurer c) l (chan_fee_states c) (blockheight_states c) (view c)
    (chan_type c) (option_wumbo c) (lease_expiry c) (credit_floor c) (sym_lanes c) (sym_lane_bal c)
    (chan_sym_swap c) (sym_swap_req c).
Definition set_fee_states (f : fee_states) (c : channel) : channel :=
  mk_channel (cid c) (funding c) (funding_sats c) (channel_asset c) (minimum_depth c) (opener c)
    (config c) (commitment_number_obscurer c) (htlcs c) f (blockheight_states c) (view c)
    (chan_type c) (option_wumbo c) (lease_expiry c) (credit_floor c) (sym_lanes c) (sym_lane_bal c)
    (chan_sym_swap c) (sym_swap_req c).
Definition set_blockheight_states (b : option height_states) (c : channel) : channel :=
  mk_channel (cid c) (funding c) (funding_sats c) (channel_asset c) (minimum_depth c) (opener c)
    (config c) (commitment_number_obscurer c) (htlcs c) (chan_fee_states c) b (view c)
    (chan_type c) (option_wumbo c) (lease_expiry c) (credit_floor c) (sym_lanes c) (sym_lane_bal c)
    (chan_sym_swap c) (sym_swap_req c).
Definition set_view (v : sides channel_view) (c : channel) : channel :=
  mk_channel (cid c) (funding c) (funding_sats c) (channel_asset c) (minimum_depth c) (opener c)
    (config c) (commitment_number_obscurer c) (htlcs c) (chan_fee_states c) (blockheight_states c) v
    (chan_type c) (option_wumbo c) (lease_expiry c) (credit_floor c) (sym_lanes c) (sym_lane_bal c)
    (chan_sym_swap c) (sym_swap_req c).
Definition set_lane_bal (l : option (list sym_lane_balance)) (c : channel) : channel :=
  mk_channel (cid c) (funding c) (funding_sats c) (channel_asset c) (minimum_depth c) (opener c)
    (config c) (commitment_number_obscurer c) (htlcs c) (chan_fee_states c) (blockheight_states c)
    (view c) (chan_type c) (option_wumbo c) (lease_expiry c) (credit_floor c) (sym_lanes c) l
    (chan_sym_swap c) (sym_swap_req c).
Definition set_sym_swap (w : option sym_swap) (c : channel) : channel :=
  mk_channel (cid c) (funding c) (funding_sats c) (channel_asset c) (minimum_depth c) (opener c)
    (config c) (commitment_number_obscurer c) (htlcs c) (chan_fee_states c) (blockheight_states c)
    (view c) (chan_type c) (option_wumbo c) (lease_expiry c) (credit_floor c) (sym_lanes c)
    (sym_lane_bal c) w (sym_swap_req c).

(** [htlc_map_first] .. [htlc_map_next] over a table that exists. *)
Definition set_lanes (lanes : option (list sym_lane)) (c : channel) : channel :=
  mk_channel (cid c) (funding c) (funding_sats c) (channel_asset c) (minimum_depth c) (opener c)
    (config c) (commitment_number_obscurer c) (htlcs c) (chan_fee_states c) (blockheight_states c)
    (view c) (chan_type c) (option_wumbo c) (lease_expiry c) (credit_floor c) lanes (sym_lane_bal c)
    (chan_sym_swap c) (sym_swap_req c).
Definition set_asset (asset : list Z) (c : channel) : channel :=
  mk_channel (cid c) (funding c) (funding_sats c) asset (minimum_depth c) (opener c)
    (config c) (commitment_number_obscurer c) (htlcs c) (chan_fee_states c) (blockheight_states c)
    (view c) (chan_type c) (option_wumbo c) (lease_expiry c) (credit_floor c) (sym_lanes c)
    (sym_lane_bal c) (chan_sym_swap c) (sym_swap_req c).
Definition set_swap_req (w : option sym_swap) (c : channel) : channel :=
  mk_channel (cid c) (funding c) (funding_sats c) (channel_asset c) (minimum_depth c) (opener c)
    (config c) (commitment_number_obscurer c) (htlcs c) (chan_fee_states c) (blockheight_states c)
    (view c) (chan_type c) (option_wumbo c) (lease_expiry c) (credit_floor c) (sym_lanes c)
    (sym_lane_bal c) (chan_sym_swap c) w.
Definition set_config (conf : sides channel_config) (c : channel) : channel :=
  mk_channel (cid c) (funding c) (funding_sats c) (channel_asset c) (minimum_depth c) (opener c)
    conf (commitment_number_obscurer c) (htlcs c) (chan_fee_states c) (blockheight_states c)
    (view c) (chan_type c) (option_wumbo c) (lease_expiry c) (credit_floor c) (sym_lanes c)
    (sym_lane_bal c) (chan_sym_swap c) (sym_swap_req c).
Definition set_credit_floor (floor : amount_sat_t) (c : channel) : channel :=
  mk_channel (cid c) (funding c) (funding_sats c) (channel_asset c) (minimum_depth c) (opener c)
    (config c) (commitment_number_obscurer c) (htlcs c) (chan_fee_states c) (blockheight_states c)
    (view c) (chan_type c) (option_wumbo c) (lease_expiry c) floor (sym_lanes c)
    (sym_lane_bal c) (chan_sym_swap c) (sym_swap_req c).
Definition set_max_dust (x : amount_msat_t) (f : channel_config) : channel_config :=
  mk_config (conf_id f) (conf_dust_limit f) (max_htlc_value_in_flight f) (channel_reserve f) (htlc_minimum f)
    (to_self_delay f) (max_accepted_htlcs f) x.

Definition the_htlcs (c : channel) : list htlc := default [] (htlcs c).
(** [tal_count] of the lane balances: 0 for NULL. *)
Definition lane_bals (c : channel) : list sym_lane_balance := default [] (sym_lane_bal c).

Definition channel_feerate (c : channel) (s : side) : outcome Z :=
  get_feerate (chan_fee_states c) (opener c) s.

(** A NULL [blockheight_states] is dereferenced. *)
Definition channel_blockheight (c : channel) (s : side) : outcome Z :=
  match blockheight_states c with
  | None => Crash
  | Some hs => get_blockheight hs (opener c) s
  end.

Definition channel_has (c : channel) (feature : Z) : bool := channel_type_has (chan_type c) feature.
Definition channel_has_anchors (c : channel) : bool := channel_type_has_anchors (chan_type c).

Definition channel_reserve_of (c : channel) (s : side) : outcome amount_sat_t :=
  let reserve := channel_reserve (config c).[other s] in
  if bool_decide (s = opener c) then
    match amount_sat_add reserve (credit_floor c) with None => Crash | Some r => Ret r end
  else Ret reserve.

Definition channel_upgradable_type (c : channel) : option channel_type :=
  if negb (channel_has c OPT_STATIC_REMOTEKEY) then Some channel_type_static_remotekey else None.

Definition channel_desired_type (c : channel) : channel_type :=
  if channel_has c OPT_ANCHORS_ZERO_FEE_HTLC_TX then channel_type_anchors_zero_fee_htlc
  else if channel_has c OPT_SEQ_SYMMETRIC_FACTORY then channel_type_seq_symmetric_factory
  else if channel_has c OPT_SEQ_SYMMETRIC_LANES then channel_type_seq_symmetric_lanes
  else if channel_has c OPT_SEQ_SYMMETRIC_CLOCK then channel_type_seq_symmetric_clock
  else if channel_has c OPT_SEQ_SYMMETRIC then channel_type_seq_symmetric
  else if channel_has c OPT_SEQ_CREDIT then channel_type_seq_credit
  else if channel_has c OPT_SEQ_TAPROOT_COVENANT then channel_type_seq_taproot_covenant
  else if channel_has c OPT_ANCHOR_OUTPUTS_DEPRECATED then channel_type_anchor_outputs_obsolete
  else channel_type_static_remotekey.

(** The two keys' DER forms, hashed: the low 48 bits of the digest. *)
Definition commit_number_obscurer (sha256 : list Z -> list Z)
    (opener_payment_basepoint accepter_payment_basepoint : list Z) : Z :=
  be_value (drop (32 - 6) (sha256 (opener_payment_basepoint ++ accepter_payment_basepoint))).

(** [obscurer] is the result of [commit_number_obscurer]. *)
Definition new_initial_channel (params : chainparams) (cid : list Z) (funding : outpoint)
    (minimum_depth : Z) (height_states : option height_states) (lease_expiry : Z)
    (funding_sats : amount_sat_t) (local_msatoshi : amount_msat_t) (fee_states : fee_states)
    (local remote : channel_config) (obscurer : Z) (type : channel_type) (option_wumbo : bool)
    (opener : side) : option channel :=
  let channel_asset :=
    match is_elements params, fee_asset_tag params with
    | true, Some tag => take 33 tag
    | _, _ => replicate 33 0
    end in
  match amount_sat_sub_msat funding_sats local_msatoshi with
  | None => None
  | Some remote_msatoshi =>
      let v := mk_view (mk_sides local_msatoshi remote_msatoshi) (mk_sides 0 0) in
      Some (mk_channel cid funding funding_sats channel_asset minimum_depth opener
              (mk_sides local remote) obscurer None fee_states height_states (mk_sides v v) type
              option_wumbo lease_expiry (mk_sat 0) None None None None)
  end.

Definition new_full_channel (params : chainparams) (cid : list Z) (funding : outpoint)
    (minimum_depth : Z) (blockheight_states : option height_states) (lease_expiry : Z)
    (funding_sats : amount_sat_t) (local_msat : amount_msat_t) (fee_states : fee_states)
    (local remote : channel_config) (obscurer : Z) (type : channel_type) (option_wumbo : bool)
    (opener : side) : option channel :=
  set_htlcs (Some []) <$>
  new_initial_channel params cid funding minimum_depth blockheight_states lease_expiry funding_sats
    local_msat fee_states local remote obscurer type option_wumbo opener.

(** Add the [s64] [amnt] satoshis to what both views owe [s], in [u64]. *)
Definition splice_owed (s : side) (amnt : Z) (c : channel) : channel :=
  let add v :=
    mk_view (upd s (mk_msat (wrap_u64 (millisatoshis (owed v).[s] + wrap_s64 (amnt * 1000)))) (owed v))
      (lowest_splice_amnt v) in
  set_view (sides_map add (view c)) c.

(** Whether it succeeded (NULL), and the channel.  The two sums are [u64], so
    comparing them with 0 is as written. *)
Definition channel_update_funding (c : channel) (f : outpoint) (sats : amount_sat_t)
    (splice_amnt : Z) : bool * channel :=
  let funding_diff := wrap_s64 (wrap_s64 (satoshis sats) - wrap_s64 (satoshis (funding_sats c))) in
  let remote_splice_amnt := wrap_s64 (funding_diff - splice_amnt) in
  let c := set_funding f sats c in
  let owed_to c s := millisatoshis (owed (view c).[LOCAL]).[s] in
  if wrap_u64 (wrap_s64 (splice_amnt * 1000) + owed_to c LOCAL) <? 0 then (false, c)
  else
    let c := splice_owed LOCAL splice_amnt c in
    if wrap_u64 (wrap_s64 (remote_splice_amnt * 1000) + owed_to c REMOTE) <? 0 then (false, c)
    else (true, splice_owed REMOTE remote_splice_amnt c).

(** ** Lanes (common/sym_lanes.c) *)

Definition sym_num_lanes (c : channel) : nat := 1 + length (default [] (sym_lanes c)).

Definition sym_lane_asset (c : channel) (lane : nat) : outcome (list Z) :=
  match lane with
  | O => Ret (channel_asset c)
  | S l => match default [] (sym_lanes c) !! l with Some x => Ret (lane_asset x) | None => Crash end
  end.

(** The first lane that holds [asset], [-1] for none. *)
Definition sym_lane_of_asset (c : channel) (asset : list Z) : Z :=
  let assets := channel_asset c :: map lane_asset (default [] (sym_lanes c)) in
  match list_find (fun a => a = asset) assets with
  | Some (l, _) => Z.of_nat l
  | None => -1
  end.

Definition sym_lane_funding (c : channel) (lane : nat) : outcome (outpoint * amount_sat_t) :=
  match lane with
  | O => Ret (funding c, funding_sats c)
  | S l =>
      match default [] (sym_lanes c) !! l with
      | Some x => Ret (mk_outpoint (txid (funding c)) (lane_outnum x), lane_funding_sats x)
      | None => Crash
      end
  end.

Definition sym_lane_owed (c : channel) (lane : nat) (v s : side) : outcome amount_msat_t :=
  match lane with
  | O => Ret (owed (view c).[v]).[s]
  | S l =>
      match lane_bals c !! l with
      | Some b => Ret (lane_owed b).[v].[s]
      | None => Crash
      end
  end.

Definition SYM_MAX_LANES : nat := 8.

(** The lanes before [i] are [done]. *)
Fixpoint lanes_sound (channel_asset : list Z) (done lanes : list sym_lane) : bool :=
  match lanes with
  | [] => true
  | l :: rest =>
      (nth 0 (lane_asset l) 0 =? 1)
      && negb (bool_decide (lane_asset l = channel_asset))
      && negb (existsb (fun d => bool_decide (lane_asset l = lane_asset d)) done)
      && negb (amount_sat_eq (lane_funding_sats l) (mk_sat 0)
               || (INT64_MAX / 1000 <? satoshis (lane_funding_sats l)))
      && lanes_sound channel_asset (done ++ [l]) rest
  end.

(** Whether the lanes are sound (NULL in the source). *)
Definition sym_lanes_check (lanes : list sym_lane) (channel_asset : list Z) : bool :=
  let n := length lanes in
  negb ((n =? 0)%nat || (SYM_MAX_LANES <? n)%nat) && lanes_sound channel_asset [] lanes.

(** What a lane is split into at the start: [local] ours, the rest theirs; the
    source fails the daemon where the lane does not hold that much. *)
Fixpoint lane_balances (lanes : list sym_lane) (local : list amount_msat_t)
  : outcome (list sym_lane_balance) :=
  match lanes, local with
  | [], _ => Ret []
  | _ :: _, [] => Crash
  | lane :: lanes, mine :: local =>
      match amount_sat_sub_msat (lane_funding_sats lane) mine with
      | None => Crash
      | Some remote =>
          let o := mk_sides mine remote in
          rest ← lane_balances lanes local; Ret (mk_lane_bal (mk_sides o o) :: rest)
      end
  end.

(** channeld attaches the lanes it was started with. *)
Definition attach_lanes (asset : list Z) (lanes : list sym_lane) (local : list amount_msat_t)
    (c : channel) : outcome channel :=
  match lanes with
  | [] => Ret c
  | _ => assert_then (sym_lanes_check lanes asset)
           (bals ← lane_balances lanes local; Ret (set_lane_bal (Some bals) (set_lanes (Some lanes) c)))
  end.

(** openingd gives every lane to the opener. *)
Fixpoint opener_balances (opener : side) (lanes : list sym_lane) : outcome (list sym_lane_balance) :=
  match lanes with
  | [] => Ret []
  | lane :: lanes =>
      match amount_sat_to_msat (lane_funding_sats lane) with
      | None => Crash
      | Some all =>
          let o := upd opener all (mk_sides (mk_msat 0) (mk_msat 0)) in
          rest ← opener_balances opener lanes; Ret (mk_lane_bal (mk_sides o o) :: rest)
      end
  end.

Definition sym_attach_lanes (lanes : list sym_lane) (c : channel) : outcome channel :=
  match lanes with
  | [] => Ret c
  | _ => bals ← opener_balances (opener c) lanes; Ret (set_lane_bal (Some bals) (set_lanes (Some lanes) c))
  end.

(** Move [amount] from [from] to the other side, or nothing. *)
Definition owed_move (owed : sides amount_msat_t) (from : side) (amount : amount_msat_t)
  : option (sides amount_msat_t) :=
  match amount_msat_deduct owed.[from] amount, amount_msat_accumulate owed.[other from] amount with
  | Some f, Some t => Some (upd (other from) t (upd from f owed))
  | _, _ => None
  end.

(** One view's balances: lane 0's and every other lane's; [None] is false, with
    nothing changed. *)
Definition sym_swap_apply (swap : sym_swap) (owed0 : sides amount_msat_t)
    (lanes : list sym_lane_balance) (v : side)
  : option (sides amount_msat_t * list sym_lane_balance) :=
  let owner := htlc_state_owner (swap_state swap) in
  let n := length lanes in
  if (give_lane swap =? take_lane swap)%nat || (n <? give_lane swap)%nat || (n <? take_lane swap)%nat
  then None
  else
    let all := owed0 :: map (fun b => (lane_owed b).[v]) lanes in
    match all !! give_lane swap, all !! take_lane swap with
    | Some g, Some t =>
        match owed_move g owner (swap_give swap), owed_move t (other owner) (swap_take swap) with
        | Some give, Some take =>
            match <[take_lane swap := take]> (<[give_lane swap := give]> all) with
            | owed0 :: rest =>
                Some (owed0, zip_with (fun b o => mk_lane_bal (upd v o (lane_owed b))) lanes rest)
            | [] => None
            end
        | _, _ => None
        end
    | _, _ => None
    end.
