(* ===== verification/Tx.v ===== *)
(** * Transactions (bitcoin/tx.c) and the order of their outputs
    (common/permute_tx.c)

    A transaction is what its libwally and PSBT forms hold in common: its
    inputs, its outputs, the room allocated for outputs and the asset the
    outputs are denominated in.  Serialization is libwally's: its two functions
    are arguments.  The arrays [permute_outputs] permutes together (outputs,
    PSBT outputs, the caller's map and the CLTVs) are one list of [slot]s. *)

From stdpp Require Import list sorting.
From S2P Require Import Prelude Chainparams Amount Script HtlcState ChannelState.
Local Open Scope Z_scope.

Record tx_output := mk_output { out_satoshi : amount_sat_t; out_script : list Z; out_asset : list Z }.
Record tx_input := mk_input {
  in_outpoint : outpoint;
  in_sequence : Z;
  in_utxo : tx_output;
  in_wscript : option (list Z);
}.
Record bitcoin_tx := mk_tx {
  tx_version : Z;
  tx_locktime : Z;
  tx_inputs : list tx_input;
  tx_outputs : list tx_output;
  outputs_allocation_len : Z;
  output_asset : list Z;
}.

#[export] Instance tx_output_eq_dec : EqDecision tx_output.
Proof. solve_decision. Defined.

Definition set_tx_outputs (l : list tx_output) (tx : bitcoin_tx) : bitcoin_tx :=
  mk_tx (tx_version tx) (tx_locktime tx) (tx_inputs tx) l (outputs_allocation_len tx) (output_asset tx).

(** ** Building (bitcoin/tx.c) *)

Section Chain.
Context (params : chainparams) (sha256 : list Z -> list Z).

Definition set_default_output_asset : list Z :=
  match is_elements params, fee_asset_tag params with
  | true, Some tag => tag
  | _, _ => repeat 0 33
  end.

Definition bitcoin_tx_new (output_count nlocktime : Z) : bitcoin_tx :=
  mk_tx 2 nlocktime [] [] (if is_elements params then output_count + 1 else output_count)
    set_default_output_asset.

Definition bitcoin_tx_set_output_asset (asset : option (list Z)) (tx : bitcoin_tx) : bitcoin_tx :=
  match is_elements params, asset with
  | true, Some a =>
      mk_tx (tx_version tx) (tx_locktime tx) (tx_inputs tx) (tx_outputs tx) (outputs_allocation_len tx) a
  | _, _ => tx
  end.

(** An output of a chain without assets has none. *)
Definition wally_tx_output_asset (script : list Z) (amount : amount_sat_t) (asset : list Z) : tx_output :=
  mk_output amount script (if is_elements params then asset else []).

(** The transaction, and the position of the new output. *)
Definition bitcoin_tx_add_output (script : list Z) (amount : amount_sat_t) (tx : bitcoin_tx)
  : outcome bitcoin_tx :=
  assert_then (Z.of_nat (length (tx_outputs tx)) <? outputs_allocation_len tx)
    (Ret (set_tx_outputs (tx_outputs tx ++ [wally_tx_output_asset script amount (output_asset tx)]) tx)).

Definition bitcoin_tx_set_locktime (locktime : Z) (tx : bitcoin_tx) : bitcoin_tx :=
  mk_tx (tx_version tx) locktime (tx_inputs tx) (tx_outputs tx) (outputs_allocation_len tx) (output_asset tx).

(** With a witness script, the output spent is its P2WSH. *)
Definition bitcoin_tx_add_input (outpoint : outpoint) (sequence : Z) (amount : amount_sat_t)
    (input_wscript : list Z) (tx : bitcoin_tx) : bitcoin_tx :=
  let utxo := wally_tx_output_asset (scriptpubkey_p2wsh sha256 input_wscript) amount (output_asset tx) in
  mk_tx (tx_version tx) (tx_locktime tx)
    (tx_inputs tx ++ [mk_input outpoint sequence utxo (Some input_wscript)])
    (tx_outputs tx) (outputs_allocation_len tx) (output_asset tx).

Definition wally_tx_output_get_amount (output : tx_output) : outcome amount_asset_t :=
  if is_elements params then
    assert_then (length (out_asset output) =? 33)%nat
      (Ret (mk_asset (if byte (out_asset output) 0 =? 1 then satoshis (out_satoshi output) else 0)
              (out_asset output)))
  else Ret (mk_asset (satoshis (out_satoshi output)) (repeat 0 33)).

Definition elements_wtx_output_is_fee (output : tx_output) : bool :=
  is_elements params && (length (out_script output) =? 0)%nat.

(** The fold over the outputs; an underflow returns 0 at once. *)
Fixpoint compute_fee_from (tx : bitcoin_tx) (outs : list tx_output) (input_val : amount_sat_t)
  : outcome amount_sat_t :=
  match outs with
  | [] => Ret input_val
  | o :: outs =>
    asset ← wally_tx_output_get_amount o;
    if elements_wtx_output_is_fee o || negb (amount_asset_is params asset (output_asset tx))
    then compute_fee_from tx outs input_val
    else match amount_sat_sub input_val (mk_sat (asset_value asset)) with
         | None => Ret (mk_sat 0)
         | Some v => compute_fee_from tx outs v
         end
  end.
Definition bitcoin_tx_compute_fee_w_inputs (tx : bitcoin_tx) (input_val : amount_sat_t)
  : outcome amount_sat_t := compute_fee_from tx (tx_outputs tx) input_val.

Fixpoint sum_inputs (ins : list tx_input) (total : amount_sat_t) : outcome amount_sat_t :=
  match ins with
  | [] => Ret total
  | i :: ins =>
    asset ← wally_tx_output_get_amount (in_utxo i);
    match amount_sat_add total (mk_sat (asset_value asset)) with
    | None => Crash
    | Some t => sum_inputs ins t
    end
  end.
Definition bitcoin_tx_compute_fee (tx : bitcoin_tx) : outcome amount_sat_t :=
  total ← sum_inputs (tx_inputs tx) (mk_sat 0);
  bitcoin_tx_compute_fee_w_inputs tx total.

Definition bitcoin_tx_output_set_amount (outnum : nat) (amount : amount_sat_t) (tx : bitcoin_tx) : bitcoin_tx :=
  set_tx_outputs (alter (fun o => mk_output amount (out_script o) (out_asset o)) outnum (tx_outputs tx)) tx.

Definition elements_tx_add_fee_output (tx : bitcoin_tx) : outcome bitcoin_tx :=
  fee ← bitcoin_tx_compute_fee tx;
  if negb (is_elements params) then Ret tx
  else match list_find (fun o => elements_wtx_output_is_fee o = true) (tx_outputs tx) with
       | None => bitcoin_tx_add_output [] fee tx
       | Some (pos, _) => Ret (bitcoin_tx_output_set_amount pos fee tx)
       end.

Section Serialize.
(** libwally's serialization, with the witness (the flag) or without. *)
Context (wally_tx_get_length : bool -> bitcoin_tx -> option nat)
        (wally_tx_to_bytes : bool -> bitcoin_tx -> option (list Z)).

Definition bitcoin_tx_check (tx : bitcoin_tx) : bool :=
  match wally_tx_get_length true tx with
  | None => false
  | Some n =>
    match wally_tx_to_bytes true tx with
    | None => false
    | Some bytes => (length bytes =? n)%nat
    end
  end.

Definition bitcoin_tx_finalize (tx : bitcoin_tx) : outcome bitcoin_tx :=
  tx ← elements_tx_add_fee_output tx;
  assert_then (bitcoin_tx_check tx) (Ret tx).

Definition bitcoin_txid (tx : bitcoin_tx) : outcome (list Z) :=
  match wally_tx_get_length false tx, wally_tx_to_bytes false tx with
  | Some len, Some arr => assert_then (length arr =? len)%nat (Ret (sha256 (sha256 arr)))
  | _, _ => Crash
  end.
End Serialize.
End Chain.

(** ** Ordering the outputs (common/permute_tx.c) *)

Section Permute.
Context {M : Type}.

(** One position of the arrays: the output, what the caller's map says of it,
    and its CLTV (0 where the caller passes no CLTVs). *)
Record slot := mk_slot { slot_out : tx_output; slot_map : M; slot_cltv : Z }.

Definition swap_wally_outputs (l : list slot) (i1 i2 : nat) : list slot :=
  if (i1 =? i2)%nat then l
  else match l !! i1, l !! i2 with
       | Some a, Some b => <[i2 := a]> (<[i1 := b]> l)
       | _, _ => l
       end.

Definition output_better (a b : slot) : bool :=
  let sa := satoshis (out_satoshi (slot_out a)) in
  let sb := satoshis (out_satoshi (slot_out b)) in
  if negb (sa =? sb) then sa <? sb
  else
    let lena := length (out_script (slot_out a)) in
    let lenb := length (out_script (slot_out b)) in
    match memcmp (out_script (slot_out a)) (out_script (slot_out b)) with
    | Lt => true
    | Gt => false
    | Eq => if negb (lena =? lenb)%nat then (lena <? lenb)%nat else slot_cltv a <? slot_cltv b
    end.

(** The loop of [find_best_out], at index [i] with the best so far. *)
Fixpoint find_best_from (best : nat) (best_slot : slot) (i : nat) (rest : list slot) : nat :=
  match rest with
  | [] => best
  | a :: rest =>
    if output_better a best_slot then find_best_from i a (S i) rest
    else find_best_from best best_slot (S i) rest
  end.
Definition find_best_out (outputs : list slot) : nat :=
  match outputs with [] => 0%nat | a :: rest => find_best_from 0 a 1 rest end.

(** [n] rounds of the sort, from position [i]. *)
Fixpoint permute_from (n i : nat) (l : list slot) : list slot :=
  match n with
  | O => l
  | S n => permute_from n (S i) (swap_wally_outputs l i (i + find_best_out (drop i l))%nat)
  end.
Definition permute_outputs (l : list slot) : list slot := permute_from (length l - 1) 0 l.
End Permute.
Arguments slot : clear implicits.

(** ** Lemmas: the order *)

(** Lexicographic comparison of byte strings, a prefix before its extensions:
    what [memcmp] and the comparison of the lengths compute together. *)
Fixpoint bytes_cmp (a b : list Z) : comparison :=
  match a, b with
  | [], [] => Eq
  | [], _ :: _ => Lt
  | _ :: _, [] => Gt
  | x :: a, y :: b => match x ?= y with Eq => bytes_cmp a b | c => c end
  end.

Lemma bytes_cmp_memcmp a b :
  bytes_cmp a b = match memcmp a b with Eq => (length a ?= length b)%nat | c => c end.
Proof.
  revert b; induction a as [|x a IH]; intros [|y b]; cbn; try done.
  destruct (x ?= y); [apply IH|done|done].
Qed.

Lemma bytes_cmp_eq a b : bytes_cmp a b = Eq <-> a = b.
Proof.
  revert b; induction a as [|x a IH]; intros [|y b]; cbn; try done.
  destruct (Z.compare_spec x y) as [->|H|H]; [rewrite IH; naive_solver|split; [done|]; intros [=]; lia..].
Qed.

Lemma bytes_cmp_antisym a b : bytes_cmp b a = CompOpp (bytes_cmp a b).
Proof.
  revert b; induction a as [|x a IH]; intros [|y b]; cbn; try done.
  rewrite (Z.compare_antisym x y). by destruct (x ?= y); cbn.
Qed.

Lemma bytes_cmp_trans a b c : bytes_cmp a b = Lt -> bytes_cmp b c = Lt -> bytes_cmp a c = Lt.
Proof.
  revert b c; induction a as [|x a IH]; intros [|y b] [|z c]; cbn; try done.
  destruct (Z.compare_spec x y), (Z.compare_spec y z), (Z.compare_spec x z); subst; try done; try lia.
  apply IH.
Qed.

(** What the order sees of a slot. *)
Definition key : Type := Z * list Z * Z.
Definition key_cmp (a b : key) : comparison :=
  let '(sa, pa, ca) := a in
  let '(sb, pb, cb) := b in
  match sa ?= sb with
  | Eq => match bytes_cmp pa pb with Eq => ca ?= cb | c => c end
  | c => c
  end.

Lemma key_cmp_eq a b : key_cmp a b = Eq <-> a = b.
Proof.
  destruct a as [[sa pa] ca], b as [[sb pb] cb]. cbn.
  destruct (Z.compare_spec sa sb) as [->|?|?]; [|split; [done|intros [=]; lia]..].
  destruct (bytes_cmp pa pb) eqn:E.
  - apply bytes_cmp_eq in E as ->. rewrite Z.compare_eq_iff. naive_solver.
  - split; [done|]. intros [= -> _]. by rewrite (proj2 (bytes_cmp_eq pb pb) eq_refl) in E.
  - split; [done|]. intros [= -> _]. by rewrite (proj2 (bytes_cmp_eq pb pb) eq_refl) in E.
Qed.

Lemma key_cmp_antisym a b : key_cmp b a = CompOpp (key_cmp a b).
Proof.
  destruct a as [[sa pa] ca], b as [[sb pb] cb]. cbn.
  rewrite (Z.compare_antisym sa sb), (bytes_cmp_antisym pa pb), (Z.compare_antisym ca cb).
  by destruct (sa ?= sb); cbn; [destruct (bytes_cmp pa pb)|..].
Qed.

Lemma key_cmp_trans a b c : key_cmp a b = Lt -> key_cmp b c = Lt -> key_cmp a c = Lt.
Proof.
  destruct a as [[sa pa] ca], b as [[sb pb] cb], c as [[sc pc] cc]. cbn.
  destruct (Z.compare_spec sa sb), (Z.compare_spec sb sc), (Z.compare_spec sa sc); subst; try done; try lia.
  destruct (bytes_cmp pa pb) eqn:E1, (bytes_cmp pb pc) eqn:E2; try done.
  - apply bytes_cmp_eq in E1 as ->. rewrite E2. rewrite !Z.compare_lt_iff. lia.
  - apply bytes_cmp_eq in E1 as ->. by rewrite E2.
  - apply bytes_cmp_eq in E2 as ->. by rewrite E1.
  - by rewrite (bytes_cmp_trans _ _ _ E1 E2).
Qed.

(** [a] need not come after [b]. *)
Definition key_le (a b : key) : Prop := key_cmp a b <> Gt.

#[export] Instance key_le_trans : Transitive key_le.
Proof.
  unfold key_le. intros a b c Hab Hbc. destruct (key_cmp a b) eqn:E1; [|..|done].
  - by apply key_cmp_eq in E1 as ->.
  - destruct (key_cmp b c) eqn:E2; [|..|done].
    + apply key_cmp_eq in E2 as ->. by rewrite E1.
    + by rewrite (key_cmp_trans _ _ _ E1 E2).
Qed.
#[export] Instance key_le_total : Total key_le.
Proof.
  unfold key_le. intros a b. rewrite (key_cmp_antisym a b). destruct (key_cmp a b); cbn; auto.
Qed.
#[export] Instance key_le_antisym : AntiSymm (=) key_le.
Proof.
  unfold key_le. intros a b. rewrite (key_cmp_antisym a b).
  destruct (key_cmp a b) eqn:E; cbn; try done. intros _ _. by apply key_cmp_eq.
Qed.

Section Sorting.
Context {M : Type}.
Implicit Types (a b : slot M) (l : list (slot M)).

Definition slot_key a : key :=
  (satoshis (out_satoshi (slot_out a)), out_script (slot_out a), slot_cltv a).

Lemma output_better_key a b :
  output_better a b = match key_cmp (slot_key a) (slot_key b) with Lt => true | _ => false end.
Proof.
  unfold output_better, key_cmp, slot_key. rewrite bytes_cmp_memcmp.
  destruct (Z.compare_spec (satoshis (out_satoshi (slot_out a))) (satoshis (out_satoshi (slot_out b))))
    as [E|E|E]; [rewrite (proj2 (Z.eqb_eq _ _) E)|rewrite (proj2 (Z.eqb_neq _ _)) by lia; cbn..];
    [|by apply Z.ltb_lt|by apply Z.ltb_ge; lia].
  cbn. destruct (memcmp _ _); [|done..].
  destruct (Nat.compare_spec (length (out_script (slot_out a))) (length (out_script (slot_out b))))
    as [E'|E'|E']; [rewrite (proj2 (Nat.eqb_eq _ _) E')|rewrite (proj2 (Nat.eqb_neq _ _)) by lia; cbn..].
  - cbn. destruct (Z.compare_spec (slot_cltv a) (slot_cltv b)); [apply Z.ltb_ge|apply Z.ltb_lt|apply Z.ltb_ge]; lia.
  - by apply Nat.ltb_lt.
  - apply Nat.ltb_ge. lia.
Qed.

Lemma not_better_le a b : output_better a b = false -> key_le (slot_key b) (slot_key a).
Proof.
  rewrite output_better_key. unfold key_le. rewrite (key_cmp_antisym (slot_key a) (slot_key b)).
  by destruct (key_cmp _ _).
Qed.
Lemma better_le a b : output_better a b = true -> key_le (slot_key a) (slot_key b).
Proof. rewrite output_better_key. unfold key_le. by destruct (key_cmp _ _). Qed.

(** ** Lemmas: the sort *)

(** The index found is of a slot that no other precedes. *)
Lemma find_best_from_spec pre best bs rest :
  (pre ++ rest) !! best = Some bs -> (best < length pre)%nat ->
  (forall x, x ∈ pre -> key_le (slot_key bs) (slot_key x)) ->
  exists b, (pre ++ rest) !! find_best_from best bs (length pre) rest = Some b
    /\ forall x, x ∈ pre ++ rest -> key_le (slot_key b) (slot_key x).
Proof.
  revert pre best bs; induction rest as [|a rest IH]; intros pre best bs Hb Hlt Hmin; cbn.
  - exists bs. rewrite app_nil_r in *. done.
  - assert (Hpre : (pre ++ a :: rest) = (pre ++ [a]) ++ rest) by (by rewrite <- app_assoc).
    rewrite Hpre in *. replace (S (length pre)) with (length (pre ++ [a])) by (rewrite length_app; cbn; lia).
    destruct (output_better a bs) eqn:E.
    + apply IH; [|rewrite length_app; cbn; lia|].
      * rewrite lookup_app_l by (rewrite length_app; cbn; lia). by rewrite lookup_app_r, Nat.sub_diag by lia.
      * intros x [Hx|Hx]%elem_of_app; [|apply list_elem_of_singleton in Hx as ->; by destruct (key_le_total (slot_key a) (slot_key a))].
        transitivity (slot_key bs); [by apply better_le|by apply Hmin].
    + apply IH; [done|rewrite length_app; cbn; lia|].
      intros x [Hx|Hx]%elem_of_app; [by apply Hmin|]. apply list_elem_of_singleton in Hx as ->.
      by apply not_better_le.
Qed.

Lemma find_best_out_spec l :
  l <> [] -> exists b, l !! find_best_out l = Some b
    /\ forall x, x ∈ l -> key_le (slot_key b) (slot_key x).
Proof.
  destruct l as [|a l]; [done|]. intros _. cbn [find_best_out].
  apply (find_best_from_spec [a] 0 a l); [done|cbn; lia|].
  intros x ->%list_elem_of_singleton. by destruct (key_le_total (slot_key a) (slot_key a)).
Qed.

(** Putting the best first: the rest is what remains. *)
Lemma swap_first l k b :
  l !! k = Some b -> exists l', swap_wally_outputs l 0 k = b :: l' /\ b :: l' ≡ₚ l.
Proof.
  unfold swap_wally_outputs. destruct k as [|k]; cbn.
  - destruct l; [done|]. intros [= ->]. eauto.
  - destruct l as [|a l]; [done|]. cbn. intros Hk. rewrite Hk. exists (<[k := a]> l). split; [done|].
    rewrite <- (take_drop_middle _ _ _ Hk) at 2. rewrite insert_take_drop by (by eapply lookup_lt_Some).
    rewrite <- !Permutation_middle. apply Permutation_swap.
Qed.

Lemma swap_app p l i j :
  swap_wally_outputs (p ++ l) (length p + i) (length p + j) = p ++ swap_wally_outputs l i j.
Proof.
  unfold swap_wally_outputs. destruct (Nat.eqb_spec i j) as [->|Hij].
  { by rewrite (proj2 (Nat.eqb_eq _ _) eq_refl). }
  rewrite (proj2 (Nat.eqb_neq _ _)) by lia. rewrite !lookup_app_r by lia.
  replace (length p + i - length p)%nat with i by lia.
  replace (length p + j - length p)%nat with j by lia.
  destruct (l !! i), (l !! j); try done. by rewrite !insert_app_r.
Qed.

Lemma permute_from_app n p l i :
  permute_from n (length p + i) (p ++ l) = p ++ permute_from n i l.
Proof.
  revert i l; induction n as [|n IH]; intros i l; cbn; [done|].
  rewrite drop_app_add', <- Nat.add_assoc, swap_app by done.
  replace (S (length p + i)) with (length p + S i)%nat by lia. apply IH.
Qed.

Lemma permute_outputs_sorts l :
  permute_outputs l ≡ₚ l /\ StronglySorted key_le (slot_key <$> permute_outputs l).
Proof.
  remember (length l) as n eqn:Hn. revert l Hn. unfold permute_outputs.
  induction n as [|n IH]; intros l Hn.
  - destruct l; [|done]. split; [done|constructor].
  - destruct l as [|a l]; [done|]. injection Hn as Hn. cbn [length Nat.sub].
    rewrite ?Nat.sub_0_r.
    destruct n as [|n].
    { destruct l; [|done]. cbn. split; [done|]. repeat constructor. }
    rewrite <- Hn. cbn [permute_from]. rewrite drop_0, Nat.add_0_l.
    destruct (find_best_out_spec (a :: l)) as (b & Hb & Hmin); [done|].
    destruct (swap_first _ _ _ Hb) as (l' & -> & Hp).
    assert (Hl : length l' = S n) by (apply Permutation_length in Hp; cbn in Hp; lia).
    change (permute_from n 1 (b :: l')) with (permute_from n (length [b] + 0) ([b] ++ l')).
    rewrite permute_from_app. destruct (IH l' (eq_sym Hl)) as [IHp IHs].
    rewrite Hl in IHp, IHs. cbn [Nat.sub] in IHp, IHs. rewrite Nat.sub_0_r in IHp, IHs. cbn [app]. split.
    + by rewrite IHp.
    + cbn. constructor; [done|]. apply Forall_fmap, Forall_forall. intros x Hx. apply Hmin.
      rewrite <- Hp. apply elem_of_cons. right. by rewrite <- IHp.
Qed.

(** The key of a slot under another tie-break. *)
Definition key_by (f : slot M -> Z) a : key :=
  (satoshis (out_satoshi (slot_out a)), out_script (slot_out a), f a).

(** The slots are in order under any tie-break that the CLTVs refine. *)
Lemma permute_outputs_sorted_by f l :
  (forall a b, a ∈ l -> b ∈ l -> slot_out a = slot_out b -> f a < f b -> slot_cltv a < slot_cltv b) ->
  (forall a b, a ∈ l -> b ∈ l -> out_asset (slot_out a) = out_asset (slot_out b)) ->
  StronglySorted key_le (key_by f <$> permute_outputs l).
Proof.
  intros Hf Ha. destruct (permute_outputs_sorts l) as [Hp Hs].
  assert (Hin : forall a, a ∈ permute_outputs l -> a ∈ l) by (intros a; by rewrite Hp).
  clear Hp. induction (permute_outputs l) as [|x r IH]; cbn in *; [constructor|].
  apply StronglySorted_inv in Hs as [Hs Hx]. constructor.
  - apply IH; [done|]. intros a Hin'. apply Hin. by right.
  - rewrite Forall_fmap, Forall_forall in *. intros y Hy. specialize (Hx y Hy). cbn in Hx |- *.
    assert (x ∈ l) by (apply Hin; left). assert (y ∈ l) by (apply Hin; by right).
    unfold key_le, key_by, slot_key, key_cmp in *.
    destruct (Z.compare_spec (satoshis (out_satoshi (slot_out x))) (satoshis (out_satoshi (slot_out y))))
      as [Es|?|?]; [|done|done].
    destruct (bytes_cmp _ _) eqn:Eb; [|done|done]. apply bytes_cmp_eq in Eb.
    rewrite Z.compare_gt_iff in *. intros Hlt. apply Hx.
    apply (Hf y x); [done|done| |done]. specialize (Ha x y).
    destruct (slot_out x) as [[?] ? ?], (slot_out y) as [[?] ? ?]; cbn in *. f_equal; try congruence.
    by rewrite Ha.
Qed.
End Sorting.

(** Two arrays with the same keys are put in the same order. *)
Lemma permute_outputs_agree {M N} (f : slot M -> Z) (g : slot N -> Z) l1 l2 :
  (forall a b, a ∈ l1 -> b ∈ l1 -> slot_out a = slot_out b -> f a < f b -> slot_cltv a < slot_cltv b) ->
  (forall a b, a ∈ l2 -> b ∈ l2 -> slot_out a = slot_out b -> g a < g b -> slot_cltv a < slot_cltv b) ->
  (forall a b, a ∈ l1 -> b ∈ l1 -> out_asset (slot_out a) = out_asset (slot_out b)) ->
  (forall a b, a ∈ l2 -> b ∈ l2 -> out_asset (slot_out a) = out_asset (slot_out b)) ->
  key_by f <$> l1 ≡ₚ key_by g <$> l2 ->
  key_by f <$> permute_outputs l1 = key_by g <$> permute_outputs l2.
Proof.
  intros Hf Hg Ha1 Ha2 Hk. apply (StronglySorted_unique key_le).
  - by apply permute_outputs_sorted_by.
  - by apply permute_outputs_sorted_by.
  - by rewrite (proj1 (permute_outputs_sorts l1)), (proj1 (permute_outputs_sorts l2)).
Qed.

(** The outputs alone fix the order they are left in. *)
Lemma permute_outputs_same {M N} (l1 : list (slot M)) (l2 : list (slot N)) asset :
  (forall a, a ∈ slot_out <$> l1 -> out_asset a = asset) ->
  slot_out <$> l1 ≡ₚ slot_out <$> l2 ->
  slot_out <$> permute_outputs l1 = slot_out <$> permute_outputs l2.
Proof.
  intros Ha Hp. destruct (permute_outputs_sorts l1) as [Hp1 _], (permute_outputs_sorts l2) as [Hp2 _].
  set (back := fun k : key => mk_output (mk_sat (fst (fst k))) (snd (fst k)) asset).
  assert (Hback : forall T (l : list (slot T)), (forall a, a ∈ slot_out <$> l -> out_asset a = asset) ->
            slot_out <$> l = back <$> (key_by (fun _ => 0) <$> l)).
  { intros T l Hl. rewrite <- list_fmap_compose. apply list_fmap_ext. intros i x Hx. unfold back, compose. cbn.
    rewrite <- (Hl (slot_out x)) by (apply list_elem_of_fmap_2; by eapply list_elem_of_lookup_2).
    by destruct (slot_out x) as [[?] ? ?]. }
  assert (Ha2 : forall a, a ∈ slot_out <$> l2 -> out_asset a = asset) by (intros a; rewrite <- Hp; apply Ha).
  rewrite (Hback M), (Hback N) by (intros a; rewrite ?Hp1, ?Hp2; auto).
  f_equal. apply permute_outputs_agree; try done; try lia.
  - intros a b Hxa Hxb. rewrite !Ha; [done| |]; by apply list_elem_of_fmap_2.
  - intros a b Hxa Hxb. rewrite !Ha2; [done| |]; by apply list_elem_of_fmap_2.
  - set (k := fun o => (satoshis (out_satoshi o), out_script o, 0) : key).
    change (k ∘ slot_out <$> l1 ≡ₚ k ∘ slot_out <$> l2). rewrite !list_fmap_compose. by rewrite Hp.
Qed.

(** [permute_outputs] only reorders, and the order it leaves is a function
    of the outputs alone: two arrays holding the same outputs of one asset end
    up with the same outputs at the same positions, in whatever order they
    came, whatever the map, and whatever the CLTVs are. *)
Theorem permute_outputs_canonical {M N} (l1 : list (slot M)) (l2 : list (slot N)) asset :
  (forall a, a ∈ slot_out <$> l1 -> out_asset a = asset) ->
  slot_out <$> l1 ≡ₚ slot_out <$> l2 ->
  permute_outputs l1 ≡ₚ l1
  /\ slot_out <$> permute_outputs l1 = slot_out <$> permute_outputs l2.
Proof.
  intros Ha Hp. split; [by apply permute_outputs_sorts|by eapply permute_outputs_same].
Qed.

Lemma permute_outputs_canonical_witness :
  exists a b : tx_output, a <> b /\
  slot_out <$> permute_outputs [mk_slot a 1 7; mk_slot b 2 0] =
  slot_out <$> permute_outputs [mk_slot b tt 0; mk_slot a tt 5].
Proof.
  exists (mk_output (mk_sat 330) [0; 32] []), (mk_output (mk_sat 330) [0; 20] []). split; [done|].
  apply (permute_outputs_canonical
    [mk_slot (mk_output (mk_sat 330) [0; 32] []) 1 7; mk_slot (mk_output (mk_sat 330) [0; 20] []) 2 0]
    [mk_slot (mk_output (mk_sat 330) [0; 20] []) tt 0; mk_slot (mk_output (mk_sat 330) [0; 32] []) tt 5] []).
  - cbn. intros a Ha. repeat (apply elem_of_cons in Ha as [->|Ha]; [done|]). by apply elem_of_nil in Ha.
  - apply Permutation_swap.
Defined.
