(* ===== verification/SymScripts.v ===== *)
(** * Scripts of symmetric channels (common/sym_scripts.c)

    The constants of a channel, the leaves of its outputs, the trees of its
    state and kickoff outputs, the settle clock's seed and clock, the message
    both sides sign for a state, the witnesses, and the settlement of a state.
    An array a C function appends to is the concatenation of what it appends.
    SHA256, RIPEMD160, libwally's issuance functions and the sort of the C
    library are arguments.  [handle] is the type of a caller's HTLC handles. *)

From stdpp Require Import list.
From S2P Require Import Prelude Chainparams Amount HtlcState Wire Script Keys Tapscript ChannelState Tx.
Local Open Scope Z_scope.

Definition OP_16 := 0x60.
Definition OP_VERIFY := 0x69.
Definition OP_OVER := 0x78.
Definition OP_ROT := 0x7b.
Definition OP_TUCK := 0x7d.
Definition OP_SHA256 := 0xa8.
Definition SYM_OP_CAT := 0x7e.
Definition SYM_OP_1SUB := 0x8c.
Definition SYM_OP_CHECKSIGFROMSTACKVERIFY := 0xc2.
Definition SYM_OP_SHA256INITIALIZE := 0xc4.
Definition SYM_OP_SHA256UPDATE := 0xc5.
Definition SYM_OP_SHA256FINALIZE := 0xc6.
Definition SYM_OP_INSPECTINPUTASSET := 0xc8.
Definition SYM_OP_INSPECTINPUTVALUE := 0xc9.
Definition SYM_OP_INSPECTINPUTSCRIPTPUBKEY := 0xca.
Definition SYM_OP_PUSHCURRENTINPUTINDEX := 0xcd.
Definition SYM_OP_INSPECTOUTPUTASSET := 0xce.
Definition SYM_OP_INSPECTOUTPUTVALUE := 0xcf.
Definition SYM_OP_INSPECTOUTPUTSCRIPTPUBKEY := 0xd1.
Definition SYM_OP_INSPECTLOCKTIME := 0xd3.
Definition SYM_OP_GREATERTHAN64 := 0xde.

(** "SeqLN symmetric update v1". *)
Definition SYM_TAG_PREFIX : list Z :=
  [83; 101; 113; 76; 78; 32; 115; 121; 109; 109; 101; 116; 114; 105; 99; 32; 117; 112; 100; 97; 116; 101; 32; 118; 49].
Definition SIMPLICITY_LEAF_VERSION_ELEMENTS := 0xbe.
Definition SYM_SEQUENCE := 0xFFFFFFFD.
Definition SYM_CLOCK_LOCKTIME_FLOOR := 500000001.

Definition nums_der : list Z :=
  [0x02; 0x50; 0x92; 0x9b; 0x74; 0xc1; 0xa0; 0x49; 0x54; 0xb7; 0x8b;
   0x4b; 0x60; 0x35; 0xe9; 0x7a; 0x5e; 0x07; 0x8a; 0x5a; 0x0f; 0x28;
   0xec; 0x96; 0xd5; 0x47; 0xbf; 0xee; 0x9a; 0xce; 0x80; 0x3a; 0xc0].

(** ** Pieces *)

(** The bytes of [num], the lowest first, down to its last that is not zero. *)
Fixpoint num_bytes (fuel : nat) (num : Z) : list Z :=
  match fuel with
  | O => []
  | S k => if num =? 0 then [] else Z.land num 0xff :: num_bytes k (Z.shiftr num 8)
  end.
(** A u32 has four bytes. *)
Definition push_num (num : Z) : list Z :=
  if num =? 0 then [OP_0]
  else if num <=? 16 then [OP_1 + num - 1]
  else
    let buf := num_bytes 4 num in
    script_push_bytes (if Z.land (byte buf (length buf - 1)) 0x80 =? 0 then buf else buf ++ [0]).

Definition push_xonly (key : list Z) : list Z := script_push_bytes (pubkey_to_xonly key).
Definition le8s (v : Z) : list Z := le_bytes 8 (wrap_u64 v).

(** ** The constants of a channel *)

Record sym_clock := mk_sym_clock { clock_marker : list Z; clock_funding_prog : list Z; clock_capacity : amount_sat_t }.
(** [clock] is [None] where [has_clock] is false. *)
Record sym_channel := mk_sym_channel {
  sym_tag : list Z;
  upd_key_opener : list Z;
  upd_key_accepter : list Z;
  sym_asset : list Z;
  sym_delay : Z;
  clock : option sym_clock;
}.
Definition has_clock (sc : sym_channel) : bool := match clock sc with Some _ => true | None => false end.

Definition sym_state_num (commitment_index : Z) (opener : bool) : outcome Z :=
  assert_then (commitment_index <? 2 ^ 61) (Ret (commitment_index * 2 + (if opener then 0 else 1))).

(** ** The settlement's outputs *)

Inductive sym_output_kind := SYM_OUT_BALANCE | SYM_OUT_HTLC.
Record sym_output {handle : Type} := mk_sym_output {
  so_kind : sym_output_kind;
  so_side : side;
  so_amount : amount_sat_t;
  so_spk : list Z;
  so_asset : option (list Z);
  so_htlc : option handle;
  so_cltv_expiry : Z;
}.
Arguments sym_output : clear implicits.
Record sym_htlc {handle : Type} := mk_sym_htlc {
  sh_owner : side;
  sh_amount : amount_msat_t;
  sh_payment_ripemd : list Z;
  sh_cltv_expiry : Z;
  sh_handle : handle;
}.
Arguments sym_htlc : clear implicits.

(** Why a state cannot be paid out of the funding. *)
Inductive settlement_error := STATE_PAYS_MORE | STATE_PAYS_NOTHING | SETTLEMENT_OVERFLOW.

(** A segwit scriptPubKey's version and program. *)
Definition witness_program (spk : list Z) : outcome (Z * list Z) :=
  let len := length spk in
  assert_then ((4 <=? len)%nat && (byte spk 1 =? Z.of_nat (len - 2)))
  (assert_then ((byte spk 0 =? OP_0) || (OP_1 <=? byte spk 0) && (byte spk 0 <=? OP_16))
     (Ret (if byte spk 0 =? OP_0 then 0 else byte spk 0 - OP_1 + 1, drop 2 spk))).

(** A state output's tree, or KO's: [st_settle] is [None] where the C pointer
    is NULL, [sim_hash] where [has_sim] is false. *)
Record sym_tree := mk_sym_tree {
  st_n : Z;
  st_upd : list Z;
  st_settle : option (list Z);
  upd_hash : list Z;
  st_rest : list Z;
  sim_hash : option (list Z);
  settle_hash : list Z;
  st_merkle_root : list Z;
  st_output_der : list Z;
}.
Inductive sym_leaf := SYM_LEAF_UPD | SYM_LEAF_SETTLE | SYM_LEAF_SIM.

(** libwally's entropy of a new issuance, of the issuer's txid, index and
    contract hash, and the asset of an entropy. *)
Class Issuance := {
  issuance_generate_entropy : list Z -> Z -> list Z -> option (list Z);
  issuance_calculate_asset : list Z -> option (list Z);
}.
Definition sym_marker_id `{Issuance} (issuer : outpoint) : outcome (list Z) :=
  match issuance_generate_entropy (txid issuer) (outnum issuer) (repeat 0 32) ≫= issuance_calculate_asset with
  | Some m => Ret m
  | None => Crash
  end.

Section Scripts.
Context (params : chainparams) (sha256 ripemd160 : list Z -> list Z) `{Taproot}.
Notation tap_leaf_hash := (tap_leaf_hash sha256).
Notation tap_branch_hash := (tap_branch_hash sha256).

Definition sym_channel_init (genesis : list Z) (funding : outpoint) (opener_upd_key accepter_upd_key : list Z)
    (asset_tag : option (list Z)) (delay : Z) : outcome sym_channel :=
  let tag := sha256 (SYM_TAG_PREFIX ++ genesis ++ txid funding ++ le_bytes 4 (outnum funding)) in
  match match asset_tag with Some a => Some a | None => fee_asset_tag params end with
  | Some a =>
    assert_then (byte a 0 =? 0x01) (Ret (mk_sym_channel tag opener_upd_key accepter_upd_key a delay None))
  | None => Crash
  end.

Definition sym_channel_set_clock (sc : sym_channel) (marker funding_wscript : list Z) (capacity : amount_sat_t)
  : sym_channel :=
  mk_sym_channel (sym_tag sc) (upd_key_opener sc) (upd_key_accepter sc) (sym_asset sc) (sym_delay sc)
    (Some (mk_sym_clock marker (sha256 funding_wscript) capacity)).

(** ** Leaves *)

Definition sym_leaf_upd (sc : sym_channel) (k : Z) : list Z :=
  (if has_clock sc then push_num SYM_CLOCK_LOCKTIME_FLOOR ++ [OP_CHECKLOCKTIMEVERIFY; OP_DROP] else [])
  ++ [OP_OVER] ++ script_push_bytes (le8s k) ++ [SYM_OP_GREATERTHAN64; OP_VERIFY;
      SYM_OP_PUSHCURRENTINPUTINDEX; SYM_OP_INSPECTOUTPUTSCRIPTPUBKEY; OP_1; OP_EQUALVERIFY;
      OP_ROT; OP_SWAP; SYM_OP_CAT; OP_SWAP; SYM_OP_CAT]
  ++ script_push_bytes (sym_tag sc) ++ [OP_SWAP; SYM_OP_CAT; OP_SHA256; OP_TUCK]
  ++ push_xonly (upd_key_opener sc) ++ [SYM_OP_CHECKSIGFROMSTACKVERIFY]
  ++ push_xonly (upd_key_accepter sc) ++ [SYM_OP_CHECKSIGFROMSTACKVERIFY;
      SYM_OP_PUSHCURRENTINPUTINDEX; SYM_OP_INSPECTOUTPUTVALUE; SYM_OP_PUSHCURRENTINPUTINDEX;
      SYM_OP_INSPECTINPUTVALUE; OP_ROT; OP_EQUALVERIFY; OP_EQUALVERIFY;
      SYM_OP_PUSHCURRENTINPUTINDEX; SYM_OP_INSPECTOUTPUTASSET; SYM_OP_PUSHCURRENTINPUTINDEX;
      SYM_OP_INSPECTINPUTASSET; OP_ROT; OP_EQUALVERIFY; OP_EQUAL].

(** What the digest takes of one output. *)
Definition settle_item {handle} (sc : sym_channel) (o : sym_output handle) : outcome (list Z) :=
  '(version, prog) ← witness_program (so_spk o);
  Ret (drop 1 (match so_asset o with Some a => a | None => sym_asset sc end) ++ [0x01]
       ++ le_bytes 8 (satoshis (so_amount o)) ++ [0x01]
       ++ sha256 (prog ++ (if version =? 0 then [] else [version]))).
Fixpoint settle_items {handle} (sc : sym_channel) (outs : list (sym_output handle)) : outcome (list Z) :=
  match outs with
  | [] => Ret []
  | o :: outs => a ← settle_item sc o; l ← settle_items sc outs; Ret (a ++ l)
  end.
Definition sym_settle_digest {handle} (sc : sym_channel) (outs : list (sym_output handle)) : outcome (list Z) :=
  m ← settle_items sc outs; Ret (sha256 m).

(** The script's part for output [j] of [m], at index [first + j]. *)
Definition settle_inspect (first m j : nat) : list Z :=
  let i := push_num (Z.of_nat (first + j)) in
  i ++ [SYM_OP_INSPECTOUTPUTASSET; SYM_OP_CAT; if (j =? 0)%nat then SYM_OP_SHA256INITIALIZE else SYM_OP_SHA256UPDATE]
  ++ i ++ [SYM_OP_INSPECTOUTPUTVALUE; SYM_OP_CAT; SYM_OP_SHA256UPDATE]
  ++ i ++ [SYM_OP_INSPECTOUTPUTSCRIPTPUBKEY; SYM_OP_CAT; OP_SHA256;
           if (j =? m - 1)%nat then SYM_OP_SHA256FINALIZE else SYM_OP_SHA256UPDATE].
(** The marker stays: one field of the output against the input's. *)
Definition marker_stays (out_op in_op : Z) : list Z :=
  [SYM_OP_PUSHCURRENTINPUTINDEX; out_op; SYM_OP_PUSHCURRENTINPUTINDEX; in_op; OP_ROT; OP_EQUALVERIFY; OP_EQUALVERIFY].
Definition sym_leaf_settle {handle} (sc : sym_channel) (outs : list (sym_output handle)) : outcome (list Z) :=
  let m := length outs in
  assert_then (1 <=? m)%nat
    (digest ← sym_settle_digest sc outs;
     Ret ((if has_clock sc
           then marker_stays SYM_OP_INSPECTOUTPUTSCRIPTPUBKEY SYM_OP_INSPECTINPUTSCRIPTPUBKEY
                ++ marker_stays SYM_OP_INSPECTOUTPUTASSET SYM_OP_INSPECTINPUTASSET
                ++ marker_stays SYM_OP_INSPECTOUTPUTVALUE SYM_OP_INSPECTINPUTVALUE
           else push_num (sym_delay sc) ++ [OP_CHECKSEQUENCEVERIFY; OP_DROP])
          ++ concat (settle_inspect (if has_clock sc then 1 else 0) m <$> seq 0 m)
          ++ script_push_bytes digest ++ [OP_EQUAL])).

Definition sym_leaf_htlc_success (payment_ripemd receiver_key : list Z) : list Z :=
  [OP_SIZE] ++ push_num 32 ++ [OP_EQUALVERIFY; OP_HASH160] ++ script_push_bytes payment_ripemd
  ++ [OP_EQUALVERIFY] ++ push_xonly receiver_key ++ [OP_CHECKSIG].
Definition sym_leaf_htlc_timeout (offerer_key : list Z) (cltv_expiry : Z) : list Z :=
  push_xonly offerer_key ++ [OP_CHECKSIGVERIFY] ++ push_num cltv_expiry ++ [OP_CHECKLOCKTIMEVERIFY].

(** The internal key H is a point of the curve: [pubkey_from_der] takes it. *)
Definition sym_htlc_tree (offerer_key receiver_key payment_ripemd : list Z) (cltv_expiry : Z) : outcome tap_tree2 :=
  tap_tree2_finish sha256
    [sym_leaf_htlc_success payment_ripemd receiver_key; sym_leaf_htlc_timeout offerer_key cltv_expiry] nums_der.

(** ** State and kickoff outputs *)

Definition tweak_nums (root : list Z) : outcome (list Z) :=
  match bip341_tweak nums_der root with Some der => Ret der | None => Crash end.

Definition sym_state_tree {handle} (sc : sym_channel) (n : Z) (outs : list (sym_output handle)) (sim_cmr : option (list Z))
  : outcome sym_tree :=
  let upd := sym_leaf_upd sc n in
  settle ← sym_leaf_settle sc outs;
  let upd_hash := tap_leaf_hash upd in
  let settle_hash := tap_leaf_hash settle in
  let sim_hash := tap_leaf_hash_version sha256 SIMPLICITY_LEAF_VERSION_ELEMENTS <$> sim_cmr in
  let rest := match sim_hash with Some s => tap_branch_hash settle_hash s | None => settle_hash end in
  let root := tap_branch_hash upd_hash rest in
  der ← tweak_nums root;
  Ret (mk_sym_tree n upd (Some settle) upd_hash rest sim_hash settle_hash root der).

Definition sym_kickoff_tree (sc : sym_channel) : outcome sym_tree :=
  let upd := sym_leaf_upd sc (-1) in
  let root := tap_leaf_hash upd in
  der ← tweak_nums root;
  Ret (mk_sym_tree (-1) upd None root (repeat 0 32) None (repeat 0 32) root der).

Definition sym_tree_program (tree : sym_tree) : list Z := drop 1 (st_output_der tree).
Definition sym_tree_spk (tree : sym_tree) : list Z := OP_1 :: 32 :: sym_tree_program tree.

Definition sym_tree_control_block (tree : sym_tree) (leaf : sym_leaf) : outcome (list Z) :=
  let version := match leaf with SYM_LEAF_SIM => SIMPLICITY_LEAF_VERSION_ELEMENTS | _ => TAPSCRIPT_LEAF_VERSION_ELEMENTS end in
  let cb := Z.lor version (parity (st_output_der tree)) :: drop 1 nums_der in
  if st_n tree =? -1 then match leaf with SYM_LEAF_UPD => Ret cb | _ => Crash end
  else match leaf with
       | SYM_LEAF_UPD => Ret (cb ++ st_rest tree)
       | SYM_LEAF_SETTLE => Ret (cb ++ match sim_hash tree with Some s => s | None => [] end ++ upd_hash tree)
       | SYM_LEAF_SIM => match sim_hash tree with Some _ => Ret (cb ++ settle_hash tree ++ upd_hash tree) | None => Crash end
       end.

(** The output's script, UPD(k) and its control block. *)
Definition sym_rebuild_state (sc : sym_channel) (k : Z) (rest : list Z) : outcome (list Z * list Z * list Z) :=
  let upd := sym_leaf_upd sc k in
  let upd_hash := tap_leaf_hash upd in
  let root := tap_branch_hash upd_hash rest in
  der ← tweak_nums root;
  let tree := mk_sym_tree k upd None upd_hash rest None [] root der in
  cb ← sym_tree_control_block tree SYM_LEAF_UPD;
  Ret (sym_tree_spk tree, upd, cb).

Definition sym_upd_msg (sc : sym_channel) (tree : sym_tree) : outcome (list Z) :=
  assert_then (0 <=? st_n tree)
    (Ret (sha256 (sym_tag sc ++ le8s (st_n tree) ++ sym_tree_program tree ++ st_rest tree))).

(** ** Witnesses *)

Definition sym_update_witness (sig_opener sig_accepter : list Z) (tree : sym_tree) (prev_leaf prev_cb : list Z)
  : list (list Z) :=
  [sig_accepter; sig_opener; le8s (st_n tree); st_rest tree; prev_leaf; prev_cb].

(** A NULL leaf copies as an empty one. *)
Definition sym_settle_witness (tree : sym_tree) : outcome (list (list Z)) :=
  cb ← sym_tree_control_block tree SYM_LEAF_SETTLE;
  Ret [default [] (st_settle tree); cb].

Definition sym_witness_len (wit : list (list Z)) : nat :=
  let n := length wit in
  if (2 <=? n)%nat
     && match wit !! (n - 1)%nat with Some (b :: _) => b =? TAP_ANNEX_TAG | _ => false end
  then (n - 1)%nat else n.

Definition sym_parse_update_witness (wit : list (list Z)) : option (Z * list Z) :=
  let item i := nth i wit [] in
  if negb (sym_witness_len wit =? 6)%nat
     || negb (length (item 0%nat) =? 64)%nat || negb (length (item 1%nat) =? 64)%nat
     || negb (length (item 2%nat) =? 8)%nat || negb (length (item 3%nat) =? 32)%nat
  then None
  else Some (wrap_s64 (le_value (item 2%nat)), item 3%nat).

(** ** The settle clock *)

(** An output tr(H, ...) of merkle root [root], and the control block of a leaf
    whose path is [sibling]. *)
Definition nums_spk (root : list Z) (sibling : option (list Z)) : outcome (list Z * list Z) :=
  der ← tweak_nums root;
  Ret (OP_1 :: 32 :: drop 1 der,
       (Z.lor TAPSCRIPT_LEAF_VERSION_ELEMENTS (parity der) :: drop 1 nums_der) ++ default [] sibling).

Definition sym_leaf_clock (sc : sym_channel) : outcome (list Z) :=
  match clock sc with
  | None => Crash
  | Some c =>
    Ret (push_num (sym_delay sc) ++ [OP_CHECKSEQUENCEVERIFY; OP_DROP; SYM_OP_INSPECTLOCKTIME]
         ++ script_push_bytes (repeat 0 4) ++ [OP_EQUALVERIFY; SYM_OP_PUSHCURRENTINPUTINDEX; SYM_OP_1SUB;
            SYM_OP_INSPECTINPUTASSET; OP_1; OP_EQUALVERIFY] ++ script_push_bytes (clock_marker c) ++ [OP_EQUAL])
  end.
Definition sym_clock_spk (sc : sym_channel) : outcome (list Z * list Z) :=
  leaf ← sym_leaf_clock sc; nums_spk (tap_leaf_hash leaf) None.

Definition explicit_is (before : bool) (inspect : Z) (v : list Z) : list Z :=
  [SYM_OP_PUSHCURRENTINPUTINDEX] ++ (if before then [SYM_OP_1SUB] else []) ++ [inspect; OP_1; OP_EQUALVERIFY]
  ++ script_push_bytes v ++ [OP_EQUALVERIFY].

Definition sym_leaf_kick (sc : sym_channel) : outcome (list Z) :=
  '(clock_script, _) ← sym_clock_spk sc;
  match clock sc with
  | None => Crash
  | Some c =>
    let cap := le_bytes 8 (satoshis (clock_capacity c)) in
    Ret ([SYM_OP_PUSHCURRENTINPUTINDEX; SYM_OP_1SUB; SYM_OP_INSPECTINPUTSCRIPTPUBKEY; OP_0; OP_EQUALVERIFY]
         ++ script_push_bytes (clock_funding_prog c) ++ [OP_EQUALVERIFY]
         ++ explicit_is true SYM_OP_INSPECTINPUTVALUE cap
         ++ explicit_is true SYM_OP_INSPECTINPUTASSET (drop 1 (sym_asset sc))
         ++ explicit_is false SYM_OP_INSPECTOUTPUTASSET (drop 1 (sym_asset sc))
         ++ explicit_is false SYM_OP_INSPECTOUTPUTVALUE cap
         ++ [SYM_OP_PUSHCURRENTINPUTINDEX; SYM_OP_INSPECTOUTPUTSCRIPTPUBKEY; OP_1; OP_EQUALVERIFY]
         ++ script_push_bytes (drop 2 clock_script) ++ [OP_EQUAL])
  end.
Definition sym_leaf_retire (sc : sym_channel) : list Z :=
  push_xonly (upd_key_opener sc) ++ [OP_CHECKSIGVERIFY] ++ push_xonly (upd_key_accepter sc) ++ [OP_CHECKSIG].

(** The seed's script, and the control blocks of KICK and of RETIRE. *)
Definition sym_seed_spk (sc : sym_channel) : outcome (list Z * list Z * list Z) :=
  kick_leaf ← sym_leaf_kick sc;
  let kick := tap_leaf_hash kick_leaf in
  let retire := tap_leaf_hash (sym_leaf_retire sc) in
  let root := tap_branch_hash kick retire in
  '(spk, kick_cb) ← nums_spk root (Some retire);
  '(_, retire_cb) ← nums_spk root (Some kick);
  Ret (spk, kick_cb, retire_cb).

Definition sym_seed_witness (sc : sym_channel) : outcome (list (list Z)) :=
  '(_, kick_cb, _) ← sym_seed_spk sc; leaf ← sym_leaf_kick sc; Ret [leaf; kick_cb].
Definition sym_clock_witness (sc : sym_channel) : outcome (list (list Z)) :=
  '(_, cb) ← sym_clock_spk sc; leaf ← sym_leaf_clock sc; Ret [leaf; cb].

Definition sym_clock_marker_asset (sc : sym_channel) : outcome (list Z) :=
  match clock sc with Some c => Ret (0x01 :: clock_marker c) | None => Crash end.

Definition sym_clock_seed `{Issuance} (sc : sym_channel) (issuer : outpoint) (funding_wscript : list Z)
    (capacity : amount_sat_t) : outcome (list Z) :=
  marker ← sym_marker_id issuer;
  '(spk, _, _) ← sym_seed_spk (sym_channel_set_clock sc marker funding_wscript capacity);
  Ret spk.

(** ** The check of a funding transaction with a clock *)

(** libwally's view of a transaction, as far as the check reads it. *)
Record issuance_input := mk_issuance_input {
  ii_txhash : list Z;
  ii_index : Z;
  ii_is_issuance : bool;
  ii_blinding_nonce : list Z;
  ii_entropy : list Z;
  ii_issuance_amount : list Z;
  ii_inflation_keys : list Z;
}.
Record issuance_output := mk_issuance_output { io_script : list Z; io_asset : list Z; io_value : list Z }.
Record issuance_tx := mk_issuance_tx {
  it_txid : list Z;
  it_inputs : list issuance_input;
  it_outputs : list issuance_output;
}.

Definition explicit_value (v : list Z) : option Z :=
  if negb (length v =? 9)%nat || negb (byte v 0 =? 0x01) then None else Some (be_value (drop 1 v)).
Definition all_zero (p : list Z) : bool := forallb (fun b => b =? 0) p.

(** [wally_tx_output_get_amount] on a chain with assets; a value of less than
    nine bytes is read past its end. *)
Definition issuance_output_amount (o : issuance_output) : outcome amount_asset_t :=
  assert_then (length (io_asset o) =? 33)%nat
    (if byte (io_asset o) 0 =? 0x01
     then assert_then (9 <=? length (io_value o))%nat
            (Ret (mk_asset (be_value (take 8 (drop 1 (io_value o)))) (io_asset o)))
     else Ret (mk_asset 0 (io_asset o))).

Inductive clock_funding_error :=
| NOT_THE_FUNDING_TX | NO_SUCH_OUTPUT | NOT_THE_FUNDING | NO_ISSUER_INPUT | ISSUES_NOTHING | NOT_NEW_ISSUANCE
| BLINDED_AMOUNT | NOT_ONE_ATOM | REISSUANCE_TOKEN | MARKER_NOT_SEED (i : nat) | SEEDS_NOT_ONE (n : nat).

(** The loop over the inputs: the last that spends the issuer. *)
Definition issuer_input (issuer : outpoint) (inputs : list issuance_input) : option issuance_input :=
  fold_left (fun acc t => if (ii_index t =? outnum issuer) && bool_decide (ii_txhash t = txid issuer) then Some t else acc)
    inputs None.
Definition holds_marker (marker : list Z) (o : issuance_output) : bool :=
  (length (io_asset o) =? 33)%nat && (byte (io_asset o) 0 =? 0x01) && bool_decide (drop 1 (io_asset o) = marker).
(** The loop over the outputs, at output [i]: how many seeds, and the last. *)
Fixpoint count_seeds (marker seed_spk : list Z) (outs : list issuance_output) (i seeds : nat) (seed_outnum : option nat)
  : clock_funding_error + (nat * option nat) :=
  match outs with
  | [] => inr (seeds, seed_outnum)
  | o :: outs =>
    if negb (holds_marker marker o) then count_seeds marker seed_spk outs (S i) seeds seed_outnum
    else if bool_decide (explicit_value (io_value o) = Some 1) && bool_decide (io_script o = seed_spk)
    then count_seeds marker seed_spk outs (S i) (S seeds) (Some i)
    else inl (MARKER_NOT_SEED i)
  end.

(** Why not, or the seed's output number. *)
Definition sym_clock_check_funding `{Issuance} (tx : issuance_tx) (funding : outpoint) (funding_spk asset : list Z)
    (capacity : amount_sat_t) (issuer : outpoint) (seed_spk : list Z) : outcome (clock_funding_error + nat) :=
  if negb (bool_decide (it_txid tx = txid funding)) then Ret (inl NOT_THE_FUNDING_TX) else
  match it_outputs tx !! Z.to_nat (outnum funding) with
  | None => Ret (inl NO_SUCH_OUTPUT)
  | Some fo =>
    a ← issuance_output_amount fo;
    if negb (bool_decide (io_script fo = funding_spk)) || negb (amount_asset_is params a asset)
       || negb (asset_value a =? satoshis capacity)
    then Ret (inl NOT_THE_FUNDING) else
    match issuer_input issuer (it_inputs tx) with
    | None => Ret (inl NO_ISSUER_INPUT)
    | Some t =>
      if negb (ii_is_issuance t) then Ret (inl ISSUES_NOTHING)
      else if negb (all_zero (ii_blinding_nonce t)) || negb (all_zero (ii_entropy t)) then Ret (inl NOT_NEW_ISSUANCE)
      else match explicit_value (ii_issuance_amount t) with
           | None => Ret (inl BLINDED_AMOUNT)
           | Some v =>
             if negb (v =? 1) then Ret (inl NOT_ONE_ATOM)
             else if (1 <? length (ii_inflation_keys t))%nat
                     || (length (ii_inflation_keys t) =? 1)%nat && negb (byte (ii_inflation_keys t) 0 =? 0)
             then Ret (inl REISSUANCE_TOKEN)
             else
               marker ← sym_marker_id issuer;
               match count_seeds marker seed_spk (it_outputs tx) 0 0 None with
               | inl e => Ret (inl e)
               | inr (1%nat, Some n) => Ret (inr n)
               | inr (seeds, _) => Ret (inl (SEEDS_NOT_ONE seeds))
               end
           end
    end
  end.

(** ** The kickoff *)

Section Kickoff.
Context (wally_tx_get_length : bool -> bitcoin_tx -> option nat)
        (wally_tx_to_bytes : bool -> bitcoin_tx -> option (list Z)).

Definition sym_kickoff_tx (funding : outpoint) (funding_sats : amount_sat_t) (funding_wscript : list Z)
    (sc : sym_channel) : outcome bitcoin_tx :=
  let tx := bitcoin_tx_new params 3 0 in
  ko ← sym_kickoff_tree sc;
  tx ← (if has_clock sc then
          marker_asset ← sym_clock_marker_asset sc;
          tx ← bitcoin_tx_add_output params (sym_tree_spk ko) (mk_sat 1)
                 (bitcoin_tx_set_output_asset params (Some marker_asset) tx);
          '(clock_script, _) ← sym_clock_spk sc;
          bitcoin_tx_add_output params clock_script funding_sats
            (bitcoin_tx_set_output_asset params (Some (sym_asset sc)) tx)
        else
          bitcoin_tx_add_output params (sym_tree_spk ko) funding_sats
            (bitcoin_tx_set_output_asset params (Some (sym_asset sc)) tx));
  let tx := bitcoin_tx_add_input params sha256 funding SYM_SEQUENCE funding_sats funding_wscript tx in
  tx ← bitcoin_tx_finalize params wally_tx_get_length wally_tx_to_bytes tx;
  assert_then (bitcoin_tx_check wally_tx_get_length wally_tx_to_bytes tx) (Ret tx).
End Kickoff.

(** ** The settlement *)

Section Settlement.
Context {handle : Type}.
Notation sym_output := (sym_output handle).
Notation sym_htlc := (sym_htlc handle).

Definition cmp_output (a b : sym_output) : comparison :=
  if amount_sat_less (so_amount a) (so_amount b) then Lt
  else if amount_sat_greater (so_amount a) (so_amount b) then Gt
  else
    let la := length (so_spk a) in
    let lb := length (so_spk b) in
    match memcmp (so_spk a) (so_spk b) with
    | Eq =>
      if negb (la =? lb)%nat then (if (la <? lb)%nat then Lt else Gt)
      else if negb (so_cltv_expiry a =? so_cltv_expiry b)
      then (if so_cltv_expiry a <? so_cltv_expiry b then Lt else Gt)
      else Eq
    | c => c
    end.

(** [asort], of the outputs with a comparison. *)
Context (asort : (sym_output -> sym_output -> comparison) -> list sym_output -> list sym_output).

(** The loop over the HTLCs: the balances, the total and the outputs. *)
Fixpoint settle_htlcs (htlc_basepoint : sides (list Z)) (dust_limit : amount_sat_t) (htlcs : list sym_htlc)
    (bal : sides amount_msat_t) (total : amount_sat_t) (outs : list sym_output)
  : outcome (option (sides amount_msat_t * amount_sat_t * list sym_output)) :=
  match htlcs with
  | [] => Ret (Some (bal, total, outs))
  | h :: htlcs =>
    let amt := amount_msat_to_sat_round_down (sh_amount h) in
    let owner := sh_owner h in
    if amount_sat_less amt dust_limit then
      match amount_msat_accumulate bal.[owner] (sh_amount h) with
      | None => Ret None
      | Some b => settle_htlcs htlc_basepoint dust_limit htlcs (upd owner b bal) total outs
      end
    else
      match amount_msat_sub_sat (sh_amount h) amt with
      | None => Ret None
      | Some rem =>
        match amount_msat_accumulate bal.[owner] rem with
        | None => Ret None
        | Some b =>
          tree ← sym_htlc_tree htlc_basepoint.[owner] htlc_basepoint.[other owner] (sh_payment_ripemd h) (sh_cltv_expiry h);
          let o := mk_sym_output _ SYM_OUT_HTLC owner amt (tap_tree2_scriptpubkey tree) None (Some (sh_handle h))
                     (sh_cltv_expiry h) in
          match amount_sat_add total amt with
          | None => Ret None
          | Some total => settle_htlcs htlc_basepoint dust_limit htlcs (upd owner b bal) total (outs ++ [o])
          end
        end
      end
  end.

(** A balance below the dust limit goes to the other side. *)
Definition dust_to_other (dust_limit : amount_sat_t) (s : side) (node : sides amount_sat_t)
  : option (sides amount_sat_t) :=
  if negb (amount_sat_eq node.[s] (mk_sat 0)) && amount_sat_less node.[s] dust_limit
     && amount_sat_greater_eq node.[other s] node.[s]
  then match amount_sat_add node.[other s] node.[s] with
       | None => None
       | Some v => Some (upd s (mk_sat 0) (upd (other s) v node))
       end
  else Some node.

Definition balance_output (payment_basepoint : sides (list Z)) (node : sides amount_sat_t) (s : side) : list sym_output :=
  if amount_sat_eq node.[s] (mk_sat 0) then []
  else [mk_sym_output _ SYM_OUT_BALANCE s node.[s] (scriptpubkey_p2wpkh sha256 ripemd160 payment_basepoint.[s])
          None None 0].

(** The two balances' whole atoms, what msat rounding leaves to the opener,
    and no balance below the dust limit. *)
Definition settle_balances (funding_sats : amount_sat_t) (opener : side) (dust_limit : amount_sat_t)
    (bal : sides amount_msat_t) (total : amount_sat_t) : settlement_error + sides amount_sat_t :=
  let node := mk_sides (amount_msat_to_sat_round_down bal.[LOCAL]) (amount_msat_to_sat_round_down bal.[REMOTE]) in
  match amount_sat_add total node.[LOCAL] ≫= (fun t => amount_sat_add t node.[REMOTE]) with
  | None => inl SETTLEMENT_OVERFLOW
  | Some total =>
    match amount_sat_sub funding_sats total with
    | None => inl STATE_PAYS_MORE
    | Some left_over =>
      match amount_sat_add node.[opener] left_over
            ≫= (fun v => dust_to_other dust_limit LOCAL (upd opener v node) ≫= dust_to_other dust_limit REMOTE) with
      | None => inl SETTLEMENT_OVERFLOW
      | Some node => inr node
      end
    end
  end.

Definition sym_settlement (funding_sats : amount_sat_t) (opener : side)
    (payment_basepoint htlc_basepoint : sides (list Z)) (balance : sides amount_msat_t)
    (htlcs : list sym_htlc) (dust_limit : amount_sat_t) : outcome (settlement_error + list sym_output) :=
  r ← settle_htlcs htlc_basepoint dust_limit htlcs balance (mk_sat 0) [];
  match r with
  | None => Ret (inl SETTLEMENT_OVERFLOW)
  | Some (bal, total, outs) =>
    match settle_balances funding_sats opener dust_limit bal total with
    | inl e => Ret (inl e)
    | inr node =>
      let outs := outs ++ balance_output payment_basepoint node LOCAL ++ balance_output payment_basepoint node REMOTE in
      if (length outs =? 0)%nat then Ret (inl STATE_PAYS_NOTHING) else Ret (inr (asort cmp_output outs))
    end
  end.
End Settlement.
End Scripts.
