(* ===== verification/Opening.v ===== *)
(** * What an opening peer may ask for (openingd/common.c,
    common/shutdown_scriptpubkey.c, and the limits openingd/openingd.c sets)

    The checks on the configuration the peer sends and on its upfront shutdown
    script, the reserve asked of it, and the limits of a channel in an asset. *)

From stdpp Require Import list.
From S2P Require Import Prelude Chainparams Amount HtlcState CommitFee Features Wire Script Keys Tapscript ChannelState Tx SymScripts.
Local Open Scope Z_scope.

(** Why [check_config_bounds] refuses; its [err_reason]. *)
Inductive config_error :=
| delay_too_large
| reserve_too_large
| cannot_add_anchors
| reserves_exceed_funding
| reserves_and_fee_exceed_funding
| htlc_minimum_too_large
| capacity_too_small
| no_accepted_htlcs
| too_many_accepted_htlcs.

Section Bounds.
Context (params : chainparams).

(** [None] is true.  [max_to_self_delay] is [u32]. *)
Definition check_config_bounds (funding : amount_sat_t) (feerate_per_kw max_to_self_delay : Z)
    (min_effective_htlc_capacity : amount_msat_t) (remoteconf localconf : channel_config)
    (option_anchors_zero_fee_htlc_tx : bool) : outcome (option config_error) :=
  if max_to_self_delay <? to_self_delay remoteconf then Ret (Some delay_too_large) else
  match amount_sat_add (channel_reserve remoteconf) (channel_reserve localconf) with
  | None => Ret (Some reserve_too_large)
  | Some reserve =>
    match (if option_anchors_zero_fee_htlc_tx then amount_sat_add reserve (mk_sat 660) else Some reserve) with
    | None => Ret (Some cannot_add_anchors)
    | Some reserve =>
      match amount_sat_sub funding reserve with
      | None => Ret (Some reserves_exceed_funding)
      | Some capacity =>
        fee ← commit_tx_base_fee params feerate_per_kw 0 false option_anchors_zero_fee_htlc_tx;
        match amount_sat_sub capacity fee with
        | None => Ret (Some reserves_and_fee_exceed_funding)
        | Some capacity =>
          let in_flight := amount_msat_to_sat_round_down (max_htlc_value_in_flight remoteconf) in
          let capacity := if amount_sat_greater capacity in_flight then in_flight else capacity in
          Ret (if amount_msat_greater_sat (htlc_minimum remoteconf) capacity then Some htlc_minimum_too_large
               else if amount_msat_greater_sat min_effective_htlc_capacity capacity then Some capacity_too_small
               else if max_accepted_htlcs remoteconf =? 0 then Some no_accepted_htlcs
               else if 483 <? max_accepted_htlcs remoteconf then Some too_many_accepted_htlcs
               else None)
        end
      end
    end
  end.
End Bounds.

(** ** Shutdown scripts (common/shutdown_scriptpubkey.c) *)

Definition OPT_UPFRONT_SHUTDOWN_SCRIPT := 4.
Definition OPT_LARGE_CHANNELS := 18.
Definition OPT_SHUTDOWN_ANYSEGWIT := 26.
Definition OP_RETURN := 0x6a.

(** A read past the end gives 0 and leaves nothing. *)
Definition is_valid_op_return (scriptpubkey : list Z) : bool :=
  match scriptpubkey with
  | op :: v :: rest =>
    if negb (op =? OP_RETURN) then false
    else if (6 <=? v) && (v <=? 75) then Z.of_nat (length rest) =? v
    else if v =? 76 then
      match rest with
      | v :: rest => (76 <=? v) && (v <=? 80) && (Z.of_nat (length rest) =? v)
      | [] => false
      end
    else false
  | _ => false
  end.

Definition is_valid_witnessprog (scriptpubkey : list Z) : bool :=
  match scriptpubkey with
  | op :: pushlen :: rest =>
    (OP_1 <=? op) && (op <=? OP_16) && (pushlen =? Z.of_nat (length rest)) && (2 <=? pushlen) && (pushlen <=? 40)
  | _ => false
  end.

Definition valid_shutdown_scriptpubkey (scriptpubkey : list Z) (anysegwit allow_oldstyle option_simple_close : bool) : bool :=
  (allow_oldstyle && (found (is_p2pkh scriptpubkey) || found (is_p2sh scriptpubkey)))
  || found (is_p2wpkh scriptpubkey) || found (is_p2wsh scriptpubkey)
  || (anysegwit && is_valid_witnessprog scriptpubkey)
  || (option_simple_close && is_valid_op_return scriptpubkey).

Section Upfront.
Context (our_features : feature_set) (their_features : list Z).

(** [None] is NULL.  [dev_script] is what the environment of a developer's
    daemon asks for. *)
Definition no_upfront_shutdown_script (dev_script : option (list Z)) : option (list Z) :=
  match dev_script with
  | Some s => Some s
  | None => if feature_negotiated our_features their_features OPT_UPFRONT_SHUTDOWN_SCRIPT then Some [] else None
  end.

Definition anchors_negotiated : bool :=
  feature_negotiated our_features their_features OPT_ANCHOR_OUTPUTS_DEPRECATED
  || feature_negotiated our_features their_features OPT_ANCHORS_ZERO_FEE_HTLC_TX.

(** Whether the script is accepted, and what is kept of it. *)
Definition validate_remote_upfront_shutdown (script : option (list Z)) : bool * option (list Z) :=
  let anysegwit := feature_negotiated our_features their_features OPT_SHUTDOWN_ANYSEGWIT in
  match script with
  | Some (b :: s) => (valid_shutdown_scriptpubkey (b :: s) anysegwit (negb anchors_negotiated) false, Some (b :: s))
  | _ => (true, None)
  end.
End Upfront.

(** ** The limits of a channel (openingd/openingd.c) *)

Definition with_reserve (r : amount_sat_t) (f : channel_config) : channel_config :=
  mk_config (conf_id f) (conf_dust_limit f) (max_htlc_value_in_flight f) r (htlc_minimum f) (to_self_delay f)
    (max_accepted_htlcs f) (max_dust_htlc_exposure_msat f).
Definition with_dust (d : amount_sat_t) (f : channel_config) : channel_config :=
  mk_config (conf_id f) d (max_htlc_value_in_flight f) (channel_reserve f) (htlc_minimum f) (to_self_delay f)
    (max_accepted_htlcs f) (max_dust_htlc_exposure_msat f).
Definition with_delay (n : Z) (f : channel_config) : channel_config :=
  mk_config (conf_id f) (conf_dust_limit f) (max_htlc_value_in_flight f) (channel_reserve f) (htlc_minimum f) n
    (max_accepted_htlcs f) (max_dust_htlc_exposure_msat f).

Definition set_reserve_absolute (allowdustreserve : bool) (dust_limit reserve : amount_sat_t) (localconf : channel_config)
  : channel_config :=
  with_reserve (if negb allowdustreserve && amount_sat_greater dust_limit reserve then dust_limit else reserve) localconf.
Definition set_reserve (allowdustreserve : bool) (dust_limit funding : amount_sat_t) (localconf : channel_config)
  : outcome channel_config :=
  reserve ← amount_sat_div funding 100;
  Ret (set_reserve_absolute allowdustreserve dust_limit reserve localconf).

Definition limits_valued_in_asset (params : chainparams) (channel_asset : list Z) : bool :=
  is_elements params
  && match fee_asset_tag params with
     | Some tag => has_anchor_header params || bool_decide (channel_asset <> take 33 tag)
     | None => false
     end.

(** Tags with their rates; 0 for none. *)
Definition channel_asset_rate (rates : list (list Z * Z)) (channel_asset : list Z) : Z :=
  match find (fun r => bool_decide (fst r = channel_asset)) rates with Some r => snd r | None => 0 end.

(** Our configuration and the smallest capacity, in the asset. *)
Definition value_limits_in_asset (rate : Z) (localconf : channel_config) (capacity : amount_msat_t)
  : outcome (channel_config * amount_msat_t) :=
  dust ← amount_sat_in_asset (conf_dust_limit localconf) rate;
  capacity ← amount_msat_in_asset capacity rate;
  Ret (with_dust dust localconf, capacity).
