(* ===== verification/TcovScripts.v ===== *)
(** * Scripts of covenant channels (common/tcov_scripts.c,
    common/credit_scripts.c, [tcov_credit_init] of common/tcov_commit_tx.c)

    The leaves of the outputs of a taproot-covenant commitment and the trees
    they are in, and those of a credit channel, whose provider's balance carries
    a CLAIM leaf.  The opcodes that SymScripts names keep those names. *)

From stdpp Require Import list.
From S2P Require Import Prelude Chainparams Amount HtlcState Wire Script Keys Tapscript ChannelState Tx SymScripts.
Local Open Scope Z_scope.

Definition OP_2DUP := 0x6e.
Definition OP_1ADD := 0x8b.
Definition CREDIT_OP_SUB64 := 0xd8.
Definition TCOV_OP_GREATERTHANOREQUAL64 := 0xdf.
Definition TCOV_OP_ECMULSCALARVERIFY := 0xe3.

Definition TCOV_LEAF_DELAY := 0%nat.
Definition TCOV_LEAF_REVOKE := 1%nat.
Definition TCOV_LEAF_OFFERED_TIMEOUT := 0%nat.
Definition TCOV_LEAF_OFFERED_SUCCESS := 1%nat.
Definition TCOV_LEAF_RECEIVED_SUCCESS := 0%nat.
Definition TCOV_LEAF_RECEIVED_TIMEOUT := 1%nat.
Definition CREDIT_LEAF_CLAIM := 2%nat.
Definition CREDIT_REMOTE_LEAF_CLAIM := 0%nat.
Definition CREDIT_REMOTE_LEAF_PROVIDER := 1%nat.

(** The generator of secp256k1, compressed. *)
Definition generator_der : list Z :=
  [0x02; 0x79; 0xbe; 0x66; 0x7e; 0xf9; 0xdc; 0xbb; 0xac; 0x55; 0xa0;
   0x62; 0x95; 0xce; 0x87; 0x0b; 0x07; 0x02; 0x9b; 0xfc; 0xdb; 0x2d;
   0xce; 0x28; 0xd9; 0x59; 0xf2; 0x81; 0x5b; 0x16; 0xf8; 0x17; 0x98].

(** "SeqLN/credit" and "SeqLN/credit-key". *)
Definition CREDIT_TAG : list Z := [83; 101; 113; 76; 78; 47; 99; 114; 101; 100; 105; 116].
Definition CREDIT_KEY_TAG : list Z := CREDIT_TAG ++ [45; 107; 101; 121].

Definition push_der (key : list Z) : list Z := script_push_bytes key.
Definition push_le8 (amt : amount_sat_t) : list Z := script_push_bytes (le_bytes 8 (satoshis amt)).

(** What a channel's credit leaves are built from. *)
Record credit_params := mk_credit_params {
  dtag : list Z;
  cp_credit_key : list Z;
  holder_spk : list Z;
  folded : amount_sat_t;
}.
Record tcov_credit := mk_tcov_credit { provider : side; window : Z; credit_params_of : credit_params }.

(** The prefix of an asset or a value is 1: it is explicit. *)
Definition explicit : list Z := [OP_1; OP_EQUALVERIFY].

(** COV(A, X, D) *)
Definition add_cov (asset_id : list Z) (x : amount_sat_t) (d_program : list Z) : list Z :=
  [SYM_OP_PUSHCURRENTINPUTINDEX; OP_DUP; OP_DUP; SYM_OP_INSPECTOUTPUTASSET] ++ explicit
  ++ script_push_bytes asset_id ++ [OP_EQUALVERIFY; SYM_OP_INSPECTOUTPUTVALUE] ++ explicit
  ++ push_le8 x ++ [TCOV_OP_GREATERTHANOREQUAL64; OP_VERIFY; SYM_OP_INSPECTOUTPUTSCRIPTPUBKEY; OP_1; OP_EQUALVERIFY]
  ++ script_push_bytes d_program ++ [OP_EQUAL].

(** KEEP(S) *)
Definition add_keep (dest_spk : list Z) : outcome (list Z) :=
  let len := length dest_spk in
  assert_then ((4 <=? len)%nat && (byte dest_spk 1 =? Z.of_nat (len - 2)))
  (assert_then ((byte dest_spk 0 =? OP_0) || (OP_1 <=? byte dest_spk 0) && (byte dest_spk 0 <=? OP_16))
    (Ret ([SYM_OP_PUSHCURRENTINPUTINDEX; OP_DUP; SYM_OP_INSPECTOUTPUTASSET] ++ explicit
          ++ [OP_OVER; SYM_OP_INSPECTINPUTASSET] ++ explicit ++ [OP_EQUALVERIFY]
          ++ [OP_DUP; SYM_OP_INSPECTOUTPUTVALUE] ++ explicit
          ++ [OP_OVER; SYM_OP_INSPECTINPUTVALUE] ++ explicit
          ++ [TCOV_OP_GREATERTHANOREQUAL64; OP_VERIFY; SYM_OP_INSPECTOUTPUTSCRIPTPUBKEY; byte dest_spk 0; OP_EQUALVERIFY]
          ++ script_push_bytes (drop 2 dest_spk) ++ [OP_EQUAL]))).

Definition tcov_leaf_delay (delayed_key : list Z) (to_self_delay : Z) : list Z :=
  push_xonly delayed_key ++ [OP_CHECKSIGVERIFY] ++ push_num to_self_delay ++ [OP_CHECKSEQUENCEVERIFY].

(** [<point> <G> OP_ROT OP_ECMULSCALARVERIFY]: takes the secret of [point]. *)
Definition add_pointlock (lock_point : list Z) : list Z :=
  push_der lock_point ++ script_push_bytes generator_der ++ [OP_ROT; TCOV_OP_ECMULSCALARVERIFY].
Definition tcov_leaf_revoke (per_commitment_point dest_spk : list Z) : outcome (list Z) :=
  keep ← add_keep dest_spk;
  Ret (push_der per_commitment_point ++ script_push_bytes generator_der ++ [OP_ROT; TCOV_OP_ECMULSCALARVERIFY] ++ keep).

Definition tcov_leaf_offered_timeout (self_htlc_key : list Z) (cltv_expiry : Z) (asset_id : list Z) (x : amount_sat_t)
    (d_program : list Z) : list Z :=
  push_xonly self_htlc_key ++ [OP_CHECKSIGVERIFY] ++ push_num cltv_expiry ++ [OP_CHECKLOCKTIMEVERIFY; OP_DROP]
  ++ add_cov asset_id x d_program.

Definition add_hashlock (payment_ripemd : list Z) : list Z :=
  [OP_SIZE] ++ push_num 32 ++ [OP_EQUALVERIFY; OP_HASH160] ++ script_push_bytes payment_ripemd ++ [OP_EQUALVERIFY].

Definition tcov_leaf_offered_success_point (lock_point other_htlc_key : list Z) : list Z :=
  add_pointlock lock_point ++ push_xonly other_htlc_key ++ [OP_CHECKSIG].
Definition tcov_leaf_received_success_point (lock_point self_htlc_key asset_id : list Z) (x : amount_sat_t)
    (d_program : list Z) : list Z :=
  add_pointlock lock_point ++ push_xonly self_htlc_key ++ [OP_CHECKSIGVERIFY] ++ add_cov asset_id x d_program.
Definition tcov_leaf_offered_success (payment_ripemd other_htlc_key : list Z) : list Z :=
  add_hashlock payment_ripemd ++ push_xonly other_htlc_key ++ [OP_CHECKSIG].
Definition tcov_leaf_received_success (payment_ripemd self_htlc_key asset_id : list Z) (x : amount_sat_t)
    (d_program : list Z) : list Z :=
  add_hashlock payment_ripemd ++ push_xonly self_htlc_key ++ [OP_CHECKSIGVERIFY] ++ add_cov asset_id x d_program.
Definition tcov_leaf_received_timeout (other_htlc_key : list Z) (cltv_expiry : Z) : list Z :=
  push_xonly other_htlc_key ++ [OP_CHECKSIGVERIFY] ++ push_num cltv_expiry ++ [OP_CHECKLOCKTIMEVERIFY].

(** The CLAIM leaf. *)
Definition credit_leaf_claim (dtag ck : list Z) (b : amount_sat_t) (holder_spk : list Z) : outcome (list Z) :=
  assert_then ((length holder_spk =? 22)%nat && (byte holder_spk 0 =? OP_0) && (byte holder_spk 1 =? 20))
    (Ret ([OP_SIZE; 0x01; 32; OP_EQUALVERIFY; OP_SHA256; OP_OVER] ++ script_push_bytes dtag
          ++ [OP_SWAP; SYM_OP_CAT; OP_SWAP; SYM_OP_CAT; OP_ROT; OP_SWAP] ++ push_xonly ck
          ++ [SYM_OP_CHECKSIGFROMSTACKVERIFY] ++ push_le8 b
          ++ [SYM_OP_PUSHCURRENTINPUTINDEX; SYM_OP_INSPECTINPUTVALUE; OP_1; OP_EQUALVERIFY; CREDIT_OP_SUB64; OP_VERIFY]
          ++ [OP_2DUP; SYM_OP_GREATERTHAN64; OP_VERIFY; OP_OVER; OP_SWAP; CREDIT_OP_SUB64; OP_VERIFY]
          ++ [SYM_OP_PUSHCURRENTINPUTINDEX; OP_1ADD; OP_DUP; SYM_OP_INSPECTOUTPUTVALUE; OP_1; OP_EQUALVERIFY; OP_ROT;
              OP_EQUALVERIFY; OP_DUP; SYM_OP_INSPECTOUTPUTSCRIPTPUBKEY; OP_0; OP_EQUALVERIFY]
          ++ script_push_bytes (drop 2 holder_spk)
          ++ [OP_EQUALVERIFY; SYM_OP_INSPECTOUTPUTASSET; SYM_OP_PUSHCURRENTINPUTINDEX; SYM_OP_INSPECTINPUTASSET; OP_ROT;
              OP_EQUALVERIFY; OP_EQUALVERIFY]
          ++ push_le8 b ++ [OP_SWAP; CREDIT_OP_SUB64; OP_VERIFY]
          ++ [SYM_OP_PUSHCURRENTINPUTINDEX; SYM_OP_INSPECTOUTPUTVALUE; OP_1; OP_EQUALVERIFY; OP_EQUALVERIFY]
          ++ [SYM_OP_PUSHCURRENTINPUTINDEX; SYM_OP_INSPECTOUTPUTSCRIPTPUBKEY; SYM_OP_PUSHCURRENTINPUTINDEX;
              SYM_OP_INSPECTINPUTSCRIPTPUBKEY; OP_ROT; OP_EQUALVERIFY; OP_EQUALVERIFY]
          ++ [SYM_OP_PUSHCURRENTINPUTINDEX; SYM_OP_INSPECTOUTPUTASSET; SYM_OP_PUSHCURRENTINPUTINDEX;
              SYM_OP_INSPECTINPUTASSET; OP_ROT; OP_EQUALVERIFY; OP_EQUAL])).

(** The message of a note. *)
Definition credit_note_msg (dtag : list Z) (c_atoms : Z) (payment_hash : list Z) : list Z :=
  dtag ++ le_bytes 8 c_atoms ++ payment_hash.

Definition credit_b (cp : credit_params) (value : amount_sat_t) : outcome amount_sat_t :=
  match amount_sat_add value (folded cp) with Some b => Ret b | None => Crash end.

(** common/channel_id.c: the txid, with the output's number in its last bytes. *)
Definition derive_channel_id (op : outpoint) : list Z :=
  let id := txid op in
  take 30 id ++ [Z.lxor (byte id 30) (Z.land (Z.shiftr (outnum op) 8) 0xff); Z.lxor (byte id 31) (Z.land (outnum op) 0xff)].

Section Trees.
Context (params : chainparams) (sha256 ripemd160 : list Z -> list Z) `{!Taproot, !Secp256k1}.

Definition tcov_asset_id (asset_tag : option (list Z)) : outcome (list Z) :=
  match match asset_tag with Some a => Some a | None => fee_asset_tag params end with
  | Some a => assert_then (byte a 0 =? 0x01) (Ret (drop 1 a))
  | None => Crash
  end.

Definition tcov_revoke_dest (ks : keyset) : list Z := scriptpubkey_p2wpkh sha256 ripemd160 (other_payment_key ks).

Definition tcov_to_local_tree (ks : keyset) (per_commitment_point : list Z) (to_self_delay : Z) : outcome tap_tree2 :=
  revoke ← tcov_leaf_revoke per_commitment_point (tcov_revoke_dest ks);
  tap_tree2_finish sha256 [tcov_leaf_delay (self_delayed_payment_key ks) to_self_delay; revoke] (self_revocation_key ks).

Definition tcov_offered_htlc_tree (ks : keyset) (per_commitment_point : list Z) (to_self_delay : Z)
    (asset_tag : option (list Z)) (payment_ripemd : list Z) (lock_point : option (list Z)) (cltv_expiry : Z)
    (htlc_sats : amount_sat_t) : outcome tap_tree2 :=
  d ← tcov_to_local_tree ks per_commitment_point to_self_delay;
  asset_id ← tcov_asset_id asset_tag;
  tap_tree2_finish sha256
    [tcov_leaf_offered_timeout (self_htlc_key ks) cltv_expiry asset_id htlc_sats (tap_tree2_program d);
     match lock_point with
     | Some lock => tcov_leaf_offered_success_point lock (other_htlc_key ks)
     | None => tcov_leaf_offered_success payment_ripemd (other_htlc_key ks)
     end] (self_revocation_key ks).

Definition tcov_received_htlc_tree (ks : keyset) (per_commitment_point : list Z) (to_self_delay : Z)
    (asset_tag : option (list Z)) (payment_ripemd : list Z) (lock_point : option (list Z)) (cltv_expiry : Z)
    (htlc_sats : amount_sat_t) : outcome tap_tree2 :=
  d ← tcov_to_local_tree ks per_commitment_point to_self_delay;
  asset_id ← tcov_asset_id asset_tag;
  tap_tree2_finish sha256
    [match lock_point with
     | Some lock => tcov_leaf_received_success_point lock (self_htlc_key ks) asset_id htlc_sats (tap_tree2_program d)
     | None => tcov_leaf_received_success payment_ripemd (self_htlc_key ks) asset_id htlc_sats (tap_tree2_program d)
     end;
     tcov_leaf_received_timeout (other_htlc_key ks) cltv_expiry] (self_revocation_key ks).

(** ** Credit *)

Definition tagged_hash (tag msg : list Z) : list Z := sha256 (sha256 tag ++ sha256 tag ++ msg).
Definition credit_tag (cid : list Z) : list Z := tagged_hash CREDIT_TAG cid.
Definition credit_key_tweak (provider_funding_key : list Z) : list Z := tagged_hash CREDIT_KEY_TAG provider_funding_key.
Definition credit_key (provider_funding_key : list Z) : option (list Z) :=
  ec_pubkey_tweak_add provider_funding_key (credit_key_tweak provider_funding_key).
Definition credit_note_check (dtag ck : list Z) (c_atoms : Z) (payment_hash sig : list Z) : bool :=
  schnorr_verify sig (credit_note_msg dtag c_atoms payment_hash) (pubkey_to_xonly ck).

Definition credit_params_init (cid provider_funding_key holder_payment_basepoint : list Z) : option credit_params :=
  ck ← credit_key provider_funding_key;
  Some (mk_credit_params (credit_tag cid) ck (scriptpubkey_p2wpkh sha256 ripemd160 holder_payment_basepoint) (mk_sat 0)).
Definition tcov_credit_init (cid : list Z) (provider : side) (provider_funding_key holder_payment_basepoint : list Z)
    (window : Z) : option tcov_credit :=
  cp ← credit_params_init cid provider_funding_key holder_payment_basepoint;
  Some (mk_tcov_credit provider window cp).

Definition credit_to_local_tree (ks : keyset) (per_commitment_point : list Z) (to_self_delay : Z) (cp : credit_params)
    (value : amount_sat_t) : outcome tap_tree2 :=
  revoke ← tcov_leaf_revoke per_commitment_point (tcov_revoke_dest ks);
  b ← credit_b cp value;
  claim ← credit_leaf_claim (dtag cp) (cp_credit_key cp) b (holder_spk cp);
  tap_tree2_finish sha256 [tcov_leaf_delay (self_delayed_payment_key ks) to_self_delay; revoke; claim]
    (self_revocation_key ks).
Definition credit_to_remote_tree (provider_payment_key : list Z) (delay : Z) (cp : credit_params) (value : amount_sat_t)
  : outcome tap_tree2 :=
  b ← credit_b cp value;
  claim ← credit_leaf_claim (dtag cp) (cp_credit_key cp) b (holder_spk cp);
  tap_tree2_finish sha256 [claim; tcov_leaf_delay provider_payment_key delay] nums_der.
End Trees.
