(* ===== verification/TapMachine.v ===== *)
(** * The interpreter of leaves

    What the leaves of common/sym_scripts.c and common/tcov_scripts.c rely on:
    the documented behaviour of the opcodes they use, Bitcoin's and those
    Elements adds to its tapscript.  The interpreter is the node's;
    [MachineLaws] states, for each opcode, what it does to the stack (the top
    is the head of the list) and when it fails.  At the end, an interpreter
    that has these laws. *)

From stdpp Require Import list.
From S2P Require Import Prelude Wire Script Keys Tapscript ChannelState Tx SymScripts TcovScripts.
Local Open Scope Z_scope.

(** ** What a script sees of the transaction that spends an output *)

(** An asset or a value is a prefix, 1 when it is explicit, and a body: 32 bytes
    of asset, and 8 bytes of value, the lowest first. *)
Record txo := mk_txo { txo_asset : Z * list Z; txo_value : Z * list Z; txo_script : list Z }.
Record spend := mk_spend {
  sp_version : Z;
  sp_inputs : list txo;
  sp_outputs : list txo;
  sp_index : nat;
  sp_sequence : Z;
  sp_locktime : Z;
}.

(** A number on the stack. *)
Definition scriptnum (z : Z) : list Z :=
  let buf := num_bytes 4 z in
  if Z.land (byte buf (length buf - 1)) 0x80 =? 0 then buf else buf ++ [0].
Definition script_bool (b : bool) : list Z := if b then [1] else [].
(** [CastToBool]: not zero, nor minus zero. *)
Fixpoint truthy (x : list Z) : bool :=
  match x with
  | [] => false
  | [b] => negb (b =? 0) && negb (b =? 0x80)
  | b :: x => negb (b =? 0) || truthy x
  end.
(** Eight bytes as a signed number, the lowest first. *)
Definition le64_signed (x : list Z) : Z := wrap_s64 (le_value x).

(** A script that is a witness program: its version and the program. *)
Definition witness_of (spk : list Z) : option (Z * list Z) :=
  if (4 <=? length spk)%nat && (length spk <=? 42)%nat && (byte spk 1 =? Z.of_nat (length spk - 2))
     && ((byte spk 0 =? OP_0) || (OP_1 <=? byte spk 0) && (byte spk 0 <=? OP_16))
  then Some (if byte spk 0 =? OP_0 then 0 else byte spk 0 - OP_1 + 1, drop 2 spk)
  else None.

(** BIP65: the lock time is of the same kind and has been reached, and the
    input is not final. *)
Definition locktime_reached (ctx : spend) (n : Z) : bool :=
  (0 <=? n) && Bool.eqb (n <? 500000000) (sp_locktime ctx <? 500000000) && (n <=? sp_locktime ctx)
  && negb (sp_sequence ctx =? 0xFFFFFFFF).
(** BIP112: the input's relative lock time is of the same kind and at least
    this long; a number with the disable flag set asks for nothing. *)
Definition sequence_reached (ctx : spend) (n : Z) : bool :=
  (0 <=? n)
  && (Z.testbit n 31
      || (2 <=? sp_version ctx) && negb (Z.testbit (sp_sequence ctx) 31)
         && Bool.eqb (Z.testbit n 22) (Z.testbit (sp_sequence ctx) 22)
         && (Z.land n 0xffff <=? Z.land (sp_sequence ctx) 0xffff)).

Definition MAX_SCRIPT_ELEMENT_SIZE := 520%nat.

(** [exec] runs a script on a stack, [None] when it fails; [sha_state] is what
    the streaming opcodes keep of a message on the stack. *)
Class Machine := {
  exec : spend -> list Z -> list (list Z) -> option (list (list Z));
  sha_state : list Z -> list Z;
}.

Section Laws.
Context (sha256 : list Z -> list Z) `{Taproot} `{Machine}.

(** The two items a script pushes for a scriptPubKey. *)
Definition script_items (spk : list Z) : list (list Z) :=
  match witness_of spk with
  | Some (v, prog) => [scriptnum v; prog]
  | None => [[0x81]; sha256 spk]
  end.
Definition field_items (f : Z * list Z) : list (list Z) := [[fst f]; snd f].

(** An opcode that pops the number of an input or output and pushes items. *)
Definition inspects (ctx : spend) (op : Z) (from : list txo) (items : txo -> list (list Z)) : Prop :=
  forall i rest st, exec ctx (op :: rest) (i :: st)
    = if script_num i <? 0 then None
      else match from !! Z.to_nat (script_num i) with
           | Some t => exec ctx rest (items t ++ st)
           | None => None
           end.

Class MachineLaws : Prop := {
  exec_nil ctx st : exec ctx [] st = Some st;
  exec_push ctx m rest st : (1 <= length m <= 75)%nat -> exec ctx (script_push_bytes m ++ rest) st = exec ctx rest (m :: st);
  exec_0 ctx rest st : exec ctx (OP_0 :: rest) st = exec ctx rest ([] :: st);
  exec_small ctx n rest st : 1 <= n <= 16 -> exec ctx (OP_1 + n - 1 :: rest) st = exec ctx rest ([n] :: st);
  exec_verify ctx x rest st : exec ctx (OP_VERIFY :: rest) (x :: st) = if truthy x then exec ctx rest st else None;
  exec_drop ctx x rest st : exec ctx (OP_DROP :: rest) (x :: st) = exec ctx rest st;
  exec_over ctx a b rest st : exec ctx (OP_OVER :: rest) (b :: a :: st) = exec ctx rest (a :: b :: a :: st);
  exec_rot ctx a b c rest st : exec ctx (OP_ROT :: rest) (c :: b :: a :: st) = exec ctx rest (a :: c :: b :: st);
  exec_swap ctx a b rest st : exec ctx (OP_SWAP :: rest) (b :: a :: st) = exec ctx rest (a :: b :: st);
  exec_tuck ctx a b rest st : exec ctx (OP_TUCK :: rest) (b :: a :: st) = exec ctx rest (b :: a :: b :: st);
  exec_equal ctx a b rest st :
    exec ctx (OP_EQUAL :: rest) (b :: a :: st) = exec ctx rest (script_bool (bool_decide (a = b)) :: st);
  exec_equalverify ctx a b rest st :
    exec ctx (OP_EQUALVERIFY :: rest) (b :: a :: st) = if bool_decide (a = b) then exec ctx rest st else None;
  exec_sha256 ctx x rest st : exec ctx (OP_SHA256 :: rest) (x :: st) = exec ctx rest (sha256 x :: st);
  exec_cat ctx a b rest st :
    exec ctx (SYM_OP_CAT :: rest) (b :: a :: st)
    = if (length (a ++ b) <=? MAX_SCRIPT_ELEMENT_SIZE)%nat then exec ctx rest ((a ++ b) :: st) else None;
  exec_greaterthan64 ctx a b rest st :
    exec ctx (SYM_OP_GREATERTHAN64 :: rest) (b :: a :: st)
    = if (length a =? 8)%nat && (length b =? 8)%nat
      then exec ctx rest (script_bool (le64_signed b <? le64_signed a) :: st) else None;
  exec_checksigfromstackverify ctx sig msg key rest st : length key = 32%nat ->
    exec ctx (SYM_OP_CHECKSIGFROMSTACKVERIFY :: rest) (key :: msg :: sig :: st)
    = if schnorr_verify sig msg key then exec ctx rest st else None;
  exec_index ctx rest st :
    exec ctx (SYM_OP_PUSHCURRENTINPUTINDEX :: rest) st = exec ctx rest (scriptnum (Z.of_nat (sp_index ctx)) :: st);
  exec_input_asset ctx : inspects ctx SYM_OP_INSPECTINPUTASSET (sp_inputs ctx) (fun t => field_items (txo_asset t));
  exec_input_value ctx : inspects ctx SYM_OP_INSPECTINPUTVALUE (sp_inputs ctx) (fun t => field_items (txo_value t));
  exec_input_script ctx :
    inspects ctx SYM_OP_INSPECTINPUTSCRIPTPUBKEY (sp_inputs ctx) (fun t => script_items (txo_script t));
  exec_output_asset ctx : inspects ctx SYM_OP_INSPECTOUTPUTASSET (sp_outputs ctx) (fun t => field_items (txo_asset t));
  exec_output_value ctx : inspects ctx SYM_OP_INSPECTOUTPUTVALUE (sp_outputs ctx) (fun t => field_items (txo_value t));
  exec_output_script ctx :
    inspects ctx SYM_OP_INSPECTOUTPUTSCRIPTPUBKEY (sp_outputs ctx) (fun t => script_items (txo_script t));
  exec_checklocktimeverify ctx x rest st :
    exec ctx (OP_CHECKLOCKTIMEVERIFY :: rest) (x :: st)
    = if locktime_reached ctx (script_num x) then exec ctx rest (x :: st) else None;
  exec_checksequenceverify ctx x rest st :
    exec ctx (OP_CHECKSEQUENCEVERIFY :: rest) (x :: st)
    = if sequence_reached ctx (script_num x) then exec ctx rest (x :: st) else None;
  exec_sha256initialize ctx x rest st :
    exec ctx (SYM_OP_SHA256INITIALIZE :: rest) (x :: st) = exec ctx rest (sha_state x :: st);
  exec_sha256update ctx m x rest st :
    exec ctx (SYM_OP_SHA256UPDATE :: rest) (x :: sha_state m :: st) = exec ctx rest (sha_state (m ++ x) :: st);
  exec_sha256finalize ctx m x rest st :
    exec ctx (SYM_OP_SHA256FINALIZE :: rest) (x :: sha_state m :: st) = exec ctx rest (sha256 (m ++ x) :: st);
}.
End Laws.

(** ** What covenant leaves use besides *)

(** Whether a signature, which is not empty, is of a key over the transaction
    and the leaf being run. *)
Class TxSignatures := { sig_ok : spend -> list Z -> list Z -> bool }.

Section Covenants.
Context (sha256 ripemd160 : list Z -> list Z) `{Secp256k1} `{Machine} `{TxSignatures}.

Class CovenantLaws : Prop := {
  exec_dup ctx x rest st : exec ctx (OP_DUP :: rest) (x :: st) = exec ctx rest (x :: x :: st);
  exec_2dup ctx a b rest st : exec ctx (OP_2DUP :: rest) (b :: a :: st) = exec ctx rest (b :: a :: b :: a :: st);
  exec_size ctx x rest st : (length x <= MAX_SCRIPT_ELEMENT_SIZE)%nat ->
    exec ctx (OP_SIZE :: rest) (x :: st) = exec ctx rest (scriptnum (Z.of_nat (length x)) :: x :: st);
  exec_hash160 ctx x rest st :
    exec ctx (OP_HASH160 :: rest) (x :: st) = exec ctx rest (ripemd160 (sha256 x) :: st);
  exec_1add ctx n rest st : 0 <= n < 2 ^ 31 - 1 ->
    exec ctx (OP_1ADD :: rest) (scriptnum n :: st) = exec ctx rest (scriptnum (n + 1) :: st);
  exec_checksigverify ctx sig key rest st : length key = 32%nat ->
    exec ctx (OP_CHECKSIGVERIFY :: rest) (key :: sig :: st)
    = if bool_decide (sig <> []) && sig_ok ctx sig key then exec ctx rest st else None;
  exec_checksig ctx sig key rest st : length key = 32%nat ->
    exec ctx (OP_CHECKSIG :: rest) (key :: sig :: st)
    = if bool_decide (sig = []) then exec ctx rest ([] :: st)
      else if sig_ok ctx sig key then exec ctx rest ([1] :: st) else None;
  exec_greaterthanorequal64 ctx a b rest st :
    exec ctx (TCOV_OP_GREATERTHANOREQUAL64 :: rest) (b :: a :: st)
    = if (length a =? 8)%nat && (length b =? 8)%nat
      then exec ctx rest (script_bool (le64_signed b <=? le64_signed a) :: st) else None;
  exec_sub64 ctx a b rest st :
    exec ctx (CREDIT_OP_SUB64 :: rest) (b :: a :: st)
    = if (length a =? 8)%nat && (length b =? 8)%nat
      then let d := le64_signed a - le64_signed b in
           if (- 2 ^ 63 <=? d) && (d <? 2 ^ 63) then exec ctx rest ([1] :: le8s d :: st)
           else exec ctx rest ([] :: b :: a :: st)
      else None;
  exec_ecmulscalarverify ctx secret point rest st :
    exec ctx (TCOV_OP_ECMULSCALARVERIFY :: rest) (secret :: generator_der :: point :: st)
    = if (length secret =? 32)%nat && bool_decide (ec_pubkey_create secret = Some point) then exec ctx rest st else None;
}.
End Covenants.

(** A leaf lets an output be spent: it ends with true alone on the stack. *)
Definition unlocks `{Machine} (ctx : spend) (leaf : list Z) (stack : list (list Z)) : Prop :=
  exists x, exec ctx leaf stack = Some [x] /\ truthy x = true.

(** ** Numbers on the stack *)

Lemma land_255 z : Z.land z 0xff = z mod 256.
Proof. exact (Z.land_ones z 8 ltac:(lia)). Qed.
Lemma shiftr_8 z : Z.shiftr z 8 = z / 256.
Proof. by rewrite Z.shiftr_div_pow2. Qed.

(** The loop of [push_num] writes the bytes a number has. *)
Lemma num_bytes_le k z fuel : (S k <= fuel)%nat -> 256 ^ Z.of_nat k <= z < 256 ^ Z.of_nat (S k) -> num_bytes fuel z = le_bytes (S k) z.
Proof.
  revert z fuel; induction k as [|k IH]; intros z [|fuel] Hf Hz; try lia; cbn [num_bytes].
  - rewrite (proj2 (Z.eqb_neq _ _)) by lia. rewrite land_255, shiftr_8. cbn [le_bytes]. f_equal.
    rewrite Z.div_small by (cbn in Hz; lia). by destruct fuel.
  - rewrite (proj2 (Z.eqb_neq _ _)) by lia. rewrite land_255, shiftr_8. change (le_bytes (S (S k)) z) with (z mod 256 :: le_bytes (S k) (z / 256)).
    f_equal. apply IH; [lia|]. rewrite !Nat2Z.inj_succ, !Z.pow_succ_r in * by lia. split; [apply Z.div_le_lower_bound|apply Z.div_lt_upper_bound]; lia.
Qed.
Lemma le_bytes_snoc n z : 0 <= z < 256 ^ Z.of_nat n -> le_bytes (S n) z = le_bytes n z ++ [0].
Proof.
  revert z; induction n as [|n IH]; intros z Hz; [by replace z with 0 by (cbn in Hz; lia)|].
  change (le_bytes (S (S n)) z) with (z mod 256 :: le_bytes (S n) (z / 256)). cbn [le_bytes app]. f_equal. apply IH.
  rewrite Nat2Z.inj_succ, Z.pow_succ_r in Hz by lia. split; [apply Z.div_pos; lia|apply Z.div_lt_upper_bound; lia].
Qed.

(** The top bit of the last byte. *)
Lemma top_bit k z : 256 ^ Z.of_nat k <= z < 256 ^ Z.of_nat (S k) ->
  (Z.land (byte (le_bytes (S k) z) (length (le_bytes (S k) z) - 1)) 0x80 =? 0) = (z <? 128 * 256 ^ Z.of_nat k).
Proof.
  intros Hz. rewrite le_bytes_length. replace (S k - 1)%nat with k by lia. unfold byte.
  pose proof (le_bytes_last k z) as Hl. rewrite last_lookup, le_bytes_length in Hl. cbn [Nat.pred] in Hl. rewrite (nth_lookup_Some _ _ _ _ Hl).
  rewrite Nat2Z.inj_succ, Z.pow_succ_r in Hz by lia. set (p := 256 ^ Z.of_nat k) in *.
  assert (Hq : 0 <= z / p < 256) by (split; [apply Z.div_pos|apply Z.div_lt_upper_bound]; lia). rewrite Z.mod_small by done.
  assert (Hlt : (z <? 128 * p) = (z / p <? 128)).
  { apply eq_true_iff_eq. rewrite !Z.ltb_lt. split; [intros; apply Z.div_lt_upper_bound; lia|]. intros. pose proof (Z.mul_succ_div_gt z p). nia. }
  rewrite Hlt. destruct (Z.ltb_spec (z / p) 128) as [H|H].
  - apply Z.eqb_eq. apply Z.bits_inj'. intros n Hn. rewrite Z.land_spec, Z.bits_0. destruct (Z.eq_dec n 7) as [->|Hne].
    + assert (Hlog : Z.log2 (z / p) < 7) by (destruct (Z.eq_dec (z / p) 0) as [E|E]; [by rewrite E|apply Z.log2_lt_pow2; lia]).
      by rewrite (Z.bits_above_log2 (z / p)) by lia.
    + change 0x80 with (2 ^ 7). rewrite Z.pow2_bits_false by lia. apply andb_false_r.
  - apply Z.eqb_neq. intros E. apply (f_equal (fun x => Z.testbit x 7)) in E. rewrite Z.land_spec, Z.bits_0 in E.
    change (Z.testbit 0x80 7) with true in E. rewrite andb_true_r in E. rewrite Z.testbit_false in E by lia. change (2 ^ 7) with 128 in E.
    generalize dependent (z / p). intros q **. Z.to_euclidean_division_equations. lia.
Qed.

(** A number of the stack, as the fewest bytes with a clear top bit. *)
Lemma scriptnum_bytes z : 0 < z < 2 ^ 32 -> exists n, (n <= 4)%nat /\ scriptnum z = le_bytes (S n) z /\ 0 <= z < 128 * 256 ^ Z.of_nat n
  /\ match n with O => True | S m => 128 * 256 ^ Z.of_nat m <= z end.
Proof.
  intros Hz. assert (Hk : exists k, (k <= 3)%nat /\ 256 ^ Z.of_nat k <= z < 256 ^ Z.of_nat (S k)).
  { destruct (Z.lt_ge_cases z (256 ^ 1)); [exists 0%nat; cbn in *; lia|]. destruct (Z.lt_ge_cases z (256 ^ 2)); [exists 1%nat; cbn in *; lia|].
    destruct (Z.lt_ge_cases z (256 ^ 3)); [exists 2%nat; cbn in *; lia|]. exists 3%nat; cbn in *; lia. }
  destruct Hk as (k & Hk & Hb). unfold scriptnum. rewrite (num_bytes_le k z 4 ltac:(lia) Hb), (top_bit k z Hb).
  destruct (Z.ltb_spec z (128 * 256 ^ Z.of_nat k)).
  - exists k. split; [lia|]. split; [done|]. split; [lia|]. destruct k as [|k]; [done|]. rewrite Nat2Z.inj_succ, Z.pow_succ_r in Hb by lia. lia.
  - exists (S k). split; [lia|]. split; [symmetry; apply le_bytes_snoc; lia|]. rewrite Nat2Z.inj_succ, Z.pow_succ_r in * by lia. lia.
Qed.
Lemma scriptnum_small z : 1 <= z <= 16 -> scriptnum z = [z].
Proof.
  intros Hz. destruct (scriptnum_bytes z ltac:(lia)) as (n & _ & -> & _ & Hm). destruct n as [|n]; [cbn; by rewrite Z.mod_small by lia|].
  pose proof (Z.pow_pos_nonneg 256 (Z.of_nat n)). lia.
Qed.
Lemma scriptnum_reads z : 0 <= z < 2 ^ 32 -> script_num (scriptnum z) = z.
Proof.
  intros Hz. destruct (Z.eq_dec z 0) as [->|Hne]; [done|]. destruct (scriptnum_bytes z ltac:(lia)) as (n & _ & -> & Hb & _).
  by apply script_num_bytes.
Qed.

(** [push_num] of common/sym_scripts.c writes what [add_number] of
    bitcoin/script.c does. *)
Lemma push_num_add_number z : 0 <= z < 2 ^ 32 -> push_num z = add_number z.
Proof.
  intros Hz. unfold push_num, add_number. destruct (Z.eqb_spec z 0) as [|Hne]; [done|]. destruct (Z.leb_spec z 16); [f_equal; unfold OP_1; lia|].
  destruct (scriptnum_bytes z ltac:(lia)) as (n & Hn & E & Hb & Hm). unfold scriptnum in E. cbv zeta in E |- *. rewrite E. clear E.
  do 5 (destruct n as [|n]; [cbn in Hb, Hm; repeat case_if; try lia; done|]). lia.
Qed.

Lemma le64_signed_le8s z : in_s64 z -> le64_signed (le8s z) = z.
Proof.
  intros Hz. unfold le64_signed, le8s. rewrite le_value_bytes by (unfold wrap_u64; Z.to_euclidean_division_equations; lia).
  unfold wrap_s64, wrap_u64. Z.to_euclidean_division_equations. lia.
Qed.

(** A number is true exactly when it is not zero. *)
Lemma truthy_bytes n z : 0 < z < 128 * 256 ^ Z.of_nat n -> truthy (le_bytes (S n) z) = true.
Proof.
  revert z. induction n as [|n IH]; intros z Hz.
  - cbn in Hz |- *. rewrite Z.mod_small by lia. rewrite (proj2 (Z.eqb_neq _ _)), (proj2 (Z.eqb_neq _ _)) by lia. done.
  - change (le_bytes (S (S n)) z) with (z mod 256 :: le_bytes (S n) (z / 256)).
    assert (E : forall b x, truthy (b :: le_bytes (S n) x) = negb (b =? 0) || truthy (le_bytes (S n) x)) by done. rewrite E.
    destruct (Z.eqb_spec (z mod 256) 0) as [Em|]; [|done]. cbn [negb orb]. apply IH.
    rewrite Nat2Z.inj_succ, Z.pow_succ_r in Hz by lia. split; [Z.to_euclidean_division_equations; lia|].
    apply Z.div_lt_upper_bound; lia.
Qed.
Lemma truthy_scriptnum z : 0 <= z < 2 ^ 32 -> truthy (scriptnum z) = negb (z =? 0).
Proof.
  intros Hz. destruct (Z.eqb_spec z 0) as [->|Hne]; [done|]. destruct (scriptnum_bytes z ltac:(lia)) as (n & _ & -> & Hn & _).
  apply truthy_bytes. lia.
Qed.

(** ** An interpreter of leaves

    The opcodes of [TapMachine] run on a stack: an instance of [Machine] with
    its laws, at which the theorems on leaves are evaluated.  The streaming
    opcodes keep the message itself. *)

Section Interp.
Context (sha256 ripemd160 : list Z -> list Z) `{Taproot} `{Secp256k1} `{TxSignatures}.

Definition check (b : bool) (st : list (list Z)) : option (list (list Z)) := if b then Some st else None.
Definition look (from : list txo) (items : txo -> list (list Z)) (st : list (list Z)) : option (list (list Z)) :=
  match st with
  | i :: st =>
    if script_num i <? 0 then None
    else match from !! Z.to_nat (script_num i) with Some t => Some (items t ++ st) | None => None end
  | [] => None
  end.

(** One opcode that is no push of bytes. *)
Definition step (ctx : spend) (op : Z) (st : list (list Z)) : option (list (list Z)) :=
  if op =? OP_0 then Some ([] :: st)
  else if (OP_1 <=? op) && (op <=? OP_16) then Some ([op - OP_1 + 1] :: st)
  else if op =? SYM_OP_PUSHCURRENTINPUTINDEX then Some (scriptnum (Z.of_nat (sp_index ctx)) :: st)
  else if op =? SYM_OP_INSPECTINPUTASSET then look (sp_inputs ctx) (fun t => field_items (txo_asset t)) st
  else if op =? SYM_OP_INSPECTINPUTVALUE then look (sp_inputs ctx) (fun t => field_items (txo_value t)) st
  else if op =? SYM_OP_INSPECTINPUTSCRIPTPUBKEY then look (sp_inputs ctx) (fun t => script_items sha256 (txo_script t)) st
  else if op =? SYM_OP_INSPECTOUTPUTASSET then look (sp_outputs ctx) (fun t => field_items (txo_asset t)) st
  else if op =? SYM_OP_INSPECTOUTPUTVALUE then look (sp_outputs ctx) (fun t => field_items (txo_value t)) st
  else if op =? SYM_OP_INSPECTOUTPUTSCRIPTPUBKEY then look (sp_outputs ctx) (fun t => script_items sha256 (txo_script t)) st
  else match st with
  | [] => None
  | x :: st =>
    if op =? OP_VERIFY then check (truthy x) st
    else if op =? OP_DROP then Some st
    else if op =? OP_SHA256 then Some (sha256 x :: st)
    else if op =? OP_DUP then Some (x :: x :: st)
    else if op =? OP_SIZE then Some (scriptnum (Z.of_nat (length x)) :: x :: st)
    else if op =? OP_HASH160 then Some (ripemd160 (sha256 x) :: st)
    else if op =? OP_1ADD then Some (scriptnum (script_num x + 1) :: st)
    else if op =? OP_CHECKLOCKTIMEVERIFY then check (locktime_reached ctx (script_num x)) (x :: st)
    else if op =? OP_CHECKSEQUENCEVERIFY then check (sequence_reached ctx (script_num x)) (x :: st)
    else if op =? SYM_OP_SHA256INITIALIZE then Some (x :: st)
    else match st with
    | [] => None
    | a :: st =>
      if op =? OP_OVER then Some (a :: x :: a :: st)
      else if op =? OP_SWAP then Some (a :: x :: st)
      else if op =? OP_TUCK then Some (x :: a :: x :: st)
      else if op =? OP_EQUAL then Some (script_bool (bool_decide (a = x)) :: st)
      else if op =? OP_EQUALVERIFY then check (bool_decide (a = x)) st
      else if op =? SYM_OP_CAT then check (length (a ++ x) <=? MAX_SCRIPT_ELEMENT_SIZE)%nat ((a ++ x) :: st)
      else if op =? SYM_OP_GREATERTHAN64 then
        check ((length a =? 8)%nat && (length x =? 8)%nat) (script_bool (le64_signed x <? le64_signed a) :: st)
      else if op =? TCOV_OP_GREATERTHANOREQUAL64 then
        check ((length a =? 8)%nat && (length x =? 8)%nat) (script_bool (le64_signed x <=? le64_signed a) :: st)
      else if op =? CREDIT_OP_SUB64 then
        let d := le64_signed a - le64_signed x in
        check ((length a =? 8)%nat && (length x =? 8)%nat)
          (if (- 2 ^ 63 <=? d) && (d <? 2 ^ 63) then [1] :: le8s d :: st else [] :: x :: a :: st)
      else if op =? OP_2DUP then Some (x :: a :: x :: a :: st)
      else if op =? OP_CHECKSIGVERIFY then check (bool_decide (a <> []) && sig_ok ctx a x) st
      else if op =? OP_CHECKSIG then
        if bool_decide (a = []) then Some ([] :: st) else check (sig_ok ctx a x) ([1] :: st)
      else if op =? SYM_OP_SHA256UPDATE then Some ((a ++ x) :: st)
      else if op =? SYM_OP_SHA256FINALIZE then Some (sha256 (a ++ x) :: st)
      else match st with
      | [] => None
      | b :: st =>
        if op =? OP_ROT then Some (b :: x :: a :: st)
        else if op =? SYM_OP_CHECKSIGFROMSTACKVERIFY then check (schnorr_verify b a x) st
        else if op =? TCOV_OP_ECMULSCALARVERIFY then
          check ((length x =? 32)%nat && bool_decide (a = generator_der) && bool_decide (ec_pubkey_create x = Some b)) st
        else None
      end
    end
  end.

Fixpoint run (fuel : nat) (ctx : spend) (s : list Z) (st : list (list Z)) : option (list (list Z)) :=
  match fuel, s with
  | _, [] => Some st
  | O, _ => None
  | S k, op :: s =>
    if (1 <=? op) && (op <=? 75)
    then if (length s <? Z.to_nat op)%nat then None else run k ctx (drop (Z.to_nat op) s) (take (Z.to_nat op) s :: st)
    else match step ctx op st with Some st => run k ctx s st | None => None end
  end.

#[export] Instance interpreter : Machine := {|
  exec ctx s st := run (length s) ctx s st;
  sha_state m := m;
|}.

(** More fuel than bytes changes nothing. *)
Lemma run_fuel ctx k s st : (length s <= k)%nat -> run k ctx s st = run (length s) ctx s st.
Proof.
  revert s st. induction k as [k IH] using lt_wf_ind. intros [|op s] st Hk; [by destruct k|]. destruct k as [|k]; [cbn in Hk; lia|].
  cbn [run length] in *. destruct (_ && _).
  - destruct (_ <? _)%nat eqn:E; [done|]. apply Nat.ltb_ge in E. rewrite (IH k), <- (IH (length s)); [done|lia|rewrite length_drop; lia|lia|rewrite length_drop; lia].
  - destruct (step _ _ _); [|done]. by apply IH; lia.
Qed.
Lemma exec_op ctx op s st : (1 <=? op) && (op <=? 75) = false ->
  exec ctx (op :: s) st = match step ctx op st with Some st' => exec ctx s st' | None => None end.
Proof. intros E. cbn [exec interpreter length run]. by rewrite E. Qed.
Lemma exec_check b st ctx s : match check b st with Some st' => exec ctx s st' | None => None end = if b then exec ctx s st else None.
Proof. by destruct b. Qed.
Lemma exec_look from items i st ctx s : match look from items (i :: st) with Some st' => exec ctx s st' | None => None end
  = if script_num i <? 0 then None else match from !! Z.to_nat (script_num i) with Some t => exec ctx s (items t ++ st) | None => None end.
Proof. unfold look. destruct (_ <? 0); [done|]. by destruct (from !! _). Qed.

#[export] Instance interpreter_ok : MachineLaws sha256.
Proof.
  constructor; try (intros; rewrite exec_op by done; first [done|exact (exec_check _ _ _ _)]);
    try (intros ctx i rest st; rewrite exec_op by done; exact (exec_look _ _ _ _ _ _)).
  - done.
  - intros ctx m rest st Hm. unfold script_push_bytes. rewrite (proj2 (Z.ltb_lt _ _)) by lia. cbn [app exec interpreter length run].
    rewrite (proj2 (Z.leb_le 1 _)), (proj2 (Z.leb_le _ 75)) by lia. cbn [andb]. rewrite Nat2Z.id, length_app.
    rewrite (proj2 (Nat.ltb_ge _ _)), drop_app_length, take_app_length by lia. apply run_fuel. lia.
  - intros ctx n rest st Hn. rewrite exec_op by (unfold OP_1; lia). unfold step. unfold OP_0, OP_1, OP_16 in *.
    rewrite (proj2 (Z.eqb_neq _ _)), (proj2 (Z.leb_le 0x51 _)), (proj2 (Z.leb_le _ 0x60)) by lia. cbn [andb]. do 3 f_equal. lia.
Qed.

#[export] Instance interpreter_cov_ok : CovenantLaws sha256 ripemd160.
Proof.
  constructor; intros; rewrite exec_op by done; try first [done|exact (exec_check _ _ _ _)].
  - cbn [step Z.eqb]. cbn -[scriptnum script_num exec]. rewrite scriptnum_reads by lia. done.
  - cbn -[exec]. by destruct (bool_decide _), (sig_ok ctx sig key).
  - rewrite (eq_refl : step ctx CREDIT_OP_SUB64 (b :: a :: st)
      = check ((length a =? 8)%nat && (length b =? 8)%nat)
          (if (- 2 ^ 63 <=? le64_signed a - le64_signed b) && (le64_signed a - le64_signed b <? 2 ^ 63)
           then [1] :: le8s (le64_signed a - le64_signed b) :: st else [] :: b :: a :: st)).
    rewrite exec_check. cbn zeta. destruct (_ && (length b =? 8)%nat); [|done]. by destruct (_ && _).
  - rewrite (eq_refl : step ctx TCOV_OP_ECMULSCALARVERIFY (secret :: generator_der :: point :: st)
      = check ((length secret =? 32)%nat && bool_decide (generator_der = generator_der)
               && bool_decide (ec_pubkey_create secret = Some point)) st).
    by rewrite exec_check, (bool_decide_true (generator_der = _)), andb_true_r by done.
Qed.
End Interp.
