(* ===== verification/SymSettle.v ===== *)
(** * The settlement of a state (common/sym_scripts.c)

    A closed form of [sym_settlement]; that its outputs add up to the funding;
    and when the two sides build the same list. *)

From stdpp Require Import list sorting.
From S2P Require Import Prelude Chainparams Amount HtlcState Wire Script Keys Tapscript ChannelState Tx SymScripts.
Local Open Scope Z_scope.

Local Ltac divlia := Z.to_euclidean_division_equations; lia.

(** What the C library documents of its sort: a permutation, in order when
    the comparison is one. *)
Class Sorter {A} (asort : (A -> A -> comparison) -> list A -> list A) : Prop := {
  asort_perm cmp l : asort cmp l ≡ₚ l;
  asort_sorted cmp l :
    (forall a b, cmp b a = CompOpp (cmp a b)) -> (forall a b c, cmp a b <> Gt -> cmp b c <> Gt -> cmp a c <> Gt) ->
    Sorted (fun a b => cmp a b <> Gt) (asort cmp l);
}.

Section Settle.
#[local] Set Default Proof Using "Type*".
Context (sha256 ripemd160 : list Z -> list Z) `{Taproot}.
Context {handle : Type}.
Implicit Types (h : sym_htlc handle) (o : sym_output handle) (d : amount_sat_t).

(** ** The order *)

Definition out_key o : key := (satoshis (so_amount o), so_spk o, so_cltv_expiry o).

Lemma cmp_output_key o1 o2 : cmp_output o1 o2 = key_cmp (out_key o1) (out_key o2).
Proof using Type.
  unfold cmp_output, key_cmp, out_key, amount_sat_less, amount_sat_greater. rewrite bytes_cmp_memcmp.
  destruct (Z.compare_spec (satoshis (so_amount o1)) (satoshis (so_amount o2))) as [->|Hlt|Hgt].
  - rewrite Z.ltb_irrefl. destruct (memcmp _ _); [|done..].
    destruct (Nat.compare_spec (length (so_spk o1)) (length (so_spk o2))) as [->|Hl|Hl].
    + rewrite Nat.eqb_refl. cbn [negb]. destruct (Z.compare_spec (so_cltv_expiry o1) (so_cltv_expiry o2)) as [->|Hc|Hc].
      * by rewrite Z.eqb_refl.
      * by rewrite (proj2 (Z.eqb_neq _ _)), (proj2 (Z.ltb_lt _ _)) by lia.
      * by rewrite (proj2 (Z.eqb_neq _ _)), (proj2 (Z.ltb_ge _ _)) by lia.
    + by rewrite (proj2 (Nat.eqb_neq _ _)), (proj2 (Nat.ltb_lt _ _)) by lia.
    + by rewrite (proj2 (Nat.eqb_neq _ _)), (proj2 (Nat.ltb_ge _ _)) by lia.
  - by rewrite (proj2 (Z.ltb_lt _ _) Hlt).
  - by rewrite (proj2 (Z.ltb_ge _ _)), (proj2 (Z.ltb_lt _ _) Hgt) by lia.
Qed.

Lemma sorted_keys asort `{!Sorter asort} l : Sorted key_le (out_key <$> asort cmp_output l).
Proof using Type.
  assert (Hs : Sorted (fun a b => cmp_output a b <> Gt) (asort cmp_output l)).
  { apply asort_sorted.
    - intros a b. rewrite !cmp_output_key. apply key_cmp_antisym.
    - intros a b c. rewrite !cmp_output_key. apply key_le_trans. }
  apply (Sorted_fmap out_key (fun a b => cmp_output a b <> Gt)); [|exact Hs]. intros a b Hab. unfold key_le. by rewrite <- cmp_output_key.
Qed.

(** Two lists of the same keys sort to the same list of keys. *)
Lemma sorted_keys_unique asort asort' `{!Sorter asort, !Sorter asort'} l l' :
  out_key <$> l ≡ₚ out_key <$> l' -> out_key <$> asort cmp_output l = out_key <$> asort' cmp_output l'.
Proof using Type.
  intros Hp. apply (Sorted_unique key_le); [by apply sorted_keys..|]. by rewrite !asort_perm.
Qed.

(** ** The HTLCs *)

Definition kept d h : bool := negb (amount_sat_less (amount_msat_to_sat_round_down (sh_amount h)) d).
(** What goes back to [s] of an HTLC, and what becomes an output. *)
Definition back d (s : side) h : Z :=
  if decide (sh_owner h = s)
  then (if kept d h then millisatoshis (sh_amount h) mod 1000 else millisatoshis (sh_amount h)) else 0.
Definition kept_sat d h : Z := if kept d h then millisatoshis (sh_amount h) / 1000 else 0.

Definition htlc_out (hb : sides (list Z)) h o : Prop :=
  exists tree, sym_htlc_tree sha256 hb.[sh_owner h] hb.[other (sh_owner h)] (sh_payment_ripemd h) (sh_cltv_expiry h) = Ret tree
    /\ o = mk_sym_output _ SYM_OUT_HTLC (sh_owner h) (amount_msat_to_sat_round_down (sh_amount h))
             (tap_tree2_scriptpubkey tree) None (Some (sh_handle h)) (sh_cltv_expiry h).

Lemma sum_back_nonneg d s hs : Forall (fun h => wf_msat (sh_amount h)) hs -> 0 <= sum_with (back d s) hs.
Proof using Type.
  intros Hw. rewrite Forall_forall in Hw. apply sum_with_nonneg. intros h Hh. specialize (Hw h Hh). cbn in Hw. unfold back. repeat case_match; divlia.
Qed.
Lemma sum_kept_nonneg d hs : Forall (fun h => wf_msat (sh_amount h)) hs -> 0 <= sum_with (kept_sat d) hs.
Proof using Type.
  intros Hw. rewrite Forall_forall in Hw. apply sum_with_nonneg. intros h Hh. specialize (Hw h Hh). cbn in Hw. unfold kept_sat. case_match; divlia.
Qed.

(** The loop over the HTLCs succeeds when nothing overflows and every HTLC
    that is kept has a tree, and then it has added their sums. *)
Definition htlcs_settled hb d hs (bal : sides amount_msat_t) (total : amount_sat_t) (outs : list (sym_output handle))
    (bal' : sides amount_msat_t) (total' : amount_sat_t) (outs' : list (sym_output handle)) : Prop :=
  (forall s, millisatoshis bal'.[s] = millisatoshis bal.[s] + sum_with (back d s) hs)
  /\ satoshis total' = satoshis total + sum_with (kept_sat d) hs
  /\ (forall s, wf_msat bal'.[s]) /\ wf_sat total'
  /\ exists os, Forall2 (htlc_out hb) (filter (fun h => kept d h = true) hs) os /\ outs' = outs ++ os.

Lemma accumulate_iff a b c : wf_msat a -> wf_msat b ->
  amount_msat_accumulate a b = Some c <-> millisatoshis c = millisatoshis a + millisatoshis b /\ wf_msat c.
Proof using Type.
  intros Ha Hb. unfold amount_msat_accumulate. rewrite amount_msat_add_spec by done. destruct c as [c].
  case_if; split; intros E; cbn in *; [injection E as <-; lia|f_equal; f_equal; lia|done|lia].
Qed.
Lemma sat_add_iff a b c : wf_sat a -> wf_sat b ->
  amount_sat_add a b = Some c <-> satoshis c = satoshis a + satoshis b /\ wf_sat c.
Proof using Type.
  intros Ha Hb. rewrite amount_sat_add_spec by done. destruct c as [c].
  case_if; split; intros E; cbn in *; [injection E as <-; lia|f_equal; f_equal; lia|done|lia].
Qed.
Lemma round_down_split a : wf_msat a ->
  exists r, amount_msat_sub_sat a (amount_msat_to_sat_round_down a) = Some r
    /\ millisatoshis r = millisatoshis a mod 1000 /\ wf_msat r /\ wf_sat (amount_msat_to_sat_round_down a).
Proof using Type.
  intros Ha. assert (Hs : wf_sat (amount_msat_to_sat_round_down a)) by (cbn; divlia).
  rewrite amount_msat_sub_sat_spec by done. cbn. case_if; [|divlia]. eexists. split; [done|]. cbn. divlia.
Qed.

(** One HTLC. *)
Lemma settle_htlcs_step hb d h hs bal total outs r :
  wf_msat (sh_amount h) -> (forall s, wf_msat bal.[s]) -> wf_sat total ->
  settle_htlcs sha256 hb d (h :: hs) bal total outs = Ret (Some r)
  <-> exists b t os, millisatoshis b = millisatoshis bal.[sh_owner h] + back d (sh_owner h) h /\ wf_msat b
      /\ satoshis t = satoshis total + kept_sat d h /\ wf_sat t
      /\ Forall2 (htlc_out hb) (filter (fun h => kept d h = true) [h]) os
      /\ settle_htlcs sha256 hb d hs (upd (sh_owner h) b bal) t (outs ++ os) = Ret (Some r).
Proof using Type.
  intros Ha Hb Ht. cbn [settle_htlcs]. unfold back, kept_sat. rewrite decide_True by done. rewrite filter_cons, filter_nil.
  replace (amount_sat_less _ d) with (negb (kept d h)) by (unfold kept; by rewrite negb_involutive).
  destruct (kept d h) eqn:Ek; cbn [negb decide decide_rel].
  - destruct (round_down_split _ Ha) as (r0 & -> & Er0 & Hr0 & Hs0). rewrite decide_True by done. split.
    + destruct (amount_msat_accumulate _ _) as [b|] eqn:E; [|done]. apply accumulate_iff in E as [Eb Hwb]; [|done..].
      destruct (sym_htlc_tree _ _ _ _ _) as [tree|] eqn:Etr; [|done]. cbn [mbind outcome_bind].
      destruct (amount_sat_add _ _) as [t|] eqn:E2; [|done]. apply sat_add_iff in E2 as [Et Hwt]; [|done..]. intros Er.
      eexists b, t, [_]. do 4 (split; [done || lia|]). split; [|exact Er]. constructor; [by exists tree|constructor].
    + intros (b & t & os & Eb & Hwb & Et & Hwt & Ho & Er). apply Forall2_cons_inv_l in Ho as (o & ? & (tree & Etr & ->) & Ho & ->).
      apply Forall2_nil_inv_l in Ho as ->.
      rewrite (proj2 (accumulate_iff bal.[sh_owner h] r0 b (Hb _) Hr0)) by (split; [lia|done]). rewrite Etr. cbn [mbind outcome_bind].
      by rewrite (proj2 (sat_add_iff total _ t Ht Hs0)) by done.
  - rewrite decide_False by done. split.
    + destruct (amount_msat_accumulate _ _) as [b|] eqn:E; [|done]. apply accumulate_iff in E as [Eb Hwb]; [|done..]. intros Er.
      exists b, total, []. rewrite app_nil_r. do 5 (split; [done || lia|]). done.
    + intros (b & t & os & Eb & Hwb & Et & _ & Ho & Er). apply Forall2_nil_inv_l in Ho as ->. rewrite app_nil_r in Er.
      rewrite (proj2 (accumulate_iff bal.[sh_owner h] (sh_amount h) b (Hb _) Ha)) by done. rewrite <- Er. f_equal. destruct t, total; cbn in *; f_equal; lia.
Qed.

Lemma settle_htlcs_iff hb d hs bal total outs bal' total' outs' :
  Forall (fun h => wf_msat (sh_amount h)) hs -> (forall s, wf_msat bal.[s]) -> wf_sat total ->
  settle_htlcs sha256 hb d hs bal total outs = Ret (Some (bal', total', outs'))
  <-> htlcs_settled hb d hs bal total outs bal' total' outs'.
Proof using Type.
  intros Hw. revert bal total outs; induction Hw as [|h hs Ha Hw IH]; intros bal total outs Hb Ht.
  { unfold htlcs_settled. cbn. split.
    - intros [= <- <- <-]. split; [lia|]. split; [lia|]. split; [done|]. split; [done|]. exists []. split; [constructor|by rewrite app_nil_r].
    - intros (E1 & E2 & _ & _ & os & Ho & ->). apply Forall2_nil_inv_l in Ho as ->. rewrite app_nil_r. do 4 f_equal.
      + apply sides_eq. intros s. specialize (E1 s). destruct bal.[s], bal'.[s]; cbn in *; f_equal; lia.
      + destruct total, total'; cbn in *; f_equal; lia. }
  rewrite settle_htlcs_step by done.
  assert (Hn : forall s, 0 <= sum_with (back d s) [h]) by (intros s; apply sum_back_nonneg; by apply Forall_singleton).
  assert (Hk : 0 <= sum_with (kept_sat d) [h]) by (apply sum_kept_nonneg; by apply Forall_singleton).
  pose proof (fun s => sum_back_nonneg d s hs Hw) as Hns. pose proof (sum_kept_nonneg d hs Hw) as Hks.
  assert (Hown : forall s, back d s h = if decide (sh_owner h = s) then back d (sh_owner h) h else 0).
  { intros s. unfold back. by repeat case_decide. }
  unfold htlcs_settled. change (h :: hs) with ([h] ++ hs). rewrite filter_app. setoid_rewrite sum_with_app.
  cbn [sum_with foldr] in *. split.
  - intros (b & t & os & Eb & Hwb & Et & Hwt & Ho & Er). apply IH in Er as (E1 & E2 & Hb' & Ht' & os' & Ho' & ->); [|..|done].
    + split; [|split; [lia|]]. 
      * intros s. rewrite E1, sel_upd, (Hown s). case_decide as Es; [subst s|]; lia.
      * split; [done|]. split; [done|]. exists (os ++ os'). rewrite app_assoc. by split; [apply Forall2_app|].
    + intros s. rewrite sel_upd. by case_decide.
  - intros (E1 & E2 & Hb' & Ht' & os & Ho & ->). apply Forall2_app_inv_l in Ho as (os1 & os2 & Ho1 & Ho2 & ->).
    pose proof (E1 (sh_owner h)) as Eo. pose proof (Hn (sh_owner h)). pose proof (Hns (sh_owner h)).
    pose proof (Hb (sh_owner h)). pose proof (Hb' (sh_owner h)).
    assert (Hwb : in_u64 (millisatoshis bal.[sh_owner h] + back d (sh_owner h) h)) by lia.
    exists (mk_msat (millisatoshis bal.[sh_owner h] + back d (sh_owner h) h)), (mk_sat (satoshis total + kept_sat d h)), os1.
    cbn [millisatoshis satoshis]. do 2 (split; [done|]). do 2 (split; [lia|]). split; [done|].
    apply IH; [intros s; rewrite sel_upd; by case_decide|cbn; lia|]. unfold htlcs_settled. cbn [satoshis].
    split; [|split; [lia|]].
    + intros s. rewrite sel_upd, E1, (Hown s). case_decide as Es; [subst s|]; cbn [millisatoshis]; lia.
    + split; [done|]. split; [done|]. exists os2. by rewrite app_assoc.
Qed.

(** ** The balances *)

(** A balance of [n] goes to the other side, which has [m]. *)
Definition dusty d (n m : Z) : bool := negb (n =? 0) && (n <? satoshis d) && (n <=? m).
Definition dust_pass d (node : sides amount_sat_t) : sides amount_sat_t :=
  let l := satoshis node.[LOCAL] in
  let r := satoshis node.[REMOTE] in
  if dusty d l r then mk_sides (mk_sat 0) (mk_sat (l + r))
  else if dusty d r l then mk_sides (mk_sat (l + r)) (mk_sat 0)
  else node.

Lemma dust_pass_ok d node : (forall s, 0 <= satoshis node.[s]) -> satoshis node.[LOCAL] + satoshis node.[REMOTE] <= UINT64_MAX ->
  dust_to_other d LOCAL node ≫= dust_to_other d REMOTE = Some (dust_pass d node).
Proof using Type.
  intros Hn Hm. pose proof (Hn LOCAL). pose proof (Hn REMOTE). destruct node as [[l] [r]]. cbn [sel at_local at_remote satoshis] in *.
  unfold dust_to_other, dust_pass, amount_sat_eq, amount_sat_less, amount_sat_greater_eq. cbn [sel at_local at_remote satoshis other upd].
  fold (dusty d l r). destruct (dusty d l r) eqn:E.
  - rewrite amount_sat_add_spec by (cbn; lia). cbn [satoshis]. case_if; [|lia]. cbn [mbind option_bind sel at_local at_remote satoshis other].
    unfold dusty in E. replace (negb (r + l =? 0) && (r + l <? satoshis d) && (r + l <=? 0)) with false by lia. by rewrite (Z.add_comm r l).
  - cbn [mbind option_bind sel at_local at_remote satoshis other]. fold (dusty d r l). destruct (dusty d r l); [|done].
    rewrite amount_sat_add_spec by (cbn; lia). cbn [satoshis]. by case_if; [|lia].
Qed.

(** The two balances before any goes to the other side. *)
Definition whole (bal : sides amount_msat_t) (s : side) : Z := millisatoshis bal.[s] / 1000.
Definition paid (bal : sides amount_msat_t) (total : amount_sat_t) : Z := satoshis total + whole bal LOCAL + whole bal REMOTE.
Definition node_of (f : amount_sat_t) (op : side) (bal : sides amount_msat_t) (total : amount_sat_t) : sides amount_sat_t :=
  let left_over s := if decide (s = op) then satoshis f - paid bal total else 0 in
  mk_sides (mk_sat (whole bal LOCAL + left_over LOCAL)) (mk_sat (whole bal REMOTE + left_over REMOTE)).

Lemma node_of_sum f op bal total : satoshis (node_of f op bal total).[LOCAL] + satoshis (node_of f op bal total).[REMOTE]
  = satoshis f - satoshis total.
Proof using Type. unfold node_of, paid. cbn [sel at_local at_remote satoshis]. destruct op; repeat case_decide; try done; lia. Qed.

Lemma settle_balances_iff f op d bal total node :
  wf_sat f -> (forall s, wf_msat bal.[s]) -> wf_sat total ->
  settle_balances f op d bal total = inr node
  <-> paid bal total <= satoshis f /\ node = dust_pass d (node_of f op bal total).
Proof using Type.
  intros Hf Hb Ht. assert (Hw : forall s, in_u64 (whole bal s)) by (intros s; specialize (Hb s); unfold whole; divlia).
  pose proof (Hw LOCAL) as Hl. pose proof (Hw REMOTE) as Hr. pose proof (node_of_sum f op bal total) as Hsum.
  unfold settle_balances, amount_msat_to_sat_round_down. cbn [sel at_local at_remote].
  change (millisatoshis (at_local bal) / 1000) with (whole bal LOCAL). change (millisatoshis (at_remote bal) / 1000) with (whole bal REMOTE).
  assert (Hp : paid bal total = satoshis total + whole bal LOCAL + whole bal REMOTE) by done.
  rewrite amount_sat_add_spec by (cbn; lia). cbn [satoshis]. case_if; cbn [mbind option_bind]; [|split; [done|lia]].
  rewrite amount_sat_add_spec by (cbn; lia). cbn [satoshis]. case_if; cbn [mbind option_bind]; [|split; [done|lia]].
  rewrite <- Hp. unfold amount_sat_sub. cbn [satoshis].
  case_if; [split; [done|lia]|].
  rewrite amount_sat_add_spec by (destruct op; cbn; lia). cbn [satoshis]. case_if; [|destruct op; cbn in *; lia]. cbn [mbind option_bind].
  set (node1 := upd op _ _). assert (E1 : node1 = node_of f op bal total).
  { unfold node1, node_of. destruct op; repeat case_decide; try done; cbn; by rewrite Z.add_0_r. }
  rewrite E1. clearbody node1. pose proof (dust_pass_ok d (node_of f op bal total)) as Hok. unfold mbind, option_bind in Hok |- *.
  rewrite Hok; [split; [intros [= <-]; split; [lia|done]|intros [_ ->]; done]| |lia].
  intros s. unfold node_of. destruct s, op; repeat case_decide; try done; cbn; lia.
Qed.

(** ** The settlement *)

Definition settled_bal d (hs : list (sym_htlc handle)) (bal : sides amount_msat_t) : sides amount_msat_t :=
  mk_sides (mk_msat (millisatoshis bal.[LOCAL] + sum_with (back d LOCAL) hs))
           (mk_msat (millisatoshis bal.[REMOTE] + sum_with (back d REMOTE) hs)).
Definition settled_total d (hs : list (sym_htlc handle)) : amount_sat_t := mk_sat (sum_with (kept_sat d) hs).
(** The two balances as the settlement pays them. *)
Definition settled_node f op d hs bal : sides amount_sat_t :=
  dust_pass d (node_of f op (settled_bal d hs bal) (settled_total d hs)).
Definition balance_outputs (pb : sides (list Z)) (node : sides amount_sat_t) : list (sym_output handle) :=
  balance_output sha256 ripemd160 pb node LOCAL ++ balance_output sha256 ripemd160 pb node REMOTE.

Definition settlement_of f op pb hb bal (hs : list (sym_htlc handle)) d (all : list (sym_output handle)) : Prop :=
  (forall s, wf_msat (settled_bal d hs bal).[s]) /\ wf_sat (settled_total d hs)
  /\ paid (settled_bal d hs bal) (settled_total d hs) <= satoshis f /\ all <> []
  /\ exists os, Forall2 (htlc_out hb) (filter (fun h => kept d h = true) hs) os
       /\ all = os ++ balance_outputs pb (settled_node f op d hs bal).

Lemma sel_settled_bal d hs bal s : millisatoshis (settled_bal d hs bal).[s] = millisatoshis bal.[s] + sum_with (back d s) hs.
Proof using Type. by destruct s. Qed.

Lemma sym_settlement_iff asort f op pb hb bal hs d outs :
  wf_sat f -> (forall s, wf_msat bal.[s]) -> Forall (fun h => wf_msat (sh_amount h)) hs ->
  sym_settlement sha256 ripemd160 asort f op pb hb bal hs d = Ret (inr outs)
  <-> exists all, settlement_of f op pb hb bal hs d all /\ outs = asort cmp_output all.
Proof using Type.
  intros Hf Hb Hw. unfold sym_settlement, settlement_of. split.
  - intros E. apply bind_Ret_inv in E as ([[[bal1 total1] outs1]|] & E1 & E); [|done].
    apply settle_htlcs_iff in E1 as (Eb & Et & Hb1 & Ht1 & os & Ho & ->); [|done|done|cbn; lia].
    assert (bal1 = settled_bal d hs bal) as ->.
    { apply sides_eq. intros s. specialize (Eb s). rewrite <- sel_settled_bal in Eb. destruct bal1.[s], (settled_bal d hs bal).[s]. cbn in *; by subst. }
    assert (total1 = settled_total d hs) as -> by (destruct total1; cbn in *; by subst).
    destruct (settle_balances f op d _ _) as [e|node] eqn:En; [done|]. apply settle_balances_iff in En as [Hp ->]; [|done..].
    rewrite app_nil_l in E. fold (settled_node f op d hs bal) in E. fold (balance_outputs pb (settled_node f op d hs bal)) in E.
    destruct (length _ =? 0)%nat eqn:El; [done|]. injection E as <-. eexists. split; [|reflexivity].
    do 3 (split; [done|]). split; [|by exists os]. intros Ea. by rewrite Ea in El.
  - intros (all & (Hb1 & Ht1 & Hp & Hne & os & Ho & ->) & ->).
    rewrite (proj2 (settle_htlcs_iff hb d hs bal (mk_sat 0) [] (settled_bal d hs bal) (settled_total d hs) os Hw Hb ltac:(cbn; lia))).
    + cbn [mbind outcome_bind]. rewrite (proj2 (settle_balances_iff f op d _ _ _ Hf Hb1 Ht1) (conj Hp eq_refl)).
      fold (settled_node f op d hs bal). fold (balance_outputs pb (settled_node f op d hs bal)).
      destruct (length _ =? 0)%nat eqn:El; [|done]. apply Nat.eqb_eq, nil_length_inv in El. done.
    + split; [intros s; apply sel_settled_bal|]. split; [done|]. split; [done|]. split; [done|]. by exists os.
Qed.

(** The balance outputs' sum. *)
Lemma balance_outputs_sum pb node : sum_with (fun o => satoshis (so_amount o)) (balance_outputs pb node)
  = satoshis node.[LOCAL] + satoshis node.[REMOTE].
Proof using Type.
  unfold balance_outputs. rewrite sum_with_app. unfold balance_output, amount_sat_eq. repeat case_if; cbn in *; lia.
Qed.
Lemma dust_pass_sum d node : satoshis (dust_pass d node).[LOCAL] + satoshis (dust_pass d node).[REMOTE]
  = satoshis node.[LOCAL] + satoshis node.[REMOTE].
Proof using Type. unfold dust_pass. repeat case_if; cbn; lia. Qed.
Lemma htlc_outs_sum hb d hs os : Forall2 (htlc_out hb) (filter (fun h => kept d h = true) hs) os ->
  sum_with (fun o => satoshis (so_amount o)) os = sum_with (kept_sat d) hs.
Proof using Type.
  revert os; induction hs as [|h hs IH]; intros os Ho.
  { rewrite filter_nil in Ho. by apply Forall2_nil_inv_l in Ho as ->. }
  rewrite filter_cons in Ho. cbn [sum_with foldr]. fold (sum_with (kept_sat d) hs). unfold kept_sat at 1.
  case_decide as Ek; [|by rewrite (not_true_is_false _ Ek), (IH _ Ho)]. rewrite Ek.
  apply Forall2_cons_inv_l in Ho as (o & os' & (tree & _ & ->) & Ho & ->). cbn. by rewrite <- (IH _ Ho).
Qed.

Lemma htlc_outs_kept hb d hs os : Forall2 (htlc_out hb) (filter (fun h => kept d h = true) hs) os ->
  Forall (fun o => so_kind o = SYM_OUT_HTLC /\ satoshis d <= satoshis (so_amount o) /\ so_asset o = None) os.
Proof using Type.
  intros Ho. apply Forall_forall. intros o Hin. apply list_elem_of_lookup in Hin as [i Hi].
  destruct (Forall2_lookup_r _ _ _ _ _ Ho Hi) as (h & Hh & tree & _ & ->). split; [done|]. split; [|done]. cbn [so_amount].
  apply list_elem_of_lookup_2, list_elem_of_filter in Hh as [Hk _]. unfold kept, amount_sat_less in Hk. cbn in *. lia.
Qed.

(** C15. A settlement pays out the funding, all of it and no more: whatever the
    balances, the HTLCs and the dust limit, the outputs [sym_settlement]
    returns add up to the funding, there is at least one, and each is either
    an HTLC worth at least the dust limit or a balance that is not zero. *)
Theorem settlement_exact asort `{!Sorter asort} f op pb hb bal hs d outs :
  wf_sat f -> (forall s, wf_msat bal.[s]) -> Forall (fun h => wf_msat (sh_amount h)) hs ->
  sym_settlement sha256 ripemd160 asort f op pb hb bal hs d = Ret (inr outs) ->
  sum_with (fun o => satoshis (so_amount o)) outs = satoshis f /\ outs <> []
  /\ Forall (fun o => match so_kind o with
                     | SYM_OUT_HTLC => satoshis d <= satoshis (so_amount o)
                     | SYM_OUT_BALANCE => satoshis (so_amount o) <> 0 end) outs.
Proof using Type.
  intros Hf Hb Hw E. apply sym_settlement_iff in E as (all & (_ & _ & _ & Hne & os & Ho & ->) & ->); [|done..].
  split; [|split].
  - rewrite (sum_with_perm _ _ _ (asort_perm cmp_output _)), sum_with_app, (htlc_outs_sum _ _ _ _ Ho), balance_outputs_sum.
    unfold settled_node. rewrite dust_pass_sum, node_of_sum. cbn. lia.
  - intros Ea. apply Hne. apply Permutation_nil_r. rewrite <- Ea. symmetry. apply asort_perm.
  - rewrite (asort_perm cmp_output), Forall_app. split.
    + eapply Forall_impl; [by apply (htlc_outs_kept hb d hs)|]. intros o (-> & Ha & _). done.
    + unfold balance_outputs, balance_output, amount_sat_eq. repeat case_if; cbn [app]; repeat constructor; cbn in *; lia.
Qed.

(** ** The two sides *)

(** A pair seen by two sides: what one has at [s], the other has at [t]. *)
Definition seen {A} (s t : side) (p q : sides A) : Prop := p.[s] = q.[t] /\ p.[other s] = q.[other t].
(** What a settlement shows of an HTLC, from [s]. *)
Definition sym_shown (s : side) h : bool * amount_msat_t * list Z * Z :=
  (bool_decide (sh_owner h = s), sh_amount h, sh_payment_ripemd h, sh_cltv_expiry h).

(** Both balances are the same, not zero and below the dust limit: each side
    then gives its own to the other. *)
Definition tied f op d hs bal : bool :=
  let node := node_of f op (settled_bal d hs bal) (settled_total d hs) in
  dusty d (satoshis node.[LOCAL]) (satoshis node.[REMOTE]) && dusty d (satoshis node.[REMOTE]) (satoshis node.[LOCAL]).

Lemma shown_kept d s t h h' : sym_shown s h = sym_shown t h' -> kept d h = kept d h' /\ kept_sat d h = kept_sat d h'.
Proof using Type. intros [= _ Ea _ _]. unfold kept_sat, kept. by rewrite Ea. Qed.
Lemma sym_shown_back d s t h h' : sym_shown s h = sym_shown t h' ->
  back d s h = back d t h' /\ back d (other s) h = back d (other t) h'.
Proof using Type.
  intros E. destruct (shown_kept d s t h h' E) as [Ek _]. injection E as Eo Ea _ _. unfold back. rewrite Ek, Ea.
  destruct (sh_owner h), (sh_owner h'), s, t; done.
Qed.

(** Lists that show the same up to the order: reordered, one by one. *)
Lemma shown_aligned s t hs hs' : sym_shown s <$> hs ≡ₚ sym_shown t <$> hs' ->
  exists hs1, hs' ≡ₚ hs1 /\ Forall2 (fun h h' => sym_shown s h = sym_shown t h') hs hs1.
Proof using Type.
  intros Hp. apply Permutation_map_inv in Hp as (hs1 & E & Hp). exists hs1. split; [done|].
  clear Hp. revert hs1 E; induction hs as [|h hs IH]; intros [|h1 hs1] E; try done. cbn in E. injection E as E1 E. constructor; [|by apply IH].
  unfold sym_shown. by f_equal; [f_equal; [f_equal|]|].
Qed.
Lemma sum_with_aligned s t (g g' : sym_htlc handle -> Z) hs hs1 :
  (forall h h', sym_shown s h = sym_shown t h' -> g h = g' h') ->
  Forall2 (fun h h' => sym_shown s h = sym_shown t h') hs hs1 -> sum_with g hs = sum_with g' hs1.
Proof using Type. intros Hg. induction 1 as [|h h' hs hs1 E _ IH]; [done|]. cbn. rewrite (Hg h h' E). unfold sum_with in IH. lia. Qed.
Lemma filter_aligned d s t hs hs1 : Forall2 (fun h h' => sym_shown s h = sym_shown t h') hs hs1 ->
  Forall2 (fun h h' => sym_shown s h = sym_shown t h') (filter (fun h => kept d h = true) hs) (filter (fun h => kept d h = true) hs1).
Proof using Type.
  induction 1 as [|h h' hs hs1 E _ IH]; [done|]. rewrite !filter_cons, <- (proj1 (shown_kept d s t h h' E)).
  case_decide; [by constructor|done].
Qed.

(** The HTLCs' outputs, one by one. *)
Lemma htlc_outs_aligned s t hb hb' hs hs1 os : seen s t hb hb' ->
  Forall2 (fun h h' => sym_shown s h = sym_shown t h') hs hs1 -> Forall2 (htlc_out hb) hs os ->
  exists os', Forall2 (htlc_out hb') hs1 os' /\ out_key <$> os = out_key <$> os'.
Proof using Type.
  intros [Hs Ho] Ha. revert os; induction Ha as [|h h' hs hs1 E _ IH]; intros os Hos.
  { apply Forall2_nil_inv_l in Hos as ->. exists []. by split; [constructor|]. }
  apply Forall2_cons_inv_l in Hos as (o & os1 & (tree & Et & ->) & Hos & ->). destruct (IH _ Hos) as (os' & Hos' & Ek).
  injection E as Eo Ea Er Ec. eexists (_ :: os'). split.
  - constructor; [|exact Hos']. exists tree. split; [|reflexivity]. rewrite <- Et, <- Er, <- Ec.
    assert (hb'.[sh_owner h'] = hb.[sh_owner h] /\ hb'.[other (sh_owner h')] = hb.[other (sh_owner h)]) as [-> ->]; [|done].
    destruct (sh_owner h), (sh_owner h'), s, t; done.
  - rewrite !fmap_cons, Ek. unfold out_key; cbn. by rewrite Ea, Ec.
Qed.

(** What both sides see of the balances. *)
Lemma seen_sum {A} (s t : side) (p q : sides A) (g : A -> Z) : seen s t p q -> g p.[LOCAL] + g p.[REMOTE] = g q.[LOCAL] + g q.[REMOTE].
Proof using Type. unfold seen. destruct s, t; cbn; intros [-> ->]; lia. Qed.
Lemma settled_bal_seen s t d hs hs1 bal bal' : seen s t bal bal' ->
  Forall2 (fun h h' => sym_shown s h = sym_shown t h') hs hs1 -> seen s t (settled_bal d hs bal) (settled_bal d hs1 bal').
Proof using Type.
  intros [E1 E2] Ha.
  assert (B1 : sum_with (back d s) hs = sum_with (back d t) hs1) by (eapply sum_with_aligned; [|done]; intros; by apply sym_shown_back).
  assert (B2 : sum_with (back d (other s)) hs = sum_with (back d (other t)) hs1) by (eapply sum_with_aligned; [|done]; intros; by apply sym_shown_back).
  split; destruct s, t; cbn in *; by rewrite ?E1, ?E2, ?B1, ?B2.
Qed.
Lemma node_of_seen s t f op op' bal bal' total : bool_decide (s = op) = bool_decide (t = op') -> seen s t bal bal' ->
  seen s t (node_of f op bal total) (node_of f op' bal' total).
Proof using Type.
  intros Eo Hs. assert (Ep : paid bal total = paid bal' total).
  { unfold paid. pose proof (seen_sum s t bal bal' (fun a => millisatoshis a / 1000) Hs) as K. cbv beta in K. unfold whole. lia. }
  destruct Hs as [E1 E2]. unfold seen, node_of, whole. rewrite Ep.
  destruct s, t, op, op'; try done; cbn in *; by rewrite E1, E2.
Qed.

(** Unless they are tied, both sides agree which balance is too small. *)
Lemma dust_pass_seen s t d node node' : seen s t node node' ->
  dusty d (satoshis node.[LOCAL]) (satoshis node.[REMOTE]) && dusty d (satoshis node.[REMOTE]) (satoshis node.[LOCAL]) = false ->
  seen s t (dust_pass d node) (dust_pass d node').
Proof using Type.
  intros [E1 E2] Ht. unfold dust_pass, seen.
  destruct node as [[l] [r]], node' as [[l'] [r']], s, t; cbn [sel at_local at_remote satoshis other] in *; injection E1 as ->; injection E2 as ->;
    try (split; reflexivity);
    destruct (dusty d l' r'), (dusty d r' l'); try discriminate Ht; cbn; split; f_equal; lia.
Qed.

Lemma balance_outputs_seen s t pb pb' node node' : seen s t pb pb' -> seen s t node node' ->
  out_key <$> balance_outputs pb node ≡ₚ out_key <$> balance_outputs pb' node'.
Proof using Type.
  intros [P1 P2] [N1 N2]. unfold balance_outputs, balance_output.
  destruct s, t; cbn [other] in *; rewrite P1, P2, N1, N2; try done;
    destruct (amount_sat_eq _ _), (amount_sat_eq _ _); cbn [app]; try done; rewrite ?fmap_cons; by constructor.
Qed.

Lemma seen_all {A} (P : A -> Prop) s t (p q : sides A) : seen s t p q -> (forall u, P p.[u]) -> forall u, P q.[u].
Proof using Type. intros [E1 E2] Hp u. destruct s, t, u; cbn in *; try rewrite <- E1; try rewrite <- E2; by (apply (Hp LOCAL) || apply (Hp REMOTE)). Qed.

(** What the two sides build, up to the balances that are too small. *)
Lemma settlement_of_seen s t f op op' pb pb' hb hb' bal bal' hs hs' d all :
  bool_decide (s = op) = bool_decide (t = op') -> seen s t hb hb' -> seen s t bal bal' ->
  sym_shown s <$> hs ≡ₚ sym_shown t <$> hs' -> settlement_of f op pb hb bal hs d all ->
  let node := node_of f op (settled_bal d hs bal) (settled_total d hs) in
  let node' := node_of f op' (settled_bal d hs' bal') (settled_total d hs') in
  exists os os', seen s t node node' /\ out_key <$> os ≡ₚ out_key <$> os'
    /\ all = os ++ balance_outputs pb (dust_pass d node)
    /\ (os' ++ balance_outputs pb' (dust_pass d node') <> [] -> settlement_of f op' pb' hb' bal' hs' d (os' ++ balance_outputs pb' (dust_pass d node'))).
Proof using Type.
  intros Hop Hhb Hbal Hhs (Hb1 & Ht1 & Hp & Hne & os & Ho & ->).
  destruct (shown_aligned s t hs hs' Hhs) as (hs1 & Hperm & Hal).
  assert (Et : settled_total d hs' = settled_total d hs).
  { unfold settled_total. f_equal. rewrite Hperm. symmetry. eapply sum_with_aligned; [|done]. intros; by eapply shown_kept. }
  assert (Eb : settled_bal d hs' bal' = settled_bal d hs1 bal') by (unfold settled_bal; by rewrite Hperm).
  pose proof (settled_bal_seen s t d hs hs1 bal bal' Hbal Hal) as Hsb. rewrite <- Eb in Hsb.
  destruct (htlc_outs_aligned s t hb hb' _ _ os Hhb (filter_aligned d s t hs hs1 Hal) Ho) as (os1 & Ho1 & Ek).
  destruct (Permutation_Forall2 (filter_Permutation (fun h => kept d h = true) _ _ (symmetry Hperm)) Ho1) as (os' & Hos & Ho').
  exists os, os'. rewrite Et. split; [by apply node_of_seen|]. split; [by rewrite Ek, Hos|]. split; [done|]. intros Hne'.
  split; [by eapply (seen_all (fun a => wf_msat a))|]. rewrite Et. split; [done|]. split.
  - unfold paid, whole in *. pose proof (seen_sum s t _ _ (fun a => millisatoshis a / 1000) Hsb) as K. cbv beta in K. lia.
  - split; [done|]. exists os'. unfold settled_node. by rewrite Et.
Qed.

Lemma settlement_of_agrees s t f op op' pb pb' hb hb' bal bal' hs hs' d all :
  bool_decide (s = op) = bool_decide (t = op') -> seen s t pb pb' -> seen s t hb hb' -> seen s t bal bal' ->
  sym_shown s <$> hs ≡ₚ sym_shown t <$> hs' -> tied f op d hs bal = false -> settlement_of f op pb hb bal hs d all ->
  exists all', settlement_of f op' pb' hb' bal' hs' d all' /\ out_key <$> all ≡ₚ out_key <$> all'.
Proof using Type.
  intros Hop Hpb Hhb Hbal Hhs Htie Hof. pose proof Hof as (_ & _ & _ & Hne & _).
  destruct (settlement_of_seen s t f op op' pb pb' hb hb' bal bal' hs hs' d all Hop Hhb Hbal Hhs Hof) as (os & os' & Hnode & Hos & -> & Hof').
  pose proof (balance_outputs_seen s t pb pb' _ _ Hpb (dust_pass_seen s t d _ _ Hnode Htie)) as Hbo.
  eexists. assert (Hk : out_key <$> os ++ balance_outputs pb (settled_node f op d hs bal)
                        ≡ₚ out_key <$> os' ++ balance_outputs pb' (settled_node f op' d hs' bal')).
  { rewrite !fmap_app. unfold settled_node. by rewrite Hbo, Hos. }
  split; [apply Hof'|exact Hk]. intros Ea. unfold settled_node in Hk. rewrite Ea in Hk. by apply Permutation_nil_r, fmap_nil_inv in Hk.
Qed.

Lemma settlement_of_assets f op pb hb bal hs d all : settlement_of f op pb hb bal hs d all -> Forall (fun o => so_asset o = None) all.
Proof using Type.
  intros (_ & _ & _ & _ & os & Ho & ->). apply Forall_app. split.
  - eapply Forall_impl; [by apply (htlc_outs_kept hb d hs)|]. by intros o (_ & _ & ?).
  - unfold balance_outputs, balance_output. destruct (amount_sat_eq _ _), (amount_sat_eq _ _); by repeat constructor.
Qed.

Lemma shown_amounts s t hs hs' : sym_shown s <$> hs ≡ₚ sym_shown t <$> hs' -> Forall (fun h => wf_msat (sh_amount h)) hs ->
  Forall (fun h => wf_msat (sh_amount h)) hs'.
Proof using Type.
  intros Hhs Hw. destruct (shown_aligned s t hs hs' Hhs) as (hs1 & Hperm & Hal). rewrite Hperm. clear -Hw Hal.
  induction Hal as [|h h' hs hs1 [= _ Ea _ _] _ IH]; [done|]. apply Forall_cons in Hw as [Hh Hw]. constructor; [by rewrite <- Ea|by apply IH].
Qed.

(** Both sides build the same settlement: two sides with the same
    funding, the same dust limit and opener, the same keys and balances, and
    the same HTLCs in any order, each seen from its own side, build the same
    outputs in the same order (amount, script and expiry), and neither fails
    where the other succeeds; unless both balances are equal and below the
    dust limit. *)
Theorem settlement_agrees asort asort' `{!Sorter asort, !Sorter asort'} s t f op op' pb pb' hb hb' bal bal' hs hs' d outs :
  wf_sat f -> (forall s, wf_msat bal.[s]) -> Forall (fun h => wf_msat (sh_amount h)) hs ->
  bool_decide (s = op) = bool_decide (t = op') -> seen s t pb pb' -> seen s t hb hb' -> seen s t bal bal' ->
  sym_shown s <$> hs ≡ₚ sym_shown t <$> hs' -> tied f op d hs bal = false ->
  sym_settlement sha256 ripemd160 asort f op pb hb bal hs d = Ret (inr outs) ->
  exists outs', sym_settlement sha256 ripemd160 asort' f op' pb' hb' bal' hs' d = Ret (inr outs')
    /\ out_key <$> outs = out_key <$> outs' /\ Forall (fun o => so_asset o = None) (outs ++ outs').
Proof using Type.
  intros Hf Hb Hw Hop Hpb Hhb Hbal Hhs Htie E. apply sym_settlement_iff in E as (all & Hof & ->); [|done..].
  destruct (settlement_of_agrees s t f op op' pb pb' hb hb' bal bal' hs hs' d all) as (all' & Hof' & Hk); [done..|].
  exists (asort' cmp_output all'). split; [|split].
  - apply sym_settlement_iff; [done|by eapply (seen_all (fun a => wf_msat a))|by eapply shown_amounts|by exists all'].
  - by apply sorted_keys_unique.
  - rewrite Forall_app, !asort_perm. split; by eapply settlement_of_assets.
Qed.

(** A tied side pays the other one the whole of it. *)
Definition balance_to (pb : sides (list Z)) (v : amount_sat_t) (s : side) : sym_output handle :=
  mk_sym_output _ SYM_OUT_BALANCE s v (scriptpubkey_p2wpkh sha256 ripemd160 pb.[s]) None None 0.
Lemma tied_outputs pb pb' node node' d : seen LOCAL REMOTE node node' ->
  dusty d (satoshis node.[LOCAL]) (satoshis node.[REMOTE]) && dusty d (satoshis node.[REMOTE]) (satoshis node.[LOCAL]) = true ->
  exists v, balance_outputs pb (dust_pass d node) = [balance_to pb v REMOTE] /\ balance_outputs pb' (dust_pass d node') = [balance_to pb' v REMOTE].
Proof using Type.
  intros [N1 N2] [T1 T2]%andb_true_iff. unfold dust_pass. cbn [other] in N2. rewrite <- N1, <- N2, T1, T2.
  exists (mk_sat (satoshis node.[LOCAL] + satoshis node.[REMOTE])). unfold balance_outputs, balance_output, amount_sat_eq, dusty in *.
  cbn [sel at_local at_remote satoshis] in *. change (0 =? 0) with true. cbn [app].
  rewrite !(proj2 (Z.eqb_neq _ _)) by lia. split; [done|]. unfold balance_to. cbn [sel at_local at_remote]. do 2 f_equal. f_equal. lia.
Qed.

(** Two sides that are tied do not build the same settlement: when both
    balances are equal, not zero and below the dust limit, each side gives its
    own to the other, so that both succeed and their lists differ. *)
Theorem tied_settlements_differ asort asort' `{!Sorter asort, !Sorter asort'} f op op' pb pb' hb hb' bal bal' hs hs' d outs :
  wf_sat f -> (forall s, wf_msat bal.[s]) -> Forall (fun h => wf_msat (sh_amount h)) hs ->
  bool_decide (LOCAL = op) = bool_decide (REMOTE = op') -> seen LOCAL REMOTE pb pb' -> seen LOCAL REMOTE hb hb' -> seen LOCAL REMOTE bal bal' ->
  sym_shown LOCAL <$> hs ≡ₚ sym_shown REMOTE <$> hs' -> tied f op d hs bal = true ->
  scriptpubkey_p2wpkh sha256 ripemd160 pb.[LOCAL] <> scriptpubkey_p2wpkh sha256 ripemd160 pb.[REMOTE] ->
  sym_settlement sha256 ripemd160 asort f op pb hb bal hs d = Ret (inr outs) ->
  exists outs', sym_settlement sha256 ripemd160 asort' f op' pb' hb' bal' hs' d = Ret (inr outs') /\ out_key <$> outs <> out_key <$> outs'.
Proof using Type.
  intros Hf Hb Hw Hop Hpb Hhb Hbal Hhs Htie Hne E. apply sym_settlement_iff in E as (all & Hof & ->); [|done..].
  destruct (settlement_of_seen LOCAL REMOTE f op op' pb pb' hb hb' bal bal' hs hs' d all Hop Hhb Hbal Hhs Hof) as (os & os' & Hnode & Hos & -> & Hof').
  destruct (tied_outputs pb pb' _ _ d Hnode Htie) as (v & Ebo & Ebo'). rewrite Ebo' in Hof'. rewrite Ebo.
  eexists. split.
  - apply sym_settlement_iff; [done|by eapply (seen_all (fun a => wf_msat a))|by eapply shown_amounts|]. eexists. split; [apply Hof'; by destruct os'|reflexivity].
  - intros Ek. apply Hne. assert (Hp : out_key <$> os ++ [balance_to pb v REMOTE] ≡ₚ out_key <$> os' ++ [balance_to pb' v REMOTE]).
    { rewrite <- (asort_perm (asort := asort) cmp_output (os ++ _)), <- (asort_perm (asort := asort') cmp_output (os' ++ _)). by rewrite Ek. }
    rewrite !fmap_app, Hos in Hp. apply Permutation_app_inv_l, Permutation_singleton_inj in Hp. destruct Hpb as [-> _].
    unfold out_key in Hp. cbn [balance_to so_spk so_amount so_cltv_expiry] in Hp. congruence.
Qed.
End Settle.
