(* ===== verification/SymState.v ===== *)
(** * A state of a symmetric channel (common/sym_state.c)

    As the daemons pass it and the database keeps it, and that it reads back
    from the wire as it was written. *)

From stdpp Require Import list.
From S2P Require Import Prelude Chainparams Amount HtlcState Wire Script Keys Tapscript ChannelState Tx SymScripts.
Local Open Scope Z_scope.

Record sym_state_out := mk_sym_state_out {
  sto_amount : amount_sat_t;
  sto_spk : list Z;
  sto_asset : option (list Z);
}.
Record sym_state := mk_sym_state {
  st_owner : side;
  st_commit_num : Z;
  st_num : Z;
  st_outs : list sym_state_out;
  has_sig : sides bool;
  st_sig : sides (list Z);
}.

Definition state_out {handle} (o : sym_output handle) : sym_state_out :=
  mk_sym_state_out (so_amount o) (so_spk o) (so_asset o).
Definition sym_state_new {handle} (owner : side) (commit_num num : Z) (outs : list (sym_output handle)) : sym_state :=
  mk_sym_state owner commit_num num (state_out <$> outs) (mk_sides false false) (mk_sides (repeat 0 64) (repeat 0 64)).

(** No output of a state has a handle. *)
Definition sym_state_outputs (st : sym_state) : list (sym_output Empty_set) :=
  (fun o => mk_sym_output _ SYM_OUT_BALANCE LOCAL (sto_amount o) (sto_spk o) (sto_asset o) None 0) <$> st_outs st.

Definition sym_state_tree_of (sha256 : list Z -> list Z) `{Taproot} (sc : sym_channel) (st : sym_state) : outcome sym_tree :=
  sym_state_tree sha256 sc (st_num st) (sym_state_outputs st) None.

(** Both signatures, the opener's first. *)
Definition sym_state_signed (st : sym_state) (opener : side) : option (list Z * list Z) :=
  if negb (has_sig st).[LOCAL] || negb (has_sig st).[REMOTE] then None
  else Some ((st_sig st).[opener], (st_sig st).[other opener]).

Fixpoint total_from (t : amount_sat_t) (outs : list sym_state_out) : outcome amount_sat_t :=
  match outs with
  | [] => Ret t
  | o :: outs => match amount_sat_add t (sto_amount o) with Some t => total_from t outs | None => Crash end
  end.
Definition sym_state_total (st : sym_state) : outcome amount_sat_t := total_from (mk_sat 0) (st_outs st).

Definition set_sym_sig (s : side) (sig : list Z) (st : sym_state) : sym_state :=
  mk_sym_state (st_owner st) (st_commit_num st) (st_num st) (st_outs st) (upd s true (has_sig st)) (upd s sig (st_sig st)).

(** ** The wire *)

Definition SYM_STATE_ASSETS := 0x80.

Definition names_asset (o : sym_state_out) : bool := match sto_asset o with Some _ => true | None => false end.
Definition towire_state_out (assets : bool) (o : sym_state_out) : list Z :=
  towire_amount_sat (sto_amount o) ++ towire_u16 (Z.of_nat (length (sto_spk o))) ++ sto_spk o
  ++ (if assets then towire_bool (names_asset o) ++ default [] (sto_asset o) else []).
Definition towire_sym_state (st : sym_state) : list Z :=
  let assets := existsb names_asset (st_outs st) in
  towire_u8 (Z.lor (match st_owner st with LOCAL => 0 | REMOTE => 1 end) (if assets then SYM_STATE_ASSETS else 0))
  ++ towire_u64 (st_commit_num st) ++ towire_u64 (wrap_u64 (st_num st))
  ++ towire_u16 (Z.of_nat (length (st_outs st))) ++ concat (towire_state_out assets <$> st_outs st)
  ++ towire_bool (has_sig st).[LOCAL] ++ (st_sig st).[LOCAL]
  ++ towire_bool (has_sig st).[REMOTE] ++ (st_sig st).[REMOTE].

Definition fromwire_state_out (assets : bool) : reader sym_state_out :=
  amount ← fromwire_amount_sat;
  len ← fromwire_u16;
  spk ← fromwire_tal_arrn (Z.to_nat len);
  names ← (if assets then fromwire_bool else mret false);
  asset ← (if (names : bool) then
             a ← fromwire_tal_arrn 33;
             (match a with
              | Some (b :: _) => if b =? 0x01 then mret a else _ ← fromwire_fail; mret a
              | _ => mret a
              end)
           else mret None);
  mret (mk_sym_state_out amount (default [] spk) asset).
Fixpoint fromwire_state_outs (assets : bool) (n : nat) : reader (list sym_state_out) :=
  match n with
  | O => mret []
  | S n => o ← fromwire_state_out assets; l ← fromwire_state_outs assets n; mret (o :: l)
  end.
(** [None] is the NULL of a message cut short. *)
Definition if_read {A} (a : A) : reader (option A) := fun c => (match ptr c with None => None | Some _ => Some a end, c).
Definition fromwire_sym_state : reader (option sym_state) :=
  owner ← fromwire_u8;
  let assets := negb (Z.land owner SYM_STATE_ASSETS =? 0) in
  let owner := Z.land owner (Z.lxor 255 SYM_STATE_ASSETS) in
  _ ← (if negb (owner =? 0) && negb (owner =? 1) then fromwire_fail else mret tt);
  commit_num ← fromwire_u64;
  num ← fromwire_u64;
  n ← fromwire_u16;
  outs ← fromwire_state_outs assets (Z.to_nat n);
  has_local ← fromwire_bool;
  sig_local ← fromwire_copy 64;
  has_remote ← fromwire_bool;
  sig_remote ← fromwire_copy 64;
  if_read (mk_sym_state (if owner =? 0 then LOCAL else REMOTE) commit_num (wrap_s64 num) outs
             (mk_sides has_local has_remote) (mk_sides sig_local sig_remote)).

(** ** Reading back *)

Definition wf_state_out (o : sym_state_out) : Prop :=
  wf_sat (sto_amount o) /\ Z.of_nat (length (sto_spk o)) <= UINT16_MAX
  /\ match sto_asset o with Some a => length a = 33%nat /\ byte a 0 = 0x01 | None => True end.
Definition wf_sym_state (st : sym_state) : Prop :=
  in_u64 (st_commit_num st) /\ in_s64 (st_num st) /\ Z.of_nat (length (st_outs st)) <= UINT16_MAX
  /\ Forall wf_state_out (st_outs st) /\ (forall s, length (st_sig st).[s] = 64%nat).

Lemma reads_tal_arrn l : reads (fromwire_tal_arrn (length l)) (if decide (l = []) then None else Some l) l.
Proof.
  intros rest k Hk. unfold fromwire_tal_arrn. destruct l as [|b l]; [done|]. cbn [length Nat.eqb max]. rewrite decide_False by done.
  replace (_ <? _)%nat with false by (symmetry; apply Nat.ltb_ge; lia).
  pose proof (reads_copy (length (b :: l)) (b :: l) eq_refl rest k Hk) as E. unfold fromwire_u8_array. cbn [length] in *. by rewrite E.
Qed.

Lemma reads_then {A B} (r : reader A) (f : A -> reader B) v w l : reads r v l -> reads (f v) w [] -> reads (r ≫= f) w l.
Proof. intros Hr Hf. rewrite <- (app_nil_r l). by eapply reads_bind. Qed.
Lemma reads_if_read {A} (a : A) : reads (if_read a) (Some a) [].
Proof. by intros rest k Hk. Qed.

Lemma reads_state_out assets o : wf_state_out o -> (assets = false -> sto_asset o = None) ->
  reads (fromwire_state_out assets) o (towire_state_out assets o).
Proof.
  intros (Ha & Hs & Hk) Hn. destruct o as [amount spk asset]. cbn in Ha, Hs, Hk, Hn. unfold fromwire_state_out, towire_state_out. cbn [sto_amount sto_spk sto_asset].
  eapply reads_bind; [by apply reads_amount_sat|]. eapply reads_bind; [apply reads_u16; lia|]. rewrite Nat2Z.id.
  eapply reads_bind; [apply reads_tal_arrn|].
  assert (Hspk : default [] (if decide (spk = []) then None else Some spk) = spk) by (by case_decide).
  destruct assets.
  - eapply reads_bind; [apply reads_bool|]. unfold names_asset. cbn [sto_asset]. rewrite <- (app_nil_r (default [] asset)).
    destruct asset as [a|]; cbn [default].
    + destruct Hk as [Hl H1]. destruct a as [|b a]; [done|]. cbn in H1. subst b.
      pose proof (reads_tal_arrn (1 :: a)) as E. rewrite Hl, decide_False in E by done.
      eapply reads_bind; [eapply reads_then; [exact E|apply reads_ret]|]. rewrite Hspk. apply reads_ret.
    + eapply reads_bind; [apply reads_ret|]. rewrite Hspk. apply reads_ret.
  - rewrite (Hn eq_refl). rewrite <- (app_nil_l []). eapply reads_bind; [apply reads_ret|]. rewrite <- (app_nil_l []).
    eapply reads_bind; [apply reads_ret|]. rewrite Hspk. apply reads_ret.
Qed.

Lemma reads_state_outs assets outs : Forall wf_state_out outs -> Forall (fun o => assets = false -> sto_asset o = None) outs ->
  reads (fromwire_state_outs assets (length outs)) outs (concat (towire_state_out assets <$> outs)).
Proof.
  induction 1 as [|o outs Ho _ IH]; intros Hn; [apply reads_ret|]. apply Forall_cons in Hn as [Hn1 Hn].
  cbn [length fromwire_state_outs fmap list_fmap concat]. eapply reads_bind; [by apply reads_state_out|].
  rewrite <- (app_nil_r (concat _)). eapply reads_bind; [by apply IH|]. apply reads_ret.
Qed.

(** C37. A state reads back from the wire as it was written: owner, numbers,
    outputs with the assets they name, and both signatures, and the reader
    stops where the state ends. *)
Theorem sym_state_round_trip st : wf_sym_state st -> reads fromwire_sym_state (Some st) (towire_sym_state st).
Proof.
  intros (Hc & Hn & Hl & Ho & Hs). destruct st as [owner commit num outs has sig]. cbn in Hc, Hn, Hl, Ho, Hs.
  unfold fromwire_sym_state, towire_sym_state. cbn [st_owner st_commit_num st_num st_outs has_sig st_sig].
  set (assets := existsb names_asset outs).
  assert (Hna : Forall (fun o => assets = false -> sto_asset o = None) outs).
  { apply Forall_forall. intros o Hin E. destruct (sto_asset o) eqn:Ea; [|done]. exfalso. apply not_true_iff_false in E. apply E.
    apply existsb_exists. exists o. split; [by apply list_elem_of_In|]. unfold names_asset. by rewrite Ea. }
  clearbody assets.
  eapply reads_bind; [apply reads_u8; by destruct owner, assets|].
  assert (Hass : negb (Z.land (Z.lor (match owner with LOCAL => 0 | REMOTE => 1 end) (if assets then SYM_STATE_ASSETS else 0)) SYM_STATE_ASSETS =? 0) = assets)
    by (by destruct owner, assets).
  assert (Hown : Z.land (Z.lor (match owner with LOCAL => 0 | REMOTE => 1 end) (if assets then SYM_STATE_ASSETS else 0)) (Z.lxor 255 SYM_STATE_ASSETS)
                 = match owner with LOCAL => 0 | REMOTE => 1 end) by (by destruct owner, assets).
  rewrite Hass, Hown. rewrite <- (app_nil_l (towire_u64 commit ++ _)). eapply reads_bind; [by destruct owner; apply reads_ret|].
  eapply reads_bind; [by apply reads_u64|]. eapply reads_bind; [apply reads_u64, wrap_u64_range|].
  eapply reads_bind; [apply reads_u16; lia|]. rewrite Nat2Z.id. eapply reads_bind; [by apply reads_state_outs|].
  eapply reads_bind; [apply reads_bool|]. eapply reads_bind; [apply reads_copy, (Hs LOCAL)|].
  eapply reads_bind; [apply reads_bool|]. rewrite <- (app_nil_r sig.[REMOTE]). eapply reads_bind; [apply reads_copy, (Hs REMOTE)|].
  replace (wrap_s64 (wrap_u64 num)) with num by (unfold wrap_s64, wrap_u64; Z.to_euclidean_division_equations; lia).
  destruct owner, has, sig; apply reads_if_read.
Qed.
