(* ===== verification/SymSpend.v ===== *)
(** * How the outputs of a symmetric channel are spent

    UPD and SETTLE (common/sym_scripts.c) run by the interpreter of
    [TapMachine]: exactly which spends they accept; then the trees, messages
    and witnesses against them: which states an update replaces, what its
    signatures bind, and what a settlement's digest binds. *)

From stdpp Require Import list.
From S2P Require Import Prelude Chainparams Amount HtlcState Wire Script Keys Tapscript ChannelState Tx SymScripts TapMachine SymState.
Local Open Scope Z_scope.

Section Leaves.
#[local] Set Default Proof Using "Type*".
Context (sha256 : list Z -> list Z) `{!Taproot, !Machine, !MachineLaws sha256}.

(** ** Steps *)

Lemma exec_push_num ctx z rest st : 0 <= z < 2 ^ 32 -> exec ctx (push_num z ++ rest) st = exec ctx rest (scriptnum z :: st).
Proof.
  intros Hz. unfold push_num. destruct (Z.eqb_spec z 0) as [->|Hne]; [exact (exec_0 sha256 ctx rest st)|]. destruct (Z.leb_spec z 16) as [Hs|].
  - cbn [app]. rewrite (exec_small sha256) by lia. by rewrite scriptnum_small by lia.
  - fold (scriptnum z). destruct (scriptnum_bytes z ltac:(lia)) as (n & Hn & E & _). rewrite (exec_push sha256); [done|].
    rewrite E, le_bytes_length. lia.
Qed.

(** Inspecting the input or output at the index of the input being spent. *)
Lemma inspect_at ctx op from items n rest st : inspects ctx op from items -> Z.of_nat n < 2 ^ 32 ->
  exec ctx (op :: rest) (scriptnum (Z.of_nat n) :: st)
  = match from !! n with Some t => exec ctx rest (items t ++ st) | None => None end.
Proof using Type.
  intros Hi Hn. rewrite (Hi _ _ _), scriptnum_reads by lia. rewrite (proj2 (Z.ltb_ge _ _)) by lia. by rewrite Nat2Z.id.
Qed.

(** The opcodes that cannot fail on what is on the stack here. *)
Ltac mstep :=
  first [ rewrite (exec_over sha256) | rewrite (exec_rot sha256) | rewrite (exec_swap sha256) | rewrite (exec_tuck sha256)
        | rewrite (exec_drop sha256) | rewrite (exec_sha256 sha256) | rewrite (exec_index sha256) ].

(** ** UPD *)

(** The witness of an update, as the leaf finds it. *)
Definition upd_stack (n rest sig_opener sig_accepter : list Z) : list (list Z) := [rest; n; sig_opener; sig_accepter].

(** The program of a v1 output. *)
Definition pays_v1 (o : txo) (prog : list Z) : Prop := witness_of (txo_script o) = Some (1, prog).

(** What UPD(k) asks of the transaction that spends an output by it. *)
Record update_of (sc : sym_channel) (k : Z) (ctx : spend) (n rest sig_opener sig_accepter : list Z) : Prop := {
  up_locktime : has_clock sc = true -> locktime_reached ctx SYM_CLOCK_LOCKTIME_FLOOR = true;
  up_number : length n = 8%nat /\ k < le64_signed n;
  up_output : exists i o prog, sp_inputs ctx !! sp_index ctx = Some i /\ sp_outputs ctx !! sp_index ctx = Some o
    /\ pays_v1 o prog /\ txo_value o = txo_value i /\ txo_asset o = txo_asset i
    /\ (length (sym_tag sc ++ n ++ prog ++ rest) <= MAX_SCRIPT_ELEMENT_SIZE)%nat
    /\ let msg := sha256 (sym_tag sc ++ n ++ prog ++ rest) in
       schnorr_verify sig_opener msg (pubkey_to_xonly (upd_key_opener sc)) = true
       /\ schnorr_verify sig_accepter msg (pubkey_to_xonly (upd_key_accepter sc)) = true;
}.

(** The constants are of their sizes. *)
Record wf_sym_channel (sc : sym_channel) : Prop := {
  wf_tag : length (sym_tag sc) = 32%nat;
  wf_opener : length (upd_key_opener sc) = PUBKEY_CMPR_LEN;
  wf_accepter : length (upd_key_accepter sc) = PUBKEY_CMPR_LEN;
  wf_asset : length (sym_asset sc) = 33%nat;
  wf_delay : in_u16 (sym_delay sc);
}.

(** The program of the output at [i], of version [v]. *)
Lemma exec_program_at ctx v i rest st : 0 <= v <= 16 -> Z.of_nat i < 2 ^ 32 ->
  exec ctx (SYM_OP_INSPECTOUTPUTSCRIPTPUBKEY :: (if v =? 0 then OP_0 else OP_1 + v - 1) :: OP_EQUALVERIFY :: rest)
    (scriptnum (Z.of_nat i) :: st)
  = match sp_outputs ctx !! i with
    | Some o => match witness_of (txo_script o) with
                | Some (w, prog) => if w =? v then exec ctx rest (prog :: st) else None
                | None => None end
    | None => None
    end.
Proof using MachineLaws0.
  intros Hv Hi. rewrite (inspect_at _ _ _ _ _ _ _ (exec_output_script sha256 ctx) Hi). destruct (sp_outputs ctx !! i) as [o|]; [|done].
  assert (Ev : forall st, exec ctx ((if v =? 0 then OP_0 else OP_1 + v - 1) :: OP_EQUALVERIFY :: rest) st
    = exec ctx (OP_EQUALVERIFY :: rest) (scriptnum v :: st)).
  { intros st'. destruct (Z.eqb_spec v 0) as [->|]; [by rewrite (exec_0 sha256)|]. rewrite (exec_small sha256) by lia. by rewrite scriptnum_small by lia. }
  unfold script_items. destruct (witness_of (txo_script o)) as [[w prog]|] eqn:Ew; cbn [app]; rewrite Ev, (exec_equalverify sha256).
  - assert (Hw : 0 <= w <= 16).
    { unfold witness_of in Ew. destruct (_ && _) eqn:E in Ew; [|done]. injection Ew as <- _. unfold OP_0, OP_1, OP_16 in *. case_if; lia. }
    destruct (Z.eqb_spec w v) as [->|Hne]; [by rewrite bool_decide_true|]. rewrite bool_decide_false; [done|]. intros E.
    apply Hne. rewrite <- (scriptnum_reads w), <- (scriptnum_reads v), E by lia. done.
  - rewrite bool_decide_false; [done|]. intros E. destruct (Z.eq_dec v 0) as [->|]; [done|]. rewrite scriptnum_small in E by lia. injection E as E. lia.
Qed.

Lemma exec_verify_bool ctx b rest st : exec ctx (OP_VERIFY :: rest) (script_bool b :: st) = if b then exec ctx rest st else None.
Proof using MachineLaws0. rewrite (exec_verify sha256). by destruct b. Qed.

Lemma exec_v1_at ctx i rest st : Z.of_nat i < 2 ^ 32 ->
  exec ctx (SYM_OP_INSPECTOUTPUTSCRIPTPUBKEY :: OP_1 :: OP_EQUALVERIFY :: rest) (scriptnum (Z.of_nat i) :: st)
  = match sp_outputs ctx !! i with
    | Some o => match witness_of (txo_script o) with
                | Some (w, prog) => if w =? 1 then exec ctx rest (prog :: st) else None
                | None => None end
    | None => None
    end.
Proof using MachineLaws0. intros Hi. exact (exec_program_at ctx 1 i rest st ltac:(lia) Hi). Qed.

Lemma exec_v0_at ctx i rest st : Z.of_nat i < 2 ^ 32 ->
  exec ctx (SYM_OP_INSPECTOUTPUTSCRIPTPUBKEY :: OP_0 :: OP_EQUALVERIFY :: rest) (scriptnum (Z.of_nat i) :: st)
  = match sp_outputs ctx !! i with
    | Some o => match witness_of (txo_script o) with
                | Some (w, prog) => if w =? 0 then exec ctx rest (prog :: st) else None
                | None => None end
    | None => None
    end.
Proof using MachineLaws0. intros Hi. exact (exec_program_at ctx 0 i rest st ltac:(lia) Hi). Qed.

Context (ctx : spend) (Hidx : Z.of_nat (sp_index ctx) < 2 ^ 32).

Lemma exec_locktime_floor sc rest st :
  exec ctx ((if has_clock sc then push_num SYM_CLOCK_LOCKTIME_FLOOR ++ [OP_CHECKLOCKTIMEVERIFY; OP_DROP] else []) ++ rest) st
  = if negb (has_clock sc) || locktime_reached ctx SYM_CLOCK_LOCKTIME_FLOOR then exec ctx rest st else None.
Proof using MachineLaws0.
  destruct (has_clock sc); [|done]. rewrite <- app_assoc, exec_push_num by (unfold SYM_CLOCK_LOCKTIME_FLOOR; lia). cbn [app negb orb].
  rewrite (exec_checklocktimeverify sha256), scriptnum_reads by (unfold SYM_CLOCK_LOCKTIME_FLOOR; lia). destruct (locktime_reached _ _); [|done]. by mstep.
Qed.

Lemma exec_number k rest st r n : in_s64 k ->
  exec ctx (OP_OVER :: script_push_bytes (le8s k) ++ SYM_OP_GREATERTHAN64 :: OP_VERIFY :: rest) (r :: n :: st)
  = if (length n =? 8)%nat && (k <? le64_signed n) then exec ctx rest (r :: n :: st) else None.
Proof using MachineLaws0.
  intros Hk. cbn [app]. mstep. rewrite (exec_push sha256) by (unfold le8s; rewrite le_bytes_length; lia).
  rewrite (exec_greaterthan64 sha256). unfold le8s at 1. rewrite le_bytes_length, andb_true_r. destruct (_ =? 8)%nat; [|done]. cbn [andb].
  rewrite (exec_verify sha256), le64_signed_le8s by done. by destruct (k <? _).
Qed.

Lemma exec_v1_program rest st :
  exec ctx (SYM_OP_PUSHCURRENTINPUTINDEX :: SYM_OP_INSPECTOUTPUTSCRIPTPUBKEY :: OP_1 :: OP_EQUALVERIFY :: rest) st
  = match sp_outputs ctx !! sp_index ctx with
    | Some o => match witness_of (txo_script o) with
                | Some (v, prog) => if v =? 1 then exec ctx rest (prog :: st) else None
                | None => None end
    | None => None
    end.
Proof using MachineLaws0 Hidx. mstep. by apply exec_v1_at. Qed.

Lemma exec_message tag rest st p r n : length tag = 32%nat ->
  exec ctx (OP_ROT :: OP_SWAP :: SYM_OP_CAT :: OP_SWAP :: SYM_OP_CAT :: script_push_bytes tag ++ OP_SWAP :: SYM_OP_CAT :: OP_SHA256 :: rest)
    (p :: r :: n :: st)
  = if (length (tag ++ n ++ p ++ r) <=? MAX_SCRIPT_ELEMENT_SIZE)%nat then exec ctx rest (sha256 (tag ++ n ++ p ++ r) :: st) else None.
Proof using MachineLaws0.
  intros Ht. cbn [app]. do 2 mstep. rewrite (exec_cat sha256).
  destruct (_ <=? MAX_SCRIPT_ELEMENT_SIZE)%nat eqn:E1; [mstep; rewrite (exec_cat sha256)|].
  - destruct (length ((n ++ p) ++ r) <=? _)%nat eqn:E2.
    + rewrite (exec_push sha256) by lia. mstep. rewrite (exec_cat sha256). rewrite <- !app_assoc. destruct (_ <=? _)%nat; [by mstep|done].
    + rewrite !length_app in *. rewrite (proj2 (Nat.leb_gt _ _)); [done|]. apply Nat.leb_gt in E2. lia.
  - rewrite !length_app in *. rewrite (proj2 (Nat.leb_gt _ _)); [done|]. apply Nat.leb_gt in E1. lia.
Qed.

Lemma exec_sig_of key rest st sig msg : length key = PUBKEY_CMPR_LEN ->
  exec ctx (push_xonly key ++ SYM_OP_CHECKSIGFROMSTACKVERIFY :: rest) (msg :: sig :: st)
  = if schnorr_verify sig msg (pubkey_to_xonly key) then exec ctx rest st else None.
Proof using MachineLaws0.
  intros Hk. assert (Hx : length (pubkey_to_xonly key) = 32%nat) by (unfold pubkey_to_xonly; rewrite length_drop, Hk; done).
  unfold push_xonly. rewrite (exec_push sha256) by lia. by rewrite (exec_checksigfromstackverify sha256).
Qed.

(** What a script sees of the output at the index of the input, against the
    input's: [two] gives the two items. *)
Definition stays (two : txo -> list Z * list Z) : bool :=
  match sp_inputs ctx !! sp_index ctx, sp_outputs ctx !! sp_index ctx with
  | Some i, Some o => bool_decide (two o = two i)
  | _, _ => false
  end.
Definition pushes (op : Z) (from : list txo) (two : txo -> list Z * list Z) : Prop :=
  inspects ctx op from (fun t => [fst (two t); snd (two t)]).
Lemma exec_two two op iop rest st : pushes op (sp_outputs ctx) two -> pushes iop (sp_inputs ctx) two ->
  exec ctx (SYM_OP_PUSHCURRENTINPUTINDEX :: op :: SYM_OP_PUSHCURRENTINPUTINDEX :: iop :: OP_ROT :: OP_EQUALVERIFY :: rest) st
  = match sp_inputs ctx !! sp_index ctx, sp_outputs ctx !! sp_index ctx with
    | Some i, Some o => if bool_decide (fst (two i) = fst (two o)) then exec ctx rest (snd (two i) :: snd (two o) :: st) else None
    | _, _ => None
    end.
Proof using MachineLaws0 Hidx.
  intros Ho Hi. mstep. rewrite (inspect_at _ _ _ _ _ _ _ Ho Hidx). destruct (sp_outputs ctx !! _) as [o|]; [|by destruct (sp_inputs ctx !! _)].
  mstep. rewrite (inspect_at _ _ _ _ _ _ _ Hi Hidx). destruct (sp_inputs ctx !! _) as [i|]; [|done]. cbn [app].
  mstep. by rewrite (exec_equalverify sha256).
Qed.
Lemma two_eq (x y : list Z * list Z) : bool_decide (x = y) = bool_decide (fst y = fst x) && bool_decide (snd x = snd y).
Proof using Type.
  destruct x as [a l], y as [b m]. cbn [fst snd]. do 3 case_bool_decide; naive_solver.
Qed.
Lemma exec_stays two op iop rest st : pushes op (sp_outputs ctx) two -> pushes iop (sp_inputs ctx) two ->
  exec ctx (marker_stays op iop ++ rest) st = if stays two then exec ctx rest st else None.
Proof using MachineLaws0 Hidx.
  intros Ho Hi. cbn [marker_stays app]. rewrite (exec_two two) by done. unfold stays. destruct (sp_inputs ctx !! _) as [i|]; [|done].
  destruct (sp_outputs ctx !! _) as [o|]; [|done]. rewrite two_eq. destruct (bool_decide (fst _ = _)); [|done]. cbn [andb].
  by rewrite (exec_equalverify sha256).
Qed.

Lemma unlocks_guard b s s' st st' :
  exec ctx s st = (if b : bool then exec ctx s' st' else None) -> unlocks ctx s st <-> b = true /\ unlocks ctx s' st'.
Proof using Type. unfold unlocks. intros ->. destruct b; naive_solver. Qed.

(** A leaf that ends in OP_EQUAL. *)
Lemma equal_unlocks a b : (exists x, exec ctx [OP_EQUAL] [b; a] = Some [x] /\ truthy x = true) <-> a = b.
Proof using MachineLaws0.
  rewrite (exec_equal sha256), (exec_nil sha256). case_bool_decide; cbn [script_bool]; naive_solver.
Qed.
Lemma unlocks_stays two op iop : pushes op (sp_outputs ctx) two -> pushes iop (sp_inputs ctx) two ->
  unlocks ctx [SYM_OP_PUSHCURRENTINPUTINDEX; op; SYM_OP_PUSHCURRENTINPUTINDEX; iop; OP_ROT; OP_EQUALVERIFY; OP_EQUAL] []
  <-> stays two = true.
Proof using MachineLaws0 Hidx.
  intros Ho Hi. unfold unlocks. rewrite (exec_two two) by done. unfold stays. destruct (sp_inputs ctx !! _) as [i|]; [|naive_solver].
  destruct (sp_outputs ctx !! _) as [o|]; [|naive_solver]. rewrite two_eq. destruct (bool_decide (fst _ = _)); [|naive_solver]. cbn [andb].
  rewrite equal_unlocks. by rewrite bool_decide_eq_true.
Qed.

Definition asset_two (t : txo) : list Z * list Z := ([fst (txo_asset t)], snd (txo_asset t)).
Definition value_two (t : txo) : list Z * list Z := ([fst (txo_value t)], snd (txo_value t)).
Lemma field_two (x y : Z * list Z) : ([fst x], snd x) = ([fst y], snd y) <-> x = y.
Proof using Type. destruct x, y. naive_solver. Qed.

Lemma unlocks_v1_program rest st :
  unlocks ctx (SYM_OP_PUSHCURRENTINPUTINDEX :: SYM_OP_INSPECTOUTPUTSCRIPTPUBKEY :: OP_1 :: OP_EQUALVERIFY :: rest) st
  <-> exists o prog, sp_outputs ctx !! sp_index ctx = Some o /\ pays_v1 o prog /\ unlocks ctx rest (prog :: st).
Proof using MachineLaws0 Hidx.
  unfold unlocks, pays_v1. rewrite exec_v1_program. destruct (sp_outputs ctx !! _) as [o|]; [|naive_solver].
  destruct (witness_of _) as [[v prog]|] eqn:E; [|naive_solver]. destruct (Z.eqb_spec v 1); naive_solver.
Qed.

(** From the output's program on. *)
Lemma unlocks_signed sc prog n rest so sa : wf_sym_channel sc ->
  unlocks ctx (OP_ROT :: OP_SWAP :: SYM_OP_CAT :: OP_SWAP :: SYM_OP_CAT :: script_push_bytes (sym_tag sc)
    ++ OP_SWAP :: SYM_OP_CAT :: OP_SHA256 :: OP_TUCK :: push_xonly (upd_key_opener sc) ++ SYM_OP_CHECKSIGFROMSTACKVERIFY
    :: push_xonly (upd_key_accepter sc) ++ SYM_OP_CHECKSIGFROMSTACKVERIFY
    :: marker_stays SYM_OP_INSPECTOUTPUTVALUE SYM_OP_INSPECTINPUTVALUE
    ++ [SYM_OP_PUSHCURRENTINPUTINDEX; SYM_OP_INSPECTOUTPUTASSET; SYM_OP_PUSHCURRENTINPUTINDEX; SYM_OP_INSPECTINPUTASSET;
        OP_ROT; OP_EQUALVERIFY; OP_EQUAL]) (prog :: upd_stack n rest so sa)
  <-> (length (sym_tag sc ++ n ++ prog ++ rest) <= MAX_SCRIPT_ELEMENT_SIZE)%nat
      /\ schnorr_verify so (sha256 (sym_tag sc ++ n ++ prog ++ rest)) (pubkey_to_xonly (upd_key_opener sc)) = true
      /\ schnorr_verify sa (sha256 (sym_tag sc ++ n ++ prog ++ rest)) (pubkey_to_xonly (upd_key_accepter sc)) = true
      /\ stays value_two = true /\ stays asset_two = true.
Proof using MachineLaws0 Hidx.
  intros Hwf. unfold upd_stack. rewrite (unlocks_guard _ _ _ _ _ (exec_message _ _ _ _ _ _ (wf_tag sc Hwf))), Nat.leb_le.
  set (m := sha256 _). assert (E : forall s, unlocks ctx (OP_TUCK :: s) [m; so; sa] <-> unlocks ctx s [m; so; m; sa]).
  { intros s. unfold unlocks. by mstep. }
  rewrite E, (unlocks_guard _ _ _ _ _ (exec_sig_of _ _ _ _ _ (wf_opener sc Hwf))), (unlocks_guard _ _ _ _ _ (exec_sig_of _ _ _ _ _ (wf_accepter sc Hwf))).
  rewrite (unlocks_guard _ _ _ _ _ (exec_stays value_two _ _ _ _ (exec_output_value sha256 ctx) (exec_input_value sha256 ctx))).
  by rewrite (unlocks_stays asset_two _ _ (exec_output_asset sha256 ctx) (exec_input_asset sha256 ctx)).
Qed.

Lemma stays_iff two : stays two = true <->
  exists i o, sp_inputs ctx !! sp_index ctx = Some i /\ sp_outputs ctx !! sp_index ctx = Some o /\ two o = two i.
Proof using Type.
  unfold stays. destruct (sp_inputs ctx !! _); [|naive_solver]. destruct (sp_outputs ctx !! _); [|naive_solver].
  rewrite bool_decide_eq_true. naive_solver.
Qed.

(** The UPD leaf of state [k] lets an output go exactly to the transactions
    the header describes: a number above [k], a v1 output of the same value and
    asset at the index of the input, and a signature of each side over the tag,
    the number, the output's program and the rest. *)
Theorem upd_leaf_spends sc k n rest so sa : wf_sym_channel sc -> in_s64 k ->
  unlocks ctx (sym_leaf_upd sc k) (upd_stack n rest so sa) <-> update_of sc k ctx n rest so sa.
Proof using MachineLaws0 Hidx.
  intros Hwf Hk. unfold sym_leaf_upd. cbn [app]. rewrite (unlocks_guard _ _ _ _ _ (exec_locktime_floor _ _ _)).
  unfold upd_stack at 1. rewrite (unlocks_guard _ _ _ _ _ (exec_number k _ _ _ _ Hk)), unlocks_v1_program, andb_true_iff, Nat.eqb_eq, Z.ltb_lt.
  split.
  - intros (Hl & Hn & o & prog & Ho & Hp & Hu). apply (unlocks_signed _ _ _ _ _ _ Hwf) in Hu. destruct Hu as (Hlen & Hso & Hsa & Hv & Ha).
    apply stays_iff in Hv as (i & o' & Hi & Ho' & Hv), Ha as (i' & o'' & Hi' & Ho'' & Ha).
    assert (o' = o) as -> by congruence. assert (o'' = o) as -> by congruence. assert (i' = i) as -> by congruence.
    split; [by intros E; rewrite E in Hl|done|]. exists i, o, prog. apply field_two in Hv, Ha. done.
  - intros [Hl Hn (i & o & prog & Hi & Ho & Hp & Hv & Ha & Hlen & Hso & Hsa)]. split; [|split; [done|]].
    { destruct (has_clock sc); [by rewrite Hl|done]. }
    exists o, prog. split; [done|]. split; [done|]. apply (unlocks_signed _ _ _ _ _ _ Hwf). unfold value_two, asset_two.
    repeat split; try done; apply stays_iff; exists i, o; rewrite ?Hv, ?Ha; done.
Qed.
End Leaves.

(** ** How the outputs of a symmetric channel are spent

    The trees, messages and witnesses of common/sym_scripts.c against the
    leaves: which states an update replaces, what its signatures bind, and
    what a settlement's digest binds. *)

(** What the interpreter starts from: the items before the leaf and its control
    block, the last on top. *)
Definition stack_of (wit : list (list Z)) : list (list Z) := rev (take (length wit - 2) wit).

(** The output at the index of the input takes its value and asset to [spk]. *)
Definition moves_to (ctx : spend) (spk : list Z) : Prop :=
  exists i o, sp_inputs ctx !! sp_index ctx = Some i /\ sp_outputs ctx !! sp_index ctx = Some o
    /\ txo_script o = spk /\ txo_value o = txo_value i /\ txo_asset o = txo_asset i.

(** A witness program of version 1 or above. *)
Definition program_spk (v : Z) (prog : list Z) : list Z := (OP_1 + v - 1) :: Z.of_nat (length prog) :: prog.
Definition v0_spk (prog : list Z) : list Z := OP_0 :: Z.of_nat (length prog) :: prog.
Ltac if_true :=
  match goal with |- context [if ?b then _ else _] => assert (b = true) as ->;
    [rewrite !andb_true_iff, ?orb_true_iff, ?andb_true_iff, !Nat.leb_le, ?Z.leb_le, ?Z.eqb_eq; lia|] end.
Lemma witness_of_program v prog : 1 <= v <= 16 -> (2 <= length prog <= 40)%nat -> witness_of (program_spk v prog) = Some (v, prog).
Proof.
  intros Hv Hl. unfold witness_of, program_spk, byte, OP_0, OP_1, OP_16. cbn [length nth].
  replace (_ =? 0x00) with false by lia. if_true. cbn [drop]; rewrite drop_0. do 2 f_equal. lia.
Qed.
Lemma witness_of_v0 prog : (2 <= length prog <= 40)%nat -> witness_of (v0_spk prog) = Some (0, prog).
Proof.
  intros Hl. unfold witness_of, v0_spk, byte, OP_0, OP_1, OP_16. cbn [length nth].
  change (0 =? 0) with true. by if_true.
Qed.

Section Updates.
Context (sha256 : list Z -> list Z) `{!Digest sha256 32} `{!Taproot, !TweakLaws _} `{!Machine, !MachineLaws sha256}.

(** The sizes of a state's tree. *)
Lemma state_tree_sizes {handle} sc n (outs : list (sym_output handle)) sim tree : sym_state_tree sha256 sc n outs sim = Ret tree ->
  st_n tree = n /\ st_upd tree = sym_leaf_upd sc n /\ length (sym_tree_program tree) = 32%nat /\ length (st_rest tree) = 32%nat.
Proof using Digest0 TweakLaws0.
  unfold sym_state_tree. intros E. apply bind_Ret_inv in E as (settle & _ & E). apply bind_Ret_inv in E as (der & Ed & E).
  injection E as <-. unfold tweak_nums in Ed. destruct (bip341_tweak _ _) as [d|] eqn:Et; [|done]. injection Ed as ->.
  apply tweak_length in Et. unfold sym_tree_program. cbn [st_n st_upd st_output_der st_rest]. rewrite length_drop, Et.
  split; [done|]. split; [done|]. split; [done|]. destruct sim; cbn [fmap option_fmap option_map]; [by apply tap_branch_length|by apply tap_leaf_length].
Qed.

Context (ctx : spend) (Hidx : Z.of_nat (sp_index ctx) < 2 ^ 32) (sc : sym_channel) (Hsc : wf_sym_channel sc).

(** Signatures of both sides over the message of a state. *)
Definition both_signed (m sig_opener sig_accepter : list Z) : Prop :=
  schnorr_verify sig_opener m (pubkey_to_xonly (upd_key_opener sc)) = true
  /\ schnorr_verify sig_accepter m (pubkey_to_xonly (upd_key_accepter sc)) = true.

(** Any way to cut the program and the rest that were signed in two. *)
Lemma update_cut k n m prog rest prog' rest' so sa : in_s64 k -> in_s64 n ->
  m = sha256 (sym_tag sc ++ le8s n ++ prog ++ rest) -> length prog = 32%nat -> length rest = 32%nat ->
  prog' ++ rest' = prog ++ rest -> (2 <= length prog' <= 40)%nat ->
  both_signed m so sa -> (has_clock sc = true -> locktime_reached ctx SYM_CLOCK_LOCKTIME_FLOOR = true) ->
  moves_to ctx (program_spk 1 prog') ->
  unlocks ctx (sym_leaf_upd sc k) (upd_stack (le8s n) rest' so sa) <-> k < n.
Proof using MachineLaws0 Hidx Hsc.
  intros Hk Hn -> Hp Hr Hcut Hl' [Ho Ha] Hc (i & o & Hi & Hout & Hspk & Hv & Has). rewrite (upd_leaf_spends sha256 ctx Hidx) by done.
  assert (Hpays : pays_v1 o prog') by (unfold pays_v1; rewrite Hspk; apply witness_of_program; lia). split.
  - intros [_ [_ Hlt] _]. by rewrite le64_signed_le8s in Hlt.
  - intros Hlt. split; [done|split; [apply le_bytes_length|by rewrite le64_signed_le8s]|]. exists i, o, prog'. rewrite Hcut.
    assert (Hlen : length (sym_tag sc ++ le8s n ++ prog ++ rest) = 104%nat).
    { unfold le8s. rewrite !length_app, le_bytes_length, Hp, Hr, (wf_tag sc Hsc). done. }
    rewrite Hlen. unfold MAX_SCRIPT_ELEMENT_SIZE. repeat split; try done. lia.
Qed.

(** C12. An update replaces every older state and no newer one: with both
    sides' signatures over a state's message, [sym_update_witness] spends the
    output of any state [k], KO's included ([k] = -1), into the state's own
    output exactly when [k] is below the state's number. *)
Theorem update_replaces_older {handle} n (outs : list (sym_output handle)) sim tree m so sa k prev_leaf prev_cb :
  in_s64 k -> in_s64 n -> sym_state_tree sha256 sc n outs sim = Ret tree -> sym_upd_msg sha256 sc tree = Ret m ->
  both_signed m so sa -> (has_clock sc = true -> locktime_reached ctx SYM_CLOCK_LOCKTIME_FLOOR = true) ->
  moves_to ctx (sym_tree_spk tree) ->
  unlocks ctx (sym_leaf_upd sc k) (stack_of (sym_update_witness so sa tree prev_leaf prev_cb)) <-> k < n.
Proof using All.
  intros Hk Hn Et Em Hs Hc Hmove. destruct (state_tree_sizes _ _ _ _ _ Et) as (<- & _ & Hp & Hr).
  unfold sym_upd_msg, assert_then in Em. destruct (0 <=? st_n tree); [|done]. injection Em as <-.
  apply (update_cut k (st_n tree) _ _ _ (sym_tree_program tree) (st_rest tree) so sa Hk Hn eq_refl Hp Hr eq_refl ltac:(lia) Hs Hc).
  unfold program_spk. by rewrite Hp.
Qed.

(** C29. The signatures of an update do not bind the state's output: UPD asks
    for a v1 program and concatenates it with the rest, so the same signatures
    let the channel's value go to any v1 program that is a prefix of the two
    together, whatever its length. *)
Theorem update_redirected {handle} n (outs : list (sym_output handle)) sim tree m so sa k prog rest :
  in_s64 k -> in_s64 n -> sym_state_tree sha256 sc n outs sim = Ret tree -> sym_upd_msg sha256 sc tree = Ret m ->
  both_signed m so sa -> (has_clock sc = true -> locktime_reached ctx SYM_CLOCK_LOCKTIME_FLOOR = true) ->
  prog ++ rest = sym_tree_program tree ++ st_rest tree -> (2 <= length prog <= 40)%nat ->
  moves_to ctx (program_spk 1 prog) -> k < n ->
  unlocks ctx (sym_leaf_upd sc k) (upd_stack (le8s n) rest so sa).
Proof using All.
  intros Hk Hn Et Em Hs Hc Hcut Hl Hmove Hlt. destruct (state_tree_sizes _ _ _ _ _ Et) as (<- & _ & Hp & Hr).
  unfold sym_upd_msg, assert_then in Em. destruct (0 <=? st_n tree); [|done]. injection Em as <-.
  by apply (update_cut k (st_n tree) _ _ _ prog rest so sa Hk Hn eq_refl Hp Hr Hcut Hl Hs Hc Hmove).
Qed.
End Updates.

(** ** SETTLE *)

Section Settle.
Context (sha256 : list Z -> list Z) `{!Digest sha256 32} `{!Taproot} `{!Machine, !MachineLaws sha256}.

(** What the leaf hashes of an output. *)
Definition seen_script (spk : list Z) : list Z :=
  sha256 match witness_of spk with Some (v, prog) => prog ++ scriptnum v | None => sha256 spk ++ [0x81] end.
Definition seen_item (t : txo) : list Z :=
  (snd (txo_asset t) ++ [fst (txo_asset t)]) ++ (snd (txo_value t) ++ [fst (txo_value t)]) ++ seen_script (txo_script t).

(** An asset is 32 bytes; a value 8, or 32 when it is blinded. *)
Definition wf_txo (t : txo) : Prop := length (snd (txo_asset t)) = 32%nat /\ (length (snd (txo_value t)) <= 32)%nat.

Context (ctx : spend) (Houts : Forall wf_txo (sp_outputs ctx)).

Lemma exec_cat_short a b rest st : (length a + length b <= MAX_SCRIPT_ELEMENT_SIZE)%nat ->
  exec ctx (SYM_OP_CAT :: rest) (b :: a :: st) = exec ctx rest ((a ++ b) :: st).
Proof using MachineLaws0. intros Hl. rewrite (exec_cat sha256), length_app. by rewrite (proj2 (Nat.leb_le _ _)). Qed.

Lemma witness_of_length spk v prog : witness_of spk = Some (v, prog) -> 0 <= v <= 16 /\ (length prog <= 40)%nat.
Proof using Type.
  unfold witness_of. destruct (_ && _) eqn:E; [|done]. intros Ew. injection Ew as <- <-. rewrite length_drop.
  rewrite !andb_true_iff, !Nat.leb_le in E. unfold OP_0, OP_1, OP_16 in *. split; [|lia]. case_if; lia.
Qed.

(** The two items of a script, and what they hash to. *)
Lemma script_two spk : exists a b, script_items sha256 spk = [b; a] /\ (length a + length b <= MAX_SCRIPT_ELEMENT_SIZE)%nat
  /\ seen_script spk = sha256 (a ++ b).
Proof using Digest0.
  unfold script_items, seen_script. destruct (witness_of spk) as [[v prog]|] eqn:E.
  - apply witness_of_length in E as [Hv Hl]. exists prog, (scriptnum v). split; [done|]. split; [|done].
    assert (length (scriptnum v) <= 1)%nat; [|unfold MAX_SCRIPT_ELEMENT_SIZE; lia].
    destruct (Z.eq_dec v 0) as [->|]; [vm_compute; lia|]. by rewrite scriptnum_small by lia.
  - exists (sha256 spk), [0x81]. split; [done|]. split; [|done]. rewrite (digest_length (f := sha256)). cbn. unfold MAX_SCRIPT_ELEMENT_SIZE. lia.
Qed.

(** One field of output [i], hashed onto what the stack holds. *)
Lemma exec_field i op hop items a b acc acc' rest t :
  Z.of_nat i < 2 ^ 32 -> sp_outputs ctx !! i = Some t -> inspects ctx op (sp_outputs ctx) items -> items t = [b; a] ->
  (length a + length b <= MAX_SCRIPT_ELEMENT_SIZE)%nat ->
  exec ctx (hop :: rest) ((a ++ b) :: acc) = exec ctx rest acc' ->
  exec ctx (push_num (Z.of_nat i) ++ op :: SYM_OP_CAT :: hop :: rest) acc = exec ctx rest acc'.
Proof using MachineLaws0.
  intros Hi Ht Hop Hit Hl E. rewrite (exec_push_num sha256) by lia. rewrite (inspect_at _ _ _ _ _ _ _ Hop Hi), Ht, Hit. cbn [app].
  by rewrite exec_cat_short.
Qed.

(** What is on the stack before output [j]: nothing, or the hash so far. *)
Definition hashed (j : nat) (acc : list Z) : list (list Z) := if (j =? 0)%nat then [] else [sha_state acc].

Lemma exec_output first m j t acc rest :
  Z.of_nat (first + j) < 2 ^ 32 -> sp_outputs ctx !! (first + j)%nat = Some t -> (j = 0%nat -> acc = []) ->
  exec ctx (settle_inspect first m j ++ rest) (hashed j acc)
  = exec ctx rest [if (j =? m - 1)%nat then sha256 (acc ++ seen_item t) else sha_state (acc ++ seen_item t)].
Proof using MachineLaws0 Houts Digest0.
  intros Hi Ht H0'. destruct (proj1 (Forall_lookup _ _) Houts _ _ Ht) as [Ha Hv]. unfold settle_inspect, seen_item.
  set (x := snd (txo_asset t) ++ _). set (y := snd (txo_value t) ++ _). rewrite <- !app_assoc. cbn [app].
  rewrite (exec_field _ _ _ _ _ _ _ [sha_state (acc ++ x)] _ _ Hi Ht (exec_output_asset sha256 ctx) eq_refl).
  2: { rewrite Ha. cbn. unfold MAX_SCRIPT_ELEMENT_SIZE. lia. }
  2: { unfold hashed. destruct (Nat.eqb_spec j 0) as [Hj|]; [rewrite (H0' Hj); apply (exec_sha256initialize sha256)|apply (exec_sha256update sha256)]. }
  rewrite (exec_field _ _ _ _ _ _ _ [sha_state ((acc ++ x) ++ y)] _ _ Hi Ht (exec_output_value sha256 ctx) eq_refl);
    [|cbn; unfold MAX_SCRIPT_ELEMENT_SIZE; lia|apply (exec_sha256update sha256)].
  destruct (script_two (txo_script t)) as (a & b & Eab & Hab & ->).
  rewrite (exec_field _ _ _ _ _ _ _ [sha256 (a ++ b); sha_state ((acc ++ x) ++ y)] _ _ Hi Ht (exec_output_script sha256 ctx) Eab);
    [|lia|apply (exec_sha256 sha256)].
  rewrite <- !app_assoc. destruct (j =? m - 1)%nat; [rewrite (exec_sha256finalize sha256)|rewrite (exec_sha256update sha256)]; by rewrite <- !app_assoc.
Qed.
Lemma exec_no_output first m j acc rest :
  Z.of_nat (first + j) < 2 ^ 32 -> sp_outputs ctx !! (first + j)%nat = None -> exec ctx (settle_inspect first m j ++ rest) acc = None.
Proof using MachineLaws0.
  intros Hi Ht. unfold settle_inspect. rewrite <- !app_assoc. rewrite (exec_push_num sha256) by lia. cbn [app].
  by rewrite (inspect_at _ _ _ _ _ _ _ (exec_output_asset sha256 ctx) Hi), Ht.
Qed.

(** The outputs from [first + j] on, [k] of them, up to the last. *)
Lemma exec_outputs first k j m acc rest : m = (j + S k)%nat -> Z.of_nat (first + m) <= 2 ^ 32 -> (j = 0%nat -> acc = []) ->
  exec ctx (concat (settle_inspect first m <$> seq j (S k)) ++ rest) (hashed j acc)
  = let window := take (S k) (drop (first + j) (sp_outputs ctx)) in
    if (length window =? S k)%nat then exec ctx rest [sha256 (acc ++ concat (seen_item <$> window))] else None.
Proof using MachineLaws0 Houts Digest0.
  revert j acc. induction k as [|k IH]; intros j acc Hm Hb H0'; cbv zeta;
    [change (seq j 1) with [j]|change (seq j (S (S k))) with (j :: seq (S j) (S k))]; rewrite fmap_cons; cbn [concat]; rewrite <- app_assoc.
  all: destruct (sp_outputs ctx !! (first + j)%nat) as [t|] eqn:Et;
    [rewrite (drop_S _ _ _ Et)|rewrite exec_no_output by (done || lia); apply lookup_ge_None in Et; rewrite drop_ge by done; done].
  - rewrite (exec_output first m j t acc _ ltac:(lia) Et H0'). cbn [take length fmap list_fmap concat app Nat.eqb].
    replace (j =? m - 1)%nat with true by (symmetry; apply Nat.eqb_eq; lia). by rewrite app_nil_r.
  - rewrite (exec_output first m j t acc _ ltac:(lia) Et H0').
    replace (j =? m - 1)%nat with false by (symmetry; apply Nat.eqb_neq; lia).
    specialize (IH (S j) (acc ++ seen_item t) ltac:(lia) Hb ltac:(lia)). cbv zeta in IH. unfold hashed in IH. cbn [Nat.eqb] in IH.
    rewrite IH. replace (first + S j)%nat with (S (first + j)) by lia. change (take (S (S k)) (t :: ?l)) with (t :: take (S k) l).
    cbn [length Nat.eqb fmap list_fmap concat]. by rewrite <- app_assoc.
Qed.

(** The marker stays where it is: its script, as a script sees it, its asset
    and its value. *)
Definition script_pair (t : txo) : list Z * list Z :=
  match witness_of (txo_script t) with Some (v, prog) => (scriptnum v, prog) | None => ([0x81], sha256 (txo_script t)) end.
Lemma script_pair_items t : script_items sha256 (txo_script t) = [fst (script_pair t); snd (script_pair t)].
Proof using Type. unfold script_items, script_pair. by destruct (witness_of _) as [[v prog]|]. Qed.
Lemma pushes_script op from : inspects ctx op from (fun t => script_items sha256 (txo_script t)) -> pushes ctx op from script_pair.
Proof using Type. intros Hop i rest st. rewrite (Hop i rest st). case_if; [done|]. destruct (from !! _); [by rewrite script_pair_items|done]. Qed.
Definition marker_kept : bool := stays ctx script_pair && (stays ctx asset_two && stays ctx value_two).
Lemma exec_marker_stays rest st : Z.of_nat (sp_index ctx) < 2 ^ 32 ->
  exec ctx ((marker_stays SYM_OP_INSPECTOUTPUTSCRIPTPUBKEY SYM_OP_INSPECTINPUTSCRIPTPUBKEY
    ++ marker_stays SYM_OP_INSPECTOUTPUTASSET SYM_OP_INSPECTINPUTASSET
    ++ marker_stays SYM_OP_INSPECTOUTPUTVALUE SYM_OP_INSPECTINPUTVALUE) ++ rest) st
  = if marker_kept then exec ctx rest st else None.
Proof using MachineLaws0.
  intros Hidx. rewrite <- !app_assoc, (exec_stays sha256 ctx Hidx script_pair); [|apply pushes_script, (exec_output_script sha256 ctx)|apply pushes_script, (exec_input_script sha256 ctx)].
  rewrite (exec_stays sha256 ctx Hidx asset_two _ _ _ _ (exec_output_asset sha256 ctx) (exec_input_asset sha256 ctx)).
  rewrite (exec_stays sha256 ctx Hidx value_two _ _ _ _ (exec_output_value sha256 ctx) (exec_input_value sha256 ctx)).
  unfold marker_kept. by destruct (stays ctx script_pair), (stays ctx asset_two), (stays ctx value_two).
Qed.
Lemma exec_delay delay rest st : in_u16 delay ->
  exec ctx ((push_num delay ++ [OP_CHECKSEQUENCEVERIFY; OP_DROP]) ++ rest) st
  = if sequence_reached ctx delay then exec ctx rest st else None.
Proof using MachineLaws0.
  intros Hd. rewrite <- app_assoc, (exec_push_num sha256) by lia. cbn [app].
  rewrite (exec_checksequenceverify sha256), scriptnum_reads by lia. destruct (sequence_reached _ _); [|done].
  by rewrite (exec_drop sha256).
Qed.

(** The outputs a settlement is checked on. *)
Definition settle_window (sc : sym_channel) (m : nat) : list txo := take m (drop (if has_clock sc then 1 else 0) (sp_outputs ctx)).

(** The SETTLE leaf of a list of outputs needs no signature and lets an
    output go exactly when the delay has passed, or, with a settle clock, the
    marker stays where it is, and the transaction's outputs, from the first or
    with a clock the second on, hash to the list's digest. *)
Theorem settle_leaf_spends {handle} sc (outs : list (sym_output handle)) leaf digest :
  wf_sym_channel sc -> Z.of_nat (sp_index ctx) < 2 ^ 32 -> Z.of_nat (length outs) < 2 ^ 32 ->
  sym_leaf_settle sha256 sc outs = Ret leaf -> sym_settle_digest sha256 sc outs = Ret digest ->
  unlocks ctx leaf [] <->
  (if has_clock sc then marker_kept else sequence_reached ctx (sym_delay sc)) = true
  /\ length (settle_window sc (length outs)) = length outs
  /\ sha256 (concat (seen_item <$> settle_window sc (length outs))) = digest.
Proof using MachineLaws0 Houts Digest0.
  intros Hsc Hidx Hm El Ed. unfold sym_leaf_settle, assert_then in El. destruct (1 <=? _)%nat eqn:E1; [|done]. rewrite Ed in El.
  injection El as <-. apply Nat.leb_le in E1. destruct (length outs) as [|k] eqn:Ek; [lia|]. unfold settle_window.
  set (first := if has_clock sc then 1%nat else 0%nat). assert (Hd : length digest = 32%nat).
  { unfold sym_settle_digest in Ed. apply bind_Ret_inv in Ed as (mm & _ & Ed). injection Ed as <-. apply (digest_length (f := sha256)). }
  rewrite (unlocks_guard ctx (if has_clock sc then marker_kept else sequence_reached ctx (sym_delay sc)) _
             (concat (settle_inspect first (S k) <$> seq 0 (S k)) ++ script_push_bytes digest ++ [OP_EQUAL]) [] []).
  2: { destruct (has_clock sc); [by apply exec_marker_stays|apply exec_delay, (wf_delay sc Hsc)]. }
  change (@nil (list Z)) with (hashed 0 []) at 1. unfold unlocks at 1.
  rewrite (exec_outputs first k 0 (S k) [] _ eq_refl) by (done || unfold first; destruct (has_clock sc); lia). cbv zeta. rewrite Nat.add_0_r.
  destruct (Nat.eqb_spec (length (take (S k) (drop first (sp_outputs ctx)))) (S k)); [|naive_solver].
  rewrite (exec_push sha256) by lia. rewrite (equal_unlocks sha256). naive_solver.
Qed.
End Settle.

(** ** What a settlement's digest binds *)

Section Digests.
Context (sha256 : list Z -> list Z) `{!Digest sha256 32} `{!Taproot} `{!Machine, !MachineLaws sha256}.

(** An output of the list as the transaction has it. *)
Definition pays {handle} (sc : sym_channel) (o : sym_output handle) (t : txo) : Prop :=
  t = mk_txo (1, drop 1 (match so_asset o with Some a => a | None => sym_asset sc end)) (1, le_bytes 8 (satoshis (so_amount o))) (so_spk o).

Lemma witness_program_of spk v prog : witness_program spk = Ret (v, prog) -> (length spk <= 42)%nat -> witness_of spk = Some (v, prog).
Proof using Type.
  unfold witness_program, witness_of, assert_then. intros E Hl. destruct (_ && _) eqn:E1 in E; [|done]. destruct (_ || _) eqn:E2 in E; [|done].
  rewrite (proj2 (Nat.leb_le _ _) Hl), andb_true_r, E1, E2. by injection E as <- <-.
Qed.
Lemma seen_item_pays {handle} sc (o : sym_output handle) t item : settle_item sha256 sc o = Ret item -> (length (so_spk o) <= 42)%nat ->
  pays sc o t -> seen_item sha256 t = item.
Proof using Type.
  unfold settle_item. intros E Hl ->. apply bind_Ret_inv in E as ([v prog] & Ew & E). injection E as <-.
  apply witness_program_of in Ew; [|done]. unfold seen_item, seen_script. cbn [txo_asset txo_value txo_script fst snd]. rewrite Ew.
  destruct (witness_of_length _ _ _ Ew) as [Hv _]. rewrite <- !app_assoc. cbn [app]. do 5 f_equal.
  destruct (Z.eqb_spec v 0) as [->|]; [done|]. by rewrite scriptnum_small by lia.
Qed.
Lemma seen_items_pay {handle} sc (outs : list (sym_output handle)) window items : settle_items sha256 sc outs = Ret items ->
  Forall (fun o => length (so_spk o) <= 42)%nat outs -> Forall2 (pays sc) outs window -> concat (seen_item sha256 <$> window) = items.
Proof using Type.
  intros E Hl Hp. revert items E. induction Hp as [|o t outs window Ho Hp IH]; intros items E; cbn [settle_items] in E; [by injection E as <-|].
  apply bind_Ret_inv in E as (a & Ea & E). apply bind_Ret_inv in E as (l & El & E). injection E as <-. apply Forall_cons in Hl as [Hl0 Hl].
  cbn [fmap list_fmap concat]. by rewrite (seen_item_pays _ _ _ _ Ea Hl0 Ho), (IH Hl _ El).
Qed.

(** A witness program of version [v] hashes as the version 0 program one byte
    longer that ends in [v]. *)
Lemma seen_script_confused v prog : 1 <= v <= 16 -> (2 <= length prog <= 39)%nat ->
  seen_script sha256 (program_spk v prog) = seen_script sha256 (v0_spk (prog ++ [v])).
Proof using Type.
  intros Hv Hl. unfold seen_script. rewrite witness_of_program by lia. rewrite witness_of_v0 by (rewrite length_app; cbn; lia).
  rewrite scriptnum_small by lia. by rewrite app_nil_r.
Qed.

Lemma leaf_digest {handle} sc (outs : list (sym_output handle)) leaf : sym_leaf_settle sha256 sc outs = Ret leaf ->
  exists digest, sym_settle_digest sha256 sc outs = Ret digest.
Proof using Type.
  unfold sym_leaf_settle, assert_then. destruct (1 <=? _)%nat; [|done]. intros El. apply bind_Ret_inv in El as (d & Ed & _). by exists d.
Qed.

Context (ctx : spend) (Houts : Forall wf_txo (sp_outputs ctx)) (Hidx : Z.of_nat (sp_index ctx) < 2 ^ 32) (sc : sym_channel) (Hsc : wf_sym_channel sc).

(** C14. The settlement can be made: the transaction whose outputs are the
    list's, once the delay has passed or with the marker in place, spends the
    state's output by SETTLE. *)
Theorem settlement_spends {handle} (outs : list (sym_output handle)) leaf :
  Z.of_nat (length outs) < 2 ^ 32 -> Forall (fun o => length (so_spk o) <= 42)%nat outs -> sym_leaf_settle sha256 sc outs = Ret leaf ->
  (if has_clock sc then marker_kept sha256 ctx else sequence_reached ctx (sym_delay sc)) = true ->
  Forall2 (pays sc) outs (settle_window ctx sc (length outs)) -> unlocks ctx leaf [].
Proof using All.
  intros Hm Hl El Hg Hp. destruct (leaf_digest _ _ _ El) as [digest Ed].
  apply (settle_leaf_spends sha256 ctx Houts sc outs leaf digest Hsc Hidx Hm El Ed). split; [done|]. split; [by rewrite <- (Forall2_length _ _ _ Hp)|].
  unfold sym_settle_digest in Ed. apply bind_Ret_inv in Ed as (items & Ei & Ed). injection Ed as <-. by rewrite (seen_items_pay _ _ _ _ Ei Hl Hp).
Qed.

(** Another script for output [i]. *)
Definition with_script (i : nat) (spk : list Z) : spend :=
  mk_spend (sp_version ctx) (sp_inputs ctx) (alter (fun t => mk_txo (txo_asset t) (txo_value t) spk) i (sp_outputs ctx)) (sp_index ctx) (sp_sequence ctx)
    (sp_locktime ctx).

Lemma with_script_seen i t spk : sp_outputs ctx !! i = Some t -> seen_script sha256 (txo_script t) = seen_script sha256 spk ->
  seen_item sha256 <$> sp_outputs (with_script i spk) = seen_item sha256 <$> sp_outputs ctx.
Proof using Type.
  intros Ht Hs. cbn [with_script sp_outputs]. apply list_eq. intros j. rewrite !list_lookup_fmap.
  destruct (decide (j = i)) as [->|Hne]; [|by rewrite list_lookup_alter_ne]. rewrite list_lookup_alter, decide_True, Ht by done. cbn [fmap option_fmap option_map]. unfold seen_item. cbn [txo_asset txo_value txo_script]. by rewrite Hs.
Qed.
Lemma with_script_marker i spk : i <> sp_index ctx -> marker_kept sha256 (with_script i spk) = marker_kept sha256 ctx.
Proof using Type.
  intros Hne. unfold marker_kept, stays. cbn [with_script sp_inputs sp_outputs sp_index]. by rewrite list_lookup_alter_ne.
Qed.

Lemma settle_exchange {handle} (outs : list (sym_output handle)) leaf i t spk :
  Z.of_nat (length outs) < 2 ^ 32 -> sym_leaf_settle sha256 sc outs = Ret leaf -> (has_clock sc = true -> i <> sp_index ctx) ->
  sp_outputs ctx !! i = Some t -> seen_script sha256 (txo_script t) = seen_script sha256 spk ->
  unlocks ctx leaf [] <-> unlocks (with_script i spk) leaf [].
Proof using All.
  intros Hm El Hi Ht Hs. destruct (leaf_digest _ _ _ El) as [digest Ed].
  assert (Hw' : Forall wf_txo (sp_outputs (with_script i spk))).
  { cbn [with_script sp_outputs]. apply Forall_alter; [done|]. intros t' Ht' Hwf. exact Hwf. }
  rewrite (settle_leaf_spends sha256 ctx Houts sc outs leaf digest Hsc Hidx Hm El Ed).
  rewrite (settle_leaf_spends sha256 (with_script i spk) Hw' sc outs leaf digest Hsc Hidx Hm El Ed).
  pose proof (with_script_seen i t spk Ht Hs) as E.
  assert (Ew : seen_item sha256 <$> settle_window (with_script i spk) sc (length outs) = seen_item sha256 <$> settle_window ctx sc (length outs)).
  { unfold settle_window. by rewrite !fmap_take, !fmap_drop, E. }
  rewrite Ew. rewrite <- !(length_fmap (seen_item sha256)), Ew, length_fmap. destruct (has_clock sc); [by rewrite with_script_marker by auto|done].
Qed.

(** C30. A settlement's digest does not bind its outputs' scripts: it hashes a
    script as its program followed by its version, empty for version 0, so an
    output of version [v] can be exchanged for the version 0 program one byte
    longer that ends in [v], and back, and SETTLE accepts the one transaction
    exactly when it accepts the other. *)
Theorem settlement_exchanged {handle} (outs : list (sym_output handle)) leaf i t v prog :
  Z.of_nat (length outs) < 2 ^ 32 -> sym_leaf_settle sha256 sc outs = Ret leaf -> (has_clock sc = true -> i <> sp_index ctx) ->
  sp_outputs ctx !! i = Some t -> 1 <= v <= 16 -> (2 <= length prog <= 39)%nat ->
  (txo_script t = program_spk v prog -> unlocks ctx leaf [] <-> unlocks (with_script i (v0_spk (prog ++ [v]))) leaf [])
  /\ (txo_script t = v0_spk (prog ++ [v]) -> unlocks ctx leaf [] <-> unlocks (with_script i (program_spk v prog)) leaf []).
Proof using All.
  intros Hm El Hi Ht Hv Hl. pose proof (seen_script_confused v prog Hv Hl) as Hseen.
  split; intros Hspk; apply (settle_exchange _ leaf i t _ Hm El Hi Ht); congruence.
Qed.
End Digests.
