(* ===== verification/SymFactory.v ===== *)
(** * Factories of symmetric channels (common/sym_factory.c)

    One output that opens many channels: its slots, the SPLIT leaf that pays
    each slot's kickoff output and takes no signature, what a member checks of
    a factory, and its wire format; and what SPLIT lets through. *)

From stdpp Require Import list.
From S2P Require Import Prelude Chainparams Amount HtlcState Wire Script Keys Tapscript ChannelState Tx SymScripts TapMachine SymState SymSpend.
Local Open Scope Z_scope.

Definition SYM_FACTORY_MAX_SLOTS : nat := 1000.

Record sym_factory_slot := mk_slot { slot_program : list Z; slot_amount : amount_sat_t }.
Record sym_factory := mk_factory {
  nonce : list Z;
  factory_slot : Z;
  factory_asset : list Z;
  slots : list sym_factory_slot;
  factory_out : outpoint;
}.


Definition sym_factory_id (f : sym_factory) : outpoint := mk_outpoint (nonce f) (factory_slot f).

Fixpoint value_from (l : list sym_factory_slot) (total : amount_sat_t) : option amount_sat_t :=
  match l with
  | [] => Some total
  | s :: l => total ← amount_sat_add total (slot_amount s); value_from l total
  end.
Definition sym_factory_value (l : list sym_factory_slot) : option amount_sat_t := value_from l (mk_sat 0).

(** Why [sym_factory_check] refuses. *)
Inductive factory_error :=
| number_of_slots
| no_such_slot
| asset_not_explicit
| not_our_kickoff
| not_our_amount
| slot_pays_nothing
| value_overflows.

(** [None] is sound. *)
Definition sym_factory_check (f : sym_factory) (own_ko_program : list Z) (own_amount : amount_sat_t) : option factory_error :=
  let n := length (slots f) in
  if (n <? 2)%nat || (SYM_FACTORY_MAX_SLOTS <? n)%nat then Some number_of_slots
  else match slots f !! Z.to_nat (factory_slot f) with
  | None => Some no_such_slot
  | Some own =>
    if negb (byte (factory_asset f) 0 =? 0x01) then Some asset_not_explicit
    else if bool_decide (slot_program own <> own_ko_program) then Some not_our_kickoff
    else if negb (amount_sat_eq (slot_amount own) own_amount) then Some not_our_amount
    else if existsb (fun s => amount_sat_eq (slot_amount s) (mk_sat 0)) (slots f) then Some slot_pays_nothing
    else match sym_factory_value (slots f) with
    | None => Some value_overflows
    | Some total => if 2 ^ 63 - 1 <? satoshis total then Some value_overflows else None
    end
  end.

(** ** On the wire *)

Definition towire_outpoint (o : outpoint) : list Z := txid o ++ towire_u32 (outnum o).
Definition fromwire_outpoint : reader outpoint := t ← fromwire_copy 32; n ← fromwire_u32; mret (mk_outpoint t n).

Definition towire_slot (s : sym_factory_slot) : list Z := slot_program s ++ towire_amount_sat (slot_amount s).
Definition towire_sym_factory (f : sym_factory) : list Z :=
  nonce f ++ towire_u16 (factory_slot f) ++ factory_asset f ++ towire_outpoint (factory_out f)
  ++ towire_u16 (Z.of_nat (length (slots f))) ++ concat (towire_slot <$> slots f).

Fixpoint fromwire_slots (n : nat) : reader (list sym_factory_slot) :=
  match n with
  | O => mret []
  | S n => p ← fromwire_copy 32; a ← fromwire_amount_sat; l ← fromwire_slots n; mret (mk_slot p a :: l)
  end.
(** [None] is NULL. *)
Definition fromwire_sym_factory : reader (option sym_factory) :=
  non ← fromwire_copy 32;
  slot ← fromwire_u16;
  asset ← fromwire_copy 33;
  out ← fromwire_outpoint;
  n ← fromwire_u16;
  if (SYM_FACTORY_MAX_SLOTS <? Z.to_nat n)%nat then _ ← fromwire_fail; mret None
  else l ← fromwire_slots (Z.to_nat n); if_read (mk_factory non slot asset l out).

Section Factory.
Context (sha256 : list Z -> list Z) `{Taproot}.

(** ** SPLIT *)

(** The file's own copies of [push_num], of the opcodes and of H are those of
    [SymScripts]. *)
Definition split_item (asset : list Z) (s : sym_factory_slot) : list Z :=
  drop 1 asset ++ [0x01] ++ le_bytes 8 (satoshis (slot_amount s)) ++ [0x01] ++ sha256 (slot_program s ++ [0x01]).
Definition sym_split_digest (asset : list Z) (l : list sym_factory_slot) : list Z := sha256 (concat (split_item asset <$> l)).

Definition sym_leaf_split (asset : list Z) (l : list sym_factory_slot) : outcome (list Z) :=
  let m := length l in
  assert_then (1 <=? m)%nat
    (Ret (concat (settle_inspect 0 m <$> seq 0 m) ++ script_push_bytes (sym_split_digest asset l) ++ [OP_EQUAL])).

(** The output key and the leaf. *)
Definition factory_key (asset : list Z) (l : list sym_factory_slot) : outcome (list Z * list Z) :=
  leaf ← sym_leaf_split asset l;
  match bip341_tweak nums_der (tap_leaf_hash sha256 leaf) with Some der => Ret (der, leaf) | None => Crash end.
Definition sym_factory_spk (asset : list Z) (l : list sym_factory_slot) : outcome (list Z) :=
  '(der, _) ← factory_key asset l; Ret (OP_1 :: 32 :: take 32 (drop 1 der)).
Definition sym_split_witness (asset : list Z) (l : list sym_factory_slot) : outcome (list (list Z)) :=
  '(der, leaf) ← factory_key asset l;
  Ret [leaf; Z.lor TAPSCRIPT_LEAF_VERSION_ELEMENTS (parity der) :: drop 1 nums_der].
Definition sym_factory_ko_spk (f : sym_factory) (slot : nat) : outcome (list Z) :=
  match slots f !! slot with Some s => Ret (OP_1 :: 32 :: slot_program s) | None => Crash end.
End Factory.

(** ** Reading a factory back *)

Record wf_factory (f : sym_factory) : Prop := {
  wf_nonce : length (nonce f) = 32%nat;
  wf_slot : in_u16 (factory_slot f);
  wf_factory_asset : length (factory_asset f) = 33%nat;
  wf_slots : Forall (fun s => length (slot_program s) = 32%nat /\ wf_sat (slot_amount s)) (slots f);
  wf_many : (length (slots f) <= SYM_FACTORY_MAX_SLOTS)%nat;
  wf_out : length (txid (factory_out f)) = 32%nat /\ in_u32 (outnum (factory_out f));
}.

Lemma reads_outpoint o : length (txid o) = 32%nat -> in_u32 (outnum o) -> reads fromwire_outpoint o (towire_outpoint o).
Proof.
  intros Ht Hn. unfold fromwire_outpoint, towire_outpoint. eapply reads_bind; [by apply reads_copy|].
  eapply reads_then; [by apply reads_u32|]. destruct o. apply reads_ret.
Qed.
Lemma reads_slots l : Forall (fun s => length (slot_program s) = 32%nat /\ wf_sat (slot_amount s)) l ->
  reads (fromwire_slots (length l)) l (concat (towire_slot <$> l)).
Proof.
  induction 1 as [|s l [Hp Ha] _ IH]; [apply reads_ret|]. rewrite fmap_cons. cbn [length fromwire_slots concat]. unfold towire_slot.
  rewrite <- app_assoc. eapply reads_bind; [by apply reads_copy|]. eapply reads_bind; [by apply reads_amount_sat|].
  eapply reads_then; [exact IH|]. destruct s. apply reads_ret.
Qed.
(** A factory reads back as it was written. *)
Theorem sym_factory_round_trip f : wf_factory f -> reads fromwire_sym_factory (Some f) (towire_sym_factory f).
Proof.
  intros [Hn Hs Ha Hsl Hm [Ho1 Ho2]]. unfold fromwire_sym_factory, towire_sym_factory. unfold SYM_FACTORY_MAX_SLOTS in *.
  eapply reads_bind; [by apply reads_copy|]. eapply reads_bind; [by apply reads_u16|]. eapply reads_bind; [by apply reads_copy|].
  eapply reads_bind; [by apply reads_outpoint|]. eapply reads_bind; [apply reads_u16; lia|]. rewrite Nat2Z.id.
  rewrite (proj2 (Nat.ltb_ge _ _)) by lia. eapply reads_then; [by apply reads_slots|]. destruct f. apply reads_if_read.
Qed.
Lemma sym_factory_round_trip_witness :
  let f := mk_factory (repeat 1 32) 1 (1 :: repeat 7 32) [mk_slot (repeat 2 32) (mk_sat 5); mk_slot (repeat 3 32) (mk_sat 6)] (mk_outpoint (repeat 4 32) 0) in
  reads fromwire_sym_factory (Some f) (towire_sym_factory f).
Proof. apply sym_factory_round_trip. split; try done; [repeat constructor; by vm_compute|apply Nat.leb_le; by vm_compute]. Defined.

(** ** Splitting *)

Section Split.
Context (sha256 : list Z -> list Z) `{!Digest sha256 32} `{!Taproot, !TweakLaws _} `{!Machine, !MachineLaws sha256}.
#[local] Set Default Proof Using "Type*".

(** The outputs SPLIT asks for, slot by slot. *)
Definition slot_out (asset : list Z) (s : sym_factory_slot) : txo :=
  mk_txo (1, drop 1 asset) (1, le_bytes 8 (satoshis (slot_amount s))) (OP_1 :: 32 :: slot_program s).
(** The same outputs, each to a program of version 0 that nothing can spend. *)
Definition burnt_out (asset : list Z) (s : sym_factory_slot) : txo :=
  mk_txo (1, drop 1 asset) (1, le_bytes 8 (satoshis (slot_amount s))) (OP_0 :: 33 :: slot_program s ++ [0x01]).

Lemma split_leaf_spends ctx asset l leaf : Forall wf_txo (sp_outputs ctx) -> Z.of_nat (length l) < 2 ^ 32 -> sym_leaf_split sha256 asset l = Ret leaf ->
  unlocks ctx leaf [] <->
  length (take (length l) (sp_outputs ctx)) = length l
  /\ sha256 (concat (seen_item sha256 <$> take (length l) (sp_outputs ctx))) = sym_split_digest sha256 asset l.
Proof.
  intros Houts Hm El. unfold sym_leaf_split, assert_then in El. destruct (1 <=? _)%nat eqn:E1; [|done]. injection El as <-. apply Nat.leb_le in E1.
  destruct (length l) as [|k] eqn:Ek; [lia|]. change (@nil (list Z)) with (hashed 0 []) at 1. unfold unlocks at 1.
  rewrite (exec_outputs sha256 ctx Houts 0 k 0 (S k) [] _ eq_refl) by (done || lia). cbv zeta. cbn [Nat.add]. rewrite drop_0.
  destruct (Nat.eqb_spec (length (take (S k) (sp_outputs ctx))) (S k)) as [Et|Et].
  - assert (Hd : length (sym_split_digest sha256 asset l) = 32%nat) by apply (digest_length (f := sha256)).
    rewrite (exec_push sha256) by lia. cbn [app]. rewrite (equal_unlocks sha256). split; [by intros ->|by intros [_ ->]].
  - split; [by intros (x & [=] & _)|by intros [? _]].
Qed.

Lemma slot_script s : length (slot_program s) = 32%nat ->
  OP_1 :: 32 :: slot_program s = program_spk 1 (slot_program s)
  /\ OP_0 :: 33 :: slot_program s ++ [0x01] = v0_spk (slot_program s ++ [1]).
Proof using Type. intros Hp. unfold program_spk, v0_spk. rewrite length_app, Hp. done. Qed.
Lemma slot_seen asset s : length (slot_program s) = 32%nat ->
  seen_item sha256 (slot_out asset s) = split_item sha256 asset s /\ seen_item sha256 (burnt_out asset s) = split_item sha256 asset s.
Proof using Type.
  intros Hp. destruct (slot_script s Hp) as [E1 E0]. unfold seen_item, slot_out, burnt_out, split_item. cbn [txo_asset txo_value txo_script fst snd].
  rewrite E1, E0, <- (seen_script_confused sha256) by lia. unfold seen_script. rewrite witness_of_program by lia. by rewrite <- !app_assoc.
Qed.
Lemma slots_unlock ctx asset l leaf (out : sym_factory_slot -> txo) : length asset = 33%nat -> Forall (fun s => length (slot_program s) = 32%nat) l ->
  (forall s, length (slot_program s) = 32%nat -> seen_item sha256 (out s) = split_item sha256 asset s) ->
  Forall wf_txo (sp_outputs ctx) -> Z.of_nat (length l) < 2 ^ 32 -> sym_leaf_split sha256 asset l = Ret leaf ->
  take (length l) (sp_outputs ctx) = out <$> l -> unlocks ctx leaf [].
Proof.
  intros Ha Hl Hseen Hw Hm El Et. apply (split_leaf_spends ctx asset l leaf Hw Hm El). rewrite Et, length_fmap. split; [done|].
  unfold sym_split_digest. f_equal. f_equal. clear -Hl Hseen. induction Hl as [|s l Hs _ IH]; [done|]. rewrite !fmap_cons, IH. by rewrite Hseen.
Qed.

(** What a factory that was checked is: some slots, each a program. *)
Definition sound_factory (f : sym_factory) (ko : list Z) (amount : amount_sat_t) : Prop := wf_factory f /\ sym_factory_check f ko amount = None.
Lemma sound_own f ko amount : sound_factory f ko amount ->
  slots f !! Z.to_nat (factory_slot f) = Some (mk_slot ko amount) /\ (2 <= length (slots f))%nat.
Proof using Type.
  intros [_ E]. unfold sym_factory_check in E. destruct (_ || _) eqn:E0 in E; [done|]. apply orb_false_iff in E0 as [E0%Nat.ltb_ge _].
  destruct (slots f !! _) as [[p a]|]; [|done]. destruct (negb _) in E; [done|]. destruct (bool_decide _) eqn:Ep in E; [done|].
  destruct (negb _) eqn:Ea in E; [done|]. apply bool_decide_eq_false in Ep. cbn in *. apply negb_false_iff in Ea. unfold amount_sat_eq in Ea. cbn in Ea.
  apply Z.eqb_eq in Ea. destruct a, amount. cbn in Ea. subst. split; [|done]. destruct (decide (p = ko)) as [->|]; done.
Qed.
Lemma sound_leaf f ko amount : sound_factory f ko amount -> exists leaf, sym_leaf_split sha256 (factory_asset f) (slots f) = Ret leaf.
Proof using Type.
  intros [_ Hn]%sound_own. unfold sym_leaf_split. destruct (1 <=? _)%nat eqn:E; [by eexists|]. apply Nat.leb_gt in E. lia.
Qed.

(** C19. A factory opens its channels: whoever knows its slots can split it,
    with no signature, by the witness [sym_split_witness], whose control block
    opens the factory's output, in any transaction that begins with an output
    to every slot's kickoff script, of the factory's asset and the slot's
    amount; a member that checked the factory finds its own kickoff output, of
    its own amount, at the index of its slot. *)
Theorem factory_splits f ko amount spk : sound_factory f ko amount -> sym_factory_spk sha256 (factory_asset f) (slots f) = Ret spk ->
  exists leaf cb, sym_split_witness sha256 (factory_asset f) (slots f) = Ret [leaf; cb]
  /\ opens sha256 bip341_tweak (drop 2 spk) leaf cb
  /\ (forall ctx, Forall wf_txo (sp_outputs ctx) -> take (length (slots f)) (sp_outputs ctx) = slot_out (factory_asset f) <$> slots f ->
        unlocks ctx leaf []
        /\ sp_outputs ctx !! Z.to_nat (factory_slot f) = Some (slot_out (factory_asset f) (mk_slot ko amount))).
Proof.
  intros Hf Es. destruct (sound_own _ _ _ Hf) as [Hown Hn]. destruct (sound_leaf _ _ _ Hf) as [leaf El]. destruct Hf as [[_ _ Ha Hs Hm _] _].
  unfold sym_factory_spk, sym_split_witness, factory_key in *. rewrite El in *. cbn [mbind outcome_bind] in *.
  destruct (bip341_tweak nums_der _) as [der|] eqn:Et; [|done]. cbn [mbind outcome_bind] in *. injection Es as <-. do 2 eexists. split; [reflexivity|]. split.
  - exists nums_der, der. split; [by vm_compute|]. pose proof (tweak_length _ _ _ Et) as Hd. cbn [drop].
    rewrite drop_0, (take_ge (drop 1 der)) by (rewrite length_drop, Hd; done). done.
  - intros ctx Hw Htake. split.
    + apply (slots_unlock ctx (factory_asset f) (slots f) leaf (slot_out (factory_asset f))); try done;
        [by eapply Forall_impl; [exact Hs|intros s [? _]]|intros s Hs'; by apply slot_seen|unfold SYM_FACTORY_MAX_SLOTS in Hm; lia].
    + apply lookup_lt_Some in Hown as Hlt. rewrite <- (lookup_take_lt _ (length (slots f))) by done. rewrite Htake, list_lookup_fmap, Hown. done.
Qed.

(** C31. Whoever knows a factory's slots can destroy it: SPLIT hashes a script
    as its program followed by its version, empty for version 0, so it accepts
    as well, and with no signature, a transaction that pays each slot's amount
    to a version 0 program of 33 bytes, a length no version 0 program can be
    spent at.  That is so of every factory a member accepts, for its own slot
    too. *)
Theorem factory_burns f ko amount : sound_factory f ko amount ->
  exists leaf, sym_leaf_split sha256 (factory_asset f) (slots f) = Ret leaf
  /\ forall ctx, Forall wf_txo (sp_outputs ctx) -> take (length (slots f)) (sp_outputs ctx) = burnt_out (factory_asset f) <$> slots f ->
       unlocks ctx leaf []
       /\ exists o, sp_outputs ctx !! Z.to_nat (factory_slot f) = Some o /\ txo_value o = (1, le_bytes 8 (satoshis amount))
            /\ witness_of (txo_script o) = Some (0, ko ++ [1]) /\ length (ko ++ [1]) = 33%nat.
Proof.
  intros Hf. destruct (sound_own _ _ _ Hf) as [Hown Hn]. destruct (sound_leaf _ _ _ Hf) as [leaf El]. exists leaf. split; [done|].
  destruct Hf as [[_ _ Ha Hs Hm _] _]. intros ctx Hw Htake. split.
  - apply (slots_unlock ctx (factory_asset f) (slots f) leaf (burnt_out (factory_asset f))); try done;
      [by eapply Forall_impl; [exact Hs|intros s [? _]]|intros s Hs'; by apply slot_seen|unfold SYM_FACTORY_MAX_SLOTS in Hm; lia].
  - apply lookup_lt_Some in Hown as Hlt. exists (burnt_out (factory_asset f) (mk_slot ko amount)).
    rewrite <- (lookup_take_lt _ (length (slots f))) by done. rewrite Htake, list_lookup_fmap, Hown. split; [done|]. split; [done|].
    assert (Hko : length ko = 32%nat) by (apply (proj1 (Forall_lookup _ _) Hs _ _ Hown)). unfold burnt_out. cbn [txo_script].
    destruct (slot_script (mk_slot ko amount) Hko) as [_ ->]. cbn [slot_program]. rewrite witness_of_v0, length_app, Hko by (rewrite length_app, Hko; cbn; lia). done.
Qed.
End Split.
