(* ===== verification/TcovLeaves.v ===== *)
(** * What the leaves of a covenant channel let through

    The leaves of common/tcov_scripts.c and the CLAIM leaf of
    common/credit_scripts.c run by the interpreter of [TapMachine]: exactly
    which spends they accept, and what follows for a commitment that was
    revoked. *)

From stdpp Require Import list.
From S2P Require Import Prelude Chainparams Amount HtlcState Wire Script Keys Tapscript ChannelState Tx SymScripts TcovScripts TapMachine SymState SymSpend.
Local Open Scope Z_scope.

Lemma le8_amount x : 0 <= x < 2 ^ 63 -> le_bytes 8 x = le8s x.
Proof. intros Hx. unfold le8s, wrap_u64. by rewrite Z.mod_small by lia. Qed.

Section Leaves.
#[local] Set Default Proof Using "Type*".
Context (sha256 ripemd160 : list Z -> list Z) `{!Taproot, !Machine, !MachineLaws sha256}.
Context `{!Secp256k1, !TxSignatures, !CovenantLaws sha256 ripemd160}.
(** An explicit field of the input or output at [i]. *)
Lemma exec_explicit ctx op from field i rest st : inspects ctx op from (fun t => field_items (field t)) -> Z.of_nat i < 2 ^ 32 ->
  exec ctx (op :: explicit ++ rest) (scriptnum (Z.of_nat i) :: st)
  = match from !! i with
    | Some t => if fst (field t) =? 1 then exec ctx rest (snd (field t) :: st) else None
    | None => None
    end.
Proof using MachineLaws0.
  intros Ho Hi. rewrite (inspect_at _ _ _ _ _ _ _ Ho Hi). destruct (from !! i) as [t|]; [|done]. unfold explicit, field_items. cbn [app].
  change OP_1 with (OP_1 + 1 - 1). rewrite (exec_small sha256) by lia. rewrite (exec_equalverify sha256).
  rewrite (bool_decide_ext _ (fst (field t) = 1)) by (split; [by intros [= ->]|by intros ->]). destruct (Z.eqb_spec (fst (field t)) 1); by case_bool_decide.
Qed.

Context (ctx : spend) (Hidx : Z.of_nat (sp_index ctx) < 2 ^ 32).

(** ** Locks *)

(** A signature of a compressed key. *)
Definition signed_by (key sig : list Z) : bool := bool_decide (sig <> []) && sig_ok ctx sig (pubkey_to_xonly key).

Lemma xonly_length key : length key = PUBKEY_CMPR_LEN -> length (pubkey_to_xonly key) = 32%nat.
Proof using Type. unfold pubkey_to_xonly. rewrite length_drop. intros ->. done. Qed.

Lemma exec_signed key rest st sig : length key = PUBKEY_CMPR_LEN ->
  exec ctx (push_xonly key ++ OP_CHECKSIGVERIFY :: rest) (sig :: st) = if signed_by key sig then exec ctx rest st else None.
Proof.
  intros Hk. unfold push_xonly. apply xonly_length in Hk. rewrite (exec_push sha256) by lia. by rewrite (exec_checksigverify sha256 ripemd160).
Qed.

(** A secret opens a point, a preimage a hash. *)
Definition opens_point (point secret : list Z) : bool :=
  (length secret =? 32)%nat && bool_decide (ec_pubkey_create secret = Some point).
Definition opens_hash (ripemd x : list Z) : bool := (length x =? 32)%nat && bool_decide (ripemd160 (sha256 x) = ripemd).

Lemma exec_pointlock point rest st secret : length point = PUBKEY_CMPR_LEN ->
  exec ctx (add_pointlock point ++ rest) (secret :: st) = if opens_point point secret then exec ctx rest st else None.
Proof.
  intros Hp. unfold add_pointlock, push_der. rewrite <- !app_assoc. rewrite (exec_push sha256) by (rewrite Hp; unfold PUBKEY_CMPR_LEN; lia).
  rewrite (exec_push sha256) by (cbn; lia). cbn [app]. rewrite (exec_rot sha256). by rewrite (exec_ecmulscalarverify sha256 ripemd160).
Qed.

Lemma exec_hashlock ripemd rest st x : length ripemd = 20%nat -> (length x <= MAX_SCRIPT_ELEMENT_SIZE)%nat ->
  exec ctx (add_hashlock ripemd ++ rest) (x :: st) = if opens_hash ripemd x then exec ctx rest st else None.
Proof.
  intros Hr Hx. unfold add_hashlock. rewrite <- !app_assoc. cbn [app]. rewrite (exec_size sha256 ripemd160) by done.
  rewrite (exec_push_num sha256) by lia. cbn [app]. rewrite (exec_equalverify sha256). unfold opens_hash.
  rewrite (bool_decide_ext (scriptnum (Z.of_nat (length x)) = scriptnum 32) (length x = 32%nat)).
  2:{ unfold MAX_SCRIPT_ELEMENT_SIZE in Hx. split; [intros E|by intros ->]. apply (f_equal script_num) in E. rewrite !scriptnum_reads in E by lia. lia. }
  destruct (Nat.eqb_spec (length x) 32) as [El|El]; [rewrite bool_decide_true by done|by rewrite bool_decide_false]. cbn [andb].
  rewrite (exec_hash160 sha256 ripemd160), (exec_push sha256) by lia. cbn [app]. by rewrite (exec_equalverify sha256).
Qed.

(** ** Outputs *)

(** An explicit value of at least [x]. *)
Definition worth (v : Z * list Z) (x : Z) : bool := (fst v =? 1) && (length (snd v) =? 8)%nat && (x <=? le64_signed (snd v)).

(** The output at the index of the input carries the asset, at least the value,
    and pays the v1 program. *)
Definition covers (asset_id : list Z) (x : amount_sat_t) (prog : list Z) : Prop :=
  exists o, sp_outputs ctx !! sp_index ctx = Some o /\ txo_asset o = (1, asset_id)
    /\ worth (txo_value o) (satoshis x) = true /\ witness_of (txo_script o) = Some (1, prog).

Ltac refused tac := split; [by intros (? & ? & _)|tac].

Lemma cov_unlocks asset_id x prog : length asset_id = 32%nat -> 0 <= satoshis x < 2 ^ 63 -> length prog = 32%nat ->
  unlocks ctx (add_cov asset_id x prog) [] <-> covers asset_id x prog.
Proof.
  intros Ha Hx Hp. unfold unlocks, add_cov, covers, worth. cbn [app]. rewrite (exec_index sha256), !(exec_dup sha256 ripemd160).
  rewrite (exec_explicit ctx _ _ txo_asset _ _ _ (exec_output_asset sha256 ctx) Hidx).
  destruct (sp_outputs ctx !! sp_index ctx) as [o|] eqn:Eo; [|refused ltac:(by intros (? & ? & _))].
  destruct (Z.eqb_spec (fst (txo_asset o)) 1) as [Ef|Ef]; [|refused ltac:(by intros (? & [= <-] & E & _); rewrite E in Ef)].
  rewrite (exec_push sha256) by lia. cbn [app]. rewrite (exec_equalverify sha256).
  case_bool_decide as Ea; [|refused ltac:(by intros (? & [= <-] & E & _); rewrite E in Ea)].
  rewrite (exec_explicit ctx _ _ txo_value _ _ _ (exec_output_value sha256 ctx) Hidx), Eo.
  destruct (fst (txo_value o) =? 1) eqn:Ev; [|refused ltac:(by intros (? & [= <-] & _ & E & _); rewrite Ev in E)].
  unfold push_le8. rewrite le8_amount, (exec_push sha256) by (done || unfold le8s; rewrite ?le_bytes_length; lia).
  cbn [app]. rewrite (exec_greaterthanorequal64 sha256 ripemd160), le64_signed_le8s by lia. unfold le8s at 1. rewrite le_bytes_length, andb_true_r.
  destruct (length (snd (txo_value o)) =? 8)%nat eqn:El; [|refused ltac:(by intros (? & [= <-] & _ & E & _); rewrite Ev, El in E)].
  rewrite (exec_verify_bool sha256). destruct (satoshis x <=? le64_signed (snd (txo_value o))) eqn:Eg;
    [|refused ltac:(by intros (? & [= <-] & _ & E & _); rewrite Ev, El, Eg in E)].
  rewrite (exec_v1_at sha256 ctx _ _ _ Hidx), Eo.
  destruct (witness_of (txo_script o)) as [[w q]|] eqn:Ew; [|refused ltac:(by intros (? & [= <-] & _ & _ & E); rewrite Ew in E)].
  destruct (Z.eqb_spec w 1) as [->|Hw]; [|refused ltac:(intros (? & [= <-] & _ & _ & E); rewrite Ew in E; by injection E as ->)].
  rewrite (exec_push sha256) by lia. rewrite (equal_unlocks sha256). split.
  - intros <-. exists o. rewrite Ev, El, Eg, Ew. split; [done|]. split; [|done]. destruct (txo_asset o). cbn in *. by subst.
  - intros (? & [= <-] & _ & _ & E). rewrite Ew in E. by injection E.
Qed.

(** The output at the index of the input carries the input's explicit asset and
    at least its explicit value, and pays the script. *)
Definition keeps (version : Z) (prog : list Z) : Prop :=
  exists i o a v, sp_inputs ctx !! sp_index ctx = Some i /\ sp_outputs ctx !! sp_index ctx = Some o
    /\ txo_asset i = (1, a) /\ txo_asset o = (1, a) /\ txo_value i = (1, v) /\ length v = 8%nat
    /\ worth (txo_value o) (le64_signed v) = true /\ witness_of (txo_script o) = Some (version, prog).

Lemma witness_of_inv spk version prog : witness_of spk = Some (version, prog) ->
  0 <= version <= 16 /\ byte spk 0 = (if version =? 0 then OP_0 else OP_1 + version - 1) /\ drop 2 spk = prog /\ (2 <= length prog <= 40)%nat.
Proof using Type.
  clear Hidx. unfold witness_of. destruct (_ && _) eqn:E; [|done]. intros [= <- <-]. rewrite length_drop.
  rewrite !andb_true_iff, orb_true_iff, andb_true_iff, !Nat.leb_le, Z.eqb_eq, Z.eqb_eq in E. unfold OP_0, OP_1, OP_16 in *.
  destruct E as [[[E1 E2] _] E3]. destruct (Z.eqb_spec (byte spk 0) 0) as [->|Hne].
  - cbn. split_and!; (done || lia).
  - destruct (Z.eqb_spec (byte spk 0 - 81 + 1) 0); split_and!; (done || lia).
Qed.

Lemma keep_unlocks dest keep version prog : add_keep dest = Ret keep -> witness_of dest = Some (version, prog) ->
  unlocks ctx keep [] <-> keeps version prog.
Proof.
  intros Ek Hw. apply witness_of_inv in Hw as (Hv & Eb & Ed & Hl). unfold add_keep in Ek.
  destruct (_ && _); [|done]. cbn [assert_then] in Ek. destruct (_ || _); [|done]. apply Ret_inj in Ek as <-. rewrite Eb, Ed. unfold unlocks, keeps. cbn [app].
  rewrite (exec_index sha256), (exec_dup sha256 ripemd160), (exec_explicit ctx _ _ txo_asset _ _ _ (exec_output_asset sha256 ctx) Hidx).
  destruct (sp_outputs ctx !! sp_index ctx) as [o|] eqn:Eo; [|refused ltac:(by intros (? & ? & ? & ? & _ & ? & _))].
  destruct (Z.eqb_spec (fst (txo_asset o)) 1) as [Ef|Ef]; [|refused ltac:(by intros (? & ? & ? & ? & _ & [= <-] & _ & E & _); rewrite E in Ef)].
  cbn [app]. rewrite (exec_over sha256), (exec_explicit ctx _ _ txo_asset _ _ _ (exec_input_asset sha256 ctx) Hidx).
  destruct (sp_inputs ctx !! sp_index ctx) as [i|] eqn:Ei; [|refused ltac:(by intros (? & ? & ? & ? & ? & _))].
  destruct (Z.eqb_spec (fst (txo_asset i)) 1) as [Ef'|Ef']; [|refused ltac:(by intros (? & ? & ? & ? & [= <-] & _ & E & _); rewrite E in Ef')].
  cbn [app]. rewrite (exec_equalverify sha256). 
  case_bool_decide as Ea; [|refused ltac:(by intros (? & ? & ? & ? & [= <-] & [= <-] & E & E' & _); rewrite E, E' in Ea)].
  cbn [app]. rewrite (exec_dup sha256 ripemd160), (exec_explicit ctx _ _ txo_value _ _ _ (exec_output_value sha256 ctx) Hidx), Eo.
  destruct (fst (txo_value o) =? 1) eqn:Ev; [|refused ltac:(by intros (? & ? & ? & ? & _ & [= <-] & _ & _ & _ & _ & E & _); unfold worth in E; rewrite Ev in E)].
  cbn [app]. rewrite (exec_over sha256), (exec_explicit ctx _ _ txo_value _ _ _ (exec_input_value sha256 ctx) Hidx), Ei.
  destruct (Z.eqb_spec (fst (txo_value i)) 1) as [Ev'|Ev']; [|refused ltac:(by intros (? & ? & ? & ? & [= <-] & _ & _ & _ & E & _); rewrite E in Ev')].
  cbn [app]. rewrite (exec_greaterthanorequal64 sha256 ripemd160).
  destruct (length (snd (txo_value o)) =? 8)%nat eqn:El;
    [|refused ltac:(by intros (? & ? & ? & ? & _ & [= <-] & _ & _ & _ & _ & E & _); unfold worth in E; rewrite Ev, El in E)].
  destruct (Nat.eqb_spec (length (snd (txo_value i))) 8) as [El'|El'];
    [|refused ltac:(by intros (? & ? & ? & ? & [= <-] & _ & _ & _ & E & E' & _); rewrite E in El')].
  cbn [andb]. rewrite (exec_verify_bool sha256). destruct (_ <=? le64_signed (snd (txo_value o))) eqn:Eg;
    [|refused ltac:(by intros (? & ? & ? & ? & [= <-] & [= <-] & _ & _ & E' & _ & E & _); unfold worth in E; rewrite E' in Eg; cbn [snd] in Eg; rewrite Ev, El, Eg in E)].
  rewrite (exec_program_at sha256 ctx version _ _ _ Hv Hidx), Eo.
  destruct (witness_of (txo_script o)) as [[w q]|] eqn:Ew; [|refused ltac:(by intros (? & ? & ? & ? & _ & [= <-] & _ & _ & _ & _ & _ & E); rewrite Ew in E)].
  destruct (Z.eqb_spec w version) as [->|Hne]; [|refused ltac:(intros (? & ? & ? & ? & _ & [= <-] & _ & _ & _ & _ & _ & E); rewrite Ew in E; by injection E as ->)].
  rewrite (exec_push sha256) by lia. rewrite (equal_unlocks sha256). split.
  - intros <-. exists i, o, (snd (txo_asset i)), (snd (txo_value i)). unfold worth. rewrite Ev, El, Eg, Ew.
    destruct (txo_asset i), (txo_asset o), (txo_value i). cbn in *. by subst.
  - intros (? & ? & ? & ? & _ & [= <-] & _ & _ & _ & _ & _ & E). rewrite Ew in E. by injection E.
Qed.

(** ** The leaves *)

Definition is_key (key : list Z) : Prop := length key = PUBKEY_CMPR_LEN.

(** A leaf that ends with a lock time on the stack. *)
Lemma lock_left_unlocks op reached n : 0 <= n < 2 ^ 32 ->
  (forall x rest st, exec ctx (op :: rest) (x :: st) = if reached ctx (script_num x) : bool then exec ctx rest (x :: st) else None) ->
  unlocks ctx (push_num n ++ [op]) [] <-> reached ctx n = true /\ n <> 0.
Proof.
  intros Hn Hop. unfold unlocks. rewrite (exec_push_num sha256), Hop, scriptnum_reads by done.
  destruct (reached ctx n); [|split; [by intros (? & ? & _)|by intros [? _]]]. rewrite (exec_nil sha256). split.
  - intros (x & [= <-] & Ht). rewrite truthy_scriptnum in Ht by done. split; [done|]. intros ->. done.
  - intros [_ Hne]. eexists. split; [done|]. rewrite truthy_scriptnum by done. by rewrite (proj2 (Z.eqb_neq _ _)).
Qed.

Lemma delay_leaf_spends key delay sig : is_key key -> in_u16 delay ->
  unlocks ctx (tcov_leaf_delay key delay) [sig] <-> signed_by key sig = true /\ sequence_reached ctx delay = true /\ delay <> 0.
Proof.
  intros Hk Hd. unfold tcov_leaf_delay. cbn [app]. rewrite (unlocks_guard _ _ _ _ _ _ (exec_signed key _ _ sig Hk)).
  by rewrite (lock_left_unlocks OP_CHECKSEQUENCEVERIFY sequence_reached delay ltac:(lia) (exec_checksequenceverify sha256 ctx)).
Qed.
Lemma received_timeout_spends key expiry sig : is_key key -> in_u32 expiry ->
  unlocks ctx (tcov_leaf_received_timeout key expiry) [sig] <-> signed_by key sig = true /\ locktime_reached ctx expiry = true /\ expiry <> 0.
Proof.
  intros Hk Hd. unfold tcov_leaf_received_timeout. cbn [app]. rewrite (unlocks_guard _ _ _ _ _ _ (exec_signed key _ _ sig Hk)).
  by rewrite (lock_left_unlocks OP_CHECKLOCKTIMEVERIFY locktime_reached expiry ltac:(lia) (exec_checklocktimeverify sha256 ctx)).
Qed.

Lemma revoke_leaf_spends point dest leaf version prog secret : tcov_leaf_revoke point dest = Ret leaf -> is_key point ->
  witness_of dest = Some (version, prog) ->
  unlocks ctx leaf [secret] <-> opens_point point secret = true /\ keeps version prog.
Proof.
  intros El Hp Hw. unfold tcov_leaf_revoke in El. apply bind_Ret_inv in El as (keep & Ek & El). apply Ret_inj in El as <-.
  change (push_der point ++ script_push_bytes generator_der ++ [OP_ROT; TCOV_OP_ECMULSCALARVERIFY] ++ keep) with
    (push_der point ++ script_push_bytes generator_der ++ OP_ROT :: TCOV_OP_ECMULSCALARVERIFY :: keep).
  replace (push_der point ++ _) with (add_pointlock point ++ keep) by (unfold add_pointlock; by rewrite <- !app_assoc).
  rewrite (unlocks_guard _ _ _ _ _ _ (exec_pointlock point _ _ secret Hp)). by rewrite (keep_unlocks dest keep version prog).
Qed.

(** The lock of an HTLC: its point, or its hash. *)
Definition opens_lock (lock : option (list Z)) (ripemd x : list Z) : bool :=
  match lock with Some point => opens_point point x | None => opens_hash ripemd x end.
Definition wf_lock (lock : option (list Z)) (ripemd : list Z) : Prop :=
  match lock with Some point => is_key point | None => length ripemd = 20%nat end.
Lemma exec_lock lock ripemd rest st x : wf_lock lock ripemd -> (length x <= MAX_SCRIPT_ELEMENT_SIZE)%nat ->
  exec ctx (match lock with Some point => add_pointlock point | None => add_hashlock ripemd end ++ rest) (x :: st)
  = if opens_lock lock ripemd x then exec ctx rest st else None.
Proof. destruct lock as [point|]; intros Hl Hx; [by apply exec_pointlock|by apply exec_hashlock]. Qed.

Lemma offered_timeout_spends key expiry asset_id x prog sig : is_key key -> in_u32 expiry -> length asset_id = 32%nat ->
  0 <= satoshis x < 2 ^ 63 -> length prog = 32%nat ->
  unlocks ctx (tcov_leaf_offered_timeout key expiry asset_id x prog) [sig]
  <-> signed_by key sig = true /\ locktime_reached ctx expiry = true /\ covers asset_id x prog.
Proof.
  intros Hk He Ha Hx Hp. unfold tcov_leaf_offered_timeout. cbn [app]. rewrite (unlocks_guard _ _ _ _ _ _ (exec_signed key _ _ sig Hk)).
  assert (E : exec ctx (push_num expiry ++ OP_CHECKLOCKTIMEVERIFY :: OP_DROP :: add_cov asset_id x prog) []
    = if locktime_reached ctx expiry then exec ctx (add_cov asset_id x prog) [] else None).
  { rewrite (exec_push_num sha256) by lia. cbn [app]. rewrite (exec_checklocktimeverify sha256), scriptnum_reads by lia.
    destruct (locktime_reached ctx expiry); [|done]. by rewrite (exec_drop sha256). }
  rewrite (unlocks_guard _ _ _ _ _ _ E). by rewrite cov_unlocks.
Qed.

(** What the holder of an HTLC's secret takes it with, hash or point. *)
Definition received_success (lock : option (list Z)) (ripemd key asset_id : list Z) (x : amount_sat_t) (prog : list Z) : list Z :=
  match lock with
  | Some point => tcov_leaf_received_success_point point key asset_id x prog
  | None => tcov_leaf_received_success ripemd key asset_id x prog
  end.
Definition offered_success (lock : option (list Z)) (ripemd key : list Z) : list Z :=
  match lock with
  | Some point => tcov_leaf_offered_success_point point key
  | None => tcov_leaf_offered_success ripemd key
  end.
Lemma received_success_spends lock ripemd key asset_id x prog sig r : wf_lock lock ripemd -> is_key key -> length asset_id = 32%nat ->
  0 <= satoshis x < 2 ^ 63 -> length prog = 32%nat -> (length r <= MAX_SCRIPT_ELEMENT_SIZE)%nat ->
  unlocks ctx (received_success lock ripemd key asset_id x prog) [r; sig]
  <-> opens_lock lock ripemd r = true /\ signed_by key sig = true /\ covers asset_id x prog.
Proof.
  intros Hl Hk Ha Hx Hp Hr. replace (received_success lock ripemd key asset_id x prog) with
    (match lock with Some point => add_pointlock point | None => add_hashlock ripemd end
     ++ push_xonly key ++ OP_CHECKSIGVERIFY :: add_cov asset_id x prog) by (by destruct lock).
  rewrite (unlocks_guard _ _ _ _ _ _ (exec_lock lock ripemd _ _ r Hl Hr)), (unlocks_guard _ _ _ _ _ _ (exec_signed key _ _ sig Hk)).
  by rewrite cov_unlocks.
Qed.
Lemma offered_success_spends lock ripemd key sig r : wf_lock lock ripemd -> is_key key -> (length r <= MAX_SCRIPT_ELEMENT_SIZE)%nat ->
  unlocks ctx (offered_success lock ripemd key) [r; sig] <-> opens_lock lock ripemd r = true /\ signed_by key sig = true.
Proof.
  intros Hl Hk Hr. replace (offered_success lock ripemd key) with
    (match lock with Some point => add_pointlock point | None => add_hashlock ripemd end ++ push_xonly key ++ [OP_CHECKSIG]) by (by destruct lock).
  rewrite (unlocks_guard _ _ _ _ _ _ (exec_lock lock ripemd _ _ r Hl Hr)). apply and_iff_compat_l. unfold unlocks, signed_by, push_xonly.
  apply xonly_length in Hk. rewrite (exec_push sha256), (exec_checksig sha256 ripemd160) by lia. rewrite !(exec_nil sha256). case_bool_decide as E.
  - rewrite bool_decide_false by (by intros []). cbn [andb]. split; [intros (? & [= <-] & ?)|]; done.
  - rewrite bool_decide_true by done. cbn [andb]. destruct (sig_ok _ _ _); split; try done; [by exists [1]|by intros (? & ? & _)].
Qed.
End Leaves.
