(* ===== verification/CreditLeaf.v ===== *)
(** * What the CLAIM leaf of a credit channel lets through

    [credit_leaf_claim] (common/credit_scripts.c) run by the interpreter of
    [TapMachine]: the spends it accepts, and what a holder is paid by any
    number of claims. *)

From stdpp Require Import list.
From S2P Require Import Prelude Chainparams Amount HtlcState Wire Script Keys Tapscript ChannelState Tx SymScripts TcovScripts TapMachine SymState SymSpend TcovLeaves.
Local Open Scope Z_scope.

Section Claim.
#[local] Set Default Proof Using "Type*".
Context (sha256 ripemd160 : list Z -> list Z) `{!Taproot, !Machine, !MachineLaws sha256}.
Context `{!Secp256k1, !TxSignatures, !CovenantLaws sha256 ripemd160}.

Definition amount_ok (x : Z) : Prop := 0 <= x < 2 ^ 63.
Definition fits (x : Z) : bool := (- 2 ^ 63 <=? x) && (x <? 2 ^ 63).

Lemma le8s_length x : length (le8s x) = 8%nat.
Proof using Type. unfold le8s. by rewrite le_bytes_length. Qed.

(** The difference of two numbers, checked. *)
Lemma exec_difference ctx a b rest st : length a = 8%nat -> length b = 8%nat ->
  exec ctx (CREDIT_OP_SUB64 :: OP_VERIFY :: rest) (b :: a :: st)
  = if fits (le64_signed a - le64_signed b) then exec ctx rest (le8s (le64_signed a - le64_signed b) :: st) else None.
Proof.
  intros Ha Hb. rewrite (exec_sub64 sha256 ripemd160), Ha, Hb. cbn [Nat.eqb andb]. cbv zeta. fold (fits (le64_signed a - le64_signed b)).
  destruct (fits _); rewrite (exec_verify sha256); done.
Qed.

(** The note: a signature of the credit key over the tag, the credit and the
    hash of what was shown. *)
Lemma exec_note ctx dtag ck rest x c sig : length dtag = 32%nat -> is_key ck -> (forall y, length (sha256 y) = 32%nat) ->
  length c = 8%nat -> (length x <= MAX_SCRIPT_ELEMENT_SIZE)%nat ->
  exec ctx ([OP_SIZE; 0x01; 32; OP_EQUALVERIFY; OP_SHA256; OP_OVER] ++ script_push_bytes dtag
    ++ [OP_SWAP; SYM_OP_CAT; OP_SWAP; SYM_OP_CAT; OP_ROT; OP_SWAP] ++ push_xonly ck ++ [SYM_OP_CHECKSIGFROMSTACKVERIFY] ++ rest) [x; c; sig]
  = if (length x =? 32)%nat && schnorr_verify sig (dtag ++ c ++ sha256 x) (pubkey_to_xonly ck) then exec ctx rest [c] else None.
Proof.
  intros Hd Hk Hs Hc Hx. cbn [app]. rewrite (exec_size sha256 ripemd160) by done.
  change (0x01 :: 32 :: ?r) with (script_push_bytes [32] ++ r). rewrite (exec_push sha256) by (cbn; lia). cbn [app]. rewrite (exec_equalverify sha256).
  rewrite (bool_decide_ext _ (length x = 32%nat)).
  2:{ unfold MAX_SCRIPT_ELEMENT_SIZE in Hx. change [32] with (scriptnum 32). split; [intros E|by intros ->]. apply (f_equal script_num) in E.
      rewrite !scriptnum_reads in E by lia. lia. }
  destruct (Nat.eqb_spec (length x) 32) as [El|El]; [rewrite bool_decide_true by done|by rewrite bool_decide_false]. cbn [andb].
  rewrite (exec_sha256 sha256), (exec_over sha256), (exec_push sha256) by lia. cbn [app]. rewrite (exec_swap sha256), (exec_cat sha256).
  rewrite length_app, Hd, Hc. cbn [Nat.leb Nat.add MAX_SCRIPT_ELEMENT_SIZE]. rewrite (exec_swap sha256), (exec_cat sha256).
  rewrite !length_app, Hd, Hc, Hs. cbn [Nat.leb Nat.add MAX_SCRIPT_ELEMENT_SIZE]. rewrite (exec_rot sha256), (exec_swap sha256), <- app_assoc.
  apply xonly_length in Hk. unfold push_xonly. rewrite (exec_push sha256) by lia. cbn [app]. by rewrite (exec_checksigfromstackverify sha256).
Qed.

Context (ctx : spend) (Hidx : Z.of_nat (sp_index ctx) < 2 ^ 31 - 1).

(** What earlier claims took, and what this one takes. *)
Lemma exec_taken b rest c : amount_ok (satoshis b) -> amount_ok c ->
  exec ctx (push_le8 b ++ [SYM_OP_PUSHCURRENTINPUTINDEX; SYM_OP_INSPECTINPUTVALUE; OP_1; OP_EQUALVERIFY; CREDIT_OP_SUB64; OP_VERIFY]
    ++ [OP_2DUP; SYM_OP_GREATERTHAN64; OP_VERIFY; OP_OVER; OP_SWAP; CREDIT_OP_SUB64; OP_VERIFY] ++ rest) [le8s c]
  = match sp_inputs ctx !! sp_index ctx with
    | Some i =>
      let paid := satoshis b - le64_signed (snd (txo_value i)) in
      if (fst (txo_value i) =? 1) && (length (snd (txo_value i)) =? 8)%nat && fits paid && (paid <? c) && fits (c - paid)
      then exec ctx rest [le8s (c - paid); le8s c] else None
    | None => None
    end.
Proof.
  intros Hb Hc. unfold amount_ok in *. unfold push_le8. rewrite le8_amount, (exec_push sha256) by (done || rewrite le8s_length; lia). cbn [app]. rewrite (exec_index sha256).
  change (OP_1 :: OP_EQUALVERIFY :: ?r) with (explicit ++ r).
  rewrite (exec_explicit sha256 ctx _ _ txo_value _ _ _ (exec_input_value sha256 ctx)) by lia.
  destruct (sp_inputs ctx !! sp_index ctx) as [i|]; [|done]. cbv zeta. destruct (fst (txo_value i) =? 1); [|done]. cbn [andb].
  destruct (Nat.eqb_spec (length (snd (txo_value i))) 8) as [El|El].
  2:{ rewrite (exec_sub64 sha256 ripemd160), (proj2 (Nat.eqb_neq _ _) El), andb_false_r. done. }
  rewrite exec_difference by (done || apply le8s_length). rewrite le64_signed_le8s by lia. cbn [andb].
  set (paid := satoshis b - _). destruct (fits paid) eqn:Ef; [|done]. cbn [andb]. rewrite (exec_2dup sha256 ripemd160), (exec_greaterthan64 sha256), !le8s_length.
  cbn [Nat.eqb andb]. unfold fits in Ef. rewrite !le64_signed_le8s, (exec_verify_bool sha256) by lia. destruct (paid <? c); [|done]. cbn [andb].
  rewrite (exec_over sha256), (exec_swap sha256), exec_difference by apply le8s_length. by rewrite !le64_signed_le8s by lia.
Qed.

(** The output after the input's index pays the credit to the holder. *)
Lemma exec_credited rest delta u_prog st : length u_prog = 20%nat ->
  exec ctx ([SYM_OP_PUSHCURRENTINPUTINDEX; OP_1ADD; OP_DUP; SYM_OP_INSPECTOUTPUTVALUE; OP_1; OP_EQUALVERIFY; OP_ROT;
              OP_EQUALVERIFY; OP_DUP; SYM_OP_INSPECTOUTPUTSCRIPTPUBKEY; OP_0; OP_EQUALVERIFY]
          ++ script_push_bytes u_prog
          ++ [OP_EQUALVERIFY; SYM_OP_INSPECTOUTPUTASSET; SYM_OP_PUSHCURRENTINPUTINDEX; SYM_OP_INSPECTINPUTASSET; OP_ROT;
              OP_EQUALVERIFY; OP_EQUALVERIFY] ++ rest) (delta :: st)
  = match sp_outputs ctx !! S (sp_index ctx), sp_inputs ctx !! sp_index ctx with
    | Some u, Some i =>
      if bool_decide (txo_value u = (1, delta)) && bool_decide (witness_of (txo_script u) = Some (0, u_prog))
         && bool_decide (txo_asset u = txo_asset i)
      then exec ctx rest st else None
    | _, _ => None
    end.
Proof.
  intros Hu. cbn [app]. rewrite (exec_index sha256), (exec_1add sha256 ripemd160), (exec_dup sha256 ripemd160) by lia.
  replace (Z.of_nat (sp_index ctx) + 1) with (Z.of_nat (S (sp_index ctx))) by lia. change (OP_1 :: OP_EQUALVERIFY :: ?r) with (explicit ++ r).
  rewrite (exec_explicit sha256 ctx _ _ txo_value _ _ _ (exec_output_value sha256 ctx)) by lia.
  destruct (sp_outputs ctx !! S (sp_index ctx)) as [u|] eqn:Eu; [|done].
  destruct (txo_value u) as [pv v]. cbn [fst snd]. destruct (Z.eqb_spec pv 1) as [->|Hp].
  2:{ destruct (sp_inputs ctx !! _); [|done]. rewrite bool_decide_false; [done|]. by intros [= ->]. }
  rewrite (exec_rot sha256), (exec_equalverify sha256). rewrite (bool_decide_ext (v = delta) ((1, v) = (1, delta))) by (split; [by intros ->|by intros [= ->]]).
  destruct (bool_decide ((1, v) = _)); [|by destruct (sp_inputs ctx !! _)]. cbn [andb].
  rewrite (exec_dup sha256 ripemd160), (exec_v0_at sha256), Eu by lia. destruct (witness_of (txo_script u)) as [[w prog]|]; [|by destruct (sp_inputs ctx !! _)].
  destruct (Z.eqb_spec w 0) as [->|Hw].
  2:{ destruct (sp_inputs ctx !! _); [|done]. rewrite bool_decide_false; [done|]. by intros [= ->]. }
  rewrite (exec_push sha256) by lia. cbn [app]. rewrite (exec_equalverify sha256).
  rewrite (bool_decide_ext (prog = u_prog) (Some (0, prog) = Some (0, u_prog))) by (split; [by intros ->|by intros [= ->]]).
  destruct (bool_decide (Some _ = _)); [|by destruct (sp_inputs ctx !! _)]. cbn [andb].
  rewrite (inspect_at _ _ _ _ _ _ _ (exec_output_asset sha256 ctx)), Eu by lia. unfold field_items at 1. cbn [app].
  rewrite (exec_index sha256), (inspect_at _ _ _ _ _ _ _ (exec_input_asset sha256 ctx)) by lia. destruct (sp_inputs ctx !! _) as [i|]; [|done].
  unfold field_items. cbn [app]. rewrite (exec_rot sha256), !(exec_equalverify sha256). destruct (txo_asset u) as [p a], (txo_asset i) as [q b]. cbn [fst snd].
  destruct (decide (p = q)) as [->|Hpq]; [rewrite (bool_decide_true ([q] = [q])) by done|by rewrite !bool_decide_false by (by intros [= ?])].
  rewrite (bool_decide_ext ((q, a) = (q, b)) (a = b)); [done|]. split; [by intros [= ->]|by intros ->].
Qed.

(** The output at the index of the input keeps what is left. *)
Lemma exec_remainder b c : amount_ok (satoshis b) -> amount_ok c ->
  unlocks ctx (push_le8 b ++ [OP_SWAP; CREDIT_OP_SUB64; OP_VERIFY]
          ++ [SYM_OP_PUSHCURRENTINPUTINDEX; SYM_OP_INSPECTOUTPUTVALUE; OP_1; OP_EQUALVERIFY; OP_EQUALVERIFY]
          ++ [SYM_OP_PUSHCURRENTINPUTINDEX; SYM_OP_INSPECTOUTPUTSCRIPTPUBKEY; SYM_OP_PUSHCURRENTINPUTINDEX;
              SYM_OP_INSPECTINPUTSCRIPTPUBKEY; OP_ROT; OP_EQUALVERIFY; OP_EQUALVERIFY]
          ++ [SYM_OP_PUSHCURRENTINPUTINDEX; SYM_OP_INSPECTOUTPUTASSET; SYM_OP_PUSHCURRENTINPUTINDEX;
              SYM_OP_INSPECTINPUTASSET; OP_ROT; OP_EQUALVERIFY; OP_EQUAL]) [le8s c]
  <-> exists i o, sp_inputs ctx !! sp_index ctx = Some i /\ sp_outputs ctx !! sp_index ctx = Some o
      /\ txo_value o = (1, le8s (satoshis b - c)) /\ script_items sha256 (txo_script o) = script_items sha256 (txo_script i)
      /\ txo_asset o = txo_asset i.
Proof.
  intros Hb Hc. unfold amount_ok in *. assert (Hs : fits (satoshis b - c) = true) by (unfold fits; lia).
  assert (E : exec ctx (push_le8 b ++ OP_SWAP :: CREDIT_OP_SUB64 :: OP_VERIFY :: SYM_OP_PUSHCURRENTINPUTINDEX :: SYM_OP_INSPECTOUTPUTVALUE
      :: OP_1 :: OP_EQUALVERIFY :: OP_EQUALVERIFY :: marker_stays SYM_OP_INSPECTOUTPUTSCRIPTPUBKEY SYM_OP_INSPECTINPUTSCRIPTPUBKEY
      ++ [SYM_OP_PUSHCURRENTINPUTINDEX; SYM_OP_INSPECTOUTPUTASSET; SYM_OP_PUSHCURRENTINPUTINDEX; SYM_OP_INSPECTINPUTASSET; OP_ROT; OP_EQUALVERIFY; OP_EQUAL])
      [le8s c]
    = if match sp_outputs ctx !! sp_index ctx with Some o => bool_decide (txo_value o = (1, le8s (satoshis b - c))) | None => false end
      then exec ctx (marker_stays SYM_OP_INSPECTOUTPUTSCRIPTPUBKEY SYM_OP_INSPECTINPUTSCRIPTPUBKEY
        ++ [SYM_OP_PUSHCURRENTINPUTINDEX; SYM_OP_INSPECTOUTPUTASSET; SYM_OP_PUSHCURRENTINPUTINDEX; SYM_OP_INSPECTINPUTASSET; OP_ROT; OP_EQUALVERIFY; OP_EQUAL])
        [] else None).
  { unfold push_le8. rewrite le8_amount, (exec_push sha256) by (done || rewrite le8s_length; lia). rewrite (exec_swap sha256), exec_difference by apply le8s_length.
    rewrite !le64_signed_le8s, Hs, (exec_index sha256) by lia. change (OP_1 :: OP_EQUALVERIFY :: ?r) with (explicit ++ r).
    rewrite (exec_explicit sha256 ctx _ _ txo_value _ _ _ (exec_output_value sha256 ctx)) by lia. destruct (sp_outputs ctx !! _) as [o|]; [|done].
    destruct (txo_value o) as [p v]. cbn [fst snd]. destruct (Z.eqb_spec p 1) as [->|Hp]; [|by rewrite bool_decide_false by (by intros [= ?])].
    rewrite (exec_equalverify sha256). rewrite (bool_decide_ext (le8s _ = v) ((1, v) = (1, le8s (satoshis b - c)))); [done|]. split; [by intros <-|by intros [= ->]]. }
  cbn [app] in E |- *. rewrite (unlocks_guard _ _ _ _ _ _ E). assert (Hi : Z.of_nat (sp_index ctx) < 2 ^ 32) by lia.
  rewrite (unlocks_guard _ _ _ _ _ _ (exec_stays sha256 ctx Hi (script_pair sha256) _ _ _ _
    (pushes_script sha256 ctx _ _ (exec_output_script sha256 ctx)) (pushes_script sha256 ctx _ _ (exec_input_script sha256 ctx)))).
  rewrite (unlocks_stays sha256 ctx Hi asset_two _ _ (exec_output_asset sha256 ctx) (exec_input_asset sha256 ctx)), !stays_iff. split.
  - intros (Hv & (i & o & Ei & Eo & Es) & (i' & o' & Ei' & Eo' & Ea)). assert (i' = i) as -> by congruence. assert (o' = o) as -> by congruence.
    rewrite Eo in Hv. apply bool_decide_eq_true in Hv. apply field_two in Ea. exists i, o. rewrite !script_pair_items, Es. done.
  - intros (i & o & Ei & Eo & Ev & Es & Ea). rewrite Eo. split; [by apply bool_decide_eq_true|]. rewrite !script_pair_items in Es. injection Es as E1 E2.
    split; exists i, o; (split; [done|split; [done|]]); [|unfold asset_two; by rewrite Ea].
    destruct (script_pair sha256 o), (script_pair sha256 i). cbn in *. by subst.
Qed.

(** ** The leaf *)

(** What a claim of [c] against the balance [b] does: what earlier claims left
    unpaid of it goes to the holder, the rest stays. *)
Definition claim_moves (b c : Z) (u_prog : list Z) : Prop :=
  exists i o u v, sp_inputs ctx !! sp_index ctx = Some i /\ sp_outputs ctx !! sp_index ctx = Some o
    /\ sp_outputs ctx !! S (sp_index ctx) = Some u /\ txo_value i = (1, v) /\ length v = 8%nat
    /\ (let paid := b - le64_signed v in
        fits paid = true /\ paid < c /\ fits (c - paid) = true /\ txo_value u = (1, le8s (c - paid)))
    /\ witness_of (txo_script u) = Some (0, u_prog) /\ txo_asset u = txo_asset i
    /\ txo_value o = (1, le8s (b - c)) /\ script_items sha256 (txo_script o) = script_items sha256 (txo_script i) /\ txo_asset o = txo_asset i.

Lemma claim_leaf_spends dtag ck b spk leaf c x sig :
  credit_leaf_claim dtag ck b spk = Ret leaf -> length dtag = 32%nat -> is_key ck -> (forall y, length (sha256 y) = 32%nat) ->
  amount_ok (satoshis b) -> amount_ok c -> (length x <= MAX_SCRIPT_ELEMENT_SIZE)%nat ->
  unlocks ctx leaf [x; le_bytes 8 c; sig]
  <-> length x = 32%nat /\ credit_note_check dtag ck c (sha256 x) sig = true /\ claim_moves (satoshis b) c (drop 2 spk).
Proof.
  intros El Hd Hk Hs Hb Hc Hx. unfold credit_leaf_claim in El. destruct (_ && _) eqn:Eu in El; [|done]. apply Ret_inj in El as <-.
  assert (Hu : length (drop 2 spk) = 20%nat) by (rewrite !andb_true_iff, Nat.eqb_eq in Eu; rewrite length_drop; lia).
  assert (Hc8 : length (le_bytes 8 c) = 8%nat) by apply le_bytes_length.
  rewrite (unlocks_guard _ _ _ _ _ _ (exec_note ctx dtag ck _ x (le_bytes 8 c) sig Hd Hk Hs Hc8 Hx)), andb_true_iff, Nat.eqb_eq.
  unfold credit_note_check, credit_note_msg. 
  match goal with |- (_ /\ _) /\ ?U <-> _ /\ _ /\ ?C => enough (U <-> C) by tauto end. rewrite (le8_amount c) by done.
  unfold unlocks, claim_moves. rewrite exec_taken by done. destruct (sp_inputs ctx !! sp_index ctx) as [i|] eqn:Ei.
  2:{ split; [by intros (? & ? & _)|by intros (? & ? & ? & ? & ? & _)]. }
  cbv zeta. set (paid := satoshis b - _). destruct (_ && fits (c - paid)) eqn:Eg.
  2:{ split; [by intros (? & ? & _)|]. intros (i' & o & u & v & [= <-] & _ & _ & Ev & El & (F1 & F2 & F3 & _) & _). subst paid. rewrite Ev in Eg. cbn [fst snd] in Eg.
      rewrite El, F1, F3, (proj2 (Z.ltb_lt _ _) F2) in Eg. done. }
  rewrite exec_credited, Ei by done. rewrite !andb_true_iff, Z.eqb_eq, Nat.eqb_eq, Z.ltb_lt in Eg. destruct Eg as [[[[E1 E2] E3] E4] E5].
  destruct (sp_outputs ctx !! S (sp_index ctx)) as [u|] eqn:Eo1; [|split; [by intros (? & ? & _)|by intros (? & ? & ? & ? & _ & _ & ? & _)]].
  destruct (_ && bool_decide (txo_asset u = _)) eqn:Eg.
  2:{ split; [by intros (? & ? & _)|]. intros (i' & o & u' & v & [= <-] & _ & [= <-] & Ev & El & (_ & _ & _ & F4) & F5 & F6 & _). subst paid.
      rewrite F4, F5, F6, !bool_decide_true in Eg by (done || by rewrite Ev). done. }
  rewrite !andb_true_iff, !bool_decide_eq_true in Eg. destruct Eg as [[G1 G2] G3]. fold (unlocks ctx). rewrite (exec_remainder b c Hb Hc). split.
  - intros (i' & o & E & Eo & F1 & F2 & F3). assert (i' = i) as -> by congruence. exists i, o, u, (snd (txo_value i)).
    destruct (txo_value i) as [p v]. cbn [fst snd] in *. by subst p.
  - intros (i' & o & u' & v & [= <-] & Eo & _ & _ & _ & _ & _ & _ & F1 & F2 & F3). by exists i, o.
Qed.
End Claim.

(** ** Any number of claims *)

(** A claim: the transaction, the note's credit and signature, the preimage. *)
Record claim := mk_claim { cl_spend : spend; cl_credit : Z; cl_preimage : list Z; cl_sig : list Z }.

Section Chain.
#[local] Set Default Proof Using "Type*".
Context (sha256 ripemd160 : list Z -> list Z) `{!Taproot, !Machine, !MachineLaws sha256}.
Context `{!Secp256k1, !TxSignatures, !CovenantLaws sha256 ripemd160} (Hsha : forall y, length (sha256 y) = 32%nat).

Definition wf_claim (cl : claim) : Prop :=
  Z.of_nat (sp_index (cl_spend cl)) < 2 ^ 31 - 1 /\ amount_ok (cl_credit cl) /\ (length (cl_preimage cl) <= MAX_SCRIPT_ELEMENT_SIZE)%nat.

(** Claims one after the other, from an output to what is left of it, and what
    they paid in all; the values of outputs are amounts. *)
Inductive claims (leaf : list Z) : txo -> list claim -> txo -> Z -> Prop :=
| claims_none o : claims leaf o [] o 0
| claims_more o cs o1 total cl o2 u :
    claims leaf o cs o1 total -> wf_claim cl ->
    sp_inputs (cl_spend cl) !! sp_index (cl_spend cl) = Some o1 ->
    unlocks (cl_spend cl) leaf [cl_preimage cl; le_bytes 8 (cl_credit cl); cl_sig cl] ->
    sp_outputs (cl_spend cl) !! sp_index (cl_spend cl) = Some o2 ->
    sp_outputs (cl_spend cl) !! S (sp_index (cl_spend cl)) = Some u ->
    amount_ok (le64_signed (snd (txo_value o2))) ->
    claims leaf o (cs ++ [cl]) o2 (total + le64_signed (snd (txo_value u))).

(** The CLAIM leaf of the output of a provider's balance. *)
Definition claim_leaf_of (ks : keyset) (point : list Z) (delay : Z) (cp : credit_params) (value : amount_sat_t) (leaf : list Z) : Prop :=
  (exists tree, credit_to_local_tree sha256 ripemd160 ks point delay cp value = Ret tree
     /\ leaf = nth CREDIT_LEAF_CLAIM (Tapscript.leaf tree) [])
  \/ (exists tree, credit_to_remote_tree sha256 (other_payment_key ks) delay cp value = Ret tree
     /\ leaf = nth CREDIT_REMOTE_LEAF_CLAIM (Tapscript.leaf tree) []).

Lemma finish_leaves leaves key tree : tap_tree2_finish sha256 leaves key = Ret tree -> Tapscript.leaf tree = leaves.
Proof using Type.
  unfold tap_tree2_finish. destruct leaves as [|l0 [|l1 rest]]; [done..|]. intros E. apply bind_Ret_inv in E as (root & _ & E).
  destruct (bip341_tweak key root); [|done]. by injection E as <-.
Qed.
Lemma claim_leaf_inv ks point delay cp value leaf : claim_leaf_of ks point delay cp value leaf ->
  exists b, credit_b cp value = Ret b /\ credit_leaf_claim (dtag cp) (cp_credit_key cp) b (holder_spk cp) = Ret leaf.
Proof using Type.
  intros [(tree & E & ->)|(tree & E & ->)]; [unfold credit_to_local_tree in E; apply bind_Ret_inv in E as (revoke & _ & E)|unfold credit_to_remote_tree in E];
    apply bind_Ret_inv in E as (b & Eb & E); apply bind_Ret_inv in E as (cl & Ec & E); apply finish_leaves in E as ->; by exists b.
Qed.

(** C18. Credit notes pay once: by whatever claims a provider's balance of
    [value] is spent, each with a note and a preimage of its own, the holder is
    paid in all the credit of the last note (less what is folded into its
    balance already), no earlier note was for more, and the rest of the balance
    stays in the output. *)
Theorem claims_pay_largest_note ks point delay cp value leaf o cs o' total :
  claim_leaf_of ks point delay cp value leaf -> length (dtag cp) = 32%nat -> is_key (cp_credit_key cp) ->
  0 <= satoshis (folded cp) -> 0 <= satoshis value -> satoshis value + satoshis (folded cp) < 2 ^ 63 ->
  txo_value o = (1, le8s (satoshis value)) -> claims leaf o cs o' total ->
  let b := satoshis value + satoshis (folded cp) in
  let c := default (satoshis (folded cp)) (last (cl_credit <$> cs)) in
  total = c - satoshis (folded cp) /\ txo_value o' = (1, le8s (b - c)) /\ 0 <= c <= b
  /\ txo_asset o' = txo_asset o /\ script_items sha256 (txo_script o') = script_items sha256 (txo_script o)
  /\ Forall (fun cl => cl_credit cl <= c
             /\ credit_note_check (dtag cp) (cp_credit_key cp) (cl_credit cl) (sha256 (cl_preimage cl)) (cl_sig cl) = true
             /\ exists u, sp_outputs (cl_spend cl) !! S (sp_index (cl_spend cl)) = Some u
                  /\ witness_of (txo_script u) = Some (0, drop 2 (holder_spk cp))) cs.
Proof.
  intros Hl Hd Hk Hf Hv Hsum Eo Hcs. cbv zeta. destruct (claim_leaf_inv _ _ _ _ _ _ Hl) as (b & Eb & El). clear Hl.
  assert (Hb : satoshis b = satoshis value + satoshis (folded cp)).
  { unfold credit_b in Eb. destruct (amount_sat_add value (folded cp)) as [b'|] eqn:E; [|done]. apply Ret_inj in Eb as ->.
    unfold amount_sat_add in E. destruct (add_overflows_u64 _ _); [done|]. injection E as <-. cbn. unfold wrap_u64. by rewrite Z.mod_small by lia. }
  rewrite <- Hb in *. induction Hcs as [o|o cs o1 total cl o2 u Hcs IH (Hi & Hc & Hx) Ein Hu Eo2 Eu Ho2].
  { cbn [fmap list_fmap last default]. repeat split; try done; try lia. rewrite Eo. do 2 f_equal. lia. }
  destruct (IH Eo) as (Et & E1 & Hpos & Ea & Es & Hall). clear IH. set (c := default _ _) in *.
  apply (claim_leaf_spends sha256 ripemd160 (cl_spend cl) Hi _ _ _ _ _ _ _ _ El Hd Hk Hsha) in Hu; [|unfold amount_ok; lia|done|done].
  destruct Hu as (_ & Hn & i & o3 & u' & v & Ei & Eo' & Eu' & Ev & Hv8 & (Hp1 & Hp2 & Hp3 & Huv) & Huw & _ & Hov & Hos & Hoa).
  assert (i = o1) as -> by congruence. assert (o3 = o2) as -> by congruence. assert (u' = u) as -> by congruence.
  rewrite E1 in Ev. injection Ev as <-. unfold amount_ok in *. rewrite le64_signed_le8s in * by lia.
  rewrite Hov in Ho2. cbn [snd] in Ho2. rewrite le64_signed_le8s in Ho2 by lia.
  rewrite fmap_app. change (cl_credit <$> [cl]) with [cl_credit cl]. rewrite last_snoc. cbn [default from_option id]. unfold id. rewrite Huv. cbn [snd]. rewrite le64_signed_le8s by (unfold fits in Hp3; lia).
  split; [lia|]. split; [done|]. split; [lia|]. split; [by rewrite Hoa|]. split; [by rewrite Hos|]. apply Forall_app. split; [|constructor; [split; [lia|split; [done|by exists u]]|done]].
  eapply Forall_impl; [exact Hall|]. intros x [Hle Hr]. cbv beta. split; [lia|done].
Qed.
End Chain.
