(* ===== verification/TcovSpend.v ===== *)
(** * Spending the outputs of a covenant commitment

    The trees of common/tcov_scripts.c, spent: what each leaf of an HTLC output
    asks for, that what the holder of a revoked commitment takes from it can
    still be taken from its hands, and the delay nobody can wait for. *)

From stdpp Require Import list.
From S2P Require Import Prelude Chainparams Amount HtlcState Wire CommitFee Features Script Keys Tapscript ChannelState Tx SymScripts Opening TcovScripts TapMachine SymState SymSpend TcovLeaves CreditLeaf.
Local Open Scope Z_scope.

Section Spend.
#[local] Set Default Proof Using "Type*".
Context (params : chainparams) (sha256 ripemd160 : list Z -> list Z) `{!Digest sha256 32, !Digest ripemd160 20}.
Context `{!Taproot, !TweakLaws _, !Machine, !MachineLaws sha256}.
Context `{!Secp256k1, !TxSignatures, !CovenantLaws sha256 ripemd160}.

(** The keys the leaves name are compressed keys. *)
Definition wf_keys (ks : keyset) : Prop :=
  is_key (self_htlc_key ks) /\ is_key (other_htlc_key ks) /\ is_key (self_delayed_payment_key ks)
  /\ is_key (other_payment_key ks) /\ is_key (self_revocation_key ks).

(** An HTLC output of the commitment of the side that offered it, or received it. *)
Definition htlc_tree (offered : bool) :=
  if offered then tcov_offered_htlc_tree params sha256 ripemd160 else tcov_received_htlc_tree params sha256 ripemd160.

Lemma program_length leaves key tree : tap_tree2_finish sha256 leaves key = Ret tree -> length (tap_tree2_program tree) = 32%nat.
Proof using TweakLaws0.
  unfold tap_tree2_finish. destruct leaves as [|l0 [|l1 rest]]; [done..|]. intros E. apply bind_Ret_inv in E as (root & _ & E).
  destruct (bip341_tweak key root) as [der|] eqn:Et; [|done]. injection E as <-. unfold tap_tree2_program. cbn [output_der].
  by rewrite length_drop, (tweak_length _ _ _ Et).
Qed.
Lemma to_local_tree_inv ks point delay d : tcov_to_local_tree sha256 ripemd160 ks point delay = Ret d ->
  exists revoke, tcov_leaf_revoke point (tcov_revoke_dest sha256 ripemd160 ks) = Ret revoke
    /\ leaf d = [tcov_leaf_delay (self_delayed_payment_key ks) delay; revoke]
    /\ tap_tree2_finish sha256 [tcov_leaf_delay (self_delayed_payment_key ks) delay; revoke] (self_revocation_key ks) = Ret d.
Proof using Type.
  unfold tcov_to_local_tree. intros E. apply bind_Ret_inv in E as (revoke & Er & E). exists revoke. split; [done|]. split; [|done].
  by apply (finish_leaves sha256 _ _ _ E).
Qed.

(** The leaves of an HTLC's tree: the holder's first. *)
Definition holder_leaf (offered : bool) (ks : keyset) (ripemd : list Z) (lock : option (list Z)) (expiry : Z) (asset_id : list Z)
    (x : amount_sat_t) (prog : list Z) : list Z :=
  if offered then tcov_leaf_offered_timeout (self_htlc_key ks) expiry asset_id x prog
  else received_success lock ripemd (self_htlc_key ks) asset_id x prog.
Definition other_leaf (offered : bool) (ks : keyset) (ripemd : list Z) (lock : option (list Z)) (expiry : Z) : list Z :=
  if offered then offered_success lock ripemd (other_htlc_key ks) else tcov_leaf_received_timeout (other_htlc_key ks) expiry.
Lemma htlc_tree_inv offered ks point delay tag ripemd lock expiry x d tree :
  tcov_to_local_tree sha256 ripemd160 ks point delay = Ret d ->
  htlc_tree offered ks point delay (Some tag) ripemd lock expiry x = Ret tree ->
  leaf tree = [holder_leaf offered ks ripemd lock expiry (drop 1 tag) x (tap_tree2_program d); other_leaf offered ks ripemd lock expiry].
Proof using Type.
  intros Ed Et. destruct offered; cbn [htlc_tree] in Et; unfold tcov_offered_htlc_tree, tcov_received_htlc_tree in Et; rewrite Ed in Et; cbn [mbind outcome_bind] in Et;
    unfold tcov_asset_id in Et; (destruct (byte tag 0 =? 1); [|done]); cbn [assert_then mbind outcome_bind] in Et;
    apply (finish_leaves sha256) in Et as ->; by destruct lock.
Qed.

(** What a covenant output is spent with. *)
Record wf_htlc (tag ripemd : list Z) (lock : option (list Z)) (expiry : Z) (x : amount_sat_t) (r : list Z) : Prop := {
  wf_tag_length : length tag = 33%nat;
  wf_locked : wf_lock lock ripemd;
  wf_expiry : in_u32 expiry;
  wf_amount : amount_ok (satoshis x);
  wf_shown : (length r <= MAX_SCRIPT_ELEMENT_SIZE)%nat;
}.

(** C16. What each leaf of an HTLC output of a covenant commitment asks for.
    The holder takes an HTLC it offered after its expiry, with a signature, and
    one it received with the preimage or the scalar of its lock and a
    signature, and either way only into the delayed output D, whole.  The other
    side takes an HTLC offered to it with what opens its lock, and gets back
    one it offered after its expiry, with a signature of its own. *)
Theorem htlc_outputs_spend ctx offered ks point delay tag ripemd lock expiry x d tree sig r :
  Z.of_nat (sp_index ctx) < 2 ^ 32 -> wf_keys ks -> wf_htlc tag ripemd lock expiry x r ->
  tcov_to_local_tree sha256 ripemd160 ks point delay = Ret d ->
  htlc_tree offered ks point delay (Some tag) ripemd lock expiry x = Ret tree ->
  (unlocks ctx (nth 0 (leaf tree) []) (if offered then [sig] else [r; sig])
   <-> (if offered then locktime_reached ctx expiry else opens_lock sha256 ripemd160 lock ripemd r) = true
       /\ signed_by ctx (self_htlc_key ks) sig = true /\ covers ctx (drop 1 tag) x (tap_tree2_program d))
  /\ (unlocks ctx (nth 1 (leaf tree) []) (if offered then [r; sig] else [sig])
   <-> (if offered then opens_lock sha256 ripemd160 lock ripemd r = true else locktime_reached ctx expiry = true /\ expiry <> 0)
       /\ signed_by ctx (other_htlc_key ks) sig = true).
Proof.
  intros Hi (Hk & Hk' & _) [Ht Hl He Hx Hr] Ed Et. rewrite (htlc_tree_inv _ _ _ _ _ _ _ _ _ _ _ Ed Et). cbn [nth].
  destruct (to_local_tree_inv _ _ _ _ Ed) as (revoke & _ & _ & Ef). apply program_length in Ef.
  assert (Ha : length (drop 1 tag) = 32%nat) by (rewrite length_drop; lia). unfold holder_leaf, other_leaf. destruct offered.
  - rewrite (offered_timeout_spends sha256 ripemd160 ctx Hi), (offered_success_spends sha256 ripemd160 ctx Hi) by done. tauto.
  - rewrite (received_success_spends sha256 ripemd160 ctx Hi), (received_timeout_spends sha256 ripemd160 ctx Hi) by done. tauto.
Qed.

(** ** A commitment that was revoked *)

(** A transaction moves the output [o] whole to a script. *)
Definition moves_whole (ctx : spend) (o : txo) (spk : list Z) : Prop :=
  Z.of_nat (sp_index ctx) < 2 ^ 32 /\ sp_inputs ctx !! sp_index ctx = Some o
  /\ exists out, sp_outputs ctx !! sp_index ctx = Some out
       /\ txo_asset out = txo_asset o /\ txo_value out = txo_value o /\ txo_script out = spk.

Lemma dest_witness ks : exists prog, witness_of (tcov_revoke_dest sha256 ripemd160 ks) = Some (0, prog).
Proof using Digest0 Digest1.
  unfold tcov_revoke_dest. rewrite (p2wpkh_shape sha256 ripemd160). exists (pubkey_to_hash160 sha256 ripemd160 (other_payment_key ks)).
  assert (Hl : length (pubkey_to_hash160 sha256 ripemd160 (other_payment_key ks)) = 20%nat) by apply digest_length.
  rewrite <- (witness_of_v0 (pubkey_to_hash160 sha256 ripemd160 (other_payment_key ks))) by lia. unfold v0_spk. by rewrite Hl.
Qed.
Lemma v1_script spk prog : witness_of spk = Some (1, prog) -> length prog = 32%nat -> spk = OP_1 :: 32 :: prog.
Proof using Type.
  intros Hw Hp. destruct (witness_of_inv _ _ _ Hw) as (_ & E0 & Ed & _). unfold witness_of in Hw. destruct (_ && _) eqn:E in Hw; [|done].
  rewrite !andb_true_iff, !Nat.leb_le, Z.eqb_eq in E. destruct E as [[[E1 _] E2] _]. destruct spk as [|a [|b spk]]; [cbn in E1; lia..|].
  cbn [drop] in Ed. rewrite drop_0 in Ed. subst spk. cbn in E0, E2. subst a. f_equal. f_equal. rewrite E2. cbn [length Nat.sub]. by rewrite Nat.sub_0_r, Hp.
Qed.
Lemma worth_self v x : worth v x = true -> exists body, v = (1, body) /\ length body = 8%nat /\ worth v (le64_signed body) = true.
Proof using Type.
  unfold worth. rewrite !andb_true_iff, Z.eqb_eq, Nat.eqb_eq. intros [[E1 E2] _]. destruct v as [p body]. cbn in *. subst p.
  exists body. rewrite E2. repeat split; try done. by rewrite Z.leb_refl.
Qed.

(** C17. What the holder of a revoked commitment takes can be taken from it: by
    whatever spend the holder claims an HTLC output with its own leaf, the
    spend has an output at the input's index of the channel's asset and at
    least the HTLC's value that pays D; and the per-commitment secret alone,
    with no signature, lets any transaction move D whole to the static script
    of the other side, by a leaf whose control block opens D. *)
Theorem claim_stays_punishable ctx offered ks point delay tag ripemd lock expiry x d tree sig r secret :
  Z.of_nat (sp_index ctx) < 2 ^ 32 -> wf_keys ks -> is_key point -> wf_htlc tag ripemd lock expiry x r ->
  tcov_to_local_tree sha256 ripemd160 ks point delay = Ret d ->
  htlc_tree offered ks point delay (Some tag) ripemd lock expiry x = Ret tree ->
  length secret = 32%nat -> ec_pubkey_create secret = Some point ->
  unlocks ctx (nth 0 (leaf tree) []) (if offered then [sig] else [r; sig]) ->
  exists o, sp_outputs ctx !! sp_index ctx = Some o /\ txo_asset o = (1, drop 1 tag) /\ worth (txo_value o) (satoshis x) = true
    /\ txo_script o = tap_tree2_scriptpubkey d
    /\ (forall ctx', moves_whole ctx' o (tcov_revoke_dest sha256 ripemd160 ks) ->
          unlocks ctx' (nth TCOV_LEAF_REVOKE (leaf d) []) [secret])
    /\ exists cb, tap_tree2_control_block d TCOV_LEAF_REVOKE = Ret cb
         /\ opens sha256 bip341_tweak (tap_tree2_program d) (nth TCOV_LEAF_REVOKE (leaf d) []) cb.
Proof.
  intros Hi Hks Hp Hwf Ed Et Hs Es Hu. rewrite (htlc_tree_inv _ _ _ _ _ _ _ _ _ _ _ Ed Et) in Hu. cbn [nth] in Hu.
  destruct (to_local_tree_inv _ _ _ _ Ed) as (revoke & Er & El & Ef). pose proof (program_length _ _ _ Ef) as Hprog.
  assert (Hc : covers ctx (drop 1 tag) x (tap_tree2_program d)).
  { destruct Hks as (Hk & _), Hwf as [Ht Hl He Hx Hr]. assert (Ha : length (drop 1 tag) = 32%nat) by (rewrite length_drop; lia).
    unfold holder_leaf in Hu. destruct offered; [apply (offered_timeout_spends sha256 ripemd160 ctx Hi) in Hu; try done|
      apply (received_success_spends sha256 ripemd160 ctx Hi) in Hu; try done]; by destruct Hu as (_ & _ & ?). }
  destruct Hc as (o & Eo & Ea & Hw & Hv). exists o. split; [done|]. split; [done|]. split; [done|]. split; [by apply v1_script|].
  rewrite El. split.
  - intros ctx' (Hi' & Ein & out & Eout & Ea' & Ev' & Es'). destruct (dest_witness ks) as (prog & Hprog').
    apply (revoke_leaf_spends sha256 ripemd160 ctx' Hi' _ _ _ _ _ _ Er Hp Hprog'). split; [unfold opens_point; by rewrite Hs, Es, bool_decide_true|].
    destruct (worth_self _ _ Hw) as (body & Eb & Hb & Hself). exists o, out, (drop 1 tag), body. rewrite Ea', Ev', Es', Ea, Eb. by rewrite Eb in Hself.
  - destruct (tap_tree2_control_block d TCOV_LEAF_REVOKE) as [cb|] eqn:Ecb.
    + exists cb. split; [done|]. rewrite <- El, (finish_leaves sha256 _ _ _ Ef). apply (control_block_opens sha256 _ _ _ _ _ ltac:(apply Hks) Ef Ecb).
    + unfold tap_tree2_control_block in Ecb. by rewrite El in Ecb.
Qed.

(** ** A delay of nothing *)

(** C32. A peer can lock the funds of a covenant channel: it may ask for a
    [to_self_delay] of 0, which [check_config_bounds] accepts of a peer it
    would accept otherwise; and the DELAY leaf of the outputs built with it,
    which leaves the delay on the stack, accepts no transaction whatever, so
    that their owner can never spend them. *)
Theorem zero_delay_locks_funds funding feerate max_delay capacity remote loc anchors ks point d :
  0 <= max_delay -> check_config_bounds params funding feerate max_delay capacity remote loc anchors = Ret None ->
  is_key (self_delayed_payment_key ks) -> tcov_to_local_tree sha256 ripemd160 ks point 0 = Ret d ->
  check_config_bounds params funding feerate max_delay capacity (with_delay 0 remote) loc anchors = Ret None
  /\ forall ctx sig, Z.of_nat (sp_index ctx) < 2 ^ 32 -> ~ unlocks ctx (nth TCOV_LEAF_DELAY (leaf d) []) [sig].
Proof.
  intros Hm Hb Hk Ed. split.
  - unfold check_config_bounds in *. cbn [to_self_delay with_delay]. rewrite (proj2 (Z.ltb_ge max_delay 0)) by done.
    by destruct (max_delay <? to_self_delay remote).
  - intros ctx sig Hi Hu. destruct (to_local_tree_inv _ _ _ _ Ed) as (revoke & _ & El & _). rewrite El in Hu.
    apply (delay_leaf_spends sha256 ripemd160 ctx Hi) in Hu; [tauto|done|lia].
Qed.
End Spend.
