(* ===== verification/Channel.v ===== *)
(** * Channel operations (channeld/full_channel.c, channeld/full_channel_error.h,
    the trimming helpers of channeld/commit_tx.c)

    [struct balance] is an [s64]: a [u64] amount added to it or taken from it
    wraps, as in C.  A result out-parameter written on some paths only is part
    of the result.  [status_failed], a failed assertion and an index out of
    range are [Crash].  Debug output is left out. *)

From stdpp Require Import list.
From S2P Require Import Prelude Chainparams Amount HtlcState FeeStates CommitFee Features ChannelState.
Local Open Scope Z_scope.

Inductive channel_add_err :=
| CHANNEL_ERR_ADD_OK
| CHANNEL_ERR_INVALID_EXPIRY
| CHANNEL_ERR_DUPLICATE
| CHANNEL_ERR_DUPLICATE_ID_DIFFERENT
| CHANNEL_ERR_MAX_HTLC_VALUE_EXCEEDED
| CHANNEL_ERR_CHANNEL_CAPACITY_EXCEEDED
| CHANNEL_ERR_HTLC_BELOW_MINIMUM
| CHANNEL_ERR_TOO_MANY_HTLCS
| CHANNEL_ERR_DUST_FAILURE.

Inductive channel_remove_err :=
| CHANNEL_ERR_REMOVE_OK
| CHANNEL_ERR_NO_SUCH_ID
| CHANNEL_ERR_ALREADY_FULFILLED
| CHANNEL_ERR_BAD_PREIMAGE
| CHANNEL_ERR_HTLC_UNCOMMITTED
| CHANNEL_ERR_HTLC_NOT_IRREVOCABLE.

#[export] Instance channel_add_err_eq_dec : EqDecision channel_add_err.
Proof. solve_decision. Defined.
#[export] Instance channel_remove_err_eq_dec : EqDecision channel_remove_err.
Proof. solve_decision. Defined.

(** ** Balances *)

Definition to_balance (msat : amount_msat_t) : outcome Z :=
  let b := wrap_s64 (millisatoshis msat) in assert_then (0 <=? b) (Ret b).

Definition balance_add_htlc (balance : Z) (h : htlc) (s : side) : Z :=
  if bool_decide (htlc_owner h = s) then wrap_s64 (balance - millisatoshis (h_amount h)) else balance.

Definition balance_remove_htlc (balance : Z) (h : htlc) (s : side) : Z :=
  let paid_to := match h_r h with Some _ => other (htlc_owner h) | None => htlc_owner h end in
  if bool_decide (s = paid_to) then wrap_s64 (balance + millisatoshis (h_amount h)) else balance.

Definition balance_ok (balance : Z) : option amount_msat_t :=
  if balance <? 0 then None else Some (amount_msat balance).

(** The balances of every lane in one view: lane 0's first. *)
Abbreviation balances := (list (sides Z)).

(** Add [z] to the balance of [s] in lane [lane]. *)
Definition move_balance (lane : nat) (s : side) (z : Z) (b : balances) : balances :=
  alter (fun p => upd s (wrap_s64 (p.[s] + z)) p) lane b.

Definition balance_swap (swap : sym_swap) (b : balances) : outcome balances :=
  let owner := htlc_state_owner (swap_state swap) in
  let give := millisatoshis (swap_give swap) in
  let take := millisatoshis (swap_take swap) in
  assert_then ((give_lane swap <? length b)%nat && (take_lane swap <? length b)%nat)
    (Ret (move_balance (take_lane swap) owner take
            (move_balance (take_lane swap) (other owner) (- take)
               (move_balance (give_lane swap) (other owner) give
                  (move_balance (give_lane swap) owner (- give) b))))).

(** What [payer] promised in [lane] to one swap [v] has not committed yet. *)
Definition promised_by (v : side) (lane : nat) (payer : side) (total : amount_msat_t)
    (swap : option sym_swap) : outcome amount_msat_t :=
  match swap with
  | None => Ret total
  | Some s =>
      if state_has (swap_state s) (HTLC_FLAG v HTLC_F_COMMITTED) then Ret total
      else
        let owner := htlc_state_owner (swap_state s) in
        total ← (if bool_decide (owner = payer) && (give_lane s =? lane)%nat then
                   match amount_msat_accumulate total (swap_give s) with
                   | None => Crash
                   | Some t => Ret t
                   end
                 else Ret total);
        if bool_decide (owner <> payer) && (take_lane s =? lane)%nat then
          match amount_msat_accumulate total (swap_take s) with
          | None => Crash
          | Some t => Ret t
          end
        else Ret total
  end.

Definition swap_promised (c : channel) (v : side) (lane : nat) (payer : side)
  : outcome amount_msat_t :=
  total ← promised_by v lane payer (mk_msat 0) (chan_sym_swap c);
  promised_by v lane payer total (sym_swap_req c).

(** ** HTLCs of a view *)

Record gathered := mk_gathered {
  committed : list htlc;
  removing : list htlc;
  adding : list htlc;
  num_other_side : Z;
}.

Definition is_committed (s : side) (h : htlc) : bool := htlc_has h (HTLC_FLAG s HTLC_F_COMMITTED).
Definition is_pending (s : side) (h : htlc) : bool := htlc_has h (HTLC_FLAG s HTLC_F_PENDING).

(** [lane] is [None] for every lane ([-1]). *)
Definition in_lane (lane : option nat) (h : htlc) : bool :=
  match lane with None => true | Some n => (h_lane h =? n)%nat end.

Definition gather_lane_htlcs (c : channel) (s : side) (lane : option nat) : gathered :=
  let l := filter (fun h => in_lane lane h = true) (the_htlcs c) in
  mk_gathered
    (filter (fun h => is_committed s h = true) l)
    (filter (fun h => is_committed s h && is_pending s h = true) l)
    (filter (fun h => negb (is_committed s h) && is_pending s h = true) l)
    (Z.of_nat (length (filter (fun h => xorb (is_committed s h) (is_pending s h)
                                        && bool_decide (htlc_owner h <> s) = true) l))).

Definition gather_htlcs (c : channel) (s : side) : gathered := gather_lane_htlcs c s (Some 0%nat).

Definition channel_committed_htlcs (c : channel) (s : side) : list htlc :=
  committed (gather_lane_htlcs c s None).

Fixpoint sum_offered (total : amount_msat_t) (l : list htlc) (s : side) : option amount_msat_t :=
  match l with
  | [] => Some total
  | h :: l =>
      if bool_decide (htlc_owner h = s) then
        match amount_msat_accumulate total (h_amount h) with
        | None => None
        | Some total => sum_offered total l s
        end
      else sum_offered total l s
  end.

Definition sum_offered_msatoshis (l : list htlc) (s : side) : option amount_msat_t :=
  sum_offered (mk_msat 0) l s.

Section Ops.
(** The network's parameters; SHA256; whether a scalar opens a point
    (common/point_lock.c over libsecp256k1). *)
Context (params : chainparams) (sha256 : list Z -> list Z) (point_lock_opens : list Z -> list Z -> bool).

Definition trim (h : htlc) (feerate_per_kw : Z) (dust_limit : amount_sat_t)
    (option_anchor_outputs option_anchors_zero_fee_htlc_tx : bool) (s : side) : outcome bool :=
  htlc_is_trimmed params (htlc_owner h) (h_amount h) feerate_per_kw dust_limit s
    option_anchor_outputs option_anchors_zero_fee_htlc_tx.

Fixpoint commit_tx_num_untrimmed (l : list htlc) (feerate_per_kw : Z) (dust_limit : amount_sat_t)
    (ao az : bool) (s : side) : outcome Z :=
  match l with
  | [] => Ret 0
  | h :: l =>
      t ← trim h feerate_per_kw dust_limit ao az s;
      n ← commit_tx_num_untrimmed l feerate_per_kw dust_limit ao az s;
      Ret ((if (t : bool) then 0 else 1) + n)
  end.

(** The result and [*amt], which holds what was added before a failure. *)
Fixpoint commit_tx_amount_trimmed (l : list htlc) (feerate_per_kw : Z) (dust_limit : amount_sat_t)
    (ao az : bool) (s : side) (amt : amount_msat_t) : outcome (bool * amount_msat_t) :=
  match l with
  | [] => Ret (true, amt)
  | h :: l =>
      t ← trim h feerate_per_kw dust_limit ao az s;
      if (t : bool) then
        match amount_msat_accumulate amt (h_amount h) with
        | None => Ret (false, amt)
        | Some amt => commit_tx_amount_trimmed l feerate_per_kw dust_limit ao az s amt
        end
      else commit_tx_amount_trimmed l feerate_per_kw dust_limit ao az s amt
  end.

Definition num_untrimmed_htlcs (s : side) (dust_limit : amount_sat_t) (feerate : Z) (ao az : bool)
    (g : gathered) : outcome Z :=
  a ← commit_tx_num_untrimmed (committed g) feerate dust_limit ao az s;
  b ← commit_tx_num_untrimmed (adding g) feerate dust_limit ao az s;
  r ← commit_tx_num_untrimmed (removing g) feerate dust_limit ao az s;
  Ret (wrap_u64 (a + b - r)).

Definition has_anchor_outputs (c : channel) : bool := channel_has c OPT_ANCHOR_OUTPUTS_DEPRECATED.
Definition has_zero_fee_anchors (c : channel) : bool := channel_has c OPT_ANCHORS_ZERO_FEE_HTLC_TX.

Definition fee_for_htlcs (c : channel) (g : gathered) (s : side) : outcome amount_sat_t :=
  feerate ← channel_feerate c s;
  let ao := has_anchor_outputs c in
  let az := has_zero_fee_anchors c in
  untrimmed ← num_untrimmed_htlcs s (conf_dust_limit (config c).[s]) feerate ao az g;
  commit_tx_base_fee params feerate untrimmed ao az.

(** The result and [*trim_total]. *)
Definition htlc_dust (c : channel) (g : gathered) (s : side) (feerate : Z) (trim_total : amount_msat_t)
  : outcome (bool * amount_msat_t) :=
  let dust_limit := conf_dust_limit (config c).[s] in
  let ao := has_anchor_outputs c in
  let az := has_zero_fee_anchors c in
  '(ok, trim_total) ← commit_tx_amount_trimmed (committed g) feerate dust_limit ao az s trim_total;
  if negb ok then Ret (false, trim_total) else
  '(ok, trim_total) ← commit_tx_amount_trimmed (adding g) feerate dust_limit ao az s trim_total;
  if negb ok then Ret (false, trim_total) else
  '(ok, trim_rmvd) ← commit_tx_amount_trimmed (removing g) feerate dust_limit ao az s (mk_msat 0);
  if negb ok then Ret (false, trim_total) else
  match amount_msat_deduct trim_total trim_rmvd with
  | None => Ret (false, trim_total)
  | Some t => Ret (true, t)
  end.

(** What is left of [s]'s balance above its reserve, in the view of [v]. *)
Definition get_room_above_reserve (c : channel) (v : side) (adding removing : list htlc) (s : side)
  : outcome (option amount_msat_t) :=
  reserve ← channel_reserve_of c s;
  let vw := (view c).[v] in
  let splice := amount_sat (wrap_u64 (- (lowest_splice_amnt vw).[s])) in
  let owed := (owed vw).[s] in
  if amount_msat_less_eq_sat owed splice then Ret None else
  match amount_msat_sub_sat owed splice with
  | None => Ret None
  | Some owed =>
      balance ← to_balance owed;
      let balance := fold_left (fun b h => balance_remove_htlc b h s) removing balance in
      let balance := fold_left (fun b h => balance_add_htlc b h s) adding balance in
      promised ← swap_promised c v 0 s;
      let balance := wrap_s64 (balance - millisatoshis promised) in
      match balance_ok balance with
      | None => Ret None
      | Some remainder => Ret (amount_msat_deduct_sat remainder reserve)
      end
  end.

Definition local_opener_has_fee_headroom (c : channel) (remainder : amount_msat_t) (g : gathered)
  : outcome bool :=
  feerate ← channel_feerate c LOCAL;
  let ao := has_anchor_outputs c in
  let az := has_zero_fee_anchors c in
  assert_then (bool_decide (opener c = LOCAL))
    (untrimmed ← num_untrimmed_htlcs LOCAL (conf_dust_limit (config c).[LOCAL]) feerate ao az g;
     marginal ← marginal_feerate feerate;
     fee ← commit_tx_base_fee params marginal (wrap_u64 (untrimmed + 1)) ao az;
     Ret (amount_msat_greater_eq_sat remainder fee)).

Definition lane_room (c : channel) (recipient : side) (lane : nat) (adding removing : list htlc)
    (sender : side) : outcome bool :=
  owed ← sym_lane_owed c lane recipient sender;
  balance ← to_balance owed;
  let balance := fold_left (fun b h => balance_remove_htlc b h sender) removing balance in
  let balance := fold_left (fun b h => balance_add_htlc b h sender) adding balance in
  promised ← swap_promised c recipient lane sender;
  let balance := wrap_s64 (balance - millisatoshis promised) in
  Ret (match balance_ok balance with None => false | Some _ => true end).

(** ** Adding an HTLC *)

Record add_result := mk_add {
  add_err : channel_add_err;
  add_chan : channel;
  add_htlcp : option htlc;
  add_htlc_fee : option amount_sat_t;
}.

Definition new_htlc (state : htlc_state) (id : Z) (amount : amount_msat_t) (cltv_expiry : Z)
    (payment_hash routing : list Z) (path_key : option (list Z))
    (extra_tlvs : option (list (Z * list Z))) (lane : nat) : htlc :=
  mk_htlc state id amount cltv_expiry payment_hash None None lane None routing path_key
    (match extra_tlvs with Some (_ :: _) => extra_tlvs | _ => None end) false.

(** The opener must afford both commitments' fees with what [remainder] the
    recipient's view leaves it: the second half of the aggregate checks, made
    when this node adds the HTLC. *)
Definition add_opener_checks (c : channel) (g : gathered) (sender : side) (htlc_fee : amount_sat_t)
  : outcome (bool * amount_sat_t) :=
  room ← get_room_above_reserve c (other sender) (adding g) (removing g) (opener c);
  match room with
  | None => Ret (false, htlc_fee)
  | Some remainder =>
      match (if (has_anchor_outputs c || has_zero_fee_anchors c) && bool_decide (opener c <> sender)
             then amount_msat_deduct_sat remainder (mk_sat 660) else Some remainder) with
      | None => Ret (false, htlc_fee)
      | Some remainder =>
          fee ← fee_for_htlcs c g (opener c);
          let htlc_fee := if amount_sat_greater fee htlc_fee then fee else htlc_fee in
          if amount_msat_less_sat remainder fee then Ret (false, htlc_fee) else
          fee ← fee_for_htlcs c g (other (opener c));
          let htlc_fee := if amount_sat_greater fee htlc_fee then fee else htlc_fee in
          if amount_msat_less_sat remainder fee then Ret (false, htlc_fee) else Ret (true, htlc_fee)
      end
  end.

(** Whether [sender] can afford the HTLC, and [*htlc_fee]. *)
Definition add_afford_checks (c : channel) (g : gathered) (sender : side)
  : outcome (bool * amount_sat_t) :=
  let recipient := other sender in
  fee ← fee_for_htlcs c g recipient;
  room ← get_room_above_reserve c recipient (adding g) (removing g) sender;
  match room with
  | None => Ret (false, fee)
  | Some remainder =>
      match (if (has_anchor_outputs c || has_zero_fee_anchors c) && bool_decide (opener c = sender)
             then amount_msat_deduct_sat remainder (mk_sat 660) else Some remainder) with
      | None => Ret (false, fee)
      | Some remainder =>
          ok ← (if bool_decide (opener c = sender) then
                  if amount_msat_less_sat remainder fee then Ret false
                  else if bool_decide (sender = LOCAL)
                  then local_opener_has_fee_headroom c remainder g else Ret true
                else Ret true);
          if negb ok then Ret (false, fee)
          else if bool_decide (sender = LOCAL) then add_opener_checks c g sender fee
          else Ret (true, fee)
      end
  end.

(** The dust on [s]'s commitment at the buffered feerate: whether it exceeds the
    limit, [None] when it cannot be counted. *)
Definition add_dust_exceeds (c : channel) (g : gathered) (s : side) : outcome (option bool) :=
  feerate ← channel_feerate c s;
  '(ok, htlc_dust_amt) ← htlc_dust c g s (htlc_trim_feerate_ceiling feerate) (mk_msat 0);
  Ret (if (ok : bool)
       then Some (amount_msat_greater htlc_dust_amt (max_dust_htlc_exposure_msat (config c).[LOCAL]))
       else None).

(** Both sides' dust: the error, or whether to fail the HTLC once committed. *)
Definition add_dust_checks (c : channel) (g : gathered) (sender : side) (err_immediate_failures : bool)
  : outcome (channel_add_err + bool) :=
  r ← add_dust_exceeds c g (other sender);
  match r with
  | None => Ret (inl CHANNEL_ERR_CHANNEL_CAPACITY_EXCEEDED)
  | Some over =>
      if over && err_immediate_failures then Ret (inl CHANNEL_ERR_DUST_FAILURE) else
      s ← add_dust_exceeds c g sender;
      match s with
      | None => Ret (inl CHANNEL_ERR_CHANNEL_CAPACITY_EXCEEDED)
      | Some over' =>
          if over' && err_immediate_failures then Ret (inl CHANNEL_ERR_DUST_FAILURE)
          else Ret (inr (over || over'))
      end
  end.

(** What the HTLCs of [sender] in the recipient's commitment come to. *)
Definition add_in_flight (g : gathered) (sender : side) : option amount_msat_t :=
  match sum_offered_msatoshis (committed g) sender, sum_offered_msatoshis (removing g) sender,
        sum_offered_msatoshis (adding g) sender with
  | Some committed_msat, Some removing_msat, Some adding_msat =>
      match amount_msat_add committed_msat adding_msat with
      | Some total => amount_msat_sub total removing_msat
      | None => None
      end
  | _, _, _ => None
  end.

(** Once the checks are passed: into the table. *)
Definition add_to_map (c : channel) (l : list htlc) (h : htlc) (fee : option amount_sat_t) : add_result :=
  mk_add CHANNEL_ERR_ADD_OK (set_htlcs (Some (h :: l)) c) (Some h) fee.

(** An HTLC of the channel's own lane, after the limits on counts. *)
Definition add_own_lane (c : channel) (l : list htlc) (h : htlc) (g : gathered) (sender : side)
    (enforce_aggregate_limits err_immediate_failures : bool) : outcome add_result :=
  let fail e fee := Ret (mk_add e c None fee) in
  match add_in_flight g sender with
  | None => fail CHANNEL_ERR_MAX_HTLC_VALUE_EXCEEDED None
  | Some msat_in_htlcs =>
      if enforce_aggregate_limits
         && amount_msat_greater msat_in_htlcs (max_htlc_value_in_flight (config c).[other sender])
      then fail CHANNEL_ERR_MAX_HTLC_VALUE_EXCEEDED None
      else
        r ← (if enforce_aggregate_limits
             then '(ok, fee) ← add_afford_checks c g sender; Ret ((ok : bool), Some fee)
             else Ret (true, None));
        let '(ok, fee) := r in
        if negb ok then fail CHANNEL_ERR_CHANNEL_CAPACITY_EXCEEDED fee else
        d ← add_dust_checks c g sender err_immediate_failures;
        match d with
        | inl e => fail e fee
        | inr immediate => Ret (add_to_map c l (set_h_fail_immediate immediate h) fee)
        end
  end.

Definition SECONDS_POINT := 500000000.

(** [None] when [blocks] is no block height. *)
Definition blocks_to_abs_locktime (blocks : Z) : option Z :=
  if SECONDS_POINT <=? blocks then None else Some blocks.
Definition abs_locktime_to_blocks (locktime : Z) : outcome Z :=
  assert_then (locktime <? SECONDS_POINT) (Ret locktime).

Definition add_htlc (c : channel) (state : htlc_state) (id : Z) (amount : amount_msat_t)
    (cltv_expiry : Z) (payment_hash routing : list Z) (path_key : option (list Z))
    (enforce_aggregate_limits : bool) (extra_tlvs : option (list (Z * list Z)))
    (err_immediate_failures : bool) (lane : nat) : outcome add_result :=
  let sender := htlc_state_owner state in
  let recipient := other sender in
  let fail e := Ret (mk_add e c None None) in
  if (sym_num_lanes c <=? lane)%nat then fail CHANNEL_ERR_CHANNEL_CAPACITY_EXCEEDED else
  match blocks_to_abs_locktime cltv_expiry with
  | None => fail CHANNEL_ERR_INVALID_EXPIRY
  | Some expiry =>
      let h := new_htlc state id amount expiry payment_hash routing path_key extra_tlvs lane in
      match htlcs c with
      | None => Crash
      | Some l =>
          match htlc_get l id sender with
          | Some old =>
              if negb (bool_decide (h_state old = state)) || negb (amount_msat_eq (h_amount old) amount)
                 || negb (h_expiry old =? expiry) || negb (bool_decide (h_rhash old = payment_hash))
              then fail CHANNEL_ERR_DUPLICATE_ID_DIFFERENT
              else fail CHANNEL_ERR_DUPLICATE
          | None =>
              if amount_msat_is_zero amount then fail CHANNEL_ERR_HTLC_BELOW_MINIMUM else
              if amount_msat_less amount (htlc_minimum (config c).[recipient])
              then fail CHANNEL_ERR_HTLC_BELOW_MINIMUM else
              if bool_decide (sender = LOCAL) && amount_msat_greater amount (max_payment params)
                 && negb (option_wumbo c)
              then fail CHANNEL_ERR_MAX_HTLC_VALUE_EXCEEDED else
              let htlc_count := num_other_side (gather_lane_htlcs c recipient None) in
              let g := gather_lane_htlcs c recipient (Some lane) in
              let g := mk_gathered (committed g) (removing g) (adding g ++ [h]) (num_other_side g) in
              if max_accepted_htlcs (config c).[recipient] <? htlc_count + 1
              then fail CHANNEL_ERR_TOO_MANY_HTLCS else
              if enforce_aggregate_limits && bool_decide (sender = LOCAL)
                 && (max_accepted_htlcs (config c).[LOCAL] <? htlc_count + 1)
              then fail CHANNEL_ERR_TOO_MANY_HTLCS else
              if negb (lane =? 0)%nat then
                room ← (if enforce_aggregate_limits
                        then lane_room c recipient lane (adding g) (removing g) sender else Ret true);
                if (room : bool) then Ret (add_to_map c l h None)
                else fail CHANNEL_ERR_CHANNEL_CAPACITY_EXCEEDED
              else add_own_lane c l h g sender enforce_aggregate_limits err_immediate_failures
          end
      end
  end.

Definition channel_add_htlc (c : channel) (sender : side) (id : Z) (amount : amount_msat_t)
    (cltv_expiry : Z) (payment_hash routing : list Z) (path_key : option (list Z))
    (extra_tlvs : option (list (Z * list Z))) (err_immediate_failures : bool) : outcome add_result :=
  let state := if bool_decide (sender = LOCAL) then SENT_ADD_HTLC else RCVD_ADD_HTLC in
  add_htlc c state id amount cltv_expiry payment_hash routing path_key true extra_tlvs
    err_immediate_failures 0.

Definition channel_add_lane_htlc (c : channel) (sender : side) (id : Z) (amount : amount_msat_t)
    (cltv_expiry : Z) (payment_hash routing : list Z) (path_key : option (list Z))
    (extra_tlvs : option (list (Z * list Z))) (err_immediate_failures : bool) (lane : nat)
  : outcome add_result :=
  add_htlc c (if bool_decide (sender = LOCAL) then SENT_ADD_HTLC else RCVD_ADD_HTLC) id amount
    cltv_expiry payment_hash routing path_key true extra_tlvs err_immediate_failures lane.

(** ** Removing an HTLC *)

(** [channel->htlcs] NULL is dereferenced. *)
Definition channel_get_htlc (c : channel) (sender : side) (id : Z) : outcome (option htlc) :=
  match htlcs c with None => Crash | Some l => Ret (htlc_get l id sender) end.

(** Change in place the entry [htlc_get] finds. *)
Fixpoint update_htlc (id : Z) (owner : side) (f : htlc -> htlc) (l : list htlc) : list htlc :=
  match l with
  | [] => []
  | h :: l => if (h_id h =? id) && htlc_has h (HTLC_FLAG owner HTLC_F_OWNER) then f h :: l
              else h :: update_htlc id owner f l
  end.

Definition with_htlc (c : channel) (owner : side) (id : Z) (f : htlc -> htlc) : channel :=
  set_htlcs (Some (update_htlc id owner f (the_htlcs c))) c.

Definition removal_state (s : htlc_state) : option htlc_state :=
  match s with
  | SENT_ADD_ACK_REVOCATION => Some RCVD_REMOVE_HTLC
  | RCVD_ADD_ACK_REVOCATION => Some SENT_REMOVE_HTLC
  | _ => None
  end.

Definition channel_fulfill_htlc (c : channel) (owner : side) (id : Z) (preimage : list Z)
  : outcome (channel_remove_err * channel) :=
  r ← channel_get_htlc c owner id;
  match r with
  | None => Ret (CHANNEL_ERR_NO_SUCH_ID, c)
  | Some h =>
      match h_r h with
      | Some _ => Ret (CHANNEL_ERR_ALREADY_FULFILLED, c)
      | None =>
          let opens := match h_lock_point h with
                       | Some p => point_lock_opens p preimage
                       | None => bool_decide (sha256 preimage = h_rhash h)
                       end in
          if negb opens then Ret (CHANNEL_ERR_BAD_PREIMAGE, c) else
          let c := with_htlc c owner id (set_h_r (Some preimage)) in
          if negb (htlc_has h (HTLC_FLAG (other (htlc_owner h)) HTLC_F_COMMITTED))
          then Ret (CHANNEL_ERR_HTLC_UNCOMMITTED, c) else
          match removal_state (h_state h) with
          | None => Ret (CHANNEL_ERR_HTLC_NOT_IRREVOCABLE, c)
          | Some s => Ret (CHANNEL_ERR_REMOVE_OK, with_htlc c owner id (set_h_state s))
          end
      end
  end.

Definition channel_fail_htlc (c : channel) (owner : side) (id : Z)
  : outcome (channel_remove_err * channel) :=
  r ← channel_get_htlc c owner id;
  match r with
  | None => Ret (CHANNEL_ERR_NO_SUCH_ID, c)
  | Some h =>
      if negb (htlc_has h (HTLC_FLAG (other (htlc_owner h)) HTLC_F_COMMITTED))
      then Ret (CHANNEL_ERR_HTLC_UNCOMMITTED, c) else
      match removal_state (h_state h) with
      | None => Ret (CHANNEL_ERR_HTLC_NOT_IRREVOCABLE, c)
      | Some s => Ret (CHANNEL_ERR_REMOVE_OK, with_htlc c owner id (set_h_state s))
      end
  end.

(** ** The commitment steps *)

(** [state + 1] of a state that is not the last of its owner: the assertion that
    sides do not change. *)
Definition next_state (s : htlc_state) : outcome htlc_state :=
  match state_succ s with
  | None => Crash
  | Some n =>
      let owners := Z.lor HTLC_LOCAL_F_OWNER HTLC_REMOTE_F_OWNER in
      assert_then (Z.land (htlc_state_flags s) owners =? Z.land (htlc_state_flags n) owners) (Ret n)
  end.

Definition htlc_incstate (h : htlc) (sidechanged : side) (owed : sides Z)
  : outcome (htlc * sides Z) :=
  let pre := is_committed sidechanged h in
  n ← next_state (h_state h);
  let h := set_h_state n h in
  let post := is_committed sidechanged h in
  let both f := mk_sides (f owed.[LOCAL] h LOCAL) (f owed.[REMOTE] h REMOTE) in
  Ret (h, if negb pre && post then both balance_add_htlc
          else if pre && negb post then both balance_remove_htlc
          else owed).

(** The flags that differ between a state and the next. *)
Definition flags_changed (s n : htlc_state) : Z := Z.lxor (htlc_state_flags s) (htlc_state_flags n).

Record changes := mk_changes {
  ch_left : list htlc;      (* the table, without the HTLCs that died *)
  ch_changed : list htlc;   (* what is appended to [*htlcs] *)
  ch_owed : balances;
  ch_flags : Z;
}.

(** The loop over the table. *)
Fixpoint change_each (sidechanged : side) (states : list htlc_state) (l : list htlc) (b : balances)
  : outcome changes :=
  match l with
  | [] => Ret (mk_changes [] [] b 0)
  | h :: l =>
      if bool_decide (h_state h ∈ states) then
        match b !! h_lane h with
        | None => Crash
        | Some o =>
            '(h', o) ← htlc_incstate h sidechanged o;
            r ← change_each sidechanged states l (<[h_lane h := o]> b);
            Ret (mk_changes (if htlc_is_dead h' then ch_left r else h' :: ch_left r)
                   (h' :: ch_changed r) (ch_owed r)
                   (Z.lor (flags_changed (h_state h) (h_state h')) (ch_flags r)))
        end
      else
        r ← change_each sidechanged states l b;
        Ret (mk_changes (h :: ch_left r) (ch_changed r) (ch_owed r) (ch_flags r))
  end.

(** The swap in flight; no assertion on its sides here. *)
Definition change_swap (sidechanged : side) (states : list htlc_state) (swap : option sym_swap)
    (b : balances) : outcome (option sym_swap * balances * Z) :=
  match swap with
  | None => Ret (None, b, 0)
  | Some w =>
      if bool_decide (swap_state w ∈ states) then
        match state_succ (swap_state w) with
        | None => Crash
        | Some n =>
            let pre := state_has (swap_state w) (HTLC_FLAG sidechanged HTLC_F_COMMITTED) in
            let post := state_has n (HTLC_FLAG sidechanged HTLC_F_COMMITTED) in
            let w' := set_swap_state n w in
            b ← (if negb pre && post then balance_swap w' b else Ret b);
            Ret (Some w', b, flags_changed (swap_state w) n)
        end
      else Ret (Some w, b, 0)
  end.

(** One feerate or blockheight step of [change_htlcs]: the flags changed. *)
Definition fee_incstate (c : channel) (hstate : htlc_state) : outcome (Z * channel) :=
  n ← next_state hstate;
  if negb (state_has hstate HTLC_ADDING) then Ret (0, c) else
  '(changed, fs) ← inc_fee_state (chan_fee_states c) hstate;
  Ret (if (changed : bool) then flags_changed hstate n else 0, set_fee_states fs c).

Definition blockheight_incstate (c : channel) (hstate : htlc_state) : outcome (Z * channel) :=
  n ← next_state hstate;
  if negb (state_has hstate HTLC_ADDING) then Ret (0, c) else
  match blockheight_states c with
  | None => Crash
  | Some hs =>
      '(changed, hs) ← inc_height_state hs hstate;
      Ret (if (changed : bool) then flags_changed hstate n else 0, set_blockheight_states (Some hs) c)
  end.

Fixpoint change_fees (states : list htlc_state) (c : channel) : outcome (Z * channel) :=
  match states with
  | [] => Ret (0, c)
  | hstate :: rest =>
      '(f, c) ← fee_incstate c hstate;
      '(b, c) ← blockheight_incstate c hstate;
      '(r, c) ← change_fees rest c;
      Ret (Z.lor (Z.lor f b) r, c)
  end.

(** [to_balance] of both sides. *)
Definition to_balances (o : sides amount_msat_t) : outcome (sides Z) :=
  l ← to_balance o.[LOCAL]; r ← to_balance o.[REMOTE]; Ret (mk_sides l r).

Fixpoint all_to_balances (l : list (sides amount_msat_t)) : outcome balances :=
  match l with
  | [] => Ret []
  | o :: l => b ← to_balances o; bs ← all_to_balances l; Ret (b :: bs)
  end.

(** Every lane's balances in the view of [v], lane 0 first. *)
Definition view_owed (c : channel) (v : side) : list (sides amount_msat_t) :=
  owed (view c).[v] :: map (fun b => (lane_owed b).[v]) (lane_bals c).

(** [balance_ok] of both sides; [None] on an underflow. *)
Definition balances_ok (b : sides Z) : option (sides amount_msat_t) :=
  match balance_ok b.[LOCAL], balance_ok b.[REMOTE] with
  | Some l, Some r => Some (mk_sides l r)
  | _, _ => None
  end.

Fixpoint all_balances_ok (l : balances) : option (list (sides amount_msat_t)) :=
  match l with
  | [] => Some []
  | b :: l =>
      match balances_ok b, all_balances_ok l with
      | Some o, Some os => Some (o :: os)
      | _, _ => None
      end
  end.

(** Store the balances of the view of [v]. *)
Definition set_view_owed (v : side) (os : list (sides amount_msat_t)) (c : channel) : outcome channel :=
  match os with
  | [] => Crash
  | o :: os =>
      let vw := (view c).[v] in
      let c := set_view (upd v (mk_view o (lowest_splice_amnt vw)) (view c)) c in
      Ret (set_lane_bal
             (match sym_lane_bal c with
              | None => None
              | Some bals => Some (zip_with (fun b o => mk_lane_bal (upd v o (lane_owed b))) bals os)
              end) c)
  end.

(** The flags that changed, the HTLCs that changed, and the channel. *)
Definition change_htlcs (c : channel) (sidechanged : side) (states : list htlc_state)
  : outcome (Z * list htlc * channel) :=
  bals ← all_to_balances (view_owed c sidechanged);
  match htlcs c with
  | None => Crash
  | Some l =>
      r ← change_each sidechanged states l bals;
      '(swap, bals, swap_flags) ← change_swap sidechanged states (chan_sym_swap c) (ch_owed r);
      match all_balances_ok bals with
      | None => Crash
      | Some os =>
          c ← set_view_owed sidechanged os (set_sym_swap swap (set_htlcs (Some (ch_left r)) c));
          '(fee_flags, c) ← change_fees (reverse states) c;
          Ret (Z.lor (Z.lor (ch_flags r) swap_flags) fee_flags, ch_changed r, c)
      end
  end.

Definition sending_commit_states : list htlc_state :=
  [SENT_ADD_HTLC; SENT_REMOVE_REVOCATION; SENT_ADD_REVOCATION; SENT_REMOVE_HTLC].
Definition rcvd_revoke_states : list htlc_state :=
  [SENT_ADD_COMMIT; SENT_REMOVE_ACK_COMMIT; SENT_ADD_ACK_COMMIT; SENT_REMOVE_COMMIT].
Definition rcvd_commit_states : list htlc_state :=
  [RCVD_ADD_REVOCATION; RCVD_REMOVE_HTLC; RCVD_ADD_HTLC; RCVD_REMOVE_REVOCATION].
Definition sending_revoke_states : list htlc_state :=
  [RCVD_ADD_ACK_COMMIT; RCVD_REMOVE_COMMIT; RCVD_ADD_COMMIT; RCVD_REMOVE_ACK_COMMIT].

Definition channel_sending_commit (c : channel) : outcome (bool * list htlc * channel) :=
  '(change, changed, c) ← change_htlcs c REMOTE sending_commit_states;
  Ret (negb (change =? 0), changed, c).

Definition channel_rcvd_revoke_and_ack (c : channel) : outcome (bool * list htlc * channel) :=
  '(change, changed, c) ← change_htlcs c LOCAL rcvd_revoke_states;
  Ret (negb (Z.land change HTLC_LOCAL_F_PENDING =? 0), changed, c).

Definition channel_rcvd_commit (c : channel) : outcome (bool * list htlc * channel) :=
  '(change, changed, c) ← change_htlcs c LOCAL rcvd_commit_states;
  Ret (negb (change =? 0), changed, c).

Definition channel_sending_revoke_and_ack (c : channel) : outcome (bool * list htlc * channel) :=
  '(change, changed, c) ← change_htlcs c REMOTE sending_revoke_states;
  Ret (negb (Z.land change HTLC_REMOTE_F_PENDING =? 0), changed, c).

(** ** Fees *)

Definition approx_max_feerate (c : channel) : outcome Z :=
  let ao := has_anchor_outputs c in
  let az := has_zero_fee_anchors c in
  let g := gather_htlcs c (other (opener c)) in
  let count (l : list htlc) := Z.of_nat (length l) in
  let num := wrap_u64 (count (committed g) + count (adding g) - count (removing g)) in
  let weight := commit_tx_base_weight params num ao az in
  balance ← to_balance (owed (view c).[other (opener c)]).[opener c];
  let balance := fold_left (fun b h => balance_add_htlc b h (opener c)) (adding g) balance in
  match balance_ok balance with
  | None => Ret 0
  | Some avail =>
      avail ← (match (if ao || az then amount_msat_deduct_sat avail (mk_sat 660) else Some avail) with
               | None => Ret (mk_msat 0)
               | Some avail =>
                   reserve ← channel_reserve_of c (opener c);
                   Ret (default (mk_msat 0) (amount_msat_deduct_sat avail reserve))
               end);
      q ← udiv (millisatoshis avail) weight;
      Ret (wrap_u32 q)
  end.

(** The result of [htlc_dust] is ignored, its accumulator kept. *)
Definition htlc_calculate_dust (c : channel) (feerate_per_kw : Z) (s : side) : outcome amount_msat_t :=
  '(_, acc_dust) ← htlc_dust c (gather_htlcs c s) s feerate_per_kw (mk_msat 0);
  Ret acc_dust.

Definition htlc_dust_ok (c : channel) (feerate_per_kw : Z) (s : side) : outcome bool :=
  total_dusted ← htlc_calculate_dust c feerate_per_kw s;
  Ret (amount_msat_greater_eq (max_dust_htlc_exposure_msat (config c).[LOCAL]) total_dusted).

Definition can_opener_afford_feerate (c : channel) (feerate_per_kw : Z) : outcome bool :=
  let recipient := other (opener c) in
  let ao := has_anchor_outputs c in
  let az := has_zero_fee_anchors c in
  let g := gather_htlcs c recipient in
  untrimmed ← num_untrimmed_htlcs recipient (conf_dust_limit (config c).[recipient]) feerate_per_kw ao az g;
  fee ← commit_tx_base_fee params feerate_per_kw untrimmed ao az;
  fee ← (if ao || az then
           match amount_sat_add fee (mk_sat 660) with None => Crash | Some fee => Ret fee end
         else Ret fee);
  reserve ← channel_reserve_of c (opener c);
  needed ← (match amount_sat_add fee reserve with None => Crash | Some n => Ret n end);
  balance ← to_balance (owed (view c).[recipient]).[opener c];
  let balance := fold_left (fun b h => balance_remove_htlc b h (opener c)) (removing g) balance in
  let balance := fold_left (fun b h => balance_add_htlc b h (opener c)) (adding g) balance in
  match balance_ok balance with
  | None => Ret false
  | Some available => Ret (amount_msat_greater_eq_sat available needed)
  end.

Definition channel_update_feerate (c : channel) (feerate_per_kw : Z) : outcome (bool * channel) :=
  afford ← can_opener_afford_feerate c feerate_per_kw;
  if negb afford then Ret (false, c) else
  dusty ← (if negb (has_zero_fee_anchors c) then
             remote ← channel_feerate c REMOTE;
             remote_ok ← (if remote <? feerate_per_kw then htlc_dust_ok c feerate_per_kw REMOTE
                          else Ret true);
             if negb remote_ok then Ret true
             else local_ok ← htlc_dust_ok c feerate_per_kw LOCAL; Ret (negb local_ok)
           else Ret false);
  if (dusty : bool) then Ret (false, c)
  else Ret (true, set_fee_states (start_fee_update (chan_fee_states c) (opener c) feerate_per_kw) c).

Definition channel_update_blockheight (c : channel) (blockheight : Z) : outcome channel :=
  match blockheight_states c with
  | None => Crash
  | Some hs => Ret (set_blockheight_states (Some (start_height_update hs (opener c) blockheight)) c)
  end.

(** ** Counting, and updates not done *)

Definition any_htlc_is_dead (c : channel) : bool := existsb htlc_is_dead (the_htlcs c).

Definition num_channel_htlcs (c : channel) : outcome Z :=
  assert_then (negb (any_htlc_is_dead c)) (Ret (Z.of_nat (length (the_htlcs c)))).

Definition pending_updates (c : channel) (s : side) : outcome bool :=
  opener_pending ← (if bool_decide (s = opener c) then
      if negb (feerate_changes_done (chan_fee_states c) false) then Ret true
      else match blockheight_states c with
           | None => Crash
           | Some hs => Ret (negb (blockheight_changes_done hs false))
           end
    else Ret false);
  Ret ((opener_pending : bool)
       || match chan_sym_swap c with
          | None => false
          | Some w => state_has (swap_state w) (HTLC_FLAG s HTLC_F_WILL_SEND)
          end
       || existsb (fun h => state_has (h_state h) (HTLC_FLAG s HTLC_F_WILL_SEND)) (the_htlcs c)).

(** ** Restoring HTLCs *)

(** What one HTLC did to one view's balances: added if it ever was committed
    there, removed again if it no longer is; [None] when it is gone without a
    reason. *)
Definition adjust_view (h : htlc) (v : side) (b : sides Z) : option (sides Z) :=
  if negb (htlc_has h (HTLC_FLAG v HTLC_F_WAS_COMMITTED)) then Some b
  else
    let b := mk_sides (balance_add_htlc b.[LOCAL] h LOCAL) (balance_add_htlc b.[REMOTE] h REMOTE) in
    if is_committed v h then Some b
    else match h_failed h, h_r h with
         | None, None => None
         | _, _ => Some (mk_sides (balance_remove_htlc b.[LOCAL] h LOCAL)
                           (balance_remove_htlc b.[REMOTE] h REMOTE))
         end.

Definition adjust_balance (view_owed : sides (sides Z)) (h : htlc) : option (sides (sides Z)) :=
  match adjust_view h LOCAL view_owed.[LOCAL] with
  | None => None
  | Some l =>
      match adjust_view h REMOTE view_owed.[REMOTE] with
      | None => None
      | Some r => Some (mk_sides l r)
      end
  end.

Record existing_htlc := mk_existing {
  ex_id : Z;
  ex_state : htlc_state;
  ex_amount : amount_msat_t;
  ex_payment_hash : list Z;
  ex_cltv_expiry : Z;
  ex_onion_routing_packet : list Z;
  ex_path_key : option (list Z);
  ex_payment_preimage : option (list Z);
  ex_failed : option failed_htlc;
  ex_extra_tlvs : option (list (Z * list Z));
  ex_lock_point : option (list Z);
  ex_lane : nat;
}.

(** Per lane, both views' balances. *)
Abbreviation view_balances := (list (sides (sides Z))).

(** The HTLC added, with what is known of its end. *)
Definition restored (x : existing_htlc) (h : htlc) : htlc :=
  set_h_restored (ex_lock_point x) (ex_payment_preimage x) (ex_failed x) h.

Fixpoint force_each (l : list existing_htlc) (c : channel) (b : view_balances)
  : outcome (option (channel * view_balances)) :=
  match l with
  | [] => Ret (Some (c, b))
  | x :: l =>
      r ← add_htlc c (ex_state x) (ex_id x) (ex_amount x) (ex_cltv_expiry x) (ex_payment_hash x)
            (ex_onion_routing_packet x) (ex_path_key x) false (ex_extra_tlvs x) false (ex_lane x);
      match add_err r, add_htlcp r, htlcs (add_chan r) with
      | CHANNEL_ERR_ADD_OK, Some h, Some (_ :: rest) =>
          let h := restored x h in
          let c := set_htlcs (Some (h :: rest)) (add_chan r) in
          match b !! h_lane h with
          | None => Crash
          | Some o =>
              match adjust_balance o h with
              | None => Ret None
              | Some o => force_each l c (<[h_lane h := o]> b)
              end
          end
      | _, _, _ => Ret None
      end
  end.

(** The swap in flight, in the view of [v] if it is committed there. *)
Definition force_swap (w : sym_swap) (v : side) (b : view_balances) : outcome view_balances :=
  if negb (state_has (swap_state w) (HTLC_FLAG v HTLC_F_COMMITTED)) then Ret b
  else
    os ← balance_swap w (map (fun o => o.[v]) b);
    Ret (zip_with (fun o n => upd v n o) b os).

(** [None] is false: the caller gives the channel up. *)
Definition channel_force_htlcs (c : channel) (l : list existing_htlc) : outcome (option channel) :=
  bl ← all_to_balances (view_owed c LOCAL);
  br ← all_to_balances (view_owed c REMOTE);
  r ← force_each l c (zip_with mk_sides bl br);
  match r with
  | None => Ret None
  | Some (c, b) =>
      b ← (match chan_sym_swap c with
           | None => Ret b
           | Some w => b ← force_swap w LOCAL b; force_swap w REMOTE b
           end);
      match all_balances_ok (map (fun o => o.[LOCAL]) b), all_balances_ok (map (fun o => o.[REMOTE]) b) with
      | Some ol, Some or =>
          c ← set_view_owed LOCAL ol c; c ← set_view_owed REMOTE or c; Ret (Some c)
      | _, _ => Ret None
      end
  end.

(** How channeld sets up its channel: made of the funding, with the lanes, the
    swap and the HTLCs lightningd remembers ([init_channel]). *)
Definition init_channel (cid : list Z) (funding : outpoint) (minimum_depth : Z)
    (blockheight_states : option height_states) (lease_expiry : Z) (funding_sats : amount_sat_t)
    (local_msat : amount_msat_t) (fee_states : fee_states) (local remote : channel_config)
    (obscurer : Z) (type : channel_type) (option_wumbo : bool) (opener : side)
    (asset : list Z) (lanes : list sym_lane) (sym_lane_local_msat : list amount_msat_t)
    (swap swap_req : option sym_swap) (existing : list existing_htlc) : outcome channel :=
  match new_full_channel params cid funding minimum_depth blockheight_states lease_expiry funding_sats
          local_msat fee_states local remote obscurer type option_wumbo opener with
  | None => Crash
  | Some c =>
      c ← attach_lanes asset lanes sym_lane_local_msat (set_asset asset c);
      r ← channel_force_htlcs (set_swap_req swap_req (set_sym_swap swap c)) existing;
      match r with None => Crash | Some c => Ret c end
  end.

(** ** Swaps *)

Definition swap_affordable_in (c : channel) (payer : side) (lane : nat) (amount : amount_msat_t)
    (v : side) : outcome bool :=
  let g := gather_lane_htlcs c v (Some lane) in
  owed ← sym_lane_owed c lane v payer;
  balance ← to_balance owed;
  let balance := fold_left (fun b h => balance_add_htlc b h payer) (adding g) balance in
  promised ← swap_promised c v lane payer;
  let balance := wrap_s64 (balance - millisatoshis promised) in
  let balance := wrap_s64 (balance - millisatoshis amount) in
  match balance_ok balance with
  | None => Ret false
  | Some rest =>
      if (lane =? 0)%nat then
        reserve ← channel_reserve_of c payer;
        Ret (match amount_msat_deduct_sat rest reserve with None => false | Some _ => true end)
      else Ret true
  end.

Definition swap_affordable (c : channel) (payer : side) (lane : nat) (amount : amount_msat_t)
  : outcome bool :=
  l ← swap_affordable_in c payer lane amount LOCAL;
  if negb l then Ret false else swap_affordable_in c payer lane amount REMOTE.

(** Why a swap is refused, one constructor per message. *)
Inductive swap_refusal :=
| ONE_ASSET
| SWAP_IN_FLIGHT
| BAD_LANES
| ZERO_LEG
| OWNER_CANNOT_GIVE
| OTHER_CANNOT_GIVE.

Definition channel_sym_swap_check (c : channel) (swap : sym_swap) : outcome (option swap_refusal) :=
  let owner := htlc_state_owner (swap_state swap) in
  let n := sym_num_lanes c in
  match sym_lanes c, chan_sym_swap c with
  | None, _ => Ret (Some ONE_ASSET)
  | Some _, Some _ => Ret (Some SWAP_IN_FLIGHT)
  | Some _, None =>
      if (give_lane swap =? take_lane swap)%nat || (n <=? give_lane swap)%nat || (n <=? take_lane swap)%nat
      then Ret (Some BAD_LANES)
      else if amount_msat_is_zero (swap_give swap) || amount_msat_is_zero (swap_take swap)
      then Ret (Some ZERO_LEG)
      else
        g ← swap_affordable c owner (give_lane swap) (swap_give swap);
        if negb g then Ret (Some OWNER_CANNOT_GIVE) else
        t ← swap_affordable c (other owner) (take_lane swap) (swap_take swap);
        if negb t then Ret (Some OTHER_CANNOT_GIVE) else Ret None
  end.

Definition channel_sym_swap_add (c : channel) (swap : sym_swap) : outcome channel :=
  assert_then (bool_decide (chan_sym_swap c = None))
    (assert_then (bool_decide (swap_state swap = SENT_ADD_HTLC) || bool_decide (swap_state swap = RCVD_ADD_HTLC))
       (Ret (set_sym_swap (Some swap) c))).

Definition channel_sym_swap_done (c : channel) : bool * channel :=
  match chan_sym_swap c with
  | Some w =>
      if bool_decide (swap_state w = SENT_ADD_ACK_REVOCATION)
         || bool_decide (swap_state w = RCVD_ADD_ACK_REVOCATION)
      then (true, set_sym_swap None c) else (false, c)
  | None => (false, c)
  end.
End Ops.
