(* ===== verification/SymChannel.v ===== *)
(** * Symmetric channels (common/sym_channel.c, the settlement and kickoff of
    common/sym_lanes.c, [sym_channeld_state] of channeld/sym_channeld.c)

    The states of a channel: the settlement of each lane, the message signed
    for a state, and the kickoff.  [status_failed] is [Crash]. *)

From stdpp Require Import list.
From S2P Require Import Prelude Chainparams Amount HtlcState FeeStates CommitFee Features Wire Script Keys Tapscript ChannelState Tx SymScripts SymState Channel.
Local Open Scope Z_scope.

(** What [struct channel] holds beside its state: the keys, and the issuer of
    the marker of a channel with a settle clock. *)
Record channel_keys := mk_channel_keys {
  funding_pubkey : sides (list Z);
  chan_basepoints : sides basepoints;
  sym_issuer : option outpoint;
}.

Definition sym_shared_delay (c : channel) : Z :=
  if to_self_delay (config c).[REMOTE] <? to_self_delay (config c).[LOCAL]
  then to_self_delay (config c).[LOCAL] else to_self_delay (config c).[REMOTE].
Definition sym_dust_limit (c : channel) : amount_sat_t :=
  if amount_sat_greater (conf_dust_limit (config c).[LOCAL]) (conf_dust_limit (config c).[REMOTE])
  then conf_dust_limit (config c).[LOCAL] else conf_dust_limit (config c).[REMOTE].

(** Why there is no state; of which lane. *)
Inductive sym_error := settlement_fails (e : settlement_error) | lane_fails (lane : nat) (e : settlement_error).

Section Channel.
Context (params : chainparams) (sha256 ripemd160 : list Z -> list Z) `{!Taproot, !Issuance}.
Context (wally_tx_get_length : bool -> bitcoin_tx -> option nat)
        (wally_tx_to_bytes : bool -> bitcoin_tx -> option (list Z)).
Context (asort : (sym_output htlc -> sym_output htlc -> comparison) -> list (sym_output htlc) -> list (sym_output htlc)).
Context (keys : channel_keys).

Definition sym_channel_of (c : channel) : outcome sym_channel :=
  sc ← sym_channel_init params sha256 (genesis_blockhash params) (funding c)
         (bp_delayed_payment (chan_basepoints keys).[opener c])
         (bp_delayed_payment (chan_basepoints keys).[other (opener c)])
         (Some (channel_asset c)) (sym_shared_delay c);
  match sym_issuer keys with
  | None => Ret sc
  | Some issuer =>
    marker ← sym_marker_id issuer;
    Ret (sym_channel_set_clock sha256 sc marker
           (bitcoin_redeem_2of2 (funding_pubkey keys).[LOCAL] (funding_pubkey keys).[REMOTE]) (funding_sats c))
  end.

Definition pay_points : sides (list Z) := sides_map bp_payment (chan_basepoints keys).
Definition htlc_points : sides (list Z) := sides_map bp_htlc (chan_basepoints keys).

(** The HTLCs of one lane; without lanes they are of lane 0. *)
Definition of_lane (lane : nat) (hs : list (sym_htlc htlc)) (htlc_lanes : option (list nat)) : list (sym_htlc htlc) :=
  match htlc_lanes with
  | Some lanes => fst <$> filter (fun x => snd x = lane) (zip hs lanes)
  | None => if (lane =? 0)%nat then hs else []
  end.
Definition set_so_asset (a : option (list Z)) (o : sym_output htlc) : sym_output htlc :=
  mk_sym_output _ (so_kind o) (so_side o) (so_amount o) (so_spk o) a (so_htlc o) (so_cltv_expiry o).

(** The settlement of the lanes from [lane] on, [n] of them. *)
Fixpoint lanes_settlement_from (c : channel) (s : side) (hs : list (sym_htlc htlc)) (htlc_lanes : option (list nat))
    (n lane : nat) (outs : list (sym_output htlc)) : outcome (sym_error + list (sym_output htlc)) :=
  match n with
  | O => Ret (inr outs)
  | S n =>
    bal_local ← sym_lane_owed c lane s LOCAL;
    bal_remote ← sym_lane_owed c lane s REMOTE;
    '(_, sats) ← sym_lane_funding c lane;
    r ← sym_settlement sha256 ripemd160 asort sats (opener c) pay_points htlc_points (mk_sides bal_local bal_remote)
          (of_lane lane hs htlc_lanes) (sym_dust_limit c);
    match r with
    | inl e => Ret (inl (lane_fails lane e))
    | inr lo =>
      asset ← (if (lane =? 0)%nat then Ret None else a ← sym_lane_asset c lane; Ret (Some a));
      lanes_settlement_from c s hs htlc_lanes n (S lane) (outs ++ (set_so_asset asset <$> lo))
    end
  end.
Definition sym_lanes_settlement (c : channel) (s : side) (hs : list (sym_htlc htlc)) (htlc_lanes : option (list nat))
  : outcome (sym_error + list (sym_output htlc)) :=
  lanes_settlement_from c s hs htlc_lanes (sym_num_lanes c) 0 [].

Definition sym_channel_state (c : channel) (s : side) (commit_num : Z) (hs : list (sym_htlc htlc))
    (htlc_lanes : option (list nat)) : outcome (sym_error + sym_state) :=
  r ← (match sym_lanes c with
       | Some _ => sym_lanes_settlement c s hs htlc_lanes
       | None =>
         r ← sym_settlement sha256 ripemd160 asort (funding_sats c) (opener c) pay_points htlc_points
               (owed (view c).[s]) hs (sym_dust_limit c);
         Ret (match r with inl e => inl (settlement_fails e) | inr outs => inr outs end)
       end);
  match r with
  | inl e => Ret (inl e)
  | inr outs =>
    num ← sym_state_num commit_num (bool_decide (s = opener c));
    Ret (inr (sym_state_new s commit_num num outs))
  end.

Definition sym_channel_msg (c : channel) (st : sym_state) : outcome (list Z) :=
  sc ← sym_channel_of c;
  tree ← sym_state_tree_of sha256 sc st;
  sym_upd_msg sha256 sc tree.

Definition sym_channel_check_sig (c : channel) (st : sym_state) (signing : side) (sig : list Z) : outcome bool :=
  msg ← sym_channel_msg c st;
  Ret (tap_check_sig msg (bp_delayed_payment (chan_basepoints keys).[signing]) sig).

(** The kickoff, and the funding output's script. *)
Definition sym_channel_kickoff (c : channel) : outcome (bitcoin_tx * list Z) :=
  sc ← sym_channel_of c;
  let wscript := bitcoin_redeem_2of2 (funding_pubkey keys).[LOCAL] (funding_pubkey keys).[REMOTE] in
  tx ← sym_kickoff_tx params sha256 wally_tx_get_length wally_tx_to_bytes (funding c) (funding_sats c) wscript sc;
  Ret (tx, wscript).

Definition sym_lane_kickoff_tx (c : channel) (lane : nat) : outcome (bitcoin_tx * list Z) :=
  sc ← sym_channel_of c;
  asset ← sym_lane_asset c lane;
  let sc := mk_sym_channel (sym_tag sc) (upd_key_opener sc) (upd_key_accepter sc) asset (sym_delay sc) (clock sc) in
  '(outpoint, amount) ← sym_lane_funding c lane;
  let wscript := bitcoin_redeem_2of2 (funding_pubkey keys).[LOCAL] (funding_pubkey keys).[REMOTE] in
  tx ← sym_kickoff_tx params sha256 wally_tx_get_length wally_tx_to_bytes outpoint amount wscript sc;
  Ret (tx, wscript).

(** ** The states channeld builds *)

Fixpoint sym_htlcs_of (l : list htlc) : outcome (list (sym_htlc htlc)) :=
  match l with
  | [] => Ret []
  | h :: l =>
    expiry ← abs_locktime_to_blocks (h_expiry h);
    hs ← sym_htlcs_of l;
    Ret (mk_sym_htlc _ (htlc_owner h) (h_amount h) (ripemd160 (h_rhash h)) expiry h :: hs)
  end.
Definition sym_channeld_state (c : channel) (s : side) (commit_num : Z) : outcome sym_state :=
  let committed := channel_committed_htlcs c s in
  hs ← sym_htlcs_of committed;
  r ← sym_channel_state c s commit_num hs (Some (h_lane <$> committed));
  match r with inl _ => Crash | inr st => Ret st end.
End Channel.
