(* ===== verification/CommitTx.v ===== *)
(** * Commitment transactions (channeld/commit_tx.c, [initial_commit_tx] of
    common/initial_commit_tx.c, common/htlc_tx.c, [add_htlcs] and
    [channel_txs] of channeld/full_channel.c, common/tcov_commit_tx.c,
    channeld/tcov_channel.c)

    The transaction a side can broadcast: an output for each HTLC that is not
    trimmed, one for each side's balance, the anchors, in BIP69+CLTV order, and
    one second-stage transaction for each HTLC output.  The chain parameters,
    the hash functions and libwally's serialization are arguments, and so are
    the contents of the CLTV array where nothing was assigned. *)

From stdpp Require Import list.
From S2P Require Import Prelude Chainparams Amount HtlcState FeeStates CommitFee Features Script Keys Tapscript ChannelState Tx SymScripts TcovScripts SymState Channel SymChannel.
Local Open Scope Z_scope.

(** What [htlcmap] holds of an output: NULL, one of the dummy pointers, or an
    HTLC. *)
Inductive mark :=
| mark_null
| dummy_to_local
| dummy_to_remote
| dummy_other_anchor
| mark_htlc (h : htlc).

(** The transaction, the HTLC of each output, the positions of the direct
    outputs and of the anchor of the other side (-1 for none). *)
Record commitment := mk_commitment {
  com_tx : bitcoin_tx;
  com_htlcmap : list (option htlc);
  com_direct : sides (option nat);
  com_anchor_outnum : Z;
}.

(** The index of the last position that satisfies [p]: what a loop that
    overwrites leaves. *)
Definition last_index {A} (p : A -> bool) (l : list A) : option nat :=
  foldl (fun acc '(i, a) => if p a then Some i else acc) None (imap pair l).

Section Commit.
Context (params : chainparams) (sha256 ripemd160 : list Z -> list Z).
Context (wally_tx_get_length : bool -> bitcoin_tx -> option nat)
        (wally_tx_to_bytes : bool -> bitcoin_tx -> option (list Z)).

Notation building := (bitcoin_tx * list (slot mark))%type.

(** [bitcoin_tx_add_output], and the entries of [htlcmap] and [cltvs] for it. *)
Definition add_out (script : list Z) (amount : amount_sat_t) (m : mark) (cltv : Z) (st : building)
  : outcome building :=
  tx ← bitcoin_tx_add_output params script amount (fst st);
  Ret (tx, snd st ++ [mk_slot (wally_tx_output_asset params script amount (output_asset (fst st))) m cltv]).

Definition add_offered_htlc_out (h : htlc) (ks : keyset) (ao az : bool) (cltv : Z) : building -> outcome building :=
  add_out (scriptpubkey_p2wsh sha256
             (htlc_offered_wscript sha256 ripemd160 (ripemd160 (h_rhash h)) ks ao az))
    (amount_msat_to_sat_round_down (h_amount h)) (mark_htlc h) cltv.

Definition add_received_htlc_out (h : htlc) (ks : keyset) (ao az : bool) (cltv : Z) : building -> outcome building :=
  add_out (scriptpubkey_p2wsh sha256
             (htlc_received_wscript sha256 ripemd160 (ripemd160 (h_rhash h)) (h_expiry h) ks ao az))
    (amount_msat_to_sat_round_down (h_amount h)) (mark_htlc h) cltv.

(** The loops over the HTLCs: the offered ones, then the received ones. *)
Fixpoint add_htlc_outs (offered : bool) (feerate_per_kw : Z) (dust_limit : amount_sat_t) (ks : keyset)
    (ao az : bool) (s : side) (l : list htlc) (st : building) : outcome building :=
  match l with
  | [] => Ret st
  | h :: l =>
    if negb (bool_decide (bool_decide (htlc_owner h = s) = offered))
    then add_htlc_outs offered feerate_per_kw dust_limit ks ao az s l st
    else
      t ← trim params h feerate_per_kw dust_limit ao az s;
      if (t : bool) then add_htlc_outs offered feerate_per_kw dust_limit ks ao az s l st
      else
        cltv ← abs_locktime_to_blocks (h_expiry h);
        st ← (if offered then add_offered_htlc_out h ks ao az cltv st
              else add_received_htlc_out h ks ao az cltv st);
        add_htlc_outs offered feerate_per_kw dust_limit ks ao az s l st
  end.

Definition tx_add_anchor_output (funding_key : list Z) (m : mark) (cltv : Z) (st : building) : outcome building :=
  wscript ← bitcoin_wscript_anchor funding_key;
  add_out (scriptpubkey_p2wsh sha256 wscript) (mk_sat 330) m cltv st.

(** The output script of [to_remote]. *)
Definition to_remote_script (ks : keyset) (csv_lock : Z) (ao az : bool) : outcome (list Z) :=
  if ao || az then
    redeem ← bitcoin_wscript_to_remote_anchored (other_payment_key ks) csv_lock;
    Ret (scriptpubkey_p2wsh sha256 redeem)
  else Ret (scriptpubkey_p2wpkh sha256 ripemd160 (other_payment_key ks)).

(** [lease_expiry] and [blockheight] are [u32]. *)
Definition csv_lock_of (lease_expiry blockheight : Z) : Z :=
  if blockheight <? lease_expiry then lease_expiry - blockheight else 1.

(** The base fee, with the anchors' amounts on top. *)
Definition base_fee_with_anchors (feerate_per_kw untrimmed : Z) (ao az : bool) : outcome (option amount_sat_t) :=
  base_fee ← commit_tx_base_fee params feerate_per_kw untrimmed ao az;
  Ret (if ao || az then amount_sat_add base_fee (mk_sat 660) else Some base_fee).

(** Both balances' outputs and the anchors, in the order they are added.
    [marks] are the entries of the map for the two balances and the two
    anchors, [cltv] the CLTV of each position. *)
Definition add_direct_outs (local_funding_key remote_funding_key : list Z) (opener s : side)
    (to_self_delay csv_lock : Z) (ks : keyset) (dust_limit : amount_sat_t) (self_pay other_pay : amount_msat_t)
    (untrimmed : Z) (ao az : bool) (marks : mark * mark * mark * mark) (cltv : nat -> Z) (st : building)
  : outcome building :=
  let lessor := other opener in
  let '(m_local, m_remote, m_anchor, m_other_anchor) := marks in
  let n st := cltv (length (snd (st : building))) in
  let to_local := amount_msat_greater_eq_sat self_pay dust_limit in
  let to_remote := amount_msat_greater_eq_sat other_pay dust_limit in
  st ← (if to_local then
          add_out (scriptpubkey_p2wsh sha256
                     (to_self_wscript to_self_delay (if bool_decide (s = lessor) then csv_lock else 0) ks))
            (amount_msat_to_sat_round_down self_pay) m_local (n st) st
        else Ret st);
  st ← (if to_remote then
          script ← to_remote_script ks (if bool_decide (other s = lessor) then csv_lock else 1) ao az;
          add_out script (amount_msat_to_sat_round_down other_pay) m_remote (n st) st
        else Ret st);
  if ao || az then
    st ← (if to_local || negb (untrimmed =? 0)
          then tx_add_anchor_output local_funding_key m_anchor (n st) st else Ret st);
    if to_remote || negb (untrimmed =? 0)
    then tx_add_anchor_output remote_funding_key m_other_anchor (n st) st else Ret st
  else Ret st.

(** Locktime and input of a commitment transaction, and the fee output. *)
Definition finish_commit_tx (funding : outpoint) (funding_sats : amount_sat_t) (funding_wscript : list Z)
    (obscured_commitment_number : Z) (tx : bitcoin_tx) : outcome bitcoin_tx :=
  assert_then (tx_version tx =? 2)
    (let tx := bitcoin_tx_set_locktime
                 (Z.lor 0x20000000 (Z.land obscured_commitment_number 0xFFFFFF)) tx in
     let sequence := Z.lor 0x80000000 (Z.land (Z.shiftr obscured_commitment_number 24) 0xFFFFFF) in
     let tx := bitcoin_tx_add_input params sha256 funding sequence funding_sats funding_wscript tx in
     bitcoin_tx_finalize params wally_tx_get_length wally_tx_to_bytes tx).

Definition is_mark (m : mark) (sl : slot mark) : bool :=
  match m, slot_map sl with
  | mark_null, mark_null | dummy_to_local, dummy_to_local
  | dummy_to_remote, dummy_to_remote | dummy_other_anchor, dummy_other_anchor => true
  | _, _ => false
  end.

(** The commitment transaction of [s]; [want_direct] says whether the caller
    asks for the direct outputs, [junk] is the unassigned contents of [cltvs]. *)
Definition commit_tx (funding : outpoint) (funding_sats : amount_sat_t)
    (local_funding_key remote_funding_key : list Z) (opener : side)
    (to_self_delay lease_expiry blockheight : Z) (ks : keyset) (feerate_per_kw : Z)
    (dust_limit : amount_sat_t) (self_pay other_pay : amount_msat_t) (l : list htlc)
    (want_direct : bool) (obscured_commitment_number : Z) (ao az : bool) (s : side)
    (channel_asset : list Z) (junk : nat -> Z) : outcome commitment :=
  match amount_msat_add self_pay other_pay with
  | None => Crash
  | Some total_pay =>
    assert_then (negb (amount_msat_greater_sat total_pay funding_sats))
      (untrimmed ← commit_tx_num_untrimmed params l feerate_per_kw dust_limit ao az s;
       fee ← base_fee_with_anchors feerate_per_kw untrimmed ao az;
       match fee with
       | None => Crash
       | Some base_fee =>
         let '(_, self_pay, other_pay) := try_subtract_fee opener s base_fee self_pay other_pay in
         let tx := bitcoin_tx_set_output_asset params (Some channel_asset)
                     (bitcoin_tx_new params (untrimmed + 2 + 2) 0) in
         st ← add_htlc_outs true feerate_per_kw dust_limit ks ao az s l (tx, []);
         st ← add_htlc_outs false feerate_per_kw dust_limit ks ao az s l st;
         st ← add_direct_outs local_funding_key remote_funding_key opener s to_self_delay
                (csv_lock_of lease_expiry blockheight) ks dust_limit self_pay other_pay untrimmed ao az
                (if want_direct then dummy_to_local else mark_null,
                 if want_direct then dummy_to_remote else mark_null, mark_null, dummy_other_anchor)
                junk st;
         let '(tx, slots) := (st : building) in
         let n := Z.of_nat (length slots) in
         assert_then ((0 <? n) && (n <=? outputs_allocation_len tx))
           (let slots := permute_outputs slots in
            tx ← finish_commit_tx funding funding_sats
                   (bitcoin_redeem_2of2 local_funding_key remote_funding_key)
                   obscured_commitment_number (set_tx_outputs (slot_out <$> slots) tx);
            Ret (mk_commitment tx
                   (map (fun sl => match slot_map sl with mark_htlc h => Some h | _ => None end) slots)
                   (mk_sides (last_index (is_mark dummy_to_local) slots)
                             (last_index (is_mark dummy_to_remote) slots))
                   (match last_index (is_mark dummy_other_anchor) slots with
                    | Some i => Z.of_nat i | None => -1 end)))
       end)
  end.

(** ** The first commitment transaction (common/initial_commit_tx.c) *)

(** The reasons [initial_commit_tx] gives for returning NULL. *)
Inductive initial_error := cannot_afford_anchors | cannot_afford_fee | below_reserve.

(** [dummy_local] is [(void * )LOCAL], which is NULL. *)
Definition initial_commit_tx (funding : outpoint) (funding_sats : amount_sat_t)
    (channel_asset : option (list Z)) (funding_key : sides (list Z)) (opener : side) (to_self_delay : Z)
    (ks : keyset) (feerate_per_kw : Z) (dust_limit : amount_sat_t) (self_pay other_pay : amount_msat_t)
    (self_reserve : amount_sat_t) (obscured_commitment_number : Z) (s : side) (csv_lock : Z) (ao az : bool)
  : outcome (initial_error + bitcoin_tx * sides (option nat)) :=
  match amount_msat_add self_pay other_pay with
  | None => Crash
  | Some total_pay =>
    assert_then (negb (amount_msat_greater_sat total_pay funding_sats))
      (fee ← base_fee_with_anchors feerate_per_kw 0 ao az;
       match fee with
       | None => Ret (inl cannot_afford_anchors)
       | Some base_fee =>
         let '(ok, self_pay, other_pay) := try_subtract_fee opener s base_fee self_pay other_pay in
         if negb ok then Ret (inl cannot_afford_fee)
         else if negb (amount_msat_greater_sat self_pay self_reserve)
                 && negb (amount_msat_greater_sat other_pay self_reserve)
         then Ret (inl below_reserve)
         else
           let tx := bitcoin_tx_set_output_asset params channel_asset (bitcoin_tx_new params 4 0) in
           st ← add_direct_outs funding_key.[s] funding_key.[other s] opener s to_self_delay csv_lock ks
                  dust_limit self_pay other_pay 0 ao az
                  (mark_null, dummy_to_remote, mark_null, mark_null) (fun _ => 0) (tx, []);
           let '(tx, slots) := (st : building) in
           let slots := permute_outputs slots in
           tx ← finish_commit_tx funding funding_sats
                  (bitcoin_redeem_2of2 funding_key.[LOCAL] funding_key.[REMOTE])
                  obscured_commitment_number (set_tx_outputs (slot_out <$> slots) tx);
           Ret (inr (tx, mk_sides (last_index (is_mark mark_null) slots)
                                  (last_index (is_mark dummy_to_remote) slots)))
       end)
  end.

(** ** Second-stage transactions (common/htlc_tx.c) *)

(** [None] is NULL: the amount does not cover the fee. *)
Definition htlc_tx (commit : outpoint) (commit_wscript : list Z) (amount : amount_sat_t)
    (htlc_tx_wscript : list Z) (htlc_fee : amount_sat_t) (locktime : Z) (ao az : bool)
    (channel_asset : list Z) : outcome (option bitcoin_tx) :=
  let tx := bitcoin_tx_set_output_asset params (Some channel_asset) (bitcoin_tx_new params 1 locktime) in
  assert_then (tx_version tx =? 2)
    (let tx := bitcoin_tx_add_input params sha256 commit (if ao || az then 1 else 0) amount commit_wscript tx in
     match amount_sat_sub amount htlc_fee with
     | None => Ret None
     | Some amount =>
       tx ← bitcoin_tx_add_output params (scriptpubkey_p2wsh sha256 htlc_tx_wscript) amount tx;
       tx ← bitcoin_tx_finalize params wally_tx_get_length wally_tx_to_bytes tx;
       Ret (Some tx)
     end).

Definition htlc_success_tx (commit : outpoint) (commit_wscript : list Z) (htlc_msatoshi : amount_msat_t)
    (to_self_delay feerate_per_kw : Z) (ks : keyset) (ao az : bool) (channel_asset : list Z)
  : outcome (option bitcoin_tx) :=
  fee ← htlc_success_fee params feerate_per_kw ao az;
  htlc_tx commit commit_wscript (amount_msat_to_sat_round_down htlc_msatoshi)
    (bitcoin_wscript_htlc_tx to_self_delay (self_revocation_key ks) (self_delayed_payment_key ks))
    fee 0 ao az channel_asset.

Definition htlc_timeout_tx (commit : outpoint) (commit_wscript : list Z) (htlc_msatoshi : amount_msat_t)
    (cltv_expiry to_self_delay feerate_per_kw : Z) (ks : keyset) (ao az : bool) (channel_asset : list Z)
  : outcome (option bitcoin_tx) :=
  fee ← htlc_timeout_fee params feerate_per_kw ao az;
  htlc_tx commit commit_wscript (amount_msat_to_sat_round_down htlc_msatoshi)
    (bitcoin_wscript_htlc_tx to_self_delay (self_revocation_key ks) (self_delayed_payment_key ks))
    fee cltv_expiry ao az channel_asset.

(** ** The second-stage transactions of a channel (channeld/full_channel.c) *)

(** The second-stage transaction of one HTLC output. *)
Definition htlc_tx_of (c : channel) (txid : list Z) (outnum : nat) (feerate : Z) (ks : keyset) (s : side) (h : htlc)
  : outcome (option bitcoin_tx) :=
  let ao := has_anchor_outputs c in
  let az := has_zero_fee_anchors c in
  let out := mk_outpoint txid (Z.of_nat outnum) in
  let ripemd := ripemd160 (h_rhash h) in
  let delay := to_self_delay (config c).[other s] in
  if bool_decide (htlc_owner h = s)
  then htlc_timeout_tx out (htlc_offered_wscript sha256 ripemd160 ripemd ks ao az) (h_amount h) (h_expiry h)
         delay feerate ks ao az (channel_asset c)
  else htlc_success_tx out (htlc_received_wscript sha256 ripemd160 ripemd (h_expiry h) ks ao az) (h_amount h)
         delay feerate ks ao az (channel_asset c).

Fixpoint add_htlcs_from (c : channel) (txid : list Z) (n : nat) (feerate : Z) (ks : keyset) (s : side)
    (htlcmap : list (option htlc)) : outcome (list (option bitcoin_tx)) :=
  match htlcmap with
  | [] => Ret []
  | None :: rest => add_htlcs_from c txid (S n) feerate ks s rest
  | Some h :: rest =>
    tx ← htlc_tx_of c txid n feerate ks s h;
    txs ← add_htlcs_from c txid (S n) feerate ks s rest;
    Ret (tx :: txs)
  end.
Definition add_htlcs (c : channel) (tx : bitcoin_tx) (htlcmap : list (option htlc)) (ks : keyset) (s : side)
  : outcome (list (option bitcoin_tx)) :=
  feerate ← (if channel_has c OPT_ANCHORS_ZERO_FEE_HTLC_TX then Ret 0 else channel_feerate c s);
  txid ← bitcoin_txid sha256 wally_tx_get_length wally_tx_to_bytes tx;
  add_htlcs_from c txid 0 feerate ks s htlcmap.

Context `{!Secp256k1, !Taproot, !Issuance}.

(** ** Covenant commitments (common/tcov_commit_tx.c, channeld/tcov_channel.c) *)

(** [to_handle] is the caller's HTLC. *)
Record tcov_htlc_out := mk_tcov_htlc_out {
  to_owner : side;
  to_amount : amount_msat_t;
  to_payment_ripemd : list Z;
  to_lock_point : option (list Z);
  to_cltv_expiry : Z;
  to_handle : htlc;
}.

(** [TCOV_ANCHORS] and [TCOV_ZERO_FEE_HTLC] are false. *)
Definition tcov_trimmed (h : tcov_htlc_out) (feerate_per_kw : Z) (dust_limit : amount_sat_t) (s : side) : outcome bool :=
  htlc_is_trimmed params (to_owner h) (to_amount h) feerate_per_kw dust_limit s false false.
Fixpoint tcov_num_untrimmed (l : list tcov_htlc_out) (feerate_per_kw : Z) (dust_limit : amount_sat_t) (s : side) : outcome Z :=
  match l with
  | [] => Ret 0
  | h :: l =>
    t ← tcov_trimmed h feerate_per_kw dust_limit s;
    n ← tcov_num_untrimmed l feerate_per_kw dust_limit s;
    Ret (if (t : bool) then n else 1 + n)
  end.

(** One pass over the HTLCs. *)
Fixpoint tcov_htlc_outs (offered : bool) (channel_asset : list Z) (to_self_delay : Z) (ks : keyset) (point : list Z)
    (feerate_per_kw : Z) (dust_limit : amount_sat_t) (s : side) (l : list tcov_htlc_out) (st : building) : outcome building :=
  match l with
  | [] => Ret st
  | h :: l =>
    if negb (eqb (bool_decide (to_owner h = s)) offered)
    then tcov_htlc_outs offered channel_asset to_self_delay ks point feerate_per_kw dust_limit s l st
    else
      t ← tcov_trimmed h feerate_per_kw dust_limit s;
      if (t : bool) then tcov_htlc_outs offered channel_asset to_self_delay ks point feerate_per_kw dust_limit s l st
      else
        let amt := amount_msat_to_sat_round_down (to_amount h) in
        tree ← (if offered
                then tcov_offered_htlc_tree params sha256 ripemd160 ks point to_self_delay (Some channel_asset)
                       (to_payment_ripemd h) (to_lock_point h) (to_cltv_expiry h) amt
                else tcov_received_htlc_tree params sha256 ripemd160 ks point to_self_delay (Some channel_asset)
                       (to_payment_ripemd h) (to_lock_point h) (to_cltv_expiry h) amt);
        st ← add_out (tap_tree2_scriptpubkey tree) amt (mark_htlc (to_handle h)) (to_cltv_expiry h) st;
        tcov_htlc_outs offered channel_asset to_self_delay ks point feerate_per_kw dust_limit s l st
  end.

(** The output scripts of the two balances, worth [v]. *)
Definition tcov_to_local_script (ks : keyset) (point : list Z) (to_self_delay : Z) (credit : option tcov_credit) (s : side)
    (v : amount_sat_t) : outcome (list Z) :=
  tree ← (match credit with
          | Some cr => if bool_decide (s = provider cr)
                       then credit_to_local_tree sha256 ripemd160 ks point to_self_delay (credit_params_of cr) v
                       else tcov_to_local_tree sha256 ripemd160 ks point to_self_delay
          | None => tcov_to_local_tree sha256 ripemd160 ks point to_self_delay
          end);
  Ret (tap_tree2_scriptpubkey tree).
Definition tcov_to_remote_script (ks : keyset) (credit : option tcov_credit) (s : side) (v : amount_sat_t) : outcome (list Z) :=
  match credit with
  | Some cr =>
    if bool_decide (s = provider cr) then Ret (scriptpubkey_p2wpkh sha256 ripemd160 (other_payment_key ks))
    else tree ← credit_to_remote_tree sha256 (other_payment_key ks) (window cr) (credit_params_of cr) v;
         Ret (tap_tree2_scriptpubkey tree)
  | None => Ret (scriptpubkey_p2wpkh sha256 ripemd160 (other_payment_key ks))
  end.
Definition tcov_direct_outs (ks : keyset) (point : list Z) (to_self_delay : Z) (credit : option tcov_credit) (s : side)
    (dust_limit : amount_sat_t) (self_pay other_pay : amount_msat_t) (junk : nat -> Z) (st : building) : outcome building :=
  let n st := junk (length (snd (st : building))) in
  st ← (if amount_msat_greater_eq_sat self_pay dust_limit then
          let v := amount_msat_to_sat_round_down self_pay in
          script ← tcov_to_local_script ks point to_self_delay credit s v;
          add_out script v dummy_to_local (n st) st
        else Ret st);
  if amount_msat_greater_eq_sat other_pay dust_limit then
    let v := amount_msat_to_sat_round_down other_pay in
    script ← tcov_to_remote_script ks credit s v;
    add_out script v dummy_to_remote (n st) st
  else Ret st.

(** The commitment of [s]; [initial] says whether the caller has an
    [err_reason], and [None] is NULL. *)
Definition tcov_commit_tx (funding : outpoint) (funding_sats : amount_sat_t) (channel_asset : list Z)
    (local_funding_key remote_funding_key : list Z) (opener : side) (to_self_delay : Z) (ks : keyset) (point : list Z)
    (feerate_per_kw : Z) (dust_limit : amount_sat_t) (self_pay other_pay : amount_msat_t) (l : list tcov_htlc_out)
    (obscured_commitment_number : Z) (s : side) (credit : option tcov_credit) (initial : bool) (junk : nat -> Z)
  : outcome (option commitment) :=
  match amount_msat_add self_pay other_pay with
  | None => Crash
  | Some total_pay =>
    assert_then (negb (amount_msat_greater_sat total_pay funding_sats))
      (untrimmed ← tcov_num_untrimmed l feerate_per_kw dust_limit s;
       base_fee ← commit_tx_base_fee params feerate_per_kw untrimmed false false;
       let '(ok, self_pay, other_pay) := try_subtract_fee opener s base_fee self_pay other_pay in
       if negb ok && initial then Ret None
       else
         let tx := bitcoin_tx_set_output_asset params (Some channel_asset) (bitcoin_tx_new params (untrimmed + 2) 0) in
         st ← tcov_htlc_outs true channel_asset to_self_delay ks point feerate_per_kw dust_limit s l (tx, []);
         st ← tcov_htlc_outs false channel_asset to_self_delay ks point feerate_per_kw dust_limit s l st;
         st ← tcov_direct_outs ks point to_self_delay credit s dust_limit self_pay other_pay junk st;
         let '(tx, slots) := (st : building) in
         assert_then (0 <? length slots)%nat
           (let slots := permute_outputs slots in
            tx ← finish_commit_tx funding funding_sats (bitcoin_redeem_2of2 local_funding_key remote_funding_key)
                   obscured_commitment_number (set_tx_outputs (slot_out <$> slots) tx);
            Ret (Some (mk_commitment tx
                   (map (fun sl => match slot_map sl with mark_htlc h => Some h | _ => None end) slots)
                   (mk_sides (last_index (is_mark dummy_to_local) slots) (last_index (is_mark dummy_to_remote) slots))
                   (-1)))))
  end.

(** common/initial_channel.c; [None] is NULL. *)
Definition channel_tcov_credit (keys : channel_keys) (c : channel) : option tcov_credit :=
  if channel_has c OPT_SEQ_CREDIT then
    let provider := opener c in
    tcov_credit_init sha256 ripemd160 (derive_channel_id (ChannelState.funding c)) provider (funding_pubkey keys).[provider]
      (bp_payment (chan_basepoints keys).[other provider]) (to_self_delay (config c).[other provider])
  else None.

Fixpoint tcov_htlcs_of (l : list htlc) : outcome (list tcov_htlc_out) :=
  match l with
  | [] => Ret []
  | h :: l =>
    expiry ← abs_locktime_to_blocks (h_expiry h);
    hs ← tcov_htlcs_of l;
    Ret (mk_tcov_htlc_out (htlc_owner h) (h_amount h) (ripemd160 (h_rhash h)) (h_lock_point h) expiry h :: hs)
  end.
Definition tcov_channel_commit_tx (funding : outpoint) (funding_sats : amount_sat_t)
    (local_funding_key remote_funding_key : list Z) (keys : channel_keys) (c : channel) (ks : keyset) (point : list Z)
    (self_pay other_pay : amount_msat_t) (l : list htlc) (commitment_number : Z) (s : side) (junk : nat -> Z)
  : outcome (option commitment) :=
  outs ← tcov_htlcs_of l;
  feerate ← channel_feerate c s;
  tcov_commit_tx funding funding_sats (channel_asset c) local_funding_key remote_funding_key (opener c)
    (to_self_delay (config c).[other s]) ks point feerate (conf_dust_limit (config c).[s]) self_pay other_pay outs
    (Z.lxor commitment_number (commitment_number_obscurer c)) s (channel_tcov_credit keys c) false junk.

(** ** All the transactions of a channel *)

(** The first transaction and the second-stage ones; [None] is NULL.
    [splice_amnt] and [remote_splice_amnt] are [s64]. *)
Definition channel_txs (funding : outpoint) (funding_sats : amount_sat_t) (keys : channel_keys) (c : channel)
    (per_commitment_point : list Z) (commitment_number : Z) (s : side) (splice_amnt remote_splice_amnt : Z)
    (funding_pubkeys : sides (list Z)) (want_direct : bool) (junk : nat -> Z)
  : outcome (option (commitment * list (option bitcoin_tx))) :=
  match derive_keyset sha256 per_commitment_point (chan_basepoints keys).[s] (chan_basepoints keys).[other s]
          (channel_has c OPT_STATIC_REMOTEKEY) with
  | None => Ret None
  | Some ks =>
    let funding_wscript := bitcoin_redeem_2of2 funding_pubkeys.[s] funding_pubkeys.[other s] in
    let own_splice := match s with LOCAL => splice_amnt | REMOTE => remote_splice_amnt end in
    let other_splice := match s with LOCAL => remote_splice_amnt | REMOTE => splice_amnt end in
    match amount_msat_add_sat_s64 (owed (view c).[s]).[s] own_splice with
    | None => Ret None
    | Some side_pay =>
      match amount_msat_add_sat_s64 (owed (view c).[s]).[other s] other_splice with
      | None => Ret None
      | Some other_side_pay =>
        let l := committed (gather_htlcs c s) in
        if channel_has c OPT_SEQ_SYMMETRIC then
          sc ← sym_channel_of params sha256 keys c;
          tx ← sym_kickoff_tx params sha256 wally_tx_get_length wally_tx_to_bytes funding funding_sats funding_wscript sc;
          Ret (Some (mk_commitment tx (repeat None (length (tx_outputs tx))) (mk_sides None None) (-1), []))
        else if channel_has c OPT_SEQ_TAPROOT_COVENANT then
          com ← tcov_channel_commit_tx funding funding_sats funding_pubkeys.[s] funding_pubkeys.[other s] keys c ks
                  per_commitment_point side_pay other_side_pay l commitment_number s junk;
          match com with Some com => Ret (Some (com, [])) | None => Crash end
        else
          blockheight ← channel_blockheight c s;
          feerate ← channel_feerate c s;
          com ← commit_tx funding funding_sats funding_pubkeys.[s] funding_pubkeys.[other s] (opener c)
                  (to_self_delay (config c).[other s]) (lease_expiry c) blockheight ks feerate
                  (conf_dust_limit (config c).[s]) side_pay other_side_pay l want_direct
                  (Z.lxor commitment_number (commitment_number_obscurer c))
                  (has_anchor_outputs c) (has_zero_fee_anchors c) s (channel_asset c) junk;
          txs ← add_htlcs c (com_tx com) (com_htlcmap com) ks s;
          Ret (Some (com, txs))
      end
    end
  end.

(** ** The first commitment of a channel (common/initial_channel.c) *)

Inductive initial_channel_error := cannot_derive_keyset | neither_exceeds_reserve | initial_fails (e : initial_error).

(** [csv_lock] is [u32]. *)
Definition initial_channel_tx (keys : channel_keys) (c : channel) (per_commitment_point : list Z) (s : side)
    (junk : nat -> Z) : outcome (initial_channel_error + bitcoin_tx * sides (option nat)) :=
  assert_then (match htlcs c with None => true | Some _ => false end)
  match derive_keyset sha256 per_commitment_point (chan_basepoints keys).[s] (chan_basepoints keys).[other s]
          (channel_has c OPT_STATIC_REMOTEKEY) with
  | None => Ret (inl cannot_derive_keyset)
  | Some ks =>
    let self_pay := (owed (view c).[s]).[s] in
    let other_pay := (owed (view c).[s]).[other s] in
    let reserve := channel_reserve (config c).[other s] in
    if channel_has c OPT_SEQ_SYMMETRIC then
      '(tx, _) ← sym_channel_kickoff params sha256 wally_tx_get_length wally_tx_to_bytes keys c;
      Ret (inr (tx, mk_sides None None))
    else if channel_has c OPT_SEQ_TAPROOT_COVENANT then
      if negb (amount_msat_greater_sat self_pay reserve) && negb (amount_msat_greater_sat other_pay reserve)
      then Ret (inl neither_exceeds_reserve)
      else
        feerate ← channel_feerate c s;
        com ← tcov_commit_tx (ChannelState.funding c) (ChannelState.funding_sats c) (channel_asset c)
                (funding_pubkey keys).[s] (funding_pubkey keys).[other s] (opener c) (to_self_delay (config c).[other s])
                ks per_commitment_point feerate (conf_dust_limit (config c).[s]) self_pay other_pay []
                (commitment_number_obscurer c) s (channel_tcov_credit keys c) true junk;
        Ret (match com with
             | Some com => inr (com_tx com, com_direct com)
             | None => inl (initial_fails cannot_afford_fee)
             end)
    else
      csv_lock ← (if lease_expiry c =? 0 then Ret 1
                  else h ← channel_blockheight c s; Ret (wrap_u32 (lease_expiry c - h)));
      feerate ← channel_feerate c s;
      r ← initial_commit_tx (ChannelState.funding c) (ChannelState.funding_sats c) (Some (channel_asset c))
            (funding_pubkey keys) (opener c) (to_self_delay (config c).[other s]) ks feerate
            (conf_dust_limit (config c).[s]) self_pay other_pay reserve (commitment_number_obscurer c) s csv_lock
            (has_anchor_outputs c) (has_zero_fee_anchors c);
      Ret (match r with inl e => inl (initial_fails e) | inr x => inr x end)
  end.
End Commit.
