(* ===== verification/Signature.v ===== *)
(** * Signatures of transactions (bitcoin/signature.c)

    Curve arithmetic is libsecp256k1's and the hash of a transaction libwally's:
    they are arguments, with what their documentation promises as a class of
    laws.  [sign_hash] grinds for a signature with a small R; the number of
    attempts looked at is an argument. *)

From stdpp Require Import list.
From S2P Require Import Prelude Chainparams Amount Script Keys ChannelState Tx.
Local Open Scope Z_scope.

Definition SIGHASH_ALL := 1.
Definition SIGHASH_SINGLE := 3.
Definition SIGHASH_ANYONECANPAY := 0x80.
Definition sighash_type_valid (t : Z) : bool :=
  (t =? SIGHASH_ALL) || (t =? Z.lor SIGHASH_SINGLE SIGHASH_ANYONECANPAY).

(** libsecp256k1's signatures.  [ecdsa_sign] takes the hash, the secret and the
    extra entropy, and gives what it returns and the signature. *)
Class Ecdsa := {
  ecdsa_signature : Type;
  ecdsa_sign : list Z -> list Z -> option (list Z) -> bool * ecdsa_signature;
  ecdsa_verify : ecdsa_signature -> list Z -> list Z -> bool;
  ecdsa_serialize_compact : ecdsa_signature -> list Z;
  ecdsa_serialize_der : ecdsa_signature -> list Z;
  ecdsa_parse_der : list Z -> option ecdsa_signature;
}.

(** A signature that was made verifies; the DER form is read back. *)
Class EcdsaLaws `(Secp256k1) `(Ecdsa) : Prop := {
  sign_verifies h k e s p :
    ecdsa_sign h k e = (true, s) -> ec_pubkey_create k = Some p -> ecdsa_verify s h p = true;
  parse_serialize_der s : ecdsa_parse_der (ecdsa_serialize_der s) = Some s;
}.

(** ** The encoding of a signature *)

(** The shortest encoding of a positive integer, as the code tests it at an
    offset. *)
Definition bad_integer (sig : list Z) (at_ : nat) (len : Z) : bool :=
  (len =? 0) || negb (Z.land (byte sig at_) 0x80 =? 0)
  || (1 <? len) && (byte sig at_ =? 0) && (Z.land (byte sig (at_ + 1)) 0x80 =? 0).

Definition IsValidSignatureEncoding (sig : list Z) : bool :=
  let len := Z.of_nat (length sig) in
  if len <? 9 then false else
  if 73 <? len then false else
  if negb (byte sig 0 =? 0x30) then false else
  if negb (byte sig 1 =? len - 3) then false else
  let lenR := byte sig 3 in
  if len <=? 5 + lenR then false else
  let lenS := byte sig (Z.to_nat (5 + lenR)) in
  if negb (lenR + lenS + 7 =? len) then false else
  if negb (byte sig 2 =? 0x02) then false else
  if bad_integer sig 4 lenR then false else
  if negb (byte sig (Z.to_nat (lenR + 4)) =? 0x02) then false else
  if bad_integer sig (Z.to_nat (lenR + 6)) lenS then false else
  true.

Section Sign.
Context (params : chainparams) `{Ecdsa}.

Record bitcoin_signature := mk_signature { sig_s : ecdsa_signature; sighash_type : Z }.

Definition signature_to_der (sig : bitcoin_signature) : outcome (list Z) :=
  let der := ecdsa_serialize_der (sig_s sig) ++ [wrap_u8 (sighash_type sig)] in
  assert_then (IsValidSignatureEncoding der) (Ret der).

Definition signature_from_der (der : list Z) : option bitcoin_signature :=
  match last der with
  | None => None
  | Some t =>
    s ← ecdsa_parse_der (take (length der - 1) der);
    if negb (sighash_type_valid t) then None else Some (mk_signature s t)
  end.

(** ** Grinding *)

(** No grinding, and the number of attempts that are looked at. *)
Context (dev_no_signature_grind : bool) (attempts : nat).

Definition sig_has_low_r (s : ecdsa_signature) : bool := byte (ecdsa_serialize_compact s) 0 <? 0x80.

(** The 32 bytes of entropy of the [n]th attempt, whose first word is a [u32]
    counter (of a little-endian machine). *)
Definition extra_entropy (n : Z) : list Z := le_bytes 4 (wrap_u32 n) ++ repeat 0 28.

(** The loop; [None] when every attempt has a high R. *)
Fixpoint grind (k : nat) (n : Z) (privkey h : list Z) : option (bool * ecdsa_signature) :=
  match k with
  | O => None
  | S k =>
    let r := ecdsa_sign h privkey (if dev_no_signature_grind then None else Some (extra_entropy n)) in
    if dev_no_signature_grind || sig_has_low_r (snd r) then Some r else grind k (n + 1) privkey h
  end.

(** [Crash] is the failed assertion, or a search longer than [attempts]. *)
Definition sign_hash (privkey h : list Z) : outcome ecdsa_signature :=
  match grind attempts 0 privkey h with
  | Some (ok, s) => assert_then ok (Ret s)
  | None => Crash
  end.

(** ** Transactions *)

(** libwally's: the 9-byte form of a value, and the hash of an input with its
    script, its value and the type. *)
Context (confidential_value_from_satoshi : Z -> option (list Z))
        (elements_signature_hash : bitcoin_tx -> nat -> list Z -> list Z -> Z -> option (list Z))
        (btc_signature_hash : bitcoin_tx -> nat -> list Z -> Z -> Z -> option (list Z)).

(** bitcoin/psbt.c: the inputs of the transactions modelled have their
    [witness_utxo]. *)
Definition psbt_input_get_amount (tx : bitcoin_tx) (input : nat) : outcome amount_sat_t :=
  match tx_inputs tx !! input with
  | None => Crash
  | Some i => asset ← wally_tx_output_get_amount params (in_utxo i); Ret (mk_sat (asset_value asset))
  end.

(** A call that fails is a failed assertion. *)
Definition wally_ok {A} (o : option A) : outcome A := match o with Some a => Ret a | None => Crash end.

Definition bitcoin_tx_hash_for_sig (tx : bitcoin_tx) (input : nat) (script : list Z) (type : Z) : outcome (list Z) :=
  amount ← psbt_input_get_amount tx input;
  if is_elements params then
    value ← wally_ok (confidential_value_from_satoshi (satoshis amount));
    wally_ok (elements_signature_hash tx input script value type)
  else wally_ok (btc_signature_hash tx input script (satoshis amount) type).

(** The script of an input: the witness script, if there is one. *)
Definition sig_script (subscript witness_script : option (list Z)) : list Z :=
  match witness_script with Some w => w | None => default [] subscript end.

Definition sign_tx_input (tx : bitcoin_tx) (input : nat) (subscript witness_script : option (list Z))
    (privkey : list Z) (type : Z) : outcome bitcoin_signature :=
  assert_then (sighash_type_valid type)
    (hash ← bitcoin_tx_hash_for_sig tx input (sig_script subscript witness_script) type;
     s ← sign_hash privkey hash;
     Ret (mk_signature s type)).

Definition check_signed_hash (hash : list Z) (s : ecdsa_signature) (key : list Z) : bool := ecdsa_verify s hash key.

Definition check_tx_sig (tx : bitcoin_tx) (input : nat) (redeemscript witness_script : option (list Z))
    (key : list Z) (sig : bitcoin_signature) : outcome bool :=
  if negb (sighash_type sig =? SIGHASH_ALL)
     && (bool_decide (witness_script = None)
         || negb (sighash_type sig =? Z.lor SIGHASH_SINGLE SIGHASH_ANYONECANPAY))
  then Ret false
  else
    assert_then (input <? length (tx_inputs tx))%nat
      (hash ← bitcoin_tx_hash_for_sig tx input (sig_script redeemscript witness_script) (sighash_type sig);
       Ret (check_signed_hash hash (sig_s sig) key)).
End Sign.

(** ** Theorems *)

(** A positive integer in its shortest big-endian form. *)
Definition der_integer (l : list Z) : Prop :=
  match l with
  | [] => False
  | b :: r => Z.land b 0x80 = 0 /\ (b = 0 -> match r with [] => True | c :: _ => Z.land c 0x80 <> 0 end)
  end.

Lemma byte_app_r l k i : byte (l ++ k) (length l + i) = byte k i.
Proof. unfold byte. rewrite app_nth2 by lia. f_equal. lia. Qed.

Lemma bad_integer_at pre l post :
  bad_integer (pre ++ l ++ post) (length pre) (Z.of_nat (length l)) = false <-> der_integer l.
Proof.
  unfold bad_integer. rewrite <- (Nat.add_0_r (length pre)) at 1 2. rewrite !byte_app_r.
  destruct l as [|b [|c l]]; cbn [length app]; unfold byte, der_integer; cbn [nth].
  - cbn. split; [done|tauto].
  - rewrite !orb_false_iff, negb_false_iff, Z.eqb_eq. cbn. tauto.
  - rewrite (proj2 (Z.eqb_neq (Z.of_nat (S (S (length l)))) 0)) by lia.
    rewrite (proj2 (Z.ltb_lt 1 (Z.of_nat (S (S (length l)))))) by lia.
    cbn [orb andb]. rewrite orb_false_iff, negb_false_iff, andb_false_iff, Z.eqb_eq, !Z.eqb_neq.
    split; [intros [? [?|?]]|intros [? ?]]; split; try done; try tauto.
    destruct (decide (b = 0)); tauto.
Qed.

(** The bytes of a signature with its parts. *)
Definition encoding (R S : list Z) (type : Z) : list Z :=
  [0x30; Z.of_nat (length R) + Z.of_nat (length S) + 4; 0x02; Z.of_nat (length R)] ++ R
  ++ [0x02; Z.of_nat (length S)] ++ S ++ [type].

Lemma encoding_length R S type : length (encoding R S type) = (length R + length S + 7)%nat.
Proof. unfold encoding. rewrite !length_app. cbn. lia. Qed.

Lemma split_at (sig : list Z) n : (n <= length sig)%nat -> exists a b, sig = a ++ b /\ length a = n.
Proof. intros Hn. exists (take n sig), (drop n sig). rewrite take_drop. by rewrite length_take_le. Qed.

Lemma encoding_valid R S type :
  der_integer R -> der_integer S -> (length R + length S <= 66)%nat ->
  IsValidSignatureEncoding (encoding R S type) = true.
Proof.
  intros HR HS Hl. unfold IsValidSignatureEncoding. rewrite encoding_length.
  assert (length R <> 0 /\ length S <> 0)%nat by (by destruct R, S).
  rewrite (proj2 (Z.ltb_ge _ 9)), (proj2 (Z.ltb_ge 73 _)) by lia.
  change (byte (encoding R S type) 0) with 0x30.
  change (byte (encoding R S type) 1) with (Z.of_nat (length R) + Z.of_nat (length S) + 4).
  change (byte (encoding R S type) 2) with 0x02. change (byte (encoding R S type) 3) with (Z.of_nat (length R)).
  cbn [negb Z.eqb Pos.eqb]. rewrite (proj2 (Z.eqb_eq _ _)) by lia.
  rewrite (proj2 (Z.leb_gt _ _)) by lia. cbn [negb].
  set (pre := [0x30; Z.of_nat (length R) + Z.of_nat (length S) + 4; 0x02; Z.of_nat (length R)]).
  assert (E1 : encoding R S type = pre ++ R ++ [0x02; Z.of_nat (length S)] ++ S ++ [type]) by done.
  assert (E2 : encoding R S type = (pre ++ R ++ [0x02; Z.of_nat (length S)]) ++ S ++ [type])
    by (by rewrite E1, <- !app_assoc).
  assert (E3 : encoding R S type = (pre ++ R) ++ [0x02; Z.of_nat (length S)] ++ S ++ [type])
    by (by rewrite E1, <- !app_assoc).
  assert (B : forall i, byte (encoding R S type) (length (pre ++ R) + i)
                        = byte ([0x02; Z.of_nat (length S)] ++ S ++ [type]) i) by (intros; by rewrite E3, byte_app_r).
  replace (Z.to_nat (5 + Z.of_nat (length R))) with (length (pre ++ R) + 1)%nat by (rewrite length_app; cbn; lia).
  replace (Z.to_nat (Z.of_nat (length R) + 4)) with (length (pre ++ R) + 0)%nat by (rewrite length_app; cbn; lia).
  replace (Z.to_nat (Z.of_nat (length R) + 6)) with (length (pre ++ R ++ [0x02; Z.of_nat (length S)]))
    by (rewrite !length_app; cbn; lia).
  rewrite !B. cbn [app byte nth negb Z.eqb Pos.eqb]. rewrite (proj2 (Z.eqb_eq _ _)) by lia. cbn [negb].
  rewrite E1 at 1. rewrite (proj2 (bad_integer_at pre R _)) by done.
  rewrite E2. by rewrite (proj2 (bad_integer_at _ S _)).
Qed.

Lemma valid_encoding_checks sig (len := Z.of_nat (length sig)) (lenR := byte sig 3)
    (lenS := byte sig (Z.to_nat (5 + lenR))) :
  IsValidSignatureEncoding sig = true ->
  (9 <= len <= 73 /\ byte sig 0 = 0x30 /\ byte sig 1 = len - 3 /\ byte sig 2 = 0x02)
  /\ (5 + lenR < len /\ lenR + lenS + 7 = len /\ byte sig (Z.to_nat (lenR + 4)) = 0x02)
  /\ bad_integer sig 4 lenR = false /\ bad_integer sig (Z.to_nat (lenR + 6)) lenS = false.
Proof.
  unfold IsValidSignatureEncoding. fold len. cbv zeta. fold lenR. fold lenS.
  destruct (Z.ltb_spec len 9) as [|H1]; [done|]. destruct (Z.ltb_spec 73 len) as [|H2]; [done|].
  destruct (Z.eqb_spec (byte sig 0) 0x30) as [E0|]; cbn [negb]; [|done].
  destruct (Z.eqb_spec (byte sig 1) (len - 3)) as [E1|]; cbn [negb]; [|done].
  destruct (Z.leb_spec len (5 + lenR)) as [|H3]; [done|].
  destruct (Z.eqb_spec (lenR + lenS + 7) len) as [E4|]; cbn [negb]; [|done].
  destruct (Z.eqb_spec (byte sig 2) 0x02) as [E2|]; cbn [negb]; [|done].
  destruct (bad_integer sig 4 lenR) eqn:B1; [done|].
  destruct (Z.eqb_spec (byte sig (Z.to_nat (lenR + 4))) 0x02) as [E5|]; cbn [negb]; [|done].
  by destruct (bad_integer sig (Z.to_nat (lenR + 6)) lenS) eqn:B2.
Qed.

Lemma valid_encoding_split sig :
  Forall (fun b => 0 <= b < 256) sig -> IsValidSignatureEncoding sig = true ->
  exists R S type, sig = encoding R S type /\ (length R + length S <= 66)%nat /\ der_integer R /\ der_integer S.
Proof.
  intros Hb ((H1 & E0 & E1 & E2) & (H3 & E4 & E5) & B1 & B2)%valid_encoding_checks.
  assert (Hbyte : forall i, 0 <= byte sig i).
  { intros i. unfold byte. destruct (nth_in_or_default i sig 0) as [Hi| ->]; [|done].
    rewrite List.Forall_forall in Hb. apply Hb in Hi. lia. }
  pose proof (Hbyte 3%nat) as G3. pose proof (Hbyte (Z.to_nat (5 + byte sig 3))) as G4.
  destruct sig as [|s0 [|s1 [|s2 [|s3 rest]]]]; try (cbn in H1; lia).
  change (byte (s0 :: s1 :: s2 :: s3 :: rest) 3) with s3 in *. cbn [byte nth] in E0, E1, E2. subst s0 s2.
  cbn [length] in H1, H3, E1, E4.
  destruct (split_at rest (Z.to_nat s3)) as (R & r1 & -> & HR); [lia|]. rewrite length_app in *.
  assert (Es3 : s3 = Z.of_nat (length R)) by lia. subst s3.
  destruct r1 as [|t0 [|t1 r2]]; [cbn in *; lia..|].
  set (pre := [0x30; s1; 0x02; Z.of_nat (length R)]) in *.
  change (0x30 :: s1 :: 0x02 :: Z.of_nat (length R) :: R ++ t0 :: t1 :: r2) with (pre ++ R ++ t0 :: t1 :: r2) in *.
  assert (B : forall i, byte (pre ++ R ++ t0 :: t1 :: r2) (length (pre ++ R) + i) = byte (t0 :: t1 :: r2) i)
    by (intros; by rewrite app_assoc, byte_app_r).
  replace (Z.to_nat (5 + Z.of_nat (length R))) with (length (pre ++ R) + 1)%nat in * by (rewrite length_app; cbn; lia).
  replace (Z.to_nat (Z.of_nat (length R) + 4)) with (length (pre ++ R) + 0)%nat in * by (rewrite length_app; cbn; lia).
  rewrite !B in *. cbn [byte nth] in *. subst t0. cbn [length] in *.
  destruct (split_at r2 (Z.to_nat t1)) as (S & r3 & -> & HS); [lia|]. rewrite length_app in *.
  destruct r3 as [|type [|]]; [cbn in *; lia| |cbn in *; lia].
  exists R, S, type. assert (t1 = Z.of_nat (length S)) as -> by lia. cbn [length] in *. split.
  { unfold encoding, pre. cbn. repeat f_equal. lia. }
  split; [lia|split].
  - by apply (bad_integer_at pre R (2 :: Z.of_nat (length S) :: S ++ [type])).
  - apply (bad_integer_at (pre ++ R ++ [2; Z.of_nat (length S)]) S [type]). rewrite <- B2. f_equal.
    + by rewrite <- !app_assoc.
    + rewrite !length_app. cbn. lia.
Qed.

(** [IsValidSignatureEncoding] accepts exactly the strings of at most 73
    bytes of the form [0x30 len 0x02 len R 0x02 len S type] with two positive
    integers in their shortest form. *)
Theorem valid_encodings sig :
  Forall (fun b => 0 <= b < 256) sig ->
  (IsValidSignatureEncoding sig = true <->
   exists R S type, sig = encoding R S type /\ (length R + length S <= 66)%nat /\ der_integer R /\ der_integer S).
Proof.
  intros Hb. split; [by apply valid_encoding_split|]. intros (R & S & type & -> & Hl & HR & HS). by apply encoding_valid.
Qed.

Section SignFacts.
#[local] Set Default Proof Using "Type*".
Context (params : chainparams) `{!Secp256k1} `{!Ecdsa} `{!EcdsaLaws _ _}.
Context (no_grind : bool) (attempts : nat).
Context (conf_value : Z -> option (list Z))
        (elements_hash : bitcoin_tx -> nat -> list Z -> list Z -> Z -> option (list Z))
        (btc_hash : bitcoin_tx -> nat -> list Z -> Z -> Z -> option (list Z)).
Notation sign_tx_input := (sign_tx_input params no_grind attempts conf_value elements_hash btc_hash).
Notation check_tx_sig := (check_tx_sig params conf_value elements_hash btc_hash).

(** A signature is read back from its DER form with its type. *)
Theorem der_round_trip sig der :
  sighash_type_valid (sighash_type sig) = true -> signature_to_der sig = Ret der ->
  signature_from_der der = Some sig.
Proof.
  intros Ht. unfold signature_to_der. destruct (IsValidSignatureEncoding _); [|done]. intros [= <-].
  assert (Hw : wrap_u8 (sighash_type sig) = sighash_type sig).
  { unfold sighash_type_valid in Ht. apply orb_prop in Ht as [->%Z.eqb_eq| ->%Z.eqb_eq]; done. }
  unfold signature_from_der. rewrite last_snoc, Hw, length_app, Nat.add_sub, take_app_length.
  rewrite parse_serialize_der. cbn. rewrite Ht. by destruct sig.
Qed.

(** What grinding finds: an attempt, the first with a low R if it grinds. *)
Lemma grind_attempt k n privkey h r :
  grind no_grind k n privkey h = Some r -> exists e, ecdsa_sign h privkey e = r.
Proof.
  revert n. induction k as [|k IH]; intros n; [done|]. cbn.
  destruct (_ || _); [|apply IH]. intros [= <-]. by eexists.
Qed.
Lemma grind_finds k n privkey h m :
  (m < k)%nat -> sig_has_low_r (snd (ecdsa_sign h privkey (Some (extra_entropy (n + Z.of_nat m))))) = true ->
  exists j, (j <= m)%nat /\ grind false k n privkey h = Some (ecdsa_sign h privkey (Some (extra_entropy (n + Z.of_nat j)))).
Proof.
  revert n m. induction k as [|k IH]; intros n m Hm Hlow; [lia|]. cbn [grind orb].
  destruct (sig_has_low_r (snd (ecdsa_sign h privkey (Some (extra_entropy n))))) eqn:E.
  { exists 0%nat. rewrite Z.add_0_r. split; [lia|done]. }
  destruct m as [|m]; [rewrite Z.add_0_r in Hlow; congruence|].
  destruct (IH (n + 1) m ltac:(lia)) as (j & Hj & Eg).
  { by replace (n + 1 + Z.of_nat m) with (n + Z.of_nat (S m)) by lia. }
  exists (S j). split; [lia|]. by replace (n + Z.of_nat (S j)) with (n + 1 + Z.of_nat j) by lia.
Qed.

(** [sign_hash] returns: if one of the attempts has a low R and those up to
    it succeed, its loop stops at the first with a low R and the signature
    verifies. *)
Theorem sign_hash_returns privkey key h m :
  no_grind = false -> (m < attempts)%nat -> ec_pubkey_create privkey = Some key ->
  (forall j, (j <= m)%nat -> fst (ecdsa_sign h privkey (Some (extra_entropy (Z.of_nat j)))) = true) ->
  sig_has_low_r (snd (ecdsa_sign h privkey (Some (extra_entropy (Z.of_nat m))))) = true ->
  exists s, sign_hash no_grind attempts privkey h = Ret s /\ check_signed_hash h s key = true.
Proof.
  intros -> Hm Hk Hok Hlow. unfold sign_hash.
  destruct (grind_finds attempts 0 privkey h m Hm Hlow) as (j & Hj & ->).
  specialize (Hok j Hj). rewrite Z.add_0_l. destruct (ecdsa_sign _ _ _) as [ok s] eqn:E. cbn in Hok. subst ok.
  exists s. split; [done|]. by eapply sign_verifies.
Qed.

Lemma sign_hash_verifies privkey key h s :
  ec_pubkey_create privkey = Some key -> sign_hash no_grind attempts privkey h = Ret s -> check_signed_hash h s key = true.
Proof.
  intros Hk. unfold sign_hash. destruct (grind _ _ _ _ _) as [[ok s']|] eqn:E; [|done].
  destruct ok; [|done]. intros [= <-]. apply grind_attempt in E as [e E]. by eapply sign_verifies.
Qed.

(** A signature checks against what it was made for. *)
Lemma sign_check tx input subscript wscript privkey key type sig :
  ec_pubkey_create privkey = Some key ->
  sign_tx_input tx input subscript (Some wscript) privkey type = Ret sig ->
  check_tx_sig tx input subscript (Some wscript) key sig = Ret true /\ sighash_type sig = type.
Proof.
  intros Hk E. unfold Signature.sign_tx_input in E. destruct (sighash_type_valid type) eqn:Ht; [|done].
  cbn [assert_then] in E. apply bind_Ret_inv in E as (hash & E0 & E). apply bind_Ret_inv in E as (s & E1 & E). injection E as <-. cbn [sig_s sighash_type]. split; [|done].
  unfold Signature.check_tx_sig. cbn [sig_s sighash_type].
  assert (Hg : negb (type =? SIGHASH_ALL)
               && (bool_decide (Some wscript = None) || negb (type =? Z.lor SIGHASH_SINGLE SIGHASH_ANYONECANPAY)) = false).
  { unfold sighash_type_valid in Ht. rewrite bool_decide_eq_false_2 by done.
    destruct (type =? SIGHASH_ALL); [done|]. cbn in Ht |- *. by rewrite Ht. }
  rewrite Hg. assert (Hin : (input <? length (tx_inputs tx))%nat = true).
  { unfold bitcoin_tx_hash_for_sig, psbt_input_get_amount in E0.
    destruct (tx_inputs tx !! input) eqn:El; [|done]. apply Nat.ltb_lt. by eapply lookup_lt_Some. }
  rewrite Hin. cbn [assert_then sig_script] in *. rewrite E0. cbn. f_equal. by eapply sign_hash_verifies.
Qed.
End SignFacts.

(** ** Examples *)

(** Signatures over the group of [Keys.Toy]: the product of hash and secret;
    every other attempt has a high R. *)
Module ToySig.
#[export] Instance ecdsa : Ecdsa := {
  ecdsa_signature := list Z;
  ecdsa_sign h k e :=
    (true, [0x30; 6; 2; 1; byte (default [] e) 0 mod 128; 2; 1; (le_value h * Toy.scalar k) mod 101]);
  ecdsa_verify s h p := byte s 7 =? (le_value h * byte p 1) mod 101;
  ecdsa_serialize_compact s := [if Z.even (byte s 4) then 200 else byte s 4];
  ecdsa_serialize_der s := s;
  ecdsa_parse_der := Some;
}.
#[export] Instance laws : EcdsaLaws Toy.secp ecdsa.
Proof.
  split; [|done]. cbn -[Z.modulo le_value Toy.scalar Toy.point]. intros h k e s p [= <-] [= <-].
  apply Z.eqb_eq. unfold Toy.point. cbn [byte nth]. by rewrite Zmult_mod_idemp_r.
Qed.
End ToySig.
Import Toy ToySig.

Lemma valid_encodings_witness :
  IsValidSignatureEncoding (encoding [0; 0x80] [5] 1) = true /\ IsValidSignatureEncoding (encoding [0; 5] [5] 1) = false.
Proof.
  split.
  - apply valid_encodings; [repeat constructor; lia|]. exists [0; 0x80], [5], 1. cbn. split; [done|]. split; [lia|]. done.
  - reflexivity.
Defined.

Lemma der_round_trip_witness :
  signature_from_der (H := ecdsa) [0x30; 6; 2; 1; 1; 2; 1; 7; 1]
  = Some (mk_signature (H := ecdsa) [0x30; 6; 2; 1; 1; 2; 1; 7] 1).
Proof. apply (der_round_trip (mk_signature (H := ecdsa) [0x30; 6; 2; 1; 1; 2; 1; 7] 1)); reflexivity. Defined.

Lemma sign_hash_returns_witness :
  exists s, sign_hash (H := ecdsa) false 2 [3] [9] = Ret s /\ check_signed_hash [9] s (Toy.point 3) = true.
Proof.
  apply (sign_hash_returns false 2 [3] (Toy.point 3) [9] 1); [done|lia|reflexivity| |reflexivity].
  intros j _. reflexivity.
Defined.
