(* ===== verification/LaneWire.v ===== *)
(** * The lanes of a channel in its opening (common/sym_lanes.c)

    What [open_channel], [funding_created] and [funding_signed] carry of the
    other lanes of a channel of several assets: each lane's asset and value,
    the output that funds it with a signature on its kickoff, and the
    signatures in answer; and that each reads back as it was written. *)

From stdpp Require Import list.
From S2P Require Import Prelude Chainparams Amount Wire Script Keys ChannelState Tx SymState Signature.
Local Open Scope Z_scope.

(** libsecp256k1's reader of the 64-byte form of a signature. *)
Class CompactSigs `(Ecdsa) := { ecdsa_parse_compact : list Z -> option ecdsa_signature }.
Class CompactLaws `(CompactSigs) : Prop := {
  compact_length s : length (ecdsa_serialize_compact s) = 64%nat;
  parse_serialize_compact s : ecdsa_parse_compact (ecdsa_serialize_compact s) = Some s;
}.

Section Blobs.
Context `{Ecdsa, !CompactSigs _} (unset : ecdsa_signature).

Definition towire_ecdsa_signature (s : ecdsa_signature) : list Z := ecdsa_serialize_compact s.
(** The caller's signature stays as it was ([unset]) where nothing is read. *)
Definition fromwire_ecdsa_signature : reader ecdsa_signature :=
  r ← fromwire 64;
  match r with
  | None => mret unset
  | Some compact =>
    match ecdsa_parse_compact compact with Some s => mret s | None => _ ← fromwire_fail; mret unset end
  end.

Fixpoint read_n {A} (r : reader A) (n : nat) : reader (list A) :=
  match n with O => mret [] | S n => a ← r; l ← read_n r n; mret (a :: l) end.
(** A blob is read whole, or not at all. *)
Definition read_blob {A} (r : reader A) (blob : list Z) : option A :=
  let '(a, c) := r (mk_cursor (Some blob) (length blob)) in
  match ptr c with Some _ => if (max c =? 0)%nat then Some a else None | None => None end.

Definition sym_lanes_open_blob (lanes : list sym_lane) : list Z :=
  towire_u16 (Z.of_nat (length lanes))
  ++ concat ((fun l => lane_asset l ++ towire_amount_sat (lane_funding_sats l)) <$> lanes).
Definition open_lane : reader sym_lane := a ← fromwire_copy 33; v ← fromwire_amount_sat; mret (mk_lane a 0 v).
(** [None] is false, which a wrong count gives at once. *)
Definition sym_lanes_from_open_blob (blob : list Z) : option (list sym_lane) :=
  read_blob
    (n ← fromwire_u16;
     if Z.of_nat SYM_MAX_LANES <? n then _ ← fromwire_fail; mret [] else read_n open_lane (Z.to_nat n)) blob.

Definition sym_lanes_created_blob (lanes : list sym_lane) (sigs : list ecdsa_signature) : outcome (list Z) :=
  assert_then (length sigs =? length lanes)%nat
    (Ret (towire_u16 (Z.of_nat (length lanes))
          ++ concat ((fun x => towire_u32 (lane_outnum (fst x)) ++ towire_ecdsa_signature (snd x)) <$> zip lanes sigs))).
Definition created_lane : reader (Z * ecdsa_signature) := n ← fromwire_u32; s ← fromwire_ecdsa_signature; mret (n, s).
Definition sym_lanes_from_created_blob (blob : list Z) (nlanes : nat) : option (list (Z * ecdsa_signature)) :=
  read_blob
    (n ← fromwire_u16;
     if negb (n =? Z.of_nat nlanes) then _ ← fromwire_fail; mret [] else read_n created_lane nlanes) blob.

Definition sym_lanes_signed_blob (sigs : list ecdsa_signature) : list Z :=
  towire_u16 (Z.of_nat (length sigs)) ++ concat (towire_ecdsa_signature <$> sigs).
Definition sym_lanes_from_signed_blob (blob : list Z) (nlanes : nat) : option (list ecdsa_signature) :=
  read_blob
    (n ← fromwire_u16;
     if negb (n =? Z.of_nat nlanes) then _ ← fromwire_fail; mret [] else read_n fromwire_ecdsa_signature nlanes) blob.

(** ** Reading back *)

Context `{!CompactLaws _}.

Lemma reads_ecdsa s : reads fromwire_ecdsa_signature s (towire_ecdsa_signature s).
Proof using CompactLaws0.
  unfold fromwire_ecdsa_signature, towire_ecdsa_signature. pose proof (reads_fromwire (ecdsa_serialize_compact s)) as Hr. rewrite compact_length in Hr.
  eapply reads_then; [exact Hr|]. cbv iota. rewrite parse_serialize_compact. apply reads_ret.
Qed.
Lemma reads_n {A} (r : reader A) (put : A -> list Z) l : Forall (fun a => reads r a (put a)) l -> reads (read_n r (length l)) l (concat (put <$> l)).
Proof using Type.
  induction 1 as [|a l Ha _ IH]; [apply reads_ret|]. rewrite fmap_cons. cbn [length read_n concat]. eapply reads_bind; [exact Ha|].
  eapply reads_then; [exact IH|]. apply reads_ret.
Qed.
Lemma read_blob_reads {A} (r : reader A) v blob : reads r v blob -> read_blob r blob = Some v.
Proof using Type.
  intros Hr. specialize (Hr [] 0%nat ltac:(done)). rewrite app_nil_r, Nat.add_0_r in Hr. unfold read_blob. by rewrite Hr.
Qed.

Lemma open_blob_reads lanes : (length lanes <= SYM_MAX_LANES)%nat ->
  Forall (fun l => length (lane_asset l) = 33%nat /\ wf_sat (lane_funding_sats l) /\ lane_outnum l = 0) lanes ->
  sym_lanes_from_open_blob (sym_lanes_open_blob lanes) = Some lanes.
Proof using Type.
  intros Hn Hl. unfold SYM_MAX_LANES in Hn. unfold sym_lanes_from_open_blob, sym_lanes_open_blob. rewrite (read_blob_reads _ lanes); [done|].
  eapply reads_bind; [apply reads_u16; lia|]. rewrite (proj2 (Z.ltb_ge _ _)) by (unfold SYM_MAX_LANES; lia). rewrite Nat2Z.id.
  apply (reads_n _ (fun l => lane_asset l ++ towire_amount_sat (lane_funding_sats l))).
  eapply Forall_impl; [exact Hl|]. intros [a o v] (Ha & Hv & Ho). cbn in *. subst o. unfold open_lane.
  eapply reads_bind; [by apply reads_copy|]. eapply reads_then; [by apply reads_amount_sat|]. apply reads_ret.
Qed.
Lemma created_blob_reads lanes sigs blob : (length lanes <= SYM_MAX_LANES)%nat -> Forall (fun l => in_u32 (lane_outnum l)) lanes ->
  sym_lanes_created_blob lanes sigs = Ret blob ->
  sym_lanes_from_created_blob blob (length lanes) = Some (zip (lane_outnum <$> lanes) sigs).
Proof using CompactLaws0.
  intros Hn Hl E. unfold sym_lanes_created_blob, assert_then in E. destruct (_ =? _)%nat eqn:El in E; [|done]. apply Nat.eqb_eq in El.
  apply Ret_inj in E as <-. unfold SYM_MAX_LANES in Hn. unfold sym_lanes_from_created_blob. rewrite (read_blob_reads _ (zip (lane_outnum <$> lanes) sigs)); [done|].
  eapply reads_bind; [apply reads_u16; lia|]. rewrite Z.eqb_refl. cbn [negb].
  replace (concat _) with (concat ((fun x => towire_u32 (fst x) ++ towire_ecdsa_signature (snd x)) <$> zip (lane_outnum <$> lanes) sigs)).
  2:{ f_equal. clear. revert sigs. induction lanes as [|l lanes IH]; intros [|s sigs]; try done. rewrite fmap_cons. cbn [zip zip_with]. rewrite !fmap_cons. f_equal. apply IH. }
  replace (length lanes) with (length (zip (lane_outnum <$> lanes) sigs)) by (rewrite length_zip_with, length_fmap; lia).
  apply (reads_n _ (fun x => towire_u32 (fst x) ++ towire_ecdsa_signature (snd x))).
  apply Forall_forall. intros [o s] Hin%elem_of_zip_l%list_elem_of_fmap. destruct Hin as (l & -> & Hin). rewrite Forall_forall in Hl.
  unfold created_lane. eapply reads_bind; [by apply reads_u32, Hl|]. eapply reads_then; [apply reads_ecdsa|]. apply reads_ret.
Qed.
Lemma signed_blob_reads sigs : (length sigs <= SYM_MAX_LANES)%nat -> sym_lanes_from_signed_blob (sym_lanes_signed_blob sigs) (length sigs) = Some sigs.
Proof using CompactLaws0.
  intros Hn. unfold SYM_MAX_LANES in Hn. unfold sym_lanes_from_signed_blob, sym_lanes_signed_blob. rewrite (read_blob_reads _ sigs); [done|].
  eapply reads_bind; [apply reads_u16; lia|]. rewrite Z.eqb_refl. cbn [negb].
  apply (reads_n _ towire_ecdsa_signature), Forall_true. apply reads_ecdsa.
Qed.
End Blobs.
