(* ===== verification/PeerState.v ===== *)
(** * The state of channeld

    channeld runs one channel: it reads messages of the peer and requests of
    lightningd, calls the operations of channeld/full_channel.c and writes
    messages to both.  This file has its data: the messages (decoded; the
    codecs are generated from wire/peer_wire.csv and channeld/channeld_wire.csv
    when the program is built), what it asks of the signer, [struct peer], and
    the ways a handler can end. *)

From stdpp Require Import list.
From S2P Require Import Prelude Chainparams Amount HtlcState FeeStates Features ChannelState Channel.
Local Open Scope Z_scope.

(** ** How a handler ends

    A handler returns, or the process exits: after a warning to the peer
    ([peer_failed_warn]), after an error, which fails the channel
    ([peer_failed_err]), or because something is wrong here ([status_failed],
    [abort], a failed assertion). *)
Inductive failure := Warned | Errored | Died.
Inductive run (A : Type) : Type :=
| Done (a : A)
| Failed (f : failure).
Arguments Done {A} a.
Arguments Failed {A} f.

#[export] Instance run_ret : MRet run := fun A a => Done a.
#[export] Instance run_bind : MBind run :=
  fun A B k r => match r with Done a => k a | Failed f => Failed f end.
#[export] Instance failure_eq_dec : EqDecision failure.
Proof. solve_decision. Defined.

(** What aborts in the channel ends the process. *)
Definition lift {A} (o : outcome A) : run A := match o with Ret a => Done a | Crash => Failed Died end.
Definition check (f : failure) {A} (b : bool) (k : run A) : run A := if b then k else Failed f.

Lemma run_bind_Done {A B} (r : run A) (k : A -> run B) b :
  (a ← r; k a) = Done b -> exists a, r = Done a /\ k a = Done b.
Proof. destruct r; [eauto|done]. Qed.
Lemma lift_Done {A} (o : outcome A) a : lift o = Done a -> o = Ret a.
Proof. destruct o; [by intros [= ->]|done]. Qed.
Lemma check_Done f {A} b (k : run A) a : check f b k = Done a -> b = true /\ k = Done a.
Proof. by destruct b. Qed.

(** ** Messages *)

(** [tlv_update_add_htlc_tlvs]: the known fields, and the other ones. *)
Record add_tlvs := mk_add_tlvs {
  blinded_path : option (list Z);
  seq_point_lock : option (list Z);
  seq_lane : option nat;
  extra_fields : option (list (Z * list Z));
}.
Definition no_tlvs : add_tlvs := mk_add_tlvs None None None None.

Section Messages.
(** What a [commitment_signed] or a [revoke_and_ack] carries of signatures. *)
Context {sigs : Type}.

Inductive message :=
| msg_channel_ready (point : list Z)
| msg_announcement_signatures
| msg_update_add_htlc (id : Z) (amount : amount_msat_t) (payment_hash : list Z) (cltv_expiry : Z)
    (onion_routing_packet : list Z) (tlvs : add_tlvs)
| msg_update_fulfill_htlc (id : Z) (preimage : list Z)
| msg_update_fail_htlc (id : Z) (reason : list Z)
| msg_update_fail_malformed_htlc (id : Z) (sha256_of_onion : list Z) (failure_code : Z)
| msg_update_fee (feerate : Z)
| msg_update_blockheight (blockheight : Z)
| msg_commitment_signed (s : sigs) (seq_swap : option sym_swap)
| msg_revoke_and_ack (per_commitment_secret next_per_commitment_point : list Z) (sym_sig : option (list Z))
| msg_shutdown (scriptpubkey : list Z) (wrong_funding : option outpoint)
| msg_stfu (initiator : bool)
| msg_seq_swap_request (id : Z) (give_lane : nat) (give : amount_msat_t) (take_lane : nat)
    (take : amount_msat_t) (expiry : Z)
| msg_unknown.

(** Requests of lightningd (channeld/channeld_wire.csv). *)
Inductive request :=
| req_offer_htlc (amount : amount_msat_t) (cltv_expiry : Z) (payment_hash onion : list Z)
    (path_key : option (list Z)) (extra_tlvs : option (list (Z * list Z))) (lock_point : option (list Z))
    (lane : nat)
| req_fulfill_htlc (id : Z) (payment_preimage : list Z)
| req_fail_htlc (failed : failed_htlc)
| req_feerates (feerate min max : Z) (max_dust : amount_msat_t)
| req_blockheight (blockheight : Z)
| req_send_shutdown (scriptpubkey : list Z) (wrong_funding : option outpoint)
| req_stfu
| req_dev_quiesce
| req_credit_note (credit : amount_sat_t)
| req_sym_swap_request (swap : sym_swap) (expiry : Z)
| req_sym_swap_accept (swap : sym_swap)
| req_sym_swap_cancel (id : Z).

(** One HTLC output of a commitment the peer may still broadcast
    (common/penalty_base.h). *)
Record penalty_htlc := mk_penalty_htlc {
  ph_outnum : Z;
  ph_amount : amount_sat_t;
  ph_payment_hash : list Z;
  ph_cltv_expiry : Z;
  ph_remote_offered : bool;
  ph_stage2_txid : list Z;
  ph_stage2_amount : amount_sat_t;
}.
Record penalty_base := mk_penalty_base {
  commitment_num : Z;
  pb_txid : list Z;
  pb_outnum : Z;
  pb_amount : amount_sat_t;
  pb_htlcs : list penalty_htlc;
}.

(** An HTLC by its id, with its new state. *)
Record changed_htlc := mk_changed { changed_id : Z; newstate : htlc_state }.

(** What [got_commitsig] hands over of the HTLCs that changed. *)
Record htlc_info := mk_info {
  info_added : list htlc;
  info_fulfilled : list (Z * list Z);
  info_failed : list (option failed_htlc);
  info_changed : list changed_htlc;
}.

(** Messages to lightningd. *)
Inductive master_message :=
| told_channel_ready (point : list Z)
| told_announcement
| told_sending_commitsig (index : Z) (point : list Z) (pbase : option penalty_base) (fees : fee_states)
    (heights : option height_states) (changed : list changed_htlc) (swap : option sym_swap)
| told_local_anchor_info (index : Z)
| told_got_commitsig (index : Z) (fees : fee_states) (heights : option height_states) (s : sigs)
    (info : htlc_info) (swap : option sym_swap)
| told_got_revoke (index : Z) (secret point : list Z) (fees : fee_states) (heights : option height_states)
    (changed : list changed_htlc) (pbase : option penalty_base) (swap : option sym_swap)
| told_offer_htlc_reply (reply : Z + channel_add_err)
| told_got_shutdown (scriptpubkey : list Z) (wrong_funding : option outpoint)
| told_quiescent
| told_confirmed_stfu (available_funds : amount_msat_t)
| told_splice_state_error
| told_swap_reply (refused : bool).

(** [struct peer].  A timer is there or not; [sent] and [told] are what was
    written to the peer and to lightningd, oldest first.  The state of a
    symmetric channel that was signed last is kept as what it is computed from.
    [on_stfu_success] is set when it is [handle_stfu_req_success].  Splices are
    not modelled: there is none, and their messages are left out. *)
Record peer := mk_peer {
  chan : channel;
  channel_ready : sides bool;
  next_index : sides Z;
  revocations_received : Z;
  next_local_per_commit : list Z;
  remote_per_commit : list Z;
  old_remote_per_commit : list Z;
  htlc_id : Z;
  commit_timer : bool;
  desired_feerate : Z;
  feerate_min : Z;
  feerate_max : Z;
  our_blockheight : Z;
  final_scriptpubkey : list Z;
  shutdown_wrong_funding : option outpoint;
  send_shutdown : bool;
  shutdown_sent : sides bool;
  want_stfu : bool;
  stfu_initiator : side;
  stfu_sent : sides bool;
  stfu_wait_single_msg : bool;
  update_queue : list request;
  dev_disable_commit : option Z;
  last_empty_commitment : Z;
  pbases : list penalty_base;
  on_stfu_success : bool;
  sym_remote_pending : option (Z * channel);
  sent : list message;
  told : list master_message;
}.

Definition set_chan (x : channel) (p : peer) : peer :=
  mk_peer
    x (channel_ready p) (next_index p) (revocations_received p) (next_local_per_commit p)
    (remote_per_commit p) (old_remote_per_commit p) (htlc_id p) (commit_timer p) (desired_feerate p)
    (feerate_min p) (feerate_max p) (our_blockheight p) (final_scriptpubkey p) (shutdown_wrong_funding p)
    (send_shutdown p) (shutdown_sent p) (want_stfu p) (stfu_initiator p) (stfu_sent p)
    (stfu_wait_single_msg p) (update_queue p) (dev_disable_commit p) (last_empty_commitment p) (pbases p)
    (on_stfu_success p) (sym_remote_pending p) (sent p) (told p).
Definition set_channel_ready (x : sides bool) (p : peer) : peer :=
  mk_peer
    (chan p) x (next_index p) (revocations_received p) (next_local_per_commit p) (remote_per_commit p)
    (old_remote_per_commit p) (htlc_id p) (commit_timer p) (desired_feerate p) (feerate_min p)
    (feerate_max p) (our_blockheight p) (final_scriptpubkey p) (shutdown_wrong_funding p) (send_shutdown p)
    (shutdown_sent p) (want_stfu p) (stfu_initiator p) (stfu_sent p) (stfu_wait_single_msg p)
    (update_queue p) (dev_disable_commit p) (last_empty_commitment p) (pbases p) (on_stfu_success p)
    (sym_remote_pending p) (sent p) (told p).
Definition set_next_index (x : sides Z) (p : peer) : peer :=
  mk_peer
    (chan p) (channel_ready p) x (revocations_received p) (next_local_per_commit p) (remote_per_commit p)
    (old_remote_per_commit p) (htlc_id p) (commit_timer p) (desired_feerate p) (feerate_min p)
    (feerate_max p) (our_blockheight p) (final_scriptpubkey p) (shutdown_wrong_funding p) (send_shutdown p)
    (shutdown_sent p) (want_stfu p) (stfu_initiator p) (stfu_sent p) (stfu_wait_single_msg p)
    (update_queue p) (dev_disable_commit p) (last_empty_commitment p) (pbases p) (on_stfu_success p)
    (sym_remote_pending p) (sent p) (told p).
Definition set_revocations_received (x : Z) (p : peer) : peer :=
  mk_peer
    (chan p) (channel_ready p) (next_index p) x (next_local_per_commit p) (remote_per_commit p)
    (old_remote_per_commit p) (htlc_id p) (commit_timer p) (desired_feerate p) (feerate_min p)
    (feerate_max p) (our_blockheight p) (final_scriptpubkey p) (shutdown_wrong_funding p) (send_shutdown p)
    (shutdown_sent p) (want_stfu p) (stfu_initiator p) (stfu_sent p) (stfu_wait_single_msg p)
    (update_queue p) (dev_disable_commit p) (last_empty_commitment p) (pbases p) (on_stfu_success p)
    (sym_remote_pending p) (sent p) (told p).
Definition set_next_local_per_commit (x : list Z) (p : peer) : peer :=
  mk_peer
    (chan p) (channel_ready p) (next_index p) (revocations_received p) x (remote_per_commit p)
    (old_remote_per_commit p) (htlc_id p) (commit_timer p) (desired_feerate p) (feerate_min p)
    (feerate_max p) (our_blockheight p) (final_scriptpubkey p) (shutdown_wrong_funding p) (send_shutdown p)
    (shutdown_sent p) (want_stfu p) (stfu_initiator p) (stfu_sent p) (stfu_wait_single_msg p)
    (update_queue p) (dev_disable_commit p) (last_empty_commitment p) (pbases p) (on_stfu_success p)
    (sym_remote_pending p) (sent p) (told p).
Definition set_remote_per_commit (x : list Z) (p : peer) : peer :=
  mk_peer
    (chan p) (channel_ready p) (next_index p) (revocations_received p) (next_local_per_commit p) x
    (old_remote_per_commit p) (htlc_id p) (commit_timer p) (desired_feerate p) (feerate_min p)
    (feerate_max p) (our_blockheight p) (final_scriptpubkey p) (shutdown_wrong_funding p) (send_shutdown p)
    (shutdown_sent p) (want_stfu p) (stfu_initiator p) (stfu_sent p) (stfu_wait_single_msg p)
    (update_queue p) (dev_disable_commit p) (last_empty_commitment p) (pbases p) (on_stfu_success p)
    (sym_remote_pending p) (sent p) (told p).
Definition set_old_remote_per_commit (x : list Z) (p : peer) : peer :=
  mk_peer
    (chan p) (channel_ready p) (next_index p) (revocations_received p) (next_local_per_commit p)
    (remote_per_commit p) x (htlc_id p) (commit_timer p) (desired_feerate p) (feerate_min p) (feerate_max p)
    (our_blockheight p) (final_scriptpubkey p) (shutdown_wrong_funding p) (send_shutdown p)
    (shutdown_sent p) (want_stfu p) (stfu_initiator p) (stfu_sent p) (stfu_wait_single_msg p)
    (update_queue p) (dev_disable_commit p) (last_empty_commitment p) (pbases p) (on_stfu_success p)
    (sym_remote_pending p) (sent p) (told p).
Definition set_htlc_id (x : Z) (p : peer) : peer :=
  mk_peer
    (chan p) (channel_ready p) (next_index p) (revocations_received p) (next_local_per_commit p)
    (remote_per_commit p) (old_remote_per_commit p) x (commit_timer p) (desired_feerate p) (feerate_min p)
    (feerate_max p) (our_blockheight p) (final_scriptpubkey p) (shutdown_wrong_funding p) (send_shutdown p)
    (shutdown_sent p) (want_stfu p) (stfu_initiator p) (stfu_sent p) (stfu_wait_single_msg p)
    (update_queue p) (dev_disable_commit p) (last_empty_commitment p) (pbases p) (on_stfu_success p)
    (sym_remote_pending p) (sent p) (told p).
Definition set_commit_timer (x : bool) (p : peer) : peer :=
  mk_peer
    (chan p) (channel_ready p) (next_index p) (revocations_received p) (next_local_per_commit p)
    (remote_per_commit p) (old_remote_per_commit p) (htlc_id p) x (desired_feerate p) (feerate_min p)
    (feerate_max p) (our_blockheight p) (final_scriptpubkey p) (shutdown_wrong_funding p) (send_shutdown p)
    (shutdown_sent p) (want_stfu p) (stfu_initiator p) (stfu_sent p) (stfu_wait_single_msg p)
    (update_queue p) (dev_disable_commit p) (last_empty_commitment p) (pbases p) (on_stfu_success p)
    (sym_remote_pending p) (sent p) (told p).
Definition set_desired_feerate (x : Z) (p : peer) : peer :=
  mk_peer
    (chan p) (channel_ready p) (next_index p) (revocations_received p) (next_local_per_commit p)
    (remote_per_commit p) (old_remote_per_commit p) (htlc_id p) (commit_timer p) x (feerate_min p)
    (feerate_max p) (our_blockheight p) (final_scriptpubkey p) (shutdown_wrong_funding p) (send_shutdown p)
    (shutdown_sent p) (want_stfu p) (stfu_initiator p) (stfu_sent p) (stfu_wait_single_msg p)
    (update_queue p) (dev_disable_commit p) (last_empty_commitment p) (pbases p) (on_stfu_success p)
    (sym_remote_pending p) (sent p) (told p).
Definition set_feerate_min (x : Z) (p : peer) : peer :=
  mk_peer
    (chan p) (channel_ready p) (next_index p) (revocations_received p) (next_local_per_commit p)
    (remote_per_commit p) (old_remote_per_commit p) (htlc_id p) (commit_timer p) (desired_feerate p) x
    (feerate_max p) (our_blockheight p) (final_scriptpubkey p) (shutdown_wrong_funding p) (send_shutdown p)
    (shutdown_sent p) (want_stfu p) (stfu_initiator p) (stfu_sent p) (stfu_wait_single_msg p)
    (update_queue p) (dev_disable_commit p) (last_empty_commitment p) (pbases p) (on_stfu_success p)
    (sym_remote_pending p) (sent p) (told p).
Definition set_feerate_max (x : Z) (p : peer) : peer :=
  mk_peer
    (chan p) (channel_ready p) (next_index p) (revocations_received p) (next_local_per_commit p)
    (remote_per_commit p) (old_remote_per_commit p) (htlc_id p) (commit_timer p) (desired_feerate p)
    (feerate_min p) x (our_blockheight p) (final_scriptpubkey p) (shutdown_wrong_funding p)
    (send_shutdown p) (shutdown_sent p) (want_stfu p) (stfu_initiator p) (stfu_sent p)
    (stfu_wait_single_msg p) (update_queue p) (dev_disable_commit p) (last_empty_commitment p) (pbases p)
    (on_stfu_success p) (sym_remote_pending p) (sent p) (told p).
Definition set_our_blockheight (x : Z) (p : peer) : peer :=
  mk_peer
    (chan p) (channel_ready p) (next_index p) (revocations_received p) (next_local_per_commit p)
    (remote_per_commit p) (old_remote_per_commit p) (htlc_id p) (commit_timer p) (desired_feerate p)
    (feerate_min p) (feerate_max p) x (final_scriptpubkey p) (shutdown_wrong_funding p) (send_shutdown p)
    (shutdown_sent p) (want_stfu p) (stfu_initiator p) (stfu_sent p) (stfu_wait_single_msg p)
    (update_queue p) (dev_disable_commit p) (last_empty_commitment p) (pbases p) (on_stfu_success p)
    (sym_remote_pending p) (sent p) (told p).
Definition set_final_scriptpubkey (x : list Z) (p : peer) : peer :=
  mk_peer
    (chan p) (channel_ready p) (next_index p) (revocations_received p) (next_local_per_commit p)
    (remote_per_commit p) (old_remote_per_commit p) (htlc_id p) (commit_timer p) (desired_feerate p)
    (feerate_min p) (feerate_max p) (our_blockheight p) x (shutdown_wrong_funding p) (send_shutdown p)
    (shutdown_sent p) (want_stfu p) (stfu_initiator p) (stfu_sent p) (stfu_wait_single_msg p)
    (update_queue p) (dev_disable_commit p) (last_empty_commitment p) (pbases p) (on_stfu_success p)
    (sym_remote_pending p) (sent p) (told p).
Definition set_shutdown_wrong_funding (x : option outpoint) (p : peer) : peer :=
  mk_peer
    (chan p) (channel_ready p) (next_index p) (revocations_received p) (next_local_per_commit p)
    (remote_per_commit p) (old_remote_per_commit p) (htlc_id p) (commit_timer p) (desired_feerate p)
    (feerate_min p) (feerate_max p) (our_blockheight p) (final_scriptpubkey p) x (send_shutdown p)
    (shutdown_sent p) (want_stfu p) (stfu_initiator p) (stfu_sent p) (stfu_wait_single_msg p)
    (update_queue p) (dev_disable_commit p) (last_empty_commitment p) (pbases p) (on_stfu_success p)
    (sym_remote_pending p) (sent p) (told p).
Definition set_send_shutdown (x : bool) (p : peer) : peer :=
  mk_peer
    (chan p) (channel_ready p) (next_index p) (revocations_received p) (next_local_per_commit p)
    (remote_per_commit p) (old_remote_per_commit p) (htlc_id p) (commit_timer p) (desired_feerate p)
    (feerate_min p) (feerate_max p) (our_blockheight p) (final_scriptpubkey p) (shutdown_wrong_funding p) x
    (shutdown_sent p) (want_stfu p) (stfu_initiator p) (stfu_sent p) (stfu_wait_single_msg p)
    (update_queue p) (dev_disable_commit p) (last_empty_commitment p) (pbases p) (on_stfu_success p)
    (sym_remote_pending p) (sent p) (told p).
Definition set_shutdown_sent (x : sides bool) (p : peer) : peer :=
  mk_peer
    (chan p) (channel_ready p) (next_index p) (revocations_received p) (next_local_per_commit p)
    (remote_per_commit p) (old_remote_per_commit p) (htlc_id p) (commit_timer p) (desired_feerate p)
    (feerate_min p) (feerate_max p) (our_blockheight p) (final_scriptpubkey p) (shutdown_wrong_funding p)
    (send_shutdown p) x (want_stfu p) (stfu_initiator p) (stfu_sent p) (stfu_wait_single_msg p)
    (update_queue p) (dev_disable_commit p) (last_empty_commitment p) (pbases p) (on_stfu_success p)
    (sym_remote_pending p) (sent p) (told p).
Definition set_want_stfu (x : bool) (p : peer) : peer :=
  mk_peer
    (chan p) (channel_ready p) (next_index p) (revocations_received p) (next_local_per_commit p)
    (remote_per_commit p) (old_remote_per_commit p) (htlc_id p) (commit_timer p) (desired_feerate p)
    (feerate_min p) (feerate_max p) (our_blockheight p) (final_scriptpubkey p) (shutdown_wrong_funding p)
    (send_shutdown p) (shutdown_sent p) x (stfu_initiator p) (stfu_sent p) (stfu_wait_single_msg p)
    (update_queue p) (dev_disable_commit p) (last_empty_commitment p) (pbases p) (on_stfu_success p)
    (sym_remote_pending p) (sent p) (told p).
Definition set_stfu_initiator (x : side) (p : peer) : peer :=
  mk_peer
    (chan p) (channel_ready p) (next_index p) (revocations_received p) (next_local_per_commit p)
    (remote_per_commit p) (old_remote_per_commit p) (htlc_id p) (commit_timer p) (desired_feerate p)
    (feerate_min p) (feerate_max p) (our_blockheight p) (final_scriptpubkey p) (shutdown_wrong_funding p)
    (send_shutdown p) (shutdown_sent p) (want_stfu p) x (stfu_sent p) (stfu_wait_single_msg p)
    (update_queue p) (dev_disable_commit p) (last_empty_commitment p) (pbases p) (on_stfu_success p)
    (sym_remote_pending p) (sent p) (told p).
Definition set_stfu_sent (x : sides bool) (p : peer) : peer :=
  mk_peer
    (chan p) (channel_ready p) (next_index p) (revocations_received p) (next_local_per_commit p)
    (remote_per_commit p) (old_remote_per_commit p) (htlc_id p) (commit_timer p) (desired_feerate p)
    (feerate_min p) (feerate_max p) (our_blockheight p) (final_scriptpubkey p) (shutdown_wrong_funding p)
    (send_shutdown p) (shutdown_sent p) (want_stfu p) (stfu_initiator p) x (stfu_wait_single_msg p)
    (update_queue p) (dev_disable_commit p) (last_empty_commitment p) (pbases p) (on_stfu_success p)
    (sym_remote_pending p) (sent p) (told p).
Definition set_stfu_wait_single_msg (x : bool) (p : peer) : peer :=
  mk_peer
    (chan p) (channel_ready p) (next_index p) (revocations_received p) (next_local_per_commit p)
    (remote_per_commit p) (old_remote_per_commit p) (htlc_id p) (commit_timer p) (desired_feerate p)
    (feerate_min p) (feerate_max p) (our_blockheight p) (final_scriptpubkey p) (shutdown_wrong_funding p)
    (send_shutdown p) (shutdown_sent p) (want_stfu p) (stfu_initiator p) (stfu_sent p) x (update_queue p)
    (dev_disable_commit p) (last_empty_commitment p) (pbases p) (on_stfu_success p) (sym_remote_pending p)
    (sent p) (told p).
Definition set_update_queue (x : list request) (p : peer) : peer :=
  mk_peer
    (chan p) (channel_ready p) (next_index p) (revocations_received p) (next_local_per_commit p)
    (remote_per_commit p) (old_remote_per_commit p) (htlc_id p) (commit_timer p) (desired_feerate p)
    (feerate_min p) (feerate_max p) (our_blockheight p) (final_scriptpubkey p) (shutdown_wrong_funding p)
    (send_shutdown p) (shutdown_sent p) (want_stfu p) (stfu_initiator p) (stfu_sent p)
    (stfu_wait_single_msg p) x (dev_disable_commit p) (last_empty_commitment p) (pbases p)
    (on_stfu_success p) (sym_remote_pending p) (sent p) (told p).
Definition set_dev_disable_commit (x : option Z) (p : peer) : peer :=
  mk_peer
    (chan p) (channel_ready p) (next_index p) (revocations_received p) (next_local_per_commit p)
    (remote_per_commit p) (old_remote_per_commit p) (htlc_id p) (commit_timer p) (desired_feerate p)
    (feerate_min p) (feerate_max p) (our_blockheight p) (final_scriptpubkey p) (shutdown_wrong_funding p)
    (send_shutdown p) (shutdown_sent p) (want_stfu p) (stfu_initiator p) (stfu_sent p)
    (stfu_wait_single_msg p) (update_queue p) x (last_empty_commitment p) (pbases p) (on_stfu_success p)
    (sym_remote_pending p) (sent p) (told p).
Definition set_last_empty_commitment (x : Z) (p : peer) : peer :=
  mk_peer
    (chan p) (channel_ready p) (next_index p) (revocations_received p) (next_local_per_commit p)
    (remote_per_commit p) (old_remote_per_commit p) (htlc_id p) (commit_timer p) (desired_feerate p)
    (feerate_min p) (feerate_max p) (our_blockheight p) (final_scriptpubkey p) (shutdown_wrong_funding p)
    (send_shutdown p) (shutdown_sent p) (want_stfu p) (stfu_initiator p) (stfu_sent p)
    (stfu_wait_single_msg p) (update_queue p) (dev_disable_commit p) x (pbases p) (on_stfu_success p)
    (sym_remote_pending p) (sent p) (told p).
Definition set_pbases (x : list penalty_base) (p : peer) : peer :=
  mk_peer
    (chan p) (channel_ready p) (next_index p) (revocations_received p) (next_local_per_commit p)
    (remote_per_commit p) (old_remote_per_commit p) (htlc_id p) (commit_timer p) (desired_feerate p)
    (feerate_min p) (feerate_max p) (our_blockheight p) (final_scriptpubkey p) (shutdown_wrong_funding p)
    (send_shutdown p) (shutdown_sent p) (want_stfu p) (stfu_initiator p) (stfu_sent p)
    (stfu_wait_single_msg p) (update_queue p) (dev_disable_commit p) (last_empty_commitment p) x
    (on_stfu_success p) (sym_remote_pending p) (sent p) (told p).
Definition set_on_stfu_success (x : bool) (p : peer) : peer :=
  mk_peer
    (chan p) (channel_ready p) (next_index p) (revocations_received p) (next_local_per_commit p)
    (remote_per_commit p) (old_remote_per_commit p) (htlc_id p) (commit_timer p) (desired_feerate p)
    (feerate_min p) (feerate_max p) (our_blockheight p) (final_scriptpubkey p) (shutdown_wrong_funding p)
    (send_shutdown p) (shutdown_sent p) (want_stfu p) (stfu_initiator p) (stfu_sent p)
    (stfu_wait_single_msg p) (update_queue p) (dev_disable_commit p) (last_empty_commitment p) (pbases p) x
    (sym_remote_pending p) (sent p) (told p).
Definition set_sym_remote_pending (x : option (Z * channel)) (p : peer) : peer :=
  mk_peer
    (chan p) (channel_ready p) (next_index p) (revocations_received p) (next_local_per_commit p)
    (remote_per_commit p) (old_remote_per_commit p) (htlc_id p) (commit_timer p) (desired_feerate p)
    (feerate_min p) (feerate_max p) (our_blockheight p) (final_scriptpubkey p) (shutdown_wrong_funding p)
    (send_shutdown p) (shutdown_sent p) (want_stfu p) (stfu_initiator p) (stfu_sent p)
    (stfu_wait_single_msg p) (update_queue p) (dev_disable_commit p) (last_empty_commitment p) (pbases p)
    (on_stfu_success p) x (sent p) (told p).
Definition set_sent (x : list message) (p : peer) : peer :=
  mk_peer
    (chan p) (channel_ready p) (next_index p) (revocations_received p) (next_local_per_commit p)
    (remote_per_commit p) (old_remote_per_commit p) (htlc_id p) (commit_timer p) (desired_feerate p)
    (feerate_min p) (feerate_max p) (our_blockheight p) (final_scriptpubkey p) (shutdown_wrong_funding p)
    (send_shutdown p) (shutdown_sent p) (want_stfu p) (stfu_initiator p) (stfu_sent p)
    (stfu_wait_single_msg p) (update_queue p) (dev_disable_commit p) (last_empty_commitment p) (pbases p)
    (on_stfu_success p) (sym_remote_pending p) x (told p).
Definition set_told (x : list master_message) (p : peer) : peer :=
  mk_peer
    (chan p) (channel_ready p) (next_index p) (revocations_received p) (next_local_per_commit p)
    (remote_per_commit p) (old_remote_per_commit p) (htlc_id p) (commit_timer p) (desired_feerate p)
    (feerate_min p) (feerate_max p) (our_blockheight p) (final_scriptpubkey p) (shutdown_wrong_funding p)
    (send_shutdown p) (shutdown_sent p) (want_stfu p) (stfu_initiator p) (stfu_sent p)
    (stfu_wait_single_msg p) (update_queue p) (dev_disable_commit p) (last_empty_commitment p) (pbases p)
    (on_stfu_success p) (sym_remote_pending p) (sent p) x.

End Messages.
Arguments message : clear implicits.
Arguments master_message : clear implicits.
Arguments peer : clear implicits.
