(* ===== verification/Peer.v ===== *)
(** * channeld

    The handlers of channeld/channeld.c: one definition for each message of the
    peer and each request of lightningd, and the commit timer.  Signatures and
    revocation secrets come from a [signer], the interface to the transactions
    and to hsmd, which [Signer] implements. *)

From stdpp Require Import list.
From S2P Require Import Prelude Chainparams Amount HtlcState FeeStates Features Keys ChannelState Channel CommitTx PeerState.
Local Open Scope Z_scope.

Definition OPT_DUAL_FUND := 28.
Definition OPT_QUIESCE := 34.
Definition OPT_SHUTDOWN_WRONG_FUNDING := 104.
Definition OPT_SEQ_POINT_LOCKS := 174.
Definition BADONION := 0x8000.

(** What channeld needs signed and checked, for a channel, the number of a
    commitment and its per-commitment point: the peer's commitment, with what it
    takes to punish it; ours; the update signatures of a symmetric channel; the
    secret of a commitment we revoke and the point of the next but one. *)
Record signer (sigs : Type) := mk_signer {
  sign_commit : channel -> Z -> list Z -> outcome (sigs * option penalty_base);
  check_commit : channel -> Z -> list Z -> sigs -> outcome bool;
  sym_update_sig : channel -> Z -> outcome (list Z);
  sym_check_update : channel -> Z -> list Z -> outcome bool;
  revoke_commitment : Z -> outcome (list Z * list Z);
  approve_sym_swap : list Z -> amount_msat_t -> list Z -> amount_msat_t -> bool;
}.
Arguments sign_commit {sigs}.
Arguments check_commit {sigs}.
Arguments sym_update_sig {sigs}.
Arguments sym_check_update {sigs}.
Arguments revoke_commitment {sigs}.
Arguments approve_sym_swap {sigs}.

Section Channeld.
Context (params : chainparams) (sha256 : list Z -> list Z) (point_lock_opens : list Z -> list Z -> bool).
Context (our_features : feature_set) (their_features remote_upfront_shutdown_script : list Z) (developer : bool).
(** [tlvs->fields] as the generated decoder leaves it. *)
Context (tlv_fields : add_tlvs -> option (list (Z * list Z))).
(** What is in the memory of a new [struct failed_htlc]. *)
Context (junk : Z).
Context `{Secp256k1} {sigs : Type} (sg : signer sigs).
Notation peer := (peer sigs).

Definition peer_write (m : message sigs) (p : peer) : peer := set_sent (sent p ++ [m]) p.
Definition master_write (m : master_message sigs) (p : peer) : peer := set_told (told p ++ [m]) p.

(** It only reports, but counts the HTLCs, which asserts that none is dead. *)
Definition billboard_update (p : peer) : run peer := _ ← lift (num_channel_htlcs (chan p)); Done p.

(** ** Quiescence *)

Definition is_stfu_active (p : peer) : bool := (stfu_sent p).[LOCAL] && (stfu_sent p).[REMOTE].
Definition is_entering_stfu (p : peer) : bool :=
  want_stfu p || (stfu_sent p).[LOCAL] || (stfu_sent p).[REMOTE].
Definition end_stfu_mode (p : peer) : peer :=
  set_on_stfu_success false (set_stfu_wait_single_msg false
    (set_stfu_sent (mk_sides false false) (set_want_stfu false p))).

Definition handle_stfu_req_success (p : peer) : peer :=
  master_write (told_confirmed_stfu (owed (view (chan p)).[LOCAL]).[LOCAL]) p.

Definition maybe_send_stfu (p : peer) : run peer :=
  if negb (want_stfu p) then Done p else
  pending ← lift (pending_updates (chan p) LOCAL);
  if (pending : bool) then Done p else
  let p := if negb (stfu_sent p).[LOCAL]
           then set_stfu_sent (upd LOCAL true (stfu_sent p))
                  (peer_write (msg_stfu (bool_decide (stfu_initiator p = LOCAL))) p)
           else p in
  if is_stfu_active p then
    let p := set_stfu_wait_single_msg true (master_write told_quiescent (set_want_stfu false p)) in
    Done (if on_stfu_success p then set_on_stfu_success false (handle_stfu_req_success p) else p)
  else Done p.

Definition handle_stfu (remote_initiated : bool) (p : peer) : run peer :=
  check Warned (feature_negotiated our_features their_features OPT_QUIESCE)
    (pending ← lift (pending_updates (chan p) REMOTE);
     check Warned (negb pending)
       (p ← (if negb (want_stfu p) then
               let p := set_want_stfu true p in
               check Warned remote_initiated (Done (set_stfu_initiator REMOTE p))
             else Done (if remote_initiated then set_stfu_initiator (opener (chan p)) p else p));
        maybe_send_stfu (set_stfu_sent (upd REMOTE true (stfu_sent p)) p))).

Definition handle_master_request_later (r : request) (p : peer) : option peer :=
  if is_entering_stfu p then Some (set_update_queue (update_queue p ++ [r]) p) else None.

(** ** Updates of the peer *)

Definition handle_peer_add_htlc (id : Z) (amount : amount_msat_t) (payment_hash : list Z) (cltv_expiry : Z)
    (onion_routing_packet : list Z) (tlvs : add_tlvs) (p : peer) : run peer :=
  let c := chan p in
  check Warned
    (match seq_point_lock tlvs with
     | Some lock =>
       channel_has c OPT_SEQ_TAPROOT_COVENANT && feature_offered (bits our_features INIT_FEATURE) OPT_SEQ_POINT_LOCKS
       && bool_decide (point_lock_payment_hash lock = payment_hash)
     | None => true
     end)
    (check Warned
       (match seq_lane tlvs with
        | Some (S _) => channel_has c OPT_SEQ_SYMMETRIC_LANES
        | _ => true
        end)
       (r ← lift (channel_add_lane_htlc params c REMOTE id amount cltv_expiry payment_hash onion_routing_packet
                    (blinded_path tlvs) (tlv_fields tlvs) false (default 0%nat (seq_lane tlvs)));
        check Warned (bool_decide (add_err r = CHANNEL_ERR_ADD_OK))
          (Done (set_chan (match seq_point_lock tlvs with
                           | Some lock => with_htlc (add_chan r) REMOTE id (set_h_lock_point (Some lock))
                           | None => add_chan r
                           end) p)))).

Definition feerate_same_or_better (c : channel) (feerate feerate_min feerate_max : Z) : outcome bool :=
  current ← channel_feerate c LOCAL;
  Ret (if feerate <? feerate_min then current <=? feerate
       else if feerate_max <? feerate then feerate <=? current
       else true).

Definition handle_peer_feechange (feerate : Z) (p : peer) : run peer :=
  check Warned (bool_decide (opener (chan p) = REMOTE))
    (ok ← lift (feerate_same_or_better (chan p) feerate (feerate_min p) (feerate_max p));
     check Warned ok
       ('(afford, c) ← lift (channel_update_feerate params (chan p) feerate);
        check Warned afford (Done (set_chan c p)))).

(** The additions of 1008 are of [u32]. *)
Definition handle_peer_blockheight_change (blockheight : Z) (p : peer) : run peer :=
  check Warned (bool_decide (opener (chan p) = REMOTE))
    (current ← lift (channel_blockheight (chan p) LOCAL);
     check Warned (blockheight <=? wrap_u32 (blockheight + 1008))
       (check Warned (current <=? blockheight)
          (check Died (blockheight <? wrap_u32 (blockheight + 1008))
             (check Errored (our_blockheight p <=? wrap_u32 (blockheight + 1008))
                (c ← lift (channel_update_blockheight (chan p) blockheight);
                 Done (set_chan c p)))))).

(** ** Shutdown *)

(** [u64] arithmetic on the indices. *)
Definition awaits_no_revocation (p : peer) : bool :=
  revocations_received p =? wrap_u64 ((next_index p).[REMOTE] - 1).

Definition shutdown_complete (p : peer) : outcome bool :=
  if (shutdown_sent p).[LOCAL] && (shutdown_sent p).[REMOTE] then
    n ← num_channel_htlcs (chan p);
    Ret ((n =? 0) && awaits_no_revocation p)
  else Ret false.

Definition maybe_send_shutdown (p : peer) : run peer :=
  if negb (send_shutdown p) then Done p else
  let p := peer_write (msg_shutdown (final_scriptpubkey p) (shutdown_wrong_funding p)) p in
  billboard_update (set_shutdown_sent (upd LOCAL true (shutdown_sent p)) (set_send_shutdown false p)).

(** ** Our commitments *)

Definition start_commit_timer (p : peer) : peer := set_commit_timer true p.

(** The feerate to propose, [None] for no update. *)
Definition want_fee_update (p : peer) : outcome (option Z) :=
  let c := chan p in
  if negb (bool_decide (opener c = LOCAL)) then Ret None else
  if is_entering_stfu p then Ret None else
  current ← channel_feerate c REMOTE;
  val ← (if current <? desired_feerate p then
           max ← approx_max_feerate params c;
           Ret (Z.max (Z.min (desired_feerate p) max) current)
         else Ret (desired_feerate p));
  Ret (if val =? current then None else Some val).

Definition want_blockheight_update (p : peer) : outcome (option Z) :=
  let c := chan p in
  if negb (bool_decide (opener c = LOCAL)) then Ret None else
  if lease_expiry c =? 0 then Ret None else
  if is_entering_stfu p then Ret None else
  last ← channel_blockheight c LOCAL;
  Ret (if our_blockheight p <=? last then None else Some (our_blockheight p)).

Definition changed_htlc_arr (l : list htlc) : list changed_htlc :=
  (fun h => mk_changed (h_id h) (h_state h)) <$> l.

(** A swap of ours rides in the commitment that first carries it. *)
Definition swap_to_send (c : channel) : option sym_swap :=
  match chan_sym_swap c with
  | Some w => if bool_decide (swap_state w = SENT_ADD_COMMIT) then Some w else None
  | None => None
  end.

(** The message to send; lightningd is told before. *)
Definition send_commit_part (changed : list htlc) (p : peer) : run (message sigs * peer) :=
  let c := chan p in
  let index := (next_index p).[REMOTE] in
  let sym := channel_has c OPT_SEQ_SYMMETRIC in
  '(s, pbase) ← lift (sign_commit sg c index (remote_per_commit p));
  let pbase := if sym then None else pbase in
  let p := if sym then set_sym_remote_pending (Some (index, c)) p
           else set_pbases (pbases p ++ match pbase with Some b => [b] | None => [] end) p in
  let p := set_dev_disable_commit ((fun n => wrap_u32 (n - 1)) <$> dev_disable_commit p) p in
  let p := master_write (told_sending_commitsig index (remote_per_commit p) pbase (chan_fee_states c)
                           (blockheight_states c) (changed_htlc_arr changed)
                           (if sym then chan_sym_swap c else None)) p in
  Done (msg_commitment_signed s (if sym then swap_to_send c else None), p).

(** The [update_fee] that goes out before a commitment. *)
Definition send_fee_update (p : peer) : run peer :=
  target ← lift (want_fee_update p);
  match target with
  | None => Done p
  | Some feerate_target =>
    let c := chan p in
    if negb (feerate_changes_done (chan_fee_states c) false) then Done p else
    dust_ok ← lift (r ← htlc_dust_ok params c feerate_target REMOTE;
                    if negb r then Ret false else htlc_dust_ok params c feerate_target LOCAL);
    if negb dust_ok && has_anchor_header params then Done p else
    check Warned dust_ok
      ('(afford, c) ← lift (channel_update_feerate params c feerate_target);
       check Died afford (Done (peer_write (msg_update_fee feerate_target) (set_chan c p))))
  end.

Definition send_blockheight_update (p : peer) : run peer :=
  height ← lift (want_blockheight_update p);
  match height, blockheight_states (chan p) with
  | Some h, Some hs =>
    if negb (blockheight_changes_done hs false) then Done p else
    c ← lift (channel_update_blockheight (chan p) h);
    Done (peer_write (msg_update_blockheight h) (set_chan c p))
  | _, _ => Done p
  end.

Definition send_commit (p : peer) : run peer :=
  if bool_decide (dev_disable_commit p = Some 0) then Done (set_commit_timer false p) else
  if negb (awaits_no_revocation p) then
    check Died (revocations_received p =? wrap_u64 ((next_index p).[REMOTE] - 2))
      (Done (set_commit_timer false p))
  else
  n ← (if (shutdown_sent p).[LOCAL] then lift (num_channel_htlcs (chan p)) else Done 1);
  if n =? 0 then Done (set_commit_timer false p) else
  p ← send_fee_update p;
  p ← send_blockheight_update p;
  '(any, changed, c) ← lift (channel_sending_commit (chan p));
  let p := set_chan c p in
  if negb any then
    p ← maybe_send_shutdown p;
    Done (set_commit_timer false p)
  else
    '(m, p) ← send_commit_part changed p;
    let p := master_write (told_local_anchor_info (next_index p).[REMOTE]) p in
    let p := set_next_index (upd REMOTE (wrap_u64 ((next_index p).[REMOTE] + 1)) (next_index p)) p in
    p ← maybe_send_shutdown (peer_write m p);
    Done (start_commit_timer (set_commit_timer false p)).

(** The timer fires. *)
Definition send_commit_if_not_stfu (p : peer) : run peer :=
  if negb (stfu_sent p).[LOCAL] then send_commit p else Done (set_commit_timer true p).

(** ** Their commitments *)

(** [None] is a failed assertion. *)
Fixpoint marshall_htlc_info (l : list htlc) : outcome htlc_info :=
  match l with
  | [] => Ret (mk_info [] [] [] [])
  | h :: l =>
    match h_state h with
    | RCVD_ADD_COMMIT =>
      _ ← abs_locktime_to_blocks (h_expiry h);
      i ← marshall_htlc_info l;
      Ret (mk_info (h :: info_added i) (info_fulfilled i) (info_failed i) (info_changed i))
    | RCVD_REMOVE_COMMIT =>
      match h_r h with
      | Some r =>
        assert_then (bool_decide (h_failed h = None))
          (i ← marshall_htlc_info l;
           Ret (mk_info (info_added i) ((h_id h, r) :: info_fulfilled i) (info_failed i) (info_changed i)))
      | None =>
        i ← marshall_htlc_info l;
        Ret (mk_info (info_added i) (info_fulfilled i) (h_failed h :: info_failed i) (info_changed i))
      end
    | RCVD_REMOVE_ACK_COMMIT | RCVD_ADD_ACK_COMMIT =>
      i ← marshall_htlc_info l;
      Ret (mk_info (info_added i) (info_fulfilled i) (info_failed i)
             (mk_changed (h_id h) (h_state h) :: info_changed i))
    | _ => Crash
    end
  end.

Definition make_revocation_msg (revoke_index : Z) (sym_sig : option (list Z)) : run (message sigs * list Z) :=
  '(old_commit_secret, point) ← lift (revoke_commitment sg revoke_index);
  Done (msg_revoke_and_ack old_commit_secret point sym_sig, point).

Definition send_revocation (s : sigs) (changed : list htlc) (sym_sig : option (list Z)) (p : peer) : run peer :=
  info ← lift (marshall_htlc_info changed);
  let p := set_next_index (upd LOCAL (wrap_u64 ((next_index p).[LOCAL] + 1)) (next_index p)) p in
  '(pending, _, c) ← lift (channel_sending_revoke_and_ack (chan p));
  let p := set_chan c p in
  let p := if (pending : bool) then start_commit_timer p else p in
  let p := master_write (told_got_commitsig (wrap_u64 ((next_index p).[LOCAL] - 1)) (chan_fee_states c)
                           (blockheight_states c) s info (chan_sym_swap c)) p in
  let p := set_chan (snd (channel_sym_swap_done (chan p))) p in
  '(m, point) ← make_revocation_msg (wrap_u64 ((next_index p).[LOCAL] - 2)) sym_sig;
  Done (peer_write m (set_next_local_per_commit point p)).

Definition take_peer_swap (s : sym_swap) (p : peer) : run peer :=
  let c := chan p in
  let swap := set_swap_state RCVD_ADD_HTLC s in
  check Warned
    (match sym_swap_req c with
     | Some req =>
       (swap_id req =? swap_id swap) && (give_lane req =? give_lane swap)%nat
       && (take_lane req =? take_lane swap)%nat && amount_msat_eq (swap_give req) (swap_give swap)
       && amount_msat_eq (swap_take req) (swap_take swap)
     | None => false
     end)
    (let c := set_swap_req None c in
     err ← lift (channel_sym_swap_check c swap);
     check Warned (bool_decide (err = None))
       (c ← lift (channel_sym_swap_add c swap); Done (set_chan c p))).

Definition handle_peer_commit_sig (s : sigs) (seq_swap : option sym_swap) (p : peer) : run peer :=
  let local_index := (next_index p).[LOCAL] in
  let local_per_commit := next_local_per_commit p in
  p ← (match seq_swap with Some w => take_peer_swap w p | None => Done p end);
  '(any, changed, c) ← lift (channel_rcvd_commit (chan p));
  let p := set_chan c p in
  p ← (if (any : bool) then Done p else
       check Warned (negb (last_empty_commitment p =? wrap_u64 ((next_index p).[LOCAL] - 1)))
         (Done (set_last_empty_commitment (next_index p).[LOCAL] p)));
  afford ← lift (if bool_decide (opener c = REMOTE)
                 then feerate ← channel_feerate c LOCAL; can_opener_afford_feerate params c feerate
                 else Ret true);
  check Died afford
    (ok ← lift (check_commit sg c local_index local_per_commit s);
     check Warned ok
       (sym_sig ← lift (if channel_has c OPT_SEQ_SYMMETRIC
                        then s ← sym_update_sig sg c local_index; Ret (Some s) else Ret None);
        p ← send_revocation s changed sym_sig p;
        p ← maybe_send_stfu p;
        wanted ← lift (want_fee_update p);
        Done (match wanted with Some _ => start_commit_timer p | None => p end))).

(** ** Their revocations *)

(** The penalty base of a commitment, and the others. *)
Fixpoint penalty_base_by_commitnum (commitnum : Z) (l : list penalty_base) : option penalty_base * list penalty_base :=
  match l with
  | [] => (None, [])
  | b :: l =>
    if commitment_num b =? commitnum then (Some b, l)
    else let '(r, l) := penalty_base_by_commitnum commitnum l in (r, b :: l)
  end.

Definition handle_peer_revoke_and_ack (old_commit_secret next_per_commit : list Z) (sym_sig : option (list Z)) (p : peer)
  : run peer :=
  check Warned (revocations_received p =? wrap_u64 ((next_index p).[REMOTE] - 2))
    (match ec_pubkey_create old_commit_secret with
     | None => Failed Errored
     | Some per_commit_point =>
       check Errored (bool_decide (per_commit_point = old_remote_per_commit p))
         (p ← (if channel_has (chan p) OPT_SEQ_SYMMETRIC then
                 let idx := wrap_u64 ((next_index p).[REMOTE] - 1) in
                 let state := match sym_remote_pending p with
                              | Some (n, c) => if n =? idx then c else chan p
                              | None => chan p
                              end in
                 match sym_sig with
                 | None => Failed Errored
                 | Some s =>
                   ok ← lift (sym_check_update sg state idx s);
                   check Errored ok (Done (set_sym_remote_pending None p))
                 end
               else Done p);
          '(_, changed, c) ← lift (channel_rcvd_revoke_and_ack (chan p));
          let p := set_chan c p in
          let revoke_num := revocations_received p in
          let p := set_revocations_received (wrap_u64 (revoke_num + 1)) p in
          let '(pbase, rest) := penalty_base_by_commitnum revoke_num (pbases p) in
          let p := master_write (told_got_revoke revoke_num old_commit_secret next_per_commit (chan_fee_states c)
                                   (blockheight_states c) (changed_htlc_arr changed) pbase (chan_sym_swap c))
                     (set_pbases rest p) in
          let p := set_chan (snd (channel_sym_swap_done (chan p))) p in
          let p := set_remote_per_commit next_per_commit (set_old_remote_per_commit (remote_per_commit p) p) in
          p ← maybe_send_stfu p;
          Done (start_commit_timer p))
     end).

(** ** Removals by the peer *)

Definition handle_peer_fulfill_htlc (id : Z) (preimage : list Z) (p : peer) : run peer :=
  '(e, c) ← lift (channel_fulfill_htlc sha256 point_lock_opens (chan p) LOCAL id preimage);
  check Warned (bool_decide (e = CHANNEL_ERR_REMOVE_OK)) (Done (start_commit_timer (set_chan c p))).

(** [badonion] is not set for a failure with an onion. *)
Definition fail_with (f : failed_htlc) (p : peer) : run peer :=
  '(e, c) ← lift (channel_fail_htlc (chan p) LOCAL (failed_id f));
  check Warned (bool_decide (e = CHANNEL_ERR_REMOVE_OK))
    (Done (start_commit_timer (set_chan (with_htlc c LOCAL (failed_id f) (set_h_failed (Some f))) p))).

Definition handle_peer_fail_htlc (id : Z) (reason : list Z) (p : peer) : run peer :=
  fail_with (mk_failed id None junk (Some reason)) p.

Definition handle_peer_fail_malformed_htlc (id : Z) (sha256_of_onion : list Z) (failure_code : Z) (p : peer) : run peer :=
  fail_with (mk_failed id (Some sha256_of_onion) (Z.lor failure_code BADONION) None) p.

Definition handle_peer_shutdown (scriptpubkey : list Z) (wrong_funding : option outpoint) (p : peer) : run peer :=
  check Warned
    (bool_decide (remote_upfront_shutdown_script = [])
     || bool_decide (scriptpubkey = remote_upfront_shutdown_script))
    (check Warned
       (match wrong_funding with
        | Some _ =>
          feature_negotiated our_features their_features OPT_SHUTDOWN_WRONG_FUNDING
          && negb (feature_negotiated our_features their_features OPT_DUAL_FUND)
          && bool_decide (opener (chan p) = REMOTE)
          && ((next_index p).[REMOTE] =? 1) && ((next_index p).[LOCAL] =? 1)
        | None => true
        end)
       (let p := master_write (told_got_shutdown scriptpubkey wrong_funding) p in
        let p := set_shutdown_sent (upd REMOTE true (shutdown_sent p)) p in
        billboard_update
          (if negb (shutdown_sent p).[LOCAL] then start_commit_timer (set_send_shutdown true p) else p))).

Definition handle_peer_channel_ready (point : list Z) (p : peer) : run peer :=
  if (channel_ready p).[REMOTE] then Done p else
  if (shutdown_sent p).[LOCAL] then Done p else
  let p := set_remote_per_commit point (set_old_remote_per_commit (remote_per_commit p) p) in
  let p := set_channel_ready (upd REMOTE true (channel_ready p)) p in
  billboard_update (master_write (told_channel_ready point) p).

(** Every message but the splice's, errors and warnings. *)
Definition peer_in (m : message sigs) (p : peer) : run peer :=
  let announcement := match m with msg_announcement_signatures => true | _ => false end in
  check Warned (negb (is_stfu_active p && negb (stfu_wait_single_msg p)) || announcement)
    (check Warned
       ((channel_ready p).[REMOTE]
        || match m with
           | msg_channel_ready _ | msg_shutdown _ _ | msg_update_fee _ | msg_announcement_signatures => true
           | _ => false
           end)
       (check Warned (negb (stfu_wait_single_msg p))
          (match m with
           | msg_channel_ready point => handle_peer_channel_ready point p
           | msg_announcement_signatures => Done (master_write told_announcement p)
           | msg_update_add_htlc id amount hash expiry onion tlvs =>
             handle_peer_add_htlc id amount hash expiry onion tlvs p
           | msg_commitment_signed s swap => handle_peer_commit_sig s swap p
           | msg_update_fee feerate => handle_peer_feechange feerate p
           | msg_update_blockheight height => handle_peer_blockheight_change height p
           | msg_revoke_and_ack secret point s => handle_peer_revoke_and_ack secret point s p
           | msg_update_fulfill_htlc id preimage => handle_peer_fulfill_htlc id preimage p
           | msg_update_fail_htlc id reason => handle_peer_fail_htlc id reason p
           | msg_update_fail_malformed_htlc id sha code => handle_peer_fail_malformed_htlc id sha code p
           | msg_shutdown script wrong => handle_peer_shutdown script wrong p
           | msg_stfu initiator => handle_stfu initiator p
           | msg_seq_swap_request _ _ _ _ _ _ | msg_unknown => Failed Warned
           end))).

(** ** Requests of lightningd *)

Definition both_ready (p : peer) : bool := (channel_ready p).[LOCAL] && (channel_ready p).[REMOTE].

(** The failures that are sent back; the other ones are bugs of lightningd. *)
Definition add_err_reported (e : channel_add_err) : bool :=
  match e with
  | CHANNEL_ERR_ADD_OK | CHANNEL_ERR_DUPLICATE | CHANNEL_ERR_DUPLICATE_ID_DIFFERENT => false
  | _ => true
  end.

Definition handle_offer_htlc (amount : amount_msat_t) (cltv_expiry : Z) (payment_hash onion : list Z)
    (path_key : option (list Z)) (extra_tlvs : option (list (Z * list Z))) (lock_point : option (list Z))
    (lane : nat) (p : peer) : run peer :=
  let c := chan p in
  check Died (both_ready p)
    (check Died ((lane =? 0)%nat || channel_has c OPT_SEQ_SYMMETRIC_LANES)
       (check Died
          (match lock_point with
           | Some _ => channel_has c OPT_SEQ_TAPROOT_COVENANT
                       && feature_negotiated our_features their_features OPT_SEQ_POINT_LOCKS
           | None => true
           end)
          (let tlvs := mk_add_tlvs path_key lock_point (if (lane =? 0)%nat then None else Some lane) extra_tlvs in
           r ← lift (channel_add_lane_htlc params c LOCAL (htlc_id p) amount cltv_expiry payment_hash onion
                       path_key extra_tlvs true lane);
           if bool_decide (add_err r = CHANNEL_ERR_ADD_OK) then
             let c := match lock_point with
                      | Some lock => with_htlc (add_chan r) LOCAL (htlc_id p) (set_h_lock_point (Some lock))
                      | None => add_chan r
                      end in
             let p := peer_write (msg_update_add_htlc (htlc_id p) amount payment_hash cltv_expiry onion tlvs)
                        (set_chan c p) in
             let p := master_write (told_offer_htlc_reply (inl (htlc_id p))) (start_commit_timer p) in
             Done (set_htlc_id (wrap_u64 (htlc_id p + 1)) p)
           else
             check Died (add_err_reported (add_err r))
               (Done (master_write (told_offer_htlc_reply (inr (add_err r))) (set_chan (add_chan r) p)))))).

Definition handle_feerates (feerate min max : Z) (max_dust : amount_msat_t) (p : peer) : run peer :=
  let conf := config (chan p) in
  let p := set_chan (set_config (upd LOCAL (set_max_dust max_dust conf.[LOCAL]) conf) (chan p))
             (set_feerate_max max (set_feerate_min min p)) in
  if bool_decide (opener (chan p) = LOCAL) then
    let p := set_desired_feerate feerate p in
    Done (if negb ((next_index p).[LOCAL] =? 1) || negb ((next_index p).[REMOTE] =? 1)
          then start_commit_timer p else p)
  else Done p.

(** The additions are of [u32]. *)
Definition handle_blockheight (blockheight : Z) (p : peer) : run peer :=
  let p := set_our_blockheight blockheight p in
  if bool_decide (opener (chan p) = LOCAL) then Done (start_commit_timer p)
  else
    peer_height ← lift (channel_blockheight (chan p) REMOTE);
    check Died (peer_height <? wrap_u32 (peer_height + 1008))
      (check Errored (blockheight <=? wrap_u32 (peer_height + 1008)) (Done p)).

(** The message that removes an HTLC; [onion] is dereferenced. *)
Definition send_fail_or_fulfill (h : htlc) (p : peer) : run peer :=
  match h_failed h with
  | Some f =>
    match sha256_of_onion f, onion f with
    | Some sha, _ => Done (peer_write (msg_update_fail_malformed_htlc (h_id h) sha (badonion f)) p)
    | None, Some reason => Done (peer_write (msg_update_fail_htlc (h_id h) reason) p)
    | None, None => Failed Died
    end
  | None =>
    match h_r h with
    | Some r => Done (peer_write (msg_update_fulfill_htlc (h_id h) r) p)
    | None => Failed Warned
    end
  end.

(** The HTLC the removal was about; a NULL one would be dereferenced. *)
Definition send_removal (owner : side) (id : Z) (p : peer) : run peer :=
  h ← lift (channel_get_htlc (chan p) owner id);
  match h with Some h => send_fail_or_fulfill h p | None => Failed Died end.

Definition handle_preimage (id : Z) (payment_preimage : list Z) (p : peer) : run peer :=
  '(e, c) ← lift (channel_fulfill_htlc sha256 point_lock_opens (chan p) REMOTE id payment_preimage);
  check Died (bool_decide (e = CHANNEL_ERR_REMOVE_OK))
    (p ← send_removal REMOTE id (set_chan c p);
     Done (start_commit_timer p)).

Definition handle_fail (f : failed_htlc) (p : peer) : run peer :=
  '(e, c) ← lift (channel_fail_htlc (chan p) REMOTE (failed_id f));
  check Died (bool_decide (e = CHANNEL_ERR_REMOVE_OK))
    (p ← send_removal REMOTE (failed_id f) (set_chan (with_htlc c REMOTE (failed_id f) (set_h_failed (Some f))) p);
     Done (start_commit_timer p)).

Definition handle_shutdown_cmd (scriptpubkey : list Z) (wrong_funding : option outpoint) (p : peer) : run peer :=
  let p := set_final_scriptpubkey scriptpubkey (set_shutdown_wrong_funding wrong_funding p) in
  Done (start_commit_timer (set_send_shutdown true p)).

Definition handle_stfu_req (p : peer) : run peer :=
  if want_stfu p || is_stfu_active p then Done (master_write told_splice_state_error p)
  else maybe_send_stfu (set_want_stfu true (set_stfu_initiator LOCAL (set_on_stfu_success true p))).

Definition handle_dev_quiesce (p : peer) : run peer :=
  check Died (negb (want_stfu p)) (maybe_send_stfu (set_stfu_initiator LOCAL (set_want_stfu true p))).

Definition handle_credit_note (credit : amount_sat_t) (p : peer) : run peer :=
  Done (if amount_sat_greater credit (credit_floor (chan p))
        then set_chan (set_credit_floor credit (chan p)) p else p).

Definition sym_swap_approved (c : channel) (give_lane : nat) (give : amount_msat_t) (take_lane : nat)
    (take : amount_msat_t) : outcome bool :=
  give_asset ← sym_lane_asset c give_lane;
  take_asset ← sym_lane_asset c take_lane;
  Ret (approve_sym_swap sg give_asset give take_asset take).

(** Why not, as a bool. *)
Definition swap_refused (w : sym_swap) (p : peer) : outcome bool :=
  if negb (both_ready p) then Ret true else
  match sym_swap_req (chan p) with
  | Some _ => Ret true
  | None => err ← channel_sym_swap_check (chan p) w; Ret (negb (bool_decide (err = None)))
  end.

Definition handle_sym_swap_request (w : sym_swap) (expiry : Z) (p : peer) : run peer :=
  let w := set_swap_state RCVD_ADD_HTLC w in
  refused ← lift (r ← swap_refused w p;
                  if (r : bool) then Ret true
                  else ok ← sym_swap_approved (chan p) (take_lane w) (swap_take w) (give_lane w) (swap_give w);
                       Ret (negb ok));
  let p := if (refused : bool) then p
           else peer_write (msg_seq_swap_request (swap_id w) (take_lane w) (swap_take w) (give_lane w)
                              (swap_give w) expiry)
                  (set_chan (set_swap_req (Some w) (chan p)) p) in
  Done (master_write (told_swap_reply refused) p).

Definition handle_sym_swap_accept (w : sym_swap) (p : peer) : run peer :=
  let w := set_swap_state SENT_ADD_HTLC w in
  refused ← lift (r ← swap_refused w p;
                  if (r : bool) then Ret true
                  else ok ← sym_swap_approved (chan p) (give_lane w) (swap_give w) (take_lane w) (swap_take w);
                       Ret (negb ok));
  p ← (if (refused : bool) then Done p
       else c ← lift (channel_sym_swap_add (chan p) w); Done (start_commit_timer (set_chan c p)));
  Done (master_write (told_swap_reply refused) p).

Definition handle_sym_swap_cancel (id : Z) (p : peer) : run peer :=
  Done (match sym_swap_req (chan p) with
        | Some w => if swap_id w =? id then set_chan (set_swap_req None (chan p)) p else p
        | None => p
        end).

(** A request while the channel becomes quiescent is queued, but for those that
    are no updates. *)
Definition req_in (r : request) (p : peer) : run peer :=
  let later k := match handle_master_request_later r p with Some p => Done p | None => k end in
  match r with
  | req_offer_htlc amount expiry hash onion path_key extra lock lane =>
    later (handle_offer_htlc amount expiry hash onion path_key extra lock lane p)
  | req_credit_note credit => handle_credit_note credit p
  | req_sym_swap_request w expiry => later (handle_sym_swap_request w expiry p)
  | req_sym_swap_accept w => later (handle_sym_swap_accept w p)
  | req_sym_swap_cancel id => handle_sym_swap_cancel id p
  | req_feerates feerate min max dust => later (handle_feerates feerate min max dust p)
  | req_blockheight height => later (handle_blockheight height p)
  | req_fulfill_htlc id preimage => later (handle_preimage id preimage p)
  | req_fail_htlc f => later (handle_fail f p)
  | req_send_shutdown script wrong => handle_shutdown_cmd script wrong p
  | req_stfu => handle_stfu_req p
  | req_dev_quiesce => if developer then handle_dev_quiesce p else Failed Died
  end.

(** Amounts are [u64], feerates [u32]. *)
Definition wf_swap (w : sym_swap) : Prop := wf_msat (swap_give w) /\ wf_msat (swap_take w).
Definition wf_message (m : message sigs) : Prop :=
  match m with
  | msg_update_add_htlc _ amount _ _ _ _ => wf_msat amount
  | msg_update_fee feerate => in_u32 feerate
  | msg_commitment_signed _ (Some w) => wf_swap w
  | _ => True
  end.
Definition wf_request (r : request) : Prop :=
  match r with
  | req_offer_htlc amount _ _ _ _ _ _ _ => wf_msat amount
  | req_feerates feerate _ _ _ => in_u32 feerate
  | req_sym_swap_request w _ | req_sym_swap_accept w => wf_swap w
  | _ => True
  end.

(** One turn of the main loop, which ends when the shutdown is complete. *)
Inductive peer_step (p : peer) : peer -> Prop :=
| step_peer m p' :
    shutdown_complete p = Ret false -> wf_message m -> peer_in m p = Done p' -> peer_step p p'
| step_master r p' :
    shutdown_complete p = Ret false -> wf_request r -> req_in r p = Done p' -> peer_step p p'
| step_timer p' :
    shutdown_complete p = Ret false -> commit_timer p = true -> send_commit_if_not_stfu p = Done p' ->
    peer_step p p'.
End Channeld.
