(* ===== verification/Signer.v ===== *)
(** * Signing commitments (hsmd/libhsmd.c, common/derive_basepoints.c,
    common/penalty_base.c, and the part of channeld/channeld.c that calls them)

    The secrets of a channel, all derived from the node's; the requests channeld
    makes of hsmd for a commitment of the peer and to revoke one of ours; what
    channeld keeps to punish a revoked commitment; and how it checks the
    signatures it is sent.  They make up a [Peer.signer]. *)

From stdpp Require Import list.
From S2P Require Import Prelude Chainparams Amount HtlcState Wire Features Script Shachain Keys Tapscript ChannelState Tx SymScripts SymState Channel SymChannel CommitTx Signature PeerState Peer.
Local Open Scope Z_scope.

(** ** Keys (common/derive_basepoints.c) *)

Record secrets := mk_secrets {
  funding_privkey : list Z;
  revocation_basepoint_secret : list Z;
  payment_basepoint_secret : list Z;
  delayed_payment_basepoint_secret : list Z;
  htlc_basepoint_secret : list Z;
}.
(** [struct keys], which is filled as 192 bytes. *)
Record keys := mk_keys { keys_f : list Z; keys_r : list Z; keys_h : list Z; keys_p : list Z; keys_d : list Z; shaseed : list Z }.
Definition keys_of_bytes (b : list Z) : keys :=
  let part i := take 32 (drop (32 * i) b) in mk_keys (part 0%nat) (part 1%nat) (part 2%nat) (part 3%nat) (part 4%nat) (part 5%nat).

(** "c-lightning", "per-peer seed" and "peer seed". *)
Definition c_lightning : list Z := [99; 45; 108; 105; 103; 104; 116; 110; 105; 110; 103].
Definition per_peer_seed : list Z := [112; 101; 114; 45; 112; 101; 101; 114; 32; 115; 101; 101; 100].
Definition peer_seed : list Z := [112; 101; 101; 114; 32; 115; 101; 101; 100].

Section Hsmd.
Context (params : chainparams) (sha256 ripemd160 : list Z -> list Z).
Context (wlen : bool -> bitcoin_tx -> option nat) (wbytes : bool -> bitcoin_tx -> option (list Z)).
Context `{Secp256k1} `{Ecdsa} (no_grind : bool) (attempts : nat).
Context (conf_value : Z -> option (list Z))
        (elements_hash : bitcoin_tx -> nat -> list Z -> list Z -> Z -> option (list Z))
        (btc_hash : bitcoin_tx -> nat -> list Z -> Z -> Z -> option (list Z)).
(** The key derivation, which is [Hkdf.hkdf_sha256]: the size, the salt, the key
    and the info. *)
Context (hkdf_sha256 : nat -> list Z -> list Z -> list Z -> outcome (list Z)).
(** The sort of the C library, and the signature whose bytes are all zero. *)
Context `{!Taproot, !Issuance}.
Context (asort : (sym_output htlc -> sym_output htlc -> comparison) -> list (sym_output htlc) -> list (sym_output htlc)).
Context (zero_signature : ecdsa_signature).
Notation sign_tx_input := (sign_tx_input params no_grind attempts conf_value elements_hash btc_hash).
Notation check_tx_sig := (check_tx_sig params conf_value elements_hash btc_hash).

(** [dev_force_channel_secrets] is not set. *)
Definition derive_keys (seed : list Z) : outcome keys :=
  b ← hkdf_sha256 192 [] seed c_lightning;
  Ret (keys_of_bytes b).

Definition secrets_of (k : keys) : secrets := mk_secrets (keys_f k) (keys_r k) (keys_p k) (keys_d k) (keys_h k).

(** The public keys that are asked for, the secrets and the shaseed; [None] is
    false. *)
Definition derive_basepoints (funding_pubkey basepoints : bool) (seed : list Z)
  : outcome (option (option (list Z) * option Keys.basepoints * secrets * list Z)) :=
  k ← derive_keys seed;
  Ret (funding ← (if funding_pubkey then Some <$> ec_pubkey_create (keys_f k) else Some None);
       bases ← (if basepoints then
                  revocation ← ec_pubkey_create (keys_r k);
                  payment ← ec_pubkey_create (keys_p k);
                  htlc ← ec_pubkey_create (keys_h k);
                  delayed ← ec_pubkey_create (keys_d k);
                  Some (Some (mk_basepoints revocation payment htlc delayed))
                else Some None);
       Some (funding, bases, secrets_of k, shaseed k)).

Definition derive_shaseed (seed : list Z) : outcome (list Z) := k ← derive_keys seed; Ret (shaseed k).

Definition per_commit_point (shaseed : list Z) (per_commit_index : Z) : outcome (option (list Z)) :=
  secret ← per_commit_secret sha256 48 shaseed per_commit_index;
  Ret (s ← secret; ec_pubkey_create s).

(** ** Requests (hsmd/libhsmd.c) *)

(** The node's seed, and the channel of the client. *)
Context (bip32_seed peer_id : list Z) (dbid : Z).

Definition hsm_channel_secret_base : outcome (list Z) := hkdf_sha256 32 [] (take 32 bip32_seed) peer_seed.
Definition get_channel_seed : outcome (list Z) :=
  channel_base ← hsm_channel_secret_base;
  hkdf_sha256 32 (peer_id ++ le_bytes 8 dbid) channel_base per_peer_seed.

(** [None] is a bad request.  What [derive_basepoints] returns is not looked at:
    if it fails, the keys used next were not set, which is [Crash]. *)
Definition handle_sign_remote_commitment_tx (tx : bitcoin_tx) (remote_funding_pubkey : list Z)
  : outcome (option bitcoin_signature) :=
  if negb (length (tx_inputs tx) =? 1)%nat then Ret None
  else if (length (tx_outputs tx) =? 0)%nat then Ret None
  else
    seed ← get_channel_seed;
    r ← derive_basepoints true false seed;
    match r with
    | Some (Some local_funding_pubkey, _, s, _) =>
      let funding_wscript := bitcoin_redeem_2of2 local_funding_pubkey remote_funding_pubkey in
      Some <$> sign_tx_input tx 0 None (Some funding_wscript) (funding_privkey s) SIGHASH_ALL
    | _ => Crash
    end.

Definition handle_sign_remote_htlc_tx (tx : bitcoin_tx) (wscript remote_per_commit_point : list Z)
    (option_anchor_outputs : bool) : outcome (option bitcoin_signature) :=
  seed ← get_channel_seed;
  r ← derive_basepoints false true seed;
  match r with
  | Some (_, Some bases, s, _) =>
    match derive_simple_privkey sha256 (htlc_basepoint_secret s) (bp_htlc bases) remote_per_commit_point with
    | None => Ret None
    | Some htlc_privkey =>
      match derive_simple_key sha256 (bp_htlc bases) remote_per_commit_point with
      | None => Ret None
      | Some htlc_pubkey =>
        Some <$> sign_tx_input tx 0 None (Some wscript) htlc_privkey
                   (if option_anchor_outputs then Z.lor SIGHASH_SINGLE SIGHASH_ANYONECANPAY else SIGHASH_ALL)
      end
    end
  | _ => Crash
  end.

Definition handle_validate_commitment_tx (commit_num : Z) : outcome (option (list Z)) :=
  seed ← get_channel_seed;
  s ← derive_shaseed seed;
  per_commit_point s (wrap_u64 (commit_num + 1)).

Definition handle_revoke_commitment_tx (commit_num : Z) : outcome (option (list Z * list Z)) :=
  seed ← get_channel_seed;
  s ← derive_shaseed seed;
  point ← per_commit_point s (wrap_u64 (commit_num + 2));
  match point with
  | None => Ret None
  | Some next_per_commitment_point =>
    secret ← per_commit_secret sha256 48 s commit_num;
    Ret (old_secret ← secret; Some (old_secret, next_per_commitment_point))
  end.

Definition handle_get_per_commitment_point (n : Z) : outcome (option (list Z)) :=
  seed ← get_channel_seed;
  s ← derive_shaseed seed;
  per_commit_point s n.

(** ** Requests for a symmetric channel (hsmd/libhsmd.c) *)

(** The key and its secret; [None] is false. *)
Definition derive_delayed_payment_basepoint (seed : list Z) : outcome (option (list Z * list Z)) :=
  k ← derive_keys seed;
  Ret (key ← ec_pubkey_create (keys_d k); Some (key, keys_d k)).

Definition handle_sign_sym_kickoff (tx : bitcoin_tx) (remote_funding_pubkey : list Z) : outcome (option bitcoin_signature) :=
  if negb (length (tx_inputs tx) =? 1)%nat || (length (tx_outputs tx) <? 1)%nat then Ret None
  else
    seed ← get_channel_seed;
    r ← derive_basepoints true false seed;
    match r with
    | Some (Some local_funding_pubkey, _, s, _) =>
      let funding_wscript := bitcoin_redeem_2of2 local_funding_pubkey remote_funding_pubkey in
      Some <$> sign_tx_input tx 0 None (Some funding_wscript) (funding_privkey s) (Z.lor SIGHASH_SINGLE SIGHASH_ANYONECANPAY)
    | _ => Crash
    end.

(** No outputs, or a number that is no state's. *)
Definition empty_state (st : sym_state) : bool := (length (st_outs st) =? 0)%nat || (st_num st <? 0).

(** The message of a state, signed by our key. *)
Definition sign_state (sc : sym_channel) (st : sym_state) (secret : list Z) : outcome (option (list Z)) :=
  tree ← sym_state_tree_of sha256 sc st;
  msg ← sym_upd_msg sha256 sc tree;
  Some <$> tap_sign msg secret.
Definition sym_constants (funding : outpoint) (we_opened : bool) (our_key remote_update_key asset : list Z) (delay : Z)
  : outcome sym_channel :=
  sym_channel_init params sha256 (genesis_blockhash params) funding (if we_opened then our_key else remote_update_key)
    (if we_opened then remote_update_key else our_key) (Some asset) delay.

Definition handle_sign_sym_state (funding : outpoint) (we_opened : bool) (remote_update_key asset : list Z) (delay : Z)
    (st : sym_state) : outcome (option (list Z)) :=
  if empty_state st then Ret None
  else if existsb names_asset (st_outs st) then Ret None
  else
    seed ← get_channel_seed;
    r ← derive_delayed_payment_basepoint seed;
    match r with
    | None => Ret None
    | Some (our_key, secret) =>
      sc ← sym_constants funding we_opened our_key remote_update_key asset delay;
      sign_state sc st secret
    end.

Definition handle_sign_sym_clock_state (funding : outpoint) (we_opened : bool) (remote_update_key asset : list Z) (delay : Z)
    (issuer : outpoint) (funding_sats : amount_sat_t) (remote_funding_key : list Z) (st : sym_state)
  : outcome (option (list Z)) :=
  if empty_state st then Ret None
  else if existsb names_asset (st_outs st) then Ret None
  else
    seed ← get_channel_seed;
    r ← derive_delayed_payment_basepoint seed;
    match r with
    | None => Ret None
    | Some (our_key, secret) =>
      r ← derive_basepoints true false seed;
      match r with
      | Some (Some local_funding_key, _, _, _) =>
        sc ← sym_constants funding we_opened our_key remote_update_key asset delay;
        marker ← sym_marker_id issuer;
        sign_state (sym_channel_set_clock sha256 sc marker (bitcoin_redeem_2of2 local_funding_key remote_funding_key) funding_sats)
          st secret
      | _ => Crash
      end
    end.

(** The asset of lane [l], from 1, of the array of 33 bytes each. *)
Definition lane_asset_at (lane_assets : list Z) (l : nat) : list Z := take 33 (drop ((l - 1) * 33) lane_assets).
(** The lane of an asset: 0 is the channel's own, [None] is no lane. *)
Definition lane_of (asset lane_assets : list Z) (nlanes : nat) (a : list Z) : option nat :=
  if bool_decide (a = asset) then Some 0%nat
  else find (fun l => bool_decide (a = lane_asset_at lane_assets l)) (seq 1 nlanes).
(** What the outputs pay each lane; [None] is an output in no lane or an overflow. *)
Fixpoint paid_lanes (asset lane_assets : list Z) (nlanes : nat) (outs : list sym_state_out) (paid : list amount_sat_t)
  : option (list amount_sat_t) :=
  match outs with
  | [] => Some paid
  | o :: outs =>
    l ← lane_of asset lane_assets nlanes (default asset (sto_asset o));
    v ← paid !! l;
    v ← amount_sat_add v (sto_amount o);
    paid_lanes asset lane_assets nlanes outs (<[l := v]> paid)
  end.
Definition lane_paid (asset lane_assets : list Z) (lane_sats paid : list amount_sat_t) (l : nat) : bool :=
  let a := lane_asset_at lane_assets l in
  (byte a 0 =? 0x01) && bool_decide (a <> asset)
  && match paid !! l, lane_sats !! (l - 1)%nat with Some v, Some w => amount_sat_eq v w | _, _ => false end.

Definition handle_sign_sym_lanes_state (funding : outpoint) (we_opened : bool) (remote_update_key asset : list Z)
    (funding_sats : amount_sat_t) (delay : Z) (lane_sats : list amount_sat_t) (lane_assets : list Z) (st : sym_state)
    (nhtlcs : nat) (htlc_lanes : list nat) : outcome (option (list Z)) :=
  let nlanes := length lane_sats in
  if negb (length lane_assets =? nlanes * 33)%nat then Ret None
  else if empty_state st then Ret None
  else if negb (length htlc_lanes =? nhtlcs)%nat then Ret None
  else match paid_lanes asset lane_assets nlanes (st_outs st) (repeat (mk_sat 0) (S nlanes)) with
  | Some (paid0 :: _ as paid) =>
    if negb (amount_sat_eq paid0 funding_sats) then Ret None
    else if negb (forallb (lane_paid asset lane_assets lane_sats paid) (seq 1 nlanes)) then Ret None
    else
      seed ← get_channel_seed;
      r ← derive_delayed_payment_basepoint seed;
      match r with
      | None => Ret None
      | Some (our_key, secret) =>
        sc ← sym_constants funding we_opened our_key remote_update_key asset delay;
        sign_state sc st secret
      end
  | _ => Ret None
  end.

(** ** Penalty bases (common/penalty_base.c) *)

Notation txid_of := (bitcoin_txid sha256 wlen wbytes).

Definition penalty_base_new (commitment_num : Z) (tx : bitcoin_tx) (outnum : nat) : outcome penalty_base :=
  txid ← txid_of tx;
  txout ← wally_ok (tx_outputs tx !! outnum);
  Ret (mk_penalty_base commitment_num txid (Z.of_nat outnum) (out_satoshi txout) []).

Definition penalty_base_new_htlcs_only (commitment_num : Z) (tx : bitcoin_tx) : outcome penalty_base :=
  txid ← txid_of tx;
  Ret (mk_penalty_base commitment_num txid 0xFFFFFFFF (mk_sat 0) []).

Definition penalty_base_add_htlc (outnum : Z) (amount : amount_sat_t) (payment_hash : list Z) (cltv_expiry : Z)
    (remote_offered : bool) (stage2_txid : option (list Z)) (stage2_amount : amount_sat_t) (pbase : penalty_base)
  : penalty_base :=
  let h := mk_penalty_htlc outnum amount payment_hash cltv_expiry remote_offered
             (default (repeat 0 32) stage2_txid)
             (match stage2_txid with Some _ => stage2_amount | None => mk_sat 0 end) in
  mk_penalty_base (commitment_num pbase) (pb_txid pbase) (pb_outnum pbase) (pb_amount pbase) (pb_htlcs pbase ++ [h]).

(** ** Signing the peer's commitment (channeld/channeld.c) *)

(** The loop of [send_commit_part] over the outputs from [n]; [stage2s] are the
    second-stage transactions that are left. *)
Fixpoint penalty_htlcs (c : channel) (tx : bitcoin_tx) (commitment_num : Z) (n : nat) (htlcmap : list (option htlc))
    (stage2s : list (option bitcoin_tx)) (pbase : option penalty_base) : outcome (option penalty_base) :=
  match htlcmap with
  | [] => Ret pbase
  | None :: rest => penalty_htlcs c tx commitment_num (S n) rest stage2s pbase
  | Some h :: rest =>
    match stage2s with
    | Some stage2 :: stage2s =>
      stage2_txid ← txid_of stage2;
      out2 ← wally_ok (tx_outputs stage2 !! 0%nat);
      stage2_asset ← wally_tx_output_get_amount params out2;
      out ← wally_ok (tx_outputs tx !! n);
      asset ← wally_tx_output_get_amount params out;
      if negb (amount_asset_is params asset (channel_asset c))
      then penalty_htlcs c tx commitment_num (S n) rest stage2s pbase
      else
        base ← (match pbase with Some b => Ret b | None => penalty_base_new_htlcs_only commitment_num tx end);
        let base := penalty_base_add_htlc (Z.of_nat n) (mk_sat (asset_value asset)) (h_rhash h) (h_expiry h)
                      (bool_decide (htlc_owner h = REMOTE)) (Some stage2_txid)
                      (if amount_asset_is params stage2_asset (channel_asset c)
                       then mk_sat (asset_value stage2_asset) else mk_sat 0) base in
        penalty_htlcs c tx commitment_num (S n) rest stage2s (Some base)
    | _ => Crash
    end
  end.

(** What it takes to punish the commitment once it is revoked. *)
Definition make_penalty_base (c : channel) (com : commitment) (stage2s : list (option bitcoin_tx)) (commitment_num : Z)
  : outcome (option penalty_base) :=
  if channel_has c OPT_SEQ_TAPROOT_COVENANT then
    match (com_direct com).[LOCAL] with
    | Some n => Some <$> penalty_base_new commitment_num (com_tx com) n
    | None => Some <$> penalty_base_new_htlcs_only commitment_num (com_tx com)
    end
  else
    pbase ← (match (com_direct com).[LOCAL] with
             | Some n => Some <$> penalty_base_new commitment_num (com_tx com) n
             | None => Ret None
             end);
    penalty_htlcs c (com_tx com) commitment_num 0 (com_htlcmap com) stage2s pbase.

(** The witness script the commitment's PSBT has for an HTLC output: the one
    [add_offered_htlc_out] or [add_received_htlc_out] gave it. *)
Definition output_witscript (c : channel) (ks : keyset) (s : side) (com : commitment) (outnum : Z) : outcome (list Z) :=
  match com_htlcmap com !! Z.to_nat outnum with
  | Some (Some h) =>
    let ripemd := ripemd160 (h_rhash h) in
    Ret (if bool_decide (htlc_owner h = s)
         then htlc_offered_wscript sha256 ripemd160 ripemd ks (has_anchor_outputs c) (has_zero_fee_anchors c)
         else htlc_received_wscript sha256 ripemd160 ripemd (h_expiry h) ks (has_anchor_outputs c) (has_zero_fee_anchors c))
  | _ => Crash
  end.
(** The script a second-stage transaction spends. *)
Definition stage2_wscript (c : channel) (ks : keyset) (s : side) (com : commitment) (tx : bitcoin_tx) : outcome (list Z) :=
  i ← wally_ok (tx_inputs tx !! 0%nat);
  output_witscript c ks s com (ChannelState.outnum (in_outpoint i)).

(** A reply of hsmd that is not the one expected fails channeld. *)
Definition hsm_reply {A} (r : outcome (option A)) : outcome A := o ← r; wally_ok o.

Context (chan_keys : channel_keys).

Fixpoint calc_htlc_sigs (c : channel) (ks : keyset) (com : commitment) (remote_per_commit local_htlckey : list Z)
    (txs : list (option bitcoin_tx)) : outcome (list bitcoin_signature) :=
  match txs with
  | [] => Ret []
  | None :: _ => Crash
  | Some tx :: txs =>
    wscript ← stage2_wscript c ks REMOTE com tx;
    sig ← hsm_reply (handle_sign_remote_htlc_tx tx wscript remote_per_commit (channel_has_anchors c));
    ok ← check_tx_sig tx 0 None (Some wscript) local_htlckey sig;
    assert_then ok (sigs ← calc_htlc_sigs c ks com remote_per_commit local_htlckey txs; Ret (sig :: sigs))
  end.
Definition calc_commitsigs (c : channel) (ks : keyset) (com : commitment) (txs : list (option bitcoin_tx))
    (remote_per_commit remote_funding_pubkey : list Z) : outcome (bitcoin_signature * list bitcoin_signature) :=
  commit_sig ← hsm_reply (handle_sign_remote_commitment_tx (com_tx com) remote_funding_pubkey);
  local_htlckey ← wally_ok (derive_simple_key sha256 (bp_htlc (chan_basepoints chan_keys).[LOCAL]) remote_per_commit);
  htlc_sigs ← calc_htlc_sigs c ks com remote_per_commit local_htlckey txs;
  Ret (commit_sig, htlc_sigs).

Definition raw_sigs (sigs : list bitcoin_signature) : list ecdsa_signature := sig_s <$> sigs.
Definition unraw_sigs (raw : list ecdsa_signature) (option_anchor_outputs : bool) : list bitcoin_signature :=
  (fun s => mk_signature s (if option_anchor_outputs then Z.lor SIGHASH_SINGLE SIGHASH_ANYONECANPAY else SIGHASH_ALL))
    <$> raw.

(** What [commitment_signed] carries: the signature of the commitment, those of
    the second-stage transactions, and the update signature of a symmetric
    channel. *)
Record commit_sigs := mk_commit_sigs {
  cs_commit : ecdsa_signature;
  cs_htlcs : list ecdsa_signature;
  cs_sym : option (list Z);
}.

(** The funding output, the memory given to [permute_outputs]. *)
Context (funding : outpoint) (funding_sats : amount_sat_t) (junk : nat -> Z).
Context (approve : list Z -> amount_msat_t -> list Z -> amount_msat_t -> bool).

(** ** The signatures of a symmetric channel (channeld/sym_channeld.c) *)

Notation state_of := (sym_channeld_state sha256 ripemd160 asort chan_keys).

(** The signature hsmd gives on a state. *)
Definition sym_channeld_sign (c : channel) (st : sym_state) : outcome (list Z) :=
  let we_opened := bool_decide (opener c = LOCAL) in
  let remote_key := bp_delayed_payment (chan_basepoints chan_keys).[REMOTE] in
  let delay := sym_shared_delay c in
  hsm_reply
    (match sym_lanes c with
     | Some lanes =>
       let committed := channel_committed_htlcs c (st_owner st) in
       handle_sign_sym_lanes_state (ChannelState.funding c) we_opened remote_key (channel_asset c) (ChannelState.funding_sats c)
         delay (lane_funding_sats <$> lanes) (concat (lane_asset <$> lanes)) st (length committed) (h_lane <$> committed)
     | None =>
       match sym_issuer chan_keys with
       | Some issuer =>
         handle_sign_sym_clock_state (ChannelState.funding c) we_opened remote_key (channel_asset c) delay issuer
           (ChannelState.funding_sats c) (funding_pubkey chan_keys).[REMOTE] st
       | None => handle_sign_sym_state (ChannelState.funding c) we_opened remote_key (channel_asset c) delay st
       end
     end).

(** What channeld's [init_channel] leaves in [sym_kickoff_sig]; nothing the
    kickoff depends on changes later. *)
Definition sym_channeld_kickoff_sig (c : channel) : outcome ecdsa_signature :=
  if channel_has c OPT_SEQ_SYMMETRIC_FACTORY then Ret zero_signature
  else
    '(ko, _) ← sym_channel_kickoff params sha256 wlen wbytes chan_keys c;
    sig ← hsm_reply (handle_sign_sym_kickoff ko (funding_pubkey chan_keys).[REMOTE]);
    Ret (sig_s sig).

Definition sym_sign (c : channel) (remote_index : Z) : outcome commit_sigs :=
  st ← state_of c REMOTE remote_index;
  sig ← sym_channeld_sign c st;
  kickoff ← sym_channeld_kickoff_sig c;
  Ret (mk_commit_sigs kickoff [] (Some sig)).

(** What goes with the revocation: our signature on our own next state; and the
    check of the peer's on its. *)
Definition sym_update (c : channel) (local_index : Z) : outcome (list Z) :=
  st ← state_of c LOCAL local_index; sym_channeld_sign c st.
Definition sym_check_sig (c : channel) (remote_index : Z) (sig : list Z) : outcome bool :=
  st ← state_of c REMOTE remote_index; sym_channel_check_sig params sha256 chan_keys c st REMOTE sig.

Notation txs_of c point number s want :=
  (channel_txs params sha256 ripemd160 wlen wbytes funding funding_sats chan_keys c point number s 0 0
     (funding_pubkey chan_keys) want junk).
Notation keyset_of c point s :=
  (derive_keyset sha256 point (chan_basepoints chan_keys).[s] (chan_basepoints chan_keys).[other s]
     (channel_has c OPT_STATIC_REMOTEKEY)).

(** The part of [send_commit_part] that makes the message and the penalty base;
    without transactions, NULL is dereferenced. *)
Definition sign_remote_commitment (c : channel) (remote_index : Z) (remote_per_commit : list Z)
  : outcome (commit_sigs * option penalty_base) :=
  if channel_has c OPT_SEQ_SYMMETRIC then s ← sym_sign c remote_index; Ret (s, None)
  else
    r ← txs_of c remote_per_commit remote_index REMOTE true;
    '(com, txs) ← wally_ok r;
    ks ← wally_ok (keyset_of c remote_per_commit REMOTE);
    '(commit_sig, htlc_sigs) ← calc_commitsigs c ks com txs remote_per_commit (funding_pubkey chan_keys).[REMOTE];
    pbase ← make_penalty_base c com txs remote_index;
    Ret (mk_commit_sigs (sig_s commit_sig) (raw_sigs htlc_sigs) None, pbase).

Fixpoint check_htlc_sigs (c : channel) (ks : keyset) (com : commitment) (remote_htlckey : list Z)
    (txs : list (option bitcoin_tx)) (sigs : list bitcoin_signature) : outcome bool :=
  match txs, sigs with
  | Some tx :: txs, sig :: sigs =>
    wscript ← stage2_wscript c ks LOCAL com tx;
    ok ← check_tx_sig tx 0 None (Some wscript) remote_htlckey sig;
    if (ok : bool) then check_htlc_sigs c ks com remote_htlckey txs sigs else Ret false
  | None :: _, _ :: _ => Crash
  | _, _ => Ret true
  end.

(** The part of [handle_peer_commit_sig] that checks the signatures; [false] is
    [peer_failed_warn]. *)
Definition check_local_commitment (c : channel) (local_index : Z) (local_per_commit : list Z) (sigs : commit_sigs)
  : outcome bool :=
  let sym := channel_has c OPT_SEQ_SYMMETRIC in
  let commit_sig := mk_signature (cs_commit sigs) (if sym then Z.lor SIGHASH_SINGLE SIGHASH_ANYONECANPAY else SIGHASH_ALL) in
  let htlc_sigs := unraw_sigs (cs_htlcs sigs) (channel_has_anchors c) in
  r ← txs_of c local_per_commit local_index LOCAL false;
  '(com, txs) ← wally_ok r;
  ks ← wally_ok (keyset_of c local_per_commit LOCAL);
  remote_htlckey ← wally_ok (derive_simple_key sha256 (bp_htlc (chan_basepoints chan_keys).[REMOTE]) local_per_commit);
  let funding_wscript := bitcoin_redeem_2of2 (funding_pubkey chan_keys).[LOCAL] (funding_pubkey chan_keys).[REMOTE] in
  ok ← (if channel_has c OPT_SEQ_SYMMETRIC_FACTORY then Ret true
        else check_tx_sig (com_tx com) 0 None (Some funding_wscript) (funding_pubkey chan_keys).[REMOTE] commit_sig);
  if negb ok then Ret false else
  if negb (length htlc_sigs =? length txs)%nat then Ret false else
  ok ← check_htlc_sigs c ks com remote_htlckey txs htlc_sigs;
  if negb ok then Ret false else
  if sym then
    match cs_sym sigs with
    | None => Ret false
    | Some sig =>
      st ← state_of c LOCAL local_index;
      sym_channel_check_sig params sha256 chan_keys c st REMOTE sig
    end
  else
    _ ← hsm_reply (handle_validate_commitment_tx local_index);
    Ret true.

Definition revoke_local_commitment (index : Z) : outcome (list Z * list Z) := hsm_reply (handle_revoke_commitment_tx index).

Definition hsm_signer : signer commit_sigs :=
  mk_signer commit_sigs sign_remote_commitment check_local_commitment sym_update sym_check_sig revoke_local_commitment
    approve.
End Hsmd.
