(* ===== verification/Opend.v ===== *)
(** * Opening a channel (openingd/openingd.c)

    The two sides of an opening, cut at the messages they wait for: the opener
    offers, takes the answer, creates the channel and takes the first signature;
    the accepter judges the offer, answers it, and signs.  Messages are decoded;
    the signer is hsmd, as [Signer] has it. *)

From stdpp Require Import list.
From S2P Require Import Prelude Chainparams Amount HtlcState FeeStates CommitFee Features Wire Script Keys Tapscript ChannelState Tx SymScripts Opening TcovScripts SymState SymFactory Channel SymChannel CommitTx Signature LaneWire PeerState Signer.
Local Open Scope Z_scope.

(** ** How a step ends *)

Inductive refusal :=
| no_exchange_rate
| bad_bounds (e : config_error)
| bad_lanes
| lanes_need_type
| no_issuer
| bad_upfront_script
| no_channel_type
| unoffered_channel_type
| ids_differ
| dust_above_reserve
| dust_overflows
| all_dust
| not_symmetric_here
| shared_delay_too_long
| no_factory
| factory_needs_type
| clock_unmined
| bad_asset_id
| reserve_below_dust
| unsupported_channel_type
| unknown_chain
| funding_too_large
| push_too_large
| feerate_too_small
| feerate_too_large
| refused_by_lightningd
| not_trusted_for_zeroconf
| no_channel
| no_transaction (e : initial_channel_error)
| no_first_state
| no_update_signature
| bad_update_signature
| bad_lane_sigs
| bad_signature
| factory_announced
| malformed_factory
| factory_mismatch
| bad_factory (e : factory_error)
| lane_outputs_clash.

(** It goes on; or the daemon exits, after [negotiation_failed] (an error to the
    peer), [negotiation_aborted] (none), [peer_failed_err], or [status_failed],
    an assertion or [abort]. *)
Inductive negotiation (A : Type) : Type :=
| Agreed (a : A)
| Refused (why : refusal)
| Aborted (why : refusal)
| Peer_error (why : refusal)
| Broken.
Arguments Agreed {A} a.
Arguments Refused {A} why.
Arguments Aborted {A} why.
Arguments Peer_error {A} why.
Arguments Broken {A}.

#[export] Instance negotiation_ret : MRet negotiation := fun A a => Agreed a.
#[export] Instance negotiation_bind : MBind negotiation := fun A B k r =>
  match r with
  | Agreed a => k a
  | Refused w => Refused w
  | Aborted w => Aborted w
  | Peer_error w => Peer_error w
  | Broken => Broken
  end.
Definition sure {A} (o : outcome A) : negotiation A := match o with Ret a => Agreed a | Crash => Broken end.
(** [negotiation_failed], [negotiation_aborted] or [peer_failed_err] unless. *)
Definition refuse (b : bool) (why : refusal) : negotiation unit := if b then Refused why else Agreed tt.
Definition abort_if (b : bool) (why : refusal) : negotiation unit := if b then Aborted why else Agreed tt.
Definition fail_if (b : bool) (why : refusal) : negotiation unit := if b then Peer_error why else Agreed tt.

(** ** Messages *)

(** The fields of both messages that make up a configuration. *)
Record conf_fields := mk_conf_fields {
  cf_dust_limit : amount_sat_t;
  cf_max_in_flight : amount_msat_t;
  cf_reserve : amount_sat_t;
  cf_htlc_minimum : amount_msat_t;
  cf_to_self_delay : Z;
  cf_max_accepted_htlcs : Z;
}.
Definition sent_conf (f : channel_config) : conf_fields :=
  mk_conf_fields (conf_dust_limit f) (max_htlc_value_in_flight f) (channel_reserve f) (htlc_minimum f) (to_self_delay f)
    (max_accepted_htlcs f).
Definition read_conf (f : conf_fields) (old : channel_config) : channel_config :=
  mk_config (conf_id old) (cf_dust_limit f) (cf_max_in_flight f) (cf_reserve f) (cf_htlc_minimum f) (cf_to_self_delay f)
    (cf_max_accepted_htlcs f) (max_dust_htlc_exposure_msat old).

Record open_channel := mk_open_channel {
  oc_chain_hash : list Z;
  oc_id : list Z;
  oc_funding_sats : amount_sat_t;
  oc_push_msat : amount_msat_t;
  oc_conf : conf_fields;
  oc_feerate : Z;
  oc_funding_pubkey : list Z;
  oc_points : basepoints;
  oc_first_point : list Z;
  oc_flags : Z;
  oc_upfront : option (list Z);
  oc_type : option (list Z);
  oc_asset_id : option (list Z);
  oc_lanes : option (list Z);
  oc_issuer : option outpoint;
}.
Record accept_channel := mk_accept_channel {
  ac_id : list Z;
  ac_conf : conf_fields;
  ac_minimum_depth : Z;
  ac_funding_pubkey : list Z;
  ac_points : basepoints;
  ac_first_point : list Z;
  ac_upfront : option (list Z);
  ac_type : option (list Z);
}.
(** [fc_sym_sig] and the like are its TLVs. *)
Record funding_created `{Ecdsa} := mk_funding_created {
  fc_id : list Z;
  fc_txid : list Z;
  fc_outnum : Z;
  fc_sig : ecdsa_signature;
  fc_sym_sig : option (list Z);
  fc_factory : option (list Z);
  fc_lanes : option (list Z);
}.
Record funding_signed `{Ecdsa} := mk_funding_signed {
  fs_id : list Z;
  fs_sig : ecdsa_signature;
  fs_sym_sig : option (list Z);
  fs_lanes : option (list Z);
}.
Arguments mk_funding_created {_}.
Arguments mk_funding_signed {_}.

(** ** [struct state] *)

(** What [openingd_init] sets once; [dev_upfront] is the environment's. *)
Record open_env := mk_open_env {
  our_features : feature_set;
  their_features : list Z;
  max_to_self_delay : Z;
  symmetric_delay : Z;
  our_points : basepoints;
  our_funding_pubkey : list Z;
  dev_force_tmp_channel_id : option (list Z);
  allowdustreserve : bool;
  dev_accept_any_channel_type : bool;
  asset_rates : list (list Z * Z);
  dev_upfront : option (list Z);
}.
(** What changes.  The accepter keeps the opener's keys in variables of
    [fundee_channel]. *)
Record open_state := mk_open_state {
  localconf : channel_config;
  remoteconf : channel_config;
  min_effective_htlc_capacity : amount_msat_t;
  feerate_range : Z * Z;
  op_minimum_depth : Z;
  their_points : basepoints;
  their_funding_pubkey : list Z;
  first_per_commitment_point : sides (list Z);
  op_channel_id : list Z;
  op_funding_sats : amount_sat_t;
  push_msat : amount_msat_t;
  op_feerate : Z;
  op_asset : list Z;
  upfront_shutdown_script : sides (option (list Z));
  op_type : channel_type;
  op_lanes : list sym_lane;
  op_issuer : option outpoint;
  factory_id : option outpoint;
}.

Section Openingd.
Context (params : chainparams) (sha256 ripemd160 : list Z -> list Z).
Context (wlen : bool -> bitcoin_tx -> option nat) (wbytes : bool -> bitcoin_tx -> option (list Z)).
Context `{!Secp256k1} `{!Ecdsa, !CompactSigs _} (no_grind : bool) (attempts : nat).
Context (conf_value : Z -> option (list Z))
        (elements_hash : bitcoin_tx -> nat -> list Z -> list Z -> Z -> option (list Z))
        (btc_hash : bitcoin_tx -> nat -> list Z -> Z -> Z -> option (list Z)).
Context (hkdf : nat -> list Z -> list Z -> list Z -> outcome (list Z)).
Context `{!Taproot, !Issuance}.
Context (asort : (sym_output htlc -> sym_output htlc -> comparison) -> list (sym_output htlc) -> list (sym_output htlc)).
Context (zero_signature unset : ecdsa_signature) (junk : nat -> Z).
Context (bip32_seed peer_id : list Z) (dbid : Z) (e : open_env).

Notation negotiated f := (feature_negotiated (our_features e) (their_features e) f).

(** ** Shared steps *)

Definition sym_delay_ok (type : channel_type) (local remote : channel_config) (check_theirs : bool)
  : negotiation channel_config :=
  if negb (channel_type_has type OPT_SEQ_SYMMETRIC) then Agreed local
  else
    _ ← refuse (symmetric_delay e =? 0) not_symmetric_here;
    _ ← refuse (check_theirs && (symmetric_delay e <? to_self_delay remote)) shared_delay_too_long;
    Agreed (with_delay (symmetric_delay e) local).

Definition set_remote_upfront_shutdown (script : option (list Z)) : negotiation (option (list Z)) :=
  let '(ok, kept) := validate_remote_upfront_shutdown (our_features e) (their_features e) script in
  if (ok : bool) then Agreed kept else Peer_error bad_upfront_script.

Definition bounds (st_sats : amount_sat_t) (feerate : Z) (capacity : amount_msat_t) (remote local : channel_config)
    (type : channel_type) : negotiation (option config_error) :=
  sure (check_config_bounds params st_sats feerate (max_to_self_delay e) capacity remote local
          (channel_type_has type OPT_ANCHORS_ZERO_FEE_HTLC_TX)).

Definition factory_ko_program (id : outpoint) (opener_key accepter_key asset : list Z) (delay : Z) : outcome (list Z) :=
  sc ← sym_channel_init params sha256 (genesis_blockhash params) id opener_key accepter_key (Some asset) delay;
  ko ← sym_kickoff_tree sha256 sc;
  Ret (sym_tree_program ko).

Definition opener_clock_seed (st : open_state) (local : channel_config) (issuer : outpoint) (theirs : basepoints)
    (funding_wscript : list Z) : outcome (list Z) :=
  let delay := Z.max (to_self_delay local) (to_self_delay (remoteconf st)) in
  sc ← sym_channel_init params sha256 (genesis_blockhash params) (mk_outpoint (repeat 0 32) 0)
         (bp_delayed_payment (our_points e)) (bp_delayed_payment theirs) (Some (op_asset st)) delay;
  sym_clock_seed sha256 sc issuer funding_wscript (op_funding_sats st).

(** ** The opener offers *)

Definition asset_limits (asset : list Z) (local : channel_config) (capacity : amount_msat_t) (no_rate : negotiation Z)
  : negotiation (channel_config * amount_msat_t * option Z) :=
  if limits_valued_in_asset params asset then
    let rate := channel_asset_rate (asset_rates e) asset in
    rate ← (if rate =? 0 then no_rate else Agreed rate);
    '(local, capacity) ← sure (value_limits_in_asset rate local capacity);
    Agreed (local, capacity, Some rate)
  else Agreed (local, capacity, None).

(** Only a channel of several assets has lanes beside its own. *)
Definition offered_lanes (type : channel_type) (asset : list Z) (lanes : list sym_lane) : negotiation (option (list Z)) :=
  if channel_type_has type OPT_SEQ_SYMMETRIC_LANES then
    _ ← abort_if ((length lanes =? 0)%nat || negb (sym_lanes_check lanes asset)) bad_lanes;
    Agreed (Some (sym_lanes_open_blob lanes))
  else _ ← abort_if (negb (length lanes =? 0)%nat) lanes_need_type; Agreed None.

Definition offered_asset (asset : list Z) : negotiation (option (list Z)) :=
  if is_elements params then
    match fee_asset_tag params with
    | Some tag => Agreed (if bool_decide (asset = take 33 tag) then None else Some asset)
    | None => Broken
    end
  else Agreed None.

Definition funder_channel_start (st : open_state) (channel_flags nonanchor_feerate anchor_feerate : Z)
    (reserve : option amount_sat_t) (ctype : channel_type) : negotiation (open_state * open_channel) :=
  let id := default (op_channel_id st) (dev_force_tmp_channel_id e) in
  if negb (negotiated OPT_LARGE_CHANNELS) && amount_sat_greater (op_funding_sats st) (max_funding params) then Broken
  else
    '(local, capacity, _) ← asset_limits (op_asset st) (localconf st) (min_effective_htlc_capacity st) (Aborted no_exchange_rate);
    local ← (match reserve with
             | Some r => Agreed (set_reserve_absolute (allowdustreserve e) (conf_dust_limit local) r local)
             | None => sure (set_reserve (allowdustreserve e) (conf_dust_limit local) (op_funding_sats st) local)
             end);
    let upfront := match (upfront_shutdown_script st).[LOCAL] with
                   | Some s => Some s
                   | None => no_upfront_shutdown_script (our_features e) (their_features e) (dev_upfront e)
                   end in
    let type := if negotiated OPT_SCID_ALIAS && (Z.land channel_flags 1 =? 0) then channel_type_set_scid_alias ctype else ctype in
    let feerate := if channel_type_has_anchors type then anchor_feerate else nonanchor_feerate in
    local ← sym_delay_ok type local (remoteconf st) false;
    bad ← bounds (op_funding_sats st) feerate capacity local local type;
    match bad with
    | Some w => Aborted (bad_bounds w)
    | None =>
      asset_id ← offered_asset (op_asset st);
      lanes ← offered_lanes type (op_asset st) (op_lanes st);
      issuer ← (if channel_type_has type OPT_SEQ_SYMMETRIC_CLOCK then
                  match op_issuer st with None => Aborted no_issuer | Some i => Agreed (Some i) end
                else Agreed None);
      Agreed
        (mk_open_state local (remoteconf st) capacity (feerate_range st) (op_minimum_depth st) (their_points st)
           (their_funding_pubkey st) (first_per_commitment_point st) id (op_funding_sats st) (push_msat st) feerate
           (op_asset st) (upd LOCAL upfront (upfront_shutdown_script st)) type (op_lanes st) (op_issuer st) (factory_id st),
         mk_open_channel (genesis_blockhash params) id (op_funding_sats st) (push_msat st) (sent_conf local) feerate
           (our_funding_pubkey e) (our_points e) (first_per_commitment_point st).[LOCAL] channel_flags upfront
           (Some (features type)) asset_id lanes issuer)
    end.

(** ** The opener takes the answer *)

(** What goes back to lightningd. *)
Record start_reply := mk_start_reply {
  funding_output_script : list Z;
  upfront_negotiated : bool;
  sr_type : channel_type;
  sym_seed : option (list Z);
}.

(** All funds in HTLCs that are dust would leave no output. *)
Definition check_all_dust (sats : amount_sat_t) (remote local : channel_config) : negotiation unit :=
  let mindust := if amount_sat_greater (conf_dust_limit remote) (conf_dust_limit local)
                 then conf_dust_limit local else conf_dust_limit remote in
  let maxhtlcs := max_accepted_htlcs remote + max_accepted_htlcs local in
  match amount_sat_mul mindust (maxhtlcs + 2) with
  | None => Refused dust_overflows
  | Some alldust =>
    refuse (allowdustreserve e && negotiated OPT_ZEROCONF && amount_sat_greater_eq alldust sats) all_dust
  end.

Definition funder_channel_accepted (st : open_state) (ac : accept_channel) : negotiation (open_state * start_reply) :=
  let remote := read_conf (ac_conf ac) (remoteconf st) in
  upfront ← set_remote_upfront_shutdown (ac_upfront ac);
  their_type ← (match ac_type ac with None => Refused no_channel_type | Some t => Agreed t end);
  _ ← refuse (negb (featurebits_eq their_type (features (op_type st)))) unoffered_channel_type;
  _ ← fail_if (bool_decide (ac_id ac <> op_channel_id st)) ids_differ;
  _ ← refuse (negb (allowdustreserve e) && amount_sat_greater (conf_dust_limit remote) (channel_reserve (localconf st)))
        dust_above_reserve;
  _ ← check_all_dust (op_funding_sats st) remote (localconf st);
  local ← sym_delay_ok (op_type st) (localconf st) remote true;
  bad ← bounds (op_funding_sats st) (op_feerate st) (min_effective_htlc_capacity st) remote local (op_type st);
  match bad with
  | Some w => Refused (bad_bounds w)
  | None =>
    let wscript := bitcoin_redeem_2of2 (our_funding_pubkey e) (ac_funding_pubkey ac) in
    output ← (if channel_type_has (op_type st) OPT_SEQ_SYMMETRIC_FACTORY then
                match factory_id st with
                | None => Refused no_factory
                | Some id =>
                  program ← sure (factory_ko_program id (bp_delayed_payment (our_points e)) (bp_delayed_payment (ac_points ac))
                                    (op_asset st) (to_self_delay local));
                  Agreed (OP_1 :: 32 :: program)
                end
              else _ ← refuse (bool_decide (factory_id st <> None)) factory_needs_type;
                   Agreed (scriptpubkey_p2wsh sha256 wscript));
    let clock := channel_type_has (op_type st) OPT_SEQ_SYMMETRIC_CLOCK in
    let mindepth := ac_minimum_depth ac in
    let st := mk_open_state local remote (min_effective_htlc_capacity st) (feerate_range st) (op_minimum_depth st)
                (ac_points ac) (ac_funding_pubkey ac) (upd REMOTE (ac_first_point ac) (first_per_commitment_point st))
                (op_channel_id st) (op_funding_sats st) (push_msat st) (op_feerate st) (op_asset st)
                (upd REMOTE upfront (upfront_shutdown_script st)) (op_type st) (op_lanes st) (op_issuer st) (factory_id st) in
    seed ← (if clock then
              _ ← refuse (mindepth =? 0) clock_unmined;
              match op_issuer st with
              | Some i => spk ← sure (opener_clock_seed st local i (ac_points ac) wscript); Agreed (Some spk)
              | None => Broken
              end
            else Agreed None);
    let type := if negotiated OPT_ZEROCONF && (mindepth =? 0) then channel_type_set_zeroconf (op_type st) else op_type st in
    let depth := if negotiated OPT_ZEROCONF then op_minimum_depth st else mindepth in
    let depth := if channel_type_has type OPT_SEQ_SYMMETRIC_CLOCK && (depth =? 0) then mindepth else depth in
    Agreed
      (mk_open_state local remote (min_effective_htlc_capacity st) (feerate_range st) depth (their_points st)
         (their_funding_pubkey st) (first_per_commitment_point st) (op_channel_id st) (op_funding_sats st) (push_msat st)
         (op_feerate st) (op_asset st) (upfront_shutdown_script st) type (op_lanes st) (op_issuer st) (factory_id st),
       mk_start_reply output (negotiated OPT_UPFRONT_SHUTDOWN_SCRIPT) type seed)
  end.

(** ** The accepter judges an offer *)

(** Our dust limit, in the asset, down to the opener's reserve. *)
Definition meet_reserve (local remote : channel_config) : negotiation channel_config :=
  if negb (allowdustreserve e) && amount_sat_greater (conf_dust_limit local) (channel_reserve remote) then
    fifth ← sure (amount_sat_div (conf_dust_limit local) 5);
    match amount_sat_mul fifth 4 with
    | Some floor =>
      _ ← refuse (amount_sat_less (channel_reserve remote) floor) reserve_below_dust;
      Agreed (with_dust (channel_reserve remote) local)
    | None => Refused reserve_below_dust
    end
  else Agreed local.

Definition fundee_asset (st : open_state) (oc : open_channel) : negotiation (list Z) :=
  match oc_asset_id oc with
  | Some a => _ ← refuse (negb (length a =? 33)%nat) bad_asset_id; Agreed a
  | None => Agreed (op_asset st)
  end.
Definition fundee_lanes (st : open_state) (oc : open_channel) (asset : list Z) : negotiation (list sym_lane) :=
  match oc_lanes oc with
  | Some blob =>
    match sym_lanes_from_open_blob blob with
    | Some lanes => _ ← refuse (negb (sym_lanes_check lanes asset)) bad_lanes; Agreed lanes
    | None => Refused bad_lanes
    end
  | None => Agreed (op_lanes st)
  end.
Definition fundee_type (oc : open_channel) : negotiation channel_type :=
  match oc_type oc with
  | None => Refused no_channel_type
  | Some t =>
    match channel_type_accept t (our_features e) with
    | Some type => Agreed type
    | None => if dev_accept_any_channel_type e then Agreed (mk_channel_type t) else Refused unsupported_channel_type
    end
  end.
Definition fundee_issuer (oc : open_channel) (type : channel_type) : negotiation (option outpoint) :=
  if channel_type_has type OPT_SEQ_SYMMETRIC_CLOCK then
    match oc_issuer oc with
    | None => Refused no_issuer
    | Some i => _ ← refuse (channel_type_has type OPT_ZEROCONF) clock_unmined; Agreed (Some i)
    end
  else Agreed None.

Definition fundee_offer (st : open_state) (oc : open_channel) : negotiation open_state :=
  let remote := read_conf (oc_conf oc) (remoteconf st) in
  upfront ← set_remote_upfront_shutdown (oc_upfront oc);
  asset ← fundee_asset st oc;
  lanes ← fundee_lanes st oc asset;
  '(local, capacity, rate) ← asset_limits asset (localconf st) (min_effective_htlc_capacity st) (Refused no_exchange_rate);
  '(local, lowest, highest) ←
     (match rate with
      | Some rate =>
        lowest ← sure (feerate_in_asset (fst (feerate_range st)) rate);
        highest ← sure (feerate_in_asset (snd (feerate_range st)) rate);
        local ← meet_reserve local remote;
        Agreed (local, lowest, highest)
      | None => Agreed (local, fst (feerate_range st), snd (feerate_range st))
      end);
  type ← fundee_type oc;
  issuer ← fundee_issuer oc type;
  _ ← refuse (bool_decide (oc_chain_hash oc <> genesis_blockhash params)) unknown_chain;
  _ ← refuse (negb (negotiated OPT_LARGE_CHANNELS) && amount_sat_greater (oc_funding_sats oc) (max_funding params))
        funding_too_large;
  _ ← fail_if (amount_msat_greater_sat (oc_push_msat oc) (oc_funding_sats oc)) push_too_large;
  _ ← refuse (oc_feerate oc <? lowest) feerate_too_small;
  _ ← refuse (highest <? oc_feerate oc) feerate_too_large;
  local ← sure (set_reserve (allowdustreserve e) (conf_dust_limit remote) (oc_funding_sats oc) local);
  _ ← refuse (negb (allowdustreserve e) && amount_sat_greater (conf_dust_limit remote) (channel_reserve local)) dust_above_reserve;
  local ← sym_delay_ok type local remote true;
  bad ← bounds (oc_funding_sats oc) (oc_feerate oc) capacity remote local type;
  match bad with
  | Some w => Refused (bad_bounds w)
  | None =>
    Agreed (mk_open_state local remote capacity (lowest, highest) (op_minimum_depth st) (oc_points oc) (oc_funding_pubkey oc)
              (upd REMOTE (oc_first_point oc) (first_per_commitment_point st)) (oc_id oc) (oc_funding_sats oc) (oc_push_msat oc)
              (oc_feerate oc) asset (upd REMOTE upfront (upfront_shutdown_script st)) type lanes issuer (factory_id st))
  end.

(** What lightningd says of the offer. *)
Record offer_reply := mk_offer_reply {
  or_refused : bool;
  or_upfront : option (list Z);
  or_reserve : option amount_sat_t;
  or_minimum_depth : Z;
}.
Definition fundee_accept (st : open_state) (r : offer_reply) : negotiation (open_state * accept_channel) :=
  _ ← refuse (or_refused r) refused_by_lightningd;
  _ ← refuse (channel_type_has (op_type st) OPT_ZEROCONF && (0 <? or_minimum_depth r)) not_trusted_for_zeroconf;
  let depth := if bool_decide (op_issuer st <> None) && (or_minimum_depth r =? 0) then 1 else or_minimum_depth r in
  let upfront := match or_upfront r with
                 | Some s => Some s
                 | None => no_upfront_shutdown_script (our_features e) (their_features e) (dev_upfront e)
                 end in
  let local := match or_reserve r with
               | Some v => set_reserve_absolute (allowdustreserve e) (conf_dust_limit (remoteconf st)) v (localconf st)
               | None => localconf st
               end in
  Agreed
    (mk_open_state local (remoteconf st) (min_effective_htlc_capacity st) (feerate_range st) depth (their_points st)
       (their_funding_pubkey st) (first_per_commitment_point st) (op_channel_id st) (op_funding_sats st) (push_msat st)
       (op_feerate st) (op_asset st) (upd LOCAL upfront (upfront_shutdown_script st)) (op_type st) (op_lanes st) (op_issuer st)
       (factory_id st),
     mk_accept_channel (op_channel_id st) (sent_conf local) depth (our_funding_pubkey e) (our_points e)
       (first_per_commitment_point st).[LOCAL] upfront (Some (features (op_type st)))).

(** ** The channel, and hsmd *)

(** [new_initial_channel] with the channel's asset and issuer. *)
Definition our_keys (st : open_state) : channel_keys :=
  mk_channel_keys (mk_sides (our_funding_pubkey e) (their_funding_pubkey st)) (mk_sides (our_points e) (their_points st))
    (op_issuer st).
Definition initial_channel (st : open_state) (cid : list Z) (funding : outpoint) (local_msat : amount_msat_t) (opener : side)
  : negotiation channel :=
  let payment s := bp_payment (chan_basepoints (our_keys st)).[s] in
  match new_initial_channel params cid funding (op_minimum_depth st) None 0 (op_funding_sats st) local_msat
          (new_fee_states opener (Some (op_feerate st))) (localconf st) (remoteconf st)
          (commit_number_obscurer sha256 (payment opener) (payment (other opener))) (op_type st)
          (feature_offered (their_features e) OPT_LARGE_CHANNELS) opener with
  | Some c => Agreed (set_asset (op_asset st) c)
  | None => Peer_error no_channel
  end.

Notation check_sig tx wscript key sig :=
  (check_tx_sig params conf_value elements_hash btc_hash tx 0 None (Some wscript) key sig).

Definition first_tx (keys : channel_keys) (c : channel) (point : list Z) (s : side)
  : negotiation (bitcoin_tx * sides (option nat)) :=
  r ← sure (initial_channel_tx params sha256 ripemd160 wlen wbytes keys c point s junk);
  match r with inr x => Agreed x | inl w => Refused (no_transaction w) end.
Definition funding_wscript (keys : channel_keys) : list Z :=
  bitcoin_redeem_2of2 (funding_pubkey keys).[LOCAL] (funding_pubkey keys).[REMOTE].

(** *** Symmetric channels *)

Definition sym_sign_kickoff (keys : channel_keys) (kickoff : bitcoin_tx) : outcome bitcoin_signature :=
  hsm_reply (handle_sign_sym_kickoff params no_grind attempts conf_value elements_hash btc_hash hkdf bip32_seed peer_id dbid
               kickoff (funding_pubkey keys).[REMOTE]).
Definition sym_sign_state (keys : channel_keys) (c : channel) (st : sym_state) : outcome (list Z) :=
  let we_opened := bool_decide (opener c = LOCAL) in
  let remote_key := bp_delayed_payment (chan_basepoints keys).[REMOTE] in
  hsm_reply
    (match sym_lanes c with
     | Some lanes =>
       handle_sign_sym_lanes_state params sha256 hkdf bip32_seed peer_id dbid (ChannelState.funding c) we_opened remote_key
         (channel_asset c) (ChannelState.funding_sats c) (sym_shared_delay c) (lane_funding_sats <$> lanes)
         (concat (lane_asset <$> lanes)) st 0 []
     | None =>
       match sym_issuer keys with
       | Some issuer =>
         handle_sign_sym_clock_state params sha256 hkdf bip32_seed peer_id dbid (ChannelState.funding c) we_opened remote_key
           (channel_asset c) (sym_shared_delay c) issuer (ChannelState.funding_sats c) (funding_pubkey keys).[REMOTE] st
       | None =>
         handle_sign_sym_state params sha256 hkdf bip32_seed peer_id dbid (ChannelState.funding c) we_opened remote_key
           (channel_asset c) (sym_shared_delay c) st
       end
     end).
Definition add_sig (s : side) (sig : list Z) (st : sym_state) : sym_state :=
  mk_sym_state (st_owner st) (st_commit_num st) (st_num st) (st_outs st) (upd s true (has_sig st)) (upd s sig (st_sig st)).

(** [None] is NULL: it cannot be paid. *)
Definition sym_first_remote (keys : channel_keys) (c : channel) : negotiation (option sym_state) :=
  r ← sure (sym_channel_state sha256 ripemd160 asort keys c REMOTE 0 [] None);
  match r with
  | inl _ => Agreed None
  | inr st => sig ← sure (sym_sign_state keys c st); Agreed (Some (add_sig LOCAL sig st))
  end.
Definition sym_first_local (keys : channel_keys) (c : channel) (theirs : option (list Z)) : negotiation sym_state :=
  match theirs with
  | None => Peer_error no_update_signature
  | Some sig =>
    r ← sure (sym_channel_state sha256 ripemd160 asort keys c LOCAL 0 [] None);
    match r with
    | inl _ => Peer_error no_first_state
    | inr st =>
      ok ← sure (sym_channel_check_sig params sha256 keys c st REMOTE sig);
      _ ← fail_if (negb ok) bad_update_signature;
      ours ← sure (sym_sign_state keys c st);
      Agreed (add_sig LOCAL ours (add_sig REMOTE sig st))
    end
  end.

(** Our signatures on the kickoffs of the lanes from [l] on, [n] of them; and
    the check of the peer's. *)
Fixpoint sign_lanes_from (keys : channel_keys) (c : channel) (n l : nat) : outcome (list bitcoin_signature) :=
  match n with
  | O => Ret []
  | S n =>
    '(ko, _) ← sym_lane_kickoff_tx params sha256 wlen wbytes keys c (S l);
    sig ← sym_sign_kickoff keys ko;
    sigs ← sign_lanes_from keys c n (S l);
    Ret (sig :: sigs)
  end.
Definition sym_sign_lane_kickoffs (keys : channel_keys) (c : channel) (lanes : list sym_lane) : outcome (list bitcoin_signature) :=
  sign_lanes_from keys c (length lanes) 0.
Fixpoint sym_check_lane_kickoffs (keys : channel_keys) (c : channel) (l : nat) (theirs : list ecdsa_signature)
  : negotiation (list bitcoin_signature) :=
  match theirs with
  | [] => Agreed []
  | s :: theirs =>
    '(ko, wscript) ← sure (sym_lane_kickoff_tx params sha256 wlen wbytes keys c (S l));
    let sig := mk_signature s (Z.lor SIGHASH_SINGLE SIGHASH_ANYONECANPAY) in
    ok ← sure (check_sig ko wscript (funding_pubkey keys).[REMOTE] sig);
    _ ← fail_if (negb ok) bad_signature;
    sigs ← sym_check_lane_kickoffs keys c (S l) theirs;
    Agreed (sig :: sigs)
  end.

(** ** The opener creates the channel *)

Record creating := mk_creating {
  cr_state : open_state;
  cr_channel : channel;
  cr_pbase : option penalty_base;
  cr_kickoff : option bitcoin_signature;
  cr_sym_remote : option sym_state;
  cr_lane_sigs : list bitcoin_signature;
}.

Definition pbase_of (tx : bitcoin_tx) (direct : option nat) : negotiation (option penalty_base) :=
  match direct with
  | Some n => p ← sure (penalty_base_new sha256 wlen wbytes 0 tx n); Agreed (Some p)
  | None => Agreed None
  end.
Definition first_remote_or_fail (keys : channel_keys) (c : channel) : negotiation sym_state :=
  r ← sym_first_remote keys c;
  match r with Some st => Agreed st | None => Refused no_first_state end.
Definition SIG_ZERO : bitcoin_signature := mk_signature zero_signature SIGHASH_ALL.

(** With the lanes' outputs lightningd tells; [type] is what it was told. *)
Definition with_outnums (lanes : list sym_lane) (outnums : list Z) : list sym_lane :=
  zip_with (fun l n => mk_lane (lane_asset l) n (lane_funding_sats l)) lanes outnums.
Definition completed (st : open_state) (type : channel_type) (outnums : list Z) : open_state :=
  mk_open_state (localconf st) (remoteconf st) (min_effective_htlc_capacity st) (feerate_range st) (op_minimum_depth st)
    (their_points st) (their_funding_pubkey st) (first_per_commitment_point st) (op_channel_id st) (op_funding_sats st)
    (push_msat st) (op_feerate st) (op_asset st) (upfront_shutdown_script st) type (with_outnums (op_lanes st) outnums)
    (op_issuer st) (factory_id st).

(** [handle_master_in]'s part of [openingd_funder_complete], and
    [funder_finalize_channel_setup] up to [funding_created].  What it asks hsmd
    before, to know the channel and a settle clock's funding, hsmd only
    acknowledges. *)
Definition funder_channel_complete (st : open_state) (funding : outpoint) (type : channel_type) (factory : option sym_factory)
    (outnums : list Z) : negotiation (creating * funding_created) :=
  if negb (length outnums =? length (op_lanes st))%nat then Broken
  else
    let st := completed st type outnums in
    let keys := our_keys st in
    local_msat ← (match amount_sat_sub_msat (op_funding_sats st) (push_msat st) with Some m => Agreed m | None => Broken end);
    c ← initial_channel st (derive_channel_id funding) funding local_msat LOCAL;
    c ← sure (sym_attach_lanes (op_lanes st) c);
    '(tx, direct) ← first_tx keys c (first_per_commitment_point st).[REMOTE] REMOTE;
    pbase ← pbase_of tx direct.[LOCAL];
    let created sig sym_sig fac lanes := mk_funding_created (op_channel_id st) (txid funding) (outnum funding) (sig_s sig) sym_sig fac lanes in
    if channel_has c OPT_SEQ_SYMMETRIC then
      early ← (match sym_issuer keys with Some _ => r ← first_remote_or_fail keys c; Agreed (Some r) | None => Agreed None end);
      '(sig, fac) ← (if channel_has c OPT_SEQ_SYMMETRIC_FACTORY then
                       match factory with Some f => Agreed (SIG_ZERO, Some (towire_sym_factory f)) | None => Broken end
                     else sig ← sure (sym_sign_kickoff keys tx); Agreed (sig, None));
      remote ← (match early with Some r => Agreed r | None => first_remote_or_fail keys c end);
      lane_sigs ← sure (sym_sign_lane_kickoffs keys c (op_lanes st));
      blob ← (match sym_lanes c with
              | Some _ => b ← sure (sym_lanes_created_blob (op_lanes st) (sig_s <$> lane_sigs)); Agreed (Some b)
              | None => Agreed None
              end);
      Agreed (mk_creating st c None (Some sig) (Some remote) lane_sigs, created sig (Some (st_sig remote).[LOCAL]) fac blob)
    else
      sig ← sure (hsm_reply (handle_sign_remote_commitment_tx params no_grind attempts conf_value elements_hash btc_hash hkdf
                               bip32_seed peer_id dbid tx (funding_pubkey keys).[REMOTE]));
      Agreed (mk_creating st c pbase None None [], created sig None None None).

(** What both sides hand to lightningd of the channel: its first local
    transaction and the peer's signature on it, a penalty base, the states. *)
Record opened := mk_opened {
  od_channel : channel;
  od_state : open_state;
  od_commit : bitcoin_tx;
  od_sig : bitcoin_signature;
  od_pbase : option penalty_base;
  od_kickoff : option bitcoin_signature;
  od_sym_local : option sym_state;
  od_sym_remote : option sym_state;
  od_lane_sigs : list bitcoin_signature;
}.

Definition validate_initial_commitment_signature : negotiation unit :=
  _ ← sure (hsm_reply (handle_validate_commitment_tx sha256 hkdf bip32_seed peer_id dbid 0)); Agreed tt.
(** [SIGHASH_ALL], or the kickoff's. *)
Definition first_sighash (c : channel) : Z :=
  if channel_has c OPT_SEQ_SYMMETRIC then Z.lor SIGHASH_SINGLE SIGHASH_ANYONECANPAY else SIGHASH_ALL.
(** The peer's signature on our first state, and that on the commitment or the
    kickoff. *)
Definition check_first (keys : channel_keys) (c : channel) (sym_sig : option (list Z)) : negotiation (option sym_state) :=
  if channel_has c OPT_SEQ_SYMMETRIC then st ← sym_first_local keys c sym_sig; Agreed (Some st)
  else _ ← validate_initial_commitment_signature; Agreed None.
Definition check_first_sig (keys : channel_keys) (c : channel) (tx : bitcoin_tx) (sig : ecdsa_signature)
  : negotiation bitcoin_signature :=
  if channel_has c OPT_SEQ_SYMMETRIC_FACTORY then Agreed SIG_ZERO
  else
    let sig := mk_signature sig (first_sighash c) in
    ok ← sure (check_sig tx (funding_wscript keys) (funding_pubkey keys).[REMOTE] sig);
    _ ← fail_if (negb ok) bad_signature;
    Agreed sig.

(** The rest of [funder_finalize_channel_setup]. *)
Definition funder_channel_signed (cr : creating) (fs : funding_signed) : negotiation opened :=
  let st := cr_state cr in
  let c := cr_channel cr in
  let keys := our_keys st in
  _ ← fail_if (bool_decide (fs_id fs <> cid c)) ids_differ;
  '(tx, _) ← first_tx keys c (first_per_commitment_point st).[LOCAL] LOCAL;
  sym_local ← check_first keys c (fs_sym_sig fs);
  lane_sigs ← (match sym_lanes c with
               | Some _ =>
                 match fs_lanes fs ≫= fun b => sym_lanes_from_signed_blob unset b (length (op_lanes st)) with
                 | Some theirs => sym_check_lane_kickoffs keys c 0 theirs
                 | None => Peer_error bad_lane_sigs
                 end
               | None => Agreed []
               end);
  sig ← check_first_sig keys c tx (fs_sig fs);
  Agreed (mk_opened c st tx sig (cr_pbase cr) (cr_kickoff cr) sym_local (cr_sym_remote cr) lane_sigs).

(** ** The accepter signs *)

(** The factory of the channel's slot. *)
Definition check_factory (st : open_state) (channel_flags : Z) (funding : outpoint) (blob : option (list Z))
  : negotiation (option sym_factory) :=
  if negb (channel_type_has (op_type st) OPT_SEQ_SYMMETRIC_FACTORY) then Agreed None
  else
    _ ← fail_if (negb (Z.land channel_flags 1 =? 0)) factory_announced;
    match blob with
    | None => Peer_error no_factory
    | Some blob =>
      match read_blob fromwire_sym_factory blob with
      | Some (Some f) =>
        _ ← fail_if (bool_decide (sym_factory_id f <> funding)) factory_mismatch;
        _ ← fail_if (bool_decide (factory_asset f <> op_asset st)) factory_mismatch;
        program ← sure (factory_ko_program funding (bp_delayed_payment (their_points st)) (bp_delayed_payment (our_points e))
                          (op_asset st) (to_self_delay (localconf st)));
        match sym_factory_check f program (op_funding_sats st) with
        | Some w => Peer_error (bad_factory w)
        | None => Agreed (Some f)
        end
      | _ => Peer_error malformed_factory
      end
    end.

(** The lanes with their outputs, each its own, and the opener's signatures on
    their kickoffs. *)
Fixpoint outputs_clash (seen outnums : list Z) : bool :=
  match outnums with
  | [] => false
  | n :: outnums => existsb (Z.eqb n) seen || outputs_clash (n :: seen) outnums
  end.
Definition created_lanes (st : open_state) (funding : outpoint) (blob : option (list Z))
  : negotiation (list sym_lane * list ecdsa_signature) :=
  if channel_type_has (op_type st) OPT_SEQ_SYMMETRIC_LANES then
    match (if (length (op_lanes st) =? 0)%nat then None
           else blob ≫= fun b => sym_lanes_from_created_blob unset b (length (op_lanes st))) with
    | None => Peer_error bad_lane_sigs
    | Some l =>
      _ ← fail_if (outputs_clash [outnum funding] (fst <$> l)) lane_outputs_clash;
      Agreed (with_outnums (op_lanes st) (fst <$> l), snd <$> l)
    end
  else _ ← fail_if (negb (length (op_lanes st) =? 0)%nat) lanes_need_type; Agreed ([], []).

Definition set_op_lanes (lanes : list sym_lane) (st : open_state) : open_state :=
  mk_open_state (localconf st) (remoteconf st) (min_effective_htlc_capacity st) (feerate_range st) (op_minimum_depth st)
    (their_points st) (their_funding_pubkey st) (first_per_commitment_point st) (op_channel_id st) (op_funding_sats st)
    (push_msat st) (op_feerate st) (op_asset st) (upfront_shutdown_script st) (op_type st) lanes (op_issuer st) (factory_id st).

(** Our signature on the peer's first transaction, with what a symmetric
    channel adds. *)
Definition sign_first_remote (st : open_state) (keys : channel_keys) (c : channel) (tx : bitcoin_tx) (direct : option nat) (id : list Z)
  : negotiation (option penalty_base * option bitcoin_signature * option sym_state * funding_signed) :=
  if channel_has c OPT_SEQ_SYMMETRIC then
    early ← (match sym_issuer keys with Some _ => sym_first_remote keys c | None => Agreed None end);
    sig ← (if channel_has c OPT_SEQ_SYMMETRIC_FACTORY then Agreed SIG_ZERO else sure (sym_sign_kickoff keys tx));
    remote ← (match sym_issuer keys with Some _ => Agreed early | None => sym_first_remote keys c end);
    match remote with
    | None => Refused no_first_state
    | Some remote =>
      blob ← (match sym_lanes c with
              | Some _ => sigs ← sure (sym_sign_lane_kickoffs keys c (op_lanes st)); Agreed (Some (sym_lanes_signed_blob (sig_s <$> sigs)))
              | None => Agreed None
              end);
      Agreed (None, Some sig, Some remote, mk_funding_signed id (sig_s sig) (Some (st_sig remote).[LOCAL]) blob)
    end
  else
    sig ← sure (hsm_reply (handle_sign_remote_commitment_tx params no_grind attempts conf_value elements_hash btc_hash hkdf
                             bip32_seed peer_id dbid tx (funding_pubkey keys).[REMOTE]));
    _ ← (if sighash_type sig =? SIGHASH_ALL then Agreed tt else Broken);
    pbase ← pbase_of tx direct;
    Agreed (pbase, None, None, mk_funding_signed id (sig_s sig) None None).

(** [fundee_channel] from [funding_created] on. *)
Definition fundee_channel_created (st : open_state) (channel_flags : Z) (fc : funding_created)
  : negotiation (opened * funding_signed) :=
  let funding := mk_outpoint (fc_txid fc) (fc_outnum fc) in
  let keys := our_keys st in
  _ ← check_factory st channel_flags funding (fc_factory fc);
  _ ← fail_if (bool_decide (fc_id fc <> op_channel_id st)) ids_differ;
  c ← initial_channel st (op_channel_id st) funding (push_msat st) REMOTE;
  '(lanes, sigs) ← created_lanes st funding (fc_lanes fc);
  let st := set_op_lanes lanes st in
  c ← sure (sym_attach_lanes lanes c);
  lane_sigs ← sym_check_lane_kickoffs keys c 0 sigs;
  '(local_commit, _) ← first_tx keys c (first_per_commitment_point st).[LOCAL] LOCAL;
  sym_local ← check_first keys c (fc_sym_sig fc);
  theirsig ← check_first_sig keys c local_commit (fc_sig fc);
  '(remote_commit, direct) ← first_tx keys c (first_per_commitment_point st).[REMOTE] REMOTE;
  '(pbase, kickoff, sym_remote, msg) ← sign_first_remote st keys c remote_commit direct.[LOCAL] (derive_channel_id funding);
  Agreed (mk_opened c st local_commit theirsig pbase kickoff sym_local sym_remote lane_sigs, msg).
End Openingd.
