(* ===== verification/CommitAgree.v ===== *)
(** * What both sides make of a commitment

    The transaction of [commit_tx] in closed form, and what follows: the two
    sides of a channel, each with its own table of HTLCs in its own order,
    build the same commitment transaction and the same second-stage
    transactions. *)

From stdpp Require Import list.
From S2P Require Import Prelude Chainparams Amount HtlcState FeeStates CommitFee Features Script Keys Tapscript ChannelState Tx SymScripts SymState Channel SymChannel CommitTx.
Local Open Scope Z_scope.

Lemma filter_perm {A} (p : A -> bool) l k : l ≡ₚ k -> List.filter p l ≡ₚ List.filter p k.
Proof.
  induction 1 as [|x l k _ IH|x y l|l j k _ IH1 _ IH2]; cbn; [done| | |by rewrite IH1].
  - destruct (p x); by rewrite IH.
  - destruct (p x), (p y); try done. apply Permutation_swap.
Qed.

Section Closed.
#[local] Set Default Proof Using "Type*".
Context (params : chainparams) (sha256 ripemd160 : list Z -> list Z).
Context (wlen : bool -> bitcoin_tx -> option nat) (wbytes : bool -> bitcoin_tx -> option (list Z)).

(** ** Building up *)

(** The transaction under construction, from its slots. *)
Definition built (tx0 : bitcoin_tx) (slots : list (slot mark)) : bitcoin_tx * list (slot mark) :=
  (set_tx_outputs (slot_out <$> slots) tx0, slots).
Definition out_of (asset script : list Z) (amount : amount_sat_t) : tx_output :=
  wally_tx_output_asset params script amount asset.

Lemma add_out_built script amount m cltv tx0 slots :
  Z.of_nat (length slots) < outputs_allocation_len tx0 ->
  add_out params script amount m cltv (built tx0 slots)
  = Ret (built tx0 (slots ++ [mk_slot (out_of (output_asset tx0) script amount) m cltv])).
Proof.
  intros Hn. unfold add_out, bitcoin_tx_add_output, built. cbn [fst snd set_tx_outputs outputs_allocation_len tx_outputs output_asset].
  rewrite length_fmap, (proj2 (Z.ltb_lt _ _)) by done. cbn. by rewrite fmap_app.
Qed.

(** *** HTLC outputs *)

Definition trimmed (f : Z) (dust : amount_sat_t) (ao az : bool) (s : side) (h : htlc) : bool :=
  match trim params h f dust ao az s with Ret b => b | Crash => true end.

(** Amounts and expiries as [add_htlc] leaves them. *)
Definition plain (h : htlc) : Prop := wf_msat (h_amount h) /\ h_expiry h < SECONDS_POINT.

Lemma trim_ret f dust ao az s h : in_u32 f -> wf_sat dust -> plain h ->
  trim params h f dust ao az s = Ret (trimmed f dust ao az s h).
Proof.
  intros Hf Hd [Ha _]. unfold trimmed, trim.
  by destruct (htlc_is_trimmed_spec params (htlc_owner h) (h_amount h) f dust s ao az) as (? & _ & _ & ->).
Qed.

Definition untrimmed (f : Z) (dust : amount_sat_t) (ao az : bool) (s : side) (l : list htlc) : list htlc :=
  List.filter (fun h => negb (trimmed f dust ao az s h)) l.

Definition htlc_wscript (ks : keyset) (ao az : bool) (s : side) (h : htlc) : list Z :=
  if bool_decide (htlc_owner h = s)
  then htlc_offered_wscript sha256 ripemd160 (ripemd160 (h_rhash h)) ks ao az
  else htlc_received_wscript sha256 ripemd160 (ripemd160 (h_rhash h)) (h_expiry h) ks ao az.
Definition htlc_slot (asset : list Z) (ks : keyset) (ao az : bool) (s : side) (h : htlc) : slot mark :=
  mk_slot (out_of asset (scriptpubkey_p2wsh sha256 (htlc_wscript ks ao az s h))
             (amount_msat_to_sat_round_down (h_amount h))) (mark_htlc h) (h_expiry h).

Definition of_kind (offered : bool) (s : side) (l : list htlc) : list htlc :=
  List.filter (fun h => eqb (bool_decide (htlc_owner h = s)) offered) l.

Lemma num_untrimmed_spec f dust ao az s l : in_u32 f -> wf_sat dust -> Forall plain l ->
  commit_tx_num_untrimmed params l f dust ao az s = Ret (Z.of_nat (length (untrimmed f dust ao az s l))).
Proof.
  intros Hf Hd. induction 1 as [|h l Hh Hl IH]; [done|]. cbn [commit_tx_num_untrimmed untrimmed List.filter].
  rewrite (trim_ret f dust ao az s h) by done. cbn [mbind outcome_bind]. rewrite IH. cbn [mbind outcome_bind].
  unfold untrimmed. destruct (trimmed f dust ao az s h); cbn [negb length]; f_equal; lia.
Qed.

Lemma kinds_perm s l : of_kind true s l ++ of_kind false s l ≡ₚ l.
Proof.
  induction l as [|h l IH]; [done|]. cbn. destruct (bool_decide (htlc_owner h = s)); cbn.
  - by rewrite IH.
  - by rewrite <- Permutation_middle, IH.
Qed.

Lemma add_htlc_outs_built offered f dust ks ao az s l tx0 slots :
  in_u32 f -> wf_sat dust -> Forall plain l ->
  Z.of_nat (length slots + length (of_kind offered s (untrimmed f dust ao az s l))) <= outputs_allocation_len tx0 ->
  add_htlc_outs params sha256 ripemd160 offered f dust ks ao az s l (built tx0 slots)
  = Ret (built tx0 (slots ++ (htlc_slot (output_asset tx0) ks ao az s
                              <$> of_kind offered s (untrimmed f dust ao az s l)))).
Proof.
  intros Hf Hd Hl. revert slots; induction Hl as [|h l Hh Hl IH]; intros slots Hn.
  { cbn. by rewrite app_nil_r. }
  unfold of_kind, untrimmed in *. cbn [add_htlc_outs List.filter] in *.
  destruct (bool_decide (bool_decide (htlc_owner h = s) = offered)) eqn:Ek; cbn [negb].
  - apply bool_decide_eq_true in Ek. rewrite (trim_ret f dust ao az s h) by done. cbn [mbind outcome_bind].
    destruct (trimmed f dust ao az s h); cbn [negb] in *; [by apply IH|].
    cbn [List.filter] in *. rewrite Ek, eqb_reflx in *. cbn [length] in Hn. destruct Hh as [_ He].
    unfold abs_locktime_to_blocks. rewrite (proj2 (Z.ltb_lt _ _)) by done. cbn [assert_then mbind outcome_bind].
    replace (if offered then _ else _) with
      (Ret (built tx0 (slots ++ [htlc_slot (output_asset tx0) ks ao az s h]))).
    + cbn [mbind outcome_bind]. rewrite IH by (rewrite length_app; cbn; lia). by rewrite <- app_assoc.
    + unfold add_offered_htlc_out, add_received_htlc_out, htlc_slot, htlc_wscript.
      by destruct offered; rewrite add_out_built by lia; rewrite Ek.
  - assert (Hne : eqb (bool_decide (htlc_owner h = s)) offered = false).
    { apply bool_decide_eq_false in Ek. by apply eqb_false_iff. }
    rewrite IH; [|destruct (trimmed _ _ _ _ _ h); cbn [negb] in Hn; [done|cbn in Hn; by rewrite Hne in Hn]].
    destruct (trimmed f dust ao az s h); cbn [negb]; [done|]. cbn [List.filter]. by rewrite Hne.
Qed.

(** *** Direct outputs *)

(** The outputs of [add_direct_outs], with their marks. *)
Definition direct_outs (asset lk rk : list Z) (lessor : bool) (delay csv : Z) (ks : keyset) (dust : amount_sat_t)
    (self other : amount_msat_t) (n : Z) (ao az : bool) (marks : mark * mark * mark * mark)
  : outcome (list (tx_output * mark)) :=
  let '(m_local, m_remote, m_anchor, m_other_anchor) := marks in
  let to_local := amount_msat_greater_eq_sat self dust in
  let to_remote := amount_msat_greater_eq_sat other dust in
  let anchor key m := w ← bitcoin_wscript_anchor key;
                      Ret [(out_of asset (scriptpubkey_p2wsh sha256 w) (mk_sat 330), m)] in
  let l1 := if to_local
            then [(out_of asset (scriptpubkey_p2wsh sha256 (to_self_wscript delay (if lessor then csv else 0) ks))
                     (amount_msat_to_sat_round_down self), m_local)] else [] in
  l2 ← (if to_remote
        then script ← to_remote_script sha256 ripemd160 ks (if lessor then 1 else csv) ao az;
             Ret [(out_of asset script (amount_msat_to_sat_round_down other), m_remote)]
        else Ret []);
  l3 ← (if (ao || az) && (to_local || negb (n =? 0)) then anchor lk m_anchor else Ret []);
  l4 ← (if (ao || az) && (to_remote || negb (n =? 0)) then anchor rk m_other_anchor else Ret []);
  Ret (l1 ++ l2 ++ l3 ++ l4).

Definition direct_slots (cltv : nat -> Z) (n : nat) (l : list (tx_output * mark)) : list (slot mark) :=
  imap (fun i '(o, m) => mk_slot o m (cltv (n + i)%nat)) l.

Lemma direct_slots_app cltv n l k :
  direct_slots cltv n (l ++ k) = direct_slots cltv n l ++ direct_slots cltv (n + length l) k.
Proof.
  unfold direct_slots. rewrite imap_app. f_equal. apply imap_ext. intros i [o m] _. cbn. do 2 f_equal. lia.
Qed.
Lemma direct_slots_length cltv n l : length (direct_slots cltv n l) = length l.
Proof. apply length_imap. Qed.

(** The transaction with the first [k] direct outputs. *)
Definition so_far (cltv : nat -> Z) (tx0 : bitcoin_tx) (slots : list (slot mark)) (k : list (tx_output * mark)) :=
  built tx0 (slots ++ direct_slots cltv (length slots) k).

Lemma add_out_so_far script amount m cltv tx0 slots k :
  Z.of_nat (length slots + length k) < outputs_allocation_len tx0 ->
  add_out params script amount m (cltv (length (snd (so_far cltv tx0 slots k)))) (so_far cltv tx0 slots k)
  = Ret (so_far cltv tx0 slots (k ++ [(out_of (output_asset tx0) script amount, m)])).
Proof.
  intros Hk. unfold so_far. cbn [snd built]. rewrite add_out_built by (rewrite length_app, direct_slots_length; lia).
  rewrite direct_slots_app, <- app_assoc, length_app, direct_slots_length. cbn. by rewrite Nat.add_0_r.
Qed.

Lemma add_direct_outs_built lk rk opener s delay csv ks dust self oth n ao az marks cltv tx0 slots :
  Z.of_nat (length slots) + 4 <= outputs_allocation_len tx0 ->
  add_direct_outs params sha256 ripemd160 lk rk opener s delay csv ks dust self oth n ao az marks cltv
    (built tx0 slots)
  = (l ← direct_outs (output_asset tx0) lk rk (bool_decide (s = other opener)) delay csv ks dust self oth n ao az marks;
     Ret (so_far cltv tx0 slots l)).
Proof.
  intros Hn. destruct marks as [[[m1 m2] m3] m4]. unfold add_direct_outs, direct_outs, tx_add_anchor_output.
  replace (bool_decide (other s = other opener)) with (negb (bool_decide (s = other opener)))
    by (by destruct s, opener).
  replace (if negb _ then csv else 1) with (if bool_decide (s = other opener) then 1 else csv) by (by case_bool_decide).
  generalize (to_remote_script sha256 ripemd160 ks (if bool_decide (s = other opener) then 1 else csv) ao az) as rs.
  generalize (bitcoin_wscript_anchor lk) as ra, (bitcoin_wscript_anchor rk) as rb, (negb (n =? 0)) as nz, (ao || az) as an.
  intros an nz rb ra rs.
  replace (built tx0 slots) with (so_far cltv tx0 slots []) by (unfold so_far; cbn; by rewrite app_nil_r).
  destruct (amount_msat_greater_eq_sat self dust), (amount_msat_greater_eq_sat oth dust), an, nz, rs, ra, rb;
    cbn [orb andb mbind outcome_bind];
    repeat (rewrite add_out_so_far by (cbn; lia); cbn [mbind outcome_bind app]); done.
Qed.

Lemma direct_outs_length asset lk rk lessor delay csv ks dust self oth n ao az marks l :
  direct_outs asset lk rk lessor delay csv ks dust self oth n ao az marks = Ret l -> (length l <= 4)%nat.
Proof.
  destruct marks as [[[m1 m2] m3] m4]. unfold direct_outs.
  intros H. apply bind_Ret_inv in H as (l2 & H2 & H). apply bind_Ret_inv in H as (l3 & H3 & H).
  apply bind_Ret_inv in H as (l4 & H4 & H). apply Ret_inj in H as <-. rewrite !length_app.
  assert (length l2 <= 1)%nat.
  { destruct (amount_msat_greater_eq_sat oth dust); [|apply Ret_inj in H2 as <-; cbn; lia].
    apply bind_Ret_inv in H2 as (? & _ & H2). by apply Ret_inj in H2 as <-. }
  assert (length l3 <= 1)%nat.
  { destruct (_ && _); [|apply Ret_inj in H3 as <-; cbn; lia].
    apply bind_Ret_inv in H3 as (? & _ & H3). by apply Ret_inj in H3 as <-. }
  assert (length l4 <= 1)%nat.
  { clear H3. destruct (_ && _); [|apply Ret_inj in H4 as <-; cbn; lia].
    apply bind_Ret_inv in H4 as (? & _ & H4). by apply Ret_inj in H4 as <-. }
  destruct (amount_msat_greater_eq_sat self dust); cbn; lia.
Qed.

(** ** The commitment in closed form *)

(** The fresh transaction of a commitment with [n] HTLC outputs. *)
Definition tx0 (asset : list Z) (n : Z) : bitcoin_tx :=
  bitcoin_tx_set_output_asset params (Some asset) (bitcoin_tx_new params (n + 2 + 2) 0).

(** The slots before the sort. *)
Definition commit_slots (asset : list Z) (ks : keyset) (ao az : bool) (s : side) (u : list htlc)
    (junk : nat -> Z) (d : list (tx_output * mark)) : list (slot mark) :=
  (htlc_slot asset ks ao az s <$> of_kind true s u ++ of_kind false s u) ++ direct_slots junk (length u) d.

Definition commit_of (funding : outpoint) (funding_sats : amount_sat_t) (wscript : list Z) (number : Z)
    (tx : bitcoin_tx) (slots : list (slot mark)) : outcome commitment :=
  assert_then (0 <? Z.of_nat (length slots))
    (let slots := permute_outputs slots in
     tx ← finish_commit_tx params sha256 wlen wbytes funding funding_sats wscript number
            (set_tx_outputs (slot_out <$> slots) tx);
     Ret (mk_commitment tx
            (map (fun sl => match slot_map sl with mark_htlc h => Some h | _ => None end) slots)
            (mk_sides (last_index (is_mark dummy_to_local) slots) (last_index (is_mark dummy_to_remote) slots))
            (match last_index (is_mark dummy_other_anchor) slots with Some i => Z.of_nat i | None => -1 end))).

Definition marks_of (want_direct : bool) : mark * mark * mark * mark :=
  (if want_direct then dummy_to_local else mark_null, if want_direct then dummy_to_remote else mark_null,
   mark_null, dummy_other_anchor).

Lemma tx0_alloc asset n : n + 4 <= outputs_allocation_len (tx0 asset n).
Proof.
  unfold tx0, bitcoin_tx_set_output_asset, bitcoin_tx_new. destruct (is_elements params); cbn; lia.
Qed.

Lemma tx0_built asset n : built (tx0 asset n) [] = (tx0 asset n, []).
Proof. unfold built, tx0, bitcoin_tx_set_output_asset. by destruct (is_elements params). Qed.

Lemma kinds_length s u : (length (of_kind true s u) + length (of_kind false s u) = length u)%nat.
Proof. rewrite <- length_app. by rewrite kinds_perm. Qed.

Lemma htlc_slots_length asset ks ao az s u :
  length (htlc_slot asset ks ao az s <$> of_kind true s u ++ of_kind false s u) = length u.
Proof. by rewrite length_fmap, length_app, kinds_length. Qed.

Lemma commit_tx_closed funding sats lk rk opener delay lease height ks f dust self oth l want number ao az s asset junk :
  in_u32 f -> wf_sat dust -> Forall plain l ->
  let u := untrimmed f dust ao az s l in
  let n := Z.of_nat (length u) in
  commit_tx params sha256 ripemd160 wlen wbytes funding sats lk rk opener delay lease height ks f dust self oth l
    want number ao az s asset junk
  = match amount_msat_add self oth with
    | None => Crash
    | Some total =>
      assert_then (negb (amount_msat_greater_sat total sats))
        (fee ← base_fee_with_anchors params f n ao az;
         match fee with
         | None => Crash
         | Some fee =>
           let '(_, self, oth) := try_subtract_fee opener s fee self oth in
           d ← direct_outs (output_asset (tx0 asset n)) lk rk (bool_decide (s = other opener)) delay
                 (csv_lock_of lease height) ks dust self oth n ao az (marks_of want);
           commit_of funding sats (bitcoin_redeem_2of2 lk rk) number (tx0 asset n)
             (commit_slots (output_asset (tx0 asset n)) ks ao az s u junk d)
         end)
    end.
Proof.
  intros Hf Hd Hl u n. unfold commit_tx. destruct (amount_msat_add self oth) as [total|]; [|done].
  destruct (negb (amount_msat_greater_sat total sats)); [|done]. cbn [assert_then].
  rewrite num_untrimmed_spec by done. fold u n. cbn [mbind outcome_bind].
  destruct (base_fee_with_anchors params f n ao az) as [[fee|]|]; [|done..]. cbn [mbind outcome_bind].
  destruct (try_subtract_fee opener s fee self oth) as [[ok self'] oth'].
  fold (tx0 asset n). rewrite <- tx0_built.
  pose proof (tx0_alloc asset n). pose proof (kinds_length s u).
  rewrite add_htlc_outs_built by (done || (fold u; cbn [length]; lia)). cbn [mbind outcome_bind]. fold u.
  rewrite add_htlc_outs_built by (done || (fold u; rewrite length_app, length_fmap; cbn [length]; lia)).
  cbn [mbind outcome_bind app]. fold u. rewrite <- fmap_app.
  rewrite add_direct_outs_built by (rewrite htlc_slots_length; lia).
  fold (marks_of want). destruct (direct_outs _ _ _ _ _ _ _ _ _ _ _ _ _ _) as [d|] eqn:Ed; [|done].
  cbn [mbind outcome_bind]. apply direct_outs_length in Ed. unfold so_far, built, commit_of, commit_slots.
  rewrite htlc_slots_length. set (slots := (_ <$> _) ++ direct_slots _ _ _).
  assert (length slots = length u + length d)%nat
    by (unfold slots; rewrite length_app, direct_slots_length, htlc_slots_length; lia).
  rewrite (proj2 (Z.leb_le _ (outputs_allocation_len _))) by (cbn; lia). rewrite andb_true_r. done.
Qed.

(** ** Agreement *)

(** What a commitment of [s] shows of an HTLC. *)
Definition shown (s : side) (h : htlc) : bool * amount_msat_t * Z * list Z * option (list Z) :=
  (bool_decide (htlc_owner h = s), h_amount h, h_expiry h, h_rhash h, h_lock_point h).

(** An HTLC that shows as given, in the eyes of [LOCAL]. *)
Definition stand_in (x : bool * amount_msat_t * Z * list Z * option (list Z)) : htlc :=
  let '(own, amount, expiry, rhash, lock) := x in
  mk_htlc (if own then SENT_ADD_HTLC else RCVD_ADD_HTLC) 0 amount expiry rhash None lock 0 None [] None None false.

Lemma shown_stand_in s h : shown LOCAL (stand_in (shown s h)) = shown s h.
Proof. unfold shown. by destruct (bool_decide (htlc_owner h = s)). Qed.

(** A function of what is shown is the same for both sides. *)
Definition by_shown {A} (f : side -> htlc -> A) : Prop :=
  forall s t h k, shown s h = shown t k -> f s h = f t k.

Lemma by_shown_perm {A} (f : side -> htlc -> A) s t l k :
  by_shown f -> shown s <$> l ≡ₚ shown t <$> k -> f s <$> l ≡ₚ f t <$> k.
Proof.
  intros Hf Hp. assert (H : forall u (j : list htlc), f u <$> j = f LOCAL ∘ stand_in <$> (shown u <$> j)).
  { intros u j. rewrite <- list_fmap_compose. apply list_fmap_ext. intros i h _. cbn.
    apply Hf. by rewrite <- (shown_stand_in u h) at 1. }
  rewrite (H s), (H t). by rewrite Hp.
Qed.

Lemma filter_shown s t (f : side -> htlc -> bool) l k :
  by_shown f -> shown s <$> l ≡ₚ shown t <$> k ->
  shown s <$> List.filter (f s) l ≡ₚ shown t <$> List.filter (f t) k.
Proof.
  intros Hf Hp.
  assert (H : forall u (j : list htlc), shown u <$> List.filter (f u) j = List.filter (f LOCAL ∘ stand_in) (shown u <$> j)).
  { intros u j. induction j as [|h j IH]; [done|]. rewrite fmap_cons. cbn [List.filter]. unfold compose at 1.
    rewrite <- (Hf u LOCAL h (stand_in (shown u h))) by (by rewrite shown_stand_in).
    destruct (f u h); rewrite ?fmap_cons; by rewrite IH. }
  rewrite (H s), (H t). by apply filter_perm.
Qed.

Lemma trimmed_shown f dust ao az : by_shown (trimmed f dust ao az).
Proof.
  intros s t h k [= E1 E2 _ _ _]. unfold trimmed, trim, htlc_is_trimmed. by rewrite E1, E2.
Qed.

Lemma untrimmed_shown f dust ao az s t l k :
  shown s <$> l ≡ₚ shown t <$> k ->
  shown s <$> untrimmed f dust ao az s l ≡ₚ shown t <$> untrimmed f dust ao az t k.
Proof.
  intros Hp. apply (filter_shown s t (fun s h => negb (trimmed f dust ao az s h))); [|done].
  intros a b h j E. f_equal. by apply trimmed_shown.
Qed.

Lemma htlc_wscript_shown ks ao az : by_shown (htlc_wscript ks ao az).
Proof. intros s t h k [= E1 _ E3 E4 _]. unfold htlc_wscript. by rewrite E1, E3, E4. Qed.

Lemma htlc_out_shown asset ks ao az : by_shown (fun s h => slot_out (htlc_slot asset ks ao az s h)).
Proof.
  intros s t h k E. cbn. rewrite (htlc_wscript_shown ks ao az s t h k E). by injection E as _ -> _ _ _.
Qed.

Lemma direct_slots_out cltv n d : slot_out <$> direct_slots cltv n d = fst <$> d.
Proof.
  revert n; induction d as [|[o m] d IH]; intros n; [done|]. unfold direct_slots in *. cbn. f_equal.
  rewrite <- (IH (S n)). f_equal. apply imap_ext. intros i [o' m'] _. cbn. do 2 f_equal. lia.
Qed.

(** The marks change nothing of the outputs. *)
Lemma direct_outs_marks asset lk rk lessor delay csv ks dust self oth n ao az m m' :
  fmap (M := outcome) (map fst) (direct_outs asset lk rk lessor delay csv ks dust self oth n ao az m)
  = fmap (M := outcome) (map fst) (direct_outs asset lk rk lessor delay csv ks dust self oth n ao az m').
Proof.
  destruct m as [[[m1 m2] m3] m4], m' as [[[m1' m2'] m3'] m4']. unfold direct_outs.
  generalize (to_remote_script sha256 ripemd160 ks (if lessor then 1 else csv) ao az) as rs.
  generalize (bitcoin_wscript_anchor lk) as ra, (bitcoin_wscript_anchor rk) as rb, (negb (n =? 0)) as nz, (ao || az) as an.
  intros an nz rb ra rs.
  destruct (amount_msat_greater_eq_sat self dust), (amount_msat_greater_eq_sat oth dust), an, nz, rs, ra, rb; reflexivity.
Qed.

Lemma out_asset_of asset o u ks ao az s junk d :
  o ∈ slot_out <$> commit_slots asset ks ao az s u junk d ->
  (forall x, x ∈ fst <$> d -> out_asset x = if is_elements params then asset else []) ->
  out_asset o = if is_elements params then asset else [].
Proof.
  unfold commit_slots. rewrite fmap_app, direct_slots_out. intros [Ho|Ho]%elem_of_app Hd; [|by apply Hd].
  apply list_elem_of_fmap in Ho as (sl & -> & Hs). by apply list_elem_of_fmap in Hs as (h & -> & _).
Qed.

(** What holds of every output [direct_outs] may give holds of those it gives. *)
Lemma direct_outs_ind (P : tx_output * mark -> Prop) asset lk rk lessor delay csv ks dust self oth n ao az m1 m2 m3 m4 d :
  (forall c amount, c = 0 \/ c = csv ->
     P (out_of asset (scriptpubkey_p2wsh sha256 (to_self_wscript delay c ks)) amount, m1)) ->
  (forall c script amount, c = 1 \/ c = csv -> to_remote_script sha256 ripemd160 ks c ao az = Ret script ->
     P (out_of asset script amount, m2)) ->
  (forall w, bitcoin_wscript_anchor lk = Ret w -> P (out_of asset (scriptpubkey_p2wsh sha256 w) (mk_sat 330), m3)) ->
  (forall w, bitcoin_wscript_anchor rk = Ret w -> P (out_of asset (scriptpubkey_p2wsh sha256 w) (mk_sat 330), m4)) ->
  direct_outs asset lk rk lessor delay csv ks dust self oth n ao az (m1, m2, m3, m4) = Ret d -> Forall P d.
Proof.
  unfold direct_outs. intros P1 P2 P3 P4 H.
  apply bind_Ret_inv in H as (l2 & H2 & H). apply bind_Ret_inv in H as (l3 & H3 & H).
  apply bind_Ret_inv in H as (l4 & H4 & H). apply Ret_inj in H as <-. rewrite !Forall_app. split_and!.
  - destruct (amount_msat_greater_eq_sat self dust); [|done]. constructor; [|done]. apply P1. destruct lessor; auto.
  - destruct (amount_msat_greater_eq_sat oth dust); [apply bind_Ret_inv in H2 as (? & Hs & H2)|];
      apply Ret_inj in H2 as <-; [|done]. constructor; [|done].
    apply (P2 (if lessor then 1 else csv)); [destruct lessor; auto|done].
  - destruct (_ && _) in H3; [apply bind_Ret_inv in H3 as (? & ? & H3)|]; apply Ret_inj in H3 as <-; eauto.
  - destruct (_ && _) in H4; [apply bind_Ret_inv in H4 as (? & ? & H4)|]; apply Ret_inj in H4 as <-; eauto.
Qed.

Lemma direct_outs_asset asset lk rk lessor delay csv ks dust self oth n ao az m d x :
  direct_outs asset lk rk lessor delay csv ks dust self oth n ao az m = Ret d ->
  x ∈ fst <$> d -> out_asset x = if is_elements params then asset else [].
Proof.
  intros H. destruct m as [[[m1 m2] m3] m4].
  intros (p & -> & Hp)%list_elem_of_fmap. revert p Hp. apply Forall_forall. revert H. by apply direct_outs_ind.
Qed.

(** The same outputs before the sort, whichever side builds them. *)
Lemma commit_slots_out asset ks ao az s t u v junk junk' d d' :
  shown s <$> u ≡ₚ shown t <$> v -> map fst d = map fst d' ->
  slot_out <$> commit_slots asset ks ao az s u junk d ≡ₚ slot_out <$> commit_slots asset ks ao az t v junk' d'.
Proof.
  intros Hu Hd. unfold commit_slots. rewrite !fmap_app, !direct_slots_out. change (fst <$> d) with (map fst d).
  rewrite Hd. apply Permutation_app_tail. rewrite <- !list_fmap_compose.
  rewrite <- !fmap_app, !kinds_perm. 
  apply (by_shown_perm (fun s h => slot_out (htlc_slot asset ks ao az s h))); [apply htlc_out_shown|done].
Qed.

(** ** The HTLCs of the outputs *)

(** What the second-stage transaction of a slot is built from. *)
Definition stage2 (ks : keyset) (ao az : bool) (s : side) (m : mark)
  : option (bool * list Z * amount_sat_t * Z) :=
  match m with
  | mark_htlc h => Some (bool_decide (htlc_owner h = s), htlc_wscript ks ao az s h,
                         amount_msat_to_sat_round_down (h_amount h), h_expiry h)
  | _ => None
  end.

(** The tie-break of an HTLC output, and none for the others. *)
Definition expiry_of (sl : slot mark) : Z := match slot_map sl with mark_htlc h => h_expiry h | _ => 0 end.

Lemma fmap_agree {A B C D} (k : A -> C) (k' : B -> C) (g : A -> D) (g' : B -> D) (l : list A) (l' : list B) :
  k <$> l = k' <$> l' -> (forall a b, a ∈ l -> b ∈ l' -> k a = k' b -> g a = g' b) -> g <$> l = g' <$> l'.
Proof.
  revert l'; induction l as [|a l IH]; intros [|b l']; try done. intros [= Ek El] H. cbn. f_equal.
  - apply H; [by left|by left|done].
  - apply IH; [done|]. intros x y Hx Hy. apply H; by right.
Qed.

Context `{!Digest sha256 32, !Digest ripemd160 20}.

Lemma p2wsh_inj w w' : scriptpubkey_p2wsh sha256 w = scriptpubkey_p2wsh sha256 w' -> sha256 w = sha256 w'.
Proof. intros E. rewrite !(p2wsh_shape sha256) in E. by injection E. Qed.


Lemma p2wsh_not_p2wpkh w k : scriptpubkey_p2wsh sha256 w <> scriptpubkey_p2wpkh sha256 ripemd160 k.
Proof. rewrite (p2wsh_shape sha256), (p2wpkh_shape sha256 ripemd160). done. Qed.

(** Offered and received HTLCs have different scripts. *)
Lemma htlc_wscript_kind ks ao az s t h k :
  htlc_wscript ks ao az s h = htlc_wscript ks ao az t k ->
  bool_decide (htlc_owner h = s) = bool_decide (htlc_owner k = t).
Proof.
  unfold htlc_wscript, htlc_offered_wscript, htlc_received_wscript, bitcoin_wscript_htlc_offer_ripemd160,
    bitcoin_wscript_htlc_receive_ripemd.
  destruct (bool_decide (htlc_owner h = s)), (bool_decide (htlc_owner k = t)); try done; intros E; exfalso;
    repeat apply app_inv_head in E; discriminate E.
Qed.

(** The scripts the direct outputs pay. *)
Definition direct_wscript (lk rk : list Z) (delay csv : Z) (ks : keyset) (w : list Z) : Prop :=
  (exists c, (c = 0 \/ c = csv) /\ w = to_self_wscript delay c ks)
  \/ (exists c, (c = 1 \/ c = csv) /\ bitcoin_wscript_to_remote_anchored (other_payment_key ks) c = Ret w)
  \/ bitcoin_wscript_anchor lk = Ret w \/ bitcoin_wscript_anchor rk = Ret w.

Lemma anchor_head k w : bitcoin_wscript_anchor k = Ret w -> length k = 33%nat -> exists r, w = 33 :: r.
Proof.
  unfold bitcoin_wscript_anchor. intros H Hl. rewrite push_key_length in H by done.
  destruct (is_anchor_witness_script _); [|done]. apply Ret_inj in H as <-. by eexists.
Qed.

Lemma direct_wscript_head lk rk delay csv ks w :
  length lk = 33%nat -> length rk = 33%nat -> length (other_payment_key ks) = 33%nat ->
  direct_wscript lk rk delay csv ks w -> forall s h ao az, w <> htlc_wscript ks ao az s h.
Proof.
  intros Hlk Hrk Hp Hw s h ao az ->.
  assert (Hh : exists r, htlc_wscript ks ao az s h = OP_DUP :: r)
    by (unfold htlc_wscript; destruct (bool_decide _); by eexists).
  destruct Hh as [r E]. rewrite E in Hw. destruct Hw as [(c & _ & Hw)|[(c & _ & Hw)|[Hw|Hw]]].
  - done.
  - unfold bitcoin_wscript_to_remote_anchored in Hw. rewrite push_key_length in Hw by done.
    destruct (is_to_remote_anchored_witness_script _); [|done]. by apply Ret_inj in Hw.
  - destruct (anchor_head _ _ Hw Hlk). done.
  - destruct (anchor_head _ _ Hw Hrk). done.
Qed.

(** Where a slot comes from. *)
Lemma commit_slots_cases asset lk rk lessor delay csv ks dust self oth n ao az want s u junk d sl :
  direct_outs asset lk rk lessor delay csv ks dust self oth n ao az (marks_of want) = Ret d ->
  sl ∈ commit_slots asset ks ao az s u junk d ->
  (exists h, h ∈ u /\ sl = htlc_slot asset ks ao az s h)
  \/ stage2 ks ao az s (slot_map sl) = None /\ expiry_of sl = 0
     /\ ((exists w, direct_wscript lk rk delay csv ks w /\ out_script (slot_out sl) = scriptpubkey_p2wsh sha256 w)
         \/ out_script (slot_out sl) = scriptpubkey_p2wpkh sha256 ripemd160 (other_payment_key ks)).
Proof.
  intros Hd [H|H]%elem_of_app; [left|right].
  - apply list_elem_of_fmap in H as (h & -> & Hh). rewrite kinds_perm in Hh. eauto.
  - apply elem_of_lookup_imap in H as (i & [o m] & -> & Hom). apply list_elem_of_lookup_2 in Hom.
    revert o m Hom. cut (Forall (fun p : tx_output * mark =>
      stage2 ks ao az s (snd p) = None /\ expiry_of (mk_slot (fst p) (snd p) 0) = 0 /\
      ((exists w, direct_wscript lk rk delay csv ks w /\ out_script (fst p) = scriptpubkey_p2wsh sha256 w)
       \/ out_script (fst p) = scriptpubkey_p2wpkh sha256 ripemd160 (other_payment_key ks))) d).
    { intros HF o m Hom. rewrite Forall_forall in HF. exact (HF _ Hom). }
    revert Hd. unfold direct_wscript, marks_of. apply direct_outs_ind.
    + intros c amount Hc. split_and!; [by destruct want|by destruct want|]. left. eauto 8.
    + intros c script amount Hc Hs. split_and!; [by destruct want|by destruct want|]. unfold to_remote_script in Hs.
      destruct (ao || az).
      * apply bind_Ret_inv in Hs as (w & ? & Hs). apply Ret_inj in Hs as <-. left. eauto 8.
      * apply Ret_inj in Hs as <-. by right.
    + intros w Hw. split_and!; [done|done|]. left. eauto 6.
    + intros w Hw. split_and!; [done|done|]. left. eauto 6.
Qed.

(** The witness scripts a commitment of [s] with these HTLCs may pay. *)
Definition in_play (lk rk : list Z) (delay csv : Z) (ks : keyset) (ao az : bool) (s : side) (u : list htlc)
    (w : list Z) : Prop :=
  (exists h, h ∈ u /\ w = htlc_wscript ks ao az s h) \/ direct_wscript lk rk delay csv ks w.
Definition collision_free (P : list Z -> Prop) : Prop :=
  forall w w', P w -> P w' -> sha256 w = sha256 w' -> w = w'.

Section Order.
Context (asset lk rk : list Z) (lessor : bool) (delay csv : Z) (ks : keyset) (dust : amount_sat_t).
Context (self oth : amount_msat_t) (n : Z) (ao az : bool).
Context (Hlk : length lk = 33%nat) (Hrk : length rk = 33%nat) (Hpk : length (other_payment_key ks) = 33%nat).

(** Slots with the same output are two HTLCs of the same script, or two
    direct outputs. *)
Lemma same_out_cases s t u v junk junk' want want' d d' a b :
  (forall k, k ∈ v -> exists h, h ∈ u /\ shown s h = shown t k) ->
  collision_free (in_play lk rk delay csv ks ao az s u) ->
  direct_outs asset lk rk lessor delay csv ks dust self oth n ao az (marks_of want) = Ret d ->
  direct_outs asset lk rk lessor delay csv ks dust self oth n ao az (marks_of want') = Ret d' ->
  a ∈ commit_slots asset ks ao az s u junk d -> b ∈ commit_slots asset ks ao az t v junk' d' ->
  out_script (slot_out a) = out_script (slot_out b) ->
  (exists h k, a = htlc_slot asset ks ao az s h /\ b = htlc_slot asset ks ao az t k
     /\ htlc_wscript ks ao az s h = htlc_wscript ks ao az t k)
  \/ stage2 ks ao az s (slot_map a) = None /\ stage2 ks ao az t (slot_map b) = None
     /\ expiry_of a = 0 /\ expiry_of b = 0.
Proof.
  intros Hv Hcf Hd Hd' Ha Hb E.
  assert (Hplay : forall k, k ∈ v -> in_play lk rk delay csv ks ao az s u (htlc_wscript ks ao az t k)).
  { intros k Hk. destruct (Hv k Hk) as (h & Hh & Es). left. exists h. split; [done|].
    symmetry. by apply htlc_wscript_shown. }
  destruct (commit_slots_cases _ _ _ _ _ _ _ _ _ _ _ _ _ _ _ _ _ _ _ Hd Ha) as [(h & Hh & ->)|(Ha1 & Ha2 & Ha3)],
    (commit_slots_cases _ _ _ _ _ _ _ _ _ _ _ _ _ _ _ _ _ _ _ Hd' Hb) as [(k & Hk & ->)|(Hb1 & Hb2 & Hb3)].
  - left. exists h, k. split_and!; [done|done|]. apply Hcf; [by left; eauto|by apply Hplay|].
    by apply p2wsh_inj.
  - exfalso. destruct Hb3 as [(w & Hw & Eb)|Eb]; rewrite Eb in E.
    + apply p2wsh_inj in E. apply Hcf in E; [|by left; eauto|by right].
      by apply (direct_wscript_head lk rk delay csv ks w Hlk Hrk Hpk Hw s h ao az).
    + by apply p2wsh_not_p2wpkh in E.
  - exfalso. destruct Ha3 as [(w & Hw & Ea)|Ea]; rewrite Ea in E; symmetry in E.
    + apply p2wsh_inj in E. apply Hcf in E; [|by apply Hplay|by right].
      by apply (direct_wscript_head lk rk delay csv ks w Hlk Hrk Hpk Hw t k ao az).
    + by apply p2wsh_not_p2wpkh in E.
  - by right.
Qed.

Lemma direct_key_by junk i d (f : slot mark -> Z) :
  (forall sl, sl ∈ direct_slots junk i d -> f sl = 0) ->
  key_by f <$> direct_slots junk i d = (fun o => (satoshis (out_satoshi o), out_script o, 0)) <$> map fst d.
Proof.
  intros Hf. change (map fst d) with (fst <$> d). rewrite <- (direct_slots_out junk i), <- list_fmap_compose.
  apply list_fmap_ext. intros j sl Hj. unfold key_by. cbn. by rewrite Hf by (by eapply list_elem_of_lookup_2).
Qed.

Lemma shown_back s t u v k :
  shown s <$> u ≡ₚ shown t <$> v -> k ∈ v -> exists h, h ∈ u /\ shown s h = shown t k.
Proof.
  intros Hp Hk. assert (Hin : shown t k ∈ shown s <$> u) by (rewrite Hp; by apply list_elem_of_fmap_2).
  apply list_elem_of_fmap in Hin as (h & E & Hh). eauto.
Qed.

Lemma collision_free_shown s t u v :
  shown s <$> u ≡ₚ shown t <$> v ->
  collision_free (in_play lk rk delay csv ks ao az s u) -> collision_free (in_play lk rk delay csv ks ao az t v).
Proof.
  intros Hp Hcf. assert (Hsub : forall w, in_play lk rk delay csv ks ao az t v w -> in_play lk rk delay csv ks ao az s u w).
  { intros w [(k & Hk & ->)|Hw]; [left|by right]. destruct (shown_back _ _ _ _ _ Hp Hk) as (h & Hh & E).
    exists h. split; [done|]. symmetry. by apply htlc_wscript_shown. }
  intros w w' Hw Hw'. apply Hcf; by apply Hsub.
Qed.

(** The CLTVs break the ties between HTLCs, whatever is in the other entries. *)
Lemma commit_slots_tie s u junk want d a b :
  collision_free (in_play lk rk delay csv ks ao az s u) ->
  direct_outs asset lk rk lessor delay csv ks dust self oth n ao az (marks_of want) = Ret d ->
  a ∈ commit_slots asset ks ao az s u junk d -> b ∈ commit_slots asset ks ao az s u junk d ->
  slot_out a = slot_out b -> expiry_of a < expiry_of b -> slot_cltv a < slot_cltv b.
Proof.
  intros Hcf Hd Ha Hb E Hlt.
  destruct (same_out_cases s s u u junk junk want want d d a b) as [(h & k & -> & -> & _)|(_ & _ & E1 & E2)];
    try done; [eauto|by rewrite E|lia].
Qed.

Lemma commit_slots_asset s u junk want d a b :
  direct_outs asset lk rk lessor delay csv ks dust self oth n ao az (marks_of want) = Ret d ->
  a ∈ commit_slots asset ks ao az s u junk d -> b ∈ commit_slots asset ks ao az s u junk d ->
  out_asset (slot_out a) = out_asset (slot_out b).
Proof.
  intros Hd Ha Hb. rewrite !(out_asset_of asset _ u ks ao az s junk d); try done;
    try (by apply list_elem_of_fmap_2); intros x; by apply (direct_outs_asset _ _ _ _ _ _ _ _ _ _ _ _ _ _ _ _ Hd).
Qed.

Lemma commit_slots_keys s t u v junk junk' want want' d d' :
  shown s <$> u ≡ₚ shown t <$> v ->
  direct_outs asset lk rk lessor delay csv ks dust self oth n ao az (marks_of want) = Ret d ->
  direct_outs asset lk rk lessor delay csv ks dust self oth n ao az (marks_of want') = Ret d' ->
  map fst d = map fst d' ->
  key_by expiry_of <$> commit_slots asset ks ao az s u junk d
  ≡ₚ key_by expiry_of <$> commit_slots asset ks ao az t v junk' d'.
Proof.
  intros Hp Hd Hd' Hm. unfold commit_slots. rewrite !fmap_app.
  assert (Hz : forall w d j i sl, direct_outs asset lk rk lessor delay csv ks dust self oth n ao az (marks_of w) = Ret d ->
            sl ∈ direct_slots j i d -> expiry_of sl = 0).
  { intros w d0 j i sl Hd0 Hsl. apply elem_of_lookup_imap in Hsl as (x & [o m] & -> & Hom).
    apply list_elem_of_lookup_2 in Hom. revert o m Hom.
    cut (Forall (fun p : tx_output * mark => expiry_of (mk_slot (fst p) (snd p) 0) = 0) d0).
    { intros HF o m Hom. rewrite Forall_forall in HF. exact (HF _ Hom). }
    revert Hd0. unfold marks_of. apply direct_outs_ind; intros; by destruct w. }
  rewrite !direct_key_by by eauto. rewrite Hm. apply Permutation_app_tail.
  rewrite <- !fmap_app, !kinds_perm, <- !list_fmap_compose.
  apply (by_shown_perm (fun s h => key_by expiry_of (htlc_slot asset ks ao az s h))); [|done].
  intros a b h k E. pose proof (htlc_out_shown asset ks ao az a b h k E) as Eo. cbv beta in Eo.
  unfold key_by. rewrite Eo. f_equal. by injection E as _ _ ? _ _.
Qed.

Lemma stage2_agree s t u v junk junk' want want' d d' :
  shown s <$> u ≡ₚ shown t <$> v ->
  collision_free (in_play lk rk delay csv ks ao az s u) ->
  direct_outs asset lk rk lessor delay csv ks dust self oth n ao az (marks_of want) = Ret d ->
  direct_outs asset lk rk lessor delay csv ks dust self oth n ao az (marks_of want') = Ret d' ->
  map fst d = map fst d' ->
  stage2 ks ao az s ∘ slot_map <$> permute_outputs (commit_slots asset ks ao az s u junk d)
  = stage2 ks ao az t ∘ slot_map <$> permute_outputs (commit_slots asset ks ao az t v junk' d').
Proof.
  intros Hp Hcf Hd Hd' Hm. pose proof (collision_free_shown _ _ _ _ Hp Hcf) as Hcf'.
  apply (fmap_agree (key_by expiry_of) (key_by expiry_of)).
  - apply permute_outputs_agree.
    + intros a b. by apply (commit_slots_tie s u junk want d).
    + intros a b. by apply (commit_slots_tie t v junk' want' d').
    + intros a b. by apply (commit_slots_asset s u junk want d).
    + intros a b. by apply (commit_slots_asset t v junk' want' d').
    + by apply (commit_slots_keys s t u v junk junk' want want' d d').
  - intros a b Ha Hb [= E1 E2 E3]. rewrite (proj1 (permute_outputs_sorts _)) in Ha.
    rewrite (proj1 (permute_outputs_sorts _)) in Hb.
    destruct (same_out_cases s t u v junk junk' want want' d d' a b)
      as [(h & k & -> & -> & E)|(Ea & Eb & _)]; try done; [intros k; by apply shown_back| |unfold compose; congruence].
    unfold compose. cbn [stage2 slot_map htlc_slot] in *. rewrite (htlc_wscript_kind ks ao az s t h k E), E.
    cbn in E1, E3. rewrite E3. do 3 f_equal.
    unfold amount_msat_to_sat_round_down. by rewrite E1.
Qed.
End Order.

(** The map of the outputs, as the second stage uses it. *)
Definition stage2_map (ks : keyset) (ao az : bool) (s : side) (m : list (option htlc)) :=
  (fun o => stage2 ks ao az s (match o with Some h => mark_htlc h | None => mark_null end)) <$> m.

(** What a commitment shows the other side: its transaction, and what its HTLC
    outputs are spent by. *)
Definition com_shown (ks : keyset) (ao az : bool) (s : side) (com : commitment) :=
  (com_tx com, stage2_map ks ao az s (com_htlcmap com)).

Lemma commit_of_agree ks ao az s t funding sats w number tx slots slots' :
  slot_out <$> permute_outputs slots = slot_out <$> permute_outputs slots' ->
  stage2 ks ao az s ∘ slot_map <$> permute_outputs slots = stage2 ks ao az t ∘ slot_map <$> permute_outputs slots' ->
  fmap (M := outcome) (com_shown ks ao az s) (commit_of funding sats w number tx slots)
  = fmap (M := outcome) (com_shown ks ao az t) (commit_of funding sats w number tx slots').
Proof.
  intros E E2. assert (El : length slots = length slots').
  { rewrite <- (proj1 (permute_outputs_sorts slots)), <- (proj1 (permute_outputs_sorts slots')).
    by rewrite <- (length_fmap slot_out), E, length_fmap. }
  unfold commit_of. rewrite El, E. destruct (0 <? _); [|done]. cbn [assert_then].
  destruct (finish_commit_tx _ _ _ _ _ _ _ _ _); [|done].
  cbn [fmap outcome_fmap mbind outcome_bind]. unfold com_shown. cbn [com_tx com_htlcmap]. do 2 f_equal.
  assert (Hm : forall r l, stage2_map ks ao az r (map (fun sl => match slot_map sl with mark_htlc h => Some h | _ => None end) l)
                      = stage2 ks ao az r ∘ slot_map <$> l).
  { intros r l. unfold stage2_map. change (map ?f l) with (f <$> l). rewrite <- list_fmap_compose.
    apply list_fmap_ext. intros i sl _. unfold compose. by destruct (slot_map sl). }
  by rewrite !Hm.
Qed.

Lemma commit_tx_same funding sats lk rk o p delay lease height ks f dust self oth l k want want' number ao az
    s t asset junk junk' :
  in_u32 f -> wf_sat dust -> Forall plain l -> Forall plain k ->
  length lk = 33%nat -> length rk = 33%nat -> length (other_payment_key ks) = 33%nat ->
  bool_decide (s = o) = bool_decide (t = p) -> shown s <$> l ≡ₚ shown t <$> k ->
  collision_free (in_play lk rk delay (csv_lock_of lease height) ks ao az s (untrimmed f dust ao az s l)) ->
  fmap (M := outcome) (com_shown ks ao az s)
    (commit_tx params sha256 ripemd160 wlen wbytes funding sats lk rk o delay lease height ks f dust self oth l
       want number ao az s asset junk)
  = fmap (M := outcome) (com_shown ks ao az t)
    (commit_tx params sha256 ripemd160 wlen wbytes funding sats lk rk p delay lease height ks f dust self oth k
       want' number ao az t asset junk').
Proof.
  intros Hf Hd Hl Hk Hlk Hrk Hpk Hop Hsh Hcf. rewrite !commit_tx_closed by done.
  apply (untrimmed_shown f dust ao az) in Hsh.
  set (u := untrimmed f dust ao az s l) in *. set (v := untrimmed f dust ao az t k) in *.
  assert (En : length v = length u)
    by (rewrite <- (length_fmap (shown t)), <- (length_fmap (shown s)); by rewrite Hsh).
  rewrite En. replace (bool_decide (t = other p)) with (bool_decide (s = other o)) by (by destruct s, t, o, p).
  destruct (amount_msat_add self oth) as [total|]; [|done].
  destruct (negb (amount_msat_greater_sat total sats)); [|done]. cbn [assert_then].
  destruct (base_fee_with_anchors params f _ ao az) as [[fee|]|]; [|done..]. cbn [mbind outcome_bind].
  replace (try_subtract_fee p t fee self oth) with (try_subtract_fee o s fee self oth)
    by (by destruct s, t, o, p).
  destruct (try_subtract_fee o s fee self oth) as [[ok self'] oth'].
  set (asset' := output_asset _). set (D := direct_outs asset' lk rk _ _ _ _ _ _ _ _ _ _).
  pose proof (direct_outs_marks asset' lk rk (bool_decide (s = other o)) delay (csv_lock_of lease height) ks dust
    self' oth' (Z.of_nat (length u)) ao az (marks_of want) (marks_of want')) as Em. fold D in Em.
  destruct (D (marks_of want)) as [d|] eqn:Ed, (D (marks_of want')) as [d'|] eqn:Ed'; try done.
  cbn [mbind outcome_bind]. apply Ret_inj in Em. apply commit_of_agree.
  - apply (permute_outputs_same _ _ (if is_elements params then asset' else [])).
    + intros a Ha. apply (out_asset_of _ _ _ _ _ _ _ _ _ Ha). intros x.
      by apply (direct_outs_asset _ _ _ _ _ _ _ _ _ _ _ _ _ _ _ _ Ed).
    + by apply commit_slots_out.
  - eapply (stage2_agree asset' lk rk _ delay _ ks dust self' oth' _ ao az Hlk Hrk Hpk s t u v junk junk' want want' d d' Hsh Hcf); [exact Ed|exact Ed'|done].
Qed.

(** ** Second-stage transactions *)

Lemma htlc_tx_of_stage2 c c' txid n f ks s t h k :
  channel_asset c = channel_asset c' -> chan_type c = chan_type c' ->
  to_self_delay (config c).[other s] = to_self_delay (config c').[other t] ->
  stage2 ks (has_anchor_outputs c) (has_zero_fee_anchors c) s (mark_htlc h)
  = stage2 ks (has_anchor_outputs c) (has_zero_fee_anchors c) t (mark_htlc k) ->
  htlc_tx_of params sha256 ripemd160 wlen wbytes c txid n f ks s h
  = htlc_tx_of params sha256 ripemd160 wlen wbytes c' txid n f ks t k.
Proof.
  intros Ea Et Ed [= E1 E2 E3 E4]. unfold htlc_tx_of, htlc_timeout_tx, htlc_success_tx, has_anchor_outputs,
    has_zero_fee_anchors, channel_has in *. rewrite Ea, Ed, <- Et, <- E1.
  unfold htlc_wscript in E2. rewrite <- E1 in E2. unfold amount_msat_to_sat_round_down. rewrite E3.
  destruct (bool_decide (htlc_owner h = s)); by rewrite E2, ?E4.
Qed.

Lemma add_htlcs_from_agree c c' txid n f ks s t m m' :
  channel_asset c = channel_asset c' -> chan_type c = chan_type c' ->
  to_self_delay (config c).[other s] = to_self_delay (config c').[other t] ->
  stage2_map ks (has_anchor_outputs c) (has_zero_fee_anchors c) s m
  = stage2_map ks (has_anchor_outputs c) (has_zero_fee_anchors c) t m' ->
  add_htlcs_from params sha256 ripemd160 wlen wbytes c txid n f ks s m
  = add_htlcs_from params sha256 ripemd160 wlen wbytes c' txid n f ks t m'.
Proof.
  intros Ea Et Ed. revert n m'; induction m as [|o m IH]; intros n [|o' m']; try done.
  unfold stage2_map. rewrite !fmap_cons. intros E. injection E as E1 E. specialize (IH (S n) m' E).
  destruct o as [h|], o' as [k|]; try done; cbn [add_htlcs_from].
  rewrite (htlc_tx_of_stage2 c c' txid n f ks s t h k) by done. by rewrite IH.
Qed.
End Closed.
