(* ===== verification/CommitMirror.v ===== *)
(** * Both sides make the same commitment

    The transaction of [tcov_commit_tx] in closed form: its outputs are those
    of the HTLCs and of the balances, each a function of what both sides know,
    and their order before the sort does not matter.  Then every commitment,
    covenant or not, from the channels of the two sides. *)

From stdpp Require Import list.
From S2P Require Import Prelude Chainparams Amount HtlcState FeeStates CommitFee Features Script Keys Tapscript ChannelState Tx SymScripts TcovScripts SymState Channel SymChannel CommitTx CommitAgree.
Local Open Scope Z_scope.

(** ** All results of a list, or none *)

Fixpoint all_of {A} (l : list (outcome A)) : outcome (list A) :=
  match l with
  | [] => Ret []
  | x :: l => a ← x; k ← all_of l; Ret (a :: k)
  end.

Lemma all_of_iff {A} (l : list (outcome A)) k : all_of l = Ret k <-> l = Ret <$> k.
Proof.
  revert k. induction l as [|x l IH]; intros k; cbn [all_of].
  - destruct k; cbn; split; congruence.
  - split.
    + intros H. apply bind_Ret_inv in H as (a & -> & H). apply bind_Ret_inv in H as (j & H & E). apply Ret_inj in E as <-.
      apply IH in H as ->. done.
    + destruct k as [|a k]; cbn; [done|]. intros [= -> E]. apply IH in E as ->. done.
Qed.
Lemma all_of_perm {A} (l l' : list (outcome A)) k : l ≡ₚ l' -> all_of l = Ret k -> exists k', all_of l' = Ret k' /\ k ≡ₚ k'.
Proof.
  intros Hp E. apply all_of_iff in E as ->. symmetry in Hp. apply Permutation_map_inv in Hp as (k' & -> & Hp).
  exists k'. split; [by apply all_of_iff|done].
Qed.
Lemma all_of_app {A} (l l' : list (outcome A)) : all_of (l ++ l') = (a ← all_of l; b ← all_of l'; Ret (a ++ b)).
Proof.
  induction l as [|x l IH]; cbn [all_of app].
  - by destruct (all_of l').
  - destruct x; [|done]. cbn [mbind outcome_bind]. rewrite IH. destruct (all_of l); [|done]. cbn [mbind outcome_bind].
    by destruct (all_of l').
Qed.
Lemma all_of_fmap {A B} (f : A -> B) (l : list (outcome A)) :
  all_of (fmap (M := outcome) f <$> l) = fmap (M := outcome) (fmap f) (all_of l).
Proof.
  induction l as [|x l IH]; [done|]. rewrite fmap_cons. destruct x; [|done]. cbn [all_of fmap outcome_fmap mbind outcome_bind].
  rewrite IH. by destruct (all_of l).
Qed.

Section Tcov.
#[local] Set Default Proof Using "Type*".
Context (params : chainparams) (sha256 ripemd160 : list Z -> list Z).
Context (wlen : bool -> bitcoin_tx -> option nat) (wbytes : bool -> bitcoin_tx -> option (list Z)).
Context `{!Taproot}.
Notation out_of := (out_of params).
Notation untrimmed f dust := (untrimmed params f dust false false).

Definition tcov_of (h : htlc) : tcov_htlc_out :=
  mk_tcov_htlc_out (htlc_owner h) (h_amount h) (ripemd160 (h_rhash h)) (h_lock_point h) (h_expiry h) h.
Lemma tcov_htlcs_of_plain l : Forall plain l -> tcov_htlcs_of ripemd160 l = Ret (tcov_of <$> l).
Proof.
  induction 1 as [|h l [_ He] _ IH]; [done|]. cbn [tcov_htlcs_of]. unfold abs_locktime_to_blocks.
  rewrite (proj2 (Z.ltb_lt _ _) He). cbn [assert_then mbind outcome_bind]. by rewrite IH.
Qed.

Lemma tcov_trimmed_of f dust s h : in_u32 f -> wf_sat dust -> plain h ->
  tcov_trimmed params (tcov_of h) f dust s = Ret (trimmed params f dust false false s h).
Proof. intros Hf Hd Hh. by rewrite <- trim_ret. Qed.

Lemma tcov_num_untrimmed_of f dust s l : in_u32 f -> wf_sat dust -> Forall plain l ->
  tcov_num_untrimmed params (tcov_of <$> l) f dust s = Ret (Z.of_nat (length (untrimmed f dust s l))).
Proof.
  intros Hf Hd. induction 1 as [|h l Hh Hl IH]; [done|]. rewrite fmap_cons. cbn [tcov_num_untrimmed].
  rewrite tcov_trimmed_of by done. cbn [mbind outcome_bind]. rewrite IH. cbn [mbind outcome_bind].
  unfold CommitAgree.untrimmed. cbn [List.filter]. destruct (trimmed _ _ _ _ _ _ h); cbn [negb length]; f_equal; lia.
Qed.

(** ** The outputs *)

(** The output script of an HTLC in the commitment of [s]. *)
Definition tcov_script (asset : list Z) (delay : Z) (ks : keyset) (point : list Z) (s : side) (h : htlc) : outcome (list Z) :=
  let amt := amount_msat_to_sat_round_down (h_amount h) in
  tree ← (if bool_decide (htlc_owner h = s)
          then tcov_offered_htlc_tree params sha256 ripemd160 ks point delay (Some asset) (ripemd160 (h_rhash h))
                 (h_lock_point h) (h_expiry h) amt
          else tcov_received_htlc_tree params sha256 ripemd160 ks point delay (Some asset) (ripemd160 (h_rhash h))
                 (h_lock_point h) (h_expiry h) amt);
  Ret (tap_tree2_scriptpubkey tree).
Definition tcov_slot (asset oasset : list Z) (delay : Z) (ks : keyset) (point : list Z) (s : side) (h : htlc) : outcome (slot mark) :=
  script ← tcov_script asset delay ks point s h;
  Ret (mk_slot (out_of oasset script (amount_msat_to_sat_round_down (h_amount h))) (mark_htlc h) (h_expiry h)).

Lemma tcov_slot_of offered asset oasset delay ks point s h : eqb (bool_decide (htlc_owner h = s)) offered = true ->
  tcov_slot asset oasset delay ks point s h
  = (let amt := amount_msat_to_sat_round_down (h_amount h) in
     tree ← (if offered
             then tcov_offered_htlc_tree params sha256 ripemd160 ks point delay (Some asset) (ripemd160 (h_rhash h))
                    (h_lock_point h) (h_expiry h) amt
             else tcov_received_htlc_tree params sha256 ripemd160 ks point delay (Some asset) (ripemd160 (h_rhash h))
                    (h_lock_point h) (h_expiry h) amt);
     Ret (mk_slot (out_of oasset (tap_tree2_scriptpubkey tree) amt) (mark_htlc h) (h_expiry h))).
Proof. intros Ek%eqb_prop. unfold tcov_slot, tcov_script. rewrite Ek. cbn zeta. by destruct (if offered then _ else _). Qed.

Lemma tcov_htlc_outs_built offered asset delay ks point f dust s l tx0 slots :
  in_u32 f -> wf_sat dust -> Forall plain l ->
  Z.of_nat (length slots + length (of_kind offered s (untrimmed f dust s l))) <= outputs_allocation_len tx0 ->
  tcov_htlc_outs params sha256 ripemd160 offered asset delay ks point f dust s (tcov_of <$> l) (built tx0 slots)
  = (k ← all_of (tcov_slot asset (output_asset tx0) delay ks point s <$> of_kind offered s (untrimmed f dust s l));
     Ret (built tx0 (slots ++ k))).
Proof.
  intros Hf Hd Hl. revert slots. induction Hl as [|h l Hh Hl IH]; intros slots Hn.
  { cbn. by rewrite app_nil_r. }
  unfold of_kind, CommitAgree.untrimmed in *. rewrite fmap_cons. cbn [tcov_htlc_outs List.filter] in *. cbn [to_owner tcov_of].
  destruct (eqb (bool_decide (htlc_owner h = s)) offered) eqn:Ek; cbn [negb].
  - rewrite tcov_trimmed_of by done. cbn [mbind outcome_bind]. destruct (trimmed _ _ _ _ _ s h); cbn [negb] in *; [by apply IH|].
    cbn [List.filter] in *. rewrite Ek in *. cbn [length] in Hn. rewrite fmap_cons. cbn [all_of].
    rewrite (tcov_slot_of offered) by done. cbn zeta. cbn [to_amount to_payment_ripemd to_lock_point to_cltv_expiry to_handle tcov_of].
    destruct (if offered then _ else _) as [tree|]; [|done]. cbn [mbind outcome_bind].
    rewrite add_out_built by lia. cbn [mbind outcome_bind]. rewrite IH by (rewrite length_app; cbn [length]; lia).
    destruct (all_of _); [|done]. cbn [mbind outcome_bind]. by rewrite <- app_assoc.
  - rewrite IH; [|destruct (trimmed _ _ _ _ _ s h); cbn [negb] in Hn; [done|cbn [List.filter] in Hn; by rewrite Ek in Hn]].
    destruct (trimmed _ _ _ _ _ s h); cbn [negb]; [done|]. cbn [List.filter]. by rewrite Ek.
Qed.

(** The outputs of the balances, each with its mark. *)
Definition tcov_directs (oasset : list Z) (ks : keyset) (point : list Z) (delay : Z) (credit : option tcov_credit) (s : side)
    (dust : amount_sat_t) (self oth : amount_msat_t) : list (outcome (tx_output * mark)) :=
  let v := amount_msat_to_sat_round_down self in
  let w := amount_msat_to_sat_round_down oth in
  (if amount_msat_greater_eq_sat self dust
   then [script ← tcov_to_local_script sha256 ripemd160 ks point delay credit s v;
         Ret (out_of oasset script v, dummy_to_local)] else [])
  ++ (if amount_msat_greater_eq_sat oth dust
      then [script ← tcov_to_remote_script sha256 ripemd160 ks credit s w; Ret (out_of oasset script w, dummy_to_remote)]
      else []).

Lemma tcov_direct_outs_built ks point delay credit s dust self oth junk tx0 slots :
  Z.of_nat (length slots) + 2 <= outputs_allocation_len tx0 ->
  tcov_direct_outs params sha256 ripemd160 ks point delay credit s dust self oth junk (built tx0 slots)
  = (d ← all_of (tcov_directs (output_asset tx0) ks point delay credit s dust self oth); Ret (so_far junk tx0 slots d)).
Proof.
  intros Hn. unfold tcov_direct_outs, tcov_directs.
  replace (built tx0 slots) with (so_far junk tx0 slots []) by (unfold so_far; cbn; by rewrite app_nil_r).
  generalize (tcov_to_local_script sha256 ripemd160 ks point delay credit s (amount_msat_to_sat_round_down self)) as r1.
  generalize (tcov_to_remote_script sha256 ripemd160 ks credit s (amount_msat_to_sat_round_down oth)) as r2. intros r2 r1.
  destruct (amount_msat_greater_eq_sat self dust), (amount_msat_greater_eq_sat oth dust), r1, r2; cbn [mbind outcome_bind all_of app];
    repeat (rewrite add_out_so_far by (cbn; lia); cbn [mbind outcome_bind app]); done.
Qed.
Lemma tcov_directs_length oasset ks point delay credit s dust self oth :
  (length (tcov_directs oasset ks point delay credit s dust self oth) <= 2)%nat.
Proof. unfold tcov_directs. destruct (amount_msat_greater_eq_sat self dust), (amount_msat_greater_eq_sat oth dust); cbn; lia. Qed.

(** ** The commitment in closed form *)

Definition tcov_tx0 (asset : list Z) (n : Z) : bitcoin_tx :=
  bitcoin_tx_set_output_asset params (Some asset) (bitcoin_tx_new params (n + 2) 0).
Lemma tcov_tx0_alloc asset n : n + 2 <= outputs_allocation_len (tcov_tx0 asset n).
Proof. unfold tcov_tx0, bitcoin_tx_set_output_asset, bitcoin_tx_new. destruct (is_elements params); cbn; lia. Qed.
Lemma tcov_tx0_built asset n : built (tcov_tx0 asset n) [] = (tcov_tx0 asset n, []).
Proof. unfold built, tcov_tx0, bitcoin_tx_set_output_asset. by destruct (is_elements params). Qed.

(** All the outputs before the sort. *)
Definition tcov_outs (asset oasset : list Z) (delay : Z) (ks : keyset) (point : list Z) (credit : option tcov_credit) (s : side)
    (u : list htlc) (dust : amount_sat_t) (self oth : amount_msat_t) : list (outcome tx_output) :=
  (fmap (M := outcome) slot_out ∘ tcov_slot asset oasset delay ks point s <$> of_kind true s u ++ of_kind false s u)
  ++ (fmap (M := outcome) fst <$> tcov_directs oasset ks point delay credit s dust self oth).

Lemma all_of_length {A} (l : list (outcome A)) k : all_of l = Ret k -> length k = length l.
Proof. intros E. apply all_of_iff in E as ->. by rewrite length_fmap. Qed.

(** The transaction the commitment has, by whichever order of these outputs. *)
Definition tcov_tx_of (funding : outpoint) (sats : amount_sat_t) (wscript : list Z) (number : Z) (tx : bitcoin_tx)
    (slots : list (slot mark)) : outcome bitcoin_tx :=
  assert_then (0 <? length slots)%nat
    (finish_commit_tx params sha256 wlen wbytes funding sats wscript number
       (set_tx_outputs (slot_out <$> permute_outputs slots) tx)).

Lemma tcov_commit_tx_closed funding sats asset lk rk op delay ks point f dust self oth l number s credit initial junk :
  in_u32 f -> wf_sat dust -> Forall plain l ->
  let u := untrimmed f dust s l in
  let n := Z.of_nat (length u) in
  let oasset := output_asset (tcov_tx0 asset n) in
  fmap (M := outcome) (fmap com_tx)
    (tcov_commit_tx params sha256 ripemd160 wlen wbytes funding sats asset lk rk op delay ks point f dust self oth
       (tcov_of <$> l) number s credit initial junk)
  = match amount_msat_add self oth with
    | None => Crash
    | Some total =>
      assert_then (negb (amount_msat_greater_sat total sats))
        (fee ← commit_tx_base_fee params f n false false;
         let '(ok, self, oth) := try_subtract_fee op s fee self oth in
         if negb ok && initial then Ret None
         else
           a ← all_of (tcov_slot asset oasset delay ks point s <$> of_kind true s u);
           b ← all_of (tcov_slot asset oasset delay ks point s <$> of_kind false s u);
           d ← all_of (tcov_directs oasset ks point delay credit s dust self oth);
           tx ← tcov_tx_of funding sats (bitcoin_redeem_2of2 lk rk) number (tcov_tx0 asset n)
                  ((a ++ b) ++ direct_slots junk (length (a ++ b)) d);
           Ret (Some tx))
    end.
Proof.
  intros Hf Hd Hl u n oasset. unfold tcov_commit_tx. destruct (amount_msat_add self oth) as [total|]; [|done].
  destruct (negb (amount_msat_greater_sat total sats)); [|done]. cbn [assert_then].
  rewrite tcov_num_untrimmed_of by done. fold u n. cbn [mbind outcome_bind].
  destruct (commit_tx_base_fee params f n false false) as [fee|]; [|done]. cbn [mbind outcome_bind].
  destruct (try_subtract_fee op s fee self oth) as [[ok self'] oth']. destruct (negb ok && initial); [done|].
  fold (tcov_tx0 asset n). rewrite <- tcov_tx0_built. pose proof (tcov_tx0_alloc asset n). pose proof (kinds_length s u).
  rewrite tcov_htlc_outs_built by (done || (fold u; cbn [length]; lia)). fold u oasset.
  destruct (all_of (_ <$> of_kind true _ _)) as [a|] eqn:Ea; [|done]. cbn [mbind outcome_bind app].
  pose proof (all_of_length _ _ Ea) as La. rewrite length_fmap in La.
  rewrite tcov_htlc_outs_built by (done || (fold u; rewrite La; lia)). fold u oasset.
  destruct (all_of (_ <$> of_kind false _ _)) as [b|] eqn:Eb; [|done]. cbn [mbind outcome_bind].
  pose proof (all_of_length _ _ Eb) as Lb. rewrite length_fmap in Lb.
  rewrite tcov_direct_outs_built by (rewrite length_app; lia). fold oasset.
  destruct (all_of (tcov_directs _ _ _ _ _ _ _ _ _)) as [d|]; [|done]. cbn [mbind outcome_bind]. unfold so_far, built, tcov_tx_of.
  destruct (0 <? _)%nat; [|done]. cbn [assert_then]. by destruct (finish_commit_tx _ _ _ _ _ _ _ _ _).
Qed.

(** ** Agreement *)

Lemma tcov_slot_shown asset oasset delay ks point :
  by_shown (fun s h => fmap (M := outcome) slot_out (tcov_slot asset oasset delay ks point s h)).
Proof.
  intros s t h k [= E1 E2 E3 E4 E5]. unfold tcov_slot, tcov_script. rewrite E1, E2, E3, E4, E5.
  by destruct (if bool_decide _ then _ else _).
Qed.

(** The balances of a commitment of [s] and of one of [t] pay the same. *)
Definition same_credit (s t : side) (cr cr' : option tcov_credit) : Prop :=
  match cr, cr' with
  | Some a, Some b => bool_decide (s = provider a) = bool_decide (t = provider b) /\ window a = window b
                      /\ credit_params_of a = credit_params_of b
  | None, None => True
  | _, _ => False
  end.
Lemma tcov_directs_same oasset ks point delay credit credit' s t dust self oth : same_credit s t credit credit' ->
  tcov_directs oasset ks point delay credit s dust self oth = tcov_directs oasset ks point delay credit' t dust self oth.
Proof.
  unfold tcov_directs, tcov_to_local_script, tcov_to_remote_script. destruct credit as [a|], credit' as [b|]; try done.
  intros (-> & -> & ->). done.
Qed.

Lemma tcov_outs_shown asset oasset delay ks point credit credit' s t u v dust self oth :
  shown s <$> u ≡ₚ shown t <$> v -> same_credit s t credit credit' ->
  tcov_outs asset oasset delay ks point credit s u dust self oth ≡ₚ tcov_outs asset oasset delay ks point credit' t v dust self oth.
Proof.
  intros Hu Hc. unfold tcov_outs. rewrite (tcov_directs_same _ _ _ _ _ _ _ _ _ _ _ Hc), !kinds_perm.
  apply Permutation_app_tail. by apply (by_shown_perm _ s t u v (tcov_slot_shown asset oasset delay ks point)).
Qed.

Lemma tcov_outs_asset asset oasset delay ks point credit s u dust self oth outs o :
  all_of (tcov_outs asset oasset delay ks point credit s u dust self oth) = Ret outs -> o ∈ outs ->
  out_asset o = if is_elements params then oasset else [].
Proof.
  intros E Ho. apply all_of_iff in E. assert (Hin : Ret o ∈ tcov_outs asset oasset delay ks point credit s u dust self oth)
    by (rewrite E; by apply list_elem_of_fmap_2).
  unfold tcov_outs in Hin. apply elem_of_app in Hin as [Hin|Hin].
  - apply list_elem_of_fmap in Hin as (h & Eh & _). unfold compose, tcov_slot in Eh. destruct (tcov_script _ _ _ _ _ _); [|done].
    by apply Ret_inj in Eh as ->.
  - apply list_elem_of_fmap in Hin as (x & Ex & Hx). unfold tcov_directs in Hx. apply elem_of_app in Hx as [Hx|Hx];
      (destruct (amount_msat_greater_eq_sat _ _); [|by apply elem_of_nil in Hx]); apply list_elem_of_singleton in Hx as ->;
      [destruct (tcov_to_local_script _ _ _ _ _ _ _ _)|destruct (tcov_to_remote_script _ _ _ _ _ _)]; try done; by apply Ret_inj in Ex as ->.
Qed.

(** The outputs in the order [permute_outputs] leaves them in. *)
Definition sorted_outs (outs : list tx_output) : list tx_output :=
  slot_out <$> permute_outputs ((fun o => mk_slot o tt 0) <$> outs).
Lemma sorted_outs_slots {M} (slots : list (slot M)) asset : (forall o, o ∈ slot_out <$> slots -> out_asset o = asset) ->
  slot_out <$> permute_outputs slots = sorted_outs (slot_out <$> slots).
Proof. intros Ha. apply (permute_outputs_same _ _ asset Ha). by rewrite <- !list_fmap_compose. Qed.
Lemma sorted_outs_perm outs outs' asset : (forall o, o ∈ outs -> out_asset o = asset) -> outs ≡ₚ outs' ->
  sorted_outs outs = sorted_outs outs'.
Proof.
  intros Ha Hp. assert (E : forall l : list tx_output, slot_out <$> ((fun o => mk_slot o tt 0) <$> l) = l)
    by (intros l; rewrite <- list_fmap_compose; apply list_fmap_id).
  apply (permute_outputs_same _ _ asset); by rewrite !E.
Qed.

(** The transaction, of the outputs alone. *)
Lemma tcov_tx_outs asset oasset delay ks point credit s u dust self oth funding sats w number tx0 junk :
  (a ← all_of (tcov_slot asset oasset delay ks point s <$> of_kind true s u);
   b ← all_of (tcov_slot asset oasset delay ks point s <$> of_kind false s u);
   d ← all_of (tcov_directs oasset ks point delay credit s dust self oth);
   tcov_tx_of funding sats w number tx0 ((a ++ b) ++ direct_slots junk (length (a ++ b)) d))
  = (outs ← all_of (tcov_outs asset oasset delay ks point credit s u dust self oth);
     assert_then (0 <? length outs)%nat
       (finish_commit_tx params sha256 wlen wbytes funding sats w number (set_tx_outputs (sorted_outs outs) tx0))).
Proof.
  pose proof (tcov_outs_asset asset oasset delay ks point credit s u dust self oth) as Ha. revert Ha. unfold tcov_outs.
  rewrite fmap_app, !list_fmap_compose, !all_of_app, !all_of_fmap.
  destruct (all_of (tcov_slot _ _ _ _ _ _ <$> of_kind true _ _)) as [a|]; [|done].
  destruct (all_of (tcov_slot _ _ _ _ _ _ <$> of_kind false _ _)) as [b|]; [|done].
  destruct (all_of (tcov_directs _ _ _ _ _ _ _ _ _)) as [d|]; [|done]. cbn [mbind outcome_bind fmap outcome_fmap]. intros Ha.
  assert (E : slot_out <$> (a ++ b) ++ direct_slots junk (length (a ++ b)) d = ((slot_out <$> a) ++ (slot_out <$> b)) ++ (fst <$> d))
    by by rewrite !fmap_app, direct_slots_out.
  unfold tcov_tx_of. rewrite <- E, length_fmap. erewrite sorted_outs_slots; [done|]. intros o Ho. apply (Ha _ o eq_refl). by rewrite <- E.
Qed.

(** One side's outputs give the other's transaction. *)
Lemma tcov_tx_agree asset oasset delay ks point credit credit' s t u v dust self oth funding sats w number tx0 junk junk' :
  shown s <$> u ≡ₚ shown t <$> v -> same_credit s t credit credit' ->
  (a ← all_of (tcov_slot asset oasset delay ks point s <$> of_kind true s u);
   b ← all_of (tcov_slot asset oasset delay ks point s <$> of_kind false s u);
   d ← all_of (tcov_directs oasset ks point delay credit s dust self oth);
   tcov_tx_of funding sats w number tx0 ((a ++ b) ++ direct_slots junk (length (a ++ b)) d))
  = (a ← all_of (tcov_slot asset oasset delay ks point t <$> of_kind true t v);
     b ← all_of (tcov_slot asset oasset delay ks point t <$> of_kind false t v);
     d ← all_of (tcov_directs oasset ks point delay credit' t dust self oth);
     tcov_tx_of funding sats w number tx0 ((a ++ b) ++ direct_slots junk' (length (a ++ b)) d)).
Proof.
  intros Hu Hc. rewrite !tcov_tx_outs.
  pose proof (tcov_outs_shown asset oasset delay ks point credit credit' s t u v dust self oth Hu Hc) as Hp.
  destruct (all_of (tcov_outs _ _ _ _ _ credit _ _ _ _ _)) as [o|] eqn:E.
  - destruct (all_of_perm _ _ _ Hp E) as (o' & -> & Hp'). cbn [mbind outcome_bind].
    rewrite (sorted_outs_perm o o' _ (fun x => tcov_outs_asset _ _ _ _ _ _ _ _ _ _ _ o x E) Hp'). by rewrite Hp'.
  - destruct (all_of (tcov_outs _ _ _ _ _ credit' _ _ _ _ _)) as [o|] eqn:E'; [|done].
    destruct (all_of_perm _ _ _ (symmetry Hp) E') as (o' & E2 & _). congruence.
Qed.

(** Both sides of a channel build the same covenant commitment. *)
Lemma tcov_commit_tx_same funding sats asset lk rk op op' delay ks point f dust self oth l k number s t credit credit' initial junk junk' :
  in_u32 f -> wf_sat dust -> Forall plain l -> Forall plain k ->
  bool_decide (s = op) = bool_decide (t = op') -> shown s <$> l ≡ₚ shown t <$> k -> same_credit s t credit credit' ->
  fmap (M := outcome) (fmap com_tx)
    (tcov_commit_tx params sha256 ripemd160 wlen wbytes funding sats asset lk rk op delay ks point f dust self oth
       (tcov_of <$> l) number s credit initial junk)
  = fmap (M := outcome) (fmap com_tx)
    (tcov_commit_tx params sha256 ripemd160 wlen wbytes funding sats asset lk rk op' delay ks point f dust self oth
       (tcov_of <$> k) number t credit' initial junk').
Proof.
  intros Hf Hd Hl Hk Hop Hsh Hc. rewrite !tcov_commit_tx_closed by done. apply (untrimmed_shown params f dust false false) in Hsh.
  set (u := untrimmed f dust s l) in *. set (v := untrimmed f dust t k) in *.
  assert (En : length v = length u) by (rewrite <- (length_fmap (shown t)), <- (length_fmap (shown s)); by rewrite Hsh).
  rewrite En. destruct (amount_msat_add self oth) as [total|]; [|done].
  destruct (negb (amount_msat_greater_sat total sats)); [|done]. cbn [assert_then].
  destruct (commit_tx_base_fee params f _ false false) as [fee|]; [|done]. cbn [mbind outcome_bind].
  replace (try_subtract_fee op' t fee self oth) with (try_subtract_fee op s fee self oth) by (by destruct s, t, op, op').
  destruct (try_subtract_fee op s fee self oth) as [[ok self'] oth']. destruct (negb ok && initial); [done|].
  pose proof (tcov_tx_agree asset (output_asset (tcov_tx0 asset (Z.of_nat (length u)))) delay ks point credit credit' s t u v dust self' oth'
    funding sats (bitcoin_redeem_2of2 lk rk) number (tcov_tx0 asset (Z.of_nat (length u))) junk junk' Hsh Hc) as E. revert E.
  do 6 (destruct (all_of _); cbn [mbind outcome_bind]); try done; intros E; rewrite ?E; try done; by rewrite <- E.
Qed.
End Tcov.

(** ** The two sides of a channel

    When the channels of two sides mirror each other, and that they then build
    the same transactions: the commitment and the second-stage transactions of
    the plain types, the commitment of a covenant channel. *)

Section Mirror.
#[local] Set Default Proof Using "Type*".
Context (params : chainparams) (sha256 ripemd160 : list Z -> list Z).
Context (wlen : bool -> bitcoin_tx -> option nat) (wbytes : bool -> bitcoin_tx -> option (list Z)).
Context `{!Digest sha256 32, !Digest ripemd160 20}.

(** ** Two sides of a channel *)

(** The commitment of [s] in the eyes of a side whose channel is [c], and that
    of [t] in the eyes of one whose channel is [c'], are of the same side:
    what both tables say of it is the same. *)
Record mirrors (s t : side) (c c' : channel) : Prop := {
  mir_opener : bool_decide (s = opener c) = bool_decide (t = opener c');
  mir_dust : conf_dust_limit (config c).[s] = conf_dust_limit (config c').[t];
  mir_delay : to_self_delay (config c).[other s] = to_self_delay (config c').[other t];
  mir_other_dust : conf_dust_limit (config c).[other s] = conf_dust_limit (config c').[other t];
  mir_own_delay : to_self_delay (config c).[s] = to_self_delay (config c').[t];
  mir_lanes : sym_lanes c = sym_lanes c';
  mir_funding : ChannelState.funding c = ChannelState.funding c';
  mir_sats : ChannelState.funding_sats c = ChannelState.funding_sats c';
  mir_lease : lease_expiry c = lease_expiry c';
  mir_number : commitment_number_obscurer c = commitment_number_obscurer c';
  mir_asset : channel_asset c = channel_asset c';
  mir_type : chan_type c = chan_type c';
  mir_feerate : channel_feerate c s = channel_feerate c' t;
  mir_blockheight : channel_blockheight c s = channel_blockheight c' t;
  mir_self : (owed (view c).[s]).[s] = (owed (view c').[t]).[t];
  mir_other : (owed (view c).[s]).[other s] = (owed (view c').[t]).[other t];
  mir_htlcs : shown s <$> committed (gather_htlcs c s) ≡ₚ shown t <$> committed (gather_htlcs c' t);
}.

(** The two sides' keys, each seen from its own. *)
Definition same_keys (s t : side) (keys keys' : channel_keys) (fp fp' : sides (list Z)) : Prop :=
  (chan_basepoints keys).[s] = (chan_basepoints keys').[t]
  /\ (chan_basepoints keys).[other s] = (chan_basepoints keys').[other t]
  /\ fp.[s] = fp'.[t] /\ fp.[other s] = fp'.[other t]
  /\ (funding_pubkey keys).[s] = (funding_pubkey keys').[t] /\ (funding_pubkey keys).[other s] = (funding_pubkey keys').[other t].

Definition own_splice (s : side) (splice remote_splice : Z) : Z :=
  match s with LOCAL => splice | REMOTE => remote_splice end.

(** Amounts, feerate and expiries are of their types. *)
Definition commit_data_ok (c : channel) (s : side) : Prop :=
  wf_sat (conf_dust_limit (config c).[s])
  /\ (forall f, channel_feerate c s = Ret f -> in_u32 f)
  /\ Forall plain (committed (gather_htlcs c s)).

(** The same for a settlement: no HTLC is of another lane. *)
Definition settle_data_ok (c : channel) (s : side) : Prop :=
  channel_committed_htlcs c s = committed (gather_htlcs c s) /\ wf_sat (ChannelState.funding_sats c)
  /\ forall t, wf_msat (owed (view c).[s]).[t].

Context `{!Secp256k1, !Secp256k1Laws _}.
Context `{!Taproot, !Issuance}.

(** What is signed: the commitment transaction and the second-stage ones. *)
Definition signed_txs (r : option (commitment * list (option bitcoin_tx)))
  : option (bitcoin_tx * list (option bitcoin_tx)) := (fun '(com, txs) => (com_tx com, txs)) <$> r.

(** No two of the scripts this commitment may pay have the same hash. *)
Definition scripts_distinct (c : channel) (s : side) (keys : channel_keys) (fp : sides (list Z)) (point : list Z) : Prop :=
  forall ks f height,
    derive_keyset sha256 point (chan_basepoints keys).[s] (chan_basepoints keys).[other s]
      (channel_has c OPT_STATIC_REMOTEKEY) = Some ks ->
    channel_feerate c s = Ret f -> channel_blockheight c s = Ret height ->
    collision_free sha256 (in_play sha256 ripemd160 fp.[s] fp.[other s] (to_self_delay (config c).[other s])
      (csv_lock_of (lease_expiry c) height) ks (has_anchor_outputs c) (has_zero_fee_anchors c) s
      (untrimmed params f (conf_dust_limit (config c).[s]) (has_anchor_outputs c) (has_zero_fee_anchors c) s
         (committed (gather_htlcs c s)))).

Definition channel_txs_of := channel_txs params sha256 ripemd160 wlen wbytes.

(** The credit of a channel is the same on both sides. *)
Lemma channel_credit_mirror s t c c' keys keys' fp fp' : mirrors s t c c' -> same_keys s t keys keys' fp fp' ->
  same_credit s t (channel_tcov_credit sha256 ripemd160 keys c) (channel_tcov_credit sha256 ripemd160 keys' c').
Proof.
  intros Hm (Hb1 & Hb2 & _ & _ & Hf1 & Hf2). destruct Hm as [Mo _ Md _ Mod _ Mfu _ _ _ _ Mt _ _ _ _ _].
  unfold channel_tcov_credit, channel_has. rewrite <- Mt. destruct (channel_type_has _ _); [|done]. rewrite <- Mfu.
  assert (Hsame : (funding_pubkey keys).[opener c] = (funding_pubkey keys').[opener c']
    /\ bp_payment (chan_basepoints keys).[other (opener c)] = bp_payment (chan_basepoints keys').[other (opener c')]
    /\ to_self_delay (config c).[other (opener c)] = to_self_delay (config c').[other (opener c')]).
  { destruct s, t, (opener c), (opener c'); try done; cbn [other] in *; by rewrite ?Hb1, ?Hb2. }
  destruct Hsame as (-> & -> & ->). unfold tcov_credit_init. destruct (credit_params_init _ _ _ _ _); [|done]. cbn. by rewrite Mo.
Qed.

Lemma channel_txs_mirror s t c c' keys keys' fp fp' funding sats point number splice rsplice splice' rsplice' want want' junk junk' :
  mirrors s t c c' -> same_keys s t keys keys' fp fp' ->
  own_splice s splice rsplice = own_splice t splice' rsplice' ->
  own_splice (other s) splice rsplice = own_splice (other t) splice' rsplice' ->
  channel_has c OPT_SEQ_SYMMETRIC = false ->
  commit_data_ok c s -> commit_data_ok c' t ->
  length fp.[s] = 33%nat -> length fp.[other s] = 33%nat -> length (bp_payment (chan_basepoints keys).[other s]) = 33%nat ->
  (channel_has c OPT_SEQ_TAPROOT_COVENANT = false -> scripts_distinct c s keys fp point) ->
  fmap (M := outcome) signed_txs (channel_txs_of funding sats keys c point number s splice rsplice fp want junk)
  = fmap (M := outcome) signed_txs (channel_txs_of funding sats keys' c' point number t splice' rsplice' fp' want' junk').
Proof.
  intros Hmir Hks Hsp1 Hsp2 Hsym (Hdust & Hfee & Hpl) (_ & _ & Hpl') Hl1 Hl2 Hl3 Hcf.
  pose proof (channel_credit_mirror s t c c' keys keys' fp fp' Hmir Hks) as Hcr. destruct Hks as (Hk1 & Hk2 & Hf1 & Hf2 & _).
  destruct Hmir as [Mo Md Mdel _ _ _ _ _ Ml Mn Ma Mt Mf Mb Ms Mot Mh].
  unfold channel_txs_of, channel_txs, add_htlcs. unfold channel_has in *. rewrite <- Mt, <- Hk1, <- Hk2, <- Hf1, <- Hf2.
  destruct (derive_keyset sha256 point _ _ _) as [ks|] eqn:Eks; [|done].
  change (match s with LOCAL => splice | REMOTE => rsplice end) with (own_splice s splice rsplice).
  change (match t with LOCAL => splice' | REMOTE => rsplice' end) with (own_splice t splice' rsplice').
  replace (match s with LOCAL => rsplice | REMOTE => splice end) with (own_splice (other s) splice rsplice) by (by destruct s).
  replace (match t with LOCAL => rsplice' | REMOTE => splice' end) with (own_splice (other t) splice' rsplice') by (by destruct t).
  rewrite <- Ms, <- Mot, <- Hsp1, <- Hsp2, <- Mb, <- Mf, <- Md, <- Mdel, <- Ml, <- Mn, <- Ma.
  destruct (amount_msat_add_sat_s64 _ _) as [self|]; [|done].
  destruct (amount_msat_add_sat_s64 _ _) as [oth|]; [|done]. rewrite Hsym.
  destruct (channel_type_has (chan_type c) OPT_SEQ_TAPROOT_COVENANT) eqn:Htcov.
  { unfold tcov_channel_commit_tx. rewrite !tcov_htlcs_of_plain by done. cbn [mbind outcome_bind]. rewrite <- Mf, <- Md, <- Mdel, <- Mn, <- Ma.
    destruct (channel_feerate c s) as [f|]; [|done]. cbn [mbind outcome_bind].
    pose proof (tcov_commit_tx_same params sha256 ripemd160 wlen wbytes funding sats (channel_asset c) fp.[s] fp.[other s] (opener c)
      (opener c') (to_self_delay (config c).[other s]) ks point f (conf_dust_limit (config c).[s]) self oth _ _
      (Z.lxor number (commitment_number_obscurer c)) s t _ _ false junk junk' (Hfee f eq_refl) Hdust Hpl Hpl' Mo Mh Hcr) as E.
    destruct (tcov_commit_tx _ _ _ _ _ _ _ _ _ _ (opener c)) as [[com|]|], (tcov_commit_tx _ _ _ _ _ _ _ _ _ _ (opener c')) as [[com'|]|];
      try done. apply Ret_inj in E. injection E as E. cbn. by rewrite E. }
  specialize (Hcf eq_refl).
  destruct (channel_blockheight c s) as [height|] eqn:Eh; [|done].
  destruct (channel_feerate c s) as [f|] eqn:Ef; [|done]. cbn [mbind outcome_bind].
  assert (Hao : has_anchor_outputs c' = has_anchor_outputs c) by (unfold has_anchor_outputs, channel_has; by rewrite Mt).
  assert (Haz : has_zero_fee_anchors c' = has_zero_fee_anchors c) by (unfold has_zero_fee_anchors, channel_has; by rewrite Mt).
  rewrite Hao, Haz.
  pose proof (derive_keyset_lengths _ _ _ _ _ _ Eks Hl3) as Hkl.
  pose proof (commit_tx_same params sha256 ripemd160 wlen wbytes funding sats fp.[s] fp.[other s] (opener c) (opener c') (to_self_delay (config c).[other s])
    (lease_expiry c) height ks f (conf_dust_limit (config c).[s]) self oth _ _ want want'
    (Z.lxor number (commitment_number_obscurer c)) (has_anchor_outputs c) (has_zero_fee_anchors c) s t
    (channel_asset c) junk junk' (Hfee f eq_refl) Hdust Hpl Hpl' Hl1 Hl2) as Hsame.
  rewrite !Forall_cons in Hkl. specialize (Hsame ltac:(tauto) Mo Mh (Hcf _ _ _ Eks Ef Eh)).
  destruct (commit_tx _ _ _ _ _ _ _ _ _ (opener c)) as [com|], (commit_tx _ _ _ _ _ _ _ _ _ (opener c')) as [com'|]; try done.
  apply Ret_inj in Hsame. injection Hsame as Etx Emap. cbn [mbind outcome_bind]. rewrite <- Etx.
  replace (if channel_type_has (chan_type c) OPT_ANCHORS_ZERO_FEE_HTLC_TX then Ret 0 else Ret f)
    with (Ret (if channel_type_has (chan_type c) OPT_ANCHORS_ZERO_FEE_HTLC_TX then 0 else f))
    by (by destruct (channel_type_has (chan_type c) OPT_ANCHORS_ZERO_FEE_HTLC_TX)).
  cbn [mbind outcome_bind]. destruct (bitcoin_txid _ _ _ _) as [txid|]; [|done]. cbn [mbind outcome_bind].
  rewrite (add_htlcs_from_agree params sha256 ripemd160 wlen wbytes c c' txid 0 _ ks s t (com_htlcmap com) (com_htlcmap com')) by done.
  destruct (add_htlcs_from _ _ _ _ _ c' _ _ _ _ _ _); [|done]. cbn. by rewrite Etx.
Qed.

(** C11. Two sides whose channels mirror each other build the same commitment
    transaction and the same second-stage transactions, in the same order,
    for the commitment of [s], whatever the order of the HTLCs in their
    tables and whatever was in the memory [permute_outputs] was given: so
    the signatures one makes in [send_commit] are for the transactions the
    other checks them against. *)
Theorem both_sides_build_same_txs s c c' keys keys' fp fp' funding sats point number splice rsplice want want' junk junk' :
  mirrors s (other s) c c' -> same_keys s (other s) keys keys' fp fp' ->
  channel_has c OPT_SEQ_SYMMETRIC = false ->
  commit_data_ok c s -> commit_data_ok c' (other s) ->
  length fp.[s] = 33%nat -> length fp.[other s] = 33%nat -> length (bp_payment (chan_basepoints keys).[other s]) = 33%nat ->
  (channel_has c OPT_SEQ_TAPROOT_COVENANT = false -> scripts_distinct c s keys fp point) ->
  fmap (M := outcome) signed_txs (channel_txs_of funding sats keys c point number s splice rsplice fp want junk)
  = fmap (M := outcome) signed_txs
      (channel_txs_of funding sats keys' c' point number (other s) rsplice splice fp' want' junk').
Proof. intros. apply channel_txs_mirror; try done; by destruct s. Qed.
End Mirror.
