(* ===== verification/CommitValue.v ===== *)
(** * What a commitment transaction pays

    The outputs never take more than the funding output holds, the fee the
    opener was charged is left over, and on a chain with explicit fee outputs
    inputs and outputs balance exactly.  The commitment number written into
    the locktime and the sequence reads back.  The position [initial_commit_tx]
    reports for our own output can be that of an anchor. *)

From stdpp Require Import list.
From S2P Require Import Prelude Chainparams Amount HtlcState Wire FeeStates CommitFee Features Script Keys ChannelState Channel Tx CommitTx CommitAgree CommitMirror.
Local Open Scope Z_scope.

Definition out_total (l : list tx_output) : Z := sum_with (fun o => satoshis (out_satoshi o)) l.

(** onchaind's reading of the commitment number; [keys] are the payment
    basepoints. *)
Definition unmask_commit_number (sha256 : list Z -> list Z) (sequence locktime : Z) (opener : side)
    (keys : sides (list Z)) : Z :=
  let obscurer := commit_number_obscurer sha256 keys.[opener] keys.[other opener] in
  Z.lxor (Z.lor (Z.land locktime 0x00FFFFFF) (Z.shiftl (Z.land sequence 0x00FFFFFF) 24)) obscurer.

Section Fees.
#[local] Set Default Proof Using "Type*".
Context (params : chainparams) (sha256 ripemd160 : list Z -> list Z).
Context (wlen : bool -> bitcoin_tx -> option nat) (wbytes : bool -> bitcoin_tx -> option (list Z)).

(** An output that counts towards the fee: not itself a fee output, and of the
    transaction's own asset, with an explicit value. *)
Definition counts (asset : list Z) (o : tx_output) : Prop :=
  out_script o <> [] /\ 0 <= satoshis (out_satoshi o)
  /\ (is_elements params = true -> out_asset o = asset /\ length asset = 33%nat /\ byte asset 0 = 1).

Lemma get_amount_counts asset o : counts asset o ->
  exists a, wally_tx_output_get_amount params o = Ret (mk_asset (satoshis (out_satoshi o)) a)
    /\ (is_elements params = true -> a = asset).
Proof.
  intros (_ & _ & Ha). unfold wally_tx_output_get_amount. destruct (is_elements params); [|by eexists].
  destruct (Ha eq_refl) as (E & Hl & Hb). rewrite E, Hl. cbn. rewrite Hb. by eexists.
Qed.

Lemma compute_fee_spec tx outs v :
  Forall (counts (output_asset tx)) outs -> out_total outs <= v ->
  compute_fee_from params tx outs (mk_sat v) = Ret (mk_sat (v - out_total outs)).
Proof.
  intros H. revert v; induction H as [|o outs Ho Hr IH]; intros v Hv; cbn [compute_fee_from].
  { cbn. by rewrite Z.sub_0_r. }
  destruct (get_amount_counts _ _ Ho) as (a & -> & Ea). cbn [mbind outcome_bind asset_value].
  assert (Hnn : 0 <= out_total outs).
  { apply sum_with_nonneg. intros x Hx. rewrite Forall_forall in Hr. by apply Hr. }
  change (out_total (o :: outs)) with (satoshis (out_satoshi o) + out_total outs) in *.
  destruct Ho as (Hs & Hp & _).
  assert (E1 : elements_wtx_output_is_fee params o = false).
  { unfold elements_wtx_output_is_fee. destruct (out_script o); [done|]. by rewrite andb_false_r. }
  assert (E2 : amount_asset_is params (mk_asset (satoshis (out_satoshi o)) a) (output_asset tx) = true).
  { unfold amount_asset_is. destruct (is_elements params); [|done]. cbn. rewrite Ea by done. by apply bool_decide_eq_true. }
  rewrite E1, E2. cbn [orb negb]. unfold amount_sat_sub. cbn [satoshis].
  rewrite (proj2 (Z.ltb_ge _ _)) by lia. rewrite IH by lia. do 2 f_equal. lia.
Qed.

(** The fee output [bitcoin_tx_finalize] adds makes the two sides balance. *)
Lemma finish_commit_tx_outputs funding sats w number tx tx' :
  finish_commit_tx params sha256 wlen wbytes funding sats w number tx = Ret tx' ->
  tx_inputs tx = [] -> in_u64 (satoshis sats) -> Forall (counts (output_asset tx)) (tx_outputs tx) ->
  (is_elements params = true -> length (output_asset tx) = 33%nat /\ byte (output_asset tx) 0 = 1) ->
  out_total (tx_outputs tx) <= satoshis sats ->
  tx_outputs tx' = tx_outputs tx
    ++ (if is_elements params
        then [mk_output (mk_sat (satoshis sats - out_total (tx_outputs tx))) [] (output_asset tx)] else []).
Proof.
  unfold finish_commit_tx, bitcoin_tx_finalize, elements_tx_add_fee_output, bitcoin_tx_compute_fee,
    bitcoin_tx_compute_fee_w_inputs, bitcoin_tx_add_input. intros H Hin Hs Hc Ha Ht.
  destruct (tx_version tx =? 2); [|done]. cbn -[compute_fee_from wally_tx_output_get_amount amount_sat_add] in H. rewrite Hin in H. cbn -[compute_fee_from wally_tx_output_get_amount amount_sat_add] in H.
  apply bind_Ret_inv in H as (tx1 & H & Hchk). destruct (bitcoin_tx_check _ _ _); [|done].
  apply Ret_inj in Hchk as <-. apply bind_Ret_inv in H as (fee & Hfee & H).
  apply bind_Ret_inv in Hfee as (total & Htot & Hfee).
  assert (Etot : total = sats).
  { apply bind_Ret_inv in Htot as (a & Hg & Htot). unfold wally_tx_output_get_amount, wally_tx_output_asset in Hg.
    cbn [out_asset out_satoshi] in Hg.
    assert (Ev : asset_value a = satoshis sats).
    { destruct (is_elements params) eqn:Eel.
      - destruct (Ha eq_refl) as [Hl Hb]. rewrite Hl, Hb in Hg. by apply Ret_inj in Hg as <-.
      - by apply Ret_inj in Hg as <-. }
    rewrite amount_sat_add_spec in Htot by (cbn; lia). cbn in Htot. rewrite Ev, (proj2 (Z.leb_le _ _)) in Htot by lia.
    apply Ret_inj in Htot as <-. by destruct sats. }
  subst total. destruct sats as [v]. rewrite compute_fee_spec in Hfee by done. apply Ret_inj in Hfee as <-.
  destruct (is_elements params) eqn:Eel; cbn [negb] in H; [|apply Ret_inj in H as <-; cbn; by rewrite app_nil_r].
  destruct (list_find _ _) as [[i o]|] eqn:Ef.
  - exfalso. apply list_find_Some in Ef as (Hi & Hfee & _). apply list_elem_of_lookup_2 in Hi.
    rewrite Forall_forall in Hc. destruct (Hc o Hi) as [Hne _]. unfold elements_wtx_output_is_fee in Hfee.
    destruct (out_script o); [done|]. by rewrite andb_false_r in Hfee.
  - unfold bitcoin_tx_add_output in H. destruct (_ <? _); [|done]. apply Ret_inj in H as <-.
    cbn. unfold wally_tx_output_asset. by rewrite Eel.
Qed.

Lemma out_total_app l k : out_total (l ++ k) = out_total l + out_total k.
Proof using Type. apply sum_with_app. Qed.

Lemma div_1000 x : 0 <= x -> 0 <= 1000 * (x / 1000) <= x.
Proof using Type. intros Hx. pose proof (Z.div_mod x 1000). pose proof (Z.mod_pos_bound x 1000). lia. Qed.

(** An output that is there under a condition. *)
Lemma optional_out_total (b : bool) (o : outcome (list Z)) (g : list Z -> list Z) asset amount (m : mark) l :
  (if b then w ← o; Ret [(out_of params asset (g w) amount, m)] else Ret []) = Ret l ->
  0 <= satoshis amount ->
  out_total (map fst l) = (if b then satoshis amount else 0)
  /\ Forall (fun o => 0 <= satoshis (out_satoshi o)) (map fst l).
Proof using Type.
  intros H Ha. destruct b; [apply bind_Ret_inv in H as (? & _ & H)|]; apply Ret_inj in H as <-; [|done].
  split; [apply Z.add_0_r|]. by repeat constructor.
Qed.

(** The direct outputs take no more than the balances and the anchors. *)
Lemma direct_outs_total asset lk rk lessor delay csv ks dust self oth n ao az m d :
  direct_outs params sha256 ripemd160 asset lk rk lessor delay csv ks dust self oth n ao az m = Ret d ->
  0 <= millisatoshis self -> 0 <= millisatoshis oth ->
  1000 * out_total (map fst d) <= millisatoshis self + millisatoshis oth + (if ao || az then 660000 else 0)
  /\ Forall (fun o => 0 <= satoshis (out_satoshi o)) (map fst d).
Proof.
  destruct m as [[[m1 m2] m3] m4]. unfold direct_outs. intros H Hs Ho.
  apply bind_Ret_inv in H as (l2 & H2 & H). apply bind_Ret_inv in H as (l3 & H3 & H).
  apply bind_Ret_inv in H as (l4 & H4 & H). apply Ret_inj in H as <-.
  rewrite !map_app, !out_total_app, !Forall_app.
  pose proof (div_1000 _ Hs). pose proof (div_1000 _ Ho).
  apply (optional_out_total _ _ id) in H2 as [-> F2]; [|cbn; lia].
  apply optional_out_total in H3 as [-> F3]; [|done]. apply optional_out_total in H4 as [-> F4]; [|done].
  assert (Hl : forall b : bool, out_total (map fst (if b
     then [(out_of params asset (scriptpubkey_p2wsh sha256 (to_self_wscript delay (if lessor then csv else 0) ks))
              (amount_msat_to_sat_round_down self), m1)] else [])) = if b then millisatoshis self / 1000 else 0).
  { intros []; [apply Z.add_0_r|done]. }
  rewrite Hl. cbn [satoshis amount_msat_to_sat_round_down]. split.
  - destruct (amount_msat_greater_eq_sat self dust), (amount_msat_greater_eq_sat oth dust), (ao || az);
      cbn [andb orb]; destruct (negb (n =? 0)); lia.
  - split_and!; try done. destruct (amount_msat_greater_eq_sat self dust); repeat constructor. cbn. lia.
Qed.

Lemma commit_slots_counts asset lk rk lessor delay csv ks dust self oth n ao az m s u junk d :
  direct_outs params sha256 ripemd160 asset lk rk lessor delay csv ks dust self oth n ao az m = Ret d ->
  Forall plain u -> Forall (fun o => 0 <= satoshis (out_satoshi o)) (map fst d) ->
  (is_elements params = true -> length asset = 33%nat /\ byte asset 0 = 1) ->
  Forall (counts asset) (slot_out <$> commit_slots params sha256 ripemd160 asset ks ao az s u junk d).
Proof.
  intros Hd Hu Hnn Ha. apply Forall_forall. intros o Ho.
  assert (Hasset : is_elements params = true -> out_asset o = asset /\ length asset = 33%nat /\ byte asset 0 = 1).
  { intros Hel. split; [|by apply Ha].
    rewrite (out_asset_of params sha256 ripemd160 asset o u ks ao az s junk d Ho); [by rewrite Hel|].
    intros x. by apply (direct_outs_asset params sha256 ripemd160 _ _ _ _ _ _ _ _ _ _ _ _ _ _ _ _ Hd). }
  unfold commit_slots in Ho. rewrite fmap_app, direct_slots_out in Ho. apply elem_of_app in Ho as [Ho|Ho].
  - apply list_elem_of_fmap in Ho as (sl & -> & Hsl). apply list_elem_of_fmap in Hsl as (h & -> & Hh).
    rewrite kinds_perm in Hh. rewrite Forall_forall in Hu. destruct (Hu h Hh) as [? _]. split_and!; [done| |done].
    cbn. apply Z.div_pos; lia.
  - change (fst <$> d) with (map fst d) in Ho. rewrite Forall_forall in Hnn. split_and!; [|by apply Hnn|done].
    clear Hasset Hnn. apply list_elem_of_fmap in Ho as (p & -> & Hp). revert p Hp. apply Forall_forall.
    destruct m as [[[m1 m2] m3] m4]. revert Hd. apply direct_outs_ind; try done.
    intros c script amount _ Hs. cbn. intros ->. unfold to_remote_script in Hs. destruct (ao || az); [|done].
    by apply bind_Ret_inv in Hs as (? & _ & Hs).
Qed.

Lemma commit_slots_total asset ks ao az s u junk d :
  out_total (slot_out <$> commit_slots params sha256 ripemd160 asset ks ao az s u junk d)
  = sum_with (fun h => millisatoshis (h_amount h) / 1000) u + out_total (map fst d).
Proof.
  unfold commit_slots. rewrite fmap_app, direct_slots_out, out_total_app. f_equal. unfold out_total.
  rewrite (sum_with_perm _ _ (slot_out <$> (htlc_slot params sha256 ripemd160 asset ks ao az s <$> u)))
    by (by rewrite kinds_perm).
  induction u as [|h u IH]; [done|]. exact (f_equal (Z.add (millisatoshis (h_amount h) / 1000)) IH).
Qed.

Lemma htlc_total_bound u : Forall plain u ->
  1000 * sum_with (fun h => millisatoshis (h_amount h) / 1000) u <= sum_with (fun h => millisatoshis (h_amount h)) u.
Proof using Type.
  induction 1 as [|h u [Ha _] _ IH]; cbn; [lia|]. pose proof (div_1000 (millisatoshis (h_amount h)) ltac:(lia)).
  unfold sum_with in *. lia.
Qed.

Lemma untrimmed_total f dust ao az s l : Forall plain l ->
  Forall plain (untrimmed params f dust ao az s l)
  /\ sum_with (fun h => millisatoshis (h_amount h)) (untrimmed params f dust ao az s l)
     <= sum_with (fun h => millisatoshis (h_amount h)) l.
Proof using Type.
  unfold untrimmed. induction 1 as [|h l Hh _ [IH1 IH2]]; cbn; [done|]. pose proof (proj1 Hh).
  destruct (trimmed params f dust ao az s h); cbn; (split; [by try constructor|]); unfold sum_with in *; lia.
Qed.

(** An opener that can pay does. *)
Lemma fee_paid opener s fee self oth ok self' oth' :
  wf_msat self -> wf_msat oth -> 0 <= satoshis fee ->
  1000 * satoshis fee <= millisatoshis (if bool_decide (opener = s) then self else oth) ->
  try_subtract_fee opener s fee self oth = (ok, self', oth') ->
  0 <= millisatoshis self' /\ 0 <= millisatoshis oth'
  /\ millisatoshis self' + millisatoshis oth' = millisatoshis self + millisatoshis oth - 1000 * satoshis fee.
Proof using Type.
  intros Hs Ho Hf Hpay H. assert (Hw : wf_sat fee) by (case_bool_decide; lia).
  destruct (try_subtract_fee_spec _ _ _ _ _ _ _ _ Hs Ho Hw H) as (E1 & _ & E2).
  case_bool_decide; simplify_eq; lia.
Qed.

Lemma fee_with_anchors (ao az : bool) fee :
  1000 * (satoshis fee + (if ao || az then 660 else 0)) <= UINT64_MAX -> wf_sat fee ->
  (if ao || az then amount_sat_add fee (mk_sat 660) else Some fee)
  = Some (mk_sat (satoshis fee + (if ao || az then 660 else 0))).
Proof using Type.
  intros Hb Hw. destruct (ao || az); [|destruct fee; cbn; by rewrite Z.add_0_r].
  rewrite amount_sat_add_spec by (done || (cbn; lia)). cbn. by rewrite (proj2 (Z.leb_le _ _)) by lia.
Qed.

(** C25. The outputs of a commitment transaction leave the fee: when the
    balances and the HTLCs of the commitment are covered by the funding output
    and the opener can pay the base fee (and the anchors), the outputs to the
    two sides and the HTLC outputs add up to at most the funding less that fee.
    On a chain with fee outputs the last output makes up exactly the rest. *)
Theorem commit_tx_leaves_fee funding sats lk rk opener delay lease height ks f dust self oth l want number ao az s
    asset junk com fee :
  in_u32 f -> wf_sat dust -> wf_sat sats -> wf_msat self -> wf_msat oth -> Forall plain l ->
  (is_elements params = true -> length asset = 33%nat /\ byte asset 0 = 1) ->
  millisatoshis self + millisatoshis oth + sum_with (fun h => millisatoshis (h_amount h)) l <= 1000 * satoshis sats ->
  commit_tx_base_fee params f (Z.of_nat (length (untrimmed params f dust ao az s l))) ao az = Ret fee -> wf_sat fee ->
  1000 * (satoshis fee + (if ao || az then 660 else 0))
    <= millisatoshis (if bool_decide (opener = s) then self else oth) ->
  commit_tx params sha256 ripemd160 wlen wbytes funding sats lk rk opener delay lease height ks f dust self oth l
    want number ao az s asset junk = Ret com ->
  exists outs, tx_outputs (com_tx com)
      = outs ++ (if is_elements params then [mk_output (mk_sat (satoshis sats - out_total outs)) [] asset] else [])
    /\ out_total outs + satoshis fee <= satoshis sats.
Proof.
  intros Hf Hd Hs Hself Hoth Hl Hasset Htot Hfee Hfw Hpay. rewrite commit_tx_closed by done.
  destruct (untrimmed_total f dust ao az s l Hl) as [Hu Hut]. pose proof (htlc_total_bound _ Hu) as Hub.
  set (u := untrimmed params f dust ao az s l) in *. set (n := Z.of_nat (length u)) in *.
  destruct (amount_msat_add self oth) as [total|]; [|done]. destruct (negb _); [|done]. cbn [assert_then].
  unfold base_fee_with_anchors. rewrite Hfee. cbn [mbind outcome_bind].
  assert (Hcap : 1000 * (satoshis fee + (if ao || az then 660 else 0)) <= UINT64_MAX)
    by (destruct (bool_decide (opener = s)) in Hpay; lia).
  rewrite fee_with_anchors by done.
  destruct (try_subtract_fee opener s _ self oth) as [[ok self'] oth'] eqn:Etry.
  apply fee_paid in Etry as (Hs' & Ho' & Esum); [|done|done|cbn; destruct (ao || az); lia|done].
  set (asset' := output_asset (tx0 params asset n)).
  destruct (direct_outs _ _ _ asset' _ _ _ _ _ _ _ _ _ _ _ _ _) as [d|] eqn:Ed; [|done]. cbn [mbind outcome_bind].
  unfold commit_of. destruct (0 <? _); [|done]. cbn [assert_then].
  set (slots := commit_slots _ _ _ asset' ks ao az s u junk d). intros H.
  apply bind_Ret_inv in H as (tx & Hfin & H). apply Ret_inj in H as <-. cbn [com_tx].
  exists (slot_out <$> permute_outputs slots).
  assert (Hel : is_elements params = true -> asset' = asset)
    by (intros Hel; unfold asset', tx0, bitcoin_tx_set_output_asset; by rewrite Hel).
  destruct (direct_outs_total _ _ _ _ _ _ _ _ _ _ _ _ _ _ _ Ed) as [Hdt Hdn]; [done|done|].
  assert (Hperm : out_total (slot_out <$> permute_outputs slots) = out_total (slot_out <$> slots))
    by (apply sum_with_perm; by rewrite (proj1 (permute_outputs_sorts slots))).
  pose proof (commit_slots_total asset' ks ao az s u junk d) as Hst. fold slots in Hst.
  assert (Hle : out_total (slot_out <$> permute_outputs slots) + satoshis fee <= satoshis sats).
  { rewrite Hperm, Hst. cbn [satoshis] in Esum. destruct (ao || az); lia. }
  split; [|done]. apply finish_commit_tx_outputs in Hfin; cbn [set_tx_outputs tx_outputs tx_inputs output_asset] in *.
  - rewrite Hfin. destruct (is_elements params); [|done]. fold asset'. by rewrite Hel.
  - unfold tx0, bitcoin_tx_set_output_asset. by destruct (is_elements params).
  - done.
  - fold asset'. rewrite (proj1 (permute_outputs_sorts slots)).
    apply (commit_slots_counts _ _ _ _ _ _ _ _ _ _ _ _ _ _ _ _ _ _ Ed); [done|done|]. intros E. rewrite Hel by done. by apply Hasset.
  - intros E. fold asset'. rewrite Hel by done. by apply Hasset.
  - lia.
Qed.
End Fees.

(** ** The commitment number *)

Lemma mask24_testbit x i : 0 <= i -> Z.testbit (Z.land x 0xFFFFFF) i = Z.testbit x i && (i <? 24).
Proof.
  intros Hi. rewrite Z.land_spec. f_equal. change 0xFFFFFF with (Z.ones 24).
  by rewrite Z.testbit_ones_nonneg by lia.
Qed.

(** The two halves of a 48-bit number, under their tags, make it up again. *)
Lemma halves_join o : 0 <= o < 2 ^ 48 ->
  Z.lor (Z.land (Z.lor 0x20000000 (Z.land o 0xFFFFFF)) 0xFFFFFF)
    (Z.shiftl (Z.land (Z.lor 0x80000000 (Z.land (Z.shiftr o 24) 0xFFFFFF)) 0xFFFFFF) 24) = o.
Proof.
  intros Ho. assert (Hm : forall t x, Z.land t 0xFFFFFF = 0 -> Z.land (Z.lor t (Z.land x 0xFFFFFF)) 0xFFFFFF = Z.land x 0xFFFFFF).
  { intros t x Ht. rewrite Z.land_lor_distr_l, Ht, Z.lor_0_l, <- Z.land_assoc. done. }
  rewrite !Hm by done. apply Z.bits_inj'. intros i Hi. rewrite Z.lor_spec, mask24_testbit by lia.
  destruct (Z.ltb_spec i 24).
  - rewrite Z.shiftl_spec_low by lia. by rewrite andb_true_r, orb_false_r.
  - rewrite andb_false_r, Z.shiftl_spec by lia. rewrite mask24_testbit, Z.shiftr_spec by lia.
    replace (i - 24 + 24) with i by lia. cbn [orb]. destruct (Z.ltb_spec (i - 24) 24); [by rewrite andb_true_r|].
    rewrite andb_false_r. symmetry. rewrite <- (Z.mod_small o (2 ^ 48)) by lia. apply Z.mod_pow2_bits_high. lia.
Qed.

Lemma be_value_bound l : (forall b, b ∈ l -> 0 <= b < 256) -> 0 <= be_value l < 256 ^ Z.of_nat (length l).
Proof.
  unfold be_value. cut (forall l acc, (forall b, b ∈ l -> 0 <= b < 256) -> 0 <= acc ->
    0 <= fold_left (fun acc b => acc * 256 + b) l acc < (acc + 1) * 256 ^ Z.of_nat (length l)).
  { intros H Hb. specialize (H l 0 Hb). lia. }
  clear l. induction l as [|b l IH]; intros acc Hb Ha; cbn [fold_left length]; [lia|].
  assert (0 <= b < 256) by (apply Hb; left).
  specialize (IH (acc * 256 + b) ltac:(intros x Hx; apply Hb; by right) ltac:(lia)).
  rewrite Nat2Z.inj_succ, Z.pow_succ_r by lia. nia.
Qed.

Lemma obscurer_bound sha256 `{!Digest sha256 32} a b : 0 <= commit_number_obscurer sha256 a b < 2 ^ 48.
Proof.
  unfold commit_number_obscurer.
  pose proof (be_value_bound (drop (32 - 6) (sha256 (a ++ b)))) as H. rewrite length_drop, digest_length in H.
  apply H. intros x Hx. apply (digest_bytes (f := sha256) (a ++ b)). rewrite <- (take_drop (32 - 6) (sha256 _)).
  apply elem_of_app. by right.
Qed.

Lemma lxor_bound a b : 0 <= a < 2 ^ 48 -> 0 <= b < 2 ^ 48 -> 0 <= Z.lxor a b < 2 ^ 48.
Proof.
  intros Ha Hb. assert (0 <= Z.lxor a b) by (apply Z.lxor_nonneg; lia). split; [done|].
  destruct (decide (Z.lxor a b = 0)) as [->|]; [lia|]. apply Z.log2_lt_pow2; [lia|].
  pose proof (Z.log2_lxor a b ltac:(lia) ltac:(lia)).
  assert (forall x, 0 <= x < 2 ^ 48 -> Z.log2 x < 48).
  { intros x Hx. destruct (decide (x = 0)) as [->|]; [done|]. apply Z.log2_lt_pow2; lia. }
  pose proof (H1 a Ha). pose proof (H1 b Hb). lia.
Qed.

Section Number.
#[local] Set Default Proof Using "Type*".
Context (params : chainparams) (sha256 ripemd160 : list Z -> list Z) `{!Digest sha256 32}.
Context (wlen : bool -> bitcoin_tx -> option nat) (wbytes : bool -> bitcoin_tx -> option (list Z)).

Lemma finish_commit_tx_number funding sats w o tx tx' :
  finish_commit_tx params sha256 wlen wbytes funding sats w o tx = Ret tx' -> tx_inputs tx = [] ->
  tx_locktime tx' = Z.lor 0x20000000 (Z.land o 0xFFFFFF)
  /\ exists u, tx_inputs tx' = [mk_input funding (Z.lor 0x80000000 (Z.land (Z.shiftr o 24) 0xFFFFFF)) u (Some w)].
Proof.
  unfold finish_commit_tx, bitcoin_tx_finalize, elements_tx_add_fee_output. intros H Hin.
  destruct (tx_version tx =? 2); [|done]. cbn [assert_then] in H.
  apply bind_Ret_inv in H as (tx1 & H & Hchk). destruct (bitcoin_tx_check _ _ _); [|done].
  apply Ret_inj in Hchk as <-. apply bind_Ret_inv in H as (fee & _ & H).
  assert (Hsame : forall tx2, (tx2 = tx1 \/ exists l, tx1 = set_tx_outputs l tx2) -> tx_locktime tx1 = tx_locktime tx2
            /\ tx_inputs tx1 = tx_inputs tx2) by (intros tx2 [->|[l ->]]; done).
  set (tx2 := bitcoin_tx_add_input _ _ _ _ _ _ _) in *. destruct (Hsame tx2) as [-> ->].
  - destruct (is_elements params); cbn [negb] in H; [|left; by apply Ret_inj in H].
    right. destruct (list_find _ _) as [[i x]|]; [apply Ret_inj in H as <-; by eexists|].
    unfold bitcoin_tx_add_output in H. destruct (_ <? _); [|done]. apply Ret_inj in H as <-. by eexists.
  - split; [done|]. eexists. cbn. by rewrite Hin.
Qed.

(** Whoever watches the chain reads the commitment number off the
    transaction: from the locktime and the sequence [commit_tx] writes,
    onchaind's [unmask_commit_number] recovers the number the transaction was
    made for, whichever side opened the channel. *)
Theorem commitment_number_reads_back funding sats lk rk opener delay lease height ks f dust self oth l want number
    ao az s asset junk com keys party :
  in_u32 f -> wf_sat dust -> Forall plain l -> 0 <= number < 2 ^ 48 ->
  let obscurer := commit_number_obscurer sha256 keys.[party] keys.[other party] in
  commit_tx params sha256 ripemd160 wlen wbytes funding sats lk rk opener delay lease height ks f dust self oth l
    want (Z.lxor number obscurer) ao az s asset junk = Ret com ->
  exists i, tx_inputs (com_tx com) = [i]
    /\ unmask_commit_number sha256 (in_sequence i) (tx_locktime (com_tx com)) party keys = number.
Proof.
  intros Hf Hd Hl Hn obscurer. rewrite commit_tx_closed by done.
  destruct (amount_msat_add self oth); [|done]. destruct (negb _); [|done]. cbn [assert_then].
  destruct (base_fee_with_anchors _ _ _ _ _) as [[fee|]|]; [|done..]. cbn [mbind outcome_bind].
  destruct (try_subtract_fee _ _ _ _ _) as [[ok self'] oth'].
  destruct (direct_outs _ _ _ _ _ _ _ _ _ _ _ _ _ _ _ _ _) as [d|]; [|done]. cbn [mbind outcome_bind].
  unfold commit_of. destruct (0 <? _); [|done]. cbn [assert_then]. intros H.
  apply bind_Ret_inv in H as (tx & Hfin & H). apply Ret_inj in H as <-. cbn [com_tx].
  apply finish_commit_tx_number in Hfin as (Hlock & u & Hin);
    [|unfold tx0, bitcoin_tx_set_output_asset; by destruct (is_elements params)].
  eexists. split; [exact Hin|]. unfold unmask_commit_number. rewrite Hlock. cbn [in_sequence].
  fold obscurer. rewrite halves_join by (apply lxor_bound; [done|apply obscurer_bound; done]).
  by rewrite Z.lxor_assoc, Z.lxor_nilpotent, Z.lxor_0_r.
Qed.
End Number.

(** ** Direct outputs *)

Lemma last_index_snoc {A} (p : A -> bool) l a :
  last_index p (l ++ [a]) = if p a then Some (length l) else last_index p l.
Proof.
  unfold last_index. rewrite imap_app, foldl_app. cbn. by rewrite Nat.add_0_r.
Qed.

(** The position found satisfies the test; none is found only where none does. *)
Lemma last_index_spec {A} (p : A -> bool) l :
  match last_index p l with
  | Some i => exists a, l !! i = Some a /\ p a = true
  | None => forall a, a ∈ l -> p a = false
  end.
Proof.
  induction l as [|a l IH] using rev_ind; [by intros a ?%elem_of_nil|]. rewrite last_index_snoc.
  destruct (p a) eqn:E.
  - exists a. split; [|done]. by rewrite lookup_app_r, Nat.sub_diag by lia.
  - destruct (last_index p l) as [i|].
    + destruct IH as (b & Hb & Hp). exists b. split; [|done]. by apply lookup_app_l_Some.
    + intros b [Hb|Hb]%elem_of_app; [by apply IH|]. by apply list_elem_of_singleton in Hb as ->.
Qed.

Section Direct.
#[local] Set Default Proof Using "Type*".
Context (params : chainparams) (sha256 ripemd160 : list Z -> list Z).
Context (wlen : bool -> bitcoin_tx -> option nat) (wbytes : bool -> bitcoin_tx -> option (list Z)).

Lemma finish_keeps_outputs funding sats w o tx tx' :
  finish_commit_tx params sha256 wlen wbytes funding sats w o tx = Ret tx' ->
  Forall (fun x => out_script x <> []) (tx_outputs tx) ->
  exists rest, tx_outputs tx' = tx_outputs tx ++ rest
    /\ Forall (fun x => is_elements params = true /\ out_script x = [] /\ out_asset x = output_asset tx) rest.
Proof.
  unfold finish_commit_tx, bitcoin_tx_finalize, elements_tx_add_fee_output. intros H Hne.
  destruct (tx_version tx =? 2); [|done]. cbn [assert_then] in H.
  apply bind_Ret_inv in H as (tx1 & H & Hchk). destruct (bitcoin_tx_check _ _ _); [|done].
  apply Ret_inj in Hchk as <-. apply bind_Ret_inv in H as (fee & _ & H).
  destruct (is_elements params) eqn:Eel; cbn [negb] in H; [|apply Ret_inj in H as <-; exists []; cbn; by rewrite app_nil_r].
  destruct (list_find _ _) as [[i x]|] eqn:Ef.
  - exfalso. apply list_find_Some in Ef as (Hi & Hfee & _). apply list_elem_of_lookup_2 in Hi. cbn in Hi.
    rewrite Forall_forall in Hne. specialize (Hne x Hi). unfold elements_wtx_output_is_fee in Hfee.
    destruct (out_script x); [done|]. by rewrite andb_false_r in Hfee.
  - unfold bitcoin_tx_add_output in H. destruct (_ <? _); [|done]. apply Ret_inj in H as <-. eexists. split; [done|].
    constructor; [|done]. cbn. by rewrite Eel.
Qed.

(** The outputs of [initial_commit_tx], in closed form. *)
Lemma initial_commit_tx_inv funding sats asset fk opener delay ks f dust self oth reserve number s csv ao az tx direct :
  initial_commit_tx params sha256 ripemd160 wlen wbytes funding sats asset fk opener delay ks f dust self oth
    reserve number s csv ao az = Ret (inr (tx, direct)) ->
  exists fee self' oth' ast d,
    base_fee_with_anchors params f 0 ao az = Ret (Some fee)
    /\ try_subtract_fee opener s fee self oth = (true, self', oth')
    /\ direct_outs params sha256 ripemd160 ast fk.[s] fk.[other s] (bool_decide (s = other opener)) delay csv ks
         dust self' oth' 0 ao az (mark_null, dummy_to_remote, mark_null, mark_null) = Ret d
    /\ let slots := permute_outputs (direct_slots (fun _ => 0) 0 d) in
       direct = mk_sides (last_index (is_mark mark_null) slots) (last_index (is_mark dummy_to_remote) slots)
       /\ exists rest, tx_outputs tx = (slot_out <$> slots) ++ rest.
Proof.
  unfold initial_commit_tx. destruct (amount_msat_add self oth); [|done]. destruct (negb _); [|done].
  cbn [assert_then]. intros H. apply bind_Ret_inv in H as ([fee|] & Hfee & H); [|done].
  destruct (try_subtract_fee opener s fee self oth) as [[[] self'] oth'] eqn:Etry; cbn [negb] in H; [|done].
  destruct (_ && _); [done|].
  set (t0 := bitcoin_tx_set_output_asset params asset (bitcoin_tx_new params 4 0)) in *.
  assert (Ht0 : (t0, []) = built t0 []).
  { unfold built, t0, bitcoin_tx_set_output_asset. by destruct (is_elements params), asset. }
  rewrite Ht0 in H. rewrite add_direct_outs_built in H.
  2: { unfold t0, bitcoin_tx_set_output_asset, bitcoin_tx_new. destruct (is_elements params), asset; cbn; lia. }
  destruct (direct_outs _ _ _ _ _ _ _ _ _ _ _ _ _ _ _ _ _) as [d|] eqn:Ed; [|done].
  cbn [mbind outcome_bind so_far built app length] in H. apply bind_Ret_inv in H as (tx1 & Hfin & H).
  apply Ret_inj in H. injection H as -> <-. exists fee, self', oth', (output_asset t0), d.
  split_and!; [done|done|done|done|]. apply finish_keeps_outputs in Hfin as (rest & Hr & _); [by exists rest|].
  cbn [tx_outputs set_tx_outputs]. rewrite (proj1 (permute_outputs_sorts _)), direct_slots_out.
  revert Ed. intros Ed%(direct_outs_ind params sha256 ripemd160 (fun p => out_script (fst p) <> [])); try done.
  - by apply Forall_fmap.
  - intros c script amount _ Hs. cbn. intros ->. unfold to_remote_script in Hs. destruct (ao || az); [|done].
    by apply bind_Ret_inv in Hs as (? & _ & Hs).
Qed.

(** With anchors, the position [initial_commit_tx] reports for the output
    of the commitment's holder is wrong when that output is not there: its
    marker is the null pointer, which the anchors carry too, so where the
    holder's balance is dust the position is that of an anchor of 330
    satoshis. *)
Theorem initial_direct_local_is_anchor funding sats asset fk opener delay ks f dust self oth reserve number s csv ao az
    tx direct fee self' oth' :
  ao || az = true ->
  base_fee_with_anchors params f 0 ao az = Ret (Some fee) ->
  try_subtract_fee opener s fee self oth = (true, self', oth') ->
  amount_msat_greater_eq_sat self' dust = false -> amount_msat_greater_eq_sat oth' dust = true ->
  initial_commit_tx params sha256 ripemd160 wlen wbytes funding sats asset fk opener delay ks f dust self oth
    reserve number s csv ao az = Ret (inr (tx, direct)) ->
  exists i o, direct.[LOCAL] = Some i /\ tx_outputs tx !! i = Some o /\ satoshis (out_satoshi o) = 330
    /\ exists w, bitcoin_wscript_anchor fk.[other s] = Ret w /\ out_script o = scriptpubkey_p2wsh sha256 w.
Proof.
  intros Hanch Hfee Htry Hself Hoth H.
  apply initial_commit_tx_inv in H as (fee0 & s0 & o0 & ast & d & Hfee0 & Htry0 & Hd & -> & rest & ->).
  rewrite Hfee in Hfee0. injection Hfee0 as <-. rewrite Htry in Htry0. injection Htry0 as <- <-.
  unfold direct_outs in Hd. rewrite Hself, Hoth, Hanch in Hd. cbn [orb andb negb Z.eqb] in Hd.
  apply bind_Ret_inv in Hd as (l2 & H2 & Hd). apply bind_Ret_inv in H2 as (script & _ & H2). apply Ret_inj in H2 as <-.
  cbn [mbind outcome_bind] in Hd. apply bind_Ret_inv in Hd as (l4 & H4 & Hd).
  apply bind_Ret_inv in H4 as (w & Hw & H4). apply Ret_inj in H4 as <-. apply Ret_inj in Hd as <-.
  set (slots := permute_outputs _). pose proof (last_index_spec (is_mark mark_null) slots) as Hl.
  assert (Hin : forall sl, sl ∈ slots -> is_mark mark_null sl = true ->
            slot_out sl = out_of params ast (scriptpubkey_p2wsh sha256 w) (mk_sat 330)).
  { intros sl Hsl. unfold slots in Hsl. rewrite (proj1 (permute_outputs_sorts _)) in Hsl. cbn in Hsl.
    apply elem_of_cons in Hsl as [->|Hsl]; [done|]. by apply list_elem_of_singleton in Hsl as ->. }
  cbn [sel at_local]. destruct (last_index (is_mark mark_null) slots) as [i|].
  - destruct Hl as (sl & Hi & Hm). exists i, (slot_out sl).
    rewrite (Hin sl) by (done || by eapply list_elem_of_lookup_2). split_and!; [done| |done|by eexists].
    apply lookup_app_l_Some. rewrite list_lookup_fmap, Hi. cbn. f_equal.
    apply Hin; [by eapply list_elem_of_lookup_2|done].
  - exfalso. enough (Hsl : mk_slot (out_of params ast (scriptpubkey_p2wsh sha256 w) (mk_sat 330)) mark_null 0 ∈ slots)
      by discriminate (Hl _ Hsl).
    unfold slots. rewrite (proj1 (permute_outputs_sorts _)). cbn. right. left.
Qed.
End Direct.
