(* ===== verification/Example.v ===== *)
(** * Channels to evaluate

    Two concrete channels and what becomes of them: the inputs at which the
    theorems of the following files are instantiated. *)

From stdpp Require Import list strings.
From S2P Require Import Prelude Chainparams Amount HtlcState FeeStates CommitFee Features ChannelState Channel.
Local Open Scope Z_scope.

(** What an evaluation results in. *)
Definition some {A} (o : option A) : match o with Some _ => A | None => unit end :=
  match o with Some a => a | None => tt end.
Definition ret {A} (o : outcome A) : match o with Ret _ => A | Crash => unit end :=
  match o with Ret a => a | Crash => tt end.

Definition net : chainparams := Eval vm_compute in some (chainparams_for_network "regtest").

Definition conf : channel_config :=
  mk_config 1 (mk_sat 546) (mk_msat UINT64_MAX) (mk_sat 10000) (mk_msat 0) 6 483 (mk_msat 50000000).

(** Stands for the hash: a preimage opens itself. *)
Definition no_hash (l : list Z) : list Z := l.
Definition no_point (_ _ : list Z) : bool := false.

(** The remote side opened a channel of one million satoshis with us. *)
Abbreviation start lanes lane_msat swap existing :=
  (init_channel net [] (mk_outpoint [] 0) 3 (Some (new_height_states REMOTE (Some 100))) 0
    (mk_sat 1000000) (mk_msat 600000000) (new_fee_states REMOTE (Some 253)) conf conf 0
    channel_type_static_remotekey true REMOTE [] lanes lane_msat swap None existing).

Definition open_channel : channel := Eval vm_compute in ret (start [] [] None []).
Lemma open_channel_ok : start [] [] None [] = Ret open_channel.
Proof. vm_compute. reflexivity. Qed.

(** It offers 50,000,000 msat and commits to it. *)
Definition offered : add_result := Eval vm_compute in
  ret (channel_add_lane_htlc net open_channel REMOTE 0 (mk_msat 50000000) 500 [7] [] None None false 0).
Lemma offered_ok :
  channel_add_lane_htlc net open_channel REMOTE 0 (mk_msat 50000000) 500 [7] [] None None false 0 = Ret offered.
Proof. vm_compute. reflexivity. Qed.

Definition committed_once : bool * list htlc * channel := Eval vm_compute in
  ret (channel_rcvd_commit (add_chan offered)).
Definition half_way : channel := Eval vm_compute in snd committed_once.
Lemma half_way_ok : channel_rcvd_commit (add_chan offered) = Ret (fst (fst committed_once), snd (fst committed_once), half_way).
Proof. vm_compute. reflexivity. Qed.

(** The dance goes on until both sides are bound to the HTLC. *)
Definition step2 := Eval vm_compute in ret (channel_sending_revoke_and_ack half_way).
Lemma step2_ok : channel_sending_revoke_and_ack half_way = Ret step2.
Proof. vm_compute. reflexivity. Qed.
Definition step3 := Eval vm_compute in ret (channel_sending_commit (snd step2)).
Lemma step3_ok : channel_sending_commit (snd step2) = Ret step3.
Proof. vm_compute. reflexivity. Qed.
Definition step4 := Eval vm_compute in ret (channel_rcvd_revoke_and_ack (snd step3)).
Lemma step4_ok : channel_rcvd_revoke_and_ack (snd step3) = Ret step4.
Proof. vm_compute. reflexivity. Qed.
Definition bound : channel := Eval vm_compute in snd step4.
