(* ===== verification/CommitExample.v ===== *)
(** * Commitment transactions to evaluate

    A commitment on a chain with explicit fees, at which the theorems on
    commitment transactions are instantiated.  The digests and the group are
    the ones of the examples of [Script] and [Keys]; serialization is empty. *)

From stdpp Require Import list strings.
From S2P Require Import Prelude Chainparams Amount HtlcState FeeStates CommitFee Features Script Keys Tapscript ChannelState Tx SymScripts SymState Channel SymChannel CommitTx CommitAgree CommitMirror CommitValue Example.
Import Toy.
Local Open Scope Z_scope.

Definition seqnet : chainparams := Eval vm_compute in some (chainparams_for_network "sequentia-regtest").
Abbreviation sha := (toy_digest 32).
Abbreviation rip := (toy_digest 20).
Definition no_len (_ : bool) (_ : bitcoin_tx) : option nat := Some 0%nat.
Definition no_bytes (_ : bool) (_ : bitcoin_tx) : option (list Z) := Some [].
Definition no_junk (_ : nat) : Z := 77.

Definition key (n : Z) : list Z := Toy.point n.
Definition ex_keys : keyset := mk_keyset (key 1) (key 2) (key 3) (key 4) (key 5) (key 6).
Definition ex_htlc : htlc :=
  mk_htlc RCVD_ADD_ACK_REVOCATION 0 (mk_msat 50000000) 500 [7] None None 0 None [] None None false.

(** The commitment of [s] in that channel, on a network, with anchors or not. *)
Abbreviation ex_commit net s self oth ao :=
  (commit_tx net sha rip no_len no_bytes (mk_outpoint [9] 0) (mk_sat 1000000) (key 10) (key 11) REMOTE 6 0 100
    ex_keys 253 (mk_sat 546) (mk_msat self) (mk_msat oth) [ex_htlc] true
    (Z.lxor 5 (commit_number_obscurer sha (key 20) (key 21))) ao false s sequentia_regtest_fee_asset no_junk).

Definition ex_com : commitment := Eval vm_compute in ret (ex_commit seqnet LOCAL 600000000 350000000 false).
Lemma ex_com_ok : ex_commit seqnet LOCAL 600000000 350000000 false = Ret ex_com.
Proof. vm_compute. reflexivity. Qed.

Lemma ex_plain : Forall plain [ex_htlc].
Proof. repeat constructor; cbn; lia. Qed.

Lemma commit_tx_leaves_fee_witness :
  length (tx_outputs (com_tx ex_com)) = 4%nat /\
  exists outs fee, tx_outputs (com_tx ex_com)
      = outs ++ [mk_output (mk_sat (1000000 - out_total outs)) [] sequentia_regtest_fee_asset]
    /\ out_total outs + fee <= 1000000 /\ 0 < fee.
Proof.
  split; [reflexivity|].
  destruct (commit_tx_leaves_fee seqnet sha rip no_len no_bytes (mk_outpoint [9] 0) (mk_sat 1000000) (key 10) (key 11)
    REMOTE 6 0 100 ex_keys 253 (mk_sat 546) (mk_msat 600000000) (mk_msat 350000000) [ex_htlc] true
    (Z.lxor 5 (commit_number_obscurer sha (key 20) (key 21))) false false LOCAL sequentia_regtest_fee_asset no_junk
    ex_com (mk_sat 382)) as (outs & E & H).
  - lia.
  - cbn; lia.
  - cbn; lia.
  - cbn; lia.
  - cbn; lia.
  - apply ex_plain.
  - by intros _.
  - cbn; lia.
  - vm_compute. reflexivity.
  - cbn; lia.
  - vm_compute; discriminate.
  - apply ex_com_ok.
  - exists outs, 382. cbn in E, H. split_and!; [exact E|lia|lia].
Defined.

Lemma commitment_number_reads_back_witness :
  exists i, tx_inputs (com_tx ex_com) = [i]
    /\ unmask_commit_number sha (in_sequence i) (tx_locktime (com_tx ex_com)) REMOTE
         (mk_sides (key 21) (key 20)) = 5.
Proof.
  apply (commitment_number_reads_back seqnet sha rip no_len no_bytes (mk_outpoint [9] 0) (mk_sat 1000000)
    (key 10) (key 11) REMOTE 6 0 100 ex_keys 253 (mk_sat 546) (mk_msat 600000000) (mk_msat 350000000) [ex_htlc] true
    5 false false LOCAL sequentia_regtest_fee_asset no_junk ex_com (mk_sides (key 21) (key 20)) REMOTE).
  - lia.
  - cbn; lia.
  - apply ex_plain.
  - lia.
  - apply ex_com_ok.
Defined.

(** The other side opened with us and we have nothing yet, with anchors. *)
Abbreviation ex_initial :=
  (initial_commit_tx net sha rip no_len no_bytes (mk_outpoint [9] 0) (mk_sat 1000000) None
    (mk_sides (key 10) (key 11)) REMOTE 6 ex_keys 253 (mk_sat 546) (mk_msat 0) (mk_msat 1000000000)
    (mk_sat 10000) 5 LOCAL 1 true false).
Definition ex_initial_tx : bitcoin_tx * sides (option nat) := Eval vm_compute in
  match ex_initial with Ret (inr r) => r | _ => (mk_tx 0 0 [] [] 0 [], mk_sides None None) end.
Lemma ex_initial_ok : ex_initial = Ret (inr ex_initial_tx).
Proof. vm_compute. reflexivity. Qed.

Lemma initial_direct_local_is_anchor_witness :
  exists i o, (snd ex_initial_tx).[LOCAL] = Some i /\ tx_outputs (fst ex_initial_tx) !! i = Some o
    /\ satoshis (out_satoshi o) = 330.
Proof.
  destruct (initial_direct_local_is_anchor net sha rip no_len no_bytes (mk_outpoint [9] 0) (mk_sat 1000000) None
    (mk_sides (key 10) (key 11)) REMOTE 6 ex_keys 253 (mk_sat 546) (mk_msat 0) (mk_msat 1000000000)
    (mk_sat 10000) 5 LOCAL 1 true false (fst ex_initial_tx) (snd ex_initial_tx) (mk_sat 944) (mk_msat 0)
    (mk_msat 999056000)) as (i & o & H1 & H2 & H3 & _).
  - reflexivity.
  - vm_compute. reflexivity.
  - vm_compute. reflexivity.
  - reflexivity.
  - reflexivity.
  - apply ex_initial_ok.
  - exists i, o. split_and!; done.
Defined.

(** The channel of [Example] with its HTLC, as the side that opened it has
    it. *)
Abbreviation peer_start :=
  (init_channel Example.net [] (mk_outpoint [] 0) 3 (Some (new_height_states LOCAL (Some 100))) 0
    (mk_sat 1000000) (mk_msat 400000000) (new_fee_states LOCAL (Some 253)) conf conf 0
    channel_type_static_remotekey true LOCAL [] [] [] None None []).
Definition peer_bound : channel := Eval vm_compute in
  ret (c ← peer_start;
       r ← channel_add_lane_htlc Example.net c LOCAL 0 (mk_msat 50000000) 500 [7] [] None None false 0;
       '(_, _, c) ← channel_sending_commit (add_chan r);
       '(_, _, c) ← channel_rcvd_revoke_and_ack c;
       '(_, _, c) ← channel_rcvd_commit c;
       '(_, c) ← channel_sending_revoke_and_ack c;
       Ret c).

(** Both sides' keys, as the one that was opened to and the opener have them. *)
Definition bases (n : Z) : basepoints := mk_basepoints (key n) (key (n + 1)) (key (n + 2)) (key (n + 3)).
Definition our_keys : channel_keys := mk_channel_keys (mk_sides (key 10) (key 11)) (mk_sides (bases 20) (bases 30)) None.
Definition their_keys : channel_keys := mk_channel_keys (mk_sides (key 11) (key 10)) (mk_sides (bases 30) (bases 20)) None.
(** Taproot outputs: the digest of the key and the root, and signatures that
    are the key and the message. *)
#[export] Instance taproot : Taproot := {|
  bip341_tweak key root := Some (2 :: sha (key ++ root));
  schnorr_sign msg secret := (fun k => pubkey_to_xonly k ++ msg) <$> ec_pubkey_create secret;
  schnorr_verify sig msg x := bool_decide (sig = x ++ msg);
|}.
#[export] Instance issuance : Issuance := {|
  issuance_generate_entropy txid n contract := Some (sha (txid ++ [n] ++ contract));
  issuance_calculate_asset entropy := Some (sha entropy);
|}.
(** A sort by insertion. *)
Fixpoint insert_by {A} (cmp : A -> A -> comparison) (x : A) (l : list A) : list A :=
  match l with
  | [] => [x]
  | y :: l => match cmp x y with Gt => y :: insert_by cmp x l | _ => x :: y :: l end
  end.
Definition sort_by {A} (cmp : A -> A -> comparison) (l : list A) : list A := foldr (insert_by cmp) [] l.

Abbreviation ex_txs keys c s fp :=
  (channel_txs_of Example.net sha rip no_len no_bytes (mk_outpoint [9] 0) (mk_sat 1000000) keys c
     (key 50) 2 s 0 0 fp true no_junk).

Lemma ex_mirrors : mirrors LOCAL REMOTE bound peer_bound.
Proof. by constructor. Qed.

(** No two scripts of a list have the same hash. *)
Definition distinct_digests (l : list (list Z)) : bool :=
  forallb (fun w => forallb (fun w' => bool_decide (sha w = sha w' -> w = w')) l) l.
Lemma collision_free_list P l : (forall w, P w -> w ∈ l) -> distinct_digests l = true -> collision_free sha P.
Proof.
  intros HP Hd w w' Hw Hw'. unfold distinct_digests in Hd. rewrite forallb_forall in Hd.
  specialize (Hd w). rewrite forallb_forall in Hd.
  exact (bool_decide_eq_true_1 _ (Hd (proj1 (list_elem_of_In _ _) (HP _ Hw)) w' (proj1 (list_elem_of_In _ _) (HP _ Hw')))).
Qed.

Definition ex_keyset : keyset := Eval vm_compute in some (derive_keyset sha (key 50) (bases 20) (bases 30) true).
Definition ex_wscripts (c : channel) (s : side) : list (list Z) :=
  (htlc_wscript sha rip ex_keyset false false s <$> committed (gather_htlcs c s))
  ++ [to_self_wscript 6 0 ex_keyset; to_self_wscript 6 1 ex_keyset]
  ++ omap (fun o => match o with Ret w => Some w | Crash => None end)
       [bitcoin_wscript_to_remote_anchored (other_payment_key ex_keyset) 1; bitcoin_wscript_anchor (key 10);
        bitcoin_wscript_anchor (key 11)].

Lemma ex_distinct c s keys fp :
  derive_keyset sha (key 50) (chan_basepoints keys).[s] (chan_basepoints keys).[other s]
    (channel_has c OPT_STATIC_REMOTEKEY) = Some ex_keyset ->
  channel_feerate c s = Ret 253 -> channel_blockheight c s = Ret 100 -> lease_expiry c = 0 ->
  to_self_delay (config c).[other s] = 6 -> has_anchor_outputs c = false -> has_zero_fee_anchors c = false ->
  fp.[s] = key 10 -> fp.[other s] = key 11 -> distinct_digests (ex_wscripts c s) = true ->
  scripts_distinct Example.net sha rip c s keys fp (key 50).
Proof.
  intros Ek Ef Eh El Ed Eao Eaz E1 E2 Hdd ks f height Hk Hf Hh. rewrite Ek in Hk. injection Hk as <-.
  rewrite Ef in Hf. injection Hf as <-. rewrite Eh in Hh. injection Hh as <-. rewrite El, Ed, Eao, Eaz, E1, E2.
  apply (collision_free_list _ (ex_wscripts c s)); [|done].
  intros w [(h & Hh & ->)|[(l & Hc & ->)|[(l & Hc & Hw)|[Hw|Hw]]]];
    unfold ex_wscripts; rewrite !elem_of_app.
  - left. apply list_elem_of_fmap. exists h. split; [done|]. unfold untrimmed in Hh.
    apply list_elem_of_In, filter_In in Hh as [Hh _]. by apply list_elem_of_In.
  - right; left. destruct Hc as [-> | ->]; [by left|]. change (csv_lock_of 0 100) with 1. right; by left.
  - right; right. apply list_elem_of_omap. exists (Ret w). split; [|done]. rewrite <- Hw.
    destruct Hc as [-> | ->]; by left.
  - right; right. apply list_elem_of_omap. exists (Ret w). split; [|done]. rewrite <- Hw. right; by left.
  - right; right. apply list_elem_of_omap. exists (Ret w). split; [|done]. rewrite <- Hw. right; right; by left.
Qed.
Lemma ex_scripts_distinct :
  scripts_distinct Example.net sha rip bound LOCAL our_keys (mk_sides (key 10) (key 11)) (key 50).
Proof. apply ex_distinct; by vm_compute. Qed.

Lemma ex_data_ok c s :
  conf_dust_limit (config c).[s] = mk_sat 546 -> channel_feerate c s = Ret 253 ->
  (fun h => (h_amount h, h_expiry h)) <$> committed (gather_htlcs c s) = [(mk_msat 50000000, 500)] ->
  commit_data_ok c s.
Proof.
  intros Hd Hf Hh. split; [|split].
  - rewrite Hd. by cbn.
  - intros f Ef. assert (Ret 253 = Ret f) as [= <-] by (etrans; [symmetry; exact Hf|exact Ef]). done.
  - destruct (committed _) as [|h [|]]; try done. injection Hh as E1 E2. constructor; [|done].
    unfold plain. rewrite E1, E2. split; vm_compute; [split; discriminate|done].
Qed.

Lemma both_sides_build_same_txs_witness :
  fmap (M := outcome) signed_txs (ex_txs our_keys bound LOCAL (mk_sides (key 10) (key 11)))
  = fmap (M := outcome) signed_txs (ex_txs their_keys peer_bound REMOTE (mk_sides (key 11) (key 10))).
Proof.
  apply (both_sides_build_same_txs Example.net sha rip no_len no_bytes).
  - apply ex_mirrors.
  - by repeat split.
  - reflexivity.
  - apply ex_data_ok; by vm_compute.
  - apply ex_data_ok; by vm_compute.
  - reflexivity.
  - reflexivity.
  - reflexivity.
  - intros _. apply ex_scripts_distinct.
Defined.
