(* ===== verification/Penalty.v ===== *)
(** * What is kept to punish a revoked commitment

    The penalty base [send_commit_part] makes of the peer's commitment names
    every output of it that can be taken once it is revoked. *)

From stdpp Require Import list.
From S2P Require Import Prelude Chainparams Amount HtlcState FeeStates CommitFee Features Script Shachain Keys Tapscript ChannelState Tx SymScripts SymState Channel SymChannel CommitTx Signature PeerState Peer Signer CommitAgree CommitMirror CommitValue.
Local Open Scope Z_scope.

Section Outputs.
#[local] Set Default Proof Using "Type*".
Context (params : chainparams) (sha256 ripemd160 : list Z -> list Z).
Context (wlen : bool -> bitcoin_tx -> option nat) (wbytes : bool -> bitcoin_tx -> option (list Z)).
Context `{!Digest sha256 32, !Digest ripemd160 20}.

(** The map of a commitment tells what its outputs are. *)
Record outputs_named (com : commitment) (asset : list Z) (ks : keyset) (ao az : bool) (s : side) (u : list htlc)
    (delay : Z) : Prop := {
  named_htlc n h : com_htlcmap com !! n = Some (Some h) ->
    h ∈ u /\ tx_outputs (com_tx com) !! n = Some (slot_out (htlc_slot params sha256 ripemd160 asset ks ao az s h));
  named_all h : h ∈ u -> exists n, com_htlcmap com !! n = Some (Some h);
  named_local n : (com_direct com).[LOCAL] = Some n ->
    exists o csv, tx_outputs (com_tx com) !! n = Some o
      /\ out_script o = scriptpubkey_p2wsh sha256 (to_self_wscript delay csv ks);
}.

Lemma commit_of_named funding sats w number tx asset ks ao az s u delay junk d com :
  commit_of params sha256 wlen wbytes funding sats w number tx (commit_slots params sha256 ripemd160 asset ks ao az s u junk d)
    = Ret com ->
  Forall (fun x => out_script (fst x) <> []) d -> (forall x h, x ∈ d -> snd x <> mark_htlc h) ->
  (forall x, x ∈ d -> snd x = dummy_to_local ->
     exists csv, out_script (fst x) = scriptpubkey_p2wsh sha256 (to_self_wscript delay csv ks)) ->
  outputs_named com asset ks ao az s u delay.
Proof.
  unfold commit_of. intros E Hne Hm Hl. destruct (0 <? _); [|done]. cbn [assert_then] in E.
  apply bind_Ret_inv in E as (tx' & Et & E). injection E as <-.
  set (slots := commit_slots _ _ _ _ _ _ _ _ _ _ _) in *.
  destruct (permute_outputs_sorts slots) as [Hperm _].
  assert (Hin : forall sl, sl ∈ permute_outputs slots ->
     (exists h, h ∈ u /\ sl = htlc_slot params sha256 ripemd160 asset ks ao az s h)
     \/ (exists x c, x ∈ d /\ sl = mk_slot (fst x) (snd x) c)).
  { intros sl. rewrite Hperm. unfold slots, commit_slots. intros [H|H]%elem_of_app.
    - left. apply list_elem_of_fmap in H as (h & -> & Hh). rewrite kinds_perm in Hh. eauto.
    - right. apply elem_of_lookup_imap in H as (i & [o m] & -> & Hom). apply list_elem_of_lookup_2 in Hom. by eexists (o, m), _. }
  apply finish_keeps_outputs in Et as (rest & Et & _).
  2: { cbn. rewrite Forall_fmap, Forall_forall. intros sl Hsl. cbn. destruct (Hin sl Hsl) as [(h & _ & ->)|(x & c & Hx & ->)].
       - cbn. done.
       - rewrite Forall_forall in Hne. by apply (Hne x). }
  split; cbn [com_tx com_htlcmap com_direct].
  - intros n h Hn. apply list_lookup_fmap_Some in Hn as (sl & Esl & Hsl).
    pose proof (list_elem_of_lookup_2 _ _ _ Hsl) as He. rewrite Et.
    rewrite lookup_app_l by (cbn; rewrite length_fmap; by eapply lookup_lt_Some).
    cbn. rewrite list_lookup_fmap, Hsl. cbn. destruct (Hin sl He) as [(h' & Hh & ->)|(x & c & Hx & ->)].
    + cbn in Esl. injection Esl as ->. done.
    + cbn in Esl. exfalso. destruct (snd x) eqn:Ex; try done. by eapply Hm.
  - intros h Hh. assert (He : htlc_slot params sha256 ripemd160 asset ks ao az s h ∈ permute_outputs slots).
    { rewrite Hperm. apply elem_of_app. left. apply list_elem_of_fmap. exists h. split; [done|]. by rewrite kinds_perm. }
    apply list_elem_of_lookup_1 in He as [n Hn]. exists n. change (map ?f ?l) with (f <$> l). rewrite list_lookup_fmap, Hn. done.
  - cbn [sel at_local]. intros n Hn. pose proof (last_index_spec (is_mark dummy_to_local) (permute_outputs slots)) as Hli.
    rewrite Hn in Hli. destruct Hli as (sl & Hsl & Hmark). rewrite Et.
    rewrite lookup_app_l by (cbn; rewrite length_fmap; by eapply lookup_lt_Some).
    cbn. rewrite list_lookup_fmap, Hsl. cbn. destruct (Hin sl (list_elem_of_lookup_2 _ _ _ Hsl)) as [(h & _ & ->)|(x & c & Hx & ->)]; [done|].
    cbn in *. unfold is_mark in Hmark. cbn in Hmark. destruct (Hl x Hx) as [csv Hcsv]; [by destruct (snd x)|]. by eexists _, csv.
Qed.

Lemma commit_tx_named funding sats lk rk opener delay lease height ks f dust self oth l number ao az s asset junk com :
  in_u32 f -> wf_sat dust -> Forall plain l ->
  commit_tx params sha256 ripemd160 wlen wbytes funding sats lk rk opener delay lease height ks f dust self oth l
    true number ao az s asset junk = Ret com ->
  exists n, outputs_named com (output_asset (tx0 params asset n)) ks ao az s (untrimmed params f dust ao az s l) delay.
Proof.
  intros Hf Hd Hl. rewrite commit_tx_closed by done. destruct (amount_msat_add self oth); [|done].
  destruct (negb _); [|done]. cbn [assert_then]. intros E. apply bind_Ret_inv in E as (fee & _ & E).
  destruct fee as [fee|]; [|done]. destruct (try_subtract_fee _ _ _ _ _) as [[ok self'] oth'].
  apply bind_Ret_inv in E as (d & Hdir & E). eexists. revert E. unfold marks_of in Hdir. intros E.
  eapply commit_of_named; [exact E|..].
  - revert Hdir. apply direct_outs_ind; try done. intros c script amount _ Hs. cbn.
    unfold to_remote_script in Hs. destruct (ao || az); [apply bind_Ret_inv in Hs as (? & _ & Hs)|]; by injection Hs as <-.
  - assert (HF : Forall (fun x : tx_output * mark => forall h, snd x <> mark_htlc h) d) by (revert Hdir; by apply direct_outs_ind).
    intros x h Hx. rewrite Forall_forall in HF. by apply HF.
  - assert (HF : Forall (fun x : tx_output * mark => snd x = dummy_to_local ->
      exists csv, out_script (fst x) = scriptpubkey_p2wsh sha256 (to_self_wscript delay csv ks)) d).
    { revert Hdir. apply direct_outs_ind; try done. intros. cbn. eauto. }
    by rewrite Forall_forall in HF.
Qed.
End Outputs.

Section Complete.
#[local] Set Default Proof Using "Type*".
Context (params : chainparams) (sha256 ripemd160 : list Z -> list Z).
Context (wlen : bool -> bitcoin_tx -> option nat) (wbytes : bool -> bitcoin_tx -> option (list Z)).
Context `{!Digest sha256 32, !Digest ripemd160 20}.

(** The entry of a penalty base for an HTLC output. *)
Definition names_htlc (tx : bitcoin_tx) (b : penalty_base) (n : nat) (h : htlc) : Prop :=
  exists ph o a, ph ∈ pb_htlcs b /\ ph_outnum ph = Z.of_nat n /\ tx_outputs tx !! n = Some o
    /\ wally_tx_output_get_amount params o = Ret a /\ ph_amount ph = mk_sat (asset_value a)
    /\ ph_payment_hash ph = h_rhash h /\ ph_cltv_expiry ph = h_expiry h
    /\ ph_remote_offered ph = bool_decide (htlc_owner h = REMOTE).

(** What the loop does not change. *)
Definition extends (num : Z) (tx : bitcoin_tx) (pbase : option penalty_base) (b : penalty_base) : Prop :=
  match pbase with
  | Some b0 => commitment_num b = commitment_num b0 /\ pb_txid b = pb_txid b0 /\ pb_outnum b = pb_outnum b0
               /\ pb_amount b = pb_amount b0 /\ pb_htlcs b0 `prefix_of` pb_htlcs b
  | None => commitment_num b = num /\ bitcoin_txid sha256 wlen wbytes tx = Ret (pb_txid b)
  end.

Lemma names_extends tx b0 b n h num : names_htlc tx b0 n h -> extends num tx (Some b0) b -> names_htlc tx b n h.
Proof.
  intros (ph & o & a & Hph & H) (_ & _ & _ & _ & [k Hk]). exists ph, o, a. split; [|done]. rewrite Hk. apply elem_of_app. by left.
Qed.
Lemma extends_trans num tx p b0 b : extends num tx p b0 -> extends num tx (Some b0) b -> extends num tx p b.
Proof.
  destruct p as [p|]; cbn; [intros (-> & -> & -> & -> & H1) (-> & -> & -> & -> & H2)|intros (-> & H) (-> & -> & _)]; [|done].
  split_and!; try done. by etrans.
Qed.

(** Every HTLC output in the channel's asset is named. *)
Lemma penalty_htlcs_names c tx num n m stage2s pbase r :
  penalty_htlcs params sha256 wlen wbytes c tx num n m stage2s pbase = Ret r ->
  (forall i h o a, m !! i = Some (Some h) -> tx_outputs tx !! (n + i)%nat = Some o ->
     wally_tx_output_get_amount params o = Ret a -> amount_asset_is params a (channel_asset c) = true ->
     exists b, r = Some b /\ names_htlc tx b (n + i) h)
  /\ (forall b, pbase = Some b -> exists b', r = Some b' /\ extends num tx (Some b) b')
  /\ (forall b, r = Some b -> extends num tx pbase b).
Proof.
  revert n stage2s pbase. induction m as [|[h|] m IH]; intros n stage2s pbase E; cbn [penalty_htlcs] in E.
  - injection E as <-. split; [done|]. split; [intros b ->; exists b; cbn; by split_and!|].
    intros b ->. cbn. by split_and!.
  - destruct stage2s as [|[stage2|] stage2s]; try done. apply bind_Ret_inv in E as (txid2 & _ & E).
    apply bind_Ret_inv in E as (out2 & _ & E). apply bind_Ret_inv in E as (asset2 & _ & E).
    apply bind_Ret_inv in E as (out & Eo & E). apply bind_Ret_inv in E as (asset & Ea & E).
    destruct (tx_outputs tx !! n) as [o'|] eqn:El; [|done]. injection Eo as ->.
    destruct (amount_asset_is params asset (channel_asset c)) eqn:Eis; cbn [negb] in E.
    + apply bind_Ret_inv in E as (base & Eb & E). destruct (IH _ _ _ E) as (N & P & X). set (b1 := penalty_base_add_htlc _ _ _ _ _ _ _ _) in *.
      destruct (P b1 eq_refl) as (b & -> & Hx). split; [|split].
      * intros [|i] k o a Hk Ho Ha Hais.
        -- injection Hk as <-. rewrite Nat.add_0_r in *. rewrite El in Ho. injection Ho as <-. rewrite Ea in Ha. injection Ha as <-.
           exists b. split; [done|]. eapply names_extends; [|exact Hx].
           eexists _, out, asset. split; [unfold b1; cbn; apply elem_of_app; right; by apply list_elem_of_singleton|]. done.
        -- destruct (N i k o a Hk) as (b' & [= <-] & Hb'); [by replace (S n + i)%nat with (n + S i)%nat by lia|done|done|].
           exists b. split; [done|]. by replace (n + S i)%nat with (S n + i)%nat by lia.
      * intros b0 ->. injection Eb as <-. exists b. split; [done|]. eapply extends_trans; [|exact Hx]. cbn. split_and!; try done. by eexists.
      * intros b' [= <-]. eapply extends_trans; [|exact Hx]. destruct pbase as [b0|]; [injection Eb as <-; cbn; split_and!; try done; by eexists|].
        unfold penalty_base_new_htlcs_only in Eb. apply bind_Ret_inv in Eb as (id & Eid & Eb). injection Eb as <-. done.
    + destruct (IH _ _ _ E) as (N & P & X). split; [|done]. intros [|i] k o a Hk Ho Ha Hais.
      * rewrite Nat.add_0_r in Ho. rewrite El in Ho. injection Ho as <-. congruence.
      * replace (n + S i)%nat with (S n + i)%nat in * by lia. by eapply N.
  - destruct (IH _ _ _ E) as (N & P & X). split; [|done]. intros [|i] k o a Hk Ho Ha Hais; [done|].
    replace (n + S i)%nat with (S n + i)%nat in * by lia. by eapply N.
Qed.

Lemma get_amount_of asset script amount n (o := wally_tx_output_asset params script amount (output_asset (tx0 params asset n))) :
  (is_elements params = true -> length asset = 33%nat /\ byte asset 0 = 1) ->
  exists a, wally_tx_output_get_amount params o = Ret a /\ mk_sat (asset_value a) = amount
    /\ amount_asset_is params a asset = true.
Proof.
  intros Hexp. subst o. unfold wally_tx_output_get_amount, wally_tx_output_asset, amount_asset_is, tx0, bitcoin_tx_set_output_asset.
  destruct (is_elements params) eqn:Ee; cbn [negb out_asset out_satoshi output_asset].
  - destruct (Hexp eq_refl) as [Hl Hb]. rewrite Hl, Nat.eqb_refl, Hb. cbn [assert_then Z.eqb Pos.eqb].
    eexists. split; [done|]. split; [by destruct amount|]. by apply bool_decide_eq_true_2.
  - eexists. split; [done|]. by destruct amount.
Qed.

Context `{!Secp256k1} (keys : channel_keys) (junk : nat -> Z) (funding : outpoint) (funding_sats : amount_sat_t).
Context `{!Taproot, !Issuance}.
Notation txs_of c point index :=
  (channel_txs params sha256 ripemd160 wlen wbytes funding funding_sats keys c point index REMOTE 0 0
     (funding_pubkey keys) true junk).
Notation keyset_of c point :=
  (derive_keyset sha256 point (chan_basepoints keys).[REMOTE] (chan_basepoints keys).[LOCAL] (channel_has c OPT_STATIC_REMOTEKEY)).

Lemma channel_txs_named c point index com txs f ks :
  channel_has c OPT_SEQ_SYMMETRIC = false -> channel_has c OPT_SEQ_TAPROOT_COVENANT = false ->
  commit_data_ok c REMOTE -> channel_feerate c REMOTE = Ret f -> keyset_of c point = Some ks ->
  txs_of c point index = Ret (Some (com, txs)) ->
  exists n, outputs_named params sha256 ripemd160 com (output_asset (tx0 params (channel_asset c) n)) ks
    (has_anchor_outputs c) (has_zero_fee_anchors c) REMOTE
    (untrimmed params f (conf_dust_limit (config c).[REMOTE]) (has_anchor_outputs c) (has_zero_fee_anchors c) REMOTE
       (committed (gather_htlcs c REMOTE))) (to_self_delay (config c).[LOCAL]).
Proof.
  intros Hs Ht (Hdust & Hfee & Hpl) Ef Hks E. unfold channel_txs in E. cbn [other] in E. rewrite Hks, Hs, Ht, Ef in E.
  destruct (amount_msat_add_sat_s64 _ _); [|done]. destruct (amount_msat_add_sat_s64 _ _); [|done].
  apply bind_Ret_inv in E as (height & _ & E). cbn [mbind outcome_bind] in E.
  apply bind_Ret_inv in E as (com1 & E1 & E). apply bind_Ret_inv in E as (txs1 & _ & E). injection E as -> ->.
  eapply commit_tx_named; [typeclasses eauto..|by apply Hfee|done|done|exact E1].
Qed.

End Complete.
