(* ===== verification/SignerFacts.v ===== *)
(** * Signatures that are accepted

    A commitment one side signs is one the other side accepts, and what is kept
    of it names every output there is to punish. *)

From stdpp Require Import list.
From S2P Require Import Prelude Chainparams Amount HtlcState Features Script Shachain Keys Tapscript ChannelState Tx SymScripts SymState Channel SymChannel CommitTx Signature PeerState Peer Signer CommitAgree CommitMirror.
Local Open Scope Z_scope.

Section SignerFacts.
#[local] Set Default Proof Using "Type*".
Context (params : chainparams) (sha256 ripemd160 : list Z -> list Z).
Context (wlen : bool -> bitcoin_tx -> option nat) (wbytes : bool -> bitcoin_tx -> option (list Z)).
Context `{!Digest sha256 32, !Digest ripemd160 20}.
Context `{!Secp256k1, !Secp256k1Laws _} `{!Ecdsa, !EcdsaLaws _ _} (no_grind : bool) (attempts : nat).
Context (conf_value : Z -> option (list Z))
        (elements_hash : bitcoin_tx -> nat -> list Z -> list Z -> Z -> option (list Z))
        (btc_hash : bitcoin_tx -> nat -> list Z -> Z -> Z -> option (list Z)).
Context (hkdf : nat -> list Z -> list Z -> list Z -> outcome (list Z)).
Notation check_tx_sig := (check_tx_sig params conf_value elements_hash btc_hash).

(** ** Second-stage transactions *)

Lemma finalize_inputs tx tx' : bitcoin_tx_finalize params wlen wbytes tx = Ret tx' -> tx_inputs tx' = tx_inputs tx.
Proof.
  unfold bitcoin_tx_finalize, elements_tx_add_fee_output. intros E. apply bind_Ret_inv in E as (tx1 & E1 & E).
  destruct (bitcoin_tx_check _ _ _); [|done]. injection E as <-. apply bind_Ret_inv in E1 as (fee & _ & E1).
  destruct (negb _); [by injection E1 as <-|]. destruct (list_find _ _) as [[]|]; [by injection E1 as <-|].
  unfold bitcoin_tx_add_output in E1. destruct (_ <? _); [by injection E1 as <-|done].
Qed.

(** The script an HTLC output pays. *)
Definition wscript_of (c : channel) (ks : keyset) (s : side) (h : htlc) : list Z :=
  let ripemd := ripemd160 (h_rhash h) in
  if bool_decide (htlc_owner h = s)
  then htlc_offered_wscript sha256 ripemd160 ripemd ks (has_anchor_outputs c) (has_zero_fee_anchors c)
  else htlc_received_wscript sha256 ripemd160 ripemd (h_expiry h) ks (has_anchor_outputs c) (has_zero_fee_anchors c).

Lemma htlc_tx_input commit w amount w2 fee locktime ao az asset tx :
  htlc_tx params sha256 wlen wbytes commit w amount w2 fee locktime ao az asset = Ret (Some tx) ->
  exists i, tx_inputs tx !! 0%nat = Some i /\ in_outpoint i = commit /\ in_wscript i = Some w.
Proof.
  unfold htlc_tx. intros E. destruct (_ =? 2); [|done]. cbn [assert_then] in E.
  destruct (amount_sat_sub _ _); [|done]. apply bind_Ret_inv in E as (t1 & E1 & E).
  apply bind_Ret_inv in E as (t2 & E2 & E). injection E as <-. rewrite (finalize_inputs _ _ E2).
  unfold bitcoin_tx_add_output in E1. destruct (_ <? _) in E1; [|done]. injection E1 as <-.
  unfold bitcoin_tx_set_output_asset. destruct (is_elements params); (eexists; split; [done|]; done).
Qed.
Lemma htlc_tx_of_input c txid n f ks s h tx :
  htlc_tx_of params sha256 ripemd160 wlen wbytes c txid n f ks s h = Ret (Some tx) ->
  exists i, tx_inputs tx !! 0%nat = Some i /\ outnum (in_outpoint i) = Z.of_nat n
    /\ in_wscript i = Some (wscript_of c ks s h).
Proof.
  unfold htlc_tx_of, wscript_of, htlc_timeout_tx, htlc_success_tx. intros E.
  destruct (bool_decide _); apply bind_Ret_inv in E as (fee & _ & E);
    apply htlc_tx_input in E as (i & E1 & E2 & E3); exists i; by rewrite E2.
Qed.

Lemma add_htlcs_from_wscripts c txid m n f ks s pre rest txs com tx :
  m = pre ++ rest -> n = length pre -> com_htlcmap com = m ->
  add_htlcs_from params sha256 ripemd160 wlen wbytes c txid n f ks s rest = Ret txs -> Some tx ∈ txs ->
  exists i w, tx_inputs tx !! 0%nat = Some i /\ in_wscript i = Some w
    /\ stage2_wscript sha256 ripemd160 c ks s com tx = Ret w.
Proof.
  intros Em En Ec. revert n pre txs Em En. induction rest as [|[h|] rest IH]; intros n pre txs Em En E Hin; cbn in E.
  - injection E as <-. by apply elem_of_nil in Hin.
  - apply bind_Ret_inv in E as (t & Et & E). apply bind_Ret_inv in E as (ts & Ets & E). injection E as <-.
    apply elem_of_cons in Hin as [<-|Hin].
    + apply htlc_tx_of_input in Et as (i & E1 & E2 & E3). exists i, (wscript_of c ks s h). split; [done|split; [done|]].
      unfold stage2_wscript. rewrite E1. cbn [wally_ok mbind outcome_bind]. unfold output_witscript.
      rewrite E2, Nat2Z.id, Ec, Em, En, list_lookup_middle by done. done.
    + eapply (IH (S n) (pre ++ [Some h])); [by rewrite <- app_assoc|rewrite length_app; cbn; lia|done|done].
  - eapply (IH (S n) (pre ++ [None])); [by rewrite <- app_assoc|rewrite length_app; cbn; lia|done|done].
Qed.

(** ** One side signs, the other checks *)

Context `{!Taproot, !Issuance}.
Context (funding : outpoint) (funding_sats : amount_sat_t).
(** The signer's hsmd and channel keys. *)
Context (seed peer_id : list Z) (dbid : Z) (keys : channel_keys) (junk : nat -> Z).

(** The public keys of the channel are those of hsmd's secrets. *)
Definition holds_keys : Prop :=
  exists cs k, get_channel_seed hkdf seed peer_id dbid = Ret cs /\ derive_keys hkdf cs = Ret k
    /\ ec_pubkey_create (keys_f k) = Some (funding_pubkey keys).[LOCAL]
    /\ ec_pubkey_create (keys_h k) = Some (bp_htlc (chan_basepoints keys).[LOCAL]).

Lemma derive_funding cs k f :
  derive_keys hkdf cs = Ret k -> ec_pubkey_create (keys_f k) = Some f ->
  derive_basepoints hkdf true false cs = Ret (Some (Some f, None, secrets_of k, shaseed k)).
Proof. intros Hk Hf. unfold derive_basepoints. rewrite Hk. cbn [mbind outcome_bind]. by rewrite Hf. Qed.

Lemma sign_commitment_checks tx remote sig :
  holds_keys ->
  hsm_reply (handle_sign_remote_commitment_tx params no_grind attempts conf_value elements_hash btc_hash hkdf
               seed peer_id dbid tx remote) = Ret sig ->
  check_tx_sig tx 0 None (Some (bitcoin_redeem_2of2 (funding_pubkey keys).[LOCAL] remote)) (funding_pubkey keys).[LOCAL] sig
  = Ret true /\ sighash_type sig = SIGHASH_ALL.
Proof.
  intros (cs & k & Hcs & Hk & Hf & _) E. apply bind_Ret_inv in E as (o & E & Eo). destruct o as [o|]; [|done].
  injection Eo as <-. unfold handle_sign_remote_commitment_tx in E. destruct (negb _); [done|]. destruct (_ =? _)%nat; [done|].
  rewrite Hcs in E. cbn [mbind outcome_bind] in E. rewrite (derive_funding cs k _ Hk Hf) in E. cbn [mbind outcome_bind] in E.
  destruct (sign_tx_input _ _ _ _ _ _ _ _ _ _ _ _) as [x|] eqn:Es; [|done]. injection E as <-.
  exact (sign_check params no_grind attempts conf_value elements_hash btc_hash _ _ _ _ _ _ _ _ Hf Es).
Qed.

Lemma sign_htlc_checks tx w point anchors key sig :
  holds_keys -> derive_simple_key sha256 (bp_htlc (chan_basepoints keys).[LOCAL]) point = Some key ->
  hsm_reply (handle_sign_remote_htlc_tx params sha256 no_grind attempts conf_value elements_hash btc_hash hkdf
               seed peer_id dbid tx w point anchors) = Ret sig ->
  sighash_type sig = if anchors then Z.lor SIGHASH_SINGLE SIGHASH_ANYONECANPAY else SIGHASH_ALL.
Proof.
  intros (cs & k & Hcs & Hk & _ & Hh) Ekey E. apply bind_Ret_inv in E as (o & E & Eo). destruct o as [o|]; [|done].
  injection Eo as <-. unfold handle_sign_remote_htlc_tx in E.
  rewrite Hcs in E. cbn [mbind outcome_bind] in E. apply bind_Ret_inv in E as (r & _ & E).
  destruct r as [[[[[f|] [b|]] s] sh]|]; try done;
  (destruct (derive_simple_privkey _ _ _ _) in E; [|done]); (destruct (derive_simple_key _ _ _) in E; [|done]);
  (destruct (sign_tx_input _ _ _ _ _ _ _ _ _ _ _ _) as [x|] eqn:Es; [|done]); injection E as <-;
  unfold sign_tx_input in Es; (destruct (sighash_type_valid _); [|done]); cbn [assert_then] in Es;
  apply bind_Ret_inv in Es as (h & _ & Es); apply bind_Ret_inv in Es as (sg & _ & Es); by injection Es as <-.
Qed.

(** The signatures of the second-stage transactions pass the other side's
    loop, if both sides spend the same scripts. *)
Lemma calc_htlc_sigs_check c c' ks com com' point key txs sigs :
  holds_keys -> derive_simple_key sha256 (bp_htlc (chan_basepoints keys).[LOCAL]) point = Some key ->
  (forall tx, Some tx ∈ txs ->
     stage2_wscript sha256 ripemd160 c ks REMOTE com tx = stage2_wscript sha256 ripemd160 c' ks LOCAL com' tx) ->
  calc_htlc_sigs params sha256 ripemd160 no_grind attempts conf_value elements_hash btc_hash hkdf
    seed peer_id dbid c ks com point key txs = Ret sigs ->
  length sigs = length txs /\ unraw_sigs (raw_sigs sigs) (channel_has_anchors c) = sigs
  /\ check_htlc_sigs params sha256 ripemd160 conf_value elements_hash btc_hash c' ks com' key txs sigs = Ret true.
Proof.
  intros Hh Hkey Hw. revert sigs. induction txs as [|[tx|] txs IH]; intros sigs E; cbn [calc_htlc_sigs] in E; [|..|done].
  { by injection E as <-. }
  rewrite Hw in E by apply list_elem_of_here. apply bind_Ret_inv in E as (w & Ew & E). apply bind_Ret_inv in E as (sig & Es & E).
  apply bind_Ret_inv in E as (ok & Eok & E). destruct ok; [|done]. cbn [assert_then] in E.
  apply bind_Ret_inv in E as (rest & Er & E). injection E as <-.
  destruct (IH ltac:(intros t Ht; apply Hw; by right) _ Er) as (E1 & E2 & E3).
  split; [cbn; by rewrite E1|]. split.
  - unfold unraw_sigs, raw_sigs in *. cbn [fmap list_fmap]. f_equal; [|done].
    rewrite <- (sign_htlc_checks _ _ _ _ _ _ Hh Hkey Es). by destruct sig.
  - cbn [check_htlc_sigs]. rewrite Ew. cbn [mbind outcome_bind]. by rewrite Eok.
Qed.

(** The transactions of a channel come from [add_htlcs]. *)
Lemma channel_txs_wscripts c point number s fp want com txs ks tx :
  channel_has c OPT_SEQ_SYMMETRIC = false -> channel_has c OPT_SEQ_TAPROOT_COVENANT = false ->
  channel_txs params sha256 ripemd160 wlen wbytes funding funding_sats keys c point number s 0 0 fp want junk
    = Ret (Some (com, txs)) ->
  derive_keyset sha256 point (chan_basepoints keys).[s] (chan_basepoints keys).[other s]
    (channel_has c OPT_STATIC_REMOTEKEY) = Some ks -> Some tx ∈ txs ->
  exists i w, tx_inputs tx !! 0%nat = Some i /\ in_wscript i = Some w
    /\ stage2_wscript sha256 ripemd160 c ks s com tx = Ret w.
Proof.
  intros Hs Ht E Hks Hin. unfold channel_txs in E. rewrite Hks, Hs, Ht in E.
  destruct (amount_msat_add_sat_s64 _ _); [|done]. destruct (amount_msat_add_sat_s64 _ _); [|done].
  apply bind_Ret_inv in E as (height & _ & E). apply bind_Ret_inv in E as (f & _ & E).
  apply bind_Ret_inv in E as (com1 & _ & E). apply bind_Ret_inv in E as (txs1 & E1 & E). injection E as <- <-.
  unfold add_htlcs in E1. apply bind_Ret_inv in E1 as (f1 & _ & E1). apply bind_Ret_inv in E1 as (id & _ & E1).
  by eapply (add_htlcs_from_wscripts c id (com_htlcmap com1) 0 f1 ks s []).
Qed.
(** A covenant commitment has no second-stage transactions. *)
Lemma covenant_no_htlc_txs c point number s fp want com txs :
  channel_has c OPT_SEQ_SYMMETRIC = false -> channel_has c OPT_SEQ_TAPROOT_COVENANT = true ->
  channel_txs params sha256 ripemd160 wlen wbytes funding funding_sats keys c point number s 0 0 fp want junk
    = Ret (Some (com, txs)) -> txs = [].
Proof.
  intros Hs Ht E. unfold channel_txs in E. rewrite Hs, Ht in E. destruct (derive_keyset _ _ _ _ _); [|done].
  destruct (amount_msat_add_sat_s64 _ _); [|done]. destruct (amount_msat_add_sat_s64 _ _); [|done].
  apply bind_Ret_inv in E as ([com1|] & _ & E); [|done]. by injection E as _ <-.
Qed.
End SignerFacts.

Section Accepted.
#[local] Set Default Proof Using "Type*".
Context (params : chainparams) (sha256 ripemd160 : list Z -> list Z).
Context (wlen : bool -> bitcoin_tx -> option nat) (wbytes : bool -> bitcoin_tx -> option (list Z)).
Context `{!Digest sha256 32, !Digest ripemd160 20}.
Context `{!Secp256k1, !Secp256k1Laws _} `{!Ecdsa, !EcdsaLaws _ _} (no_grind : bool) (attempts : nat).
Context (conf_value : Z -> option (list Z))
        (elements_hash : bitcoin_tx -> nat -> list Z -> list Z -> Z -> option (list Z))
        (btc_hash : bitcoin_tx -> nat -> list Z -> Z -> Z -> option (list Z)).
Context (hkdf : nat -> list Z -> list Z -> list Z -> outcome (list Z)).
Context `{!Taproot, !Issuance}.
Context (funding : outpoint) (funding_sats : amount_sat_t).
(** The sorts of the C libraries of both, and the signature that is zero. *)
Context (asort asort' : (sym_output htlc -> sym_output htlc -> comparison) -> list (sym_output htlc) -> list (sym_output htlc)).
Context (zero_signature : ecdsa_signature).
(** The side that signs, and the one that checks. *)
Context (seed seed' peer_id peer_id' : list Z) (dbid dbid' : Z) (keys keys' : channel_keys) (junk junk' : nat -> Z).

Notation sign := (sign_remote_commitment params sha256 ripemd160 wlen wbytes no_grind attempts conf_value elements_hash
  btc_hash hkdf asort zero_signature seed peer_id dbid keys funding funding_sats junk).
Notation check := (check_local_commitment params sha256 ripemd160 wlen wbytes conf_value elements_hash btc_hash hkdf
  asort' seed' peer_id' dbid' keys' funding funding_sats junk').

(** Both sides know the same keys, 33 bytes each. *)
Definition agreed_keys : Prop :=
  same_keys REMOTE LOCAL keys keys' (funding_pubkey keys) (funding_pubkey keys')
  /\ length (funding_pubkey keys).[REMOTE] = 33%nat /\ length (funding_pubkey keys).[LOCAL] = 33%nat
  /\ length (bp_payment (chan_basepoints keys).[LOCAL]) = 33%nat.

Notation txs_of k j c point index s want :=
  (channel_txs params sha256 ripemd160 wlen wbytes funding funding_sats k c point index s 0 0
     (funding_pubkey k) want j).
Notation keyset_of k c point s :=
  (derive_keyset sha256 point (chan_basepoints k).[s] (chan_basepoints k).[other s] (channel_has c OPT_STATIC_REMOTEKEY)).

(** No two scripts of a plain commitment have the same hash. *)
Definition scripts_distinct_or_covenant (c : channel) (point : list Z) : Prop :=
  channel_has c OPT_SEQ_TAPROOT_COVENANT = false ->
  scripts_distinct params sha256 ripemd160 c REMOTE keys (funding_pubkey keys) point.

(** The other side has the same transactions, and spends the same scripts. *)
Lemma mirror_transactions c c' index point com txs ks :
  mirrors REMOTE LOCAL c c' -> agreed_keys ->
  channel_has c OPT_SEQ_SYMMETRIC = false ->
  commit_data_ok c REMOTE -> commit_data_ok c' LOCAL ->
  scripts_distinct_or_covenant c point ->
  txs_of keys junk c point index REMOTE true = Ret (Some (com, txs)) -> keyset_of keys c point REMOTE = Some ks ->
  exists com', txs_of keys' junk' c' point index LOCAL false = Ret (Some (com', txs))
    /\ com_tx com' = com_tx com /\ keyset_of keys' c' point LOCAL = Some ks
    /\ forall tx, Some tx ∈ txs ->
         stage2_wscript sha256 ripemd160 c ks REMOTE com tx = stage2_wscript sha256 ripemd160 c' ks LOCAL com' tx.
Proof.
  intros Hm (Hsk & Hl1 & Hl2 & Hl3) Hsym Hd Hd' Hsd Er Eks.
  assert (Hhas : forall o, channel_has c' o = channel_has c o) by (intros; unfold channel_has; by rewrite (mir_type _ _ _ _ Hm)).
  pose proof (channel_txs_mirror params sha256 ripemd160 wlen wbytes REMOTE LOCAL c c' keys keys' (funding_pubkey keys)
    (funding_pubkey keys') funding funding_sats point index 0 0 0 0 true false junk junk' Hm Hsk eq_refl eq_refl Hsym
    Hd Hd' Hl1 Hl2 Hl3 Hsd) as Hmir.
  unfold channel_txs_of in Hmir. rewrite Er in Hmir.
  destruct (txs_of keys' junk' c' point index LOCAL false) as [[[com' txs']|]|] eqn:Er'; try done.
  apply Ret_inj in Hmir. injection Hmir as Etx <-. destruct Hsk as (Hb1 & Hb2 & _).
  assert (Eks' : keyset_of keys' c' point LOCAL = Some ks) by (cbn [other] in *; by rewrite <- Hb1, <- Hb2, Hhas).
  exists com'. split; [done|split; [done|split; [done|]]]. intros tx Hin.
  destruct (channel_has c OPT_SEQ_TAPROOT_COVENANT) eqn:Htcov.
  { rewrite (covenant_no_htlc_txs params sha256 ripemd160 wlen wbytes funding funding_sats keys junk _ _ _ _ _ _ _ _ Hsym Htcov Er) in Hin.
    by apply elem_of_nil in Hin. }
  destruct (channel_txs_wscripts params sha256 ripemd160 wlen wbytes funding funding_sats keys junk
    c point index REMOTE (funding_pubkey keys) true com txs ks tx Hsym Htcov Er Eks Hin) as (i & w & E1 & E2 & ->).
  rewrite <- (Hhas OPT_SEQ_SYMMETRIC) in Hsym. rewrite <- (Hhas OPT_SEQ_TAPROOT_COVENANT) in Htcov.
  destruct (channel_txs_wscripts params sha256 ripemd160 wlen wbytes funding funding_sats keys' junk'
    c' point index LOCAL (funding_pubkey keys') false com' txs ks tx Hsym Htcov Er' Eks' Hin) as (i' & w' & E1' & E2' & ->).
  congruence.
Qed.

(** The checks of [handle_peer_commit_sig] on a commitment that was signed come
    down to whether hsmd can make the next per-commitment point. *)
Lemma signed_commitment_checks c c' index point sigs pbase :
  mirrors REMOTE LOCAL c c' -> agreed_keys -> holds_keys hkdf seed peer_id dbid keys ->
  channel_has c OPT_SEQ_SYMMETRIC = false ->
  commit_data_ok c REMOTE -> commit_data_ok c' LOCAL ->
  scripts_distinct_or_covenant c point ->
  sign c index point = Ret (sigs, pbase) ->
  check c' index point sigs = (_ ← hsm_reply (handle_validate_commitment_tx sha256 hkdf seed' peer_id' dbid' index); Ret true).
Proof.
  intros Hm Hag Hh Hsym Hd Hd' Hsd E. unfold sign_remote_commitment in E. rewrite Hsym in E.
  apply bind_Ret_inv in E as (r & Er & E). destruct r as [[com txs]|]; [|done]. cbn [wally_ok mbind outcome_bind] in E.
  destruct (keyset_of keys c point REMOTE) as [ks|] eqn:Eks; [|done]. cbn [wally_ok mbind outcome_bind] in E.
  apply bind_Ret_inv in E as ([csig hsigs] & Ec & E). apply bind_Ret_inv in E as (pb & _ & E). injection E as <- _.
  unfold calc_commitsigs in Ec. apply bind_Ret_inv in Ec as (cs & Ecs & Ec).
  destruct (derive_simple_key _ _ _) as [key|] eqn:Ekey; [|done]. cbn [wally_ok mbind outcome_bind] in Ec.
  apply bind_Ret_inv in Ec as (hs & Ehs & Ec). injection Ec as <- <-.
  destruct (mirror_transactions c c' index point com txs ks) as (com' & Er' & Etx & Eks' & Hw); try done.
  destruct Hag as ((_ & Hb2 & Hf1 & Hf2 & _) & Hl1 & Hl2 & _). cbn [other] in Hb2, Hf2.
  destruct (sign_commitment_checks params no_grind attempts conf_value elements_hash btc_hash hkdf seed peer_id dbid keys
    (com_tx com) _ cs Hh Ecs) as [Hcs Hty].
  destruct (calc_htlc_sigs_check params sha256 ripemd160 no_grind attempts conf_value elements_hash btc_hash hkdf seed peer_id
    dbid keys c c' ks com com' point key txs hs Hh Ekey Hw Ehs) as (Hlen & Hraw & Hchk).
  assert (Ht : chan_type c = chan_type c') by apply Hm.
  unfold check_local_commitment, channel_has, channel_has_anchors in *. rewrite <- Ht, Hsym, Er'.
  cbn [mbind outcome_bind wally_ok cs_commit cs_htlcs].
  rewrite Ht, Eks'. cbn [mbind outcome_bind wally_ok]. rewrite <- Hb2, Ekey. cbn [mbind outcome_bind wally_ok].
  rewrite Etx, <- Hf1, <- Hf2, (redeem_2of2_comm _ _ Hl1 Hl2).
  replace (mk_signature (sig_s cs) SIGHASH_ALL) with cs by (rewrite <- Hty; by destruct cs). rewrite Hcs.
  destruct (channel_type_has (chan_type c') OPT_SEQ_SYMMETRIC_FACTORY);
    cbn [mbind outcome_bind negb]; rewrite <- Ht, Hraw, Hlen, Nat.eqb_refl; cbn [negb]; by rewrite Hchk.
Qed.

(** A commitment that was signed is accepted: if the channel of the side
    that signs and that of the side that checks mirror each other, and the
    keys in both are those of hsmd's secrets, the signatures
    [send_commit_part] puts in [commitment_signed], of the commitment
    transaction and of every second-stage transaction, pass every check of
    [handle_peer_commit_sig]. *)
Theorem signed_commitment_accepted c c' index point next sigs pbase :
  mirrors REMOTE LOCAL c c' -> agreed_keys -> holds_keys hkdf seed peer_id dbid keys ->
  channel_has c OPT_SEQ_SYMMETRIC = false ->
  commit_data_ok c REMOTE -> commit_data_ok c' LOCAL ->
  scripts_distinct_or_covenant c point ->
  handle_validate_commitment_tx sha256 hkdf seed' peer_id' dbid' index = Ret (Some next) ->
  sign c index point = Ret (sigs, pbase) -> check c' index point sigs = Ret true.
Proof.
  intros Hm Hag Hh Hsym Hd Hd' Hsd Hv E.
  rewrite (signed_commitment_checks c c' index point sigs pbase) by done. unfold hsm_reply. by rewrite Hv.
Qed.
End Accepted.
