(* ===== verification/SymFacts.v ===== *)
(** * Symmetric channels: both sides build the same states

    Two sides whose channels mirror each other have the same constants, build
    the same state for a commitment and so the same message, and what one
    signs the other accepts: the update signature and that of the kickoff. *)

From stdpp Require Import list.
From S2P Require Import Prelude Chainparams Amount HtlcState FeeStates CommitFee Features Wire Script Shachain Keys Tapscript ChannelState Tx SymScripts SymSettle SymState Channel SymChannel CommitTx Signature PeerState Peer Signer CommitAgree CommitMirror SignerFacts.
Local Open Scope Z_scope.

Section SymFacts.
#[local] Set Default Proof Using "Type*".
Context (params : chainparams) (sha256 ripemd160 : list Z -> list Z).
Context (wlen : bool -> bitcoin_tx -> option nat) (wbytes : bool -> bitcoin_tx -> option (list Z)).
Context `{!Taproot, !Issuance}.
Context (asort asort' : (sym_output htlc -> sym_output htlc -> comparison) -> list (sym_output htlc) -> list (sym_output htlc)).
Context `{!Sorter asort, !Sorter asort'}.
Context (keys keys' : channel_keys).

(** ** The same constants *)

Lemma shared_delay_mirror c c' : mirrors REMOTE LOCAL c c' -> sym_shared_delay c = sym_shared_delay c'.
Proof using Type.
  intros Hm. unfold sym_shared_delay. pose proof (mir_delay _ _ _ _ Hm) as E1. pose proof (mir_own_delay _ _ _ _ Hm) as E2.
  cbn [other] in E1, E2. rewrite E1, E2. repeat case_if; lia.
Qed.
Lemma dust_limit_mirror c c' : mirrors REMOTE LOCAL c c' -> sym_dust_limit c = sym_dust_limit c'.
Proof using Type.
  intros Hm. unfold sym_dust_limit, amount_sat_greater. pose proof (mir_dust _ _ _ _ Hm) as E1. pose proof (mir_other_dust _ _ _ _ Hm) as E2.
  cbn [other] in E1, E2. rewrite E1, E2. destruct (conf_dust_limit (config c').[LOCAL]), (conf_dust_limit (config c').[REMOTE]).
  cbn. repeat case_if; try done; f_equal; lia.
Qed.

(** Both sides know the same keys and the same issuer. *)
Definition agreed_sym_keys : Prop := agreed_keys keys keys' /\ sym_issuer keys = sym_issuer keys'.

Lemma sym_channel_of_mirror c c' : mirrors REMOTE LOCAL c c' -> agreed_sym_keys ->
  sym_channel_of params sha256 keys c = sym_channel_of params sha256 keys' c'.
Proof using Type.
  intros Hm (((Hb1 & Hb2 & Hf1 & Hf2 & _) & Hl1 & Hl2 & _) & Hi). cbn [other] in *. unfold sym_channel_of.
  rewrite (shared_delay_mirror c c' Hm), (mir_funding _ _ _ _ Hm), (mir_asset _ _ _ _ Hm), (mir_sats _ _ _ _ Hm), <- Hi.
  rewrite <- Hf1, <- Hf2, (redeem_2of2_comm _ _ Hl1 Hl2).
  pose proof (mir_opener _ _ _ _ Hm) as Ho. destruct (opener c), (opener c'); try done; cbn [other]; by rewrite ?Hb1, ?Hb2.
Qed.

(** ** The same state *)

Definition sym_of (h : htlc) : sym_htlc htlc := mk_sym_htlc _ (htlc_owner h) (h_amount h) (ripemd160 (h_rhash h)) (h_expiry h) h.

Lemma sym_htlcs_of_plain l : Forall plain l -> sym_htlcs_of ripemd160 l = Ret (sym_of <$> l).
Proof using Type.
  induction 1 as [|h l [_ He] _ IH]; [done|]. cbn [sym_htlcs_of]. unfold abs_locktime_to_blocks.
  rewrite (proj2 (Z.ltb_lt _ _) He). cbn [assert_then mbind outcome_bind]. by rewrite IH.
Qed.

Lemma sym_shown_shown s t l l' : shown s <$> l ≡ₚ shown t <$> l' -> sym_shown s <$> (sym_of <$> l) ≡ₚ sym_shown t <$> (sym_of <$> l').
Proof using Type.
  intros Hp. set (g := fun x : bool * amount_msat_t * Z * list Z * option (list Z) => let '(own, amount, expiry, rhash, _) := x in (own, amount, ripemd160 rhash, expiry)).
  assert (E : forall u (k : list htlc), sym_shown u <$> (sym_of <$> k) = g <$> (shown u <$> k)).
  { intros u k. rewrite <- !list_fmap_compose. done. }
  by rewrite !E, Hp.
Qed.

(** The settlement the state of a side's commitment is made of. *)
Definition untied (c : channel) (s : side) : Prop :=
  tied (ChannelState.funding_sats c) (opener c) (sym_dust_limit c) (sym_of <$> channel_committed_htlcs c s) (owed (view c).[s]) = false.

Lemma state_outs_keys (outs outs' : list (sym_output htlc)) :
  out_key <$> outs = out_key <$> outs' -> Forall (fun o => so_asset o = None) outs -> Forall (fun o => so_asset o = None) outs' ->
  state_out <$> outs = state_out <$> outs'.
Proof using Type.
  revert outs'; induction outs as [|o outs IH]; intros [|o' outs'] E; try done; [discriminate E..|].
  cbn [fmap list_fmap] in E |- *. injection E as E1 E2 _ E. intros [Ha H1]%Forall_cons [Ha' H2]%Forall_cons. f_equal; [|by apply IH].
  unfold state_out. rewrite Ha, Ha', E2. f_equal. destruct (so_amount o), (so_amount o'). cbn in E1. by subst.
Qed.

Lemma sym_state_mirror c c' n st :
  mirrors REMOTE LOCAL c c' -> commit_data_ok c REMOTE -> commit_data_ok c' LOCAL ->
  settle_data_ok c REMOTE -> settle_data_ok c' LOCAL -> agreed_sym_keys -> sym_lanes c = None -> untied c REMOTE ->
  sym_channeld_state sha256 ripemd160 asort keys c REMOTE n = Ret st ->
  exists st', sym_channeld_state sha256 ripemd160 asort' keys' c' LOCAL n = Ret st'
    /\ st_num st' = st_num st /\ st_outs st' = st_outs st /\ Forall (fun o => sto_asset o = None) (st_outs st).
Proof using Sorter0 Sorter1.
  intros Hm (_ & _ & Hpl) (_ & _ & Hpl') (Hone & Hsats & Howed) (Hone' & _ & _) (((Hb1 & Hb2 & _ & _) & _) & _) Hlanes Htie E.
  cbn [other] in *. unfold untied in Htie. unfold sym_channeld_state in *. rewrite Hone in *. rewrite Hone'.
  rewrite sym_htlcs_of_plain in E |- * by done. cbn [mbind outcome_bind] in *.
  apply bind_Ret_inv in E as (r & E & Er). destruct r as [|st0]; [done|]. injection Er as ->.
  unfold sym_channel_state in *. rewrite <- (mir_lanes _ _ _ _ Hm). rewrite Hlanes in *.
  apply bind_Ret_inv in E as (r & E & Er). apply bind_Ret_inv in E as (r' & E & Er'). destruct r' as [e|outs]; injection Er' as <-; [done|].
  destruct (settlement_agrees sha256 ripemd160 asort asort' REMOTE LOCAL _ (opener c) (opener c') (pay_points keys) (pay_points keys')
    (htlc_points keys) (htlc_points keys') _ (owed (view c').[LOCAL]) (sym_of <$> committed (gather_htlcs c REMOTE))
    (sym_of <$> committed (gather_htlcs c' LOCAL)) (sym_dust_limit c) outs Hsats Howed) as (outs' & E' & Ek & Has); [..|exact E|].
  - apply Forall_fmap. eapply Forall_impl; [exact Hpl|]. by intros h [? _].
  - apply Hm.
  - unfold seen, pay_points. rewrite !sel_map. cbn [other]. by rewrite Hb1, Hb2.
  - unfold seen, htlc_points. rewrite !sel_map. cbn [other]. by rewrite Hb1, Hb2.
  - split; apply Hm.
  - apply sym_shown_shown. apply Hm.
  - done.
  - rewrite <- (dust_limit_mirror c c' Hm), <- (mir_sats _ _ _ _ Hm), E'. cbn [mbind outcome_bind].
    rewrite <- (mir_opener _ _ _ _ Hm). apply bind_Ret_inv in Er as (num & -> & Er). injection Er as <-. cbn [mbind outcome_bind].
    eexists. split; [reflexivity|]. split; [done|]. cbn [sym_state_new st_outs].
    apply Forall_app in Has as [Ha Ha']. split; [by symmetry; apply state_outs_keys|]. apply Forall_fmap. exact Ha.
Qed.

(** The message of a state is what its number and outputs make it. *)
Lemma sym_msg_mirror c c' st st' : mirrors REMOTE LOCAL c c' -> agreed_sym_keys -> st_num st' = st_num st -> st_outs st' = st_outs st ->
  sym_channel_msg params sha256 keys c st = sym_channel_msg params sha256 keys' c' st'.
Proof using Type.
  intros Hm Hk En Eo. unfold sym_channel_msg, sym_state_tree_of, sym_state_outputs. by rewrite (sym_channel_of_mirror c c' Hm Hk), En, Eo.
Qed.

(** ** Signing and checking *)

Context `{!Secp256k1, !Secp256k1Laws _} `{!Ecdsa, !EcdsaLaws _ _} `{!TaprootLaws _ _} (no_grind : bool) (attempts : nat).
Context (conf_value : Z -> option (list Z))
        (elements_hash : bitcoin_tx -> nat -> list Z -> list Z -> Z -> option (list Z))
        (btc_hash : bitcoin_tx -> nat -> list Z -> Z -> Z -> option (list Z)).
Context (hkdf : nat -> list Z -> list Z -> list Z -> outcome (list Z)).
Context (zero_signature : ecdsa_signature).
Context (seed peer_id : list Z) (dbid : Z).
Notation check_tx_sig := (check_tx_sig params conf_value elements_hash btc_hash).

(** The update key is that of hsmd's secret too. *)
Definition holds_update_key : Prop :=
  exists cs k, get_channel_seed hkdf seed peer_id dbid = Ret cs /\ derive_keys hkdf cs = Ret k
    /\ ec_pubkey_create (keys_f k) = Some (funding_pubkey keys).[LOCAL]
    /\ ec_pubkey_create (keys_d k) = Some (bp_delayed_payment (chan_basepoints keys).[LOCAL]).

Lemma sign_state_inv sc st secret sig : sign_state sha256 sc st secret = Ret (Some sig) ->
  exists tree msg, sym_state_tree_of sha256 sc st = Ret tree /\ sym_upd_msg sha256 sc tree = Ret msg /\ schnorr_sign msg secret = Some sig.
Proof using Type.
  unfold sign_state. intros E. apply bind_Ret_inv in E as (tree & Et & E). apply bind_Ret_inv in E as (msg & Em & E).
  exists tree, msg. split; [done|]. split; [done|]. unfold tap_sign in E. destruct (schnorr_sign _ _); [|done]. by injection E as ->.
Qed.

(** The constants hsmd makes are channeld's. *)
Lemma sym_constants_of c : sym_constants params sha256 (ChannelState.funding c) (bool_decide (opener c = LOCAL))
    (bp_delayed_payment (chan_basepoints keys).[LOCAL]) (bp_delayed_payment (chan_basepoints keys).[REMOTE]) (channel_asset c) (sym_shared_delay c)
  = sym_channel_init params sha256 (genesis_blockhash params) (ChannelState.funding c)
      (bp_delayed_payment (chan_basepoints keys).[opener c]) (bp_delayed_payment (chan_basepoints keys).[other (opener c)])
      (Some (channel_asset c)) (sym_shared_delay c).
Proof using Type. unfold sym_constants. by destruct (opener c). Qed.

(** What hsmd signs is the message of the state, with our update key. *)
Lemma sym_sign_message c st sig :
  holds_update_key -> sym_lanes c = None ->
  sym_channeld_sign params sha256 hkdf seed peer_id dbid keys c st = Ret sig ->
  exists msg secret, sym_channel_msg params sha256 keys c st = Ret msg /\ schnorr_sign msg secret = Some sig
    /\ ec_pubkey_create secret = Some (bp_delayed_payment (chan_basepoints keys).[LOCAL]).
Proof using Secp256k1Laws0 EcdsaLaws0.
  intros (cs & k & Hcs & Hk & Hf & Hd) Hl E. unfold sym_channeld_sign in E. rewrite Hl in E.
  apply bind_Ret_inv in E as (o & E & Eo). destruct o as [sg|]; [|done]. injection Eo as ->.
  assert (Hdel : derive_delayed_payment_basepoint hkdf cs = Ret (Some (bp_delayed_payment (chan_basepoints keys).[LOCAL], keys_d k))).
  { unfold derive_delayed_payment_basepoint. rewrite Hk. cbn [mbind outcome_bind]. by rewrite Hd. }
  unfold sym_channel_msg, sym_channel_of. destruct (sym_issuer keys) as [issuer|].
  - unfold handle_sign_sym_clock_state in E. destruct (empty_state st); [done|]. destruct (existsb _ _); [done|].
    rewrite Hcs in E. cbn [mbind outcome_bind] in E. rewrite Hdel in E. cbn [mbind outcome_bind] in E.
    rewrite (derive_funding hkdf cs k _ Hk Hf) in E. cbn [mbind outcome_bind] in E. rewrite sym_constants_of in E.
    apply bind_Ret_inv in E as (sc & -> & E). apply bind_Ret_inv in E as (mk & -> & E).
    apply sign_state_inv in E as (tree & msg & Et & Em & Es). exists msg, (keys_d k). cbn [mbind outcome_bind].
    by rewrite Et; cbn [mbind outcome_bind]; rewrite Em.
  - unfold handle_sign_sym_state in E. destruct (empty_state st); [done|]. destruct (existsb _ _); [done|].
    rewrite Hcs in E. cbn [mbind outcome_bind] in E. rewrite Hdel in E. cbn [mbind outcome_bind] in E. rewrite sym_constants_of in E.
    apply bind_Ret_inv in E as (sc & -> & E).
    apply sign_state_inv in E as (tree & msg & Et & Em & Es). exists msg, (keys_d k). cbn [mbind outcome_bind].
    by rewrite Et; cbn [mbind outcome_bind]; rewrite Em.
Qed.

(** Their check of our signature on a state. *)
Lemma update_sig_checks c c' st st' sig :
  mirrors REMOTE LOCAL c c' -> agreed_sym_keys -> holds_update_key -> sym_lanes c = None ->
  st_num st' = st_num st -> st_outs st' = st_outs st ->
  sym_channeld_sign params sha256 hkdf seed peer_id dbid keys c st = Ret sig ->
  sym_channel_check_sig params sha256 keys' c' st' REMOTE sig = Ret true.
Proof using Secp256k1Laws0 EcdsaLaws0 TaprootLaws0.
  intros Hm Hk Hh Hl En Eo E. destruct (sym_sign_message c st sig Hh Hl E) as (msg & secret & Em & Es & Ec).
  unfold sym_channel_check_sig. rewrite <- (sym_msg_mirror c c' st st' Hm Hk En Eo), Em. cbn [mbind outcome_bind]. unfold tap_check_sig.
  destruct Hk as (((_ & Hb2 & _) & _) & _). cbn [other] in Hb2. by rewrite <- Hb2, (schnorr_verifies _ _ _ _ Es Ec).
Qed.

(** Their check of our signature on the kickoff. *)
Lemma kickoff_sig_checks c c' funding_wscript sig :
  mirrors REMOTE LOCAL c c' -> agreed_sym_keys -> holds_update_key -> channel_has c OPT_SEQ_SYMMETRIC_FACTORY = false ->
  sym_channeld_kickoff_sig params sha256 wlen wbytes no_grind attempts conf_value elements_hash btc_hash hkdf zero_signature
    seed peer_id dbid keys c = Ret sig ->
  funding_wscript = bitcoin_redeem_2of2 (funding_pubkey keys').[LOCAL] (funding_pubkey keys').[REMOTE] ->
  exists sc tx, sym_channel_of params sha256 keys' c' = Ret sc
    /\ sym_kickoff_tx params sha256 wlen wbytes (ChannelState.funding c) (ChannelState.funding_sats c) funding_wscript sc = Ret tx
    /\ check_tx_sig tx 0 None (Some funding_wscript) (funding_pubkey keys').[REMOTE]
         (mk_signature sig (Z.lor SIGHASH_SINGLE SIGHASH_ANYONECANPAY)) = Ret true.
Proof using Secp256k1Laws0 EcdsaLaws0.
  intros Hm Hk (cs & k & Hcs & Hk0 & Hf & _) Hfac E ->. unfold sym_channeld_kickoff_sig in E. rewrite Hfac in E.
  apply bind_Ret_inv in E as ([ko ws] & Eko & E). unfold sym_channel_kickoff in Eko.
  rewrite (sym_channel_of_mirror c c' Hm Hk) in Eko. apply bind_Ret_inv in Eko as (sc & Esc & Eko).
  apply bind_Ret_inv in Eko as (tx & Etx & Eko). injection Eko as <- <-.
  apply bind_Ret_inv in E as (s & Es & E). injection E as <-. apply bind_Ret_inv in Es as (o & Es & Eo). destruct o as [o|]; [|done]. injection Eo as ->.
  unfold handle_sign_sym_kickoff in Es. destruct (_ || _); [done|]. rewrite Hcs in Es. cbn [mbind outcome_bind] in Es.
  rewrite (derive_funding hkdf cs k _ Hk0 Hf) in Es. cbn [mbind outcome_bind] in Es.
  destruct (sign_tx_input _ _ _ _ _ _ _ _ _ _ _ _) as [x|] eqn:Ex; [|done]. injection Es as ->.
  destruct (sign_check params no_grind attempts conf_value elements_hash btc_hash _ _ _ _ _ _ _ _ Hf Ex) as [Hc Hty].
  destruct Hk as (((_ & _ & Hf1 & Hf2 & _) & Hl1 & Hl2 & _) & _). cbn [other] in Hf2.
  exists sc, tx. split; [done|]. rewrite <- Hf1, <- Hf2, (redeem_2of2_comm _ _ Hl1 Hl2). split; [done|].
  replace (mk_signature (sig_s s) _) with s by (rewrite <- Hty; by destruct s). done.
Qed.

(** ** A commitment of a symmetric channel *)

Context (seed' peer_id' : list Z) (dbid' : Z).
Context (funding : outpoint) (funding_sats : amount_sat_t) (junk junk' : nat -> Z).
Notation sign := (sign_remote_commitment params sha256 ripemd160 wlen wbytes no_grind attempts conf_value elements_hash
  btc_hash hkdf asort zero_signature seed peer_id dbid keys funding funding_sats junk).
Notation check := (check_local_commitment params sha256 ripemd160 wlen wbytes conf_value elements_hash btc_hash hkdf
  asort' seed' peer_id' dbid' keys' funding funding_sats junk').

(** A symmetric channel of one asset whose balances do not tie. *)
Definition symmetric_commitment (c : channel) : Prop :=
  channel_has c OPT_SEQ_SYMMETRIC = true /\ sym_lanes c = None /\ untied c REMOTE
  /\ ChannelState.funding c = funding /\ ChannelState.funding_sats c = funding_sats.

Lemma kickoff_txs c' point index sc tx :
  channel_has c' OPT_SEQ_SYMMETRIC = true -> (forall t, wf_msat (owed (view c').[LOCAL]).[t]) ->
  sym_channel_of params sha256 keys' c' = Ret sc ->
  sym_kickoff_tx params sha256 wlen wbytes funding funding_sats
    (bitcoin_redeem_2of2 (funding_pubkey keys').[LOCAL] (funding_pubkey keys').[REMOTE]) sc = Ret tx ->
  forall ks, derive_keyset sha256 point (chan_basepoints keys').[LOCAL] (chan_basepoints keys').[REMOTE]
    (channel_has c' OPT_STATIC_REMOTEKEY) = Some ks ->
  channel_txs params sha256 ripemd160 wlen wbytes funding funding_sats keys' c' point index LOCAL 0 0
    (funding_pubkey keys') false junk'
  = Ret (Some (mk_commitment tx (repeat None (length (tx_outputs tx))) (mk_sides None None) (-1), [])).
Proof using Type.
  intros Hsym Ho Esc Etx ks Eks. unfold channel_txs. cbn [other]. rewrite Eks, Hsym.
  pose proof (Ho LOCAL). pose proof (Ho REMOTE). rewrite !amount_msat_add_sat_s64_spec by lia.
  rewrite !(proj2 (andb_true_iff _ _)) by lia. rewrite Esc. cbn [mbind outcome_bind]. by rewrite Etx.
Qed.

(** What [handle_peer_commit_sig] makes of a commitment that was signed, once
    the keys of the per-commitment point are derived. *)
Lemma symmetric_commitment_checks c c' index point sigs pbase ks key :
  mirrors REMOTE LOCAL c c' -> agreed_sym_keys -> holds_update_key -> symmetric_commitment c ->
  commit_data_ok c REMOTE -> commit_data_ok c' LOCAL -> settle_data_ok c REMOTE -> settle_data_ok c' LOCAL ->
  derive_keyset sha256 point (chan_basepoints keys').[LOCAL] (chan_basepoints keys').[REMOTE]
    (channel_has c' OPT_STATIC_REMOTEKEY) = Some ks ->
  derive_simple_key sha256 (bp_htlc (chan_basepoints keys').[REMOTE]) point = Some key ->
  channel_has c OPT_SEQ_SYMMETRIC_FACTORY = false ->
  sign c index point = Ret (sigs, pbase) -> check c' index point sigs = Ret true.
Proof.
  intros Hm Hk Hh (Hsym & Hl & Htie & Ef & Esats) Hd Hd' Hs Hs' Eks Ekey Hfac E. unfold sign_remote_commitment in E. rewrite Hsym in E.
  apply bind_Ret_inv in E as (s0 & E & E0). injection E0 as -> _. unfold sym_sign in E.
  apply bind_Ret_inv in E as (st & Est & E). apply bind_Ret_inv in E as (sig & Esig & E). apply bind_Ret_inv in E as (ksig & Eksig & E). injection E as <-.
  destruct (sym_state_mirror c c' index st Hm Hd Hd' Hs Hs' Hk Hl Htie Est) as (st' & Est' & En & Eo & _).
  destruct (kickoff_sig_checks c c' _ ksig Hm Hk Hh Hfac Eksig eq_refl) as (sc & tx & Esc & Etx & Hchk). rewrite Ef, Esats in Etx.
  assert (Hhas : forall o, channel_has c' o = channel_has c o) by (intros; unfold channel_has; by rewrite (mir_type _ _ _ _ Hm)).
  unfold check_local_commitment. rewrite (kickoff_txs c' point index sc tx ltac:(by rewrite Hhas) ltac:(apply Hs') Esc Etx ks Eks).
  rewrite !Hhas, Hsym, Hfac in *. cbn [mbind outcome_bind wally_ok other]. rewrite Eks. cbn [mbind outcome_bind wally_ok]. rewrite Ekey.
  cbn [mbind outcome_bind wally_ok com_tx cs_commit cs_htlcs cs_sym]. rewrite Hchk.
  cbn [mbind outcome_bind negb unraw_sigs fmap list_fmap length Nat.eqb check_htlc_sigs]. rewrite Est'. cbn [mbind outcome_bind].
  by apply (update_sig_checks c c' st st' sig).
Qed.

End SymFacts.
