(* ===== verification/OpenFacts.v ===== *)
(** * Both sides of an opening agree

    What the two sides of openingd's negotiation hold when it succeeds: the
    same terms, each seen from its own side, so channels that mirror each
    other; they build the same first transactions, and what one signs the
    other accepts. *)

From stdpp Require Import list.
From S2P Require Import Prelude Chainparams Amount HtlcState Wire FeeStates CommitFee Features Script Shachain Keys Tapscript ChannelState Tx SymScripts Opening TcovScripts SymSettle SymState SymFactory Channel SymChannel CommitTx Signature LaneWire PeerState Peer Signer Opend CommitAgree CommitMirror SignerFacts SymFacts.
Local Open Scope Z_scope.

Lemma nbind_Agreed {A B} (r : negotiation A) (k : A -> negotiation B) b :
  (a ← r; k a) = Agreed b -> exists a, r = Agreed a /\ k a = Agreed b.
Proof. destruct r; try done. eauto. Qed.
Lemma sure_Agreed {A} (o : outcome A) a : sure o = Agreed a -> o = Ret a.
Proof. destruct o; [by intros [= ->]|done]. Qed.
Lemma refuse_Agreed b why u : refuse b why = Agreed u -> b = false.
Proof. by destruct b. Qed.
Lemma fail_if_Agreed b why u : fail_if b why = Agreed u -> b = false.
Proof. by destruct b. Qed.
Lemma abort_if_Agreed b why u : abort_if b why = Agreed u -> b = false.
Proof. by destruct b. Qed.
(** The first step of [E] succeeded. *)
Tactic Notation "step" hyp(E) "as" ident(x) ident(Ex) :=
  apply nbind_Agreed in E as (x & Ex & E);
  first [apply refuse_Agreed in Ex | apply fail_if_Agreed in Ex | apply abort_if_Agreed in Ex | apply sure_Agreed in Ex | idtac].

(** The peer is not to blame: no step ends in [peer_failed_err]. *)
Definition unblamed {A} (r : negotiation A) : Prop := forall why, r <> Peer_error why.
Lemma unblamed_bind {A B} (r : negotiation A) (k : A -> negotiation B) : unblamed r -> (forall a, r = Agreed a -> unblamed (k a)) -> unblamed (a ← r; k a).
Proof. intros Hr Hk. destruct r; try done; [by apply Hk|by specialize (Hr why)]. Qed.
Lemma unblamed_sure {A} (o : outcome A) : unblamed (sure o).
Proof. by destruct o. Qed.
Lemma unblamed_Agreed {A} (a : A) : unblamed (Agreed a).
Proof. done. Qed.
Lemma unblamed_Refused {A} why : unblamed (@Refused A why).
Proof. done. Qed.
Lemma unblamed_Broken {A} : unblamed (@Broken A).
Proof. done. Qed.
Create HintDb opening.
#[export] Hint Resolve unblamed_sure unblamed_Agreed unblamed_Refused unblamed_Broken : opening.
(** A step that cannot blame the peer. *)
Tactic Notation "unblamed_step" ident(x) ident(E) := apply unblamed_bind; [auto with opening|intros x E].

Section Terms.
Context (params : chainparams) (sha256 : list Z -> list Z) `{!Taproot, !Issuance}.
Context (eF eA : open_env).

(** ** The terms *)

(** A lane before its output is known. *)
Definition bare (l : sym_lane) : sym_lane := mk_lane (lane_asset l) 0 (lane_funding_sats l).

(** What the opener's state and the accepter's say of the channel is the same. *)
Record same_terms (f a : open_state) : Prop := {
  tm_opener : sent_conf (localconf f) = sent_conf (remoteconf a);
  tm_accepter : sent_conf (remoteconf f) = sent_conf (localconf a);
  tm_sats : op_funding_sats f = op_funding_sats a;
  tm_push : push_msat f = push_msat a;
  tm_affordable : amount_msat_greater_sat (push_msat a) (op_funding_sats a) = false;
  tm_feerate : op_feerate f = op_feerate a;
  tm_asset : op_asset f = op_asset a;
  tm_id : op_channel_id f = op_channel_id a;
  tm_type : op_type f = op_type a;
  tm_lanes : bare <$> op_lanes f = bare <$> op_lanes a;
  tm_few_lanes : (length (op_lanes f) <= SYM_MAX_LANES)%nat;
  tm_lane_type : op_lanes f <> [] <-> channel_type_has (op_type f) OPT_SEQ_SYMMETRIC_LANES = true;
  tm_issuer : op_issuer f = op_issuer a;
  tm_their_points : their_points f = our_points eA;
  tm_our_points : their_points a = our_points eF;
  tm_their_key : their_funding_pubkey f = our_funding_pubkey eA;
  tm_our_key : their_funding_pubkey a = our_funding_pubkey eF;
  tm_first : (first_per_commitment_point f).[REMOTE] = (first_per_commitment_point a).[LOCAL];
  tm_first' : (first_per_commitment_point a).[REMOTE] = (first_per_commitment_point f).[LOCAL];
}.

(** The state [main] leaves, the asset the chain's: nothing of a channel yet. *)
Definition fresh (a : open_state) : Prop :=
  op_lanes a = []
  /\ op_asset a = match is_elements params, fee_asset_tag params with true, Some tag => take 33 tag | _, _ => replicate 33 0 end.
(** What lightningd asks the opener for: an asset of 33 bytes, which is none on
    a chain without assets, lanes of the types of their fields, and an issuer
    only for a settle clock. *)
Record sane_request (f : open_state) (type : channel_type) : Prop := {
  rq_asset : length (op_asset f) = 33%nat;
  rq_no_asset : is_elements params = false -> op_asset f = replicate 33 0;
  rq_lanes : Forall (fun l => length (lane_asset l) = 33%nat /\ wf_sat (lane_funding_sats l)) (op_lanes f);
  rq_issuer : op_issuer f <> None -> channel_type_has type OPT_SEQ_SYMMETRIC_CLOCK = true;
}.

Lemma sent_read conf old : sent_conf (read_conf conf old) = conf.
Proof. by destruct conf. Qed.
Lemma sent_with_delay local type remote check local' e : sym_delay_ok e type local remote check = Agreed local' ->
  channel_type_has type OPT_SEQ_SYMMETRIC = true -> local' = with_delay (symmetric_delay e) local.
Proof.
  unfold sym_delay_ok. intros E Ht. rewrite Ht in E. cbn [negb] in E. step E as u E1. step E as u' E2. by injection E as <-.
Qed.
Lemma delay_kept local type remote local1 local' e : sym_delay_ok e type local remote false = Agreed local1 ->
  forall remote', sym_delay_ok e type local1 remote' true = Agreed local' -> local' = local1.
Proof.
  unfold sym_delay_ok. destruct (negb _); [by intros [= <-] remote' [= <-]|]. intros E remote' E'.
  step E as u E1. step E as u1 E2. injection E as <-. step E' as v E3. step E' as v1 E4. by injection E' as <-.
Qed.

(** What the opener's offer says, and what it keeps. *)
Lemma start_inv f flags nf af reserve ctype f1 oc : funder_channel_start params eF f flags nf af reserve ctype = Agreed (f1, oc) ->
  exists asset_id lanes issuer upfront,
    oc = mk_open_channel (genesis_blockhash params) (op_channel_id f1) (op_funding_sats f1) (push_msat f1) (sent_conf (localconf f1))
           (op_feerate f1) (our_funding_pubkey eF) (our_points eF) (first_per_commitment_point f1).[LOCAL] flags upfront
           (Some (features (op_type f1))) asset_id lanes issuer
    /\ offered_asset params (op_asset f1) = Agreed asset_id /\ offered_lanes (op_type f1) (op_asset f1) (op_lanes f1) = Agreed lanes
    /\ issuer = (if channel_type_has (op_type f1) OPT_SEQ_SYMMETRIC_CLOCK then op_issuer f1 else None)
    /\ op_asset f1 = op_asset f /\ op_lanes f1 = op_lanes f /\ op_issuer f1 = op_issuer f
    /\ exists local0, sym_delay_ok eF (op_type f1) local0 (remoteconf f) false = Agreed (localconf f1).
Proof.
  unfold funder_channel_start. destruct (_ && _); [done|]. intros E. step E as x E1. destruct x as [[local capacity] rate].
  step E as local1 E2. step E as local2 E3. step E as bad E4. destruct bad; [done|]. step E as asset_id E5. step E as lanes E6. step E as issuer E7.
  injection E as <- <-. cbn. do 4 eexists. split; [reflexivity|]. split; [done|]. split; [done|]. split; [|repeat split; by eexists].
  revert E7. destruct (channel_type_has _ OPT_SEQ_SYMMETRIC_CLOCK); [destruct (op_issuer f); [|done]|]; by intros [= <-].
Qed.
(** What the accepter keeps of it. *)
Lemma offer_inv a oc a1 : fundee_offer params eA a oc = Agreed a1 ->
  fundee_asset a oc = Agreed (op_asset a1) /\ fundee_lanes a oc (op_asset a1) = Agreed (op_lanes a1)
  /\ fundee_type eA oc = Agreed (op_type a1) /\ fundee_issuer oc (op_type a1) = Agreed (op_issuer a1)
  /\ remoteconf a1 = read_conf (oc_conf oc) (remoteconf a) /\ op_funding_sats a1 = oc_funding_sats oc /\ push_msat a1 = oc_push_msat oc
  /\ amount_msat_greater_sat (oc_push_msat oc) (oc_funding_sats oc) = false /\ op_feerate a1 = oc_feerate oc /\ op_channel_id a1 = oc_id oc
  /\ their_points a1 = oc_points oc /\ their_funding_pubkey a1 = oc_funding_pubkey oc
  /\ first_per_commitment_point a1 = upd REMOTE (oc_first_point oc) (first_per_commitment_point a)
  /\ exists local0, sym_delay_ok eA (op_type a1) local0 (remoteconf a1) true = Agreed (localconf a1).
Proof.
  unfold fundee_offer. intros E. step E as upfront E1. step E as asset E2. step E as lanes E3. step E as x E4. destruct x as [[local capacity] rate].
  step E as y E5. destruct y as [[local1 lowest] highest]. step E as type E6. step E as issuer E7. step E as u1 E8. step E as u2 E9. step E as u3 E10.
  step E as u4 E11. step E as u5 E12. step E as local2 E13. step E as u6 E14. step E as local3 E15. step E as bad E16. destruct bad; [done|].
  injection E as <-. cbn. repeat split; try done. by eexists.
Qed.
Lemma accept_inv a1 r a2 ac : fundee_accept eA a1 r = Agreed (a2, ac) ->
  ac = mk_accept_channel (op_channel_id a2) (sent_conf (localconf a2)) (op_minimum_depth a2) (our_funding_pubkey eA) (our_points eA)
         (first_per_commitment_point a2).[LOCAL] (upfront_shutdown_script a2).[LOCAL] (Some (features (op_type a2)))
  /\ remoteconf a2 = remoteconf a1 /\ op_funding_sats a2 = op_funding_sats a1 /\ push_msat a2 = push_msat a1 /\ op_feerate a2 = op_feerate a1
  /\ op_asset a2 = op_asset a1 /\ op_channel_id a2 = op_channel_id a1 /\ op_type a2 = op_type a1 /\ op_lanes a2 = op_lanes a1
  /\ op_issuer a2 = op_issuer a1 /\ their_points a2 = their_points a1 /\ their_funding_pubkey a2 = their_funding_pubkey a1
  /\ first_per_commitment_point a2 = first_per_commitment_point a1 /\ to_self_delay (localconf a2) = to_self_delay (localconf a1).
Proof.
  unfold fundee_accept. intros E. step E as u1 E1. step E as u2 E2. injection E as <- <-. cbn. split; [by destruct (upfront_shutdown_script a1)|].
  repeat split; try done. by destruct (or_reserve r).
Qed.
Lemma accepted_inv f1 ac f2 reply : funder_channel_accepted params sha256 eF f1 ac = Agreed (f2, reply) ->
  sym_delay_ok eF (op_type f1) (localconf f1) (remoteconf f2) true = Agreed (localconf f2)
  /\ remoteconf f2 = read_conf (ac_conf ac) (remoteconf f1) /\ op_funding_sats f2 = op_funding_sats f1 /\ push_msat f2 = push_msat f1
  /\ op_feerate f2 = op_feerate f1 /\ op_asset f2 = op_asset f1 /\ op_channel_id f2 = op_channel_id f1 /\ op_type f2 = sr_type reply
  /\ op_lanes f2 = op_lanes f1 /\ op_issuer f2 = op_issuer f1 /\ their_points f2 = ac_points ac /\ their_funding_pubkey f2 = ac_funding_pubkey ac
  /\ first_per_commitment_point f2 = upd REMOTE (ac_first_point ac) (first_per_commitment_point f1) /\ ac_id ac = op_channel_id f1.
Proof.
  unfold funder_channel_accepted. intros E. step E as upfront E1. step E as type E2. step E as u1 E3. step E as u2 E4. step E as u3 E5. step E as u4 E6.
  step E as local E7. step E as bad E8. destruct bad; [done|]. step E as output E9. step E as seed E10. injection E as <- <-. cbn.
  repeat split; try done. apply bool_decide_eq_false in E4. by destruct (decide (ac_id ac = op_channel_id f1)).
Qed.

(** ** Agreement *)

Lemma same_asset f1 a oc asset_id asset : fresh a -> length (op_asset f1) = 33%nat -> (is_elements params = false -> op_asset f1 = replicate 33 0) ->
  offered_asset params (op_asset f1) = Agreed asset_id -> oc_asset_id oc = asset_id -> fundee_asset a oc = Agreed asset -> op_asset f1 = asset.
Proof.
  intros [_ Ha] Hl Hn E Eo Ef. unfold fundee_asset in Ef. rewrite Eo in Ef. unfold offered_asset in E. destruct (is_elements params).
  - destruct (fee_asset_tag params); [|done]. injection E as <-. destruct (bool_decide _) eqn:Eb in Ef.
    + apply bool_decide_eq_true in Eb. injection Ef as <-. by rewrite Ha.
    + step Ef as u Eu. by injection Ef as <-.
  - injection E as <-. injection Ef as <-. rewrite Ha. by apply Hn.
Qed.

Lemma same_lanes f1 a oc blob asset lanes : fresh a ->
  Forall (fun l => length (lane_asset l) = 33%nat /\ wf_sat (lane_funding_sats l)) (op_lanes f1) ->
  offered_lanes (op_type f1) asset (op_lanes f1) = Agreed blob -> oc_lanes oc = blob -> fundee_lanes a oc asset = Agreed lanes ->
  bare <$> op_lanes f1 = bare <$> lanes /\ (length (op_lanes f1) <= SYM_MAX_LANES)%nat
  /\ (op_lanes f1 <> [] <-> channel_type_has (op_type f1) OPT_SEQ_SYMMETRIC_LANES = true).
Proof.
  intros [Ha _] Hl E Eo Ef. unfold fundee_lanes in Ef. rewrite Eo in Ef. unfold offered_lanes in E. destruct (channel_type_has _ _).
  - step E as u Eu. injection E as <-. apply orb_false_iff in Eu as [En Ec]. apply Nat.eqb_neq in En. apply negb_false_iff in Ec.
    unfold sym_lanes_check in Ec. apply andb_true_iff in Ec as [Ec _]. apply negb_true_iff, orb_false_iff in Ec as [_ Ec%Nat.ltb_ge].
    assert (Hblob : sym_lanes_open_blob (op_lanes f1) = sym_lanes_open_blob (bare <$> op_lanes f1)).
    { unfold sym_lanes_open_blob. by rewrite length_fmap, <- list_fmap_compose. }
    rewrite Hblob, open_blob_reads in Ef; [|by rewrite length_fmap|].
    2:{ apply Forall_fmap. eapply Forall_impl; [exact Hl|]. by intros l [? ?]. }
    step Ef as v Ev. injection Ef as <-. rewrite <- list_fmap_compose. split; [done|]. split; [done|]. split; [done|].
    intros _ Hnil. by rewrite Hnil in En.
  - step E as u Eu. injection E as <-. injection Ef as <-. rewrite Ha. apply negb_false_iff, Nat.eqb_eq, nil_length_inv in Eu. rewrite Eu.
    split; [done|]. split; [cbn; lia|]. by split.
Qed.
Lemma same_type oc a1 : fundee_type eA oc = Agreed (op_type a1) -> forall t, oc_type oc = Some (features t) -> t = op_type a1.
Proof.
  unfold fundee_type. intros E t Ht. rewrite Ht in E. destruct (channel_type_accept _ _) as [t'|] eqn:Ea.
  - apply channel_type_accept_inv in Ea as [-> _]. injection E as <-. by destruct t.
  - destruct (dev_accept_any_channel_type eA); [|done]. injection E as <-. by destruct t.
Qed.

(** A negotiation of two sides, and what lightningd says. *)
Record negotiation_of (f a : open_state) (flags : Z) (f1 a1 : open_state) (oc : open_channel) (ac : accept_channel) (f2 a2 : open_state)
    (reply : start_reply) : Prop := {
  ng_fresh : fresh a;
  ng_sane : sane_request f (op_type f1);
  ng_start : exists nf af reserve ctype, funder_channel_start params eF f flags nf af reserve ctype = Agreed (f1, oc);
  ng_offer : fundee_offer params eA a oc = Agreed a1;
  ng_accept : exists r, fundee_accept eA a1 r = Agreed (a2, ac);
  ng_accepted : funder_channel_accepted params sha256 eF f1 ac = Agreed (f2, reply);
}.

(** Both sides hold the same terms, unless the opener takes the channel for a
    zeroconf one only now. *)
Lemma negotiated_terms f a flags f1 a1 oc ac f2 a2 reply : negotiation_of f a flags f1 a1 oc ac f2 a2 reply ->
  sr_type reply = op_type f1 -> same_terms f2 a2.
Proof.
  intros [Hfr [Ha Hn Hl Hi] (nf & af & res & ct & Es) Eo (r & Ea) Ed] Htype.
  destruct (start_inv _ _ _ _ _ _ _ _ Es) as (aid & lb & iss & up & Hoc & Ea1 & El1 & Hiss & Fa & Fl & Fi & l0 & Ed0).
  destruct (offer_inv _ _ _ Eo) as (A1 & A2 & A3 & A4 & A5 & A6 & A7 & A8 & A9 & A10 & A11 & A12 & A13 & _).
  destruct (accept_inv _ _ _ _ Ea) as (Hac & B1 & B2 & B3 & B4 & B5 & B6 & B7 & B8 & B9 & B10 & B11 & B12 & _).
  destruct (accepted_inv _ _ _ _ Ed) as (D0 & D1 & D2 & D3 & D4 & D5 & D6 & D7 & D8 & D9 & D10 & D11 & D12 & _).
  assert (localconf f2 = localconf f1) as Hlocal by (by eapply delay_kept).
  assert (op_type f1 = op_type a1) as Ht by (apply (same_type oc a1 A3); by rewrite Hoc).
  assert (op_asset f1 = op_asset a1) as Has by (eapply (same_asset f1 a oc); [done|by rewrite Fa|rewrite Fa; done|exact Ea1|by rewrite Hoc|done]).
  rewrite <- Has in A2. destruct (same_lanes f1 a oc lb _ _ Hfr ltac:(by rewrite Fl) El1 ltac:(by rewrite Hoc) A2) as (L1 & L2 & L3).
  rewrite Hoc in A5, A6, A7, A8, A9, A10, A11, A12, A13. cbn in A5, A6, A7, A8, A9, A10, A11, A12, A13. rewrite Hac in D1, D10, D11, D12. cbn in D1, D10, D11, D12.
  assert (op_issuer f1 = op_issuer a1) as Hissuer.
  { unfold fundee_issuer in A4. rewrite <- Ht in A4. rewrite Hoc in A4. cbn [oc_issuer] in A4. rewrite Hiss in A4.
    destruct (channel_type_has (op_type f1) OPT_SEQ_SYMMETRIC_CLOCK) eqn:Ec.
    - destruct (op_issuer f1); [|done]. step A4 as u Eu. by injection A4 as <-.
    - injection A4 as <-. destruct (op_issuer f1) eqn:E1; [|done]. discriminate (Hi ltac:(congruence)). }
  constructor; try congruence.
  - by rewrite Hlocal, B1, A5, sent_read.
  - by rewrite D1, sent_read.
  - rewrite D12. by destruct (first_per_commitment_point f1).
  - rewrite B12, A13, D12. by destruct (first_per_commitment_point a), (first_per_commitment_point f1).
Qed.

(** Two nodes whose [--symmetric-delay] differs cannot open a symmetric
    channel: the opener asks for its own, and the accepter refuses a longer one
    than its own, but answers with its own, which the opener refuses if it is
    longer; so the longest delay a node accepts is also the shortest. *)
Theorem symmetric_delays_must_match f a flags f1 a1 oc ac f2 a2 reply : negotiation_of f a flags f1 a1 oc ac f2 a2 reply ->
  channel_type_has (op_type f1) OPT_SEQ_SYMMETRIC = true -> symmetric_delay eF = symmetric_delay eA.
Proof.
  intros [_ _ (nf & af & res & ct & Es) Eo (r & Ea) Ed] Hs.
  destruct (start_inv _ _ _ _ _ _ _ _ Es) as (aid & lb & iss & up & Hoc & _ & _ & _ & _ & _ & _ & l0 & Ed0).
  destruct (offer_inv _ _ _ Eo) as (_ & _ & A3 & _ & A5 & _ & _ & _ & _ & _ & _ & _ & _ & l1 & Ed1).
  destruct (accept_inv _ _ _ _ Ea) as (Hac & B1 & _ & _ & _ & _ & _ & _ & _ & _ & _ & _ & _ & Bd).
  destruct (accepted_inv _ _ _ _ Ed) as (D0 & D1 & _).
  assert (op_type f1 = op_type a1) as Ht by (apply (same_type oc a1 A3); by rewrite Hoc). rewrite Ht in *.
  pose proof (sent_with_delay _ _ _ _ _ _ Ed0 Hs) as Hd0. pose proof (sent_with_delay _ _ _ _ _ _ Ed1 Hs) as Hd1.
  unfold sym_delay_ok in D0, Ed1. rewrite Hs in D0, Ed1. cbn [negb andb] in D0, Ed1.
  step D0 as u Eu. step D0 as u1 Eu1. step Ed1 as v Ev. step Ed1 as v1 Ev1. apply Z.ltb_ge in Eu1, Ev1.
  rewrite D1, Hac in Eu1. cbn in Eu1. rewrite A5, Hoc in Ev1. cbn in Ev1. rewrite Bd, Hd1 in Eu1. rewrite Hd0 in Ev1. cbn in Eu1, Ev1. lia.
Qed.
End Terms.

(** ** An opening from the offer to the first signatures

    The channels the two sides of an opening make mirror each other, they
    build the same first transactions, and what one signs the other accepts. *)

Section Channels.
#[local] Set Default Proof Using "Type".
Context (params : chainparams) (sha256 : list Z -> list Z).

(** ** The channels *)

Lemma initial_channel_inv e st cid funding m op c : initial_channel params sha256 e st cid funding m op = Agreed c ->
  exists m', amount_sat_sub_msat (op_funding_sats st) m = Some m'
  /\ c = mk_channel cid funding (op_funding_sats st) (op_asset st) (op_minimum_depth st) op (mk_sides (localconf st) (remoteconf st))
           (commit_number_obscurer sha256 (bp_payment (chan_basepoints (our_keys e st)).[op]) (bp_payment (chan_basepoints (our_keys e st)).[other op]))
           None (new_fee_states op (Some (op_feerate st))) None
           (mk_sides (mk_view (mk_sides m m') (mk_sides 0 0)) (mk_view (mk_sides m m') (mk_sides 0 0))) (op_type st)
           (feature_offered (their_features e) OPT_LARGE_CHANNELS) 0 (mk_sat 0) None None None None.
Proof.
  unfold initial_channel, new_initial_channel. destruct (amount_sat_sub_msat _ _) as [m'|]; [|done]. intros E. exists m'. split; [done|]. by injection E as <-.
Qed.
Lemma attached lanes c c1 : sym_attach_lanes lanes c = Ret c1 -> sym_lanes c = None ->
  exists bals, c1 = set_lane_bal bals (set_lanes (match lanes with [] => None | _ => Some lanes end) c).
Proof.
  intros E Hn. unfold sym_attach_lanes in E. destruct lanes as [|l lanes].
  - injection E as <-. exists (sym_lane_bal c). destruct c. cbn in *. by subst.
  - apply bind_Ret_inv in E as (bals & _ & E). injection E as <-. by exists (Some bals).
Qed.

Context (eF eA : open_env).

(** The two channels, from the opener's and the accepter's states. *)
Record channels_of (f a : open_state) (funding : outpoint) (c c' : channel) : Prop := {
  ch_terms : same_terms eF eA f a;
  ch_lanes : op_lanes f = op_lanes a;
  ch_sats : wf_sat (op_funding_sats f);
  ch_opener : exists cid m c0, amount_sat_sub_msat (op_funding_sats f) (push_msat f) = Some m
    /\ initial_channel params sha256 eF f cid funding m LOCAL = Agreed c0 /\ sym_attach_lanes (op_lanes f) c0 = Ret c;
  ch_accepter : exists cid c0, initial_channel params sha256 eA a cid funding (push_msat a) REMOTE = Agreed c0
    /\ sym_attach_lanes (op_lanes a) c0 = Ret c';
}.

Lemma sent_conf_fields f g : sent_conf f = sent_conf g ->
  conf_dust_limit f = conf_dust_limit g /\ to_self_delay f = to_self_delay g /\ channel_reserve f = channel_reserve g.
Proof. intros E. by injection E as -> _ -> _ -> _. Qed.


(** The channels mirror each other, for the commitment of either side. *)
Lemma channels_mirror f a funding c c' : channels_of f a funding c c' ->
  (forall s, mirrors s (other s) c c')
  /\ (forall s, channel_reserve (config c).[s] = channel_reserve (config c').[other s])
  /\ opener c = LOCAL /\ htlcs c = None /\ htlcs c' = None /\ lease_expiry c = 0
  /\ (forall s, channel_feerate c s = Ret (op_feerate f)) /\ (sym_lanes c = None <-> op_lanes f = [])
  /\ chan_type c = op_type f /\ ChannelState.funding c = funding /\ ChannelState.funding_sats c = op_funding_sats f
  /\ exists m m', view c = mk_sides (mk_view (mk_sides m m') (mk_sides 0 0)) (mk_view (mk_sides m m') (mk_sides 0 0))
     /\ millisatoshis m + millisatoshis m' = satoshis (op_funding_sats f) * 1000 /\ millisatoshis m' = millisatoshis (push_msat f).
Proof.
  intros [[tm_opener tm_accepter tm_sats tm_push tm_affordable tm_feerate tm_asset tm_id tm_type tm_lanes tm_few_lanes tm_lane_type tm_issuer tm_their_points tm_our_points tm_their_key tm_our_key tm_first] Hl Hw
    (cid & m & c0 & Em & E & Ea) (cid' & c0' & E' & Ea')].
  apply initial_channel_inv in E as (m1 & Em1 & ->). apply initial_channel_inv in E' as (m2 & Em2 & ->).
  apply attached in Ea as [b ->]; [|done]. apply attached in Ea' as [b' ->]; [|done].
  rewrite <- tm_sats, <- tm_push in Em2. rewrite Em in Em2. injection Em2 as <-.
  assert (m1 = push_msat f) as Hm1.
  { apply amount_sat_sub_msat_spec in Em, Em1; try done. destruct m1 as [x], (push_msat f) as [y]. cbn in *. f_equal. lia. }
  destruct (sent_conf_fields _ _ tm_opener) as (O1 & O2 & O3). destruct (sent_conf_fields _ _ tm_accepter) as (A1 & A2 & A3).
  apply amount_sat_sub_msat_spec in Em1; [|done]. split.
  { intros []; constructor; unfold channel_feerate, channel_blockheight; cbn; try done; try congruence; rewrite ?Hl, ?tm_feerate; done. }
  split; [by intros []|]. repeat split; try done; try (by intros []).
  - by destruct (op_lanes f).
  - by intros ->.
  - exists m, m1. split; [done|]. split; [lia|]. by rewrite Hm1.
Qed.
End Channels.

(** ** The first transactions *)

Section FirstTx.
#[local] Set Default Proof Using "Type*".
Context (params : chainparams) (sha256 ripemd160 : list Z -> list Z).
Context (wlen : bool -> bitcoin_tx -> option nat) (wbytes : bool -> bitcoin_tx -> option (list Z)).
Context `{!Digest sha256 32, !Digest ripemd160 20}.
Context `{!Secp256k1, !Secp256k1Laws _} `{!Taproot, !Issuance}.
Context (keys keys' : channel_keys) (junk junk' : nat -> Z).

Lemma direct_outs_same lk rk op op' s t delay csv ks dust self oth n ao az marks cltv st : bool_decide (s = op) = bool_decide (t = op') ->
  add_direct_outs params sha256 ripemd160 lk rk op s delay csv ks dust self oth n ao az marks cltv st
  = add_direct_outs params sha256 ripemd160 lk rk op' t delay csv ks dust self oth n ao az marks cltv st.
Proof using Type. intros Hop. unfold add_direct_outs. by destruct s, t, op, op'. Qed.

Lemma initial_commit_tx_same funding sats asset fk fk' op op' delay ks feerate dust self oth reserve number s t csv ao az :
  bool_decide (s = op) = bool_decide (t = op') -> fk.[s] = fk'.[t] -> fk.[other s] = fk'.[other t] -> length fk.[LOCAL] = 33%nat -> length fk.[REMOTE] = 33%nat ->
  initial_commit_tx params sha256 ripemd160 wlen wbytes funding sats asset fk op delay ks feerate dust self oth reserve number s csv ao az
  = initial_commit_tx params sha256 ripemd160 wlen wbytes funding sats asset fk' op' delay ks feerate dust self oth reserve number t csv ao az.
Proof using Type.
  intros Ho Hk1 Hk2 L1 L2. unfold initial_commit_tx. rewrite <- Hk1, <- Hk2.
  replace (bitcoin_redeem_2of2 fk'.[LOCAL] fk'.[REMOTE]) with (bitcoin_redeem_2of2 fk.[LOCAL] fk.[REMOTE]).
  2:{ destruct s, t; cbn [other] in *; rewrite <- ?Hk1, <- ?Hk2; try done; by apply redeem_2of2_comm. }
  replace (try_subtract_fee op' t) with (try_subtract_fee op s).
  2:{ unfold try_subtract_fee. by destruct s, t, op, op'. }
  destruct (amount_msat_add self oth); [|done]. destruct (negb _); [|done]. cbn [assert_then].
  destruct (base_fee_with_anchors _ _ _ _ _) as [[fee|]|]; try done. cbn [mbind outcome_bind].
  destruct (try_subtract_fee op s fee self oth) as [[ok self'] oth']. destruct (negb ok); [done|]. destruct (_ && _); [done|].
  by rewrite (direct_outs_same _ _ op op' s t _ _ _ _ _ _ _ _ _ _ _ _ Ho).
Qed.

(** The signer's first transaction of the peer is the one the peer builds. *)
Lemma initial_channel_tx_same c c' point tx direct :
  mirrors REMOTE LOCAL c c' -> channel_reserve (config c).[LOCAL] = channel_reserve (config c').[REMOTE] -> agreed_sym_keys keys keys' ->
  htlcs c = None -> htlcs c' = None -> wf_sat (conf_dust_limit (config c).[REMOTE]) -> (forall f, channel_feerate c REMOTE = Ret f -> in_u32 f) ->
  initial_channel_tx params sha256 ripemd160 wlen wbytes keys c point REMOTE junk = Ret (inr (tx, direct)) ->
  exists direct', initial_channel_tx params sha256 ripemd160 wlen wbytes keys' c' point LOCAL junk' = Ret (inr (tx, direct')).
Proof.
  intros Hm Hres Hk Hh Hh' Hd Hf. unfold initial_channel_tx. rewrite Hh, Hh'. cbn [assert_then].
  pose proof Hk as (((Hb1 & Hb2 & Hf1 & Hf2 & _) & Hl1 & Hl2 & _) & _). cbn [other] in *. rewrite <- Hb1, <- Hb2.
  assert (Hhas : forall o, channel_has c' o = channel_has c o) by (intros; unfold channel_has; by rewrite (mir_type _ _ _ _ Hm)). rewrite !Hhas.
  destruct (derive_keyset _ _ _ _ _) as [ks|]; [|done].
  pose proof (mir_other _ _ _ _ Hm) as Mo. pose proof (mir_delay _ _ _ _ Hm) as Mdel. cbn [other] in Mo, Mdel.
  rewrite <- (mir_self _ _ _ _ Hm), <- Mo, <- Hres.
  destruct (channel_has c OPT_SEQ_SYMMETRIC).
  { unfold sym_channel_kickoff. rewrite <- (sym_channel_of_mirror params sha256 keys keys' c c' Hm Hk), <- Hf1, <- Hf2, (redeem_2of2_comm _ _ Hl1 Hl2),
      <- (mir_funding _ _ _ _ Hm), <- (mir_sats _ _ _ _ Hm). intros ->. by eexists. }
  pose proof (mir_feerate _ _ _ _ Hm) as Mf. rewrite <- Mf, <- (mir_asset _ _ _ _ Hm), <- Mdel, <- (mir_dust _ _ _ _ Hm), <- (mir_number _ _ _ _ Hm),
    <- (mir_funding _ _ _ _ Hm), <- (mir_sats _ _ _ _ Hm), <- Hf1, <- Hf2, <- (mir_lease _ _ _ _ Hm). cbn [other].
  destruct (channel_has c OPT_SEQ_TAPROOT_COVENANT).
  - destruct (_ && _); [done|]. destruct (channel_feerate c REMOTE) as [f|]; [|done]. cbn [mbind outcome_bind].
    pose proof (tcov_commit_tx_same params sha256 ripemd160 wlen wbytes (ChannelState.funding c) (ChannelState.funding_sats c) (channel_asset c)
      (funding_pubkey keys).[REMOTE] (funding_pubkey keys).[LOCAL] (opener c) (opener c') (to_self_delay (config c).[LOCAL]) ks point f
      (conf_dust_limit (config c).[REMOTE]) (owed (view c).[REMOTE]).[REMOTE] (owed (view c).[REMOTE]).[LOCAL] [] [] (commitment_number_obscurer c)
      REMOTE LOCAL (channel_tcov_credit sha256 ripemd160 keys c) (channel_tcov_credit sha256 ripemd160 keys' c') true junk junk' (Hf f eq_refl) Hd
      ltac:(done) ltac:(done) (mir_opener _ _ _ _ Hm) ltac:(done)) as E. cbn [fmap list_fmap] in E.
    specialize (E (channel_credit_mirror sha256 ripemd160 REMOTE LOCAL c c' keys keys' _ _ Hm ltac:(apply Hk))).
    destruct (tcov_commit_tx _ _ _ _ _ _ _ _ _ _ (opener c)) as [[com|]|], (tcov_commit_tx _ _ _ _ _ _ _ _ _ _ (opener c')) as [[com'|]|];
      try done. apply Ret_inj in E. injection E as E. cbn. intros [= <- _]. rewrite <- E. by eexists.
  - assert (Hao : has_anchor_outputs c' = has_anchor_outputs c) by (unfold has_anchor_outputs, channel_has; by rewrite (mir_type _ _ _ _ Hm)).
    assert (Haz : has_zero_fee_anchors c' = has_zero_fee_anchors c) by (unfold has_zero_fee_anchors, channel_has; by rewrite (mir_type _ _ _ _ Hm)).
    rewrite Hao, Haz, <- (mir_blockheight _ _ _ _ Hm). destruct (if lease_expiry c =? 0 then _ else _) as [csv|]; [|done]. cbn [mbind outcome_bind].
    destruct (channel_feerate c REMOTE) as [f|]; [|done]. cbn [mbind outcome_bind].
    rewrite (initial_commit_tx_same _ _ _ (funding_pubkey keys) (funding_pubkey keys') (opener c) (opener c') _ _ _ _ _ _ _ _ REMOTE LOCAL);
      [|apply Hm|done..]. intros E. by eexists.
Qed.
End FirstTx.

(** ** The first signatures *)

Section FirstSigs.
#[local] Set Default Proof Using "Type*".
Context (params : chainparams) (sha256 ripemd160 : list Z -> list Z).
Context (wlen : bool -> bitcoin_tx -> option nat) (wbytes : bool -> bitcoin_tx -> option (list Z)).
Context `{!Digest sha256 32, !Digest ripemd160 20}.
Context `{!Secp256k1, !Secp256k1Laws _} `{!Ecdsa, !EcdsaLaws _ _} (no_grind : bool) (attempts : nat).
Context (conf_value : Z -> option (list Z))
        (elements_hash : bitcoin_tx -> nat -> list Z -> list Z -> Z -> option (list Z))
        (btc_hash : bitcoin_tx -> nat -> list Z -> Z -> Z -> option (list Z)).
Context (hkdf : nat -> list Z -> list Z -> list Z -> outcome (list Z)).
Context `{!Taproot, !Issuance, !TaprootLaws _ _}.
Context (asort asort' : (sym_output htlc -> sym_output htlc -> comparison) -> list (sym_output htlc) -> list (sym_output htlc)).
Context `{!Sorter asort, !Sorter asort'}.
Context (zero_signature : ecdsa_signature).
(** The side that signs, and the one that checks. *)
Context (seed peer_id seed' peer_id' : list Z) (dbid dbid' : Z) (keys keys' : channel_keys).
Notation kickoff_sig := (sym_sign_kickoff params no_grind attempts conf_value elements_hash btc_hash hkdf seed peer_id dbid keys).
Notation sign_state := (sym_sign_state params sha256 hkdf seed peer_id dbid keys).
Notation check_sig := (check_first_sig params conf_value elements_hash btc_hash zero_signature keys').

(** hsmd holds the keys the peer was told. *)
Definition holds_opening_keys : Prop :=
  exists cs k, get_channel_seed hkdf seed peer_id dbid = Ret cs /\ derive_keys hkdf cs = Ret k
    /\ ec_pubkey_create (keys_f k) = Some (funding_pubkey keys).[LOCAL]
    /\ ec_pubkey_create (keys_h k) = Some (bp_htlc (chan_basepoints keys).[LOCAL])
    /\ ec_pubkey_create (keys_d k) = Some (bp_delayed_payment (chan_basepoints keys).[LOCAL]).

Lemma kickoff_checks tx sig : holds_opening_keys -> kickoff_sig tx = Ret sig ->
  check_tx_sig params conf_value elements_hash btc_hash tx 0 None
    (Some (bitcoin_redeem_2of2 (funding_pubkey keys).[LOCAL] (funding_pubkey keys).[REMOTE])) (funding_pubkey keys).[LOCAL] sig = Ret true
  /\ sighash_type sig = Z.lor SIGHASH_SINGLE SIGHASH_ANYONECANPAY.
Proof using EcdsaLaws0 Secp256k1Laws0.
  intros (cs & k & Hcs & Hk & Hf & _) E. unfold sym_sign_kickoff in E. apply bind_Ret_inv in E as (o & E & Eo). destruct o as [o|]; [|done].
  injection Eo as <-. unfold handle_sign_sym_kickoff in E. destruct (_ || _); [done|]. rewrite Hcs in E. cbn [mbind outcome_bind] in E.
  rewrite (derive_funding hkdf cs k _ Hk Hf) in E. cbn [mbind outcome_bind] in E.
  destruct (sign_tx_input _ _ _ _ _ _ _ _ _ _ _ _) as [x|] eqn:Ex; [|done]. injection E as ->.
  exact (sign_check params no_grind attempts conf_value elements_hash btc_hash _ _ _ _ _ _ _ _ Hf Ex).
Qed.

(** What hsmd signs of the peer's first transaction. *)
Definition first_signature (c : channel) (tx : bitcoin_tx) : outcome bitcoin_signature :=
  if channel_has c OPT_SEQ_SYMMETRIC then kickoff_sig tx
  else hsm_reply (handle_sign_remote_commitment_tx params no_grind attempts conf_value elements_hash btc_hash hkdf seed peer_id dbid
                    tx (funding_pubkey keys).[REMOTE]).

Lemma first_signature_checks c c' tx sig : mirrors REMOTE LOCAL c c' -> agreed_sym_keys keys keys' -> holds_opening_keys ->
  channel_has c OPT_SEQ_SYMMETRIC_FACTORY = false -> first_signature c tx = Ret sig -> check_sig c' tx (sig_s sig) = Agreed sig.
Proof using EcdsaLaws0 Secp256k1Laws0.
  intros Hm (((_ & _ & _ & _ & Hf1 & Hf2) & Hl1 & Hl2 & _) & _) Hh Hfac E. cbn [other] in *.
  assert (Hhas : forall o, channel_has c' o = channel_has c o) by (intros; unfold channel_has; by rewrite (mir_type _ _ _ _ Hm)).
  unfold check_first_sig, first_sighash, funding_wscript. rewrite !Hhas, Hfac, <- Hf1, <- Hf2, (redeem_2of2_comm _ _ Hl1 Hl2).
  unfold first_signature in E. destruct (channel_has c OPT_SEQ_SYMMETRIC).
  - destruct (kickoff_checks _ _ Hh E) as [Ec Et]. replace (mk_signature (sig_s sig) _) with sig by (rewrite <- Et; by destruct sig).
    by rewrite Ec.
  - destruct Hh as (cs & k & Hcs & Hk & Hf & Hkh & _).
    destruct (sign_commitment_checks params no_grind attempts conf_value elements_hash btc_hash hkdf seed peer_id dbid keys tx (funding_pubkey keys).[REMOTE] sig) as [Ec Et];
      [by exists cs, k|exact E|]. replace (mk_signature (sig_s sig) _) with sig by (rewrite <- Et; by destruct sig). by rewrite Ec.
Qed.

(** The first states. *)
Lemma first_state_same c c' st : mirrors REMOTE LOCAL c c' -> agreed_sym_keys keys keys' -> htlcs c = None -> htlcs c' = None -> sym_lanes c = None ->
  wf_sat (ChannelState.funding_sats c) -> (forall s, wf_msat (owed (view c).[REMOTE]).[s]) ->
  tied (ChannelState.funding_sats c) (opener c) (sym_dust_limit c) ([] : list (sym_htlc htlc)) (owed (view c).[REMOTE]) = false ->
  sym_channel_state sha256 ripemd160 asort keys c REMOTE 0 [] None = Ret (inr st) ->
  exists st', sym_channel_state sha256 ripemd160 asort' keys' c' LOCAL 0 [] None = Ret (inr st') /\ st_num st' = st_num st /\ st_outs st' = st_outs st.
Proof using Sorter0 Sorter1.
  intros Hm Hk Hh Hh' Hl Hs Ho Htie E. unfold sym_channel_state in *. rewrite <- (mir_lanes _ _ _ _ Hm). rewrite Hl in *.
  apply bind_Ret_inv in E as (r & E & Er). apply bind_Ret_inv in E as (r' & E & Er'). destruct r' as [w|outs]; injection Er' as <-; [done|].
  destruct Hk as (((Hb1 & Hb2 & _) & _) & _). cbn [other] in *.
  destruct (settlement_agrees sha256 ripemd160 asort asort' REMOTE LOCAL _ (opener c) (opener c') (pay_points keys) (pay_points keys')
    (htlc_points keys) (htlc_points keys') _ (owed (view c').[LOCAL]) [] [] (sym_dust_limit c) outs Hs Ho) as (outs' & E' & Ek & Has); [..|exact E|]; try done.
  - apply Hm.
  - unfold seen, pay_points. rewrite !sel_map. cbn [other]. by rewrite Hb1, Hb2.
  - unfold seen, htlc_points. rewrite !sel_map. cbn [other]. by rewrite Hb1, Hb2.
  - split; apply Hm.
  - rewrite <- (dust_limit_mirror c c' Hm), <- (mir_sats _ _ _ _ Hm), E'. cbn [mbind outcome_bind].
    rewrite <- (mir_opener _ _ _ _ Hm). apply bind_Ret_inv in Er as (num & -> & Er). injection Er as <-. cbn [mbind outcome_bind].
    eexists. split; [reflexivity|]. split; [done|]. cbn [sym_state_new st_outs].
    apply Forall_app in Has as [Ha Ha']. by symmetry; apply state_outs_keys.
Qed.

(** What the peer makes of our signature on its first state. *)
Lemma first_local_unblamed c c' r : mirrors REMOTE LOCAL c c' -> agreed_sym_keys keys keys' -> holds_opening_keys -> htlcs c = None -> htlcs c' = None ->
  sym_lanes c = None -> wf_sat (ChannelState.funding_sats c) -> (forall s, wf_msat (owed (view c).[REMOTE]).[s]) ->
  tied (ChannelState.funding_sats c) (opener c) (sym_dust_limit c) ([] : list (sym_htlc htlc)) (owed (view c).[REMOTE]) = false ->
  sym_first_remote params sha256 ripemd160 hkdf asort seed peer_id dbid keys c = Agreed (Some r) ->
  unblamed (sym_first_local params sha256 ripemd160 hkdf asort' seed' peer_id' dbid' keys' c' (Some (st_sig r).[LOCAL])).
Proof.
  intros Hm Hk Hh Hn Hn' Hl Hs Ho Ht E. unfold sym_first_remote in E. step E as x Ex. destruct x as [w|st]; [done|]. step E as sig Es. injection E as <-.
  destruct (first_state_same c c' st Hm Hk Hn Hn' Hl Hs Ho Ht Ex) as (st' & E' & En & Eo).
  unfold sym_first_local. rewrite E'. cbn [sure mbind negotiation_bind]. replace (st_sig (add_sig LOCAL sig st)).[LOCAL] with sig by (by destruct (st_sig st)).
  rewrite (update_sig_checks params sha256 keys keys' hkdf seed peer_id dbid c c' st st' sig Hm Hk); [|..|exact En|exact Eo|].
  - cbn [sure mbind negotiation_bind negb fail_if]. unblamed_step ours Eours. done.
  - destruct Hh as (cs & k & ? & ? & ? & ? & ?). exists cs, k. by repeat split.
  - done.
  - revert Es. unfold sym_sign_state, sym_channeld_sign. by rewrite Hl.
Qed.
End FirstSigs.

(** Balances that are both dust are not a whole channel. *)
Lemma large_untied {handle} f op d (bal : sides amount_msat_t) : 2 * satoshis d <= satoshis f -> tied f op d ([] : list (sym_htlc handle)) bal = false.
Proof.
  intros Hd. unfold tied, dusty. cbv zeta. pose proof (node_of_sum f op (settled_bal d ([] : list (sym_htlc handle)) bal) (settled_total d ([] : list (sym_htlc handle)))) as E.
  cbn [settled_total sum_with satoshis] in E. set (n := node_of _ _ _ _) in *. clearbody n. change (sum_with _ []) with 0 in E. apply not_true_iff_false. rewrite !andb_true_iff, !Z.ltb_lt. lia.
Qed.
Lemma mirrors_sym s t c c' : mirrors s t c c' -> mirrors t s c' c.
Proof. intros []. by split. Qed.
