(* ===== verification/OpenHonest.v ===== *)
(** * An honest opening is signed

    Two nodes that follow [openingd] and agree on a channel's terms never
    reject each other's [funding_created] or [funding_signed]. *)

From stdpp Require Import list.
From S2P Require Import Prelude Chainparams Amount HtlcState Wire FeeStates CommitFee Features Script Shachain Keys Tapscript ChannelState Tx SymScripts Opening TcovScripts SymSettle SymState SymFactory Channel SymChannel CommitTx Signature LaneWire PeerState Peer Signer Opend CommitAgree CommitMirror SignerFacts SymFacts OpenFacts.
Local Open Scope Z_scope.

Lemma sub_msat_wf a b c : wf_sat a -> 0 <= millisatoshis b -> amount_sat_sub_msat a b = Some c -> wf_msat b /\ wf_msat c.
Proof.
  intros Ha Hb. unfold amount_sat_sub_msat. rewrite amount_sat_to_msat_spec by lia. case_match eqn:E; [|done]. cbn.
  intros [Hle ->]%amount_msat_sub_spec. cbn in *. apply Z.leb_le in E. split; cbn; lia.
Qed.
Lemma affordable a b : wf_sat a -> amount_msat_greater_sat b a = false -> is_Some (amount_sat_to_msat a) -> is_Some (amount_sat_sub_msat a b).
Proof.
  intros Ha. unfold amount_msat_greater_sat, amount_sat_sub_msat. intros E [m Em]. rewrite Em in *. cbn. apply Z.ltb_ge in E.
  exists (mk_msat (millisatoshis m - millisatoshis b)). by apply amount_msat_sub_spec.
Qed.

Section Signing.
#[local] Set Default Proof Using "Type*".
Context (params : chainparams) (sha256 ripemd160 : list Z -> list Z).
Context (wlen : bool -> bitcoin_tx -> option nat) (wbytes : bool -> bitcoin_tx -> option (list Z)).
Context `{!Digest sha256 32, !Digest ripemd160 20}.
Context `{!Secp256k1, !Secp256k1Laws _} `{!Ecdsa, !EcdsaLaws _ _}.
Context (conf_value : Z -> option (list Z))
        (elements_hash : bitcoin_tx -> nat -> list Z -> list Z -> Z -> option (list Z))
        (btc_hash : bitcoin_tx -> nat -> list Z -> Z -> Z -> option (list Z)).
Context (hkdf : nat -> list Z -> list Z -> list Z -> outcome (list Z)).
Context `{!Taproot, !Issuance, !TaprootLaws _ _}.
Context (zero_signature : ecdsa_signature).

(** One side signs for the channel [c] with [keys], the other checks for [c']
    with [keys']. *)
Record counterparts (keys keys' : channel_keys) (c c' : channel) : Prop := {
  cp_mirror : mirrors REMOTE LOCAL c c';
  cp_reserve : channel_reserve (config c).[LOCAL] = channel_reserve (config c').[REMOTE];
  cp_keys : agreed_sym_keys keys keys';
  cp_htlcs : htlcs c = None;
  cp_htlcs' : htlcs c' = None;
  cp_lanes : sym_lanes c = None;
  cp_factory : channel_has c OPT_SEQ_SYMMETRIC_FACTORY = false;
  cp_dust : wf_sat (conf_dust_limit (config c).[REMOTE]);
  cp_feerate : forall f, channel_feerate c REMOTE = Ret f -> in_u32 f;
  cp_sats : wf_sat (ChannelState.funding_sats c);
  cp_owed : forall s, wf_msat (owed (view c).[REMOTE]).[s];
  cp_large : channel_has c OPT_SEQ_SYMMETRIC = true -> 2 * satoshis (sym_dust_limit c) <= satoshis (ChannelState.funding_sats c);
}.

Section OneSide.
Context (no_grind : bool) (attempts : nat).
Context (asort asort' : (sym_output htlc -> sym_output htlc -> comparison) -> list (sym_output htlc) -> list (sym_output htlc)).
Context `{!Sorter asort, !Sorter asort'}.
Context (seed peer_id seed' peer_id' : list Z) (dbid dbid' : Z) (junk junk' : nat -> Z).

(** What is sent for a first transaction: hsmd's signature, and on a symmetric
    channel that on the first state. *)
Definition sends_first (keys : channel_keys) (c : channel) (tx : bitcoin_tx) (sig : bitcoin_signature) (sym_sig : option (list Z)) : Prop :=
  first_signature params no_grind attempts conf_value elements_hash btc_hash hkdf seed peer_id dbid keys c tx = Ret sig
  /\ if channel_has c OPT_SEQ_SYMMETRIC
     then exists r, sym_first_remote params sha256 ripemd160 hkdf asort seed peer_id dbid keys c = Agreed (Some r) /\ sym_sig = Some (st_sig r).[LOCAL]
     else sym_sig = None.

Lemma first_accepted keys keys' c c' point tx direct sig sym_sig : counterparts keys keys' c c' ->
  holds_opening_keys hkdf seed peer_id dbid keys ->
  first_tx params sha256 ripemd160 wlen wbytes junk keys c point REMOTE = Agreed (tx, direct) -> sends_first keys c tx sig sym_sig ->
  (exists direct', first_tx params sha256 ripemd160 wlen wbytes junk' keys' c' point LOCAL = Agreed (tx, direct'))
  /\ unblamed (check_first params sha256 ripemd160 hkdf asort' seed' peer_id' dbid' keys' c' sym_sig)
  /\ check_first_sig params conf_value elements_hash btc_hash zero_signature keys' c' tx (sig_s sig) = Agreed sig.
Proof.
  intros [Hm Hr Hk Hh Hh' Hl Hfac Hd Hf Hs Ho Hlarge] Hold Et [Esig Esym]. split; [|split].
  - unfold first_tx in Et. step Et as r Er. destruct r as [|r]; [done|]. injection Et as ->.
    destruct (initial_channel_tx_same params sha256 ripemd160 wlen wbytes keys keys' junk junk' c c' point tx direct Hm Hr Hk Hh Hh' Hd Hf Er) as [direct' E'].
    exists direct'. unfold first_tx. by rewrite E'.
  - unfold check_first. assert (channel_has c' OPT_SEQ_SYMMETRIC = channel_has c OPT_SEQ_SYMMETRIC) as -> by (unfold channel_has; by rewrite (mir_type _ _ _ _ Hm)).
    destruct (channel_has c OPT_SEQ_SYMMETRIC) eqn:Ht.
    + destruct Esym as (r & Er & ->). apply unblamed_bind; [|auto with opening].
      eapply (first_local_unblamed params sha256 ripemd160 hkdf asort asort'); try done. apply large_untied. by apply Hlarge.
    + unblamed_step u Eu; [|done]. unfold validate_initial_commitment_signature. unblamed_step x Ex. done.
  - eapply (first_signature_checks params no_grind attempts conf_value elements_hash btc_hash hkdf); done.
Qed.
End OneSide.

(** ** Both sides *)

Context `{!CompactSigs _} (unset : ecdsa_signature).
Context (eF eA : open_env).
Context (no_grind no_grind' : bool) (attempts attempts' : nat).
Context (asort asort' : (sym_output htlc -> sym_output htlc -> comparison) -> list (sym_output htlc) -> list (sym_output htlc)).
Context `{!Sorter asort, !Sorter asort'}.
Context (seed peer_id seed' peer_id' : list Z) (dbid dbid' : Z) (junk junk' : nat -> Z).

Notation complete := (funder_channel_complete params sha256 ripemd160 wlen wbytes no_grind attempts conf_value elements_hash btc_hash hkdf asort
                        zero_signature junk seed peer_id dbid eF).
Notation created := (fundee_channel_created params sha256 ripemd160 wlen wbytes no_grind' attempts' conf_value elements_hash btc_hash hkdf asort'
                       zero_signature unset junk' seed' peer_id' dbid' eA).
Notation signed := (funder_channel_signed params sha256 ripemd160 wlen wbytes conf_value elements_hash btc_hash hkdf asort
                      zero_signature unset junk seed peer_id dbid eF).
Notation sendsF := (sends_first no_grind attempts asort seed peer_id dbid).
Notation sendsA := (sends_first no_grind' attempts' asort' seed' peer_id' dbid').

(** What the opener sends. *)
Lemma complete_inv st funding type factory outnums cr fc :
  channel_type_has type OPT_SEQ_SYMMETRIC_FACTORY = false -> op_lanes st = [] -> complete st funding type factory outnums = Agreed (cr, fc) ->
  let st' := completed st type outnums in let keys := our_keys eF st' in let c := cr_channel cr in
  exists m c0 tx direct sig sym_sig, amount_sat_sub_msat (op_funding_sats st') (push_msat st') = Some m
    /\ initial_channel params sha256 eF st' (derive_channel_id funding) funding m LOCAL = Agreed c0 /\ sym_attach_lanes [] c0 = Ret c
    /\ first_tx params sha256 ripemd160 wlen wbytes junk keys c (first_per_commitment_point st').[REMOTE] REMOTE = Agreed (tx, direct)
    /\ sendsF keys c tx sig sym_sig /\ cr_state cr = st' /\ op_lanes st' = []
    /\ fc = mk_funding_created (op_channel_id st') (txid funding) (outnum funding) (sig_s sig) sym_sig None None.
Proof using Type.
  intros Hfac Hl E. cbv zeta. unfold funder_channel_complete in E. destruct (negb _); [done|].
  set (st' := completed st type outnums) in *. assert (op_lanes st' = []) as Hl' by (cbn; by rewrite Hl). rewrite Hl' in E.
  apply nbind_Agreed in E as (m & Em & E). destruct (amount_sat_sub_msat _ _) as [m'|] eqn:Esub; [|done]. injection Em as ->.
  step E as c0 Ec. step E as c Ea. step E as r Et. destruct r as [tx direct]. step E as pbase Ep.
  assert (Hln : sym_lanes c = None). { apply initial_channel_inv in Ec as (m' & _ & ->). by injection Ea as <-. }
  assert (Hty : chan_type c = type). { apply initial_channel_inv in Ec as (m' & _ & ->). by injection Ea as <-. }
  assert (Hf : channel_has c OPT_SEQ_SYMMETRIC_FACTORY = false) by (unfold channel_has; by rewrite Hty).
  exists m, c0, tx, direct. destruct (channel_has c OPT_SEQ_SYMMETRIC) eqn:Hs.
  - step E as early Ee. step E as y Ey. destruct y as [sig fac]. rewrite Hf in Ey. step Ey as sig' Esig. injection Ey as <- <-.
    step E as remote Er. step E as lsigs El. step E as blob Eb. rewrite Hln in Eb. injection Eb as <-. injection E as <- <-. cbn [cr_channel cr_state].
    exists sig', (Some (st_sig remote).[LOCAL]). do 4 (split; [done|]). split; [|done]. split; [unfold first_signature; by rewrite Hs|]. rewrite Hs.
    exists remote. split; [|done].
    assert (first_remote_or_fail params sha256 ripemd160 hkdf asort seed peer_id dbid (our_keys eF st') c = Agreed remote) as Ef.
    { destruct (sym_issuer _); [|by injection Ee as <-]. step Ee as r Er'. injection Ee as <-. by injection Er as <-. }
    unfold first_remote_or_fail in Ef. step Ef as o Eo. destruct o as [o|]; [|done]. by injection Ef as ->.
  - step E as sig Esig. injection E as <- <-. cbn [cr_channel cr_state]. exists sig, None. do 4 (split; [done|]). split; [|done].
    split; [unfold first_signature|]; by rewrite Hs.
Qed.

(** What the accepter sends back. *)
Lemma sign_first_remote_inv st keys c tx direct id r msg : channel_has c OPT_SEQ_SYMMETRIC_FACTORY = false -> sym_lanes c = None ->
  sign_first_remote params sha256 ripemd160 wlen wbytes no_grind' attempts' conf_value elements_hash btc_hash hkdf asort' zero_signature seed' peer_id' dbid'
    st keys c tx direct id = Agreed (r, msg) ->
  exists sig sym_sig, sendsA keys c tx sig sym_sig /\ msg = mk_funding_signed id (sig_s sig) sym_sig None.
Proof using Type.
  intros Hf Hln E. unfold sign_first_remote in E. destruct (channel_has c OPT_SEQ_SYMMETRIC) eqn:Hs.
  - step E as early Ee. rewrite Hf in E. step E as sig Esig. step E as remote Er. destruct remote as [remote|]; [|done]. rewrite Hln in E.
    cbn [mbind negotiation_bind] in E. injection E as _ <-. exists sig, (Some (st_sig remote).[LOCAL]). split; [|done].
    split; [unfold first_signature; by rewrite Hs|]. rewrite Hs. exists remote. split; [|done]. destruct (sym_issuer keys); [by injection Er as ->|done].
  - step E as sig Esig. apply nbind_Agreed in E as (u & _ & E). step E as pbase Ep. injection E as _ <-. exists sig, None. split; [|done].
    split; [unfold first_signature; by rewrite Hs|by rewrite Hs].
Qed.
Lemma sign_first_remote_unblamed st keys c tx direct id : unblamed
  (sign_first_remote params sha256 ripemd160 wlen wbytes no_grind' attempts' conf_value elements_hash btc_hash hkdf asort' zero_signature seed' peer_id' dbid'
    st keys c tx direct id).
Proof using Type.
  assert (unblamed (sym_first_remote params sha256 ripemd160 hkdf asort' seed' peer_id' dbid' keys c)) as Hr.
  { unfold sym_first_remote. unblamed_step r Er. destruct r; [done|]. unblamed_step x Ex. done. }
  unfold sign_first_remote. destruct (channel_has _ OPT_SEQ_SYMMETRIC).
  - apply unblamed_bind; [by destruct (sym_issuer keys)|]. intros early _. apply unblamed_bind; [destruct (channel_has _ _); auto with opening|].
    intros sig _. apply unblamed_bind; [by destruct (sym_issuer keys)|]. intros [remote|] _; [|done].
    apply unblamed_bind; [|done]. destruct (sym_lanes c); [|done]. by unblamed_step x Ex.
  - unblamed_step sig Es. apply unblamed_bind; [by destruct (_ =? _)|]. intros _ _. apply unblamed_bind; [|done]. unfold pbase_of. destruct direct; [|done]. by unblamed_step x Ex.
Qed.

(** What the two nodes bring: amounts of their types, keys whose secrets their
    hsmds hold, and on a symmetric channel a funding that is not all dust. *)
Record well_founded (f a : open_state) : Prop := {
  wo_sats : wf_sat (op_funding_sats f);
  wo_push : 0 <= millisatoshis (push_msat f);
  wo_feerate : in_u32 (op_feerate f);
  wo_dust : wf_sat (conf_dust_limit (localconf f));
  wo_their_dust : wf_sat (conf_dust_limit (remoteconf f));
  wo_funding_keys : length (our_funding_pubkey eF) = 33%nat /\ length (our_funding_pubkey eA) = 33%nat;
  wo_payment_keys : length (bp_payment (our_points eF)) = 33%nat /\ length (bp_payment (our_points eA)) = 33%nat;
  wo_opener_hsm : holds_opening_keys hkdf seed peer_id dbid (our_keys eF f);
  wo_accepter_hsm : holds_opening_keys hkdf seed' peer_id' dbid' (our_keys eA a);
  wo_large : channel_type_has (op_type f) OPT_SEQ_SYMMETRIC = true ->
    2 * satoshis (conf_dust_limit (localconf f)) <= satoshis (op_funding_sats f)
    /\ 2 * satoshis (conf_dust_limit (remoteconf f)) <= satoshis (op_funding_sats f);
}.

Lemma dust_limit_large c s : 2 * satoshis (conf_dust_limit (config c).[LOCAL]) <= s -> 2 * satoshis (conf_dust_limit (config c).[REMOTE]) <= s ->
  2 * satoshis (sym_dust_limit c) <= s.
Proof using Type. unfold sym_dust_limit. by destruct (amount_sat_greater _ _). Qed.

Lemma channels_counterparts f a funding c c' : channels_of params sha256 eF eA f a funding c c' -> well_founded f a -> op_lanes f = [] ->
  channel_type_has (op_type f) OPT_SEQ_SYMMETRIC_FACTORY = false ->
  counterparts (our_keys eF f) (our_keys eA a) c c' /\ counterparts (our_keys eA a) (our_keys eF f) c' c.
Proof using Type.
  intros Hc [] Hl Hfac. pose proof Hc as [Ht _ _ _ _].
  destruct (channels_mirror params sha256 eF eA f a funding c c' Hc) as (Hm & Hres & _ & Hh & Hh' & _ & Hf & Hln & Hty & _ & Hsats & m & m' & Hv & Hsum & Hpush).
  assert (Hw : wf_msat m /\ wf_msat m').
  { destruct Hc as [_ _ _ (cid0 & m0 & c0 & Em & E0 & Ea) _]. apply initial_channel_inv in E0 as (m1 & Em1 & ->). apply attached in Ea as [b ->]; [|done].
    injection Hv as -> ->. destruct (sub_msat_wf _ _ _ wo_sats0 wo_push0 Em) as [_ Hm0]. split; [done|].
    by apply (sub_msat_wf (op_funding_sats f) m); [|apply Hm0|]. }
  assert (Hconf : conf_dust_limit (config c).[LOCAL] = conf_dust_limit (localconf f) /\ conf_dust_limit (config c).[REMOTE] = conf_dust_limit (remoteconf f)).
  { destruct Hc as [_ _ _ (cid0 & m0 & c0 & Em & E0 & Ea) _]. apply initial_channel_inv in E0 as (m1 & Em1 & ->). by apply attached in Ea as [b ->]. }
  assert (Hlarge : channel_has c OPT_SEQ_SYMMETRIC = true -> 2 * satoshis (sym_dust_limit c) <= satoshis (ChannelState.funding_sats c)).
  { unfold channel_has. rewrite Hty, Hsats. intros Hs. destruct (wo_large0 Hs). apply dust_limit_large; by rewrite ?(proj1 Hconf), ?(proj2 Hconf). }
  pose proof (Hm REMOTE) as HmR. pose proof (mirrors_sym _ _ _ _ (Hm LOCAL)) as HmL. cbn [other] in HmR, HmL.
  assert (Hhas : forall o, channel_has c' o = channel_has c o) by (intros; unfold channel_has; by rewrite (mir_type _ _ _ _ HmR)).
  assert (Hown : forall s, wf_msat (owed (view c).[LOCAL]).[s] /\ wf_msat (owed (view c).[REMOTE]).[s]) by (rewrite Hv; intros []; split; apply Hw).
  assert (Hk : agreed_sym_keys (our_keys eF f) (our_keys eA a) /\ agreed_sym_keys (our_keys eA a) (our_keys eF f)).
  { destruct Ht, wo_funding_keys0, wo_payment_keys0. repeat split; cbn; congruence. }
  destruct Hk, Hconf as [Hd1 Hd2]. unfold channel_has in Hlarge. rewrite Hty in Hlarge. split; constructor; unfold channel_has; rewrite <- ?(mir_type _ _ _ _ HmR), ?Hty,
    <- ?(mir_sats _ _ _ _ HmR), <- ?(dust_limit_mirror c c' HmR), <- ?(mir_lanes _ _ _ _ HmR), ?Hd2, ?(mir_dust _ _ _ _ HmL), ?Hd1; try done.
  - by apply Hln.
  - intros x. rewrite Hf. by intros [= <-].
  - by rewrite Hsats.
  - apply Hown.
  - by apply Hln.
  - intros x. rewrite (mir_feerate _ _ _ _ HmL), Hf. by intros [= <-].
  - by rewrite Hsats.
  - pose proof (mir_self _ _ _ _ HmL) as E1. pose proof (mir_other _ _ _ _ HmL) as E2. cbn [other] in E2. intros []; rewrite ?E1, ?E2; apply Hown.
Qed.

(** The opener's terms once lightningd says where the funding is. *)
Lemma completed_terms f a outnums : same_terms eF eA f a -> op_lanes f = [] -> same_terms eF eA (completed f (op_type f) outnums) a.
Proof using Type. intros [] Hl. rewrite Hl in *. constructor; cbn; rewrite ?Hl; done. Qed.
Lemma no_lanes_here f a : same_terms eF eA f a -> channel_type_has (op_type f) OPT_SEQ_SYMMETRIC_LANES = false -> op_lanes f = [] /\ op_lanes a = [].
Proof using Type.
  intros [] Hn. assert (op_lanes f = []) as Hl by (destruct (op_lanes f); [done|]; by rewrite (proj1 tm_lane_type ltac:(done)) in Hn). split; [done|].
  rewrite Hl in tm_lanes. by destruct (op_lanes a).
Qed.

(** The accepter's channel for a [funding_created] of an honest opener. *)
Lemma accepter_channel f a m c0 c funding outnums : same_terms eF eA f a -> well_founded f a -> op_lanes f = [] -> op_lanes a = [] ->
  let f' := completed f (op_type f) outnums in
  amount_sat_sub_msat (op_funding_sats f') (push_msat f') = Some m ->
  initial_channel params sha256 eF f' (derive_channel_id funding) funding m LOCAL = Agreed c0 -> sym_attach_lanes [] c0 = Ret c ->
  exists c', initial_channel params sha256 eA a (op_channel_id a) funding (push_msat a) REMOTE = Agreed c'
    /\ channels_of params sha256 eF eA f' a funding c c'.
Proof using Type.
  intros Ht Hw Hl Hl' f' Em E0 Ea. pose proof (completed_terms f a outnums Ht Hl) as Ht'.
  destruct (amount_sat_sub_msat (op_funding_sats a) (push_msat a)) as [m'|] eqn:Em'.
  2:{ rewrite <- (tm_sats _ _ _ _ Ht), <- (tm_push _ _ _ _ Ht) in Em'. cbn in Em. congruence. }
  assert (exists c', initial_channel params sha256 eA a (op_channel_id a) funding (push_msat a) REMOTE = Agreed c') as [c' E'].
  { unfold initial_channel, new_initial_channel. rewrite Em'. by eexists. }
  exists c'. split; [exact E'|]. constructor; [done|cbn; by rewrite Hl, Hl'|by destruct Hw| |].
  - exists (derive_channel_id funding), m, c0. split; [done|]. split; [done|]. cbn. by rewrite Hl.
  - exists (op_channel_id a), c'. split; [done|]. by rewrite Hl'.
Qed.

(** What the accepter does once the opener's signatures are good. *)
Lemma created_unfold a flags c' tx direct' sig sym_sig funding : op_lanes a = [] -> channel_type_has (op_type a) OPT_SEQ_SYMMETRIC_FACTORY = false ->
  channel_type_has (op_type a) OPT_SEQ_SYMMETRIC_LANES = false ->
  initial_channel params sha256 eA a (op_channel_id a) funding (push_msat a) REMOTE = Agreed c' ->
  first_tx params sha256 ripemd160 wlen wbytes junk' (our_keys eA a) c' (first_per_commitment_point a).[LOCAL] LOCAL = Agreed (tx, direct') ->
  check_first_sig params conf_value elements_hash btc_hash zero_signature (our_keys eA a) c' tx (sig_s sig) = Agreed sig ->
  created a flags (mk_funding_created (op_channel_id a) (txid funding) (outnum funding) (sig_s sig) sym_sig None None)
  = (sym_local ← check_first params sha256 ripemd160 hkdf asort' seed' peer_id' dbid' (our_keys eA a) c' sym_sig;
     '(remote_commit, direct) ← first_tx params sha256 ripemd160 wlen wbytes junk' (our_keys eA a) c' (first_per_commitment_point a).[REMOTE] REMOTE;
     '(pbase, kickoff, sym_remote, msg) ← sign_first_remote params sha256 ripemd160 wlen wbytes no_grind' attempts' conf_value elements_hash btc_hash
        hkdf asort' zero_signature seed' peer_id' dbid' (set_op_lanes [] a) (our_keys eA a) c' remote_commit direct.[LOCAL] (derive_channel_id funding);
     Agreed (mk_opened c' (set_op_lanes [] a) tx sig pbase kickoff sym_local sym_remote [], msg)).
Proof using Type.
  intros Hl Hf Hn Ec Et Es. unfold fundee_channel_created, check_factory, created_lanes. cbn [fc_id fc_txid fc_outnum fc_sig fc_sym_sig fc_factory fc_lanes].
  rewrite Hf, Hn, Hl. replace (mk_outpoint (txid funding) (outnum funding)) with funding by (by destruct funding).
  rewrite bool_decide_false by (intros X; exact (X eq_refl)). cbn [mbind negotiation_bind negb fail_if]. rewrite Ec.
  cbn [length Nat.eqb negb fail_if mbind negotiation_bind sym_attach_lanes sure sym_check_lane_kickoffs].
  change (first_per_commitment_point (set_op_lanes [] a)) with (first_per_commitment_point a). rewrite Et. cbn [mbind negotiation_bind]. by rewrite Es.
Qed.

Lemma first_tx_unblamed j keys c point s : unblamed (first_tx params sha256 ripemd160 wlen wbytes j keys c point s).
Proof using Type. unfold first_tx. unblamed_step r Er. by destruct r. Qed.

(** The opener at an honest [funding_signed]. *)
Lemma signed_unblamed cr a c' tx direct sig sym_sig : counterparts (our_keys eA a) (our_keys eF (cr_state cr)) c' (cr_channel cr) ->
  holds_opening_keys hkdf seed' peer_id' dbid' (our_keys eA a) ->
  first_tx params sha256 ripemd160 wlen wbytes junk' (our_keys eA a) c' (first_per_commitment_point (cr_state cr)).[LOCAL] REMOTE = Agreed (tx, direct) ->
  sendsA (our_keys eA a) c' tx sig sym_sig -> unblamed (signed cr (mk_funding_signed (cid (cr_channel cr)) (sig_s sig) sym_sig None)).
Proof.
  intros Hcp Hh Et Hs. unfold funder_channel_signed. cbn [fs_id fs_sig fs_sym_sig fs_lanes]. rewrite bool_decide_false by (intros X; exact (X eq_refl)).
  pose proof (first_accepted no_grind' attempts' asort' asort seed' peer_id' seed peer_id dbid' dbid junk' junk _ _ _ _ _ tx direct sig sym_sig Hcp Hh Et Hs)
    as ([direct' Etx] & Hfirst & Hsig). cbn [mbind negotiation_bind fail_if]. rewrite Etx. cbn [mbind negotiation_bind].
  apply unblamed_bind; [exact Hfirst|]. intros sl _. rewrite <- (mir_lanes _ _ _ _ (cp_mirror _ _ _ _ Hcp)), (cp_lanes _ _ _ _ Hcp).
  cbn [mbind negotiation_bind]. by rewrite Hsig.
Qed.

End Signing.
