(* ===== verification/OnchainState.v ===== *)
(** * What onchaind keeps (onchaind/onchaind.c)

    onchaind watches the outputs of a closed channel until they are resolved
    for good: it tells lightningd how to spend what is ours, and lightningd
    tells it what the chain did.  This file has its data, the messages between
    the two, and the steps every handler is made of.  The static variables are
    the record [onchaind]; what lightningd sent and onchaind has not read is
    [inbox], what it put off is [queued_msgs], and what it wrote, in order,
    [sent].  Log lines and the billboard are left out; memory that is not
    initialized is an argument. *)

From stdpp Require Import list.
From S2P Require Import Prelude Chainparams Amount HtlcState CommitFee Script Keys Tapscript ChannelState Tx SymScripts TcovScripts SymState Signature CommitTx.
Local Open Scope Z_scope.

Inductive tx_type :=
| FUNDING_TRANSACTION | MUTUAL_CLOSE | THEIR_UNILATERAL | UNKNOWN_UNILATERAL | OUR_UNILATERAL | THEIR_REVOKED_UNILATERAL
| THEIR_HTLC_TIMEOUT_TO_THEM | THEIR_HTLC_FULFILL_TO_US | OUR_HTLC_TIMEOUT_TO_US | OUR_HTLC_FULFILL_TO_THEM
| OUR_HTLC_TIMEOUT_TX | OUR_HTLC_SUCCESS_TX | OUR_DELAYED_RETURN_TO_WALLET | THEIR_DELAYED_CHEAT | OUR_PENALTY_TX
| CREDIT_CLAIM | CREDIT_SWEEP_TO_THEM | SYM_UPDATE | SYM_SETTLE | IGNORING_TINY_PAYMENT | SELF | UNKNOWN_TXTYPE.
Inductive output_type :=
| FUNDING_OUTPUT | OUTPUT_TO_US | DELAYED_OUTPUT_TO_THEM | DELAYED_CHEAT_OUTPUT_TO_THEM | DELAYED_OUTPUT_TO_US | OUTPUT_TO_THEM
| THEIR_HTLC | OUR_HTLC | ELEMENTS_FEE | ANCHOR_TO_US | ANCHOR_TO_THEM | CREDIT_OUTPUT_TO_US | CREDIT_OUTPUT_TO_THEM
| SYM_STATE_OUTPUT.
#[export] Instance tx_type_eq_dec : EqDecision tx_type.
Proof. solve_decision. Defined.
#[export] Instance output_type_eq_dec : EqDecision output_type.
Proof. solve_decision. Defined.

(** [has_lock_point] and [lock_point]. *)
Record htlc_stub := mk_stub {
  stub_owner : side;
  stub_cltv_expiry : Z;
  stub_id : Z;
  stub_ripemd : list Z;
  stub_lock_point : option (list Z);
}.

(** ** Transactions as onchaind sees them (bitcoin/tx_parts.h) *)

(** [None] is a NULL witness. *)
Record part_input := mk_part_input { pi_outpoint : outpoint; pi_sequence : Z; pi_witness : option (list (list Z)) }.
(** [None] is an input or an output that is left out. *)
Record tx_parts := mk_tx_parts { tp_txid : list Z; tp_inputs : list (option part_input); tp_outputs : list (option tx_output) }.

Definition wally_tx_input_spends (input : option part_input) (o : outpoint) : bool :=
  match input with Some i => bool_decide (pi_outpoint i = o) | None => false end.
Definition wally_tx_output_scripteq (out : tx_output) (script : list Z) : bool := bool_decide (out_script out = script).

(** ** Messages *)

(** [struct onchain_witness_element] *)
Record welement := mk_welement { is_signature : bool; welement_bytes : list Z }.
(** A note of credit we hold. *)
Record credit_note_held := mk_note { note_credit : Z; note_payment_hash : list Z; note_sig : list Z; note_preimage : list Z }.
(** [struct htlcs_info], its three arrays as one of [struct htlc_with_tells]. *)
Record htlc_with_tells := mk_tells { hw_htlc : htlc_stub; tell_if_missing : bool; tell_immediately : bool }.
Definition htlcs_info : Type := list htlc_with_tells.

(** What lightningd sends. *)
Inductive from_master :=
| onchaind_htlcs (info : htlcs_info)
| onchaind_spend_created (worthwhile : bool) (witness : list welement)
| onchaind_depth (txid : list Z) (depth : Z)
| onchaind_spent (tx : tx_parts) (input_num : nat) (tx_blockheight : Z)
| onchaind_known_preimage (preimage : list Z)
| onchaind_credit_note (note : credit_note_held)
| onchaind_dev_memleak
| onchaind_unexpected.

(** enum tcov_spend_signer and tcov_spend_deadline. *)
Inductive tcov_signer := TCOV_SIGN_DELAYED | TCOV_SIGN_LOCAL_HTLC | TCOV_SIGN_REMOTE_HTLC | TCOV_SIGN_PENALTY | TCOV_SIGN_PAYMENT | TCOV_SIGN_SYM_HTLC.
Inductive tcov_deadline := TCOV_DEADLINE_SWEEP | TCOV_DEADLINE_NOW | TCOV_DEADLINE_HTLC_IN | TCOV_DEADLINE_HTLC_OUT.

(** The spends onchaind asks for. *)
Inductive spend_request `{Ecdsa} :=
| spend_to_us (o : outpoint) (amount : amount_sat_t) (sequence minblock commit_num : Z) (wscript : list Z)
| spend_penalty (o : outpoint) (amount : amount_sat_t) (secret : option (list Z)) (stack_elem wscript : list Z)
| spend_htlc_success (o : outpoint) (amount fee : amount_sat_t) (htlc_id commit_num : Z) (remote_htlc_sig : bitcoin_signature)
    (preimage wscript htlc_wscript : list Z)
| spend_htlc_timeout (o : outpoint) (amount fee : amount_sat_t) (htlc_id cltv_expiry commit_num : Z)
    (remote_htlc_sig : option bitcoin_signature) (wscript htlc_wscript : list Z)
| spend_fulfill (o : outpoint) (amount : amount_sat_t) (htlc_id : Z) (point : option (list Z)) (preimage wscript : list Z)
| spend_htlc_expired (o : outpoint) (amount : amount_sat_t) (htlc_id cltv_expiry : Z) (point : option (list Z)) (wscript : list Z)
| spend_tcov (o : outpoint) (amount : amount_sat_t) (spent_spk : list Z) (signer : tcov_signer) (commit_num : Z)
    (point secret : option (list Z)) (leaf control_block merkle_root : list Z) (preimage : option (list Z))
    (covenant_program : list Z) (locktime sequence minblock : Z) (deadline : tcov_deadline) (htlc_id : Z)
| spend_credit_claim (o : outpoint) (amount : amount_sat_t) (spent_spk : list Z) (b : amount_sat_t) (leaf control_block : list Z)
    (note : credit_note_held) (holder_spk : list Z)
| spend_sym (o : outpoint) (amount : amount_sat_t) (spent_spk : list Z) (witness : list welement) (outs : sym_state)
    (sequence locktime : Z) (clock : option outpoint) (minblock deadline : Z)
| spend_sym_lanes (os : list outpoint) (amounts : list amount_sat_t) (assets : list Z) (spent_spk : list Z) (witness : list welement)
    (outs : sym_state) (sequence minblock deadline : Z).

(** common/coin_mvt.h, common/wallet.h: the tags and types onchaind uses. *)
Inductive mvt_tag :=
| MVT_PENALTY | MVT_CHANNEL_TO_US | MVT_HTLC_TIMEOUT | MVT_HTLC_FULFILL | MVT_HTLC_TX | MVT_TO_WALLET | MVT_ANCHOR | MVT_TO_THEM
| MVT_PENALIZED | MVT_STOLEN | MVT_TO_MINER | MVT_STEALABLE.
Definition TX_THEIRS := 1.
Definition TX_CHANNEL_CLOSE := 16.
Definition TX_CHANNEL_UNILATERAL := 32.
Definition TX_CHANNEL_HTLC_SUCCESS := 128.
Definition TX_CHANNEL_HTLC_TIMEOUT := 256.
Definition TX_CHANNEL_PENALTY := 512.
Definition TX_CHANNEL_CHEAT := 1024.
Inductive coin_mvt :=
| mvt_withdraw (o : outpoint) (txid : list Z) (blockheight : Z) (amount : amount_sat_t) (tags : list mvt_tag)
| mvt_external_spend (o : outpoint) (txid : list Z) (blockheight : Z) (amount : amount_sat_t) (tags : list mvt_tag)
| mvt_external_deposit (o : outpoint) (blockheight : Z) (amount : amount_sat_t) (tags : list mvt_tag)
| mvt_deposit (o : outpoint) (blockheight : Z) (amount : amount_sat_t) (tags : list mvt_tag)
| mvt_htlc_deposit (o : outpoint) (blockheight : Z) (amount : amount_sat_t) (payment_hash : list Z)
| mvt_htlc_withdraw (o : outpoint) (blockheight : Z) (amount : amount_sat_t) (payment_hash : list Z)
| mvt_channel_close (txid : list Z) (o : outpoint) (blockheight : Z) (amount : amount_msat_t) (output_val : amount_sat_t) (output_count : Z).

(** What onchaind writes. *)
Inductive to_master `{Ecdsa} :=
| onchaind_init_reply (commit_num : Z)
| onchaind_spend (r : spend_request)
| onchaind_spent_reply (interesting : bool)
| onchaind_extracted_preimage (preimage : list Z)
| onchaind_missing_htlc_output (htlc : htlc_stub)
| onchaind_htlc_timeout (htlc : htlc_stub)
| onchaind_all_irrevocably_resolved
| onchaind_add_utxo (o : outpoint) (point : option (list Z)) (amount : amount_sat_t) (blockheight : Z) (spk : list Z) (csv_lock : Z) (asset : list Z)
| onchaind_annotate_txout (o : outpoint) (type : Z)
| onchaind_annotate_txin (txid : list Z) (innum : Z) (type : Z)
| onchaind_notify_coin_mvt (mvt : coin_mvt)
| onchaind_notify_penalty_adj (msat : amount_msat_t)
| onchaind_dev_memleak_reply.

(** ** Tracked outputs *)

(** [None] for [welements] is NULL: the answer is to ignore it. *)
Record proposed_resolution := mk_proposal { welements : option (list welement); depth_required : Z; proposed_type : tx_type }.
Record resolution := mk_resolution { resolved_txid : list Z; resolved_depth : Z; resolved_type : tx_type }.

Record tracked_output `{Ecdsa} := mk_tracked {
  to_tx_type : tx_type;
  to_outpoint : outpoint;
  to_tx_blockheight : Z;
  to_depth : Z;
  to_sat : amount_sat_t;
  to_output_type : output_type;
  to_htlc : htlc_stub;
  to_wscript : option (list Z);
  to_remote_htlc_sig : option bitcoin_signature;
  to_proposal : option proposed_resolution;
  to_resolved : option resolution;
  to_payment_hash : list Z;
  to_tcov_tree : option tap_tree2;
  to_credit_b : amount_sat_t;
  to_sym_num : Z;
  to_sym_rest : list Z;
  to_sym_spk : option (list Z);
  to_sym_lane : nat;
  to_sym_lane_funding : bool;
}.
Arguments mk_tracked {_}.

Section Tracked.
Context `{!Ecdsa}.
Definition set_depth (v : Z) (o : tracked_output) : tracked_output :=
  let '(mk_tracked a b c _ e f g h i j k l m n p q r s t) := o in mk_tracked a b c v e f g h i j k l m n p q r s t.
Definition set_htlc (v : htlc_stub) (w : option (list Z)) (o : tracked_output) : tracked_output :=
  let '(mk_tracked a b c d e f _ _ i j k l m n p q r s t) := o in mk_tracked a b c d e f v w i j k l m n p q r s t.
Definition set_proposal (v : option proposed_resolution) (o : tracked_output) : tracked_output :=
  let '(mk_tracked a b c d e f g h i _ k l m n p q r s t) := o in mk_tracked a b c d e f g h i v k l m n p q r s t.
Definition set_resolved (v : resolution) (o : tracked_output) : tracked_output :=
  let '(mk_tracked a b c d e f g h i j _ l m n p q r s t) := o in mk_tracked a b c d e f g h i j (Some v) l m n p q r s t.
Definition set_payment_hash (v : list Z) (o : tracked_output) : tracked_output :=
  let '(mk_tracked a b c d e f g h i j k _ m n p q r s t) := o in mk_tracked a b c d e f g h i j k v m n p q r s t.
Definition set_tcov_tree (v : tap_tree2) (o : tracked_output) : tracked_output :=
  let '(mk_tracked a b c d e f g h i j k l _ n p q r s t) := o in mk_tracked a b c d e f g h i j k l (Some v) n p q r s t.
Definition set_credit_b (v : amount_sat_t) (o : tracked_output) : tracked_output :=
  let '(mk_tracked a b c d e f g h i j k l m _ p q r s t) := o in mk_tracked a b c d e f g h i j k l m v p q r s t.
Definition set_sym (num : Z) (rest : list Z) (spk : option (list Z)) (lane : nat) (o : tracked_output) : tracked_output :=
  let '(mk_tracked a b c d e f g h i j k l m n _ _ _ _ t) := o in mk_tracked a b c d e f g h i j k l m n num rest spk lane t.
Definition set_lane_funding (lane : nat) (o : tracked_output) : tracked_output :=
  let '(mk_tracked a b c d e f g h i j k l m n p q r _ _) := o in mk_tracked a b c d e f g h i j k l m n p q r lane true.
End Tracked.

(** ** The daemon *)

(** [keyset], [remote_per_commitment_point], [remote_per_commitment_secret] and
    [commit_num]: what a close handler learns of the commitment. *)
Record commit_view := mk_commit_view {
  cv_keyset : option keyset;
  cv_point : option (list Z);
  cv_secret : option (list Z);
  cv_num : Z;
}.
(** The fees of second-stage transactions, once found; [UINT64_MAX] before. *)
Record fee_caches := mk_fee_caches { timeout_fee_found : amount_sat_t; success_fee_found : amount_sat_t }.
(** [sym_clock_out], [sym_clock_height], [settled] and [sym_htlcs]. *)
Record sym_progress := mk_sym_progress {
  clock_out : option outpoint;
  clock_height : Z;
  settled : list (list Z);
  sym_htlcs : option htlcs_info;
}.
(** [None] for [missing_htlc_msgs] is NULL, after they were sent. *)
Record onchaind `{Ecdsa} := mk_onchaind {
  outs : list tracked_output;
  missing_htlc_msgs : option (list htlc_stub);
  queued_msgs : list from_master;
  inbox : list from_master;
  sent : list to_master;
  the_view : commit_view;
  caches : fee_caches;
  credit_note : option credit_note_held;
  sym_prog : sym_progress;
}.
Arguments mk_onchaind {_}.

Section Setters.
Context `{!Ecdsa}.
Definition set_outs (v : list tracked_output) (d : onchaind) : onchaind :=
  let '(mk_onchaind _ b c e f g h i j) := d in mk_onchaind v b c e f g h i j.
Definition set_missing (v : option (list htlc_stub)) (d : onchaind) : onchaind :=
  let '(mk_onchaind a _ c e f g h i j) := d in mk_onchaind a v c e f g h i j.
Definition set_messages (q i : list from_master) (d : onchaind) : onchaind :=
  let '(mk_onchaind a b _ _ f g h k j) := d in mk_onchaind a b q i f g h k j.
Definition set_sent (v : list to_master) (d : onchaind) : onchaind :=
  let '(mk_onchaind a b c e _ g h i j) := d in mk_onchaind a b c e v g h i j.
Definition set_the_view (v : commit_view) (d : onchaind) : onchaind :=
  let '(mk_onchaind a b c e f _ h i j) := d in mk_onchaind a b c e f v h i j.
Definition set_caches (v : fee_caches) (d : onchaind) : onchaind :=
  let '(mk_onchaind a b c e f g _ i j) := d in mk_onchaind a b c e f g v i j.
Definition set_credit_note (v : credit_note_held) (d : onchaind) : onchaind :=
  let '(mk_onchaind a b c e f g h _ j) := d in mk_onchaind a b c e f g h (Some v) j.
Definition set_sym_prog (v : sym_progress) (d : onchaind) : onchaind :=
  let '(mk_onchaind a b c e f g h i _) := d in mk_onchaind a b c e f g h i v.
End Setters.

(** A step returns; it waits for a message that has not come; or the process
    exits ([status_failed], [master_badmsg], a failed assertion). *)
Inductive result `{Ecdsa} (A : Type) : Type :=
| Ok (a : A) (d : onchaind)
| Blocked (d : onchaind)
| Exited.
Arguments Ok {_ A}.
Arguments Blocked {_ A}.
Arguments Exited {_ A}.
Definition daemon `{Ecdsa} (A : Type) : Type := onchaind -> result A.
#[export] Instance daemon_ret `{Ecdsa} : MRet daemon := fun A a d => Ok a d.
#[export] Instance daemon_bind `{Ecdsa} : MBind daemon := fun A B k m d =>
  match m d with Ok a d => k a d | Blocked d => Blocked d | Exited => Exited end.

Section Steps.
Context `{!Ecdsa}.
Definition get {A} (f : onchaind -> A) : daemon A := fun d => Ok (f d) d.
Definition put (f : onchaind -> onchaind) : daemon unit := fun d => Ok tt (f d).
Definition exits {A} : daemon A := fun _ => Exited.
Definition sure {A} (o : outcome A) : daemon A := match o with Ret a => mret a | Crash => exits end.
(** An [assert], or a pointer that must not be NULL. *)
Definition assert_ (b : bool) : daemon unit := if b then mret tt else exits.
Definition deref {A} (o : option A) : daemon A := match o with Some a => mret a | None => exits end.
Definition send (m : to_master) : daemon unit := put (fun d => set_sent (sent d ++ [m]) d).

(** The output at an index, which is a pointer to it. *)
Definition out_at (i : nat) : daemon tracked_output := o ← get (fun d => outs d !! i); deref o.
Definition upd_out (i : nat) (f : tracked_output -> tracked_output) : daemon unit := put (fun d => set_outs (alter f i (outs d)) d).
(** Steps for the elements of a list, in order. *)
Fixpoint for_each {A} (f : A -> daemon unit) (l : list A) : daemon unit :=
  match l with [] => mret tt | a :: l => _ ← f a; for_each f l end.
Definition when (b : bool) (m : daemon unit) : daemon unit := if b then m else mret tt.
End Steps.

(** ** What [main] is told *)

Class onchain_env := mk_onchain_env {
  min_possible_feerate : Z;
  max_possible_feerate : Z;
  delays : sides Z;
  reasonable_depth : Z;
  oc_funding_pubkey : sides (list Z);
  static_remotekey_start : sides Z;
  option_anchor_outputs : bool;
  option_anchors_zero_fee_htlc_tx : bool;
  option_seq_taproot_covenant : bool;
  option_seq_credit : bool;
  option_seq_symmetric : bool;
  oc_channel_asset : list Z;
  credit_provider : side;
  oc_credit_params : option credit_params;
  sym_sc : sym_channel;
  sym_local : option sym_state;
  sym_remote : option sym_state;
  sym_remote_pending : option sym_state;
  sym_best : option sym_state;
  sym_opener : side;
  sym_basepoints : sides basepoints;
  sym_funding : outpoint;
  sym_anchor : outpoint;
  sym_is_factory : bool;
  oc_lanes : list sym_lane;
}.

(** What else the daemon stands on: the chain, the hash functions, libwally's
    serialization and signature hashes, hsmd's [get_per_commitment_point] for
    this channel, the C library's sort, and what memory holds that is not
    initialized: [htlc] and [payment_hash] of an output that has none yet. *)
Class onchain_world := mk_world {
  w_params : chainparams;
  w_sha256 : list Z -> list Z;
  w_ripemd160 : list Z -> list Z;
  w_wlen : bool -> bitcoin_tx -> option nat;
  w_wbytes : bool -> bitcoin_tx -> option (list Z);
  w_conf_value : Z -> option (list Z);
  w_elements_hash : bitcoin_tx -> nat -> list Z -> list Z -> Z -> option (list Z);
  w_btc_hash : bitcoin_tx -> nat -> list Z -> Z -> Z -> option (list Z);
  w_hsm_point : Z -> outcome (list Z);
  w_asort : (htlc_with_tells -> htlc_with_tells -> comparison) -> htlcs_info -> htlcs_info;
  w_junk_htlc : htlc_stub;
  w_junk_hash : list Z;
}.

Section Core.
Context `{!Ecdsa, !onchain_world, !onchain_env}.
Local Notation params := w_params.
Local Notation sha256 := w_sha256.
Local Notation ripemd160 := w_ripemd160.
Local Notation wlen := w_wlen.
Local Notation wbytes := w_wbytes.
Local Notation conf_value := w_conf_value.
Local Notation elements_hash := w_elements_hash.
Local Notation btc_hash := w_btc_hash.
Local Notation hsm_point := w_hsm_point.
Local Notation asort := w_asort.
Local Notation junk_htlc := w_junk_htlc.
Local Notation junk_hash := w_junk_hash.

Definition the_keyset : daemon keyset := k ← get (fun d => cv_keyset (the_view d)); deref k.
Definition commit_num : daemon Z := get (fun d => cv_num (the_view d)).

(** ** Coin movements *)

Definition send_coin_mvt (m : coin_mvt) : daemon unit := send (onchaind_notify_coin_mvt m).
Definition record_channel_withdrawal (txid : list Z) (o : tracked_output) (blockheight : Z) (tags : list mvt_tag) : daemon unit :=
  send_coin_mvt (mvt_withdraw (to_outpoint o) txid blockheight (to_sat o) tags).
Definition record_external_spend (txid : list Z) (o : tracked_output) (blockheight : Z) (tags : list mvt_tag) : daemon unit :=
  send_coin_mvt (mvt_external_spend (to_outpoint o) txid blockheight (to_sat o) tags).
Definition record_external_output (o : outpoint) (amount : amount_sat_t) (blockheight : Z) (tags : list mvt_tag) : daemon unit :=
  send_coin_mvt (mvt_external_deposit o blockheight amount tags).
Definition record_external_deposit (o : tracked_output) (blockheight : Z) (tags : list mvt_tag) : daemon unit :=
  record_external_output (to_outpoint o) (to_sat o) blockheight tags.
Definition record_channel_deposit (o : tracked_output) (blockheight : Z) (tags : list mvt_tag) : daemon unit :=
  send_coin_mvt (mvt_deposit (to_outpoint o) blockheight (to_sat o) tags).
Definition record_to_us_htlc_fulfilled (o : tracked_output) (blockheight : Z) : daemon unit :=
  send_coin_mvt (mvt_htlc_deposit (to_outpoint o) blockheight (to_sat o) (to_payment_hash o)).
Definition record_to_them_htlc_fulfilled (o : tracked_output) (blockheight : Z) : daemon unit :=
  send_coin_mvt (mvt_htlc_withdraw (to_outpoint o) blockheight (to_sat o) (to_payment_hash o)).
Definition record_our_anchor (o : tracked_output) : daemon unit := record_external_deposit o (to_tx_blockheight o) [MVT_ANCHOR].

(** The first output to the peer. *)
Fixpoint record_mutual_close (txid : list Z) (i : Z) (outputs : list (option tx_output)) (remote_scriptpubkey : list Z) (blockheight : Z)
  : daemon unit :=
  match outputs with
  | [] => mret tt
  | o :: outputs =>
    o ← deref o;
    if wally_tx_output_scripteq o remote_scriptpubkey
    then record_external_output (mk_outpoint txid i) (out_satoshi o) blockheight [MVT_TO_THEM]
    else record_mutual_close txid (i + 1) outputs remote_scriptpubkey blockheight
  end.

Definition record_coin_movements (o : tracked_output) (blockheight : Z) (txid : list Z) : daemon unit :=
  r ← deref (to_resolved o);
  let res := fun t => bool_decide (resolved_type r = t) in
  let from := fun t => bool_decide (to_tx_type o = t) in
  let h := to_tx_blockheight o in
  _ ← when (from OUR_HTLC_TIMEOUT_TX || from OUR_HTLC_SUCCESS_TX) (record_channel_deposit o h [MVT_HTLC_TX]);
  _ ← when (res OUR_HTLC_TIMEOUT_TO_US) (record_channel_deposit o h [MVT_HTLC_TIMEOUT]);
  _ ← when (res THEIR_HTLC_FULFILL_TO_US || res OUR_HTLC_SUCCESS_TX) (record_to_us_htlc_fulfilled o h);
  _ ← when (from OUR_UNILATERAL)
        (match to_output_type o with
         | DELAYED_OUTPUT_TO_US => record_channel_deposit o h [MVT_CHANNEL_TO_US]
         | OUR_HTLC => _ ← record_channel_deposit o h [MVT_HTLC_TIMEOUT]; record_channel_withdrawal txid o blockheight [MVT_HTLC_TIMEOUT]
         | THEIR_HTLC => record_channel_withdrawal txid o blockheight [MVT_HTLC_FULFILL]
         | _ => mret tt
         end);
  _ ← when (from THEIR_REVOKED_UNILATERAL || res OUR_PENALTY_TX) (record_channel_deposit o h [MVT_PENALTY]);
  _ ← when (res OUR_DELAYED_RETURN_TO_WALLET || res THEIR_HTLC_FULFILL_TO_US || bool_decide (to_output_type o = DELAYED_OUTPUT_TO_US)
            || res OUR_HTLC_TIMEOUT_TO_US || res OUR_PENALTY_TX)
        (record_channel_withdrawal txid o blockheight [if amount_sat_is_zero (to_sat o) then MVT_TO_MINER else MVT_TO_WALLET]);
  when (res OUR_PENALTY_TX) (msat ← deref (amount_sat_to_msat (to_sat o)); send (onchaind_notify_penalty_adj msat)).

(** ** Fees of second-stage transactions *)

Definition UNSET_FEE : amount_sat_t := mk_sat UINT64_MAX.

(** One pass over the feerates from [i], [n] of them: the fee whose transaction
    the signature is for, and that transaction. *)
Fixpoint grind_pass (fee_of : Z -> outcome amount_sat_t) (n : nat) (i : Z) (input_amt prev_fee : amount_sat_t) (tx : bitcoin_tx)
    (sig : bitcoin_signature) (wscript key : list Z) : outcome (option (amount_sat_t * bitcoin_tx) * bitcoin_tx) :=
  match n with
  | O => Ret (None, tx)
  | S n =>
    fee ← fee_of i;
    if amount_sat_eq fee prev_fee then grind_pass fee_of n (i + 1) input_amt prev_fee tx sig wscript key
    else
      match amount_sat_sub input_amt fee with
      | None => Ret (None, tx)
      | Some out =>
        tx ← bitcoin_tx_finalize params wlen wbytes (bitcoin_tx_output_set_amount 0 out tx);
        ok ← check_tx_sig params conf_value elements_hash btc_hash tx 0 None (Some wscript) key sig;
        if (ok : bool) then Ret (Some (fee, tx), tx)
        else grind_pass fee_of n (i + 1) input_amt fee tx sig wscript key
      end
  end.
(** Rounded up as channels of this chain do, then down as BOLT 3 does. *)
Definition grind_htlc_tx_fee (tx : bitcoin_tx) (sig : bitcoin_signature) (wscript key : list Z) (weight : Z)
  : outcome (option (amount_sat_t * bitcoin_tx)) :=
  input_amt ← psbt_input_get_amount params tx 0;
  let n := Z.to_nat (max_possible_feerate - min_possible_feerate + 1) in
  '(found, tx) ← grind_pass (fun i => amount_tx_fee (Some params) i weight) n min_possible_feerate input_amt UNSET_FEE tx sig wscript key;
  match found with
  | Some r => Ret (Some r)
  | None =>
    if negb (has_anchor_header params) then Ret None
    else
      '(found, _) ← grind_pass (fun i => amount_tx_fee_rounded_down i weight) n min_possible_feerate input_amt UNSET_FEE tx sig
                      wscript key;
      Ret found
  end.

(** Whether the signature is for the transaction, and the transaction with its
    fee. *)
Definition set_htlc_timeout_fee (tx : bitcoin_tx) (remotesig : option bitcoin_signature) (wscript : list Z) : daemon (bool * bitcoin_tx) :=
  ks ← the_keyset;
  o ← deref (head (tx_outputs tx));
  asset ← sure (wally_tx_output_get_amount params o);
  _ ← assert_ (amount_asset_is params asset oc_channel_asset);
  sig ← deref remotesig;
  c ← get caches;
  let set_amount amount :=
    tx ← sure (bitcoin_tx_finalize params wlen wbytes (bitcoin_tx_output_set_amount 0 amount tx));
    ok ← sure (check_tx_sig params conf_value elements_hash btc_hash tx 0 None (Some wscript) (other_htlc_key ks) sig);
    mret (ok, tx) in
  if option_anchors_zero_fee_htlc_tx then
    _ ← put (set_caches (mk_fee_caches (mk_sat 0) (success_fee_found c)));
    set_amount (mk_sat (asset_value asset))
  else
    let weight := (if option_anchor_outputs then 666 else 663) + elements_tx_overhead params 1 1 in
    if amount_sat_eq (timeout_fee_found c) UNSET_FEE then
      r ← sure (grind_htlc_tx_fee tx sig wscript (other_htlc_key ks) weight);
      match r with
      | Some (fee, tx) => _ ← put (set_caches (mk_fee_caches fee (success_fee_found c))); mret (true, tx)
      | None => mret (false, tx)
      end
    else
      amount ← deref (amount_sat_sub (mk_sat (asset_value asset)) (timeout_fee_found c));
      set_amount amount.

Definition get_htlc_success_fee (o : tracked_output) : daemon amount_sat_t :=
  c ← get caches;
  if negb (amount_sat_eq (success_fee_found c) UNSET_FEE) then mret (success_fee_found c)
  else if option_anchors_zero_fee_htlc_tx then
    _ ← put (set_caches (mk_fee_caches (timeout_fee_found c) (mk_sat 0))); mret (mk_sat 0)
  else
    ks ← the_keyset;
    htlc_amount ← deref (amount_sat_to_msat (to_sat o));
    wscript ← deref (to_wscript o);
    tx ← sure (htlc_success_tx params sha256 wlen wbytes (to_outpoint o) wscript htlc_amount delays.[LOCAL] 0 ks
                 option_anchor_outputs option_anchors_zero_fee_htlc_tx oc_channel_asset);
    tx ← deref tx;
    sig ← deref (to_remote_htlc_sig o);
    let weight := (if option_anchor_outputs then 706 else 703) + elements_tx_overhead params 1 1 in
    r ← sure (grind_htlc_tx_fee tx sig wscript (other_htlc_key ks) weight);
    '(fee, _) ← deref r;
    _ ← put (set_caches (mk_fee_caches (timeout_fee_found c) fee));
    mret fee.

Definition hsm_get_per_commitment_point : daemon (list Z) := n ← commit_num; sure (hsm_point n).

(** ** Tracking and proposing *)

(** The index of the new output. *)
Definition new_tracked_output (o : outpoint) (tx_blockheight : Z) (type : tx_type) (sat : amount_sat_t) (otype : output_type)
    (htlc : option htlc_stub) (wscript : option (list Z)) (sig : option bitcoin_signature) : daemon nat :=
  i ← get (fun d => length (outs d));
  _ ← put (fun d => set_outs (outs d ++ [mk_tracked type o tx_blockheight 0 sat otype (default junk_htlc htlc) wscript sig None None
                                           junk_hash None (mk_sat 0) 0 (repeat 0 32) None 0 false]) d);
  mret i.

Definition resolve_as (i : nat) (txid : list Z) (type : tx_type) : daemon unit := upd_out i (set_resolved (mk_resolution txid 0 type)).
Definition ignore_output (i : nat) : daemon unit :=
  o ← out_at i; resolve_as i (txid (to_outpoint o)) SELF.
Definition resolved_by_other (i : nat) (txid : list Z) (type : tx_type) : daemon unit := resolve_as i txid type.
Definition unknown_spend (i : nat) (tx : tx_parts) : daemon unit := resolve_as i (tp_txid tx) UNKNOWN_TXTYPE.

(** The first message of the kind, what came before it put off. *)
Fixpoint queue_until {A} (want : from_master -> option A) (queued inbox : list from_master) : option (A * list from_master * list from_master) :=
  match inbox with
  | [] => None
  | m :: inbox =>
    match want m with
    | Some a => Some (a, queued, inbox)
    | None => queue_until want (queued ++ [m]) inbox
    end
  end.
Definition queue_until_msg {A} (want : from_master -> option A) : daemon A := fun d =>
  match queue_until want (queued_msgs d) (inbox d) with
  | Some (a, q, i) => Ok a (set_messages q i d)
  | None => Blocked d
  end.

Definition handle_spend_created (i : nat) (worthwhile : bool) (witness : list welement) : daemon unit :=
  _ ← upd_out i (fun o => set_proposal (match to_proposal o with
                                        | Some p => Some (mk_proposal (Some witness) (depth_required p) (proposed_type p))
                                        | None => None
                                        end) o);
  when (negb worthwhile) (ignore_output i).
Definition new_proposed_resolution (o : tracked_output) (welements : option (list welement)) (block_required : Z) (type : tx_type)
  : proposed_resolution :=
  mk_proposal welements (wrap_u32 (block_required - to_tx_blockheight o)) type.
Definition propose_resolution_to_master (i : nat) (r : spend_request) (block_required : Z) (type : tx_type) : daemon unit :=
  _ ← upd_out i (fun o => set_proposal (Some (new_proposed_resolution o None block_required type)) o);
  _ ← send (onchaind_spend r);
  '(worthwhile, witness) ← queue_until_msg (fun m => match m with onchaind_spend_created b w => Some (b, w) | _ => None end);
  handle_spend_created i worthwhile witness.
Definition propose_immediate_resolution (i : nat) (r : spend_request) (type : tx_type) : daemon unit :=
  o ← out_at i; propose_resolution_to_master i r (wrap_u32 (to_tx_blockheight o + 1)) type.
Definition propose_ignore (i : nat) (block_required : Z) (type : tx_type) : daemon unit :=
  o ← out_at i;
  let p := new_proposed_resolution o None (Z.max block_required (to_tx_blockheight o)) type in
  _ ← upd_out i (set_proposal (Some p));
  when (depth_required p =? 0) (ignore_output i).

(** ** Resolutions *)

Fixpoint which_input_spends (inputs : list (option part_input)) (o : outpoint) : option part_input :=
  match inputs with
  | [] => None
  | Some i :: inputs => if bool_decide (pi_outpoint i = o) then Some i else which_input_spends inputs o
  | None :: inputs => which_input_spends inputs o
  end.

(** Signatures are not compared; an annex after what we gave is left out. *)
Fixpoint elements_match (welements : list welement) (items : list (list Z)) : bool :=
  match welements, items with
  | [], [] => true
  | w :: welements, i :: items => (is_signature w || bool_decide (i = welement_bytes w)) && elements_match welements items
  | _, _ => false
  end.
Definition onchain_witness_element_matches (welements : list welement) (stack : list (list Z)) : bool :=
  let n := length stack in
  let n := if (n =? length welements + 1)%nat && (tap_witness_items stack =? n - 1)%nat then (n - 1)%nat else n in
  elements_match welements (take n stack).

Definition resolved_by_proposal (i : nat) (tx : tx_parts) : daemon bool :=
  o ← out_at i;
  match to_proposal o with
  | Some (mk_proposal (Some w) _ type) =>
    match which_input_spends (tp_inputs tx) (to_outpoint o) with
    | Some (mk_part_input _ _ (Some stack)) =>
      if onchain_witness_element_matches w stack then _ ← resolve_as i (tp_txid tx) type; mret true else mret false
    | _ => mret false
    end
  | _ => mret false
  end.

(** [asset] is NULL off Elements. *)
Definition matched_in (assets : list (option (list Z))) (asset : option (list Z)) : bool := bool_decide (asset ∈ assets).
Definition part_asset (o : tx_output) : option (list Z) := if is_elements params then Some (out_asset o) else None.
Fixpoint mutual_outputs (outputs : list (option tx_output)) (scriptpubkey : sides (list Z)) (matched : sides (list (option (list Z))))
  : outcome bool :=
  match outputs with
  | [] => Ret true
  | None :: _ => Crash
  | Some o :: outputs =>
    let asset := part_asset o in
    let pays s := wally_tx_output_scripteq o scriptpubkey.[s] && negb (matched_in matched.[s] asset) in
    if is_elements params && (length (out_script o) =? 0)%nat then mutual_outputs outputs scriptpubkey matched
    else if pays LOCAL then mutual_outputs outputs scriptpubkey (upd LOCAL (matched.[LOCAL] ++ [asset]) matched)
    else if pays REMOTE then mutual_outputs outputs scriptpubkey (upd REMOTE (matched.[REMOTE] ++ [asset]) matched)
    else Ret false
  end.
Definition is_mutual_close (outputs : list (option tx_output)) (scriptpubkey : sides (list Z)) : outcome bool :=
  mutual_outputs outputs scriptpubkey (mk_sides [] []).

Definition irrevocable (o : tracked_output) : bool :=
  match to_resolved o with Some r => 100 <=? resolved_depth r | None => false end.
Definition num_not_irrevocably_resolved (outs : list tracked_output) : nat := length (filter (fun o => irrevocable o = false) outs).

Definition rel_blockheight (o : tracked_output) (delay : Z) : Z := wrap_u32 (to_tx_blockheight o + delay).

Definition onchain_annotate_txout (o : outpoint) (type : Z) : daemon unit := send (onchaind_annotate_txout o type).
Definition onchain_annotate_txin (txid : list Z) (innum type : Z) : daemon unit := send (onchaind_annotate_txin txid innum type).

(** ** HTLCs *)

Definition cmp_htlc_with_tells_cltv (a b : htlc_with_tells) : comparison :=
  stub_cltv_expiry (hw_htlc a) ?= stub_cltv_expiry (hw_htlc b).
Definition init_reply : daemon htlcs_info :=
  n ← commit_num;
  _ ← send (onchaind_init_reply n);
  htlcs ← queue_until_msg (fun m => match m with onchaind_htlcs info => Some info | _ => None end);
  mret (asort cmp_htlc_with_tells_cltv htlcs).

(** An entry of [scripts] is [None] where the HTLC was found. *)
Fixpoint note_missing_htlcs {A} (scripts : list (option A)) (info : htlcs_info) : daemon unit :=
  match scripts, info with
  | s :: scripts, h :: info =>
    _ ← (match s with
         | None => mret tt
         | Some _ =>
           when (tell_if_missing h)
             (if tell_immediately h then send (onchaind_missing_htlc_output (hw_htlc h))
              else put (fun d => set_missing (match missing_htlc_msgs d with Some l => Some (l ++ [hw_htlc h]) | None => None end) d))
         end);
    note_missing_htlcs scripts info
  | _, _ => mret tt
  end.

(** ** Our balance on a commitment of theirs *)

Definition anchors : bool := option_anchor_outputs || option_anchors_zero_fee_htlc_tx.
Definition get_anchor_scriptpubkeys : outcome (sides (option (list Z))) :=
  if negb anchors then Ret (mk_sides None None)
  else
    l ← bitcoin_wscript_anchor oc_funding_pubkey.[LOCAL];
    r ← bitcoin_wscript_anchor oc_funding_pubkey.[REMOTE];
    Ret (mk_sides (Some (scriptpubkey_p2wsh sha256 l)) (Some (scriptpubkey_p2wsh sha256 r))).
Definition scriptpubkey_to_remote (remotekey : list Z) (csv_lock : Z) : outcome (list Z) :=
  if anchors then w ← bitcoin_wscript_to_remote_anchored remotekey csv_lock; Ret (scriptpubkey_p2wsh sha256 w)
  else Ret (scriptpubkey_p2wpkh sha256 ripemd160 remotekey).

(** The asset is the channel's, or a lane's. *)
Definition our_asset (asset : amount_asset_t) : bool :=
  amount_asset_is params asset oc_channel_asset || existsb (fun l => amount_asset_is params asset (lane_asset l)) oc_lanes.
Definition output_of (tx : tx_parts) (n : nat) : daemon tx_output := o ← deref (tp_outputs tx !! n); deref o.
Definition tell_wallet_to_remote (tx : tx_parts) (o : outpoint) (tx_blockheight : Z) (scriptpubkey : list Z)
    (per_commit_point : option (list Z)) (option_static_remotekey : bool) (csv_lock : Z) : daemon unit :=
  out ← output_of tx (Z.to_nat (outnum o));
  asset ← sure (wally_tx_output_get_amount params out);
  _ ← assert_ (our_asset asset);
  send (onchaind_add_utxo o (if option_static_remotekey then None else per_commit_point) (mk_sat (asset_value asset)) tx_blockheight
          scriptpubkey csv_lock (if is_elements params then asset_id asset else oc_channel_asset)).
Definition their_unilateral_local (tx : tx_parts) (o : outpoint) (tx_blockheight : Z) (amt : amount_sat_t) (local_scriptpubkey : list Z)
    (type : tx_type) (csv_lock : Z) : daemon unit :=
  i ← new_tracked_output o tx_blockheight type amt OUTPUT_TO_US None None None;
  _ ← ignore_output i;
  point ← get (fun d => cv_point (the_view d));
  n ← commit_num;
  tell_wallet_to_remote tx o tx_blockheight local_scriptpubkey point (static_remotekey_start.[REMOTE] <=? n) csv_lock.
End Core.
