(* ===== verification/OnchainTcov.v ===== *)
(** * Taproot-covenant outputs on chain (onchaind/onchaind.c)

    The spends of a covenant commitment's outputs, each by one leaf of its tree
    or by the key path; the claims of HTLCs, which a covenant puts into the
    holder's delayed output D; and the provider's credit output, claimed with a
    note and tracked again for what a claim leaves. *)

From stdpp Require Import list.
From S2P Require Import Prelude Chainparams Amount HtlcState CommitFee Script Keys Tapscript ChannelState Tx SymScripts TcovScripts SymState Signature CommitTx OnchainState.
Local Open Scope Z_scope.

Section Tcov.
Context `{!Secp256k1, !Taproot, !Ecdsa, !onchain_world, !onchain_env}.
Local Notation params := w_params.
Local Notation sha256 := w_sha256.
Local Notation ripemd160 := w_ripemd160.

(** By a leaf of its tree, or the key path. *)
Definition tcov_propose (i : nat) (signer : tcov_signer) (which : option nat) (preimage : option (list Z)) (dest : option tap_tree2)
    (locktime sequence minblock : Z) (deadline : tcov_deadline) (type : tx_type) : daemon unit :=
  o ← out_at i;
  tree ← deref (to_tcov_tree o);
  '(leaf_script, cb) ← (match which with
                        | Some n => script ← deref (leaf tree !! n); cb ← sure (tap_tree2_control_block tree n); mret (script, cb)
                        | None => mret ([], [])
                        end);
  let cov_program := match dest with Some d => tap_tree2_program d | None => [] end in
  v ← get the_view;
  propose_resolution_to_master i
    (spend_tcov (to_outpoint o) (to_sat o) (tap_tree2_scriptpubkey tree) signer (cv_num v) (cv_point v) (cv_secret v) leaf_script cb
       (merkle_root tree) preimage cov_program locktime sequence minblock deadline (stub_id (to_htlc o))) minblock type.

Definition tcov_holder_to_local (holder_point : list Z) (holder : side) : daemon tap_tree2 :=
  ks ← the_keyset; sure (tcov_to_local_tree sha256 ripemd160 ks holder_point delays.[holder]).

(** Whether it is this HTLC's output, and its tree. *)
Definition tcov_match_htlc (o : tx_output) (amt : amount_sat_t) (htlc : htlc_stub) (holder_point : list Z) (holder : side)
  : daemon (bool * tap_tree2) :=
  ks ← the_keyset;
  tree ← sure ((if bool_decide (stub_owner htlc = holder) then tcov_offered_htlc_tree else tcov_received_htlc_tree)
                 params sha256 ripemd160 _ ks holder_point delays.[holder] (Some oc_channel_asset) (stub_ripemd htlc)
                 (stub_lock_point htlc) (stub_cltv_expiry htlc) amt);
  mret (wally_tx_output_scripteq o (tap_tree2_scriptpubkey tree), tree).

(** The DELAY leaf. *)
Definition tcov_sweep_delayed (i : nat) : daemon unit :=
  o ← out_at i;
  tcov_propose i TCOV_SIGN_DELAYED (Some TCOV_LEAF_DELAY) None None 0 delays.[LOCAL] (rel_blockheight o delays.[LOCAL])
    TCOV_DEADLINE_SWEEP OUR_DELAYED_RETURN_TO_WALLET.
(** The key path, at once. *)
Definition tcov_penalty (i : nat) (tx_blockheight : Z) : daemon unit :=
  tcov_propose i TCOV_SIGN_PENALTY None None None 0 0xFFFFFFFF (wrap_u32 (tx_blockheight + 1)) TCOV_DEADLINE_NOW OUR_PENALTY_TX.

(** What an output of a spend holds, in the channel's asset. *)
Definition amount_at (tx : tx_parts) (n : nat) : daemon amount_sat_t :=
  o ← output_of tx n;
  asset ← sure (wally_tx_output_get_amount params o);
  _ ← assert_ (amount_asset_is params asset oc_channel_asset);
  mret (mk_sat (asset_value asset)).

(** A claim of ours confirmed: its D, at the input's own index.  D that is not
    ours is only logged. *)
Definition tcov_resolve_claim (out_index : nat) (claim : tx_parts) (input_num : nat) (tx_blockheight : Z) : daemon unit :=
  amt ← amount_at claim input_num;
  from ← out_at out_index;
  r ← deref (to_resolved from);
  i ← new_tracked_output (mk_outpoint (tp_txid claim) (Z.of_nat input_num)) tx_blockheight (resolved_type r) amt DELAYED_OUTPUT_TO_US
        None None None;
  point ← hsm_get_per_commitment_point;
  d ← tcov_holder_to_local point LOCAL;
  _ ← upd_out i (set_tcov_tree d);
  tcov_sweep_delayed i.

(** Their claim from a revoked commitment: its D is taken. *)
Definition tcov_steal_claim (out_index : nat) (claim : tx_parts) (tx_blockheight : Z) (claim_type : tx_type) (d_outpoint : outpoint)
  : daemon unit :=
  amt ← amount_at claim (Z.to_nat (outnum d_outpoint));
  out ← out_at out_index;
  i ← new_tracked_output d_outpoint tx_blockheight claim_type amt DELAYED_CHEAT_OUTPUT_TO_THEM (Some (to_htlc out)) None None;
  _ ← resolved_by_other out_index (tp_txid claim) claim_type;
  point ← get (fun d => cv_point (the_view d));
  point ← deref point;
  d ← tcov_holder_to_local point REMOTE;
  _ ← upd_out i (set_tcov_tree d);
  tcov_penalty i tx_blockheight.

(** The SUCCESS leaf's witness: signature, preimage, leaf and control block. *)
Definition tcov_extract_preimage (i : nat) (tx : tx_parts) (n : nat) : daemon unit :=
  input ← deref (tp_inputs tx !! n);
  input ← deref input;
  let preimage := match pi_witness input with
                  | Some ([_; p; _; _] as wit) | Some ([_; p; _; _; _] as wit) =>
                    if (tap_witness_items wit =? 4)%nat && (length p =? 32)%nat then Some p else None
                  | _ => None
                  end in
  match preimage with
  | None => mret tt
  | Some preimage =>
    o ← out_at i;
    match stub_lock_point (to_htlc o) with
    | Some lock =>
      when (point_lock_opens lock preimage)
        (_ ← upd_out i (set_payment_hash (point_lock_payment_hash lock)); send (onchaind_extracted_preimage preimage))
    | None =>
      let sha := sha256 preimage in
      when (bool_decide (ripemd160 sha = stub_ripemd (to_htlc o)))
        (_ ← upd_out i (set_payment_hash sha); send (onchaind_extracted_preimage preimage))
    end
  end.

(** By covenant on our commitment, directly on theirs. *)
Definition tcov_claim_with_preimage (i : nat) (preimage : list Z) : daemon unit :=
  o ← out_at i;
  let minblock := wrap_u32 (to_tx_blockheight o + 1) in
  if bool_decide (to_tx_type o = OUR_UNILATERAL) then
    point ← hsm_get_per_commitment_point;
    d ← tcov_holder_to_local point LOCAL;
    tcov_propose i TCOV_SIGN_LOCAL_HTLC (Some TCOV_LEAF_RECEIVED_SUCCESS) (Some preimage) (Some d) 0 0xFFFFFFFF minblock
      TCOV_DEADLINE_HTLC_IN OUR_HTLC_SUCCESS_TX
  else
    tcov_propose i TCOV_SIGN_REMOTE_HTLC (Some TCOV_LEAF_OFFERED_SUCCESS) (Some preimage) None 0 0xFFFFFFFF minblock
      TCOV_DEADLINE_HTLC_IN THEIR_HTLC_FULFILL_TO_US.

(** Whether the REVOKE leaf paid our static payment script. *)
Definition tcov_revoke_leaf_paid_us (tx : tx_parts) (input_num : nat) (tx_blockheight : Z) : daemon bool :=
  ks ← the_keyset;
  let ours := scriptpubkey_p2wpkh sha256 ripemd160 (other_payment_key ks) in
  match tp_outputs tx !! input_num with
  | Some (Some o) =>
    if negb (wally_tx_output_scripteq o ours) then mret false
    else
      asset ← sure (wally_tx_output_get_amount params o);
      if negb (amount_asset_is params asset oc_channel_asset) then mret false
      else
        _ ← send (onchaind_add_utxo (mk_outpoint (tp_txid tx) (Z.of_nat input_num)) None (mk_sat (asset_value asset)) tx_blockheight ours 1
                    oc_channel_asset);
        mret true
  | _ => mret false
  end.

(** ** Credit *)

(** Whether it is the provider's output of the commitment [holder] holds, and
    its tree. *)
Definition credit_match (o : tx_output) (amt : amount_sat_t) (holder_point : list Z) (holder : side) : daemon (bool * tap_tree2) :=
  ks ← the_keyset;
  cp ← deref oc_credit_params;
  tree ← sure (if bool_decide (holder = credit_provider)
               then credit_to_local_tree sha256 ripemd160 ks holder_point delays.[holder] cp amt
               else credit_to_remote_tree sha256 (other_payment_key ks) delays.[credit_provider] cp amt);
  mret (wally_tx_output_scripteq o (tap_tree2_scriptpubkey tree), tree).

(** DELAY of our own commitment's to_local, PROVIDER on the holder's. *)
Definition credit_propose_own (i : nat) : daemon unit :=
  o ← out_at i;
  tree ← deref (to_tcov_tree o);
  let to_local := (length (leaf tree) =? 3)%nat in
  tcov_propose i (if to_local then TCOV_SIGN_DELAYED else TCOV_SIGN_PAYMENT)
    (Some (if to_local then TCOV_LEAF_DELAY else CREDIT_REMOTE_LEAF_PROVIDER)) None None 0 delays.[LOCAL]
    (rel_blockheight o delays.[LOCAL]) TCOV_DEADLINE_SWEEP OUR_DELAYED_RETURN_TO_WALLET.

(** With our note, if it owes more than was paid. *)
Definition credit_propose_claim (i : nat) : daemon unit :=
  note ← get credit_note;
  match note with
  | None => mret tt
  | Some note =>
    o ← out_at i;
    tree ← deref (to_tcov_tree o);
    cp ← deref oc_credit_params;
    let claim := if (length (leaf tree) =? 3)%nat then CREDIT_LEAF_CLAIM else CREDIT_REMOTE_LEAF_CLAIM in
    let paid := default (mk_sat 0) (amount_sat_sub (to_credit_b o) (to_sat o)) in
    if note_credit note <=? satoshis paid then mret tt
    else
      script ← deref (leaf tree !! claim);
      cb ← sure (tap_tree2_control_block tree claim);
      propose_immediate_resolution i
        (spend_credit_claim (to_outpoint o) (to_sat o) (tap_tree2_scriptpubkey tree) (to_credit_b o) script cb note (holder_spk cp))
        CREDIT_CLAIM
  end.

Definition credit_track (o : outpoint) (tx_blockheight : Z) (type : tx_type) (amt b : amount_sat_t) (tree : tap_tree2) : daemon unit :=
  let ours := bool_decide (credit_provider = LOCAL) in
  i ← new_tracked_output o tx_blockheight type amt (if ours then CREDIT_OUTPUT_TO_US else CREDIT_OUTPUT_TO_THEM) None None None;
  _ ← upd_out i (set_tcov_tree tree);
  _ ← upd_out i (set_credit_b b);
  if ours then credit_propose_own i else credit_propose_claim i.

(** A claim pays the holder at the output after the one that keeps the rest,
    which is tracked again. *)
Definition credit_output_spent (i : nat) (tx : tx_parts) (input_num : nat) (tx_blockheight : Z) (by_proposal : bool) : daemon bool :=
  o ← out_at i;
  tree ← deref (to_tcov_tree o);
  cp ← deref oc_credit_params;
  let at_ n := mk_outpoint (tp_txid tx) (Z.of_nat n) in
  let claim := match tp_outputs tx !! input_num, tp_outputs tx !! (input_num + 1)%nat with
               | Some (Some rest), Some (Some paid) =>
                 if wally_tx_output_scripteq rest (tap_tree2_scriptpubkey tree) && wally_tx_output_scripteq paid (holder_spk cp)
                 then Some (rest, paid) else None
               | _, _ => None
               end in
  match claim with
  | None =>
    _ ← when (negb by_proposal)
          (resolved_by_other i (tp_txid tx)
             (if bool_decide (to_output_type o = CREDIT_OUTPUT_TO_US) then THEIR_DELAYED_CHEAT else CREDIT_SWEEP_TO_THEM));
    mret false
  | Some (rest, paid) =>
    _ ← when (negb by_proposal) (resolved_by_other i (tp_txid tx) CREDIT_CLAIM);
    _ ← when (bool_decide (credit_provider = REMOTE))
          (a ← sure (wally_tx_output_get_amount params paid);
           when (amount_asset_is params a oc_channel_asset)
             (send (onchaind_add_utxo (at_ (input_num + 1)%nat) None (mk_sat (asset_value a)) tx_blockheight (holder_spk cp) 0
                      oc_channel_asset)));
    a ← sure (wally_tx_output_get_amount params rest);
    _ ← when (amount_asset_is params a oc_channel_asset && (0 <? asset_value a))
          (credit_track (at_ input_num) tx_blockheight CREDIT_CLAIM (mk_sat (asset_value a)) (to_credit_b o) tree);
    mret true
  end.

Definition claim_unresolved (i : nat) : daemon unit :=
  o ← out_at i;
  when (bool_decide (to_output_type o = CREDIT_OUTPUT_TO_THEM) && match to_resolved o with None => true | Some _ => false end)
    (credit_propose_claim i).
Definition handle_onchaind_credit_note (n : credit_note_held) : daemon unit :=
  held ← get credit_note;
  if negb option_seq_credit || bool_decide (credit_provider = LOCAL) then mret tt
  else if match held with Some h => note_credit n <=? note_credit h | None => false end then mret tt
  else
    _ ← put (set_credit_note n);
    count ← get (fun d => length (outs d));
    for_each claim_unresolved (seq 0 count).
End Tcov.
