(* ===== verification/OnchainSym.v ===== *)
(** * A symmetric channel on chain (onchaind/onchaind.c)

    The kickoff's output KO, and every state output after it, is replaced by
    our best state when that is newer, and settled after the shared delay when
    we know its settlement; the settlement's own outputs are then tracked.  A
    channel of several assets has a state output per lane, and settles them in
    one transaction. *)

From stdpp Require Import list.
From S2P Require Import Prelude Chainparams Amount HtlcState CommitFee Script Keys Tapscript ChannelState Tx SymScripts TcovScripts SymState Signature CommitTx OnchainState OnchainTcov.
Local Open Scope Z_scope.

Definition SYM_HTLC_LEAF_SUCCESS := 0%nat.
Definition SYM_HTLC_LEAF_TIMEOUT := 1%nat.

Section Sym.
Context `{!Secp256k1, !Taproot, !Ecdsa, !onchain_world, !onchain_env}.
Local Notation params := w_params.
Local Notation sha256 := w_sha256.
Local Notation ripemd160 := w_ripemd160.

(** Lane 0 is the channel's own. *)
Definition lane_asset_of (lane : nat) : option (list Z) :=
  match lane with O => None | S l => lane_asset <$> oc_lanes !! l end.
Definition lane_outpoint (l : sym_lane) : outpoint := mk_outpoint (txid sym_funding) (lane_outnum l).
Fixpoint lane_spent (input : option part_input) (l : nat) (lanes : list sym_lane) : option nat :=
  match lanes with
  | [] => None
  | lane :: lanes => if wally_tx_input_spends input (lane_outpoint lane) then Some l else lane_spent input (S l) lanes
  end.
Definition sym_lane_of_input (input : option part_input) : option nat :=
  match input with
  | None => None
  | Some _ => if wally_tx_input_spends input sym_funding then Some O else lane_spent input 1 oc_lanes
  end.

Definition sym_known (num : Z) : option sym_state :=
  let is_ st := match st with Some s => st_num s =? num | None => false end in
  if is_ sym_local then sym_local else if is_ sym_remote then sym_remote else if is_ sym_remote_pending then sym_remote_pending
  else None.

Definition sym_welements (wit : list (list Z)) : list welement := mk_welement false <$> wit.
Definition with_outs (outs : list sym_state_out) (st : sym_state) : sym_state :=
  mk_sym_state (st_owner st) (st_commit_num st) (st_num st) outs (has_sig st) (st_sig st).
Definition empty_state (owner : side) (commit_num num : Z) : sym_state := sym_state_new (handle := Empty_set) owner commit_num num [].

Definition sym_propose (i : nat) (wit : list (list Z)) (outs : sym_state) (sequence locktime : Z) (clock : option outpoint)
    (minblock deadline : Z) (type : tx_type) : daemon unit :=
  o ← out_at i;
  spk ← deref (to_sym_spk o);
  propose_resolution_to_master i
    (spend_sym (to_outpoint o) (to_sat o) spk (sym_welements wit) outs sequence locktime clock minblock deadline) minblock type.

(** ** Settling *)

(** The lanes' state outputs at state [num], the last of each. *)
Fixpoint lanes_at (i : nat) (os : list tracked_output) (num : Z) (spk : option (list Z)) (at_ : list (option nat)) : list (option nat) :=
  match os with
  | [] => at_
  | o :: os =>
    let here := bool_decide (to_output_type o = SYM_STATE_OUTPUT) && match to_resolved o with None => true | Some _ => false end
                && (to_sym_num o =? num) && negb (to_sym_lane_funding o) && bool_decide (to_sym_spk o = spk) in
    lanes_at (S i) os num spk (if here then <[to_sym_lane o := Some i]> at_ else at_)
  end.
Fixpoint lanes_ready (at_ : list (option nat)) (minblock : Z) : daemon (option (list nat * Z)) :=
  match at_ with
  | [] => mret (Some ([], minblock))
  | None :: _ => mret None
  | Some i :: at_ =>
    o ← out_at i;
    r ← lanes_ready at_ (Z.max minblock (rel_blockheight o (sym_delay sym_sc)));
    mret (match r with Some (l, m) => Some (i :: l, m) | None => None end)
  end.
Fixpoint lane_inputs (l : list nat) : daemon (list outpoint * list amount_sat_t * list Z) :=
  match l with
  | [] => mret ([], [], [])
  | i :: l =>
    o ← out_at i;
    '(ops, amounts, assets) ← lane_inputs l;
    mret (to_outpoint o :: ops, to_sat o :: amounts, default oc_channel_asset (lane_asset_of (to_sym_lane o)) ++ assets)
  end.
(** Once every lane is there; input 0 is this output, the others follow it in
    lane order. *)
Definition sym_settle_lanes (i : nat) (st : sym_state) (tree : sym_tree) : daemon unit :=
  o ← out_at i;
  spk ← deref (to_sym_spk o);
  os ← get outs;
  r ← lanes_ready (lanes_at 0 os (st_num st) (to_sym_spk o) (replicate (1 + length oc_lanes) None)) 0;
  match r with
  | None => mret tt
  | Some (l, minblock) =>
    '(ops, amounts, assets) ← lane_inputs (filter (fun j => j = i) l ++ filter (fun j => j <> i) l);
    wit ← sure (sym_settle_witness tree);
    propose_resolution_to_master i
      (spend_sym_lanes ops amounts assets spk (sym_welements wit) st (sym_delay sym_sc) minblock (wrap_u32 (minblock + 6)))
      minblock SYM_SETTLE
  end.

(** Input 1 is the clock; the marker stays at output 0. *)
Definition sym_settle_clock (i : nat) (st : sym_state) (tree : sym_tree) : daemon unit :=
  o ← out_at i;
  p ← get sym_prog;
  match clock_out p with
  | None => propose_ignore i (wrap_u32 (to_tx_blockheight o + 100000)) SYM_SETTLE
  | Some clock =>
    spk ← deref (to_sym_spk o);
    marker ← sure (sym_clock_marker_asset sym_sc);
    let outs := mk_sym_state_out (to_sat o) spk (Some marker)
                :: ((fun out => mk_sym_state_out (sto_amount out) (sto_spk out) None) <$> st_outs st) in
    let minblock := Z.max (wrap_u32 (clock_height p + sym_delay sym_sc)) (wrap_u32 (to_tx_blockheight o + 1)) in
    wit ← sure (sym_settle_witness tree);
    sym_propose i wit (with_outs outs (empty_state (st_owner st) (st_commit_num st) (st_num st))) SYM_SEQUENCE 0 (Some clock) minblock
      (wrap_u32 (minblock + 6)) SYM_SETTLE
  end.

(** ** State outputs *)

(** UPD of the output at state [num] (KO: -1) and its control block. *)
Definition prev_leaf (num : Z) (rest : list Z) : outcome (list Z * list Z) :=
  if num =? -1 then
    prev ← sym_kickoff_tree sha256 sym_sc;
    cb ← sym_tree_control_block prev SYM_LEAF_UPD;
    Ret (st_upd prev, cb)
  else
    '(_, leaf, cb) ← sym_rebuild_state sha256 sym_sc num rest;
    Ret (leaf, cb).

(** Replaced by our best state [best]. *)
Definition sym_replace (i : nat) (best : sym_state) (sig_op sig_acc : list Z) : daemon unit :=
  o ← out_at i;
  '(leaf, cb) ← sure (prev_leaf (to_sym_num o) (to_sym_rest o));
  tree ← sure (sym_state_tree_of sha256 sym_sc best);
  asset ← (if has_clock sym_sc then marker ← sure (sym_clock_marker_asset sym_sc); mret (Some marker)
           else match to_sym_lane o with O => mret None | lane => a ← deref (lane_asset_of lane); mret (Some a) end);
  sym_propose i (sym_update_witness sig_op sig_acc tree leaf cb)
    (with_outs [mk_sym_state_out (to_sat o) (sym_tree_spk tree) asset] (empty_state LOCAL 0 (st_num best))) SYM_SEQUENCE
    (if has_clock sym_sc then SYM_CLOCK_LOCKTIME_FLOOR else 0) None (wrap_u32 (to_tx_blockheight o + 1))
    (wrap_u32 (to_tx_blockheight o + 2)) SYM_UPDATE.

(** Settled, if it is the state [st] we know; else left to its holder. *)
Definition sym_settle (i : nat) (st : option sym_state) : daemon unit :=
  o ← out_at i;
  let leave := propose_ignore i (wrap_u32 (to_tx_blockheight o + 100000)) SYM_SETTLE in
  match st with
  | None => leave
  | Some st =>
    tree ← sure (sym_state_tree_of sha256 sym_sc st);
    if negb (bool_decide (to_sym_spk o = Some (sym_tree_spk tree))) then leave
    else if negb (length oc_lanes =? 0)%nat then sym_settle_lanes i st tree
    else if has_clock sym_sc then sym_settle_clock i st tree
    else
      wit ← sure (sym_settle_witness tree);
      let minblock := rel_blockheight o (sym_delay sym_sc) in
      sym_propose i wit st (sym_delay sym_sc) 0 None minblock (wrap_u32 (minblock + 6)) SYM_SETTLE
  end.

Definition sym_resolve_state (i : nat) : daemon unit :=
  o ← out_at i;
  let newer := match sym_best with
               | Some best => if to_sym_num o <? st_num best
                              then match sym_state_signed best sym_opener with Some (a, b) => Some (best, a, b) | None => None end
                              else None
               | None => None
               end in
  match newer with
  | Some (best, sig_op, sig_acc) => sym_replace i best sig_op sig_acc
  | None => sym_settle i (if 0 <=? to_sym_num o then sym_known (to_sym_num o) else None)
  end.

Definition sym_track_state (op : outpoint) (tx_blockheight : Z) (amt : amount_sat_t) (num : Z) (rest : list Z) (type : tx_type)
    (lane : nat) : daemon unit :=
  i ← new_tracked_output op tx_blockheight type amt SYM_STATE_OUTPUT None None None;
  _ ← (if num =? -1 then
         tree ← sure (sym_kickoff_tree sha256 sym_sc);
         upd_out i (set_sym num (repeat 0 32) (Some (sym_tree_spk tree)) lane)
       else
         '(spk, _, _) ← sure (sym_rebuild_state sha256 sym_sc num rest);
         upd_out i (set_sym num rest (Some spk) lane));
  sym_resolve_state i.

(** ** Settlements *)

(** The first HTLC, not found yet, whose output this is. *)
Fixpoint sym_match_htlc (o : tx_output) (h : nat) (unmatched : list (option unit)) (info : htlcs_info)
  : outcome (option (nat * htlc_stub * tap_tree2)) :=
  match unmatched, info with
  | u :: unmatched, hw :: info =>
    let s := hw_htlc hw in
    match u, stub_lock_point s with
    | Some _, None =>
      tree ← sym_htlc_tree sha256 (bp_htlc sym_basepoints.[stub_owner s]) (bp_htlc sym_basepoints.[other (stub_owner s)])
               (stub_ripemd s) (stub_cltv_expiry s);
      if wally_tx_output_scripteq o (tap_tree2_scriptpubkey tree) then Ret (Some (h, s, tree))
      else sym_match_htlc o (S h) unmatched info
    | _, _ => sym_match_htlc o (S h) unmatched info
    end
  | _, _ => Ret None
  end.
Definition sym_htlc_found (op : outpoint) (tx_blockheight : Z) (amt : amount_sat_t) (s : htlc_stub) (tree : tap_tree2) : daemon unit :=
  i ← new_tracked_output op tx_blockheight SYM_SETTLE amt (match stub_owner s with LOCAL => OUR_HTLC | REMOTE => THEIR_HTLC end) (Some s)
        None None;
  _ ← upd_out i (set_tcov_tree tree);
  match stub_owner s with
  | LOCAL =>
    tcov_propose i TCOV_SIGN_SYM_HTLC (Some SYM_HTLC_LEAF_TIMEOUT) None None (stub_cltv_expiry s) 0xFFFFFFFE
      (wrap_u32 (stub_cltv_expiry s + 1)) TCOV_DEADLINE_HTLC_OUT OUR_HTLC_TIMEOUT_TO_US
  | REMOTE => propose_ignore i (stub_cltv_expiry s) THEIR_HTLC_TIMEOUT_TO_THEM
  end.
(** The outputs of a settlement from number [n] on, and the HTLCs that are
    left. *)
Fixpoint sym_settled_outputs (tx : tx_parts) (tx_blockheight : Z) (n : nat) (outputs : list (option tx_output)) (info : htlcs_info)
    (unmatched : list (option unit)) : daemon (list (option unit)) :=
  match outputs with
  | [] => mret unmatched
  | None :: outputs => sym_settled_outputs tx tx_blockheight (S n) outputs info unmatched
  | Some o :: outputs =>
    let next := sym_settled_outputs tx tx_blockheight (S n) outputs info in
    if (length (out_script o) =? 0)%nat then next unmatched
    else
      asset ← sure (wally_tx_output_get_amount params o);
      if negb (our_asset asset) then next unmatched
      else
        let amt := mk_sat (asset_value asset) in
        let op := mk_outpoint (tp_txid tx) (Z.of_nat n) in
        let ours := scriptpubkey_p2wpkh sha256 ripemd160 (bp_payment sym_basepoints.[LOCAL]) in
        if wally_tx_output_scripteq o ours then
          i ← new_tracked_output op tx_blockheight SYM_SETTLE amt OUTPUT_TO_US None None None;
          _ ← ignore_output i;
          _ ← tell_wallet_to_remote tx op tx_blockheight ours None true 1;
          next unmatched
        else
          m ← sure (sym_match_htlc o 0 unmatched info);
          match m with
          | None => next unmatched
          | Some (h, s, tree) => _ ← sym_htlc_found op tx_blockheight amt s tree; next (<[h := None]> unmatched)
          end
  end.
(** Each settlement is read once. *)
Definition sym_settled (tx : tx_parts) (tx_blockheight : Z) : daemon unit :=
  p ← get sym_prog;
  info ← deref (sym_htlcs p);
  if bool_decide (tp_txid tx ∈ settled p) then mret tt
  else
    _ ← put (set_sym_prog (mk_sym_progress (clock_out p) (clock_height p) (settled p ++ [tp_txid tx]) (sym_htlcs p)));
    _ ← onchain_annotate_txin (tp_txid tx) 0 TX_CHANNEL_UNILATERAL;
    unmatched ← sym_settled_outputs tx tx_blockheight 0 (tp_outputs tx) info (replicate (length info) (Some tt));
    note_missing_htlcs unmatched info.

(** ** Spends *)

Definition sym_state_spent (i : nat) (tx : tx_parts) (input_num : nat) (tx_blockheight : Z) : daemon unit :=
  input ← deref (tp_inputs tx !! input_num);
  input ← deref input;
  let items := match pi_witness input with Some wit => tap_witness_items wit | None => O end in
  by_us ← resolved_by_proposal i tx;
  _ ← when (negb by_us) (resolved_by_other i (tp_txid tx) (if (items =? 2)%nat then SYM_SETTLE else SYM_UPDATE));
  match pi_witness input with
  | None => mret tt
  | Some wit =>
    if (items =? 2)%nat then sym_settled tx tx_blockheight
    else
      match sym_parse_update_witness wit, tp_outputs tx !! input_num with
      | Some (num, rest), Some (Some next) =>
        asset ← sure (wally_tx_output_get_amount params next);
        o ← out_at i;
        sym_track_state (mk_outpoint (tp_txid tx) (Z.of_nat input_num)) tx_blockheight (mk_sat (asset_value asset)) num rest SYM_UPDATE
          (to_sym_lane o)
      | _, _ => mret tt
      end
  end.

Definition sym_lane_kicked_off (i : nat) (tx : tx_parts) (input_num : nat) (tx_blockheight : Z) : daemon unit :=
  _ ← resolved_by_other i (tp_txid tx) SYM_UPDATE;
  match tp_outputs tx !! input_num with
  | Some (Some ko) =>
    asset ← sure (wally_tx_output_get_amount params ko);
    o ← out_at i;
    sym_track_state (mk_outpoint (tp_txid tx) (Z.of_nat input_num)) tx_blockheight (mk_sat (asset_value asset)) (-1) (repeat 0 32)
      SYM_UPDATE (to_sym_lane o)
  | _ => mret tt
  end.

Definition sym_claim_with_preimage (i : nat) (preimage : list Z) : daemon unit :=
  o ← out_at i;
  tcov_propose i TCOV_SIGN_SYM_HTLC (Some SYM_HTLC_LEAF_SUCCESS) (Some preimage) None 0 0xFFFFFFFF
    (wrap_u32 (to_tx_blockheight o + 1)) TCOV_DEADLINE_HTLC_IN THEIR_HTLC_FULFILL_TO_US.
End Sym.
