(* ===== verification/Onchaind.v ===== *)
(** * What the chain did to the outputs of a close (onchaind/onchaind.c)

    The loop that waits for every output to be resolved for good, and its
    messages: an output was spent, a transaction got deeper, lightningd learnt
    a preimage, a credit note came. *)

From stdpp Require Import list.
From S2P Require Import Prelude Chainparams Amount HtlcState CommitFee Script Keys Tapscript ChannelState Tx SymScripts TcovScripts SymState Signature CommitTx OnchainState OnchainTcov OnchainSym.
Local Open Scope Z_scope.

Section Onchaind.
Context `{!Secp256k1, !Taproot, !Ecdsa, !onchain_world, !onchain_env}.
Local Notation params := w_params.
Local Notation sha256 := w_sha256.
Local Notation ripemd160 := w_ripemd160.

(** ** Spends *)

(** The preimage of our HTLC, from the witness of an HTLC-success transaction
    or of a spend of our commitment, where the revocation key in its place is
    only logged. *)
Definition handle_htlc_onchain_fulfill (i : nat) (tx : tx_parts) (n : nat) : daemon unit :=
  o ← out_at i;
  input ← deref (tp_inputs tx !! n);
  input ← deref input;
  wit ← deref (pi_witness input);
  item ← (match to_tx_type o, wit with
          | (THEIR_UNILATERAL | THEIR_REVOKED_UNILATERAL), [_; _; _; p; _] => mret p
          | OUR_UNILATERAL, [_; p; _] => mret p
          | _, _ => exits
          end);
  if negb (length item =? 32)%nat then
    assert_ (bool_decide (to_tx_type o = OUR_UNILATERAL) && (length item =? PUBKEY_CMPR_LEN)%nat)
  else
    let sha := sha256 item in
    _ ← assert_ (bool_decide (ripemd160 sha = stub_ripemd (to_htlc o)));
    _ ← upd_out i (set_payment_hash sha);
    send (onchaind_extracted_preimage item).

Definition htlc_tx_wscript (ks : keyset) (s : side) : list Z :=
  bitcoin_wscript_htlc_tx delays.[s] (self_revocation_key ks) (self_delayed_payment_key ks).

(** The delayed output of an HTLC transaction of ours. *)
Definition resolve_htlc_tx (out_index : nat) (htlc_tx : tx_parts) (input_num : nat) (tx_blockheight : Z) : daemon unit :=
  ks ← the_keyset;
  let wscript := htlc_tx_wscript ks LOCAL in
  let op := mk_outpoint (tp_txid htlc_tx) (Z.of_nat input_num) in
  amt ← amount_at htlc_tx input_num;
  from ← out_at out_index;
  r ← deref (to_resolved from);
  i ← new_tracked_output op tx_blockheight (resolved_type r) amt DELAYED_OUTPUT_TO_US None None None;
  out ← out_at i;
  n ← commit_num;
  let minblock := rel_blockheight out delays.[LOCAL] in
  propose_resolution_to_master i (spend_to_us op amt delays.[LOCAL] minblock n wscript) minblock OUR_DELAYED_RETURN_TO_WALLET.

(** The output of an HTLC transaction of theirs, from a revoked commitment. *)
Definition steal_htlc_tx (out_index : nat) (htlc_tx : tx_parts) (htlc_tx_blockheight : Z) (htlc_tx_type : tx_type)
    (htlc_outpoint : outpoint) : daemon unit :=
  ks ← the_keyset;
  let wscript := htlc_tx_wscript ks REMOTE in
  amt ← amount_at htlc_tx (Z.to_nat (outnum htlc_outpoint));
  out ← out_at out_index;
  i ← new_tracked_output htlc_outpoint htlc_tx_blockheight htlc_tx_type amt DELAYED_CHEAT_OUTPUT_TO_THEM (Some (to_htlc out))
        (Some wscript) None;
  _ ← resolved_by_other out_index (tp_txid htlc_tx) htlc_tx_type;
  secret ← get (fun d => cv_secret (the_view d));
  propose_immediate_resolution i (spend_penalty htlc_outpoint amt secret [1] wscript) OUR_PENALTY_TX.

(** A spend of the output that is not the proposed one. *)
Definition spent_by_other (i : nat) (tx : tx_parts) (input_num : nat) (tx_blockheight : Z) : daemon unit :=
  out ← out_at i;
  let htlc_outpoint := mk_outpoint (tp_txid tx) (Z.of_nat input_num) in
  let h := to_tx_blockheight out in
  let revoked := bool_decide (to_tx_type out = THEIR_REVOKED_UNILATERAL) in
  let steal := if option_seq_taproot_covenant then tcov_steal_claim else steal_htlc_tx in
  match to_output_type out with
  | OUTPUT_TO_US | DELAYED_OUTPUT_TO_US =>
    _ ← unknown_spend i tx; record_external_deposit out h [MVT_PENALIZED]
  | THEIR_HTLC =>
    if revoked then
      _ ← record_external_deposit out h [MVT_HTLC_TIMEOUT; MVT_STEALABLE];
      _ ← record_external_spend (tp_txid tx) out tx_blockheight [MVT_HTLC_TIMEOUT; MVT_STEALABLE];
      steal i tx tx_blockheight THEIR_HTLC_TIMEOUT_TO_THEM htlc_outpoint
    else onchain_annotate_txout htlc_outpoint (Z.lor TX_CHANNEL_HTLC_TIMEOUT TX_THEIRS)
  | OUR_HTLC =>
    _ ← (if option_seq_taproot_covenant || option_seq_symmetric then tcov_extract_preimage i tx input_num
         else handle_htlc_onchain_fulfill i tx input_num);
    out ← out_at i;
    _ ← record_to_them_htlc_fulfilled out h;
    if revoked then
      _ ← record_external_spend (tp_txid tx) out tx_blockheight [MVT_HTLC_FULFILL; MVT_STEALABLE];
      steal i tx tx_blockheight OUR_HTLC_FULFILL_TO_THEM htlc_outpoint
    else
      _ ← record_external_spend (tp_txid tx) out tx_blockheight [MVT_HTLC_FULFILL];
      _ ← ignore_output i;
      onchain_annotate_txout htlc_outpoint (Z.lor TX_CHANNEL_HTLC_SUCCESS TX_THEIRS)
  | FUNDING_OUTPUT => exits
  | DELAYED_CHEAT_OUTPUT_TO_THEM =>
    paid_us ← (if option_seq_taproot_covenant then tcov_revoke_leaf_paid_us tx input_num tx_blockheight else mret false);
    if (paid_us : bool) then resolved_by_other i (tp_txid tx) OUR_PENALTY_TX
    else _ ← resolved_by_other i (tp_txid tx) THEIR_DELAYED_CHEAT; record_external_deposit out h [MVT_STOLEN]
  | CREDIT_OUTPUT_TO_US | CREDIT_OUTPUT_TO_THEM => _ ← credit_output_spent i tx input_num tx_blockheight false; mret tt
  | SYM_STATE_OUTPUT | OUTPUT_TO_THEM | DELAYED_OUTPUT_TO_THEM | ELEMENTS_FEE | ANCHOR_TO_US | ANCHOR_TO_THEM => exits
  end.

(** What our own spend of it leads to. *)
Definition spent_by_us (i : nat) (tx : tx_parts) (input_num : nat) (tx_blockheight : Z) : daemon unit :=
  out ← out_at i;
  _ ← (if bool_decide (to_output_type out = CREDIT_OUTPUT_TO_THEM)
       then _ ← credit_output_spent i tx input_num tx_blockheight true; mret tt else mret tt);
  r ← deref (to_resolved out);
  _ ← when (bool_decide (resolved_type r = OUR_HTLC_SUCCESS_TX) || bool_decide (resolved_type r = OUR_HTLC_TIMEOUT_TX))
        ((if option_seq_taproot_covenant then tcov_resolve_claim else resolve_htlc_tx) i tx input_num tx_blockheight);
  record_coin_movements out tx_blockheight (tp_txid tx).

(** The outputs numbered [is], of those there were when the spend came: those
    added on the way are the spending transaction's own, which none of its
    inputs spends.  Our own spend ends the search. *)
Fixpoint outputs_spent (tx : tx_parts) (input_num : nat) (tx_blockheight : Z) (indices : list nat) (interesting : bool) : daemon bool :=
  match indices with
  | [] => mret interesting
  | i :: indices =>
    out ← out_at i;
    input ← deref (tp_inputs tx !! input_num);
    if negb (wally_tx_input_spends input (to_outpoint out)) then outputs_spent tx input_num tx_blockheight indices interesting
    else
      match to_resolved out with
      | Some _ => outputs_spent tx input_num tx_blockheight indices true
      | None =>
        if bool_decide (to_output_type out = SYM_STATE_OUTPUT) then
          _ ← sym_state_spent i tx input_num tx_blockheight; outputs_spent tx input_num tx_blockheight indices true
        else if to_sym_lane_funding out then
          _ ← sym_lane_kicked_off i tx input_num tx_blockheight; outputs_spent tx input_num tx_blockheight indices true
        else
          by_us ← resolved_by_proposal i tx;
          if (by_us : bool) then _ ← spent_by_us i tx input_num tx_blockheight; mret true
          else _ ← spent_by_other i tx input_num tx_blockheight; outputs_spent tx input_num tx_blockheight indices true
      end
  end.
Definition output_spent (tx : tx_parts) (input_num : nat) (tx_blockheight : Z) : daemon bool :=
  n ← get (fun d => length (outs d));
  outputs_spent tx input_num tx_blockheight (seq 0 n) false.

(** ** Depths *)

Definition update_resolution_depth (i : nat) (depth : Z) : daemon unit :=
  o ← out_at i;
  r ← deref (to_resolved o);
  let reached := (resolved_depth r <? reasonable_depth) && (reasonable_depth <=? depth) in
  _ ← when ((bool_decide (resolved_type r = OUR_HTLC_TIMEOUT_TX) || bool_decide (resolved_type r = OUR_HTLC_TIMEOUT_TO_US)) && reached)
        (send (onchaind_htlc_timeout (to_htlc o)));
  upd_out i (set_resolved (mk_resolution (resolved_txid r) depth (resolved_type r))).

Definition output_depth (tx : list Z) (depth : Z) (i : nat) : daemon unit :=
  o ← out_at i;
  match to_resolved o with
  | Some r => when (bool_decide (resolved_txid r = tx)) (update_resolution_depth i depth)
  | None =>
    if negb (bool_decide (txid (to_outpoint o) = tx)) then mret tt
    else
      _ ← upd_out i (set_depth depth);
      match to_proposal o with
      | Some (mk_proposal None required type) =>
        when (required <=? depth)
          (_ ← ignore_output i;
           when (bool_decide (type = THEIR_HTLC_TIMEOUT_TO_THEM)) (record_external_deposit o (to_tx_blockheight o) [MVT_HTLC_TIMEOUT]))
      | _ => mret tt
      end
  end.
Definition tx_new_depth (tx : list Z) (depth : Z) : daemon unit :=
  o ← out_at 0;
  r ← deref (to_resolved o);
  missing ← get missing_htlc_msgs;
  _ ← (match missing with
       | Some l =>
         when (bool_decide (resolved_txid r = tx) && (reasonable_depth <=? depth))
           (_ ← for_each (fun h => send (onchaind_missing_htlc_output h)) l; put (set_missing None))
       | None => mret tt
       end);
  n ← get (fun d => length (outs d));
  for_each (output_depth tx depth) (seq 0 n).

(** ** Preimages *)

(** Whether the preimage opens this HTLC. *)
Definition preimage_opens (htlc : htlc_stub) (preimage : list Z) : bool :=
  match stub_lock_point htlc with
  | Some lock => point_lock_opens lock preimage
  | None => bool_decide (stub_ripemd htlc = ripemd160 (sha256 preimage))
  end.
(** The claim of one HTLC. *)
Definition claim_with_preimage (i : nat) (preimage : list Z) : daemon unit :=
  o ← out_at i;
  _ ← upd_out i (set_payment_hash (match stub_lock_point (to_htlc o) with
                                   | Some lock => point_lock_payment_hash lock
                                   | None => sha256 preimage
                                   end));
  if option_seq_taproot_covenant && bool_decide (to_tx_type o = THEIR_REVOKED_UNILATERAL) then mret tt
  else
    _ ← upd_out i (set_proposal None);
    if option_seq_taproot_covenant then tcov_claim_with_preimage i preimage
    else if option_seq_symmetric then sym_claim_with_preimage i preimage
    else
      match to_remote_htlc_sig o with
      | Some sig =>
        ks ← the_keyset;
        fee ← get_htlc_success_fee o;
        n ← commit_num;
        wscript ← deref (to_wscript o);
        propose_immediate_resolution i
          (spend_htlc_success (to_outpoint o) (to_sat o) fee (stub_id (to_htlc o)) n sig preimage wscript (htlc_tx_wscript ks LOCAL))
          OUR_HTLC_SUCCESS_TX
      | None =>
        point ← get (fun d => cv_point (the_view d));
        wscript ← deref (to_wscript o);
        propose_immediate_resolution i (spend_fulfill (to_outpoint o) (to_sat o) (stub_id (to_htlc o)) point preimage wscript)
          THEIR_HTLC_FULFILL_TO_US
      end.
(** One that was ignored is claimed; one resolved otherwise ends the search. *)
Fixpoint handle_preimage_from (preimage : list Z) (indices : list nat) : daemon unit :=
  match indices with
  | [] => mret tt
  | i :: indices =>
    o ← out_at i;
    if bool_decide (to_output_type o = THEIR_HTLC) && preimage_opens (to_htlc o) preimage then
      if match to_resolved o with Some r => negb (bool_decide (resolved_type r = SELF)) | None => false end then mret tt
      else _ ← claim_with_preimage i preimage; handle_preimage_from preimage indices
    else handle_preimage_from preimage indices
  end.
Definition handle_preimage (preimage : list Z) : daemon unit :=
  n ← get (fun d => length (outs d)); handle_preimage_from preimage (seq 0 n).

(** ** The loop *)

Definition handle_onchaind_spent (tx : tx_parts) (input_num : nat) (tx_blockheight : Z) : daemon unit :=
  interesting ← output_spent tx input_num tx_blockheight;
  send (onchaind_spent_reply interesting).
(** What comes before its time, or what only we send, ends the process. *)
Definition handle_message (m : from_master) : daemon unit :=
  match m with
  | onchaind_depth txid depth => tx_new_depth txid depth
  | onchaind_spent tx input_num tx_blockheight => handle_onchaind_spent tx input_num tx_blockheight
  | onchaind_known_preimage preimage => handle_preimage preimage
  | onchaind_credit_note note => handle_onchaind_credit_note note
  | onchaind_dev_memleak => send onchaind_dev_memleak_reply
  | onchaind_htlcs _ | onchaind_spend_created _ _ | onchaind_unexpected => exits
  end.
(** What was put off comes first. *)
Definition next_message : daemon from_master := fun d =>
  match queued_msgs d, inbox d with
  | m :: queued, rest => Ok m (set_messages queued rest d)
  | [], m :: rest => Ok m (set_messages [] rest d)
  | [], [] => Blocked d
  end.
(** A round reads a message at least; [fuel] is how many there are. *)
Fixpoint wait_rounds (fuel : nat) : daemon unit :=
  n ← get (fun d => num_not_irrevocably_resolved (outs d));
  if (n =? 0)%nat then send onchaind_all_irrevocably_resolved
  else match fuel with
       | O => fun d => Blocked d
       | S fuel => m ← next_message; _ ← handle_message m; wait_rounds fuel
       end.
Definition messages (d : onchaind) : nat := length (queued_msgs d) + length (inbox d).
Definition wait_for_resolved : daemon unit := n ← get messages; wait_rounds n.
End Onchaind.
