(* ===== verification/OnchainClose.v ===== *)
(** * How a channel was closed (onchaind/onchaind.c)

    [main] tells from the transaction that spent the funding output which kind
    of close it is; the handler of that kind finds out what each of its
    outputs is, proposes how to resolve it, and waits. *)

From stdpp Require Import list.
From S2P Require Import Prelude Chainparams Amount Wire HtlcState CommitFee Script Shachain Keys Tapscript ChannelState Channel Tx SymScripts TcovScripts SymState Signature CommitTx CommitValue OnchainState OnchainTcov OnchainSym Onchaind.
Local Open Scope Z_scope.

Definition LEASE_RATE_DURATION := 4032.

Section Closes.
Context `{!Secp256k1, !Taproot, !Ecdsa, !onchain_world, !onchain_env}.
Local Notation params := w_params.
Local Notation sha256 := w_sha256.
Local Notation ripemd160 := w_ripemd160.

Definition handle_mutual_close (tx : tx_parts) : daemon unit :=
  _ ← init_reply;
  _ ← onchain_annotate_txin (tp_txid tx) 0 TX_CHANNEL_CLOSE;
  _ ← resolved_by_other 0 (tp_txid tx) MUTUAL_CLOSE;
  wait_for_resolved.

(** ** HTLC outputs *)

(** The script of each HTLC on a commitment of [s]. *)
Definition derive_htlc_script (ks : keyset) (s : side) (htlc : htlc_stub) : option (list Z) :=
  if bool_decide (stub_owner htlc = s)
  then Some (htlc_offered_wscript sha256 ripemd160 (stub_ripemd htlc) ks option_anchor_outputs option_anchors_zero_fee_htlc_tx)
  else
    ltime ← blocks_to_abs_locktime (stub_cltv_expiry htlc);
    Some (htlc_received_wscript sha256 ripemd160 (stub_ripemd htlc) ltime ks option_anchor_outputs option_anchors_zero_fee_htlc_tx).
Fixpoint derive_htlc_scripts (ks : keyset) (s : side) (info : htlcs_info) : daemon (list (option (list Z))) :=
  match info with
  | [] => mret []
  | h :: info =>
    script ← deref (derive_htlc_script ks s (hw_htlc h));
    scripts ← derive_htlc_scripts ks s info;
    mret (Some script :: scripts)
  end.

(** The numbers of the HTLCs whose script the output has. *)
Fixpoint matching_from (h : nat) (program : list Z) (scripts : list (option (list Z))) : list nat :=
  match scripts with
  | [] => []
  | Some s :: scripts =>
    if bool_decide (program = sha256 s) then h :: matching_from (S h) program scripts else matching_from (S h) program scripts
  | None :: scripts => matching_from (S h) program scripts
  end.
Definition match_htlc_output (o : tx_output) (scripts : list (option (list Z))) : list nat :=
  match is_p2wsh (out_script o) with
  | Some program => matching_from 0 program scripts
  | None => []
  end.

Definition htlc_at (info : htlcs_info) (h : nat) : daemon htlc_stub := hw ← deref (info !! h); mret (hw_htlc hw).
Definition script_at (scripts : list (option (list Z))) (h : nat) : daemon (list Z) := s ← deref (scripts !! h); deref s.
(** The same of all of them, the first's. *)
Fixpoint all_same {A} `{!EqDecision A} (f : htlc_stub -> A) (info : htlcs_info) (matches : list nat) : daemon A :=
  match matches with
  | [] => exits
  | [m] => h ← htlc_at info m; mret (f h)
  | m :: matches =>
    h ← htlc_at info m;
    b ← all_same f info matches;
    _ ← assert_ (bool_decide (b = f h));
    mret (f h)
  end.
Definition matches_cltv (matches : list nat) (info : htlcs_info) : daemon Z := all_same stub_cltv_expiry info matches.
Definition matches_direction (matches : list nat) (info : htlcs_info) : daemon side := all_same stub_owner info matches.

(** The first HTLC, of those with one expiry, whose timeout transaction their
    signature is for. *)
Fixpoint find_timeout_tx (out : tracked_output) (htlc_amount : amount_msat_t) (ks : keyset) (info : htlcs_info)
    (scripts : list (option (list Z))) (prev : option Z) (matches : list nat) : daemon (nat * bitcoin_tx) :=
  match matches with
  | [] => exits
  | m :: matches =>
    h ← htlc_at info m;
    let cltv := stub_cltv_expiry h in
    let next := find_timeout_tx out htlc_amount ks info scripts (Some cltv) matches in
    if bool_decide (prev = Some cltv) then next
    else
      script ← script_at scripts m;
      tx ← sure (htlc_timeout_tx params sha256 w_wlen w_wbytes (to_outpoint out) script htlc_amount cltv delays.[LOCAL] 0 ks
                   option_anchor_outputs option_anchors_zero_fee_htlc_tx oc_channel_asset);
      tx ← deref tx;
      '(ok, tx) ← set_htlc_timeout_fee tx (to_remote_htlc_sig out) script;
      if (ok : bool) then mret (m, tx) else next
  end.
Definition resolve_our_htlc_ourcommit (i : nat) (matches : list nat) (info : htlcs_info) (scripts : list (option (list Z))) : daemon nat :=
  out ← out_at i;
  ks ← the_keyset;
  htlc_amount ← deref (amount_sat_to_msat (to_sat out));
  '(m, tx) ← find_timeout_tx out htlc_amount ks info scripts None matches;
  h ← htlc_at info m;
  script ← script_at scripts m;
  fee ← sure (bitcoin_tx_compute_fee params tx);
  n ← commit_num;
  _ ← propose_resolution_to_master i
        (spend_htlc_timeout (to_outpoint out) (to_sat out) fee (stub_id h) (stub_cltv_expiry h) n (to_remote_htlc_sig out) script
           (htlc_tx_wscript ks LOCAL)) (wrap_u32 (stub_cltv_expiry h + 1)) OUR_HTLC_TIMEOUT_TX;
  mret m.
Definition resolve_our_htlc_theircommit (i : nat) (matches : list nat) (info : htlcs_info) (scripts : list (option (list Z))) : daemon nat :=
  cltv_expiry ← matches_cltv matches info;
  m ← deref (head matches);
  h ← htlc_at info m;
  script ← script_at scripts m;
  out ← out_at i;
  point ← get (fun d => cv_point (the_view d));
  _ ← propose_resolution_to_master i (spend_htlc_expired (to_outpoint out) (to_sat out) (stub_id h) cltv_expiry point script)
        (wrap_u32 (cltv_expiry + 1)) OUR_HTLC_TIMEOUT_TO_US;
  mret m.
(** The one that expires last. *)
Fixpoint latest_from (info : htlcs_info) (which : nat) (matches : list nat) : daemon nat :=
  match matches with
  | [] => mret which
  | m :: matches =>
    a ← htlc_at info m;
    b ← htlc_at info which;
    latest_from info (if stub_cltv_expiry b <? stub_cltv_expiry a then m else which) matches
  end.
Definition resolve_their_htlc (i : nat) (matches : list nat) (info : htlcs_info) : daemon nat :=
  m ← deref (head matches);
  which ← latest_from info m (tail matches);
  h ← htlc_at info which;
  _ ← propose_ignore i (stub_cltv_expiry h) THEIR_HTLC_TIMEOUT_TO_THEM;
  mret which.

(** ** What the outputs have in common *)

(** Tracked, and ignored at once. *)
Definition track_ignored (op : outpoint) (tx_blockheight : Z) (type : tx_type) (amt : amount_sat_t) (otype : output_type)
  : daemon tracked_output :=
  i ← new_tracked_output op tx_blockheight type amt otype None None None;
  _ ← ignore_output i;
  out_at i.
Definition is_script (script : option (list Z)) (o : tx_output) : bool :=
  match script with Some s => wally_tx_output_scripteq o s | None => false end.
(** The first delay from [csv], of [n], whose script the output has. *)
Fixpoint grind_csv (n : nat) (csv : Z) (script : Z -> outcome (list Z)) (o : tx_output) : outcome (option Z) :=
  match n with
  | O => Ret None
  | S n => s ← script csv; if wally_tx_output_scripteq o s then Ret (Some csv) else grind_csv n (csv + 1) script o
  end.
Definition grind_lease (script : Z -> outcome (list Z)) (o : tx_output) : outcome (option Z) :=
  grind_csv (Z.to_nat (LEASE_RATE_DURATION - 1)) 2 script o.
Definition to_local_script (ks : keyset) (s : side) (csv : Z) : outcome (list Z) :=
  Ret (scriptpubkey_p2wsh sha256 (to_self_wscript delays.[s] csv ks)).

(** ** Our own commitment *)

Definition our_unilateral_to_us (op : outpoint) (tx_blockheight : Z) (amt : amount_sat_t) (sequence : Z) (local_wscript : list Z)
  : daemon unit :=
  i ← new_tracked_output op tx_blockheight OUR_UNILATERAL amt DELAYED_OUTPUT_TO_US None None None;
  out ← out_at i;
  n ← commit_num;
  let minblock := rel_blockheight out sequence in
  propose_resolution_to_master i (spend_to_us op amt sequence minblock n local_wscript) minblock OUR_DELAYED_RETURN_TO_WALLET.
Definition our_to_remote (op : outpoint) (tx_blockheight : Z) (amt : amount_sat_t) : daemon unit :=
  out ← track_ignored op tx_blockheight OUR_UNILATERAL amt OUTPUT_TO_THEM;
  record_external_deposit out tx_blockheight [MVT_TO_THEM].
(** An output with no script of ours: a lease's delay is tried. *)
Definition our_unmatched (o : tx_output) (op : outpoint) (tx_blockheight : Z) (amt : amount_sat_t) (ks : keyset) (opener : side)
    (script : sides (option (list Z))) : daemon (sides (option (list Z))) :=
  match opener, script.[LOCAL], script.[REMOTE] with
  | REMOTE, Some _, _ =>
    csv ← sure (grind_lease (to_local_script ks LOCAL) o);
    csv ← deref csv;
    _ ← our_unilateral_to_us op tx_blockheight amt (Z.max delays.[LOCAL] csv) (to_self_wscript delays.[LOCAL] csv ks);
    mret (upd LOCAL None script)
  | LOCAL, _, Some _ =>
    csv ← sure (grind_lease (scriptpubkey_to_remote (other_payment_key ks)) o);
    _ ← deref csv;
    _ ← our_to_remote op tx_blockheight amt;
    mret (upd REMOTE None script)
  | _, _, _ => exits
  end.
Definition our_htlc (op : outpoint) (tx_blockheight : Z) (amt : amount_sat_t) (info : htlcs_info) (scripts : list (option (list Z)))
    (sig : bitcoin_signature) (matches : list nat) : daemon nat :=
  dir ← matches_direction matches info;
  i ← new_tracked_output op tx_blockheight OUR_UNILATERAL amt (match dir with LOCAL => OUR_HTLC | REMOTE => THEIR_HTLC end) None None
        (Some sig);
  which ← (match dir with
           | LOCAL => resolve_our_htlc_ourcommit i matches info scripts
           | REMOTE => resolve_their_htlc i matches info
           end);
  h ← htlc_at info which;
  script ← script_at scripts which;
  _ ← upd_out i (set_htlc h (Some script));
  mret which.
(** The outputs from number [n] on, and the HTLC scripts that are left; each
    HTLC output takes one of their signatures. *)
Fixpoint our_unilateral_outputs (tx : tx_parts) (tx_blockheight : Z) (ks : keyset) (opener : side) (info : htlcs_info) (n : nat)
    (outputs : list (option tx_output)) (script anchor : sides (option (list Z))) (scripts : list (option (list Z)))
    (sigs : list bitcoin_signature) : daemon (list (option (list Z))) :=
  match outputs with
  | [] => mret scripts
  | o :: outputs =>
    o ← deref o;
    let op := mk_outpoint (tp_txid tx) (Z.of_nat n) in
    amt ← amount_at tx n;
    let next := our_unilateral_outputs tx tx_blockheight ks opener info (S n) outputs in
    if is_elements params && (length (out_script o) =? 0)%nat then
      _ ← track_ignored op tx_blockheight OUR_UNILATERAL amt ELEMENTS_FEE; next script anchor scripts sigs
    else if is_script script.[LOCAL] o then
      _ ← our_unilateral_to_us op tx_blockheight amt delays.[LOCAL] (to_self_wscript delays.[LOCAL] 1 ks);
      next (upd LOCAL None script) anchor scripts sigs
    else if is_script script.[REMOTE] o then
      _ ← our_to_remote op tx_blockheight amt; next (upd REMOTE None script) anchor scripts sigs
    else if is_script anchor.[LOCAL] o then
      out ← track_ignored op tx_blockheight OUR_UNILATERAL amt ANCHOR_TO_US;
      _ ← record_our_anchor out;
      next script (upd LOCAL None anchor) scripts sigs
    else if is_script anchor.[REMOTE] o then
      out ← track_ignored op tx_blockheight OUR_UNILATERAL amt ANCHOR_TO_THEM;
      _ ← record_external_deposit out tx_blockheight [MVT_ANCHOR];
      next script (upd REMOTE None anchor) scripts sigs
    else
      match match_htlc_output o scripts with
      | [] => script ← our_unmatched o op tx_blockheight amt ks opener script; next script anchor scripts sigs
      | matches =>
        sig ← deref (head sigs);
        which ← our_htlc op tx_blockheight amt info scripts sig matches;
        next script anchor (<[which := None]> scripts) (tail sigs)
      end
  end.
Definition set_keyset (ks : keyset) : daemon unit :=
  put (fun d => set_the_view (mk_commit_view (Some ks) (cv_point (the_view d)) (cv_secret (the_view d)) (cv_num (the_view d))) d).
Definition set_point (point : list Z) (secret : option (list Z)) : daemon unit :=
  put (fun d => set_the_view (mk_commit_view (cv_keyset (the_view d)) (Some point) secret (cv_num (the_view d))) d).
Definition set_commit_num (n : Z) : daemon unit :=
  put (fun d => set_the_view (mk_commit_view (cv_keyset (the_view d)) (cv_point (the_view d)) (cv_secret (the_view d)) n) d).

Definition handle_our_unilateral (tx : tx_parts) (tx_blockheight : Z) (bases : sides basepoints) (opener : side)
    (remote_htlc_sigs : list bitcoin_signature) : daemon unit :=
  info ← init_reply;
  _ ← onchain_annotate_txin (tp_txid tx) 0 TX_CHANNEL_UNILATERAL;
  _ ← resolved_by_other 0 (tp_txid tx) OUR_UNILATERAL;
  point ← hsm_get_per_commitment_point;
  n ← commit_num;
  ks ← deref (derive_keyset sha256 point bases.[LOCAL] bases.[REMOTE] (static_remotekey_start.[LOCAL] <=? n));
  _ ← set_keyset ks;
  us ← sure (to_local_script ks LOCAL 1);
  them ← sure (scriptpubkey_to_remote (other_payment_key ks) 1);
  scripts ← derive_htlc_scripts ks LOCAL info;
  anchor ← sure get_anchor_scriptpubkeys;
  scripts ← our_unilateral_outputs tx tx_blockheight ks opener info 0 (tp_outputs tx) (mk_sides (Some us) (Some them)) anchor scripts
              remote_htlc_sigs;
  _ ← note_missing_htlcs scripts info;
  wait_for_resolved.

(** ** Their commitment, revoked *)

Definition steal_to_them_output (i : nat) (csv : Z) : daemon unit :=
  ks ← the_keyset;
  out ← out_at i;
  secret ← get (fun d => cv_secret (the_view d));
  propose_immediate_resolution i
    (spend_penalty (to_outpoint out) (to_sat out) secret [1]
       (bitcoin_wscript_to_local delays.[REMOTE] csv (self_revocation_key ks) (self_delayed_payment_key ks))) OUR_PENALTY_TX.
Definition steal_htlc (i : nat) : daemon unit :=
  ks ← the_keyset;
  out ← out_at i;
  wscript ← deref (to_wscript out);
  secret ← get (fun d => cv_secret (the_view d));
  propose_immediate_resolution i (spend_penalty (to_outpoint out) (to_sat out) secret (self_revocation_key ks) wscript) OUR_PENALTY_TX.

Definition cheat_to_local (op : outpoint) (tx_blockheight : Z) (amt : amount_sat_t) (csv : Z) : daemon unit :=
  i ← new_tracked_output op tx_blockheight THEIR_REVOKED_UNILATERAL amt DELAYED_CHEAT_OUTPUT_TO_THEM None None None;
  steal_to_them_output i csv.
(** An output with no script of theirs: a lease's delay is tried, which leaves
    the last one tried as the script looked for. *)
Definition cheat_unmatched (tx : tx_parts) (o : tx_output) (op : outpoint) (tx_blockheight : Z) (amt : amount_sat_t) (ks : keyset)
    (opener : side) (script : sides (option (list Z))) : daemon (sides (option (list Z))) :=
  let unknown := record_external_output op amt tx_blockheight [MVT_PENALTY] in
  match opener, script.[LOCAL], script.[REMOTE] with
  | REMOTE, Some _, _ =>
    let make := scriptpubkey_to_remote (other_payment_key ks) in
    csv ← sure (grind_lease make o);
    match csv with
    | Some csv =>
      spk ← sure (make csv);
      _ ← their_unilateral_local tx op tx_blockheight amt spk THEIR_REVOKED_UNILATERAL csv;
      mret (upd LOCAL None script)
    | None => last ← sure (make LEASE_RATE_DURATION); _ ← unknown; mret (upd LOCAL (Some last) script)
    end
  | LOCAL, _, Some _ =>
    let make := to_local_script ks REMOTE in
    csv ← sure (grind_lease make o);
    match csv with
    | Some csv => _ ← cheat_to_local op tx_blockheight amt csv; mret (upd REMOTE None script)
    | None => last ← sure (make LEASE_RATE_DURATION); _ ← unknown; mret (upd REMOTE (Some last) script)
    end
  | _, _, _ => _ ← unknown; mret script
  end.
(** Which of them it is makes no difference. *)
Definition cheat_htlc (op : outpoint) (tx_blockheight : Z) (amt : amount_sat_t) (info : htlcs_info) (scripts : list (option (list Z)))
    (matches : list nat) : daemon nat :=
  which ← deref (head matches);
  dir ← matches_direction matches info;
  h ← htlc_at info which;
  script ← script_at scripts which;
  i ← new_tracked_output op tx_blockheight THEIR_REVOKED_UNILATERAL amt (match dir with LOCAL => OUR_HTLC | REMOTE => THEIR_HTLC end)
        (Some h) (Some script) None;
  _ ← steal_htlc i;
  mret which.
Fixpoint their_cheat_outputs (tx : tx_parts) (tx_blockheight : Z) (ks : keyset) (opener : side) (info : htlcs_info) (n : nat)
    (outputs : list (option tx_output)) (script anchor : sides (option (list Z))) (scripts : list (option (list Z)))
  : daemon (list (option (list Z))) :=
  match outputs with
  | [] => mret scripts
  | o :: outputs =>
    o ← deref o;
    let op := mk_outpoint (tp_txid tx) (Z.of_nat n) in
    amt ← amount_at tx n;
    let next := their_cheat_outputs tx tx_blockheight ks opener info (S n) outputs in
    if is_elements params && (length (out_script o) =? 0)%nat then
      _ ← track_ignored op tx_blockheight THEIR_REVOKED_UNILATERAL amt ELEMENTS_FEE; next script anchor scripts
    else if is_script script.[LOCAL] o then
      spk ← deref script.[LOCAL];
      _ ← their_unilateral_local tx op tx_blockheight amt spk THEIR_REVOKED_UNILATERAL 1;
      next (upd LOCAL None script) anchor scripts
    else if is_script script.[REMOTE] o then
      _ ← cheat_to_local op tx_blockheight amt 1; next (upd REMOTE None script) anchor scripts
    else if is_script anchor.[LOCAL] o then
      out ← track_ignored op tx_blockheight THEIR_REVOKED_UNILATERAL amt ANCHOR_TO_US;
      _ ← record_our_anchor out;
      next script (upd LOCAL None anchor) scripts
    else if is_script anchor.[REMOTE] o then
      out ← track_ignored op tx_blockheight THEIR_REVOKED_UNILATERAL amt ANCHOR_TO_THEM;
      _ ← record_external_deposit out tx_blockheight [MVT_ANCHOR];
      next script (upd REMOTE None anchor) scripts
    else
      match match_htlc_output o scripts with
      | [] => script ← cheat_unmatched tx o op tx_blockheight amt ks opener script; next script anchor scripts
      | matches =>
        which ← cheat_htlc op tx_blockheight amt info scripts matches;
        next script anchor (<[which := None]> scripts)
      end
  end.
Definition their_cheat_found (tx : tx_parts) (tx_blockheight : Z) (revocation_preimage : list Z) (bases : sides basepoints)
    (opener : side) : daemon unit :=
  info ← init_reply;
  _ ← onchain_annotate_txin (tp_txid tx) 0 (Z.lor (Z.lor TX_CHANNEL_UNILATERAL TX_CHANNEL_CHEAT) TX_THEIRS);
  _ ← resolved_by_other 0 (tp_txid tx) THEIR_REVOKED_UNILATERAL;
  point ← deref (ec_pubkey_create revocation_preimage);
  _ ← set_point point (Some revocation_preimage);
  n ← commit_num;
  ks ← deref (derive_keyset sha256 point bases.[REMOTE] bases.[LOCAL] (static_remotekey_start.[REMOTE] <=? n));
  _ ← set_keyset ks;
  them ← sure (to_local_script ks REMOTE 1);
  us ← sure (scriptpubkey_to_remote (other_payment_key ks) 1);
  scripts ← derive_htlc_scripts ks REMOTE info;
  anchor ← sure get_anchor_scriptpubkeys;
  scripts ← their_cheat_outputs tx tx_blockheight ks opener info 0 (tp_outputs tx) (mk_sides (Some us) (Some them)) anchor scripts;
  note_missing_htlcs scripts info.
Definition handle_their_cheat (tx : tx_parts) (tx_blockheight : Z) (revocation_preimage : list Z) (bases : sides basepoints)
    (opener : side) : daemon unit :=
  _ ← their_cheat_found tx tx_blockheight revocation_preimage bases opener;
  wait_for_resolved.

(** ** Their commitment *)

Definition their_to_local (op : outpoint) (tx_blockheight : Z) (amt : amount_sat_t) : daemon unit :=
  out ← track_ignored op tx_blockheight THEIR_UNILATERAL amt DELAYED_OUTPUT_TO_THEM;
  record_external_deposit out tx_blockheight [MVT_TO_THEM].
(** Their to_local stays the script looked for, at the delay that was found. *)
Definition their_unmatched (tx : tx_parts) (o : tx_output) (op : outpoint) (tx_blockheight : Z) (amt : amount_sat_t) (ks : keyset)
    (opener : side) (script : sides (option (list Z))) : daemon (sides (option (list Z))) :=
  match opener, script.[LOCAL], script.[REMOTE] with
  | REMOTE, Some _, _ =>
    let make := scriptpubkey_to_remote (other_payment_key ks) in
    csv ← sure (grind_lease make o);
    csv ← deref csv;
    spk ← sure (make csv);
    _ ← their_unilateral_local tx op tx_blockheight amt spk THEIR_UNILATERAL csv;
    mret (upd LOCAL None script)
  | LOCAL, _, Some _ =>
    csv ← sure (grind_lease (to_local_script ks REMOTE) o);
    csv ← deref csv;
    _ ← their_to_local op tx_blockheight amt;
    found ← sure (to_local_script ks REMOTE csv);
    mret (upd REMOTE (Some found) script)
  | _, _, _ => exits
  end.
Definition their_htlc (op : outpoint) (tx_blockheight : Z) (amt : amount_sat_t) (info : htlcs_info) (scripts : list (option (list Z)))
    (matches : list nat) : daemon nat :=
  dir ← matches_direction matches info;
  i ← new_tracked_output op tx_blockheight THEIR_UNILATERAL amt (match dir with LOCAL => OUR_HTLC | REMOTE => THEIR_HTLC end) None None
        None;
  which ← (match dir with
           | LOCAL => resolve_our_htlc_theircommit i matches info scripts
           | REMOTE => resolve_their_htlc i matches info
           end);
  h ← htlc_at info which;
  script ← script_at scripts which;
  _ ← upd_out i (set_htlc h (Some script));
  mret which.
Fixpoint their_unilateral_outputs (tx : tx_parts) (tx_blockheight : Z) (ks : keyset) (opener : side) (info : htlcs_info) (n : nat)
    (outputs : list (option tx_output)) (script anchor : sides (option (list Z))) (scripts : list (option (list Z)))
  : daemon (list (option (list Z))) :=
  match outputs with
  | [] => mret scripts
  | o :: outputs =>
    o ← deref o;
    let op := mk_outpoint (tp_txid tx) (Z.of_nat n) in
    amt ← amount_at tx n;
    let next := their_unilateral_outputs tx tx_blockheight ks opener info (S n) outputs in
    if is_elements params && (length (out_script o) =? 0)%nat then
      _ ← track_ignored op tx_blockheight THEIR_UNILATERAL amt ELEMENTS_FEE; next script anchor scripts
    else if is_script script.[LOCAL] o then
      spk ← deref script.[LOCAL];
      _ ← their_unilateral_local tx op tx_blockheight amt spk THEIR_UNILATERAL 1;
      next (upd LOCAL None script) anchor scripts
    else if is_script script.[REMOTE] o then
      _ ← their_to_local op tx_blockheight amt; next script anchor scripts
    else if is_script anchor.[LOCAL] o then
      out ← track_ignored op tx_blockheight THEIR_UNILATERAL amt ANCHOR_TO_US;
      _ ← record_our_anchor out;
      next script (upd LOCAL None anchor) scripts
    else if is_script anchor.[REMOTE] o then
      out ← track_ignored op tx_blockheight THEIR_UNILATERAL amt ANCHOR_TO_THEM;
      _ ← record_external_deposit out tx_blockheight [MVT_ANCHOR];
      next script (upd REMOTE None anchor) scripts
    else
      match match_htlc_output o scripts with
      | [] => script ← their_unmatched tx o op tx_blockheight amt ks opener script; next script anchor scripts
      | matches =>
        which ← their_htlc op tx_blockheight amt info scripts matches;
        next script anchor (<[which := None]> scripts)
      end
  end.
Definition handle_their_unilateral (tx : tx_parts) (tx_blockheight : Z) (this_remote_per_commitment_point : list Z)
    (bases : sides basepoints) (opener : side) : daemon unit :=
  info ← init_reply;
  _ ← onchain_annotate_txin (tp_txid tx) 0 (Z.lor TX_CHANNEL_UNILATERAL TX_THEIRS);
  _ ← set_point this_remote_per_commitment_point None;
  _ ← resolved_by_other 0 (tp_txid tx) THEIR_UNILATERAL;
  n ← commit_num;
  ks ← deref (derive_keyset sha256 this_remote_per_commitment_point bases.[REMOTE] bases.[LOCAL] (static_remotekey_start.[REMOTE] <=? n));
  _ ← set_keyset ks;
  scripts ← derive_htlc_scripts ks REMOTE info;
  anchor ← sure get_anchor_scriptpubkeys;
  them ← sure (to_local_script ks REMOTE 1);
  us ← sure (scriptpubkey_to_remote (other_payment_key ks) 1);
  scripts ← their_unilateral_outputs tx tx_blockheight ks opener info 0 (tp_outputs tx) (mk_sides (Some us) (Some them)) anchor scripts;
  _ ← note_missing_htlcs scripts info;
  wait_for_resolved.

(** ** A commitment we do not know *)

Fixpoint find_output (n : nat) (script : list Z) (outputs : list (option tx_output)) : outcome (option nat) :=
  match outputs with
  | [] => Ret None
  | None :: _ => Crash
  | Some o :: outputs => if wally_tx_output_scripteq o script then Ret (Some n) else find_output (S n) script outputs
  end.
(** The first delay from [csv], of [k], at which an output pays us. *)
Fixpoint find_ours (k : nat) (csv : Z) (key : list Z) (outputs : list (option tx_output)) : outcome (option (Z * nat * list Z)) :=
  match k with
  | O => Ret None
  | S k =>
    script ← scriptpubkey_to_remote key csv;
    found ← find_output 0 script outputs;
    match found with
    | Some n => Ret (Some (csv, n, script))
    | None => find_ours k (csv + 1) key outputs
    end
  end.
Definition record_unidentified (tx : tx_parts) (tx_blockheight : Z) (ours : option nat) (n : nat) : daemon unit :=
  if bool_decide (ours = Some n) then mret tt
  else
    amt ← amount_at tx n;
    record_external_output (mk_outpoint (tp_txid tx) (Z.of_nat n)) amt tx_blockheight [MVT_PENALTY].
Definition handle_unknown_commitment (tx : tx_parts) (tx_blockheight : Z) (bases : sides basepoints) : daemon unit :=
  _ ← onchain_annotate_txin (tp_txid tx) 0 (Z.lor TX_CHANNEL_UNILATERAL TX_THEIRS);
  _ ← resolved_by_other 0 (tp_txid tx) UNKNOWN_UNILATERAL;
  found ← sure (find_ours (Z.to_nat LEASE_RATE_DURATION) 1 (bp_payment bases.[LOCAL]) (tp_outputs tx));
  _ ← (match found with
       | Some (csv, n, script) =>
         amt ← amount_at tx n;
         let op := mk_outpoint (tp_txid tx) (Z.of_nat n) in
         _ ← track_ignored op tx_blockheight UNKNOWN_UNILATERAL amt OUTPUT_TO_US;
         tell_wallet_to_remote tx op tx_blockheight script None true csv
       | None => mret tt
       end);
  _ ← for_each (record_unidentified tx tx_blockheight (match found with Some (_, n, _) => Some n | None => None end))
        (seq 0 (length (tp_outputs tx)));
  info ← init_reply;
  _ ← for_each (fun h => when (tell_if_missing h) (send (onchaind_missing_htlc_output (hw_htlc h)))) info;
  wait_for_resolved.
End Closes.
