(* ===== verification/OnchainMain.v ===== *)
(** * onchaind's [main] (onchaind/onchaind.c)

    The closes of taproot-covenant and symmetric channels, and which close
    the transaction that spent the funding output is. *)

From stdpp Require Import list.
From S2P Require Import Prelude Chainparams Amount Wire HtlcState CommitFee Script Shachain Keys Tapscript ChannelState Channel Tx SymScripts TcovScripts SymState Signature CommitTx CommitValue OnchainState OnchainTcov OnchainSym Onchaind OnchainClose.
Local Open Scope Z_scope.

Section Closes.
Context `{!Secp256k1, !Taproot, !Ecdsa, !onchain_world, !onchain_env}.
Local Notation params := w_params.
Local Notation sha256 := w_sha256.
Local Notation ripemd160 := w_ripemd160.

(** ** A taproot-covenant commitment *)

Definition track_tree (op : outpoint) (tx_blockheight : Z) (type : tx_type) (amt : amount_sat_t) (otype : output_type)
    (htlc : option htlc_stub) (tree : tap_tree2) : daemon nat :=
  i ← new_tracked_output op tx_blockheight type amt otype htlc None None;
  _ ← upd_out i (set_tcov_tree tree);
  mret i.
Definition tcov_cheat_output (op : outpoint) (tx_blockheight : Z) (type : tx_type) (amt : amount_sat_t) (tree : tap_tree2) : daemon unit :=
  i ← track_tree op tx_blockheight type amt DELAYED_CHEAT_OUTPUT_TO_THEM None tree;
  tcov_penalty i tx_blockheight.
Definition tcov_to_local_found (op : outpoint) (tx_blockheight : Z) (type : tx_type) (amt : amount_sat_t) (holder : side) (revoked : bool)
    (to_local : tap_tree2) : daemon unit :=
  match holder with
  | LOCAL => i ← track_tree op tx_blockheight type amt DELAYED_OUTPUT_TO_US None to_local; tcov_sweep_delayed i
  | REMOTE =>
    if revoked then tcov_cheat_output op tx_blockheight type amt to_local
    else
      out ← track_ignored op tx_blockheight type amt DELAYED_OUTPUT_TO_THEM;
      record_external_deposit out tx_blockheight [MVT_TO_THEM]
  end.
(** The first HTLC, not found yet, whose output this is. *)
Fixpoint tcov_find_htlc (o : tx_output) (amt : amount_sat_t) (holder_point : list Z) (holder : side) (h : nat)
    (unmatched : list (option unit)) (info : htlcs_info) : daemon (nat * htlc_stub * tap_tree2) :=
  match unmatched, info with
  | None :: unmatched, _ :: info => tcov_find_htlc o amt holder_point holder (S h) unmatched info
  | Some _ :: unmatched, hw :: info =>
    '(found, tree) ← tcov_match_htlc o amt (hw_htlc hw) holder_point holder;
    if (found : bool) then mret (h, hw_htlc hw, tree) else tcov_find_htlc o amt holder_point holder (S h) unmatched info
  | _, _ => exits
  end.
(** Ours by the key path if revoked; our timeout, by covenant or directly; or
    theirs, until we hold the preimage. *)
Definition tcov_htlc_found (op : outpoint) (tx_blockheight : Z) (type : tx_type) (amt : amount_sat_t) (holder : side) (revoked : bool)
    (to_local tree : tap_tree2) (h : htlc_stub) : daemon unit :=
  i ← track_tree op tx_blockheight type amt (match stub_owner h with LOCAL => OUR_HTLC | REMOTE => THEIR_HTLC end) (Some h) tree;
  let cltv := stub_cltv_expiry h in
  if revoked then tcov_penalty i tx_blockheight
  else match holder, stub_owner h with
       | LOCAL, LOCAL =>
         tcov_propose i TCOV_SIGN_LOCAL_HTLC (Some TCOV_LEAF_OFFERED_TIMEOUT) None (Some to_local) cltv 0xFFFFFFFE (wrap_u32 (cltv + 1))
           TCOV_DEADLINE_HTLC_OUT OUR_HTLC_TIMEOUT_TX
       | REMOTE, LOCAL =>
         tcov_propose i TCOV_SIGN_REMOTE_HTLC (Some TCOV_LEAF_RECEIVED_TIMEOUT) None None cltv 0xFFFFFFFE (wrap_u32 (cltv + 1))
           TCOV_DEADLINE_HTLC_OUT OUR_HTLC_TIMEOUT_TO_US
       | _, REMOTE => propose_ignore i cltv THEIR_HTLC_TIMEOUT_TO_THEM
       end.
Fixpoint tcov_outputs (tx : tx_parts) (tx_blockheight : Z) (type : tx_type) (holder : side) (revoked : bool) (holder_point : list Z)
    (ks : keyset) (to_local : tap_tree2) (info : htlcs_info) (n : nat) (outputs : list (option tx_output)) (unmatched : list (option unit))
  : daemon (list (option unit)) :=
  match outputs with
  | [] => mret unmatched
  | o :: outputs =>
    o ← deref o;
    let op := mk_outpoint (tp_txid tx) (Z.of_nat n) in
    amt ← amount_at tx n;
    let next := tcov_outputs tx tx_blockheight type holder revoked holder_point ks to_local info (S n) outputs in
    let to_remote_spk := scriptpubkey_p2wpkh sha256 ripemd160 (other_payment_key ks) in
    if (length (out_script o) =? 0)%nat then _ ← track_ignored op tx_blockheight type amt ELEMENTS_FEE; next unmatched
    else
      credit ← (if option_seq_credit then
                  '(is_, tree) ← credit_match o amt holder_point holder;
                  mret (if (is_ : bool) then Some tree else None)
                else mret None);
      match credit with
      | Some tree =>
        _ ← (if revoked && bool_decide (holder = credit_provider) then tcov_cheat_output op tx_blockheight type amt tree
             else credit_track op tx_blockheight type amt amt tree);
        next unmatched
      | None =>
        if wally_tx_output_scripteq o (tap_tree2_scriptpubkey to_local) then
          _ ← tcov_to_local_found op tx_blockheight type amt holder revoked to_local; next unmatched
        else if wally_tx_output_scripteq o to_remote_spk then
          _ ← (match holder with
               | LOCAL =>
                 out ← track_ignored op tx_blockheight type amt OUTPUT_TO_THEM;
                 record_external_deposit out tx_blockheight [MVT_TO_THEM]
               | REMOTE => their_unilateral_local tx op tx_blockheight amt to_remote_spk type 1
               end);
          next unmatched
        else
          '(h, htlc, tree) ← tcov_find_htlc o amt holder_point holder 0 unmatched info;
          _ ← tcov_htlc_found op tx_blockheight type amt holder revoked to_local tree htlc;
          next (<[h := None]> unmatched)
      end
  end.
Definition tcov_found (tx : tx_parts) (tx_blockheight : Z) (holder : side) (revoked : bool) (bases : sides basepoints)
  : daemon unit :=
  info ← init_reply;
  let type := match holder with
              | LOCAL => OUR_UNILATERAL
              | REMOTE => if revoked then THEIR_REVOKED_UNILATERAL else THEIR_UNILATERAL
              end in
  _ ← onchain_annotate_txin (tp_txid tx) 0
        (match holder with
         | LOCAL => TX_CHANNEL_UNILATERAL
         | REMOTE => Z.lor (Z.lor TX_CHANNEL_UNILATERAL TX_THEIRS) (if revoked then TX_CHANNEL_CHEAT else 0)
         end);
  _ ← resolved_by_other 0 (tp_txid tx) type;
  point ← (match holder with
           | LOCAL => hsm_get_per_commitment_point
           | REMOTE => p ← get (fun d => cv_point (the_view d)); deref p
           end);
  ks ← deref (derive_keyset sha256 point bases.[holder] bases.[other holder] true);
  _ ← set_keyset ks;
  to_local ← tcov_holder_to_local point holder;
  unmatched ← tcov_outputs tx tx_blockheight type holder revoked point ks to_local info 0 (tp_outputs tx)
                (replicate (length info) (Some tt));
  note_missing_htlcs unmatched info.
Definition handle_unilateral_tcov (tx : tx_parts) (tx_blockheight : Z) (holder : side) (revoked : bool) (bases : sides basepoints)
  : daemon unit :=
  _ ← tcov_found tx tx_blockheight holder revoked bases;
  wait_for_resolved.

(** ** A symmetric channel *)

Definition spends_at (o : outpoint) (inputs : list (option part_input)) : list nat :=
  fst <$> filter (fun p => wally_tx_input_spends p.2 o = true) (imap pair inputs).

(** A factory channel's KO, spent by an update. *)
Definition factory_update (tx : tx_parts) (tx_blockheight : Z) : daemon unit :=
  i ← deref (head (spends_at sym_anchor (tp_inputs tx)));
  input ← deref (tp_inputs tx !! i);
  input ← deref input;
  match sym_parse_update_witness (default [] (pi_witness input)), tp_outputs tx !! i with
  | Some (num, rest), Some (Some o) =>
    asset ← sure (wally_tx_output_get_amount params o);
    sym_track_state (mk_outpoint (tp_txid tx) (Z.of_nat i)) tx_blockheight (mk_sat (asset_value asset)) num rest SYM_UPDATE 0
  | _, _ => mret tt
  end.
(** Another lane: kicked off by this transaction, or its funding output is
    tracked until its own kickoff comes. *)
Definition lane_kickoff (tx : tx_parts) (tx_blockheight : Z) (l : nat) : daemon unit :=
  lane ← deref (oc_lanes !! (l - 1)%nat);
  match head (fst <$> filter (fun p => sym_lane_of_input p.2 = Some l) (imap pair (tp_inputs tx))) with
  | Some i =>
    match tp_outputs tx !! i with
    | Some (Some o) =>
      asset ← sure (wally_tx_output_get_amount params o);
      sym_track_state (mk_outpoint (tp_txid tx) (Z.of_nat i)) tx_blockheight (mk_sat (asset_value asset)) (-1) (repeat 0 32) SYM_UPDATE l
    | _ => mret tt
    end
  | None =>
    i ← new_tracked_output (lane_outpoint lane) 0 FUNDING_TRANSACTION (lane_funding_sats lane) FUNDING_OUTPUT None None None;
    upd_out i (set_lane_funding l)
  end.
(** KO is at the index of the last input that spends the funding output; the
    clock is the output after it. *)
Definition kickoff (tx : tx_parts) (tx_blockheight : Z) : daemon unit :=
  let n := default O (last (spends_at sym_funding (tp_inputs tx))) in
  ko ← output_of tx n;
  asset ← sure (wally_tx_output_get_amount params ko);
  _ ← when (has_clock sym_sc)
        (_ ← output_of tx (n + 1)%nat;
         put (fun d => set_sym_prog (mk_sym_progress (Some (mk_outpoint (tp_txid tx) (Z.of_nat (n + 1)))) tx_blockheight
                                       (settled (sym_prog d)) (sym_htlcs (sym_prog d))) d));
  _ ← sym_track_state (mk_outpoint (tp_txid tx) (Z.of_nat n)) tx_blockheight (mk_sat (asset_value asset)) (-1) (repeat 0 32) SYM_UPDATE 0;
  for_each (lane_kickoff tx tx_blockheight) (seq 1 (length oc_lanes)).
Definition handle_symmetric_close (tx : tx_parts) (tx_blockheight : Z) : daemon unit :=
  info ← init_reply;
  _ ← put (fun d => set_sym_prog (mk_sym_progress (clock_out (sym_prog d)) (clock_height (sym_prog d)) (settled (sym_prog d)) (Some info)) d);
  _ ← onchain_annotate_txin (tp_txid tx) 0 TX_CHANNEL_UNILATERAL;
  _ ← resolved_by_other 0 (tp_txid tx) SYM_UPDATE;
  _ ← (if sym_is_factory then factory_update tx tx_blockheight else kickoff tx tx_blockheight);
  wait_for_resolved.
End Closes.

(** ** [main] *)

(** [onchaind_init], and for a symmetric channel [onchaind_sym_init] and
    [onchaind_sym_anchor]. *)
Record init_msg `{Ecdsa} := mk_init_msg {
  i_shachain : shachain;
  i_funding_sats : amount_sat_t;
  i_channel_asset : list Z;
  i_our_msat : amount_msat_t;
  i_old_remote_per_commit_point : list Z;
  i_remote_per_commit_point : list Z;
  i_delays : sides Z;
  i_our_broadcast_txid : list Z;
  i_scriptpubkey : sides (list Z);
  i_opener : side;
  i_basepoints : sides basepoints;
  i_tx : tx_parts;
  i_locktime : Z;
  i_tx_blockheight : Z;
  i_reasonable_depth : Z;
  i_remote_htlc_sigs : list bitcoin_signature;
  i_min_possible_feerate : Z;
  i_max_possible_feerate : Z;
  i_funding_pubkey : sides (list Z);
  i_static_remotekey_start : sides Z;
  i_option_anchor_outputs : bool;
  i_option_anchors_zero_fee_htlc_tx : bool;
  i_option_seq_taproot_covenant : bool;
  i_option_seq_credit : bool;
  i_option_seq_symmetric : bool;
}.
Record sym_init_msg := mk_sym_init_msg {
  s_funding : outpoint;
  s_delay : Z;
  s_local : option sym_state;
  s_remote : option sym_state;
  s_remote_pending : option sym_state;
  s_anchor : outpoint;
  s_factory : bool;
  s_lanes : list sym_lane;
  s_clock_issuer : option outpoint;
}.

Definition SHACHAIN_BITS := 48%nat.

(** bitcoin/tx.c *)
Definition bitcoin_tx_output_weight (p : chainparams) (outscript_len : nat) : Z :=
  (8 + Z.of_nat (varint_size (Z.of_nat outscript_len)) + Z.of_nat outscript_len) * 4 + (if is_elements p then (32 + 1 + 1 + 1) * 4 else 0).
Definition bitcoin_tx_core_weight (p : chainparams) (num_inputs num_outputs : nat) : Z :=
  (4 + Z.of_nat (varint_size (Z.of_nat num_inputs)) + Z.of_nat (varint_size (Z.of_nat num_outputs)) + 4) * 4 + 2
  + (if is_elements p then 2 * 4 + bitcoin_tx_output_weight p 0 else 0).
Definition bitcoin_tx_input_sig_weight : Z := 1 + 71.
Definition bitcoin_tx_input_weight (p : chainparams) (p2sh : bool) (witness_weight : Z) : Z :=
  1 + witness_weight + (32 + 4 + 4) * 4 + 4 + (if p2sh then 23 * 4 else 0) + (if is_elements p then 6 else 0).

Section Main.
Context `{!Secp256k1, !Taproot, !Issuance, !Ecdsa, !onchain_world}.
Local Notation params := w_params.
Local Notation sha256 := w_sha256.
Local Notation ripemd160 := w_ripemd160.

Fixpoint fee_and_weight (fee : amount_sat_t) (weight : Z) (outputs : list (option tx_output)) : outcome (amount_sat_t * Z) :=
  match outputs with
  | [] => Ret (fee, weight)
  | None :: _ => Crash
  | Some o :: outputs =>
    amt ← wally_tx_output_get_amount params o;
    let weight := weight + bitcoin_tx_output_weight params (length (out_script o)) in
    main ← amount_asset_is_main params amt;
    if (main : bool) then
      match amount_sat_sub fee (mk_sat (asset_value amt)) with
      | Some fee => fee_and_weight fee weight outputs
      | None => Crash
      end
    else fee_and_weight fee weight outputs
  end.
(** [n] feerates down from [feerate]; a feerate of 0 asks for no fee. *)
Fixpoint trim_from (n : nat) (feerate weight : Z) (fee : amount_sat_t) : outcome Z :=
  asked ← amount_tx_fee (Some params) feerate weight;
  if amount_sat_greater asked fee then match n with O => Crash | S n => trim_from n (feerate - 1) weight fee end
  else Ret feerate.
Definition trim_maximum_feerate (funding : amount_sat_t) (commitment : tx_parts) (max_feerate : Z) : outcome Z :=
  if is_elements params then Ret max_feerate
  else
    let weight := bitcoin_tx_core_weight params (length (tp_inputs commitment)) (length (tp_outputs commitment)) in
    assert_then (length (tp_inputs commitment) =? 1)%nat
      ('(fee, weight) ← fee_and_weight funding (weight + bitcoin_tx_input_weight params false (1 + 2 * bitcoin_tx_input_sig_weight))
                          (tp_outputs commitment);
       trim_from (Z.to_nat max_feerate) max_feerate weight fee).

(** The newer of the states we hold whole. *)
Definition best_state (l r : option sym_state) : option sym_state :=
  let whole st := match st with Some s => (has_sig s).[LOCAL] && (has_sig s).[REMOTE] | None => false end in
  let best := if whole l then l else None in
  if whole r && match best, r with Some b, Some r => st_num b <? st_num r | _, _ => true end then r else best.

Definition funding_of (m : init_msg) (s : option sym_init_msg) : outcome outpoint :=
  match s with
  | Some s => Ret (s_anchor s)
  | None => match tp_inputs (i_tx m) with Some i :: _ => Ret (pi_outpoint i) | _ => Crash end
  end.

Definition sym_channel_told (m : init_msg) (s : sym_init_msg) : outcome sym_channel :=
  let b := i_basepoints m in
  sc ← sym_channel_init params sha256 (genesis_blockhash params) (s_funding s) (bp_delayed_payment b.[i_opener m])
         (bp_delayed_payment b.[other (i_opener m)]) (Some (i_channel_asset m)) (s_delay s);
  match s_clock_issuer s with
  | None => Ret sc
  | Some issuer =>
    marker ← sym_marker_id issuer;
    Ret (sym_channel_set_clock sha256 sc marker
           (bitcoin_redeem_2of2 (i_funding_pubkey m).[LOCAL] (i_funding_pubkey m).[REMOTE]) (i_funding_sats m))
  end.

(** Statics of a channel that is not symmetric are zeroed. *)
Definition no_outpoint : outpoint := mk_outpoint (repeat 0 32) 0.
Definition no_basepoints : basepoints := mk_basepoints (repeat 0 64) (repeat 0 64) (repeat 0 64) (repeat 0 64).
Definition env_of (m : init_msg) (s : option sym_init_msg) (max_feerate : Z) : outcome onchain_env :=
  funding ← funding_of m s;
  credit ← (if i_option_seq_credit m then
              match credit_params_init sha256 ripemd160 (derive_channel_id funding) (i_funding_pubkey m).[i_opener m]
                      (bp_payment (i_basepoints m).[other (i_opener m)]) with
              | Some cp => Ret (Some cp)
              | None => Crash
              end
            else Ret None);
  let build sc l r rp best b f a fac lanes :=
    mk_onchain_env (i_min_possible_feerate m) max_feerate (i_delays m) (i_reasonable_depth m) (i_funding_pubkey m)
      (i_static_remotekey_start m) (i_option_anchor_outputs m) (i_option_anchors_zero_fee_htlc_tx m) (i_option_seq_taproot_covenant m)
      (i_option_seq_credit m) (i_option_seq_symmetric m) (i_channel_asset m) (i_opener m) credit sc l r rp best (i_opener m) b f a fac
      lanes in
  match s with
  | None =>
    Ret (build (mk_sym_channel (repeat 0 32) (repeat 0 64) (repeat 0 64) (repeat 0 33) 0 None) None None None None
           (mk_sides no_basepoints no_basepoints) no_outpoint no_outpoint false [])
  | Some s =>
    sc ← sym_channel_told m s;
    Ret (build sc (s_local s) (s_remote s) (s_remote_pending s) (best_state (s_local s) (s_remote s)) (i_basepoints m) (s_funding s)
           (s_anchor s) (s_factory s) (s_lanes s))
  end.

Definition is_local_commitment (txid our_broadcast_txid : list Z) : bool := bool_decide (txid = our_broadcast_txid).

(** Which commitment it is, once it is none of the agreed closes. *)
Definition handle_unilateral {E : onchain_env} (m : init_msg) : daemon unit :=
  let tx := i_tx m in
  let h := i_tx_blockheight m in
  let b := i_basepoints m in
  input ← deref (head (tp_inputs tx));
  input ← deref input;
  let n := unmask_commit_number sha256 (pi_sequence input) (i_locktime m) (i_opener m) (sides_map bp_payment b) in
  _ ← set_commit_num n;
  let ours := is_local_commitment (tp_txid tx) (i_our_broadcast_txid m) in
  let received := revocations_received SHACHAIN_BITS (i_shachain m) in
  secret ← sure (shachain_get_secret sha256 SHACHAIN_BITS (i_shachain m) n);
  let old := n =? received in
  let new := n =? wrap_u64 (received + 1) in
  let point := if old then i_old_remote_per_commit_point m else i_remote_per_commit_point m in
  if option_seq_taproot_covenant && ours then handle_unilateral_tcov tx h LOCAL false b
  else if option_seq_taproot_covenant && match secret with Some _ => true | None => false end then
    secret ← deref secret;
    p ← deref (ec_pubkey_create secret);
    _ ← set_point p (Some secret);
    handle_unilateral_tcov tx h REMOTE true b
  else if option_seq_taproot_covenant && (old || new) then
    _ ← set_point point None;
    handle_unilateral_tcov tx h REMOTE false b
  else if ours then handle_our_unilateral tx h b (i_opener m) (i_remote_htlc_sigs m)
  else match secret with
       | Some secret => handle_their_cheat tx h secret b (i_opener m)
       | None => if old || new then handle_their_unilateral tx h point b (i_opener m) else handle_unknown_commitment tx h b
       end.

Definition handle_close {E : onchain_env} (m : init_msg) (funding : outpoint) : daemon unit :=
  let tx := i_tx m in
  let h := i_tx_blockheight m in
  _ ← new_tracked_output funding 0 FUNDING_TRANSACTION (i_funding_sats m) FUNDING_OUTPUT None None None;
  let count := Z.of_nat (length (tp_outputs tx)) in
  _ ← send_coin_mvt (mvt_channel_close (tp_txid tx) funding h (i_our_msat m) (i_funding_sats m)
                       (if is_elements params then count - 1 else count));
  mutual ← sure (is_mutual_close (tp_outputs tx) (i_scriptpubkey m));
  if (mutual : bool) then
    _ ← record_mutual_close (tp_txid tx) 0 (tp_outputs tx) (i_scriptpubkey m).[REMOTE] h;
    handle_mutual_close tx
  else if option_seq_symmetric then handle_symmetric_close tx h
  else handle_unilateral m.

(** From the messages that are there once the first ones were read. *)
Definition start (queue : list from_master) : onchaind :=
  mk_onchaind [] (Some []) [] queue [] (mk_commit_view None None None 0) (mk_fee_caches UNSET_FEE UNSET_FEE) None
    (mk_sym_progress None 0 [] None).
Definition main (m : init_msg) (s : option sym_init_msg) (queue : list from_master) : result unit :=
  match funding ← funding_of m s;
        max_feerate ← trim_maximum_feerate (i_funding_sats m) (i_tx m) (i_max_possible_feerate m);
        e ← env_of m s max_feerate;
        Ret (funding, e)
  with
  | Ret (funding, e) => handle_close (E := e) m funding (start queue)
  | Crash => Exited
  end.
End Main.
