(* ===== verification/OnchainFacts.v ===== *)
(** * Resolutions last

    Whatever lightningd reports, onchaind drops no output, forgets no
    resolution, and reads its messages once: the steps of the handlers are
    shown to keep this, each but for the output it is about, and the handlers
    are put together from them. *)

From stdpp Require Import list.
From S2P Require Import Prelude Chainparams Amount HtlcState CommitFee Script Keys Tapscript ChannelState Tx SymScripts TcovScripts SymState Signature CommitTx OnchainState OnchainTcov OnchainSym Onchaind.
Local Open Scope Z_scope.

Create HintDb onchain.

Section Evolve.
#[local] Set Default Proof Using "Type*".
Context {EC : Ecdsa}.
Implicit Types (d : onchaind) (o : tracked_output) (F : nat -> tx_type -> Prop).

(** What an output is does not change. *)
Definition same_output o o' : Prop :=
  to_tx_type o' = to_tx_type o /\ to_outpoint o' = to_outpoint o /\ to_tx_blockheight o' = to_tx_blockheight o /\ to_sat o' = to_sat o
  /\ to_output_type o' = to_output_type o.
(** Nor how it was resolved, but for the depth; [SELF] names no transaction. *)
Definition same_resolution (r r' : resolution) : Prop :=
  resolved_type r' = resolved_type r /\ (resolved_type r <> SELF -> resolved_txid r' = resolved_txid r).

(** From [d] to [d']; a resolution [F] allows to change may. *)
Record evolves F d d' : Prop := {
  ev_outs i o : outs d !! i = Some o -> exists o', outs d' !! i = Some o' /\ same_output o o'
    /\ forall r, to_resolved o = Some r -> ~ F i (resolved_type r) -> exists r', to_resolved o' = Some r' /\ same_resolution r r';
  ev_sent : exists l, sent d' = sent d ++ l /\ onchaind_all_irrevocably_resolved ∉ l;
  ev_messages : (messages d' <= messages d)%nat;
}.
(** Leave to ignore output [i], to resolve it, and to do so to a new one. *)
Definition may_ignore F (i : nat) : Prop := forall t, t <> SELF -> F i t.
Definition may_resolve F (i : nat) : Prop := forall t, F i t.
Definition and_new F (i : nat) : nat -> tx_type -> Prop := fun j t => F j t \/ j = i.
Definition stays {A} F (m : daemon A) : Prop := forall d a d', m d = Ok a d' -> evolves F d d'.

Lemma same_output_refl o : same_output o o.
Proof. done. Qed.
Lemma same_resolution_refl r : same_resolution r r.
Proof. done. Qed.

Lemma evolves_refl F d : evolves F d d.
Proof.
  constructor; [|by exists []; rewrite app_nil_r; split; [done|apply not_elem_of_nil]|done].
  intros i o Ho. exists o. split_and!; [done..|]. intros r Hr _. by exists r.
Qed.

Lemma evolves_trans F d1 d2 d3 : evolves F d1 d2 -> evolves F d2 d3 -> evolves F d1 d3.
Proof.
  intros [O1 (l1 & S1 & N1) M1] [O2 (l2 & S2 & N2) M2]. constructor; [|exists (l1 ++ l2); split; [by rewrite S2, S1, app_assoc|]|lia].
  - intros i o Ho. destruct (O1 i o Ho) as (o1 & Ho1 & (A1 & A2 & A3 & A4 & A5) & R1).
    destruct (O2 i o1 Ho1) as (o2 & Ho2 & (B1 & B2 & B3 & B4 & B5) & R2).
    exists o2. split_and!; [done|unfold same_output; split_and!; congruence|]. intros r Hr HF.
    destruct (R1 r Hr HF) as (r1 & Hr1 & T1 & X1). destruct (R2 r1 Hr1) as (r2 & Hr2 & T2 & X2); [by rewrite T1|].
    exists r2. split; [done|]. split; [congruence|]. intros Hs. rewrite X2 by congruence. by apply X1.
  - rewrite not_elem_of_app. done.
Qed.

Lemma evolves_weaken F F' d d' : (forall i t, F i t -> F' i t) -> evolves F d d' -> evolves F' d d'.
Proof.
  intros H [O S M]. constructor; [|done..]. intros i o Ho. destruct (O i o Ho) as (o' & Ho' & Hs & R).
  exists o'. split_and!; [done..|]. intros r Hr HF. apply R; [done|]. intros HF'. by apply HF, H.
Qed.

Lemma stays_bind {A B} F (m : daemon A) (k : A -> daemon B) : stays F m -> (forall a, stays F (k a)) -> stays F (m ≫= k).
Proof.
  intros Hm Hk d b d' E. unfold mbind, daemon_bind in E. destruct (m d) as [a d1|?|] eqn:E1; [|done..].
  eapply evolves_trans; [by eapply Hm|by eapply Hk].
Qed.
Lemma stays_ret {A} F (a : A) : stays F (mret a).
Proof. intros d b d' [= <- <-]. apply evolves_refl. Qed.
Lemma stays_get {A} F (f : onchaind -> A) : stays F (get f).
Proof. intros d b d' [= <- <-]. apply evolves_refl. Qed.
Lemma stays_exits {A} F : stays F (exits (A := A)).
Proof. done. Qed.
Lemma stays_sure {A} F (o : outcome A) : stays F (sure o).
Proof. destruct o; [apply stays_ret|done]. Qed.
Lemma stays_assert F b : stays F (assert_ b).
Proof. destruct b; [apply stays_ret|done]. Qed.
Lemma stays_deref {A} F (o : option A) : stays F (deref o).
Proof. destruct o; [apply stays_ret|done]. Qed.
Lemma stays_out_at F i : stays F (out_at i).
Proof. apply stays_bind; [apply stays_get|intros; apply stays_deref]. Qed.
Lemma stays_send F m : m <> onchaind_all_irrevocably_resolved -> stays F (send m).
Proof.
  intros Hm [] a d' [= <- <-]. constructor; cbn; [|exists [m]; split; [done|by rewrite list_elem_of_singleton]|done].
  intros i o Ho. exists o. split_and!; [done..|]. intros r Hr _. by exists r.
Qed.
Lemma stays_for_each {A} F (f : A -> daemon unit) l : (forall a, stays F (f a)) -> stays F (for_each f l).
Proof. intros H. induction l as [|a l IH]; cbn; [apply stays_ret|]. by apply stays_bind. Qed.
Lemma stays_when F b m : stays F m -> stays F (when b m).
Proof. destruct b; [done|]. intros _. apply stays_ret. Qed.

(** A step that only changes what is not watched. *)
Lemma stays_put F f : (forall d, outs (f d) = outs d /\ sent (f d) = sent d /\ messages (f d) = messages d) -> stays F (put f).
Proof.
  intros H d a d' [= <- <-]. destruct (H d) as (E1 & E2 & E3). constructor; [|exists []|by rewrite E3].
  - intros i o Ho. rewrite E1. exists o. split_and!; [done..|]. intros r Hr _. by exists r.
  - rewrite E2, app_nil_r. split; [done|apply not_elem_of_nil].
Qed.

Lemma stays_upd_out F i f :
  (forall o, same_output o (f o)) ->
  (forall o r, to_resolved o = Some r -> ~ F i (resolved_type r) -> exists r', to_resolved (f o) = Some r' /\ same_resolution r r') ->
  stays F (upd_out i f).
Proof.
  intros Hs Hr [os] a d' [= <- <-]. constructor; cbn; [|by exists []; rewrite app_nil_r; split; [done|apply not_elem_of_nil]|done].
  intros j o Ho. destruct (decide (i = j)) as [<-|Hj].
  - rewrite list_lookup_alter_eq, Ho. exists (f o). split_and!; [done..|]. by apply Hr.
  - rewrite list_lookup_alter_ne by done. exists o. split_and!; [done..|]. intros r Hr' _. by exists r.
Qed.
Lemma stays_upd_other F i f :
  (forall o, same_output o (f o)) -> (forall o, to_resolved (f o) = to_resolved o) -> stays F (upd_out i f).
Proof.
  intros Hs Hr. apply stays_upd_out; [done|]. intros o r E _. exists r. split; [by rewrite Hr|apply same_resolution_refl].
Qed.

Lemma stays_resolve_as F i tx type : may_resolve F i -> stays F (resolve_as i tx type).
Proof.
  intros HF. apply stays_upd_out; [by intros []|]. intros o r _ Hn. by destruct Hn.
Qed.
Lemma stays_ignore F i : may_ignore F i -> stays F (ignore_output i).
Proof.
  intros HF. apply stays_bind; [apply stays_out_at|]. intros o. apply stays_upd_out; [by intros []|].
  intros [] r _ Hn. eexists. split; [done|]. destruct (decide (resolved_type r = SELF)) as [E|E]; [split; [by symmetry|done]|].
  by destruct Hn; apply HF.
Qed.

Lemma queue_until_length {A} (want : from_master -> option A) q i a q' i' :
  queue_until want q i = Some (a, q', i') -> (length q' + length i' < length q + length i)%nat.
Proof.
  revert q. induction i as [|m i IH]; intros q E; cbn in E; [done|]. destruct (want m); [injection E as _ <- <-; cbn; lia|].
  apply IH in E. rewrite length_app in E. cbn in *. lia.
Qed.
Lemma stays_queue_until F {A} (want : from_master -> option A) : stays F (queue_until_msg want).
Proof.
  intros d a d' E. unfold queue_until_msg in E. destruct (queue_until _ _ _) as [[[b q] i]|] eqn:Eq; [|done].
  injection E as <- <-. apply queue_until_length in Eq. destruct d; cbn in *.
  constructor; cbn; [|by exists []; rewrite app_nil_r; split; [done|apply not_elem_of_nil]|unfold messages; cbn; lia].
  intros j o Ho. exists o. split_and!; [done..|]. intros r Hr _. by exists r.
Qed.

(** A new output is watched from here on: nothing was promised of it. *)
Lemma stays_new `{!onchain_world} {B} F op h type sat otype htlc w sig (k : nat -> daemon B) :
  (forall i, stays (and_new F i) (k i)) -> stays F (new_tracked_output op h type sat otype htlc w sig ≫= k).
Proof.
  intros Hk d b d' E. unfold new_tracked_output, mbind, daemon_bind, get, put, mret, daemon_ret in E.
  set (n := length (outs d)) in *. destruct d as [os x1 x2 x3 x4 x5 x6 x7 x8]. cbn in *.
  apply Hk in E as [O S M]. constructor; cbn in *; [|done..].
  intros i o Ho. assert (Hi : (i < n)%nat) by (by apply lookup_lt_Some in Ho).
  destruct (O i o) as (o' & Ho' & Hs & R); [by rewrite lookup_app_l|]. exists o'. split_and!; [done..|].
  intros r Hr HF. apply R; [done|]. intros [HF'|E']; [done|lia].
Qed.
End Evolve.

#[export] Hint Resolve stays_ret stays_get stays_exits stays_sure stays_assert stays_deref stays_out_at stays_queue_until : onchain.

(** One step of a handler. *)
Ltac stay_step :=
  lazymatch goal with
  | |- stays _ (mbind _ (new_tracked_output _ _ _ _ _ _ _ _)) => apply stays_new; intros ?
  | |- stays _ (mbind _ _) => apply stays_bind; [|intros ?]
  | |- stays _ (send _) => apply stays_send; discriminate
  | |- stays _ (when _ _) => apply stays_when
  | |- stays _ (for_each _ _) => apply stays_for_each; intros ?
  | |- stays _ (if ?b then _ else _) => destruct b
  | |- stays _ (match ?x with _ => _ end) => destruct x
  | |- stays _ (let '_ := ?x in _) => destruct x
  | |- stays _ (upd_out _ _) => apply stays_upd_other; by intros []
  | |- stays _ (put _) => apply stays_put; by intros []
  | |- stays _ _ => solve [eauto 8 with onchain]
  end.
Ltac stay := repeat (cbv zeta; stay_step).

Section Handlers.
#[local] Set Default Proof Using "Type*".
Context {EC : Ecdsa} {W : onchain_world} {E : onchain_env}.
Implicit Types (F : nat -> tx_type -> Prop).

Lemma may_ignore_resolve F i : may_resolve F i -> may_ignore F i.
Proof. by intros H t _. Qed.
Lemma may_ignore_new F i : may_ignore (and_new F i) i.
Proof. by right. Qed.
Lemma may_ignore_old F i j : may_ignore F i -> may_ignore (and_new F j) i.
Proof. by left; auto. Qed.
Lemma may_resolve_new F i : may_resolve (and_new F i) i.
Proof. by right. Qed.
Lemma may_resolve_old F i j : may_resolve F i -> may_resolve (and_new F j) i.
Proof. by left; auto. Qed.

Lemma stays_handle_spend_created F i b w : may_ignore F i -> stays F (handle_spend_created i b w).
Proof. intros H. unfold handle_spend_created. stay. by apply stays_ignore. Qed.
Lemma stays_propose_to_master F i r b t : may_ignore F i -> stays F (propose_resolution_to_master i r b t).
Proof. intros H. unfold propose_resolution_to_master. stay. by apply stays_handle_spend_created. Qed.
Lemma stays_propose_immediate F i r t : may_ignore F i -> stays F (propose_immediate_resolution i r t).
Proof. intros H. unfold propose_immediate_resolution. stay. by apply stays_propose_to_master. Qed.
Lemma stays_propose_ignore F i b t : may_ignore F i -> stays F (propose_ignore i b t).
Proof. intros H. unfold propose_ignore. stay. by apply stays_ignore. Qed.
Lemma stays_resolved_by_proposal F i tx : may_resolve F i -> stays F (resolved_by_proposal i tx).
Proof.
  intros H. unfold resolved_by_proposal. stay_step; [stay|]. destruct (to_proposal _) as [[[w|] ? ?]|]; stay. by apply stays_resolve_as.
Qed.
Lemma stays_resolved_by_other F i tx t : may_resolve F i -> stays F (resolved_by_other i tx t).
Proof. apply stays_resolve_as. Qed.
Lemma stays_unknown_spend F i tx : may_resolve F i -> stays F (unknown_spend i tx).
Proof. apply stays_resolve_as. Qed.
Lemma stays_record_coin_movements F o h tx : stays F (record_coin_movements o h tx).
Proof.
  unfold record_coin_movements, record_channel_deposit, record_to_us_htlc_fulfilled, record_channel_withdrawal, send_coin_mvt. stay.
Qed.
Lemma stays_the_keyset F : stays F the_keyset.
Proof. unfold the_keyset. stay. Qed.
Lemma stays_hsm F : stays F hsm_get_per_commitment_point.
Proof. unfold hsm_get_per_commitment_point, commit_num. stay. Qed.
Lemma stays_success_fee F o : stays F (get_htlc_success_fee o).
Proof. unfold get_htlc_success_fee, the_keyset. stay. Qed.
Lemma stays_note_missing {A} F (l : list (option A)) info : stays F (note_missing_htlcs l info).
Proof. revert info. induction l as [|x l IH]; intros [|h info]; cbn; stay; apply IH. Qed.
Lemma stays_output_of F tx n : stays F (output_of tx n).
Proof. unfold output_of. stay. Qed.
Lemma stays_tell_wallet F tx o h spk p b c : stays F (tell_wallet_to_remote tx o h spk p b c).
Proof. unfold tell_wallet_to_remote, output_of. stay. Qed.
End Handlers.
#[export] Hint Resolve may_ignore_resolve may_ignore_new may_ignore_old may_resolve_new may_resolve_old : onchain.
#[export] Hint Resolve stays_propose_to_master stays_propose_immediate stays_propose_ignore stays_resolved_by_proposal
  stays_resolved_by_other stays_unknown_spend stays_record_coin_movements stays_the_keyset stays_hsm stays_success_fee
  stays_note_missing stays_output_of stays_tell_wallet : onchain.
#[export] Hint Resolve stays_resolve_as stays_ignore : onchain.

Section Covenants.
#[local] Set Default Proof Using "Type*".
Context {S : Secp256k1} {T : Taproot} {EC : Ecdsa} {W : onchain_world} {E : onchain_env}.
Implicit Types (F : nat -> tx_type -> Prop).

Lemma stays_tcov_propose F i s w p d l q m dl t : may_ignore F i -> stays F (tcov_propose i s w p d l q m dl t).
Proof. intros H. unfold tcov_propose. stay. Qed.
Lemma stays_holder_to_local F p s : stays F (tcov_holder_to_local p s).
Proof. unfold tcov_holder_to_local. stay. Qed.
Lemma stays_amount_at F tx n : stays F (amount_at tx n).
Proof. unfold amount_at. stay. Qed.
#[local] Hint Resolve stays_tcov_propose stays_holder_to_local stays_amount_at : onchain.
Lemma stays_tcov_resolve_claim F i tx n h : stays F (tcov_resolve_claim i tx n h).
Proof. unfold tcov_resolve_claim, tcov_sweep_delayed. stay. Qed.
Lemma stays_tcov_steal_claim F i tx h t o : may_resolve F i -> stays F (tcov_steal_claim i tx h t o).
Proof. intros H. unfold tcov_steal_claim, tcov_penalty. stay. Qed.
Lemma stays_extract_preimage F i tx n : stays F (tcov_extract_preimage i tx n).
Proof. unfold tcov_extract_preimage. stay. Qed.
Lemma stays_tcov_claim F i p : may_ignore F i -> stays F (tcov_claim_with_preimage i p).
Proof. intros H. unfold tcov_claim_with_preimage. stay. Qed.
Lemma stays_revoke_leaf F tx n h : stays F (tcov_revoke_leaf_paid_us tx n h).
Proof. unfold tcov_revoke_leaf_paid_us. stay. Qed.

Lemma stays_credit_propose_claim F i : may_ignore F i -> stays F (credit_propose_claim i).
Proof. intros H. unfold credit_propose_claim. stay. Qed.
#[local] Hint Resolve stays_credit_propose_claim : onchain.
Lemma stays_credit_track F o h t a b tree : stays F (credit_track o h t a b tree).
Proof. unfold credit_track, credit_propose_own. stay. Qed.
#[local] Hint Resolve stays_credit_track : onchain.
Lemma stays_credit_output_spent F i tx n h b : (b = false -> may_resolve F i) -> stays F (credit_output_spent i tx n h b).
Proof.
  intros H. unfold credit_output_spent. destruct b; [cbn [negb when]; stay|]. specialize (H eq_refl). cbn [negb when]. stay.
Qed.

Lemma stays_sym_propose F i w o q l c m dl t : may_ignore F i -> stays F (sym_propose i w o q l c m dl t).
Proof. intros H. unfold sym_propose. stay. Qed.
Lemma stays_lanes_ready F l m : stays F (lanes_ready l m).
Proof. revert m. induction l as [|[i|] l IH]; intros m; cbn; stay. Qed.
Lemma stays_lane_inputs F l : stays F (lane_inputs l).
Proof. induction l as [|i l IH]; cbn; stay. Qed.
#[local] Hint Resolve stays_sym_propose stays_lanes_ready stays_lane_inputs : onchain.
Lemma stays_sym_resolve_state F i : may_ignore F i -> stays F (sym_resolve_state i).
Proof. intros H. unfold sym_resolve_state, sym_replace, sym_settle, sym_settle_lanes, sym_settle_clock. stay. Qed.
#[local] Hint Resolve stays_sym_resolve_state : onchain.
Lemma stays_sym_track_state F o h a num rest t l : stays F (sym_track_state o h a num rest t l).
Proof. unfold sym_track_state. stay. Qed.
Lemma stays_sym_settled_outputs F tx h n os info l : stays F (sym_settled_outputs tx h n os info l).
Proof.
  revert F n l. induction os as [|[o|] os IH]; intros F n l; cbn; unfold sym_htlc_found; stay.
Qed.
#[local] Hint Resolve stays_sym_track_state stays_sym_settled_outputs : onchain.
Lemma stays_sym_settled F tx h : stays F (sym_settled tx h).
Proof. unfold sym_settled, onchain_annotate_txin. stay. Qed.
#[local] Hint Resolve stays_sym_settled : onchain.
Lemma stays_sym_state_spent F i tx n h : may_resolve F i -> stays F (sym_state_spent i tx n h).
Proof. intros H. unfold sym_state_spent. stay. Qed.
Lemma stays_sym_lane_kicked_off F i tx n h : may_resolve F i -> stays F (sym_lane_kicked_off i tx n h).
Proof. intros H. unfold sym_lane_kicked_off. stay. Qed.
Lemma stays_sym_claim F i p : may_ignore F i -> stays F (sym_claim_with_preimage i p).
Proof. intros H. unfold sym_claim_with_preimage. stay. Qed.
End Covenants.
#[export] Hint Resolve stays_amount_at stays_tcov_resolve_claim stays_tcov_steal_claim stays_extract_preimage stays_tcov_claim
  stays_revoke_leaf stays_credit_propose_claim stays_credit_output_spent stays_sym_state_spent stays_sym_lane_kicked_off
  stays_sym_claim : onchain.

Section Messages.
#[local] Set Default Proof Using "Type*".
Context {S : Secp256k1} {T : Taproot} {EC : Ecdsa} {W : onchain_world} {E : onchain_env}.
Implicit Types (F : nat -> tx_type -> Prop) (d : onchaind).

Lemma bind_Ok {A B} (m : daemon A) (k : A -> daemon B) d b d' :
  (m ≫= k) d = Ok b d' -> exists a d1, m d = Ok a d1 /\ k a d1 = Ok b d'.
Proof. unfold mbind, daemon_bind. destruct (m d) as [a d1|?|]; [|done..]. intros H. by exists a, d1. Qed.
Lemma out_at_Ok i d o d' : out_at i d = Ok o d' -> outs d !! i = Some o /\ d' = d.
Proof. unfold out_at, mbind, daemon_bind, get, deref. destruct (outs d !! i); [|done]. by intros [= <- <-]. Qed.
Lemma deref_Ok {A} (x : option A) d a d' : deref x d = Ok a d' -> x = Some a /\ d' = d.
Proof. destruct x; [|done]. by intros [= <- <-]. Qed.

(** An output that is not resolved may be resolved; one that is may not be
    resolved otherwise. *)
Definition but F (i : nat) (t0 : tx_type) : nat -> tx_type -> Prop := fun j t => F j t \/ (j = i /\ t <> t0).
Lemma may_ignore_but F i : may_ignore (but F i SELF) i.
Proof. by right. Qed.
Lemma stays_unresolved {B} F i (k : tracked_output -> daemon B) :
  (forall o, to_resolved o = None -> stays (and_new F i) (k o)) ->
  (forall o r, to_resolved o = Some r -> stays (but F i (resolved_type r)) (k o)) -> stays F (out_at i ≫= k).
Proof.
  intros HN HS d b d' (o & d1 & [Ho ->]%out_at_Ok & Ek)%bind_Ok.
  destruct (to_resolved o) as [r|] eqn:Er.
  - destruct (HS o r Er d b d' Ek) as [O M C]. constructor; [|done..]. intros j o1 Hj. destruct (O j o1 Hj) as (o' & Hj' & Hs & R).
    exists o'. split_and!; [done..|]. intros r1 Hr1 HF. apply R; [done|]. intros [?|[-> Ht]]; [done|]. congruence.
  - destruct (HN o Er d b d' Ek) as [O M C]. constructor; [|done..]. intros j o1 Hj. destruct (O j o1 Hj) as (o' & Hj' & Hs & R).
    exists o'. split_and!; [done..|]. intros r1 Hr1 HF. apply R; [done|]. intros [?|Ej]; [done|]. congruence.
Qed.
#[local] Hint Resolve may_ignore_but : onchain.

Lemma stays_onchain_fulfill F i tx n : stays F (handle_htlc_onchain_fulfill i tx n).
Proof. unfold handle_htlc_onchain_fulfill. stay. Qed.
Lemma stays_resolve_htlc_tx F i tx n h : stays F (resolve_htlc_tx i tx n h).
Proof. unfold resolve_htlc_tx, commit_num. stay. Qed.
Lemma stays_steal_htlc_tx F i tx h t o : may_resolve F i -> stays F (steal_htlc_tx i tx h t o).
Proof. intros H. unfold steal_htlc_tx. stay. Qed.
#[local] Hint Resolve stays_onchain_fulfill stays_resolve_htlc_tx stays_steal_htlc_tx : onchain.

Lemma stays_spent_by_other F i tx n h : may_resolve F i -> stays F (spent_by_other i tx n h).
Proof.
  intros H. unfold spent_by_other, record_external_deposit, record_external_output, record_external_spend, record_to_them_htlc_fulfilled,
    onchain_annotate_txout, send_coin_mvt. destruct option_seq_taproot_covenant; stay.
Qed.
Lemma stays_spent_by_us F i tx n h : stays F (spent_by_us i tx n h).
Proof. unfold spent_by_us. destruct option_seq_taproot_covenant; stay; by apply stays_credit_output_spent. Qed.
#[local] Hint Resolve stays_spent_by_other stays_spent_by_us : onchain.

Lemma stays_outputs_spent F tx n h ids b : stays F (outputs_spent tx n h ids b).
Proof.
  revert F b. induction ids as [|i ids IH]; intros F b; cbn; [stay|]. apply stays_unresolved; intros o.
  - intros ->. stay.
  - intros r ->. stay.
Qed.

Lemma stays_update_depth F i depth : stays F (update_resolution_depth i depth).
Proof.
  intros d b d' (o & d1 & [Ho ->]%out_at_Ok & (r & d2 & [Hr ->]%deref_Ok & (x & d3 & Ew & Eu)%bind_Ok)%bind_Ok)%bind_Ok.
  assert (outs d3 = outs d /\ evolves F d d3) as [Eo Hv].
  { split; [|by eapply (stays_when F); [|exact Ew]; apply stays_send]. unfold when in Ew. case_match; injection Ew as _ <-; [|done].
    by destruct d. }
  eapply evolves_trans; [exact Hv|]. injection Eu as _ <-. clear Ew Hv.
  constructor; [|exists []; rewrite app_nil_r; split; [by destruct d3|apply not_elem_of_nil]|by destruct d3].
  intros j o1 Hj. assert (outs (set_outs (alter _ i (outs d3)) d3) = alter _ i (outs d3)) as -> by by destruct d3.
  destruct (decide (i = j)) as [<-|Hn].
  - rewrite list_lookup_alter_eq, Hj. eexists. split; [done|]. rewrite Eo, Ho in Hj. injection Hj as <-. split; [by destruct o|].
    intros r1 Hr1 _. rewrite Hr in Hr1. injection Hr1 as <-. exists (mk_resolution (resolved_txid r) depth (resolved_type r)).
    split; [by destruct o|done].
  - rewrite list_lookup_alter_ne by done. exists o1. split_and!; [done..|]. intros r1 Hr1 _. by exists r1.
Qed.
#[local] Hint Resolve stays_outputs_spent stays_update_depth : onchain.

Lemma stays_output_depth F tx depth i : stays F (output_depth tx depth i).
Proof.
  unfold output_depth, record_external_deposit, record_external_output, send_coin_mvt. apply stays_unresolved; intros o.
  - intros ->. stay_step; [stay|]. stay_step; [stay|]. destruct (to_proposal o) as [[[w|] ? ?]|]; stay.
  - intros r ->. stay.
Qed.
Lemma stays_claim F i p : may_ignore F i -> stays F (claim_with_preimage i p).
Proof. intros H. unfold claim_with_preimage, commit_num. stay. Qed.
#[local] Hint Resolve stays_output_depth stays_claim : onchain.
Lemma stays_handle_preimage F p ids : stays F (handle_preimage_from p ids).
Proof.
  revert F. induction ids as [|i ids IH]; intros F; cbn; [stay|]. apply stays_unresolved; intros o.
  - intros ->. stay.
  - intros r ->. stay_step; [|stay]. destruct (decide (resolved_type r = SELF)) as [Es|Es].
    + rewrite bool_decide_eq_true_2, Es by done. cbn [negb]. stay.
    + rewrite bool_decide_eq_false_2 by done. cbn [negb]. stay.
Qed.
Lemma stays_claim_unresolved F i : stays F (claim_unresolved i).
Proof.
  apply stays_unresolved; intros o; [intros ->; stay|]. intros r ->. rewrite andb_false_r. apply stays_ret.
Qed.
#[local] Hint Resolve stays_handle_preimage stays_claim_unresolved : onchain.

Lemma stays_handle_message F m : stays F (handle_message m).
Proof.
  destruct m; cbn [handle_message];
    unfold tx_new_depth, handle_onchaind_spent, output_spent, handle_preimage, handle_onchaind_credit_note; stay.
Qed.

(** ** The loop *)

Definition nothing : nat -> tx_type -> Prop := fun _ _ => False.

Lemma next_message_Ok d m d' :
  next_message d = Ok m d' -> outs d' = outs d /\ sent d' = sent d /\ messages d = Datatypes.S (messages d').
Proof.
  unfold next_message, messages. destruct d as [? ? q i]; cbn. destruct q as [|m' q]; [destruct i as [|m' i]; [done|]|];
    intros [= <- <-]; cbn; split_and!; [done..|lia].
Qed.
Lemma next_message_Blocked d d' : next_message d = Blocked d' -> d' = d /\ messages d = 0%nat.
Proof.
  unfold next_message, messages. destruct d as [? ? q i]; cbn. destruct q as [|m' q]; [destruct i as [|m' i]|]; [|done..]. by intros [= <-].
Qed.
Lemma stays_next_message F : stays F next_message.
Proof.
  intros d m d' (Eo & Es & Em)%next_message_Ok. constructor; [|exists []; rewrite app_nil_r; split; [done|apply not_elem_of_nil]|lia].
  intros i o Ho. rewrite Eo. exists o. split_and!; [done..|]. intros r Hr _. by exists r.
Qed.

Lemma none_left (l : list tracked_output) : num_not_irrevocably_resolved l = 0%nat -> Forall (fun o => irrevocable o = true) l.
Proof.
  unfold num_not_irrevocably_resolved. rewrite length_zero_iff_nil. induction l as [|o l IH]; [done|].
  rewrite filter_cons. destruct (decide _) as [H|H]; [done|]. intros E'. constructor; [by destruct (irrevocable o)|by apply IH].
Qed.

Lemma wait_rounds_Ok n d d' : wait_rounds n d = Ok tt d' ->
  exists d1, evolves nothing d d1 /\ Forall (fun o => irrevocable o = true) (outs d1)
    /\ send onchaind_all_irrevocably_resolved d1 = Ok tt d'.
Proof.
  revert d. induction n as [|n IH]; intros d Ew; cbn [wait_rounds] in Ew; apply bind_Ok in Ew as (x & d1 & [= <- <-] & Ew);
    destruct (Nat.eqb_spec (num_not_irrevocably_resolved (outs d)) 0) as [E0|E0].
  1,3: exists d; split_and!; [apply evolves_refl|by apply none_left|done].
  { done. }
  apply bind_Ok in Ew as (m & d1 & Em & ([] & d2 & Eh & Ew)%bind_Ok). destruct (IH _ Ew) as (d3 & Hv & Hl & Hs).
  exists d3. split_and!; [|done..]. eapply evolves_trans; [by eapply (stays_next_message nothing)|].
  eapply evolves_trans; [by eapply (stays_handle_message nothing)|done].
Qed.

Lemma wait_rounds_enough n m d : (messages d <= n)%nat -> (messages d <= m)%nat -> wait_rounds n d = wait_rounds m d.
Proof.
  revert m d. induction n as [|n IH]; intros m d Hn Hm; (destruct m as [|m]; [try done|]); cbn [wait_rounds];
    unfold mbind, daemon_bind, get; destruct (_ =? 0)%nat; try done.
  1,2: destruct (next_message d) as [x d1|d1|] eqn:En; [apply next_message_Ok in En as (_ & _ & En); lia| |];
       [by apply next_message_Blocked in En as [-> _]|unfold next_message in En; repeat case_match; done].
  destruct (next_message d) as [x d1|d1|] eqn:En; [|done..]. apply next_message_Ok in En as (_ & _ & En).
  destruct (handle_message x d1) as [y d2|d2|] eqn:Eh; [|done..]. apply (stays_handle_message nothing) in Eh as [_ _ Hm2].
  apply IH; lia.
Qed.
End Messages.

Section Theorems.
#[local] Set Default Proof Using "Type*".
Context {S : Secp256k1} {T : Taproot} {EC : Ecdsa} {W : onchain_world} {E : onchain_env}.

(** C21. onchaind forgets nothing it tracks and reports the end only at the
    end: when [wait_for_resolved] returns, whatever messages came in whatever
    order, every output it tracked when it began is still there, the same
    outpoint, amount and type; one that was resolved is still resolved, by the
    same transaction and in the same way; every output, also those it took up
    on the way, is resolved at least 100 blocks deep; and only then, once and
    last, it has told lightningd that all is irrevocably resolved. *)
Theorem resolved_for_good (d d' : onchaind) :
  wait_for_resolved d = Ok tt d' ->
  exists d1, send onchaind_all_irrevocably_resolved d1 = Ok tt d'
    /\ evolves nothing d d1
    /\ Forall (fun o => exists r, to_resolved o = Some r /\ 100 <= resolved_depth r) (outs d1).
Proof.
  intros (x & d0 & [= <- <-] & Ew)%bind_Ok. destruct (wait_rounds_Ok _ _ _ Ew) as (d1 & Hv & Hl & Hs). exists d1. split_and!; [done..|].
  eapply Forall_impl; [exact Hl|]. intros o. unfold irrevocable. destruct (to_resolved o) as [r|]; [|done]. intros H%Z.leb_le. by exists r.
Qed.

End Theorems.
