(* ===== verification/OnchainCheat.v ===== *)
(** * A revoked commitment is taken, an old state replaced

    [handle_their_cheat] on the peer's revoked commitment: every output
    [commit_tx] gave it is recognised, and all of it that is not ours already
    is asked for with the revocation key.  [sym_resolve_state] on an old state
    of a symmetric channel: the spend that is asked for replaces it. *)

From stdpp Require Import list.
From S2P Require Import Prelude Chainparams Amount HtlcState FeeStates CommitFee Script Shachain Keys Tapscript ChannelState Channel Tx SymScripts TcovScripts TapMachine SymSettle SymState SymSpend Signature CommitTx CommitAgree CommitValue OnchainState OnchainTcov OnchainSym Onchaind OnchainClose OnchainMain.
Local Open Scope Z_scope.

Lemma filter_all {A} (P : A -> Prop) `{!forall x, Decision (P x)} (l : list A) : Forall P l -> filter P l = l.
Proof. induction 1 as [|x l Hx _ IH]; [done|]. rewrite filter_cons_True by done. by rewrite IH. Qed.
Lemma filter_none {A} (P : A -> Prop) `{!forall x, Decision (P x)} (l : list A) : Forall (fun x => ~ P x) l -> filter P l = [].
Proof. induction 1 as [|x l Hx _ IH]; [done|]. by rewrite filter_cons_False. Qed.
Lemma filter_submseteq {A} (p : A -> bool) (l : list A) : List.filter p l ⊆+ l.
Proof. induction l as [|x l IH]; [done|]. cbn. destruct (p x); [by apply submseteq_skip|by apply submseteq_cons]. Qed.

(** ** Steps that end *)

Section Ends.
#[local] Set Default Proof Using "Type*".
Context {EC : Ecdsa}.
Implicit Types (d : onchaind).

Definition ends {A} (m : daemon A) d (Q : A -> onchaind -> Prop) : Prop := exists a d', m d = Ok a d' /\ Q a d'.

Lemma ends_bind {A B} (m : daemon A) (k : A -> daemon B) d Q : ends m d (fun a d1 => ends (k a) d1 Q) -> ends (m ≫= k) d Q.
Proof. intros (a & d1 & E1 & b & d2 & E2 & H). exists b, d2. split; [|done]. unfold mbind, daemon_bind. by rewrite E1. Qed.
Lemma ends_ret {A} (a : A) d (Q : A -> onchaind -> Prop) : Q a d -> ends (mret a) d Q.
Proof. intros H. by exists a, d. Qed.
Lemma ends_get {A} (f : onchaind -> A) d (Q : A -> onchaind -> Prop) : Q (f d) d -> ends (get f) d Q.
Proof. intros H. by exists (f d), d. Qed.
Lemma ends_put f d (Q : unit -> onchaind -> Prop) : Q tt (f d) -> ends (put f) d Q.
Proof. intros H. by exists tt, (f d). Qed.
Lemma ends_sure {A} (o : outcome A) a d (Q : A -> onchaind -> Prop) : o = Ret a -> Q a d -> ends (sure o) d Q.
Proof. intros -> H. by exists a, d. Qed.
Lemma ends_deref {A} (o : option A) a d (Q : A -> onchaind -> Prop) : o = Some a -> Q a d -> ends (deref o) d Q.
Proof. intros -> H. by exists a, d. Qed.
Lemma ends_assert b d (Q : unit -> onchaind -> Prop) : b = true -> Q tt d -> ends (assert_ b) d Q.
Proof. intros -> H. by exists tt, d. Qed.
Lemma ends_out_at i o d (Q : tracked_output -> onchaind -> Prop) : outs d !! i = Some o -> Q o d -> ends (out_at i) d Q.
Proof. intros E H. apply ends_bind, ends_get. by apply (ends_deref _ o). Qed.
Lemma ends_weaken {A} (m : daemon A) d (Q Q' : A -> onchaind -> Prop) : ends m d Q -> (forall a d', Q a d' -> Q' a d') -> ends m d Q'.
Proof. intros (a & d' & E & H) W. exists a, d'. auto. Qed.

(** The answers to spends that are there to be read. *)
Definition is_created (m : from_master) : Prop := match m with onchaind_spend_created _ _ => True | _ => False end.
#[global] Instance is_created_dec m : Decision (is_created m).
Proof. destruct m; cbn; apply _. Defined.
Definition replies d : nat := length (filter is_created (inbox d)).

(** What a step did: [k] answers read, [l] written; the commitment is the same. *)
Record did (k : nat) (l : list to_master) d d' : Prop := {
  did_view : the_view d' = the_view d;
  did_replies : replies d = (replies d' + k)%nat;
  did_sent : sent d' = sent d ++ l;
  did_outs : (length (outs d) <= length (outs d'))%nat;
}.
Lemma did_nothing d : did 0 [] d d.
Proof. constructor; [done|lia|by rewrite app_nil_r|done]. Qed.
Lemma did_trans k k' l l' d1 d2 d3 : did k l d1 d2 -> did k' l' d2 d3 -> did (k + k') (l ++ l') d1 d3.
Proof. intros [V1 R1 S1 O1] [V2 R2 S2 O2]. constructor; [congruence|lia|by rewrite S2, S1, app_assoc|lia]. Qed.
Lemma did_one k l d1 d2 d3 : did k l d1 d2 -> did 0 [] d2 d3 -> did k l d1 d3.
Proof. intros H1 H2. pose proof (did_trans _ _ _ _ _ _ _ H1 H2) as H. by rewrite Nat.add_0_r, app_nil_r in H. Qed.

Lemma queue_until_created q i :
  (0 < length (filter is_created i))%nat ->
  exists b w q' i', queue_until (fun m => match m with onchaind_spend_created b w => Some (b, w) | _ => None end) q i = Some ((b, w), q', i')
    /\ length (filter is_created i) = S (length (filter is_created i')).
Proof.
  revert q. induction i as [|m i IH]; intros q Hl; [cbn in Hl; lia|]. rewrite filter_cons in *.
  destruct (decide (is_created m)) as [Hc|Hc].
  - destruct m; try done. eexists _, _, _, _. split; [done|]. done.
  - destruct (IH (q ++ [m]) Hl) as (b & w & q' & i' & E & El). exists b, w, q', i'. split; [|done]. cbn [queue_until].
    by destruct m.
Qed.
End Ends.

Section Steps.
#[local] Set Default Proof Using "Type*".
Context {S0 : Secp256k1} {EC : Ecdsa} {W : onchain_world} {E : onchain_env}.
Implicit Types (d : onchaind).

Lemma ends_upd_out i f d (Q : unit -> onchaind -> Prop) :
  (forall d', did 0 [] d d' -> outs d' = alter f i (outs d) -> Q tt d') -> ends (upd_out i f) d Q.
Proof.
  intros H. apply ends_put, H; [|by destruct d]. destruct d; constructor; cbn; [done|unfold replies; cbn; lia|by rewrite app_nil_r|].
  by rewrite length_alter.
Qed.
Lemma ends_send m d (Q : unit -> onchaind -> Prop) :
  (forall d', did 0 [m] d d' -> outs d' = outs d -> Q tt d') -> ends (send m) d Q.
Proof. intros H. apply ends_put, H; destruct d; [|done]. constructor; cbn; [done|unfold replies; cbn; lia|done|done]. Qed.
Lemma ends_ignore i o d : outs d !! i = Some o -> ends (ignore_output i) d (fun _ d' => did 0 [] d d').
Proof. intros Ho. eapply ends_bind, ends_out_at; [exact Ho|]. apply ends_upd_out. by intros d' H _. Qed.

Lemma ends_propose i o r b t d : outs d !! i = Some o -> (0 < replies d)%nat ->
  ends (propose_resolution_to_master i r b t) d (fun _ d' => did 1 [onchaind_spend r] d d').
Proof.
  intros Ho Hr. apply ends_bind, ends_upd_out. intros d1 D1 E1. apply ends_bind, ends_send. intros d2 D2 E2. apply ends_bind.
  pose proof (did_trans _ _ _ _ _ _ _ D1 D2) as D. cbn in D.
  destruct (queue_until_created (queued_msgs d2) (inbox d2)) as (w & wit & q & l & Eq & El).
  { destruct D as [_ D _ _]. unfold replies in *. lia. }
  unfold ends at 1, queue_until_msg. rewrite Eq. eexists _, _. split; [done|]. cbn beta iota.
  assert (D3 : did 1 [] d2 (set_messages q l d2)).
  { destruct d2; constructor; cbn in *; [done|unfold replies; cbn; lia|by rewrite app_nil_r|done]. }
  pose proof (did_trans _ _ _ _ _ _ _ D D3) as D'. cbn in D'. clear D D3 D1 D2.
  apply ends_bind, ends_upd_out. intros d4 D4 E4. apply (did_one _ _ _ _ _ D') in D4 as D5.
  destruct w; cbn [negb when]; [by apply ends_ret|]. eapply ends_weaken.
  { apply (ends_ignore i (set_proposal (match to_proposal (set_proposal (Some (new_proposed_resolution o None b t)) o) with
                                        | Some p => Some (mk_proposal (Some wit) (depth_required p) (proposed_type p))
                                        | None => None end) (set_proposal (Some (new_proposed_resolution o None b t)) o))).
    rewrite E4, list_lookup_alter_eq. assert (outs (set_messages q l d2) = outs d2) as -> by by destruct d2.
    by rewrite E2, E1, list_lookup_alter_eq, Ho. }
  intros [] d6 D6. by eapply did_one.
Qed.
Lemma ends_propose_now i o r t d : outs d !! i = Some o -> (0 < replies d)%nat ->
  ends (propose_immediate_resolution i r t) d (fun _ d' => did 1 [onchaind_spend r] d d').
Proof. intros Ho Hr. eapply ends_bind, ends_out_at; [exact Ho|]. by eapply ends_propose. Qed.

(** A new output, and what is done with it. *)
Lemma ends_new {B} op h type sat otype htlc w sig (k : nat -> daemon B) d (Q : B -> onchaind -> Prop) :
  (forall o d', did 0 [] d d' -> outs d' !! length (outs d) = Some o ->
     to_outpoint o = op -> to_sat o = sat -> to_wscript o = w -> ends (k (length (outs d))) d' Q) ->
  ends (new_tracked_output op h type sat otype htlc w sig ≫= k) d Q.
Proof.
  intros H. apply ends_bind, ends_bind, ends_get, ends_bind, ends_put, ends_ret.
  set (o := mk_tracked _ _ _ _ _ _ _ _ _ _ _ _ _ _ _ _ _ _ _). apply (H o).
  - destruct d; constructor; cbn; [done|unfold replies; cbn; lia|by rewrite app_nil_r|]. rewrite length_app. cbn. lia.
  - destruct d. cbn. apply list_lookup_middle. done.
  - done.
  - done.
  - done.
Qed.

Lemma ends_track_ignored op h type amt otype d : ends (track_ignored op h type amt otype) d (fun _ d' => did 0 [] d d').
Proof.
  apply ends_new. intros o d1 D1 E1 _ _ _. apply ends_bind.
  eapply ends_bind, ends_out_at; [exact E1|]. apply ends_upd_out. intros d2 D2 E2.
  eapply ends_out_at; [rewrite E2; rewrite list_lookup_alter_eq, E1; done|]. by eapply did_one.
Qed.
End Steps.

Section Loop.
#[local] Set Default Proof Using "Type*".
Context {S0 : Secp256k1} {EC : Ecdsa} {W : onchain_world} {E : onchain_env}.
Implicit Types (d : onchaind) (o : tx_output).
Local Notation params := w_params.
Local Notation sha256 := w_sha256.
Local Notation ripemd160 := w_ripemd160.
Local Notation p2wsh := (scriptpubkey_p2wsh sha256).
Local Notation ao := option_anchor_outputs.
Local Notation az := option_anchors_zero_fee_htlc_tx.

(** What an output holds, in the channel's asset. *)
Definition holds o (a : amount_asset_t) : Prop :=
  wally_tx_output_get_amount params o = Ret a /\ amount_asset_is params a oc_channel_asset = true.
Definition is_fee o : bool := is_elements params && (length (out_script o) =? 0)%nat.

Lemma ends_amount_at tx n o a d (Q : amount_sat_t -> onchaind -> Prop) :
  tp_outputs tx !! n = Some (Some o) -> holds o a -> Q (mk_sat (asset_value a)) d -> ends (amount_at tx n) d Q.
Proof.
  intros Ho [Ha Hi] H. unfold amount_at, output_of. apply ends_bind. eapply ends_bind, ends_deref; [exact Ho|].
  eapply ends_deref; [done|]. eapply ends_bind, ends_sure; [exact Ha|]. apply ends_bind, ends_assert; [done|]. by apply ends_ret.
Qed.

Lemma ends_tell tx n o a op h spk p b c d : tp_outputs tx !! n = Some (Some o) -> outnum op = Z.of_nat n -> holds o a ->
  ends (tell_wallet_to_remote tx op h spk p b c) d (fun _ d' =>
    did 0 [onchaind_add_utxo op (if b then None else p) (mk_sat (asset_value a)) h spk c
             (if is_elements params then asset_id a else oc_channel_asset)] d d').
Proof.
  intros Ho Hn [Ha Hi]. unfold tell_wallet_to_remote, output_of. rewrite Hn, Nat2Z.id. apply ends_bind.
  eapply ends_bind, ends_deref; [exact Ho|]. eapply ends_deref; [done|]. eapply ends_bind, ends_sure; [exact Ha|].
  apply ends_bind, ends_assert; [unfold our_asset; by rewrite Hi|]. apply ends_send. by intros d' D _.
Qed.

Lemma ends_their_local tx n o a op h amt spk type csv d :
  tp_outputs tx !! n = Some (Some o) -> outnum op = Z.of_nat n -> holds o a ->
  ends (their_unilateral_local tx op h amt spk type csv) d (fun _ d' =>
    exists p as_, did 0 [onchaind_add_utxo op p (mk_sat (asset_value a)) h spk csv as_] d d').
Proof.
  intros Ho Hn Ha. apply ends_new. intros out d1 D1 E1 _ _ _. eapply ends_bind, ends_weaken; [by eapply ends_ignore|]. intros [] d2 D2.
  apply ends_bind, ends_get. apply ends_bind, ends_get. eapply ends_weaken; [by eapply ends_tell|]. intros [] d3 D3.
  eexists _, _. pose proof (did_trans _ _ _ _ _ _ _ (did_one _ _ _ _ _ D1 D2) D3) as D. exact D.
Qed.

(** What the script of an HTLC is made of, as channeld and as onchaind have it. *)
Definition htlc_key (h : htlc) : side * Z * list Z := (htlc_owner h, h_expiry h, ripemd160 (h_rhash h)).
Definition stub_key (hw : htlc_with_tells) : side * Z * list Z :=
  (stub_owner (hw_htlc hw), stub_cltv_expiry (hw_htlc hw), stub_ripemd (hw_htlc hw)).
Definition key_script (ks : keyset) (s : side) (k : side * Z * list Z) : list Z :=
  let '(owner, expiry, ripemd) := k in
  if bool_decide (owner = s) then htlc_offered_wscript sha256 ripemd160 ripemd ks ao az
  else htlc_received_wscript sha256 ripemd160 ripemd expiry ks ao az.

(** The request that takes an output with the revocation key: 1 chooses the
    branch of a delayed output, the key itself that of an HTLC. *)
Definition takes (secret : option (list Z)) (ks : keyset) (op : outpoint) (amt : amount_sat_t) (spk : list Z) (r : to_master) : Prop :=
  exists elem w, spk = p2wsh w /\ r = onchaind_spend (spend_penalty op amt secret elem w)
    /\ (w = to_self_wscript delays.[REMOTE] 1 ks /\ elem = [1]
        \/ (exists k, w = key_script ks REMOTE k) /\ elem = self_revocation_key ks).

Lemma ends_cheat_to_local op h amt ks d :
  cv_keyset (the_view d) = Some ks -> (0 < replies d)%nat ->
  ends (cheat_to_local op h amt 1) d (fun _ d' =>
    exists r, takes (cv_secret (the_view d)) ks op amt (p2wsh (to_self_wscript delays.[REMOTE] 1 ks)) r /\ did 1 [r] d d').
Proof.
  intros Hk Hr. apply ends_new. intros out d1 D1 E1 Eo Es _. unfold steal_to_them_output, the_keyset. apply ends_bind.
  apply ends_bind, ends_get. eapply ends_deref; [by rewrite (did_view _ _ _ _ D1)|]. eapply ends_bind, ends_out_at; [exact E1|].
  apply ends_bind, ends_get. eapply ends_weaken; [eapply ends_propose_now; [exact E1|rewrite (did_replies _ _ _ _ D1) in Hr; lia]|].
  intros [] d2 D2. rewrite (did_view _ _ _ _ D1), Eo, Es in D2. eexists. split; [|exact (did_trans _ _ _ _ _ _ _ D1 D2)].
  eexists _, _. split_and!; [done..|]. by left.
Qed.

Lemma ends_all_same {A} `{!EqDecision A} (f : htlc_stub -> A) (v : A) info ms d (Q : A -> onchaind -> Prop) :
  ms <> [] -> Forall (fun m => exists hw, info !! m = Some hw /\ f (hw_htlc hw) = v) ms -> Q v d -> ends (all_same f info ms) d Q.
Proof.
  intros Hne HF HQ. revert Q HQ. induction ms as [|m ms IH]; [done|]. intros Q HQ. apply Forall_cons in HF as [(hw & Hm & Hv) HF].
  assert (Hat : forall (R : htlc_stub -> onchaind -> Prop), R (hw_htlc hw) d -> ends (htlc_at info m) d R).
  { intros R HR. eapply ends_bind, ends_deref; [exact Hm|]. by apply ends_ret. }
  destruct ms as [|m' ms].
  - apply ends_bind, Hat, ends_ret. by rewrite Hv.
  - change (all_same f info (m :: m' :: ms)) with
      (h ← htlc_at info m; b ← all_same f info (m' :: ms); _ ← assert_ (bool_decide (b = f h)); mret (f h) : daemon A).
    apply ends_bind, Hat, ends_bind, (IH ltac:(done) HF). apply ends_bind, ends_assert; [by apply bool_decide_eq_true|].
    apply ends_ret. by rewrite Hv.
Qed.

Lemma ends_cheat_htlc op h amt ks info scripts m ms s owner d :
  cv_keyset (the_view d) = Some ks -> (0 < replies d)%nat -> scripts !! m = Some (Some s) -> (exists k, s = key_script ks REMOTE k) ->
  Forall (fun m => exists hw, info !! m = Some hw /\ stub_owner (hw_htlc hw) = owner) (m :: ms) ->
  ends (cheat_htlc op h amt info scripts (m :: ms)) d (fun which d' =>
    which = m /\ exists r, takes (cv_secret (the_view d)) ks op amt (p2wsh s) r /\ did 1 [r] d d').
Proof.
  intros Hk Hr Hs Hkey HF. eapply ends_bind, ends_deref; [done|]. apply ends_bind, (ends_all_same _ owner); [done|done|].
  apply Forall_cons in HF as [(hw & Hm & _) _]. apply ends_bind. eapply ends_bind, ends_deref; [exact Hm|]. apply ends_ret.
  apply ends_bind. eapply ends_bind, ends_deref; [exact Hs|]. eapply ends_deref; [done|].
  apply ends_new. intros out d1 D1 E1 Eo Es Ew. apply ends_bind. unfold steal_htlc, the_keyset. apply ends_bind.
  apply ends_bind, ends_get. eapply ends_deref; [by rewrite (did_view _ _ _ _ D1)|]. eapply ends_bind, ends_out_at; [exact E1|].
  eapply ends_bind, ends_deref; [exact Ew|]. apply ends_bind, ends_get.
  eapply ends_weaken; [eapply ends_propose_now; [exact E1|rewrite (did_replies _ _ _ _ D1) in Hr; lia]|].
  intros [] d2 D2. rewrite (did_view _ _ _ _ D1), Eo, Es in D2. apply ends_ret. split; [done|]. eexists.
  split; [|exact (did_trans _ _ _ _ _ _ _ D1 D2)]. eexists _, _. split_and!; [done..|]. by right.
Qed.

(** ** The scripts that are left *)

Lemma omap_take {A} (l : list (option A)) i x : l !! i = Some (Some x) -> omap id l ≡ₚ x :: omap id (<[i := None]> l).
Proof.
  revert i. induction l as [|[y|] l IH]; intros [|i] Hi; try done; cbn.
  - by injection Hi as ->.
  - rewrite (IH i Hi). apply Permutation_swap.
  - by apply IH.
Qed.
Lemma submseteq_uncons {A} (x : A) l k k' : x :: l ⊆+ k -> k ≡ₚ x :: k' -> l ⊆+ k'.
Proof. intros H Hk. rewrite Hk in H. by apply (submseteq_app_inv_l l k' [x]). Qed.

Definition left_scripts (script anchor : sides (option (list Z))) (scripts : list (option (list Z))) : list (list Z) :=
  omap id [script.[LOCAL]; script.[REMOTE]; anchor.[LOCAL]; anchor.[REMOTE]] ++ (p2wsh <$> omap id scripts).
Lemma left_direct script anchor scripts script' anchor' i x :
  [script.[LOCAL]; script.[REMOTE]; anchor.[LOCAL]; anchor.[REMOTE]] !! i = Some (Some x) ->
  [script'.[LOCAL]; script'.[REMOTE]; anchor'.[LOCAL]; anchor'.[REMOTE]]
    = <[i := None]> [script.[LOCAL]; script.[REMOTE]; anchor.[LOCAL]; anchor.[REMOTE]] ->
  left_scripts script anchor scripts ≡ₚ x :: left_scripts script' anchor' scripts.
Proof. intros Hi Hl. unfold left_scripts. rewrite Hl. by rewrite (omap_take _ _ _ Hi). Qed.
Lemma left_htlc script anchor scripts m s : scripts !! m = Some (Some s) ->
  left_scripts script anchor scripts ≡ₚ p2wsh s :: left_scripts script anchor (<[m := None]> scripts).
Proof. intros Hm. unfold left_scripts. rewrite (omap_take _ _ _ Hm). cbn [fmap list_fmap]. by rewrite Permutation_middle. Qed.

Lemma matching_from_spec h program scripts m :
  m ∈ matching_from h program scripts <-> exists i s, m = (h + i)%nat /\ scripts !! i = Some (Some s) /\ program = sha256 s.
Proof.
  revert h. induction scripts as [|x scripts IH]; intros h; cbn; [split; [by intros ?%not_elem_of_nil|intros (i & s & _ & [=] & _)]|].
  assert (Hrest : m ∈ matching_from (S h) program scripts <->
    exists i s, m = (h + S i)%nat /\ (x :: scripts) !! S i = Some (Some s) /\ program = sha256 s).
  { rewrite IH. split; intros (i & s & -> & Hi & Hp); exists i, s; split_and!; try done; lia. }
  assert (Hall : (exists i s, m = (h + i)%nat /\ (x :: scripts) !! i = Some (Some s) /\ program = sha256 s) <->
    (exists s, m = h /\ x = Some s /\ program = sha256 s) \/ m ∈ matching_from (S h) program scripts).
  { rewrite Hrest. split.
    - intros ([|i] & s & -> & Hi & Hp); [left; exists s; injection Hi as ->; split_and!; [lia|done|done]|right; eauto].
    - intros [(s & -> & -> & Hp)|(i & s & ?)]; [exists 0%nat, s; split_and!; [lia|done|done]|by exists (S i), s]. }
  rewrite Hall. destruct x as [s|]; [|split; [by right|intros [(? & _ & [=] & _)|?]; done]].
  destruct (bool_decide_reflect (program = sha256 s)) as [Ep|Ep].
  - rewrite elem_of_cons. split; [intros [->|?]; [left; eauto|by right]|intros [(? & -> & _)|?]; [by left|by right]].
  - split; [by right|]. intros [(? & _ & [= <-] & Hp)|?]; done.
Qed.

(** An HTLC output is found, whatever else has its script. *)
Lemma match_htlc_found `{!Digest sha256 32} o scripts s : s ∈ omap id scripts -> out_script o = p2wsh s ->
  exists m ms s', match_htlc_output o scripts = m :: ms /\ scripts !! m = Some (Some s') /\ out_script o = p2wsh s'
    /\ Forall (fun m => exists t, scripts !! m = Some (Some t) /\ sha256 t = sha256 s') (m :: ms).
Proof.
  intros Hs Ho. unfold match_htlc_output. rewrite Ho, (is_p2wsh_p2wsh sha256).
  apply list_elem_of_omap in Hs as (x & Hx & Ex). cbn in Ex. subst x. apply list_elem_of_lookup_1 in Hx as [i Hi].
  assert (i ∈ matching_from 0 (sha256 s) scripts) as Hin by (apply matching_from_spec; by exists i, s).
  destruct (matching_from 0 (sha256 s) scripts) as [|m ms] eqn:Em; [by apply not_elem_of_nil in Hin|].
  assert (Hall : forall k, k ∈ m :: ms -> exists t, scripts !! k = Some (Some t) /\ sha256 t = sha256 s).
  { intros k. rewrite <- Em, matching_from_spec. intros (j & t & -> & Hj & Ht). exists t. done. }
  destruct (Hall m) as (t & Ht & Et); [by left|]. exists m, ms, t. split_and!; [done|done| |].
  - rewrite !(p2wsh_shape sha256). by rewrite Et.
  - apply Forall_forall. intros k Hk. destruct (Hall k Hk) as (t' & ? & ?). exists t'. split; [done|congruence].
Qed.

(** ** The loop *)

(** What becomes of an output: the fee, ours and told to the wallet, an anchor,
    or taken with the revocation key. *)
Definition accounted (secret : option (list Z)) (ks : keyset) (h : Z) (us : list Z) (anch : list (list Z)) (op : outpoint) (o : tx_output)
    (amt : amount_sat_t) (l : list to_master) : Prop :=
  is_fee o = true
  \/ (out_script o = us /\ exists p as_, onchaind_add_utxo op p amt h us 1 as_ ∈ l)
  \/ out_script o ∈ anch
  \/ exists r, r ∈ l /\ takes secret ks op amt (out_script o) r.
Lemma accounted_more secret ks h us anch op o amt l l1 l2 :
  accounted secret ks h us anch op o amt l -> accounted secret ks h us anch op o amt (l1 ++ l ++ l2).
Proof.
  intros [H|[(H & p & a & Hin)|[H|(r & Hin & H)]]]; [by left|right; left|by do 2 right; left|do 3 right].
  - split; [done|]. exists p, a. set_solver.
  - exists r. split; [set_solver|done].
Qed.

(** The scripts are those of HTLCs, and those that hash alike of HTLCs of one
    owner. *)
Definition owners_agree (ks : keyset) (info : htlcs_info) (scripts : list (option (list Z))) : Prop :=
  forall m m' s s', scripts !! m = Some (Some s) -> scripts !! m' = Some (Some s') -> sha256 s = sha256 s' ->
  exists hw hw', info !! m = Some hw /\ info !! m' = Some hw' /\ stub_owner (hw_htlc hw) = stub_owner (hw_htlc hw')
    /\ exists k, s = key_script ks REMOTE k.
Lemma owners_agree_found ks info scripts m : owners_agree ks info scripts -> owners_agree ks info (<[m := None]> scripts).
Proof.
  intros H i j s t Hi Hj. apply H.
  - apply list_lookup_insert_Some in Hi as [(_ & [=] & _)|[_ ?]]; done.
  - apply list_lookup_insert_Some in Hj as [(_ & [=] & _)|[_ ?]]; done.
Qed.

(** The scripts looked for are those of the commitment. *)
Definition looking_for (ks : keyset) (us : list Z) (anch : list (list Z)) (script anchor : sides (option (list Z))) : Prop :=
  (forall x, script.[LOCAL] = Some x -> x = us)
  /\ (forall x, script.[REMOTE] = Some x -> x = p2wsh (to_self_wscript delays.[REMOTE] 1 ks))
  /\ (forall s x, anchor.[s] = Some x -> x ∈ anch).

Lemma is_script_true s o : is_script s o = true -> s = Some (out_script o).
Proof. unfold is_script, wally_tx_output_scripteq. destruct s; [|done]. intros H%bool_decide_eq_true. by rewrite H. Qed.
Lemma is_script_false s o : is_script s o = false -> s <> Some (out_script o).
Proof. unfold is_script, wally_tx_output_scripteq. destruct s; [|done]. intros H%bool_decide_eq_false. congruence. Qed.

Lemma bind_at {A B} (m : daemon A) (k : A -> daemon B) d a d1 : m d = Ok a d1 -> (m ≫= k) d = k a d1.
Proof. intros Em. unfold mbind, daemon_bind. by rewrite Em. Qed.

Context (tx : tx_parts) (h : Z) (ks : keyset) (opener : side) (info : htlcs_info) (us : list Z) (anch : list (list Z)).
Local Notation loop := (their_cheat_outputs tx h ks opener info).

(** The scripts of the outputs that are left, the fee's aside. *)
Definition scripts_of (os : list tx_output) : list (list Z) := out_script <$> filter (fun o => is_fee o = false) os.

(** From output [n], [o], the loop goes on with the rest, one script fewer to
    look for. *)
Definition goes_on n o a (rest : list tx_output) script anchor scripts d : Prop :=
  exists d1 script' anchor' scripts' k l,
    loop n (Some <$> o :: rest) script anchor scripts d = loop (S n) (Some <$> rest) script' anchor' scripts' d1
    /\ did k l d d1 /\ (k <= 1)%nat
    /\ accounted (cv_secret (the_view d)) ks h us anch (mk_outpoint (tp_txid tx) (Z.of_nat n)) o (mk_sat (asset_value a)) l
    /\ looking_for ks us anch script' anchor' /\ owners_agree ks info scripts'
    /\ scripts_of rest ⊆+ left_scripts script' anchor' scripts'.

Lemma goes_on_step {B} n o a rest script anchor scripts d (m : daemon B) (Q : B -> onchaind -> Prop) k script' anchor' scripts' :
  loop n (Some <$> o :: rest) script anchor scripts d
    = (m ≫= fun _ => loop (S n) (Some <$> rest) script' anchor' scripts') d ->
  ends m d Q ->
  (forall b d1, Q b d1 -> exists l, did k l d d1
     /\ accounted (cv_secret (the_view d)) ks h us anch (mk_outpoint (tp_txid tx) (Z.of_nat n)) o (mk_sat (asset_value a)) l) ->
  (k <= 1)%nat -> looking_for ks us anch script' anchor' -> owners_agree ks info scripts' ->
  scripts_of rest ⊆+ left_scripts script' anchor' scripts' -> goes_on n o a rest script anchor scripts d.
Proof.
  intros El (b & d1 & Em & HQ) HA Hk HL HO HS. destruct (HA b d1 HQ) as (l & D & Hacc).
  exists d1, script', anchor', scripts', k, l. split; [|done]. rewrite El.
  unfold mbind, daemon_bind. by rewrite Em.
Qed.

Lemma bind_assoc {A B C} (m : daemon A) (f : A -> daemon B) (k : B -> daemon C) d :
  (m ≫= fun a => f a ≫= k) d = ((m ≫= f) ≫= k) d.
Proof. unfold mbind, daemon_bind. by destruct (m d). Qed.

Lemma looking_for_script script anchor s : looking_for ks us anch script anchor -> looking_for ks us anch (upd s None script) anchor.
Proof. intros (H1 & H2 & H3). destruct s, script; by split_and!. Qed.
Lemma looking_for_anchor script anchor s : looking_for ks us anch script anchor -> looking_for ks us anch script (upd s None anchor).
Proof. intros (H1 & H2 & H3). split_and!; [done..|]. intros t x. destruct s, t, anchor; try done; apply (H3 LOCAL) || apply (H3 REMOTE). Qed.

Lemma left_after x rest script anchor scripts script' anchor' scripts' :
  scripts_of (x :: rest) ⊆+ left_scripts script anchor scripts -> is_fee x = false ->
  left_scripts script anchor scripts ≡ₚ out_script x :: left_scripts script' anchor' scripts' ->
  scripts_of rest ⊆+ left_scripts script' anchor' scripts'.
Proof.
  intros HS Hf HL. unfold scripts_of in HS. rewrite filter_cons_True in HS by done. by eapply submseteq_uncons.
Qed.

(** The last case: an HTLC. *)
Lemma cheat_one_htlc `{!Digest sha256 32} n o a rest script anchor scripts d :
  tp_outputs tx !! n = Some (Some o) -> holds o a -> is_fee o = false -> looking_for ks us anch script anchor -> owners_agree ks info scripts ->
  scripts_of (o :: rest) ⊆+ left_scripts script anchor scripts -> cv_keyset (the_view d) = Some ks -> (0 < replies d)%nat ->
  (forall s, script.[s] <> Some (out_script o)) -> (forall s, anchor.[s] <> Some (out_script o)) ->
  exists m ms d1 l, match_htlc_output o scripts = m :: ms
    /\ cheat_htlc (mk_outpoint (tp_txid tx) (Z.of_nat n)) h (mk_sat (asset_value a)) info scripts (m :: ms) d = Ok m d1
    /\ did 1 l d d1
    /\ accounted (cv_secret (the_view d)) ks h us anch (mk_outpoint (tp_txid tx) (Z.of_nat n)) o (mk_sat (asset_value a)) l
    /\ scripts_of rest ⊆+ left_scripts script anchor (<[m := None]> scripts).
Proof.
  intros Hn Ha Hf HL HO HS Hk Hr N1 N2.
  assert (out_script o ∈ p2wsh <$> omap id scripts) as (s & Es & Hs)%list_elem_of_fmap.
  { assert (out_script o ∈ left_scripts script anchor scripts) as Hin.
    { eapply elem_of_submseteq; [|exact HS]. unfold scripts_of. rewrite filter_cons_True by done. by left. }
    apply elem_of_app in Hin as [(x & Hx & Ex)%list_elem_of_omap|Hin]; [|done]. cbn in Ex. subst x. exfalso.
    repeat (apply elem_of_cons in Hx as [Hx|Hx]; [by first [eapply N1; symmetry; exact Hx|eapply N2; symmetry; exact Hx]|]).
    by apply not_elem_of_nil in Hx. }
  destruct (match_htlc_found o scripts s Hs Es) as (m & ms & s' & Em & Hm & Es' & HF).
  destruct (HO m m s' s' Hm Hm eq_refl) as (hw & _ & Hi & _ & _ & Hkey).
  destruct (ends_cheat_htlc (mk_outpoint (tp_txid tx) (Z.of_nat n)) h (mk_sat (asset_value a)) ks info scripts m ms s'
              (stub_owner (hw_htlc hw)) d) as (w & d1 & Ec & -> & r & Ht & D); [done..| |].
  { eapply Forall_impl; [exact HF|]. intros m' (t & Ht & Et). destruct (HO m' m t s' Ht Hm Et) as (hw1 & hw2 & ? & Hi2 & Ho & _).
    exists hw1. split; [done|]. congruence. }
  exists m, ms, d1, [r]. split_and!; [done..| |].
  - do 3 right. exists r. split; [by left|]. by rewrite Es'.
  - eapply left_after; [exact HS|done|]. rewrite Es'. by apply left_htlc.
Qed.

Section One.
Context `{!Digest sha256 32} (n : nat) (o : tx_output) (a : amount_asset_t) (rest : list tx_output).
Context (script anchor : sides (option (list Z))) (scripts : list (option (list Z))) (d : onchaind).
Context (Hn : tp_outputs tx !! n = Some (Some o)) (Ha : holds o a) (HL : looking_for ks us anch script anchor).
Context (HO : owners_agree ks info scripts) (HS : scripts_of (o :: rest) ⊆+ left_scripts script anchor scripts).
Context (Hk : cv_keyset (the_view d) = Some ks) (Hr : (0 < replies d)%nat).
Local Notation op := (mk_outpoint (tp_txid tx) (Z.of_nat n)).
Local Notation amt := (mk_sat (asset_value a)).

Lemma one_head (k : tx_output -> amount_sat_t -> daemon (list (option (list Z)))) :
  (o' ← deref (Some o); v ← amount_at tx n; k o' v) d = k o amt d.
Proof using Hn Ha.
  destruct (ends_amount_at tx n o a d (fun v d' => v = amt /\ d' = d) Hn Ha (conj eq_refl eq_refl)) as (v & d0 & Ea & -> & ->).
  unfold mbind, daemon_bind. cbn. by rewrite Ea.
Qed.

Lemma one_fee : is_fee o = true -> goes_on n o a rest script anchor scripts d.
Proof.
  intros Ef. eapply (goes_on_step _ _ _ _ _ _ _ _ (track_ignored op h THEIR_REVOKED_UNILATERAL amt ELEMENTS_FEE) _ 0 script anchor scripts);
    [|apply ends_track_ignored| |lia|done|done|].
  - cbn [fmap list_fmap their_cheat_outputs]. rewrite one_head. unfold is_fee in Ef. by rewrite Ef.
  - intros out d1 D. exists []. split; [done|by left].
  - unfold scripts_of in *. by rewrite filter_cons_False in HS by (by rewrite Ef).
Qed.

Context (Ef : is_fee o = false).
Lemma one_us : is_script script.[LOCAL] o = true -> goes_on n o a rest script anchor scripts d.
Proof.
  intros E1. apply is_script_true in E1 as E1'. pose proof (proj1 HL _ E1') as Eu.
  eapply (goes_on_step _ _ _ _ _ _ _ _ (their_unilateral_local tx op h amt (out_script o) THEIR_REVOKED_UNILATERAL 1)
            _ 0 (upd LOCAL None script) anchor scripts); [|by apply (ends_their_local tx n o a)| |lia|by apply looking_for_script|done|].
  - cbn [fmap list_fmap their_cheat_outputs]. rewrite one_head. unfold is_fee in Ef. by rewrite Ef, E1, E1'.
  - intros [] d1 (p & as_ & D). eexists. split; [exact D|]. right; left. rewrite Eu. split; [done|]. exists p, as_. by left.
  - eapply left_after; [exact HS|done|]. by eapply (left_direct _ _ _ _ _ 0); [exact (f_equal Some E1')|destruct script, anchor].
Qed.

Context (E1 : is_script script.[LOCAL] o = false).
Lemma one_them : is_script script.[REMOTE] o = true -> goes_on n o a rest script anchor scripts d.
Proof.
  intros E2. apply is_script_true in E2 as E2'. pose proof (proj1 (proj2 HL) _ E2') as Et.
  eapply (goes_on_step _ _ _ _ _ _ _ _ (cheat_to_local op h amt 1) _ 1 (upd REMOTE None script) anchor scripts);
    [|by apply (ends_cheat_to_local op h _ ks)| |lia|by apply looking_for_script|done|].
  - cbn [fmap list_fmap their_cheat_outputs]. rewrite one_head. unfold is_fee in Ef. by rewrite Ef, E1, E2.
  - intros [] d1 (r & Hr' & D). exists [r]. split; [done|]. do 3 right. exists r. split; [by left|]. by rewrite Et.
  - eapply left_after; [exact HS|done|]. by eapply (left_direct _ _ _ _ _ 1); [exact (f_equal Some E2')|destruct script, anchor].
Qed.

Context (E2 : is_script script.[REMOTE] o = false).
Definition first_anchor (s : side) : Prop :=
  is_script anchor.[s] o = true /\ (s = REMOTE -> is_script anchor.[LOCAL] o = false).
Lemma one_anchor s : first_anchor s -> goes_on n o a rest script anchor scripts d.
Proof.
  intros [E3 E4]. apply is_script_true in E3 as E3'. pose proof (proj2 (proj2 HL) _ _ E3') as Hin.
  set (record := fun out => match s with LOCAL => record_our_anchor out | REMOTE => record_external_deposit out h [MVT_ANCHOR] end).
  eapply (goes_on_step _ _ _ _ _ _ _ _ (out ← track_ignored op h THEIR_REVOKED_UNILATERAL amt
            (match s with LOCAL => ANCHOR_TO_US | REMOTE => ANCHOR_TO_THEM end); record out)
            (fun _ d' => exists m, did 0 [m] d d') 0 script (upd s None anchor) scripts);
    [| | |lia|by apply looking_for_anchor|done|].
  - cbn [fmap list_fmap their_cheat_outputs]. rewrite one_head, <- bind_assoc. unfold is_fee in Ef. rewrite Ef, E1, E2.
    destruct s; [by rewrite E3|by rewrite (E4 eq_refl), E3].
  - eapply ends_bind, ends_weaken; [apply ends_track_ignored|]. intros out d1 D1. unfold record, record_our_anchor, record_external_deposit,
      record_external_output, send_coin_mvt. destruct s; apply ends_send; intros d2 D2 _; eexists; exact (did_trans _ _ _ _ _ _ _ D1 D2).
  - intros [] d1 (m & D). exists [m]. split; [done|]. by do 2 right; left.
  - eapply left_after; [exact HS|done|].
    by destruct s; [eapply (left_direct _ _ _ _ _ 2)|eapply (left_direct _ _ _ _ _ 3)]; [exact (f_equal Some E3')|destruct script, anchor|exact (f_equal Some E3')|destruct script, anchor].
Qed.
End One.

Lemma cheat_one `{!Digest sha256 32} n o a rest script anchor scripts d :
  tp_outputs tx !! n = Some (Some o) -> holds o a -> looking_for ks us anch script anchor -> owners_agree ks info scripts ->
  scripts_of (o :: rest) ⊆+ left_scripts script anchor scripts -> cv_keyset (the_view d) = Some ks -> (0 < replies d)%nat ->
  goes_on n o a rest script anchor scripts d.
Proof.
  intros Hn Ha HL HO HS Hk Hr. destruct (is_fee o) eqn:Ef; [by apply one_fee|].
  destruct (is_script script.[LOCAL] o) eqn:E1; [by apply one_us|]. destruct (is_script script.[REMOTE] o) eqn:E2; [by apply one_them|].
  destruct (is_script anchor.[LOCAL] o) eqn:E3; [by apply (one_anchor n o a rest script anchor scripts d Hn Ha HL HO HS Hk Hr Ef E1 E2 LOCAL)|].
  destruct (is_script anchor.[REMOTE] o) eqn:E4; [by apply (one_anchor n o a rest script anchor scripts d Hn Ha HL HO HS Hk Hr Ef E1 E2 REMOTE)|].
  destruct (cheat_one_htlc n o a rest script anchor scripts d) as (m & ms & d1 & l & Em & Ec & D & Hacc & HS');
    [done..|by intros []; apply is_script_false|by intros []; apply is_script_false|].
  exists d1, script, anchor, (<[m := None]> scripts), 1%nat, l. split_and!; [|done|lia|done..|by apply owners_agree_found|done].
  cbn [fmap list_fmap their_cheat_outputs]. rewrite (one_head n o a d Hn Ha). unfold is_fee in Ef. rewrite Ef, E1, E2, E3, E4, Em.
  unfold mbind, daemon_bind. by rewrite Ec.
Qed.

Lemma cheat_loop `{!Digest sha256 32} os n script anchor scripts d :
  (forall i, tp_outputs tx !! (n + i)%nat = Some <$> os !! i) -> Forall (fun o => exists a, holds o a) os ->
  looking_for ks us anch script anchor -> owners_agree ks info scripts -> scripts_of os ⊆+ left_scripts script anchor scripts ->
  cv_keyset (the_view d) = Some ks -> (length os <= replies d)%nat ->
  ends (loop n (Some <$> os) script anchor scripts) d (fun _ d' => exists k l, did k l d d'
    /\ forall i o a, os !! i = Some o -> holds o a ->
         accounted (cv_secret (the_view d)) ks h us anch (mk_outpoint (tp_txid tx) (Z.of_nat (n + i))) o (mk_sat (asset_value a)) l).
Proof.
  revert n script anchor scripts d. induction os as [|o os IH]; intros n script anchor scripts d Hos HF HL HO HS Hk Hr.
  { apply ends_ret. exists 0%nat, []. split; [apply did_nothing|done]. }
  apply Forall_cons in HF as [[a Ha] HF]. cbn [length] in Hr.
  pose proof (Hos 0%nat) as Hn. rewrite Nat.add_0_r in Hn. cbn in Hn.
  destruct (cheat_one n o a os script anchor scripts d Hn Ha HL HO HS Hk ltac:(lia))
    as (d1 & script' & anchor' & scripts' & k & l & El & D & Hk1 & Hacc & HL' & HO' & HS').
  destruct (IH (S n) script' anchor' scripts' d1) as (sc & d2 & E2 & k2 & l2 & D2 & Hrest); [|done..| | |].
  - intros i. specialize (Hos (S i)). by rewrite Nat.add_succ_r in Hos.
  - by rewrite (did_view _ _ _ _ D).
  - pose proof (did_replies _ _ _ _ D). lia.
  - exists sc, d2. split; [by rewrite El|]. eexists _, _. split; [exact (did_trans _ _ _ _ _ _ _ D D2)|].
    intros [|i] o' a' Ho' Ha'.
    + injection Ho' as <-. destruct Ha as [Ha _], Ha' as [Ha' _]. rewrite Ha in Ha'. injection Ha' as <-. rewrite Nat.add_0_r.
      apply (accounted_more _ _ _ _ _ _ _ _ l [] l2) in Hacc. exact Hacc.
    + specialize (Hrest i o' a' Ho' Ha'). rewrite (did_view _ _ _ _ D), Nat.add_succ_comm in Hrest.
      apply (accounted_more _ _ _ _ _ _ _ _ l2 l []) in Hrest. by rewrite app_nil_r in Hrest.
Qed.
End Loop.

Section Commitment.
#[local] Set Default Proof Using "Type*".
Context {S0 : Secp256k1} {EC : Ecdsa} {W : onchain_world} {E : onchain_env}.
Local Notation params := w_params.
Local Notation sha256 := w_sha256.
Local Notation ripemd160 := w_ripemd160.
Local Notation p2wsh := (scriptpubkey_p2wsh sha256).
Local Notation ao := option_anchor_outputs.
Local Notation az := option_anchors_zero_fee_htlc_tx.

Lemma key_script_htlc ks s h : key_script ks s (htlc_key h) = htlc_wscript sha256 ripemd160 ks ao az s h.
Proof. done. Qed.
Lemma key_script_owner ks s k k' : key_script ks s k = key_script ks s k' -> bool_decide (fst (fst k) = s) = bool_decide (fst (fst k') = s).
Proof.
  destruct k as [[o x] r], k' as [[o' x'] r']. cbn [key_script fst]. unfold htlc_offered_wscript, htlc_received_wscript,
    bitcoin_wscript_htlc_offer_ripemd160, bitcoin_wscript_htlc_receive_ripemd.
  destruct (bool_decide (o = s)), (bool_decide (o' = s)); try done; intros Ek; exfalso; repeat apply app_inv_head in Ek; discriminate Ek.
Qed.

Lemma ends_derive_scripts ks s info d : Forall (fun hw => stub_cltv_expiry (hw_htlc hw) < SECONDS_POINT) info ->
  derive_htlc_scripts ks s info d = Ok ((fun hw => Some (key_script ks s (stub_key hw))) <$> info) d.
Proof.
  induction 1 as [|hw info Hx _ IH]; [done|]. cbn [derive_htlc_scripts fmap list_fmap]. unfold derive_htlc_script, blocks_to_abs_locktime.
  rewrite (proj2 (Z.leb_gt _ _)) by done. cbn [mbind option_bind]. unfold mbind, daemon_bind.
  assert (forall b : bool, (if b then Some (htlc_offered_wscript sha256 ripemd160 (stub_ripemd (hw_htlc hw)) ks ao az)
           else Some (htlc_received_wscript sha256 ripemd160 (stub_ripemd (hw_htlc hw)) (stub_cltv_expiry (hw_htlc hw)) ks ao az))
         = Some (if b then htlc_offered_wscript sha256 ripemd160 (stub_ripemd (hw_htlc hw)) ks ao az
                 else htlc_received_wscript sha256 ripemd160 (stub_ripemd (hw_htlc hw)) (stub_cltv_expiry (hw_htlc hw)) ks ao az)) as Eb
    by by intros [].
  rewrite Eb. cbn [deref mret daemon_ret]. unfold mret, daemon_ret. by rewrite IH.
Qed.

Lemma owners_agree_scripts ks info :
  collision_free sha256 (fun w => exists hw, hw ∈ info /\ w = key_script ks REMOTE (stub_key hw)) ->
  owners_agree ks info ((fun hw => Some (key_script ks REMOTE (stub_key hw))) <$> info).
Proof.
  intros Hc m m' s s' Hm Hm' Es. apply list_lookup_fmap_Some in Hm as (hw & [= ->] & Hm).
  apply list_lookup_fmap_Some in Hm' as (hw' & [= ->] & Hm'). exists hw, hw'. split_and!; [done..| |by exists (stub_key hw)].
  assert (key_script ks REMOTE (stub_key hw) = key_script ks REMOTE (stub_key hw')) as Ek%key_script_owner.
  { apply Hc; [exists hw|exists hw'|done]; (split; [by eapply list_elem_of_lookup_2|done]). }
  cbn in Ek. destruct (stub_owner (hw_htlc hw)), (stub_owner (hw_htlc hw')); done.
Qed.

Lemma ends_note_missing {A} (l : list (option A)) info d : ends (note_missing_htlcs l info) d (fun _ d' => exists m, did 0 m d d').
Proof.
  revert info d. induction l as [|x l IH]; intros [|hw info] d; cbn [note_missing_htlcs]; try (apply ends_ret; exists []; apply did_nothing).
  apply ends_bind.
  assert (Hrest : forall d1 m, did 0 m d d1 -> ends (note_missing_htlcs l info) d1 (fun _ d' => exists m, did 0 m d d')).
  { intros d1 m D. eapply ends_weaken; [apply IH|]. intros [] d2 [m2 D2]. eexists. exact (did_trans _ _ _ _ _ _ _ D D2). }
  destruct x as [x|]; [|apply ends_ret; eapply Hrest, did_nothing]. unfold when. destruct (tell_if_missing hw); [|apply ends_ret; eapply Hrest, did_nothing].
  destruct (tell_immediately hw); [apply ends_send; intros d1 D _; by eapply Hrest|]. apply ends_put. apply (Hrest _ []).
  destruct d; constructor; cbn; [done|unfold replies; cbn; lia|by rewrite app_nil_r|done].
Qed.

(** ** The outputs of the commitment *)

Lemma to_remote_same ks us : scriptpubkey_to_remote (other_payment_key ks) 1 = Ret us <-> to_remote_script sha256 ripemd160 ks 1 ao az = Ret us.
Proof. done. Qed.

Lemma direct_scripts_left asset lessor delay ks dust self oth n m us anchor d :
  1 <= delay -> scriptpubkey_to_remote (other_payment_key ks) 1 = Ret us -> get_anchor_scriptpubkeys = Ret anchor ->
  direct_outs params sha256 ripemd160 asset oc_funding_pubkey.[REMOTE] oc_funding_pubkey.[LOCAL] lessor delay 1 ks dust self oth n ao az m
    = Ret d ->
  out_script <$> (fst <$> d) ⊆+ omap id [Some us; Some (p2wsh (to_self_wscript delay 1 ks)); anchor.[LOCAL]; anchor.[REMOTE]].
Proof.
  destruct m as [[[m1 m2] m3] m4]. intros Hd Hu Hanc. unfold direct_outs. intros H.
  apply bind_Ret_inv in H as (l2 & H2 & H). apply bind_Ret_inv in H as (l3 & H3 & H). apply bind_Ret_inv in H as (l4 & H4 & H).
  apply Ret_inj in H as <-. rewrite !fmap_app.
  assert (Eself : to_self_wscript delay (if lessor then 1 else 0) ks = to_self_wscript delay 1 ks).
  { unfold to_self_wscript, bitcoin_wscript_to_local. rewrite !Z.max_r by (destruct lessor; lia). done. }
  assert (E2 : out_script <$> (fst <$> l2) ⊆+ [us]).
  { replace (if lessor then 1 else 1) with 1 in H2 by by destruct lessor. destruct (amount_msat_greater_eq_sat oth dust).
    - apply bind_Ret_inv in H2 as (s & Hs & H2). apply Ret_inj in H2 as <-. rewrite (proj1 (to_remote_same ks us) Hu) in Hs. by apply Ret_inj in Hs as <-.
    - apply Ret_inj in H2 as <-. apply submseteq_nil_l. }
  assert (E34 : out_script <$> (fst <$> l3) ⊆+ omap id [anchor.[REMOTE]] /\ out_script <$> (fst <$> l4) ⊆+ omap id [anchor.[LOCAL]]).
  { unfold get_anchor_scriptpubkeys, anchors in Hanc. destruct (ao || az); cbn [andb negb] in *.
    - apply bind_Ret_inv in Hanc as (al & Hal & Hanc). apply bind_Ret_inv in Hanc as (ar & Har & Hanc). apply Ret_inj in Hanc as <-.
      rewrite Har in H3. rewrite Hal in H4. cbn in H3, H4.
      split; [destruct (_ || _) in H3|destruct (_ || _) in H4]; (apply Ret_inj in H3 as <- || apply Ret_inj in H4 as <-); done || apply submseteq_nil_l.
    - apply Ret_inj in H3 as <-. apply Ret_inj in H4 as <-. split; apply submseteq_nil_l. }
  destruct E34 as [E3 E4]. rewrite Eself.
  assert (E1 : out_script <$> (fst <$> (if amount_msat_greater_eq_sat self dust
       then [(out_of params asset (p2wsh (to_self_wscript delay 1 ks)) (amount_msat_to_sat_round_down self), m1)] else []))
     ⊆+ [p2wsh (to_self_wscript delay 1 ks)]) by (destruct (amount_msat_greater_eq_sat self dust); [done|apply submseteq_nil_l]).
  etrans; [exact (submseteq_app _ _ _ _ E1 (submseteq_app _ _ _ _ E2 (submseteq_app _ _ _ _ E3 E4)))|].
  cbn. rewrite Permutation_swap. do 2 apply submseteq_skip. destruct (at_local anchor), (at_remote anchor); cbn; try done. by rewrite Permutation_swap.
Qed.

Definition asset_ok : Prop := is_elements params = true -> length oc_channel_asset = 33%nat /\ byte oc_channel_asset 0 = 1.
Lemma holds_all o : asset_ok -> (is_elements params = true -> out_asset o = oc_channel_asset) ->
  exists a, holds o a /\ mk_sat (asset_value a) = out_satoshi o.
Proof.
  intros Hok Ho. unfold holds, wally_tx_output_get_amount, amount_asset_is. destruct (is_elements params) eqn:Eel.
  - destruct (Hok Eel) as [Hl Hb]. rewrite (Ho eq_refl), Hl. cbn. rewrite Hb. eexists. split; [split; [done|by apply bool_decide_eq_true]|].
    cbn. by destruct (out_satoshi o).
  - eexists. split; [done|]. cbn. by destruct (out_satoshi o).
Qed.

Lemma tx0_asset n : is_elements params = true -> output_asset (tx0 params oc_channel_asset n) = oc_channel_asset.
Proof. intros Hel. unfold tx0, bitcoin_tx_set_output_asset. by rewrite Hel. Qed.

Lemma slots_not_empty asset lk rk lessor delay csv ks dust self oth n m s u junk d :
  direct_outs params sha256 ripemd160 asset lk rk lessor delay csv ks dust self oth n ao az m = Ret d ->
  Forall (fun o => out_script o <> []) (slot_out <$> commit_slots params sha256 ripemd160 asset ks ao az s u junk d).
Proof.
  intros Hd. unfold commit_slots. rewrite fmap_app, direct_slots_out. apply Forall_app. split.
  - rewrite !Forall_fmap. apply Forall_forall. done.
  - apply Forall_fmap. destruct m as [[[m1 m2] m3] m4]. revert Hd. apply direct_outs_ind; try done.
    intros c script amount _ Hs. cbn. intros ->. unfold to_remote_script in Hs. destruct (ao || az); [|done].
    by apply bind_Ret_inv in Hs as (? & _ & Hs).
Qed.

(** Every output holds the channel's asset, and its script is one that is
    looked for, each once. *)
Lemma commitment_outputs funding sats opener lease height ks f dust self oth l want number junk com us anchor :
  in_u32 f -> wf_sat dust -> Forall plain l -> asset_ok -> csv_lock_of lease height = 1 -> 1 <= delays.[REMOTE] ->
  scriptpubkey_to_remote (other_payment_key ks) 1 = Ret us -> get_anchor_scriptpubkeys = Ret anchor ->
  commit_tx params sha256 ripemd160 w_wlen w_wbytes funding sats oc_funding_pubkey.[REMOTE] oc_funding_pubkey.[LOCAL] opener
    delays.[REMOTE] lease height ks f dust self oth l want number ao az REMOTE oc_channel_asset junk = Ret com ->
  Forall (fun o => is_elements params = true -> out_asset o = oc_channel_asset) (tx_outputs (com_tx com))
  /\ scripts_of (tx_outputs (com_tx com))
     ⊆+ omap id [Some us; Some (p2wsh (to_self_wscript delays.[REMOTE] 1 ks)); anchor.[LOCAL]; anchor.[REMOTE]]
        ++ (p2wsh <$> (key_script ks REMOTE <$> (htlc_key <$> l))).
Proof.
  intros Hf Hdust Hl Hok Hcsv Hdel Hu Hanc. rewrite commit_tx_closed, Hcsv by done. destruct (amount_msat_add self oth); [|done].
  destruct (negb _); [|done]. cbn [assert_then]. intros Ec. apply bind_Ret_inv in Ec as ([fee|] & _ & Ec); [|done].
  destruct (try_subtract_fee _ _ _ _ _) as [[ok self'] oth']. apply bind_Ret_inv in Ec as (d & Hd & Ec).
  unfold commit_of in Ec. destruct (0 <? _); [|done]. cbn [assert_then] in Ec. apply bind_Ret_inv in Ec as (tx & Hfin & Ec).
  apply Ret_inj in Ec as <-. cbn [com_tx]. set (u := untrimmed _ _ _ _ _ _ _) in *. set (n := Z.of_nat (length u)) in *.
  set (slots := commit_slots _ _ _ _ _ _ _ _ _ _ _) in *. pose proof (proj1 (permute_outputs_sorts slots)) as Hperm.
  pose proof (slots_not_empty _ _ _ _ _ _ _ _ _ _ _ _ REMOTE u junk _ Hd) as Hne. fold slots in Hne.
  apply finish_keeps_outputs in Hfin as (rest & -> & Hrest); [|cbn; by rewrite Hperm]. cbn [tx_outputs set_tx_outputs output_asset] in *.
  split.
  - rewrite Hperm. apply Forall_app. split; [|eapply Forall_impl; [exact Hrest|]; intros o (_ & _ & ->) Hel; by apply tx0_asset].
    apply Forall_forall. intros o Ho Hel. rewrite (out_asset_of params sha256 ripemd160 _ o u ks ao az REMOTE junk d Ho).
    + rewrite Hel. by apply tx0_asset.
    + intros x. by apply (direct_outs_asset params sha256 ripemd160 _ _ _ _ _ _ _ _ _ _ _ _ _ _ _ _ Hd).
  - unfold scripts_of. rewrite filter_app. rewrite (filter_none _ rest).
    2: { eapply Forall_impl; [exact Hrest|]. intros o (Hel & Hs & _). unfold is_fee. by rewrite Hel, Hs. }
    rewrite app_nil_r, (filter_all _ (slot_out <$> _)).
    2: { rewrite Hperm. eapply Forall_impl; [exact Hne|]. intros o Ho. unfold is_fee. destruct (out_script o) eqn:Eo; [by destruct Ho|]. by rewrite andb_false_r. }
    rewrite Hperm. unfold slots, commit_slots. rewrite !fmap_app, direct_slots_out, Permutation_app_comm. apply submseteq_app.
    + by eapply direct_scripts_left.
    + rewrite <- !fmap_app, kinds_perm, <- !list_fmap_compose. apply fmap_submseteq, filter_submseteq.
Qed.
End Commitment.

Section Revoked.
#[local] Set Default Proof Using "Type*".
Context {S0 : Secp256k1} {EC : Ecdsa} {T0 : Taproot} {W : onchain_world} {E : onchain_env}.
Context `{!Digest w_sha256 32, !Sorter w_asort}.
Local Notation sha256 := w_sha256.
Local Notation ripemd160 := w_ripemd160.
Local Notation ao := option_anchor_outputs.
Local Notation az := option_anchors_zero_fee_htlc_tx.

(** What lightningd tells of the HTLCs covers those of the commitment, and
    their scripts do not collide. *)
Definition told_of (ks : keyset) (l : list htlc) (info : htlcs_info) : Prop :=
  htlc_key <$> l ⊆+ stub_key <$> info
  /\ Forall (fun hw => stub_cltv_expiry (hw_htlc hw) < SECONDS_POINT) info
  /\ collision_free sha256 (fun w => exists hw, hw ∈ info /\ w = key_script ks REMOTE (stub_key hw)).

Lemma told_of_sorted ks l info : told_of ks l info -> told_of ks l (w_asort cmp_htlc_with_tells_cltv info).
Proof.
  intros (H1 & H2 & H3). pose proof (asort_perm cmp_htlc_with_tells_cltv info) as Hp. split_and!.
  - by rewrite Hp.
  - by rewrite Hp.
  - intros w w' (hw & Hin & Ew) (hw' & Hin' & Ew'). rewrite Hp in Hin, Hin'. apply H3; eauto.
Qed.

Lemma ends_init_reply info msgs d (Q : htlcs_info -> onchaind -> Prop) : inbox d = onchaind_htlcs info :: msgs ->
  (forall d', the_view d' = the_view d -> replies d' = length (filter is_created msgs) -> (exists l, sent d' = sent d ++ l) ->
     Q (w_asort cmp_htlc_with_tells_cltv info) d') -> ends init_reply d Q.
Proof.
  intros Hi H. unfold init_reply. apply ends_bind, ends_get. apply ends_bind, ends_put. apply ends_bind.
  destruct d as [os mi q i st v c cn sp]. cbn in *. subst i. eexists _, _. split; [done|]. apply ends_ret, H; [done|done|by eexists].
Qed.

Lemma omap_scripts ks (info : htlcs_info) :
  omap id ((fun hw => Some (key_script ks REMOTE (stub_key hw))) <$> info) = key_script ks REMOTE <$> (stub_key <$> info).
Proof. induction info as [|hw r IH]; [done|]. cbn. by f_equal. Qed.

Lemma cheat_found funding sats opener lease height ks f dust self oth l want number junk com us anchor
    tx h secret point bases opener' info msgs (d : onchaind) :
  in_u32 f -> wf_sat dust -> Forall plain l -> asset_ok -> csv_lock_of lease height = 1 -> 1 <= delays.[REMOTE] ->
  commit_tx w_params sha256 ripemd160 w_wlen w_wbytes funding sats oc_funding_pubkey.[REMOTE] oc_funding_pubkey.[LOCAL] opener
    delays.[REMOTE] lease height ks f dust self oth l want number ao az REMOTE oc_channel_asset junk = Ret com ->
  tp_outputs tx = Some <$> tx_outputs (com_tx com) ->
  ec_pubkey_create secret = Some point ->
  derive_keyset sha256 point bases.[REMOTE] bases.[LOCAL] (static_remotekey_start.[REMOTE] <=? cv_num (the_view d)) = Some ks ->
  scriptpubkey_to_remote (other_payment_key ks) 1 = Ret us -> get_anchor_scriptpubkeys = Ret anchor ->
  told_of ks l info -> inbox d = onchaind_htlcs info :: msgs ->
  (length (tx_outputs (com_tx com)) <= length (filter is_created msgs))%nat ->
  exists d' sends, their_cheat_found tx h secret bases opener' d = Ok tt d' /\ sent d' = sent d ++ sends
    /\ forall i o, tx_outputs (com_tx com) !! i = Some o ->
       accounted (Some secret) ks h us (omap id [anchor.[LOCAL]; anchor.[REMOTE]]) (mk_outpoint (tp_txid tx) (Z.of_nat i)) o (out_satoshi o)
         sends.
Proof.
  intros Hf Hdust Hl Hok Hcsv Hdel Hcom Htx Hpt Hks Hus Hanc Htold Hin Hrep.
  destruct (commitment_outputs _ _ _ _ _ _ _ _ _ _ _ _ _ _ _ _ _ Hf Hdust Hl Hok Hcsv Hdel Hus Hanc Hcom) as [Hass Hscr].
  set (os := tx_outputs (com_tx com)) in *. destruct (told_of_sorted _ _ _ Htold) as (Hsub & Hexp & Hcol).
  set (info' := w_asort cmp_htlc_with_tells_cltv info) in *.
  assert (Hends : ends (their_cheat_found tx h secret bases opener') d (fun _ d' => exists sends, sent d' = sent d ++ sends
    /\ forall i o a, os !! i = Some o -> holds o a -> accounted (Some secret) ks h us (omap id [anchor.[LOCAL]; anchor.[REMOTE]])
         (mk_outpoint (tp_txid tx) (Z.of_nat i)) o (mk_sat (asset_value a)) sends)).
  { apply ends_bind, (ends_init_reply info msgs); [done|]. fold info'. intros d1 V1 R1 [l1 S1].
    apply ends_bind, ends_send. intros d2 D2 _. apply ends_bind, ends_upd_out. intros d3 D3 _.
    pose proof (did_trans _ _ _ _ _ _ _ D2 D3) as [V3 R3 S3 _]. cbn [app Nat.add] in R3, S3. eapply ends_bind, ends_deref; [exact Hpt|].
    apply ends_bind, ends_put. apply ends_bind, ends_get. eapply ends_bind, ends_deref.
    { rewrite <- Hks. destruct d3; cbn in *. do 2 f_equal. by rewrite V3, V1. }
    apply ends_bind, ends_put. eapply ends_bind, ends_sure; [done|]. eapply ends_bind, ends_sure; [exact Hus|].
    apply ends_bind. eexists _, _. split; [by apply ends_derive_scripts|]. eapply ends_bind, ends_sure; [exact Hanc|].
    rewrite Htx. set (d4 := set_the_view _ _). apply ends_bind. eapply ends_weaken.
    - apply (cheat_loop tx h ks opener' info' us (omap id [anchor.[LOCAL]; anchor.[REMOTE]]) os 0).
      + intros i. by rewrite Htx, list_lookup_fmap.
      + eapply Forall_impl; [exact Hass|]. intros o Ho. destruct (holds_all o Hok Ho) as (a & Ha & _). by exists a.
      + split_and!; [by intros x [= <-]|by intros x [= <-]|]. intros s x Hx. apply list_elem_of_omap. exists (Some x). split; [|done].
        destruct s; cbn in Hx; rewrite <- Hx; [by left|by right; left].
      + by apply owners_agree_scripts.
      + etrans; [exact Hscr|]. unfold left_scripts. apply submseteq_app; [done|]. apply fmap_submseteq.
        rewrite omap_scripts. by apply fmap_submseteq.
      + unfold d4. by destruct d3.
      + unfold d4. assert (forall v d, replies (set_the_view v d) = replies d) as Erep by by intros v [].
        rewrite !Erep. lia.
    - intros sc d5 (k & l5 & D5 & Hacc). eapply ends_weaken; [apply ends_note_missing|]. intros [] d6 [m6 D6].
      pose proof (did_trans _ _ _ _ _ _ _ D5 D6) as [_ _ S6 _].
      assert (sent d4 = sent d3) as E4 by by (unfold d4; destruct d3). exists (l1 ++ [onchaind_annotate_txin (tp_txid tx) 0 (Z.lor (Z.lor TX_CHANNEL_UNILATERAL TX_CHANNEL_CHEAT) TX_THEIRS)] ++ l5 ++ m6).
      split; [rewrite S6, E4, S3, S1; by rewrite <- !app_assoc|].
      intros i o a Ho Ha. specialize (Hacc i o a Ho Ha). assert (cv_secret (the_view d4) = Some secret) as Es by by (unfold d4; destruct d3).
      rewrite Es in Hacc. rewrite app_assoc. by apply accounted_more. }
  destruct Hends as ([] & d' & Ed & sends & Hs & Hacc). exists d', sends. split_and!; [done..|]. intros i o Ho.
  rewrite Forall_forall in Hass. destruct (holds_all o Hok (Hass o (list_elem_of_lookup_2 _ _ _ Ho))) as (a & Ha & <-). by apply Hacc.
Qed.

(** The transaction as it is seen on the chain: its outputs, its inputs'
    sequence numbers and its locktime. *)
Definition seen_as (tx : bitcoin_tx) (p : tx_parts) (locktime : Z) : Prop :=
  tp_outputs p = Some <$> tx_outputs tx /\ fmap pi_sequence <$> tp_inputs p = (fun i => Some (in_sequence i)) <$> tx_inputs tx
  /\ locktime = tx_locktime tx.

Lemma dispatch_cheat (m : init_msg) hs n secret input d :
  option_seq_taproot_covenant = false -> received sha256 SHACHAIN_BITS (i_shachain m) hs -> 0 <= n < 2 ^ 48 ->
  hs !! Z.to_nat n = Some secret -> tp_txid (i_tx m) <> i_our_broadcast_txid m -> tp_inputs (i_tx m) = [Some input] ->
  unmask_commit_number sha256 (pi_sequence input) (i_locktime m) (i_opener m) (sides_map bp_payment (i_basepoints m)) = n ->
  handle_unilateral m d
    = (_ ← set_commit_num n; handle_their_cheat (i_tx m) (i_tx_blockheight m) secret (i_basepoints m) (i_opener m)) d.
Proof.
  intros Hcov Hrec Hn Hs Htx Hin Hnum. unfold handle_unilateral. rewrite Hin. cbn [head].
  rewrite (bind_at _ _ d (Some input) d), (bind_at _ _ d input d), Hnum, Hcov by done.
  unfold mbind, daemon_bind. destruct (set_commit_num n d); [|done..].
  assert (Hb : (SHACHAIN_BITS <= 63)%nat) by (unfold SHACHAIN_BITS; lia).
  rewrite (get_secret_received sha256 SHACHAIN_BITS Hb _ hs n) by done. rewrite Hs. cbn [sure andb].
  unfold is_local_commitment. by rewrite bool_decide_false.
Qed.

End Revoked.

(** ** An old state of a symmetric channel *)

Section Replaced.
#[local] Set Default Proof Using "Type*".
Context {S0 : Secp256k1} {EC : Ecdsa} {T0 : Taproot} {W : onchain_world} {E : onchain_env}.
Context `{!Digest w_sha256 32, !TweakLaws T0, !Machine, !MachineLaws w_sha256}.

(** The leaf of an output at state [k] is its UPD. *)
Lemma prev_leaf_upd k rest leaf cb : prev_leaf k rest = Ret (leaf, cb) -> leaf = sym_leaf_upd sym_sc k.
Proof.
  unfold prev_leaf. destruct (Z.eqb_spec k (-1)) as [->|_]; intros E0.
  - apply bind_Ret_inv in E0 as (t & Et & E0). apply bind_Ret_inv in E0 as (c & _ & E0). injection E0 as <- _.
    unfold sym_kickoff_tree in Et. apply bind_Ret_inv in Et as (der & _ & Et). by injection Et as <-.
  - apply bind_Ret_inv in E0 as ([[spk l] c] & Et & E0). injection E0 as <- _. unfold sym_rebuild_state in Et.
    apply bind_Ret_inv in Et as (der & _ & Et). apply bind_Ret_inv in Et as (c' & _ & Et). by injection Et as _ <- _.
Qed.

(** The asset of a state output is known. *)
Definition asset_known (o : tracked_output) : Prop :=
  if has_clock sym_sc then exists a, sym_clock_marker_asset sym_sc = Ret a else (to_sym_lane o <= length oc_lanes)%nat.
Lemma ends_asset o d (Q : option (list Z) -> onchaind -> Prop) : asset_known o -> (forall a, Q a d) ->
  ends (if has_clock sym_sc then marker ← sure (sym_clock_marker_asset sym_sc); mret (Some marker)
        else match to_sym_lane o with O => mret None | lane => a ← deref (lane_asset_of lane); mret (Some a) end) d Q.
Proof.
  intros Hk HQ. unfold asset_known in Hk. destruct (has_clock sym_sc).
  - destruct Hk as [a Ha]. eapply ends_bind, ends_sure; [exact Ha|]. apply ends_ret, HQ.
  - destruct (to_sym_lane o) as [|l] eqn:El; [apply ends_ret, HQ|]. destruct (lookup_lt_is_Some_2 oc_lanes l ltac:(lia)) as [x Ex].
    eapply ends_bind, ends_deref; [unfold lane_asset_of; by rewrite Ex|]. apply ends_ret, HQ.
Qed.

(** C13. An old state of a symmetric channel is answered: for a state output
    older than our best state, the kickoff's included, onchaind asks for a
    spend of it into the output of the best state, with the same value, whose
    witness ends with UPD of that very state and its control block; and UPD
    accepts the witness in every transaction that takes the value to the
    requested output under the requested locktime. *)
Theorem older_state_replaced i o best so sa tree m leaf cb spk (d : onchaind) :
  wf_sym_channel sym_sc -> sym_best = Some best -> outs d !! i = Some o -> to_sym_spk o = Some spk -> asset_known o ->
  in_s64 (to_sym_num o) -> in_s64 (st_num best) -> to_sym_num o < st_num best ->
  sym_state_signed best sym_opener = Some (so, sa) -> sym_state_tree_of w_sha256 sym_sc best = Ret tree ->
  sym_upd_msg w_sha256 sym_sc tree = Ret m -> both_signed sym_sc m so sa -> prev_leaf (to_sym_num o) (to_sym_rest o) = Ret (leaf, cb) ->
  (0 < replies d)%nat ->
  exists d' wit new asset lock minblock deadline, sym_resolve_state i d = Ok tt d'
    /\ sent d' = sent d ++ [onchaind_spend (spend_sym (to_outpoint o) (to_sat o) spk wit new SYM_SEQUENCE lock None minblock deadline)]
    /\ st_outs new = [mk_sym_state_out (to_sat o) (sym_tree_spk tree) asset]
    /\ drop 4 (welement_bytes <$> wit) = [sym_leaf_upd sym_sc (to_sym_num o); cb]
    /\ forall ctx, Z.of_nat (sp_index ctx) < 2 ^ 32 -> moves_to ctx (sym_tree_spk tree) ->
         (has_clock sym_sc = true -> locktime_reached ctx lock = true) ->
         unlocks ctx (sym_leaf_upd sym_sc (to_sym_num o)) (stack_of (welement_bytes <$> wit)).
Proof.
  intros Hsc Hbest Ho Hspk Hasset Hk Hn Hlt Hsigned Htree Hm Hboth Hleaf Hr. pose proof (prev_leaf_upd _ _ _ _ Hleaf) as ->.
  set (wit := sym_update_witness so sa tree (sym_leaf_upd sym_sc (to_sym_num o)) cb).
  assert (Hwit : welement_bytes <$> sym_welements wit = wit) by done.
  set (lock := if has_clock sym_sc then SYM_CLOCK_LOCKTIME_FLOOR else 0).
  assert (Hends : ends (sym_resolve_state i) d (fun _ d' => exists asset, did 1 [onchaind_spend (spend_sym (to_outpoint o) (to_sat o) spk
    (sym_welements wit) (with_outs [mk_sym_state_out (to_sat o) (sym_tree_spk tree) asset] (empty_state LOCAL 0 (st_num best))) SYM_SEQUENCE lock
    None (wrap_u32 (to_tx_blockheight o + 1)) (wrap_u32 (to_tx_blockheight o + 2)))] d d')).
  { eapply ends_bind, ends_out_at; [exact Ho|]. rewrite Hbest, (proj2 (Z.ltb_lt _ _) Hlt), Hsigned.
    eapply ends_bind, ends_out_at; [exact Ho|]. eapply ends_bind, ends_sure; [exact Hleaf|].
    eapply ends_bind, ends_sure; [exact Htree|]. apply ends_bind, ends_asset; [done|]. intros asset.
    eapply ends_bind, ends_out_at; [exact Ho|]. eapply ends_bind, ends_deref; [exact Hspk|].
    eapply ends_weaken; [by eapply ends_propose|]. intros [] d' D. by exists asset. }
  destruct Hends as ([] & d' & Ed & asset & D). eexists d', _, _, asset, _, _, _. split; [exact Ed|]. split; [exact (did_sent _ _ _ _ D)|].
  split_and!; [done..|]. intros ctx Hidx Hmove Hlock. rewrite Hwit.
  destruct (state_tree_sizes w_sha256 _ _ _ _ _ Htree) as (En & _ & Hp & Hrest).
  unfold sym_upd_msg, assert_then in Hm. destruct (0 <=? st_n tree); [|done]. injection Hm as <-.
  apply (update_cut w_sha256 ctx Hidx sym_sc Hsc (to_sym_num o) (st_n tree) _ _ _ (sym_tree_program tree) (st_rest tree) so sa Hk
    ltac:(by rewrite En) eq_refl Hp Hrest eq_refl ltac:(lia) Hboth).
  - intros Hc. specialize (Hlock Hc). unfold lock in Hlock. by rewrite Hc in Hlock.
  - unfold program_spk. by rewrite Hp.
  - by rewrite En.
Qed.
End Replaced.
