(* ===== verification/OnchainLate.v ===== *)
(** * Preimages that come late

    What onchaind does with a preimage of an HTLC it has already dealt with:
    one it ignored because it had timed out, and one of a revoked commitment
    it has asked a penalty for. *)

From stdpp Require Import list.
From S2P Require Import Prelude Chainparams Amount HtlcState CommitFee Script Keys Tapscript ChannelState Tx SymScripts TcovScripts SymState Signature CommitTx OnchainState OnchainTcov OnchainSym Onchaind OnchainClose OnchainFacts OnchainCheat.
Local Open Scope Z_scope.

Section Late.
#[local] Set Default Proof Using "Type*".
Context {S0 : Secp256k1} {T0 : Taproot} {EC : Ecdsa} {W : onchain_world} {E : onchain_env}.

(** ** One output among the others *)

Lemma seq_around i n : (i < n)%nat -> seq 0 n = seq 0 i ++ i :: seq (S i) (n - S i).
Proof. intros Hi. replace n with (i + S (n - S i))%nat at 1 by lia. by rewrite seq_app. Qed.

(** The preimage opens it, and nothing else. *)
Definition claims (p : list Z) (o : tracked_output) : bool := bool_decide (to_output_type o = THEIR_HTLC) && preimage_opens (to_htlc o) p.
Definition spends (tx : tx_parts) (n : nat) (o : tracked_output) : bool :=
  match tp_inputs tx !! n with Some input => wally_tx_input_spends input (to_outpoint o) | None => false end.
Definition only (P : tracked_output -> bool) (i : nat) (os : list tracked_output) : Prop :=
  forall j o, os !! j = Some o -> P o = true -> j = i.

Lemma only_others P i os j : only P i os -> j <> i -> (j < length os)%nat -> exists o, os !! j = Some o /\ P o = false.
Proof.
  intros Ho Hj Hl. destruct (lookup_lt_is_Some_2 os j Hl) as [o Eo]. exists o. split; [done|].
  destruct (P o) eqn:Ep; [|done]. by destruct Hj; eapply Ho.
Qed.

Lemma preimage_skips p l k d : Forall (fun j => exists o, outs d !! j = Some o /\ claims p o = false) l ->
  handle_preimage_from p (l ++ k) d = handle_preimage_from p k d.
Proof.
  induction 1 as [|j l (o & Ho & Hc) _ IH]; [done|]. cbn [app handle_preimage_from]. unfold out_at, get, mbind, daemon_bind.
  rewrite Ho. cbn [deref mret daemon_ret]. unfold mret, daemon_ret. unfold claims in Hc. by rewrite Hc.
Qed.
Lemma spent_skips tx n h l k b d : is_Some (tp_inputs tx !! n) ->
  Forall (fun j => exists o, outs d !! j = Some o /\ spends tx n o = false) l ->
  outputs_spent tx n h (l ++ k) b d = outputs_spent tx n h k b d.
Proof.
  intros [input Hi]. induction 1 as [|j l (o & Ho & Hc) _ IH]; [done|]. cbn [app outputs_spent]. unfold out_at, get, mbind, daemon_bind.
  rewrite Ho, Hi. cbn [deref mret daemon_ret]. unfold mret, daemon_ret. unfold spends in Hc. rewrite Hi in Hc. by rewrite Hc.
Qed.

(** So the others do not matter. *)
Lemma handle_preimage_one p i o d d' : outs d !! i = Some o -> claims p o = true -> only (claims p) i (outs d) ->
  match to_resolved o with Some r => resolved_type r = SELF | None => True end ->
  claim_with_preimage i p d = Ok tt d' -> (exists o', outs d' = <[i := o']> (outs d)) -> handle_preimage p d = Ok tt d'.
Proof.
  intros Ho Hc Hon Hr Hcl [o' Eo']. pose proof (lookup_lt_Some _ _ _ Ho) as Hi.
  unfold handle_preimage, get. unfold mbind, daemon_bind. rewrite (seq_around i) by done. rewrite preimage_skips.
  2: { apply Forall_forall. intros j Hj%elem_of_seq. apply (only_others _ i); [done|lia..]. }
  cbn [handle_preimage_from]. unfold out_at, get, mbind, daemon_bind. rewrite Ho. cbn [deref mret daemon_ret]. unfold mret, daemon_ret.
  unfold claims in Hc. rewrite Hc.
  assert (match to_resolved o with Some r => negb (bool_decide (resolved_type r = SELF)) | None => false end = false) as ->.
  { destruct (to_resolved o); [by rewrite bool_decide_true|done]. }
  rewrite Hcl. rewrite <- (app_nil_r (seq _ _)), preimage_skips; [done|].
  apply Forall_forall. intros j Hj%elem_of_seq. rewrite Eo', list_lookup_insert_ne by lia. apply (only_others _ i); [done|lia..].
Qed.

Lemma handle_spent_at tx n h i o d : outs d !! i = Some o -> spends tx n o = true -> only (spends tx n) i (outs d) ->
  output_spent tx n h d = outputs_spent tx n h (i :: seq (S i) (length (outs d) - S i)) false d.
Proof.
  intros Ho Hs Hon. pose proof (lookup_lt_Some _ _ _ Ho) as Hi. unfold output_spent, get. unfold mbind at 1, daemon_bind at 1.
  rewrite (seq_around i) at 1 by done. apply spent_skips; [unfold spends in Hs; by destruct (tp_inputs tx !! n)|].
  apply Forall_forall. intros j Hj%elem_of_seq. apply (only_others _ i); [done|lia..].
Qed.
Lemma spent_rest tx n h i b d l : is_Some (tp_inputs tx !! n) -> only (spends tx n) i l -> (exists k, outs d = l ++ k) ->
  outputs_spent tx n h (seq (S i) (length l - S i)) b d = Ok b d.
Proof.
  intros Hi Hon [k Ek]. rewrite <- (app_nil_r (seq _ _)), spent_skips; [done..|].
  apply Forall_forall. intros j Hj%elem_of_seq. destruct (only_others _ i l j Hon) as (o & Ho & Hs); [lia..|].
  exists o. split; [|done]. rewrite Ek. by apply lookup_app_l_Some.
Qed.

Lemma alter_at {A} (f : A -> A) (i : nat) (o : A) (l : list A) : l !! i = Some o -> alter f i l = <[i := f o]> l.
Proof. revert i. induction l as [|x l IH]; intros [|i] Ho; [done..|by injection Ho as ->|]. cbn in *. f_equal. by apply IH. Qed.
Lemma upd_at i f o d : outs d !! i = Some o -> upd_out i f d = Ok tt (set_outs (<[i := f o]> (outs d)) d).
Proof. intros Ho. unfold upd_out, put. by rewrite (alter_at _ _ o). Qed.

(** The request is written and its answer is taken up. *)
Lemma propose_answered i o r t os mi q wit msgs st v c cn sp : os !! i = Some o ->
  exists k, propose_immediate_resolution i r t (mk_onchaind os mi q (onchaind_spend_created true wit :: msgs) st v c cn sp)
    = Ok tt (mk_onchaind (<[i := set_proposal (Some (mk_proposal (Some wit) k t)) o]> os) mi q msgs (st ++ [onchaind_spend r]) v c cn sp).
Proof.
  intros Ho. pose proof (lookup_lt_Some _ _ _ Ho) as Hl. exists (wrap_u32 (wrap_u32 (to_tx_blockheight o + 1) - to_tx_blockheight o)).
  unfold propose_immediate_resolution, propose_resolution_to_master, out_at, get, mbind, daemon_bind. cbn [outs]. rewrite Ho.
  cbn [deref mret daemon_ret]. unfold mret, daemon_ret. rewrite (upd_at _ _ o) by done.
  cbn [set_outs outs send put sent set_sent queue_until_msg queue_until queued_msgs inbox set_messages].
  unfold queue_until_msg. cbn [queue_until queued_msgs inbox set_messages].
  unfold handle_spend_created, mbind, daemon_bind. erewrite upd_at by (cbn [outs]; by apply list_lookup_insert_eq).
  cbn [outs set_outs when negb]. unfold mret, daemon_ret. rewrite list_insert_insert_eq. by destruct o.
Qed.

Lemma output_at i o d : outs d !! i = Some o -> out_at i d = Ok o d.
Proof. intros Ho. unfold out_at, get, mbind, daemon_bind. by rewrite Ho. Qed.
Lemma keyset_at ks d : cv_keyset (the_view d) = Some ks -> the_keyset d = Ok ks d.
Proof. intros Hk. unfold the_keyset, get, mbind, daemon_bind. by rewrite Hk. Qed.
Lemma fee_at o d : amount_sat_eq (success_fee_found (caches d)) UNSET_FEE = false ->
  get_htlc_success_fee o d = Ok (success_fee_found (caches d)) d.
Proof. intros Hf. unfold get_htlc_success_fee, get, mbind, daemon_bind. by rewrite Hf. Qed.
Definition payment_hash_of (o : tracked_output) (p : list Z) : list Z :=
  match stub_lock_point (to_htlc o) with Some lock => point_lock_payment_hash lock | None => w_sha256 p end.
(** The output once its claim has been answered. *)
Definition claimed (o : tracked_output) (p : list Z) (wit : list welement) (k : Z) (t : tx_type) : tracked_output :=
  set_proposal (Some (mk_proposal (Some wit) k t)) (set_payment_hash (payment_hash_of o p) o).

Section Plain.
Context (Hcov : option_seq_taproot_covenant = false) (Hsym : option_seq_symmetric = false).

(** The claim of an HTLC of our commitment. *)
Lemma claim_ours i o sig ks w p wit msgs os mi q st v c cn sp :
  os !! i = Some o -> to_remote_htlc_sig o = Some sig -> to_wscript o = Some w -> cv_keyset v = Some ks ->
  amount_sat_eq (success_fee_found c) UNSET_FEE = false ->
  exists k, claim_with_preimage i p (mk_onchaind os mi q (onchaind_spend_created true wit :: msgs) st v c cn sp)
    = Ok tt (mk_onchaind (<[i := claimed o p wit k OUR_HTLC_SUCCESS_TX]> os) mi q msgs
        (st ++ [onchaind_spend (spend_htlc_success (to_outpoint o) (to_sat o) (success_fee_found c) (stub_id (to_htlc o)) (cv_num v) sig p w
                                  (htlc_tx_wscript ks LOCAL))]) v c cn sp).
Proof.
  intros Ho Hsig Hw Hks Hfee. pose proof (lookup_lt_Some _ _ _ Ho) as Hl. unfold claim_with_preimage.
  erewrite bind_at by (by apply output_at). rewrite Hcov, Hsym. cbn [andb].
  erewrite bind_at by (by apply upd_at). erewrite bind_at by (apply upd_at; cbn [outs set_outs]; by apply list_lookup_insert_eq).
  cbn [outs set_outs]. rewrite Hsig, list_insert_insert_eq.
  erewrite bind_at by (by apply keyset_at). erewrite bind_at by (by apply fee_at). erewrite bind_at by done. rewrite Hw.
  erewrite bind_at by done. cbn [caches the_view].
  destruct (propose_answered i (set_proposal None (set_payment_hash (payment_hash_of o p) o))
    (spend_htlc_success (to_outpoint o) (to_sat o) (success_fee_found c) (stub_id (to_htlc o)) (cv_num v) sig p w (htlc_tx_wscript ks LOCAL))
    OUR_HTLC_SUCCESS_TX (<[i := set_proposal None (set_payment_hash (payment_hash_of o p) o)]> os) mi q wit msgs st v c cn sp) as [k Ek];
    [by apply list_lookup_insert_eq|].
  exists k. unfold payment_hash_of in Ek at 1. rewrite Ek, list_insert_insert_eq. by destruct o.
Qed.

(** The claim of an HTLC of their commitment. *)
Lemma claim_theirs i o w p wit msgs os mi q st v c cn sp :
  os !! i = Some o -> to_remote_htlc_sig o = None -> to_wscript o = Some w ->
  exists k, claim_with_preimage i p (mk_onchaind os mi q (onchaind_spend_created true wit :: msgs) st v c cn sp)
    = Ok tt (mk_onchaind (<[i := claimed o p wit k THEIR_HTLC_FULFILL_TO_US]> os) mi q msgs
        (st ++ [onchaind_spend (spend_fulfill (to_outpoint o) (to_sat o) (stub_id (to_htlc o)) (cv_point v) p w)]) v c cn sp).
Proof.
  intros Ho Hsig Hw. pose proof (lookup_lt_Some _ _ _ Ho) as Hl. unfold claim_with_preimage.
  erewrite bind_at by (by apply output_at). rewrite Hcov, Hsym. cbn [andb].
  erewrite bind_at by (by apply upd_at). erewrite bind_at by (apply upd_at; cbn [outs set_outs]; by apply list_lookup_insert_eq).
  cbn [outs set_outs]. rewrite Hsig, list_insert_insert_eq.
  erewrite bind_at by done. rewrite Hw. erewrite bind_at by done. cbn [the_view].
  destruct (propose_answered i (set_proposal None (set_payment_hash (payment_hash_of o p) o))
    (spend_fulfill (to_outpoint o) (to_sat o) (stub_id (to_htlc o)) (cv_point v) p w)
    THEIR_HTLC_FULFILL_TO_US (<[i := set_proposal None (set_payment_hash (payment_hash_of o p) o)]> os) mi q wit msgs st v c cn sp) as [k Ek];
    [by apply list_lookup_insert_eq|].
  exists k. unfold payment_hash_of in Ek at 1. rewrite Ek, list_insert_insert_eq. by destruct o.
Qed.
End Plain.

(** A resolved output that is spent makes no difference. *)
Lemma spent_resolved tx n h i o r d : outs d !! i = Some o -> to_resolved o = Some r -> spends tx n o = true -> only (spends tx n) i (outs d) ->
  handle_message (onchaind_spent tx n h) d = Ok tt (set_sent (sent d ++ [onchaind_spent_reply true]) d).
Proof.
  intros Ho Hr Hs Hon. cbn [handle_message]. unfold handle_onchaind_spent, mbind, daemon_bind. rewrite (handle_spent_at _ _ _ i o) by done.
  cbn [outputs_spent]. erewrite bind_at by (by apply output_at). unfold spends in Hs. destruct (tp_inputs tx !! n) as [input|] eqn:Ei; [|done].
  erewrite bind_at by done. rewrite Hs, Hr. cbn [negb]. rewrite spent_rest; [done|by rewrite Ei|done|]. exists []. by rewrite app_nil_r.
Qed.

Lemma claimed_outpoint o p wit k t : to_outpoint (claimed o p wit k t) = to_outpoint o.
Proof. by destruct o. Qed.
Lemma only_claimed tx n i o p wit k t os : os !! i = Some o -> only (spends tx n) i os -> only (spends tx n) i (<[i := claimed o p wit k t]> os).
Proof.
  intros Ho Hon j x Hj Hx. destruct (decide (i = j)) as [|Hne]; [done|]. rewrite list_lookup_insert_ne in Hj by done. by eapply Hon.
Qed.

(** C27. A preimage that comes after its HTLC was ignored is used in vain: when
    an HTLC of our own commitment was resolved by ignoring it, because it had
    timed out, and lightningd learns the preimage after all, onchaind asks for
    the HTLC-success transaction, as its comment says it should; but the output
    stays resolved, so when that transaction, or any other, spends it, onchaind
    only answers that it was interesting.  It tracks nothing new: the delayed
    output of our own transaction is never swept. *)
Theorem late_preimage_not_swept i o r sig w ks p wit msgs (d : onchaind) :
  option_seq_taproot_covenant = false -> option_seq_symmetric = false ->
  outs d !! i = Some o -> claims p o = true -> to_resolved o = Some r -> resolved_type r = SELF ->
  to_remote_htlc_sig o = Some sig -> to_wscript o = Some w -> cv_keyset (the_view d) = Some ks ->
  amount_sat_eq (success_fee_found (caches d)) UNSET_FEE = false ->
  only (claims p) i (outs d) -> inbox d = onchaind_spend_created true wit :: msgs ->
  exists d', handle_message (onchaind_known_preimage p) d = Ok tt d'
    /\ sent d' = sent d ++ [onchaind_spend (spend_htlc_success (to_outpoint o) (to_sat o) (success_fee_found (caches d))
                                             (stub_id (to_htlc o)) (cv_num (the_view d)) sig p w (htlc_tx_wscript ks LOCAL))]
    /\ forall tx n h, spends tx n o = true -> only (spends tx n) i (outs d) ->
         handle_message (onchaind_spent tx n h) d' = Ok tt (set_sent (sent d' ++ [onchaind_spent_reply true]) d').
Proof.
  intros Hcov Hsym Ho Hc Hr Hself Hsig Hw Hks Hfee Hon Hbox. pose proof (lookup_lt_Some _ _ _ Ho) as Hl.
  destruct d as [os mi q ib st v c cn sp]. cbn [outs the_view caches inbox sent] in *. subst ib.
  destruct (claim_ours Hcov Hsym i o sig ks w p wit msgs os mi q st v c cn sp) as [k Ek]; [done..|].
  eexists. split_and!.
  - cbn [handle_message]. apply (handle_preimage_one p i o); [done..| |exact Ek|by eexists]. by rewrite Hr.
  - done.
  - intros tx n h Hs Hons. apply (spent_resolved tx n h i (claimed o p wit k OUR_HTLC_SUCCESS_TX) r); cbn [outs].
    + by apply list_lookup_insert_eq.
    + by destruct o.
    + unfold spends in *. by rewrite claimed_outpoint.
    + by apply only_claimed.
Qed.

(** ** A revoked commitment *)

(** The transaction spends the output at input [n], with this witness. *)
Definition spent_with (tx : tx_parts) (n : nat) (o : tracked_output) (stack : list (list Z)) : Prop :=
  spends tx n o = true /\ exists q, which_input_spends (tp_inputs tx) (to_outpoint o) = Some (mk_part_input (to_outpoint o) q (Some stack)).

Lemma proposal_met tx n i o w k t stack d : outs d !! i = Some o -> to_proposal o = Some (mk_proposal (Some w) k t) -> spent_with tx n o stack ->
  resolved_by_proposal i tx d
    = if onchain_witness_element_matches w stack then Ok true (set_outs (<[i := set_resolved (mk_resolution (tp_txid tx) 0 t) o]> (outs d)) d)
      else Ok false d.
Proof.
  intros Ho Hp (_ & q & Hw). unfold resolved_by_proposal. erewrite bind_at by (by apply output_at). rewrite Hp, Hw.
  destruct (onchain_witness_element_matches w stack); [|done]. unfold resolve_as. by erewrite bind_at by (by apply upd_at).
Qed.

(** How the search for the spent output begins at an unresolved HTLC. *)
Lemma spent_at_htlc tx n h i o d : outs d !! i = Some o -> spends tx n o = true -> only (spends tx n) i (outs d) -> to_resolved o = None ->
  to_output_type o = THEIR_HTLC -> to_sym_lane_funding o = false ->
  output_spent tx n h d
    = (by_us ← resolved_by_proposal i tx;
       if (by_us : bool) then _ ← spent_by_us i tx n h; mret true
       else _ ← spent_by_other i tx n h; outputs_spent tx n h (seq (S i) (length (outs d) - S i)) true) d.
Proof.
  intros Ho Hs Hon Hr Ht Hlane. rewrite (handle_spent_at _ _ _ i o) by done. cbn [outputs_spent].
  erewrite bind_at by (by apply output_at). unfold spends in Hs. destruct (tp_inputs tx !! n) as [input|] eqn:Ei; [|done].
  erewrite bind_at by done. by rewrite Hs, Hr, Ht, Hlane.
Qed.

(** Steps that only write to lightningd. *)
Definition writes (m : daemon unit) : Prop := forall d, exists l, m d = Ok tt (set_sent (sent d ++ l) d).
Lemma writes_ret : writes (mret tt).
Proof. intros []. exists []. cbn. by rewrite app_nil_r. Qed.
Lemma writes_send x : writes (send x).
Proof. intros []. by exists [x]. Qed.
Lemma writes_bind m k : writes m -> writes k -> writes (_ ← m; k).
Proof.
  intros Hm Hk d. destruct (Hm d) as [l El]. destruct (Hk (set_sent (sent d ++ l) d)) as [l' El']. exists (l ++ l').
  rewrite (bind_at _ _ _ _ _ El), El'. destruct d. cbn. by rewrite app_assoc.
Qed.
Lemma writes_when b m : writes m -> writes (when b m).
Proof. intros Hm. destruct b; [done|apply writes_ret]. Qed.
Lemma writes_movements o r h txid msat : to_resolved o = Some r -> amount_sat_to_msat (to_sat o) = Some msat -> writes (record_coin_movements o h txid).
Proof.
  intros Hr Hm. unfold record_coin_movements. rewrite Hr, Hm.
  intros d. erewrite bind_at by done. revert d. repeat (apply writes_bind; [apply writes_when|]); try apply writes_when;
    try apply writes_send; try (destruct (to_output_type o); try apply writes_ret; try apply writes_send; by apply writes_bind; apply writes_send).
Qed.

(** Our penalty is recognised while it is what was proposed. *)
Lemma penalty_recognised tx n h i o w k stack msat d :
  outs d !! i = Some o -> spent_with tx n o stack -> only (spends tx n) i (outs d) -> to_resolved o = None ->
  to_output_type o = THEIR_HTLC -> to_sym_lane_funding o = false -> to_proposal o = Some (mk_proposal (Some w) k OUR_PENALTY_TX) ->
  onchain_witness_element_matches w stack = true -> amount_sat_to_msat (to_sat o) = Some msat ->
  exists d', handle_message (onchaind_spent tx n h) d = Ok tt d'
    /\ outs d' = <[i := set_resolved (mk_resolution (tp_txid tx) 0 OUR_PENALTY_TX) o]> (outs d).
Proof.
  intros Ho Hs Hon Hr Ht Hlane Hp Hm Hmsat. pose proof (lookup_lt_Some _ _ _ Ho) as Hl. cbn [handle_message].
  set (o' := set_resolved (mk_resolution (tp_txid tx) 0 OUR_PENALTY_TX) o). set (d1 := set_outs (<[i := o']> (outs d)) d).
  assert (Ho1 : outs d1 !! i = Some o') by (destruct d; cbn; by apply list_lookup_insert_eq).
  assert (Ht' : to_output_type o' = THEIR_HTLC) by by destruct o. assert (Hm' : amount_sat_to_msat (to_sat o') = Some msat) by by destruct o.
  assert (Hr' : to_resolved o' = Some (mk_resolution (tp_txid tx) 0 OUR_PENALTY_TX)) by by destruct o.
  destruct (writes_movements o' _ h (tp_txid tx) msat Hr' Hm' d1) as [l El].
  eexists. split.
  - unfold handle_onchaind_spent. erewrite bind_at; [reflexivity|]. rewrite (spent_at_htlc tx n h i o) by (done || apply Hs).
    rewrite (bind_at _ _ _ true d1); [|by rewrite (proposal_met tx n i o w k OUR_PENALTY_TX stack), Hm].
    erewrite bind_at; [reflexivity|]. unfold spent_by_us. erewrite bind_at by (by apply output_at). rewrite Ht', Hr'.
    erewrite bind_at by done. erewrite bind_at by done. erewrite bind_at by done. exact El.
  - by destruct d.
Qed.

(** A spend that is not the proposed one is taken for the HTLC-timeout. *)
Lemma steal_runs tx n h i o t ks a wit' msgs os mi q st v c cn sp :
  os !! i = Some o -> cv_keyset v = Some ks -> (forall d, amount_at tx n d = Ok (mk_sat (asset_value a)) d) ->
  let op := mk_outpoint (tp_txid tx) (Z.of_nat n) in
  exists mine o', to_outpoint mine = op /\ to_output_type mine = DELAYED_CHEAT_OUTPUT_TO_THEM
    /\ steal_htlc_tx i tx h t op (mk_onchaind os mi q (onchaind_spend_created true wit' :: msgs) st v c cn sp)
      = Ok tt (mk_onchaind (<[i := o']> os ++ [mine]) mi q msgs
          (st ++ [onchaind_spend (spend_penalty op (mk_sat (asset_value a)) (cv_secret v) [1] (htlc_tx_wscript ks REMOTE))]) v c cn sp).
Proof.
  intros Ho Hks Ha op. pose proof (lookup_lt_Some _ _ _ Ho) as Hl. unfold steal_htlc_tx.
  unfold new_tracked_output, resolved_by_other, resolve_as.
  set (new := mk_tracked t op h 0 (mk_sat (asset_value a)) DELAYED_CHEAT_OUTPUT_TO_THEM (default w_junk_htlc (Some (to_htlc o)))
    (Some (htlc_tx_wscript ks REMOTE)) None None None w_junk_hash None (mk_sat 0) 0 (repeat 0 32) None 0 false).
  set (o' := set_resolved (mk_resolution (tp_txid tx) 0 t) o).
  assert (Hnew : (<[i := o']> os ++ [new]) !! length os = Some new).
  { rewrite lookup_app_r; rewrite length_insert; [by rewrite Nat.sub_diag|lia]. }
  destruct (propose_answered (length os) new (spend_penalty op (mk_sat (asset_value a)) (cv_secret v) [1] (htlc_tx_wscript ks REMOTE)) OUR_PENALTY_TX
    (<[i := o']> os ++ [new]) mi q wit' msgs st v c cn sp Hnew) as [k Ek].
  eexists (set_proposal (Some (mk_proposal (Some wit') k OUR_PENALTY_TX)) new), o'. split_and!; [done..|].
  erewrite bind_at by (by apply keyset_at). change (outnum op) with (Z.of_nat n). rewrite Nat2Z.id. erewrite bind_at by apply Ha.
  erewrite bind_at by (by apply output_at). erewrite (bind_at _ _ _ (length os)) by done. cbn [outs set_outs].
  erewrite bind_at by (apply upd_at; cbn [outs]; by apply lookup_app_l_Some). cbn [outs set_outs]. erewrite bind_at by done.
  fold new o'. rewrite insert_app_l by done. etrans; [exact Ek|]. do 2 f_equal.
  rewrite insert_app_r_alt by (rewrite length_insert; lia). by rewrite length_insert, Nat.sub_diag.
Qed.

Lemma taken_for_timeout tx n h i o w k t ks out a stack wit' msgs os mi q st v c cn sp :
  option_seq_taproot_covenant = false -> os !! i = Some o -> spent_with tx n o stack -> only (spends tx n) i os -> to_resolved o = None ->
  to_output_type o = THEIR_HTLC -> to_tx_type o = THEIR_REVOKED_UNILATERAL -> to_sym_lane_funding o = false ->
  to_proposal o = Some (mk_proposal (Some w) k t) -> onchain_witness_element_matches w stack = false -> cv_keyset v = Some ks ->
  tp_outputs tx !! n = Some (Some out) -> holds out a ->
  let op := mk_outpoint (tp_txid tx) (Z.of_nat n) in
  exists d2 mine, handle_message (onchaind_spent tx n h) (mk_onchaind os mi q (onchaind_spend_created true wit' :: msgs) st v c cn sp) = Ok tt d2
    /\ last (outs d2) = Some mine /\ to_outpoint mine = op /\ to_output_type mine = DELAYED_CHEAT_OUTPUT_TO_THEM
    /\ onchaind_spend (spend_penalty op (mk_sat (asset_value a)) (cv_secret v) [1] (htlc_tx_wscript ks REMOTE)) ∈ sent d2.
Proof.
  intros Hcov Ho Hs Hon Hr Ht Htx Hlane Hp Hm Hks Hout Ha op.
  assert (Hamt : forall d, amount_at tx n d = Ok (mk_sat (asset_value a)) d).
  { intros d. destruct (ends_amount_at tx n out a d (fun x d' => x = mk_sat (asset_value a) /\ d' = d) Hout Ha) as (x & d' & -> & -> & ->); done. }
  set (d := mk_onchaind _ _ _ _ _ _ _ _ _).
  assert (exists d5 o' mine, spent_by_other i tx n h d = Ok tt d5 /\ outs d5 = <[i := o']> os ++ [mine] /\ to_outpoint mine = op
    /\ to_output_type mine = DELAYED_CHEAT_OUTPUT_TO_THEM
    /\ onchaind_spend (spend_penalty op (mk_sat (asset_value a)) (cv_secret v) [1] (htlc_tx_wscript ks REMOTE)) ∈ sent d5)
    as (d5 & o' & mine & E5 & Eo5 & Hop & Hty & Hsent).
  { unfold spent_by_other. erewrite bind_at by (by apply output_at). rewrite Ht, Htx, Hcov, bool_decide_true by done.
    unfold record_external_deposit, record_external_output, record_external_spend, send_coin_mvt.
    erewrite bind_at by done. erewrite bind_at by done. cbn [d set_sent sent]. fold op.
    edestruct (steal_runs tx n h i o THEIR_HTLC_TIMEOUT_TO_THEM ks a wit' msgs os mi q) as (mine & o' & Hop & Hty & Est); [done..|].
    eexists _, o', mine. split; [exact Est|]. split_and!; [done..|]. cbn [sent]. apply elem_of_app. right. by left. }
  exists (set_sent (sent d5 ++ [onchaind_spent_reply true]) d5), mine. split.
  - cbn [handle_message]. unfold handle_onchaind_spent. erewrite bind_at; [reflexivity|].
    rewrite (spent_at_htlc tx n h i o) by (done || apply Hs). erewrite bind_at by (by erewrite proposal_met, Hm). cbn iota.
    rewrite (bind_at _ _ _ _ _ E5). cbn [d outs]. rewrite <- (length_insert os i o'). apply spent_rest; [..|by eexists].
    + destruct Hs as [Hs _]. unfold spends in Hs. by destruct (tp_inputs tx !! n).
    + intros j x Hj Hx. destruct (decide (i = j)); [done|]. rewrite list_lookup_insert_ne in Hj by done. by eapply Hon.
  - destruct d5. cbn in *. rewrite Eo5. split_and!; [by apply last_snoc|done..|]. apply elem_of_app. by left.
Qed.

(** C28. Our own penalty can be taken for the peer's: an HTLC of a revoked
    commitment has been asked a penalty for, and a transaction with the
    witness lightningd gave for it spends the HTLC; onchaind then has the HTLC
    resolved by our penalty.  But if lightningd learnt the preimage of the HTLC
    before, its claim has replaced the penalty that was proposed, and the same
    transaction is taken for the peer's HTLC-timeout: onchaind tracks its
    output, which is ours, as one the peer cheated us with, and asks for a
    penalty spend of it with the script of the peer's second stage.  The
    covenant channels keep the penalty, as their comment says. *)
Theorem own_penalty_mistaken tx n h i o w w' k ks out a stack msat p wit wit' msgs (d : onchaind) :
  option_seq_taproot_covenant = false -> option_seq_symmetric = false ->
  outs d !! i = Some o -> claims p o = true -> to_tx_type o = THEIR_REVOKED_UNILATERAL -> to_resolved o = None ->
  to_remote_htlc_sig o = None -> to_wscript o = Some w' -> to_sym_lane_funding o = false -> cv_keyset (the_view d) = Some ks ->
  to_proposal o = Some (mk_proposal (Some w) k OUR_PENALTY_TX) -> amount_sat_to_msat (to_sat o) = Some msat ->
  only (claims p) i (outs d) -> only (spends tx n) i (outs d) -> spent_with tx n o stack ->
  onchain_witness_element_matches w stack = true -> onchain_witness_element_matches wit stack = false ->
  tp_outputs tx !! n = Some (Some out) -> holds out a ->
  inbox d = onchaind_spend_created true wit :: onchaind_spend_created true wit' :: msgs ->
  (exists d', handle_message (onchaind_spent tx n h) d = Ok tt d'
     /\ outs d' = <[i := set_resolved (mk_resolution (tp_txid tx) 0 OUR_PENALTY_TX) o]> (outs d))
  /\ exists d1 d2 mine, handle_message (onchaind_known_preimage p) d = Ok tt d1 /\ handle_message (onchaind_spent tx n h) d1 = Ok tt d2
     /\ last (outs d2) = Some mine /\ to_outpoint mine = mk_outpoint (tp_txid tx) (Z.of_nat n)
     /\ to_output_type mine = DELAYED_CHEAT_OUTPUT_TO_THEM
     /\ onchaind_spend (spend_penalty (mk_outpoint (tp_txid tx) (Z.of_nat n)) (mk_sat (asset_value a)) (cv_secret (the_view d)) [1]
                          (htlc_tx_wscript ks REMOTE)) ∈ sent d2.
Proof.
  intros Hcov Hsym Ho Hc Htx Hr Hsig Hw Hlane Hks Hp Hmsat Honp Hons Hs Hm Hn Hout Ha Hbox. pose proof (lookup_lt_Some _ _ _ Ho) as Hl.
  assert (Ht : to_output_type o = THEIR_HTLC) by (unfold claims in Hc; apply andb_prop in Hc as [Hc _]; by apply bool_decide_eq_true in Hc).
  split; [by eapply penalty_recognised|]. destruct d as [os mi q ib st v c cn sp]. cbn [outs the_view caches inbox sent] in *. subst ib.
  destruct (claim_theirs Hcov Hsym i o w' p wit (onchaind_spend_created true wit' :: msgs) os mi q st v c cn sp) as [k' Ek]; [done..|].
  destruct (taken_for_timeout tx n h i (claimed o p wit k' THEIR_HTLC_FULFILL_TO_US) wit k' THEIR_HTLC_FULFILL_TO_US ks out a stack wit' msgs
    (<[i := claimed o p wit k' THEIR_HTLC_FULFILL_TO_US]> os) mi q
    (st ++ [onchaind_spend (spend_fulfill (to_outpoint o) (to_sat o) (stub_id (to_htlc o)) (cv_point v) p w')]) v c cn sp)
    as (d2 & mine & E2 & Hmine); [done|by apply list_lookup_insert_eq| |by apply only_claimed|by destruct o..|done|done|done|done|].
  { destruct Hs as (Hs & q' & Hq). split; unfold spends in *; [by rewrite claimed_outpoint|]. exists q'. by rewrite claimed_outpoint. }
  eexists _, d2, mine. split; [|by split].
  cbn [handle_message]. apply (handle_preimage_one p i o); [done..| |exact Ek|by eexists]. by rewrite Hr.
Qed.
End Late.
