(* ===== verification/SignerExample.v ===== *)
(** * Signatures to evaluate

    The side that opened the channel of [CommitExample] signs the commitment of
    the other, with the group and the signatures of the examples of [Keys] and
    [Signature]. *)

From stdpp Require Import list strings.
From S2P Require Import Prelude Chainparams Amount HtlcState Features Script Shachain Keys Tapscript ChannelState Tx SymScripts SymState Channel SymChannel CommitTx Signature PeerState Peer Signer CommitAgree CommitMirror Example CommitExample Penalty SignerFacts.
Import Toy ToySig.
Local Open Scope Z_scope.

(** The secrets of the opener: those of [their_keys]. *)
Definition secret (n : Z) : list Z := n :: repeat 0 31.
Definition ex_hkdf (size : nat) (salt k info : list Z) : outcome (list Z) :=
  Ret (if (size =? 192)%nat
       then secret 11 ++ secret 30 ++ secret 32 ++ secret 31 ++ secret 33 ++ secret 99
       else repeat 0 size).
Definition ex_value (_ : Z) : option (list Z) := None.
Definition ex_elements_hash (_ : bitcoin_tx) (_ : nat) (_ _ : list Z) (_ : Z) : option (list Z) := None.
Definition ex_hash (tx : bitcoin_tx) (_ : nat) (script : list Z) (value type : Z) : option (list Z) :=
  Some [Z.of_nat (length script); value mod 256; type; Z.of_nat (length (tx_outputs tx))].
Definition no_signature : @ecdsa_signature ecdsa := [].

Abbreviation ex_sign :=
  (sign_remote_commitment Example.net sha rip no_len no_bytes false 4 ex_value ex_elements_hash ex_hash ex_hkdf sort_by
     no_signature [] [] 0 their_keys (mk_outpoint [9] 0) (mk_sat 1000000) no_junk peer_bound 2 (key 50)).
Abbreviation ex_check sigs :=
  (check_local_commitment Example.net sha rip no_len no_bytes ex_value ex_elements_hash ex_hash ex_hkdf sort_by [] [] 0
     our_keys (mk_outpoint [9] 0) (mk_sat 1000000) no_junk bound 2 (key 50) sigs).

Definition ex_signed : commit_sigs * option penalty_base := Eval vm_compute in
  match ex_sign with Ret r => r | Crash => (mk_commit_sigs (H0 := ecdsa) [] [] None, None) end.
Definition ex_next : list Z := Eval vm_compute in some (ret (handle_validate_commitment_tx sha ex_hkdf [] [] 0 2)).

Lemma ex_holds_keys : holds_keys ex_hkdf [] [] 0 their_keys.
Proof.
  exists (repeat 0 32), (keys_of_bytes (ret (ex_hkdf 192 [] [] []))). by vm_compute.
Qed.

Lemma signed_commitment_accepted_witness :
  length (cs_htlcs (fst ex_signed)) = 1%nat /\ ex_check (fst ex_signed) = Ret true.
Proof.
  split; [reflexivity|].
  apply (signed_commitment_accepted Example.net sha rip no_len no_bytes false 4 ex_value ex_elements_hash ex_hash ex_hkdf
    (mk_outpoint [9] 0) (mk_sat 1000000) sort_by sort_by no_signature [] [] [] [] 0 0 their_keys our_keys
    no_junk no_junk peer_bound bound 2 (key 50) ex_next (fst ex_signed) (snd ex_signed)).
  - by constructor.
  - by repeat split.
  - apply ex_holds_keys.
  - reflexivity.
  - apply ex_data_ok; by vm_compute.
  - apply ex_data_ok; by vm_compute.
  - intros _. apply ex_distinct; by vm_compute.
  - vm_compute. reflexivity.
  - vm_compute. reflexivity.
Defined.

(** What the opener keeps of that commitment. *)
Abbreviation ex_peer_txs :=
  (channel_txs Example.net sha rip no_len no_bytes (mk_outpoint [9] 0) (mk_sat 1000000) their_keys
     peer_bound (key 50) 2 REMOTE 0 0 (funding_pubkey their_keys) true no_junk).
Definition ex_peer_built : commitment * list (option bitcoin_tx) := Eval vm_compute in
  match ex_peer_txs with
  | Ret (Some r) => r
  | _ => (mk_commitment (mk_tx 0 0 [] [] 0 []) [] (mk_sides None None) 0, [])
  end.
Definition ex_peer_htlc : htlc := Eval vm_compute in default ex_htlc (head (committed (gather_htlcs peer_bound REMOTE))).

