(* ===== verification/SymExample.v ===== *)
(** * Symmetric and covenant channels to evaluate

    A state of a symmetric channel with its trees and signatures, spent by the
    interpreter of [TapMachine], and two sides that settle and sign it; and the
    outputs of a covenant commitment with their spends: the inputs at which the
    theorems on these channels are instantiated. *)

From Stdlib Require Import Sorted.
From stdpp Require Import list strings.
From S2P Require Import Prelude Chainparams Amount HtlcState Wire FeeStates Features Script Keys Tapscript ChannelState Tx SymScripts Opening TcovScripts TapMachine SymSettle SymState SymSpend SymFactory TcovLeaves CreditLeaf TcovSpend Channel SymChannel CommitTx Signature PeerState Peer Signer CommitAgree CommitMirror Example CommitExample Penalty SignerFacts SymFacts SignerExample.
Import Toy ToySig.
Local Open Scope Z_scope.

(** A signature over the transaction: the key after a byte. *)
#[export] Instance signatures : TxSignatures := {| sig_ok _ sig key := bool_decide (sig = 1 :: key) |}.
#[export] Instance machine : Machine := interpreter sha rip.
#[export] Instance machine_ok : MachineLaws sha := interpreter_ok sha rip.
#[export] Instance machine_cov_ok : CovenantLaws sha rip := interpreter_cov_ok sha rip.
#[export] Instance tweak_ok : TweakLaws taproot.
Proof. intros k root der E. injection E as <-. by rewrite length_cons, (digest_length (f := sha)). Qed.
#[export] Instance taproot_ok : TaprootLaws secp taproot.
Proof.
  constructor. intros msg s sig k E Ek. cbn [schnorr_sign taproot] in E. rewrite Ek in E. injection E as <-.
  cbn [schnorr_verify taproot]. by apply bool_decide_eq_true.
Qed.

(** Insertion sorts. *)
Lemma insert_by_perm {A} (cmp : A -> A -> comparison) x l : insert_by cmp x l ≡ₚ x :: l.
Proof. induction l as [|y l IH]; [done|]. cbn [insert_by]. destruct (cmp x y); try done. rewrite IH. by constructor. Qed.
Lemma insert_by_sorted {A} (cmp : A -> A -> comparison) x l :
  (forall a b, cmp b a = CompOpp (cmp a b)) -> Sorted (fun a b => cmp a b <> Gt) l -> Sorted (fun a b => cmp a b <> Gt) (insert_by cmp x l).
Proof.
  intros Hanti Hs. induction l as [|y l IH]; [by repeat constructor|]. cbn [insert_by]. destruct (cmp x y) eqn:E;
    [constructor; [done|constructor; by rewrite E]..|]. apply Sorted_inv in Hs as [Hs Hy]. constructor; [by apply IH|].
  assert (cmp y x <> Gt) by (by rewrite Hanti, E). destruct l as [|z l]; [by constructor|]. cbn [insert_by].
  apply HdRel_inv in Hy. destruct (cmp x z); by constructor.
Qed.
#[export] Instance sort_by_ok {A} : Sorter (@sort_by A).
Proof.
  split.
  - intros cmp l. unfold sort_by. induction l as [|x l IH]; [done|]. cbn [foldr]. by rewrite insert_by_perm, IH.
  - intros cmp l Hanti _. unfold sort_by. induction l as [|x l IH]; [constructor|]. cbn [foldr]. by apply insert_by_sorted.
Qed.

(** ** A state and its spends *)

Definition sym_sc : sym_channel := mk_sym_channel (sha [1]) (key 30) (key 31) (1 :: repeat 7 32) 6 None.
Lemma sym_sc_ok : wf_sym_channel sym_sc.
Proof. by constructor; vm_compute. Qed.

Definition sym_outs : list (sym_output Empty_set) :=
  [mk_sym_output _ SYM_OUT_BALANCE LOCAL (mk_sat 600) (v0_spk (repeat 8 19 ++ [3])) None None 0;
   mk_sym_output _ SYM_OUT_HTLC REMOTE (mk_sat 400) (program_spk 1 (repeat 9 32)) None None 500].
Definition sym_ex_tree : sym_tree := Eval vm_compute in ret (sym_state_tree sha sym_sc 4 sym_outs None).
Lemma sym_ex_tree_ok : sym_state_tree sha sym_sc 4 sym_outs None = Ret sym_ex_tree.
Proof. vm_compute. reflexivity. Qed.
Definition sym_ex_msg : list Z := Eval vm_compute in ret (sym_upd_msg sha sym_sc sym_ex_tree).
Lemma sym_ex_msg_ok : sym_upd_msg sha sym_sc sym_ex_tree = Ret sym_ex_msg.
Proof. vm_compute. reflexivity. Qed.
Definition sig_of (k : Z) : list Z := pubkey_to_xonly (key k) ++ sym_ex_msg.

Definition coin (v : Z) (spk : list Z) : txo := mk_txo (1, repeat 7 32) (1, le_bytes 8 v) spk.
(** A transaction that moves the channel's thousand atoms to [spk]. *)
Definition move (spk : list Z) : spend := mk_spend 2 [coin 1000 [0]] [coin 1000 spk] 0 SYM_SEQUENCE 0.
Lemma move_ok spk : moves_to (move spk) spk.
Proof. by exists (coin 1000 [0]), (coin 1000 spk). Qed.
Lemma ex_both_signed : both_signed sym_sc sym_ex_msg (sig_of 30) (sig_of 31).
Proof. by vm_compute. Qed.

Lemma upd_leaf_spends_witness :
  unlocks (move (sym_tree_spk sym_ex_tree)) (sym_leaf_upd sym_sc 3) (upd_stack (le8s 4) (st_rest sym_ex_tree) (sig_of 30) (sig_of 31))
  /\ ~ unlocks (move (sym_tree_spk sym_ex_tree)) (sym_leaf_upd sym_sc 4) (upd_stack (le8s 4) (st_rest sym_ex_tree) (sig_of 30) (sig_of 31)).
Proof.
  split.
  - apply (upd_leaf_spends sha (move (sym_tree_spk sym_ex_tree)) ltac:(cbn; lia) sym_sc 3); [apply sym_sc_ok|lia|]. split.
    + by intros.
    + by vm_compute.
    + exists (coin 1000 [0]), (coin 1000 (sym_tree_spk sym_ex_tree)), (sym_tree_program sym_ex_tree). repeat split; try by vm_compute.
      apply Nat.leb_le. by vm_compute.
  - intros Hu. apply (upd_leaf_spends sha (move (sym_tree_spk sym_ex_tree)) ltac:(cbn; lia) sym_sc 4) in Hu; [|apply sym_sc_ok|lia].
    destruct Hu as [_ [_ Hn] _]. by vm_compute in Hn.
Defined.

Lemma update_replaces_older_witness :
  unlocks (move (sym_tree_spk sym_ex_tree)) (sym_leaf_upd sym_sc (-1))
    (stack_of (sym_update_witness (sig_of 30) (sig_of 31) sym_ex_tree [1] [2])).
Proof.
  apply (update_replaces_older sha (move (sym_tree_spk sym_ex_tree)) ltac:(cbn; lia) sym_sc sym_sc_ok 4 sym_outs None sym_ex_tree sym_ex_msg);
    [lia|lia|apply sym_ex_tree_ok|apply sym_ex_msg_ok|apply ex_both_signed|done|apply move_ok|lia].
Defined.

(** The channel goes to a program of 31 bytes. *)
Lemma update_redirected_witness :
  length (take 31 (sym_tree_program sym_ex_tree)) = 31%nat
  /\ unlocks (move (program_spk 1 (take 31 (sym_tree_program sym_ex_tree)))) (sym_leaf_upd sym_sc (-1))
       (upd_stack (le8s 4) (drop 31 (sym_tree_program sym_ex_tree) ++ st_rest sym_ex_tree) (sig_of 30) (sig_of 31)).
Proof.
  split; [by vm_compute|].
  apply (update_redirected sha (move (program_spk 1 (take 31 (sym_tree_program sym_ex_tree)))) ltac:(cbn; lia) sym_sc sym_sc_ok 4 sym_outs None
    sym_ex_tree sym_ex_msg (sig_of 30) (sig_of 31) (-1) (take 31 (sym_tree_program sym_ex_tree)));
    [lia|lia|apply sym_ex_tree_ok|apply sym_ex_msg_ok|apply ex_both_signed|done|by vm_compute|cbn; lia|apply move_ok|lia].
Defined.

(** The settlement, after six blocks. *)
Definition settle_of (a b : list Z) : spend :=
  mk_spend 2 [coin 1000 (sym_tree_spk sym_ex_tree)] [coin 600 a; coin 400 b; coin 5 []] 0 6 0.
Definition ex_settle : list Z := Eval vm_compute in ret (sym_leaf_settle sha sym_sc sym_outs).
Lemma ex_settle_ok : sym_leaf_settle sha sym_sc sym_outs = Ret ex_settle.
Proof. vm_compute. reflexivity. Qed.
Definition ex_digest : list Z := Eval vm_compute in ret (sym_settle_digest sha sym_sc sym_outs).
Lemma ex_digest_ok : sym_settle_digest sha sym_sc sym_outs = Ret ex_digest.
Proof. vm_compute. reflexivity. Qed.
Abbreviation paid_right := (settle_of (v0_spk (repeat 8 19 ++ [3])) (program_spk 1 (repeat 9 32))).
Lemma settle_of_ok a b : Forall wf_txo (sp_outputs (settle_of a b)).
Proof. repeat constructor; cbn; lia. Qed.

Lemma settle_leaf_spends_witness :
  unlocks paid_right ex_settle [] /\ ~ unlocks (settle_of (v0_spk (repeat 8 20)) (program_spk 1 (repeat 9 32))) ex_settle [].
Proof.
  split.
  - apply (settle_leaf_spends sha paid_right (settle_of_ok _ _) sym_sc sym_outs ex_settle ex_digest sym_sc_ok);
      [cbn; lia|cbn; lia|apply ex_settle_ok|apply ex_digest_ok|by vm_compute].
  - intros Hu. apply (settle_leaf_spends sha (settle_of (v0_spk (repeat 8 20)) (program_spk 1 (repeat 9 32))) (settle_of_ok _ _) sym_sc sym_outs
      ex_settle ex_digest sym_sc_ok) in Hu; [|cbn; lia|cbn; lia|apply ex_settle_ok|apply ex_digest_ok].
    destruct Hu as (_ & _ & Hd). by vm_compute in Hd.
Defined.

Lemma settlement_spends_witness : unlocks paid_right ex_settle [].
Proof.
  apply (settlement_spends sha paid_right (settle_of_ok _ _) ltac:(cbn; lia) sym_sc sym_sc_ok sym_outs);
    [cbn; lia|by repeat constructor; apply Nat.leb_le|apply ex_settle_ok|by vm_compute|by repeat constructor].
Defined.

(** The balance goes to a program of version 3, the HTLC to one of version 0. *)
Lemma settlement_exchanged_witness :
  unlocks (settle_of (program_spk 3 (repeat 8 19)) (program_spk 1 (repeat 9 32))) ex_settle []
  /\ unlocks (settle_of (v0_spk (repeat 8 19 ++ [3])) (v0_spk (repeat 9 32 ++ [1]))) ex_settle [].
Proof.
  assert (Hr : unlocks paid_right ex_settle []) by (eexists; split; [vm_compute; reflexivity|reflexivity]). split.
  - destruct (settlement_exchanged sha paid_right (settle_of_ok _ _) ltac:(cbn; lia) sym_sc sym_sc_ok sym_outs ex_settle 0
      (coin 600 (v0_spk (repeat 8 19 ++ [3]))) 3 (repeat 8 19)) as [_ H]; [cbn; lia|apply ex_settle_ok|done|done|lia|cbn; lia|].
    exact (proj1 (H eq_refl) Hr).
  - destruct (settlement_exchanged sha paid_right (settle_of_ok _ _) ltac:(cbn; lia) sym_sc sym_sc_ok sym_outs ex_settle 1
      (coin 400 (program_spk 1 (repeat 9 32))) 1 (repeat 9 32)) as [H _]; [cbn; lia|apply ex_settle_ok|done|done|lia|cbn; lia|].
    exact (proj1 (H eq_refl) Hr).
Defined.

(** ** Settlements *)

Definition htlc_of (s : side) : sym_htlc unit := mk_sym_htlc _ s (mk_msat 400700) (repeat 5 20) 500 tt.
Definition bal (a b : Z) : sides amount_msat_t := mk_sides (mk_msat a) (mk_msat b).
Definition pts (a b : Z) : sides (list Z) := mk_sides (key a) (key b).
Abbreviation settle op p h b hs := (sym_settlement sha rip sort_by (mk_sat 1000) op p h b hs (mk_sat 100)).
Definition ex_outs : list (sym_output unit) := Eval vm_compute in
  match settle LOCAL (pts 1 2) (pts 3 4) (bal 400000 199300) [htlc_of LOCAL] with Ret (inr l) => l | _ => [] end.
Lemma ex_outs_ok : settle LOCAL (pts 1 2) (pts 3 4) (bal 400000 199300) [htlc_of LOCAL] = Ret (inr ex_outs).
Proof. vm_compute. reflexivity. Qed.
Lemma bal_ok a b : in_u64 a -> in_u64 b -> forall s, wf_msat (bal a b).[s].
Proof. by intros ? ? []. Qed.

Lemma settlement_exact_witness :
  length ex_outs = 3%nat /\ sum_with (fun o => satoshis (so_amount o)) ex_outs = 1000.
Proof.
  split; [reflexivity|].
  by destruct (settlement_exact sha rip sort_by (mk_sat 1000) LOCAL (pts 1 2) (pts 3 4) (bal 400000 199300) [htlc_of LOCAL] (mk_sat 100) ex_outs
    ltac:(cbn; lia) (bal_ok 400000 199300 ltac:(lia) ltac:(lia)) ltac:(repeat constructor; cbn; lia) ex_outs_ok).
Defined.

Lemma settlement_agrees_witness :
  exists outs', settle REMOTE (pts 2 1) (pts 4 3) (bal 199300 400000) [htlc_of REMOTE] = Ret (inr outs') /\ out_key <$> ex_outs = out_key <$> outs'.
Proof.
  destruct (settlement_agrees sha rip sort_by sort_by LOCAL REMOTE (mk_sat 1000) LOCAL REMOTE (pts 1 2) (pts 2 1) (pts 3 4) (pts 4 3)
    (bal 400000 199300) (bal 199300 400000) [htlc_of LOCAL] [htlc_of REMOTE] (mk_sat 100) ex_outs) as (outs' & E & Ek & _);
    [cbn; lia|apply bal_ok; lia|repeat constructor; cbn; lia|done|done|done|done|done|by vm_compute|apply ex_outs_ok|by exists outs'].
Defined.

(** Fifty atoms each, and a dust limit of a hundred. *)
Definition tied_outs : list (sym_output unit) := Eval vm_compute in
  match sym_settlement sha rip sort_by (mk_sat 100) LOCAL (pts 1 2) (pts 3 4) (bal 50000 50000) [] (mk_sat 100) with Ret (inr l) => l | _ => [] end.
Lemma tied_settlements_differ_witness :
  exists outs' : list (sym_output unit), sym_settlement sha rip sort_by (mk_sat 100) REMOTE (pts 2 1) (pts 4 3) (bal 50000 50000) [] (mk_sat 100) = Ret (inr outs')
    /\ out_key <$> tied_outs <> out_key <$> outs'.
Proof.
  apply (tied_settlements_differ sha rip sort_by sort_by (mk_sat 100) LOCAL REMOTE (pts 1 2) (pts 2 1) (pts 3 4) (pts 4 3)
    (bal 50000 50000) (bal 50000 50000) [] [] (mk_sat 100) tied_outs);
    [cbn; lia|apply bal_ok; lia|constructor|done|done|done|done|done|by vm_compute|by vm_compute|by vm_compute].
Defined.

Definition ex_sym_state : sym_state :=
  mk_sym_state REMOTE 2 5 [mk_sym_state_out (mk_sat 600) [0; 1; 2] None; mk_sym_state_out (mk_sat 7) [] (Some (1 :: repeat 7 32))]
    (mk_sides true false) (mk_sides (repeat 3 64) (repeat 0 64)).
Lemma sym_state_round_trip_witness : reads fromwire_sym_state (Some ex_sym_state) (towire_sym_state ex_sym_state).
Proof.
  apply (sym_state_round_trip ex_sym_state). split; [cbn; lia|]. split; [cbn; lia|]. split; [cbn; lia|]. split.
  - repeat constructor; cbn; lia.
  - by intros [].
Defined.

Definition ex_tap : tap_tree2 := Eval vm_compute in ret (tap_tree2_finish sha [[1]; [2]; [3]] nums_der).
Lemma control_block_opens_witness :
  exists cb, tap_tree2_control_block ex_tap 1 = Ret cb /\ opens sha bip341_tweak (tap_tree2_program ex_tap) [2] cb.
Proof.
  eexists. split; [reflexivity|].
  apply (control_block_opens sha [[1]; [2]; [3]] nums_der ex_tap 1); [done|vm_compute; reflexivity|vm_compute; reflexivity].
Defined.

(** ** A commitment of a symmetric channel *)

(** The channel of [Example] and the opener's, of the symmetric type. *)
Abbreviation sym_start who msat :=
  (init_channel seqnet [] (mk_outpoint [9] 0) 3 (Some (new_height_states who (Some 100))) 0
    (mk_sat 1000000) (mk_msat msat) (new_fee_states who (Some 253)) conf conf 0
    channel_type_seq_symmetric true who sequentia_regtest_fee_asset [] [] None None []).
Definition sym_bound : channel := Eval vm_compute in
  ret (c ← sym_start REMOTE 600000000;
       r ← channel_add_lane_htlc seqnet c REMOTE 0 (mk_msat 50000000) 500 [7] [] None None false 0;
       '(_, _, c) ← channel_rcvd_commit (add_chan r);
       '(_, c) ← channel_sending_revoke_and_ack c;
       '(_, _, c) ← channel_sending_commit c;
       '(_, _, c) ← channel_rcvd_revoke_and_ack c;
       Ret c).
Definition sym_peer_bound : channel := Eval vm_compute in
  ret (c ← sym_start LOCAL 400000000;
       r ← channel_add_lane_htlc seqnet c LOCAL 0 (mk_msat 50000000) 500 [7] [] None None false 0;
       '(_, _, c) ← channel_sending_commit (add_chan r);
       '(_, _, c) ← channel_rcvd_revoke_and_ack c;
       '(_, _, c) ← channel_rcvd_commit c;
       '(_, c) ← channel_sending_revoke_and_ack c;
       Ret c).
Definition sym_value (v : Z) : option (list Z) := Some (1 :: le_bytes 8 v).
Definition sym_el_hash (tx : bitcoin_tx) (_ : nat) (script value : list Z) (type : Z) : option (list Z) :=
  Some [Z.of_nat (length script); Z.of_nat (length value); type; Z.of_nat (length (tx_outputs tx))].
Abbreviation sym_sign_ex :=
  (sign_remote_commitment seqnet sha rip no_len no_bytes false 4 sym_value sym_el_hash ex_hash ex_hkdf sort_by
     no_signature [] [] 0 their_keys (mk_outpoint [9] 0) (mk_sat 1000000) no_junk sym_peer_bound 2 (key 50)).
Definition sym_signed : commit_sigs * option penalty_base := Eval vm_compute in
  match sym_sign_ex with Ret r => r | Crash => (mk_commit_sigs (H0 := ecdsa) [] [] None, None) end.
Definition sym_keyset : keyset := Eval vm_compute in
  some (derive_keyset sha (key 50) (chan_basepoints our_keys).[LOCAL] (chan_basepoints our_keys).[REMOTE] true).
Definition sym_htlc_key : list Z := Eval vm_compute in some (derive_simple_key sha (bp_htlc (chan_basepoints our_keys).[REMOTE]) (key 50)).

Lemma sym_holds_update_key : holds_update_key their_keys ex_hkdf [] [] 0.
Proof. exists (repeat 0 32), (keys_of_bytes (ret (ex_hkdf 192 [] [] []))). by vm_compute. Qed.
Lemma sym_settle_data c s a b : channel_committed_htlcs c s = committed (gather_htlcs c s) -> ChannelState.funding_sats c = mk_sat 1000000 ->
  owed (view c).[s] = mk_sides (mk_msat a) (mk_msat b) -> in_u64 a -> in_u64 b -> settle_data_ok c s.
Proof. intros Hc Hf Ho Ha Hb. split; [done|]. rewrite Hf, Ho. split; [cbn; lia|]. by intros []. Qed.


(** ** A factory of two slots *)

Definition ex_factory : sym_factory :=
  mk_factory (repeat 1 32) 1 (1 :: repeat 7 32) [mk_slot (repeat 2 32) (mk_sat 500); mk_slot (repeat 3 32) (mk_sat 600)] (mk_outpoint (repeat 4 32) 0).
Lemma ex_factory_sound : sound_factory ex_factory (repeat 3 32) (mk_sat 600).
Proof. split; [|by vm_compute]. split; try done; [repeat constructor; by vm_compute|apply Nat.leb_le; by vm_compute]. Qed.
Definition factory_tx (out : sym_factory_slot -> txo) : spend := mk_spend 2 [coin 1100 [0]] ((out <$> slots ex_factory) ++ [coin 9 []]) 0 0 0.
Lemma factory_tx_ok out : (forall s, wf_txo (out s)) -> Forall wf_txo (sp_outputs (factory_tx out)).
Proof.
  intros Ho. cbn [factory_tx sp_outputs]. apply Forall_app. split; [apply Forall_fmap, Forall_true; intros s; apply Ho|].
  apply Forall_singleton. split; [reflexivity|cbn; lia].
Qed.

Lemma factory_splits_witness :
  exists leaf cb, sym_split_witness sha (factory_asset ex_factory) (slots ex_factory) = Ret [leaf; cb]
    /\ unlocks (factory_tx (slot_out (factory_asset ex_factory))) leaf [].
Proof.
  destruct (sym_factory_spk sha (factory_asset ex_factory) (slots ex_factory)) as [spk|] eqn:E; [|by vm_compute in E].
  destruct (factory_splits sha ex_factory (repeat 3 32) (mk_sat 600) spk ex_factory_sound E) as (leaf & cb & Ew & _ & Hu).
  exists leaf, cb. split; [exact Ew|]. apply Hu; [apply factory_tx_ok; intros s; split; [reflexivity|cbn; lia]|reflexivity].
Defined.

Lemma factory_burns_witness :
  exists leaf, sym_leaf_split sha (factory_asset ex_factory) (slots ex_factory) = Ret leaf
    /\ unlocks (factory_tx (burnt_out (factory_asset ex_factory))) leaf [].
Proof.
  destruct (factory_burns sha ex_factory (repeat 3 32) (mk_sat 600) ex_factory_sound) as (leaf & El & Hu).
  exists leaf. split; [exact El|]. apply Hu; [apply factory_tx_ok; intros s; split; [reflexivity|cbn; lia]|reflexivity].
Defined.

(** ** Covenant outputs to evaluate

    HTLC outputs of a covenant commitment, the transactions that take them and
    the balance of a credit channel claimed twice: the inputs at which the
    theorems on covenant and credit leaves are instantiated. *)

Import Toy.

Definition cov_secret : list Z := 50 :: repeat 0 31.
Definition cov_point : list Z := key 50.
Definition cov_tag : list Z := 1 :: repeat 7 32.
Definition cov_preimage : list Z := repeat 3 32.
Definition cov_hash : list Z := Eval vm_compute in rip (sha cov_preimage).

Definition cov_d : tap_tree2 := Eval vm_compute in ret (tcov_to_local_tree sha rip ex_keys cov_point 6).
Lemma cov_d_ok : tcov_to_local_tree sha rip ex_keys cov_point 6 = Ret cov_d.
Proof. vm_compute. reflexivity. Qed.
Abbreviation cov_tree offered :=
  (htlc_tree seqnet sha rip offered ex_keys cov_point 6 (Some cov_tag) cov_hash None 500 (mk_sat 400)).
Definition cov_offered : tap_tree2 := Eval vm_compute in ret (cov_tree true).
Definition cov_received : tap_tree2 := Eval vm_compute in ret (cov_tree false).
Definition cov_htlc (offered : bool) : tap_tree2 := if offered then cov_offered else cov_received.
Lemma cov_htlc_ok offered : cov_tree offered = Ret (cov_htlc offered).
Proof. destruct offered; vm_compute; reflexivity. Qed.
Lemma cov_keys_ok : wf_keys ex_keys.
Proof. by vm_compute. Qed.
Lemma cov_htlc_wf : wf_htlc cov_tag cov_hash None 500 (mk_sat 400) cov_preimage.
Proof. constructor; try done. apply Nat.leb_le. by vm_compute. Qed.

(** The HTLC's value goes to D, at block 500. *)
Definition cov_claim (offered : bool) : spend :=
  mk_spend 2 [coin 400 (tap_tree2_scriptpubkey (cov_htlc offered))] [coin 400 (tap_tree2_scriptpubkey cov_d)] 0 0 500.
Lemma cov_covers offered : covers (cov_claim offered) (drop 1 cov_tag) (mk_sat 400) (tap_tree2_program cov_d).
Proof. exists (coin 400 (tap_tree2_scriptpubkey cov_d)). by vm_compute. Qed.
Definition cov_sig (n : Z) : list Z := 1 :: pubkey_to_xonly (key n).

Lemma htlc_outputs_spend_witness :
  unlocks (cov_claim false) (nth 0 (leaf (cov_htlc false)) []) [cov_preimage; cov_sig 2]
  /\ unlocks (cov_claim true) (nth 1 (leaf (cov_htlc true)) []) [cov_preimage; cov_sig 3]
  /\ ~ unlocks (cov_claim true) (nth 0 (leaf (cov_htlc true)) []) [cov_sig 3].
Proof.
  destruct (htlc_outputs_spend seqnet sha rip (cov_claim false) false ex_keys cov_point 6 cov_tag cov_hash None 500 (mk_sat 400) cov_d
    (cov_htlc false) (cov_sig 2) cov_preimage ltac:(cbn; lia) cov_keys_ok cov_htlc_wf cov_d_ok (cov_htlc_ok false)) as [H1 _].
  destruct (htlc_outputs_spend seqnet sha rip (cov_claim true) true ex_keys cov_point 6 cov_tag cov_hash None 500 (mk_sat 400) cov_d
    (cov_htlc true) (cov_sig 3) cov_preimage ltac:(cbn; lia) cov_keys_ok cov_htlc_wf cov_d_ok (cov_htlc_ok true)) as [H2 H3].
  split; [|split].
  - apply H1. split; [by vm_compute|]. split; [by vm_compute|apply cov_covers].
  - apply H3. by vm_compute.
  - intros Hu. apply H2 in Hu as (_ & Hs & _). by vm_compute in Hs.
Defined.

Lemma claim_stays_punishable_witness :
  exists o, sp_outputs (cov_claim true) !! 0%nat = Some o /\ txo_script o = tap_tree2_scriptpubkey cov_d
    /\ unlocks (mk_spend 2 [o] [coin 400 (tcov_revoke_dest sha rip ex_keys)] 0 0 0) (nth TCOV_LEAF_REVOKE (leaf cov_d) []) [cov_secret].
Proof.
  destruct (claim_stays_punishable seqnet sha rip (cov_claim true) true ex_keys cov_point 6 cov_tag cov_hash None 500 (mk_sat 400) cov_d
    (cov_htlc true) (cov_sig 2) cov_preimage cov_secret ltac:(cbn; lia) cov_keys_ok ltac:(done) cov_htlc_wf cov_d_ok (cov_htlc_ok true)
    ltac:(done) ltac:(by vm_compute)) as (o & Eo & _ & _ & Es & Hp & _).
  { eexists. split; vm_compute; reflexivity. }
  exists o. split; [done|]. split; [done|]. apply Hp. split; [cbn; lia|]. split; [done|].
  exists (coin 400 (tcov_revoke_dest sha rip ex_keys)). injection Eo as <-. by vm_compute.
Defined.

Definition cov_config (delay : Z) : channel_config :=
  mk_config 0 (mk_sat 546) (mk_msat 1000000000) (mk_sat 10000) (mk_msat 0) delay 30 (mk_msat 50000000).

Definition cov_d0 : tap_tree2 := Eval vm_compute in ret (tcov_to_local_tree sha rip ex_keys cov_point 0).
Lemma zero_delay_locks_funds_witness :
  check_config_bounds seqnet (mk_sat 1000000) 253 2016 (mk_msat 10000000) (with_delay 0 (cov_config 144)) (cov_config 144) false = Ret None
  /\ ~ unlocks (mk_spend 2 [coin 400 []] [coin 400 []] 0 0 500)
         (nth TCOV_LEAF_DELAY (leaf cov_d0) []) [cov_sig 4].
Proof.
  destruct (zero_delay_locks_funds seqnet sha rip (mk_sat 1000000) 253 2016 (mk_msat 10000000) (cov_config 144) (cov_config 144) false
    ex_keys cov_point cov_d0 ltac:(lia) ltac:(by vm_compute) ltac:(done)
    ltac:(by vm_compute)) as [H1 H2].
  split; [exact H1|]. apply H2. cbn. lia.
Defined.

(** ** A balance claimed twice: a note for 300, then one for 450 *)

Definition credit_ex : credit_params := mk_credit_params (repeat 4 32) (key 9) (0 :: 20 :: repeat 6 20) (mk_sat 0).
Definition credit_tree : tap_tree2 := Eval vm_compute in
  ret (credit_to_local_tree sha rip ex_keys cov_point 6 credit_ex (mk_sat 1000)).
Lemma credit_tree_ok : credit_to_local_tree sha rip ex_keys cov_point 6 credit_ex (mk_sat 1000) = Ret credit_tree.
Proof. vm_compute. reflexivity. Qed.
Abbreviation credit_leaf := (nth CREDIT_LEAF_CLAIM (leaf credit_tree) []).
Definition credit_claim (before credit paid : Z) (x : Z) : claim :=
  mk_claim (mk_spend 2 [coin before (tap_tree2_scriptpubkey credit_tree)]
      [coin (before - paid) (tap_tree2_scriptpubkey credit_tree); coin paid (holder_spk credit_ex)] 0 0 0)
    credit (repeat x 32) (pubkey_to_xonly (key 9) ++ repeat 4 32 ++ le_bytes 8 credit ++ sha (repeat x 32)).
Definition credit_claims : list claim := [credit_claim 1000 300 300 1; credit_claim 700 450 150 2].
Abbreviation credit_out v := (coin v (tap_tree2_scriptpubkey credit_tree)).

Lemma claims_pay_largest_note_witness :
  exists total, claims credit_leaf (credit_out 1000) credit_claims (credit_out 550) total /\ total = 450.
Proof.
  assert (H1 : claims credit_leaf (credit_out 1000) [credit_claim 1000 300 300 1] (credit_out 700) (0 + 300)).
  { apply (claims_more credit_leaf (credit_out 1000) [] (credit_out 1000) 0 (credit_claim 1000 300 300 1) (credit_out 700) (coin 300 (holder_spk credit_ex)));
      [constructor|split; [cbn; lia|split; [cbn; unfold amount_ok; lia|apply Nat.leb_le; by vm_compute]]|done|eexists; split; vm_compute; reflexivity|done|done|split; by vm_compute]. }
  assert (H2 : claims credit_leaf (credit_out 1000) credit_claims (credit_out 550) (0 + 300 + 150)).
  { apply (claims_more credit_leaf (credit_out 1000) [credit_claim 1000 300 300 1] (credit_out 700) (0 + 300) (credit_claim 700 450 150 2) (credit_out 550)
      (coin 150 (holder_spk credit_ex)));
      [exact H1|split; [cbn; lia|split; [cbn; unfold amount_ok; lia|apply Nat.leb_le; by vm_compute]]|done|eexists; split; vm_compute; reflexivity|done|done|split; by vm_compute]. }
  exists (0 + 300 + 150). split; [exact H2|].
  destruct (claims_pay_largest_note sha rip (digest_length (f := sha)) ex_keys cov_point 6 credit_ex (mk_sat 1000) credit_leaf (credit_out 1000)
    credit_claims (credit_out 550) (0 + 300 + 150)) as [Ht _]; [|done|done|cbn; lia..|by vm_compute|exact H2|exact Ht].
  left. exists credit_tree. split; [apply credit_tree_ok|reflexivity].
Defined.
