(* ===== verification/OpenExample.v ===== *)
(** * An opening to evaluate

    Two nodes that open a symmetric channel of a million atoms, from the offer
    to [funding_signed], with the group, the signatures and the digests of the
    other examples. *)

From stdpp Require Import list strings.
From S2P Require Import Prelude Chainparams Amount HtlcState Wire FeeStates CommitFee Features Script Shachain Keys Tapscript ChannelState Tx SymScripts Opening TcovScripts SymSettle SymState SymFactory Channel SymChannel CommitTx Signature LaneWire PeerState Peer Signer Opend CommitAgree CommitMirror Example CommitExample SignerFacts SymFacts OpenFacts OpenHonest SignerExample SymExample.
Import Toy ToySig.
Local Open Scope Z_scope.

#[export] Instance compact : CompactSigs ecdsa := {| ecdsa_parse_compact b := Some b |}.

(** A node's secrets depend on its seed. *)
Definition open_hkdf (size : nat) (salt k info : list Z) : outcome (list Z) :=
  let n := 10 * byte k 0 in
  Ret (if (size =? 192)%nat then secret (n + 1) ++ secret (n + 2) ++ secret (n + 3) ++ secret (n + 4) ++ secret (n + 5) ++ secret 99
       else byte k 0 :: repeat 0 31).
Definition open_points (n : Z) : basepoints := mk_basepoints (key (n + 2)) (key (n + 4)) (key (n + 3)) (key (n + 5)).
Definition open_asset : list Z := take 33 (default [] (fee_asset_tag seqnet)).
Definition node (n : Z) : open_env :=
  mk_open_env (mk_feature_set (fun _ => features channel_type_seq_symmetric)) (features channel_type_seq_symmetric) 2016 6
    (open_points n) (key (n + 1)) None false false [(open_asset, 200000000)] None.
Definition blank_points : basepoints := mk_basepoints [] [] [] [].
Definition open_conf : channel_config := mk_config 0 (mk_sat 546) (mk_msat 990000000) (mk_sat 0) (mk_msat 0) 144 30 (mk_msat 50000000).
Definition open_blank (n : Z) : open_state :=
  mk_open_state open_conf (mk_config 0 (mk_sat 0) (mk_msat 0) (mk_sat 0) (mk_msat 0) 0 0 (mk_msat 0)) (mk_msat 0) (253, 5000) 1 blank_points []
    (mk_sides (key (n + 6)) []) (repeat n 32) (mk_sat 1000000) (mk_msat 200000000) 0 open_asset
    (mk_sides None None) (mk_channel_type []) [] None None.

Definition agreed {A} (a : A) (r : negotiation A) : A := match r with Agreed x => x | _ => a end.
Definition nobody : conf_fields := sent_conf open_conf.
Definition no_oc : Opend.open_channel := mk_open_channel [] [] (mk_sat 0) (mk_msat 0) nobody 0 [] blank_points [] 0 None None None None None.
Definition no_ac : accept_channel := mk_accept_channel [] nobody 0 [] blank_points [] None None.

Definition ex_started : open_state * Opend.open_channel := Eval vm_compute in
  agreed (open_blank 0, no_oc) (funder_channel_start seqnet (node 10) (open_blank 10) 0 253 253 None channel_type_seq_symmetric).
Definition ex_offered : open_state := Eval vm_compute in agreed (open_blank 0) (fundee_offer seqnet (node 20) (open_blank 20) (snd ex_started)).
Definition ex_accept : open_state * accept_channel := Eval vm_compute in
  agreed (open_blank 0, no_ac) (fundee_accept (node 20) ex_offered (mk_offer_reply false None None 1)).
Definition ex_accepted : open_state * start_reply := Eval vm_compute in
  agreed (open_blank 0, mk_start_reply [] false (mk_channel_type []) None) (funder_channel_accepted seqnet sha (node 10) (fst ex_started) (snd ex_accept)).

Lemma ex_negotiation : negotiation_of seqnet sha (node 10) (node 20) (open_blank 10) (open_blank 20) 0 (fst ex_started) ex_offered (snd ex_started)
  (snd ex_accept) (fst ex_accepted) (fst ex_accept) (snd ex_accepted).
Proof.
  constructor.
  - split; vm_compute; reflexivity.
  - constructor; [vm_compute; reflexivity|discriminate|constructor|intros H; by destruct H].
  - exists 253, 253, None, channel_type_seq_symmetric. vm_compute. reflexivity.
  - vm_compute. reflexivity.
  - exists (mk_offer_reply false None None 1). vm_compute. reflexivity.
  - vm_compute. reflexivity.
Qed.

Lemma symmetric_delays_must_match_witness :
  to_self_delay (localconf (fst ex_accepted)) = 6 /\ symmetric_delay (node 10) = symmetric_delay (node 20).
Proof.
  split; [reflexivity|].
  apply (symmetric_delays_must_match seqnet sha (node 10) (node 20) _ _ _ _ _ _ _ _ _ _ ex_negotiation). vm_compute. reflexivity.
Defined.

(** ** The funding *)

Abbreviation ex_complete :=
  (funder_channel_complete seqnet sha rip no_len no_bytes false 4 sym_value sym_el_hash ex_hash open_hkdf sort_by no_signature no_junk [1] [] 0
     (node 10) (fst ex_accepted) (mk_outpoint (repeat 9 32) 0) (op_type (fst ex_accepted)) None []).
Abbreviation ex_created fc :=
  (fundee_channel_created seqnet sha rip no_len no_bytes false 4 sym_value sym_el_hash ex_hash open_hkdf sort_by no_signature no_signature no_junk [2] [] 0
     (node 20) (fst ex_accept) 0 fc).
Abbreviation ex_finish cr fs :=
  (funder_channel_signed seqnet sha rip no_len no_bytes sym_value sym_el_hash ex_hash open_hkdf sort_by no_signature no_signature no_junk [1] [] 0
     (node 10) cr fs).

(** What they agree on. *)
Definition the {A : Type} (r : negotiation A) : match r return Type with Agreed _ => A | _ => unit end := match r with Agreed a => a | _ => tt end.
Definition ex_made : negotiation (creating * funding_created) := Eval vm_compute in ex_complete.
Lemma ex_made_ok : ex_complete = ex_made.
Proof. vm_compute. reflexivity. Qed.
Definition ex_cr : creating := fst (the ex_made).
Definition ex_fc : funding_created := snd (the ex_made).
Definition ex_taken : negotiation (opened * funding_signed) := Eval vm_compute in ex_created ex_fc.
Lemma ex_taken_ok : ex_created ex_fc = ex_taken.
Proof. vm_compute. reflexivity. Qed.
Definition ex_od : opened := fst (the ex_taken).
Definition ex_fs : funding_signed := snd (the ex_taken).

Lemma ex_holds (n : Z) st : n = 1 \/ n = 2 -> op_issuer st = None -> holds_opening_keys open_hkdf [n] [] 0 (Opend.our_keys (node (10 * n)) st).
Proof. intros Hn _. exists (n :: repeat 0 31), (keys_of_bytes (ret (open_hkdf 192 [] [n] []))). destruct Hn as [-> | ->]; by repeat split; vm_compute. Qed.
Lemma ex_well_founded : well_founded open_hkdf (node 10) (node 20) [1] [] [2] [] 0 0 (fst ex_accepted) (fst ex_accept).
Proof.
  constructor; try (cbn; lia).
  - apply (ex_holds 1); [by left|done].
  - apply (ex_holds 2); [by right|done].
Qed.

