(* ===== verification/OnchainExample.v ===== *)
(** * Closes to evaluate

    The peer's revoked commitment on the chain, and preimages that come late:
    the inputs at which the theorems on onchaind are instantiated.  Digests,
    group and signatures are those of [SignerExample]. *)

From stdpp Require Import list strings.
From S2P Require Import Prelude Chainparams Amount HtlcState FeeStates CommitFee Features Script Shachain Keys Tapscript ChannelState Tx SymScripts TcovScripts TapMachine SymSettle SymState SymSpend Channel SymChannel CommitTx Signature CommitAgree CommitMirror CommitValue Example CommitExample SignerExample SymExample OnchainState OnchainTcov OnchainSym Onchaind OnchainClose OnchainMain OnchainFacts OnchainCheat OnchainLate.
Import Toy ToySig.
Local Open Scope Z_scope.

Definition no_stub : htlc_stub := mk_stub LOCAL 0 0 [] None.
#[export] Instance ex_world : onchain_world :=
  mk_world seqnet sha rip no_len no_bytes ex_value ex_elements_hash ex_hash (fun n => Ret (Toy.point n)) sort_by no_stub [].

(** ** A revoked commitment *)

Definition oc_keyset : keyset := Eval vm_compute in some (derive_keyset sha (key 50) (bases 30) (bases 20) true).
(** We offered one HTLC, the peer the other. *)
Definition oc_htlcs : list htlc :=
  [ex_htlc; mk_htlc SENT_ADD_ACK_REVOCATION 1 (mk_msat 20000000) 510 [8] None None 0 None [] None None false].
Definition oc_info : htlcs_info :=
  [mk_tells (mk_stub LOCAL 510 1 (rip [8]) None) true false; mk_tells (mk_stub REMOTE 500 0 (rip [7]) None) false false].
Abbreviation oc_commit :=
  (commit_tx seqnet sha rip no_len no_bytes (mk_outpoint [9] 0) (mk_sat 1000000) (key 11) (key 10) REMOTE 6 0 100
    oc_keyset 253 (mk_sat 546) (mk_msat 600000000) (mk_msat 330000000) oc_htlcs true
    (Z.lxor 0 (commit_number_obscurer sha (bp_payment (bases 30)) (bp_payment (bases 20)))) true false REMOTE sequentia_regtest_fee_asset no_junk).
Definition oc_com : commitment := Eval vm_compute in ret oc_commit.
Lemma oc_com_ok : oc_commit = Ret oc_com.
Proof. vm_compute. reflexivity. Qed.

(** Its secret is the first that was received. *)
Definition no_secrets : shachain := mk_shachain 0 0 (repeat (0, []) 49).
Definition oc_chain : shachain := Eval vm_compute in
  some (ret (shachain_add_hash sha 48 (shachain_init 48 no_secrets) (shachain_next_index (shachain_init 48 no_secrets)) (secret 50))).
Lemma oc_received : received sha SHACHAIN_BITS oc_chain [secret 50].
Proof.
  apply (received_next sha 48 (shachain_init 48 no_secrets) [] (secret 50)); [|reflexivity|vm_compute; reflexivity].
  apply (received_none sha 48 no_secrets). reflexivity.
Qed.

Definition oc_tx : tx_parts :=
  mk_tx_parts [4] ((fun i => Some (mk_part_input (mk_outpoint [9] 0) (in_sequence i) None)) <$> tx_inputs (com_tx oc_com))
    (Some <$> tx_outputs (com_tx oc_com)).
Definition oc_init : init_msg :=
  mk_init_msg _ oc_chain (mk_sat 1000000) sequentia_regtest_fee_asset (mk_msat 330000000) (key 51) (key 52) (mk_sides 6 6) [5]
    (mk_sides [1] [2]) REMOTE (mk_sides (bases 20) (bases 30)) oc_tx (tx_locktime (com_tx oc_com)) 700 3 [] 253 10000
    (mk_sides (key 10) (key 11)) (mk_sides 0 0) true false false false false.
Definition oc_env : onchain_env := Eval vm_compute in
  match env_of oc_init None 10000 with Ret e => e | Crash => mk_onchain_env 0 0 (mk_sides 0 0) 0 (mk_sides [] []) (mk_sides 0 0) false false false
    false false [] LOCAL None SymExample.sym_sc None None None None LOCAL (mk_sides (bases 0) (bases 0)) no_outpoint no_outpoint false [] end.
#[export] Existing Instance oc_env.
Definition oc_messages : list from_master := repeat (onchaind_spend_created true []) 7.
Definition oc_start : onchaind := start (onchaind_htlcs oc_info :: oc_messages).
Definition oc_us : list Z := Eval vm_compute in ret (scriptpubkey_to_remote (other_payment_key oc_keyset) 1).
Definition oc_anchor : sides (option (list Z)) := Eval vm_compute in ret (get_anchor_scriptpubkeys).

Lemma oc_told : told_of oc_keyset oc_htlcs oc_info.
Proof.
  split_and!.
  - vm_compute. apply Permutation_submseteq, perm_swap.
  - repeat constructor.
  - apply (collision_free_list _ ((fun hw => key_script oc_keyset REMOTE (stub_key hw)) <$> oc_info)); [|vm_compute; reflexivity].
    intros w (hw & Hin & ->). apply list_elem_of_fmap. by exists hw.
Qed.


(** ** A close that gets deep *)

Definition plain_out (type : tx_type) (op : outpoint) (sat : Z) (otype : output_type) (htlc : htlc_stub) (w : option (list Z))
    (sig : option bitcoin_signature) (p : option proposed_resolution) (r : option resolution) : tracked_output :=
  mk_tracked type op 700 0 (mk_sat sat) otype htlc w sig p r [] None (mk_sat 0) 0 (repeat 0 32) None 0 false.
Definition funding_out (t : tx_type) : tracked_output :=
  plain_out FUNDING_TRANSACTION (mk_outpoint [9] 0) 1000000 FUNDING_OUTPUT no_stub None None None (Some (mk_resolution [4] 0 t)).
Definition daemon_at (os : list tracked_output) (ib : list from_master) (v : commit_view) : onchaind :=
  mk_onchaind os (Some []) [] ib [] v (mk_fee_caches UNSET_FEE (mk_sat 382)) None (mk_sym_progress None 0 [] None).
Definition no_view : commit_view := mk_commit_view None None None 0.
(** Their commitment, one output of which is theirs until it times out. *)
Definition deep_start : onchaind :=
  daemon_at [funding_out THEIR_UNILATERAL;
             plain_out THEIR_UNILATERAL (mk_outpoint [4] 0) 50000 THEIR_HTLC no_stub None None
               (Some (mk_proposal None 20 THEIR_HTLC_TIMEOUT_TO_THEM)) None]
    [onchaind_depth [4] 10; onchaind_depth [4] 30; onchaind_depth [4] 100] no_view.
Definition deep_end : onchaind := Eval vm_compute in
  match wait_for_resolved deep_start with Ok _ d => d | _ => deep_start end.

Lemma resolved_for_good_witness :
  exists d1, send onchaind_all_irrevocably_resolved d1 = Ok tt deep_end /\ evolves nothing deep_start d1
    /\ Forall (fun o => exists r, to_resolved o = Some r /\ 100 <= resolved_depth r) (outs d1).
Proof. apply (resolved_for_good deep_start deep_end). vm_compute. reflexivity. Defined.

(** ** Preimages that come late *)

(** An HTLC of our commitment that was ignored. *)
Definition late_htlc : htlc_stub := mk_stub REMOTE 500 3 (rip (sha [8])) None.
Definition late_out : tracked_output :=
  plain_out OUR_UNILATERAL (mk_outpoint [4] 1) 50000 THEIR_HTLC late_htlc (Some [6]) (Some (mk_signature no_signature 1))
    (Some (mk_proposal None 20 THEIR_HTLC_TIMEOUT_TO_THEM)) (Some (mk_resolution [4] 30 SELF)).
Definition late_start : onchaind :=
  daemon_at [funding_out OUR_UNILATERAL; late_out] [onchaind_spend_created true []] (mk_commit_view (Some ex_keys) None None 7).
Definition spending (txid : list Z) (n : Z) (stack : list (list Z)) (out : tx_output) : tx_parts :=
  mk_tx_parts txid [Some (mk_part_input (mk_outpoint [4] n) 0 (Some stack))] [Some out].
Definition ex_out : tx_output := mk_output (mk_sat 49000) [1] sequentia_regtest_fee_asset.

Lemma only_second P (a b : tracked_output) : P a = false -> only P 1 [a; b].
Proof. intros Ha [|[|j]] o Ho Hp; [injection Ho as <-; congruence|done|done]. Qed.

Lemma late_preimage_not_swept_witness :
  exists d', handle_message (onchaind_known_preimage [8]) late_start = Ok tt d' /\ length (sent d') = 1%nat
    /\ handle_message (onchaind_spent (spending [12] 1 [[]; [8]; [6]] ex_out) 0 710) d'
       = Ok tt (set_sent (sent d' ++ [onchaind_spent_reply true]) d').
Proof.
  destruct (late_preimage_not_swept 1 late_out (mk_resolution [4] 30 SELF) (mk_signature no_signature 1) [6] ex_keys [8] [] [] late_start)
    as (d' & Ed & Es & Hspent).
  - reflexivity.
  - reflexivity.
  - reflexivity.
  - vm_compute. reflexivity.
  - reflexivity.
  - reflexivity.
  - reflexivity.
  - reflexivity.
  - reflexivity.
  - reflexivity.
  - apply only_second. reflexivity.
  - reflexivity.
  - exists d'. split_and!; [exact Ed|by rewrite Es|]. apply Hspent; [reflexivity|apply only_second; reflexivity].
Defined.

(** An HTLC of a revoked commitment, and our penalty transaction. *)
Definition penalty_witness : list welement := [mk_welement true []; mk_welement false (key 5); mk_welement false [6]].
Definition fulfil_witness : list welement := [mk_welement true []; mk_welement false [8]; mk_welement false [6]].
Definition stolen_out : tracked_output :=
  plain_out THEIR_REVOKED_UNILATERAL (mk_outpoint [4] 1) 50000 THEIR_HTLC late_htlc (Some [6]) None
    (Some (mk_proposal (Some penalty_witness) 1 OUR_PENALTY_TX)) None.
Definition stolen_start : onchaind :=
  daemon_at [funding_out THEIR_REVOKED_UNILATERAL; stolen_out]
    [onchaind_spend_created true fulfil_witness; onchaind_spend_created true []]
    (mk_commit_view (Some oc_keyset) (Some (key 50)) (Some (secret 50)) 0).
Definition our_penalty : tx_parts := spending [13] 1 [[7]; key 5; [6]] ex_out.

Lemma own_penalty_mistaken_witness :
  (exists d', handle_message (onchaind_spent our_penalty 0 710) stolen_start = Ok tt d'
     /\ to_resolved <$> last (outs d') = Some (Some (mk_resolution [13] 0 OUR_PENALTY_TX)))
  /\ exists d1 d2 mine, handle_message (onchaind_known_preimage [8]) stolen_start = Ok tt d1
     /\ handle_message (onchaind_spent our_penalty 0 710) d1 = Ok tt d2
     /\ last (outs d2) = Some mine /\ to_outpoint mine = mk_outpoint [13] 0 /\ to_output_type mine = DELAYED_CHEAT_OUTPUT_TO_THEM
     /\ onchaind_spend (spend_penalty (mk_outpoint [13] 0) (mk_sat 49000) (Some (secret 50)) [1] (htlc_tx_wscript oc_keyset REMOTE)) ∈ sent d2.
Proof.
  destruct (own_penalty_mistaken our_penalty 0 710 1 stolen_out penalty_witness [6] 1 oc_keyset ex_out
    (mk_asset 49000 sequentia_regtest_fee_asset) [[7]; key 5; [6]] (mk_msat 50000000) [8] fulfil_witness [] [] stolen_start) as [(d' & Ed & Eo) H].
  - reflexivity.
  - reflexivity.
  - reflexivity.
  - vm_compute. reflexivity.
  - reflexivity.
  - reflexivity.
  - reflexivity.
  - reflexivity.
  - reflexivity.
  - reflexivity.
  - reflexivity.
  - vm_compute. reflexivity.
  - apply only_second. reflexivity.
  - apply only_second. reflexivity.
  - split; [reflexivity|]. exists 0. reflexivity.
  - vm_compute. reflexivity.
  - vm_compute. reflexivity.
  - reflexivity.
  - vm_compute. by split.
  - reflexivity.
  - split; [|exact H]. exists d'. split; [exact Ed|]. rewrite Eo. reflexivity.
Defined.

(** ** A kickoff when we hold state 4 *)

Definition best_held : sym_state :=
  mk_sym_state LOCAL 4 4 (state_out <$> sym_outs) (mk_sides true true) (mk_sides (sig_of 30) (sig_of 31)).
Definition sym_env : onchain_env :=
  mk_onchain_env 253 10000 (mk_sides 6 6) 3 (mk_sides (key 10) (key 11)) (mk_sides 0 0) false false false false true (1 :: repeat 7 32) LOCAL None
    SymExample.sym_sc (Some best_held) None None (Some best_held) LOCAL (mk_sides (bases 20) (bases 30)) (mk_outpoint [9] 0) (mk_outpoint [9] 0)
    false [].
Definition kickoff_tree : sym_tree := Eval vm_compute in ret (sym_kickoff_tree sha SymExample.sym_sc).
Definition kickoff_cb : list Z := Eval vm_compute in ret (sym_tree_control_block kickoff_tree SYM_LEAF_UPD).
Definition kickoff_out : tracked_output :=
  mk_tracked SYM_UPDATE (mk_outpoint [4] 0) 700 0 (mk_sat 1000) SYM_STATE_OUTPUT no_stub None None None None [] None (mk_sat 0) (-1) (repeat 0 32)
    (Some (sym_tree_spk kickoff_tree)) 0 false.
Definition kickoff_start : onchaind :=
  daemon_at [funding_out SYM_UPDATE; kickoff_out] [onchaind_depth [4] 1; onchaind_spend_created true []] no_view.

Lemma older_state_replaced_witness :
  exists d' wit, sym_resolve_state (H3 := sym_env) 1 kickoff_start = Ok tt d' /\ length (sent d') = 1%nat
    /\ unlocks (move (sym_tree_spk sym_ex_tree)) (sym_leaf_upd SymExample.sym_sc (-1)) (stack_of (welement_bytes <$> wit)).
Proof.
  destruct (older_state_replaced (E := sym_env) 1 kickoff_out best_held (sig_of 30) (sig_of 31) sym_ex_tree sym_ex_msg
    (sym_leaf_upd SymExample.sym_sc (-1)) kickoff_cb (sym_tree_spk kickoff_tree) kickoff_start)
    as (d' & wit & new & asset & lock & minblock & deadline & Ed & Es & _ & _ & Hu).
  - exact sym_sc_ok.
  - reflexivity.
  - reflexivity.
  - reflexivity.
  - cbn. lia.
  - cbn. lia.
  - cbn. lia.
  - cbn. lia.
  - reflexivity.
  - vm_compute. reflexivity.
  - exact sym_ex_msg_ok.
  - exact ex_both_signed.
  - vm_compute. reflexivity.
  - vm_compute. lia.
  - exists d', wit. split_and!; [exact Ed|by rewrite Es|]. apply Hu; [cbn; lia|apply move_ok|done].
Defined.
