(* ===== verification/ChannelInv.v ===== *)
(** * Where the money is: the accounting of a channel

    Each side keeps, in two views and per lane, what is owed to each side.  The
    operations of Channel.v change those amounts one HTLC and one view at a
    time.  This file shows that they never lose track: at any time every
    balance is a base amount, the same in both views, plus what the live HTLCs
    and the swap in flight did to that view so far ([adj], [swap_adj]: what
    [adjust_balance] recomputes from scratch after a restart).  From it follow
    that no view creates or destroys money, that the views agree when nothing
    is in flight, and that restarting gives the same balances. *)

From stdpp Require Import list.
From S2P Require Import Prelude Chainparams Amount HtlcState FeeStates Features ChannelState Channel.
Local Open Scope Z_scope.

(** ** What an HTLC and a swap did to a balance *)

Definition amt (h : htlc) : Z := millisatoshis (h_amount h).

Definition paid_to (h : htlc) : side :=
  match h_r h with Some _ => other (htlc_owner h) | None => htlc_owner h end.

Definition was_committed (v : side) (h : htlc) : bool := htlc_has h (HTLC_FLAG v HTLC_F_WAS_COMMITTED).

Definition delta_add (s : side) (h : htlc) : Z := if bool_decide (htlc_owner h = s) then - amt h else 0.
Definition delta_remove (s : side) (h : htlc) : Z := if bool_decide (s = paid_to h) then amt h else 0.

(** What [h] did so far to the balance of [s] in the view of [v]. *)
Definition adj (v s : side) (h : htlc) : Z :=
  if was_committed v h then delta_add s h + (if is_committed v h then 0 else delta_remove s h) else 0.

(** What the legs of a swap move in [lane] for [s]. *)
Definition swap_legs (lane : nat) (s : side) (w : sym_swap) : Z :=
  let owner := htlc_state_owner (swap_state w) in
  let give := millisatoshis (swap_give w) in
  let take := millisatoshis (swap_take w) in
  (if (give_lane w =? lane)%nat then if bool_decide (owner = s) then - give else give else 0) +
  (if (take_lane w =? lane)%nat then if bool_decide (owner = s) then take else - take else 0).

Definition swap_adj (v : side) (lane : nat) (s : side) (w : option sym_swap) : Z :=
  match w with
  | None => 0
  | Some w => if state_has (swap_state w) (HTLC_FLAG v HTLC_F_COMMITTED) then swap_legs lane s w else 0
  end.

(** Over the HTLCs of one lane. *)
Definition lane_sum (f : htlc -> Z) (lane : nat) (l : list htlc) : Z :=
  sum_with (fun h => if (h_lane h =? lane)%nat then f h else 0) l.

Definition in_flight (c : channel) (lane : nat) (v s : side) : Z :=
  lane_sum (adj v s) lane (the_htlcs c) + swap_adj v lane s (chan_sym_swap c).

(** Every balance is a base amount plus what is in flight. *)
Definition accounted (base : nat -> side -> Z) (c : channel) : Prop :=
  forall v lane o s, view_owed c v !! lane = Some o ->
    millisatoshis o.[s] = base lane s + in_flight c lane v s.

(** The invariant: [total lane] is what the lane was funded with. *)
Definition balanced (total : nat -> Z) (c : channel) : Prop :=
  exists base, accounted base c /\ forall lane, base lane LOCAL + base lane REMOTE = total lane.

(** Not on its way out: the states a swap goes through. *)
Definition being_added (s : htlc_state) : bool :=
  negb (state_has s HTLC_REMOVING) && negb (htlc_state_is_dead s).

(** Well-formed tables: no amount is negative, the swap is being added. *)
Definition amounts_ok (c : channel) : Prop :=
  (forall h, h ∈ the_htlcs c -> 0 <= amt h) /\
  match chan_sym_swap c with
  | None => True
  | Some w => being_added (swap_state w) = true /\
              0 <= millisatoshis (swap_give w) /\ 0 <= millisatoshis (swap_take w)
  end /\
  (forall v lane o s, view_owed c v !! lane = Some o -> 0 <= millisatoshis o.[s]).

Definition swap_size (w : option sym_swap) : Z :=
  match w with
  | None => 0
  | Some w => millisatoshis (swap_give w) + millisatoshis (swap_take w)
  end.

(** All that is in flight, with what a lane holds, counts in an [s64]. *)
Definition fits (total : nat -> Z) (c : channel) : Prop :=
  forall lane, total lane + sum_with amt (the_htlcs c) + swap_size (chan_sym_swap c) <= INT64_MAX.

Definition sound (total : nat -> Z) (c : channel) : Prop :=
  balanced total c /\ amounts_ok c /\ fits total c.

(** ** Sums over one HTLC's two sides *)

Lemma delta_add_both h : delta_add LOCAL h + delta_add REMOTE h = - amt h.
Proof. unfold delta_add. destruct (htlc_owner h); simpl; lia. Qed.

Lemma delta_remove_both h : delta_remove LOCAL h + delta_remove REMOTE h = amt h.
Proof. unfold delta_remove. destruct (paid_to h); simpl; lia. Qed.

(** Both sides together lack exactly what is locked in the HTLC. *)
Lemma adj_both v h :
  (is_committed v h = true -> was_committed v h = true) ->
  adj v LOCAL h + adj v REMOTE h = if is_committed v h then - amt h else 0.
Proof.
  intros H. unfold adj. pose proof (delta_add_both h). pose proof (delta_remove_both h).
  destruct (was_committed v h), (is_committed v h); try lia.
Qed.

Lemma committed_was v h : is_committed v h = true -> was_committed v h = true.
Proof. unfold is_committed, was_committed, htlc_has. by destruct v, (h_state h). Qed.

Lemma swap_legs_both lane w : swap_legs lane LOCAL w + swap_legs lane REMOTE w = 0.
Proof.
  unfold swap_legs. destruct (give_lane w =? lane)%nat, (take_lane w =? lane)%nat,
    (htlc_state_owner (swap_state w)); simpl; lia.
Qed.

Lemma swap_adj_both v lane w : swap_adj v lane LOCAL w + swap_adj v lane REMOTE w = 0.
Proof. destruct w as [w|]; simpl; [|done]. case_if; [apply swap_legs_both|done]. Qed.

Lemma lane_sum_plus f g lane l :
  lane_sum (fun h => f h + g h) lane l = lane_sum f lane l + lane_sum g lane l.
Proof. unfold lane_sum. rewrite <- sum_with_plus. apply sum_with_ext. intros h _. case_if; lia. Qed.

Lemma lane_sum_minus f g lane l :
  lane_sum (fun h => f h - g h) lane l = lane_sum f lane l - lane_sum g lane l.
Proof. unfold lane_sum. induction l as [|h l IH]; simpl; [done|]. rewrite IH. case_if; lia. Qed.

Lemma lane_sum_ext f g lane l :
  (forall h, h ∈ l -> f h = g h) -> lane_sum f lane l = lane_sum g lane l.
Proof. intros H. apply sum_with_ext. intros h Hh. case_if; [by apply H|done]. Qed.

(** What is locked in the HTLCs the view of [v] has committed to. *)
Definition locked (c : channel) (lane : nat) (v : side) : Z :=
  lane_sum (fun h => if is_committed v h then amt h else 0) lane (the_htlcs c).

Lemma in_flight_both c lane v : in_flight c lane v LOCAL + in_flight c lane v REMOTE = - locked c lane v.
Proof.
  unfold in_flight, locked. pose proof (swap_adj_both v lane (chan_sym_swap c)).
  assert (lane_sum (adj v LOCAL) lane (the_htlcs c) + lane_sum (adj v REMOTE) lane (the_htlcs c) =
          - lane_sum (fun h => if is_committed v h then amt h else 0) lane (the_htlcs c)); [|lia].
  rewrite <- lane_sum_plus. unfold lane_sum. induction (the_htlcs c) as [|h l IH]; simpl; [done|].
  rewrite adj_both by apply committed_was. repeat case_if; lia.
Qed.

Lemma view_total total c v lane o :
  balanced total c -> view_owed c v !! lane = Some o ->
  millisatoshis o.[LOCAL] + millisatoshis o.[REMOTE] + locked c lane v = total lane.
Proof.
  intros (base & Ha & Hb) Ho. pose proof (Ha v lane o LOCAL Ho). pose proof (Ha v lane o REMOTE Ho).
  pose proof (in_flight_both c lane v). specialize (Hb lane). lia.
Qed.

Lemma locked_nonneg c lane v : amounts_ok c -> 0 <= locked c lane v.
Proof.
  intros [Ha _]. apply sum_with_nonneg. intros h Hh. specialize (Ha h Hh). repeat case_if; lia.
Qed.

Lemma owed_le_total total c v lane o s :
  balanced total c -> amounts_ok c -> view_owed c v !! lane = Some o ->
  0 <= millisatoshis o.[s] <= total lane.
Proof.
  intros Hb Ha Ho. pose proof (view_total _ _ _ _ _ Hb Ho). pose proof (locked_nonneg c lane v Ha).
  destruct Ha as (_ & _ & Ha). pose proof (Ha v lane o LOCAL Ho). pose proof (Ha v lane o REMOTE Ho).
  destruct s; lia.
Qed.

(** ** The steps a commitment or a revocation takes *)

(** A step from [s] to the next state of its HTLC, made for the view of [sc]:
    it keeps the owner, leaves the other view alone, and in its own view adds
    the HTLC for the first time, removes it, or neither. *)
Definition step_ok (sc : side) (s : htlc_state) : bool :=
  match next_state s with
  | Crash => false
  | Ret n =>
      let C v x := state_has x (HTLC_FLAG v HTLC_F_COMMITTED) in
      let W v x := state_has x (HTLC_FLAG v HTLC_F_WAS_COMMITTED) in
      bool_decide (htlc_state_owner n = htlc_state_owner s)
      && Bool.eqb (C (other sc) n) (C (other sc) s)
      && Bool.eqb (W (other sc) n) (W (other sc) s)
      && Bool.eqb (W sc n) (W sc s || C sc n)
      && (if C sc n then C sc s || negb (W sc s) else true)
      && (if htlc_state_is_dead n
          then W LOCAL n && W REMOTE n && negb (C LOCAL n) && negb (C REMOTE n) else true)
      && (if being_added s then being_added n && implb (C sc s) (C sc n) else true)
  end.

Definition steps_ok (sc : side) (states : list htlc_state) : Prop :=
  forallb (step_ok sc) states = true.

Lemma sending_commit_ok : steps_ok REMOTE sending_commit_states.
Proof. reflexivity. Qed.
Lemma rcvd_revoke_ok : steps_ok LOCAL rcvd_revoke_states.
Proof. reflexivity. Qed.
Lemma rcvd_commit_ok : steps_ok LOCAL rcvd_commit_states.
Proof. reflexivity. Qed.
Lemma sending_revoke_ok : steps_ok REMOTE sending_revoke_states.
Proof. reflexivity. Qed.

(** The HTLC after the step. *)
Definition advance (h : htlc) : htlc :=
  match next_state (h_state h) with Ret n => set_h_state n h | Crash => h end.

Lemma step_ok_spec sc h :
  step_ok sc (h_state h) = true ->
  exists n, next_state (h_state h) = Ret n /\ advance h = set_h_state n h /\
    htlc_owner (advance h) = htlc_owner h /\
    is_committed (other sc) (advance h) = is_committed (other sc) h /\
    was_committed (other sc) (advance h) = was_committed (other sc) h /\
    was_committed sc (advance h) = was_committed sc h || is_committed sc (advance h) /\
    (is_committed sc (advance h) = true -> is_committed sc h = true \/ was_committed sc h = false) /\
    (htlc_is_dead (advance h) = true -> forall v,
       was_committed v (advance h) = true /\ is_committed v (advance h) = false).
Proof.
  unfold step_ok. destruct (next_state (h_state h)) as [n|] eqn:E; [|done]. cbv zeta.
  rewrite !andb_true_iff, bool_decide_eq_true, !eqb_true_iff. intros [[[[[[Ho H1] H2] H3] H4] H5] H6].
  exists n. unfold advance. rewrite E. split; [done|]. split; [done|].
  unfold htlc_owner, is_committed, was_committed, htlc_has, htlc_is_dead. cbn [h_state set_h_state].
  do 4 (split; [done|]). split.
  - intros Hc. rewrite Hc in H4. apply orb_true_iff in H4 as [|]; [auto|right; by apply negb_true_iff].
  - intros Hd v. rewrite Hd, !andb_true_iff, !negb_true_iff in H5. destruct v; tauto.
Qed.

Lemma paid_to_advance h n :
  htlc_owner (set_h_state n h) = htlc_owner h -> paid_to (set_h_state n h) = paid_to h.
Proof. unfold paid_to. simpl. by intros ->. Qed.

(** What a step does to the balances of its own view, and to the other one. *)
Lemma adj_advance sc h s :
  step_ok sc (h_state h) = true ->
  adj sc s (advance h) - adj sc s h =
    (if negb (is_committed sc h) && is_committed sc (advance h) then delta_add s h
     else if is_committed sc h && negb (is_committed sc (advance h)) then delta_remove s h else 0) /\
  adj (other sc) s (advance h) = adj (other sc) s h.
Proof.
  intros Hs. destruct (step_ok_spec sc h Hs) as (n & Hn & E & Ho & H1 & H2 & H3 & H4 & _).
  assert (delta_add s (advance h) = delta_add s h) as Ea.
  { unfold delta_add. rewrite Ho. by rewrite E. }
  assert (delta_remove s (advance h) = delta_remove s h) as Er.
  { unfold delta_remove. rewrite E in *. by rewrite paid_to_advance. }
  unfold adj. rewrite Ea, Er, H1, H2, H3. split; [|done].
  pose proof (committed_was sc h) as Hw. destruct (is_committed sc h) eqn:C, (is_committed sc (advance h)) eqn:C'.
  - rewrite Hw by done. simpl. lia.
  - rewrite Hw by done. simpl. lia.
  - destruct (H4 eq_refl) as [|W]; [done|]. rewrite W. simpl. lia.
  - rewrite orb_false_r. simpl. lia.
Qed.

(** ** The loop over the table *)

(** [b] holds, wrapped to 64 bits, the exact balances [x]. *)
Definition represents (b : balances) (x : nat -> side -> Z) : Prop :=
  forall lane o s, b !! lane = Some o -> o.[s] = wrap_s64 (x lane s).

Lemma balance_add_htlc_wrap h s x :
  balance_add_htlc (wrap_s64 x) h s = wrap_s64 (x + delta_add s h).
Proof.
  unfold balance_add_htlc, delta_add. case_bool_decide; [|by rewrite Z.add_0_r].
  by rewrite <- Z.add_opp_r, wrap_s64_add.
Qed.

Lemma balance_remove_htlc_wrap h s x :
  balance_remove_htlc (wrap_s64 x) h s = wrap_s64 (x + delta_remove s h).
Proof.
  unfold balance_remove_htlc, delta_remove. fold (paid_to h).
  case_bool_decide; [|by rewrite Z.add_0_r]. by rewrite wrap_s64_add.
Qed.

Lemma htlc_incstate_spec sc h o x :
  step_ok sc (h_state h) = true -> (forall s, o.[s] = wrap_s64 (x s)) ->
  exists o', htlc_incstate h sc o = Ret (advance h, o') /\
    forall s, o'.[s] = wrap_s64 (x s + (adj sc s (advance h) - adj sc s h)).
Proof.
  intros Hs Hx. destruct (step_ok_spec sc h Hs) as (n & Hn & E & Ho & _).
  assert (forall s, delta_add s (set_h_state n h) = delta_add s h) as Ea.
  { intros s. unfold delta_add. rewrite <- E, Ho. by rewrite E. }
  assert (forall s, delta_remove s (set_h_state n h) = delta_remove s h) as Er.
  { intros s. unfold delta_remove. rewrite E in Ho. by rewrite paid_to_advance. }
  unfold htlc_incstate. rewrite Hn. cbn [mbind outcome_bind]. eexists. rewrite E. split; [reflexivity|].
  intros s. destruct (adj_advance sc h s Hs) as [Hd _]. rewrite E in Hd. rewrite Hd. clear Hd.
  destruct (is_committed sc h), (is_committed sc (set_h_state n h)); cbn [negb andb].
  - by rewrite Hx, Z.add_0_r.
  - rewrite <- Er, <- balance_remove_htlc_wrap, <- Hx. by destruct s.
  - rewrite <- Ea, <- balance_add_htlc_wrap, <- Hx. by destruct s.
  - by rewrite Hx, Z.add_0_r.
Qed.

Definition stepped (states : list htlc_state) (h : htlc) : bool := bool_decide (h_state h ∈ states).

(** The HTLC after the loop, and whether it stays in the table. *)
Definition after (states : list htlc_state) (h : htlc) : htlc :=
  if stepped states h then advance h else h.
Definition dies (states : list htlc_state) (h : htlc) : bool :=
  stepped states h && htlc_is_dead (advance h).

Definition survivors (states : list htlc_state) (l : list htlc) : list htlc :=
  map (after states) (filter (fun h => dies states h = false) l).

Lemma steps_ok_in sc states h :
  steps_ok sc states -> stepped states h = true -> step_ok sc (h_state h) = true.
Proof.
  unfold steps_ok, stepped. rewrite forallb_forall, bool_decide_eq_true.
  intros H Hin. apply H. by apply list_elem_of_In.
Qed.

Lemma lane_sum_cons f lane h l :
  lane_sum f lane (h :: l) = (if (h_lane h =? lane)%nat then f h else 0) + lane_sum f lane l.
Proof. done. Qed.

Lemma survivors_cons states h l :
  survivors states (h :: l) =
  if dies states h then survivors states l else after states h :: survivors states l.
Proof.
  unfold survivors. rewrite filter_cons.
  destruct (dies states h); [by rewrite decide_False|by rewrite decide_True].
Qed.

Lemma change_each_spec sc states l : forall b x r,
  steps_ok sc states -> represents b x -> change_each sc states l b = Ret r ->
  length (ch_owed r) = length b /\
  represents (ch_owed r)
    (fun lane s => x lane s + lane_sum (fun h => adj sc s (after states h) - adj sc s h) lane l) /\
  ch_left r = survivors states l /\
  ch_changed r = map advance (filter (fun h => stepped states h = true) l).
Proof.
  induction l as [|h l IH]; intros b x r Hok Hb H.
  { injection H as <-. split; [done|]. split; [|done].
    intros lane o s Ho. rewrite (Hb lane o s Ho). unfold lane_sum. simpl. by rewrite Z.add_0_r. }
  cbn [change_each] in H. fold (stepped states h) in H.
  rewrite survivors_cons, filter_cons. unfold dies.
  assert (after states h = if stepped states h then advance h else h) as Ea by done.
  destruct (stepped states h) eqn:Hst; cbn [andb].
  - destruct (b !! h_lane h) as [o|] eqn:Ho; [|done].
    pose proof (steps_ok_in _ _ _ Hok Hst) as Hs.
    destruct (htlc_incstate_spec sc h o (x (h_lane h)) Hs (fun s => Hb _ o s Ho)) as (o' & E & Ho').
    rewrite E in H. cbn [mbind outcome_bind] in H.
    apply bind_Ret_inv in H as (r' & H & [= <-]).
    destruct (IH (<[h_lane h := o']> b) (fun lane s => x lane s + if (h_lane h =? lane)%nat
                      then adj sc s (advance h) - adj sc s h else 0) r' Hok) as (L & R & Hl & Hc); [|done|].
    { intros lane o2 s. rewrite list_lookup_insert. destruct (Nat.eqb_spec (h_lane h) lane) as [<-|Hne].
      - rewrite decide_True by (split; [done|by eapply lookup_lt_Some]). intros [= <-]. apply Ho'.
      - rewrite decide_False by naive_solver. rewrite Z.add_0_r. apply Hb. }
    cbn [ch_owed ch_left ch_changed]. rewrite L, length_insert, Hl, Hc, Ea. split; [done|].
    rewrite decide_True by done. split; [|split; [by destruct (htlc_is_dead _)|done]].
    intros lane o2 s Ho2. rewrite (R lane o2 s Ho2), lane_sum_cons, Ea. f_equal. lia.
  - apply bind_Ret_inv in H as (r' & H & [= <-]).
    destruct (IH _ x r' Hok Hb H) as (L & R & Hl & Hc). cbn [ch_owed ch_left ch_changed].
    rewrite L, Hl, Hc, Ea. split; [done|]. rewrite decide_False by done. split; [|done].
    intros lane o2 s Ho2. rewrite (R lane o2 s Ho2), lane_sum_cons, Ea. f_equal. case_if; lia.
Qed.

(** ** The swap in flight *)

Lemma represents_move lane s z b x :
  represents b x ->
  represents (move_balance lane s z b)
    (fun l t => x l t + if (lane =? l)%nat then if bool_decide (s = t) then z else 0 else 0).
Proof.
  intros Hb l o t. unfold move_balance.
  destruct (Nat.eqb_spec lane l) as [<-|Hne].
  - rewrite list_lookup_alter_eq. destruct (b !! lane) as [p|] eqn:E; [|done]. intros [= <-].
    rewrite sel_upd. pose proof (Hb lane p s E) as Hs. pose proof (Hb lane p t E) as Ht.
    destruct (decide (s = t)) as [<-|]; [rewrite bool_decide_true by done|rewrite bool_decide_false by done].
    + by rewrite Hs, wrap_s64_add.
    + by rewrite Z.add_0_r.
  - rewrite list_lookup_alter_ne by done. intros Ho. rewrite Z.add_0_r. by apply Hb.
Qed.

Lemma balance_swap_spec w b x b' :
  represents b x -> balance_swap w b = Ret b' ->
  length b' = length b /\ represents b' (fun lane s => x lane s + swap_legs lane s w).
Proof.
  intros Hb. unfold balance_swap, assert_then. case_match; [|done]. intros [= <-].
  split; [by unfold move_balance; rewrite !length_alter|].
  set (o := htlc_state_owner (swap_state w)).
  set (g := millisatoshis (swap_give w)). set (k := millisatoshis (swap_take w)).
  intros lane p s Hp.
  pose proof (represents_move (take_lane w) o k _ _ (represents_move (take_lane w) (other o) (- k) _ _
    (represents_move (give_lane w) (other o) g _ _ (represents_move (give_lane w) o (- g) _ _ Hb)))) as R.
  rewrite (R lane p s Hp). f_equal. unfold swap_legs. fold o g k.
  destruct (give_lane w =? lane)%nat, (take_lane w =? lane)%nat, o, s; simpl; lia.
Qed.

Lemma step_ok_swap sc st :
  step_ok sc st = true -> being_added st = true ->
  exists n, state_succ st = Some n /\ htlc_state_owner n = htlc_state_owner st /\
    state_has n (HTLC_FLAG (other sc) HTLC_F_COMMITTED) = state_has st (HTLC_FLAG (other sc) HTLC_F_COMMITTED) /\
    (state_has st (HTLC_FLAG sc HTLC_F_COMMITTED) = true ->
     state_has n (HTLC_FLAG sc HTLC_F_COMMITTED) = true) /\
    being_added n = true.
Proof.
  unfold step_ok, next_state. destruct (state_succ st) as [n|]; [|done].
  unfold assert_then. destruct (_ =? _); [|done]. cbv zeta. intros H Ha. rewrite Ha in H.
  rewrite !andb_true_iff, bool_decide_eq_true, !eqb_true_iff in H.
  destruct H as [[[[[[Ho H1] H2] H3] H4] H5] [H6 H7]]. exists n. do 3 (split; [done|]). split; [|done].
  intros Hc. by rewrite Hc in H7.
Qed.

(** The same swap, further on. *)
Definition swap_follows (w w' : option sym_swap) : Prop :=
  match w, w' with
  | None, None => True
  | Some w, Some w' => exists n, w' = set_swap_state n w /\ being_added n = true /\
                                 htlc_state_owner n = htlc_state_owner (swap_state w)
  | _, _ => False
  end.

Lemma change_swap_spec sc states w b x w' b' f :
  steps_ok sc states -> represents b x ->
  (forall w0, w = Some w0 -> being_added (swap_state w0) = true) ->
  change_swap sc states w b = Ret (w', b', f) ->
  length b' = length b /\
  represents b' (fun lane s => x lane s + (swap_adj sc lane s w' - swap_adj sc lane s w)) /\
  (forall lane s, swap_adj (other sc) lane s w' = swap_adj (other sc) lane s w) /\
  swap_follows w w'.
Proof.
  intros Hok Hb Ha H. destruct w as [w|]; cbn [change_swap] in H.
  2: { injection H as <- <- _. split; [done|]. split; [|done].
       intros lane o s Ho. simpl. rewrite Z.add_0_r. by apply Hb. }
  specialize (Ha w eq_refl). case_bool_decide as Hin.
  2: { injection H as <- <- _. split; [done|]. split; [|split; [done|]].
       - intros lane o s Ho. rewrite Z.sub_diag, Z.add_0_r. by apply Hb.
       - exists (swap_state w). by destruct w. }
  assert (step_ok sc (swap_state w) = true) as Hs.
  { apply forallb_forall with (x := swap_state w) in Hok; [done|]. by apply list_elem_of_In. }
  destruct (step_ok_swap _ _ Hs Ha) as (n & Hn & Ho & Hc & Hi & Ha'). rewrite Hn in H.
  apply bind_Ret_inv in H as (b1 & H & E). injection E as <- <- _.
  assert (forall lane s, swap_legs lane s (set_swap_state n w) = swap_legs lane s w) as El.
  { intros lane s. unfold swap_legs. simpl. by rewrite Ho. }
  cbn [swap_adj]. cbn [swap_state set_swap_state].
  split; [|split; [|split; [by intros lane s; rewrite Hc, El|by exists n]]].
  - destruct (negb _ && _); [by apply balance_swap_spec with (x := x) in H as [? _]|by injection H as ->].
  - destruct (state_has (swap_state w) _) eqn:C, (state_has n _) eqn:C'; cbn [negb andb] in H;
      try (by discriminate (Hi eq_refl));
      try (injection H as ->; intros lane o s Hl; rewrite (Hb lane o s Hl), ?El; f_equal; lia).
    apply balance_swap_spec with (x := x) in H as [_ R]; [|done].
    intros lane o s Hl. rewrite (R lane o s Hl), El. f_equal. lia.
Qed.

(** ** Balances in and out *)

Lemma all_to_balances_spec l : forall b,
  all_to_balances l = Ret b ->
  length b = length l /\
  represents b (fun lane s => match l !! lane with Some o => millisatoshis o.[s] | None => 0 end).
Proof.
  induction l as [|o l IH]; intros b H; cbn [all_to_balances] in H.
  { injection H as <-. split; [done|]. by intros lane o s. }
  apply bind_Ret_inv in H as (p & Hp & H). apply bind_Ret_inv in H as (bs & Hbs & [= <-]).
  destruct (IH bs Hbs) as [L R]. split; [by simpl; rewrite L|].
  intros [|lane] q s Hq; [|by apply R]. injection Hq as <-. simpl.
  unfold to_balances in Hp. apply bind_Ret_inv in Hp as (a & Ha & Hp).
  apply bind_Ret_inv in Hp as (a' & Ha' & [= <-]).
  unfold to_balance, assert_then in Ha, Ha'. case_match; [|done]. case_match; [|done].
  injection Ha as <-. injection Ha' as <-. by destruct s.
Qed.

Lemma all_balances_ok_spec b : forall os,
  all_balances_ok b = Some os ->
  length os = length b /\
  forall lane o, os !! lane = Some o ->
    exists p, b !! lane = Some p /\ forall s, millisatoshis o.[s] = p.[s] /\ 0 <= p.[s].
Proof.
  induction b as [|p b IH]; intros os H; cbn [all_balances_ok] in H; [by injection H as <-|].
  unfold balances_ok in H. unfold balance_ok in H.
  destruct (Z.ltb_spec p.[LOCAL] 0); [done|]. destruct (Z.ltb_spec p.[REMOTE] 0); [done|].
  destruct (all_balances_ok b) as [os'|]; [|done]. injection H as <-.
  destruct (IH os' eq_refl) as [L R]. split; [by simpl; rewrite L|].
  intros [|lane] o Ho; [|by apply R]. injection Ho as <-. exists p. split; [done|].
  by intros [].
Qed.

Lemma view_owed_length c v : length (view_owed c v) = S (length (lane_bals c)).
Proof. unfold view_owed. simpl. by rewrite length_map. Qed.

Lemma map_zip_upd v w bals os :
  length os = length bals ->
  map (fun b => (lane_owed b).[w]) (zip_with (fun b o => mk_lane_bal (upd v o (lane_owed b))) bals os) =
  if decide (v = w) then os else map (fun b => (lane_owed b).[w]) bals.
Proof.
  revert os. induction bals as [|b bals IH]; intros [|o os] L; try done; [by case_decide|].
  injection L as L. cbn [zip_with map lane_owed]. rewrite (IH os L), sel_upd. by case_decide.
Qed.

Lemma set_view_owed_spec v os c c' :
  set_view_owed v os c = Ret c' -> length os = length (view_owed c v) ->
  (forall w, view_owed c' w = if decide (v = w) then os else view_owed c w) /\
  htlcs c' = htlcs c /\ chan_sym_swap c' = chan_sym_swap c.
Proof.
  destruct os as [|o os]; [done|]. rewrite view_owed_length. intros [= <-] L. injection L as L.
  split; [|done]. intros w. unfold view_owed, lane_bals in *. cbn.
  destruct (sym_lane_bal c) as [bals|]; simpl.
  - rewrite map_zip_upd, sel_upd by done. by case_decide.
  - destruct os; [|done]. rewrite sel_upd. by case_decide.
Qed.

(** What the accounting reads of a channel. *)
Definition same_money (c c' : channel) : Prop :=
  (forall v, view_owed c' v = view_owed c v) /\ the_htlcs c' = the_htlcs c /\
  chan_sym_swap c' = chan_sym_swap c.

#[export] Instance same_money_refl : Reflexive same_money.
Proof. by intros c. Qed.
#[export] Instance same_money_trans : Transitive same_money.
Proof. intros a b c (A & B & C) (D & E & F). repeat split; [intros v; by rewrite D|congruence..]. Qed.

Lemma same_money_in_flight c c' lane v s : same_money c c' -> in_flight c' lane v s = in_flight c lane v s.
Proof. intros (_ & Hh & Hw). unfold in_flight. by rewrite Hh, Hw. Qed.

Lemma same_money_balanced total c c' : same_money c c' -> balanced total c -> balanced total c'.
Proof.
  intros Hs (base & Ha & Hb). exists base. split; [|done]. intros v lane o s.
  rewrite (same_money_in_flight _ _ _ _ _ Hs). destruct Hs as (-> & _). apply Ha.
Qed.

Lemma same_money_amounts c c' : same_money c c' -> amounts_ok c -> amounts_ok c'.
Proof. unfold amounts_ok. intros (Hv & -> & ->) (H1 & H2 & H3). repeat split; [done..|]. intros v. rewrite Hv. apply H3. Qed.

Lemma change_fees_same states : forall c f c', change_fees states c = Ret (f, c') -> same_money c c'.
Proof.
  induction states as [|st states IH]; intros c f c' H; cbn [change_fees] in H.
  { by injection H as _ <-. }
  apply bind_Ret_inv in H as ([f1 c1] & H1 & H). apply bind_Ret_inv in H as ([f2 c2] & H2 & H).
  apply bind_Ret_inv in H as ([f3 c3] & H3 & [= _ <-]).
  transitivity c2; [transitivity c1|by eapply IH].
  - unfold fee_incstate in H1. apply bind_Ret_inv in H1 as (n & _ & H1).
    destruct (negb _); [by injection H1 as _ <-|]. by apply bind_Ret_inv in H1 as ([??] & _ & [= _ <-]).
  - unfold blockheight_incstate in H2. apply bind_Ret_inv in H2 as (n & _ & H2).
    destruct (negb _); [by injection H2 as _ <-|]. destruct (blockheight_states c1); [|done].
    by apply bind_Ret_inv in H2 as ([??] & _ & [= _ <-]).
Qed.

(** ** Commitments and revocations keep the accounts *)

Lemma after_fields sc states h :
  steps_ok sc states -> h_lane (after states h) = h_lane h /\ amt (after states h) = amt h.
Proof.
  intros Hok. unfold after. destruct (stepped states h) eqn:E; [|done].
  destruct (step_ok_spec _ _ (steps_ok_in _ _ _ Hok E)) as (n & _ & -> & _). done.
Qed.

(** The other view is left alone. *)
Lemma adj_after_other sc states s h :
  steps_ok sc states -> adj (other sc) s (after states h) = adj (other sc) s h.
Proof.
  intros Hok. unfold after. destruct (stepped states h) eqn:E; [|done].
  by apply adj_advance, (steps_ok_in _ states).
Qed.

(** What the HTLCs that die in this step leave for good, the same in both views. *)
Definition gone (states : list htlc_state) (lane : nat) (s : side) (l : list htlc) : Z :=
  lane_sum (fun h => if dies states h then adj LOCAL s (after states h) else 0) lane l.

Lemma dies_adj sc states h v s :
  steps_ok sc states -> dies states h = true ->
  adj v s (after states h) = delta_add s (after states h) + delta_remove s (after states h).
Proof.
  unfold dies, after. intros Hok [E Hd]%andb_true_iff. rewrite E.
  destruct (step_ok_spec _ _ (steps_ok_in _ _ _ Hok E)) as (n & _ & _ & _ & _ & _ & _ & _ & Hv).
  unfold adj. by destruct (Hv Hd v) as [-> ->].
Qed.

Lemma gone_both sc states lane l :
  steps_ok sc states -> gone states lane LOCAL l + gone states lane REMOTE l = 0.
Proof.
  intros Hok. unfold gone. rewrite <- lane_sum_plus. unfold lane_sum. induction l as [|h l IH]; [done|].
  simpl. rewrite IH. destruct (_ =? _)%nat; [|done]. destruct (dies states h) eqn:E; [|done].
  rewrite !(dies_adj sc) by done.
  pose proof (delta_add_both (after states h)). pose proof (delta_remove_both (after states h)). lia.
Qed.

Lemma survivors_sum sc states lane v s l :
  steps_ok sc states ->
  lane_sum (fun h => adj v s (after states h)) lane l =
  lane_sum (adj v s) lane (survivors states l) + gone states lane s l.
Proof.
  intros Hok. unfold gone. induction l as [|h l IH]; [done|].
  rewrite !lane_sum_cons, survivors_cons, IH. destruct (after_fields sc states h Hok) as [E _].
  destruct (dies states h) eqn:D.
  - destruct (_ =? _)%nat; [|lia]. rewrite !(dies_adj sc) by done. lia.
  - rewrite lane_sum_cons, E. case_if; lia.
Qed.

Lemma lane_sum_bound f lane l :
  (forall h, h ∈ l -> Z.abs (f h) <= amt h) -> Z.abs (lane_sum f lane l) <= sum_with amt l.
Proof.
  induction l as [|h l IH]; intros H; [done|]. rewrite lane_sum_cons. simpl.
  pose proof (H h ltac:(set_solver)). pose proof (IH ltac:(set_solver)). case_if; lia.
Qed.

Lemma adj_step_bound sc states s h :
  steps_ok sc states -> 0 <= amt h -> Z.abs (adj sc s (after states h) - adj sc s h) <= amt h.
Proof.
  intros Hok Ha. unfold after. destruct (stepped states h) eqn:E; [|lia].
  destruct (adj_advance sc h s (steps_ok_in _ _ _ Hok E)) as [-> _].
  unfold delta_add, delta_remove. repeat case_match; lia.
Qed.

Lemma swap_legs_bound lane s w :
  0 <= millisatoshis (swap_give w) -> 0 <= millisatoshis (swap_take w) ->
  Z.abs (swap_legs lane s w) <= swap_size (Some w).
Proof. unfold swap_legs, swap_size. repeat case_match; lia. Qed.

Lemma swap_step_bound v lane s w w' :
  swap_follows w w' ->
  match w with None => True | Some w => 0 <= millisatoshis (swap_give w) /\ 0 <= millisatoshis (swap_take w) end ->
  Z.abs (swap_adj v lane s w' - swap_adj v lane s w) <= swap_size w.
Proof.
  destruct w as [w|], w' as [w'|]; simpl; try done. intros (n & -> & _ & Ho) [Hg Ht].
  assert (swap_legs lane s (set_swap_state n w) = swap_legs lane s w) as ->.
  { unfold swap_legs. simpl. by rewrite Ho. }
  pose proof (swap_legs_bound lane s w Hg Ht). simpl in *. repeat case_if; lia.
Qed.

(** The pieces of a step of [change_htlcs]. *)
Lemma change_htlcs_inv c sc states f chg c' :
  change_htlcs c sc states = Ret (f, chg, c') ->
  exists b r w b' os wf,
    all_to_balances (view_owed c sc) = Ret b /\
    change_each sc states (the_htlcs c) b = Ret r /\
    change_swap sc states (chan_sym_swap c) (ch_owed r) = Ret (w, b', wf) /\
    all_balances_ok b' = Some os /\ chg = ch_changed r /\
    (length os = length (view_owed c sc) ->
     (forall v, view_owed c' v = if decide (sc = v) then os else view_owed c v) /\
     the_htlcs c' = ch_left r /\ chan_sym_swap c' = w).
Proof.
  unfold change_htlcs. intros H. apply bind_Ret_inv in H as (b & Hb & H).
  destruct (htlcs c) as [l|] eqn:El; [|done].
  apply bind_Ret_inv in H as (r & Hr & H). apply bind_Ret_inv in H as ([[w b'] wf] & Hw & H).
  destruct (all_balances_ok b') as [os|] eqn:Hos; [|done].
  apply bind_Ret_inv in H as (c1 & H1 & H). apply bind_Ret_inv in H as ([ff c2] & H2 & H).
  injection H as _ <- <-. apply change_fees_same in H2 as (V & T & S).
  exists b, r, w, b', os, wf. unfold the_htlcs at 1. rewrite El. do 5 (split; [done|]). intros L.
  apply set_view_owed_spec in H1 as (V1 & T1 & S1); [|done].
  split; [|split].
  - intros v. by rewrite V, V1.
  - rewrite T. unfold the_htlcs. by rewrite T1.
  - by rewrite S, S1.
Qed.

(** The exact new balances of the view that changed, as long as they count in
    an [s64]. *)
Lemma change_htlcs_view total c sc states b r w b' wf lane s :
  steps_ok sc states -> sound total c ->
  all_to_balances (view_owed c sc) = Ret b ->
  change_each sc states (the_htlcs c) b = Ret r ->
  change_swap sc states (chan_sym_swap c) (ch_owed r) = Ret (w, b', wf) ->
  length b' = length (view_owed c sc) /\
  forall o p, view_owed c sc !! lane = Some o -> b' !! lane = Some p ->
    p.[s] = millisatoshis o.[s] + lane_sum (fun h => adj sc s (after states h) - adj sc s h) lane (the_htlcs c)
            + (swap_adj sc lane s w - swap_adj sc lane s (chan_sym_swap c)).
Proof.
  intros Hok (Hb & Ha & Hf) H1 H2 H3.
  apply all_to_balances_spec in H1 as [L1 R1].
  apply (change_each_spec _ _ _ _ _ _ Hok R1) in H2 as (L2 & R2 & _).
  assert (forall w0, chan_sym_swap c = Some w0 -> being_added (swap_state w0) = true) as Hadd.
  { intros w0 E. destruct Ha as (_ & Hw & _). rewrite E in Hw. apply Hw. }
  apply (change_swap_spec _ _ _ _ _ _ _ _ Hok R2 Hadd) in H3 as (L3 & R3 & _ & Hw).
  split; [by rewrite L3, L2|]. intros o p Ho Hp. rewrite (R3 lane p s Hp), Ho. apply wrap_s64_small.
  pose proof (owed_le_total _ _ _ _ _ s Hb Ha Ho). specialize (Hf lane).
  destruct Ha as (Ha & Hsw & _).
  pose proof (lane_sum_bound (fun h => adj sc s (after states h) - adj sc s h) lane (the_htlcs c)
    (fun h Hh => adj_step_bound sc states s h Hok (Ha h Hh))) as B.
  assert (Z.abs (swap_adj sc lane s w - swap_adj sc lane s (chan_sym_swap c)) <= swap_size (chan_sym_swap c)); [|lia].
  apply swap_step_bound; [done|]. destruct (chan_sym_swap c); [tauto|done].
Qed.

Lemma survivors_amt sc states l :
  steps_ok sc states -> (forall h, h ∈ l -> 0 <= amt h) ->
  (forall h, h ∈ survivors states l -> 0 <= amt h) /\ sum_with amt (survivors states l) <= sum_with amt l.
Proof.
  intros Hok. induction l as [|h l IH]; intros H; [by split; [set_solver|]|].
  destruct IH as [IH1 IH2]; [set_solver|]. pose proof (H h ltac:(set_solver)).
  destruct (after_fields sc states h Hok) as [_ E].
  rewrite survivors_cons. destruct (dies states h); simpl; [split; [done|lia]|]. split; [|lia].
  intros x [->|Hx]%elem_of_cons; [lia|by apply IH1].
Qed.

Lemma swap_follows_ok w w' :
  swap_follows w w' ->
  match w with
  | None => True
  | Some w => being_added (swap_state w) = true /\
              0 <= millisatoshis (swap_give w) /\ 0 <= millisatoshis (swap_take w)
  end ->
  match w' with
  | None => True
  | Some w => being_added (swap_state w) = true /\
              0 <= millisatoshis (swap_give w) /\ 0 <= millisatoshis (swap_take w)
  end /\ swap_size w' = swap_size w.
Proof. destruct w as [w|], w' as [w'|]; try done. by intros (n & -> & Ha & _) (_ & H). Qed.

(** What the step makes of the channel. *)
Lemma change_htlcs_spec total c sc states f chg c' :
  steps_ok sc states -> sound total c -> change_htlcs c sc states = Ret (f, chg, c') ->
  the_htlcs c' = survivors states (the_htlcs c) /\
  chg = map advance (filter (fun h => stepped states h = true) (the_htlcs c)) /\
  length (lane_bals c') = length (lane_bals c) /\ swap_follows (chan_sym_swap c) (chan_sym_swap c') /\
  (exists b b' wf, change_swap sc states (chan_sym_swap c) b = Ret (chan_sym_swap c', b', wf)) /\
  (forall v lane o s, view_owed c' v !! lane = Some o ->
     0 <= millisatoshis o.[s] /\
     exists o0, view_owed c v !! lane = Some o0 /\
       millisatoshis o.[s] = millisatoshis o0.[s]
         + lane_sum (fun h => adj v s (after states h) - adj v s h) lane (the_htlcs c)
         + (swap_adj v lane s (chan_sym_swap c') - swap_adj v lane s (chan_sym_swap c))).
Proof.
  intros Hok Hs H.
  apply change_htlcs_inv in H as (b & r & w & b' & os & wf & H1 & H2 & H3 & H4 & -> & H5).
  pose proof (fun lane s => change_htlcs_view _ _ _ _ _ _ _ _ _ lane s Hok Hs H1 H2 H3) as Hx.
  destruct (all_balances_ok_spec _ _ H4) as [L4 R4].
  destruct H5 as (V & T & S); [by rewrite L4; apply (Hx 0%nat LOCAL)|].
  pose proof (all_to_balances_spec _ _ H1) as [_ R1].
  pose proof (change_each_spec _ _ _ _ _ _ Hok R1 H2) as (_ & R2 & Hl & Hc).
  destruct Hs as (_ & (Ha & Hsw & Hpos) & _).
  assert (forall w0, chan_sym_swap c = Some w0 -> being_added (swap_state w0) = true) as Hadd.
  { intros w0 E. rewrite E in Hsw. apply Hsw. }
  pose proof (change_swap_spec _ _ _ _ _ _ _ _ Hok R2 Hadd H3) as (_ & _ & Hother & Hw).
  rewrite S. split; [by rewrite T|]. split; [done|]. split.
  { specialize (V (other sc)). rewrite decide_False in V by (by destruct sc).
    apply (f_equal length) in V. rewrite !view_owed_length in V. congruence. }
  split; [done|]. split; [by exists (ch_owed r), b', wf|]. intros v lane o s. rewrite V. case_decide as E; intros Ho.
  - subst v. destruct (R4 lane o Ho) as (p & Hp & Hop). destruct (Hop s) as [-> Hp0]. split; [done|].
    destruct (lookup_lt_is_Some_2 (view_owed c sc) lane) as [o1 Ho1].
    { rewrite <- (proj1 (Hx lane s)). by eapply lookup_lt_Some. }
    exists o1. split; [done|]. by apply Hx.
  - replace v with (other sc) in * by (by destruct sc, v). split; [by eapply Hpos|].
    exists o. split; [done|]. rewrite Hother, lane_sum_minus.
    rewrite (lane_sum_ext _ (adj (other sc) s) lane _ (fun h _ => adj_after_other sc states s h Hok)). lia.
Qed.

(** The HTLCs that die go over into the base. *)
Definition base_after (states : list htlc_state) (c : channel) (base : nat -> side -> Z) (lane : nat) (s : side) : Z :=
  base lane s + gone states lane s (the_htlcs c).

Lemma change_htlcs_accounted base total c sc states f chg c' :
  steps_ok sc states -> sound total c -> accounted base c ->
  change_htlcs c sc states = Ret (f, chg, c') -> accounted (base_after states c base) c'.
Proof.
  intros Hok Hs Ha H. destruct (change_htlcs_spec _ _ _ _ _ _ _ Hok Hs H) as (T & _ & _ & _ & _ & V).
  intros v lane o s Ho. destruct (V v lane o s Ho) as (_ & o0 & Ho0 & ->).
  rewrite (Ha v lane o0 s Ho0), lane_sum_minus. unfold in_flight, base_after. rewrite T.
  pose proof (survivors_sum sc states lane v s (the_htlcs c) Hok). lia.
Qed.

Lemma base_after_both sc states c base lane :
  steps_ok sc states ->
  base_after states c base lane LOCAL + base_after states c base lane REMOTE = base lane LOCAL + base lane REMOTE.
Proof. intros Hok. unfold base_after. pose proof (gone_both sc states lane (the_htlcs c) Hok). lia. Qed.

Lemma change_htlcs_sound total c sc states f chg c' :
  steps_ok sc states -> sound total c -> change_htlcs c sc states = Ret (f, chg, c') -> sound total c'.
Proof.
  intros Hok Hs H. destruct (change_htlcs_spec _ _ _ _ _ _ _ Hok Hs H) as (T & _ & _ & Hw & _ & V).
  pose proof Hs as ((base & Hacc & Hbase) & (Ha & Hsw & _) & Hf).
  destruct (swap_follows_ok _ _ Hw Hsw) as [Hsw' Hsize].
  destruct (survivors_amt _ _ _ Hok Ha) as [Ha' Hsum]. split; [|split].
  - exists (base_after states c base). split; [by eapply change_htlcs_accounted|].
    intros lane. by rewrite (base_after_both sc).
  - unfold amounts_ok. rewrite T. split; [done|]. split; [done|]. intros v lane o s Ho. by apply (V v lane o s).
  - intros lane. rewrite T, Hsize. specialize (Hf lane). lia.
Qed.
