(* ===== verification/ChannelSteps.v ===== *)
(** * What the operations of a channel do (channeld/full_channel.c)

    Each operation of Channel.v keeps the accounts of ChannelInv.v and the
    table well formed, so that whatever sequence of updates, commitments and
    revocations a channel goes through, its views account for every
    millisatoshi of every lane.  Then the branches of the operations that add
    and remove HTLCs, and what a restart reconstructs. *)

From stdpp Require Import list relations.
From S2P Require Import Prelude Chainparams Amount HtlcState FeeStates CommitFee Features ChannelState Channel ChannelInv.
Local Open Scope Z_scope.

(** ** Adding *)

(** The HTLC an accepted [add_htlc] puts in the table. *)
Definition added (c : channel) (state : htlc_state) (id : Z) (amount : amount_msat_t) (lane : nat)
    (h : htlc) : Prop :=
  h_state h = state /\ h_id h = id /\ h_amount h = amount /\ h_lane h = lane /\
  h_r h = None /\ h_failed h = None /\ h_lock_point h = None /\
  millisatoshis amount <> 0 /\ (lane < sym_num_lanes c)%nat /\
  htlc_get (the_htlcs c) id (htlc_state_owner state) = None.

Ltac split_bind H :=
  let x := fresh "x" in let Hx := fresh "Hx" in
  apply bind_Ret_inv in H as (x & Hx & H).

Section Add.
Context (params : chainparams) (c : channel).

Definition all_or_nothing (state : htlc_state) (id : Z) (amount : amount_msat_t) (lane : nat)
    (r : add_result) : Prop :=
  if decide (add_err r = CHANNEL_ERR_ADD_OK)
  then exists h, add_htlcp r = Some h /\ added c state id amount lane h /\
         add_chan r = set_htlcs (Some (h :: the_htlcs c)) c
  else add_chan r = c /\ add_htlcp r = None.

Lemma add_own_lane_effect l h g sender enforce err_immediate r :
  add_own_lane params c l h g sender enforce err_immediate = Ret r ->
  (add_err r <> CHANNEL_ERR_ADD_OK /\ add_chan r = c /\ add_htlcp r = None) \/
  (exists b fee, r = add_to_map c l (set_h_fail_immediate b h) fee).
Proof.
  unfold add_own_lane. intros H. destruct (add_in_flight g sender); [|injection H as <-; by left].
  destruct (_ && _); [injection H as <-; by left|]. split_bind H. destruct x as [[] fee]; [|injection H as <-; by left].
  split_bind H. destruct x as [e|b]; injection H as <-; [left|right; by eexists _, _].
  split; [|done]. simpl. unfold add_dust_checks in Hx0. split_bind Hx0.
  destruct x as [o|]; [|congruence]. destruct (o && _); [congruence|].
  split_bind Hx0. destruct x as [o'|]; [|congruence]. destruct (o' && _); congruence.
Qed.

(** Refused without a trace, or a new HTLC. *)
Lemma add_htlc_new state id amount expiry hash routing path_key enforce extra err_immediate lane r :
  add_htlc params c state id amount expiry hash routing path_key enforce extra err_immediate lane = Ret r ->
  (add_err r <> CHANNEL_ERR_ADD_OK /\ add_chan r = c /\ add_htlcp r = None) \/
  (exists b e fee, blocks_to_abs_locktime expiry = Some e /\ millisatoshis amount <> 0 /\ (lane < sym_num_lanes c)%nat /\
     htlc_get (the_htlcs c) id (htlc_state_owner state) = None /\
     r = add_to_map c (the_htlcs c) (set_h_fail_immediate b (new_htlc state id amount e hash routing path_key extra lane)) fee).
Proof.
  unfold add_htlc.
  destruct (Nat.leb_spec (sym_num_lanes c) lane) as [|Hlane]; [intros [= <-]; by left|].
  destruct (blocks_to_abs_locktime expiry) as [e|]; [|intros [= <-]; by left].
  destruct (htlcs c) as [l|] eqn:El; [|done].
  destruct (htlc_get l id _) eqn:Hg; [case_if; intros [= <-]; by left|].
  unfold amount_msat_is_zero. destruct (Z.eqb_spec (millisatoshis amount) 0) as [|Hz]; [intros [= <-]; by left|].
  destruct (amount_msat_less _ _); [intros [= <-]; by left|].
  destruct (_ && _ && _); [intros [= <-]; by left|]. cbv zeta.
  destruct (_ <? _); [intros [= <-]; by left|]. destruct (_ && _ && _); [intros [= <-]; by left|].
  assert (the_htlcs c = l) as Hl by (unfold the_htlcs; by rewrite El). rewrite Hl.
  destruct (Nat.eqb_spec lane 0); cbn [negb]; intros H.
  - apply add_own_lane_effect in H as [(He & ? & ?)|(b & fee & ->)]; [by left|]. right. by exists b, e, fee.
  - split_bind H. destruct x; injection H as <-; [|by left]. right. by exists false, e, None.
Qed.

Lemma add_htlc_effect state id amount expiry hash routing path_key enforce extra err_immediate lane r :
  add_htlc params c state id amount expiry hash routing path_key enforce extra err_immediate lane = Ret r ->
  all_or_nothing state id amount lane r.
Proof.
  intros [(He & Hc & Hn)|(b & e & fee & _ & Hz & Hlane & Hg & ->)]%add_htlc_new; unfold all_or_nothing;
    [by rewrite decide_False|].
  rewrite decide_True by done. by eexists.
Qed.
End Add.

(** ** The table after an update *)

(** An update of the table that leaves every balance as it is. *)
Lemma sound_same_in_flight total c l w :
  sound total c ->
  (forall lane v s, lane_sum (adj v s) lane l + swap_adj v lane s w = in_flight c lane v s) ->
  amounts_ok (set_sym_swap w (set_htlcs (Some l) c)) -> fits total (set_sym_swap w (set_htlcs (Some l) c)) ->
  sound total (set_sym_swap w (set_htlcs (Some l) c)).
Proof.
  intros ((base & Ha & Hb) & _) He Hok Hf. split; [|done]. exists base. split; [|done].
  intros v lane o s Ho. rewrite (Ha v lane o s Ho). f_equal. symmetry. apply He.
Qed.

Lemma set_sym_swap_id w c : w = chan_sym_swap c -> set_sym_swap w c = c.
Proof. intros ->. by destruct c. Qed.

Definition first_state (s : htlc_state) : Prop := s = SENT_ADD_HTLC \/ s = RCVD_ADD_HTLC.

Lemma adj_first v s h : first_state (h_state h) -> adj v s h = 0.
Proof. unfold adj, was_committed, htlc_has. by intros [-> | ->]; destruct v. Qed.

Lemma added_in_flight c h lane v s :
  first_state (h_state h) ->
  in_flight (set_htlcs (Some (h :: the_htlcs c)) c) lane v s = in_flight c lane v s.
Proof.
  intros Hf. unfold in_flight.
  change (the_htlcs (set_htlcs (Some (h :: the_htlcs c)) c)) with (h :: the_htlcs c).
  change (chan_sym_swap (set_htlcs (Some (h :: the_htlcs c)) c)) with (chan_sym_swap c).
  rewrite lane_sum_cons, adj_first by done. case_if; lia.
Qed.

Lemma added_sound total c state id amount lane h :
  first_state state -> added c state id amount lane h -> 0 <= millisatoshis amount ->
  sound total c -> fits total (set_htlcs (Some (h :: the_htlcs c)) c) ->
  sound total (set_htlcs (Some (h :: the_htlcs c)) c).
Proof.
  intros Hf (Hst & _ & Ham & _) Hpos Hs Hfit.
  rewrite <- (set_sym_swap_id (chan_sym_swap c) (set_htlcs _ c)) by done.
  apply sound_same_in_flight; [done| |..].
  - intros lane' v s. rewrite lane_sum_cons, adj_first by (by rewrite Hst). unfold in_flight. case_if; lia.
  - destruct Hs as (_ & (Ha & Hw & Ho) & _). split; [|done].
    intros x [->|Hx]%elem_of_cons; [|by apply Ha]. unfold amt. by rewrite Ham.
  - done.
Qed.

Lemma lane_sum_update f lane id owner g l h :
  htlc_get l id owner = Some h -> f (g h) = f h -> h_lane (g h) = h_lane h ->
  lane_sum f lane (update_htlc id owner g l) = lane_sum f lane l.
Proof.
  intros Hg Hf Hl. induction l as [|x l IH]; [done|]. unfold htlc_get in Hg. cbn [find update_htlc] in *.
  destruct (_ && _); rewrite !lane_sum_cons.
  - injection Hg as ->. by rewrite Hf, Hl.
  - by rewrite IH.
Qed.

Lemma update_htlc_elem id owner g l x :
  x ∈ update_htlc id owner g l -> x ∈ l \/ exists h, htlc_get l id owner = Some h /\ x = g h.
Proof.
  unfold htlc_get. induction l as [|y l IH]; [by left|]. cbn [update_htlc find].
  destruct (_ && _); intros [->|Hx]%elem_of_cons.
  - right. by exists y.
  - left. set_solver.
  - left. set_solver.
  - destruct (IH Hx) as [|]; [left; set_solver|by right].
Qed.

Lemma htlc_get_in l id owner h : htlc_get l id owner = Some h -> h ∈ l.
Proof. intros [H _]%find_some. by apply list_elem_of_In. Qed.

Lemma sum_amt_update id owner g l h :
  htlc_get l id owner = Some h -> amt (g h) = amt h ->
  sum_with amt (update_htlc id owner g l) = sum_with amt l.
Proof.
  unfold htlc_get. intros Hg E. induction l as [|x l IH]; [done|]. cbn [find update_htlc] in *.
  destruct (_ && _); simpl; [injection Hg as ->; lia|rewrite IH by done; lia].
Qed.

Lemma with_htlc_sound total c owner id g h :
  htlc_get (the_htlcs c) id owner = Some h -> sound total c ->
  (forall v s, adj v s (g h) = adj v s h) -> h_lane (g h) = h_lane h -> amt (g h) = amt h ->
  sound total (with_htlc c owner id g).
Proof.
  intros Hg Hs Ha Hl Hm. unfold with_htlc.
  rewrite <- (set_sym_swap_id (chan_sym_swap c) (set_htlcs _ c)) by done.
  apply sound_same_in_flight; [done|..].
  - intros lane v s. by rewrite (lane_sum_update _ _ _ _ _ _ h).
  - destruct Hs as (_ & (Hamt & Hw & Ho) & _). split; [|done].
    intros x Hx. cbn in Hx. apply update_htlc_elem in Hx as [Hx|(h' & Hh & ->)]; [by apply Hamt|].
    rewrite Hg in Hh. injection Hh as <-. rewrite Hm. by apply Hamt, (htlc_get_in _ id owner).
  - destruct Hs as (_ & _ & Hf). intros lane. specialize (Hf lane).
    change (total lane + sum_with amt (update_htlc id owner g (the_htlcs c)) + swap_size (chan_sym_swap c)
            <= INT64_MAX). by rewrite (sum_amt_update _ _ _ _ h).
Qed.

Lemma htlc_get_update id owner g l h :
  htlc_get l id owner = Some h -> h_id (g h) = h_id h -> h_state (g h) = h_state h ->
  htlc_get (update_htlc id owner g l) id owner = Some (g h).
Proof.
  unfold htlc_get. intros Hg Hi Hs. induction l as [|x l IH]; [done|]. cbn [find update_htlc] in *.
  destruct ((h_id x =? id) && _) eqn:E; cbn [find].
  - injection Hg as ->. unfold htlc_has in *. by rewrite Hi, Hs, E.
  - rewrite E. by apply IH.
Qed.

(** Updates of the same entry compose. *)
Lemma update_htlc_twice id owner f g l :
  (forall h, h_id (f h) = h_id h) -> (forall h, h_state (f h) = h_state h) ->
  update_htlc id owner g (update_htlc id owner f l) = update_htlc id owner (fun h => g (f h)) l.
Proof.
  intros Hi Hs. induction l as [|h l IH]; [done|]. cbn [update_htlc].
  destruct ((h_id h =? id) && _) eqn:E; cbn [update_htlc].
  - unfold htlc_has in *. by rewrite Hi, Hs, E.
  - by rewrite E, IH.
Qed.

(** ** Removing *)

(** The state of an HTLC that both sides are irrevocably committed to, and the
    one its removal starts in. *)
Lemma removal_state_adj s n h v t r :
  removal_state s = Some n -> h_state h = s ->
  adj v t (set_h_state n (set_h_r r h)) = adj v t h.
Proof.
  intros Hr Hs. unfold adj, was_committed, is_committed, delta_add, htlc_owner, htlc_has. cbn.
  rewrite Hs. destruct s; try done; injection Hr as <-; by destruct v.
Qed.

Lemma set_h_r_id h : set_h_r (h_r h) h = h.
Proof. by destruct h. Qed.

Section Remove.
Context (sha256 : list Z -> list Z) (point_lock_opens : list Z -> list Z -> bool).

(** What removes an HTLC: its lock opens, or no lock ([None]) for a failure. *)
Definition opens (h : htlc) (preimage : list Z) : bool :=
  match h_lock_point h with
  | Some p => point_lock_opens p preimage
  | None => bool_decide (sha256 preimage = h_rhash h)
  end.

Lemma fulfill_effect c owner id preimage e c' :
  channel_fulfill_htlc sha256 point_lock_opens c owner id preimage = Ret (e, c') ->
  match e with
  | CHANNEL_ERR_REMOVE_OK => exists h n, htlc_get (the_htlcs c) id owner = Some h /\
      h_r h = None /\ opens h preimage = true /\ removal_state (h_state h) = Some n /\
      c' = with_htlc c owner id (fun h => set_h_state n (set_h_r (Some preimage) h))
  | CHANNEL_ERR_HTLC_UNCOMMITTED | CHANNEL_ERR_HTLC_NOT_IRREVOCABLE => True
  | _ => c' = c
  end.
Proof.
  unfold channel_fulfill_htlc, channel_get_htlc. intros H. apply bind_Ret_inv in H as (r & Hr & H).
  destruct (htlcs c) as [l|] eqn:El; [|done]. injection Hr as <-.
  assert (the_htlcs c = l) as Hl by (unfold the_htlcs; by rewrite El). rewrite Hl.
  destruct (htlc_get l id owner) as [h|]; [|by injection H as <- <-].
  destruct (h_r h) eqn:Er; [by injection H as <- <-|]. fold (opens h preimage) in H.
  destruct (opens h preimage) eqn:Eo; cbn [negb] in H; [|by injection H as <- <-].
  destruct (negb _); [by injection H as <- _|].
  destruct (removal_state (h_state h)) as [n|] eqn:En; [|by injection H as <- _].
  injection H as <- <-. exists h, n. repeat split; try done.
  unfold with_htlc. cbn. by rewrite update_htlc_twice.
Qed.
End Remove.

Lemma fail_effect c owner id e c' :
  channel_fail_htlc c owner id = Ret (e, c') ->
  match e with
  | CHANNEL_ERR_REMOVE_OK => exists h n, htlc_get (the_htlcs c) id owner = Some h /\
      removal_state (h_state h) = Some n /\ c' = with_htlc c owner id (set_h_state n)
  | _ => c' = c
  end.
Proof.
  unfold channel_fail_htlc, channel_get_htlc. intros H. apply bind_Ret_inv in H as (r & Hr & H).
  destruct (htlcs c) as [l|] eqn:El; [|done]. injection Hr as <-.
  assert (the_htlcs c = l) as Hl by (unfold the_htlcs; by rewrite El). rewrite Hl.
  destruct (htlc_get l id owner) as [h|]; [|by injection H as <- <-].
  destruct (negb _); [by injection H as <- <-|].
  destruct (removal_state (h_state h)) as [n|] eqn:En; [|by injection H as <- <-].
  injection H as <- <-. by exists h, n.
Qed.

(** ** Every step *)

Section Steps.
Context (params : chainparams) (sha256 : list Z -> list Z)
  (point_lock_opens : list Z -> list Z -> bool).

(** What channeld notes of an HTLC it just added or removed. *)
Definition annotation (g : htlc -> htlc) : Prop :=
  (exists point, g = set_h_lock_point point) \/ (exists f, g = set_h_failed f).

(** One successful operation: what channeld does to its channel while it runs. *)
Inductive chan_step (c : channel) : channel -> Prop :=
| step_add sender id amount expiry hash routing path_key extra err_immediate lane r :
    0 <= millisatoshis amount ->
    channel_add_lane_htlc params c sender id amount expiry hash routing path_key extra err_immediate lane
      = Ret r ->
    add_err r = CHANNEL_ERR_ADD_OK -> chan_step c (add_chan r)
| step_fulfill owner id preimage c' :
    channel_fulfill_htlc sha256 point_lock_opens c owner id preimage = Ret (CHANNEL_ERR_REMOVE_OK, c') ->
    chan_step c c'
| step_fail owner id c' :
    channel_fail_htlc c owner id = Ret (CHANNEL_ERR_REMOVE_OK, c') -> chan_step c c'
| step_feerate feerate c' :
    channel_update_feerate params c feerate = Ret (true, c') -> chan_step c c'
| step_blockheight height c' :
    channel_update_blockheight c height = Ret c' -> chan_step c c'
| step_swap_request req :
    chan_step c (set_swap_req req c)
| step_swap_add w c' :
    0 <= millisatoshis (swap_give w) -> 0 <= millisatoshis (swap_take w) ->
    channel_sym_swap_check c w = Ret None -> channel_sym_swap_add c w = Ret c' -> chan_step c c'
| step_swap_done c' :
    channel_sym_swap_done c = (true, c') -> chan_step c c'
| step_sending_commit b chg c' :
    channel_sending_commit c = Ret (b, chg, c') -> chan_step c c'
| step_rcvd_revoke_and_ack b chg c' :
    channel_rcvd_revoke_and_ack c = Ret (b, chg, c') -> chan_step c c'
| step_rcvd_commit b chg c' :
    channel_rcvd_commit c = Ret (b, chg, c') -> chan_step c c'
| step_sending_revoke_and_ack b chg c' :
    channel_sending_revoke_and_ack c = Ret (b, chg, c') -> chan_step c c'
| step_annotate owner id h g :
    htlc_get (the_htlcs c) id owner = Some h -> annotation g -> chan_step c (with_htlc c owner id g)
| step_limits conf floor :
    chan_step c (set_credit_floor floor (set_config conf c)).

Lemma bind_change {B} (o : outcome (Z * list htlc * channel)) (g : Z -> list htlc -> channel -> B) r :
  ('(f, chg, c) ← o; Ret (g f chg c)) = Ret r -> exists f chg c, o = Ret (f, chg, c) /\ r = g f chg c.
Proof. destruct o as [[[f chg] c]|]; [|done]. intros [= <-]. by exists f, chg, c. Qed.

Lemma commit_step_sound {B} total c sc states (g : Z -> list htlc -> channel -> B * list htlc) b c' :
  steps_ok sc states -> sound total c ->
  ('(f, chg, c') ← change_htlcs c sc states; Ret (g f chg c', c')) = Ret (b, c') -> sound total c'.
Proof.
  intros Hok Hs H. apply bind_change in H as (f & chg & c1 & H & [= _ ->]).
  by eapply change_htlcs_sound.
Qed.

Lemma add_sound total c sender id amount expiry hash routing path_key extra err lane r :
  0 <= millisatoshis amount -> sound total c -> fits total (add_chan r) ->
  channel_add_lane_htlc params c sender id amount expiry hash routing path_key extra err lane = Ret r ->
  sound total (add_chan r).
Proof.
  intros Ha Hs Hf H. apply add_htlc_effect in H. unfold all_or_nothing in H. case_decide.
  - destruct H as (h & _ & Hadd & E). rewrite E in *. eapply added_sound; try done.
    by destruct sender; [left|right].
  - by destruct H as [-> _].
Qed.

Lemma fulfill_sound total c owner id preimage c' :
  sound total c ->
  channel_fulfill_htlc sha256 point_lock_opens c owner id preimage = Ret (CHANNEL_ERR_REMOVE_OK, c') ->
  sound total c'.
Proof.
  intros Hs H. apply fulfill_effect in H as (h & n & Hg & _ & _ & Hn & ->).
  eapply with_htlc_sound; try done. intros v s. by apply (removal_state_adj (h_state h)).
Qed.

Lemma fail_sound total c owner id e c' :
  sound total c -> channel_fail_htlc c owner id = Ret (e, c') -> sound total c'.
Proof.
  intros Hs H. apply fail_effect in H. destruct e; try (by subst).
  destruct H as (h & n & Hg & Hn & ->). eapply with_htlc_sound; try done.
  intros v s. rewrite <- (set_h_r_id h) at 1. by apply (removal_state_adj (h_state h)).
Qed.

Lemma same_money_sound total c c' : same_money c c' -> sound total c -> sound total c'.
Proof.
  intros Hm (Hb & Ha & Hf). split; [by eapply same_money_balanced|]. split; [by eapply same_money_amounts|].
  intros lane. destruct Hm as (_ & -> & ->). apply Hf.
Qed.

(** A swap in its first state moved nothing yet. *)
Lemma swap_add_in_flight c w c' :
  channel_sym_swap_add c w = Ret c' ->
  c' = set_sym_swap (Some w) c /\ first_state (swap_state w) /\
  forall lane v s, in_flight c' lane v s = in_flight c lane v s.
Proof.
  unfold channel_sym_swap_add, assert_then. case_bool_decide as E; [|done].
  destruct (_ || _) eqn:Ew; [|done]. intros [= <-]. rewrite orb_true_iff, !bool_decide_eq_true in Ew.
  split; [done|]. split; [done|]. intros lane v s. unfold in_flight. rewrite E.
  change (the_htlcs (set_sym_swap (Some w) c)) with (the_htlcs c). cbn. destruct Ew as [-> | ->]; by destruct v.
Qed.

(** A swap that is done moved its legs for good. *)
Lemma swap_done_in_flight c c' :
  channel_sym_swap_done c = (true, c') ->
  exists w, chan_sym_swap c = Some w /\ c' = set_sym_swap None c /\
    (swap_state w = SENT_ADD_ACK_REVOCATION \/ swap_state w = RCVD_ADD_ACK_REVOCATION) /\
    forall lane v s, in_flight c lane v s = swap_legs lane s w + in_flight c' lane v s.
Proof.
  unfold channel_sym_swap_done. destruct (chan_sym_swap c) as [w|] eqn:E; [|done].
  destruct (_ || _) eqn:Es; [|done]. intros [= <-]. rewrite orb_true_iff, !bool_decide_eq_true in Es.
  exists w. split; [done|]. split; [done|]. split; [done|]. intros lane v s. unfold in_flight. rewrite E. cbn [swap_adj].
  assert (state_has (swap_state w) (HTLC_FLAG v HTLC_F_COMMITTED) = true) as ->.
  { destruct Es as [-> | ->]; by destruct v. }
  change (the_htlcs (set_sym_swap None c)) with (the_htlcs c). cbn [chan_sym_swap set_sym_swap swap_adj]. lia.
Qed.

Lemma swap_done_accounted base c c' w :
  accounted base c -> (forall v, view_owed c' v = view_owed c v) ->
  (forall lane v s, in_flight c lane v s = swap_legs lane s w + in_flight c' lane v s) ->
  accounted (fun lane s => base lane s + swap_legs lane s w) c'.
Proof. intros Ha Hv Hi v lane o s. rewrite Hv. intros Ho. rewrite (Ha v lane o s Ho), Hi. lia. Qed.

Lemma swap_add_sound total c w c' :
  0 <= millisatoshis (swap_give w) -> 0 <= millisatoshis (swap_take w) ->
  sound total c -> fits total c' -> channel_sym_swap_add c w = Ret c' -> sound total c'.
Proof.
  intros Hg Ht Hs Hf H. apply swap_add_in_flight in H as (-> & Hst & Hi).
  destruct Hs as ((base & Ha & Hb) & (Hamt & _ & Ho) & _). split; [|split; [|done]].
  - exists base. split; [|done]. intros v lane o s Hl. rewrite Hi. by apply Ha.
  - split; [done|]. split; [|done]. cbn. by destruct Hst as [-> | ->].
Qed.

Lemma swap_done_sound total c c' :
  sound total c -> channel_sym_swap_done c = (true, c') -> sound total c'.
Proof.
  intros ((base & Ha & Hb) & (Hamt & Hw & Ho) & Hf) H.
  apply swap_done_in_flight in H as (w & E & -> & _ & Hi). split; [|split].
  - exists (fun lane s => base lane s + swap_legs lane s w). split; [by eapply swap_done_accounted|].
    intros lane. pose proof (swap_legs_both lane w). specialize (Hb lane). lia.
  - done.
  - intros lane. specialize (Hf lane). rewrite E in Hf, Hw. destruct Hw as (_ & ? & ?).
    cbn [swap_size] in Hf. cbn [swap_size chan_sym_swap set_sym_swap].
    change (the_htlcs (set_sym_swap None c)) with (the_htlcs c). lia.
Qed.

Lemma chan_step_sound total c c' :
  sound total c -> fits total c' -> chan_step c c' -> sound total c'.
Proof.
  intros Hs Hf H. destruct H as [? ? ? ? ? ? ? ? ? ? r Ha H He|? ? ? ? H|? ? ? H|? ? H|? ? H|req|? ? Hg Ht _ H|? H|? ? ? H|? ? ? H|? ? ? H|? ? ? H|? ? h g Hget Hg0|? ?].
  - by eapply add_sound.
  - by eapply fulfill_sound.
  - by eapply fail_sound.
  - apply same_money_sound with c; [|done]. unfold channel_update_feerate in H. split_bind H.
    destruct x; [|done]. split_bind H. destruct x; [done|]. by injection H as <-.
  - apply same_money_sound with c; [|done]. unfold channel_update_blockheight in H.
    case_match; [|done]. by injection H as <-.
  - by apply same_money_sound with c.
  - by eapply swap_add_sound.
  - by eapply swap_done_sound.
  - eapply commit_step_sound; [apply sending_commit_ok|done|exact H].
  - eapply commit_step_sound; [apply rcvd_revoke_ok|done|exact H].
  - eapply commit_step_sound; [apply rcvd_commit_ok|done|exact H].
  - eapply commit_step_sound; [apply sending_revoke_ok|done|exact H].
  - by eapply with_htlc_sound; [..|destruct Hg0 as [[? ->]|[? ->]]|destruct Hg0 as [[? ->]|[? ->]]|destruct Hg0 as [[? ->]|[? ->]]].
  - by apply same_money_sound with c.
Qed.
Lemma chan_step_lanes total c c' :
  sound total c -> chan_step c c' -> length (lane_bals c') = length (lane_bals c).
Proof.
  intros Hs H. destruct H as [? ? ? ? ? ? ? ? ? ? r Ha H He|? ? ? ? H|? ? ? H|? ? H|? ? H|req|? ? Hg Ht _ H|? H|? ? ? H|? ? ? H|? ? ? H|? ? ? H|? ? h g Hget Hg0|? ?].
  - apply add_htlc_effect in H. unfold all_or_nothing in H. rewrite decide_True in H by done.
    by destruct H as (h & _ & _ & ->).
  - by apply fulfill_effect in H as (h & n & _ & _ & _ & _ & ->).
  - by apply fail_effect in H as (h & n & _ & _ & ->).
  - unfold channel_update_feerate in H. split_bind H. destruct x; [|done]. split_bind H.
    destruct x; [done|]. by injection H as <-.
  - unfold channel_update_blockheight in H. case_match; [|done]. by injection H as <-.
  - done.
  - unfold channel_sym_swap_add, assert_then in H. do 2 (case_match; [|done]). by injection H as <-.
  - unfold channel_sym_swap_done in H. repeat case_match; try done. by injection H as <-.
  - apply bind_change in H as (f & chg1 & c1 & H & [= _ _ ->]). by apply (change_htlcs_spec total _ _ _ _ _ _ sending_commit_ok Hs H).
  - apply bind_change in H as (f & chg1 & c1 & H & [= _ _ ->]). by apply (change_htlcs_spec total _ _ _ _ _ _ rcvd_revoke_ok Hs H).
  - apply bind_change in H as (f & chg1 & c1 & H & [= _ _ ->]). by apply (change_htlcs_spec total _ _ _ _ _ _ rcvd_commit_ok Hs H).
  - apply bind_change in H as (f & chg1 & c1 & H & [= _ _ ->]). by apply (change_htlcs_spec total _ _ _ _ _ _ sending_revoke_ok Hs H).
  - done.
  - done.
Qed.
End Steps.

(** ** Restoring *)

(** The balances of one view, out of both. *)
Definition proj (v : side) (b : list (sides (sides Z))) : balances := map (fun o => o.[v]) b.

Lemma adjust_view_spec h v b b' x :
  (forall s, b.[s] = wrap_s64 (x s)) -> adjust_view h v b = Some b' ->
  forall s, b'.[s] = wrap_s64 (x s + adj v s h).
Proof.
  intros Hb. unfold adjust_view, adj. fold (was_committed v h).
  destruct (was_committed v h); cbn [negb]; [|intros [= <-] s; by rewrite Hb, Z.add_0_r].
  assert (forall s, (mk_sides (balance_add_htlc b.[LOCAL] h LOCAL) (balance_add_htlc b.[REMOTE] h REMOTE)).[s]
            = wrap_s64 (x s + delta_add s h)) as E.
  { intros s. rewrite <- balance_add_htlc_wrap, <- Hb. by destruct s. }
  destruct (is_committed v h); [intros [= <-] s; by rewrite E, Z.add_0_r|].
  intros H. assert (b' = mk_sides (balance_remove_htlc (balance_add_htlc b.[LOCAL] h LOCAL) h LOCAL)
                           (balance_remove_htlc (balance_add_htlc b.[REMOTE] h REMOTE) h REMOTE)) as ->.
  { destruct (h_failed h), (h_r h); first [done|by injection H as <-]. }
  intros s. rewrite Z.add_assoc, <- balance_remove_htlc_wrap, <- E. by destruct s.
Qed.

Lemma adjust_balance_spec h o o' x :
  (forall v s, o.[v].[s] = wrap_s64 (x v s)) -> adjust_balance o h = Some o' ->
  forall v s, o'.[v].[s] = wrap_s64 (x v s + adj v s h).
Proof.
  intros Ho. unfold adjust_balance. destruct (adjust_view h LOCAL _) as [l|] eqn:El; [|done].
  destruct (adjust_view h REMOTE _) as [r|] eqn:Er; [|done]. intros [= <-] v.
  destruct v; [exact (adjust_view_spec _ _ _ _ _ (Ho LOCAL) El)|exact (adjust_view_spec _ _ _ _ _ (Ho REMOTE) Er)].
Qed.

Lemma represents_insert b x lane o z :
  represents b x -> (forall s, o.[s] = wrap_s64 (x lane s + z s)) ->
  represents (<[lane := o]> b) (fun l s => x l s + if (lane =? l)%nat then z s else 0).
Proof.
  intros Hb Ho l p s. rewrite list_lookup_insert. destruct (Nat.eqb_spec lane l) as [<-|Hne].
  - case_decide; [intros [= <-]; apply Ho|]. intros Hp. exfalso. apply H. split; [done|].
    by apply lookup_lt_Some in Hp.
  - rewrite decide_False by naive_solver. rewrite Z.add_0_r. apply Hb.
Qed.

(** The HTLC an entry of the stored list describes. *)
Definition ex_htlc (e : existing_htlc) : htlc :=
  mk_htlc (ex_state e) (ex_id e) (ex_amount e) (ex_cltv_expiry e) (ex_payment_hash e)
    (ex_payment_preimage e) (ex_lock_point e) (ex_lane e) (ex_failed e) (ex_onion_routing_packet e)
    (ex_path_key e) (ex_extra_tlvs e) false.

(** Depends on what is stored of an HTLC only. *)
Definition respects (f : htlc -> Z) : Prop :=
  forall h h', h_state h = h_state h' -> h_amount h = h_amount h' -> h_r h = h_r h' -> f h = f h'.

Lemma adj_respects v s : respects (adj v s).
Proof.
  intros h h' Es Ea Er.
  unfold adj, delta_add, delta_remove, was_committed, is_committed, htlc_has, paid_to, htlc_owner, amt.
  by rewrite Es, Ea, Er.
Qed.

(** What identifies an HTLC. *)
Definition key (h : htlc) : Z * side := (h_id h, htlc_owner h).

Section Force.
Context (params : chainparams).

Lemma force_each_spec l : forall c b x c' b',
  force_each params l c b = Ret (Some (c', b')) ->
  (forall e, e ∈ l -> 0 <= millisatoshis (ex_amount e)) ->
  (forall v, represents (proj v b) (fun lane s => x lane s + lane_sum (adj v s) lane (the_htlcs c))) ->
  (forall v, view_owed c' v = view_owed c v) /\ chan_sym_swap c' = chan_sym_swap c /\
  length b' = length b /\
  (forall v, represents (proj v b') (fun lane s => x lane s + lane_sum (adj v s) lane (the_htlcs c'))) /\
  ((forall h, h ∈ the_htlcs c -> 0 <= amt h) -> forall h, h ∈ the_htlcs c' -> 0 <= amt h) /\
  (forall f lane, respects f -> lane_sum f lane (the_htlcs c') =
     lane_sum f lane (map ex_htlc l) + lane_sum f lane (the_htlcs c)).
Proof.
  induction l as [|e l IH]; intros c b x c' b' H Hl Hb; cbn [force_each] in H.
  { injection H as <- <-. done. }
  split_bind H. apply add_htlc_effect in Hx. unfold all_or_nothing in Hx.
  destruct (add_err x0) eqn:He; try done. rewrite decide_True in Hx by done.
  destruct Hx as (h & Hh & Hadd & Hc). rewrite Hh, Hc in H. cbn [htlcs set_htlcs] in H.
  set (h' := restored e h) in *. destruct (b !! h_lane h') as [o|] eqn:Ho; [|done].
  destruct (adjust_balance o h') as [o'|] eqn:Ha; [|done].
  apply (IH _ _ x) in H; [| set_solver |].
  - destruct H as (V & S & L & R & P & T). rewrite length_insert in L.
    destruct Hadd as (Est & _ & Eam & Ela & _).
    split; [done|]. split; [done|]. split; [done|]. split; [done|]. split.
    + intros Hc0. apply P. intros y [->|Hy]%elem_of_cons; [|by apply Hc0]. unfold amt. cbn.
      rewrite Eam. apply Hl. set_solver.
    + intros f lane Hf. rewrite (T f lane Hf). cbn [map].
      change (the_htlcs (set_htlcs (Some (h' :: the_htlcs c)) _)) with (h' :: the_htlcs c).
      rewrite !lane_sum_cons. replace (f (ex_htlc e)) with (f h').
      2: { apply Hf; [exact Est|exact Eam|done]. }
      replace (h_lane (ex_htlc e)) with (h_lane h') by (by cbn; rewrite Ela). lia.
  - intros v. unfold proj. rewrite list_fmap_insert.
    assert (forall l' v, (fun (o : sides (sides Z)) => o.[v]) <$> l' = proj v l') as Ef by done. rewrite Ef.
    intros lane p s Hp. eapply represents_insert with (z := fun s => adj v s h') in Hp; [|apply (Hb v)|].
    + rewrite Hp. f_equal.
      change (the_htlcs (set_htlcs (Some (h' :: the_htlcs c)) _)) with (h' :: the_htlcs c).
      rewrite lane_sum_cons. lia.
    + intros t. apply (adjust_balance_spec h' o o'
        (fun v s => x (h_lane h') s + lane_sum (adj v s) (h_lane h') (the_htlcs c))); [|done]. intros v' s'.
      apply (Hb v'). unfold proj. rewrite list_lookup_fmap, Ho. done.
Qed.
Lemma proj_zip_upd v w b os :
  length os = length b ->
  proj w (zip_with (fun o n => upd v n o) b os) = if decide (v = w) then os else proj w b.
Proof.
  unfold proj. revert os. induction b as [|o b IH]; intros [|n os] L; try done; [by case_decide|].
  injection L as L. cbn [zip_with map]. rewrite (IH os L), sel_upd. by case_decide.
Qed.

Lemma force_swap_spec w v b b' x :
  force_swap w v b = Ret b' -> (forall u, represents (proj u b) (x u)) ->
  length b' = length b /\
  forall u, represents (proj u b') (fun lane s => x u lane s +
    if decide (v = u) then swap_adj v lane s (Some w) else 0).
Proof.
  unfold force_swap. cbn [swap_adj]. intros H Hb. destruct (state_has _ _); cbn [negb] in H.
  2: { injection H as <-. split; [done|]. intros u lane o s Ho. rewrite (Hb u lane o s Ho).
       f_equal. case_decide; lia. }
  split_bind H. injection H as <-. apply (balance_swap_spec _ _ (x v)) in Hx as [L R]; [|apply Hb].
  rewrite length_map in L. split; [rewrite length_zip_with; lia|].
  intros u. rewrite proj_zip_upd by done. case_decide as E.
  - subst u. apply R.
  - intros lane o s Ho. rewrite Z.add_0_r. by apply Hb.
Qed.

Lemma adj_bound v s h : 0 <= amt h -> Z.abs (adj v s h) <= amt h.
Proof. unfold adj, delta_add, delta_remove. repeat case_match; lia. Qed.

(** The balances stored without what is in flight, then the HTLCs and the swap. *)
Definition stored (base : nat -> side -> Z) (total : nat -> Z) (c : channel) : Prop :=
  (forall v lane o s, view_owed c v !! lane = Some o -> millisatoshis o.[s] = base lane s) /\
  (forall lane s, 0 <= base lane s) /\
  (forall lane, base lane LOCAL + base lane REMOTE = total lane) /\ the_htlcs c = [] /\
  match chan_sym_swap c with
  | None => True
  | Some w => being_added (swap_state w) = true /\
              0 <= millisatoshis (swap_give w) /\ 0 <= millisatoshis (swap_take w)
  end.
Lemma proj_zip v bl br :
  length bl = length br -> proj v (zip_with mk_sides bl br) = match v with LOCAL => bl | REMOTE => br end.
Proof.
  unfold proj. revert br. induction bl as [|x bl IH]; intros [|y br] L; try done; [by destruct v|].
  injection L as L. cbn [zip_with map]. rewrite IH by done. by destruct v.
Qed.

(** Before the swap: what [force_each] is given. *)
Lemma force_start base total c bl br :
  stored base total c ->
  all_to_balances (view_owed c LOCAL) = Ret bl -> all_to_balances (view_owed c REMOTE) = Ret br ->
  length (zip_with mk_sides bl br) = S (length (lane_bals c)) /\
  forall v, represents (proj v (zip_with mk_sides bl br))
    (fun lane s => base lane s + lane_sum (adj v s) lane (the_htlcs c)).
Proof.
  intros (Hv & _ & _ & -> & _) [Ll Rl]%all_to_balances_spec [Lr Rr]%all_to_balances_spec.
  rewrite view_owed_length in Ll, Lr. rewrite length_zip_with. split; [lia|].
  intros v lane o s. rewrite proj_zip by congruence. unfold lane_sum. simpl. rewrite Z.add_0_r.
  destruct v; intros Ho.
  - rewrite (Rl lane o s Ho). destruct (lookup_lt_is_Some_2 (view_owed c LOCAL) lane) as [p Hp].
    { rewrite view_owed_length, <- Ll. by eapply lookup_lt_Some. }
    rewrite Hp. by rewrite (Hv LOCAL lane p s Hp).
  - rewrite (Rr lane o s Ho). destruct (lookup_lt_is_Some_2 (view_owed c REMOTE) lane) as [p Hp].
    { rewrite view_owed_length, <- Lr. by eapply lookup_lt_Some. }
    rewrite Hp. by rewrite (Hv REMOTE lane p s Hp).
Qed.

(** Both views take the swap in. *)
Lemma force_swaps swap b b' x :
  match swap with
  | None => Ret b
  | Some w => b ← force_swap w LOCAL b; force_swap w REMOTE b
  end = Ret b' ->
  (forall v, represents (proj v b) (x v)) ->
  length b' = length b /\
  forall v, represents (proj v b') (fun lane s => x v lane s + swap_adj v lane s swap).
Proof.
  intros H Hb. destruct swap as [w|].
  - split_bind H. apply (force_swap_spec _ _ _ _ x) in Hx as [L1 R1]; [|done].
    pose proof (force_swap_spec _ _ _ _ _ H R1) as [L2 R2]. split; [congruence|].
    intros v lane o s Ho. rewrite (R2 v lane o s Ho). f_equal. destruct v; simpl; lia.
  - injection H as <-. split; [done|]. intros v lane o s Ho. rewrite (Hb v lane o s Ho). simpl. f_equal. lia.
Qed.

(** The pieces of [channel_force_htlcs]: the views are exactly the balances
    computed, all of them non-negative. *)
Lemma force_htlcs_inv base total c l c' :
  stored base total c -> (forall e, e ∈ l -> 0 <= millisatoshis (ex_amount e)) ->
  channel_force_htlcs params c l = Ret (Some c') ->
  chan_sym_swap c' = chan_sym_swap c /\ (forall h, h ∈ the_htlcs c' -> 0 <= amt h) /\
  (forall f lane, respects f -> lane_sum f lane (the_htlcs c') = lane_sum f lane (map ex_htlc l)) /\
  (forall v, length (view_owed c' v) = length (view_owed c v)) /\
  forall v lane o s, view_owed c' v !! lane = Some o ->
    millisatoshis o.[s] = wrap_s64 (base lane s + in_flight c' lane v s) /\ 0 <= millisatoshis o.[s].
Proof.
  intros Hst Hl. unfold channel_force_htlcs. intros H.
  apply bind_Ret_inv in H as (bl & Hbl & H). apply bind_Ret_inv in H as (br & Hbr & H).
  destruct (force_start _ _ _ _ _ Hst Hbl Hbr) as [L0 R0].
  apply bind_Ret_inv in H as ([[c1 b]|] & Hf & H); [|done].
  apply (force_each_spec _ _ _ base) in Hf as (V1 & S1 & L1 & R1 & P1 & Q1); [|done..].
  apply bind_Ret_inv in H as (b2 & Hw & H).
  apply (force_swaps _ _ _ _ Hw) in R1 as [L2 R2].
  destruct (all_balances_ok (map _ b2)) as [ol|] eqn:El; [|done].
  destruct (all_balances_ok (map (fun o => o.[REMOTE]) b2)) as [or|] eqn:Er; [|done].
  apply bind_Ret_inv in H as (c2 & Hc2 & H). apply bind_Ret_inv in H as (c3 & Hc3 & [= <-]).
  destruct (all_balances_ok_spec _ _ El) as [Lol Rol]. destruct (all_balances_ok_spec _ _ Er) as [Lor Ror].
  rewrite length_map in Lol, Lor. assert (forall v, length (view_owed c1 v) = length b2) as Lv.
  { intros v. rewrite V1, view_owed_length. congruence. }
  apply set_view_owed_spec in Hc2 as (V2 & T2 & S2); [|by rewrite Lv].
  apply set_view_owed_spec in Hc3 as (V3 & T3 & S3); [|rewrite V2, decide_False by done; by rewrite Lv].
  assert (the_htlcs c3 = the_htlcs c1) as ET by (unfold the_htlcs; by rewrite T3, T2).
  assert (chan_sym_swap c3 = chan_sym_swap c1) as ES by congruence.
  destruct Hst as (_ & _ & _ & Hst & _). rewrite Hst in *.
  split; [congruence|]. split; [rewrite ET; apply P1; set_solver|].
  split; [intros f lane Hf; rewrite ET, (Q1 f lane Hf); apply Z.add_0_r|].
  split; [by intros v; rewrite V3, V2, !view_owed_length; destruct v; simpl; congruence|].
  intros v lane o s. rewrite V3, V2. unfold in_flight. rewrite ET, ES, Z.add_assoc.
  destruct v; cbn [decide]; intros Ho; [destruct (Rol lane o Ho) as (p & Hp & Hs)|destruct (Ror lane o Ho) as (p & Hp & Hs)];
    destruct (Hs s) as [-> Hpos]; (split; [|done]); [apply (R2 LOCAL _ _ _ Hp)|apply (R2 REMOTE _ _ _ Hp)].
Qed.

Lemma force_htlcs_sound base total c l c' :
  stored base total c -> (forall e, e ∈ l -> 0 <= millisatoshis (ex_amount e)) -> fits total c' ->
  channel_force_htlcs params c l = Ret (Some c') -> accounted base c' /\ sound total c'.
Proof.
  intros Hst Hl Hf H. destruct (force_htlcs_inv _ _ _ _ _ Hst Hl H) as (Hsw & Ha & _ & _ & Hv).
  destruct Hst as (_ & Hpos & Hsum & _ & Hw). rewrite <- Hsw in Hw.
  assert (accounted base c') as Hacc.
  { intros v lane o s Ho. rewrite (proj1 (Hv v lane o s Ho)). apply wrap_s64_small.
    pose proof (lane_sum_bound (adj v s) lane (the_htlcs c') (fun h Hh => adj_bound v s h (Ha h Hh))).
    assert (Z.abs (swap_adj v lane s (chan_sym_swap c')) <= swap_size (chan_sym_swap c')).
    { destruct (chan_sym_swap c') as [w|]; [|done]. cbn [swap_adj]. destruct Hw as (_ & Hg & Ht).
      pose proof (swap_legs_bound lane s w Hg Ht). case_if; [done|simpl; lia]. }
    specialize (Hf lane). specialize (Hsum lane). pose proof (Hpos lane LOCAL). pose proof (Hpos lane REMOTE).
    unfold in_flight. destruct s; lia. }
  split; [done|]. split; [by exists base|]. split; [|done].
  split; [done|]. split; [done|]. intros v lane o s Ho. apply (Hv v lane o s Ho).
Qed.
End Force.
