(* ===== verification/History.v ===== *)
(** * The life of a channel

    channeld makes its channel of what lightningd stored ([init_channel]) and
    then takes one step after another.  Here: the channel it starts with is
    accounted for, so every channel it ever has is; nothing is lost or made in
    any view; when nothing is in flight both views agree; a restart finds the
    balances again, whatever the order of the table; and ids stay unique. *)

From stdpp Require Import list relations sorting.
From S2P Require Import Prelude Chainparams Amount HtlcState FeeStates CommitFee Features ChannelState Channel Example ChannelInv ChannelSteps.
Local Open Scope Z_scope.

(** What each lane was funded with, in millisatoshis of its asset. *)
Definition capacity (funding_sats : amount_sat_t) (lanes : list sym_lane) (lane : nat) : Z :=
  match lane with
  | O => satoshis funding_sats * 1000
  | S l => match lanes !! l with Some x => satoshis (lane_funding_sats x) * 1000 | None => 0 end
  end.

(** ** The channel channeld starts with *)

Definition split_ok (total : Z) (o : sides amount_msat_t) : Prop :=
  0 <= millisatoshis o.[LOCAL] /\ 0 <= millisatoshis o.[REMOTE] /\
  millisatoshis o.[LOCAL] + millisatoshis o.[REMOTE] = total.

Lemma sub_msat_split sats mine remote :
  wf_sat sats -> 0 <= millisatoshis mine -> amount_sat_sub_msat sats mine = Some remote ->
  split_ok (satoshis sats * 1000) (mk_sides mine remote).
Proof.
  intros Hw Hm H. pose proof (amount_sat_sub_msat_spec _ _ _ Hw H). unfold amount_sat_sub_msat in H.
  destruct (amount_sat_to_msat sats); [|done]. apply amount_msat_sub_spec in H as [? ->].
  unfold split_ok. simpl in *. lia.
Qed.

Lemma lane_balances_spec lanes : forall local bals,
  (forall x, x ∈ lanes -> wf_sat (lane_funding_sats x)) ->
  (forall m, m ∈ local -> 0 <= millisatoshis m) ->
  lane_balances lanes local = Ret bals ->
  length bals = length lanes /\
  forall l b, bals !! l = Some b ->
    exists x o, lanes !! l = Some x /\ lane_owed b = mk_sides o o /\ local !! l = Some o.[LOCAL] /\
      split_ok (satoshis (lane_funding_sats x) * 1000) o.
Proof.
  induction lanes as [|x lanes IH]; intros local bals Hw Hm H; cbn [lane_balances] in H.
  { injection H as <-. done. }
  destruct local as [|mine local]; [done|].
  destruct (amount_sat_sub_msat _ mine) as [remote|] eqn:E; [|done]. split_bind H. injection H as <-.
  apply IH in Hx as [L R]; [|set_solver..]. split; [by simpl; rewrite L|].
  intros [|l] b Hb; [|by apply R]. injection Hb as <-. exists x, (mk_sides mine remote).
  do 3 (split; [done|]). apply sub_msat_split; [apply Hw; set_solver|apply Hm; set_solver|done].
Qed.

(** Both views hold the same split of every lane: [mine] and the rest. *)
Definition fresh (funding_sats : amount_sat_t) (lanes : list sym_lane) (mine : list amount_msat_t)
    (c : channel) : Prop :=
  the_htlcs c = [] /\ length (lane_bals c) = length lanes /\ view_owed c REMOTE = view_owed c LOCAL /\
  forall lane o, view_owed c LOCAL !! lane = Some o ->
    mine !! lane = Some o.[LOCAL] /\ split_ok (capacity funding_sats lanes lane) o.

Lemma fresh_stored funding_sats lanes mine c :
  wf_sat funding_sats -> (forall x, x ∈ lanes -> wf_sat (lane_funding_sats x)) ->
  fresh funding_sats lanes mine c ->
  match chan_sym_swap c with
  | None => True
  | Some w => being_added (swap_state w) = true /\
              0 <= millisatoshis (swap_give w) /\ 0 <= millisatoshis (swap_take w)
  end ->
  exists base, stored base (capacity funding_sats lanes) c.
Proof.
  intros Hf Hl (Ht & _ & Hv & Ho) Hw.
  assert (forall lane, 0 <= capacity funding_sats lanes lane) as Hcap.
  { intros [|l]; simpl; [lia|]. destruct (lanes !! l) eqn:E; [|done].
    apply list_elem_of_lookup_2, Hl in E. lia. }
  exists (fun lane s => match view_owed c LOCAL !! lane with
            | Some o => millisatoshis o.[s]
            | None => match s with LOCAL => capacity funding_sats lanes lane | REMOTE => 0 end
            end).
  split; [|split; [|split; [|done]]].
  - intros v lane o s H. replace (view_owed c v) with (view_owed c LOCAL) in H by (by destruct v). by rewrite H.
  - intros lane s. specialize (Hcap lane). destruct (_ !! lane) eqn:E; [|by destruct s].
    apply Ho in E as (_ & ? & ? & ?). by destruct s.
  - intros lane. destruct (_ !! lane) eqn:E; [|lia]. by apply Ho in E as (_ & _ & _ & ?).
Qed.

Section Init.
Context (params : chainparams).

Lemma init_fresh cid funding depth heights lease funding_sats local_msat fees local remote obscurer
    type wumbo opener asset lanes lane_msat swap req c0 c1 :
  wf_sat funding_sats -> 0 <= millisatoshis local_msat ->
  (forall x, x ∈ lanes -> wf_sat (lane_funding_sats x)) ->
  (forall m, m ∈ lane_msat -> 0 <= millisatoshis m) ->
  new_full_channel params cid funding depth heights lease funding_sats local_msat fees local remote
    obscurer type wumbo opener = Some c0 ->
  attach_lanes asset lanes lane_msat (set_asset asset c0) = Ret c1 ->
  fresh funding_sats lanes (local_msat :: lane_msat) (set_swap_req req (set_sym_swap swap c1)).
Proof.
  intros Hf Hm Hl Hlm H0 H1. unfold new_full_channel, new_initial_channel in H0.
  destruct (amount_sat_sub_msat funding_sats local_msat) as [r|] eqn:E; [|done]. injection H0 as <-.
  pose proof (sub_msat_split _ _ _ Hf Hm E) as Hs.
  unfold attach_lanes in H1. destruct lanes as [|x lanes].
  { injection H1 as <-. do 3 (split; [done|]). intros [|lane] o Ho; by inversion Ho. }
  set (ls := x :: lanes) in *. unfold assert_then in H1. case_match; [|done]. split_bind H1. injection H1 as <-.
  apply lane_balances_spec in Hx as [L R]; [|done..].
  split; [done|]. split; [done|]. split.
  - unfold view_owed, lane_bals. cbn. f_equal. apply map_ext_in. intros b Hb%list_elem_of_In.
    apply list_elem_of_lookup_1 in Hb as [l Hb]. by destruct (R l b Hb) as (? & o & _ & -> & _ & _).
  - intros [|l] o Ho; [by injection Ho as <-|].
    change (((fun b => (lane_owed b).[LOCAL]) <$> x0) !! l = Some o) in Ho.
    rewrite list_lookup_fmap in Ho. destruct (x0 !! l) as [b|] eqn:Eb; [|done]. injection Ho as <-.
    destruct (R l b Eb) as (y & o & Hy & -> & Hm0 & Hok). cbn [capacity]. by rewrite Hy.
Qed.
End Init.

Lemma NoDup_map_key (l : list htlc) a b : NoDup (map key l) -> a ∈ l -> b ∈ l -> key a = key b -> a = b.
Proof.
  induction l as [|x l IH]; [set_solver|]. cbn [map]. rewrite NoDup_cons.
  intros [Hx Hn] [->|Ha]%elem_of_cons [->|Hb]%elem_of_cons Hk; [done|..|by apply IH].
  - exfalso. apply Hx. apply list_elem_of_fmap. by exists b.
  - exfalso. apply Hx. apply list_elem_of_fmap. by exists a.
Qed.

Lemma existsb_not_true {A} (f : A -> bool) l : (forall x, x ∈ l -> f x = false) -> existsb f l = false.
Proof.
  induction l as [|x l IH]; [done|]. intros H. simpl. rewrite H by set_solver. apply IH. set_solver.
Qed.

(** ** Reachable channels *)

(** A balance without what is in flight: what is stored for it. *)
Definition base_of (c : channel) (lane : nat) (s : side) : Z :=
  match view_owed c LOCAL !! lane with
  | Some o => millisatoshis o.[s] - in_flight c lane LOCAL s
  | None => 0
  end.

(** What is stored of an HTLC of the table. *)
Definition remember (h : htlc) : existing_htlc :=
  mk_existing (h_id h) (h_state h) (h_amount h) (h_rhash h) (h_expiry h) (h_routing h) (h_path_key h)
    (h_r h) (h_failed h) (h_extra_tlvs h) (h_lock_point h) (h_lane h).

(** [mine] are the stored balances of the lanes of [c]. *)
Definition remembers (c : channel) (mine : list amount_msat_t) : Prop :=
  forall lane m, mine !! lane = Some m -> millisatoshis m = base_of c lane LOCAL.

Definition swap_nonneg (w : option sym_swap) : Prop :=
  match w with
  | None => True
  | Some w => 0 <= millisatoshis (swap_give w) /\ 0 <= millisatoshis (swap_take w)
  end.

(** What is in flight or asked for counts, with the lane, in an [s64]. *)
Definition within (total : nat -> Z) (c : channel) : Prop :=
  swap_nonneg (sym_swap_req c) /\
  forall lane, total lane + sum_with amt (the_htlcs c) + swap_size (chan_sym_swap c)
               + swap_size (sym_swap_req c) <= INT64_MAX.

Lemma within_fits total c : within total c -> fits total c.
Proof.
  intros [Hn H] lane. specialize (H lane). destruct (sym_swap_req c); simpl in *; lia.
Qed.

Section Reach.
Context (params : chainparams) (sha256 : list Z -> list Z)
  (point_lock_opens : list Z -> list Z -> bool)
  (funding_sats : amount_sat_t) (lanes : list sym_lane).

(** Opened, then any sequence of operations and of restarts, as long as what is
    in flight counts in an [s64] ([within]): the program itself does not ensure
    it (see [add_htlc_wraps]). *)
Inductive reachable : channel -> Prop :=
| reach_open cid funding depth heights lease local_msat fees local remote obscurer type wumbo opener
    asset lane_msat c :
    wf_sat funding_sats -> (forall x, x ∈ lanes -> wf_sat (lane_funding_sats x)) ->
    (forall m, m ∈ local_msat :: lane_msat -> 0 <= millisatoshis m) ->
    init_channel params cid funding depth heights lease funding_sats local_msat fees local remote
      obscurer type wumbo opener asset lanes lane_msat None None [] = Ret c ->
    within (capacity funding_sats lanes) c -> reachable c
| reach_step c c' :
    reachable c -> chan_step params sha256 point_lock_opens c c' ->
    within (capacity funding_sats lanes) c' -> reachable c'
| reach_restart c cid funding depth heights lease local_msat fees local remote obscurer type wumbo opener
    asset lane_msat req existing c' :
    reachable c -> (forall m, m ∈ local_msat :: lane_msat -> 0 <= millisatoshis m) ->
    remembers c (local_msat :: lane_msat) -> existing ≡ₚ map remember (the_htlcs c) ->
    init_channel params cid funding depth heights lease funding_sats local_msat fees local remote
      obscurer type wumbo opener asset lanes lane_msat (chan_sym_swap c) req existing = Ret c' ->
    within (capacity funding_sats lanes) c' -> reachable c'.

Definition funded : Prop :=
  wf_sat funding_sats /\ forall x, x ∈ lanes -> wf_sat (lane_funding_sats x).

Lemma reachable_funded c : reachable c -> funded.
Proof. by induction 1. Qed.

Lemma init_inv cid funding depth heights lease local_msat fees local remote obscurer type wumbo opener
    asset lane_msat swap req existing c :
  funded -> (forall m, m ∈ local_msat :: lane_msat -> 0 <= millisatoshis m) ->
  match swap with
  | None => True
  | Some w => being_added (swap_state w) = true /\
              0 <= millisatoshis (swap_give w) /\ 0 <= millisatoshis (swap_take w)
  end ->
  init_channel params cid funding depth heights lease funding_sats local_msat fees local remote
    obscurer type wumbo opener asset lanes lane_msat swap req existing = Ret c ->
  exists c0 base, stored base (capacity funding_sats lanes) c0 /\
    fresh funding_sats lanes (local_msat :: lane_msat) c0 /\ chan_sym_swap c0 = swap /\
    channel_force_htlcs params c0 existing = Ret (Some c).
Proof.
  intros [Hf Hl] Hm Hw H. unfold init_channel in H.
  destruct (new_full_channel _ _ _ _ _ _ _ _ _ _ _ _ _ _ _) as [c0|] eqn:E0; [|done].
  split_bind H. rename x into c1. split_bind H. destruct x as [c2|]; [|done]. injection H as ->.
  pose proof (Hm local_msat (list_elem_of_here _ _)) as Hm0.
  assert (forall m, m ∈ lane_msat -> 0 <= millisatoshis m) as Hm1 by (intros m Hin; apply Hm; by constructor).
  pose proof (init_fresh _ _ _ _ _ _ _ _ _ _ _ _ _ _ _ _ _ _ swap req _ _ Hf Hm0 Hl Hm1 E0 Hx) as Hfresh.
  destruct (fresh_stored _ _ _ _ Hf Hl Hfresh) as [base Hb]; [exact Hw|].
  by exists (set_swap_req req (set_sym_swap swap c1)), base.
Qed.

Lemma remember_nonneg c existing e :
  amounts_ok c -> existing ≡ₚ map remember (the_htlcs c) -> e ∈ existing -> 0 <= millisatoshis (ex_amount e).
Proof. intros (Ha & _) Hp. rewrite Hp. intros (h & -> & Hh)%list_elem_of_fmap. by apply Ha. Qed.

Lemma reachable_sound c : reachable c -> sound (capacity funding_sats lanes) c.
Proof.
  induction 1 as [? ? ? ? ? ? ? ? ? ? ? ? ? ? ? c Hf Hl Hm H Hfit|c c' _ IH Hs Hfit
    |c ? ? ? ? ? ? ? ? ? ? ? ? ? ? ? ? existing c' Hr (_ & Ha & _) Hm Hb Hp H Hfit].
  - apply init_inv in H as (c0 & base & Hb & _ & _ & H); [|done..].
    eapply force_htlcs_sound; try done; [by intros ? ?%elem_of_nil|by apply within_fits].
  - eapply chan_step_sound; [done| |done]. by apply within_fits.
  - apply init_inv in H as (c0 & base & Hst & _ & _ & H); [|by apply (reachable_funded c)|done|apply Ha].
    eapply force_htlcs_sound; try done; [|by apply within_fits]. intros e. by apply (remember_nonneg c).
Qed.

(** C7. No money is made or lost: in every channel that [init_channel] and any
    sequence of updates, commitments and revocations leads to, each side's
    balance is not negative, and in each view and each lane the two balances
    and the HTLCs committed there add up to what the lane was funded with. *)
Theorem reachable_conserves_funds c v lane o :
  reachable c -> view_owed c v !! lane = Some o ->
  0 <= millisatoshis o.[LOCAL] /\ 0 <= millisatoshis o.[REMOTE] /\
  millisatoshis o.[LOCAL] + millisatoshis o.[REMOTE] + locked c lane v =
    capacity funding_sats lanes lane.
Proof.
  intros Hr Ho. apply reachable_sound in Hr as (Hb & Ha & _).
  split; [by eapply owed_le_total|]. split; [by eapply owed_le_total|]. by eapply view_total.
Qed.

(** ** The two views *)

(** Both sides are committed to the HTLC, or neither is, for good. *)
Definition settled (h : htlc) : bool :=
  Bool.eqb (is_committed LOCAL h) (is_committed REMOTE h) &&
  Bool.eqb (was_committed LOCAL h) (was_committed REMOTE h).

Definition swap_settled (w : option sym_swap) : bool :=
  match w with
  | None => true
  | Some w => Bool.eqb (state_has (swap_state w) (HTLC_FLAG LOCAL HTLC_F_COMMITTED))
                (state_has (swap_state w) (HTLC_FLAG REMOTE HTLC_F_COMMITTED))
  end.

Lemma settled_adj h s : settled h = true -> adj LOCAL s h = adj REMOTE s h.
Proof. unfold settled, adj. rewrite andb_true_iff, !eqb_true_iff. by intros [-> ->]. Qed.

Lemma settled_in_flight c lane s :
  forallb settled (the_htlcs c) = true -> swap_settled (chan_sym_swap c) = true ->
  in_flight c lane LOCAL s = in_flight c lane REMOTE s.
Proof.
  intros Hh Hw. unfold in_flight. f_equal.
  - apply lane_sum_ext. intros h Hin. apply settled_adj. rewrite forallb_forall in Hh.
    by apply Hh, list_elem_of_In.
  - destruct (chan_sym_swap c) as [w|]; [|done]. cbn in Hw. apply eqb_prop in Hw. cbn [swap_adj]. by rewrite Hw.
Qed.

Lemma millisatoshis_inj a b : millisatoshis a = millisatoshis b -> a = b.
Proof. destruct a, b. simpl. by intros ->. Qed.

Lemma same_owed base c c' v v' :
  length (view_owed c v) = length (view_owed c' v') ->
  (forall lane o s, view_owed c v !! lane = Some o ->
     millisatoshis o.[s] = base lane s + in_flight c lane v s) ->
  (forall lane o s, view_owed c' v' !! lane = Some o ->
     millisatoshis o.[s] = base lane s + in_flight c' lane v' s) ->
  (forall lane s, in_flight c lane v s = in_flight c' lane v' s) -> view_owed c v = view_owed c' v'.
Proof.
  intros L H H' Hi. apply list_eq. intros lane.
  destruct (view_owed c v !! lane) as [o|] eqn:E, (view_owed c' v' !! lane) as [o'|] eqn:E'.
  - f_equal. apply sides_eq. intros s. apply millisatoshis_inj.
    by rewrite (H lane o s E), (H' lane o' s E'), Hi.
  - apply lookup_ge_None in E'. apply lookup_lt_Some in E. lia.
  - apply lookup_ge_None in E. apply lookup_lt_Some in E'. lia.
  - done.
Qed.

(** When no HTLC and no swap is half way, both sides of the channel hold the
    same balances: the views of the local and of the remote commitment agree. *)
Theorem settled_views_agree c :
  reachable c -> forallb settled (the_htlcs c) = true -> swap_settled (chan_sym_swap c) = true ->
  view_owed c LOCAL = view_owed c REMOTE.
Proof.
  intros Hr Hh Hw. apply reachable_sound in Hr as ((base & Ha & _) & _).
  apply (same_owed base); [by rewrite !view_owed_length| | |].
  - intros lane o s. apply Ha.
  - intros lane o s. apply Ha.
  - intros lane s. by apply settled_in_flight.
Qed.
(** ** Restarting *)

Lemma lane_sum_perm f lane l l' : l ≡ₚ l' -> lane_sum f lane l = lane_sum f lane l'.
Proof. induction 1; rewrite ?lane_sum_cons in *; lia. Qed.

Lemma lane_sum_remember f lane l :
  respects f -> lane_sum f lane (map ex_htlc (map remember l)) = lane_sum f lane l.
Proof.
  intros Hf. induction l as [|h l IH]; [done|]. cbn [map]. rewrite !lane_sum_cons, IH.
  by rewrite (Hf (ex_htlc (remember h)) h).
Qed.

Lemma restored_sum f lane l existing t :
  respects f -> lane_sum f lane l = lane_sum f lane (map ex_htlc existing) ->
  existing ≡ₚ map remember t -> lane_sum f lane l = lane_sum f lane t.
Proof.
  intros Hf -> Hp. rewrite (lane_sum_perm f lane _ (map ex_htlc (map remember t))) by (by apply Permutation_map).
  by apply lane_sum_remember.
Qed.

Lemma force_lanes base total c l c' :
  stored base total c -> (forall e, e ∈ l -> 0 <= millisatoshis (ex_amount e)) ->
  channel_force_htlcs params c l = Ret (Some c') -> length (lane_bals c') = length (lane_bals c).
Proof.
  intros Hst He H. apply (force_htlcs_inv _ _ _ _ _ _ Hst He) in H as (_ & _ & _ & L & _).
  specialize (L LOCAL). rewrite !view_owed_length in L. by injection L.
Qed.

Lemma reachable_lanes c : reachable c -> length (lane_bals c) = length lanes.
Proof.
  induction 1 as [? ? ? ? ? ? ? ? ? ? ? ? ? ? ? c Hf Hl Hm H Hfit|c c' Hr IH Hs Hfit
    |c ? ? ? ? ? ? ? ? ? ? ? ? ? ? ? ? existing c' Hr IH Hm Hb Hp H Hfit].
  - apply init_inv in H as (c0 & base & Hst & (_ & L & _) & _ & H); [|done..].
    rewrite <- L. eapply force_lanes; [done| |done]. by intros ? ?%elem_of_nil.
  - rewrite (chan_step_lanes params sha256 point_lock_opens (capacity funding_sats lanes) c c');
      [done|by apply reachable_sound|done].
  - pose proof (reachable_sound c Hr) as (_ & Ha & _).
    apply init_inv in H as (c0 & base & Hst & (_ & L & _) & _ & H);
      [|by apply (reachable_funded c)|done|apply Ha].
    rewrite <- L. eapply force_lanes; [done| |done]. intros e. by apply (remember_nonneg c).
Qed.

(** The stored balances are the ones the accounts are kept from. *)
Lemma stored_base_of c c0 base mine :
  reachable c -> stored base (capacity funding_sats lanes) c0 -> fresh funding_sats lanes mine c0 ->
  remembers c mine ->
  forall v lane o s, view_owed c v !! lane = Some o ->
    millisatoshis o.[s] = base lane s + in_flight c lane v s.
Proof.
  intros Hr (Hb & _ & Hsum & _) (_ & L & _ & Hv) Hm v lane o s Ho.
  pose proof (reachable_lanes c Hr) as Hl.
  assert (forall u, exists p, view_owed c u !! lane = Some p) as Hin.
  { intros u. apply lookup_lt_is_Some_2. apply lookup_lt_Some in Ho. rewrite view_owed_length in *. lia. }
  destruct (lookup_lt_is_Some_2 (view_owed c0 LOCAL) lane) as [o0 Ho0].
  { apply lookup_lt_Some in Ho. rewrite view_owed_length in *. lia. }
  destruct (Hv lane o0 Ho0) as [Hmine _]. apply Hm in Hmine. rewrite (Hb LOCAL lane o0 LOCAL Ho0) in Hmine.
  destruct (reachable_sound c Hr) as ((base' & Ha & Hsum') & _).
  destruct (Hin LOCAL) as [p Hp]. unfold base_of in Hmine. rewrite Hp, (Ha LOCAL lane p LOCAL Hp) in Hmine.
  specialize (Hsum lane). specialize (Hsum' lane). rewrite (Ha v lane o s Ho). destruct s; lia.
Qed.

(** C9. A restart finds the balances again: when channeld is started again for a
    reachable channel, with its balances less what is in flight, with its HTLCs
    in any order and its swap, the new channel has exactly the balances of the
    old one in each of its two views. *)
Theorem restart_restores_balances c cid funding depth heights lease local_msat fees local remote
    obscurer type wumbo opener asset lane_msat req existing c' v :
  reachable c -> (forall m, m ∈ local_msat :: lane_msat -> 0 <= millisatoshis m) ->
  remembers c (local_msat :: lane_msat) -> existing ≡ₚ map remember (the_htlcs c) ->
  init_channel params cid funding depth heights lease funding_sats local_msat fees local remote
    obscurer type wumbo opener asset lanes lane_msat (chan_sym_swap c) req existing = Ret c' ->
  within (capacity funding_sats lanes) c' -> view_owed c' v = view_owed c v.
Proof.
  intros Hr Hm Hb Hp H Hfit. pose proof (reachable_sound c Hr) as (_ & Ha & _).
  apply init_inv in H as (c0 & base & Hst & Hfr & Hsw & H); [|by apply (reachable_funded c)|done|apply Ha].
  assert (forall e, e ∈ existing -> 0 <= millisatoshis (ex_amount e)) as He.
  { intros e. by apply (remember_nonneg c). }
  apply within_fits in Hfit. pose proof (reachable_lanes c Hr) as Hl.
  destruct (force_htlcs_sound _ _ _ _ _ _ Hst He Hfit H) as [Hacc' _].
  destruct (force_htlcs_inv _ _ _ _ _ _ Hst He H) as (Hsw' & _ & Hsum & _ & _).
  pose proof (force_lanes _ _ _ _ _ Hst He H) as L. pose proof Hfr as (_ & L0 & _).
  apply (same_owed base).
  - rewrite !view_owed_length. congruence.
  - intros lane o s. apply Hacc'.
  - intros lane o s. by apply (stored_base_of c c0 base (local_msat :: lane_msat)).
  - intros lane s. unfold in_flight. rewrite Hsw', Hsw.
    by rewrite (restored_sum _ _ _ _ _ (adj_respects v s) (Hsum _ lane (adj_respects v s)) Hp).
Qed.

(** ** The table *)

(** An id is used once per side, and no HTLC is left that is done. *)
Definition table_ok (c : channel) : Prop :=
  NoDup (map key (the_htlcs c)) /\ forall h, h ∈ the_htlcs c -> htlc_is_dead h = false.

Lemma htlc_has_owner h s : htlc_has h (HTLC_FLAG s HTLC_F_OWNER) = bool_decide (htlc_owner h = s).
Proof. unfold htlc_has, htlc_owner. by destruct (h_state h), s. Qed.

Lemma htlc_get_none l id s : htlc_get l id s = None -> (id, s) ∉ map key l.
Proof.
  intros H Hin. apply list_elem_of_fmap in Hin as (h & E & Hh). injection E as -> ->.
  pose proof (find_none _ _ H h) as Hf. rewrite list_elem_of_In in Hh. apply Hf in Hh.
  rewrite Z.eqb_refl, htlc_has_owner, bool_decide_true in Hh by done. done.
Qed.

Lemma key_after sc states h : steps_ok sc states -> key (after states h) = key h.
Proof.
  intros Hok. unfold after. destruct (stepped states h) eqn:E; [|done].
  destruct (step_ok_spec _ _ (steps_ok_in _ _ _ Hok E)) as (n & _ & Ea & Ho & _).
  unfold key. rewrite Ho. by rewrite Ea.
Qed.

Lemma survivors_keys sc states l :
  steps_ok sc states -> map key (survivors states l) `sublist_of` map key l.
Proof.
  intros Hok. induction l as [|h l IH]; [done|]. rewrite survivors_cons. cbn [map].
  destruct (dies states h); [by apply sublist_cons|]. cbn [map]. rewrite (key_after sc) by done.
  by apply sublist_skip.
Qed.

Lemma survivors_alive states l :
  (forall h, h ∈ l -> htlc_is_dead h = false) ->
  forall h, h ∈ survivors states l -> htlc_is_dead h = false.
Proof.
  intros Hl h. unfold survivors. intros (h0 & -> & Hin)%list_elem_of_fmap.
  apply list_elem_of_filter in Hin as [Hd Hin]. unfold dies in Hd. unfold after.
  destruct (stepped states h0); [done|by apply Hl].
Qed.

Lemma commit_table total c sc states f chg c' :
  steps_ok sc states -> sound total c -> table_ok c ->
  change_htlcs c sc states = Ret (f, chg, c') -> table_ok c'.
Proof.
  intros Hok Hs [Hn Hd] H. destruct (change_htlcs_spec _ _ _ _ _ _ _ Hok Hs H) as [E _].
  unfold table_ok. rewrite E. split; [|by apply survivors_alive].
  eapply sublist_NoDup; [done|by eapply survivors_keys].
Qed.

Lemma update_keys id owner g l h :
  htlc_get l id owner = Some h -> key (g h) = key h -> map key (update_htlc id owner g l) = map key l.
Proof.
  unfold htlc_get. intros Hg E. induction l as [|x l IH]; [done|]. cbn [find update_htlc] in *.
  destruct (_ && _); cbn [map]; [injection Hg as ->; by rewrite E|by rewrite IH].
Qed.

Lemma with_htlc_table c owner id g h :
  htlc_get (the_htlcs c) id owner = Some h -> table_ok c -> key (g h) = key h ->
  htlc_is_dead (g h) = false -> table_ok (with_htlc c owner id g).
Proof.
  intros Hg [Hn Hd] Hk Hdead. unfold table_ok.
  change (the_htlcs (with_htlc c owner id g)) with (update_htlc id owner g (the_htlcs c)).
  rewrite (update_keys _ _ _ _ h) by done. split; [done|].
  intros x [Hx|(h' & Hh & ->)]%update_htlc_elem; [by apply Hd|]. rewrite Hg in Hh. by injection Hh as <-.
Qed.

Lemma removal_state_key n h :
  removal_state (h_state h) = Some n ->
  htlc_state_owner n = htlc_owner h /\ htlc_state_is_dead n = false.
Proof. unfold htlc_owner. intros H. destruct (h_state h); try done; by injection H as <-. Qed.

Lemma added_table c state id amount lane h :
  table_ok c -> htlc_state_is_dead state = false -> added c state id amount lane h ->
  table_ok (set_htlcs (Some (h :: the_htlcs c)) c).
Proof.
  intros [Hn Hd] Hdead (Hst & Hid & _ & _ & _ & _ & _ & _ & _ & Hg). split.
  - change (NoDup (key h :: map key (the_htlcs c))). apply NoDup_cons. split; [|done].
    unfold key, htlc_owner. rewrite Hst, Hid. by apply htlc_get_none.
  - intros x [->|Hx]%elem_of_cons; [|by apply Hd]. unfold htlc_is_dead. by rewrite Hst.
Qed.
Lemma force_each_table l : forall c b c' b',
  force_each params l c b = Ret (Some (c', b')) ->
  (forall e, e ∈ l -> htlc_state_is_dead (ex_state e) = false) -> table_ok c -> table_ok c'.
Proof.
  induction l as [|e l IH]; intros c b c' b' H Hl Hc; cbn [force_each] in H; [by injection H as <- <-|].
  split_bind H. apply add_htlc_effect in Hx. unfold all_or_nothing in Hx.
  destruct (add_err x) eqn:He; try done. rewrite decide_True in Hx by done.
  destruct Hx as (h & Hh & Hadd & Hc'). rewrite Hh, Hc' in H. cbn [htlcs set_htlcs] in H.
  destruct (b !! _) as [o|]; [|done]. destruct (adjust_balance _ _); [|done].
  apply IH in H; [done|set_solver|].
  pose proof (added_table _ _ _ _ _ _ Hc (Hl e ltac:(set_solver)) Hadd) as [Hn Hd]. split; [exact Hn|].
  intros y [->|Hy]%elem_of_cons; [|apply Hd; set_solver]. apply (Hd h). set_solver.
Qed.

Lemma set_view_owed_htlcs v os c c' : set_view_owed v os c = Ret c' -> the_htlcs c' = the_htlcs c.
Proof. destruct os; [done|]. by intros [= <-]. Qed.

Lemma force_table c l c' :
  channel_force_htlcs params c l = Ret (Some c') -> the_htlcs c = [] ->
  (forall e, e ∈ l -> htlc_state_is_dead (ex_state e) = false) -> table_ok c'.
Proof.
  unfold channel_force_htlcs. intros H Hc Hl. do 2 split_bind H. split_bind H. destruct x1 as [[c1 b]|]; [|done].
  split_bind H. do 2 (case_match; [|done]). split_bind H. split_bind H. injection H as <-.
  apply set_view_owed_htlcs in Hx3, Hx4. unfold table_ok. rewrite Hx4, Hx3.
  eapply force_each_table; [done..|]. unfold table_ok. rewrite Hc. split; [apply NoDup_nil_2|set_solver].
Qed.

Lemma chan_step_table total c c' :
  sound total c -> table_ok c -> chan_step params sha256 point_lock_opens c c' -> table_ok c'.
Proof.
  intros Hs Ht H. destruct H as [sender ? ? ? ? ? ? ? ? ? r Ha H He|? ? ? ? H|? ? ? H|? ? H|? ? H|req|? ? Hg Hk _ H|? H|? ? ? H|? ? ? H|? ? ? H|? ? ? H|? ? h g Hget Hg0|? ?].
  - apply add_htlc_effect in H. unfold all_or_nothing in H. rewrite decide_True in H by done.
    destruct H as (h & _ & Hadd & ->). eapply added_table; [done| |done]. by destruct sender.
  - apply fulfill_effect in H as (h & n & Hg & _ & _ & Hn & ->). apply removal_state_key in Hn as [Ho Hd].
    eapply with_htlc_table; try done. unfold key. f_equal. exact Ho.
  - apply fail_effect in H as (h & n & Hg & Hn & ->). apply removal_state_key in Hn as [Ho Hd].
    eapply with_htlc_table; try done. unfold key. f_equal. exact Ho.
  - unfold channel_update_feerate in H. split_bind H. destruct x; [|done]. split_bind H.
    destruct x; [done|]. by injection H as <-.
  - unfold channel_update_blockheight in H. case_match; [|done]. by injection H as <-.
  - done.
  - unfold channel_sym_swap_add, assert_then in H. do 2 (case_match; [|done]). by injection H as <-.
  - unfold channel_sym_swap_done in H. repeat case_match; try done. by injection H as <-.
  - apply bind_change in H as (f & chg1 & c1 & H & [= _ _ ->]). eapply commit_table; [apply sending_commit_ok|done..].
  - apply bind_change in H as (f & chg1 & c1 & H & [= _ _ ->]). eapply commit_table; [apply rcvd_revoke_ok|done..].
  - apply bind_change in H as (f & chg1 & c1 & H & [= _ _ ->]). eapply commit_table; [apply rcvd_commit_ok|done..].
  - apply bind_change in H as (f & chg1 & c1 & H & [= _ _ ->]). eapply commit_table; [apply sending_revoke_ok|done..].
  - eapply with_htlc_table; [done..|by destruct Hg0 as [[? ->]|[? ->]]|]. destruct Ht as [_ Hd].
    transitivity (htlc_is_dead h); [by destruct Hg0 as [[? ->]|[? ->]]|by apply Hd, (htlc_get_in _ id owner)].
  - done.
Qed.

Lemma reachable_table c : reachable c -> table_ok c.
Proof.
  induction 1 as [? ? ? ? ? ? ? ? ? ? ? ? ? ? ? c Hf Hl Hm H Hfit|c c' Hr IH Hs Hfit
    |c ? ? ? ? ? ? ? ? ? ? ? ? ? ? ? ? existing c' Hr [_ Hd] Hm Hb Hp H Hfit].
  - apply init_inv in H as (c0 & base & (_ & _ & _ & Hc & _) & _ & _ & H); [|done..].
    eapply force_table; [done..|]. by intros ? ?%elem_of_nil.
  - eapply chan_step_table; [by apply reachable_sound|done..].
  - pose proof (reachable_sound c Hr) as (_ & Ha & _).
    apply init_inv in H as (c0 & base & (_ & _ & _ & Hc & _) & _ & _ & H);
      [|by apply (reachable_funded c)|done|apply Ha].
    eapply force_table; [done..|]. intros e. rewrite Hp. intros (h & -> & Hh)%list_elem_of_fmap.
    by apply Hd.
Qed.

(** C10. The table of a reachable channel never holds two HTLCs of one side with
    the same id, [channel_get_htlc] finds exactly the HTLC with the id and
    owner, and counting the HTLCs never meets a dead one, so its assertion holds. *)
Theorem htlc_ids_unique c h :
  reachable c -> h ∈ the_htlcs c ->
  htlc_get (the_htlcs c) (h_id h) (htlc_owner h) = Some h /\
  num_channel_htlcs c = Ret (Z.of_nat (length (the_htlcs c))).
Proof.
  intros Hr Hh. apply reachable_table in Hr as [Hn Hd]. split.
  - unfold htlc_get. destruct (find _ _) as [h'|] eqn:E.
    + apply find_some in E as [Hin E]. rewrite htlc_has_owner in E.
      apply andb_true_iff in E as [E1%Z.eqb_eq E2%bool_decide_eq_true].
      f_equal. apply (NoDup_map_key (the_htlcs c)); [done|by apply list_elem_of_In|done|].
      unfold key. by rewrite E1, E2.
    + exfalso. apply htlc_get_none in E. apply E. apply list_elem_of_fmap. by exists h.
  - unfold num_channel_htlcs, assert_then. replace (any_htlc_is_dead c) with false; [done|].
    symmetry. unfold any_htlc_is_dead. apply existsb_not_true. done.
Qed.
End Reach.

(** ** A channel with an HTLC half way *)

Lemma within_example c x :
  sym_swap_req c = None -> sum_with amt (the_htlcs c) + swap_size (chan_sym_swap c) = x -> x <= 1000000000 ->
  within (capacity (mk_sat 1000000) []) c.
Proof.
  intros E <- H. unfold within. rewrite E. split; [done|].
  intros [|l]; cbn [capacity satoshis swap_size]; [|rewrite lookup_nil]; lia.
Qed.

Lemma open_reachable : reachable net no_hash no_point (mk_sat 1000000) [] open_channel.
Proof.
  eapply reach_open; [..|exact open_channel_ok|]; try (simpl; lia); try (by intros ? ?%elem_of_nil).
  - intros m ->%list_elem_of_singleton. simpl. lia.
  - by apply (within_example _ 0).
Qed.

Lemma half_way_reachable : reachable net no_hash no_point (mk_sat 1000000) [] half_way.
Proof.
  eapply reach_step; [eapply reach_step; [apply open_reachable|..]|..].
  - eapply step_add; [|exact offered_ok|done]. simpl; lia.
  - by apply (within_example _ 50000000).
  - eapply step_rcvd_commit. exact half_way_ok.
  - by apply (within_example _ 50000000).
Qed.

Lemma bound_reachable : reachable net no_hash no_point (mk_sat 1000000) [] bound.
Proof.
  eapply reach_step; [eapply reach_step; [eapply reach_step; [apply half_way_reachable|..]|..]|..].
  - eapply step_sending_revoke_and_ack. exact step2_ok.
  - by apply (within_example _ 50000000).
  - eapply step_sending_commit. exact step3_ok.
  - by apply (within_example _ 50000000).
  - eapply step_rcvd_revoke_and_ack. exact step4_ok.
  - by apply (within_example _ 50000000).
Qed.

Lemma reachable_conserves_funds_witness :
  locked half_way 0 LOCAL = 50000000 /\ locked half_way 0 REMOTE = 0 /\
  exists o, view_owed half_way LOCAL !! 0%nat = Some o /\
    millisatoshis o.[LOCAL] + millisatoshis o.[REMOTE] + locked half_way 0 LOCAL = 1000000000.
Proof.
  split; [reflexivity|]. split; [reflexivity|]. eexists. split; [reflexivity|].
  apply (reachable_conserves_funds net no_hash no_point (mk_sat 1000000) [] half_way LOCAL 0 _
           half_way_reachable eq_refl).
Defined.

Lemma settled_views_agree_witness :
  map h_state (the_htlcs bound) = [RCVD_ADD_ACK_REVOCATION] /\ view_owed bound LOCAL = view_owed bound REMOTE.
Proof.
  split; [reflexivity|].
  apply (settled_views_agree net no_hash no_point (mk_sat 1000000) [] bound bound_reachable); reflexivity.
Defined.

(** The same channel, started again while the HTLC is half way. *)
Definition restarted : channel := Eval vm_compute in
  ret (start [] [] None (map remember (the_htlcs half_way))).

Lemma restarted_ok : start [] [] None (map remember (the_htlcs half_way)) = Ret restarted.
Proof. vm_compute. reflexivity. Qed.

Lemma half_way_remembered : remembers half_way [mk_msat 600000000].
Proof. intros [|lane] m Hm; [injection Hm as <-; reflexivity|done]. Qed.

Lemma restart_restores_balances_witness : view_owed restarted LOCAL = view_owed half_way LOCAL.
Proof.
  eapply (restart_restores_balances net no_hash no_point (mk_sat 1000000) [] half_way);
    [apply half_way_reachable| |apply half_way_remembered|reflexivity|exact restarted_ok|].
  - intros m ->%list_elem_of_singleton. simpl. lia.
  - by apply (within_example _ 50000000).
Defined.

Lemma htlc_ids_unique_witness :
  exists h, the_htlcs half_way = [h] /\
    htlc_get (the_htlcs half_way) (h_id h) (htlc_owner h) = Some h /\ num_channel_htlcs half_way = Ret 1.
Proof.
  eexists. split; [reflexivity|].
  apply (htlc_ids_unique net no_hash no_point (mk_sat 1000000) [] half_way _ half_way_reachable).
  apply list_elem_of_singleton. reflexivity.
Defined.
