(* ===== verification/ChannelBranches.v ===== *)
(** * The branches of the channel operations

    When an HTLC may be removed and what a refusal leaves behind, what a swap
    moves, what a splice does to the balances, and where the arithmetic of
    common/initial_channel.c and channeld/full_channel.c does not do what its
    checks are there for. *)

From stdpp Require Import list strings.
From S2P Require Import Prelude Chainparams Amount HtlcState FeeStates CommitFee Features ChannelState Channel Example ChannelInv ChannelSteps.
Local Open Scope Z_scope.

(** ** Adding an HTLC *)

(** [add_htlc] is all or nothing: with CHANNEL_ERR_ADD_OK the table has one
    more HTLC, the one asked for, in its lane, with an id that its owner had not
    used and an amount that is not zero, and nothing else of the channel
    changed; with any error the channel is as it was and no HTLC is returned. *)
Theorem add_htlc_all_or_nothing params c state id amount expiry hash routing path_key enforce extra
    err_immediate lane r :
  add_htlc params c state id amount expiry hash routing path_key enforce extra err_immediate lane = Ret r ->
  if decide (add_err r = CHANNEL_ERR_ADD_OK)
  then exists h, add_htlcp r = Some h /\ add_chan r = set_htlcs (Some (h :: the_htlcs c)) c /\
         h_state h = state /\ h_id h = id /\ h_amount h = amount /\ h_lane h = lane /\
         (lane < sym_num_lanes c)%nat /\ millisatoshis amount <> 0 /\
         htlc_get (the_htlcs c) id (htlc_state_owner state) = None
  else add_chan r = c /\ add_htlcp r = None.
Proof.
  intros H. apply add_htlc_effect in H. unfold all_or_nothing in H. case_decide; [|done].
  destruct H as (h & Hp & (H1 & H2 & H3 & H4 & _ & _ & _ & H5 & H6 & H7) & Hc). by exists h.
Qed.

Lemma add_htlc_all_or_nothing_witness :
  exists h, add_htlcp offered = Some h /\ add_chan offered = set_htlcs (Some (h :: the_htlcs open_channel)) open_channel.
Proof.
  destruct (add_htlc_all_or_nothing net open_channel RCVD_ADD_HTLC 0 (mk_msat 50000000) 500 [7] [] None true None
    false 0 offered offered_ok) as (h & Hp & Hc & _).
  by exists h.
Defined.

(** ** Removing an HTLC *)

Section Remove.
Context (sha256 : list Z -> list Z) (point_lock_opens : list Z -> list Z -> bool).

(** An HTLC is fulfilled exactly when it is in the table, was not fulfilled
    before, the preimage opens its lock (its point, or else its hash), and both
    sides are irrevocably committed to it; it then starts to be removed, with
    its preimage, and nothing else of the channel changes. *)
Theorem channel_fulfill_htlc_accepts c l owner id preimage c' :
  htlcs c = Some l ->
  channel_fulfill_htlc sha256 point_lock_opens c owner id preimage = Ret (CHANNEL_ERR_REMOVE_OK, c') <->
  exists h n, htlc_get l id owner = Some h /\ h_r h = None /\
    opens sha256 point_lock_opens h preimage = true /\
    (h_state h, n) ∈ [(SENT_ADD_ACK_REVOCATION, RCVD_REMOVE_HTLC); (RCVD_ADD_ACK_REVOCATION, SENT_REMOVE_HTLC)] /\
    c' = with_htlc c owner id (fun h => set_h_state n (set_h_r (Some preimage) h)).
Proof.
  intros Hl. assert (the_htlcs c = l) as El by (unfold the_htlcs; by rewrite Hl). split.
  - intros H. apply fulfill_effect in H as (h & n & Hg & Hr & Ho & Hn & ->). rewrite El in Hg.
    exists h, n. do 3 (split; [done|]). split; [|done].
    destruct (h_state h); try done; injection Hn as <-; set_solver.
  - intros (h & n & Hg & Hr & Ho & Hn & ->). unfold channel_fulfill_htlc, channel_get_htlc.
    rewrite Hl. cbn [mbind outcome_bind]. rewrite Hg, Hr. fold (opens sha256 point_lock_opens h preimage).
    rewrite Ho. cbn [negb].
    assert (removal_state (h_state h) = Some n /\
            htlc_has h (HTLC_FLAG (other (htlc_owner h)) HTLC_F_COMMITTED) = true) as [-> ->].
    { unfold htlc_owner, htlc_has. rewrite !elem_of_cons in Hn.
      destruct Hn as [[= -> ->]|[[= -> ->]|Hn%elem_of_nil]]; done. }
    cbn [negb]. do 2 f_equal. unfold with_htlc. cbn. by rewrite update_htlc_twice.
Qed.

(** A preimage sent for an HTLC that is not irrevocably committed yet is
    refused, but the refusal keeps it: the HTLC is left with the preimage, so
    the same preimage, sent again once the HTLC is committed, is refused as well. *)
Theorem refused_fulfill_keeps_preimage c l owner id preimage h :
  htlcs c = Some l -> htlc_get l id owner = Some h -> h_r h = None ->
  opens sha256 point_lock_opens h preimage = true -> removal_state (h_state h) = None ->
  exists e c', channel_fulfill_htlc sha256 point_lock_opens c owner id preimage = Ret (e, c') /\
    e <> CHANNEL_ERR_REMOVE_OK /\
    c' = with_htlc c owner id (set_h_r (Some preimage)) /\
    forall again, channel_fulfill_htlc sha256 point_lock_opens c' owner id again
                  = Ret (CHANNEL_ERR_ALREADY_FULFILLED, c').
Proof.
  intros Hl Hg Hr Ho Hn. set (c' := with_htlc c owner id (set_h_r (Some preimage))).
  assert (forall again, channel_fulfill_htlc sha256 point_lock_opens c' owner id again
                        = Ret (CHANNEL_ERR_ALREADY_FULFILLED, c')) as Hagain.
  { intros again. unfold channel_fulfill_htlc, channel_get_htlc.
    assert (htlcs c' = Some (update_htlc id owner (set_h_r (Some preimage)) l)) as ->.
    { unfold c', with_htlc, the_htlcs. by rewrite Hl. }
    cbn [mbind outcome_bind]. by rewrite (htlc_get_update _ _ _ _ h). }
  unfold channel_fulfill_htlc at 1, channel_get_htlc.
  rewrite Hl. cbn [mbind outcome_bind]. rewrite Hg, Hr. fold (opens sha256 point_lock_opens h preimage).
  rewrite Ho, Hn. cbn [negb].
  destruct (negb _); (eexists _, _; split; [reflexivity|]; by split; [|split]).
Qed.
End Remove.

(** The HTLC of [bound] is one the remote side offered with hash [7]. *)
Lemma channel_fulfill_htlc_accepts_witness :
  exists c', channel_fulfill_htlc no_hash no_point bound REMOTE 0 [7] = Ret (CHANNEL_ERR_REMOVE_OK, c').
Proof.
  eexists. eapply (channel_fulfill_htlc_accepts no_hash no_point bound _ REMOTE 0 [7]); [reflexivity|].
  eexists _, SENT_REMOVE_HTLC. split; [reflexivity|]. split; [reflexivity|]. split; [reflexivity|].
  split; [|reflexivity]. apply list_elem_of_further, list_elem_of_here.
Defined.

Lemma refused_fulfill_keeps_preimage_witness :
  exists e c', channel_fulfill_htlc no_hash no_point half_way REMOTE 0 [7] = Ret (e, c') /\
    e <> CHANNEL_ERR_REMOVE_OK /\ channel_fulfill_htlc no_hash no_point c' REMOTE 0 [7] = Ret (CHANNEL_ERR_ALREADY_FULFILLED, c').
Proof.
  destruct (refused_fulfill_keeps_preimage no_hash no_point half_way (the_htlcs half_way) REMOTE 0 [7]
              (hd (new_htlc SENT_ADD_HTLC 0 (mk_msat 0) 0 [] [] None None 0) (the_htlcs half_way)))
    as (e & c' & H & He & _ & Hc); try reflexivity.
  exists e, c'. split; [exact H|]. split; [exact He|]. apply Hc.
Defined.

(** ** Splices *)

Lemma wrap_s64_cong z : exists k, wrap_s64 z = z + k * 18446744073709551616.
Proof.
  unfold wrap_s64. exists (- ((z + 9223372036854775808) / 18446744073709551616)).
  pose proof (Z.div_mod (z + 9223372036854775808) 18446744073709551616 ltac:(lia)). lia.
Qed.

Lemma wrap_u64_cong x y k : x = y + k * 18446744073709551616 -> wrap_u64 x = wrap_u64 y.
Proof. intros ->. unfold wrap_u64. by rewrite Z.mod_add by lia. Qed.

Lemma wrap_u64_add_s64 x y : wrap_u64 (x + wrap_s64 y) = wrap_u64 (x + y).
Proof. destruct (wrap_s64_cong y) as [k ->]. apply (wrap_u64_cong _ _ k). lia. Qed.

Lemma splice_remote x a b d :
  wrap_u64 (x + wrap_s64 (wrap_s64 (wrap_s64 (wrap_s64 a - wrap_s64 b) - d) * 1000)) =
  wrap_u64 (x + (a - b - d) * 1000).
Proof.
  destruct (wrap_s64_cong a) as [k ->], (wrap_s64_cong b) as [j ->].
  rewrite wrap_u64_add_s64.
  destruct (wrap_s64_cong (a + k * 18446744073709551616 - (b + j * 18446744073709551616))) as [i ->].
  match goal with |- context [wrap_s64 ?z] => destruct (wrap_s64_cong z) as [h ->] end.
  apply (wrap_u64_cong _ _ ((k - j + i + h) * 1000)). lia.
Qed.

Lemma wrap_u64_not_negative x : (wrap_u64 x <? 0) = false.
Proof. apply Z.ltb_ge, wrap_u64_range. Qed.

(** After a splice both views owe each side what they owed before plus its
    share of the splice, as long as these amounts are not negative: the two
    balances together grow exactly as the funding does. *)
Theorem channel_update_funding_exact c f sats splice_amnt v :
  let remote_amnt := satoshis sats - satoshis (funding_sats c) - splice_amnt in
  let o := owed (view c).[v] in
  in_u64 (millisatoshis o.[LOCAL] + splice_amnt * 1000) ->
  in_u64 (millisatoshis o.[REMOTE] + remote_amnt * 1000) ->
  let c' := snd (channel_update_funding c f sats splice_amnt) in
  funding_sats c' = sats /\ funding c' = f /\
  owed (view c').[v] = mk_sides (mk_msat (millisatoshis o.[LOCAL] + splice_amnt * 1000))
                         (mk_msat (millisatoshis o.[REMOTE] + remote_amnt * 1000)).
Proof.
  cbv zeta. intros Hl Hr. unfold channel_update_funding. rewrite !wrap_u64_not_negative.
  split; [done|]. split; [done|]. apply sides_eq. intros s. unfold splice_owed.
  destruct v, s; cbn; rewrite ?splice_remote, ?wrap_u64_add_s64, ?wrap_u64_small by done; done.
Qed.

Lemma channel_update_funding_exact_witness :
  owed (view (snd (channel_update_funding open_channel (mk_outpoint [] 1) (mk_sat 800000) (-150000)))).[LOCAL]
  = mk_sides (mk_msat 450000000) (mk_msat 350000000).
Proof.
  apply (channel_update_funding_exact open_channel (mk_outpoint [] 1) (mk_sat 800000) (-150000) LOCAL);
    vm_compute; split; discriminate.
Defined.

(** [channel_update_funding] never reports a negative balance: its tests
    compare unsigned sums with 0.  A splice that takes 700,000 satoshi of the
    600,000 that are ours is accepted, and leaves us owed 2^64 msat less the
    difference. *)
Theorem channel_update_funding_unchecked :
  (forall c f sats splice_amnt, fst (channel_update_funding c f sats splice_amnt) = true) /\
  millisatoshis (owed (view (snd (channel_update_funding open_channel (mk_outpoint [] 1)
                                    (mk_sat 300000) (-700000)))).[LOCAL]).[LOCAL]
  = 18446744073709551616 - 100000000.
Proof.
  split; [|reflexivity]. intros c f sats amnt. unfold channel_update_funding.
  by rewrite !wrap_u64_not_negative.
Qed.

(** ** Amounts of 2^63 msat and more *)


(** A channel of 40 BTC, all of it ours. *)
Definition wumbo_channel : channel := Eval vm_compute in
  ret (init_channel net [] (mk_outpoint [] 0) 3 (Some (new_height_states LOCAL (Some 100))) 0
    (mk_sat 4000000000) (mk_msat 4000000000000) (new_fee_states LOCAL (Some 253)) conf conf 0
    channel_type_static_remotekey true LOCAL [] [] [] None None []).

(** [approx_max_feerate] truncates a 64-bit quotient to 32 bits: the opener
    of a channel of 40 BTC, which can afford any 32-bit feerate, is told that it
    can afford less than a third of it. *)
Theorem approx_max_feerate_wraps :
  exists f, approx_max_feerate net wumbo_channel = Ret f /\ 0 <= f <= UINT32_MAX / 3 /\
    can_opener_afford_feerate net wumbo_channel UINT32_MAX = Ret true.
Proof. eexists. split; [vm_compute; reflexivity|]. split; [vm_compute; split; discriminate|reflexivity]. Qed.

(** ** Swaps *)

(** One view's balances, lane 0's first. *)
Definition all_owed (owed0 : sides amount_msat_t) (lanes : list sym_lane_balance) (v : side)
  : list (sides amount_msat_t) := owed0 :: map (fun b => (lane_owed b).[v]) lanes.

Lemma owed_move_spec o from amount o' :
  wf_msat o.[LOCAL] -> wf_msat o.[REMOTE] -> wf_msat amount ->
  owed_move o from amount = Some o' ->
  millisatoshis o'.[from] = millisatoshis o.[from] - millisatoshis amount /\
  millisatoshis o'.[other from] = millisatoshis o.[other from] + millisatoshis amount /\
  0 <= millisatoshis o'.[from] /\ 0 <= millisatoshis o'.[other from].
Proof.
  intros Hl Hr Ha. unfold owed_move, amount_msat_deduct, amount_msat_accumulate.
  destruct (amount_msat_sub _ _) as [f|] eqn:Ef; [|done]. apply amount_msat_sub_spec in Ef as [? ->].
  assert (wf_msat o.[other from]) by (by destruct from).
  rewrite amount_msat_add_spec by done. case_if; [|done]. intros [= <-]. destruct from; simpl in *; lia.
Qed.

(** A swap that [sym_swap_apply] carries out moves exactly its two legs in the
    view: what the owner gives goes to the other side in the one lane, what it
    takes comes from the other side in the other lane, no balance falls below
    zero, and the balances of the other view stay as they are. *)
Theorem sym_swap_apply_legs w owed0 lanes v owed0' lanes' lane o o' s :
  (forall l p t, all_owed owed0 lanes v !! l = Some p -> wf_msat p.[t]) ->
  wf_msat (swap_give w) -> wf_msat (swap_take w) ->
  sym_swap_apply w owed0 lanes v = Some (owed0', lanes') ->
  all_owed owed0 lanes v !! lane = Some o -> all_owed owed0' lanes' v !! lane = Some o' ->
  millisatoshis o'.[s] = millisatoshis o.[s] + swap_legs lane s w /\
  (0 <= millisatoshis o'.[s]) /\
  map (fun b => (lane_owed b).[other v]) lanes' = map (fun b => (lane_owed b).[other v]) lanes.
Proof.
  intros Hwf Hg Ht H Ho Ho'. unfold sym_swap_apply in H.
  destruct (Nat.eqb_spec (give_lane w) (take_lane w)) as [|Hne]; [done|].
  destruct (_ || _); [done|]. fold (all_owed owed0 lanes v) in H. set (all := all_owed owed0 lanes v) in *.
  destruct (all !! give_lane w) as [g|] eqn:Eg; [|done]. destruct (all !! take_lane w) as [t|] eqn:Et; [|done].
  destruct (owed_move g _ _) as [g'|] eqn:Mg; [|done]. destruct (owed_move t _ _) as [t'|] eqn:Mt; [|done].
  apply owed_move_spec in Mg as (G1 & G2 & G3 & G4); [|by eapply Hwf..|done].
  apply owed_move_spec in Mt as (T1 & T2 & T3 & T4); [|by eapply Hwf..|done].
  destruct (<[take_lane w := t']> (<[give_lane w := g']> all)) as [|o0 rest] eqn:E; [done|].
  injection H as <- <-.
  assert (length rest = length lanes) as L.
  { apply (f_equal length) in E. rewrite !length_insert in E. unfold all, all_owed in E.
    cbn [length] in E. rewrite length_map in E. lia. }
  assert (<[take_lane w := t']> (<[give_lane w := g']> all) !! lane = Some o') as Hl.
  { rewrite E, <- Ho'. unfold all_owed. rewrite map_zip_upd by done. by rewrite decide_True. }
  assert (map (fun b => (lane_owed b).[other v]) (zip_with (fun b o => mk_lane_bal (upd v o (lane_owed b))) lanes rest)
          = map (fun b => (lane_owed b).[other v]) lanes) as -> by (rewrite map_zip_upd by done; by destruct v).
  pose proof (lookup_lt_Some _ _ _ Eg) as Lg. pose proof (lookup_lt_Some _ _ _ Et) as Lt.
  rewrite !list_lookup_insert, !length_insert in Hl. unfold swap_legs.
  destruct (Nat.eqb_spec (give_lane w) lane) as [<-|Hg']; [|destruct (Nat.eqb_spec (take_lane w) lane) as [<-|Ht']].
  - rewrite decide_False, decide_True in Hl by naive_solver. injection Hl as <-. rewrite Eg in Ho. injection Ho as <-.
    replace (take_lane w =? give_lane w)%nat with false by (symmetry; by apply Nat.eqb_neq).
    destruct (htlc_state_owner (swap_state w)), s; simpl in *; split_and!; try done; lia.
  - rewrite decide_True in Hl by naive_solver. injection Hl as <-. rewrite Et in Ho. injection Ho as <-.
    destruct (htlc_state_owner (swap_state w)), s; simpl in *; split_and!; try done; lia.
  - rewrite !decide_False in Hl by naive_solver. rewrite Ho in Hl. injection Hl as <-.
    pose proof (Hwf lane o s Ho). split_and!; try done; lia.
Qed.

Lemma sym_swap_apply_legs_witness :
  let w := mk_swap 1 SENT_ADD_HTLC 0 1 (mk_msat 30) (mk_msat 7) in
  let o := mk_sides (mk_msat 100) (mk_msat 50) in
  exists owed0' lanes', sym_swap_apply w o [mk_lane_bal (mk_sides o o)] LOCAL = Some (owed0', lanes') /\
    millisatoshis owed0'.[LOCAL] = 100 + swap_legs 0 LOCAL w.
Proof.
  cbv zeta. do 2 eexists. split; [reflexivity|].
  eapply (sym_swap_apply_legs (mk_swap 1 SENT_ADD_HTLC 0 1 (mk_msat 30) (mk_msat 7)) (mk_sides (mk_msat 100) (mk_msat 50))
           [mk_lane_bal (mk_sides (mk_sides (mk_msat 100) (mk_msat 50)) (mk_sides (mk_msat 100) (mk_msat 50)))]
           LOCAL _ _ 0%nat (mk_sides (mk_msat 100) (mk_msat 50)) _ LOCAL).
  - intros [|[|l]] p t Hp; inversion Hp; destruct t; simpl; lia.
  - simpl; lia.
  - simpl; lia.
  - reflexivity.
  - reflexivity.
  - reflexivity.
Defined.
