(* ===== verification/Solvency.v ===== *)
(** * No commitment runs a balance into the ground

    [change_htlcs] aborts the daemon when a balance would become negative.
    [add_htlc] and [channel_sym_swap_check] are what should prevent it, but they
    look at one view (or at both) when an update is proposed, while the other
    side's commitments take it in later, together with whatever was proposed in
    between.  This file shows that the checks suffice: in a reachable channel
    none of the four commitment steps aborts.

    The argument keeps three amounts of each side [s], in each lane, above zero:
    what [s] will have once the other side's commitment takes in all that is
    pending there ([Other], the amount [add_htlc] checks); the same for its own
    commitment ([Own]); and for its own commitment once the other side has
    revoked what it committed to ([Own1]).  What an HTLC adds to these amounts
    is its amount times -1, 0 or 1, a matter of its state alone, so that how a
    step moves one amount above another is a finite table. *)

From stdpp Require Import list.
From S2P Require Import Prelude Chainparams Amount HtlcState FeeStates CommitFee Features ChannelState Channel Example ChannelInv ChannelSteps History.
Local Open Scope Z_scope.

(** ** Coefficients *)

Definition flag (v : side) (f : Z) (st : htlc_state) : bool := state_has st (HTLC_FLAG v f).

(** [p]: the HTLC has its preimage. *)
Definition cadd (s : side) (st : htlc_state) : Z := if bool_decide (htlc_state_owner st = s) then -1 else 0.
Definition crem (s : side) (st : htlc_state) (p : bool) : Z :=
  if bool_decide (s = if p then other (htlc_state_owner st) else htlc_state_owner st) then 1 else 0.
Definition cadj (v s : side) (st : htlc_state) (p : bool) : Z :=
  if flag v HTLC_F_WAS_COMMITTED st
  then cadd s st + (if flag v HTLC_F_COMMITTED st then 0 else crem s st p) else 0.
(** What is pending in the view of [v]: to be added, to be removed. *)
Definition cadding (v s : side) (st : htlc_state) : Z :=
  if flag v HTLC_F_PENDING st && negb (flag v HTLC_F_COMMITTED st) then cadd s st else 0.
Definition cremoving (v s : side) (st : htlc_state) (p : bool) : Z :=
  if flag v HTLC_F_PENDING st && flag v HTLC_F_COMMITTED st then crem s st p else 0.
Definition cfut (v s : side) (st : htlc_state) (p : bool) : Z :=
  cadj v s st p + cadding v s st + cremoving v s st p.

(** The states the revocation of [s]'s peer advances. *)
Definition peer_revokes (s : side) : list htlc_state :=
  match s with LOCAL => rcvd_revoke_states | REMOTE => sending_revoke_states end.

Definition cafter (states : list htlc_state) (st : htlc_state) : htlc_state :=
  if bool_decide (st ∈ states) then match next_state st with Ret n => n | Crash => st end else st.

Inductive level := Other | Own | Own1 | Owed (v : side).

Definition coef (l : level) (s : side) (st : htlc_state) (p : bool) : Z :=
  match l with
  | Other => cfut (other s) s st p
  | Own => cfut s s st p
  | Own1 => cfut s s (cafter (peer_revokes s) st) p
  | Owed v => cadj v s st p
  end.

(** Whether the gain of a swap counts. *)
Definition gain (l : level) (s : side) (st : htlc_state) : bool :=
  match l with
  | Other => flag (other s) HTLC_F_COMMITTED st
  | Own => flag s HTLC_F_COMMITTED st || flag s HTLC_F_PENDING st
  | Own1 => let st := cafter (peer_revokes s) st in
            flag s HTLC_F_COMMITTED st || flag s HTLC_F_PENDING st
  | Owed v => flag v HTLC_F_COMMITTED st
  end.

(** Whether its loss counts: where [s] may have to pay it, it always does. *)
Definition loss (l : level) (st : htlc_state) : bool :=
  match l with Owed v => flag v HTLC_F_COMMITTED st | _ => true end.

(** ** How the steps move the amounts *)

Inductive dance := SendCommit | RcvdRevoke | RcvdCommit | SendRevoke.

Definition dance_view (d : dance) : side :=
  match d with SendCommit | SendRevoke => REMOTE | RcvdRevoke | RcvdCommit => LOCAL end.
Definition dance_states (d : dance) : list htlc_state :=
  match d with
  | SendCommit => sending_commit_states
  | RcvdRevoke => rcvd_revoke_states
  | RcvdCommit => rcvd_commit_states
  | SendRevoke => sending_revoke_states
  end.

Lemma dance_ok d : steps_ok (dance_view d) (dance_states d).
Proof. by destruct d. Qed.

(** The amount that [l] of side [s] is, after the step, at least. *)
Definition source (d : dance) (s : side) (l : level) : level :=
  match d, s, l with
  | SendCommit, LOCAL, Own1 | RcvdCommit, REMOTE, Own1 => Other
  | RcvdRevoke, LOCAL, Own | SendRevoke, REMOTE, Own => Own1
  | SendCommit, LOCAL, Owed REMOTE | RcvdCommit, REMOTE, Owed LOCAL => Other
  | SendCommit, REMOTE, Owed REMOTE | RcvdCommit, LOCAL, Owed LOCAL => Own
  | _, _, l => l
  end.

Definition dominated (d : dance) (s : side) (l : level) (st : htlc_state) : bool :=
  let st' := cafter (dance_states d) st in
  let src := source d s l in
  forallb (fun p => coef src s st p <=? coef l s st' p) [true; false]
  && implb (being_added st)
       (implb (gain src s st) (gain l s st') && implb (loss l st') (loss src st)).

Lemma dominated_all d s l st : dominated d s l st = true.
Proof. destruct d, s, l as [| | |[]]; by destruct st. Qed.

(** Starting to remove an HTLC, with or without its preimage. *)
Lemma removal_dominated s l st n p p' :
  removal_state st = Some n -> (p = false \/ p' = p) -> coef l s st p <= coef l s n p'.
Proof.
  intros Hn Hp. destruct st; try done; injection Hn as <-;
    destruct s, l as [| | |[]]; destruct p, p'; (destruct Hp; [|]; try done); vm_compute; try discriminate; done.
Qed.

(** What the peer's commitment counts against [s] bounds what its own will. *)
Lemma own1_bound s st p : cadj (other s) s st p + cadding (other s) s st <= coef Own1 s st p.
Proof. destruct s, p; destruct st; vm_compute; discriminate. Qed.

Lemma first_coef l s st p : first_state st -> l <> Other -> coef l s st p = 0.
Proof. intros [-> | ->] Hl; destruct l as [| | |[]], s, p; done. Qed.

Lemma first_coef_other s st p : first_state st -> coef Other s st p = cadd s st.
Proof. intros [-> | ->]; by destruct s, p. Qed.

(** ** The amounts *)

Definition has_r (h : htlc) : bool := match h_r h with Some _ => true | None => false end.
Definition weight (l : level) (s : side) (h : htlc) : Z := coef l s (h_state h) (has_r h) * amt h.

Definition neg_legs (lane : nat) (s : side) (w : sym_swap) : Z :=
  let owner := htlc_state_owner (swap_state w) in
  (if (give_lane w =? lane)%nat && bool_decide (owner = s) then - millisatoshis (swap_give w) else 0) +
  (if (take_lane w =? lane)%nat && negb (bool_decide (owner = s)) then - millisatoshis (swap_take w) else 0).
Definition pos_legs (lane : nat) (s : side) (w : sym_swap) : Z :=
  let owner := htlc_state_owner (swap_state w) in
  (if (give_lane w =? lane)%nat && negb (bool_decide (owner = s)) then millisatoshis (swap_give w) else 0) +
  (if (take_lane w =? lane)%nat && bool_decide (owner = s) then millisatoshis (swap_take w) else 0).

Lemma legs_split lane s w : swap_legs lane s w = neg_legs lane s w + pos_legs lane s w.
Proof.
  unfold swap_legs, neg_legs, pos_legs.
  destruct (give_lane w =? lane)%nat, (take_lane w =? lane)%nat, (bool_decide _); simpl; lia.
Qed.

Definition swap_weight (l : level) (lane : nat) (s : side) (w : option sym_swap) : Z :=
  match w with
  | None => 0
  | Some w => (if loss l (swap_state w) then neg_legs lane s w else 0)
              + (if gain l s (swap_state w) then pos_legs lane s w else 0)
  end.

Definition reach (l : level) (c : channel) (lane : nat) (s : side) : Z :=
  lane_sum (weight l s) lane (the_htlcs c) + swap_weight l lane s (chan_sym_swap c).

Lemma adj_weight v s h : adj v s h = weight (Owed v) s h.
Proof.
  unfold weight, coef, adj, cadj, delta_add, delta_remove, cadd, crem, paid_to, was_committed, is_committed,
    htlc_has, htlc_owner, flag, has_r.
  destruct (state_has (h_state h) (HTLC_FLAG v HTLC_F_WAS_COMMITTED)),
    (state_has (h_state h) (HTLC_FLAG v HTLC_F_COMMITTED)), (h_r h);
    repeat case_bool_decide; try congruence; lia.
Qed.

Lemma reach_owed c lane v s : reach (Owed v) c lane s = in_flight c lane v s.
Proof.
  unfold reach, in_flight. f_equal; [by apply lane_sum_ext; intros h _; rewrite adj_weight|].
  destruct (chan_sym_swap c) as [w|]; [|done]. cbn [swap_weight swap_adj loss gain]. unfold flag.
  rewrite legs_split. by case_if.
Qed.

(** Every amount of the lanes the channel has is not negative. *)
Definition solvent (base : nat -> side -> Z) (c : channel) : Prop :=
  forall l lane s, (lane < S (length (lane_bals c)))%nat -> 0 <= base lane s + reach l c lane s.

Lemma lane_sum_le f g lane l :
  (forall h, h ∈ l -> f h <= g h) -> lane_sum f lane l <= lane_sum g lane l.
Proof.
  induction l as [|h l IH]; intros H; [done|]. rewrite !lane_sum_cons.
  pose proof (H h ltac:(set_solver)). pose proof (IH ltac:(set_solver)). case_if; lia.
Qed.

Lemma legs_nonneg lane s w :
  0 <= millisatoshis (swap_give w) -> 0 <= millisatoshis (swap_take w) ->
  neg_legs lane s w <= 0 <= pos_legs lane s w.
Proof. intros Hg Ht. unfold neg_legs, pos_legs. repeat case_match; lia. Qed.

(** ** The four steps *)

Lemma weight_after d s l h :
  0 <= amt h -> weight (source d s l) s h <= weight l s (after (dance_states d) h).
Proof.
  intros Ha. pose proof (dominated_all d s l (h_state h)) as H.
  apply andb_true_iff in H as [H _]. cbv zeta in H. cbn [forallb] in H. rewrite !andb_true_iff in H.
  destruct H as (H1 & H2 & _).
  assert (h_state (after (dance_states d) h) = cafter (dance_states d) (h_state h) /\
          has_r (after (dance_states d) h) = has_r h /\ amt (after (dance_states d) h) = amt h) as (Es & Er & Em).
  { unfold after, stepped, cafter, advance. case_bool_decide; [|done]. by destruct (next_state _). }
  unfold weight. rewrite Es, Er, Em. apply Z.mul_le_mono_nonneg_r; [done|].
  destruct (has_r h); lia.
Qed.

Lemma swap_weight_after d s l lane w w' :
  match w with
  | None => True
  | Some w => being_added (swap_state w) = true /\
              0 <= millisatoshis (swap_give w) /\ 0 <= millisatoshis (swap_take w)
  end ->
  match w, w' with
  | None, None => True
  | Some w, Some w' => w' = set_swap_state (cafter (dance_states d) (swap_state w)) w
  | _, _ => False
  end ->
  swap_weight (source d s l) lane s w <= swap_weight l lane s w'.
Proof.
  destruct w as [w|], w' as [w'|]; try done. intros (Ha & Hg & Ht) ->.
  pose proof (dominated_all d s l (swap_state w)) as H. apply andb_true_iff in H as [_ H].
  cbv zeta in H. rewrite Ha in H. cbn [implb] in H. apply andb_true_iff in H as [H1 H2].
  cbn [swap_weight]. cbn [swap_state set_swap_state].
  assert (htlc_state_owner (cafter (dance_states d) (swap_state w)) = htlc_state_owner (swap_state w)) as Ho.
  { destruct d; by destruct (swap_state w). }
  assert (neg_legs lane s (set_swap_state (cafter (dance_states d) (swap_state w)) w) = neg_legs lane s w) as ->.
  { unfold neg_legs. cbn [swap_state set_swap_state give_lane take_lane swap_give swap_take]. by rewrite Ho. }
  assert (pos_legs lane s (set_swap_state (cafter (dance_states d) (swap_state w)) w) = pos_legs lane s w) as ->.
  { unfold pos_legs. cbn [swap_state set_swap_state give_lane take_lane swap_give swap_take]. by rewrite Ho. }
  pose proof (legs_nonneg lane s w Hg Ht).
  destruct (gain (source d s l) s _), (gain l s _), (loss (source d s l) _), (loss l _); simpl in *; try done; lia.
Qed.

Lemma change_swap_state sc states w b w' b' f :
  steps_ok sc states -> change_swap sc states w b = Ret (w', b', f) ->
  match w, w' with
  | None, None => True
  | Some w, Some w' => w' = set_swap_state (cafter states (swap_state w)) w
  | _, _ => False
  end.
Proof.
  intros Hok H. destruct w as [w|]; cbn [change_swap] in H; [|by injection H as <- _ _]. unfold cafter.
  case_bool_decide as Hin; [|injection H as <- _ _; by destruct w].
  assert (step_ok sc (swap_state w) = true) as Hs.
  { apply forallb_forall with (x := swap_state w) in Hok; [done|]. by apply list_elem_of_In. }
  unfold step_ok in Hs. destruct (next_state (swap_state w)) as [n|] eqn:En; [|done]. clear Hs.
  unfold next_state in En. destruct (state_succ (swap_state w)) as [m|]; [|done].
  unfold assert_then in En. destruct (_ =? _); [|done]. injection En as ->.
  split_bind H. by injection H as <- _ _.
Qed.

(** After the step, before the dead HTLCs are dropped, no amount is negative. *)
Lemma reach_after base c d l lane s w' :
  solvent base c -> amounts_ok c -> (lane < S (length (lane_bals c)))%nat ->
  match chan_sym_swap c, w' with
  | None, None => True
  | Some w, Some w' => w' = set_swap_state (cafter (dance_states d) (swap_state w)) w
  | _, _ => False
  end ->
  0 <= base lane s + lane_sum (fun h => weight l s (after (dance_states d) h)) lane (the_htlcs c)
       + swap_weight l lane s w'.
Proof.
  intros Hs (Ha & Hw & _) Hlane Hf. specialize (Hs (source d s l) lane s Hlane). unfold reach in Hs.
  pose proof (lane_sum_le (weight (source d s l) s) (fun h => weight l s (after (dance_states d) h)) lane
    (the_htlcs c) (fun h Hh => weight_after d s l h (Ha h Hh))).
  pose proof (swap_weight_after d s l lane _ _ Hw Hf). lia.
Qed.

Lemma dead_coef l s st p : htlc_state_is_dead st = true -> coef l s st p = cadj LOCAL s st p.
Proof. intros H. destruct st; try done; by destruct l as [| | |[]], s, p. Qed.

Lemma survivors_weight sc states l lane s t :
  steps_ok sc states ->
  lane_sum (fun h => weight l s (after states h)) lane t =
  lane_sum (weight l s) lane (survivors states t) + gone states lane s t.
Proof.
  intros Hok. unfold gone. induction t as [|h t IH]; [done|].
  rewrite !lane_sum_cons, survivors_cons, IH. destruct (after_fields sc states h Hok) as [E _].
  destruct (dies states h) eqn:D; [|rewrite lane_sum_cons, E; case_if; lia].
  apply andb_true_iff in D as [Dst Dd]. assert (after states h = advance h) as Ea by (unfold after; by rewrite Dst).
  assert (weight l s (after states h) = adj LOCAL s (after states h)) as ->; [|case_if; lia].
  rewrite adj_weight, Ea. unfold weight. by rewrite dead_coef.
Qed.

Lemma commit_solvent base total c d f chg c' :
  sound total c -> solvent base c ->
  change_htlcs c (dance_view d) (dance_states d) = Ret (f, chg, c') ->
  solvent (base_after (dance_states d) c base) c'.
Proof.
  intros Hs Hb H. pose proof (dance_ok d) as Hok. pose proof Hs as (_ & Ha & _).
  destruct (change_htlcs_spec _ _ _ _ _ _ _ Hok Hs H) as (T & _ & L & _ & (b & b' & wf & Hw) & _).
  apply change_swap_state in Hw; [|done]. intros l lane s Hlane. rewrite L in Hlane.
  pose proof (reach_after base c d l lane s _ Hb Ha Hlane Hw).
  rewrite (survivors_weight (dance_view d)) in H0 by done. unfold reach, base_after. rewrite T. lia.
Qed.

(** ** Adding an HTLC *)

Lemma wrap_s64_sub a b : wrap_s64 (wrap_s64 a - b) = wrap_s64 (a - b).
Proof. by rewrite <- Z.add_opp_r, wrap_s64_add. Qed.

Lemma fold_remove s l : forall x,
  fold_left (fun b h => balance_remove_htlc b h s) l (wrap_s64 x) = wrap_s64 (x + sum_with (delta_remove s) l).
Proof.
  induction l as [|h l IH]; intros x; simpl; [f_equal; lia|].
  rewrite balance_remove_htlc_wrap, IH. f_equal. lia.
Qed.

Lemma fold_add s l : forall x,
  fold_left (fun b h => balance_add_htlc b h s) l (wrap_s64 x) = wrap_s64 (x + sum_with (delta_add s) l).
Proof.
  induction l as [|h l IH]; intros x; simpl; [f_equal; lia|].
  rewrite balance_add_htlc_wrap, IH. f_equal. lia.
Qed.

(** The HTLCs pending in one view of one lane, as sums of coefficients. *)
Lemma removing_sum c v lane s :
  sum_with (delta_remove s) (removing (gather_lane_htlcs c v (Some lane))) =
  lane_sum (fun h => cremoving v s (h_state h) (has_r h) * amt h) lane (the_htlcs c).
Proof.
  cbn [removing gather_lane_htlcs]. rewrite sum_with_filter, sum_with_filter. unfold lane_sum.
  apply sum_with_ext. intros h _. cbn [in_lane]. destruct (_ =? _)%nat; [|done].
  unfold cremoving, is_committed, is_pending, htlc_has, flag, delta_remove, crem, paid_to, has_r, htlc_owner.
  rewrite andb_comm. destruct (_ && _); [|done]. destruct (h_r h); case_bool_decide; lia.
Qed.

Lemma adding_sum c v lane s :
  sum_with (delta_add s) (adding (gather_lane_htlcs c v (Some lane))) =
  lane_sum (fun h => cadding v s (h_state h) * amt h) lane (the_htlcs c).
Proof.
  cbn [adding gather_lane_htlcs]. rewrite sum_with_filter, sum_with_filter. unfold lane_sum.
  apply sum_with_ext. intros h _. cbn [in_lane]. destruct (_ =? _)%nat; [|done].
  unfold cadding, is_committed, is_pending, htlc_has, flag, delta_add, cadd, htlc_owner.
  rewrite andb_comm. destruct (_ && _); [|done]. case_bool_decide; lia.
Qed.

(** What [s] promised to a swap the view has not committed. *)
Definition promise (v : side) (lane : nat) (s : side) (w : option sym_swap) : Z :=
  match w with
  | None => 0
  | Some w => if flag v HTLC_F_COMMITTED (swap_state w) then 0 else - neg_legs lane s w
  end.

Lemma promise_bounds v lane s w : swap_nonneg w -> 0 <= promise v lane s w <= swap_size w.
Proof.
  destruct w as [w|]; [|done]. intros [Hg Ht]. cbn [promise swap_size]. unfold neg_legs.
  repeat case_match; lia.
Qed.

Lemma promised_by_spec v lane s total w m :
  0 <= millisatoshis total -> swap_nonneg w -> millisatoshis total + swap_size w <= INT64_MAX ->
  promised_by v lane s total w = Ret m -> millisatoshis m = millisatoshis total + promise v lane s w.
Proof.
  intros Ht Hw Hb. destruct w as [w|]; cbn [promised_by promise]; [|intros [= <-]; lia].
  destruct Hw as [Hg Hk]. cbn [swap_size] in Hb. fold (flag v HTLC_F_COMMITTED (swap_state w)).
  destruct (flag v _ _); [intros [= <-]; lia|]. unfold neg_legs, amount_msat_accumulate.
  rewrite !amount_msat_add_spec by (simpl; lia).
  replace (millisatoshis total + millisatoshis (swap_give w) <=? UINT64_MAX) with true by lia.
  destruct (decide (htlc_state_owner (swap_state w) = s)) as [E|E].
  - rewrite (bool_decide_true (_ = s)), (bool_decide_false (_ <> s)) by (done || tauto). cbn [andb negb].
    rewrite !andb_true_r, andb_false_r. destruct (_ =? _)%nat; simpl; intros [= <-]; simpl; lia.
  - rewrite (bool_decide_false (_ = s)), (bool_decide_true (_ <> s)) by done. cbn [andb negb mbind outcome_bind].
    rewrite !andb_true_r, andb_false_r. rewrite amount_msat_add_spec by (simpl; lia).
    replace (millisatoshis total + millisatoshis (swap_take w) <=? UINT64_MAX) with true by lia.
    destruct (_ =? _)%nat; simpl; intros [= <-]; simpl; lia.
Qed.

Lemma swap_promised_spec c v lane s m :
  swap_nonneg (chan_sym_swap c) -> swap_nonneg (sym_swap_req c) ->
  swap_size (chan_sym_swap c) + swap_size (sym_swap_req c) <= INT64_MAX ->
  swap_promised c v lane s = Ret m ->
  millisatoshis m = promise v lane s (chan_sym_swap c) + promise v lane s (sym_swap_req c).
Proof.
  intros Hw Hr Hb H. unfold swap_promised in H. split_bind H.
  pose proof (promise_bounds v lane s _ Hw). pose proof (promise_bounds v lane s _ Hr).
  assert (0 <= swap_size (sym_swap_req c)) by lia.
  apply promised_by_spec in Hx; [|simpl; lia..|done|simpl; lia]. simpl in Hx.
  apply promised_by_spec in H; [lia|lia|done|lia].
Qed.

(** The level a view's pending updates lead to. *)
Definition pending_level (v s : side) : level := if bool_decide (v = s) then Own else Other.

Lemma pending_coef v s st p :
  coef (pending_level v s) s st p = cadj v s st p + cadding v s st + cremoving v s st p.
Proof. by destruct v, s. Qed.

Lemma pending_swap v lane s w :
  swap_nonneg w -> swap_adj v lane s w - promise v lane s w <= swap_weight (pending_level v s) lane s w.
Proof.
  destruct w as [w|]; [|done]. intros [Hg Ht]. pose proof (legs_nonneg lane s w Hg Ht).
  cbn [swap_adj promise swap_weight]. fold (flag v HTLC_F_COMMITTED (swap_state w)). rewrite legs_split.
  unfold pending_level. case_bool_decide as E; cbn [loss gain].
  - subst v. destruct (flag s HTLC_F_COMMITTED _), (flag s HTLC_F_PENDING _); simpl; lia.
  - replace (other s) with v by (by destruct v, s). destruct (flag v _ _); simpl; lia.
Qed.

Lemma pending_reach base c v lane o s :
  accounted base c -> swap_nonneg (chan_sym_swap c) -> view_owed c v !! lane = Some o ->
  millisatoshis o.[s]
    + sum_with (delta_remove s) (removing (gather_lane_htlcs c v (Some lane)))
    + sum_with (delta_add s) (adding (gather_lane_htlcs c v (Some lane)))
    - promise v lane s (chan_sym_swap c)
  <= base lane s + reach (pending_level v s) c lane s.
Proof.
  intros Ha Hw Ho. rewrite (Ha v lane o s Ho), removing_sum, adding_sum. unfold in_flight, reach.
  pose proof (pending_swap v lane s _ Hw).
  rewrite (lane_sum_ext (weight (pending_level v s) s)
    (fun h => adj v s h + (cadding v s (h_state h) * amt h + cremoving v s (h_state h) (has_r h) * amt h))).
  2: { intros h _. rewrite adj_weight. unfold weight. rewrite pending_coef. cbn [coef]. lia. }
  rewrite !lane_sum_plus. lia.
Qed.

(** Bounds on what is pending. *)
Lemma filter_sum_bound (f : htlc -> Z) (P Q : htlc -> bool) l :
  (forall h, h ∈ l -> Z.abs (f h) <= amt h) ->
  Z.abs (sum_with f (filter (fun h => P h = true) (filter (fun h => Q h = true) l))) <= sum_with amt l.
Proof.
  intros H. rewrite !sum_with_filter. induction l as [|h l IH]; [done|]. simpl.
  pose proof (H h ltac:(set_solver)). pose proof (IH ltac:(set_solver)). repeat case_if; lia.
Qed.

Lemma delta_remove_nonneg s l : (forall h, h ∈ l -> 0 <= amt h) -> 0 <= sum_with (delta_remove s) l.
Proof. intros H. apply sum_with_nonneg. intros h Hh. unfold delta_remove. specialize (H h Hh). case_if; lia. Qed.

Lemma delta_add_nonpos s l : (forall h, h ∈ l -> 0 <= amt h) -> sum_with (delta_add s) l <= 0.
Proof.
  induction l as [|h l IH]; intros H; [done|]. simpl. pose proof (H h ltac:(set_solver)).
  pose proof (IH ltac:(set_solver)). unfold delta_add at 1. case_if; lia.
Qed.

Lemma gathered_bounds c v lane s :
  (forall h, h ∈ the_htlcs c -> 0 <= amt h) ->
  0 <= sum_with (delta_remove s) (removing (gather_lane_htlcs c v (Some lane))) <= sum_with amt (the_htlcs c) /\
  - sum_with amt (the_htlcs c) <= sum_with (delta_add s) (adding (gather_lane_htlcs c v (Some lane))) <= 0.
Proof.
  intros Ha. cbn [removing adding gather_lane_htlcs].
  pose proof (filter_sum_bound (delta_remove s) (fun h => is_committed v h && is_pending v h)
    (in_lane (Some lane)) (the_htlcs c)) as H1.
  pose proof (filter_sum_bound (delta_add s) (fun h => negb (is_committed v h) && is_pending v h)
    (in_lane (Some lane)) (the_htlcs c)) as H2.
  cbv beta in H1, H2. split.
  - split; [apply delta_remove_nonneg; intros h Hh; apply Ha; by rewrite !list_elem_of_filter in Hh; destruct Hh as (_ & _ & ?)|].
    assert (forall h, h ∈ the_htlcs c -> Z.abs (delta_remove s h) <= amt h) as Hd.
    { intros h Hh. specialize (Ha h Hh). unfold delta_remove. case_if; lia. }
    specialize (H1 Hd). lia.
  - assert (forall h, h ∈ the_htlcs c -> Z.abs (delta_add s h) <= amt h) as Hd.
    { intros h Hh. specialize (Ha h Hh). unfold delta_add. case_if; lia. }
    specialize (H2 Hd). split; [lia|].
    apply delta_add_nonpos; intros h Hh; apply Ha; by rewrite !list_elem_of_filter in Hh; destruct Hh as (_ & _ & ?).
Qed.

(** The sum every check computes: what is left of [x] after what is pending in
    the view, the new HTLC and the promises. *)
Definition room_of (c : channel) (v : side) (lane : nat) (s : side) (h : htlc) (x : amount_msat_t) : outcome Z :=
  let g := gather_lane_htlcs c v (Some lane) in
  b ← to_balance x;
  let b := fold_left (fun b h => balance_remove_htlc b h s) (removing g) b in
  let b := fold_left (fun b h => balance_add_htlc b h s) (adding g ++ [h]) b in
  promised ← swap_promised c v lane s;
  Ret (wrap_s64 (b - millisatoshis promised)).

Lemma room_solvent base total c v lane o s h x room :
  sound total c -> accounted base c -> swap_nonneg (sym_swap_req c) -> 0 <= amt h ->
  total lane + sum_with amt (the_htlcs c) + amt h + swap_size (chan_sym_swap c)
    + swap_size (sym_swap_req c) <= INT64_MAX ->
  view_owed c v !! lane = Some o -> 0 <= millisatoshis x <= millisatoshis o.[s] ->
  room_of c v lane s h x = Ret room -> 0 <= room ->
  0 <= base lane s + reach (pending_level v s) c lane s + delta_add s h.
Proof.
  intros (Hb & Hok & _) Ha Hreq Hh Hfit Ho Hx H Hroom.
  pose proof (owed_le_total _ _ _ _ _ s Hb Hok Ho) as Htot. destruct Hok as (Hamt & Hsw & _).
  assert (swap_nonneg (chan_sym_swap c)) as Hw by (destruct (chan_sym_swap c); [apply Hsw|done]).
  unfold room_of in H. split_bind H. unfold to_balance, assert_then in Hx0. case_match; [|done].
  injection Hx0 as <-. rewrite fold_remove, fold_add, sum_with_app in H. split_bind H. apply Ret_inj in H. subst room.
  assert (sum_with (delta_add s) [h] = delta_add s h) as E1 by (simpl; lia). rewrite E1 in Hroom.
  pose proof (promise_bounds v lane s _ Hw). pose proof (promise_bounds v lane s _ Hreq).
  pose proof (sum_with_nonneg amt (the_htlcs c) Hamt).
  apply swap_promised_spec in Hx0; [|done|done|lia].
  destruct (gathered_bounds c v lane s Hamt) as [B1 B2].
  assert (- amt h <= delta_add s h <= 0) by (unfold delta_add; case_if; lia).
  rewrite wrap_s64_sub, wrap_s64_small in Hroom by lia.
  pose proof (pending_reach base c v lane o s Ha Hw Ho). lia.
Qed.

Lemma lane_owed_view c lane v s m :
  sym_lane_owed c lane v s = Ret m -> exists o, view_owed c v !! lane = Some o /\ m = o.[s].
Proof.
  unfold sym_lane_owed, view_owed. destruct lane as [|l]; [intros [= <-]; by eexists|].
  destruct (lane_bals c !! l) as [b|] eqn:E; [|done]. intros [= <-]. exists (lane_owed b).[v]. split; [|done].
  change (((fun b => (lane_owed b).[v]) <$> lane_bals c) !! l = Some (lane_owed b).[v]).
  by rewrite list_lookup_fmap, E.
Qed.

(** The two ways in which [add_htlc] computes it. *)
Lemma lane_room_of c v lane s h :
  lane_room c v lane (adding (gather_lane_htlcs c v (Some lane)) ++ [h])
    (removing (gather_lane_htlcs c v (Some lane))) s = Ret true ->
  exists o room, view_owed c v !! lane = Some o /\ room_of c v lane s h o.[s] = Ret room /\ 0 <= room.
Proof.
  unfold lane_room, room_of. intros H. split_bind H. apply lane_owed_view in Hx as (o & Ho & ->).
  split_bind H. split_bind H. apply Ret_inj in H.
  match type of H with context [balance_ok ?z] => exists o, z; unfold balance_ok in H;
    destruct (Z.ltb_spec z 0); [done|] end.
  split; [done|]. rewrite Hx. cbn [mbind outcome_bind]. rewrite Hx0. done.
Qed.

Lemma room_above_reserve_of c v s h o room :
  view_owed c v !! 0%nat = Some o -> wf_msat o.[s] ->
  get_room_above_reserve c v (adding (gather_lane_htlcs c v (Some 0%nat)) ++ [h])
    (removing (gather_lane_htlcs c v (Some 0%nat))) s = Ret (Some room) ->
  exists x z, 0 <= millisatoshis x <= millisatoshis o.[s] /\ room_of c v 0 s h x = Ret z /\ 0 <= z.
Proof.
  intros Ho Hwf. injection Ho as <-. unfold get_room_above_reserve, room_of. intros H. split_bind H.
  destruct (amount_msat_less_eq_sat _ _); [done|].
  pose proof (wrap_u64_range (- (lowest_splice_amnt (view c).[v]).[s])).
  rewrite amount_msat_sub_sat_spec in H by (simpl; lia).
  destruct (Z.leb_spec (satoshis (amount_sat (wrap_u64 (- (lowest_splice_amnt (view c).[v]).[s]))) * 1000)
              (millisatoshis (owed (view c).[v]).[s])) as [E|]; [|done].
  set (y := mk_msat _) in H. split_bind H. split_bind H.
  match type of H with context [balance_ok ?z] => exists y, z; unfold balance_ok in H;
    destruct (Z.ltb_spec z 0); [done|] end.
  split; [unfold y; cbn [amount_sat satoshis millisatoshis] in *; lia|].
  rewrite Hx0. cbn [mbind outcome_bind]. rewrite Hx1. done.
Qed.

Lemma add_own_lane_room params c l h g s err r :
  add_own_lane params c l h g s true err = Ret r -> add_err r = CHANNEL_ERR_ADD_OK ->
  exists room, get_room_above_reserve c (other s) (adding g) (removing g) s = Ret (Some room).
Proof.
  unfold add_own_lane. intros H He. destruct (add_in_flight g s); [|by injection H as <-].
  destruct (_ && _); [by injection H as <-|]. split_bind H. destruct x as [[] fee]; [|by injection H as <-].
  split_bind Hx. destruct x as [ok fee']. injection Hx as -> _. unfold add_afford_checks in Hx0.
  split_bind Hx0. split_bind Hx0. destruct x0 as [room|]; [by exists room|done].
Qed.

Lemma add_htlc_room params c state id amount expiry hash routing path_key extra err lane r :
  add_htlc params c state id amount expiry hash routing path_key true extra err lane = Ret r ->
  add_err r = CHANNEL_ERR_ADD_OK ->
  let s := htlc_state_owner state in
  let g := gather_lane_htlcs c (other s) (Some lane) in
  exists h, h_state h = state /\ h_amount h = amount /\
    if decide (lane = 0%nat)
    then exists room, get_room_above_reserve c (other s) (adding g ++ [h]) (removing g) s = Ret (Some room)
    else lane_room c (other s) lane (adding g ++ [h]) (removing g) s = Ret true.
Proof.
  cbv zeta. unfold add_htlc. intros H He. destruct (_ <=? _)%nat; [by injection H as <-|].
  destruct (blocks_to_abs_locktime expiry) as [e|]; [|by injection H as <-].
  destruct (htlcs c) as [l|]; [|done].
  destruct (htlc_get l id _); [destruct (_ || _ || _); by injection H as <-|].
  destruct (amount_msat_is_zero amount); [by injection H as <-|].
  destruct (amount_msat_less _ _); [by injection H as <-|].
  destruct (_ && _ && _); [by injection H as <-|].
  destruct (_ <? _); [by injection H as <-|]. destruct (_ && _ && _); [by injection H as <-|].
  exists (new_htlc state id amount e hash routing path_key extra lane). split; [done|]. split; [done|].
  destruct (Nat.eqb_spec lane 0); cbn [negb] in H.
  - rewrite decide_True by done. by apply add_own_lane_room in H.
  - rewrite decide_False by done. split_bind H. destruct x; [done|by injection H as <-].
Qed.

(** An HTLC [add_htlc] accepts, with what the sender can then be made to pay. *)
Lemma add_htlc_room_of total params c state id amount expiry hash routing path_key extra err lane r :
  sound total c ->
  add_htlc params c state id amount expiry hash routing path_key true extra err lane = Ret r ->
  add_err r = CHANNEL_ERR_ADD_OK ->
  let s := htlc_state_owner state in
  exists h o x z, h_state h = state /\ h_amount h = amount /\ view_owed c (other s) !! lane = Some o /\
    0 <= millisatoshis x <= millisatoshis o.[s] /\ room_of c (other s) lane s h x = Ret z /\ 0 <= z.
Proof.
  intros Hs H He. cbv zeta. apply add_htlc_room in H as (h & Hst & Ham & H); [|done]. cbv zeta in H.
  set (s := htlc_state_owner state) in *. pose proof Hs as (Hb & Hok & Hf). case_decide as E.
  - subst lane. destruct H as [room H]. pose proof (Hf 0%nat) as Hf0.
    assert (view_owed c (other s) !! 0%nat = Some (owed (view c).[other s])) as Ho by done.
    pose proof (owed_le_total _ _ _ _ _ s Hb Hok Ho) as Ht.
    pose proof (sum_with_nonneg amt (the_htlcs c) (proj1 Hok)).
    assert (0 <= swap_size (chan_sym_swap c)).
    { destruct Hok as (_ & Hsw & _). destruct (chan_sym_swap c); simpl; lia. }
    apply (room_above_reserve_of _ _ _ _ _ _ Ho) in H as (x & z & Hx & Hz & Hpos); [|lia].
    by exists h, (owed (view c).[other s]), x, z.
  - apply lane_room_of in H as (o & z & Ho & Hz & Hpos). exists h, o, o.[s], z.
    split_and!; try done; apply (owed_le_total _ _ _ _ _ s Hb Hok Ho).
Qed.

Lemma reach_cons l c h lane s :
  reach l (set_htlcs (Some (h :: the_htlcs c)) c) lane s =
  (if (h_lane h =? lane)%nat then weight l s h else 0) + reach l c lane s.
Proof.
  unfold reach. change (the_htlcs (set_htlcs (Some (h :: the_htlcs c)) c)) with (h :: the_htlcs c).
  change (chan_sym_swap (set_htlcs (Some (h :: the_htlcs c)) c)) with (chan_sym_swap c).
  rewrite lane_sum_cons. lia.
Qed.

Lemma add_solvent base total params c sender id amount expiry hash routing path_key extra err lane r :
  sound total c -> accounted base c -> solvent base c -> 0 <= millisatoshis amount ->
  within total (add_chan r) ->
  channel_add_lane_htlc params c sender id amount expiry hash routing path_key extra err lane = Ret r ->
  add_err r = CHANNEL_ERR_ADD_OK -> solvent base (add_chan r).
Proof.
  intros Hs Ha Hb Ham Hw H He. unfold channel_add_lane_htlc in H.
  set (state := if bool_decide (sender = LOCAL) then SENT_ADD_HTLC else RCVD_ADD_HTLC) in *.
  assert (first_state state) as Hfirst by (unfold state; case_bool_decide; [left|right]; done).
  pose proof H as Hroom. apply (add_htlc_room_of total) in Hroom as (h0 & o & x & z & Hst0 & Ham0 & Ho & Hx & Hz & Hpos);
    [|done|done]. set (snd := htlc_state_owner state) in *.
  apply add_htlc_effect in H. unfold all_or_nothing in H. rewrite decide_True in H by done.
  destruct H as (h & _ & (Hst & _ & Eam & Ela & Er & _) & Ec). rewrite Ec in *. clear Ec.
  destruct Hw as [Hreq Hfit]. change (sym_swap_req (set_htlcs _ c)) with (sym_swap_req c) in Hreq, Hfit.
  assert (amt h0 = amt h) as Eh by (unfold amt; congruence).
  intros l lane' s Hlane. change (lane_bals (set_htlcs _ c)) with (lane_bals c) in Hlane.
  specialize (Hb l lane' s Hlane). rewrite reach_cons. rewrite Ela.
  destruct (Nat.eqb_spec lane lane') as [<-|]; [|lia]. unfold weight. rewrite Hst.
  assert (l = Other \/ l <> Other) as [->|Hl] by (destruct l; naive_solver); [|rewrite first_coef by done; lia].
  rewrite first_coef_other by done. unfold cadd. fold snd. case_bool_decide as Es; [|lia]. subst s.
  assert (0 <= base lane snd + reach (pending_level (other snd) snd) c lane snd + delta_add snd h0) as Hr.
  { specialize (Hfit lane).
    change (the_htlcs (set_htlcs (Some (h :: the_htlcs c)) c)) with (h :: the_htlcs c) in Hfit.
    change (chan_sym_swap (set_htlcs (Some (h :: the_htlcs c)) c)) with (chan_sym_swap c) in Hfit.
    change (sum_with amt (h :: the_htlcs c)) with (amt h + sum_with amt (the_htlcs c)) in Hfit.
    eapply (room_solvent base total); try done; [unfold amt; by rewrite Ham0|lia]. }
  replace (pending_level (other snd) snd) with Other in Hr by (by destruct snd).
  unfold delta_add, htlc_owner in Hr. rewrite Hst0, Eh in Hr. fold snd in Hr.
  rewrite bool_decide_true in Hr by done. lia.
Qed.

(** ** Removing an HTLC *)

Lemma lane_sum_update_le f lane id owner g l h :
  htlc_get l id owner = Some h -> f h <= f (g h) -> h_lane (g h) = h_lane h ->
  lane_sum f lane l <= lane_sum f lane (update_htlc id owner g l).
Proof.
  intros Hg Hf Hl. induction l as [|x l IH]; [done|]. unfold htlc_get in Hg. cbn [find update_htlc] in *.
  destruct (_ && _); rewrite !lane_sum_cons.
  - injection Hg as ->. rewrite Hl. case_if; lia.
  - specialize (IH Hg). lia.
Qed.

Lemma remove_solvent base c owner id h n g :
  htlc_get (the_htlcs c) id owner = Some h -> removal_state (h_state h) = Some n -> 0 <= amt h ->
  h_state (g h) = n -> h_amount (g h) = h_amount h -> h_lane (g h) = h_lane h ->
  (has_r h = false \/ has_r (g h) = has_r h) ->
  solvent base c -> solvent base (with_htlc c owner id g).
Proof.
  intros Hg Hn Ha Es Em El Hr Hb l lane s Hlane. specialize (Hb l lane s Hlane). unfold reach in *.
  change (the_htlcs (with_htlc c owner id g)) with (update_htlc id owner g (the_htlcs c)).
  change (chan_sym_swap (with_htlc c owner id g)) with (chan_sym_swap c).
  assert (weight l s h <= weight l s (g h)) as Hle.
  { unfold weight. rewrite Es. replace (amt (g h)) with (amt h) by (unfold amt; by rewrite Em).
    apply Z.mul_le_mono_nonneg_r; [done|]. by apply removal_dominated. }
  pose proof (lane_sum_update_le _ lane _ _ _ _ _ Hg Hle El). lia.
Qed.

Lemma annotate_solvent base c owner id h g :
  htlc_get (the_htlcs c) id owner = Some h -> annotation g -> solvent base c -> solvent base (with_htlc c owner id g).
Proof.
  intros Hg Ha Hb l lane s Hlane. specialize (Hb l lane s Hlane). unfold reach in *.
  change (the_htlcs (with_htlc c owner id g)) with (update_htlc id owner g (the_htlcs c)).
  rewrite (lane_sum_update _ _ _ _ _ _ h) by (done || by destruct Ha as [[? ->]|[? ->]]). done.
Qed.

(** ** Swaps *)

Lemma swap_affordable_room total c s lane amount v o :
  sound total c -> chan_sym_swap c = None -> swap_nonneg (sym_swap_req c) -> 0 <= millisatoshis amount ->
  total lane + sum_with amt (the_htlcs c) + swap_size (sym_swap_req c) + millisatoshis amount <= INT64_MAX ->
  view_owed c v !! lane = Some o ->
  swap_affordable_in c s lane amount v = Ret true ->
  0 <= millisatoshis o.[s] + sum_with (delta_add s) (adding (gather_lane_htlcs c v (Some lane)))
       - millisatoshis amount.
Proof.
  intros (Hb & Hok & _) Hnone Hreq Ham Hfit Ho H. pose proof (owed_le_total _ _ _ _ _ s Hb Hok Ho).
  unfold swap_affordable_in in H. split_bind H. apply lane_owed_view in Hx as (o' & Ho' & ->).
  rewrite Ho in Ho'. injection Ho' as <-. split_bind H. unfold to_balance, assert_then in Hx.
  destruct (0 <=? wrap_s64 _); [|done]. injection Hx as <-. rewrite fold_add in H. split_bind H. destruct Hok as (Hamt & _).
  pose proof (promise_bounds v lane s _ Hreq). pose proof (sum_with_nonneg amt (the_htlcs c) Hamt).
  apply swap_promised_spec in Hx; [|by rewrite Hnone|done|rewrite Hnone; simpl; lia].
  rewrite Hnone in Hx. change (promise v lane s None) with 0 in Hx. destruct (gathered_bounds c v lane s Hamt) as [_ B2].
  rewrite wrap_s64_sub, <- Z.sub_add_distr, wrap_s64_sub, wrap_s64_small in H by lia. unfold balance_ok in H.
  match type of H with context [?z <? 0] => destruct (Z.ltb_spec z 0); [done|lia] end.
Qed.

Lemma swap_add_reach w l lane s :
  first_state (swap_state w) -> 0 <= millisatoshis (swap_give w) -> 0 <= millisatoshis (swap_take w) ->
  (match l with Owed _ => 0 | _ => neg_legs lane s w end) <= swap_weight l lane s (Some w).
Proof.
  intros Hf Hg Ht. pose proof (legs_nonneg lane s w Hg Ht). cbn [swap_weight].
  destruct l as [| | |v]; cbn [loss]; try (case_if; lia).
  assert (flag v HTLC_F_COMMITTED (swap_state w) = false) as E by (destruct Hf as [-> | ->]; by destruct v).
  cbn [gain]. by rewrite E.
Qed.

(** The lower bound both kinds of checks give for each amount. *)
Lemma view_reach base c lane s l o o' :
  accounted base c -> amounts_ok c -> chan_sym_swap c = None -> (forall v, l <> Owed v) ->
  view_owed c s !! lane = Some o -> view_owed c (other s) !! lane = Some o' ->
  millisatoshis o.[s] + sum_with (delta_add s) (adding (gather_lane_htlcs c s (Some lane)))
    <= base lane s + reach l c lane s \/
  millisatoshis o'.[s] + sum_with (delta_add s) (adding (gather_lane_htlcs c (other s) (Some lane)))
    <= base lane s + reach l c lane s.
Proof.
  intros Ha (Hamt & _) Hnone Hl Ho Ho'.
  assert (swap_nonneg (chan_sym_swap c)) as Hw by (by rewrite Hnone).
  pose proof (pending_reach base c s lane o s Ha Hw Ho) as H1.
  pose proof (pending_reach base c (other s) lane o' s Ha Hw Ho') as H2.
  rewrite Hnone in H1, H2. cbn [promise] in H1, H2.
  destruct (gathered_bounds c s lane s Hamt) as [B1 _].
  destruct (gathered_bounds c (other s) lane s Hamt) as [B2 _].
  destruct l as [| | |v]; [right|left|right|by destruct (Hl v)].
  - replace (pending_level (other s) s) with Other in H2 by (by destruct s). lia.
  - replace (pending_level s s) with Own in H1 by (by destruct s). lia.
  - rewrite (Ha (other s) lane o' s Ho'), adding_sum. unfold in_flight, reach. rewrite Hnone.
    cbn [swap_adj swap_weight].
    assert (lane_sum (adj (other s) s) lane (the_htlcs c)
            + lane_sum (fun h => cadding (other s) s (h_state h) * amt h) lane (the_htlcs c)
            <= lane_sum (weight Own1 s) lane (the_htlcs c)); [|lia].
    rewrite <- lane_sum_plus. apply lane_sum_le. intros h Hh. rewrite adj_weight. unfold weight.
    pose proof (own1_bound s (h_state h) (has_r h)). specialize (Hamt h Hh). cbn [coef] in *. nia.
Qed.

Lemma swap_check_inv c w :
  channel_sym_swap_check c w = Ret None ->
  let owner := htlc_state_owner (swap_state w) in
  chan_sym_swap c = None /\
  (give_lane w < sym_num_lanes c)%nat /\ (take_lane w < sym_num_lanes c)%nat /\
  (forall v, swap_affordable_in c owner (give_lane w) (swap_give w) v = Ret true) /\
  (forall v, swap_affordable_in c (other owner) (take_lane w) (swap_take w) v = Ret true).
Proof.
  assert (forall s lane a, swap_affordable c s lane a = Ret true ->
            forall v, swap_affordable_in c s lane a v = Ret true) as Hboth.
  { intros s lane a H v. unfold swap_affordable in H. split_bind H. destruct x; [|done]. by destruct v. }
  unfold channel_sym_swap_check. intros H. cbv zeta.
  destruct (sym_lanes c) eqn:El; [|done]. destruct (chan_sym_swap c); [done|].
  destruct (_ || _ || _) eqn:E; [done|]. apply orb_false_iff in E as [[_ E1]%orb_false_iff E2].
  destruct (_ || _); [done|]. split_bind H. destruct x; [|done]. split_bind H. destruct x; [|done].
  apply Nat.leb_gt in E1, E2. split; [done|]. split; [done|]. split; [done|]. split; by apply Hboth.
Qed.

(** The legs a side has to pay are the ones it was asked whether it can. *)
Lemma neg_legs_cases lane s w :
  let owner := htlc_state_owner (swap_state w) in
  neg_legs lane s w = 0 \/
  (lane = give_lane w /\ s = owner /\ neg_legs lane s w = - millisatoshis (swap_give w)) \/
  (lane = take_lane w /\ s = other owner /\ neg_legs lane s w = - millisatoshis (swap_take w)).
Proof.
  cbv zeta. unfold neg_legs.
  destruct (Nat.eqb_spec (give_lane w) lane), (Nat.eqb_spec (take_lane w) lane),
    (htlc_state_owner (swap_state w)), s; simpl; auto; right; solve [left; split_and!; done || lia | right; split_and!; done || lia].
Qed.

Lemma swap_add_solvent base total c w c' :
  sound total c -> accounted base c -> solvent base c -> within total c' ->
  0 <= millisatoshis (swap_give w) -> 0 <= millisatoshis (swap_take w) ->
  channel_sym_swap_check c w = Ret None -> channel_sym_swap_add c w = Ret c' -> solvent base c'.
Proof.
  intros Hs Ha Hb Hw Hg Ht Hc H. apply swap_check_inv in Hc as (Hnone & _ & _ & Ag & At).
  unfold channel_sym_swap_add, assert_then in H. rewrite bool_decide_true in H by done.
  destruct (_ || _) eqn:Hst; [|done]. injection H as <-.
  rewrite orb_true_iff, !bool_decide_eq_true in Hst. fold (first_state (swap_state w)) in Hst.
  destruct Hw as [Hreq Hfit]. intros l lane s Hlane. pose proof Hs as (Hbal & Hok & _).
  pose proof (swap_add_reach w l lane s Hst Hg Ht) as Hsw. specialize (Hb l lane s Hlane) as Hl.
  assert (reach l (set_sym_swap (Some w) c) lane s = reach l c lane s + swap_weight l lane s (Some w)) as ->.
  { unfold reach. rewrite Hnone. cbn [swap_weight chan_sym_swap set_sym_swap].
    change (the_htlcs (set_sym_swap (Some w) c)) with (the_htlcs c). lia. }
  assert ((exists v, l = Owed v) \/ forall v, l <> Owed v) as [[v ->]|Hne] by (destruct l; naive_solver); [lia|].
  replace (match l with Owed _ => 0 | _ => neg_legs lane s w end) with (neg_legs lane s w) in Hsw
    by (destruct l; naive_solver).
  destruct (neg_legs_cases lane s w) as [E|Hpay]; [lia|].
  specialize (Hfit lane). change (the_htlcs (set_sym_swap (Some w) c)) with (the_htlcs c) in Hfit.
  change (sym_swap_req (set_sym_swap (Some w) c)) with (sym_swap_req c) in Hfit, Hreq.
  change (swap_size (chan_sym_swap (set_sym_swap (Some w) c)))
    with (millisatoshis (swap_give w) + millisatoshis (swap_take w)) in Hfit.
  assert (forall v, exists o, view_owed c v !! lane = Some o) as Hin.
  { intros v. apply lookup_lt_is_Some_2. by rewrite view_owed_length. }
  assert (forall v o, view_owed c v !! lane = Some o ->
    0 <= millisatoshis o.[s] + sum_with (delta_add s) (adding (gather_lane_htlcs c v (Some lane))) + neg_legs lane s w) as Hroom.
  { intros v o Ho. destruct Hpay as [(-> & -> & ->)|(-> & -> & ->)].
    - assert (total (give_lane w) + sum_with amt (the_htlcs c) + swap_size (sym_swap_req c)
              + millisatoshis (swap_give w) <= INT64_MAX) as Hg' by lia.
      pose proof (swap_affordable_room _ _ _ _ _ _ _ Hs Hnone Hreq Hg Hg' Ho (Ag v)). lia.
    - assert (total (take_lane w) + sum_with amt (the_htlcs c) + swap_size (sym_swap_req c)
              + millisatoshis (swap_take w) <= INT64_MAX) as Ht' by lia.
      pose proof (swap_affordable_room _ _ _ _ _ _ _ Hs Hnone Hreq Ht Ht' Ho (At v)). lia. }
  destruct (Hin s) as [o Ho]. destruct (Hin (other s)) as [o' Ho'].
  pose proof (Hroom _ _ Ho). pose proof (Hroom _ _ Ho').
  destruct (view_reach base c lane s l o o' Ha Hok Hnone Hne Ho Ho'); lia.
Qed.

Lemma swap_done_solvent base c w :
  chan_sym_swap c = Some w ->
  swap_state w = SENT_ADD_ACK_REVOCATION \/ swap_state w = RCVD_ADD_ACK_REVOCATION ->
  solvent base c -> solvent (fun lane s => base lane s + swap_legs lane s w) (set_sym_swap None c).
Proof.
  intros E Es Hb l lane s Hlane. specialize (Hb l lane s Hlane). unfold reach in *. rewrite E in Hb.
  change (the_htlcs (set_sym_swap None c)) with (the_htlcs c). cbn [swap_weight chan_sym_swap set_sym_swap] in *.
  assert (loss l (swap_state w) = true /\ gain l s (swap_state w) = true) as [El Eg].
  { destruct Es as [-> | ->]; by destruct l as [| | |[]], s. }
  rewrite El, Eg in Hb. rewrite legs_split. lia.
Qed.

(** ** Every step keeps every amount above zero *)

Definition healthy (total : nat -> Z) (c : channel) : Prop :=
  exists base, accounted base c /\ (forall lane, base lane LOCAL + base lane REMOTE = total lane) /\ solvent base c.

Lemma weight_respects l s : respects (weight l s).
Proof. intros h h' Es Ea Er. unfold weight, amt, has_r. by rewrite Es, Ea, Er. Qed.

(** A channel with the same table, swap and lanes. *)
Lemma same_money_healthy total c c' :
  same_money c c' -> length (lane_bals c') = length (lane_bals c) -> healthy total c -> healthy total c'.
Proof.
  intros Hm L (base & Ha & Hsum & Hb). exists base. split; [|split; [done|]].
  - intros v lane o s. rewrite (same_money_in_flight _ _ _ _ _ Hm). destruct Hm as (-> & _). apply Ha.
  - intros l lane s Hlane. rewrite L in Hlane. unfold reach. destruct Hm as (_ & -> & ->). by apply Hb.
Qed.

Lemma dance_healthy {B} total c d (g : Z -> list htlc -> channel -> B * list htlc) b c' :
  sound total c -> healthy total c ->
  ('(f, chg, c') ← change_htlcs c (dance_view d) (dance_states d); Ret (g f chg c', c')) = Ret (b, c') ->
  healthy total c'.
Proof.
  intros Hs (base & Ha & Hsum & Hb) H. apply bind_change in H as (f & chg & c1 & H & [= _ ->]).
  exists (base_after (dance_states d) c base). split; [|split].
  - eapply change_htlcs_accounted; [apply dance_ok|done..].
  - intros lane. by rewrite (base_after_both _ _ _ _ _ (dance_ok d)).
  - by eapply commit_solvent.
Qed.

(** An update of the table or of the swap that leaves the balances alone. *)
Lemma update_healthy total c c' :
  (forall base, accounted base c -> solvent base c -> solvent base c') ->
  (forall v, view_owed c' v = view_owed c v) ->
  (forall lane v s, in_flight c' lane v s = in_flight c lane v s) ->
  healthy total c -> healthy total c'.
Proof.
  intros Hs Hv Hi (base & Ha & Hsum & Hb). exists base. split; [|split; [done|by apply Hs]].
  intros v lane o s. rewrite Hv, Hi. apply Ha.
Qed.

Lemma with_htlc_in_flight c owner id g h n r lane v s :
  htlc_get (the_htlcs c) id owner = Some h -> removal_state (h_state h) = Some n ->
  g h = set_h_state n (set_h_r r h) ->
  in_flight (with_htlc c owner id g) lane v s = in_flight c lane v s.
Proof.
  intros Hg Hn Eg. unfold in_flight.
  change (the_htlcs (with_htlc c owner id g)) with (update_htlc id owner g (the_htlcs c)).
  change (chan_sym_swap (with_htlc c owner id g)) with (chan_sym_swap c). f_equal.
  apply (lane_sum_update _ _ _ _ _ _ h Hg); rewrite Eg; [by apply (removal_state_adj (h_state h))|done].
Qed.

Section Healthy.
Context (params : chainparams) (sha256 : list Z -> list Z)
  (point_lock_opens : list Z -> list Z -> bool) (total : nat -> Z).

Lemma chan_step_healthy c c' :
  sound total c -> healthy total c -> within total c' ->
  chan_step params sha256 point_lock_opens c c' -> healthy total c'.
Proof.
  intros Hs Hh Hw H. pose proof Hs as (_ & (Hamt & _) & _).
  destruct H as [? ? ? ? ? ? ? ? ? ? r Ha H He|? ? ? ? H|? ? ? H|? ? H|? ? H|req|w c' Hg Ht Hc H|c' H|? ? ? H|? ? ? H|? ? ? H|? ? ? H|? ? h g Hget Hg0|? ?].
  - pose proof H as Heff. apply add_htlc_effect in Heff. unfold all_or_nothing in Heff.
    rewrite decide_True in Heff by done. destruct Heff as (h & _ & (Hst & _) & Ec).
    apply (update_healthy total c); [|by rewrite Ec|rewrite Ec|done].
    + intros base Hacc Hb. by eapply add_solvent.
    + intros lane' v s. apply added_in_flight. rewrite Hst. case_bool_decide; [by left|by right].
  - apply fulfill_effect in H as (h & n & Hget & Hr & _ & Hn & ->).
    apply (update_healthy total c); [|done| |done].
    + intros base _. eapply remove_solvent; try done; [by apply Hamt, (htlc_get_in _ id owner)|].
      left. unfold has_r. by rewrite Hr.
    + intros lane v s. by apply (with_htlc_in_flight _ _ _ _ h n (Some preimage)).
  - apply fail_effect in H as (h & n & Hget & Hn & ->).
    apply (update_healthy total c); [|done| |done].
    + intros base _. eapply remove_solvent; try done; [by apply Hamt, (htlc_get_in _ id owner)|by right].
    + intros lane v s. apply (with_htlc_in_flight _ _ _ _ h n (h_r h)); [done..|]. by destruct h.
  - unfold channel_update_feerate in H. split_bind H. destruct x; [|done]. split_bind H.
    destruct x; [done|]. injection H as <-. by apply (same_money_healthy total c).
  - unfold channel_update_blockheight in H. case_match; [|done]. injection H as <-.
    by apply (same_money_healthy total c).
  - by apply (same_money_healthy total c).
  - apply (update_healthy total c); [| | |done].
    + intros base Hacc Hb. by eapply swap_add_solvent.
    + by apply swap_add_in_flight in H as (-> & _).
    + by apply swap_add_in_flight in H as (_ & _ & Hi).
  - destruct Hh as (base & Hacc & Hsum & Hb). apply swap_done_in_flight in H as (w & Ew & -> & Es & Hi).
    exists (fun lane s => base lane s + swap_legs lane s w). split; [by eapply swap_done_accounted|].
    split; [|by apply swap_done_solvent].
    intros lane. pose proof (swap_legs_both lane w). specialize (Hsum lane). lia.
  - eapply (dance_healthy total c SendCommit); [done|done|exact H].
  - eapply (dance_healthy total c RcvdRevoke); [done|done|exact H].
  - eapply (dance_healthy total c RcvdCommit); [done|done|exact H].
  - eapply (dance_healthy total c SendRevoke); [done|done|exact H].
  - apply (update_healthy total c); [|done| |done]; [intros base _; by eapply annotate_solvent|].
    intros lane v s. unfold in_flight. f_equal. by apply (lane_sum_update _ _ _ _ _ _ h Hget); destruct Hg0 as [[? ->]|[? ->]].
  - by apply (same_money_healthy total c).
Qed.
End Healthy.
