(* ===== verification/Progress.v ===== *)
(** * The commitment steps never abort

    What [Solvency] shows of the amounts, put together with the shape of the
    channel: the table is there, and every HTLC and the swap are in a lane the
    channel has.  Then no assertion of [change_htlcs] fails and no index is out
    of range: in a reachable channel each of the four commitment steps returns. *)

From stdpp Require Import list.
From S2P Require Import Prelude Chainparams Amount HtlcState FeeStates CommitFee Features ChannelState Channel Example ChannelInv ChannelSteps History Solvency.
Local Open Scope Z_scope.

(** ** The shape of the channel *)

Definition swap_in (n : nat) (w : option sym_swap) : Prop :=
  match w with None => True | Some w => (give_lane w < n)%nat /\ (take_lane w < n)%nat end.

Definition table_in (n : nat) (c : channel) : Prop :=
  htlcs c <> None /\ sym_num_lanes c = n /\ forall h, h ∈ the_htlcs c -> (h_lane h < n)%nat.

(** [n] lanes, and nothing outside of them. *)
Definition shaped (n : nat) (c : channel) : Prop := table_in n c /\ swap_in n (chan_sym_swap c).

(** Neither the table, the lanes nor the swap asked for changed. *)
Definition frame (c c' : channel) : Prop :=
  htlcs c' = htlcs c /\ sym_lanes c' = sym_lanes c /\ sym_swap_req c' = sym_swap_req c.

#[export] Instance frame_trans : Transitive frame.
Proof. intros a b c (A & B & C) (D & E & F). split; [|split]; congruence. Qed.

Lemma frame_table n c c' : frame c c' -> table_in n c -> table_in n c'.
Proof. intros (A & B & _). unfold table_in, the_htlcs, sym_num_lanes. by rewrite A, B. Qed.

Lemma frame_set_view v os c c' : set_view_owed v os c = Ret c' -> frame c c'.
Proof. destruct os; [done|]. by intros [= <-]. Qed.

Lemma frame_fees states : forall c f c', change_fees states c = Ret (f, c') -> frame c c'.
Proof.
  induction states as [|st states IH]; intros c f c' H; cbn [change_fees] in H; [by injection H as _ <-|].
  split_bind H. destruct x as [f1 c1]. split_bind H. destruct x as [f2 c2]. split_bind H.
  destruct x as [f3 c3]. injection H as _ <-. transitivity c2; [transitivity c1|by eapply IH].
  - unfold fee_incstate in Hx. split_bind Hx. destruct (negb _); [by injection Hx as _ <-|].
    split_bind Hx. destruct x0. by injection Hx as _ <-.
  - unfold blockheight_incstate in Hx0. split_bind Hx0. destruct (negb _); [by injection Hx0 as _ <-|].
    destruct (blockheight_states c1); [|done]. split_bind Hx0. destruct x0. by injection Hx0 as _ <-.
Qed.

Lemma frame_change c sc states f chg c' :
  change_htlcs c sc states = Ret (f, chg, c') -> 
  htlcs c' <> None /\ sym_lanes c' = sym_lanes c /\ sym_swap_req c' = sym_swap_req c.
Proof.
  unfold change_htlcs. intros H. split_bind H. destruct (htlcs c); [|done]. split_bind H. split_bind H.
  destruct x1 as [[w b] wf]. destruct (all_balances_ok b); [|done]. split_bind H. split_bind H.
  destruct x2 as [ff c2]. injection H as _ _ <-.
  apply frame_set_view in Hx2 as (A & B & E). apply frame_fees in Hx3 as (C & D & F).
  split; [by rewrite C, A|]. by rewrite D, B, F, E.
Qed.

Lemma change_shaped {B} total n c d (g : Z -> list htlc -> channel -> B * list htlc) b c' :
  sound total c -> shaped n c ->
  ('(f, chg, c') ← change_htlcs c (dance_view d) (dance_states d); Ret (g f chg c', c')) = Ret (b, c') ->
  shaped n c'.
Proof.
  intros Hs [(_ & Hn & Hh) Hw] H. apply bind_change in H as (f & chg & c1 & H & [= _ ->]).
  destruct (change_htlcs_spec _ _ _ _ _ _ _ (dance_ok d) Hs H) as (T & _ & _ & Hf & _).
  apply frame_change in H as (Hc & Hl & _). split; [split; [done|split]|].
  - unfold sym_num_lanes. by rewrite Hl.
  - intros h. rewrite T. intros (h0 & -> & [_ Hin]%list_elem_of_filter)%list_elem_of_fmap.
    destruct (after_fields _ _ h0 (dance_ok d)) as [-> _]. by apply Hh.
  - unfold swap_follows in Hf. destruct (chan_sym_swap c), (chan_sym_swap c1); try done.
    by destruct Hf as (m & -> & _).
Qed.

Lemma added_shaped n c state id amount lane h :
  added c state id amount lane h -> table_in n c -> table_in n (set_htlcs (Some (h :: the_htlcs c)) c).
Proof.
  intros (_ & _ & _ & Hl & _ & _ & _ & _ & Hlane & _) (_ & Hn & Hh). split; [done|]. split; [done|].
  intros x [->|Hx]%elem_of_cons; [|by apply Hh]. rewrite Hl, <- Hn. exact Hlane.
Qed.

Lemma with_htlc_shaped n c owner id g :
  (forall h, h_lane (g h) = h_lane h) -> table_in n c -> table_in n (with_htlc c owner id g).
Proof.
  intros Hg (_ & Hn & Hh). split; [done|]. split; [done|].
  intros x [Hx|(h & Hget & ->)]%update_htlc_elem; [by apply Hh|]. rewrite Hg.
  by apply Hh, (htlc_get_in _ id owner).
Qed.

(** ** Every piece of a step returns *)

Lemma all_to_balances_total l :
  (forall lane o s, l !! lane = Some o -> 0 <= millisatoshis o.[s] <= INT64_MAX) ->
  exists b, all_to_balances l = Ret b.
Proof.
  induction l as [|o l IH]; intros H; [by eexists|]. destruct IH as [b Hb].
  { intros lane. apply (H (S lane)). }
  assert (forall s, to_balance o.[s] = Ret (millisatoshis o.[s])) as E.
  { intros s. specialize (H 0%nat o s eq_refl). unfold to_balance, assert_then.
    rewrite wrap_s64_small by lia. by destruct (Z.leb_spec 0 (millisatoshis o.[s])); [|lia]. }
  exists (mk_sides (millisatoshis o.[LOCAL]) (millisatoshis o.[REMOTE]) :: b). cbn [all_to_balances].
  unfold to_balances. by rewrite !E, Hb.
Qed.

Lemma change_each_total sc states l : forall b,
  steps_ok sc states -> (forall h, h ∈ l -> (h_lane h < length b)%nat) ->
  exists r, change_each sc states l b = Ret r.
Proof.
  induction l as [|h l IH]; intros b Hok Hl; [by eexists|]. cbn [change_each].
  assert (forall x, x ∈ l -> (h_lane x < length b)%nat) as Hl' by (intros x Hx; apply Hl; by constructor).
  case_bool_decide as Hin; [|destruct (IH b Hok Hl') as [r ->]; by eexists].
  destruct (lookup_lt_is_Some_2 b (h_lane h)) as [o ->]; [apply Hl; by constructor|].
  destruct (step_ok_spec sc h) as (n & En & _).
  { apply (steps_ok_in _ states); [done|]. by apply bool_decide_eq_true. }
  assert (exists h' o', htlc_incstate h sc o = Ret (h', o')) as (h' & o' & ->).
  { unfold htlc_incstate. rewrite En. by eexists _, _. }
  cbn [mbind outcome_bind]. destruct (IH (<[h_lane h := o']> b) Hok) as [r ->]; [|by eexists].
  intros x Hx. rewrite length_insert. by apply Hl'.
Qed.

Lemma change_swap_total sc states w b :
  steps_ok sc states -> swap_in (length b) w -> exists r, change_swap sc states w b = Ret r.
Proof.
  intros Hok Hw. destruct w as [w|]; [|by eexists]. cbn [change_swap].
  case_bool_decide as Hin; [|by eexists]. unfold steps_ok in Hok. rewrite forallb_forall in Hok.
  apply list_elem_of_In, Hok in Hin. unfold step_ok, next_state in Hin.
  destruct (state_succ (swap_state w)) as [n|]; [|done]. destruct (_ && _); [|by eexists].
  unfold balance_swap, assert_then. cbn [give_lane take_lane set_swap_state]. destruct Hw as [Hg Ht].
  apply Nat.ltb_lt in Hg, Ht. rewrite Hg, Ht. by eexists.
Qed.

Lemma all_balances_ok_total b :
  (forall lane p s, b !! lane = Some p -> 0 <= p.[s]) -> exists os, all_balances_ok b = Some os.
Proof.
  induction b as [|p b IH]; intros H; [by eexists|]. destruct IH as [os Hos].
  { intros lane. apply (H (S lane)). }
  cbn [all_balances_ok]. unfold balances_ok, balance_ok. rewrite Hos.
  pose proof (H 0%nat p LOCAL eq_refl). pose proof (H 0%nat p REMOTE eq_refl).
  destruct (Z.ltb_spec p.[LOCAL] 0); [lia|]. destruct (Z.ltb_spec p.[REMOTE] 0); [lia|]. by eexists.
Qed.

Lemma inc_state_total arr st n :
  next_state st = Ret n -> state_has st HTLC_ADDING = true -> exists r, inc_state arr st = Ret r.
Proof.
  unfold next_state, inc_state, assert_then. intros Hn ->. destruct (state_succ st); [|done].
  destruct (arr st); by eexists.
Qed.

Lemma change_fees_total states : forall c,
  forallb (fun st => match next_state st with Ret _ => true | Crash => false end) states = true ->
  blockheight_states c <> None -> exists r, change_fees states c = Ret r.
Proof.
  induction states as [|st states IH]; intros c H Hb; [by eexists|]. cbn [forallb] in H.
  apply andb_true_iff in H as [Hst H]. destruct (next_state st) as [n|] eqn:En; [|done]. cbn [change_fees].
  unfold fee_incstate, blockheight_incstate. rewrite En. cbn [mbind outcome_bind].
  destruct (state_has st HTLC_ADDING) eqn:Ha; cbn [negb].
  - destruct (inc_state_total (feerate (chan_fee_states c)) st n En Ha) as [[x fs] Hfs].
    unfold inc_fee_state. rewrite Hfs. cbn. destruct (blockheight_states c) as [hs|]; [|done].
    destruct (inc_state_total (height hs) st n En Ha) as [[y hs'] Hhs]. unfold inc_height_state.
    rewrite Hhs. cbn. edestruct IH as [[z c'] ->]; [done| |by eexists]. done.
  - cbn [mbind outcome_bind]. destruct (IH c H Hb) as [[z c'] ->]. by eexists.
Qed.

Lemma dance_next d :
  forallb (fun st => match next_state st with Ret _ => true | Crash => false end)
    (reverse (dance_states d)) = true.
Proof. by destruct d. Qed.

(** The balances a step makes of solvent ones are not negative. *)
Lemma step_balances base total c d b r w b' wf :
  sound total c -> accounted base c -> solvent base c ->
  all_to_balances (view_owed c (dance_view d)) = Ret b ->
  change_each (dance_view d) (dance_states d) (the_htlcs c) b = Ret r ->
  change_swap (dance_view d) (dance_states d) (chan_sym_swap c) (ch_owed r) = Ret (w, b', wf) ->
  forall lane p s, b' !! lane = Some p -> 0 <= p.[s].
Proof.
  intros Hs Ha Hb H1 H2 H3 lane p s Hp. pose proof Hs as (_ & Hok & _).
  destruct (change_htlcs_view total c _ _ _ _ _ _ _ lane s (dance_ok d) Hs H1 H2 H3) as [L V].
  assert (lane < S (length (lane_bals c)))%nat as Hlane.
  { apply lookup_lt_Some in Hp. by rewrite L, view_owed_length in Hp. }
  destruct (lookup_lt_is_Some_2 (view_owed c (dance_view d)) lane) as [o Ho]; [by rewrite view_owed_length|].
  rewrite (V o p Ho Hp), (Ha _ lane o s Ho), lane_sum_minus. unfold in_flight.
  apply change_swap_state in H3; [|apply dance_ok].
  pose proof (reach_after base c d (Owed (dance_view d)) lane s w Hb Hok Hlane H3) as R.
  rewrite (lane_sum_ext _ (fun h => adj (dance_view d) s (after (dance_states d) h))) in R
    by (intros; by rewrite adj_weight).
  assert (swap_weight (Owed (dance_view d)) lane s w = swap_adj (dance_view d) lane s w) as E; [|lia].
  destruct w as [w|]; [|done]. cbn [swap_weight swap_adj loss gain]. unfold flag. rewrite legs_split. by case_if.
Qed.

Lemma change_htlcs_total total c d :
  sound total c -> healthy total c -> shaped (S (length (lane_bals c))) c -> blockheight_states c <> None ->
  exists f chg c', change_htlcs c (dance_view d) (dance_states d) = Ret (f, chg, c').
Proof.
  intros Hs (base & Ha & _ & Hb) [(Hh & _ & Hl) Hw] Hbs. pose proof Hs as (Hbal & Hok & Hfit).
  destruct (all_to_balances_total (view_owed c (dance_view d))) as [b H1].
  { intros lane o s Ho. pose proof (owed_le_total _ _ _ _ _ s Hbal Hok Ho). specialize (Hfit lane).
    pose proof (sum_with_nonneg amt (the_htlcs c) (proj1 Hok)).
    destruct Hok as (_ & Hsw & _). destruct (chan_sym_swap c); cbn [swap_size] in Hfit; lia. }
  destruct (all_to_balances_spec _ _ H1) as [L1 R1]. rewrite view_owed_length in L1.
  destruct (change_each_total (dance_view d) (dance_states d) (the_htlcs c) b (dance_ok d)) as [r H2].
  { intros h. rewrite L1. apply Hl. }
  destruct (change_each_spec _ _ _ _ _ _ (dance_ok d) R1 H2) as [L2 _].
  destruct (change_swap_total (dance_view d) (dance_states d) (chan_sym_swap c) (ch_owed r) (dance_ok d))
    as [[[w b'] wf] H3]; [by rewrite L2, L1|].
  pose proof (step_balances base total c d _ _ _ _ _ Hs Ha Hb H1 H2 H3) as Hpos.
  destruct (all_balances_ok_total b' Hpos) as [os H4].
  destruct (change_htlcs_view total c _ _ _ _ _ _ _ 0 LOCAL (dance_ok d) Hs H1 H2 H3) as [L3 _].
  destruct (all_balances_ok_spec _ _ H4) as [L4 _]. rewrite L3, view_owed_length in L4.
  destruct os as [|o os]; [done|].
  unfold change_htlcs. rewrite H1. cbn [mbind outcome_bind]. unfold the_htlcs in H2.
  destruct (htlcs c) as [l|]; [|done]. simpl in H2. rewrite H2. cbn [mbind outcome_bind].
  rewrite H3. cbn [mbind outcome_bind]. rewrite H4. cbn [set_view_owed mbind outcome_bind].
  edestruct (change_fees_total (reverse (dance_states d))) as [[ff c'] ->]; [apply dance_next|done|by eexists _, _, _].
Qed.

(** A step makes nothing bigger. *)
Lemma change_within total c d f chg c' :
  sound total c -> within total c -> change_htlcs c (dance_view d) (dance_states d) = Ret (f, chg, c') ->
  within total c'.
Proof.
  intros Hs [Hn Hw] H. pose proof Hs as (_ & (Ha & Hsw & _) & _).
  destruct (change_htlcs_spec _ _ _ _ _ _ _ (dance_ok d) Hs H) as (T & _ & _ & Hf & _).
  apply frame_change in H as (_ & _ & Hr). unfold within. rewrite Hr, T. split; [done|].
  intros lane. specialize (Hw lane). destruct (swap_follows_ok _ _ Hf Hsw) as [_ ->].
  destruct (survivors_amt _ _ (the_htlcs c) (dance_ok d) Ha) as [_ ?]. lia.
Qed.

Section Progress.
Context (params : chainparams) (sha256 : list Z -> list Z)
  (point_lock_opens : list Z -> list Z -> bool)
  (funding_sats : amount_sat_t) (lanes : list sym_lane).
Local Notation reachable := (reachable params sha256 point_lock_opens funding_sats lanes).
Local Notation total := (capacity funding_sats lanes).

Lemma chan_step_shaped n c c' :
  sound total c -> shaped n c -> chan_step params sha256 point_lock_opens c c' -> shaped n c'.
Proof.
  intros Hs Hc H. pose proof Hc as [Ht Hw].
  destruct H as [? ? ? ? ? ? ? ? ? ? r Ha H He|? ? ? ? H|? ? ? H|? ? H|? ? H|req|w c' Hg Hk Hchk H|c' H|? ? ? H|? ? ? H|? ? ? H|? ? ? H|? ? h g Hget Hg0|? ?].
  - apply add_htlc_effect in H. unfold all_or_nothing in H. rewrite decide_True in H by done.
    destruct H as (h & _ & Hadd & ->). split; [by eapply added_shaped|done].
  - apply fulfill_effect in H as (h & m & _ & _ & _ & _ & ->). split; [by apply with_htlc_shaped|done].
  - apply fail_effect in H as (h & m & _ & _ & ->). split; [by apply with_htlc_shaped|done].
  - unfold channel_update_feerate in H. split_bind H. destruct x; [|done]. split_bind H.
    destruct x; [done|]. by injection H as <-.
  - unfold channel_update_blockheight in H. case_match; [|done]. by injection H as <-.
  - done.
  - apply swap_add_in_flight in H as (-> & _). apply swap_check_inv in Hchk as (_ & Hgl & Htl & _).
    destruct Ht as (? & <- & ?). done.
  - apply swap_done_in_flight in H as (w & _ & -> & _). done.
  - eapply (change_shaped total n c SendCommit); [done|done|exact H].
  - eapply (change_shaped total n c RcvdRevoke); [done|done|exact H].
  - eapply (change_shaped total n c RcvdCommit); [done|done|exact H].
  - eapply (change_shaped total n c SendRevoke); [done|done|exact H].
  - split; [apply with_htlc_shaped; [by destruct Hg0 as [[? ->]|[? ->]]|done]|done].
  - done.
Qed.

Lemma force_each_shaped n l : forall c b c' b',
  force_each params l c b = Ret (Some (c', b')) -> table_in n c -> table_in n c'.
Proof.
  induction l as [|e l IH]; intros c b c' b' H Hc; cbn [force_each] in H; [by injection H as <- <-|].
  split_bind H. apply add_htlc_effect in Hx. unfold all_or_nothing in Hx.
  destruct (add_err x) eqn:He; try done. rewrite decide_True in Hx by done.
  destruct Hx as (h & Hh & Hadd & Hc'). rewrite Hh, Hc' in H. cbn [htlcs set_htlcs] in H.
  destruct (b !! _) as [o|]; [|done]. destruct (adjust_balance _ _); [|done].
  apply IH in H; [done|]. apply (added_shaped n) in Hadd as (_ & Hn & Hl); [|done].
  split; [done|]. split; [done|]. intros y [->|Hy]%elem_of_cons; [|by apply Hl; constructor].
  apply (Hl h). by constructor.
Qed.

Lemma init_shaped cid funding depth heights lease local_msat fees local remote obscurer type wumbo opener
    asset lane_msat swap req existing c :
  init_channel params cid funding depth heights lease funding_sats local_msat fees local remote
    obscurer type wumbo opener asset lanes lane_msat swap req existing = Ret c ->
  table_in (S (length lanes)) c.
Proof.
  intros H. unfold init_channel in H. destruct (new_full_channel _ _ _ _ _ _ _ _ _ _ _ _ _ _ _) as [c0|] eqn:E0; [|done].
  split_bind H. rename x into c1. split_bind H. destruct x as [c2|]; [|done]. injection H as ->.
  assert (table_in (S (length lanes)) (set_swap_req req (set_sym_swap swap c1))) as H1.
  { unfold new_full_channel, new_initial_channel in E0. destruct (amount_sat_sub_msat _ _); [|done].
    injection E0 as <-. unfold attach_lanes in Hx.
    destruct lanes; [injection Hx as <-|unfold assert_then in Hx; case_match; [|done]; split_bind Hx; injection Hx as <-];
      (split; [done|split; [done|by intros ? ?%elem_of_nil]]). }
  unfold channel_force_htlcs in Hx0. do 2 split_bind Hx0. split_bind Hx0. destruct x1 as [[c3 b]|]; [|done].
  split_bind Hx0. do 2 (case_match; [|done]). split_bind Hx0. split_bind Hx0. injection Hx0 as <-.
  apply frame_set_view in Hx5, Hx6. eapply frame_table, frame_table; [exact Hx6|exact Hx5|].
  eapply force_each_shaped; [exact Hx3|done].
Qed.

Lemma init_swap cid funding depth heights lease local_msat fees local remote obscurer type wumbo opener
    asset lane_msat swap req existing c :
  funded funding_sats lanes -> (forall m, m ∈ local_msat :: lane_msat -> 0 <= millisatoshis m) ->
  (forall e, e ∈ existing -> 0 <= millisatoshis (ex_amount e)) ->
  match swap with
  | None => True
  | Some w => being_added (swap_state w) = true /\
              0 <= millisatoshis (swap_give w) /\ 0 <= millisatoshis (swap_take w)
  end ->
  init_channel params cid funding depth heights lease funding_sats local_msat fees local remote
    obscurer type wumbo opener asset lanes lane_msat swap req existing = Ret c ->
  chan_sym_swap c = swap.
Proof.
  intros Hf Hm He Hw H. apply init_inv in H as (c0 & base & Hst & _ & <- & H); [|done..].
  by apply (force_htlcs_inv _ _ _ _ _ _ Hst He) in H as (-> & _).
Qed.

Lemma reachable_shaped c : reachable c -> shaped (S (length lanes)) c.
Proof.
  induction 1 as [? ? ? ? ? ? ? ? ? ? ? ? ? ? ? c Hf Hl Hm H Hfit|c c' Hr IH Hs Hfit
    |c ? ? ? ? ? ? ? ? ? ? ? ? ? ? ? ? existing c' Hr [_ IH] Hm Hb Hp H Hfit].
  - split; [by eapply init_shaped|]. apply init_swap in H; try done; [by rewrite H|by intros ? ?%elem_of_nil].
  - eapply chan_step_shaped; [by eapply reachable_sound|done..].
  - pose proof (reachable_sound _ _ _ _ _ c Hr) as (_ & Ha & _).
    split; [by eapply init_shaped|]. apply init_swap in H; [by rewrite H|..|apply Ha]; [|done|].
    + by apply (reachable_funded params sha256 point_lock_opens _ _ c).
    + intros e. by apply (remember_nonneg c).
Qed.

(** ** Every reachable channel can pay what is in flight *)

Lemma reachable_healthy c : reachable c -> healthy total c.
Proof.
  induction 1 as [? ? ? ? ? ? ? ? ? ? ? ? ? ? ? c Hf Hl Hm H Hfit|c c' Hr IH Hs Hfit
    |c ? ? ? ? ? ? ? ? ? ? ? ? ? ? ? ? existing c' Hr (base0 & Ha0 & _ & Hb0) Hm Hb Hp H Hfit].
  - apply init_inv in H as (c0 & base & Hst & _ & Hsw & H); [|done..].
    assert (forall e, e ∈ [] -> 0 <= millisatoshis (ex_amount e)) as He by (by intros ? ?%elem_of_nil).
    destruct (force_htlcs_sound _ _ _ _ _ _ Hst He (within_fits _ _ Hfit) H) as [Hacc _].
    destruct (force_htlcs_inv _ _ _ _ _ _ Hst He H) as (Hsw' & _ & Hsum & _).
    destruct Hst as (_ & Hpos & Htot & _). exists base. split; [done|]. split; [done|].
    intros l lane s _. unfold reach. rewrite (Hsum _ _ (weight_respects l s)), Hsw', Hsw. simpl.
    specialize (Hpos lane s). unfold lane_sum. simpl. lia.
  - eapply chan_step_healthy; [by eapply reachable_sound|done..].
  - pose proof (reachable_sound _ _ _ _ _ c Hr) as (_ & Ha & _).
    apply init_inv in H as (c0 & base & Hst & Hfr & Hsw & H); [|by eapply reachable_funded|done|apply Ha].
    assert (forall e, e ∈ existing -> 0 <= millisatoshis (ex_amount e)) as He.
    { intros e. by apply (remember_nonneg c). }
    destruct (force_htlcs_sound _ _ _ _ _ _ Hst He (within_fits _ _ Hfit) H) as [Hacc _].
    destruct (force_htlcs_inv _ _ _ _ _ _ Hst He H) as (Hsw' & _ & Hsum & _).
    pose proof (stored_base_of _ _ _ _ _ _ _ _ _ Hr Hst Hfr Hb) as Hbase.
    exists base. split; [done|]. split; [by destruct Hst as (_ & _ & ? & _)|].
    intros l lane s Hlane. unfold reach. rewrite Hsw', Hsw.
    rewrite (restored_sum _ _ _ _ _ (weight_respects l s) (Hsum _ _ (weight_respects l s)) Hp).
    rewrite (force_lanes _ _ _ _ _ _ Hst He H) in Hlane. destruct Hfr as (_ & Hlen & _).
    rewrite Hlen, <- (reachable_lanes _ _ _ _ _ c Hr) in Hlane.
    destruct (lookup_lt_is_Some_2 (view_owed c LOCAL) lane) as [o Ho]; [by rewrite view_owed_length|].
    specialize (Hb0 l lane s Hlane). unfold reach in Hb0.
    pose proof (Hbase LOCAL lane o s Ho). pose proof (Ha0 LOCAL lane o s Ho). lia.
Qed.

Lemma reachable_within c : reachable c -> within total c.
Proof. by destruct 1. Qed.

Lemma reachable_dance c d (g : Z -> bool) :
  reachable c -> blockheight_states c <> None ->
  exists b chg c',
    ('(f, chg, c') ← change_htlcs c (dance_view d) (dance_states d); Ret (g f, chg, c')) = Ret (b, chg, c') /\
    within total c'.
Proof.
  intros Hr Hb. pose proof (reachable_sound _ _ _ _ _ c Hr) as Hs.
  destruct (change_htlcs_total total c d) as (f & chg & c' & H); [done|by apply reachable_healthy| |done|].
  - rewrite (reachable_lanes _ _ _ _ _ c Hr). by apply reachable_shaped.
  - exists (g f), chg, c'. rewrite H. split; [done|]. eapply change_within; [done|by apply reachable_within|done].
Qed.

(** C8. The commitment steps never abort: for a reachable channel (with its
    blockheights, which lightningd always sends) each of
    [channel_sending_commit], [channel_rcvd_commit], [channel_rcvd_revoke_and_ack]
    and [channel_sending_revoke_and_ack] returns, in whatever order the peers
    commit and revoke, and the channel it makes is reachable again.  No balance
    underflows, since [add_htlc] and [channel_sym_swap_check] let nobody promise
    more than they will have. *)
Theorem commit_steps_never_abort c :
  reachable c -> blockheight_states c <> None ->
  (exists b chg c', channel_sending_commit c = Ret (b, chg, c') /\ reachable c') /\
  (exists b chg c', channel_rcvd_commit c = Ret (b, chg, c') /\ reachable c') /\
  (exists b chg c', channel_rcvd_revoke_and_ack c = Ret (b, chg, c') /\ reachable c') /\
  (exists b chg c', channel_sending_revoke_and_ack c = Ret (b, chg, c') /\ reachable c').
Proof.
  intros Hr Hb. split; [|split; [|split]].
  - destruct (reachable_dance c SendCommit (fun f => negb (f =? 0)) Hr Hb) as (b & chg & c' & H & Hw).
    exists b, chg, c'. split; [exact H|]. eapply reach_step; [exact Hr|by eapply step_sending_commit|done].
  - destruct (reachable_dance c RcvdCommit (fun f => negb (f =? 0)) Hr Hb) as (b & chg & c' & H & Hw).
    exists b, chg, c'. split; [exact H|]. eapply reach_step; [exact Hr|by eapply step_rcvd_commit|done].
  - destruct (reachable_dance c RcvdRevoke (fun f => negb (Z.land f HTLC_LOCAL_F_PENDING =? 0)) Hr Hb)
      as (b & chg & c' & H & Hw).
    exists b, chg, c'. split; [exact H|]. eapply reach_step; [exact Hr|by eapply step_rcvd_revoke_and_ack|done].
  - destruct (reachable_dance c SendRevoke (fun f => negb (Z.land f HTLC_REMOTE_F_PENDING =? 0)) Hr Hb)
      as (b & chg & c' & H & Hw).
    exists b, chg, c'. split; [exact H|]. eapply reach_step; [exact Hr|by eapply step_sending_revoke_and_ack|done].
Qed.
End Progress.

Lemma commit_steps_never_abort_witness :
  map h_state (the_htlcs half_way) = [RCVD_ADD_COMMIT] /\
  exists b chg c', channel_sending_revoke_and_ack half_way = Ret (b, chg, c') /\
    reachable net no_hash no_point (mk_sat 1000000) [] c'.
Proof.
  split; [reflexivity|].
  apply (commit_steps_never_abort net no_hash no_point (mk_sat 1000000) [] half_way half_way_reachable).
  discriminate.
Defined.
