(* ===== verification/PeerSteps.v ===== *)
(** * What channeld does to its channel

    Every turn of channeld's loop is a sequence of the operations of
    [ChannelSteps] on its channel, so what holds of reachable channels holds of
    the channel of every channeld that is running. *)

From stdpp Require Import list.
From S2P Require Import Prelude Chainparams Amount HtlcState FeeStates Features Keys ChannelState Channel CommitTx PeerState Peer ChannelInv ChannelSteps History Solvency Progress.
Local Open Scope Z_scope.

Lemma Done_inj {A} (a b : A) : Done a = Done b -> a = b.
Proof. by intros [= ->]. Qed.

(** Take apart how a handler returned. *)
Ltac run_step :=
  match goal with
  | H : Failed _ = Done _ |- _ => discriminate H
  | H : Done _ = Done _ |- _ => apply Done_inj in H; try subst
  | H : (_, _) = (_, _) |- _ => apply pair_equal_spec in H as [? ?]; try subst
  | H : check _ _ _ = Done _ |- _ => apply check_Done in H as [? H]
  | H : lift _ = Done _ |- _ => apply lift_Done in H
  | H : mbind _ _ = Done _ |- _ =>
    let x := fresh "x" in let E := fresh "E" in apply run_bind_Done in H as (x & E & H); cbn beta in H
  | H : match ?x with _ => _ end = Done _ |- _ => destruct x eqn:?
  end.
Ltac run_inv := repeat run_step.

Lemma htlc_get_update_owner id owner g l h :
  htlc_get l id owner = Some h -> h_id (g h) = h_id h -> htlc_owner (g h) = htlc_owner h ->
  htlc_get (update_htlc id owner g l) id owner = Some (g h).
Proof.
  unfold htlc_get. intros Hg Hi Hs. induction l as [|x l IH]; [done|]. cbn [find update_htlc] in *.
  destruct ((h_id x =? id) && _) eqn:E; cbn [find].
  - injection Hg as ->. rewrite htlc_has_owner in *. by rewrite Hi, Hs, E.
  - rewrite E. by apply IH.
Qed.

Lemma set_credit_floor_id c : set_credit_floor (credit_floor c) c = c.
Proof. by destruct c. Qed.
Lemma set_config_id c : set_config (config c) c = c.
Proof. by destruct c. Qed.

Section Chan.
Context (params : chainparams) (sha256 : list Z -> list Z) (point_lock_opens : list Z -> list Z -> bool).
Context (our_features : feature_set) (their_features upfront : list Z) (developer : bool).
Context (tlv_fields : add_tlvs -> option (list (Z * list Z))) (junk : Z).
Context `{Secp256k1} {sigs : Type} (sg : signer sigs).
Context (funding_sats : amount_sat_t) (lanes : list sym_lane).
Notation peer := (peer sigs).
Notation reachable := (reachable params sha256 point_lock_opens funding_sats lanes).
Notation total := (capacity funding_sats lanes).
Notation chan_step := (chan_step params sha256 point_lock_opens).

(** ** Handlers that leave the channel alone *)

Lemma billboard_chan (p p' : peer) : billboard_update p = Done p' -> p' = p.
Proof. unfold billboard_update. intros E. by run_inv. Qed.

Lemma maybe_send_stfu_chan (p p' : peer) : maybe_send_stfu p = Done p' -> chan p' = chan p.
Proof.
  unfold maybe_send_stfu. intros E. run_inv; repeat case_match; done.
Qed.
Lemma maybe_send_shutdown_chan (p p' : peer) : maybe_send_shutdown p = Done p' -> chan p' = chan p.
Proof. unfold maybe_send_shutdown. intros E. run_inv; [done|]. by apply billboard_chan in E as ->. Qed.
Lemma handle_stfu_chan b (p p' : peer) : handle_stfu our_features their_features b p = Done p' -> chan p' = chan p.
Proof. unfold handle_stfu. intros E. run_inv; apply maybe_send_stfu_chan in E; rewrite E; by repeat case_match. Qed.
Lemma handle_peer_shutdown_chan script wrong (p p' : peer) :
  handle_peer_shutdown our_features their_features upfront script wrong p = Done p' -> chan p' = chan p.
Proof. unfold handle_peer_shutdown. intros E. run_inv; apply billboard_chan in E as ->; clear; by case_match. Qed.
Lemma handle_peer_channel_ready_chan point (p p' : peer) :
  handle_peer_channel_ready point p = Done p' -> chan p' = chan p.
Proof. unfold handle_peer_channel_ready. intros E. run_inv; try done. by apply billboard_chan in E as ->. Qed.
Lemma handle_stfu_req_chan (p p' : peer) : handle_stfu_req p = Done p' -> chan p' = chan p.
Proof. unfold handle_stfu_req. intros E. run_inv; [done|]. by apply maybe_send_stfu_chan in E as ->. Qed.

(** ** One operation *)

(** A step that adds nothing stays [within]. *)
Lemma reach_quiet c c' :
  reachable c -> chan_step c c' -> the_htlcs c' = the_htlcs c -> chan_sym_swap c' = chan_sym_swap c ->
  sym_swap_req c' = sym_swap_req c -> reachable c'.
Proof.
  intros Hr Hs E1 E2 E3. eapply reach_step; [done..|]. unfold within. rewrite E1, E2, E3. by apply reachable_within in Hr.
Qed.

Lemma dance_reach d c (g : Z -> bool) b chg c' :
  reachable c -> chan_step c c' ->
  ('(f, chg, c') ← change_htlcs c (dance_view d) (dance_states d); Ret (g f, chg, c')) = Ret (b, chg, c') ->
  reachable c'.
Proof.
  intros Hr Hs E. eapply reach_step; [done..|]. apply bind_change in E as (f & chg' & c1 & E & [= _ _ ->]).
  eapply change_within; [by eapply reachable_sound|by apply reachable_within in Hr|done].
Qed.
Lemma sending_commit_reach c b chg c' : reachable c -> channel_sending_commit c = Ret (b, chg, c') -> reachable c'.
Proof. intros Hr E. eapply (dance_reach SendCommit _ (fun f => negb (f =? 0))); [done|by eapply step_sending_commit|exact E]. Qed.
Lemma rcvd_commit_reach c b chg c' : reachable c -> channel_rcvd_commit c = Ret (b, chg, c') -> reachable c'.
Proof. intros Hr E. eapply (dance_reach RcvdCommit _ (fun f => negb (f =? 0))); [done|by eapply step_rcvd_commit|exact E]. Qed.
Lemma rcvd_revoke_reach c b chg c' : reachable c -> channel_rcvd_revoke_and_ack c = Ret (b, chg, c') -> reachable c'.
Proof. intros Hr E. eapply (dance_reach RcvdRevoke _ (fun f => negb (Z.land f HTLC_LOCAL_F_PENDING =? 0)));
  [done|by eapply step_rcvd_revoke_and_ack|exact E]. Qed.
Lemma sending_revoke_reach c b chg c' : reachable c -> channel_sending_revoke_and_ack c = Ret (b, chg, c') -> reachable c'.
Proof. intros Hr E. eapply (dance_reach SendRevoke _ (fun f => negb (Z.land f HTLC_REMOTE_F_PENDING =? 0)));
  [done|by eapply step_sending_revoke_and_ack|exact E]. Qed.

Lemma swap_done_reach c : reachable c -> reachable (snd (channel_sym_swap_done c)).
Proof.
  intros Hr. destruct (channel_sym_swap_done c) as [[] c'] eqn:E.
  - eapply reach_step; [done|by eapply step_swap_done|]. apply swap_done_in_flight in E as (w & Ew & -> & _).
    pose proof (reachable_within _ _ _ _ _ _ Hr) as [Hn Hw]. split; [done|]. intros lane. specialize (Hw lane).
    pose proof (reachable_sound _ _ _ _ _ _ Hr) as (_ & (_ & Hsw & _) & _). rewrite Ew in Hw, Hsw.
    change (total lane + sum_with amt (the_htlcs c) + 0 + swap_size (sym_swap_req c) <= INT64_MAX).
    cbn [swap_size] in Hw. lia.
  - assert (c' = c) as -> by (unfold channel_sym_swap_done in E; repeat case_match; congruence). done.
Qed.

Lemma feerate_reach c f b c' : reachable c -> channel_update_feerate params c f = Ret (b, c') -> reachable c'.
Proof.
  intros Hr E. destruct b.
  - eapply reach_quiet; [done|by eapply step_feerate|..]; unfold channel_update_feerate in E;
      split_bind E; (destruct x; [|done]); split_bind E; (destruct x; [done|]); by injection E as <-.
  - unfold channel_update_feerate in E. split_bind E. destruct x; [|by injection E as <-]. split_bind E.
    destruct x; [by injection E as <-|done].
Qed.
Lemma blockheight_reach c h c' : reachable c -> channel_update_blockheight c h = Ret c' -> reachable c'.
Proof.
  intros Hr E. eapply reach_quiet; [done|by eapply step_blockheight|..]; unfold channel_update_blockheight in E;
    case_match; try done; by injection E as <-.
Qed.
(** What a handler notes of an HTLC stays [within]. *)
Lemma annotate_reach c owner id h g :
  reachable c -> htlc_get (the_htlcs c) id owner = Some h -> annotation g -> reachable (with_htlc c owner id g).
Proof.
  intros Hr Hg Ha. eapply reach_step; [done|by eapply step_annotate|].
  pose proof (reachable_within _ _ _ _ _ _ Hr) as [Hn Hw]. split; [done|]. intros lane. specialize (Hw lane).
  change (the_htlcs (with_htlc c owner id g)) with (update_htlc id owner g (the_htlcs c)).
  rewrite (sum_amt_update _ _ _ _ h) by (done || by destruct Ha as [[? ->]|[? ->]]). exact Hw.
Qed.

Lemma remove_within c owner id h g :
  reachable c -> htlc_get (the_htlcs c) id owner = Some h -> amt (g h) = amt h -> within total (with_htlc c owner id g).
Proof.
  intros Hr Hg Ha. pose proof (reachable_within _ _ _ _ _ _ Hr) as [Hn Hw]. split; [done|]. intros lane. specialize (Hw lane).
  change (the_htlcs (with_htlc c owner id g)) with (update_htlc id owner g (the_htlcs c)).
  by rewrite (sum_amt_update _ _ _ _ h).
Qed.

Lemma add_reach c sender id amount expiry hash routing path_key extra err lane r lock :
  reachable c -> wf_msat amount ->
  channel_add_lane_htlc params c sender id amount expiry hash routing path_key extra err lane = Ret r ->
  add_err r = CHANNEL_ERR_ADD_OK ->
  let c' := match lock with
            | Some x => with_htlc (add_chan r) sender id (set_h_lock_point (Some x)) | None => add_chan r end in
  within total c' -> reachable c'.
Proof.
  intros Hr [Ha _] E He c' Hw. pose proof E as Hadd. apply add_htlc_effect in Hadd. unfold all_or_nothing in Hadd.
  rewrite decide_True in Hadd by done. destruct Hadd as (h & _ & (Hst & Hid & _) & Ec).
  assert (Hget : htlc_get (the_htlcs (add_chan r)) id sender = Some h).
  { rewrite Ec. unfold htlc_get. cbn. rewrite Hid, Z.eqb_refl, htlc_has_owner, bool_decide_true; [done|].
    unfold htlc_owner. rewrite Hst. by destruct sender. }
  assert (Hra : within total (add_chan r) -> reachable (add_chan r)) by (intros ?; by eapply reach_step; [|eapply step_add|]).
  unfold c' in *. destruct lock as [x|]; [|by apply Hra].
  eapply annotate_reach; [apply Hra|exact Hget|by left; eexists].
  destruct Hw as [Hn Hw]. split; [done|]. intros lane'. specialize (Hw lane').
  change (the_htlcs (with_htlc _ _ _ _)) with (update_htlc id sender (set_h_lock_point (Some x)) (the_htlcs (add_chan r))) in Hw.
  by rewrite (sum_amt_update _ _ _ _ h) in Hw.
Qed.

Lemma fulfill_reach c owner id preimage c' :
  reachable c -> channel_fulfill_htlc sha256 point_lock_opens c owner id preimage = Ret (CHANNEL_ERR_REMOVE_OK, c') ->
  reachable c'.
Proof.
  intros Hr E. eapply reach_step; [done|by eapply step_fulfill|].
  apply fulfill_effect in E as (h & n & Hg & _ & _ & _ & ->). by eapply remove_within.
Qed.

Lemma fail_reach c owner id c' f :
  reachable c -> channel_fail_htlc c owner id = Ret (CHANNEL_ERR_REMOVE_OK, c') ->
  reachable (with_htlc c' owner id (set_h_failed f)).
Proof.
  intros Hr E. assert (Hr' : reachable c').
  { eapply reach_step; [done|by eapply step_fail|]. apply fail_effect in E as (h & n & Hg & _ & ->).
    by eapply remove_within. }
  apply fail_effect in E as (h & n & Hg & Hn & ->). apply removal_state_key in Hn as [Ho Hd].
  eapply annotate_reach; [done|by eapply (htlc_get_update_owner _ _ (set_h_state n))|by right; eexists].
Qed.

Lemma limits_reach c conf floor : reachable c -> reachable (set_credit_floor floor (set_config conf c)).
Proof. intros Hr. by eapply reach_quiet; [|eapply step_limits|..]. Qed.
Lemma swap_req_reach c req : reachable c -> within total (set_swap_req req c) -> reachable (set_swap_req req c).
Proof. intros Hr Hw. eapply reach_step; [done|apply step_swap_request|done]. Qed.

Lemma no_req_within c : reachable c -> within total (set_swap_req None c).
Proof.
  intros Hr. pose proof (reachable_within _ _ _ _ _ _ Hr) as [Hn Hw]. split; [done|]. intros lane. specialize (Hw lane).
  change (total lane + sum_with amt (the_htlcs c) + swap_size (chan_sym_swap c) + 0 <= INT64_MAX).
  destruct (sym_swap_req c); cbn in Hn, Hw; lia.
Qed.

Lemma swap_add_reach_of c w c' :
  reachable c -> wf_swap w -> channel_sym_swap_check c w = Ret None -> channel_sym_swap_add c w = Ret c' ->
  within total c' -> reachable c'.
Proof. intros Hr [[? _] [? _]] E1 E2 Hw. eapply reach_step; [done|by eapply step_swap_add|done]. Qed.

(** ** Handlers *)

Lemma take_peer_swap_reach w (p p' : peer) :
  reachable (chan p) -> wf_swap w -> take_peer_swap w p = Done p' -> reachable (chan p').
Proof.
  unfold take_peer_swap. intros Hr Hwf E. run_inv. destruct (sym_swap_req (chan p)) as [req|] eqn:Er; [|done].
  apply bool_decide_eq_true in H1. subst.
  pose proof (no_req_within _ Hr) as Hw0. pose proof (swap_req_reach _ None Hr Hw0) as Hr0.
  eapply (swap_add_reach_of _ (set_swap_state RCVD_ADD_HTLC w)); [exact Hr0|exact Hwf|exact E0|exact E1|].
  apply swap_add_in_flight in E1 as (-> & _). apply swap_check_inv in E0 as (Hnone & _).
  pose proof (reachable_within _ _ _ _ _ _ Hr) as [Hn Hw]. split; [done|]. intros lane. specialize (Hw lane).
  change (total lane + sum_with amt (the_htlcs (chan p)) + swap_size (Some w) + 0 <= INT64_MAX).
  change (chan_sym_swap (chan p) = None) in Hnone. rewrite Hnone, Er in Hw.
  unfold amount_msat_eq in H0. rewrite !andb_true_iff, !Z.eqb_eq in H0. cbn in *. lia.
Qed.
Lemma send_revocation_reach s changed sym (p p' : peer) :
  reachable (chan p) -> send_revocation sg s changed sym p = Done p' -> reachable (chan p').
Proof.
  unfold send_revocation. intros Hr E. run_inv. cbn in *. apply sending_revoke_reach in E1; [|done].
  by destruct b; apply swap_done_reach.
Qed.

Lemma handle_peer_commit_sig_reach s swap (p p' : peer) :
  reachable (chan p) -> wf_message (msg_commitment_signed s swap) ->
  handle_peer_commit_sig params sg s swap p = Done p' -> reachable (chan p').
Proof.
  unfold handle_peer_commit_sig. intros Hr Hwf E. apply run_bind_Done in E as (p1 & E1 & E).
  assert (Hr1 : reachable (chan p1)) by (destruct swap; [by eapply take_peer_swap_reach|by injection E1 as <-]).
  apply run_bind_Done in E as ([[any changed] c] & E2 & E). apply lift_Done, rcvd_commit_reach in E2; [|done].
  cbn beta iota in E. apply run_bind_Done in E as (p2 & E3 & E).
  assert (Hc : chan p2 = c) by (destruct any; [by injection E3 as <-|]; by run_inv).
  apply run_bind_Done in E as (afford & _ & E). apply check_Done in E as [_ E].
  apply run_bind_Done in E as (ok & _ & E). apply check_Done in E as [_ E].
  apply run_bind_Done in E as (sym & _ & E). apply run_bind_Done in E as (p3 & E4 & E).
  apply send_revocation_reach in E4; [|by rewrite Hc].
  apply run_bind_Done in E as (p4 & E5 & E). apply maybe_send_stfu_chan in E5. rewrite <- E5 in E4.
  apply run_bind_Done in E as (w & _ & E). apply Done_inj in E as <-. by destruct w.
Qed.

Lemma handle_peer_revoke_and_ack_reach secret point sym (p p' : peer) :
  reachable (chan p) -> handle_peer_revoke_and_ack sg secret point sym p = Done p' -> reachable (chan p').
Proof.
  unfold handle_peer_revoke_and_ack. intros Hr E. apply check_Done in E as [_ E].
  destruct (ec_pubkey_create secret); [|done]. apply check_Done in E as [_ E].
  apply run_bind_Done in E as (p1 & E1 & E).
  assert (Hc : chan p1 = chan p) by (destruct (channel_has _ _) in E1; run_inv; done).
  apply run_bind_Done in E as ([[any changed] c] & E2 & E). apply lift_Done in E2. rewrite Hc in E2.
  apply rcvd_revoke_reach in E2; [|done]. cbn beta iota zeta in E.
  destruct (penalty_base_by_commitnum _ _). apply run_bind_Done in E as (p2 & E3 & E).
  apply maybe_send_stfu_chan in E3. apply Done_inj in E as <-. cbn. rewrite E3. by apply swap_done_reach.
Qed.

Lemma send_fee_update_reach (p p' : peer) :
  reachable (chan p) -> send_fee_update params p = Done p' -> reachable (chan p').
Proof. unfold send_fee_update. intros Hr E. run_inv; try done. by eapply feerate_reach. Qed.
Lemma send_blockheight_update_reach (p p' : peer) :
  reachable (chan p) -> send_blockheight_update p = Done p' -> reachable (chan p').
Proof. unfold send_blockheight_update. intros Hr E. run_inv; try done. by eapply blockheight_reach. Qed.

Lemma send_commit_part_chan changed (p p' : peer) m :
  send_commit_part sg changed p = Done (m, p') -> chan p' = chan p.
Proof.
  unfold send_commit_part. intros E. apply run_bind_Done in E as ([s pb] & _ & E). injection E as _ <-. cbn.
  by destruct (channel_has _ _).
Qed.

Lemma send_commit_reach (p p' : peer) :
  reachable (chan p) -> send_commit params sg p = Done p' -> reachable (chan p').
Proof.
  unfold send_commit. intros Hr E. case_bool_decide; [by injection E as <-|].
  destruct (negb _); [apply check_Done in E as [_ E]; by injection E as <-|].
  apply run_bind_Done in E as (n & _ & E). destruct (n =? 0); [by injection E as <-|].
  apply run_bind_Done in E as (p1 & E1 & E). apply send_fee_update_reach in E1; [|done].
  apply run_bind_Done in E as (p2 & E2 & E). apply send_blockheight_update_reach in E2; [|done].
  apply run_bind_Done in E as ([[any changed] c] & E3 & E). apply lift_Done, sending_commit_reach in E3; [|done].
  cbn beta iota zeta in E. destruct (negb any).
  - apply run_bind_Done in E as (p3 & E4 & E). apply maybe_send_shutdown_chan in E4. injection E as <-.
    cbn. by rewrite E4.
  - apply run_bind_Done in E as ([m p3] & E4 & E). apply send_commit_part_chan in E4. cbn beta iota zeta in E.
    apply run_bind_Done in E as (p4 & E5 & E). apply maybe_send_shutdown_chan in E5. injection E as <-.
    cbn in *. by rewrite E5, E4.
Qed.

Lemma peer_in_reach m (p p' : peer) :
  reachable (chan p) -> wf_message m ->
  peer_in params sha256 point_lock_opens our_features their_features upfront tlv_fields junk sg m p = Done p' ->
  within total (chan p') -> reachable (chan p').
Proof.
  unfold peer_in. intros Hr Hwf E Hw. do 3 apply check_Done in E as [_ E].
  destruct m as [point| |id amount hash expiry onion tlvs|id preimage|id reason|id sha code|feerate|height
    |s swap|secret point s|script wrong|i| |]; try done.
  - by apply handle_peer_channel_ready_chan in E as ->.
  - by injection E as <-.
  - unfold handle_peer_add_htlc in E. run_inv. apply bool_decide_eq_true in H2. cbn in Hw |- *.
    by eapply add_reach.
  - unfold handle_peer_fulfill_htlc in E. run_inv. apply bool_decide_eq_true in H0 as ->. by eapply fulfill_reach.
  - unfold handle_peer_fail_htlc, fail_with in E. run_inv. apply bool_decide_eq_true in H0 as ->. by eapply fail_reach.
  - unfold handle_peer_fail_malformed_htlc, fail_with in E. run_inv. apply bool_decide_eq_true in H0 as ->.
    by eapply fail_reach.
  - unfold handle_peer_feechange in E. run_inv. by eapply feerate_reach.
  - unfold handle_peer_blockheight_change in E. run_inv. by eapply blockheight_reach.
  - by eapply handle_peer_commit_sig_reach.
  - by eapply handle_peer_revoke_and_ack_reach.
  - by apply handle_peer_shutdown_chan in E as ->.
  - by apply handle_stfu_chan in E as ->.
Qed.
Lemma send_removal_chan owner id (p p' : peer) : send_removal owner id p = Done p' -> chan p' = chan p.
Proof. unfold send_removal, send_fail_or_fulfill. intros E. run_inv; done. Qed.

Lemma req_in_reach r (p p' : peer) :
  reachable (chan p) -> wf_request r ->
  req_in params sha256 point_lock_opens our_features their_features developer sg r p = Done p' ->
  within total (chan p') -> reachable (chan p').
Proof.
  unfold req_in, handle_master_request_later. intros Hr Hwf E Hw.
  destruct r as [amount expiry hash onion path_key extra lock lane|id preimage|f|feerate min max dust|height
    |script wrong| | |credit|w expiry|w|id]; try (destruct (is_entering_stfu p); [by injection E as <-|]).
  - unfold handle_offer_htlc in E. do 3 apply check_Done in E as [_ E]. apply run_bind_Done in E as (r & E1 & E).
    apply lift_Done in E1. cbn beta iota zeta in E. case_bool_decide as He.
    + injection E as <-. cbn in Hw |- *. by eapply add_reach.
    + apply check_Done in E as [_ E]. injection E as <-. cbn.
      apply add_htlc_effect in E1. unfold all_or_nothing in E1. rewrite decide_False in E1 by done.
      by destruct E1 as [-> _].
  - unfold handle_preimage in E. run_inv. apply bool_decide_eq_true in H0 as ->. apply send_removal_chan in E1.
    cbn. rewrite E1. by eapply fulfill_reach.
  - unfold handle_fail in E. run_inv. apply bool_decide_eq_true in H0 as ->. apply send_removal_chan in E1.
    cbn. rewrite E1. by eapply fail_reach.
  - unfold handle_feerates in E. run_inv; repeat case_match; cbn;
      rewrite <- (set_credit_floor_id (set_config _ _)); by apply limits_reach.
  - unfold handle_blockheight in E. run_inv; done.
  - by injection E as <-.
  - by apply handle_stfu_req_chan in E as ->.
  - destruct developer; [|done]. unfold handle_dev_quiesce in E. run_inv. by apply maybe_send_stfu_chan in E as ->.
  - unfold handle_credit_note in E. injection E as <-. destruct (amount_sat_greater _ _); [|done]. cbn.
    rewrite <- (set_config_id (chan p)). by apply limits_reach.
  - unfold handle_sym_swap_request in E. apply run_bind_Done in E as (refused & _ & E). injection E as <-.
    destruct refused; [done|]. cbn in *. by apply swap_req_reach.
  - unfold handle_sym_swap_accept in E. apply run_bind_Done in E as (refused & E1 & E).
    apply run_bind_Done in E as (p1 & E2 & E). injection E as <-. cbn in *. apply lift_Done in E1.
    destruct refused; [by injection E2 as <-|]. run_inv. cbn in *.
    apply bind_Ret_inv in E1 as (r & E1 & E3). destruct r; [done|]. unfold swap_refused in E1.
    destruct (negb _); [done|]. destruct (sym_swap_req _); [done|].
    apply bind_Ret_inv in E1 as (err & E1 & E4). injection E4 as E4. apply negb_false_iff, bool_decide_eq_true in E4 as ->.
    by eapply (swap_add_reach_of _ (set_swap_state SENT_ADD_HTLC w)).
  - unfold handle_sym_swap_cancel in E. injection E as <-. destruct (sym_swap_req (chan p)); [|done].
    case_match; [|done]. cbn. apply swap_req_reach; [done|]. by apply no_req_within.
Qed.

(** C35. channeld only ever moves its channel by the operations of
    channeld/full_channel.c and in the order they are meant: whatever the peer
    sends and lightningd asks, in any order, a turn of the main loop takes a
    reachable channel to a reachable one.  So the balances of the channel of a
    running channeld add up ([reachable_conserves_funds]), its HTLC ids are
    unique and its commitment steps never abort. *)
Theorem channeld_keeps_channel_reachable (p p' : peer) :
  reachable (chan p) ->
  peer_step params sha256 point_lock_opens our_features their_features upfront developer tlv_fields junk sg p p' ->
  within total (chan p') -> reachable (chan p').
Proof.
  intros Hr Hs Hw. destruct Hs as [m p' _ Hwf E|r p' _ Hwf E|p' _ _ E].
  - by eapply peer_in_reach.
  - by eapply req_in_reach.
  - unfold send_commit_if_not_stfu in E. destruct (negb _); [by eapply send_commit_reach|by injection E as <-].
Qed.
End Chan.
