(* ===== verification/PeerFacts.v ===== *)
(** * The protocol of channeld

    What channeld sends and when: one commitment in flight at a time, nothing
    but revocations after [stfu], nothing at all while quiescent. *)

From stdpp Require Import list.
From S2P Require Import Prelude Chainparams Amount HtlcState FeeStates Features Keys ChannelState Channel CommitTx PeerState Peer ChannelInv ChannelSteps History Solvency Progress PeerSteps.
Local Open Scope Z_scope.

(** The kinds of messages channeld sends. *)
Definition is_revoke {sigs} (m : message sigs) : bool :=
  match m with msg_revoke_and_ack _ _ _ => true | _ => false end.
Definition is_stfu {sigs} (m : message sigs) : bool := match m with msg_stfu _ => true | _ => false end.
Definition is_commit {sigs} (m : message sigs) : bool :=
  match m with msg_commitment_signed _ _ => true | _ => false end.

(** [p'] wrote only messages of a kind. *)
Definition writes {sigs} (P : message sigs -> bool) (p p' : peer sigs) : Prop :=
  exists l, sent p' = sent p ++ l /\ Forall P l.
Lemma writes_none {sigs} (P : message sigs -> bool) (p p' : peer sigs) : sent p' = sent p -> writes P p p'.
Proof. intros E. exists []. by rewrite app_nil_r. Qed.
Lemma writes_one {sigs} (P : message sigs -> bool) (p p' : peer sigs) m : sent p' = sent p ++ [m] -> P m -> writes P p p'.
Proof. intros E Hm. exists [m]. split; [done|]. by constructor. Qed.
Lemma writes_trans {sigs} (P : message sigs -> bool) (p q r : peer sigs) : writes P p q -> writes P q r -> writes P p r.
Proof.
  intros (l & E & F) (k & E' & F'). exists (l ++ k). rewrite E', E, app_assoc. split; [done|]. by apply Forall_app.
Qed.
Lemma writes_mono {sigs} (P Q : message sigs -> bool) (p q : peer sigs) :
  (forall m, P m -> Q m) -> writes P p q -> writes Q p q.
Proof. intros HPQ (l & E & F). exists l. split; [done|]. by eapply Forall_impl. Qed.

(** The commitments written. *)
Definition commits {sigs} (p : peer sigs) : Z := Z.of_nat (length (filter (fun m => is_commit m) (sent p))).
Lemma writes_commits {sigs} (P : message sigs -> bool) (p p' : peer sigs) :
  (forall m, P m -> is_commit m = false) -> writes P p p' -> commits p' = commits p.
Proof.
  intros HP (l & E & F). unfold commits. rewrite E, filter_app, length_app.
  replace (filter (fun m => is_commit m) l) with (@nil (message sigs)); [cbn; lia|].
  clear E. symmetry. induction F as [|m l Hm F IH]; [done|]. rewrite filter_cons_False; [exact IH|]. rewrite (HP m Hm). intros [].
Qed.
Lemma commits_one {sigs} (p p' : peer sigs) s w :
  sent p' = sent p ++ [msg_commitment_signed s w] -> commits p' = commits p + 1.
Proof. intros E. unfold commits. rewrite E, filter_app, length_app, filter_cons_True by done. cbn. lia. Qed.

(** What a handler leaves alone. *)
Record same_counts {sigs} (p p' : peer sigs) : Prop := {
  same_index : next_index p' = next_index p;
  same_revocations : revocations_received p' = revocations_received p;
  same_queue : update_queue p' = update_queue p;
}.

Section Facts.
Context (params : chainparams) (sha256 : list Z -> list Z) (point_lock_opens : list Z -> list Z -> bool).
Context (our_features : feature_set) (their_features upfront : list Z) (developer : bool).
Context (tlv_fields : add_tlvs -> option (list (Z * list Z))) (junk : Z).
Context `{Secp256k1} {sigs : Type} (sg : signer sigs).
Notation peer := (peer sigs).
Notation peer_in := (peer_in params sha256 point_lock_opens our_features their_features upfront tlv_fields junk sg).
Notation req_in := (req_in params sha256 point_lock_opens our_features their_features developer sg).
Notation peer_step := (peer_step params sha256 point_lock_opens our_features their_features upfront developer tlv_fields junk sg).

(** [stfu] is sent once, and only when nothing of ours is pending. *)
Definition stfu_effect (p p' : peer) : Prop :=
  (stfu_sent p').[REMOTE] = (stfu_sent p).[REMOTE]
  /\ ((stfu_sent p').[LOCAL] = (stfu_sent p).[LOCAL] /\ sent p' = sent p
      \/ (stfu_sent p).[LOCAL] = false /\ (stfu_sent p').[LOCAL] = true
         /\ pending_updates (chan p') LOCAL = Ret false /\ exists b, sent p' = sent p ++ [msg_stfu b]).

Lemma maybe_send_stfu_effect (p p' : peer) :
  maybe_send_stfu p = Done p' -> stfu_effect p p' /\ same_counts p p'.
Proof.
  unfold maybe_send_stfu. intros E. destruct (negb (want_stfu p)) eqn:Ew.
  { injection E as <-. split; [by split; [|left]|done]. }
  apply run_bind_Done in E as (pending & Ep & E). apply lift_Done in Ep.
  destruct pending; [injection E as <-; split; [by split; [|left]|done]|].
  destruct (stfu_sent p).[LOCAL] eqn:El; cbn [negb] in E.
  - destruct (is_stfu_active p); [|injection E as <-; split; [by split; [|left]|done]].
    destruct (on_stfu_success _) in E; injection E as <-; (split; [split; [done|by left]|done]).
  - destruct (is_stfu_active _) in E; [destruct (on_stfu_success _) in E|]; injection E as <-;
      (split; [split; [done|right; split_and!; [done|done|done|by eexists]]|done]).
Qed.

(** What a message of the peer may be answered with: a revocation, or [stfu]
    if we did not send it yet. *)
Record replies (p p' : peer) : Prop := {
  rep_queue : update_queue p' = update_queue p;
  rep_writes : writes (fun m => is_revoke m || is_stfu m) p p';
  rep_stfu : (stfu_sent p).[LOCAL] = true -> writes is_revoke p p' /\ (stfu_sent p').[LOCAL] = true;
}.
Lemma replies_trans (p q r : peer) : replies p q -> replies q r -> replies p r.
Proof.
  intros [Q1 W1 S1] [Q2 W2 S2]. split; [congruence|by eapply writes_trans|].
  intros Hs. destruct (S1 Hs) as [A1 B1]. destruct (S2 B1) as [A2 B2]. split; [by eapply writes_trans|done].
Qed.
Lemma replies_silent (p p' : peer) :
  update_queue p' = update_queue p -> sent p' = sent p -> (stfu_sent p').[LOCAL] = (stfu_sent p).[LOCAL] -> replies p p'.
Proof. intros E1 E2 E3. split; [done|by apply writes_none|]. rewrite E3. split; [by apply writes_none|done]. Qed.
Lemma maybe_send_stfu_replies (p p' : peer) : maybe_send_stfu p = Done p' -> replies p p'.
Proof.
  intros [[_ He] [_ _ Hq]]%maybe_send_stfu_effect.
  destruct He as [[E1 E2]|(E1 & E2 & _ & b & E3)]; [by apply replies_silent|].
  split; [done|by eapply writes_one|]. rewrite E1. done.
Qed.

Lemma send_revocation_replies s changed sym (p p' : peer) :
  send_revocation sg s changed sym p = Done p' ->
  replies p p' /\ stfu_sent p' = stfu_sent p
  /\ next_index p' = upd LOCAL (wrap_u64 ((next_index p).[LOCAL] + 1)) (next_index p)
  /\ revocations_received p' = revocations_received p.
Proof.
  unfold send_revocation, make_revocation_msg. intros E. run_inv. cbn.
  destruct b; (split; [|done]); (split; [done|eapply writes_one; [cbn; reflexivity|done]|]);
    intros Hs; (split; [by eapply writes_one|done]).
Qed.

(** The part of [handle_peer_commit_sig] before the revocation. *)
Lemma take_peer_swap_frame w (p p' : peer) :
  take_peer_swap w p = Done p' -> p' = set_chan (chan p') p.
Proof. unfold take_peer_swap. intros E. by run_inv. Qed.

Lemma handle_peer_commit_sig_replies s swap (p p' : peer) :
  handle_peer_commit_sig params sg s swap p = Done p' ->
  replies p p' /\ (next_index p').[REMOTE] = (next_index p).[REMOTE] /\ revocations_received p' = revocations_received p.
Proof.
  unfold handle_peer_commit_sig. intros E. apply run_bind_Done in E as (p1 & E1 & E).
  assert (Hp1 : p1 = set_chan (chan p1) p) by (destruct swap; [by eapply take_peer_swap_frame|by injection E1 as <-; destruct p]).
  apply run_bind_Done in E as ([[any changed] c] & E2 & E). cbn beta iota in E.
  apply run_bind_Done in E as (p2 & E3 & E).
  assert (Hp2 : exists n, p2 = set_last_empty_commitment n (set_chan c p1)).
  { destruct any; [injection E3 as <-; exists (last_empty_commitment p1); by destruct p1|].
    apply check_Done in E3 as [_ E3]. injection E3 as <-. by eexists. }
  destruct Hp2 as [n Hp2].
  apply run_bind_Done in E as (afford & _ & E). apply check_Done in E as [_ E].
  apply run_bind_Done in E as (ok & _ & E). apply check_Done in E as [_ E].
  apply run_bind_Done in E as (sym & _ & E). apply run_bind_Done in E as (p3 & E4 & E).
  apply send_revocation_replies in E4 as (R1 & _ & N1 & V1).
  apply run_bind_Done in E as (p4 & E5 & E). pose proof (maybe_send_stfu_effect _ _ E5) as [_ [N2 V2 _]].
  apply maybe_send_stfu_replies in E5.
  apply run_bind_Done in E as (w & _ & E). apply Done_inj in E as <-.
  assert (R0 : replies p p2) by (rewrite Hp2, Hp1; by apply replies_silent).
  assert (R3 : replies p4 (match w with Some _ => start_commit_timer p4 | None => p4 end))
    by (destruct w; by apply replies_silent).
  split; [by do 3 (eapply replies_trans; [eassumption|])|].
  rewrite Hp2, Hp1 in N1, V1. cbn in N1, V1. destruct w; cbn; by rewrite N2, V2, N1, V1.
Qed.

Lemma handle_peer_revoke_and_ack_replies secret point sym (p p' : peer) :
  handle_peer_revoke_and_ack sg secret point sym p = Done p' ->
  replies p p' /\ next_index p' = next_index p
  /\ revocations_received p = wrap_u64 ((next_index p).[REMOTE] - 2)
  /\ revocations_received p' = wrap_u64 (revocations_received p + 1).
Proof.
  unfold handle_peer_revoke_and_ack. intros E. apply check_Done in E as [E0%Z.eqb_eq E].
  destruct (ec_pubkey_create secret); [|done]. apply check_Done in E as [_ E].
  apply run_bind_Done in E as (p1 & E1 & E).
  assert (Hp1 : exists x, p1 = set_sym_remote_pending x p).
  { destruct (channel_has _ _) in E1; [clear E; run_inv; by eexists|].
    injection E1 as <-. exists (sym_remote_pending p). by destruct p. }
  destruct Hp1 as [x Hp1]. apply run_bind_Done in E as ([[any changed] c] & _ & E). cbn beta iota zeta in E.
  destruct (penalty_base_by_commitnum _ _). apply run_bind_Done in E as (p2 & E3 & E).
  pose proof (maybe_send_stfu_effect _ _ E3) as [_ [N2 V2 _]]. apply maybe_send_stfu_replies in E3.
  apply Done_inj in E as <-. cbn. rewrite N2, V2. subst p1. cbn. split; [|done].
  eapply replies_trans; [eapply replies_trans; [|exact E3]|]; by apply replies_silent.
Qed.

Lemma billboard_frame (p p' : peer) : billboard_update p = Done p' -> p' = p.
Proof. apply billboard_chan. Qed.

(** The other messages of the peer change none of the counters and are not
    answered. *)
Lemma handle_stfu_replies b (p p' : peer) :
  handle_stfu our_features their_features b p = Done p' -> replies p p' /\ same_counts p p'.
Proof.
  unfold handle_stfu. intros E. apply check_Done in E as [_ E]. apply run_bind_Done in E as (x & _ & E).
  apply check_Done in E as [_ E]. apply run_bind_Done in E as (p1 & E1 & E).
  assert (Hp1 : exists w i, p1 = set_stfu_initiator i (set_want_stfu w p)).
  { destruct (negb _) in E1; [apply check_Done in E1 as [_ E1]; injection E1 as <-; by eexists _, _|].
    injection E1 as <-. destruct b; [exists (want_stfu p)|exists (want_stfu p), (stfu_initiator p)]; [eexists|]; by destruct p. }
  destruct Hp1 as (w & i & ->). pose proof (maybe_send_stfu_effect _ _ E) as [_ [N V Q]].
  apply maybe_send_stfu_replies in E. split; [|by split].
  eapply replies_trans; [|exact E]. by apply replies_silent.
Qed.

Lemma peer_in_effect m (p p' : peer) :
  peer_in m p = Done p' ->
  replies p p' /\ (next_index p').[REMOTE] = (next_index p).[REMOTE]
  /\ (revocations_received p' = revocations_received p
      \/ revocations_received p = wrap_u64 ((next_index p).[REMOTE] - 2)
         /\ revocations_received p' = wrap_u64 (revocations_received p + 1)).
Proof.
  unfold Peer.peer_in. intros E. do 3 apply check_Done in E as [_ E].
  destruct m as [point| |id amount hash expiry onion tlvs|id preimage|id reason|id sha code|feerate|height
    |s swap|secret point s|script wrong|i| |]; try done.
  - unfold handle_peer_channel_ready in E. run_inv; try (split; [by apply replies_silent|auto]).
    apply billboard_frame in E as ->. split; [by apply replies_silent|auto].
  - injection E as <-. split; [by apply replies_silent|auto].
  - unfold handle_peer_add_htlc in E. run_inv; (split; [by apply replies_silent|auto]).
  - unfold handle_peer_fulfill_htlc in E. run_inv; (split; [by apply replies_silent|auto]).
  - unfold handle_peer_fail_htlc, fail_with in E. run_inv; (split; [by apply replies_silent|auto]).
  - unfold handle_peer_fail_malformed_htlc, fail_with in E. run_inv; (split; [by apply replies_silent|auto]).
  - unfold handle_peer_feechange in E. run_inv; (split; [by apply replies_silent|auto]).
  - unfold handle_peer_blockheight_change in E. run_inv; (split; [by apply replies_silent|auto]).
  - apply handle_peer_commit_sig_replies in E as (R & N & V). auto.
  - apply handle_peer_revoke_and_ack_replies in E as (R & N & V1 & V2). rewrite N. auto.
  - unfold handle_peer_shutdown in E. do 2 apply check_Done in E as [_ E]. apply billboard_frame in E as ->.
    destruct (negb _); (split; [by apply replies_silent|auto]).
  - apply handle_stfu_replies in E as (R & [N V _]). rewrite N, V. auto.
Qed.

(** What a request of lightningd leads to. *)
Record obeys (p p' : peer) : Prop := {
  ob_index : next_index p' = next_index p;
  ob_revocations : revocations_received p' = revocations_received p;
  ob_queue : update_queue p `prefix_of` update_queue p';
  ob_writes : writes (fun m => negb (is_commit m)) p p';
}.
Lemma obeys_silent (p p' : peer) : same_counts p p' -> sent p' = sent p -> obeys p p'.
Proof. intros [E1 E2 E3] E4. split; [done|done|by rewrite E3|by apply writes_none]. Qed.
Lemma obeys_one m (p p' : peer) : same_counts p p' -> sent p' = sent p ++ [m] -> is_commit m = false -> obeys p p'.
Proof.
  intros [E1 E2 E3] E4 Hm. split; [done|done|by rewrite E3|]. eapply writes_one; [done|]. by rewrite Hm.
Qed.
Lemma obeys_stfu (p q p' : peer) :
  same_counts p q -> sent q = sent p -> maybe_send_stfu q = Done p' -> obeys p p'.
Proof.
  intros [E1 E2 E3] E4 [[_ He] [N V Q]]%maybe_send_stfu_effect.
  split; [congruence|congruence|by rewrite Q, E3|].
  destruct He as [[_ E]|(_ & _ & _ & b & E)].
  - apply writes_none. congruence.
  - eapply writes_one; [by rewrite E, E4|done].
Qed.

Lemma send_removal_writes owner id (p p' : peer) :
  send_removal owner id p = Done p' -> exists m, p' = peer_write m p /\ is_commit m = false.
Proof.
  unfold send_removal, send_fail_or_fulfill. intros E. apply run_bind_Done in E as (h & _ & E).
  destruct h as [h|]; [|done].
  destruct (h_failed h) as [f|]; [destruct (sha256_of_onion f); [|destruct (onion f)]|destruct (h_r h)]; try done;
    injection E as <-; by eexists.
Qed.

Lemma req_in_effect r (p p' : peer) : req_in r p = Done p' -> obeys p p'.
Proof.
  unfold Peer.req_in, handle_master_request_later. intros E.
  destruct r; try match type of E with context [is_entering_stfu] =>
    destruct (is_entering_stfu p); [injection E as <-; split; [done|done|by eexists|by apply writes_none]|] end.
  - unfold handle_offer_htlc in E. run_inv; [by eapply obeys_one|by apply obeys_silent].
  - unfold handle_preimage in E. apply run_bind_Done in E as ([e c] & _ & E). apply check_Done in E as [_ E].
    apply run_bind_Done in E as (p1 & (m & -> & Hm)%send_removal_writes & E). injection E as <-. by eapply obeys_one.
  - unfold handle_fail in E. apply run_bind_Done in E as ([e c] & _ & E). apply check_Done in E as [_ E].
    apply run_bind_Done in E as (p1 & (m & -> & Hm)%send_removal_writes & E). injection E as <-. by eapply obeys_one.
  - unfold handle_feerates in E. run_inv; [destruct (_ || _)|]; by apply obeys_silent.
  - unfold handle_blockheight in E. run_inv; by apply obeys_silent.
  - unfold handle_shutdown_cmd in E. injection E as <-. by apply obeys_silent.
  - unfold handle_stfu_req in E. destruct (_ || _); [injection E as <-; by apply obeys_silent|]. by eapply obeys_stfu in E.
  - destruct developer; [|done]. unfold handle_dev_quiesce in E. apply check_Done in E as [_ E]. by eapply obeys_stfu in E.
  - unfold handle_credit_note in E. injection E as <-. destruct (amount_sat_greater _ _); by apply obeys_silent.
  - unfold handle_sym_swap_request in E. apply run_bind_Done in E as ([|] & _ & E); injection E as <-;
      [by apply obeys_silent|by eapply obeys_one].
  - unfold handle_sym_swap_accept in E. run_inv; by apply obeys_silent.
  - unfold handle_sym_swap_cancel in E. injection E as <-.
    destruct (sym_swap_req (chan p)); [destruct (_ =? _)|]; by apply obeys_silent.
Qed.

(** The parts of [send_commit]. *)
Record sending (p p' : peer) : Prop := {
  sd_counts : same_counts p p';
  sd_stfu : stfu_sent p' = stfu_sent p;
  sd_commits : commits p' = commits p;
}.
Lemma sending_trans (p q r : peer) : sending p q -> sending q r -> sending p r.
Proof. intros [[A1 B1 C1] D1 E1] [[A2 B2 C2] D2 E2]. split; [split|..]; congruence. Qed.
Lemma sending_one m (p p' : peer) :
  same_counts p p' -> stfu_sent p' = stfu_sent p -> sent p' = sent p ++ [m] -> is_commit m = false -> sending p p'.
Proof.
  intros H1 H2 H3 Hm. split; [done|done|].
  apply (writes_commits (fun m => negb (is_commit m))); [intros m' Hm'; by destruct (is_commit m')|].
  eapply writes_one; [done|]. by rewrite Hm.
Qed.

Lemma send_fee_update_sending (p p' : peer) : send_fee_update params p = Done p' -> sending p p'.
Proof.
  unfold send_fee_update. intros E. apply run_bind_Done in E as ([f|] & _ & E); [|injection E as <-; done].
  destruct (negb _) in E; [injection E as <-; done|].
  apply run_bind_Done in E as (ok & _ & E). destruct (_ && _) in E; [injection E as <-; done|].
  apply check_Done in E as [_ E]. apply run_bind_Done in E as ([a c] & _ & E). apply check_Done in E as [_ E].
  injection E as <-. by eapply sending_one.
Qed.
Lemma send_blockheight_update_sending (p p' : peer) : send_blockheight_update p = Done p' -> sending p p'.
Proof.
  unfold send_blockheight_update. intros E. apply run_bind_Done in E as ([f|] & _ & E); [|injection E as <-; done].
  destruct (blockheight_states (chan p)); [|injection E as <-; done].
  destruct (negb _) in E; [injection E as <-; done|]. apply run_bind_Done in E as (c & _ & E).
  injection E as <-. by eapply sending_one.
Qed.
Lemma maybe_send_shutdown_sending (p p' : peer) : maybe_send_shutdown p = Done p' -> sending p p'.
Proof.
  unfold maybe_send_shutdown. intros E. destruct (negb _) in E; [injection E as <-; done|].
  apply billboard_frame in E as ->. by eapply sending_one.
Qed.

(** A commitment goes out only when the last one is revoked; if none does, the
    timer is off. *)
Lemma send_commit_effect (p p' : peer) :
  send_commit params sg p = Done p' ->
  sending p p' /\ commit_timer p' = false
  \/ awaits_no_revocation p = true
     /\ next_index p' = upd REMOTE (wrap_u64 ((next_index p).[REMOTE] + 1)) (next_index p)
     /\ revocations_received p' = revocations_received p /\ update_queue p' = update_queue p
     /\ stfu_sent p' = stfu_sent p /\ commits p' = commits p + 1.
Proof.
  unfold send_commit. intros E. destruct (bool_decide _); [injection E as <-; by left|].
  destruct (awaits_no_revocation p) eqn:Ea; cbn [negb] in E.
  2: { apply check_Done in E as [_ E]. injection E as <-. by left. }
  apply run_bind_Done in E as (n & _ & E). destruct (n =? 0); [injection E as <-; by left|].
  apply run_bind_Done in E as (p1 & E1%send_fee_update_sending & E).
  apply run_bind_Done in E as (p2 & E2%send_blockheight_update_sending & E).
  apply run_bind_Done in E as ([[any changed] c] & _ & E). cbn beta iota zeta in E.
  pose proof (sending_trans _ _ _ E1 E2) as Hs. clear E1 E2. destruct (negb any).
  - apply run_bind_Done in E as (p3 & E3%maybe_send_shutdown_sending & E). injection E as <-. left.
    split; [|done]. eapply sending_trans; [exact Hs|]. by destruct E3 as [[]].
  - right. apply run_bind_Done in E as ([m p3] & E3 & E). cbn beta iota zeta in E.
    apply run_bind_Done in E as (p4 & E4%maybe_send_shutdown_sending & E). injection E as <-.
    unfold send_commit_part in E3. apply run_bind_Done in E3 as ([s pb] & _ & E3). injection E3 as <- <-.
    destruct Hs as [[N V Q] S C], E4 as [[N' V' Q'] S' C']. split; [done|]. cbn.
    rewrite N', V', Q', S'. change (commits (start_commit_timer _)) with (commits p4). rewrite C', <- C.
    destruct (channel_has _ _); cbn; rewrite N, V, Q, S; (split_and!; [done..|by eapply commits_one]).
Qed.

(** ** One commitment in flight *)

(** The revocations are those of all the commitments sent, or of all but the
    last. *)
Definition in_sync (p : peer) : Prop :=
  revocations_received p = wrap_u64 ((next_index p).[REMOTE] - 1)
  \/ revocations_received p = wrap_u64 ((next_index p).[REMOTE] - 2).

Lemma step_in_sync (p p' : peer) :
  peer_step p p' -> in_sync p ->
  in_sync p' /\ wrap_u64 ((next_index p').[REMOTE] - commits p') = wrap_u64 ((next_index p).[REMOTE] - commits p).
Proof.
  intros Hs Hp. destruct Hs as [m q _ _ E|r q _ _ E|q _ _ E].
  - apply peer_in_effect in E as ([_ W _] & N & V). apply writes_commits in W; [|by intros []].
    unfold in_sync. rewrite N, W. split; [|done].
    destruct V as [->|[V ->]]; [done|]. left. rewrite V. unfold wrap_u64. rewrite Zplus_mod_idemp_l. f_equal. lia.
  - apply req_in_effect in E as [N V _ W]. apply writes_commits in W; [|by intros []].
    unfold in_sync. by rewrite N, V, W.
  - unfold send_commit_if_not_stfu in E. destruct (negb _); [|by injection E as <-].
    apply send_commit_effect in E as [[[[N V _] _ C] _]|(Ha & N & V & _ & _ & C)]; unfold in_sync; rewrite N, V, C; [done|].
    apply Z.eqb_eq in Ha. rewrite Ha. cbn. unfold wrap_u64. split.
    + right. rewrite Zminus_mod_idemp_l. f_equal. lia.
    + rewrite Zminus_mod_idemp_l. f_equal. lia.
Qed.

(** C36. channeld never has two commitments of the peer unrevoked.  However it
    runs from a state where at most the last [commitment_signed] waits for its
    revocation, through messages of the peer, requests of lightningd and the
    commitment timer, at most the last one still waits, the index of the next
    commitment has moved by exactly the number of [commitment_signed] written,
    and while one waits [send_commit] writes nothing and fails no assertion. *)
Theorem at_most_one_commitment_unrevoked (p p' : peer) :
  in_sync p -> rtc peer_step p p' ->
  in_sync p'
  /\ wrap_u64 ((next_index p').[REMOTE] - commits p') = wrap_u64 ((next_index p).[REMOTE] - commits p)
  /\ (awaits_no_revocation p' = false -> send_commit params sg p' = Done (set_commit_timer false p')).
Proof.
  intros Hp Hr. assert (in_sync p' /\ wrap_u64 ((next_index p').[REMOTE] - commits p')
                                     = wrap_u64 ((next_index p).[REMOTE] - commits p)) as [Hs Hc].
  { induction Hr as [|p q r Hs _ IH]; [done|]. destruct (step_in_sync _ _ Hs Hp) as [Hq E].
    rewrite <- E. by apply IH. }
  split; [done|split; [done|]]. intros Ha. unfold send_commit. destruct (bool_decide _); [done|].
  rewrite Ha. cbn [negb]. destruct Hs as [Hs|Hs].
  - unfold awaits_no_revocation in Ha. by rewrite Hs, Z.eqb_refl in Ha.
  - by rewrite Hs, Z.eqb_refl.
Qed.

(** ** Quiescence *)

(** Requests are queued, or change nothing the peer sees. *)
Lemma req_in_quiet r (p p' : peer) :
  (stfu_sent p).[LOCAL] = true -> req_in r p = Done p' ->
  sent p' = sent p /\ (stfu_sent p').[LOCAL] = true /\ (stfu_sent p').[REMOTE] = (stfu_sent p).[REMOTE].
Proof.
  intros Hl. assert (He : is_entering_stfu p = true) by (unfold is_entering_stfu; rewrite Hl; by destruct (want_stfu p)).
  assert (Hm : forall q p', stfu_sent q = stfu_sent p -> sent q = sent p -> maybe_send_stfu q = Done p' ->
    sent p' = sent p /\ (stfu_sent p').[LOCAL] = true /\ (stfu_sent p').[REMOTE] = (stfu_sent p).[REMOTE]).
  { intros q q' E1 E2 [[Er [[El Es]|(E & _)]] _]%maybe_send_stfu_effect; rewrite E1 in *; [|congruence].
    by rewrite Es, El, Er. }
  unfold Peer.req_in, handle_master_request_later. rewrite He. intros E. destruct r; try (by injection E as <-).
  - unfold handle_stfu_req in E. destruct (_ || _) in E; [by injection E as <-|]. by eapply Hm in E.
  - destruct developer; [|done]. apply check_Done in E as [_ E]. by eapply Hm in E.
  - unfold handle_credit_note in E. injection E as <-. by destruct (amount_sat_greater _ _).
  - unfold handle_sym_swap_cancel in E. injection E as <-. destruct (sym_swap_req (chan p)); [by destruct (_ =? _)|done].
Qed.

Lemma step_after_stfu (p p' : peer) :
  (stfu_sent p).[LOCAL] = true -> peer_step p p' -> writes is_revoke p p' /\ (stfu_sent p').[LOCAL] = true.
Proof.
  intros Hl Hs. destruct Hs as [m q _ _ E|r q _ _ E|q _ _ E].
  - apply peer_in_effect in E as ([_ _ Hs] & _). auto.
  - apply req_in_quiet in E as (E1 & E2 & _); [|done]. split; [by apply writes_none|done].
  - unfold send_commit_if_not_stfu in E. rewrite Hl in E. injection E as <-. split; [by apply writes_none|done].
Qed.

Lemma step_quiescent (p p' : peer) :
  is_stfu_active p = true -> peer_step p p' -> sent p' = sent p /\ is_stfu_active p' = true.
Proof.
  intros Ha Hs. assert (Ha' := Ha). unfold is_stfu_active in Ha. apply andb_prop in Ha as [Hl Hr].
  destruct Hs as [m q _ _ E|r q _ _ E|q _ _ E].
  - unfold Peer.peer_in in E. apply check_Done in E as [E1 E]. apply check_Done in E as [_ E].
    apply check_Done in E as [E2 E]. rewrite Ha', E2 in E1. destruct m; try done. by injection E as <-.
  - apply req_in_quiet in E as (E1 & E2 & E3); [|done]. unfold is_stfu_active. by rewrite E1, E2, E3, Hr.
  - unfold send_commit_if_not_stfu in E. rewrite Hl in E. by injection E as <-.
Qed.

(** Quiescence.  Once channeld has sent [stfu] it writes nothing but
    revocations of the peer's commitments, whatever the peer sends, whatever
    lightningd asks for and whenever the timer fires; once both sides have sent
    it, nothing is written at all and the channel stays quiescent.  (Only the
    splices, which are not modelled, end the quiescence.) *)
Theorem stfu_silences (p p' : peer) :
  (stfu_sent p).[LOCAL] = true -> rtc peer_step p p' ->
  writes is_revoke p p' /\ (stfu_sent p').[LOCAL] = true
  /\ (is_stfu_active p = true -> sent p' = sent p /\ is_stfu_active p' = true).
Proof.
  intros Hl Hr. induction Hr as [p|p q r Hs _ IH].
  { split; [by apply writes_none|done]. }
  destruct (step_after_stfu _ _ Hl Hs) as [W Hq]. destruct (IH Hq) as (W' & Hl' & Ha').
  split; [by eapply writes_trans|split; [done|]]. intros Ha. destruct (step_quiescent _ _ Ha Hs) as [E Hq'].
  destruct (Ha' Hq') as [E' Hr']. split; [congruence|done].
Qed.

(** ** Deferred requests *)

(** The requests that wait for the end of quiescence. *)
Definition deferrable (r : request) : bool :=
  match r with
  | req_credit_note _ | req_sym_swap_cancel _ | req_send_shutdown _ _ | req_stfu | req_dev_quiesce => false
  | _ => true
  end.

Lemma step_queue (p p' : peer) : peer_step p p' -> update_queue p `prefix_of` update_queue p'.
Proof.
  intros [m q _ _ E|r q _ _ E|q _ _ E].
  - apply peer_in_effect in E as ([-> _ _] & _). done.
  - by apply req_in_effect in E as [_ _ ? _].
  - unfold send_commit_if_not_stfu in E. destruct (negb _); [|by injection E as <-].
    by apply send_commit_effect in E as [[[[_ _ ->] _ _] _]|(_ & _ & _ & -> & _)].
Qed.

(** A request deferred because the channel becomes quiescent is not handled
    later: it changes nothing but the queue of updates, and it stays on that
    queue, behind the same requests, however channeld runs on.  (No code
    takes a request from that queue, splices included.) *)
Theorem deferred_requests_stay_queued (p p1 p2 : peer) r :
  is_entering_stfu p = true -> deferrable r = true -> req_in r p = Done p1 -> rtc peer_step p1 p2 ->
  p1 = set_update_queue (update_queue p ++ [r]) p /\ update_queue p ++ [r] `prefix_of` update_queue p2.
Proof.
  intros He Hd E Hr. assert (E1 : p1 = set_update_queue (update_queue p ++ [r]) p).
  { unfold Peer.req_in, handle_master_request_later in E. rewrite He in E. destruct r; try done; by injection E as <-. }
  split; [done|]. change (update_queue p ++ [r]) with (update_queue (set_update_queue (update_queue p ++ [r]) p)).
  rewrite <- E1. clear E E1. induction Hr as [|x y z Hs _ IH]; [done|]. etrans; [by apply step_queue|done].
Qed.
End Facts.
