(* ===== verification/Link.v ===== *)
(** * Two channelds on one connection

    Each side is a [peer] of [Peer], and what one has written is what the
    other reads: [got] counts how many of the messages of the other side a
    side has handled, so the rest of them is in flight.  The sides are named
    by the [side]s of the left one; each calls itself [LOCAL]. *)

From stdpp Require Import list.
From S2P Require Import Prelude Chainparams Amount HtlcState FeeStates Features Script Keys ChannelState Channel CommitTx PeerState Peer.
Local Open Scope Z_scope.

Record link (sigs : Type) := mk_link { node : sides (peer sigs); got : sides nat }.
Arguments mk_link {sigs}.
Arguments node {sigs}.
Arguments got {sigs}.

Section Link.
Context (params : chainparams) (sha256 : list Z -> list Z) (point_lock_opens : list Z -> list Z -> bool).
Context (features : sides feature_set) (init_features upfront_shutdown : sides (list Z)) (developer : bool).
Context (tlv_fields : add_tlvs -> option (list (Z * list Z))) (junk : Z).
Context `{Secp256k1} {sigs : Type} (sg : sides (signer sigs)).

(** What happens to one side: lightningd asks for something, the commit timer
    fires, or it handles the next message of the other one. *)
Inductive event := asked (s : side) (r : request) | timer_fired (s : side) | arrived (s : side).
Definition event_side (e : event) : side := match e with asked s _ | timer_fired s | arrived s => s end.

Definition in_flight (s : side) (l : link sigs) : list (message sigs) := drop (got l).[s] (sent (node l).[other s]).

(** What the side's main loop does then. *)
Definition reacts (e : event) (l : link sigs) : run (peer sigs) :=
  let s := event_side e in
  let p := (node l).[s] in
  match e with
  | asked _ r =>
      req_in params sha256 point_lock_opens features.[s] init_features.[other s] developer sg.[s] r p
  | timer_fired _ => send_commit_if_not_stfu params sg.[s] p
  | arrived _ =>
      match in_flight s l with
      | m :: _ =>
          peer_in params sha256 point_lock_opens features.[s] init_features.[other s] upfront_shutdown.[other s]
            tlv_fields junk sg.[s] m p
      | [] => Done p
      end
  end.

(** Whether it happens at all. *)
Definition occurs (e : event) (l : link sigs) : bool :=
  match e with
  | asked _ _ => true
  | timer_fired s => commit_timer (node l).[s]
  | arrived s => match in_flight s l with [] => false | _ => true end
  end
  && match shutdown_complete (node l).[event_side e] with Ret b => negb b | Crash => false end.

Definition after (e : event) (l : link sigs) (p : peer sigs) : link sigs :=
  mk_link (upd (event_side e) p (node l))
    (match e with arrived s => upd s (S (got l).[s]) (got l) | _ => got l end).

Definition link_step (e : event) (l : link sigs) : option (run (link sigs)) :=
  if occurs e l then Some (p ← reacts e l; Done (after e l p)) else None.

(** All goes well up to here. *)
Fixpoint link_run (es : list event) (l : link sigs) : option (link sigs) :=
  match es with
  | [] => Some l
  | e :: es => match link_step e l with Some (Done l') => link_run es l' | _ => None end
  end.
End Link.
