(* ===== verification/PeerExample.v ===== *)
(** * channelds to run

    The channel of [Example]: the peer offers an HTLC and commits to it, we
    revoke and commit in turn; then the same with [stfu].  The signer signs
    with nothing.  Then two channelds on a [Link], whose HTLCs and whose stfu
    cross. *)

From stdpp Require Import list.
From S2P Require Import Prelude Chainparams Amount HtlcState FeeStates Features Script Keys ChannelState Channel CommitTx PeerState Peer Example ChannelInv ChannelSteps History PeerSteps PeerFacts Link.
Import Toy.
Local Open Scope Z_scope.

Definition ex_signer : signer unit :=
  mk_signer unit (fun _ _ _ => Ret (tt, None)) (fun _ _ _ _ => Ret true) (fun _ _ => Ret []) (fun _ _ _ => Ret true)
    (fun n => Ret ([n], Toy.point n)) (fun _ _ _ _ => true).
Definition ex_features : feature_set := mk_feature_set (fun _ => []).
Definition no_tlvs : add_tlvs := mk_add_tlvs None None None None.
Definition no_fields (_ : add_tlvs) : option (list (Z * list Z)) := None.

Abbreviation ex_peer_in := (peer_in net no_hash no_point ex_features [] [] no_fields 0 ex_signer).
Abbreviation ex_req_in := (req_in net no_hash no_point ex_features [] true ex_signer).
Abbreviation ex_step := (peer_step net no_hash no_point ex_features [] [] true no_fields 0 ex_signer).

Definition p0 : peer unit :=
  mk_peer open_channel (mk_sides true true) (mk_sides 1 1) 0 (Toy.point 1) (Toy.point 2) (Toy.point 3) 0 false 253 253
    5000 100 [] None false (mk_sides false false) false LOCAL (mk_sides false false) false [] None 0 [] false None [] [].

Definition done {A} (r : run A) (d : A) : A := match r with Done a => a | Failed _ => d end.
Definition p1 : peer unit := Eval vm_compute in done (ex_peer_in (msg_update_add_htlc 0 (mk_msat 50000000) [7] 500 [] no_tlvs) p0) p0.
Definition p2 : peer unit := Eval vm_compute in done (ex_peer_in (msg_commitment_signed tt None) p1) p0.
Definition p3 : peer unit := Eval vm_compute in done (send_commit_if_not_stfu net ex_signer p2) p0.
Lemma p01 : ex_step p0 p1.
Proof. apply (step_peer _ _ _ _ _ _ _ _ _ _ _ (msg_update_add_htlc 0 (mk_msat 50000000) [7] 500 [] no_tlvs)); [reflexivity|cbn; lia|reflexivity]. Qed.
Lemma p12 : ex_step p1 p2.
Proof. apply (step_peer _ _ _ _ _ _ _ _ _ _ _ (msg_commitment_signed tt None)); [reflexivity|done|reflexivity]. Qed.
Lemma p23 : ex_step p2 p3.
Proof. apply step_timer; reflexivity. Qed.

Lemma channeld_keeps_channel_reachable_witness :
  length (sent p2) = 1%nat /\ reachable net no_hash no_point (mk_sat 1000000) [] (chan p1).
Proof.
  split; [reflexivity|].
  apply (channeld_keeps_channel_reachable net no_hash no_point ex_features [] [] true no_fields 0 ex_signer (mk_sat 1000000) [] p0 p1).
  - apply open_reachable.
  - apply p01.
  - by apply (within_example _ 50000000).
Defined.

Lemma at_most_one_commitment_unrevoked_witness :
  is_commit <$> sent p3 = [false; true] /\ awaits_no_revocation p3 = false
  /\ send_commit net ex_signer p3 = Done (set_commit_timer false p3).
Proof.
  split; [reflexivity|]. split; [reflexivity|].
  apply (at_most_one_commitment_unrevoked net no_hash no_point ex_features [] [] true no_fields 0 ex_signer p0 p3).
  - left. reflexivity.
  - eapply rtc_l; [apply p01|]. eapply rtc_l; [apply p12|]. eapply rtc_l; [apply p23|]. apply rtc_refl.
  - reflexivity.
Defined.

(** lightningd asks for quiescence, then for an HTLC. *)
Definition q0 : peer unit := Eval vm_compute in done (ex_req_in req_dev_quiesce p0) p0.
Definition ex_offer : request := req_offer_htlc (mk_msat 1000000) 500 [7] [] None None None 0.
Definition q1 : peer unit := Eval vm_compute in done (ex_req_in ex_offer q0) p0.
Lemma q01 : ex_step q0 q1.
Proof. apply (step_master _ _ _ _ _ _ _ _ _ _ _ ex_offer); [reflexivity|cbn; lia|reflexivity]. Qed.

Lemma stfu_silences_witness : sent q0 = [msg_stfu true] /\ writes is_revoke q0 q1.
Proof.
  split; [reflexivity|].
  apply (stfu_silences net no_hash no_point ex_features [] [] true no_fields 0 ex_signer q0 q1); [reflexivity|].
  eapply rtc_l; [apply q01|]. apply rtc_refl.
Defined.

Lemma deferred_requests_stay_queued_witness :
  q1 = set_update_queue [ex_offer] q0 /\ [ex_offer] `prefix_of` update_queue q1.
Proof.
  apply (deferred_requests_stay_queued net no_hash no_point ex_features [] [] true no_fields 0 ex_signer q0 q1 q1 ex_offer);
    [reflexivity|reflexivity|reflexivity|apply rtc_refl].
Defined.

(** ** Two channelds to run *)

(** The left side opened a channel of one million satoshis and has a tenth
    of it; the feerate is 5000. *)
Abbreviation side_channel op msat :=
  (init_channel net [] (mk_outpoint [] 0) 3 (Some (new_height_states op (Some 100))) 0
    (mk_sat 1000000) (mk_msat msat) (new_fee_states op (Some 5000)) conf conf 0
    channel_type_static_remotekey true op [] [] [] None None []).
Definition left_channel : channel := Eval vm_compute in ret (side_channel LOCAL 100000000).
Definition right_channel : channel := Eval vm_compute in ret (side_channel REMOTE 900000000).

(** The secret of commitment [n] is [n], for both. *)
Definition counting_signer : signer unit :=
  mk_signer unit (fun _ _ _ => Ret (tt, None)) (fun _ _ _ _ => Ret true) (fun _ _ => Ret []) (fun _ _ _ => Ret true)
    (fun n => Ret ([n], Toy.point (wrap_u64 (n + 2)))) (fun _ _ _ _ => true).
Definition side_of (c : channel) : peer unit :=
  mk_peer c (mk_sides true true) (mk_sides 1 1) 0 (Toy.point 1) (Toy.point 1) (Toy.point 0) 0 false 5000 253
    100000 100 [] None false (mk_sides false false) false LOCAL (mk_sides false false) false [] None 0 [] false None [] [].
Definition l0 : link unit := mk_link (mk_sides (side_of left_channel) (side_of right_channel)) (mk_sides 0%nat 0%nat).

Definition both {A} (a : A) : sides A := mk_sides a a.
Abbreviation ex_reacts :=
  (reacts net no_hash no_point (both ex_features) (both []) (both []) true no_fields 0 (both counting_signer)).
Abbreviation ex_run :=
  (link_run net no_hash no_point (both ex_features) (both []) (both []) true no_fields 0 (both counting_signer)).

Definition offers (msat : Z) (s : side) : event := asked s (req_offer_htlc (mk_msat msat) 500 [7] [] None None None 0).

(** The opener offers most of what it has while the other side, which does
    not know of it yet, offers fifteen HTLCs; both commit, and answer. *)
Definition crossing : list event :=
  [offers 75000000 LOCAL; timer_fired LOCAL]
  ++ repeat (offers 10000000 REMOTE) 15 ++ [timer_fired REMOTE]
  ++ repeat (arrived REMOTE) 2 ++ repeat (arrived LOCAL) 16
  ++ [arrived LOCAL; arrived REMOTE; timer_fired LOCAL].

Definition crossed : link unit := Eval vm_compute in default l0 (ex_run crossing l0).


(** ** stfu *)

(** Both know of quiescence. *)
Definition quiesce_bits : list Z := set_feature_bit [] (OPTIONAL_FEATURE OPT_QUIESCE).
Abbreviation quiesce_reacts :=
  (reacts net no_hash no_point (both (mk_feature_set (fun _ => quiesce_bits))) (both quiesce_bits) (both []) true
     no_fields 0 (both counting_signer)).
Abbreviation quiesce_run :=
  (link_run net no_hash no_point (both (mk_feature_set (fun _ => quiesce_bits))) (both quiesce_bits) (both []) true
     no_fields 0 (both counting_signer)).
Definition crossing_stfu : list event := [asked REMOTE req_dev_quiesce; offers 50000000 LOCAL].
Definition stfu_crossed : link unit := Eval vm_compute in default l0 (quiesce_run crossing_stfu l0).

(** The [stfu] of a side that has nothing pending is refused by one that has
    offered an HTLC meanwhile: [pending_updates] counts what the peer will
    have to send for it. *)
Lemma crossing_stfu_refused :
  quiesce_run crossing_stfu l0 = Some stfu_crossed
  /\ in_flight LOCAL stfu_crossed = [msg_stfu true]
  /\ quiesce_reacts (arrived LOCAL) stfu_crossed = Failed Warned.
Proof. split; [|split]; vm_compute; reflexivity. Qed.
