(* ===== verification/Ledger.v ===== *)
(** * What the messages of a channel say

    A channel as its messages make it, without any table: two streams of
    messages, one per side, are all there is.  An update is in force in a
    commitment or not depending on how many [commitment_signed] and
    [revoke_and_ack] went by: the side that sent it commits to it with its next
    [commitment_signed] (stage 1), the peer revokes what it had before (2),
    commits in turn (3), and the first side revokes (4).  Only the number of
    commitments before the update in its stream counts, and in each stream the
    revocations before each commitment; not how the streams interleave.  So two
    sides that have seen the same messages agree, whatever was in flight when.

    [ledger] is the list of all HTLCs there ever were, in the states
    common/htlc_state.h has for them. *)

From stdpp Require Import list.
From S2P Require Import Prelude Chainparams Amount HtlcState FeeStates ChannelState Channel PeerState ChannelInv ChannelSteps Solvency PeerFacts.

Lemma omap_map {A B C} (f : A -> option B) (f' : A -> option C) (h : B -> C) (l : list A) :
  (forall x, x ∈ l -> f' x = h <$> f x) -> omap f' l = map h (omap f l).
Proof.
  induction l as [|x l IH]; intros Hf; [done|]. csimpl. rewrite (Hf x) by left.
  rewrite IH by (intros y Hy; apply Hf; by right). by destruct (f x).
Qed.

Lemma omap_in_ext {A B} (f g : A -> option B) (l : list A) : (forall x, x ∈ l -> f x = g x) -> omap f l = omap g l.
Proof. intros Hf. rewrite (omap_map g f id), list_fmap_id; [done|]. intros x Hx. rewrite Hf by done. by destruct (g x). Qed.

Lemma omap_step {A B} (f : A -> option B) x (l : list A) :
  omap f (x :: l) = match f x with Some y => y :: omap f l | None => omap f l end.
Proof. done. Qed.
Lemma list_nil_omap {A B} (f : A -> option B) (l : list A) : (forall x, x ∈ l -> f x = None) -> omap f l = [].
Proof.
  induction l as [|x l IH]; intros Hf; [done|]. csimpl. rewrite (Hf x) by left. apply IH. intros y Hy. apply Hf. by right.
Qed.

Section Ledger.
Context {sigs : Type}.
Notation message := (message sigs).
Notation log := (sides (list message)).

(** ** Counting in a stream *)

Fixpoint tally (P : message -> bool) (l : list message) : nat :=
  match l with [] => 0 | m :: l => Nat.b2n (P m) + tally P l end.
Notation nC := (tally is_commit).
Notation nR := (tally is_revoke).

Lemma tally_app P l k : tally P (l ++ k) = tally P l + tally P k.
Proof. induction l as [|m l IH]; [done|]. cbn. rewrite IH. lia. Qed.
Lemma tally_one P m : tally P [m] = Nat.b2n (P m).
Proof. cbn. lia. Qed.
Lemma commit_not_revoke (m : message) : is_commit m = true -> is_revoke m = false.
Proof. by destruct m. Qed.
Lemma revoke_not_commit (m : message) : is_revoke m = true -> is_commit m = false.
Proof. by destruct m. Qed.

(** The stream up to its [n]th commitment, and the revocations there. *)
Fixpoint upto (n : nat) (l : list message) : list message :=
  match n, l with
  | O, _ | _, [] => []
  | S k, m :: l => m :: upto (if is_commit m then k else n) l
  end.
Definition acks (n : nat) (l : list message) : nat := nR (upto n l).

Lemma upto_0 l : upto 0 l = [].
Proof. by destruct l. Qed.
Lemma upto_app n l k : n <= nC l -> upto n (l ++ k) = upto n l.
Proof.
  revert n. induction l as [|m l IH]; intros [|n] Hn; rewrite ?upto_0; cbn in *; try done; [lia|].
  f_equal. apply IH. destruct (is_commit m) in *; cbn in *; lia.
Qed.
Lemma upto_over n l : nC l < n -> upto n l = l.
Proof.
  revert n. induction l as [|m l IH]; intros [|n] Hn; cbn in *; try done; [lia|].
  f_equal. apply IH. destruct (is_commit m) in *; cbn in *; lia.
Qed.
Lemma upto_commit l m : is_commit m = true -> upto (S (nC l)) (l ++ [m]) = l ++ [m].
Proof.
  intros Hm. induction l as [|x l IH]; cbn; [by rewrite Hm|]. f_equal. destruct (is_commit x); [done|].
  exact IH.
Qed.
Lemma acks_app n l k : n <= nC l -> acks n (l ++ k) = acks n l.
Proof. intros Hn. unfold acks. by rewrite upto_app. Qed.
Lemma acks_commit l m : is_commit m = true -> acks (S (nC l)) (l ++ [m]) = nR l.
Proof.
  intros Hm. unfold acks. rewrite upto_commit, tally_app, tally_one by done.
  rewrite (commit_not_revoke m Hm). cbn. lia.
Qed.
Lemma acks_le n n' l : n <= n' -> acks n l <= acks n' l.
Proof.
  unfold acks. revert n n'. induction l as [|m l IH]; intros [|n] [|n'] Hn; cbn; try lia.
  specialize (IH (if is_commit m then n else S n) (if is_commit m then n' else S n')).
  destruct (is_commit m) in *; cbn in *; lia.
Qed.
Lemma acks_revokes n l : acks n l <= nR l.
Proof.
  unfold acks. revert n. induction l as [|m l IH]; intros [|n]; cbn; try lia.
  specialize (IH (if is_commit m then n else S n)). lia.
Qed.

(** Each message with the number of commitments before it. *)
Fixpoint stamped (n : nat) (l : list message) : list (nat * message) :=
  match l with
  | [] => []
  | m :: l => (n, m) :: stamped (if is_commit m then S n else n) l
  end.
Lemma stamped_app n l k : stamped n (l ++ k) = stamped n l ++ stamped (n + nC l) k.
Proof.
  revert n. induction l as [|m l IH]; intros n; cbn; [by rewrite Nat.add_0_r|]. rewrite IH. do 3 f_equal.
  destruct (is_commit m); cbn; lia.
Qed.
Lemma stamped_bounds n l a m : (a, m) ∈ stamped n l -> n <= a <= n + nC l.
Proof.
  revert n. induction l as [|x l IH]; intros n Hin; cbn in *; [by apply elem_of_nil in Hin|].
  apply elem_of_cons in Hin as [[= -> ->]|Hin]; [lia|]. apply IH in Hin. destruct (is_commit x) in *; cbn in *; lia.
Qed.
Lemma stamped_message n l a m : (a, m) ∈ stamped n l -> m ∈ l.
Proof.
  revert n. induction l as [|x l IH]; intros n Hin; cbn in *; [by apply elem_of_nil in Hin|].
  apply elem_of_cons in Hin as [[= -> ->]|Hin]; [left|right]. by eapply IH.
Qed.

(** ** How far an update of side [s] has come *)

Definition stage (g : log) (s : side) (a : nat) : nat :=
  Nat.b2n (a <? nC g.[s]) + Nat.b2n (a <? nR g.[other s])
  + Nat.b2n (a <? acks (nC g.[other s]) g.[other s]) + Nat.b2n (a <? acks (nR g.[s]) g.[other s]).

(** The commitments of [v] have in force the updates of [s] with stamps below
    this. *)
Definition in_force (g : log) (v s : side) : nat :=
  if decide (v = s) then acks (nC g.[other s]) g.[other s] else nC g.[s].

(** Every revocation answers a commitment; at most one is not answered. *)
Definition well_paced (g : log) : Prop :=
  forall s, nR g.[s] <= nC g.[other s] <= S (nR g.[s]).

Lemma stage_chain g s :
  well_paced g ->
  acks (nR g.[s]) g.[other s] <= acks (nC g.[other s]) g.[other s]
  /\ acks (nC g.[other s]) g.[other s] <= nR g.[other s] /\ nR g.[other s] <= nC g.[s].
Proof.
  intros Hg. pose proof (Hg s). pose proof (Hg (other s)) as Hg'. rewrite other_involutive in Hg'.
  split_and!; [by apply acks_le; lia|apply acks_revokes|lia].
Qed.

Lemma stage_le g s a : stage g s a <= 4.
Proof. unfold stage. repeat case_match; destruct (_ <? _), (_ <? _), (_ <? _), (_ <? _); cbn; lia. Qed.

(** What a new message does to the stages. *)
Definition append (t : side) (m : message) (g : log) : log := upd t (g.[t] ++ [m]) g.

Lemma stage_update g t m s a :
  well_paced g -> is_commit m = false -> is_revoke m = false -> stage (append t m g) s a = stage g s a.
Proof.
  intros Hg Hc Hr. pose proof (Hg LOCAL) as H1. pose proof (Hg REMOTE) as H2.
  unfold stage, append. destruct s, t; cbn [sel upd other at_local at_remote] in *;
    rewrite ?tally_app, ?tally_one, ?Hc, ?Hr, ?Nat.add_0_r, ?acks_app by lia; done.
Qed.

(** An update at stage [p] moves on. *)
Definition bump (p q : nat) : nat := if q =? p then S q else q.

Ltac count := unfold bump; repeat match goal with
  | |- context [?a <? ?b] => destruct (Nat.ltb_spec a b); cbn [Nat.b2n]; try lia end;
  repeat match goal with |- context [?a =? ?b] => destruct (Nat.eqb_spec a b); try lia end.

Lemma stage_commit g t m s a :
  well_paced g -> is_commit m = true -> a <= nC g.[s] ->
  stage (append t m g) s a = bump (if decide (s = t) then 0 else 2) (stage g s a).
Proof.
  intros Hg Hm Ha. pose proof (commit_not_revoke m Hm) as Hr. pose proof (stage_chain g s Hg) as Hch.
  pose proof (Hg LOCAL) as H1. pose proof (Hg REMOTE) as H2.
  unfold stage, append. destruct s, t; cbn [sel upd other at_local at_remote] in *;
    rewrite ?decide_True, ?decide_False, ?tally_app, ?tally_one, ?Hm, ?Hr by done; cbn [Nat.b2n]; rewrite ?Nat.add_0_r, ?Nat.add_1_r;
    rewrite ?acks_commit by done; rewrite ?acks_app by lia; count.
Qed.

Lemma stage_revoke g t m s a :
  well_paced g -> is_revoke m = true -> nR g.[t] < nC g.[other t] ->
  stage (append t m g) s a = bump (if decide (s = t) then 3 else 1) (stage g s a).
Proof.
  intros Hg Hm Hn. pose proof (revoke_not_commit m Hm) as Hr. pose proof (stage_chain g s Hg) as Hch.
  pose proof (Hg LOCAL) as H1. pose proof (Hg REMOTE) as H2.
  unfold stage, append. destruct s, t; cbn [sel upd other at_local at_remote] in *;
    rewrite ?decide_True, ?decide_False, ?tally_app, ?tally_one, ?Hm, ?Hr by done; cbn [Nat.b2n]; rewrite ?Nat.add_0_r, ?Nat.add_1_r;
    rewrite ?acks_app by lia.
  - replace (S (nR (at_local g))) with (nC (at_remote g)) by lia. count.
  - count.
  - count.
  - replace (S (nR (at_remote g))) with (nC (at_local g)) by lia. count.
Qed.

Lemma well_paced_update g t m :
  is_commit m = false -> is_revoke m = false -> well_paced g -> well_paced (append t m g).
Proof.
  intros Hc Hr Hg s. specialize (Hg s). unfold append. destruct s, t; cbn [sel upd other at_local at_remote] in *;
    rewrite ?tally_app, ?tally_one, ?Hc, ?Hr; cbn; lia.
Qed.
Lemma well_paced_commit g t m :
  is_commit m = true -> nC g.[t] = nR g.[other t] -> well_paced g -> well_paced (append t m g).
Proof.
  intros Hm He Hg s. pose proof (commit_not_revoke m Hm) as Hr. specialize (Hg s).
  unfold append. destruct s, t; cbn [sel upd other at_local at_remote] in *;
    rewrite ?tally_app, ?tally_one, ?Hm, ?Hr; cbn; lia.
Qed.
Lemma well_paced_revoke g t m :
  is_revoke m = true -> nR g.[t] < nC g.[other t] -> well_paced g -> well_paced (append t m g).
Proof.
  intros Hm He Hg s. pose proof (revoke_not_commit m Hm) as Hr. specialize (Hg s).
  unfold append. destruct s, t; cbn [sel upd other at_local at_remote] in *;
    rewrite ?tally_app, ?tally_one, ?Hm, ?Hr; cbn; lia.
Qed.

(** In force in a commitment of the peer from stage 1 on, in one of its own
    from stage 3 on. *)
Lemma in_force_stage g v s a :
  well_paced g -> (a < in_force g v s <-> (if decide (v = s) then 3 else 1) <= stage g s a).
Proof.
  intros Hg. pose proof (stage_chain g s Hg) as Hch. unfold in_force, stage.
  destruct (decide (v = s)); split; repeat match goal with
  | |- context [?a <? ?b] => destruct (Nat.ltb_spec a b); cbn [Nat.b2n]; try lia end.
Qed.

(** ** The HTLCs *)

(** The [p]th state in the life of an HTLC of [s]: added up to 4, removed
    from 5 on. *)
Definition life (s : side) (p : nat) : htlc_state := default SENT_ADD_HTLC (state_at s p).

(** What is known of an HTLC. *)
Record entry := mk_entry {
  e_id : Z;
  e_amount : amount_msat_t;
  e_expiry : Z;
  e_hash : list Z;
  e_lock : option (list Z);
  e_state : htlc_state;
  e_fulfilled : bool;
  e_failed : bool;
}.

(** Whether a message removes the HTLC [id], and with a preimage. *)
Definition removes (id : Z) (m : message) : option bool :=
  match m with
  | msg_update_fulfill_htlc i _ => if (i =? id)%Z then Some true else None
  | msg_update_fail_htlc i _ | msg_update_fail_malformed_htlc i _ _ => if (i =? id)%Z then Some false else None
  | _ => None
  end.
Fixpoint first_removal (id : Z) (l : list (nat * message)) : option (nat * bool) :=
  match l with
  | [] => None
  | (a, m) :: l => match removes id m with Some b => Some (a, b) | None => first_removal id l end
  end.
(** The removal of the HTLC [id] of [s], by the other side. *)
Definition removal (g : log) (s : side) (id : Z) : option (nat * bool) :=
  first_removal id (stamped 0 g.[other s]).

(** The HTLC a message of [s] adds, as it stands now. *)
Definition entry_at (g : log) (s : side) (x : nat * message) : option entry :=
  match x with
  | (a, msg_update_add_htlc id amount hash expiry _ tlvs) =>
    Some (match removal g s id with
          | None => mk_entry id amount expiry hash (seq_point_lock tlvs) (life s (stage g s a)) false false
          | Some (b, fulfilled) =>
            mk_entry id amount expiry hash (seq_point_lock tlvs) (life s (5 + stage g (other s) b))
              fulfilled (negb fulfilled)
          end)
  | _ => None
  end.
Definition entries (g : log) (s : side) : list entry := omap (entry_at g s) (stamped 0 g.[s]).
Definition ledger (g : log) : list entry := entries g LOCAL ++ entries g REMOTE.

(** The ids a stream removes, and those it adds. *)
Definition removed_id (m : message) : option Z :=
  match m with
  | msg_update_fulfill_htlc id _ | msg_update_fail_htlc id _ | msg_update_fail_malformed_htlc id _ _ => Some id
  | _ => None
  end.
Definition added_id (m : message) : option Z := match m with msg_update_add_htlc id _ _ _ _ _ => Some id | _ => None end.

Lemma first_removal_app id l k :
  first_removal id (l ++ k) = match first_removal id l with Some x => Some x | None => first_removal id k end.
Proof. induction l as [|[a m] l IH]; [done|]. cbn. by destruct (removes id m). Qed.
Lemma first_removal_in id l a b : first_removal id l = Some (a, b) -> exists m, (a, m) ∈ l /\ removes id m = Some b.
Proof.
  induction l as [|[x m] l IH]; [done|]. cbn. destruct (removes id m) eqn:E.
  - intros [= <- <-]. exists m. split; [left|done].
  - intros (m' & Hin & Hm)%IH. exists m'. split; [by right|done].
Qed.
Lemma removal_stamp g s id b f : removal g s id = Some (b, f) -> b <= nC g.[other s].
Proof. intros (m & Hin & _)%first_removal_in. apply stamped_bounds in Hin. lia. Qed.

(** A new message of the owner removes nothing of its own. *)
Lemma removal_same g t m id : removal (append t m g) t id = removal g t id.
Proof. unfold removal, append. by destruct t. Qed.
Lemma removal_append g t m id :
  removal (append t m g) (other t) id
  = match removal g (other t) id with
    | Some x => Some x
    | None => (fun b => (nC g.[t], b)) <$> removes id m
    end.
Proof.
  unfold removal, append. destruct t; cbn [sel upd other at_local at_remote];
    rewrite stamped_app, first_removal_app; cbn; (destruct (first_removal _ _); [done|]); by destruct (removes id m).
Qed.

Lemma entries_append g t m s (f : entry -> entry) (new : list entry) :
  (forall a x, (a, x) ∈ stamped 0 g.[s] -> entry_at (append t m g) s (a, x) = f <$> entry_at g s (a, x)) ->
  (s = t -> option_list (entry_at (append t m g) s (nC g.[s], m)) = new) -> (s <> t -> new = []) ->
  entries (append t m g) s = map f (entries g s) ++ new.
Proof.
  intros Hf Hn Ho. unfold entries. assert (E : omap (entry_at (append t m g) s) (stamped 0 g.[s]) = map f (omap (entry_at g s) (stamped 0 g.[s]))).
  { apply omap_map. intros [a x]. apply Hf. }
  destruct (decide (s = t)) as [->|Hne].
  - assert ((append t m g).[t] = g.[t] ++ [m]) as -> by (unfold append; by destruct t).
    by rewrite stamped_app, omap_app, E, <- Hn.
  - assert ((append t m g).[s] = g.[s]) as -> by (unfold append; by destruct s, t). by rewrite E, Ho, app_nil_r.
Qed.

(** *** Messages that say nothing of HTLCs *)
Lemma entries_silent g t m s :
  well_paced g -> is_commit m = false -> is_revoke m = false -> added_id m = None -> (forall id, removes id m = None) ->
  entries (append t m g) s = entries g s.
Proof.
  intros Hg Hc Hr Hi Hd. assert (Hrm : forall id, removal (append t m g) s id = removal g s id).
  { intros id. destruct (decide (s = t)) as [->|Hne]; [apply removal_same|].
    assert (s = other t) as -> by (by destruct s, t). rewrite removal_append, Hd. by destruct (removal g (other t) _). }
  rewrite (entries_append g t m s (fun e => e) []), app_nil_r, map_id; try done.
  - intros a x Hin. unfold entry_at. rewrite option_fmap_id. destruct x; try done. rewrite Hrm.
    destruct (removal g s id) as [[b f]|]; by rewrite stage_update.
  - intros _. by destruct m.
Qed.

(** *** An HTLC is added *)
Lemma stage_new g s : well_paced g -> stage g s (nC g.[s]) = 0.
Proof.
  intros Hg. pose proof (stage_chain g s Hg). unfold stage.
  repeat match goal with |- context [?a <? ?b] => destruct (Nat.ltb_spec a b); cbn [Nat.b2n]; try lia end.
Qed.

Lemma entries_add g t s id amount hash expiry onion tlvs (m := msg_update_add_htlc id amount hash expiry onion tlvs) :
  well_paced g -> removal g t id = None ->
  entries (append t m g) s
  = entries g s ++ if decide (s = t)
                   then [mk_entry id amount expiry hash (seq_point_lock tlvs) (life t 0) false false] else [].
Proof.
  intros Hg Hn. assert (Hrm : forall i, removal (append t m g) s i = removal g s i).
  { intros i. destruct (decide (s = t)) as [->|Hne]; [apply removal_same|].
    assert (s = other t) as -> by (by destruct s, t). rewrite removal_append.
    assert (removes i m = None) as -> by done. by destruct (removal g (other t) i). }
  rewrite (entries_append g t m s (fun e => e) (if decide (s = t)
    then [mk_entry id amount expiry hash (seq_point_lock tlvs) (life t 0) false false] else [])), map_id; try done.
  - intros a x Hin. unfold entry_at. rewrite option_fmap_id. destruct x; try done. rewrite Hrm.
    destruct (removal g s id0) as [[b f]|]; by rewrite stage_update.
  - intros ->. rewrite decide_True by done. unfold entry_at. subst m. cbn beta iota. rewrite Hrm, Hn, stage_update, stage_new by done. done.
  - intros Hne. by rewrite decide_False.
Qed.

(** *** An HTLC is removed *)
Definition removed (s : side) (fulfilled : bool) (e : entry) : entry :=
  mk_entry (e_id e) (e_amount e) (e_expiry e) (e_hash e) (e_lock e) (life s 5) fulfilled (negb fulfilled).

Lemma entry_at_id g s a x e : entry_at g s (a, x) = Some e -> added_id x = Some (e_id e).
Proof. destruct x; try done. cbn. destruct (removal g s id) as [[b f]|]; by intros [= <-]. Qed.

Lemma entries_remove g t m s id f :
  well_paced g -> removes id m = Some f -> removal g (other t) id = None ->
  entries (append t m g) s
  = map (fun e => if decide (s = other t) then if (e_id e =? id)%Z then removed s f e else e else e) (entries g s).
Proof.
  intros Hg Hd Hn. assert (Hc : is_commit m = false /\ is_revoke m = false /\ added_id m = None) by (by destruct m).
  destruct Hc as (Hc & Hr & Hi).
  rewrite (entries_append g t m s (fun e => if decide (s = other t) then if (e_id e =? id)%Z then removed s f e else e else e) []),
    app_nil_r; try done; [|intros _; by destruct m].
  intros a x Hin. destruct (decide (s = other t)) as [->|Hne].
  - unfold entry_at. destruct x; try done. rewrite removal_append.
    destruct (removal g (other t) id0) as [[b f']|] eqn:E.
    + cbn [fmap option_fmap option_map e_id]. destruct (Z.eqb_spec id0 id) as [->|]; [congruence|]. by rewrite stage_update.
    + cbn [fmap option_fmap option_map e_id]. destruct (Z.eqb_spec id0 id) as [->|Hid].
      * rewrite Hd. cbn [fmap option_fmap option_map]. rewrite other_involutive.
        rewrite stage_update, stage_new by done. done.
      * assert (removes id0 m = None) as ->.
        { destruct m; try done; cbn in Hd |- *; (destruct (Z.eqb_spec id1 id); [|done]); subst;
            by destruct (Z.eqb_spec id id0). }
        cbn [fmap option_fmap option_map]. by rewrite stage_update.
  - assert (s = t) as -> by (by destruct s, t). rewrite option_fmap_id. unfold entry_at. destruct x; try done.
    rewrite removal_same. destruct (removal g t id0) as [[b f']|]; by rewrite stage_update.
Qed.

(** *** Commitments and revocations *)

Definition stepped_by (d : dance) (e : entry) : entry :=
  mk_entry (e_id e) (e_amount e) (e_expiry e) (e_hash e) (e_lock e) (cafter (dance_states d) (e_state e))
    (e_fulfilled e) (e_failed e).
Definition commit_by (t : side) : dance := match t with LOCAL => SendCommit | REMOTE => RcvdCommit end.
Definition revoke_by (t : side) : dance := match t with LOCAL => SendRevoke | REMOTE => RcvdRevoke end.

Lemma life_commit s t p :
  p <= 4 ->
  life s (bump (if decide (s = t) then 0 else 2) p) = cafter (dance_states (commit_by t)) (life s p)
  /\ life s (5 + bump (if decide (other s = t) then 0 else 2) p)
     = cafter (dance_states (commit_by t)) (life s (5 + p)).
Proof. intros Hp. do 5 (destruct p as [|p]; [by destruct s, t|]). lia. Qed.
Lemma life_revoke s t p :
  p <= 4 ->
  life s (bump (if decide (s = t) then 3 else 1) p) = cafter (dance_states (revoke_by t)) (life s p)
  /\ life s (5 + bump (if decide (other s = t) then 3 else 1) p)
     = cafter (dance_states (revoke_by t)) (life s (5 + p)).
Proof. intros Hp. do 5 (destruct p as [|p]; [by destruct s, t|]). lia. Qed.

Lemma removal_no_update g t m s id :
  is_commit m || is_revoke m = true -> removal (append t m g) s id = removal g s id.
Proof.
  intros Hm. destruct (decide (s = t)) as [->|Hne]; [apply removal_same|].
  assert (s = other t) as -> by (by destruct s, t). rewrite removal_append.
  assert (removes id m = None) as -> by (by destruct m). by destruct (removal g (other t) _).
Qed.

Lemma entries_commit g t m s :
  well_paced g -> is_commit m = true -> entries (append t m g) s = map (stepped_by (commit_by t)) (entries g s).
Proof.
  intros Hg Hm. rewrite (entries_append g t m s (stepped_by (commit_by t)) []), app_nil_r; try done;
    [|intros _; by destruct m].
  intros a x Hin. apply stamped_bounds in Hin. unfold entry_at. destruct x; try done.
  rewrite removal_no_update by (by rewrite Hm). destruct (removal g s id) as [[b f]|] eqn:E.
  - apply removal_stamp in E. rewrite stage_commit by done. unfold stepped_by. cbn. do 2 f_equal.
    by apply life_commit, stage_le.
  - rewrite stage_commit by (done || lia). unfold stepped_by. cbn. do 2 f_equal. by apply life_commit, stage_le.
Qed.
Lemma entries_revoke g t m s :
  well_paced g -> is_revoke m = true -> nR g.[t] < nC g.[other t] ->
  entries (append t m g) s = map (stepped_by (revoke_by t)) (entries g s).
Proof.
  intros Hg Hm Hn. rewrite (entries_append g t m s (stepped_by (revoke_by t)) []), app_nil_r; try done;
    [|intros _; by destruct m].
  intros a x Hin. unfold entry_at. destruct x; try done.
  rewrite removal_no_update by (by rewrite Hm, orb_true_r). destruct (removal g s id) as [[b f]|] eqn:E;
    rewrite stage_revoke by done; unfold stepped_by; cbn; do 2 f_equal; by apply life_revoke, stage_le.
Qed.

(** ** Feerates and blockheights *)

Definition fee_of (m : message) : option Z := match m with msg_update_fee f => Some f | _ => None end.
Definition height_of (m : message) : option Z := match m with msg_update_blockheight h => Some h | _ => None end.

Section Values.
Context (value : message -> option Z).

Definition values (l : list message) : list (nat * Z) :=
  omap (fun '(a, m) => (fun v => (a, v)) <$> value m) (stamped 0 l).
(** The last value among those with stamps that satisfy [P]. *)
Definition newest (P : nat -> bool) (l : list message) : option Z :=
  last (omap (fun '(a, v) => if P a then Some v else None) (values l)).

Lemma newest_ext P Q l : (forall a, a <= nC l -> P a = Q a) -> newest P l = newest Q l.
Proof.
  intros HPQ. unfold newest. f_equal. apply omap_in_ext. intros [a v] Hin.
  unfold values in Hin. apply list_elem_of_omap in Hin as ([a' m] & Hin & E). destruct (value m); [|done].
  injection E as <- <-. apply stamped_bounds in Hin. by rewrite HPQ by lia.
Qed.

Lemma newest_from_stream P l v : newest P l = Some v -> exists m, m ∈ l /\ value m = Some v.
Proof.
  intros E%last_Some. destruct E as [k E]. assert (Hin : v ∈ omap (fun '(a, v) => if P a then Some v else None) (values l))
    by (rewrite E; set_solver).
  apply list_elem_of_omap in Hin as ([a x] & Hin & Ex). destruct (P a); [|done]. injection Ex as ->.
  unfold values in Hin. apply list_elem_of_omap in Hin as ([a' m] & Hin & Em). destruct (value m) eqn:Ev; [|done].
  injection Em as -> ->. exists m. split; [by eapply stamped_message|done].
Qed.

Lemma newest_append P l m :
  newest P (l ++ [m]) = match value m with Some v => if P (nC l) then Some v else newest P l | None => newest P l end.
Proof.
  unfold newest, values. rewrite stamped_app, omap_app. cbn. destruct (value m) as [v|]; cbn; [|by rewrite app_nil_r].
  rewrite omap_app. cbn. destruct (P (nC l)); [by rewrite last_snoc|by rewrite app_nil_r].
Qed.

(** Stamps only grow along a stream. *)
Lemma values_split (P : nat -> bool) l :
  (forall a b, a <= b -> P b = true -> P a = true) ->
  exists l1 l2, values l = l1 ++ l2 /\ Forall (fun x => P (fst x) = true) l1 /\ Forall (fun x => P (fst x) = false) l2.
Proof.
  intros HP. unfold values. generalize 0. induction l as [|m l IH]; intros n; [by exists [], []|].
  destruct (P n) eqn:En.
  - destruct (IH (if is_commit m then S n else n)) as (l1 & l2 & E & F1 & F2).
    cbn. destruct (value m) as [v|]; cbn; [exists ((n, v) :: l1), l2|exists l1, l2]; rewrite E; split_and!; try done.
    by constructor.
  - exists [], (omap (fun '(a, m) => (fun v => (a, v)) <$> value m) (stamped n (m :: l))). split_and!; [done|done|].
    apply Forall_forall. intros [a v] Hin. apply list_elem_of_omap in Hin as ([a' m'] & Hin & E).
    destruct (value m'); [|done]. injection E as -> ->. apply stamped_bounds in Hin. cbn.
    destruct (P a) eqn:Ea; [|done]. rewrite (HP n a) in En; [done|lia|done].
Qed.

(** The last of two kinds of which one comes before the other. *)
Lemma newest_or (P Q : nat -> bool) (T : nat -> bool) l :
  (forall a b, a <= b -> T b = true -> T a = true) ->
  (forall a, P a = true -> T a = false) -> (forall a, Q a = true -> T a = true) ->
  newest (fun a => P a || Q a) l = match newest P l with Some v => Some v | None => newest Q l end.
Proof.
  intros HT HP HQ. unfold newest. destruct (values_split T l HT) as (l1 & l2 & -> & F1 & F2).
  assert (E1 : forall R k, Forall (fun x : nat * Z => R (fst x) = false) k ->
    omap (fun '(a, v) => if (R a : bool) then Some v else None) k = []).
  { intros R k F. induction F as [|[a v] k Ha F IH]; [done|]. cbn in *. by rewrite Ha. }
  rewrite !omap_app, (E1 P l1), (E1 Q l2), app_nil_r.
  2: { eapply Forall_impl; [exact F2|]. intros [a v] Ha. cbn in *. destruct (Q a) eqn:E; [|done]. by rewrite HQ in Ha. }
  2: { eapply Forall_impl; [exact F1|]. intros [a v] Ha. cbn in *. destruct (P a) eqn:E; [|done]. by rewrite HP in Ha. }
  assert (E2 : forall (R S T' : nat -> bool) (k : list (nat * Z)), Forall (fun x => T' (fst x) = true) k ->
    (forall a, T' a = true -> R a = S a) ->
    omap (fun '(a, v) => if R a then Some v else None) k = omap (fun '(a, v) => if S a then Some v else None) k).
  { intros R S T' k F HR. induction F as [|[a v] k Ha F IH]; [done|]. cbn in *. by rewrite HR, IH. }
  rewrite (E2 _ Q T l1 F1), (E2 _ P (fun a => negb (T a)) l2).
  - cbn. rewrite last_app. by destruct (last _).
  - eapply Forall_impl; [exact F2|]. intros [a v] Ha. cbn in *. by rewrite Ha.
  - intros a Ha. apply negb_true_iff in Ha. destruct (Q a) eqn:E; [by rewrite HQ in Ha|apply orb_false_r].
  - intros a Ha. destruct (P a) eqn:E; [by rewrite HP in Ha|done].
Qed.

Lemma stage_antitone g s a b : a <= b -> stage g s b <= stage g s a.
Proof.
  intros Hab. unfold stage. repeat match goal with |- context [?x <? ?y] => destruct (Nat.ltb_spec x y) end; cbn; lia.
Qed.

(** The array of common/fee_states.c holds, for each stage, the last value
    there, and the one the channel was opened with behind them all. *)
Definition at_stage (g : log) (s : side) (p a : nat) : bool := stage g s a =? p.
Definition expected (g : log) (s : side) (v0 : Z) (p : nat) : option Z :=
  let x := newest (at_stage g s p) g.[s] in if p =? 4 then Some (default v0 x) else x.
Record array_follows (g : log) (s : side) (v0 : Z) (arr : state_array) : Prop := {
  af_values : forall p, p <= 4 -> arr (life s p) = expected g s v0 p;
  af_other : forall p, p <= 4 -> arr (life (other s) p) = None;
  af_stream : forall m, m ∈ g.[other s] -> value m = None;
}.

Lemma expected_ext g g' s v0 p :
  newest (at_stage g' s p) g'.[s] = newest (at_stage g s p) g.[s] -> expected g' s v0 p = expected g s v0 p.
Proof. unfold expected. by intros ->. Qed.

Lemma no_values g t m s :
  value m = None \/ t = other s -> (forall x, x ∈ g.[s] -> value x = None) -> forall x, x ∈ (append t m g).[s] -> value x = None.
Proof.
  intros Hm Hs x. unfold append. destruct Hm as [Hm| ->].
  - destruct s, t; cbn [sel upd at_local at_remote] in *; rewrite ?elem_of_app, ?list_elem_of_singleton; naive_solver.
  - destruct s; cbn [sel upd other at_local at_remote] in *; apply Hs.
Qed.

Lemma newest_other g t m s P :
  value m = None -> newest P (append t m g).[s] = newest P g.[s].
Proof.
  intros Hv. unfold append. destruct s, t; cbn [sel upd at_local at_remote]; rewrite ?newest_append, ?Hv; done.
Qed.

Lemma expected_silent g t m s v0 p :
  well_paced g -> is_commit m = false -> is_revoke m = false -> value m = None ->
  expected (append t m g) s v0 p = expected g s v0 p.
Proof.
  intros Hg Hc Hr Hv. apply expected_ext. rewrite newest_other by done. apply newest_ext. intros a _.
  unfold at_stage. by rewrite stage_update.
Qed.

Lemma expected_update g s m v v0 p :
  well_paced g -> is_commit m = false -> is_revoke m = false -> value m = Some v ->
  expected (append s m g) s v0 p = if p =? 0 then Some v else expected g s v0 p.
Proof.
  intros Hg Hc Hr Hv. unfold expected.
  assert (E : newest (at_stage (append s m g) s p) (append s m g).[s] = if p =? 0 then Some v else newest (at_stage g s p) g.[s]).
  { assert ((append s m g).[s] = g.[s] ++ [m]) as -> by (unfold append; by destruct s).
    rewrite newest_append, Hv. unfold at_stage at 1. rewrite stage_update, stage_new, Nat.eqb_sym by done.
    destruct (p =? 0); [done|]. apply newest_ext. intros a _. unfold at_stage. by rewrite stage_update. }
  rewrite E. by destruct (Nat.eqb_spec p 0) as [->|].
Qed.

(** Those at stage [k] move on. *)
Lemma expected_bump g g' s k v0 p :
  k < 4 -> (forall P, newest P g'.[s] = newest P g.[s]) ->
  (forall a, a <= nC g.[s] -> stage g' s a = bump k (stage g s a)) ->
  expected g' s v0 p
  = if p =? k then None
    else if p =? S k then match newest (at_stage g s k) g.[s] with Some v => Some v | None => expected g s v0 p end
    else expected g s v0 p.
Proof.
  intros Hk Hn Hst. unfold expected. rewrite Hn.
  destruct (Nat.eqb_spec p k) as [->|Hpk]; [|destruct (Nat.eqb_spec p (S k)) as [->|Hps]].
  - destruct (Nat.eqb_spec k 4); [lia|]. rewrite (newest_ext _ (fun _ => false)).
    + unfold newest. by induction (values g.[s]) as [|[? ?] l IH].
    + intros a Ha. unfold at_stage. rewrite Hst by done. unfold bump.
      destruct (Nat.eqb_spec (stage g s a) k); apply Nat.eqb_neq; lia.
  - rewrite (newest_ext _ (fun a => at_stage g s k a || at_stage g s (S k) a)).
    + rewrite (newest_or _ _ (fun a => S k <=? stage g s a)).
      * by destruct (newest (at_stage g s k) g.[s]), (_ =? _).
      * intros a b Hab. rewrite !Nat.leb_le. pose proof (stage_antitone g s a b Hab). lia.
      * intros a. unfold at_stage. rewrite Nat.eqb_eq, Nat.leb_gt. lia.
      * intros a. unfold at_stage. rewrite Nat.eqb_eq, Nat.leb_le. lia.
    + intros a Ha. unfold at_stage. rewrite Hst by done. unfold bump.
      destruct (Nat.eqb_spec (stage g s a) k) as [->|]; cbn [orb]; [apply Nat.eqb_refl|done].
  - rewrite (newest_ext (at_stage g' s p) (at_stage g s p)); [done|].
    intros a Ha. unfold at_stage. rewrite Hst by done. unfold bump.
    destruct (Nat.eqb_spec (stage g s a) k) as [->|]; [|done].
    rewrite (proj2 (Nat.eqb_neq _ _)), (proj2 (Nat.eqb_neq _ _)); lia.
Qed.

(** What is in force from stage [q] on. *)
Lemma newest_from g s q :
  newest (fun a => q <=? stage g s a) g.[s]
  = match newest (at_stage g s q) g.[s] with
    | Some v => Some v
    | None => newest (fun a => S q <=? stage g s a) g.[s]
    end.
Proof.
  rewrite <- (newest_or (at_stage g s q) (fun a => S q <=? stage g s a) (fun a => S q <=? stage g s a)).
  - apply newest_ext. intros a _. unfold at_stage.
    destruct (Nat.leb_spec q (stage g s a)), (Nat.eqb_spec (stage g s a) q), (Nat.leb_spec (S q) (stage g s a)); done || lia.
  - intros a b Hab. rewrite !Nat.leb_le. pose proof (stage_antitone g s a b Hab). lia.
  - intros a. unfold at_stage. rewrite Nat.eqb_eq, Nat.leb_gt. lia.
  - done.
Qed.

Lemma first_in_force g s v v0 arr :
  well_paced g -> array_follows g s v0 arr ->
  first_committed arr v (fee_range s) = Ret (default v0 (newest (fun a => a <? in_force g v s) g.[s])).
Proof.
  intros Hg [Ha _ _]. rewrite (newest_ext _ (fun a => (if decide (v = s) then 3 else 1) <=? stage g s a)).
  2: { intros a _. pose proof (in_force_stage g v s a Hg) as H.
       destruct (Nat.ltb_spec a (in_force g v s)), (Nat.leb_spec (if decide (v = s) then 3 else 1) (stage g s a)); done || lia. }
  assert (fee_range s = [life s 0; life s 1; life s 2; life s 3; life s 4]) as -> by (by destruct s).
  cbn [first_committed]. rewrite !Ha by lia. unfold expected. cbn [Nat.eqb].
  assert (Hc : forall p, p <= 4 -> state_has (life s p) (HTLC_FLAG v HTLC_F_COMMITTED) = ((if decide (v = s) then 3 else 1) <=? p)).
  { intros p Hp. do 5 (destruct p as [|p]; [by destruct s, v|]). lia. }
  rewrite !Hc by lia. assert (E5 : newest (fun a => 5 <=? stage g s a) g.[s] = None).
  { rewrite (newest_ext _ (fun _ => false)).
    - unfold newest. by induction (values g.[s]) as [|[? ?] l IH].
    - intros a _. apply Nat.leb_gt. pose proof (stage_le g s a). lia. }
  destruct (decide (v = s)).
  - rewrite (newest_from g s 3), (newest_from g s 4), E5. cbn [Nat.leb negb]. by repeat case_match.
  - rewrite (newest_from g s 1), (newest_from g s 2), (newest_from g s 3), (newest_from g s 4), E5. cbn [Nat.leb negb].
    by repeat case_match.
Qed.
Lemma newest_app_below P l k : (forall a, nC l <= a -> P a = false) -> newest P (l ++ k) = newest P l.
Proof.
  intros HP. unfold newest, values. rewrite stamped_app, !omap_app. cbn [Nat.add].
  assert (omap (fun '(a, v) => if P a then Some v else None)
    (omap (fun '(a, m) => (fun v => (a, v)) <$> value m) (stamped (nC l) k)) = []) as ->; [|by rewrite app_nil_r].
  apply list_nil_omap.
  intros [a v] Hin. apply list_elem_of_omap in Hin as ([a' m] & Hin & E). destruct (value m); [|done].
  injection E as -> ->. apply stamped_bounds in Hin. by rewrite HP by lia.
Qed.
End Values.

(** ** What a commitment shows *)

(** Updates are removed only once both sides are committed to them for good. *)
Definition orderly (g : log) : Prop :=
  forall s a m id, (a, m) ∈ stamped 0 g.[s] -> added_id m = Some id -> removal g s id <> None -> stage g s a = 4.

(** An HTLC in the eyes of the side whose commitment it is; [seen_gone] if it
    is no more there, with or without its preimage. *)
Record seen := mk_seen {
  seen_own : bool;
  seen_amount : amount_msat_t;
  seen_expiry : Z;
  seen_hash : list Z;
  seen_lock : option (list Z);
  seen_gone : option bool;
}.
Definition gone_in (g : log) (v s : side) (id : Z) : option bool :=
  match removal g s id with
  | Some (b, f) => if b <? in_force g v (other s) then Some f else None
  | None => None
  end.
Definition seen_at (g : log) (v s : side) (x : nat * message) : option seen :=
  match x with
  | (a, msg_update_add_htlc id amount hash expiry _ tlvs) =>
    if a <? in_force g v s then Some (mk_seen (bool_decide (s = v)) amount expiry hash (seq_point_lock tlvs) (gone_in g v s id)) else None
  | _ => None
  end.
Definition seen_in (g : log) (v s : side) : list seen := omap (seen_at g v s) (stamped 0 g.[s]).

Definition e_has (e : entry) (v : side) (f : Z) : bool := state_has (e_state e) (HTLC_FLAG v f).
Definition e_owner (e : entry) : side := htlc_state_owner (e_state e).

Lemma life_flags s v p :
  p <= 9 ->
  state_has (life s p) (HTLC_FLAG v HTLC_F_WAS_COMMITTED) = ((if decide (v = s) then 3 else 1) <=? p)
  /\ state_has (life s p) (HTLC_FLAG v HTLC_F_COMMITTED)
     = ((if decide (v = s) then 3 else 1) <=? p) && (p <? 5 + (if decide (v = other s) then 3 else 1))
  /\ htlc_state_owner (life s p) = s.
Proof. intros Hp. do 10 (destruct p as [|p]; [by destruct s, v|]). lia. Qed.

(** How an entry and what is seen of it correspond. *)
Lemma entry_seen g v s a m e :
  well_paced g -> orderly g -> (a, m) ∈ stamped 0 g.[s] -> entry_at g s (a, m) = Some e ->
  e_owner e = s /\ e_has e v HTLC_F_WAS_COMMITTED = (a <? in_force g v s)
  /\ match seen_at g v s (a, m) with
     | None => e_has e v HTLC_F_COMMITTED = false
     | Some x => seen_own x = bool_decide (s = v) /\ seen_amount x = e_amount e /\ seen_expiry x = e_expiry e
                 /\ seen_hash x = e_hash e /\ seen_lock x = e_lock e
                 /\ (e_has e v HTLC_F_COMMITTED = match seen_gone x with None => true | Some _ => false end)
                 /\ forall f, seen_gone x = Some f -> e_fulfilled e = f
     end.
Proof.
  intros Hg Ho Hin E. pose proof (stage_le g s a). pose proof (in_force_stage g v s a Hg) as Hf.
  destruct m as [| |id amount hash expiry onion tlvs| | | | | | | | | | |]; try done.
  unfold entry_at in E. apply Some_inj in E as <-. unfold seen_at, gone_in, e_has, e_owner.
  destruct (removal g s id) as [[b f]|] eqn:Er.
  - assert (Hs : stage g s a = 4) by (eapply Ho; [exact Hin|done|by rewrite Er]). rewrite Hs in Hf.
    pose proof (stage_le g (other s) b). cbn [e_state]. destruct (life_flags s v (5 + stage g (other s) b)) as (-> & -> & ->); [lia|].
    pose proof (in_force_stage g v (other s) b Hg) as Hb.
    assert ((a <? in_force g v s) = true) as -> by (apply Nat.ltb_lt, Hf; destruct (decide (v = s)); lia).
    split; [done|]. split; [apply Nat.leb_le; destruct (decide (v = s)); lia|]. cbn [e_state e_fulfilled seen_own seen_amount seen_expiry seen_hash seen_lock seen_gone
      e_amount e_expiry e_hash e_lock]. split_and!; try done.
    + rewrite (proj2 (Nat.leb_le _ _)) by (destruct (decide (v = s)); lia). cbn [andb].
      destruct (Nat.ltb_spec b (in_force g v (other s))) as [Hlt|Hge].
      * apply Nat.ltb_ge. apply Hb in Hlt. lia.
      * apply Nat.ltb_lt. destruct (Nat.lt_ge_cases (stage g (other s) b) (if decide (v = other s) then 3 else 1)); [lia|].
        exfalso. apply Hb in H1. lia.
    + destruct (b <? _); [|done]. by intros f' [= ->].
  - cbn [e_state]. destruct (life_flags s v (stage g s a)) as (-> & -> & ->); [lia|].
    split; [done|]. split.
    + destruct (Nat.ltb_spec a (in_force g v s)) as [Hlt|Hge]; [apply Nat.leb_le, Hf, Hlt|].
      apply Nat.leb_gt. destruct (Nat.lt_ge_cases (stage g s a) (if decide (v = s) then 3 else 1)) as [|Hx]; [done|].
      apply Hf in Hx. lia.
    + destruct (Nat.ltb_spec a (in_force g v s)) as [Hlt|Hge].
      * cbn. split_and!; try done. apply Hf in Hlt. rewrite (proj2 (Nat.leb_le _ _) Hlt). cbn.
        apply Nat.leb_le. destruct (decide (v = other s)); lia.
      * destruct (Nat.leb_spec (if decide (v = s) then 3 else 1) (stage g s a)) as [Hx|]; [|done]. apply Hf in Hx. lia.
Qed.

(** What an HTLC did to the balance of [t] in the commitments of [v]. *)
Definition e_adj (v t : side) (e : entry) : Z := (
  let amount := millisatoshis (e_amount e) in
  let payee := if e_fulfilled e then other (e_owner e) else e_owner e in
  if e_has e v HTLC_F_WAS_COMMITTED
  then (if bool_decide (e_owner e = t) then - amount else 0)
       + (if e_has e v HTLC_F_COMMITTED then 0 else if bool_decide (t = payee) then amount else 0)
  else 0)%Z.
Definition seen_adj (t_own : bool) (x : seen) : Z := (
  let amount := millisatoshis (seen_amount x) in
  (if Bool.eqb (seen_own x) t_own then - amount else 0)
  + match seen_gone x with
    | None => 0
    | Some f => if Bool.eqb t_own (if f then negb (seen_own x) else seen_own x) then amount else 0
    end)%Z.

(** What a commitment of [v] has of it. *)
Definition e_shown (v : side) (e : entry) : option (bool * amount_msat_t * Z * list Z * option (list Z)) :=
  if e_has e v HTLC_F_COMMITTED then Some (bool_decide (e_owner e = v), e_amount e, e_expiry e, e_hash e, e_lock e) else None.
Definition seen_shown (x : seen) : option (bool * amount_msat_t * Z * list Z * option (list Z)) :=
  match seen_gone x with
  | None => Some (seen_own x, seen_amount x, seen_expiry x, seen_hash x, seen_lock x)
  | Some _ => None
  end.

Lemma entry_seen_adj g v s a m e t :
  well_paced g -> orderly g -> (a, m) ∈ stamped 0 g.[s] -> entry_at g s (a, m) = Some e ->
  e_adj v t e = match seen_at g v s (a, m) with Some x => seen_adj (bool_decide (t = v)) x | None => 0%Z end
  /\ e_shown v e = match seen_at g v s (a, m) with Some x => seen_shown x | None => None end.
Proof.
  intros Hg Ho Hin E. destruct (entry_seen g v s a m e Hg Ho Hin E) as (Hs & Hw & Hx).
  unfold e_adj, e_shown. rewrite Hw, Hs. destruct (seen_at g v s (a, m)) as [x|] eqn:Ex.
  - destruct Hx as (H1 & H2 & H3 & H4 & Hk & H5 & H6). assert ((a <? in_force g v s) = true) as ->.
    { destruct m; try done. unfold seen_at in Ex. by destruct (_ <? _). }
    unfold seen_adj, seen_shown. rewrite H1, H2, H3, H4, Hk, H5.
    destruct (seen_gone x) as [f|] eqn:Eg; [rewrite (H6 f eq_refl)|]; (split; [|done]).
    + by destruct s, t, v, f.
    + by destruct s, t, v.
  - rewrite Hx. destruct m; try done. unfold seen_at in Ex. by destruct (_ <? _).
Qed.

Lemma entries_seen g v s t :
  well_paced g -> orderly g ->
  sum_with (e_adj v t) (entries g s) = sum_with (seen_adj (bool_decide (t = v))) (seen_in g v s)
  /\ omap (e_shown v) (entries g s) = omap seen_shown (seen_in g v s).
Proof.
  intros Hg Ho. unfold entries, seen_in. pose proof (entry_seen_adj g v s) as He.
  assert (Hnone : forall a m, entry_at g s (a, m) = None -> seen_at g v s (a, m) = None) by (intros a m; by destruct m).
  assert (Hin : forall x, x ∈ stamped 0 g.[s] -> x ∈ stamped 0 g.[s]) by done. revert Hin.
  generalize (stamped 0 g.[s]) at 1 3 4 5 6. intros l Hl. induction l as [|[a m] l IH]; [done|].
  destruct IH as [IH1 IH2]; [intros y Hy; apply Hl; by right|].
  rewrite (omap_step (entry_at g s)), (omap_step (seen_at g v s)).
  destruct (entry_at g s (a, m)) as [e|] eqn:E; [|by rewrite Hnone].
  destruct (He a m e t Hg Ho (Hl _ ltac:(left)) E) as [H1 H2]. rewrite omap_step, H2.
  destruct (seen_at g v s (a, m)) as [x|]; [rewrite omap_step|]; rewrite IH2; unfold sum_with in *; cbn [foldr];
    rewrite IH1, H1; [done|]. split; [lia|done].
Qed.

(** Two sides that have the same messages see the same commitment of the side
    [LOCAL] of [g'], whatever it has sent since. *)
Lemma seen_mirror (g g' : log) z s :
  well_paced g -> g.[LOCAL] = g'.[REMOTE] -> g'.[LOCAL] = g.[REMOTE] ++ z ->
  seen_in g REMOTE s = seen_in g' LOCAL (other s).
Proof.
  intros Hg E1 E2. pose proof (Hg LOCAL) as Hp. pose proof (acks_revokes (nC g.[LOCAL]) g.[LOCAL]) as Ha. cbn [other] in Hp.
  assert (Hf1 : in_force g REMOTE LOCAL = in_force g' LOCAL REMOTE) by (unfold in_force; rewrite !decide_False by done; by rewrite E1).
  assert (Hf2 : in_force g REMOTE REMOTE = in_force g' LOCAL LOCAL) by (unfold in_force; rewrite !decide_True by done; cbn [other]; by rewrite E1).
  assert (Hle : in_force g REMOTE REMOTE <= nC g.[REMOTE]) by (unfold in_force; rewrite decide_True by done; cbn [other]; lia).
  assert (Hgone : forall u id, gone_in g REMOTE u id = gone_in g' LOCAL (other u) id).
  { intros u id. unfold gone_in, removal. destruct u; cbn [other].
    - rewrite E2, stamped_app, first_removal_app, Hf2 in *. cbn [Nat.add].
      destruct (first_removal id (stamped 0 g.[REMOTE])) as [[b f]|]; [done|].
      destruct (first_removal id (stamped (nC g.[REMOTE]) z)) as [[b f]|] eqn:Er; [|done].
      apply first_removal_in in Er as (m & Hin & _). apply stamped_bounds in Hin.
      by rewrite (proj2 (Nat.ltb_ge _ _)) by lia.
    - by rewrite E1, Hf1. }
  assert (Hat : forall u x, seen_at g REMOTE u x = seen_at g' LOCAL (other u) x).
  { intros u [a m]. unfold seen_at. destruct m; try done. rewrite Hgone.
    destruct u; cbn [other]; rewrite ?Hf1, ?Hf2; done. }
  unfold seen_in. destruct s; cbn [other].
  - rewrite <- E1. apply omap_in_ext. intros x _. apply Hat.
  - rewrite E2, stamped_app, omap_app. cbn [Nat.add].
    assert (omap (seen_at g' LOCAL LOCAL) (stamped (nC g.[REMOTE]) z) = []) as ->.
    { apply list_nil_omap. intros [a m] Hin. apply stamped_bounds in Hin. unfold seen_at. destruct m; try done.
      rewrite (proj2 (Nat.ltb_ge _ _)); [done|]. rewrite <- Hf2. lia. }
    rewrite app_nil_r. apply omap_in_ext. intros x _. apply Hat.
Qed.

(** ** Streams of two sides that keep to the protocol *)

Record coherent (g : log) : Prop := {
  co_paced : well_paced g;
  co_orderly : orderly g;
  co_unique : forall s, NoDup (omap added_id g.[s]);
  co_known : forall s id, removal g s id <> None -> id ∈ omap added_id g.[s];
  co_once : forall s, NoDup (omap removed_id g.[s]);
}.

Lemma removes_id id (m : message) : removed_id m = Some id <-> removes id m <> None.
Proof.
  destruct m; try done; cbn; (split; [intros [= ->]; by rewrite Z.eqb_refl|]);
    (destruct (Z.eqb_spec id0 id); [by intros _; f_equal|done]).
Qed.
Lemma append_removed g t m s :
  omap removed_id (append t m g).[s] = omap removed_id g.[s] ++ if decide (s = t) then option_list (removed_id m) else [].
Proof.
  unfold append. destruct s, t; cbn [sel upd at_local at_remote]; rewrite ?omap_app; cbn; rewrite ?app_nil_r; try done;
    f_equal; by destruct (removed_id m).
Qed.

(** The one removal of an HTLC. *)
Lemma first_removal_once id l : forall n a m,
  NoDup (omap removed_id l) -> (a, m) ∈ stamped n l -> removed_id m = Some id ->
  exists f, first_removal id (stamped n l) = Some (a, f).
Proof.
  induction l as [|x l IH]; intros n a m Hn Hin Hm; cbn [stamped] in *; [by apply elem_of_nil in Hin|].
  rewrite omap_step in Hn. cbn [first_removal]. apply elem_of_cons in Hin as [[= -> ->]|Hin].
  - destruct (removes id x) eqn:E; [by eexists|]. exfalso. by apply (removes_id id x) in Hm.
  - destruct (removes id x) eqn:E; [|destruct (removed_id x); [apply NoDup_cons in Hn as [_ Hn]|]; by eapply IH].
    assert (removed_id x = Some id) as Ex by (apply removes_id; by rewrite E). rewrite Ex in Hn.
    apply NoDup_cons in Hn as [Hn _]. exfalso. apply Hn. apply list_elem_of_omap. exists m. split; [|done].
    by eapply stamped_message.
Qed.
Lemma first_removal_none id n l : first_removal id (stamped n l) = None -> id ∉ omap removed_id l.
Proof.
  revert n. induction l as [|x l IH]; intros n E Hin; [by apply elem_of_nil in Hin|]. cbn [stamped first_removal] in E.
  rewrite omap_step in Hin. destruct (removes id x) eqn:Er; [done|].
  destruct (removed_id x) as [i|] eqn:Ei; [|by eapply IH].
  apply elem_of_cons in Hin as [->|Hin]; [|by eapply IH]. apply removes_id in Ei. done.
Qed.

Lemma entries_ids g s : map e_id (entries g s) = omap added_id g.[s].
Proof.
  unfold entries. generalize 0. induction (g.[s]) as [|m l IH]; intros n; [done|]. cbn [stamped].
  rewrite !omap_step. destruct (entry_at g s (n, m)) as [e|] eqn:E.
  - rewrite (entry_at_id _ _ _ _ _ E). cbn [map]. by rewrite IH.
  - assert (added_id m = None) as -> by (by destruct m). apply IH.
Qed.

Lemma append_ids g t m s :
  omap added_id (append t m g).[s] = omap added_id g.[s] ++ if decide (s = t) then option_list (added_id m) else [].
Proof.
  unfold append. destruct s, t; cbn [sel upd at_local at_remote]; rewrite ?omap_app; cbn; rewrite ?app_nil_r; try done;
    f_equal; by destruct (added_id m).
Qed.

Lemma stamped_append g t m s x :
  x ∈ stamped 0 (append t m g).[s] -> x ∈ stamped 0 g.[s] \/ s = t /\ x = (nC g.[s], m).
Proof.
  unfold append. destruct s, t; cbn [sel upd at_local at_remote]; rewrite ?stamped_app, ?elem_of_app; try (by left);
    intros [Hx|Hx]; try (by left); right; (split; [done|]); by apply list_elem_of_singleton in Hx.
Qed.

(** A message that is no removal keeps what was removed. *)
Lemma removal_kept g t m s id :
  (forall i, removes i m = None) -> removal (append t m g) s id = removal g s id.
Proof.
  intros Hm. destruct (decide (s = t)) as [->|Hne]; [apply removal_same|].
  assert (s = other t) as -> by (by destruct s, t). rewrite removal_append, Hm. by destruct (removal g (other t) id).
Qed.

Lemma coherent_keep g t m :
  coherent g -> well_paced (append t m g) -> (forall i, removes i m = None) ->
  (forall i, added_id m = Some i -> i ∉ omap added_id g.[t]) ->
  (forall s a, a <= nC g.[s] -> stage g s a = 4 -> stage (append t m g) s a = 4) -> coherent (append t m g).
Proof.
  intros [Hp Ho Hu Hk Hr1] Hp' Hd Hi Hs. split; [done|..].
  - intros s a x id Hin Hx Hr. rewrite removal_kept in Hr by done. apply stamped_append in Hin as [Hin|[-> [= -> ->]]].
    + pose proof (stamped_bounds _ _ _ _ Hin). apply Hs; [lia|]. by eapply Ho.
    + exfalso. apply Hk in Hr. by eapply Hi.
  - intros s. rewrite append_ids. destruct (decide (s = t)) as [->|]; [|by rewrite app_nil_r].
    apply NoDup_app. split; [done|]. destruct (added_id m) as [i|]; cbn; [|split; [set_solver|constructor]].
    split; [|apply NoDup_singleton]. intros x Hx ->%list_elem_of_singleton. by eapply Hi.
  - intros s id Hr. rewrite removal_kept in Hr by done. rewrite append_ids. apply elem_of_app. left. by apply Hk.
  - intros s. rewrite append_removed. assert (removed_id m = None) as ->; [|case_decide; by rewrite app_nil_r].
    destruct (removed_id m) as [i|] eqn:E; [|done]. apply removes_id in E. by rewrite Hd in E.
Qed.

Lemma coherent_update g t m :
  coherent g -> is_commit m = false -> is_revoke m = false -> (forall i, removes i m = None) ->
  (forall i, added_id m = Some i -> i ∉ omap added_id g.[t]) -> coherent (append t m g).
Proof.
  intros Hg Hc Hr Hd Hi. apply coherent_keep; try done; [by apply well_paced_update; [..|apply Hg]|].
  intros s a _. rewrite stage_update by (done || apply Hg). done.
Qed.

Lemma coherent_remove g t m id f :
  coherent g -> removes id m = Some f -> removal g (other t) id = None -> id ∈ omap added_id g.[other t] ->
  (forall a x, (a, x) ∈ stamped 0 g.[other t] -> added_id x = Some id -> stage g (other t) a = 4) ->
  coherent (append t m g).
Proof.
  intros [Hp Ho Hu Hk Hr1] Hd Hn Hin Hs. assert (Hc : is_commit m = false /\ is_revoke m = false /\ added_id m = None) by (by destruct m).
  destruct Hc as (Hc & Hr & Hi).
  assert (Hrm : forall s i, removal (append t m g) s i <> None -> removal g s i <> None \/ s = other t /\ i = id).
  { intros s i. destruct (decide (s = t)) as [->|Hne]; [rewrite removal_same; by left|].
    assert (s = other t) as -> by (by destruct s, t). rewrite removal_append.
    destruct (removal g (other t) i); [by left|]. destruct (removes i m) eqn:E; [|done]. intros _. right. split; [done|].
    destruct m; try done; cbn in E, Hd; (destruct (Z.eqb_spec id0 id); [|done]); (destruct (Z.eqb_spec id0 i); [|done]); congruence. }
  split.
  - by apply well_paced_update.
  - intros s a x i Hx Hxi Hr'. rewrite stage_update by done. apply stamped_append in Hx as [Hx|[-> [= -> ->]]]; [|congruence].
    apply Hrm in Hr' as [Hr'|[-> ->]]; [by eapply Ho|by eapply Hs].
  - intros s. rewrite append_ids, Hi. case_decide; by rewrite app_nil_r.
  - intros s i Hr'. rewrite append_ids. apply elem_of_app. left. apply Hrm in Hr' as [Hr'|[-> ->]]; [by apply Hk|done].
  - intros s. rewrite append_removed. destruct (decide (s = t)) as [->|]; [|by rewrite app_nil_r].
    assert (removed_id m = Some id) as -> by (apply removes_id; by rewrite Hd).
    unfold removal in Hn. rewrite other_involutive in Hn. apply first_removal_none in Hn.
    apply NoDup_app. split; [done|]. split; [|apply NoDup_singleton]. intros x Hx ->%list_elem_of_singleton. done.
Qed.

(** A commitment or a revocation of [t], as the step of [LOCAL] it is. *)
Definition dances (g : log) (t : side) (m : message) (d : dance) : Prop :=
  d = commit_by t /\ is_commit m = true /\ nC g.[t] = nR g.[other t]
  \/ d = revoke_by t /\ is_revoke m = true /\ nR g.[t] < nC g.[other t].

(** The stage an update of [s] leaves with that step. *)
Definition leaves (d : dance) (s : side) : nat :=
  match d, s with
  | SendCommit, LOCAL | RcvdCommit, REMOTE => 0
  | SendCommit, REMOTE | RcvdCommit, LOCAL => 2
  | SendRevoke, LOCAL | RcvdRevoke, REMOTE => 3
  | SendRevoke, REMOTE | RcvdRevoke, LOCAL => 1
  end.

Lemma dances_stage g t m d s a :
  well_paced g -> dances g t m d -> a <= nC g.[s] -> stage (append t m g) s a = bump (leaves d s) (stage g s a).
Proof.
  intros Hg [(-> & Hm & Hn)|(-> & Hm & Hn)] Ha; [rewrite stage_commit by done|rewrite stage_revoke by done];
    by destruct s, t.
Qed.
Lemma dances_entries g t m d s :
  well_paced g -> dances g t m d -> entries (append t m g) s = map (stepped_by d) (entries g s).
Proof. intros Hg [(-> & Hm & Hn)|(-> & Hm & Hn)]; [by apply entries_commit|by apply entries_revoke]. Qed.
Lemma dances_plain g t m d : dances g t m d -> added_id m = None /\ (forall i, removes i m = None) /\ fee_of m = None /\ height_of m = None.
Proof. intros [(_ & Hm & _)|(_ & Hm & _)]; by destruct m. Qed.

Lemma coherent_dance g t m d : coherent g -> dances g t m d -> coherent (append t m g).
Proof.
  intros Hg Hd. pose proof (dances_plain _ _ _ _ Hd) as (Hi & Hr & _). apply coherent_keep; try done.
  - destruct Hd as [(_ & Hm & Hn)|(_ & Hm & Hn)]; [by apply well_paced_commit; [..|apply Hg]|by apply well_paced_revoke; [..|apply Hg]].
  - intros i. by rewrite Hi.
  - intros s a Ha Hs. rewrite (dances_stage g t m d) by (done || apply Hg). rewrite Hs. unfold bump.
    destruct (Nat.eqb_spec 4 (leaves d s)) as [E|]; [|done]. by destruct d, s.
Qed.
End Ledger.
