(* ===== verification/Follow.v ===== *)
(** * The channel follows its messages

    The channel of channeld/full_channel.c is a table that changes with each
    message.  Here it is what the messages say it is: the table holds the HTLCs
    of the [ledger] of the two streams that are not done, the balances are those
    of the start with what the HTLCs of the ledger moved, and the arrays of
    common/fee_states.c and common/blockheight_states.c have the updates of the
    stream of the opener.  Every operation of the channel, with the message it
    goes with, keeps it so.  Two channels that follow the same streams, each
    from its own side, mirror each other. *)

From stdpp Require Import list functions.
From S2P Require Import Prelude Chainparams Amount HtlcState FeeStates CommitFee Features ChannelState Tx Channel CommitTx PeerState Peer CommitAgree CommitMirror ChannelInv ChannelSteps History Solvency Progress PeerSteps PeerFacts Ledger.

(** What an entry of the ledger has of an HTLC. *)
Definition entry_of (h : htlc) : entry :=
  mk_entry (h_id h) (h_amount h) (h_expiry h) (h_rhash h) (h_lock_point h) (h_state h) (has_r h)
    (match h_failed h with Some _ => true | None => false end).
Definition alive (e : entry) : bool := negb (htlc_state_is_dead (e_state e)).

(** What never changes. *)
Definition fixed (c : channel) :=
  (opener c, (sides_map conf_dust_limit (config c), sides_map to_self_delay (config c)), lease_expiry c,
   commitment_number_obscurer c, channel_asset c, chan_type c, sym_lanes c,
   (ChannelState.funding c, ChannelState.funding_sats c)).

Lemma entry_adj v s h : adj v s h = e_adj v s (entry_of h).
Proof.
  unfold adj, e_adj, e_owner, e_has, was_committed, is_committed, delta_add, delta_remove, paid_to, htlc_has, htlc_owner, amt.
  cbn [entry_of e_state e_amount e_fulfilled]. unfold has_r. by destruct (h_r h).
Qed.

Lemma after_entry d h : entry_of (after (dance_states d) h) = stepped_by d (entry_of h).
Proof.
  unfold after, stepped, stepped_by, cafter, advance. cbn [entry_of e_state].
  destruct (bool_decide _); [|by destruct h]. destruct (next_state (h_state h)); by destruct h.
Qed.

Lemma dead_stays d st : htlc_state_is_dead st = true -> cafter (dance_states d) st = st.
Proof. by destruct d, st. Qed.

Lemma dies_alive d h :
  htlc_is_dead h = false -> dies (dance_states d) h = negb (alive (stepped_by d (entry_of h))).
Proof.
  intros Hd. rewrite <- after_entry. unfold dies, alive, after. cbn [entry_of e_state].
  destruct (stepped _ h); cbn [andb]; rewrite negb_involutive; [done|]. by rewrite <- Hd.
Qed.

(** ** The table and the ledger *)

Definition living (l : list entry) : list entry := filter (fun e => alive e = true) l.

Lemma living_cons e l : living (e :: l) = if alive e then e :: living l else living l.
Proof. unfold living. rewrite filter_cons. destruct (alive e); [by rewrite decide_True|by rewrite decide_False]. Qed.
Lemma living_app l k : living (l ++ k) = living l ++ living k.
Proof. apply filter_app. Qed.
Lemma living_perm l k : l ≡ₚ k -> living l ≡ₚ living k.
Proof. unfold living. by intros ->. Qed.

Lemma stepped_dead d e : alive e = false -> stepped_by d e = e.
Proof.
  unfold alive. intros Hd%negb_false_iff. unfold stepped_by. rewrite dead_stays by done. by destruct e.
Qed.

Lemma living_step d l : living (map (stepped_by d) l) = living (map (stepped_by d) (living l)).
Proof.
  induction l as [|e l IH]; [done|]. cbn [map]. rewrite !living_cons, IH.
  destruct (alive e) eqn:E; [cbn [map]; by rewrite living_cons|]. by rewrite stepped_dead, E.
Qed.

Lemma living_survivors d l :
  (forall h, h ∈ l -> htlc_is_dead h = false) ->
  living (map (stepped_by d) (map entry_of l)) = map entry_of (survivors (dance_states d) l).
Proof.
  induction l as [|h l IH]; intros Hl; [done|]. cbn [map]. rewrite living_cons, survivors_cons, dies_alive by (apply Hl; left).
  rewrite IH by (intros x Hx; apply Hl; by right). rewrite <- after_entry.
  destruct (alive _); cbn [negb]; [|done]. done.
Qed.

Lemma table_step d l L :
  map entry_of l ≡ₚ living L -> (forall h, h ∈ l -> htlc_is_dead h = false) ->
  map entry_of (survivors (dance_states d) l) ≡ₚ living (map (stepped_by d) L).
Proof.
  intros Hp Hl. rewrite living_step, <- living_survivors by done. apply living_perm.
  by apply (Permutation_map (stepped_by d)).
Qed.

Lemma sum_map {A B} (f : B -> Z) (k : A -> B) (l : list A) : sum_with f (map k l) = sum_with (fun a => f (k a)) l.
Proof. induction l as [|a l IH]; [done|]. unfold sum_with in *. cbn. by rewrite IH. Qed.

Local Open Scope Z_scope.

(** A sum over the ledger of something that does not change for what is done
    is one over the table. *)
Lemma living_sum (f : entry -> Z) l L :
  map entry_of l ≡ₚ living L -> (forall e, alive e = false -> f e = 0) -> sum_with f L = sum_with (fun h => f (entry_of h)) l.
Proof.
  intros Hp Hf. rewrite <- (sum_map f entry_of), (sum_with_perm _ _ _ Hp). unfold living. rewrite sum_with_filter.
  apply sum_with_ext. intros e _. destruct (alive e) eqn:E; [done|by apply Hf].
Qed.

Lemma lane_sum_0 f (l : list htlc) : (forall h, h ∈ l -> h_lane h = 0%nat) -> lane_sum f 0 l = sum_with f l.
Proof. intros Hl. unfold lane_sum. apply sum_with_ext. intros h Hh. by rewrite (Hl h Hh). Qed.

Lemma step_sum d v s l L :
  map entry_of l ≡ₚ living L -> (forall h, h ∈ l -> h_lane h = 0%nat) ->
  sum_with (e_adj v s) (map (stepped_by d) L)
  = sum_with (e_adj v s) L + lane_sum (fun h => adj v s (after (dance_states d) h) - adj v s h) 0 l.
Proof.
  intros Hp Hl. rewrite lane_sum_0 by done.
  rewrite (sum_with_ext (fun h => adj v s (after (dance_states d) h) - adj v s h)
    (fun h => e_adj v s (stepped_by d (entry_of h)) - e_adj v s (entry_of h)))
    by (intros h _; by rewrite !entry_adj, after_entry).
  rewrite <- (living_sum (fun e => e_adj v s (stepped_by d e) - e_adj v s e) l L Hp)
    by (intros e He; rewrite stepped_dead by done; lia).
  rewrite sum_map. rewrite <- sum_with_plus. apply sum_with_ext. intros e _. lia.
Qed.

(** ** Feerates and blockheights *)

(** One step of one array. *)
Definition inc_array (arr : state_array) (st : htlc_state) : state_array :=
  if state_has st HTLC_ADDING then
    match arr st, state_succ st with
    | Some v, Some n => <[st := None]> (<[n := Some v]> arr)
    | _, _ => arr
    end
  else arr.

Lemma inc_state_array arr st b arr' :
  inc_state arr st = Ret (b, arr') -> arr' = inc_array arr st /\ (b = false -> arr' = arr).
Proof.
  unfold inc_state, inc_array, assert_then. destruct (state_has st HTLC_ADDING); [|done].
  destruct (arr st); [destruct (state_succ st); [|done]|]; by intros [= <- <-].
Qed.

Lemma flags_change st n : next_state st = Ret n -> flags_changed st n <> 0.
Proof. destruct st; cbn; intros [= <-]; done. Qed.

Definition arrays (c : channel) : state_array * option state_array :=
  (feerate (chan_fee_states c), height <$> blockheight_states c).

Lemma fee_incstate_arrays c st f c' :
  fee_incstate c st = Ret (f, c') ->
  arrays c' = (inc_array (feerate (chan_fee_states c)) st, height <$> blockheight_states c)
  /\ fixed c' = fixed c /\ (f = 0 -> arrays c' = arrays c).
Proof.
  unfold fee_incstate. intros E. split_bind E.
  destruct (state_has st HTLC_ADDING) eqn:Ha; cbn [negb] in E; [|injection E as _ <-; unfold inc_array; by rewrite Ha].
  unfold inc_fee_state in E. split_bind E. destruct x0 as [b fs]. split_bind Hx0. destruct x0 as [b' arr].
  injection Hx0 as <- <-. injection E as <- <-. apply inc_state_array in Hx1 as [-> Hb].
  split; [done|]. split; [done|]. unfold arrays. cbn [feerate chan_fee_states set_fee_states blockheight_states].
  destruct b'; [intros Hf; by apply flags_change in Hx|]. intros _. by rewrite Hb.
Qed.
Lemma blockheight_incstate_arrays c st f c' :
  blockheight_incstate c st = Ret (f, c') ->
  arrays c' = (feerate (chan_fee_states c), (fun hs => inc_array (height hs) st) <$> blockheight_states c)
  /\ fixed c' = fixed c /\ (f = 0 -> arrays c' = arrays c).
Proof.
  unfold blockheight_incstate. intros E. split_bind E.
  destruct (state_has st HTLC_ADDING) eqn:Ha; cbn [negb] in E; [|injection E as _ <-; unfold inc_array, arrays; rewrite Ha; by destruct (blockheight_states c)].
  unfold arrays. destruct (blockheight_states c) as [hs|]; [|done].
  unfold inc_height_state in E. split_bind E. destruct x0 as [b fs]. split_bind Hx0. destruct x0 as [b' arr].
  injection Hx0 as <- <-. injection E as <- <-. apply inc_state_array in Hx1 as [-> Hb].
  split; [done|]. split; [done|]. cbn [chan_fee_states set_blockheight_states blockheight_states fmap option_fmap option_map height].
  destruct b'; [intros Hf; by apply flags_change in Hx|]. intros _. by rewrite Hb.
Qed.

Lemma change_fees_arrays states : forall c f c',
  change_fees states c = Ret (f, c') ->
  arrays c' = (fold_left inc_array states (feerate (chan_fee_states c)),
               (fun hs => fold_left inc_array states (height hs)) <$> blockheight_states c)
  /\ fixed c' = fixed c /\ (f = 0 -> arrays c' = arrays c).
Proof.
  induction states as [|st states IH]; intros c f c' E; cbn [change_fees fold_left] in *.
  { injection E as <- <-. done. }
  split_bind E. destruct x as [f1 c1]. split_bind E. destruct x as [f2 c2]. split_bind E. destruct x as [f3 c3].
  injection E as <- <-. apply fee_incstate_arrays in Hx as (A1 & F1 & Z1).
  apply blockheight_incstate_arrays in Hx0 as (A2 & F2 & Z2). apply IH in Hx1 as (A3 & F3 & Z3).
  split; [|split; [congruence|]].
  - rewrite A3. unfold arrays in *. apply pair_equal_spec in A2 as [-> A2]. apply pair_equal_spec in A1 as [-> A1].
    f_equal. destruct (blockheight_states c2), (blockheight_states c1), (blockheight_states c); try done.
    apply Some_inj in A1, A2. cbn [fmap option_fmap option_map]. by rewrite A2, A1.
  - intros [[-> ->]%Z.lor_eq_0_iff ->]%Z.lor_eq_0_iff. by rewrite Z3, Z2, Z1.
Qed.

Lemma inc_array_lookup arr st x :
  inc_array arr st x
  = match state_succ st with
    | Some n =>
      if state_has st HTLC_ADDING then
        if decide (x = st) then None else if decide (x = n) then match arr st with Some v => Some v | None => arr x end else arr x
      else arr x
    | None => arr x
    end.
Proof.
  unfold inc_array. destruct (state_succ st) as [n|] eqn:En; [|by destruct (state_has _ _), (arr st)].
  destruct (state_has st HTLC_ADDING); [|done]. destruct (arr st) as [v|] eqn:Ev.
  - unfold insert, fn_insert. destruct (decide (st = x)), (decide (x = st)); try done; [congruence..|].
    destruct (decide (n = x)), (decide (x = n)); done || congruence.
  - destruct (decide (x = st)) as [->|]; [done|]. by destruct (decide (x = n)).
Qed.

(** In one step an array moves what is at one stage of the opener. *)
Lemma inc_array_dance d s (arr : state_array) p :
  (p <= 4)%nat ->
  fold_left inc_array (reverse (dance_states d)) arr (life s p)
  = if (p =? leaves d s)%nat then None
    else if (p =? S (leaves d s))%nat then match arr (life s (leaves d s)) with Some v => Some v | None => arr (life s p) end
    else arr (life s p).
Proof.
  intros Hp.
  assert (exists a b c e, reverse (dance_states d) = [a; b; c; e]) as (a & b & c & e & E) by (by destruct d; eexists _, _, _, _).
  rewrite E. cbn [fold_left]. rewrite !inc_array_lookup.
  destruct d; injection E as <- <- <- <-; destruct s; do 5 (destruct p as [|p]; [vm_compute; done|]); lia.
Qed.

Lemma array_dance {sigs} (value : message sigs -> option Z) g t m d s v0 arr :
  well_paced g -> dances g t m d -> value m = None -> array_follows value g s v0 arr ->
  array_follows value (append t m g) s v0 (fold_left inc_array (reverse (dance_states d)) arr).
Proof.
  intros Hg Hd Hv [Ha Hn Hst]. assert (Hk : forall s, (leaves d s < 4)%nat) by (intros []; destruct d; cbn; lia). split.
  - intros p Hp. rewrite (expected_bump value g _ s (leaves d s)); [|done|intros P; by apply newest_other|].
    2: { intros a Hle. by apply dances_stage. }
    specialize (Hk s). rewrite inc_array_dance, !Ha by lia. destruct (Nat.eqb_spec p (leaves d s)); [done|].
    destruct (Nat.eqb_spec p (S (leaves d s))); [|done]. unfold expected at 1.
    destruct (Nat.eqb_spec (leaves d s) 4); [lia|done].
  - intros p Hp. specialize (Hk (other s)). rewrite inc_array_dance, !Hn by lia. by repeat case_match.
  - apply no_values; [by left|done].
Qed.

(** ** The commitment steps *)

Lemma change_each_flags sc states l : forall b r,
  change_each sc states l b = Ret r -> ch_flags r = 0 -> forall h, h ∈ l -> stepped states h = false.
Proof.
  induction l as [|h l IH]; intros b r E Hf x Hx; [by apply elem_of_nil in Hx|]. cbn [change_each] in E.
  apply elem_of_cons in Hx. destruct (bool_decide (h_state h ∈ states)) eqn:Ed.
  - destruct (b !! h_lane h); [|done]. split_bind E. destruct x0 as [h' o]. split_bind E. injection E as <-.
    unfold htlc_incstate in Hx0. split_bind Hx0. injection Hx0 as <- _. cbn [ch_flags h_state set_h_state] in Hf.
    apply Z.lor_eq_0_iff in Hf as [Hf _]. by apply flags_change in Hx2.
  - split_bind E. injection E as <-. destruct Hx as [->|Hx]; [done|]. by eapply IH.
Qed.

Lemma change_htlcs_arrays c sc states f chg c' :
  change_htlcs c sc states = Ret (f, chg, c') ->
  arrays c' = (fold_left inc_array (reverse states) (feerate (chan_fee_states c)),
               (fun hs => fold_left inc_array (reverse states) (height hs)) <$> blockheight_states c)
  /\ fixed c' = fixed c /\ is_Some (htlcs c')
  /\ (f = 0 -> arrays c' = arrays c /\ forall h, h ∈ the_htlcs c -> stepped states h = false).
Proof.
  unfold change_htlcs. intros E. split_bind E. destruct (htlcs c) as [l|] eqn:El; [|done]. split_bind E. split_bind E.
  destruct x1 as [[w b] wf]. destruct (all_balances_ok b) as [os|]; [|done]. split_bind E. split_bind E.
  destruct x2 as [ff c2]. injection E as <- _ <-.
  assert (Hc1 : arrays x1 = arrays c /\ fixed x1 = fixed c /\ htlcs x1 = Some (ch_left x0)
    /\ chan_fee_states x1 = chan_fee_states c /\ blockheight_states x1 = blockheight_states c)
    by (unfold set_view_owed in Hx2; destruct os; [done|]; by injection Hx2 as <-).
  destruct Hc1 as (A1 & F1 & T1 & B1 & D1).
  pose proof (change_fees_arrays _ _ _ _ Hx3) as (A & F & Hz).
  split; [by rewrite A, B1, D1|]. split; [congruence|].
  split; [apply frame_fees in Hx3 as (-> & _); by rewrite T1|].
  intros [[Hf _]%Z.lor_eq_0_iff Hff]%Z.lor_eq_0_iff. split; [by rewrite Hz|].
  unfold the_htlcs. rewrite El. by eapply change_each_flags.
Qed.

(** The HTLC that was just added, changed. *)
Lemma with_htlc_head c h l s id k :
  h_id h = id -> htlc_owner h = s -> with_htlc (set_htlcs (Some (h :: l)) c) s id k = set_htlcs (Some (k h :: l)) c.
Proof.
  intros Hi Ho. unfold with_htlc. change (the_htlcs (set_htlcs (Some (h :: l)) c)) with (h :: l). cbn [update_htlc].
  by rewrite Hi, Z.eqb_refl, htlc_has_owner, bool_decide_true.
Qed.

Lemma life_inj s p q : (p <= 9)%nat -> (q <= 9)%nat -> life s p = life s q -> p = q.
Proof.
  intros Hp Hq. do 10 (destruct p as [|p]; [do 10 (destruct q as [|q]; [by destruct s|]); lia|]). lia.
Qed.

Lemma NoDup_map_inj {A B} (f : A -> B) l a b : NoDup (map f l) -> a ∈ l -> b ∈ l -> f a = f b -> a = b.
Proof.
  induction l as [|x l IH]; [set_solver|]. cbn [map]. rewrite NoDup_cons.
  intros [Hx Hn] [->|Ha]%elem_of_cons [->|Hb]%elem_of_cons Hk; [done|..|by apply IH];
    exfalso; apply Hx; [rewrite Hk|rewrite <- Hk]; by apply list_elem_of_fmap_2.
Qed.

(** Two changes of the same entry. *)
Lemma update_htlc_again id s f k l h :
  htlc_get l id s = Some h -> key (f h) = key h ->
  update_htlc id s k (update_htlc id s f l) = update_htlc id s (fun h => k (f h)) l.
Proof.
  unfold htlc_get, key. intros Hg [= Hi Ho]. induction l as [|x l IH]; [done|]. cbn [find update_htlc] in *.
  destruct ((h_id x =? id) && _) eqn:E; cbn [update_htlc].
  - injection Hg as ->. rewrite htlc_has_owner in *. by rewrite Hi, Ho, E.
  - by rewrite E, IH.
Qed.

(** With unique keys, changing the one entry is a map. *)
Lemma update_htlc_map id s k l :
  NoDup (map key l) -> update_htlc id s k l = map (fun h => if decide (key h = (id, s)) then k h else h) l.
Proof.
  assert (Hk : forall h, (h_id h =? id) && htlc_has h (HTLC_FLAG s HTLC_F_OWNER) = bool_decide (key h = (id, s))).
  { intros h. rewrite htlc_has_owner. unfold key. destruct (Z.eqb_spec (h_id h) id); case_bool_decide; cbn [andb];
      symmetry; first [apply bool_decide_eq_true|apply bool_decide_eq_false]; congruence. }
  induction l as [|h l IH]; [done|]. cbn [map update_htlc]. intros [Hn Hl]%NoDup_cons. rewrite Hk.
  case_bool_decide as E; [|rewrite decide_False by done; by rewrite IH]. rewrite decide_True by done. f_equal.
  symmetry. rewrite <- (map_id l) at 2. apply map_ext_in. intros x Hx. rewrite decide_False; [done|].
  intros Ex. apply Hn. rewrite E, <- Ex. apply list_elem_of_fmap_2. by apply list_elem_of_In.
Qed.

Lemma living_map (R : entry -> entry) l : (forall e, e ∈ l -> alive (R e) = alive e) -> living (map R l) = map R (living l).
Proof.
  induction l as [|e l IH]; intros HR; [done|]. cbn [map]. rewrite !living_cons, HR by left.
  rewrite IH by (intros x Hx; apply HR; by right). by destruct (alive e).
Qed.

Section Follow.
Context {sigs : Type}.
Notation message := (message sigs).
Notation log := (sides (list message)).
(** The channel at the start, its feerate and its blockheight. *)
Context (c0 : channel) (f0 h0 : Z).

Definition base (s : side) : Z := millisatoshis (owed (view c0).[LOCAL]).[s].

(** The channel is what the streams say. *)
Record follows (c : channel) (g : log) : Prop := {
  fo_streams : coherent g;
  fo_table : map entry_of (the_htlcs c) ≡ₚ living (ledger g);
  fo_some : is_Some (htlcs c);
  fo_lane : forall h, h ∈ the_htlcs c -> h_lane h = 0%nat;
  fo_plain : forall h, h ∈ the_htlcs c -> plain h;
  fo_owed : forall v s, millisatoshis (owed (view c).[v]).[s] = base s + sum_with (e_adj v s) (ledger g);
  fo_fees : array_follows fee_of g (opener c0) f0 (feerate (chan_fee_states c));
  fo_heights : exists hs, blockheight_states c = Some hs /\ array_follows height_of g (opener c0) h0 (height hs);
  fo_swap : chan_sym_swap c = None;
  fo_fixed : fixed c = fixed c0;
  fo_one_asset : sym_lanes c0 = None;
}.

Lemma follows_alive c g h : follows c g -> h ∈ the_htlcs c -> htlc_is_dead h = false.
Proof.
  intros Hf Hh. assert (Hin : entry_of h ∈ living (ledger g)).
  { rewrite <- (fo_table _ _ Hf). by apply list_elem_of_fmap_2. }
  apply list_elem_of_filter in Hin as [Ha _]. unfold alive in Ha. by apply negb_true_iff in Ha.
Qed.

Lemma follows_opener c g : follows c g -> opener c = opener c0.
Proof. intros Hf. pose proof (fo_fixed _ _ Hf) as E. unfold fixed in E. congruence. Qed.

Lemma ledger_dance (g : log) t m d : well_paced g -> dances g t m d -> ledger (append t m g) = map (stepped_by d) (ledger g).
Proof. intros Hg Hd. unfold ledger. by rewrite !(dances_entries g t m d), map_app. Qed.

Lemma view_owed_0 c v : view_owed c v !! 0%nat = Some (owed (view c).[v]).
Proof. done. Qed.

(** A commitment or revocation and the step that goes with it. *)
Lemma follows_dance total c c' g t m d f chg :
  sound total c -> follows c g -> dances g t m d ->
  change_htlcs c (dance_view d) (dance_states d) = Ret (f, chg, c') -> follows c' (append t m g).
Proof.
  intros Hs Hf Hd E. pose proof (co_paced _ (fo_streams _ _ Hf)) as Hg. pose proof (ledger_dance _ _ _ _ Hg Hd) as HL.
  pose proof (change_htlcs_spec _ _ _ _ _ _ _ (dance_ok d) Hs E) as (T & _ & _ & Hsw & _ & V).
  pose proof (change_htlcs_arrays _ _ _ _ _ _ E) as (A & F & Hsome & _). unfold arrays in A. apply pair_equal_spec in A as [A1 A2].
  pose proof (dances_plain _ _ _ _ Hd) as (_ & _ & Hfee & Hheight).
  assert (Hsw' : chan_sym_swap c' = None).
  { rewrite (fo_swap _ _ Hf) in Hsw. by destruct (chan_sym_swap c'). }
  split.
  - eapply coherent_dance; [apply Hf|done].
  - rewrite T, HL. apply table_step; [apply Hf|]. intros h. by apply follows_alive with g.
  - done.
  - intros h. rewrite T. intros (h1 & -> & [_ Hin]%list_elem_of_filter)%list_elem_of_fmap.
    destruct (after_fields _ _ h1 (dance_ok d)) as [-> _]. by apply Hf.
  - intros h. rewrite T. intros (h1 & -> & [_ Hin]%list_elem_of_filter)%list_elem_of_fmap.
    pose proof (fo_plain _ _ Hf h1 Hin). unfold after, advance. destruct (stepped _ h1); [|done]. by destruct (next_state _).
  - intros v s. destruct (V v 0%nat _ s (view_owed_0 c' v)) as (_ & o & Ho & ->). rewrite view_owed_0 in Ho. injection Ho as <-.
    rewrite (fo_owed _ _ Hf), HL, (step_sum d v s (the_htlcs c)) by apply Hf. rewrite Hsw', (fo_swap _ _ Hf). cbn [swap_adj]. lia.
  - rewrite A1. apply array_dance; [done..|apply Hf].
  - destruct (fo_heights _ _ Hf) as (hs & Ehs & Hh). rewrite Ehs in A2. destruct (blockheight_states c') as [hs'|]; [|done].
    exists hs'. split; [done|]. apply Some_inj in A2. rewrite A2. by apply array_dance.
  - done.
  - rewrite F. apply Hf.
  - apply Hf.
Qed.

(** A step that changes nothing. *)
Lemma follows_idle total c c' g d chg :
  sound total c -> follows c g -> change_htlcs c (dance_view d) (dance_states d) = Ret (0, chg, c') -> follows c' g.
Proof.
  intros Hs Hf E. pose proof (change_htlcs_spec _ _ _ _ _ _ _ (dance_ok d) Hs E) as (T & _ & _ & Hsw & _ & V).
  pose proof (change_htlcs_arrays _ _ _ _ _ _ E) as (_ & F & Hsome & Hz). destruct (Hz eq_refl) as [A Hst].
  unfold arrays in A. apply pair_equal_spec in A as [A1 A2].
  assert (T' : the_htlcs c' = the_htlcs c).
  { rewrite T. clear -Hst. induction (the_htlcs c) as [|h l IH]; [done|]. rewrite survivors_cons.
    unfold dies, after. rewrite (Hst h) by left. cbn [andb]. rewrite IH; [done|]. intros x Hx. apply Hst. by right. }
  assert (Hsw' : chan_sym_swap c' = None).
  { rewrite (fo_swap _ _ Hf) in Hsw. by destruct (chan_sym_swap c'). }
  destruct Hf. split; try done; rewrite ?T', ?A1, ?F; try done.
  - intros v s. destruct (V v 0%nat _ s (view_owed_0 c' v)) as (_ & o & Ho & ->). rewrite view_owed_0 in Ho. injection Ho as <-.
    rewrite fo_owed0, Hsw', fo_swap0, lane_sum_0 by done. cbn [swap_adj].
    rewrite (sum_with_ext _ (fun _ => 0) (the_htlcs c)); [|intros h Hh; unfold after; rewrite Hst by done; lia].
    assert (forall l : list htlc, sum_with (fun _ => 0) l = 0) as -> by (intros l; by induction l). lia.
  - destruct fo_heights0 as (hs & Ehs & Hh). rewrite Ehs in A2. destruct (blockheight_states c') as [hs'|]; [|done].
    exists hs'. split; [done|]. apply Some_inj in A2. by rewrite A2.
Qed.

(** ** Updates *)

Lemma values_kept (value : message -> option Z) (g : log) t m s v0 arr :
  well_paced g -> is_commit m = false -> is_revoke m = false -> value m = None ->
  array_follows value g s v0 arr -> array_follows value (append t m g) s v0 arr.
Proof.
  intros Hg Hc Hr Hv [Ha Hn Hst]. split; [|done|apply no_values; [by left|done]].
  intros p Hp. rewrite expected_silent by done. by apply Ha.
Qed.

Lemma heights_kept (c c' : channel) (g : log) t m :
  well_paced g -> is_commit m = false -> is_revoke m = false -> height_of m = None ->
  blockheight_states c' = blockheight_states c ->
  (exists hs, blockheight_states c = Some hs /\ array_follows height_of g (opener c0) h0 (height hs)) ->
  exists hs, blockheight_states c' = Some hs /\ array_follows height_of (append t m g) (opener c0) h0 (height hs).
Proof. intros Hg Hc Hr Hv E (hs & Ehs & Ha). exists hs. split; [congruence|]. by apply values_kept. Qed.

(** No update, commitment or revocation. *)
Definition silent (m : message) : bool :=
  match m with
  | msg_update_add_htlc _ _ _ _ _ _ | msg_update_fulfill_htlc _ _ | msg_update_fail_htlc _ _
  | msg_update_fail_malformed_htlc _ _ _ | msg_update_fee _ | msg_update_blockheight _
  | msg_commitment_signed _ _ | msg_revoke_and_ack _ _ _ => false
  | _ => true
  end.
Lemma silent_plain m :
  silent m = true -> is_commit m = false /\ is_revoke m = false /\ added_id m = None
  /\ (forall i, removes i m = None) /\ fee_of m = None /\ height_of m = None.
Proof. by destruct m. Qed.

Lemma ledger_silent (g : log) t m :
  well_paced g -> is_commit m = false -> is_revoke m = false -> added_id m = None -> (forall i, removes i m = None) ->
  ledger (append t m g) = ledger g.
Proof. intros. unfold ledger. by rewrite !entries_silent. Qed.

Lemma follows_silent c g t m : silent m = true -> follows c g -> follows c (append t m g).
Proof.
  intros (Hc & Hr & Hi & Hd & Hfee & Hh)%silent_plain Hf. pose proof (co_paced _ (fo_streams _ _ Hf)) as Hg.
  pose proof (ledger_silent g t m Hg Hc Hr Hi Hd) as HL. destruct Hf. split; rewrite ?HL; try done.
  - apply coherent_update; try done. by rewrite Hi.
  - by apply values_kept.
  - by eapply heights_kept.
Qed.

Lemma follows_add c g t id amount hash expiry onion tlvs h (m := msg_update_add_htlc id amount hash expiry onion tlvs) :
  follows c g -> entry_of h = mk_entry id amount expiry hash (seq_point_lock tlvs) (life t 0) false false ->
  h_lane h = 0%nat -> plain h -> id ∉ omap added_id g.[t] -> follows (set_htlcs (Some (h :: the_htlcs c)) c) (append t m g).
Proof.
  intros Hf He Hlane Hplain Hid. pose proof (co_paced _ (fo_streams _ _ Hf)) as Hg.
  assert (Hn : removal g t id = None).
  { destruct (removal g t id) eqn:E; [|done]. exfalso. apply Hid, (co_known _ (fo_streams _ _ Hf)). by rewrite E. }
  assert (HL : ledger (append t m g) ≡ₚ entry_of h :: ledger g).
  { unfold ledger. subst m. rewrite !entries_add, He by done. destruct t; cbn [decide]; rewrite ?app_nil_r.
    - rewrite <- app_assoc. apply Permutation_sym, Permutation_middle.
    - rewrite app_assoc. apply Permutation_sym, Permutation_cons_append. }
  destruct Hf. split; try done.
  - apply coherent_update; try done. intros i [= <-]. done.
  - rewrite (living_perm _ _ HL), living_cons. change (the_htlcs (set_htlcs (Some (h :: the_htlcs c)) c)) with (h :: the_htlcs c).
    cbn [map]. assert (alive (entry_of h) = true) as -> by (rewrite He; by destruct t). by apply Permutation_skip.
  - intros x. change (the_htlcs (set_htlcs (Some (h :: the_htlcs c)) c)) with (h :: the_htlcs c).
    intros [->|Hx]%elem_of_cons; [done|by apply fo_lane0].
  - intros x. change (the_htlcs (set_htlcs (Some (h :: the_htlcs c)) c)) with (h :: the_htlcs c).
    intros [->|Hx]%elem_of_cons; [done|by apply fo_plain0].
  - intros v s. rewrite (sum_with_perm _ _ _ HL). cbn [sum_with foldr]. rewrite He.
    assert (e_adj v s (mk_entry id amount expiry hash (seq_point_lock tlvs) (life t 0) false false) = 0) as -> by (by destruct v, t).
    apply fo_owed0.
  - by apply values_kept.
  - by eapply heights_kept.
Qed.

Lemma start_follows (value : message -> option Z) (g : log) s m v v0 arr :
  well_paced g -> is_commit m = false -> is_revoke m = false -> value m = Some v -> array_follows value g s v0 arr ->
  array_follows value (append s m g) s v0 (<[first_fee_state s := Some v]> arr).
Proof.
  intros Hg Hc Hr Hv [Ha Hn Hst]. split.
  - intros p Hp. rewrite (expected_update _ _ _ _ v) by done. rewrite <- Ha by done. unfold insert, fn_insert.
    destruct (Nat.eqb_spec p 0) as [->|Hne]; [by destruct s|]. rewrite decide_False; [done|].
    do 5 (destruct p as [|p]; [by destruct s|]). lia.
  - intros p Hp. rewrite <- (Hn p Hp). unfold insert, fn_insert. rewrite decide_False; [done|].
    do 5 (destruct p as [|p]; [by destruct s|]). lia.
  - apply no_values; [right; by rewrite other_involutive|done].
Qed.

Lemma follows_fee c g f c' :
  follows c g -> c' = set_fee_states (start_fee_update (chan_fee_states c) (opener c) f) c ->
  follows c' (append (opener c0) (msg_update_fee f) g).
Proof.
  intros Hf ->. pose proof (co_paced _ (fo_streams _ _ Hf)) as Hg. pose proof (follows_opener _ _ Hf) as Ho.
  pose proof (ledger_silent g (opener c0) (msg_update_fee f) Hg) as HL. destruct Hf.
  split; rewrite ?HL by done; try done.
  - apply coherent_update; done.
  - cbn [chan_fee_states set_fee_states start_fee_update feerate]. rewrite Ho. by apply start_follows.
  - by eapply heights_kept.
Qed.
Lemma follows_height c g h c' :
  follows c g -> channel_update_blockheight c h = Ret c' ->
  follows c' (append (opener c0) (msg_update_blockheight h) g).
Proof.
  intros Hf E. pose proof (co_paced _ (fo_streams _ _ Hf)) as Hg. pose proof (follows_opener _ _ Hf) as Ho.
  pose proof (ledger_silent g (opener c0) (msg_update_blockheight h) Hg) as HL. destruct Hf.
  unfold channel_update_blockheight in E. destruct fo_heights0 as (hs & Ehs & Hh). rewrite Ehs in E. injection E as <-.
  split; rewrite ?HL by done; try done.
  - apply coherent_update; done.
  - by apply values_kept.
  - eexists. split; [done|]. cbn [start_height_update height]. rewrite Ho. by apply start_follows.
Qed.

(** *** An HTLC is removed *)

Lemma entries_from (g : log) s e :
  e ∈ entries g s -> e_owner e = s /\ exists a m, (a, m) ∈ stamped 0 g.[s] /\ entry_at g s (a, m) = Some e.
Proof.
  intros ([a m] & Hin & E)%list_elem_of_omap. split; [|by exists a, m]. unfold entry_at in E. destruct m; try done.
  apply Some_inj in E as <-. pose proof (stage_le g s a). unfold e_owner.
  destruct (removal g s id) as [[b f]|]; cbn [e_state];
    [pose proof (stage_le g (other s) b)|]; by apply (life_flags s LOCAL); lia.
Qed.

(** What the streams know of an HTLC that can be removed. *)
Lemma removable c g h n s id :
  follows c g -> htlc_get (the_htlcs c) id s = Some h -> removal_state (h_state h) = Some n ->
  h_state h = life s 4 /\ n = life s 5 /\ h_id h = id /\ (h_r h = None /\ h_failed h = None)
  /\ entry_of h ∈ entries g s /\ removal g s id = None
  /\ (forall e, e ∈ entries g s -> e_id e = id -> e = entry_of h)
  /\ (forall a m, (a, m) ∈ stamped 0 g.[s] -> added_id m = Some id -> stage g s a = 4%nat).
Proof.
  intros Hf Hget Hn. pose proof (htlc_get_in _ _ _ _ Hget) as Hin. unfold htlc_get in Hget.
  apply find_some in Hget as [_ [Hid%Z.eqb_eq Ho]%andb_true_iff]. rewrite htlc_has_owner in Ho. apply bool_decide_eq_true in Ho.
  assert (Hst : h_state h = life s 4 /\ n = life s 5).
  { unfold htlc_owner in Ho. destruct (h_state h); try done; injection Hn as <-; by destruct s. }
  destruct Hst as [Hst ->]. assert (Hent : entry_of h ∈ entries g s).
  { assert (Hl : entry_of h ∈ living (ledger g)) by (rewrite <- (fo_table _ _ Hf); by apply list_elem_of_fmap_2).
    apply list_elem_of_filter in Hl as [_ Hl]. apply elem_of_app in Hl.
    destruct Hl as [Hl|Hl]; pose proof (entries_from _ _ _ Hl) as [Hs _]; unfold e_owner in Hs; cbn [entry_of e_state] in Hs;
      fold (htlc_owner h) in Hs; by rewrite <- Ho, Hs. }
  assert (Hu : forall e, e ∈ entries g s -> e_id e = id -> e = entry_of h).
  { intros e He Ee. pose proof (co_unique _ (fo_streams _ _ Hf) s) as Hnd. rewrite <- entries_ids in Hnd.
    eapply NoDup_map_inj; [exact Hnd|done|done|by rewrite Ee]. }
  assert (Hstage : forall a m, (a, m) ∈ stamped 0 g.[s] -> added_id m = Some id -> removal g s id = None /\ stage g s a = 4%nat).
  { intros a m Ham Hm. destruct (entry_at g s (a, m)) as [e|] eqn:Ee; [|by destruct m].
    assert (e = entry_of h) as ->.
    { apply Hu; [by apply list_elem_of_omap; exists (a, m)|]. pose proof (entry_at_id _ _ _ _ _ Ee). congruence. }
    pose proof (stage_le g s a). unfold entry_at in Ee. destruct m; try done. injection Hm as ->.
    apply Some_inj, (f_equal e_state) in Ee. cbn [entry_of e_state] in Ee. rewrite Hst in Ee.
    destruct (removal g s id) as [[b f]|]; cbn [e_state] in Ee; [pose proof (stage_le g (other s) b)|];
      apply life_inj in Ee; lia || done. }
  destruct (entries_from _ _ _ Hent) as (_ & a & m & Ham & Ee). pose proof (entry_at_id _ _ _ _ _ Ee) as Hm.
  cbn [entry_of e_id] in Hm. rewrite Hid in Hm. destruct (Hstage a m Ham Hm) as [Hrem _].
  assert (Hnew : h_r h = None /\ h_failed h = None).
  { unfold entry_at in Ee. destruct m; try done. injection Hm as ->. rewrite Hrem in Ee. apply Some_inj in Ee.
    pose proof (f_equal e_fulfilled Ee) as H1. pose proof (f_equal e_failed Ee) as H2. cbn in H1, H2. unfold has_r in H1.
    by destruct (h_r h), (h_failed h). }
  split_and!; try done; [apply Hnew..|]. intros a' m' H1 H2. by apply Hstage with m'.
Qed.

Definition remove_entry (s : side) (id : Z) (f : bool) (e : entry) : entry :=
  if decide (e_owner e = s) then if (e_id e =? id) then removed s f e else e else e.

Lemma ledger_remove (g : log) t m id f :
  well_paced g -> removes id m = Some f -> removal g (other t) id = None ->
  ledger (append t m g) = map (remove_entry (other t) id f) (ledger g).
Proof.
  intros Hg Hd Hn. unfold ledger. rewrite !(entries_remove g t m _ id f) by done. rewrite map_app. f_equal;
    apply map_ext_in; intros e He%list_elem_of_In; apply entries_from in He as [Ho _]; unfold remove_entry; rewrite Ho; by destruct t.
Qed.

Lemma follows_remove c g t m id f h n k :
  follows c g -> table_ok c -> htlc_get (the_htlcs c) id (other t) = Some h -> removal_state (h_state h) = Some n ->
  removes id m = Some f -> entry_of (k h) = removed (other t) f (entry_of h) -> h_lane (k h) = h_lane h ->
  (plain h -> plain (k h)) -> follows (with_htlc c (other t) id k) (append t m g).
Proof.
  intros Hf [Hnd _] Hget Hn Hd He Hlane Hplain. pose proof (co_paced _ (fo_streams _ _ Hf)) as Hg. set (s := other t) in *.
  destruct (removable c g h n s id Hf Hget Hn) as (Hst & _ & Hid & _ & Hent & Hrem & Hu & Hstage).
  pose proof (htlc_get_in _ _ _ _ Hget) as Hin.
  assert (HL : ledger (append t m g) = map (remove_entry s id f) (ledger g)) by (by apply ledger_remove).
  assert (Hm : is_commit m = false /\ is_revoke m = false /\ fee_of m = None /\ height_of m = None) by (by destruct m).
  destruct Hm as (Hc & Hr & Hfee & Hheight).
  assert (Hkey : forall x, x ∈ the_htlcs c -> key x = (id, s) -> x = h).
  { intros x Hx Ex. apply (NoDup_map_inj key (the_htlcs c)); try done. rewrite Ex. destruct (entries_from _ _ _ Hent) as [Ho _].
    unfold key. rewrite Hid. f_equal. by rewrite <- Ho. }
  (* an entry the removal is about *)
  assert (HR : forall e, e ∈ ledger g -> remove_entry s id f e = e \/ e = entry_of h /\ remove_entry s id f e = removed s f e).
  { intros e Hle. unfold remove_entry. destruct (decide (e_owner e = s)) as [Ho|]; [|by left].
    destruct (Z.eqb_spec (e_id e) id) as [Ee|]; [|by left]. right. split; [|done]. apply Hu; [|done].
    apply elem_of_app in Hle as [Hle|Hle]; pose proof (entries_from _ _ _ Hle) as [Ho' _]; by rewrite <- Ho, Ho'. }
  assert (Htab : map entry_of (the_htlcs (with_htlc c s id k)) = map (remove_entry s id f) (map entry_of (the_htlcs c))).
  { change (the_htlcs (with_htlc c s id k)) with (update_htlc id s k (the_htlcs c)). rewrite update_htlc_map, !map_map by done.
    apply map_ext_in. intros x Hx%list_elem_of_In. unfold remove_entry, e_owner. cbn [entry_of e_state e_id]. fold (htlc_owner x).
    destruct (decide (key x = (id, s))) as [Ex|Ex].
    - rewrite (Hkey x Hx Ex), Hid, Z.eqb_refl, decide_True, He; [done|]. rewrite (Hkey x Hx Ex) in Ex. by injection Ex as _ <-.
    - destruct (decide (htlc_owner x = s)); [|done]. destruct (Z.eqb_spec (h_id x) id); [|done].
      exfalso. apply Ex. unfold key. congruence. }
  destruct Hf. split; try done.
  - apply (coherent_remove g t m id f); try done. fold s. rewrite <- entries_ids.
    apply list_elem_of_fmap. exists (entry_of h). done.
  - rewrite Htab, HL, living_map; [by apply Permutation_map|]. intros e Hle.
    destruct (HR e Hle) as [->|[-> ->]]; [done|]. unfold alive. cbn [removed e_state entry_of]. rewrite Hst. by destruct s.
  - intros x Hx. change (the_htlcs (with_htlc c s id k)) with (update_htlc id s k (the_htlcs c)) in Hx.
    apply update_htlc_elem in Hx as [Hx|(h' & Hh & ->)]; [by apply fo_lane0|].
    rewrite Hget in Hh. injection Hh as <-. rewrite Hlane. by apply fo_lane0.
  - intros x Hx. change (the_htlcs (with_htlc c s id k)) with (update_htlc id s k (the_htlcs c)) in Hx.
    apply update_htlc_elem in Hx as [Hx|(h' & Hh & ->)]; [by apply fo_plain0|].
    rewrite Hget in Hh. injection Hh as <-. by apply Hplain, fo_plain0.
  - intros v u. rewrite HL, sum_map. cbn [view with_htlc set_htlcs]. rewrite fo_owed0. f_equal. apply sum_with_ext.
    intros e Hle. destruct (HR e Hle) as [->|[-> ->]]; [done|].
    unfold e_adj, e_has, e_owner. cbn [removed entry_of e_state e_amount e_fulfilled]. rewrite Hst. by destruct v, s.
  - by apply values_kept.
  - by eapply heights_kept.
Qed.

(** What else is done to a channel. *)
Lemma follows_same c c' g :
  htlcs c' = htlcs c -> view c' = view c -> chan_fee_states c' = chan_fee_states c ->
  blockheight_states c' = blockheight_states c -> chan_sym_swap c' = chan_sym_swap c -> fixed c' = fixed c ->
  follows c g -> follows c' g.
Proof.
  intros E1 E2 E3 E4 E5 E6 [A B C D E F G H I J K].
  split; unfold the_htlcs; rewrite ?E1, ?E2, ?E3, ?E4, ?E5, ?E6; done.
Qed.

(** ** The operations channeld calls *)

Section Ops.
Context (params : chainparams) (sha256 : list Z -> list Z) (point_lock_opens : list Z -> list Z -> bool).

Lemma follows_offer c g t id amount expiry hash routing path_key extra err lane r onion tlvs lock :
  follows c g -> wf_msat amount -> id ∉ omap added_id g.[t] -> seq_point_lock tlvs = lock ->
  channel_add_lane_htlc params c t id amount expiry hash routing path_key extra err lane = Ret r ->
  add_err r = CHANNEL_ERR_ADD_OK ->
  follows (match lock with Some x => with_htlc (add_chan r) t id (set_h_lock_point (Some x)) | None => add_chan r end)
    (append t (msg_update_add_htlc id amount hash expiry onion tlvs) g).
Proof.
  intros Hf Hwf Hid Hlock E He. unfold channel_add_lane_htlc in E.
  apply add_htlc_new in E as [(Hne & _)|(b & e & fee & Hexp & _ & Hlane & _ & ->)]; [done|].
  assert (e = expiry /\ expiry < SECONDS_POINT) as [-> Hsec].
  { unfold blocks_to_abs_locktime in Hexp. destruct (Z.leb_spec SECONDS_POINT expiry); [done|]. by injection Hexp as <-. }
  assert (lane = 0%nat) as ->.
  { unfold sym_num_lanes in Hlane. pose proof (fo_fixed _ _ Hf) as F. unfold fixed in F. injection F as _ _ _ _ _ _ _ _ _ F _ _.
    rewrite F, (fo_one_asset _ _ Hf) in Hlane. cbn in Hlane. lia. }
  cbn [add_chan add_to_map]. destruct lock as [x|].
  - rewrite with_htlc_head; [|done|by destruct t]. apply follows_add; [done|rewrite Hlock; by destruct t|done..].
  - apply follows_add; [done|rewrite Hlock; by destruct t|done..].
Qed.

Lemma follows_fulfill c g t id preimage c' m :
  follows c g -> table_ok c -> removes id m = Some true ->
  channel_fulfill_htlc sha256 point_lock_opens c (other t) id preimage = Ret (CHANNEL_ERR_REMOVE_OK, c') ->
  follows c' (append t m g)
  /\ exists h, htlc_get (the_htlcs c') id (other t) = Some h /\ h_id h = id /\ h_failed h = None /\ h_r h = Some preimage.
Proof.
  intros Hf Ht Hm E. apply fulfill_effect in E as (h & n & Hget & _ & _ & Hn & ->).
  destruct (removable _ _ _ _ _ _ Hf Hget Hn) as (Hst & -> & Hid & (Hr & Hfail) & _). split.
  - eapply follows_remove; try done. unfold entry_of, removed, has_r. cbn. by rewrite Hfail.
  - eexists. split; [|split; [|split]]; [apply htlc_get_update_owner; [exact Hget|done|]|done..].
    unfold htlc_owner. cbn. rewrite Hst. by destruct (other t).
Qed.

Lemma follows_fail c g t id c' m f :
  follows c g -> table_ok c -> removes id m = Some false ->
  channel_fail_htlc c (other t) id = Ret (CHANNEL_ERR_REMOVE_OK, c') ->
  follows (with_htlc c' (other t) id (set_h_failed (Some f))) (append t m g)
  /\ exists h, htlc_get (the_htlcs (with_htlc c' (other t) id (set_h_failed (Some f)))) id (other t) = Some h
                /\ h_id h = id /\ h_failed h = Some f.
Proof.
  intros Hf Ht Hm E. apply fail_effect in E as (h & n & Hget & Hn & ->).
  destruct (removable _ _ _ _ _ _ Hf Hget Hn) as (Hst & -> & Hid & (Hr & Hfail) & _).
  assert (Hk : key (set_h_state (life (other t) 5) h) = key h) by (unfold key, htlc_owner; cbn; rewrite Hst; by destruct (other t)).
  unfold with_htlc at 1 3. change (the_htlcs (with_htlc c (other t) id (set_h_state (life (other t) 5))))
    with (update_htlc id (other t) (set_h_state (life (other t) 5)) (the_htlcs c)).
  rewrite (update_htlc_again _ _ _ _ _ _ Hget Hk). split.
  - apply (follows_remove c g t m id false h (life (other t) 5) (fun h => set_h_failed (Some f) (set_h_state (life (other t) 5) h)));
      try done. unfold entry_of, removed, has_r. cbn. by rewrite Hr.
  - eexists. split; [|split]; [cbn; apply htlc_get_update_owner; [exact Hget|done|]|done..].
    unfold htlc_owner. cbn. rewrite Hst. by destruct (other t).
Qed.

Lemma follows_update_feerate c g f c' :
  follows c g -> channel_update_feerate params c f = Ret (true, c') ->
  follows c' (append (opener c0) (msg_update_fee f) g).
Proof.
  intros Hf E. apply (follows_fee c); [done|]. unfold channel_update_feerate in E. split_bind E.
  destruct (negb x); [done|]. split_bind E. destruct x0; [done|]. by injection E as <-.
Qed.

Lemma follows_sending_commit total c g b chg c' :
  sound total c -> follows c g -> channel_sending_commit c = Ret (b, chg, c') ->
  (b = false -> follows c' g)
  /\ forall m, is_commit m = true -> tally is_commit g.[LOCAL] = tally is_revoke g.[REMOTE] -> follows c' (append LOCAL m g).
Proof.
  intros Hs Hf E. apply bind_change in E as (f & chg' & c1 & E & [= -> _ ->]). split.
  - intros ->%negb_false_iff%Z.eqb_eq. by eapply (follows_idle total _ _ _ SendCommit).
  - intros m Hm Hn. eapply (follows_dance total _ _ _ LOCAL m SendCommit); [done..| |exact E]. by left.
Qed.
Lemma follows_rcvd_commit total c g b chg c' m :
  sound total c -> follows c g -> channel_rcvd_commit c = Ret (b, chg, c') -> is_commit m = true ->
  tally is_commit g.[REMOTE] = tally is_revoke g.[LOCAL] -> follows c' (append REMOTE m g).
Proof.
  intros Hs Hf E Hm Hn. apply bind_change in E as (f & chg' & c1 & E & [= _ _ ->]).
  eapply (follows_dance total _ _ _ REMOTE m RcvdCommit); [done..| |exact E]. by left.
Qed.
Lemma follows_rcvd_revoke total c g b chg c' m :
  sound total c -> follows c g -> channel_rcvd_revoke_and_ack c = Ret (b, chg, c') -> is_revoke m = true ->
  (tally is_revoke g.[REMOTE] < tally is_commit g.[LOCAL])%nat -> follows c' (append REMOTE m g).
Proof.
  intros Hs Hf E Hm Hn. apply bind_change in E as (f & chg' & c1 & E & [= _ _ ->]).
  eapply (follows_dance total _ _ _ REMOTE m RcvdRevoke); [done..| |exact E]. by right.
Qed.
Lemma follows_sending_revoke total c g b chg c' m :
  sound total c -> follows c g -> channel_sending_revoke_and_ack c = Ret (b, chg, c') -> is_revoke m = true ->
  (tally is_revoke g.[LOCAL] < tally is_commit g.[REMOTE])%nat -> follows c' (append LOCAL m g).
Proof.
  intros Hs Hf E Hm Hn. apply bind_change in E as (f & chg' & c1 & E & [= _ _ ->]).
  eapply (follows_dance total _ _ _ LOCAL m SendRevoke); [done..| |exact E]. by right.
Qed.

Lemma swap_done_none c : chan_sym_swap c = None -> snd (channel_sym_swap_done c) = c.
Proof. unfold channel_sym_swap_done. by intros ->. Qed.
End Ops.
End Follow.

(** ** What is in force *)

Lemma follows_feerate {sigs} c0 f0 h0 c (g : sides (list (message sigs))) v :
  follows c0 f0 h0 c g ->
  channel_feerate c v = Ret (default f0 (newest fee_of (fun a => (a <? in_force g v (opener c0))%nat) g.[opener c0]))
  /\ channel_blockheight c v
     = Ret (default h0 (newest height_of (fun a => (a <? in_force g v (opener c0))%nat) g.[opener c0])).
Proof.
  intros Hf. destruct (fo_streams _ _ _ _ _ Hf) as [Hg _ _ _ _]. pose proof (follows_opener _ _ _ _ _ Hf) as Ho.
  unfold channel_feerate, channel_blockheight, get_feerate, get_blockheight. rewrite Ho.
  split; [apply first_in_force; [done|apply Hf]|]. destruct (fo_heights _ _ _ _ _ Hf) as (hs & -> & Hh). by apply first_in_force.
Qed.

(** The feerates in the streams are the channel's. *)
Lemma feerate_in_u32 {sigs} c0 f0 h0 c (g : sides (list (message sigs))) v f :
  follows c0 f0 h0 c g -> in_u32 f0 -> (forall s, Forall wf_message g.[s]) -> channel_feerate c v = Ret f -> in_u32 f.
Proof.
  intros Hf Hf0 Hw E. destruct (follows_feerate _ _ _ _ _ v Hf) as [E' _]. rewrite E in E'. injection E' as ->.
  destruct (newest _ _ _) as [x|] eqn:En; [|done]. apply newest_from_stream in En as (m & Hm & Ev).
  specialize (Hw (opener c0)). rewrite Forall_forall in Hw. specialize (Hw m Hm). destruct m; try done. by injection Ev as <-.
Qed.

(** ** Two channels that follow the same messages mirror each other

    One side has sent and received messages, the other side has received the
    former and sent the latter, perhaps more.  Then the commitment of the other
    side is the same in the eyes of both: feerate, blockheight, balances and
    HTLCs.  This is what [CommitAgree] needs to have both make the same
    transactions. *)

(** The channel one side starts with is that of the other, seen from there. *)
Record counterparts (c c' : channel) : Prop := {
  cp_opener : opener c' = other (opener c);
  cp_dust : forall s, conf_dust_limit (config c').[s] = conf_dust_limit (config c).[other s];
  cp_delay : forall s, to_self_delay (config c').[s] = to_self_delay (config c).[other s];
  cp_lease : lease_expiry c' = lease_expiry c;
  cp_number : commitment_number_obscurer c' = commitment_number_obscurer c;
  cp_asset : channel_asset c' = channel_asset c;
  cp_type : chan_type c' = chan_type c;
  cp_lanes : sym_lanes c' = sym_lanes c;
  cp_funding : ChannelState.funding c' = ChannelState.funding c;
  cp_sats : ChannelState.funding_sats c' = ChannelState.funding_sats c;
  cp_owed : forall s, base c' s = base c (other s);
}.

Lemma omap_perm {A B} (f : A -> option B) l k : l ≡ₚ k -> omap f l ≡ₚ omap f k.
Proof.
  induction 1 as [|x l k _ IH|x y l|l j k _ IH1 _ IH2]; rewrite ?omap_step; [done|..].
  - destruct (f x); by rewrite IH.
  - destruct (f x), (f y); try done. apply Permutation_swap.
  - by rewrite IH1.
Qed.

Section Mirror.
Context {sigs : Type}.
Notation log := (sides (list (message sigs))).

(** ** HTLCs *)

Lemma committed_shown (c : channel) s :
  (forall h, h ∈ the_htlcs c -> h_lane h = 0%nat) ->
  shown s <$> committed (gather_htlcs c s) = omap (e_shown s) (map entry_of (the_htlcs c)).
Proof.
  intros Hl. unfold gather_htlcs, gather_lane_htlcs. cbn [committed]. induction (the_htlcs c) as [|h l IH]; [done|].
  rewrite filter_cons_True by (unfold in_lane; by rewrite (Hl h) by left).
  cbn [map]. rewrite omap_step, <- IH by (intros x Hx; apply Hl; by right).
  unfold e_shown, e_has, e_owner. cbn [entry_of e_state e_amount e_expiry e_hash e_lock]. fold (htlc_has h (HTLC_FLAG s HTLC_F_COMMITTED)).
  fold (is_committed s h). destruct (is_committed s h) eqn:E.
  - by rewrite filter_cons_True.
  - by rewrite filter_cons_False by (by rewrite E).
Qed.

Lemma living_shown s l : omap (e_shown s) (living l) = omap (e_shown s) l.
Proof.
  induction l as [|e l IH]; [done|]. rewrite living_cons, (omap_step _ e), <- IH.
  destruct (alive e) eqn:E; [by rewrite omap_step|]. unfold alive in E. apply negb_false_iff in E.
  assert (e_shown s e = None) as ->; [|done]. unfold e_shown, e_has. by destruct (e_state e), s.
Qed.

Lemma follows_shown c0 f0 h0 c (g : log) v :
  follows c0 f0 h0 c g ->
  shown v <$> committed (gather_htlcs c v) ≡ₚ omap seen_shown (seen_in g v LOCAL) ++ omap seen_shown (seen_in g v REMOTE).
Proof.
  intros Hf. destruct (fo_streams _ _ _ _ _ Hf) as [Hg Ho _ _ _]. rewrite committed_shown by apply Hf.
  rewrite (omap_perm _ _ _ (fo_table _ _ _ _ _ Hf)), living_shown. unfold ledger. rewrite omap_app.
  destruct (entries_seen g v LOCAL LOCAL Hg Ho) as [_ ->]. by destruct (entries_seen g v REMOTE LOCAL Hg Ho) as [_ ->].
Qed.

Lemma follows_owed c0 f0 h0 c (g : log) v s :
  follows c0 f0 h0 c g ->
  millisatoshis (owed (view c).[v]).[s]
  = base c0 s + (sum_with (seen_adj (bool_decide (s = v))) (seen_in g v LOCAL)
                 + sum_with (seen_adj (bool_decide (s = v))) (seen_in g v REMOTE)).
Proof.
  intros Hf. destruct (fo_streams _ _ _ _ _ Hf) as [Hg Ho _ _ _]. rewrite (fo_owed _ _ _ _ _ Hf). unfold ledger. rewrite sum_with_app.
  destruct (entries_seen g v LOCAL s Hg Ho) as [-> _]. by destruct (entries_seen g v REMOTE s Hg Ho) as [-> _].
Qed.

(** ** Feerates and blockheights *)

Lemma newest_mirror (value : message sigs -> option Z) (g g' : log) z s :
  well_paced g -> g.[LOCAL] = g'.[REMOTE] -> g'.[LOCAL] = g.[REMOTE] ++ z ->
  newest value (fun a => (a <? in_force g REMOTE s)%nat) g.[s]
  = newest value (fun a => (a <? in_force g' LOCAL (other s))%nat) g'.[other s].
Proof.
  intros Hg E1 E2. pose proof (Hg LOCAL) as Hp. pose proof (acks_revokes (tally is_commit g.[LOCAL]) g.[LOCAL]) as Ha. cbn [other] in Hp.
  unfold in_force. destruct s; cbn [other].
  - rewrite !decide_False by done. by rewrite E1.
  - rewrite !decide_True by done. cbn [other]. rewrite <- E1, E2. symmetry. apply newest_app_below. intros a Hle.
    apply Nat.ltb_ge. lia.
Qed.

(** ** The commitment of the other side *)

Lemma msat_eq (a b : amount_msat_t) : millisatoshis a = millisatoshis b -> a = b.
Proof. destruct a, b. cbn. congruence. Qed.

Lemma follows_mirrors c0 c0' f0 h0 c c' (g g' : log) z :
  counterparts c0 c0' -> follows c0 f0 h0 c g -> follows c0' f0 h0 c' g' ->
  g.[LOCAL] = g'.[REMOTE] -> g'.[LOCAL] = g.[REMOTE] ++ z -> mirrors REMOTE LOCAL c c'.
Proof.
  intros [Ko Kdust Kdelay Kl Kn Ka Kt Klanes Kfund Ksats Kb] Hf Hf' E1 E2. pose proof (co_paced _ (fo_streams _ _ _ _ _ Hf)) as Hg.
  pose proof (fo_fixed _ _ _ _ _ Hf) as F. pose proof (fo_fixed _ _ _ _ _ Hf') as F'. unfold fixed in F, F'.
  injection F as Fo D1 D2 T1 T2 Fl Fn Fa Ft Fs Ff Fx. injection F' as Fo' D1' D2' T1' T2' Fl' Fn' Fa' Ft' Fs' Ff' Fx'.
  pose proof (seen_mirror g g' z LOCAL Hg E1 E2) as S1. pose proof (seen_mirror g g' z REMOTE Hg E1 E2) as S2.
  cbn [other] in S1, S2.
  assert (Howed : forall s, (owed (view c).[REMOTE]).[s] = (owed (view c').[LOCAL]).[other s]).
  { intros s. apply msat_eq. rewrite (follows_owed _ _ _ _ _ _ _ Hf), (follows_owed _ _ _ _ _ _ _ Hf'), S1, S2, Kb, other_involutive.
    replace (bool_decide (other s = LOCAL)) with (bool_decide (s = REMOTE)) by (by destruct s). lia. }
  destruct (follows_feerate _ _ _ _ _ REMOTE Hf) as [R1 R2]. destruct (follows_feerate _ _ _ _ _ LOCAL Hf') as [R1' R2'].
  split.
  - rewrite Fo, Fo', Ko. by destruct (opener c0).
  - specialize (Kdust LOCAL). cbn in *. congruence.
  - specialize (Kdelay REMOTE). cbn in *. congruence.
  - specialize (Kdust REMOTE). cbn in *. congruence.
  - specialize (Kdelay LOCAL). cbn in *. congruence.
  - congruence.
  - congruence.
  - congruence.
  - congruence.
  - congruence.
  - congruence.
  - congruence.
  - rewrite R1, R1', Ko, (newest_mirror fee_of g g' z) by done. done.
  - rewrite R2, R2', Ko, (newest_mirror height_of g g' z) by done. done.
  - apply Howed.
  - apply Howed.
  - rewrite (follows_shown _ _ _ _ _ _ Hf), (follows_shown _ _ _ _ _ _ Hf'), S1, S2. apply Permutation_app_comm.
Qed.
End Mirror.
