(* ===== verification/Pending.v ===== *)
(** * Updates that wait for a commitment

    [channel_sending_commit] and its counterparts say whether anything
    changed.  Something does exactly when there is an update in the streams
    that the message moves on ([busy]); so a commitment that has something to
    say for the side that sends it has for the side that gets it. *)

From stdpp Require Import list.
From S2P Require Import Prelude Chainparams Amount HtlcState FeeStates Features ChannelState Channel PeerState Peer ChannelInv ChannelSteps History Solvency Progress PeerSteps PeerFacts Ledger Follow.
Local Open Scope Z_scope.

Lemma existsb_ext {A} (f k : A -> bool) l : (forall x, f x = k x) -> existsb f l = existsb k l.
Proof. intros E. induction l as [|x l IH]; [done|]. cbn. by rewrite E, IH. Qed.

Section Pending.
Context {sigs : Type}.
Notation message := (message sigs).
Notation log := (sides (list message)).

Definition update (m : message) : bool := negb (silent m) && negb (is_commit m) && negb (is_revoke m).
Definition busy (g : log) (d : dance) : Prop :=
  exists s a m, (a, m) ∈ stamped 0 g.[s] /\ update m = true /\ stage g s a = leaves d s.

Lemma update_kinds m :
  update m = true ->
  is_Some (added_id m) \/ is_Some (removed_id m) \/ is_Some (fee_of m) \/ is_Some (height_of m).
Proof. destruct m; try done; eauto. Qed.
Lemma kinds_update m :
  is_Some (added_id m) \/ is_Some (removed_id m) \/ is_Some (fee_of m) \/ is_Some (height_of m) -> update m = true.
Proof. destruct m; try done; intros [[? ?]|[[? ?]|[[? ?]|[? ?]]]]; done. Qed.

(** The states a step moves on: of each side, the one of what is added and the
    one of what is removed by the other side. *)
Lemma leaves_states d s p :
  (p <= 4)%nat -> (life s p ∈ dance_states d <-> p = leaves d s) /\ (life s (5 + p) ∈ dance_states d <-> p = leaves d (other s)).
Proof.
  intros Hp. rewrite !(list_elem_of_In). do 5 (destruct p as [|p]; [destruct d, s; cbn; split; split; intuition congruence|]). lia.
Qed.
Lemma adding_states d st :
  st ∈ dance_states d -> state_has st HTLC_ADDING = true -> exists s, st = life s (leaves d s).
Proof.
  intros Hin. apply list_elem_of_In in Hin.
  destruct d; cbn in Hin; intuition subst; try done; by (exists LOCAL + exists REMOTE).
Qed.
Lemma leaves_lt d s : (leaves d s < 4)%nat.
Proof. destruct d, s; cbn; lia. Qed.

(** ** Something to move on is noticed *)

(** An HTLC that is not dead is in the table. *)
Lemma entry_listed c0 f0 h0 c (g : log) s e :
  follows c0 f0 h0 c g -> e ∈ entries g s -> htlc_state_is_dead (e_state e) = false ->
  exists h, h ∈ the_htlcs c /\ h_state h = e_state e.
Proof.
  intros Hf He Hst. assert (Hl : e ∈ living (ledger g)).
  { apply list_elem_of_filter. split; [unfold alive; by rewrite Hst|]. apply elem_of_app. destruct s; [by left|by right]. }
  rewrite <- (fo_table _ _ _ _ _ Hf) in Hl. apply list_elem_of_fmap in Hl as (h & -> & Hh). by exists h.
Qed.
Lemma life_alive s p : (p < 4)%nat -> htlc_state_is_dead (life s p) = false /\ htlc_state_is_dead (life s (5 + p)) = false.
Proof. intros Hp. do 4 (destruct p as [|p]; [by destruct s|]). lia. Qed.

(** An update under way of an HTLC is in the table. *)
Lemma update_listed c0 f0 h0 c (g : log) s a m :
  follows c0 f0 h0 c g -> (a, m) ∈ stamped 0 g.[s] -> is_Some (added_id m) \/ is_Some (removed_id m) ->
  (stage g s a < 4)%nat ->
  exists h, h ∈ the_htlcs c /\ (h_state h = life s (stage g s a) \/ h_state h = life (other s) (5 + stage g s a)).
Proof.
  intros Hf Hin Hm Hst. destruct (fo_streams _ _ _ _ _ Hf) as [Hg Ho Hu Hk Hr].
  assert (Hfin : forall t e, e ∈ entries g t -> e_state e = life s (stage g s a) \/ e_state e = life (other s) (5 + stage g s a) ->
    exists h, h ∈ the_htlcs c /\ (h_state h = life s (stage g s a) \/ h_state h = life (other s) (5 + stage g s a))).
  { intros t e He Ee. destruct (entry_listed _ _ _ _ _ t e Hf He) as (h & Hh & E); [|exists h; by rewrite E].
    destruct Ee as [-> | ->]; by apply life_alive. }
  destruct Hm as [[id Hid]|[id Hid]].
  - destruct (entry_at g s (a, m)) as [e|] eqn:Ee; [|by destruct m].
    apply (Hfin s e); [by apply list_elem_of_omap; exists (a, m)|left].
    assert (Hn : removal g s id = None).
    { destruct (removal g s id) eqn:E; [|done]. pose proof (Ho s a m id Hin Hid) as H4. rewrite E in H4. specialize (H4 ltac:(done)). lia. }
    unfold entry_at in Ee. destruct m; try done. injection Hid as ->. rewrite Hn in Ee. by apply Some_inj in Ee as <-.
  - destruct (first_removal_once id g.[s] 0%nat a m (Hr s) Hin Hid) as [f Hrem].
    assert (Hrem' : removal g (other s) id = Some (a, f)) by (unfold removal; by rewrite other_involutive).
    assert (Hadd : id ∈ omap added_id g.[other s]) by (apply Hk; by rewrite Hrem').
    rewrite <- entries_ids in Hadd. apply list_elem_of_fmap in Hadd as (e & Ei & He).
    apply (Hfin (other s) e); [done|right]. destruct (entries_from _ _ _ He) as (_ & b & x & _ & Ee).
    unfold entry_at in Ee. destruct x; try done. apply Some_inj in Ee. assert (id0 = id) as ->.
    { rewrite Ei, <- Ee. by destruct (removal g (other s) id0) as [[? ?]|]. }
    rewrite Hrem' in Ee. subst e. cbn [e_state]. by rewrite other_involutive.
Qed.

Lemma busy_table c0 f0 h0 c (g : log) d s a m :
  follows c0 f0 h0 c g -> (a, m) ∈ stamped 0 g.[s] -> is_Some (added_id m) \/ is_Some (removed_id m) ->
  stage g s a = leaves d s -> exists h, h ∈ the_htlcs c /\ stepped (dance_states d) h = true.
Proof.
  intros Hf Hin Hm Hst. pose proof (leaves_lt d s) as Hlt.
  destruct (update_listed _ _ _ _ _ _ _ _ Hf Hin Hm ltac:(lia)) as (h & Hh & E). exists h. split; [done|].
  apply bool_decide_eq_true. destruct E as [-> | ->]; apply leaves_states; rewrite ?other_involutive; lia.
Qed.

(** A value at that stage is in the array. *)
Lemma busy_array (value : message -> option Z) (g : log) s o a m v0 arr d :
  array_follows value g o v0 arr -> (a, m) ∈ stamped 0 g.[s] -> is_Some (value m) -> stage g s a = leaves d s ->
  s = o /\ arr (life o (leaves d o)) <> None.
Proof.
  intros [Ha _ Hst] Hin [v Hv] Hs. pose proof (leaves_lt d o) as Hlt.
  assert (s = o) as ->.
  { destruct (decide (s = o)) as [|Hne]; [done|]. assert (s = other o) as -> by (by destruct s, o).
    rewrite (Hst m) in Hv; [done|]. by eapply stamped_message. }
  split; [done|]. rewrite Ha by lia. unfold expected. destruct (Nat.eqb_spec (leaves d o) 4); [lia|].
  unfold newest. intros E%last_None. eapply (not_elem_of_nil v). rewrite <- E. apply list_elem_of_omap. exists (a, v). split.
  - unfold values. apply list_elem_of_omap. exists (a, m). split; [done|]. cbn beta iota. by rewrite Hv.
  - unfold at_stage. by rewrite Hs, Nat.eqb_refl.
Qed.

Lemma busy_changes c0 f0 h0 c (g : log) d chg c' :
  follows c0 f0 h0 c g -> busy g d -> change_htlcs c (dance_view d) (dance_states d) = Ret (0, chg, c') -> False.
Proof.
  intros Hf (s & a & m & Hin & Hm & Hs) E. pose proof (change_htlcs_arrays _ _ _ _ _ _ E) as (A & _ & _ & Hz).
  destruct (Hz eq_refl) as [A' Hst]. rewrite A' in A. unfold arrays in A. apply pair_equal_spec in A as [A1 A2].
  pose proof (leaves_lt d (opener c0)). apply update_kinds in Hm as [Hm|[Hm|[Hm|Hm]]].
  - destruct (busy_table _ _ _ _ _ _ _ _ _ Hf Hin (or_introl Hm) Hs) as (h & Hh & Hb). by rewrite Hst in Hb.
  - destruct (busy_table _ _ _ _ _ _ _ _ _ Hf Hin (or_intror Hm) Hs) as (h & Hh & Hb). by rewrite Hst in Hb.
  - destruct (busy_array _ _ _ _ _ _ _ _ _ (fo_fees _ _ _ _ _ Hf) Hin Hm Hs) as [_ Hn].
    rewrite A1, inc_array_dance, Nat.eqb_refl in Hn by lia. done.
  - destruct (fo_heights _ _ _ _ _ Hf) as (hs & Eh & Hh). rewrite Eh in A2. apply Some_inj in A2.
    destruct (busy_array _ _ _ _ _ _ _ _ _ Hh Hin Hm Hs) as [_ Hn].
    rewrite A2, inc_array_dance, Nat.eqb_refl in Hn by lia. done.
Qed.

(** ** What is noticed was there *)

Lemma change_each_still sc states l : forall b r,
  change_each sc states l b = Ret r -> existsb (stepped states) l = false -> ch_flags r = 0.
Proof.
  induction l as [|h l IH]; intros b r E Hst; cbn [change_each existsb] in *; [by injection E as <-|].
  apply orb_false_iff in Hst as [Hh Hl]. unfold stepped in Hh. rewrite Hh in E. split_bind E. injection E as <-. cbn. by eapply IH.
Qed.

(** Whether an array has something a step would move. *)
Definition holds (arr : state_array) (st : htlc_state) : bool :=
  state_has st HTLC_ADDING && bool_decide (arr st <> None).
Definition waiting (c : channel) (st : htlc_state) : bool :=
  holds (feerate (chan_fee_states c)) st
  || match blockheight_states c with Some hs => holds (height hs) st | None => false end.

Lemma inc_state_still arr st b arr' : inc_state arr st = Ret (b, arr') -> holds arr st = false -> b = false /\ arr' = arr.
Proof.
  unfold inc_state, holds, assert_then. destruct (state_has st HTLC_ADDING); [|done]. cbn [andb].
  intros E Hn%bool_decide_eq_false. destruct (arr st); [exfalso; by apply Hn|]. by injection E as <- <-.
Qed.

Lemma fee_incstate_still c st f c' :
  fee_incstate c st = Ret (f, c') -> holds (feerate (chan_fee_states c)) st = false ->
  f = 0 /\ feerate (chan_fee_states c') = feerate (chan_fee_states c) /\ blockheight_states c' = blockheight_states c.
Proof.
  unfold fee_incstate. intros E Hn. split_bind E. destruct (negb _); [by injection E as <- <-|].
  unfold inc_fee_state in E. split_bind E. destruct x0 as [b fs]. split_bind Hx0. destruct x0 as [b' arr].
  injection Hx0 as <- <-. injection E as <- <-. by apply inc_state_still in Hx1 as [-> ->].
Qed.
Lemma blockheight_incstate_still c st f c' :
  blockheight_incstate c st = Ret (f, c') -> (forall hs, blockheight_states c = Some hs -> holds (height hs) st = false) ->
  f = 0 /\ chan_fee_states c' = chan_fee_states c /\ (height <$> blockheight_states c') = (height <$> blockheight_states c).
Proof.
  unfold blockheight_incstate. intros E Hn. split_bind E. destruct (negb _); [by injection E as <- <-|].
  destruct (blockheight_states c) as [hs|]; [|done]. specialize (Hn hs eq_refl).
  unfold inc_height_state in E. split_bind E. destruct x0 as [b fs]. split_bind Hx0. destruct x0 as [b' arr].
  injection Hx0 as <- <-. injection E as <- <-. by apply inc_state_still in Hx1 as [-> ->].
Qed.

Lemma waiting_same c c' st : feerate (chan_fee_states c') = feerate (chan_fee_states c) ->
  (height <$> blockheight_states c') = (height <$> blockheight_states c) -> waiting c' st = waiting c st.
Proof.
  unfold waiting. intros -> E. f_equal. destruct (blockheight_states c'), (blockheight_states c); try done.
  apply Some_inj in E. by rewrite E.
Qed.

Lemma change_fees_still states : forall c f c',
  change_fees states c = Ret (f, c') -> existsb (waiting c) states = false -> f = 0.
Proof.
  induction states as [|st states IH]; intros c f c' E Hst; cbn [change_fees existsb] in *; [by injection E as <- _|].
  apply orb_false_iff in Hst as [[H1 H2]%orb_false_iff Hst].
  split_bind E. destruct x as [f1 c1]. split_bind E. destruct x as [f2 c2]. split_bind E. destruct x as [f3 c3].
  injection E as <- _. apply fee_incstate_still in Hx as (-> & E1 & E2); [|done].
  apply blockheight_incstate_still in Hx0 as (-> & E3 & E4); [|intros hs Ehs; rewrite <- E2, Ehs in H2; done].
  rewrite (IH _ _ _ Hx1); [done|]. rewrite <- Hst. apply existsb_ext. intros x. apply waiting_same; [by rewrite E3, E1|by rewrite E4, E2].
Qed.

Lemma change_htlcs_moves c sc states f chg c' :
  change_htlcs c sc states = Ret (f, chg, c') -> chan_sym_swap c = None -> f <> 0 ->
  existsb (stepped states) (the_htlcs c) = true \/ existsb (waiting c) (reverse states) = true.
Proof.
  unfold change_htlcs. intros E Hsw Hf. split_bind E. destruct (htlcs c) as [l|] eqn:El; [|done]. split_bind E. split_bind E.
  destruct x1 as [[w b] wf]. destruct (all_balances_ok b) as [os|]; [|done]. split_bind E. split_bind E.
  destruct x2 as [ff c2]. injection E as Ef _ _. rewrite Hsw in Hx1. injection Hx1 as <- _ <-.
  unfold the_htlcs. rewrite El. cbn [default]. destruct (existsb (stepped states) l) eqn:E1; [by left|]. right.
  destruct (existsb (waiting c) (reverse states)) eqn:E2; [done|]. exfalso. apply Hf.
  rewrite <- Ef, (change_each_still _ _ _ _ _ Hx0 E1), (change_fees_still _ _ _ _ Hx3); [done|].
  rewrite <- E2. apply existsb_ext. intros st. unfold set_view_owed in Hx2. destruct os; [done|]. by injection Hx2 as <-.
Qed.

(** A value in an array comes from the stream. *)
Lemma array_busy (value : message -> option Z) (g : log) o v0 arr d st :
  (forall m, is_Some (value m) -> update m = true) ->
  array_follows value g o v0 arr -> st ∈ dance_states d -> holds arr st = true -> busy g d.
Proof.
  intros Hup [Ha Hn _] Hst [Had Hne%bool_decide_eq_true]%andb_true_iff.
  apply adding_states in Hst as [s ->]; [|done]. pose proof (leaves_lt d s) as Hlt.
  destruct (decide (s = o)) as [->|Hso].
  - rewrite Ha in Hne by lia. unfold expected in Hne. destruct (Nat.eqb_spec (leaves d o) 4); [lia|].
    destruct (newest value (at_stage g o (leaves d o)) g.[o]) as [v|] eqn:E; [|done]. unfold newest in E.
    apply last_Some in E as [k E].
    assert (Hin : v ∈ omap (fun '(a, v) => if at_stage g o (leaves d o) a then Some v else None) (values value g.[o]))
      by (rewrite E; set_solver).
    apply list_elem_of_omap in Hin as ([a x] & Hin & Ex). destruct (at_stage g o (leaves d o) a) eqn:Es; [|done].
    unfold values in Hin. apply list_elem_of_omap in Hin as ([a' m] & Hin & Em). destruct (value m) eqn:Ev; [|done].
    injection Em as -> ->. exists o, a, m. split; [done|]. split; [apply Hup; by rewrite Ev|]. by apply Nat.eqb_eq in Es.
  - assert (s = other o) as -> by (by destruct s, o). rewrite Hn in Hne by lia. done.
Qed.

Lemma changes_busy c0 f0 h0 c (g : log) d f chg c' :
  follows c0 f0 h0 c g -> change_htlcs c (dance_view d) (dance_states d) = Ret (f, chg, c') -> f <> 0 -> busy g d.
Proof.
  intros Hf E Hz. apply change_htlcs_moves in E as [E|E]; [| |apply Hf|done].
  - apply existsb_exists in E as (h & Hh%list_elem_of_In & Hst%bool_decide_eq_true).
    assert (Hin : entry_of h ∈ living (ledger g)) by (rewrite <- (fo_table _ _ _ _ _ Hf); by apply list_elem_of_fmap_2).
    apply list_elem_of_filter in Hin as [_ Hin]. assert (exists s, entry_of h ∈ entries g s) as [s Hs].
    { apply elem_of_app in Hin as [?|?]; by eexists. }
    destruct (entries_from _ _ _ Hs) as (_ & a & m & Ham & Ee). unfold entry_at in Ee. destruct m; try done.
    apply Some_inj, (f_equal e_state) in Ee. cbn [entry_of e_state] in Ee. rewrite <- Ee in Hst.
    destruct (removal g s id) as [[b fl]|] eqn:Er; cbn [e_state] in Hst.
    + apply leaves_states in Hst; [|apply stage_le]. unfold removal in Er. apply first_removal_in in Er as (m & Hm & Hr).
      exists (other s), b, m. split; [done|]. split; [|done]. apply kinds_update. right. left.
      assert (removed_id m = Some id) as -> by (apply removes_id; by rewrite Hr). by eexists.
    + apply leaves_states in Hst; [|apply stage_le]. by eexists s, a, _.
  - apply existsb_exists in E as (st & Hst & Hw). rewrite <- list_elem_of_In, elem_of_reverse in Hst. unfold waiting in Hw.
    apply orb_true_iff in Hw as [Hw|Hw].
    + eapply array_busy; [|apply Hf|exact Hst|exact Hw]. intros m Hm. apply kinds_update. auto.
    + destruct (fo_heights _ _ _ _ _ Hf) as (hs & Eh & Hh). rewrite Eh in Hw.
      eapply array_busy; [|exact Hh|exact Hst|exact Hw]. intros m Hm. apply kinds_update. auto.
Qed.

(** ** The other side *)

Lemma busy_mirror (g g' : log) z :
  well_paced g -> well_paced g' -> g.[LOCAL] = g'.[REMOTE] -> g'.[LOCAL] = g.[REMOTE] ++ z ->
  busy g SendCommit -> busy g' RcvdCommit.
Proof.
  intros Hg Hg' E1 E2 (s & a & m & Hin & Hm & Hs). pose proof (stage_chain g s Hg) as Hch.
  pose proof (stage_chain g' (other s) Hg') as Hch'. rewrite other_involutive in Hch'.
  assert (tally is_commit g.[REMOTE] <= tally is_commit g'.[LOCAL])%nat by (rewrite E2, tally_app; lia).
  exists (other s), a, m. split; [|split; [done|]].
  - destruct s; cbn [other]; [by rewrite <- E1|]. rewrite E2, stamped_app. apply elem_of_app. by left.
  - unfold stage in *. rewrite other_involutive. destruct s; cbn [other leaves] in *; rewrite <- E1 in *;
      repeat match type of Hs with context [(?x <? ?y)%nat] => destruct (Nat.ltb_spec x y); cbn [Nat.b2n] in Hs; try lia end;
      repeat match goal with |- context [(?x <? ?y)%nat] => destruct (Nat.ltb_spec x y); cbn [Nat.b2n]; try lia end.
Qed.
End Pending.
