(* ===== verification/Track.v ===== *)
(** * channeld follows its messages

    Every handler of channeld/channeld.c keeps the channel in step with the
    messages written and read ([Follow]), counts the commitments and
    revocations right in its [u64] indices, and remembers the per-commitment
    points of the last revocations.  A [commitment_signed] in the stream was
    signed for the channel that the messages before it make. *)

From stdpp Require Import list.
From S2P Require Import Prelude Chainparams Amount HtlcState FeeStates Features Keys ChannelState Channel CommitTx PeerState Peer ChannelInv ChannelSteps History Solvency Progress PeerSteps PeerFacts Ledger Follow Pending.
Local Open Scope Z_scope.

Notation nC := (tally is_commit).
Notation nR := (tally is_revoke).

(** Neither a commitment nor a revocation. *)
Definition uncounted {sigs} (m : message sigs) : bool := negb (is_commit m) && negb (is_revoke m).
Lemma uncounted_tally {sigs} (l : list (message sigs)) : Forall uncounted l -> nC l = 0%nat /\ nR l = 0%nat.
Proof.
  induction 1 as [|m l Hm Hl [IH1 IH2]]; [done|]. cbn. rewrite IH1, IH2. unfold uncounted in Hm.
  by destruct (is_commit m), (is_revoke m).
Qed.

(** The last two per-commitment points of a stream of revocations. *)
Definition next_point {sigs} (x : list Z * list Z) (m : message sigs) : list Z * list Z :=
  match m with msg_revoke_and_ack _ point _ => (snd x, point) | _ => x end.
Definition points {sigs} (x : list Z * list Z) (l : list (message sigs)) : list Z * list Z := fold_left next_point l x.

Lemma points_app {sigs} x (l k : list (message sigs)) : points x (l ++ k) = points (points x l) k.
Proof. apply fold_left_app. Qed.
Lemma points_uncounted {sigs} x (l : list (message sigs)) : Forall (fun m => is_revoke m = false) l -> points x l = x.
Proof. induction 1 as [|m l Hm Hl IH]; [done|]. unfold points in *. cbn [fold_left]. replace (next_point x m) with x by (by destruct m). done. Qed.
Lemma no_revoke {sigs} (l : list (message sigs)) : nR l = 0%nat -> Forall (fun m => is_revoke m = false) l.
Proof. induction l as [|m l IH]; intros Hl; constructor; cbn in Hl; destruct (is_revoke m); try done. by apply IH. Qed.

Lemma wrap_close a b : wrap_u64 a = wrap_u64 b -> 0 <= b - a <= 1 -> a = b.
Proof. unfold wrap_u64. intros E Hd. Z.div_mod_to_equations. lia. Qed.
Lemma wrap_sub a b : wrap_u64 (wrap_u64 a - b) = wrap_u64 (a - b).
Proof. unfold wrap_u64. rewrite Zminus_mod_idemp_l. done. Qed.
Lemma wrap_add a b : wrap_u64 (wrap_u64 a + b) = wrap_u64 (a + b).
Proof. unfold wrap_u64. rewrite Zplus_mod_idemp_l. done. Qed.

Section Track.
Context (params : chainparams) (sha256 : list Z -> list Z) (point_lock_opens : list Z -> list Z -> bool).
Context (our_features : feature_set) (their_features upfront : list Z) (developer : bool).
Context (tlv_fields : add_tlvs -> option (list (Z * list Z))) (junk : Z).
Context `{Secp256k1} {sigs : Type} (sg : signer sigs).
Notation peer := (peer sigs).
Notation peer_in := (peer_in params sha256 point_lock_opens our_features their_features upfront tlv_fields junk sg).
Notation req_in := (req_in params sha256 point_lock_opens our_features their_features developer sg).
(** The channel, its feerate and blockheight at the start; the points then. *)
Context (funding_sats : amount_sat_t) (c0 : channel) (f0 h0 : Z) (ours theirs : list Z * list Z).
Notation reachable := (reachable params sha256 point_lock_opens funding_sats []).
Notation total := (capacity funding_sats []).
Notation follows := (follows c0 f0 h0).

(** Each commitment was signed when all the previous ones were revoked, for
    the channel of what was sent and received up to then. *)
Definition signed_from (wrote read : list (message sigs)) : Prop :=
  forall l1 s w l2, wrote = l1 ++ msg_commitment_signed s w :: l2 ->
    w = None /\ exists c k pbase, k `prefix_of` read /\ nR k = nC l1 /\ reachable c /\ busy (mk_sides l1 k) SendCommit
      /\ follows c (mk_sides (l1 ++ [msg_commitment_signed s w]) k)
      /\ sign_commit sg c (wrap_u64 (1 + Z.of_nat (nC l1))) (snd (points theirs k)) = Ret (s, pbase).

(** Each revocation is the secret of the commitment whose turn it is. *)
Definition revoked_from (wrote : list (message sigs)) : Prop :=
  forall l1 secret point sym l2, wrote = l1 ++ msg_revoke_and_ack secret point sym :: l2 ->
    revoke_commitment sg (wrap_u64 (Z.of_nat (nR l1))) = Ret (secret, point).

Record tracks (p : peer) (rcvd : list (message sigs)) : Prop := {
  tr_reachable : reachable (chan p);
  tr_follows : follows (chan p) (mk_sides (sent p) rcvd);
  tr_acked : nR (sent p) = nC rcvd;
  tr_remote_index : (next_index p).[REMOTE] = wrap_u64 (1 + Z.of_nat (nC (sent p)));
  tr_local_index : (next_index p).[LOCAL] = wrap_u64 (1 + Z.of_nat (nC rcvd));
  tr_revocations : revocations_received p = wrap_u64 (Z.of_nat (nR rcvd));
  tr_id : 0 <= htlc_id p;
  tr_ids : Forall (fun id => id < htlc_id p) (omap added_id (sent p));
  tr_ours : next_local_per_commit p = snd (points ours (sent p));
  tr_theirs : (old_remote_per_commit p, remote_per_commit p) = points theirs rcvd;
  tr_ready : (channel_ready p).[REMOTE] = true;
  tr_signed : signed_from (sent p) rcvd;
  tr_revoked : revoked_from (sent p);
  tr_wrote : Forall wf_message (sent p);
  tr_read : Forall wf_message rcvd;
  tr_desired : in_u32 (desired_feerate p);
  tr_feerate : in_u32 f0;
}.

(** More was read, and what was written has no commitment. *)
Lemma signed_more wrote read l l' : nC l = 0%nat -> signed_from wrote read -> signed_from (wrote ++ l) (read ++ l').
Proof.
  intros Hl Hs l1 s w l2 E. apply app_eq_inv in E as [(k & -> & E)|(k & -> & E)].
  - destruct k as [|m k].
    + cbn in E. rewrite <- E in Hl. cbn in Hl. done.
    + injection E as <- ->. destruct (Hs l1 s w k eq_refl) as (Hw & c & k' & pb & [z ->] & Hr). split; [done|].
      exists c, k', pb. split; [|done]. exists (z ++ l'). by rewrite app_assoc.
  - rewrite E, tally_app in Hl. cbn in Hl. lia.
Qed.

Lemma revoked_more wrote l : nR l = 0%nat -> revoked_from wrote -> revoked_from (wrote ++ l).
Proof.
  intros Hl Hs l1 x pt sym l2 E. apply app_eq_inv in E as [(k & -> & E)|(k & -> & E)].
  - destruct k as [|m k].
    + cbn in E. rewrite <- E in Hl. cbn in Hl. done.
    + injection E as Em ->. subst m. by apply (Hs l1 x pt sym k).
  - rewrite E, tally_app in Hl. cbn in Hl. lia.
Qed.
Lemma revoked_one wrote secret point sym :
  revoked_from wrote -> revoke_commitment sg (wrap_u64 (Z.of_nat (nR wrote))) = Ret (secret, point) ->
  revoked_from (wrote ++ [msg_revoke_and_ack secret point sym]).
Proof.
  intros Hs E l1 x pt sym' l2 Eq. apply app_eq_inv in Eq as [(k & -> & Eq)|(k & -> & Eq)].
  - destruct k as [|m k].
    + injection Eq as Ex Ep _ _. subst x pt. by rewrite app_nil_r in E.
    + injection Eq as Em ->. subst m. by apply (Hs l1 x pt sym' k).
  - destruct k as [|m k]; [|injection Eq as _ Eq; by destruct k]. injection Eq as Ex Ep _ _. subst x pt. by rewrite app_nil_r.
Qed.

(** A step that is neither a commitment nor a revocation. *)
Lemma tracks_quiet p p' rcvd l l' :
  tracks p rcvd -> sent p' = sent p ++ l -> Forall uncounted l -> Forall uncounted l' ->
  Forall wf_message l -> Forall wf_message l' -> in_u32 (desired_feerate p') ->
  next_index p' = next_index p -> revocations_received p' = revocations_received p ->
  next_local_per_commit p' = next_local_per_commit p ->
  (old_remote_per_commit p', remote_per_commit p') = (old_remote_per_commit p, remote_per_commit p) ->
  channel_ready p' = channel_ready p -> 0 <= htlc_id p' -> Forall (fun id => id < htlc_id p') (omap added_id (sent p')) ->
  reachable (chan p') -> follows (chan p') (mk_sides (sent p') (rcvd ++ l')) -> tracks p' (rcvd ++ l').
Proof.
  intros [R F A IR IL V Z0 I O T D S K W W' N Nf] E Hl Hl' Wl Wl' Wn E1 E2 E3 E4 E5 Hz Hi Hr Hf.
  destruct (uncounted_tally _ Hl) as [C1 R1]. destruct (uncounted_tally _ Hl') as [C2 R2].
  split; try done; rewrite ?E1, ?E2, ?E3, ?E4, ?E5, ?E, ?tally_app, ?C1, ?C2, ?R1, ?R2, ?Nat.add_0_r, ?points_app; try done.
  - rewrite (points_uncounted _ l) by (by apply no_revoke). done.
  - rewrite (points_uncounted _ l') by (by apply no_revoke). done.
  - by apply signed_more.
  - by apply revoked_more.
  - by apply Forall_app.
  - by apply Forall_app.
Qed.

(** What the invariant is about, but for the channel and the streams. *)
Definition counters (p : peer) :=
  (next_index p, revocations_received p, next_local_per_commit p, (old_remote_per_commit p, remote_per_commit p),
   channel_ready p, htlc_id p, desired_feerate p).

(** A message is read, nothing is written. *)
Lemma tracks_read p p' rcvd m :
  tracks p rcvd -> uncounted m = true -> wf_message m -> sent p' = sent p -> counters p' = counters p ->
  reachable (chan p') -> follows (chan p') (append REMOTE m (mk_sides (sent p) rcvd)) -> tracks p' (rcvd ++ [m]).
Proof.
  intros Ht Hm Hwf E Ec Hr Hf. unfold counters in Ec. injection Ec as E1 E2 E3 E4 E4' E5 E6 E7.
  apply (tracks_quiet p p' rcvd [] [m]); try done; rewrite ?E, ?E6, ?E7, ?app_nil_r; try done;
    [by constructor; [apply Is_true_true|]|by constructor|apply Ht|congruence|apply Ht..].
Qed.
(** A message is written. *)
Lemma tracks_write p p' rcvd m :
  tracks p rcvd -> uncounted m = true -> wf_message m -> added_id m = None -> sent p' = sent p ++ [m] -> counters p' = counters p ->
  reachable (chan p') -> follows (chan p') (append LOCAL m (mk_sides (sent p) rcvd)) -> tracks p' rcvd.
Proof.
  intros Ht Hm Hwf Hi E Ec Hr Hf. unfold counters in Ec. injection Ec as E1 E2 E3 E4 E4' E5 E6 E7.
  rewrite <- (app_nil_r rcvd). apply (tracks_quiet p p' rcvd [m] []); try done; rewrite ?E, ?E6, ?E7, ?app_nil_r; try done;
    [by constructor; [apply Is_true_true|]|by constructor|apply Ht|congruence|apply Ht|].
  rewrite omap_app. cbn. rewrite Hi, app_nil_r. apply Ht.
Qed.
(** Nothing is read or written. *)
Lemma tracks_same p p' rcvd :
  tracks p rcvd -> sent p' = sent p -> counters p' = counters p -> reachable (chan p') ->
  follows (chan p') (mk_sides (sent p) rcvd) -> tracks p' rcvd.
Proof.
  intros Ht E Ec Hr Hf. unfold counters in Ec. injection Ec as E1 E2 E3 E4 E4' E5 E6 E7.
  rewrite <- (app_nil_r rcvd). apply (tracks_quiet p p' rcvd [] []); try done; rewrite ?E, ?E6, ?E7, ?app_nil_r; try done;
    [apply Ht|congruence|apply Ht..].
Qed.
Lemma tracks_idle p p' rcvd :
  tracks p rcvd -> sent p' = sent p -> counters p' = counters p -> chan p' = chan p -> tracks p' rcvd.
Proof. intros Ht E Ec E'. apply (tracks_same p); try done; rewrite E'; apply Ht. Qed.
Lemma tracks_read_silent p p' rcvd m :
  tracks p rcvd -> silent m = true -> sent p' = sent p -> counters p' = counters p -> chan p' = chan p ->
  tracks p' (rcvd ++ [m]).
Proof.
  intros Ht Hm E Ec E'. apply (tracks_read p); try done; rewrite ?E'; [by destruct m|by destruct m|apply Ht|].
  apply follows_silent; [done|apply Ht].
Qed.
Lemma tracks_write_silent p p' rcvd m :
  tracks p rcvd -> silent m = true -> sent p' = sent p ++ [m] -> counters p' = counters p -> chan p' = chan p ->
  tracks p' rcvd.
Proof.
  intros Ht Hm E Ec E'. apply (tracks_write p p' rcvd m); try done; rewrite ?E'; [by destruct m|by destruct m|by destruct m|apply Ht|].
  apply follows_silent; [done|apply Ht].
Qed.

Lemma maybe_send_stfu_tracks p p' rcvd : tracks p rcvd -> maybe_send_stfu p = Done p' -> tracks p' rcvd.
Proof.
  unfold maybe_send_stfu. intros Ht E. destruct (negb (want_stfu p)); [by injection E as <-|].
  apply run_bind_Done in E as ([] & _ & E); [by injection E as <-|].
  cbv zeta in E. match type of E with context [is_stfu_active ?x] => set (q := x) in E end.
  assert (Ht' : tracks q rcvd).
  { subst q. destruct (negb _); [|done]. by eapply tracks_write_silent; [exact Ht| |reflexivity|..]. }
  clearbody q. destruct (is_stfu_active q); [|by apply Done_inj in E as <-].
  apply Done_inj in E as <-. cbn [on_stfu_success set_stfu_wait_single_msg master_write set_told set_want_stfu].
  destruct (on_stfu_success q); by apply (tracks_idle q).
Qed.
Lemma maybe_send_shutdown_tracks p p' rcvd : tracks p rcvd -> maybe_send_shutdown p = Done p' -> tracks p' rcvd.
Proof.
  unfold maybe_send_shutdown. intros Ht E. destruct (negb _) in E; [by injection E as <-|].
  apply billboard_chan in E as ->. by eapply tracks_write_silent; [exact Ht| |reflexivity|..].
Qed.

(** ** Messages of the peer *)

Lemma handle_peer_add_tracks id amount hash expiry onion tlvs p p' rcvd :
  tracks p rcvd -> wf_msat amount -> id ∉ omap added_id rcvd ->
  handle_peer_add_htlc params our_features tlv_fields id amount hash expiry onion tlvs p = Done p' ->
  reachable (chan p') -> tracks p' (rcvd ++ [msg_update_add_htlc id amount hash expiry onion tlvs]).
Proof.
  unfold handle_peer_add_htlc. intros Ht Hwf Hid E Hr. do 2 apply check_Done in E as [_ E].
  apply run_bind_Done in E as (r & E1%lift_Done & E). apply check_Done in E as [He%bool_decide_eq_true E]. injection E as <-.
  apply (tracks_read p); try done. by eapply follows_offer; [apply Ht|..].
Qed.

Lemma handle_peer_fulfill_tracks id preimage p p' rcvd :
  tracks p rcvd -> handle_peer_fulfill_htlc sha256 point_lock_opens id preimage p = Done p' ->
  reachable (chan p') -> tracks p' (rcvd ++ [msg_update_fulfill_htlc id preimage]).
Proof.
  unfold handle_peer_fulfill_htlc. intros Ht E Hr. apply run_bind_Done in E as ([e c] & E1%lift_Done & E).
  apply check_Done in E as [->%bool_decide_eq_true E]. injection E as <-.
  apply (tracks_read p); try done. pose proof (reachable_table _ _ _ _ _ _ (tr_reachable _ _ Ht)).
  eapply (follows_fulfill _ _ _ _ _ _ _ REMOTE); [apply Ht|done| |exact E1]. cbn. by rewrite Z.eqb_refl.
Qed.

Lemma fail_with_tracks f m p p' rcvd :
  tracks p rcvd -> fail_with f p = Done p' -> removes (failed_id f) m = Some false -> reachable (chan p') ->
  tracks p' (rcvd ++ [m]).
Proof.
  unfold fail_with. intros Ht E Hm Hr. apply run_bind_Done in E as ([e c] & E1%lift_Done & E).
  apply check_Done in E as [->%bool_decide_eq_true E]. injection E as <-.
  apply (tracks_read p); try done; [by destruct m|by destruct m|]. pose proof (reachable_table _ _ _ _ _ _ (tr_reachable _ _ Ht)).
  eapply (follows_fail _ _ _ _ _ REMOTE); [apply Ht|done|done|exact E1].
Qed.

Lemma handle_peer_feechange_tracks f p p' rcvd :
  tracks p rcvd -> in_u32 f -> handle_peer_feechange params f p = Done p' -> reachable (chan p') ->
  tracks p' (rcvd ++ [msg_update_fee f]).
Proof.
  unfold handle_peer_feechange. intros Ht Hwf E Hr. apply check_Done in E as [Ho%bool_decide_eq_true E].
  apply run_bind_Done in E as (ok & _ & E). apply check_Done in E as [_ E].
  apply run_bind_Done in E as ([afford c] & E1%lift_Done & E). apply check_Done in E as [-> E]. injection E as <-.
  apply (tracks_read p); try done. rewrite (follows_opener _ _ _ _ _ (tr_follows _ _ Ht)) in Ho. rewrite <- Ho.
  by eapply follows_update_feerate; [apply Ht|].
Qed.
Lemma handle_peer_blockheight_tracks h p p' rcvd :
  tracks p rcvd -> handle_peer_blockheight_change h p = Done p' -> reachable (chan p') ->
  tracks p' (rcvd ++ [msg_update_blockheight h]).
Proof.
  unfold handle_peer_blockheight_change. intros Ht E Hr. apply check_Done in E as [Ho%bool_decide_eq_true E].
  apply run_bind_Done in E as (cur & _ & E). do 4 apply check_Done in E as [_ E].
  apply run_bind_Done in E as (c & E1%lift_Done & E). injection E as <-.
  apply (tracks_read p); try done. rewrite (follows_opener _ _ _ _ _ (tr_follows _ _ Ht)) in Ho. rewrite <- Ho.
  by eapply follows_height; [apply Ht|].
Qed.

Lemma handle_stfu_tracks b p p' rcvd :
  tracks p rcvd -> handle_stfu our_features their_features b p = Done p' -> tracks p' (rcvd ++ [msg_stfu b]).
Proof.
  unfold handle_stfu. intros Ht E. apply check_Done in E as [_ E]. apply run_bind_Done in E as (x & _ & E).
  apply check_Done in E as [_ E]. apply run_bind_Done in E as (p1 & E1 & E). eapply maybe_send_stfu_tracks; [|exact E].
  apply (tracks_read_silent p); try done;
    (destruct (negb _) in E1; [apply check_Done in E1 as [_ E1]|]); injection E1 as <-; by destruct b.
Qed.

(** Every message that is neither a commitment nor a revocation. *)
Lemma peer_in_quiet m p p' rcvd :
  tracks p rcvd -> uncounted m = true -> wf_message m -> (forall i, added_id m = Some i -> i ∉ omap added_id rcvd) ->
  peer_in m p = Done p' -> within total (chan p') -> tracks p' (rcvd ++ [m]).
Proof.
  intros Ht Hm Hwf Hid E Hw.
  assert (Hr : reachable (chan p')) by (eapply peer_in_reach; [apply Ht|exact Hwf|exact E|exact Hw]).
  unfold Peer.peer_in in E. do 3 apply check_Done in E as [_ E].
  destruct m as [point| |id amount hash expiry onion tlvs|id preimage|id reason|id sha code|feerate|height
    |s swap|secret point s|script wrong|i| |]; try done.
  - unfold handle_peer_channel_ready in E. rewrite (tr_ready _ _ Ht) in E. injection E as <-. by apply (tracks_read_silent p).
  - injection E as <-. by apply (tracks_read_silent p).
  - eapply handle_peer_add_tracks; [done|done| |exact E|done]. by apply Hid.
  - by eapply handle_peer_fulfill_tracks.
  - eapply fail_with_tracks; [done|exact E| |done]. cbn. by rewrite Z.eqb_refl.
  - eapply fail_with_tracks; [done|exact E| |done]. cbn. by rewrite Z.eqb_refl.
  - by eapply handle_peer_feechange_tracks.
  - by eapply handle_peer_blockheight_tracks.
  - unfold handle_peer_shutdown in E. do 2 apply check_Done in E as [_ E]. apply billboard_chan in E as ->.
    apply (tracks_read_silent p); try done; by destruct (negb _).
  - by eapply handle_stfu_tracks.
Qed.

(** ** Requests of lightningd *)

Lemma handle_offer_tracks amount expiry hash onion path_key extra lock lane p p' rcvd :
  tracks p rcvd -> wf_msat amount -> htlc_id p < UINT64_MAX ->
  handle_offer_htlc params our_features their_features amount expiry hash onion path_key extra lock lane p = Done p' ->
  reachable (chan p') -> tracks p' rcvd.
Proof.
  unfold handle_offer_htlc. intros Ht Hwf Hmax E Hr. do 3 apply check_Done in E as [_ E].
  apply run_bind_Done in E as (r & E1%lift_Done & E). case_bool_decide as He.
  - injection E as <-. pose proof (tr_id _ _ Ht). pose proof (tr_ids _ _ Ht) as Hids. rewrite <- (app_nil_r rcvd).
    assert (Hn : wrap_u64 (htlc_id p + 1) = htlc_id p + 1) by (apply wrap_u64_small; lia).
    eapply (tracks_quiet p _ _ _ []); [done|reflexivity|by repeat constructor|constructor|by constructor|constructor|apply Ht|done..| | | |].
    + cbn [htlc_id set_htlc_id master_write set_told start_commit_timer set_commit_timer peer_write set_sent set_chan].
      rewrite Hn. lia.
    + cbn [htlc_id set_htlc_id sent master_write set_told start_commit_timer set_commit_timer peer_write set_sent set_chan].
      rewrite Hn, omap_app. apply Forall_app. split; [|repeat constructor; lia]. eapply Forall_impl; [exact Hids|]. cbn. lia.
    + exact Hr.
    + rewrite app_nil_r. eapply (follows_offer _ _ _ _ _ (mk_sides (sent p) rcvd) LOCAL); [apply Ht|done| |done|exact E1|exact He].
      intros Hin. rewrite Forall_forall in Hids. apply Hids in Hin. lia.
  - apply check_Done in E as [_ E]. injection E as <-. apply (tracks_idle p); try done. cbn.
    apply add_htlc_effect in E1. unfold all_or_nothing in E1. rewrite decide_False in E1 by done. apply E1.
Qed.

Lemma handle_preimage_tracks id preimage p p' rcvd :
  tracks p rcvd -> handle_preimage sha256 point_lock_opens id preimage p = Done p' -> reachable (chan p') -> tracks p' rcvd.
Proof.
  unfold handle_preimage. intros Ht E Hr. apply run_bind_Done in E as ([e c] & E1%lift_Done & E).
  apply check_Done in E as [->%bool_decide_eq_true E]. apply run_bind_Done in E as (p1 & E2 & E). injection E as <-.
  pose proof (reachable_table _ _ _ _ _ _ (tr_reachable _ _ Ht)) as Htab.
  destruct (follows_fulfill c0 f0 h0 sha256 point_lock_opens (chan p) (mk_sides (sent p) rcvd) LOCAL id preimage c
    (msg_update_fulfill_htlc id preimage) (tr_follows _ _ Ht) Htab ltac:(cbn; by rewrite Z.eqb_refl) E1)
    as (Hf & h & Hget & Hid & Hfail & Hpre).
  unfold send_removal, channel_get_htlc in E2. cbn [chan set_chan other] in E2.
  destruct (fo_some _ _ _ _ _ Hf) as [l Hl]. unfold the_htlcs in Hget. rewrite Hl in E2, Hget. change (default [] (Some l)) with l in Hget.
  cbn [lift mbind run_bind] in E2. cbn [other] in Hget. rewrite Hget in E2. unfold send_fail_or_fulfill in E2.
  rewrite Hfail, Hpre, Hid in E2. injection E2 as <-.
  by eapply (tracks_write p); [done| | | |reflexivity|..].
Qed.

Lemma handle_fail_tracks f p p' rcvd :
  tracks p rcvd -> handle_fail f p = Done p' -> reachable (chan p') -> tracks p' rcvd.
Proof.
  unfold handle_fail. intros Ht E Hr. apply run_bind_Done in E as ([e c] & E1%lift_Done & E).
  apply check_Done in E as [->%bool_decide_eq_true E]. apply run_bind_Done in E as (p1 & E2 & E). injection E as <-.
  pose proof (reachable_table _ _ _ _ _ _ (tr_reachable _ _ Ht)) as Htab.
  pose proof (fun m => follows_fail c0 f0 h0 (chan p) (mk_sides (sent p) rcvd) LOCAL (failed_id f) c
    m f (tr_follows _ _ Ht) Htab) as Hf.
  assert (exists h, htlc_get (the_htlcs (with_htlc c REMOTE (failed_id f) (set_h_failed (Some f)))) (failed_id f) REMOTE = Some h
    /\ h_id h = failed_id f /\ h_failed h = Some f) as (h & Hget & Hid & Hfail).
  { apply (Hf (msg_update_fail_htlc (failed_id f) [])); [cbn; by rewrite Z.eqb_refl|done]. }
  unfold send_removal, channel_get_htlc in E2. cbn [chan set_chan htlcs with_htlc set_htlcs lift mbind run_bind] in E2.
  change (the_htlcs (with_htlc c REMOTE (failed_id f) (set_h_failed (Some f))))
    with (update_htlc (failed_id f) REMOTE (set_h_failed (Some f)) (the_htlcs c)) in Hget.
  rewrite Hget in E2. unfold send_fail_or_fulfill in E2. rewrite Hfail, Hid in E2.
  destruct (sha256_of_onion f) as [sha|]; [|destruct (onion f) as [reason|]; [|done]]; injection E2 as <-;
    (eapply (tracks_write p); [done| | | |reflexivity|done|exact Hr|]); try done;
    (apply Hf; [cbn; by rewrite Z.eqb_refl|done]).
Qed.

Lemma one_asset p rcvd w : tracks p rcvd -> channel_sym_swap_check (chan p) w = Ret (Some ONE_ASSET).
Proof.
  intros Ht. unfold channel_sym_swap_check. pose proof (fo_fixed _ _ _ _ _ (tr_follows _ _ Ht)) as F. unfold fixed in F.
  injection F as _ _ _ _ _ _ _ _ _ F. by rewrite F, (fo_one_asset _ _ _ _ _ (tr_follows _ _ Ht)).
Qed.
Lemma swaps_refused p rcvd w : tracks p rcvd -> swap_refused w p = Ret true.
Proof.
  intros Ht. unfold swap_refused. destruct (negb _); [done|]. destruct (sym_swap_req (chan p)); [done|].
  by rewrite (one_asset _ _ _ Ht).
Qed.

Lemma req_in_tracks r p p' rcvd :
  tracks p rcvd -> wf_request r -> htlc_id p < UINT64_MAX -> req_in r p = Done p' -> within total (chan p') -> tracks p' rcvd.
Proof.
  intros Ht Hwf Hmax E Hw.
  assert (Hr : reachable (chan p')) by (eapply req_in_reach; [apply Ht|exact Hwf|exact E|exact Hw]).
  unfold Peer.req_in, handle_master_request_later in E.
  destruct r as [amount expiry hash onion path_key extra lock lane|id preimage|f|feerate min max dust|height
    |script wrong| | |credit|w expiry|w|id];
    try (destruct (is_entering_stfu p); [injection E as <-; by apply (tracks_idle p)|]).
  - by eapply handle_offer_tracks.
  - by eapply handle_preimage_tracks.
  - by eapply handle_fail_tracks.
  - assert (Hs : follows (chan p') (mk_sides (sent p) rcvd) /\ sent p' = sent p /\ htlc_id p' = htlc_id p
      /\ in_u32 (desired_feerate p') /\ next_index p' = next_index p /\ revocations_received p' = revocations_received p
      /\ next_local_per_commit p' = next_local_per_commit p
      /\ (old_remote_per_commit p', remote_per_commit p') = (old_remote_per_commit p, remote_per_commit p)
      /\ channel_ready p' = channel_ready p).
    { assert (Hconf : forall c conf, config c = conf -> forall x (g : sides (list (message sigs))),
        follows c g -> follows (set_config (upd LOCAL (set_max_dust x conf.[LOCAL]) conf) c) g).
      { intros c conf <- x g. by apply follows_same. }
      unfold handle_feerates in E. destruct (bool_decide _); [destruct (_ || _)|]; injection E as <-;
        (split; [by apply Hconf; [|apply Ht]|split_and!; done || apply Hwf || apply (tr_desired _ _ Ht)]). }
    destruct Hs as (Hf & E1 & E2 & E3 & E4 & E5 & E6 & E7 & E8). rewrite <- (app_nil_r rcvd).
    apply (tracks_quiet p p' rcvd [] []); try done; rewrite ?E1, ?E2, ?app_nil_r; done || apply Ht.
  - unfold handle_blockheight in E. destruct (bool_decide _); [injection E as <-; by apply (tracks_idle p)|].
    apply run_bind_Done in E as (x & _ & E). do 2 apply check_Done in E as [_ E]. injection E as <-. by apply (tracks_idle p).
  - injection E as <-. by apply (tracks_idle p).
  - unfold handle_stfu_req in E. destruct (_ || _); [injection E as <-; by apply (tracks_idle p)|].
    eapply maybe_send_stfu_tracks; [|exact E]. by apply (tracks_idle p).
  - destruct developer; [|done]. unfold handle_dev_quiesce in E. apply check_Done in E as [_ E].
    eapply maybe_send_stfu_tracks; [|exact E]. by apply (tracks_idle p).
  - unfold handle_credit_note in E. injection E as <-. destruct (amount_sat_greater _ _); [|done].
    apply (tracks_same p); try done. by eapply follows_same; [..|apply Ht].
  - unfold handle_sym_swap_request in E. rewrite (swaps_refused _ _ _ Ht) in E. injection E as <-. by apply (tracks_idle p).
  - unfold handle_sym_swap_accept in E. rewrite (swaps_refused _ _ _ Ht) in E. injection E as <-. by apply (tracks_idle p).
  - unfold handle_sym_swap_cancel in E. injection E as <-. destruct (sym_swap_req (chan p)); [|done]. destruct (_ =? _); [|done].
    apply (tracks_same p); try done. by eapply follows_same; [..|apply Ht].
Qed.

(** ** Our commitments *)

Lemma tracks_paced p rcvd : tracks p rcvd -> (nR rcvd <= nC (sent p) <= S (nR rcvd))%nat.
Proof. intros Ht. exact (co_paced _ (fo_streams _ _ _ _ _ (tr_follows _ _ Ht)) REMOTE). Qed.

Lemma awaits_spec p rcvd : tracks p rcvd -> awaits_no_revocation p = true <-> nC (sent p) = nR rcvd.
Proof.
  intros Ht. pose proof (tracks_paced _ _ Ht). unfold awaits_no_revocation.
  rewrite (tr_revocations _ _ Ht), (tr_remote_index _ _ Ht), wrap_sub, Z.eqb_eq. split.
  - intros E. apply wrap_close in E; lia.
  - intros E. f_equal. lia.
Qed.

Lemma tracks_feerate p rcvd v f : tracks p rcvd -> channel_feerate (chan p) v = Ret f -> in_u32 f.
Proof. intros Ht. eapply feerate_in_u32; [apply Ht|apply Ht|]. intros []; apply Ht. Qed.
Lemma want_fee_in_u32 p rcvd f : tracks p rcvd -> want_fee_update params p = Ret (Some f) -> in_u32 f.
Proof.
  unfold want_fee_update. intros Ht E. destruct (negb _); [done|]. destruct (is_entering_stfu p); [done|].
  apply bind_Ret_inv in E as (cur & Ec & E). apply (tracks_feerate _ _ _ _ Ht) in Ec. pose proof (tr_desired _ _ Ht).
  apply bind_Ret_inv in E as (val & Ev & E). destruct (val =? cur); [done|]. injection E as <-.
  destruct (cur <? desired_feerate p); [|by injection Ev as <-].
  apply bind_Ret_inv in Ev as (mx & Em & Ev). injection Ev as <-. unfold approx_max_feerate in Em.
  assert (in_u32 mx); [|lia]. apply bind_Ret_inv in Em as (b & _ & Em).
  destruct (balance_ok _); [|by injection Em as <-]. apply bind_Ret_inv in Em as (a' & _ & Em).
  apply bind_Ret_inv in Em as (q & _ & Em). injection Em as <-. apply wrap_u32_range.
Qed.

Lemma send_fee_update_tracks p p' rcvd : tracks p rcvd -> send_fee_update params p = Done p' -> tracks p' rcvd.
Proof.
  intros Ht E. assert (Hr : reachable (chan p')) by (eapply send_fee_update_reach; [apply Ht|exact E]).
  unfold send_fee_update in E. apply run_bind_Done in E as ([f|] & E1%lift_Done & E); [|by injection E as <-].
  destruct (negb _) in E; [by injection E as <-|]. apply run_bind_Done in E as (ok & _ & E).
  destruct (_ && _) in E; [by injection E as <-|]. apply check_Done in E as [_ E].
  apply run_bind_Done in E as ([a c] & E2%lift_Done & E). apply check_Done in E as [-> E]. injection E as <-.
  assert (Ho : opener c0 = LOCAL).
  { rewrite <- (follows_opener _ _ _ _ _ (tr_follows _ _ Ht)). unfold want_fee_update in E1.
    destruct (bool_decide _) eqn:Eo; [by apply bool_decide_eq_true in Eo|done]. }
  eapply (tracks_write p); [done| | | |reflexivity|done|exact Hr|]; try done; [by apply (want_fee_in_u32 _ _ _ Ht)|].
  rewrite <- Ho. by eapply follows_update_feerate; [apply Ht|].
Qed.
Lemma send_blockheight_update_tracks p p' rcvd : tracks p rcvd -> send_blockheight_update p = Done p' -> tracks p' rcvd.
Proof.
  intros Ht E. assert (Hr : reachable (chan p')) by (eapply send_blockheight_update_reach; [apply Ht|exact E]).
  unfold send_blockheight_update in E. apply run_bind_Done in E as ([h|] & E1%lift_Done & E); [|by injection E as <-].
  destruct (blockheight_states (chan p)) as [hs|]; [|by injection E as <-]. destruct (negb _) in E; [by injection E as <-|].
  apply run_bind_Done in E as (c & E2%lift_Done & E). injection E as <-.
  assert (Ho : opener c0 = LOCAL).
  { rewrite <- (follows_opener _ _ _ _ _ (tr_follows _ _ Ht)). unfold want_blockheight_update in E1.
    destruct (bool_decide _) eqn:Eo; [by apply bool_decide_eq_true in Eo|done]. }
  eapply (tracks_write p); [done| | | |reflexivity|done|exact Hr|]; try done. rewrite <- Ho.
  by eapply follows_height; [apply Ht|].
Qed.

Lemma signed_one wrote read s c pbase :
  signed_from wrote read -> nR read = nC wrote -> reachable c -> busy (mk_sides wrote read) SendCommit ->
  follows c (mk_sides (wrote ++ [msg_commitment_signed s None]) read) ->
  sign_commit sg c (wrap_u64 (1 + Z.of_nat (nC wrote))) (snd (points theirs read)) = Ret (s, pbase) ->
  signed_from (wrote ++ [msg_commitment_signed s None]) read.
Proof.
  intros Hs Hn Hr Hb Hf E l1 s' w l2 Eq. apply app_eq_inv in Eq as [(k & -> & Eq)|(k & -> & Eq)].
  - destruct k as [|m k].
    + injection Eq as Es Ew El. subst s' w l2. rewrite app_nil_r in *. split; [done|]. by exists c, read, pbase.
    + injection Eq as Em ->. subst m. by apply (Hs l1 s' w k).
  - destruct k as [|m k]; [|injection Eq as _ Eq; by destruct k]. injection Eq as Es Ew El. subst s' w l2.
    rewrite app_nil_r in *. split; [done|]. by exists c, read, pbase.
Qed.

(** The commitment goes out. *)
Lemma commit_sent_tracks p p' rcvd c s pbase :
  tracks p rcvd -> nC (sent p) = nR rcvd -> reachable c -> busy (mk_sides (sent p) rcvd) SendCommit ->
  (forall m, is_commit m = true -> nC (sent p) = nR rcvd -> follows c (append LOCAL m (mk_sides (sent p) rcvd))) ->
  sign_commit sg c (next_index p).[REMOTE] (remote_per_commit p) = Ret (s, pbase) ->
  chan p' = c -> sent p' = sent p ++ [msg_commitment_signed s None] ->
  counters p' = counters (set_next_index (upd REMOTE (wrap_u64 ((next_index p).[REMOTE] + 1)) (next_index p)) p) ->
  tracks p' rcvd.
Proof.
  intros Ht Hn Hr Hb Hf Hs Ec Es Ek. unfold counters in Ek. cbn in Ek. injection Ek as E1 E2 E3 E4 E5 E6 E7 E8.
  destruct Ht as [R F A IR IL V Z0 I O T D S K W W' N Nf]. cbn in IR, IL. specialize (Hf (msg_commitment_signed s None) eq_refl Hn).
  split; rewrite ?Ec, ?Es, ?E1, ?E2, ?E3, ?E4, ?E5, ?E6, ?E7, ?E8, ?tally_app, ?points_app, ?omap_app; cbn [tally is_commit is_revoke Nat.b2n];
    rewrite ?Nat.add_0_r; try done.
  - cbn. rewrite IR, wrap_add. f_equal. lia.
  - cbn. by rewrite app_nil_r.
  - apply (signed_one _ _ _ c pbase); try done. rewrite <- IR. by rewrite <- T.
  - by apply revoked_more.
  - apply Forall_app. split; [done|]. by repeat constructor.
Qed.

Lemma send_commit_tracks p p' rcvd : tracks p rcvd -> send_commit params sg p = Done p' -> tracks p' rcvd.
Proof.
  unfold send_commit. intros Ht E. destruct (bool_decide _); [injection E as <-; by apply (tracks_idle p)|].
  destruct (awaits_no_revocation p) eqn:Ea; cbn [negb] in E.
  2: { apply check_Done in E as [_ E]. injection E as <-. by apply (tracks_idle p). }
  apply run_bind_Done in E as (n & _ & E). destruct (n =? 0); [injection E as <-; by apply (tracks_idle p)|].
  apply run_bind_Done in E as (p1 & E1 & E). apply run_bind_Done in E as (p2 & E2 & E).
  assert (Hsd : sending p p2) by (eapply sending_trans; [by eapply send_fee_update_sending|by eapply send_blockheight_update_sending]).
  pose proof (send_blockheight_update_tracks _ _ _ (send_fee_update_tracks _ _ _ Ht E1) E2) as Ht2. clear E1 E2.
  assert (Hn : nC (sent p2) = nR rcvd).
  { apply (awaits_spec _ _ Ht2). unfold awaits_no_revocation in *. by destruct Hsd as [[-> -> _] _ _]. }
  apply run_bind_Done in E as ([[any changed] c] & E3%lift_Done & E). cbn beta iota zeta in E.
  pose proof (sending_commit_reach _ _ _ _ _ _ _ _ _ (tr_reachable _ _ Ht2) E3) as Hr.
  pose proof (reachable_sound _ _ _ _ _ _ (tr_reachable _ _ Ht2)) as Hsound.
  destruct (follows_sending_commit _ _ _ _ _ _ _ _ _ Hsound (tr_follows _ _ Ht2) E3) as [Hidle Hf].
  destruct any; cbn [negb] in E.
  - assert (Hb : busy (mk_sides (sent p2) rcvd) SendCommit).
    { apply bind_change in E3 as (f & chg & c1 & E3 & [= Hz _ _]). eapply changes_busy; [apply Ht2|exact E3|].
      intros ->. done. }
    apply run_bind_Done in E as ([m p3] & E4 & E). cbn beta iota zeta in E.
    apply run_bind_Done in E as (p4 & E5 & E). injection E as <-.
    assert (tracks p4 rcvd) as Ht4; [|by apply (tracks_idle p4)]. eapply maybe_send_shutdown_tracks; [|exact E5].
    unfold send_commit_part in E4. apply run_bind_Done in E4 as ([s pb] & E6%lift_Done & E4). injection E4 as <- <-.
    assert (Hw : swap_to_send c = None) by (unfold swap_to_send; by rewrite (fo_swap _ _ _ _ _ (Hf (msg_commitment_signed s None) eq_refl Hn))).
    cbn [chan set_chan] in *. rewrite Hw. destruct (channel_has c OPT_SEQ_SYMMETRIC);
      by apply (commit_sent_tracks p2 _ rcvd c s pb).
  - apply run_bind_Done in E as (p3 & E4 & E). injection E as <-.
    assert (tracks p3 rcvd) as Ht3; [|by apply (tracks_idle p3)]. eapply maybe_send_shutdown_tracks; [|exact E4].
    apply (tracks_same p2); try done. by apply Hidle.
Qed.

(** ** Their commitments *)

Lemma no_swap w p p' rcvd : tracks p rcvd -> take_peer_swap w p = Done p' -> False.
Proof.
  unfold take_peer_swap. intros Ht E. apply check_Done in E as [_ E]. apply run_bind_Done in E as (err & E1%lift_Done & E).
  apply check_Done in E as [->%bool_decide_eq_true _].
  change (channel_sym_swap_check (chan (set_chan (set_swap_req None (chan p)) p)) (set_swap_state RCVD_ADD_HTLC w) = Ret None) in E1.
  rewrite (one_asset _ rcvd) in E1; [done|]. pose proof (no_req_within _ _ _ _ _ _ (tr_reachable _ _ Ht)) as Hw.
  apply (tracks_same p); try done; [by apply swap_req_reach; [apply Ht|]|]. by eapply follows_same; [..|apply Ht].
Qed.

(** A commitment is revoked. *)
Lemma revocation_sent_tracks s changed sym m p q p' rcvd :
  tracks p rcvd -> is_commit m = true -> wf_message m -> reachable (chan q) -> follows (chan q) (append REMOTE m (mk_sides (sent p) rcvd)) ->
  sent q = sent p -> counters q = counters p ->
  send_revocation sg s changed sym q = Done p' -> tracks p' (rcvd ++ [m]).
Proof.
  intros Ht Hm Hwf Hrq Hfq Es Ek E. pose proof Ht as [R F A IR IL V Z0 I O T D S K W W' N Nf]. pose proof (commit_not_revoke m Hm) as Hnr.
  cbn in IR, IL.
  assert (Hr : reachable (chan p')) by (eapply send_revocation_reach; [exact Hrq|exact E]).
  unfold send_revocation, make_revocation_msg in E. apply run_bind_Done in E as (info & _ & E).
  apply run_bind_Done in E as ([[pending chg] c] & E1%lift_Done & E). cbn beta iota zeta in E.
  apply run_bind_Done in E as ([mr point] & E2 & E). injection E as <-.
  apply run_bind_Done in E2 as ([secret pt] & Erev%lift_Done & E2). injection E2 as <- <-. cbn [chan set_next_index set_chan] in E1.
  unfold counters in Ek. injection Ek as K1 K2 K3 K4 K5 K6 K7 K8.
  assert (Hrev : revoke_commitment sg (wrap_u64 (Z.of_nat (nR (sent p)))) = Ret (secret, pt)).
  { rewrite <- Erev. f_equal. destruct pending; cbn; rewrite K1, IL, wrap_add, wrap_sub, A; f_equal; lia. }
  pose proof (reachable_sound _ _ _ _ _ _ Hrq) as Hsound. set (mr := msg_revoke_and_ack secret pt sym).
  assert (Hf : follows c (append LOCAL mr (append REMOTE m (mk_sides (sent p) rcvd)))).
  { eapply follows_sending_revoke; [exact Hsound|exact Hfq|exact E1|done|].
    unfold append. cbn [sel upd at_local at_remote]. rewrite tally_app, tally_one, Hm, A. cbn. lia. }
  pose proof (swap_done_none _ (fo_swap _ _ _ _ _ Hf)) as Hsw.
  destruct pending; cbn in Hr |- *; rewrite Hsw in Hr |- *;
  (split; cbn; rewrite ?Es, ?K1, ?K2, ?K3, ?K4, ?K5, ?K6, ?K7, ?K8, ?tally_app, ?points_app, ?omap_app; cbn; rewrite ?Hm, ?Hnr, ?app_nil_r, ?Nat.add_0_r; try done;
   [by rewrite A|by rewrite IL, wrap_add; f_equal; cbn; lia|by rewrite fold_left_app|by destruct m|by apply signed_more|by apply revoked_one|by apply Forall_app; split; [|repeat constructor]|by apply Forall_app; split; [|repeat constructor]]).
Qed.

Lemma handle_peer_commit_sig_tracks s w p p' rcvd :
  tracks p rcvd -> handle_peer_commit_sig params sg s w p = Done p' -> tracks p' (rcvd ++ [msg_commitment_signed s w]).
Proof.
  unfold handle_peer_commit_sig. intros Ht E. apply run_bind_Done in E as (p1 & E1 & E).
  destruct w; [by apply (no_swap _ _ _ rcvd Ht) in E1|]. injection E1 as <-.
  apply run_bind_Done in E as ([[any changed] c] & E2%lift_Done & E). cbn beta iota zeta in E.
  apply run_bind_Done in E as (p2 & E3 & E). apply run_bind_Done in E as (afford & _ & E). apply check_Done in E as [_ E].
  apply run_bind_Done in E as (ok & _ & E). apply check_Done in E as [_ E]. apply run_bind_Done in E as (sym & _ & E).
  apply run_bind_Done in E as (p3 & E4 & E). apply run_bind_Done in E as (p4 & E5 & E).
  apply run_bind_Done in E as (wanted & _ & E). apply Done_inj in E as <-.
  assert (Ht4 : tracks p4 (rcvd ++ [msg_commitment_signed s None])); [|destruct wanted; [by apply (tracks_idle p4)|done]].
  eapply maybe_send_stfu_tracks; [|exact E5].
  assert (Hp2 : chan p2 = c /\ sent p2 = sent p /\ counters p2 = counters p).
  { destruct any; [by injection E3 as <-|]. apply check_Done in E3 as [_ E3]. by injection E3 as <-. }
  destruct Hp2 as (Hc & Hs & Hk).
  eapply (revocation_sent_tracks s changed sym _ p p2); try done; rewrite Hc.
  - by eapply rcvd_commit_reach; [apply Ht|exact E2].
  - eapply follows_rcvd_commit; [eapply reachable_sound, Ht|apply Ht|exact E2|done|]. cbn. by rewrite (tr_acked _ _ Ht).
Qed.

(** ** Their revocations *)

Lemma handle_peer_revoke_tracks secret point sym p p' rcvd :
  tracks p rcvd -> handle_peer_revoke_and_ack sg secret point sym p = Done p' ->
  tracks p' (rcvd ++ [msg_revoke_and_ack secret point sym]).
Proof.
  unfold handle_peer_revoke_and_ack. intros Ht E. apply check_Done in E as [E0%Z.eqb_eq E].
  assert (Hn : (nR rcvd < nC (sent p))%nat).
  { pose proof (tracks_paced _ _ Ht). rewrite (tr_revocations _ _ Ht), (tr_remote_index _ _ Ht), wrap_sub in E0.
    destruct (Nat.eq_dec (nR rcvd) (nC (sent p))) as [e|]; [|lia]. rewrite e in E0. symmetry in E0. apply wrap_close in E0; lia. }
  destruct (ec_pubkey_create secret); [|done]. apply check_Done in E as [_ E].
  apply run_bind_Done in E as (p1 & E1 & E).
  assert (Hp1 : exists x, p1 = set_sym_remote_pending x p).
  { destruct (channel_has _ _) in E1; [clear E; run_inv; by eexists|].
    injection E1 as <-. exists (sym_remote_pending p). by destruct p. }
  destruct Hp1 as [x ->]. apply run_bind_Done in E as ([[any changed] c] & E2%lift_Done & E). cbn beta iota zeta in E.
  cbn [chan set_sym_remote_pending] in E2. set (m := msg_revoke_and_ack secret point sym).
  assert (Hf : follows c (append REMOTE m (mk_sides (sent p) rcvd))).
  { eapply follows_rcvd_revoke; [eapply reachable_sound, Ht|apply Ht|exact E2|done|done]. }
  assert (Hr : reachable c) by (by eapply rcvd_revoke_reach; [apply Ht|exact E2]).
  pose proof (swap_done_none _ (fo_swap _ _ _ _ _ Hf)) as Hsw. destruct (penalty_base_by_commitnum _ _) as [pbase rest].
  apply run_bind_Done in E as (p2 & E3 & E). injection E as <-.
  assert (tracks p2 (rcvd ++ [m])) as Ht2; [|by apply (tracks_idle p2)]. eapply maybe_send_stfu_tracks; [|exact E3].
  destruct Ht as [R F A IR IL V Z0 I O T D S K W W' N Nf].
  split; cbn; rewrite ?Hsw, ?tally_app, ?points_app; cbn; rewrite ?Nat.add_0_r; try done.
  - rewrite V, wrap_add. f_equal. lia.
  - by rewrite <- T.
  - rewrite <- (app_nil_r (sent p)). by apply signed_more.
  - apply Forall_app. split; [done|]. by repeat constructor.
Qed.

(** Every message of the peer. *)
Lemma peer_in_tracks m p p' rcvd :
  tracks p rcvd -> wf_message m -> (forall i, added_id m = Some i -> i ∉ omap added_id rcvd) ->
  peer_in m p = Done p' -> within total (chan p') -> tracks p' (rcvd ++ [m]).
Proof.
  intros Ht Hwf Hid E Hw. destruct (uncounted m) eqn:Hm; [by eapply peer_in_quiet|].
  unfold Peer.peer_in in E. do 3 apply check_Done in E as [_ E]. destruct m; try done.
  - by eapply handle_peer_commit_sig_tracks.
  - by eapply handle_peer_revoke_tracks.
Qed.

Lemma timer_tracks p p' rcvd : tracks p rcvd -> send_commit_if_not_stfu params sg p = Done p' -> tracks p' rcvd.
Proof.
  unfold send_commit_if_not_stfu. intros Ht E. destruct (negb _); [by eapply send_commit_tracks|].
  injection E as <-. by apply (tracks_idle p).
Qed.
End Track.
