(* ===== verification/TwoParty.v ===== *)
(** * Two channelds that talk to each other

    On a [Link] each side tracks ([Track]) the messages it has handled of those
    the other side has written, so their channels mirror each other whenever
    one checks a commitment the other signed: none of them refuses it.  At the
    end, hsmd as the signer of both sides. *)

From stdpp Require Import list.
From S2P Require Import Prelude Chainparams Amount HtlcState FeeStates CommitFee Features Script Hashing Shachain Keys Tapscript ChannelState Tx SymScripts SymSettle SymState Channel SymChannel CommitTx Signature PeerState Peer Signer CommitAgree CommitMirror SignerFacts SymFacts ChannelInv ChannelSteps History Solvency Progress PeerSteps PeerFacts Link Ledger Follow Pending Track.
Local Open Scope Z_scope.

Lemma counterparts_sym c c' : counterparts c c' -> counterparts c' c.
Proof.
  intros [A B C D E F G I J K H]. split; try congruence; try (intros s; by rewrite ?B, ?C, ?H, other_involutive).
  by rewrite A, other_involutive.
Qed.

(** ** How a handler fails *)

Lemma lift_Failed {A} (o : outcome A) f : lift o = Failed f -> f = Died.
Proof. destruct o; [done|by intros [= <-]]. Qed.
Lemma run_bind_Failed {A B} (r : run A) (k : A -> run B) f :
  (a ← r; k a) = Failed f -> r = Failed f \/ exists a, r = Done a /\ k a = Failed f.
Proof. destruct r as [a|f']; [by right; exists a|]. intros [= <-]. by left. Qed.

(** Only because something is wrong here. *)
Definition own_fault {A} (r : run A) : Prop := forall f, r = Failed f -> f = Died.
Lemma own_fault_bind {A B} (r : run A) (k : A -> run B) :
  own_fault r -> (forall a, r = Done a -> own_fault (k a)) -> own_fault (a ← r; k a).
Proof. intros Hr Hk f [E|(a & E & E')]%run_bind_Failed; [by apply Hr|by apply (Hk a)]. Qed.
Lemma own_fault_lift {A} (o : outcome A) : own_fault (lift o).
Proof. intros f. apply lift_Failed. Qed.
Lemma own_fault_done {A} (a : A) : own_fault (Done a).
Proof. done. Qed.
Lemma own_fault_check {A} b (r : run A) : own_fault r -> own_fault (check Died b r).
Proof. intros Hr f. destruct b; [apply Hr|by intros [= <-]]. Qed.

(** What the side that signs promises the side that checks: if [ok] of the
    channel and the point, a commitment is not refused. *)
Class Agreeing {sigs} (signing checking : signer sigs) (ok : channel -> list Z -> Prop) : Prop :=
  agrees : forall c c' n point s pbase,
    mirrors REMOTE LOCAL c c' -> commit_data_ok c REMOTE -> commit_data_ok c' LOCAL ->
    settle_data_ok c REMOTE -> settle_data_ok c' LOCAL -> ok c point ->
    sign_commit signing c n point = Ret (s, pbase) -> check_commit checking c' n point s <> Ret false.

(** What a side promises with its revocations: the secret of the point it has
    given for the commitment, and the point of the next but one. *)
Class Revoking `{Secp256k1} {sigs} (sg : signer sigs) (point : Z -> option (list Z)) : Prop :=
  revokes : forall n secret next, revoke_commitment sg n = Ret (secret, next) ->
    ec_pubkey_create secret = point n /\ point (wrap_u64 (n + 2)) = Some next.

Lemma follows_data_ok {sigs} c0 f0 h0 c (g : sides (list (message sigs))) s :
  follows c0 f0 h0 c g -> in_u32 f0 -> (forall t, Forall wf_message g.[t]) ->
  (forall t, wf_sat (conf_dust_limit (config c0).[t])) -> commit_data_ok c s.
Proof.
  intros Hf Hf0 Hw Hd. pose proof (fo_fixed _ _ _ _ _ Hf) as F. unfold fixed in F. injection F as _ D1 D2 _ _ _ _ _ _ _ _ _.
  split; [|split].
  - destruct s; cbn; rewrite ?D1, ?D2; [apply (Hd LOCAL)|apply (Hd REMOTE)].
  - intros f E. by eapply feerate_in_u32.
  - apply Forall_forall. intros h Hh. apply (fo_plain _ _ _ _ _ Hf). unfold gather_htlcs, gather_lane_htlcs in Hh.
    cbn [committed] in Hh. by apply list_elem_of_filter in Hh as [_ [_ Hh]%list_elem_of_filter].
Qed.

Lemma follows_settle_ok {sigs} c0 f0 h0 c (g : sides (list (message sigs))) s :
  follows c0 f0 h0 c g -> wf_sat (ChannelState.funding_sats c0) -> (forall t, wf_msat (owed (view c).[s]).[t]) -> settle_data_ok c s.
Proof.
  intros Hf Hs Ho. pose proof (fo_fixed _ _ _ _ _ Hf) as F. unfold fixed in F. injection F as _ _ _ _ _ _ _ _ _ _ _ E.
  split; [|split; [by rewrite E|done]]. unfold channel_committed_htlcs, gather_htlcs, gather_lane_htlcs. cbn [committed]. f_equal.
  pose proof (fo_lane _ _ _ _ _ Hf) as Hl. induction (the_htlcs c) as [|h l IH]; [done|].
  rewrite !filter_cons_True by (unfold in_lane; rewrite ?(Hl h) by left; done). f_equal. apply IH. intros x Hx. apply Hl. by right.
Qed.

Section TwoParty.
Context (params : chainparams) (sha256 : list Z -> list Z) (point_lock_opens : list Z -> list Z -> bool).
Context (features : sides feature_set) (init_features upfront_shutdown : sides (list Z)) (developer : bool).
Context (tlv_fields : add_tlvs -> option (list (Z * list Z))) (junk : Z).
Context `{Secp256k1} {sigs : Type} (sg : sides (signer sigs)).
(** The channels the sides start with, its feerate and blockheight, and the
    last two per-commitment points of each side. *)
Context (funding_sats : amount_sat_t) (starts : sides channel) (f0 h0 : Z) (pts : sides (list Z * list Z)).
Notation link := (link sigs).
Notation reacts := (reacts params sha256 point_lock_opens features init_features upfront_shutdown developer tlv_fields junk sg).
Notation link_step := (link_step params sha256 point_lock_opens features init_features upfront_shutdown developer tlv_fields junk sg).
Notation reachable := (reachable params sha256 point_lock_opens funding_sats []).
Notation total := (capacity funding_sats []).
Notation tracks_at s := (tracks params sha256 point_lock_opens sg.[s] funding_sats starts.[s] f0 h0 pts.[s] pts.[other s]).

(** What a side has handled of the other one's messages. *)
Definition handled (s : side) (l : link) : list (message sigs) := take (got l).[s] (sent (node l).[other s]).

Record linked (l : link) : Prop := {
  li_tracks : forall s, tracks_at s (node l).[s] (handled s l);
  li_got : forall s, (length (handled s l) = (got l).[s])%nat;
}.

(** What is in flight counts in an [s64], and ids in a [u64]. *)
Definition bounded (l : link) : Prop :=
  forall s, within total (chan (node l).[s]) /\ htlc_id (node l).[s] < UINT64_MAX.
Definition wf_event (e : event) : Prop := match e with asked _ r => wf_request r | _ => True end.

Lemma send_commit_prefix (p p' : peer sigs) s : send_commit params sg.[s] p = Done p' -> sent p `prefix_of` sent p'.
Proof.
  unfold send_commit. intros E. destruct (bool_decide _); [by injection E as <-|].
  destruct (negb _) in E; [apply check_Done in E as [_ E]; by injection E as <-|].
  apply run_bind_Done in E as (n & _ & E). destruct (n =? 0); [by injection E as <-|].
  apply run_bind_Done in E as (p1 & E1 & E). apply run_bind_Done in E as (p2 & E2 & E).
  assert (H1 : sent p `prefix_of` sent p1).
  { unfold send_fee_update in E1. apply run_bind_Done in E1 as ([f|] & _ & E1); [|by injection E1 as <-].
    destruct (negb _) in E1; [by injection E1 as <-|]. apply run_bind_Done in E1 as (ok & _ & E1).
    destruct (_ && _) in E1; [by injection E1 as <-|]. apply check_Done in E1 as [_ E1].
    apply run_bind_Done in E1 as ([a c] & _ & E1). apply check_Done in E1 as [_ E1]. injection E1 as <-. by eexists. }
  assert (H2 : sent p1 `prefix_of` sent p2).
  { unfold send_blockheight_update in E2. apply run_bind_Done in E2 as ([f|] & _ & E2); [|by injection E2 as <-].
    destruct (blockheight_states (chan p1)); [|by injection E2 as <-].
    destruct (negb _) in E2; [by injection E2 as <-|]. apply run_bind_Done in E2 as (c & _ & E2). injection E2 as <-. by eexists. }
  assert (Hsd : forall q q' : peer sigs, maybe_send_shutdown q = Done q' -> sent q `prefix_of` sent q').
  { unfold maybe_send_shutdown. intros q q' Eq. destruct (negb _) in Eq; [by injection Eq as <-|].
    apply billboard_chan in Eq as ->. by eexists. }
  transitivity (sent p1); [done|]. transitivity (sent p2); [done|].
  apply run_bind_Done in E as ([[any changed] c] & _ & E). cbn beta iota zeta in E. destruct (negb any).
  - apply run_bind_Done in E as (p3 & E3%Hsd & E). injection E as <-. done.
  - apply run_bind_Done in E as ([m p3] & E3 & E). apply run_bind_Done in E as (p4 & E4%Hsd & E). injection E as <-.
    unfold send_commit_part in E3. apply run_bind_Done in E3 as ([sg' pb] & _ & E3). injection E3 as _ <-. cbn.
    etransitivity; [|exact E4]. cbn. destruct (channel_has _ _); by eexists.
Qed.

Lemma reacts_prefix e l p' : reacts e l = Done p' -> sent (node l).[event_side e] `prefix_of` sent p'.
Proof.
  unfold Link.reacts. destruct e as [s r|s|s]; cbn [event_side].
  - intros [_ _ _ (k & -> & _)]%req_in_effect. by eexists.
  - unfold send_commit_if_not_stfu. destruct (negb _); [apply send_commit_prefix|by intros [= <-]].
  - destruct (in_flight s l); [by intros [= <-]|]. intros ([_ (k & -> & _) _] & _)%peer_in_effect. by eexists.
Qed.

(** What a side writes does not change what the other one has handled. *)
Lemma handled_more s l l' :
  (got l').[s] = (got l).[s] -> length (handled s l) = (got l).[s] ->
  sent (node l).[other s] `prefix_of` sent (node l').[other s] -> handled s l' = handled s l.
Proof.
  unfold handled. intros Eg Hl [k E]. rewrite Eg, E. rewrite length_take in Hl.
  destruct (Nat.le_gt_cases (got l).[s] (length (sent (node l).[other s]))); [by apply take_app_le|lia].
Qed.

Lemma handled_next s l m rest :
  in_flight s l = m :: rest ->
  take (S (got l).[s]) (sent (node l).[other s]) = handled s l ++ [m]
  /\ sent (node l).[other s] = handled s l ++ m :: rest.
Proof.
  unfold in_flight, handled. intros E. assert (Hm : sent (node l).[other s] !! (got l).[s] = Some m).
  { rewrite <- (Nat.add_0_r (got l).[s]), <- lookup_drop, E. done. }
  split; [by apply take_S_r|]. rewrite <- E. symmetry. apply take_drop.
Qed.

(** The ids of a stream are unique, so the next one is new. *)
Lemma next_id_fresh s l m rest i :
  linked l -> in_flight s l = m :: rest -> added_id m = Some i -> i ∉ omap added_id (handled s l).
Proof.
  intros Hl E Hi Hin. apply handled_next in E as [_ E].
  pose proof (co_unique _ (fo_streams _ _ _ _ _ (tr_follows _ _ _ _ _ _ _ _ _ _ _ _ (li_tracks _ Hl (other s)))) LOCAL) as Hn.
  cbn [sel at_local] in Hn. rewrite E, omap_app, omap_step, Hi in Hn. apply NoDup_app in Hn as (_ & Hn & _).
  apply (Hn i Hin). by left.
Qed.

(** What an event changes: the side it is about, and what that has handled. *)
Record steps (e : event) (l l' : link) : Prop := {
  st_reacts : reacts e l = Done (node l').[event_side e];
  st_other : (node l').[other (event_side e)] = (node l).[other (event_side e)];
  st_handled : handled (other (event_side e)) l' = handled (other (event_side e)) l;
  st_got : (got l').[other (event_side e)] = (got l).[other (event_side e)];
  st_reads : match e with
             | arrived s => exists m rest, in_flight s l = m :: rest /\ handled s l' = handled s l ++ [m]
                                           /\ (got l').[s] = S (got l).[s]
             | asked s _ | timer_fired s => handled s l' = handled s l /\ (got l').[s] = (got l).[s]
             end;
}.
Lemma link_step_steps e l l' : linked l -> link_step e l = Some (Done l') -> steps e l l'.
Proof.
  intros Hl E. unfold Link.link_step in E. destruct (occurs e l) eqn:Eo; [|done]. apply Some_inj in E.
  apply run_bind_Done in E as (p & E & El). apply Done_inj in El. pose proof (reacts_prefix _ _ _ E) as Hpre.
  set (s := event_side e) in *.
  assert (En : (node l').[s] = p /\ (node l').[other s] = (node l).[other s] /\ (got l').[other s] = (got l).[other s]).
  { subst l'. unfold Link.after. fold s. destruct e; cbn [event_side] in *; subst s; by destruct s0. }
  destruct En as (Ep & Eq & Eg). split; fold s; [by rewrite Ep|done| |done|].
  - apply handled_more; [done|apply Hl|]. by rewrite other_involutive, Ep.
  - subst l'. destruct e as [s0 r|s0|s0]; cbn [event_side] in *; subst s; cbn [Link.after got] in *.
    + split; [|done]. unfold handled. by rewrite Eq.
    + split; [|done]. unfold handled. by rewrite Eq.
    + unfold occurs in Eo. cbn [event_side] in Eo. destruct (in_flight s0 l) as [|m rest] eqn:Ef; [done|].
      exists m, rest. split; [done|]. unfold handled at 1. rewrite Eq. cbn [Link.after got]. rewrite sel_upd, decide_True by done.
      split; [by apply handled_next in Ef as [? _]|done].
Qed.

(** One of two sides has changed. *)
Lemma side_cases (P : side -> Prop) s : P s -> P (other s) -> forall t, P t.
Proof. by destruct s; intros ??[]. Qed.

Lemma linked_step e l l' :
  linked l -> wf_event e -> bounded l -> bounded l' -> link_step e l = Some (Done l') -> linked l'.
Proof.
  intros Hl Hwf Hb Hb' E. destruct (link_step_steps _ _ _ Hl E) as [Er Eq Ho Eg Hin]. set (s := event_side e) in *.
  destruct (Hb' s) as [Hw _]. destruct (Hb s) as [_ Hid]. pose proof (li_tracks _ Hl s) as Ht. pose proof (li_got _ Hl s) as Hg.
  split; apply (side_cases _ s); [|by rewrite Eq, Ho; apply Hl| |by rewrite Ho, Eg; apply Hl];
    destruct e as [s0 r|s0|s0]; cbn [event_side] in *; subst s; unfold Link.reacts in Er; cbn [event_side] in Er.
  - destruct Hin as [-> _]. by eapply req_in_tracks.
  - destruct Hin as [-> _]. by eapply timer_tracks.
  - destruct Hin as (m & rest & Ef & -> & _). rewrite Ef in Er.
    eapply peer_in_tracks; [exact Ht| |intros i Hi; by eapply next_id_fresh|exact Er|exact Hw].
    pose proof (tr_wrote _ _ _ _ _ _ _ _ _ _ _ _ (li_tracks _ Hl (other s0))) as Hall.
    apply handled_next in Ef as [_ Es]. rewrite Es in Hall. by apply Forall_app in Hall as [_ [Hm _]%Forall_cons].
  - by destruct Hin as [-> ->].
  - by destruct Hin as [-> ->].
  - destruct Hin as (m & rest & _ & -> & ->). rewrite length_app, Hg. cbn. lia.
Qed.

(** Everything that can happen, as long as it counts. *)
Inductive conversation (l0 : link) : link -> Prop :=
| talk_start : bounded l0 -> conversation l0 l0
| talk_step e l l' :
    conversation l0 l -> wf_event e -> link_step e l = Some (Done l') -> bounded l' -> conversation l0 l'.

Lemma conversation_linked l0 l : linked l0 -> conversation l0 l -> linked l /\ bounded l.
Proof.
  intros H0. induction 1 as [|e l l' _ [IH Hb] Hwf E Hb']; [done|]. split; [|done]. by eapply linked_step.
Qed.

(** ** A commitment of an honest side *)

Lemma send_revocation_own_fault t sig changed sym (p : peer sigs) : own_fault (send_revocation sg.[t] sig changed sym p).
Proof.
  unfold send_revocation, make_revocation_msg. apply own_fault_bind; [apply own_fault_lift|]. intros info _.
  apply own_fault_bind; [apply own_fault_lift|]. intros [[pending chg] c] _.
  apply own_fault_bind; [|by intros [m point] _].
  apply own_fault_bind; [apply own_fault_lift|]. by intros [secret point] _.
Qed.
Lemma maybe_send_stfu_own_fault (p : peer sigs) : own_fault (maybe_send_stfu p).
Proof.
  unfold maybe_send_stfu. destruct (negb _); [done|]. apply own_fault_bind; [apply own_fault_lift|]. intros [] _; [done|].
  cbv zeta. by destruct (is_stfu_active _).
Qed.

(** What follows once the commitment has something to say and its signatures
    are good. *)
Lemma commit_sig_own_fault t sig (p : peer sigs) any changed c :
  channel_rcvd_commit (chan p) = Ret (any, changed, c) -> any = true ->
  check_commit sg.[t] c (next_index p).[LOCAL] (next_local_per_commit p) sig <> Ret false ->
  own_fault (handle_peer_commit_sig params sg.[t] sig None p).
Proof.
  intros E -> Hc. unfold handle_peer_commit_sig. cbn [mbind run_bind]. rewrite E. cbn [lift mbind run_bind].
  apply own_fault_bind; [apply own_fault_lift|]. intros afford _. apply own_fault_check.
  destruct (check_commit _ _ _ _ _) as [[]|]; [|done|by intros f [= <-]].
  cbn [lift mbind run_bind check]. apply own_fault_bind; [apply own_fault_lift|]. intros sym _.
  apply own_fault_bind; [apply send_revocation_own_fault|]. intros p1 _.
  apply own_fault_bind; [apply maybe_send_stfu_own_fault|]. intros p2 _.
  apply own_fault_bind; [apply own_fault_lift|]. done.
Qed.

(** What the signer of the next message knew. *)
Lemma signed_by_other s l sig w rest :
  linked l -> in_flight s l = msg_commitment_signed sig w :: rest ->
  w = None /\ exists c k pbase z, sent (node l).[s] = k ++ z /\ nR k = nC (handled s l) /\ reachable c
    /\ busy (mk_sides (handled s l) k) SendCommit
    /\ follows starts.[other s] f0 h0 c (mk_sides (handled s l ++ [msg_commitment_signed sig w]) k)
    /\ sign_commit sg.[other s] c (next_index (node l).[s]).[LOCAL] (next_local_per_commit (node l).[s]) = Ret (sig, pbase).
Proof.
  intros Hl Ef. pose proof (handled_next _ _ _ _ Ef) as [_ Es]. pose proof (li_tracks _ Hl s) as Ht.
  destruct (tr_signed _ _ _ _ _ _ _ _ _ _ _ _ (li_tracks _ Hl (other s)) _ _ _ _ Es) as (-> & c & k & pb & [z' Hk] & Hn & Hr & Hb & Hf & Hs).
  split; [done|]. rewrite other_involutive in *. unfold handled in Hk. rewrite other_involutive in Hk.
  exists c, k, pb. exists (z' ++ drop (got l).[other s] (sent (node l).[s])).
  assert (Hsent : sent (node l).[s] = k ++ z' ++ drop (got l).[other s] (sent (node l).[s])).
  { rewrite app_assoc, <- Hk. symmetry. apply take_drop. }
  split; [done|]. do 4 (split; [done|]). rewrite (tr_local_index _ _ _ _ _ _ _ _ _ _ _ _ Ht), (tr_ours _ _ _ _ _ _ _ _ _ _ _ _ Ht), <- Hs.
  do 2 f_equal. pose proof (tr_acked _ _ _ _ _ _ _ _ _ _ _ _ Ht) as Ha. rewrite Hsent in Ha |- *. rewrite tally_app in Ha.
  rewrite points_app, (points_uncounted _ (z' ++ _)); [done|]. apply no_revoke. lia.
Qed.

(** The balances of a channel without a swap are [u64]s. *)
Lemma reachable_owed c v t : reachable c -> chan_sym_swap c = None -> wf_msat (owed (view c).[v]).[t].
Proof.
  intros Hr Hw. destruct (reachable_sound _ _ _ _ _ _ Hr) as (Hb & Ha & Hfit).
  pose proof (owed_le_total _ _ v 0%nat _ t Hb Ha eq_refl) as Ho. specialize (Hfit 0%nat). cbv beta in *.
  pose proof (sum_with_nonneg amt (the_htlcs c) (proj1 Ha)). rewrite Hw in Hfit. cbn [swap_size] in Hfit. lia.
Qed.

(** ** From the start *)

(** A channel that nothing happened to yet. *)
Record untouched (c : channel) : Prop := {
  un_reachable : reachable c;
  un_table : htlcs c = Some [];
  un_views : owed (view c).[REMOTE] = owed (view c).[LOCAL];
  un_fees : chan_fee_states c = new_fee_states (opener c) (Some f0);
  un_heights : blockheight_states c = Some (new_height_states (opener c) (Some h0));
  un_swap : chan_sym_swap c = None;
  un_lanes : sym_lanes c = None;
  un_dust : forall t, wf_sat (conf_dust_limit (config c).[t]);
  un_sats : wf_sat (ChannelState.funding_sats c);
}.
(** Both sides have sent [channel_ready] and nothing else. *)
Record opening (l : link) : Prop := {
  on_got : got l = mk_sides 0%nat 0%nat;
  on_sent : forall s, sent (node l).[s] = [];
  on_chan : forall s, chan (node l).[s] = starts.[s];
  on_index : forall s, next_index (node l).[s] = mk_sides 1 1;
  on_revocations : forall s, revocations_received (node l).[s] = 0;
  on_id : forall s, 0 <= htlc_id (node l).[s];
  on_ours : forall s, next_local_per_commit (node l).[s] = snd pts.[s];
  on_theirs : forall s, (old_remote_per_commit (node l).[s], remote_per_commit (node l).[s]) = pts.[other s];
  on_ready : forall s, (channel_ready (node l).[s]).[REMOTE] = true;
  on_desired : forall s, in_u32 (desired_feerate (node l).[s]);
  on_untouched : forall s, untouched starts.[s];
  on_counterparts : counterparts starts.[LOCAL] starts.[REMOTE];
  on_feerate : in_u32 f0;
}.

Lemma new_array_follows (value : message sigs -> option Z) s v :
  array_follows value (mk_sides [] []) s v (new_state_array s (Some v)).
Proof.
  split.
  - intros p Hp. do 5 (destruct p as [|p]; [by destruct s|]). lia.
  - intros p Hp. do 5 (destruct p as [|p]; [by destruct s|]). lia.
  - intros m. destruct s; cbn; by intros ?%elem_of_nil.
Qed.

Lemma untouched_follows c : untouched c -> follows c f0 h0 c (mk_sides [] [] : sides (list (message sigs))).
Proof.
  intros [R T V F B W L D _]. split; unfold the_htlcs; rewrite ?T, ?F, ?B; try done.
  - split; try done.
    + intros []; cbn; lia.
    + intros s a m id. destruct s; cbn; by intros ?%elem_of_nil.
    + intros []; constructor.
    + intros s id. unfold removal. by destruct s.
    + intros []; constructor.
  - by intros h ?%elem_of_nil.
  - by intros h ?%elem_of_nil.
  - intros v s. unfold base. destruct v; rewrite ?V; cbn; lia.
  - apply new_array_follows.
  - eexists. split; [done|]. apply new_array_follows.
Qed.

Lemma opening_linked l : opening l -> linked l.
Proof.
  intros [G S C I V N O T R D U K F]. assert (Hh : forall s, handled s l = []) by (intros s; unfold handled; by rewrite G, S; destruct s).
  split; intros s; rewrite Hh; [|by rewrite G; destruct s].
  split; rewrite ?S, ?C, ?I, ?V; try done; [apply U|by apply untouched_follows, U|..];
    intros l1 **; by destruct l1.
Qed.


(** ** A revocation of an honest side *)

(** The points of a stream of revocations are those of the next two
    commitments. *)
Lemma points_revoked t point l :
  Revoking sg.[t] point -> revoked_from sg.[t] l -> point 0 = Some (fst pts.[t]) -> point 1 = Some (snd pts.[t]) ->
  point (wrap_u64 (Z.of_nat (nR l))) = Some (fst (points pts.[t] l))
  /\ point (wrap_u64 (Z.of_nat (nR l) + 1)) = Some (snd (points pts.[t] l)).
Proof.
  intros Hrev Hl Hp0 Hp1. induction l as [|m l IH] using rev_ind; [done|].
  assert (Hl' : revoked_from sg.[t] l).
  { intros l1 x pt sym l2 ->. apply (Hl l1 x pt sym (l2 ++ [m])). by rewrite <- app_assoc. }
  destruct (IH Hl') as [IH1 IH2]. rewrite points_app, tally_app. destruct (is_revoke m) eqn:Em.
  - destruct m as [| | | | | | | | |secret next sym| | | |]; try done. destruct (revokes _ _ _ (Hl l secret next sym [] eq_refl)) as [_ E].
    rewrite wrap_add in E. cbn. rewrite <- E, <- IH2. split; do 2 f_equal; lia.
  - cbn [tally]. rewrite Em. cbn [Nat.b2n]. rewrite !Nat.add_0_r. by destruct m.
Qed.


(** ** Types *)

(** Every number a side keeps is in the range of its C type, every HTLC is one
    that [htlc_trim] and [add_htlc] can do with, and what is looked up is
    there. *)
Record well_typed (p : peer sigs) : Prop := {
  ty_index : forall s, in_u64 (next_index p).[s];
  ty_revocations : in_u64 (revocations_received p);
  ty_id : in_u64 (htlc_id p);
  ty_desired : in_u32 (desired_feerate p);
  ty_sent : Forall wf_message (sent p);
  ty_htlcs : Forall plain (the_htlcs (chan p));
  ty_owed : forall v s, wf_msat (owed (view (chan p)).[v]).[s];
  ty_feerate : forall v, exists f, channel_feerate (chan p) v = Ret f /\ in_u32 f;
  ty_blockheight : forall v, exists h, channel_blockheight (chan p) v = Ret h;
  ty_counted : exists n, num_channel_htlcs (chan p) = Ret n;
}.

Lemma tracks_typed s p rcvd : tracks_at s p rcvd -> htlc_id p < UINT64_MAX -> well_typed p.
Proof.
  intros Ht Hid. pose proof (tr_follows _ _ _ _ _ _ _ _ _ _ _ _ Ht) as Hf.
  split; try apply Ht.
  - intros []; rewrite ?(tr_local_index _ _ _ _ _ _ _ _ _ _ _ _ Ht), ?(tr_remote_index _ _ _ _ _ _ _ _ _ _ _ _ Ht); apply wrap_u64_range.
  - rewrite (tr_revocations _ _ _ _ _ _ _ _ _ _ _ _ Ht). apply wrap_u64_range.
  - pose proof (tr_id _ _ _ _ _ _ _ _ _ _ _ _ Ht). lia.
  - apply Forall_forall. apply (fo_plain _ _ _ _ _ Hf).
  - intros v t. eapply reachable_owed; [apply Ht|apply Hf].
  - intros v. destruct (follows_feerate _ _ _ _ _ v Hf) as [E _]. eexists. split; [exact E|]. by eapply tracks_feerate.
  - intros v. destruct (follows_feerate _ _ _ _ _ v Hf) as [_ E]. by eexists.
  - unfold num_channel_htlcs, any_htlc_is_dead. rewrite existsb_not_true; [by eexists|].
    intros h Hh. by eapply follows_alive.
Qed.

End TwoParty.

(** ** The signers of two channelds are hsmds

    What [TwoParty] asks of the signers holds of [hsm_signer]: what one side
    signs the other accepts ([Agreeing]), and the secrets one reveals are those
    of the points it gave ([Revoking]). *)

Section Hsms.
#[local] Set Default Proof Using "Type*".
Context (params : chainparams) (sha256 ripemd160 : list Z -> list Z).
Context (wlen : bool -> bitcoin_tx -> option nat) (wbytes : bool -> bitcoin_tx -> option (list Z)).
Context `{!Digest sha256 32, !Digest ripemd160 20}.
Context `{!Secp256k1, !Secp256k1Laws _} `{!Ecdsa, !EcdsaLaws _ _} (no_grind : bool) (attempts : nat).
Context (conf_value : Z -> option (list Z))
        (elements_hash : bitcoin_tx -> nat -> list Z -> list Z -> Z -> option (list Z))
        (btc_hash : bitcoin_tx -> nat -> list Z -> Z -> Z -> option (list Z)).
Context (hkdf : nat -> list Z -> list Z -> list Z -> outcome (list Z)).
Context `{!Taproot, !Issuance}.
Context (funding : outpoint) (funding_sats : amount_sat_t).
(** The sorts of the C libraries of both, and the signature that is zero. *)
Context (asort asort' : (sym_output htlc -> sym_output htlc -> comparison) -> list (sym_output htlc) -> list (sym_output htlc)).
Context `{!Sorter asort, !Sorter asort', !TaprootLaws _ _}.
Context (zero_signature : ecdsa_signature).
Context (approve : list Z -> amount_msat_t -> list Z -> amount_msat_t -> bool).
(** The seeds of the nodes, the ids of the peers and of the channels. *)
Context (seed seed' peer_id peer_id' : list Z) (dbid dbid' : Z) (keys keys' : channel_keys) (junk junk' : nat -> Z).

Notation hsm srt sd peer id k j :=
  (hsm_signer params sha256 ripemd160 wlen wbytes no_grind attempts conf_value elements_hash btc_hash hkdf srt zero_signature
     sd peer id k funding funding_sats j approve).

(** A covenant channel, or a channel of a plain type whose outputs can be told
    apart. *)
Definition plain_commitment (c : channel) (point : list Z) : Prop :=
  channel_has c OPT_SEQ_SYMMETRIC = false /\ scripts_distinct_or_covenant params sha256 ripemd160 keys c point.

(** Or a symmetric channel of one asset with a kickoff. *)
Definition commitment_ok (c : channel) (point : list Z) : Prop :=
  plain_commitment c point
  \/ symmetric_commitment ripemd160 funding funding_sats c /\ channel_has c OPT_SEQ_SYMMETRIC_FACTORY = false.

#[export] Instance hsm_agreeing :
  agreed_sym_keys keys keys' -> holds_keys hkdf seed peer_id dbid keys -> holds_update_key keys hkdf seed peer_id dbid ->
  Agreeing (hsm asort seed peer_id dbid keys junk) (hsm asort' seed' peer_id' dbid' keys' junk') commitment_ok.
Proof.
  intros Hag Hh Hu c c' n point s pbase Hm Hd Hd' Hs Hs' [(Hsym & Hsd)|[Hsym Hfac]] E; cbn [sign_commit check_commit hsm_signer] in *.
  2:{ intros Hf. assert (Hk : exists ks key, derive_keyset sha256 point (chan_basepoints keys').[LOCAL] (chan_basepoints keys').[REMOTE]
        (channel_has c' OPT_STATIC_REMOTEKEY) = Some ks /\ derive_simple_key sha256 (bp_htlc (chan_basepoints keys').[REMOTE]) point = Some key).
      { unfold check_local_commitment in Hf. apply bind_Ret_inv in Hf as (r & _ & Hf). apply bind_Ret_inv in Hf as ([com txs] & _ & Hf).
        cbn [other] in Hf. destruct (derive_keyset _ _ _ _ _) as [ks|]; [|done]. cbn [mbind outcome_bind wally_ok] in Hf.
        destruct (derive_simple_key _ _ _) as [key|]; [|done]. by exists ks, key. }
      destruct Hk as (ks & key & Eks & Ekey).
      rewrite (symmetric_commitment_checks params sha256 ripemd160 wlen wbytes asort asort' keys keys' no_grind attempts conf_value
        elements_hash btc_hash hkdf zero_signature seed peer_id dbid seed' peer_id' dbid' funding funding_sats junk junk'
        c c' n point s pbase ks key) in Hf; done. }
  destruct Hag as [Hag _].
  rewrite (signed_commitment_checks params sha256 ripemd160 wlen wbytes no_grind attempts conf_value elements_hash btc_hash hkdf
 funding funding_sats asort asort' zero_signature seed seed' peer_id peer_id' dbid dbid' keys keys' junk junk'
    c c' n point s pbase) by done.
  by destruct (hsm_reply _).
Qed.

(** The per-commitment points hsmd gives. *)
Definition hsm_point (n : Z) : option (list Z) :=
  match handle_get_per_commitment_point sha256 hkdf seed peer_id dbid n with Ret p => p | Crash => None end.

#[export] Instance hsm_revoking : Revoking (hsm asort seed peer_id dbid keys junk) hsm_point.
Proof.
  intros n secret next E. cbn in E. unfold revoke_local_commitment, hsm_reply, handle_revoke_commitment_tx in E.
  apply bind_Ret_inv in E as (o & E & Eo). destruct o as [r|]; [|done]. injection Eo as ->.
  apply bind_Ret_inv in E as (sd & E1 & E). apply bind_Ret_inv in E as (shaseed & E2 & E).
  apply bind_Ret_inv in E as (point & E3 & E). destruct point as [next'|]; [|done].
  apply bind_Ret_inv in E as (sec & E4 & E). injection E as E. destruct sec as [sec|]; [|done]. injection E as -> ->.
  unfold hsm_point, handle_get_per_commitment_point. rewrite E1. cbn [mbind outcome_bind]. rewrite E2. cbn [mbind outcome_bind].
  rewrite E3. split; [|done]. unfold per_commit_point. by rewrite E4.
Qed.
End Hsms.
