(* ===== verification/Attend.v ===== *)
(** * Nothing is forgotten

    When an update of either side waits for a commitment of ours, the commit
    timer of channeld/channeld.c runs, or a revocation is awaited whose arrival
    starts it. *)

From stdpp Require Import list.
From S2P Require Import Prelude Chainparams Amount HtlcState FeeStates Features Keys ChannelState Channel CommitTx PeerState Peer ChannelInv ChannelSteps History Solvency Progress PeerSteps PeerFacts Ledger Follow Pending Track.
Local Open Scope Z_scope.

(** ** The flags of a step *)

(** The bit of [HTLC_REMOTE_F_PENDING]. *)
Definition pends (f : Z) : Prop := Z.testbit f 6 = true.

Lemma pends_lor f k : pends f \/ pends k -> pends (Z.lor f k).
Proof. unfold pends. rewrite Z.lor_spec. intros [-> | ->]; [done|apply orb_true_r]. Qed.
Lemma pends_seen f : pends f -> negb (Z.land f HTLC_REMOTE_F_PENDING =? 0) = true.
Proof.
  intros Hf. destruct (Z.eqb_spec (Z.land f HTLC_REMOTE_F_PENDING) 0) as [E|]; [|done].
  apply (f_equal (fun z => Z.testbit z 6)) in E. rewrite Z.land_spec, Hf in E. done.
Qed.

(** What waits for our revocation waits for our commitment next. *)
Lemma next_pends s st n :
  st = life REMOTE 1 \/ st = life LOCAL 6 -> next_state st = Ret n -> s = st -> pends (flags_changed s n).
Proof. intros [-> | ->] E ->; by injection E as <-. Qed.

Lemma change_each_pends sc states l h : forall b r,
  change_each sc states l b = Ret r -> h ∈ l -> h_state h ∈ states ->
  h_state h = life REMOTE 1 \/ h_state h = life LOCAL 6 -> pends (ch_flags r).
Proof.
  induction l as [|x l IH]; intros b r E Hin Hs Hst; [by apply elem_of_nil in Hin|]. cbn [change_each] in E.
  apply elem_of_cons in Hin. destruct (bool_decide _) eqn:Ex.
  - destruct (b !! h_lane x); [|done]. split_bind E. destruct x0 as [h' o]. split_bind E. injection E as <-. cbn [ch_flags].
    apply pends_lor. destruct Hin as [->|Hin]; [left|right; by apply (IH _ _ Hx0)].
    unfold htlc_incstate in Hx. split_bind Hx. injection Hx as <- _. by eapply next_pends.
  - destruct Hin as [->|Hin]; [by apply bool_decide_eq_false in Ex|]. split_bind E. injection E as <-. by apply (IH _ _ Hx).
Qed.

Lemma fee_pends c f c' : fee_incstate c (life REMOTE 1) = Ret (f, c') -> feerate (chan_fee_states c) (life REMOTE 1) <> None -> pends f.
Proof.
  cbn. unfold inc_fee_state, inc_state, fee_incstate. intros E Hn. change (next_state RCVD_ADD_COMMIT) with (Ret SENT_ADD_REVOCATION) in E.
  cbn in E. destruct (feerate (chan_fee_states c) RCVD_ADD_COMMIT); [|done]. by injection E as <- _.
Qed.
Lemma blockheight_pends c f c' hs :
  blockheight_incstate c (life REMOTE 1) = Ret (f, c') -> blockheight_states c = Some hs -> height hs (life REMOTE 1) <> None -> pends f.
Proof.
  cbn. unfold blockheight_incstate, inc_height_state, inc_state. intros E Eh Hn.
  change (next_state RCVD_ADD_COMMIT) with (Ret SENT_ADD_REVOCATION) in E.
  rewrite Eh in E. cbn in E. destruct (height hs RCVD_ADD_COMMIT); [|done]. by injection E as <- _.
Qed.

(** The first two of the states are looked at first. *)
Lemma change_fees_pends c f c' :
  change_fees (reverse sending_revoke_states) c = Ret (f, c') ->
  feerate (chan_fee_states c) (life REMOTE 1) <> None
  \/ (exists hs, blockheight_states c = Some hs /\ height hs (life REMOTE 1) <> None) -> pends f.
Proof.
  change (reverse sending_revoke_states) with (RCVD_REMOVE_ACK_COMMIT :: life REMOTE 1 :: [RCVD_REMOVE_COMMIT; RCVD_ADD_ACK_COMMIT]).
  generalize [RCVD_REMOVE_COMMIT; RCVD_ADD_ACK_COMMIT]. intros rest E Hn. cbn [change_fees] in E.
  split_bind E. destruct x as [f1 c1]. injection Hx as <- <-. split_bind E. destruct x as [f2 c2]. injection Hx as <- <-.
  split_bind E. destruct x as [f3 c3]. split_bind Hx. destruct x as [f4 c4]. split_bind Hx. destruct x as [f5 c5].
  split_bind Hx. destruct x as [f6 c6]. injection Hx as <- <-. injection E as <- _. apply pends_lor. right. apply pends_lor. left.
  apply pends_lor. destruct Hn as [Hn|(hs & Eh & Hn)]; [left; by eapply fee_pends|right].
  eapply blockheight_pends; [exact Hx1| |exact Hn].
  unfold fee_incstate in Hx0. split_bind Hx0. destruct (negb _); [by injection Hx0 as _ <-|].
  split_bind Hx0. destruct x0. by injection Hx0 as _ <-.
Qed.

Section Attend.
Context {sigs : Type}.
Notation log := (sides (list (message sigs))).

(** An update of the peer that waits for our revocation raises the flag. *)
Lemma revocation_pends c0 f0 h0 c (g : log) a m f chg c' :
  follows c0 f0 h0 c g -> (a, m) ∈ stamped 0 g.[REMOTE] -> update m = true -> stage g REMOTE a = 1%nat ->
  change_htlcs c REMOTE sending_revoke_states = Ret (f, chg, c') -> pends f.
Proof.
  intros Hf Hin Hm Hst E. unfold change_htlcs in E. split_bind E. destruct (htlcs c) as [l|] eqn:El; [|done].
  split_bind E. split_bind E. destruct x1 as [[w b] wf]. destruct (all_balances_ok b) as [os|]; [|done].
  split_bind E. split_bind E. destruct x2 as [ff c2]. injection E as <- _ _.
  assert (Hc1 : chan_fee_states x1 = chan_fee_states c /\ blockheight_states x1 = blockheight_states c)
    by (unfold set_view_owed in Hx2; destruct os; [done|]; by injection Hx2 as <-).
  destruct Hc1 as [Ef Eh]. apply pends_lor.
  assert (Ht : is_Some (added_id m) \/ is_Some (removed_id m) -> pends (Z.lor (ch_flags x0) wf)).
  { intros Hk. apply pends_lor. left.
    destruct (update_listed _ _ _ _ _ _ _ _ Hf Hin Hk ltac:(lia)) as (h & Hh & Es). rewrite Hst in Es. cbn [other] in Es.
    unfold the_htlcs in Hh. rewrite El in Hh. eapply change_each_pends; [exact Hx0|exact Hh| |exact Es].
    destruct Es as [-> | ->]; set_solver. }
  assert (Ha : forall value v0 arr, array_follows value g (opener c0) v0 arr -> is_Some (value m) -> arr (life REMOTE 1) <> None).
  { intros value v0 arr Haf Hv. destruct (busy_array _ _ REMOTE _ _ _ _ _ SendRevoke Haf Hin Hv Hst) as [Ho Hn].
    by rewrite <- Ho in Hn. }
  apply update_kinds in Hm as [Hm|[Hm|[Hm|Hm]]]; [left; auto|left; auto|right..]; eapply change_fees_pends; try done.
  - left. rewrite Ef. eapply Ha; [apply Hf|done].
  - right. destruct (fo_heights _ _ _ _ _ Hf) as (hs & Ehs & Hhs). exists hs. rewrite Eh. split; [done|]. by eapply Ha.
Qed.

(** ** What can start to wait *)

Definition htlc_update (m : message sigs) : bool :=
  bool_decide (is_Some (added_id m)) || bool_decide (is_Some (removed_id m)).
(** What has to be committed to: a feerate only if [fees]. *)
Definition counts (fees : bool) (m : message sigs) : bool := update m && (fees || htlc_update m).
Definition due (fees : bool) (g : log) : Prop :=
  exists s a m, (a, m) ∈ stamped 0 g.[s] /\ counts fees m = true /\ stage g s a = leaves SendCommit s.

Lemma counts_update fees m : counts fees m = true -> update m = true.
Proof. by intros [? _]%andb_true_iff. Qed.
Lemma counts_mono (f k : bool) m : (f = true -> k = true) -> counts f m = true -> counts k m = true.
Proof. unfold counts. destruct f, k, (update m), (htlc_update m); naive_solver. Qed.
Lemma due_mono (f k : bool) g : (f = true -> k = true) -> due f g -> due k g.
Proof. intros Hfk (s & a & m & Hin & Hm & Hs). exists s, a, m. split; [done|]. split; [by eapply counts_mono|done]. Qed.
Lemma due_busy fees g : due fees g -> busy g SendCommit.
Proof. intros (s & a & m & Hin & Hm & Hs). exists s, a, m. split; [done|]. split; [by eapply counts_update|done]. Qed.

Lemma due_keep fees (g : log) t m :
  well_paced g -> uncounted m = true -> update m = false \/ t = REMOTE -> due fees (append t m g) -> due fees g.
Proof.
  intros Hg [Hc%negb_true_iff Hr%negb_true_iff]%andb_true_iff Hm (s & a & x & Hin & Hx & Hs). rewrite stage_update in Hs by done.
  apply stamped_append in Hin as [Hin|[-> [= -> ->]]]; [by exists s, a, x|].
  rewrite stage_new in Hs by done. destruct Hm as [Hm| ->]; [|done]. apply counts_update in Hx. by rewrite Hm in Hx.
Qed.

(** A commitment of the peer and our revocation. *)
Lemma due_answer fees (g : log) m m' :
  well_paced g -> is_commit m = true -> nC g.[REMOTE] = nR g.[LOCAL] -> is_revoke m' = true ->
  due fees (append LOCAL m' (append REMOTE m g)) ->
  due fees g \/ exists a x, (a, x) ∈ stamped 0 (append REMOTE m g).[REMOTE] /\ update x = true
                                   /\ stage (append REMOTE m g) REMOTE a = 1%nat.
Proof.
  intros Hg Hm Hn Hm' (s & a & x & Hin & Hx & Hs).
  pose proof (well_paced_commit g REMOTE m Hm Hn Hg) as Hg1.
  assert (Hlt : (nR (append REMOTE m g).[LOCAL] < nC (append REMOTE m g).[other LOCAL])%nat).
  { unfold append. cbn [sel upd at_local at_remote other]. rewrite tally_app, tally_one, Hm. cbn in *. lia. }
  rewrite stage_revoke in Hs by done.
  apply stamped_append in Hin as [Hin|[-> [= -> ->]]]; [|by destruct m'].
  destruct s; cbn [leaves] in Hs.
  - rewrite decide_True in Hs by done. left. exists LOCAL, a, x. apply stamped_append in Hin as [Hin|[? _]]; [|done].
    split; [done|]. split; [done|]. pose proof (stamped_bounds _ _ _ _ Hin). rewrite stage_commit in Hs by (done || lia).
    revert Hs. unfold bump. cbn. repeat case_match; lia.
  - rewrite decide_False in Hs by done. revert Hs. unfold bump.
    destruct (Nat.eqb_spec (stage (append REMOTE m g) REMOTE a) 1) as [E|Hne]; [intros _; right; exists a, x; by apply counts_update in Hx|].
    apply stamped_append in Hin as [Hin|[_ [= -> ->]]]; [|by destruct m]. pose proof (stamped_bounds _ _ _ _ Hin).
    revert Hne. rewrite stage_commit, decide_True by (done || lia). unfold bump. intros Hne Hs. left.
    exists REMOTE, a, x. split; [done|]. split; [done|]. cbn [leaves]. revert Hne Hs. destruct (Nat.eqb_spec (stage g REMOTE a) 0); lia.
Qed.

(** ** The timer *)

(** Only [send_commit] stops the timer; a [shutdown] stays sent. *)
Definition timed (p p' : peer sigs) : Prop :=
  dev_disable_commit p' = dev_disable_commit p /\ ((shutdown_sent p).[LOCAL] = true -> (shutdown_sent p').[LOCAL] = true)
  /\ (commit_timer p = true -> commit_timer p' = true).
#[export] Instance timed_preorder : PreOrder timed.
Proof.
  split; [done|]. intros p q r (D1 & S1 & T1) (D2 & S2 & T2). split; [by rewrite D2, D1|auto].
Qed.

Lemma maybe_send_stfu_timed (p p' : peer sigs) : maybe_send_stfu p = Done p' -> timed p p'.
Proof.
  unfold maybe_send_stfu. intros E. destruct (negb _); [by injection E as <-|].
  apply run_bind_Done in E as ([] & _ & E); [by injection E as <-|]. cbv zeta in E.
  destruct (negb _) in E; (destruct (is_stfu_active _) in E; [destruct (on_stfu_success _) in E|]); by injection E as <-.
Qed.
Lemma maybe_send_shutdown_timed (p p' : peer sigs) : maybe_send_shutdown p = Done p' -> timed p p'.
Proof.
  unfold maybe_send_shutdown. intros E. destruct (negb _); [by injection E as <-|]. by apply billboard_chan in E as ->.
Qed.

(** What is left to do is attended to; after a [shutdown], only as long as
    there are HTLCs. *)
Definition all_due (p : peer sigs) : bool := negb (shutdown_sent p).[LOCAL].
Lemma timed_due p p' : timed p p' -> all_due p' = true -> all_due p = true.
Proof. intros (_ & Sd & _). unfold all_due. destruct (shutdown_sent p).[LOCAL]; [by rewrite Sd|done]. Qed.

Record attended (p : peer sigs) (rcvd : list (message sigs)) : Prop := {
  at_enabled : dev_disable_commit p = None;
  at_due : commit_timer p = true \/ (nR rcvd < nC (sent p))%nat \/ ~ due (all_due p) (mk_sides (sent p) rcvd);
}.

Lemma silent_uncounted (m : message sigs) : silent m = true -> uncounted m = true /\ update m = false.
Proof. by destruct m. Qed.
Lemma attended_timer (p p' : peer sigs) rcvd rcvd' :
  attended p rcvd -> timed p p' -> commit_timer p' = true -> attended p' rcvd'.
Proof. intros [D _] (E & _) Ht. split; [by rewrite E|by left]. Qed.

Lemma well_paced_quiet (l : list (message sigs)) t : forall g : log,
  well_paced g -> Forall (fun m => uncounted m = true) l -> well_paced (upd t (g.[t] ++ l) g).
Proof.
  induction l as [|m l IH]; intros g Hg Hl; [rewrite app_nil_r; by destruct g, t|].
  apply Forall_cons in Hl as [[Hc%negb_true_iff Hr%negb_true_iff]%andb_true_iff Hl].
  pose proof (IH (append t m g) (well_paced_update _ _ _ Hc Hr Hg) Hl) as H. unfold append in H.
  destruct t; cbn [sel upd at_local at_remote] in *; by rewrite <- app_assoc in H.
Qed.
Lemma due_keep_all fees (l : list (message sigs)) t : forall g : log,
  well_paced g -> Forall (fun m => uncounted m = true) l -> Forall (fun m => update m = false) l \/ t = REMOTE ->
  due fees (upd t (g.[t] ++ l) g) -> due fees g.
Proof.
  induction l as [|m l IH]; intros g Hg Hl Hu Hb; [rewrite app_nil_r in Hb; by destruct g, t|].
  apply Forall_cons in Hl as [Hm Hl]. pose proof Hm as [Hc%negb_true_iff Hr%negb_true_iff]%andb_true_iff.
  assert (Hum : update m = false \/ t = REMOTE) by (destruct Hu as [[Hu _]%Forall_cons|Hu]; auto).
  assert (Hul : Forall (fun m => update m = false) l \/ t = REMOTE) by (destruct Hu as [[_ Hu]%Forall_cons|Hu]; auto).
  eapply due_keep; [done|exact Hm|exact Hum|]. apply (IH (append t m g)); try done; [by apply well_paced_update|].
  unfold append. destruct t; cbn [sel upd at_local at_remote] in *; by rewrite <- app_assoc.
Qed.

(** Nothing is written but what is no update; what is read is no commitment. *)
Lemma attended_quiet (p p' : peer sigs) rcvd l l' :
  attended p rcvd -> well_paced (mk_sides (sent p) rcvd) -> timed p p' -> sent p' = sent p ++ l ->
  Forall (fun m => silent m = true) l -> Forall (fun m => uncounted m = true) l' -> attended p' (rcvd ++ l').
Proof.
  intros [D Ha] Hg Htm Es Hl Hl'. pose proof (timed_due _ _ Htm) as Hdue. destruct Htm as (E & _ & T).
  assert (Hu : Forall (fun m => uncounted m = true) l) by (eapply Forall_impl; [exact Hl|]; intros m [? _]%silent_uncounted; done).
  assert (Hn : Forall (fun m => update m = false) l) by (eapply Forall_impl; [exact Hl|]; intros m [_ ?]%silent_uncounted; done).
  assert (Hc : nC l = 0%nat /\ nR l' = 0%nat).
  { split; apply uncounted_tally; [eapply (Forall_impl _ _ _ Hu)|eapply (Forall_impl _ _ _ Hl')]; intros m; apply Is_true_true. }
  split; [by rewrite E|]. destruct Ha as [Ha|[Ha|Ha]]; [left; auto|right; left|right; right].
  - rewrite Es, !tally_app. lia.
  - rewrite Es. intros Hb. apply Ha.
    apply (due_mono _ _ _ Hdue).
    apply (due_keep_all _ l LOCAL (mk_sides (sent p) rcvd)); [done|done|by left|].
    apply (due_keep_all _ l' REMOTE (mk_sides (sent p ++ l) rcvd)); [|done|by right|exact Hb].
    by apply (well_paced_quiet l LOCAL (mk_sides (sent p) rcvd)).
Qed.
End Attend.

Section Handlers.
Context (params : chainparams) (sha256 : list Z -> list Z) (point_lock_opens : list Z -> list Z -> bool).
Context (our_features : feature_set) (their_features upfront : list Z) (developer : bool).
Context (tlv_fields : add_tlvs -> option (list (Z * list Z))) (junk : Z).
Context `{Secp256k1} {sigs : Type} (sg : signer sigs).
Notation peer := (peer sigs).
Notation peer_in := (peer_in params sha256 point_lock_opens our_features their_features upfront tlv_fields junk sg).
Notation req_in := (req_in params sha256 point_lock_opens our_features their_features developer sg).
Context (funding_sats : amount_sat_t) (c0 : channel) (f0 h0 : Z) (ours theirs : list Z * list Z).
Notation tracks := (tracks params sha256 point_lock_opens sg funding_sats c0 f0 h0 ours theirs).

Lemma tracks_well_paced p rcvd : tracks p rcvd -> well_paced (mk_sides (sent p) rcvd).
Proof. intros Ht. apply (fo_streams _ _ _ _ _ (tr_follows _ _ _ _ _ _ _ _ _ _ _ _ Ht)). Qed.

(** ** Messages of the peer *)

Lemma send_revocation_timed s changed sym (p p' : peer) : send_revocation sg s changed sym p = Done p' -> timed p p'.
Proof. unfold send_revocation, make_revocation_msg. intros E. run_inv. by destruct b. Qed.

Lemma handle_peer_commit_sig_timed s w (p p' : peer) : handle_peer_commit_sig params sg s w p = Done p' -> timed p p'.
Proof.
  unfold handle_peer_commit_sig. intros E. apply run_bind_Done in E as (p1 & E1 & E).
  apply run_bind_Done in E as ([[any changed] c] & E2%lift_Done & E). cbn beta iota zeta in E.
  apply run_bind_Done in E as (p2 & E3 & E). apply run_bind_Done in E as (afford & _ & E). apply check_Done in E as [_ E].
  apply run_bind_Done in E as (ok & _ & E). apply check_Done in E as [_ E]. apply run_bind_Done in E as (sym & _ & E).
  apply run_bind_Done in E as (p3 & E4%send_revocation_timed & E). apply run_bind_Done in E as (p4 & E5%maybe_send_stfu_timed & E).
  apply run_bind_Done in E as (wanted & _ & E). apply Done_inj in E as <-.
  transitivity p1; [|transitivity p2; [|transitivity p3; [done|transitivity p4; [done|by destruct wanted]]]].
  - destruct w as [w|]; [|by injection E1 as <-]. clear -E1. unfold take_peer_swap in E1. by run_inv.
  - destruct any; [by injection E3 as <-|]. apply check_Done in E3 as [_ E3]. by injection E3 as <-.
Qed.

Lemma handle_peer_revoke_timed secret point sym (p p' : peer) :
  handle_peer_revoke_and_ack sg secret point sym p = Done p' -> timed p p' /\ commit_timer p' = true.
Proof.
  unfold handle_peer_revoke_and_ack. intros E. apply check_Done in E as [_ E].
  destruct (ec_pubkey_create secret); [|done]. apply check_Done in E as [_ E].
  apply run_bind_Done in E as (p1 & E1 & E). apply run_bind_Done in E as ([[any changed] c] & E2%lift_Done & E). cbn beta iota zeta in E.
  destruct (penalty_base_by_commitnum _ _) as [pbase rest].
  apply run_bind_Done in E as (p2 & E3%maybe_send_stfu_timed & E). injection E as <-. split; [|done].
  transitivity p1; [destruct (channel_has _ _) in E1; [clear E3; by run_inv|by injection E1 as <-]|].
  transitivity p2; [|done]. exact E3.
Qed.

Lemma peer_in_timed m (p p' : peer) : peer_in m p = Done p' -> timed p p'.
Proof.
  unfold Peer.peer_in. intros E. do 3 apply check_Done in E as [_ E].
  destruct m as [point| |id amount hash expiry onion tlvs|id preimage|id reason|id sha code|feerate|height
    |s swap|secret point s|script wrong|i| |]; try done.
  - unfold handle_peer_channel_ready in E. run_inv; try done. by apply billboard_frame in E as ->.
  - by injection E as <-.
  - unfold handle_peer_add_htlc in E. by run_inv.
  - unfold handle_peer_fulfill_htlc in E. by run_inv.
  - unfold handle_peer_fail_htlc, fail_with in E. by run_inv.
  - unfold handle_peer_fail_malformed_htlc, fail_with in E. by run_inv.
  - unfold handle_peer_feechange in E. by run_inv.
  - unfold handle_peer_blockheight_change in E. by run_inv.
  - by apply handle_peer_commit_sig_timed in E.
  - by apply handle_peer_revoke_timed in E as [? _].
  - unfold handle_peer_shutdown in E. do 2 apply check_Done in E as [_ E]. apply billboard_chan in E as ->. by destruct (negb _).
  - unfold handle_stfu in E. apply check_Done in E as [_ E]. apply run_bind_Done in E as (x & _ & E).
    apply check_Done in E as [_ E]. apply run_bind_Done in E as (p1 & E1 & E%maybe_send_stfu_timed).
    transitivity p1; [|exact E]. destruct (negb _) in E1; [apply check_Done in E1 as [_ E1]|]; injection E1 as <-; by destruct i.
Qed.

(** The revocation we answer with. *)
Lemma send_revocation_attended m s changed sym (p q p' : peer) rcvd :
  tracks p rcvd -> attended p rcvd -> is_commit m = true ->
  follows c0 f0 h0 (chan q) (append REMOTE m (mk_sides (sent p) rcvd)) -> sent q = sent p -> timed p q ->
  send_revocation sg s changed sym q = Done p' -> attended p' (rcvd ++ [m]).
Proof.
  intros Ht [D Ha] Hm Hf Es Hq E. pose proof (send_revocation_timed _ _ _ _ _ E) as Htm.
  pose proof (timed_due _ _ (transitivity Hq Htm)) as Hdue. destruct (transitivity Hq Htm) as (Ed & _ & Tm). unfold send_revocation, make_revocation_msg in E.
  apply run_bind_Done in E as (info & _ & E). apply run_bind_Done in E as ([[pending chg] c] & E1%lift_Done & E).
  cbn beta iota zeta in E. apply run_bind_Done in E as ([mr point] & E2 & E). injection E as <-.
  apply run_bind_Done in E2 as ([secret pt] & _ & E2). injection E2 as <- <-.
  split; [by rewrite Ed|]. destruct Ha as [Ha|[Ha|Ha]]; [left; by apply Tm|right; left|].
  - destruct pending; cbn; rewrite Es, !tally_app; cbn; rewrite (commit_not_revoke m Hm); cbn; lia.
  - destruct pending; [by left|]. right. right. intros Hb. apply Ha.
    apply (due_mono _ _ _ Hdue) in Hb. cbn in Hb. rewrite Es in Hb.
    apply (due_answer _ (mk_sides (sent p) rcvd)) in Hb as [Hb|(a & x & Hin & Hx & Hs)]; try done; [|by apply tracks_well_paced|].
    + apply bind_change in E1 as (f & chg' & c1 & E1 & [= Hz _ _]). symmetry in Hz. apply negb_false_iff in Hz.
      pose proof (pends_seen _ (revocation_pends _ _ _ _ _ _ _ _ _ _ Hf Hin Hx Hs E1)) as Hp. by rewrite Hz in Hp.
    + cbn. by rewrite (tr_acked _ _ _ _ _ _ _ _ _ _ _ _ Ht).
Qed.

Lemma stfu_attended (p p' : peer) rcvd :
  tracks p rcvd -> attended p rcvd -> maybe_send_stfu p = Done p' -> attended p' rcvd.
Proof.
  intros Ht Ha E. pose proof (maybe_send_stfu_timed _ _ E) as Htm. apply maybe_send_stfu_effect in E as [[_ E] _].
  rewrite <- (app_nil_r rcvd). assert (exists l, sent p' = sent p ++ l /\ Forall (fun m => silent m = true) l) as (l & El & Hl).
  { destruct E as [[_ ->]|(_ & _ & _ & b & ->)]; [exists []; by rewrite app_nil_r|eexists; split; [done|by repeat constructor]]. }
  eapply attended_quiet; [exact Ha|by apply tracks_well_paced|done|exact El|done|done].
Qed.

Lemma handle_peer_commit_sig_attended s w (p p' : peer) rcvd :
  tracks p rcvd -> attended p rcvd -> handle_peer_commit_sig params sg s w p = Done p' ->
  attended p' (rcvd ++ [msg_commitment_signed s w]).
Proof.
  intros Ht Ha E. unfold handle_peer_commit_sig in E. apply run_bind_Done in E as (p1 & E1 & E).
  destruct w; [by eapply no_swap in E1|]. injection E1 as <-.
  apply run_bind_Done in E as ([[any changed] c] & E2%lift_Done & E). cbn beta iota zeta in E.
  apply run_bind_Done in E as (p2 & E3 & E). apply run_bind_Done in E as (afford & _ & E). apply check_Done in E as [_ E].
  apply run_bind_Done in E as (ok & _ & E). apply check_Done in E as [_ E]. apply run_bind_Done in E as (sym & _ & E).
  apply run_bind_Done in E as (p3 & E4 & E). apply run_bind_Done in E as (p4 & E5 & E).
  apply run_bind_Done in E as (wanted & _ & E). apply Done_inj in E as <-.
  assert (Hp2 : chan p2 = c /\ sent p2 = sent p /\ counters p2 = counters p /\ timed p p2).
  { destruct any; [by injection E3 as <-|]. apply check_Done in E3 as [_ E3]. by injection E3 as <-. }
  destruct Hp2 as (Hc & Hs & Hk & Hq). set (m := msg_commitment_signed s None).
  assert (Hf : follows c0 f0 h0 (chan p2) (append REMOTE m (mk_sides (sent p) rcvd))).
  { rewrite Hc. eapply follows_rcvd_commit; [eapply reachable_sound, Ht|apply Ht|exact E2|done|]. cbn.
    by rewrite (tr_acked _ _ _ _ _ _ _ _ _ _ _ _ Ht). }
  assert (Ht3 : tracks p3 (rcvd ++ [m])).
  { eapply (revocation_sent_tracks _ _ _ _ _ _ _ _ _ _ s changed sym m p p2); try done. rewrite Hc.
    by eapply rcvd_commit_reach; [apply Ht|exact E2]. }
  assert (Ha4 : attended p4 (rcvd ++ [m])).
  { eapply stfu_attended; [exact Ht3| |exact E5]. by eapply (send_revocation_attended m s changed sym p p2). }
  destruct wanted; [|done]. by eapply attended_timer.
Qed.

Lemma peer_in_attended m (p p' : peer) rcvd :
  tracks p rcvd -> attended p rcvd -> tracks p' (rcvd ++ [m]) -> peer_in m p = Done p' -> attended p' (rcvd ++ [m]).
Proof.
  intros Ht Ha Ht' E. destruct (uncounted m) eqn:Hm.
  - pose proof (peer_in_timed _ _ _ E) as Htm. apply peer_in_effect in E as ([_ (k & Ek & Hk) _] & _).
    eapply attended_quiet; [exact Ha|by apply tracks_well_paced|done|exact Ek| |by repeat constructor].
    pose proof (tr_acked _ _ _ _ _ _ _ _ _ _ _ _ Ht') as Hn. pose proof (tr_acked _ _ _ _ _ _ _ _ _ _ _ _ Ht) as Hn'.
    apply andb_true_iff in Hm as [Hm%negb_true_iff _].
    rewrite Ek, !tally_app, tally_one, Hm in Hn. assert (Hz : nR k = 0%nat) by (cbn in Hn; lia). apply no_revoke in Hz.
    rewrite Forall_forall in Hk, Hz |- *. intros x Hx. specialize (Hk x Hx). specialize (Hz x Hx). by destruct x.
  - unfold Peer.peer_in in E. do 3 apply check_Done in E as [_ E]. destruct m; try done.
    + by eapply handle_peer_commit_sig_attended.
    + apply handle_peer_revoke_timed in E as [Htm Hon]. by eapply attended_timer.
Qed.

(** ** Requests of lightningd *)

(** What is asked for is written with the timer running, or is no update. *)
Definition taken_up (p p' : peer) : Prop :=
  timed p p' /\ exists l, sent p' = sent p ++ l /\ (commit_timer p' = true \/ Forall (fun m => silent m = true) l).
Lemma taken_up_quiet p p' : timed p p' -> sent p' = sent p -> taken_up p p'.
Proof. intros Ht E. split; [done|]. exists []. rewrite app_nil_r. auto. Qed.
Lemma taken_up_one m (p p' : peer) : timed p p' -> sent p' = sent p ++ [m] -> commit_timer p' = true \/ silent m = true -> taken_up p p'.
Proof. intros Ht E Hm. split; [done|]. exists [m]. split; [done|]. destruct Hm; [by left|right; by repeat constructor]. Qed.
Lemma stfu_taken_up (p q p' : peer) : timed p q -> sent q = sent p -> maybe_send_stfu q = Done p' -> taken_up p p'.
Proof.
  intros Hq Es E. pose proof (transitivity Hq (maybe_send_stfu_timed _ _ E)) as Ht. apply maybe_send_stfu_effect in E as [[_ E] _].
  rewrite Es in E. destruct E as [[_ E]|(_ & _ & _ & b & E)]; [by apply taken_up_quiet|by eapply taken_up_one; [|exact E|right]].
Qed.
Lemma removal_taken_up owner id c (p p1 : peer) : send_removal owner id (set_chan c p) = Done p1 -> taken_up p (start_commit_timer p1).
Proof. intros (m & -> & _)%send_removal_writes. by eapply taken_up_one; [|reflexivity|left]. Qed.

Lemma req_in_taken_up r (p p' : peer) : req_in r p = Done p' -> taken_up p p'.
Proof.
  unfold Peer.req_in, handle_master_request_later. intros E.
  destruct r; try match type of E with context [is_entering_stfu] =>
    destruct (is_entering_stfu p); [injection E as <-; by apply taken_up_quiet|] end.
  - unfold handle_offer_htlc in E. do 3 apply check_Done in E as [_ E]. apply run_bind_Done in E as (r & _ & E).
    destruct (bool_decide _); [injection E as <-; by eapply taken_up_one; [|reflexivity|left]|].
    apply check_Done in E as [_ E]. injection E as <-. by apply taken_up_quiet.
  - unfold handle_preimage in E. apply run_bind_Done in E as ([e c] & _ & E). apply check_Done in E as [_ E].
    apply run_bind_Done in E as (p1 & E1 & E). injection E as <-. by eapply removal_taken_up.
  - unfold handle_fail in E. apply run_bind_Done in E as ([e c] & _ & E). apply check_Done in E as [_ E].
    apply run_bind_Done in E as (p1 & E1 & E). injection E as <-. by eapply removal_taken_up.
  - unfold handle_feerates in E. apply taken_up_quiet; destruct (bool_decide _); [destruct (_ || _)| |destruct (_ || _)|]; by injection E as <-.
  - unfold handle_blockheight in E. by apply taken_up_quiet; run_inv.
  - injection E as <-. by apply taken_up_quiet.
  - unfold handle_stfu_req in E. destruct (_ || _); [injection E as <-; by apply taken_up_quiet|].
    by eapply stfu_taken_up; [..|exact E].
  - destruct developer; [|done]. unfold handle_dev_quiesce in E. apply check_Done in E as [_ E].
    by eapply stfu_taken_up; [..|exact E].
  - injection E as <-. apply taken_up_quiet; unfold handle_credit_note; by destruct (amount_sat_greater _ _).
  - unfold handle_sym_swap_request in E. apply run_bind_Done in E as ([] & _ & E); injection E as <-; [by apply taken_up_quiet|].
    by eapply taken_up_one; [|reflexivity|right].
  - unfold handle_sym_swap_accept in E. apply run_bind_Done in E as ([] & _ & E); cbn [mbind run_bind] in E; run_inv; by apply taken_up_quiet.
  - unfold handle_sym_swap_cancel in E. injection E as <-. apply taken_up_quiet; destruct (sym_swap_req _); try done; by destruct (_ =? _).
Qed.

Lemma req_in_attended r (p p' : peer) rcvd : tracks p rcvd -> attended p rcvd -> req_in r p = Done p' -> attended p' rcvd.
Proof.
  intros Ht Ha (Htm & l & El & Hl)%req_in_taken_up. destruct Hl as [Hon|Hl]; [by eapply attended_timer|].
  rewrite <- (app_nil_r rcvd). eapply attended_quiet; [exact Ha|by apply tracks_well_paced|done|exact El|done|done].
Qed.

(** ** The timer fires *)

Lemma send_fee_update_dev (p p' : peer) : send_fee_update params p = Done p' -> dev_disable_commit p' = dev_disable_commit p.
Proof. unfold send_fee_update. intros E. apply run_bind_Done in E as ([f|] & _ & E); [|by injection E as <-]. by run_inv. Qed.
Lemma send_blockheight_update_dev (p p' : peer) : send_blockheight_update p = Done p' -> dev_disable_commit p' = dev_disable_commit p.
Proof. unfold send_blockheight_update. intros E. apply run_bind_Done in E as ([h|] & _ & E); [|by injection E as <-]. by run_inv. Qed.
Lemma send_commit_part_dev changed (p p' : peer) m :
  send_commit_part sg changed p = Done (m, p') -> dev_disable_commit p = None -> dev_disable_commit p' = None.
Proof.
  unfold send_commit_part. intros E D. apply run_bind_Done in E as ([s pb] & _ & E). injection E as _ <-.
  destruct (channel_has _ _); cbn; by rewrite D.
Qed.
Lemma maybe_send_shutdown_writes (p p' : peer) :
  maybe_send_shutdown p = Done p' -> exists l, sent p' = sent p ++ l /\ Forall (fun m => silent m = true) l.
Proof.
  unfold maybe_send_shutdown. intros E. destruct (negb _); [injection E as <-; exists []; by rewrite app_nil_r|].
  apply billboard_chan in E as ->. eexists. split; [reflexivity|by repeat constructor].
Qed.

(** Without an HTLC no update of one is under way. *)
Lemma no_htlc_due (p : peer) rcvd : tracks p rcvd -> num_channel_htlcs (chan p) = Ret 0 -> ~ due false (mk_sides (sent p) rcvd).
Proof.
  intros Ht Hn (s & a & m & Hin & Hm & Hs). unfold num_channel_htlcs, assert_then in Hn. destruct (negb _); [|done].
  injection Hn as Hn. apply andb_true_iff in Hm as [_ Hm]. cbn [orb] in Hm. unfold htlc_update in Hm.
  rewrite orb_true_iff, !bool_decide_eq_true in Hm. pose proof (leaves_lt SendCommit s).
  destruct (update_listed _ _ _ _ _ _ _ _ (tr_follows _ _ _ _ _ _ _ _ _ _ _ _ Ht) Hin Hm ltac:(lia)) as (h & Hh & _).
  destruct (the_htlcs (chan p)); [by apply elem_of_nil in Hh|done].
Qed.

Lemma send_commit_attended (p p' : peer) rcvd :
  tracks p rcvd -> attended p rcvd -> send_commit params sg p = Done p' -> attended p' rcvd.
Proof.
  intros Ht [D _] E. unfold send_commit in E. rewrite D, bool_decide_false in E by done.
  destruct (awaits_no_revocation p) eqn:Ea; cbn [negb] in E.
  2: { apply check_Done in E as [_ E]. injection E as <-. split; [done|right; left]. pose proof (tracks_paced _ _ _ _ _ _ _ _ _ _ _ _ Ht).
       pose proof (awaits_spec _ _ _ _ _ _ _ _ _ _ _ _ Ht) as Hs. cbn. destruct (Nat.eq_dec (nC (sent p)) (nR rcvd)); [|lia].
       by rewrite (proj2 Hs) in Ea. }
  apply run_bind_Done in E as (n & En & E). destruct (Z.eqb_spec n 0) as [->|_].
  { injection E as <-. split; [done|right; right]. destruct (shutdown_sent p).[LOCAL] eqn:Esd; [|done]. apply lift_Done in En.
    unfold all_due. cbn [shutdown_sent set_commit_timer]. rewrite Esd. by apply (no_htlc_due p). }
  apply run_bind_Done in E as (p1 & E1 & E). apply run_bind_Done in E as (p2 & E2 & E).
  pose proof (send_blockheight_update_tracks _ _ _ _ _ _ _ _ _ _ _ _ _ (send_fee_update_tracks _ _ _ _ _ _ _ _ _ _ _ _ _ Ht E1) E2) as Ht2.
  assert (D2 : dev_disable_commit p2 = None) by (by rewrite (send_blockheight_update_dev _ _ E2), (send_fee_update_dev _ _ E1)).
  apply run_bind_Done in E as ([[any changed] c] & E3%lift_Done & E). cbn beta iota zeta in E. destruct any; cbn [negb] in E.
  - apply run_bind_Done in E as ([m p3] & E4%send_commit_part_dev & E); [|done]. cbn beta iota zeta in E.
    apply run_bind_Done in E as (p4 & [Ed _]%maybe_send_shutdown_timed & E). injection E as <-. split; [by cbn; rewrite Ed|by left].
  - apply run_bind_Done in E as (p3 & E4 & E). injection E as <-. pose proof (maybe_send_shutdown_timed _ _ E4) as [Ed _].
    apply maybe_send_shutdown_writes in E4 as (l & El & Hl). split; [by cbn; rewrite Ed|right; right].
    apply bind_change in E3 as (f & chg & c1 & E3 & [= Hz _ _]). symmetry in Hz. apply negb_false_iff, Z.eqb_eq in Hz as ->.
    change (sent (set_commit_timer false p3)) with (sent p3). rewrite El. intros Hd.
    apply (due_keep_all _ l LOCAL (mk_sides (sent p2) rcvd)) in Hd.
    + apply due_busy in Hd. eapply busy_changes; [apply Ht2|exact Hd|exact E3].
    + by apply (tracks_well_paced p2).
    + apply (Forall_impl _ _ _ Hl). intros m Hm. by destruct (silent_uncounted _ Hm).
    + left. apply (Forall_impl _ _ _ Hl). intros m Hm. by destruct (silent_uncounted _ Hm).
Qed.

Lemma timer_attended (p p' : peer) rcvd :
  tracks p rcvd -> attended p rcvd -> send_commit_if_not_stfu params sg p = Done p' -> attended p' rcvd.
Proof.
  unfold send_commit_if_not_stfu. intros Ht Ha E. destruct (negb _); [by eapply send_commit_attended|].
  injection E as <-. split; [apply Ha|by left].
Qed.
End Handlers.
