(* ===== verification/Rest.v ===== *)
(** * Two channelds come to rest

    As long as an HTLC is not settled on both sides, a message is on its way or
    a commit timer runs ([rest_is_settled]), and without new requests only so
    many messages and timers are left ([rest_is_reached]). *)

From stdpp Require Import list.
From S2P Require Import Prelude Chainparams Amount HtlcState FeeStates CommitFee Features Script Keys ChannelState Tx Channel CommitTx PeerState Peer CommitAgree CommitMirror ChannelInv ChannelSteps History Solvency Progress PeerSteps PeerFacts Link Ledger Follow Pending Track TwoParty Attend.
Local Open Scope Z_scope.

Section Streams.
Context {sigs : Type}.
Notation log := (sides (list (message sigs))).

(** Both sides have revoked every commitment: an update is committed to by
    neither, by its receiver, or by both. *)
Lemma stage_even (g : log) s a :
  nR g.[s] = nC g.[other s] -> nR g.[other s] = nC g.[s] ->
  stage g s a = 0%nat \/ stage g s a = 2%nat \/ stage g s a = 4%nat.
Proof. intros E1 E2. unfold stage. rewrite E1, E2. repeat case_match; destruct (_ <? _)%nat, (_ <? _)%nat; cbn; auto. Qed.

(** The streams as the other side sees them. *)
Lemma stage_swapped (l k : list (message sigs)) s a : stage (mk_sides l k) s a = stage (mk_sides k l) (other s) a.
Proof. by destruct s. Qed.

(** Where neither side has anything to commit to, all is committed. *)
Lemma stage_settled (l k : list (message sigs)) fees s a m :
  nR l = nC k -> nR k = nC l -> ~ due fees (mk_sides l k) -> ~ due fees (mk_sides k l) ->
  (a, m) ∈ stamped 0 (mk_sides l k).[s] -> counts fees m = true -> stage (mk_sides l k) s a = 4%nat.
Proof.
  intros E1 E2 H1 H2 Hin Hm. destruct (stage_even (mk_sides l k) s a) as [E|[E|E]]; [by destruct s..| | |done]; exfalso.
  - destruct s; [apply H1; by exists LOCAL, a, m|]. apply H2. exists LOCAL, a, m. by rewrite stage_swapped.
  - destruct s; [|apply H1; by exists REMOTE, a, m]. apply H2. exists REMOTE, a, m. by rewrite stage_swapped.
Qed.

Lemma newest_ext_in (value : message sigs -> option Z) P Q l :
  (forall a m, (a, m) ∈ stamped 0 l -> is_Some (value m) -> P a = Q a) -> newest value P l = newest value Q l.
Proof.
  intros HPQ. unfold newest. f_equal. apply omap_in_ext. intros [a v] Hin. unfold values in Hin.
  apply list_elem_of_omap in Hin as ([a' m] & Hin & E). destruct (value m) eqn:Ev; [|done]. injection E as -> ->.
  by rewrite (HPQ a m Hin) by (by rewrite Ev).
Qed.

Lemma counts_htlc fees (m : message sigs) : is_Some (added_id m) \/ is_Some (removed_id m) -> counts fees m = true.
Proof.
  intros Hm. unfold counts. apply andb_true_iff. split; [apply kinds_update; tauto|]. apply orb_true_iff. right.
  unfold htlc_update. by rewrite orb_true_iff, !bool_decide_eq_true.
Qed.

(** The table then. *)
Definition settled_state (st : htlc_state) : bool :=
  match st with SENT_ADD_ACK_REVOCATION | RCVD_ADD_ACK_REVOCATION => true | _ => false end.
Definition settled (c : channel) : bool := forallb (fun h => settled_state (h_state h)) (the_htlcs c).

Lemma follows_settled c0 f0 h0 c (l k : list (message sigs)) fees :
  follows c0 f0 h0 c (mk_sides l k) -> nR l = nC k -> nR k = nC l -> ~ due fees (mk_sides l k) -> ~ due fees (mk_sides k l) ->
  settled c = true.
Proof.
  intros Hf E1 E2 H1 H2. apply forallb_forall. intros h Hh%list_elem_of_In. set (g := mk_sides l k) in *.
  assert (Hin : entry_of h ∈ living (ledger g)) by (rewrite <- (fo_table _ _ _ _ _ Hf); by apply list_elem_of_fmap_2).
  apply list_elem_of_filter in Hin as [Ha Hin]. assert (exists s, entry_of h ∈ entries g s) as [s Hs].
  { apply elem_of_app in Hin as [?|?]; by eexists. }
  destruct (entries_from _ _ _ Hs) as (_ & a & m & Ham & Ee). unfold entry_at in Ee. destruct m as [| |id amount hash expiry onion tlvs| | | | | | | | | | |]; try done.
  apply Some_inj, (f_equal e_state) in Ee. cbn [entry_of e_state] in Ee.
  assert (Hst : forall t b x, (b, x) ∈ stamped 0 g.[t] -> is_Some (added_id x) \/ is_Some (removed_id x) -> stage g t b = 4%nat).
  { intros t b x Hx Hk. by apply (stage_settled _ _ fees t b x); [..|apply counts_htlc]. }
  unfold alive in Ha. cbn [entry_of e_state] in Ha. rewrite <- Ee in Ha |- *.
  destruct (removal g s id) as [[b fl]|] eqn:Er; cbn [e_state] in *.
  - unfold removal in Er. apply first_removal_in in Er as (x & Hx & Hr).
    rewrite (Hst _ _ _ Hx) in Ha; [by destruct s|]. right. assert (removed_id x = Some id) as -> by (apply removes_id; by rewrite Hr). by eexists.
  - rewrite (Hst _ _ _ Ham) by (left; by eexists). by destruct s.
Qed.

Lemma follows_one_feerate c0 f0 h0 c (l k : list (message sigs)) :
  follows c0 f0 h0 c (mk_sides l k) -> nR l = nC k -> nR k = nC l -> ~ due true (mk_sides l k) -> ~ due true (mk_sides k l) ->
  channel_feerate c LOCAL = channel_feerate c REMOTE /\ channel_blockheight c LOCAL = channel_blockheight c REMOTE.
Proof.
  intros Hf E1 E2 H1 H2. pose proof (co_paced _ (fo_streams _ _ _ _ _ Hf)) as Hg.
  destruct (follows_feerate _ _ _ _ _ LOCAL Hf) as [-> ->]. destruct (follows_feerate _ _ _ _ _ REMOTE Hf) as [-> ->].
  assert (Hn : forall value, (forall m, is_Some (value m) -> counts true m = true) -> forall v s,
    newest value (fun a => (a <? in_force (mk_sides l k) v s)%nat) (mk_sides l k).[s]
    = newest value (fun _ => true) (mk_sides l k).[s]).
  { intros value Hv v s. apply newest_ext_in. intros a m Hin Hm. apply Nat.ltb_lt, in_force_stage; [done|].
    rewrite (stage_settled l k true s a m) by auto. case_decide; lia. }
  rewrite !(Hn fee_of), !(Hn height_of); try done; intros m Hm; unfold counts; rewrite kinds_update by tauto; done.
Qed.
End Streams.

(** ** How much is left to do *)

Section Work.
Context {sigs : Type}.
Notation log := (sides (list (message sigs))).

(** The updates of a stream with stamps of [n] or more. *)
Definition later (n : nat) (l : list (message sigs)) : nat :=
  length (filter (fun '(a, m) => (n <= a)%nat /\ update m = true) (stamped 0 l)).
(** What a side that wrote [own] has yet to commit to. *)
Definition todo (own theirs : list (message sigs)) : nat := later (nC own) own + later (acks (nC own) own) theirs.
Notation others := (tally uncounted).

Lemma later_le n n' l : (n <= n')%nat -> (later n' l <= later n l)%nat.
Proof.
  intros Hn. unfold later. generalize (stamped 0 l). intros k. induction k as [|[a m] k IH]; [done|].
  rewrite !filter_cons. repeat case_decide; cbn; try lia. exfalso. naive_solver lia.
Qed.
Lemma later_lt n n' l a m :
  (a, m) ∈ stamped 0 l -> update m = true -> (n <= a < n')%nat -> (later n' l < later n l)%nat.
Proof.
  intros Hin Hm Ha. unfold later. revert Hin. generalize (stamped 0 l). intros k. induction k as [|[b x] k IH]; [by intros ?%elem_of_nil|].
  assert (Hle : (length (filter (fun '(a, m) => (n' <= a)%nat /\ update m = true) k)
    <= length (filter (fun '(a, m) => (n <= a)%nat /\ update m = true) k))%nat).
  { clear IH. induction k as [|[c y] k IH]; [done|]. rewrite !filter_cons. repeat case_decide; cbn; try lia. exfalso. naive_solver lia. }
  intros [[= <- <-]|Hin]%elem_of_cons; rewrite !filter_cons.
  - rewrite decide_False, decide_True by naive_solver lia. cbn. lia.
  - specialize (IH Hin). repeat case_decide; cbn; try lia. exfalso. naive_solver lia.
Qed.
Lemma later_app n l k : (later n (l ++ k) <= later n l + others k)%nat.
Proof.
  unfold later. rewrite stamped_app, filter_app, length_app. apply Nat.add_le_mono_l. generalize (0 + nC l)%nat.
  induction k as [|m k IH]; intros b; [done|]. cbn [stamped tally]. rewrite filter_cons. specialize (IH (if is_commit m then S b else b)).
  case_decide as Hd; [|lia]. cbn [length]. destruct Hd as [_ Hm]. replace (uncounted m) with true; [cbn; lia|].
  unfold update in Hm. unfold uncounted. by destruct (negb (silent m)), (negb (is_commit m)), (negb (is_revoke m)).
Qed.

Lemma todo_theirs own theirs k : (todo own (theirs ++ k) <= todo own theirs + others k)%nat.
Proof. unfold todo. pose proof (later_app (acks (nC own) own) theirs k). lia. Qed.
Lemma todo_quiet own theirs k : nC k = 0%nat -> (todo (own ++ k) theirs <= todo own theirs + others k)%nat.
Proof.
  intros Hk. unfold todo. rewrite tally_app, Hk, Nat.add_0_r, acks_app by done. pose proof (later_app (nC own) own k). lia.
Qed.
(** A commitment is about something. *)
Lemma todo_commit own theirs r m :
  is_commit m = true -> r `prefix_of` theirs -> well_paced (mk_sides own r) -> busy (mk_sides own r) SendCommit ->
  (S (todo (own ++ [m]) theirs) <= todo own theirs)%nat.
Proof.
  intros Hm [z ->] Hg (s & a & x & Hin & Hx & Hs). unfold todo. rewrite tally_app, tally_one, Hm. cbn [Nat.b2n].
  rewrite Nat.add_1_r, acks_commit by done. pose proof (acks_revokes (nC own) own) as Hr.
  assert (H0 : later (S (nC own)) (own ++ [m]) = 0%nat).
  { unfold later. rewrite stamped_app, filter_app, length_app. cbn [stamped]. rewrite filter_cons_False.
    - cbn. rewrite Nat.add_0_r. destruct (filter _ _) as [|[b y] k] eqn:E; [done|]. exfalso.
      assert (Hb : (b, y) ∈ filter (fun '(a, m) => (S (nC own) <= a)%nat /\ update m = true) (stamped 0 own)) by (rewrite E; left).
      apply list_elem_of_filter in Hb as [[Hb _] Hi]. apply stamped_bounds in Hi. lia.
    - intros [_ Hu]. by destruct m. }
  rewrite H0. destruct s; cbn [leaves sel at_local at_remote] in *.
  - assert (later (S (nC own)) own < later (nC own) own)%nat; [|pose proof (later_le (acks (nC own) own) (nR own) (r ++ z) Hr); lia].
    eapply later_lt; [exact Hin|exact Hx|]. unfold stage in Hs. cbn [sel at_local other] in Hs. pose proof (stamped_bounds _ _ _ _ Hin).
    destruct (Nat.ltb_spec a (nC own)); [by cbn in Hs|lia].
  - assert (later (nR own) (r ++ z) < later (acks (nC own) own) (r ++ z))%nat; [|lia].
    eapply later_lt; [rewrite stamped_app; apply elem_of_app; left; exact Hin|exact Hx|].
    unfold stage in Hs. cbn [sel at_local at_remote other] in Hs.
    pose proof (stage_chain (mk_sides own r) REMOTE Hg) as Hch. cbn [sel at_local at_remote other] in Hch.
    destruct (Nat.ltb_spec a (nC r)), (Nat.ltb_spec a (nR own)), (Nat.ltb_spec a (acks (nC own) own)), (Nat.ltb_spec a (acks (nR r) own));
      cbn in Hs; try lia.
Qed.

(** A stream's messages are commitments, revocations and others. *)
Lemma length_tallies (l : list (message sigs)) : length l = (nC l + nR l + others l)%nat.
Proof.
  induction l as [|m l IH]; [done|]. cbn [length tally]. unfold uncounted at 1.
  pose proof (commit_not_revoke m). destruct (is_commit m), (is_revoke m); cbn; lia.
Qed.
Lemma commits_tally (p : peer sigs) : commits p = Z.of_nat (nC (sent p)).
Proof.
  unfold commits. f_equal. induction (sent p) as [|m l IH]; [done|]. cbn [tally]. destruct (is_commit m) eqn:Em.
  - rewrite filter_cons_True by (by apply Is_true_true). cbn [length Nat.b2n]. by rewrite IH.
  - rewrite filter_cons_False by (by apply Is_true_false). done.
Qed.
Lemma first_commit (k : list (message sigs)) :
  nC k = 1%nat -> exists k1 s w k2, k = k1 ++ msg_commitment_signed s w :: k2 /\ nC k1 = 0%nat /\ nC k2 = 0%nat.
Proof.
  induction k as [|m k IH]; [done|]. cbn [tally]. destruct (is_commit m) eqn:Em; cbn; intros Hk.
  - destruct m; try done. eexists [], _, _, k. split; [done|]. split; [done|]. lia.
  - destruct (IH Hk) as (k1 & s & w & k2 & -> & H1 & H2). exists (m :: k1), s, w, k2. split; [done|]. cbn. by rewrite Em.
Qed.
End Work.
Notation others := (tally uncounted).

Section Rest.
Context (params : chainparams) (sha256 : list Z -> list Z) (point_lock_opens : list Z -> list Z -> bool).
Context (features : sides feature_set) (init_features upfront_shutdown : sides (list Z)) (developer : bool).
Context (tlv_fields : add_tlvs -> option (list (Z * list Z))) (junk : Z).
Context `{Secp256k1} {sigs : Type} (sg : sides (signer sigs)).
Context (funding_sats : amount_sat_t) (starts : sides channel) (f0 h0 : Z) (pts : sides (list Z * list Z)).
Notation link := (link sigs).
Notation link_step := (link_step params sha256 point_lock_opens features init_features upfront_shutdown developer tlv_fields junk sg).
Notation linked := (linked params sha256 point_lock_opens sg funding_sats starts f0 h0 pts).
Notation opening := (opening params sha256 point_lock_opens funding_sats starts f0 h0 pts).
Notation conversation :=
  (conversation params sha256 point_lock_opens features init_features upfront_shutdown developer tlv_fields junk sg funding_sats).
Notation bounded := (bounded funding_sats).

Definition lively (l : link) : Prop := forall s, attended (node l).[s] (handled s l).

Lemma lively_step e l l' : linked l -> linked l' -> lively l -> link_step e l = Some (Done l') -> lively l'.
Proof.
  intros Hl Hl' Ha E. destruct (link_step_steps _ _ _ _ _ _ _ _ _ _ _ _ _ _ _ _ _ _ Hl E) as [Er Eq Ho Eg Hin].
  set (s := event_side e) in *. pose proof (li_tracks _ _ _ _ _ _ _ _ _ _ Hl s) as Ht. pose proof (li_tracks _ _ _ _ _ _ _ _ _ _ Hl' s) as Ht'.
  specialize (Ha s) as Has. unfold lively. apply (side_cases _ s); [|by rewrite Eq, Ho].
  destruct e as [s0 r|s0|s0]; cbn [event_side] in *; subst s; unfold reacts in Er; cbn [event_side] in Er.
  - destruct Hin as [-> _]. by eapply req_in_attended.
  - destruct Hin as [-> _]. by eapply timer_attended.
  - destruct Hin as (m & rest & Ef & Eh & _). rewrite Ef in Er. rewrite Eh in *. by eapply peer_in_attended.
Qed.

Definition enabled (l : link) : Prop := forall s, dev_disable_commit (node l).[s] = None.

Lemma conversation_lively l0 l : opening l0 -> enabled l0 -> conversation l0 l -> linked l /\ bounded l /\ lively l.
Proof.
  intros H0 Hd. pose proof (opening_linked _ _ _ sg _ _ _ _ _ _ H0) as Hl0. induction 1 as [Hb|e l l' _ (IH & Hb & Ha) Hwf E Hb'].
  - split; [done|]. split; [done|]. intros s. split; [apply Hd|right; right]. intros (t & a & m & Hin & _).
    unfold handled in Hin. rewrite (on_got _ _ _ _ _ _ _ _ _ H0), !(on_sent _ _ _ _ _ _ _ _ _ H0) in Hin.
    destruct s, t; cbn in Hin; by apply elem_of_nil in Hin.
  - assert (Hl' : linked l') by (eapply linked_step; [exact IH|exact Hwf|exact Hb|exact Hb'|exact E]).
    split; [done|]. split; [done|]. by apply (lively_step e l).
Qed.

(** Nothing is on its way and no timer runs. *)
Definition at_rest (l : link) : Prop := forall s, in_flight s l = [] /\ commit_timer (node l).[s] = false.

Lemma rest_handled l s : linked l -> at_rest l -> handled s l = sent (node l).[other s].
Proof.
  intros Hl Hr. destruct (Hr s) as [E _]. unfold in_flight in E. unfold handled.
  rewrite <- (take_drop (got l).[s] (sent (node l).[other s])) at 2. by rewrite E, app_nil_r.
Qed.

(** C2. Nothing is left half done: once no message is on its way and no
    commit timer runs, every HTLC that either side knows of is irrevocably
    committed to by both (what was removed is gone), and the two sides agree on
    each other's commitments; the feerate and the blockheight are the same for
    both commitments, unless [shutdown] was sent, after which a new feerate is
    no longer committed to.  So as long as an HTLC is in any other state, a
    message is on its way or a timer runs. *)
Theorem rest_is_settled l0 l s :
  opening l0 -> enabled l0 -> conversation l0 l -> at_rest l ->
  settled (chan (node l).[s]) = true
  /\ mirrors REMOTE LOCAL (chan (node l).[s]) (chan (node l).[other s])
  /\ ((forall t, (shutdown_sent (node l).[t]).[LOCAL] = false) ->
      channel_feerate (chan (node l).[s]) LOCAL = channel_feerate (chan (node l).[s]) REMOTE
      /\ channel_blockheight (chan (node l).[s]) LOCAL = channel_blockheight (chan (node l).[s]) REMOTE).
Proof.
  intros H0 Hd Hc Hr. destruct (conversation_lively _ _ H0 Hd Hc) as (Hl & _ & Ha).
  pose proof (fun t => rest_handled l t Hl Hr) as Hh.
  pose proof (li_tracks _ _ _ _ _ _ _ _ _ _ Hl s) as Ht. pose proof (li_tracks _ _ _ _ _ _ _ _ _ _ Hl (other s)) as Ho.
  pose proof (tr_acked _ _ _ _ _ _ _ _ _ _ _ _ Ht) as Et. pose proof (tr_acked _ _ _ _ _ _ _ _ _ _ _ _ Ho) as Eo.
  pose proof (tr_follows _ _ _ _ _ _ _ _ _ _ _ _ Ht) as Hf. pose proof (tr_follows _ _ _ _ _ _ _ _ _ _ _ _ Ho) as Hfo.
  pose proof (Ha s) as Hs. pose proof (Ha (other s)) as Hso.
  rewrite Hh in Et, Eo, Hf, Hfo, Hs, Hso. rewrite other_involutive in Eo, Hfo, Hso.
  assert (Hdue : forall t k, attended (node l).[t] k -> nR k = nC (sent (node l).[t]) -> ~ due (all_due (node l).[t]) (mk_sides (sent (node l).[t]) k)).
  { intros t k [_ Hat] En. destruct (Hr t) as [_ Htm]. destruct Hat as [Hat|[Hat|Hat]]; [by rewrite Htm in Hat|lia|done]. }
  pose proof (Hdue _ _ Hs Eo) as Hn. pose proof (Hdue _ _ Hso Et) as Hno.
  assert (Hweak : forall b g, ~ due b g -> ~ due (sigs := sigs) false g) by (intros b g Hb Hx; apply Hb; by apply (due_mono false b)).
  split; [|split].
  - eapply follows_settled; [exact Hf|exact Et|exact Eo|by eapply Hweak|by eapply Hweak].
  - eapply (follows_mirrors _ _ _ _ _ _ _ _ []); [|exact Hf|exact Hfo|done|by rewrite app_nil_r].
    pose proof (on_counterparts _ _ _ _ _ _ _ _ _ H0). destruct s; [done|by apply counterparts_sym].
  - intros Hsd. unfold all_due in Hn, Hno. rewrite Hsd in Hn, Hno. by eapply follows_one_feerate.
Qed.

(** ** Coming to rest *)

(** What a message may still cause: it is handled and may start a timer; a
    commitment is also answered. *)
Definition fare (l : list (message sigs)) : nat := 2 * length l + 2 * nC l.
Definition weight_of (s : side) (l : link) : nat :=
  Nat.b2n (commit_timer (node l).[s]) + fare (in_flight s l) + 5 * todo (sent (node l).[s]) (sent (node l).[other s]).
Definition weight (l : link) : nat := weight_of LOCAL l + weight_of REMOTE l.
(** The messages written so far that are neither commitments nor revocations. *)
Definition chatter (l : link) : nat := others (sent (node l).[LOCAL]) + others (sent (node l).[REMOTE]).

(** lightningd asks for nothing; the timer of a side that has sent [stfu] is
    only started again. *)
Definition idle_event (e : event) (l : link) : Prop :=
  match e with asked _ _ => False | timer_fired s => (stfu_sent (node l).[s]).[LOCAL] = false | arrived _ => True end.

Lemma weight_sides s l : weight l = (weight_of s l + weight_of (other s) l)%nat.
Proof. destruct s; cbn; unfold weight; lia. Qed.
Lemma chatter_sides s l : chatter l = (others (sent (node l).[s]) + others (sent (node l).[other s]))%nat.
Proof. destruct s; cbn; unfold chatter; cbn; lia. Qed.
Lemma fare_app l k : fare (l ++ k) = (fare l + fare k)%nat.
Proof. unfold fare. rewrite length_app, tally_app. lia. Qed.

(** A commitment that went out leaves less to do. *)
Lemma todo_signed l s k :
  linked l -> nC k = 1%nat -> forall own, sent (node l).[s] = own ++ k ->
  (S (todo (own ++ k) (sent (node l).[other s])) <= todo own (sent (node l).[other s]) + others k)%nat.
Proof.
  intros Hl Hk own Es. destruct (first_commit k Hk) as (k1 & sig & w & k2 & -> & H1 & H2).
  pose proof (li_tracks _ _ _ _ _ _ _ _ _ _ Hl s) as Ht.
  destruct (tr_signed _ _ _ _ _ _ _ _ _ _ _ _ Ht (own ++ k1) sig w k2) as (_ & c & r & pb & Hr & Hn & _ & Hb & Hf & _); [by rewrite Es, <- app_assoc|].
  set (m := msg_commitment_signed sig w) in *. set (theirs := sent (node l).[other s]).
  assert (Hpre : r `prefix_of` theirs) by (etransitivity; [exact Hr|apply prefix_take]).
  assert (Hg : well_paced (mk_sides (own ++ k1) r)).
  { pose proof (co_paced _ (fo_streams _ _ _ _ _ Hf)) as Hp. intros t. specialize (Hp t).
    destruct t; cbn in *; rewrite ?(tally_app _ (own ++ k1)) in Hp; cbn in Hp; lia. }
  pose proof (todo_quiet own theirs k1 H1) as T1. pose proof (todo_commit (own ++ k1) theirs r m eq_refl Hpre Hg Hb) as T2.
  pose proof (todo_quiet ((own ++ k1) ++ [m]) theirs k2 H2) as T3. rewrite <- !app_assoc in T3. rewrite <- app_assoc in T2. cbn [app] in T2, T3.
  change (m :: k2) with ([m] ++ k2). rewrite !tally_app. cbn [app]. lia.
Qed.

Lemma weight_step e l l' :
  linked l -> linked l' -> idle_event e l -> link_step e l = Some (Done l') ->
  (S (weight l') + 12 * chatter l <= weight l + 12 * chatter l')%nat.
Proof.
  intros Hl Hl' Hi E. pose proof (link_step_steps _ _ _ _ _ _ _ _ _ _ _ _ _ _ _ _ _ _ Hl E) as [Er Eq Ho Eg Hin].
  destruct (reacts_prefix _ _ _ _ _ _ _ _ _ _ _ _ _ Er) as [k Ek].
  assert (Hoc : occurs e l = true) by (unfold Link.link_step in E; by destruct (occurs e l)).
  set (s := event_side e) in *. rewrite (weight_sides s l), (weight_sides s l'), (chatter_sides s l), (chatter_sides s l').
  pose proof (tr_acked _ _ _ _ _ _ _ _ _ _ _ _ (li_tracks _ _ _ _ _ _ _ _ _ _ Hl s)) as Ha.
  pose proof (tr_acked _ _ _ _ _ _ _ _ _ _ _ _ (li_tracks _ _ _ _ _ _ _ _ _ _ Hl' s)) as Ha'.
  rewrite Ek, tally_app in Ha'.
  assert (Hfo : fare (in_flight (other s) l') = (fare (in_flight (other s) l) + fare k)%nat).
  { rewrite <- fare_app. f_equal. unfold in_flight. rewrite other_involutive, Eg, Ek.
    pose proof (li_got _ _ _ _ _ _ _ _ _ _ Hl (other s)) as Hg. unfold handled in Hg. rewrite other_involutive, length_take in Hg.
    rewrite drop_app_le; [done|lia]. }
  assert (Hfk : fare k = (4 * nC k + 2 * nR k + 2 * others k)%nat) by (unfold fare; rewrite length_tallies; lia).
  unfold weight_of. rewrite Hfo, Hfk, Eq, other_involutive, Ek, !tally_app.
  pose proof (todo_theirs (sent (node l).[other s]) (sent (node l).[s]) k) as Tt.
  destruct e as [s0 r|s0|s0]; [done| |]; cbn [event_side] in *; subst s; unfold reacts in Er; cbn [event_side] in Er.
  - destruct Hin as [Hh Hg]. assert (Hfs : in_flight s0 l' = in_flight s0 l) by (unfold in_flight; by rewrite Eq, Hg). rewrite Hfs.
    rewrite Hh in Ha'. cbn in Hoc. apply andb_true_iff in Hoc as [-> _].
    unfold send_commit_if_not_stfu in Er. cbn [idle_event] in Hi. rewrite Hi in Er. cbn [negb] in Er.
    apply send_commit_effect in Er as [[[_ _ C] Ht]|(_ & _ & _ & _ & _ & C)]; rewrite !commits_tally, Ek, tally_app in C.
    + rewrite Ht. pose proof (todo_quiet (sent (node l).[s0]) (sent (node l).[other s0]) k ltac:(lia)). cbn [Nat.b2n]. lia.
    + pose proof (todo_signed l' s0 k Hl' ltac:(lia) _ Ek) as T. rewrite Eq in T. destruct (commit_timer _); cbn [Nat.b2n]; lia.
  - destruct Hin as (m & rest & Ef & Hh & Hg). rewrite Ef in Er. rewrite Hh, tally_app, tally_one in Ha'.
    assert (Hfs : in_flight s0 l' = rest).
    { unfold in_flight in *. rewrite Eq, Hg. by rewrite <- Nat.add_1_r, <- drop_drop, Ef. }
    apply peer_in_effect in Er as ([_ (k' & Ek' & Hk) _] & _). rewrite Ek in Ek'. apply app_inv_head in Ek'. subst k'.
    assert (Hc : nC k = 0%nat).
    { clear -Hk. induction Hk as [|x k Hx Hk IH]; [done|]. cbn. rewrite IH. by destruct x. }
    pose proof (todo_quiet (sent (node l).[s0]) (sent (node l).[other s0]) k Hc).
    rewrite Hfs, Ef. unfold fare. cbn [length tally]. destruct (commit_timer (node l').[s0]), (commit_timer (node l).[s0]); cbn [Nat.b2n]; lia.
Qed.

(** What happens when lightningd asks for nothing: so many messages arrive and
    timers fire. *)
Inductive idles : nat -> link -> link -> Prop :=
| idles_none l : idles 0 l l
| idles_step n e l l' l'' :
    idle_event e l -> link_step e l = Some (Done l') -> bounded l' -> idles n l' l'' -> idles (S n) l l''.

Lemma idles_weight n l l' :
  linked l -> bounded l -> idles n l l' -> (n + weight l' + 12 * chatter l <= weight l + 12 * chatter l')%nat.
Proof.
  intros Hl Hb Hi. induction Hi as [l|n e l l1 l' He E Hb1 Hi IH]; [lia|].
  assert (Hl1 : linked l1).
  { eapply linked_step; [exact Hl| |exact Hb|exact Hb1|exact E]. by destruct e. }
  specialize (IH Hl1 Hb1). pose proof (weight_step e l l1 Hl Hl1 He E). lia.
Qed.

End Rest.
