(* ===== verification/TwoPartyExample.v ===== *)
(** * Two channelds that talk

    An HTLC from its offer to rest, on the link of [PeerExample]. *)

From stdpp Require Import list.
From S2P Require Import Prelude Chainparams Amount HtlcState FeeStates Features Script Keys Tapscript ChannelState Tx SymScripts SymState Channel SymChannel CommitTx PeerState Peer CommitAgree CommitMirror Example ChannelInv ChannelSteps History Solvency Progress PeerSteps PeerFacts Link PeerExample Ledger Follow Pending Track TwoParty Attend Rest.
Import Toy.
Local Open Scope Z_scope.

Abbreviation ex_points := (both (Toy.point 0, Toy.point 1)).
Abbreviation ex_starts := (mk_sides left_channel right_channel).
Abbreviation ex_opening := (opening net no_hash no_point (mk_sat 1000000) ex_starts 5000 100 ex_points).
Abbreviation ex_conversation :=
  (conversation net no_hash no_point (both ex_features) (both []) (both []) true no_fields 0 (both counting_signer) (mk_sat 1000000)).

Lemma left_channel_ok : side_channel LOCAL 100000000 = Ret left_channel.
Proof. vm_compute. reflexivity. Qed.
Lemma right_channel_ok : side_channel REMOTE 900000000 = Ret right_channel.
Proof. vm_compute. reflexivity. Qed.

Lemma left_untouched : untouched net no_hash no_point (mk_sat 1000000) 5000 100 left_channel.
Proof.
  split; try done; [|intros []; cbn; lia].
  eapply reach_open; [..|exact left_channel_ok|]; try (simpl; lia); try (by intros ? ?%elem_of_nil).
  - intros m ->%list_elem_of_singleton. simpl. lia.
  - by apply (within_example _ 0).
Qed.
Lemma right_untouched : untouched net no_hash no_point (mk_sat 1000000) 5000 100 right_channel.
Proof.
  split; try done; [|intros []; cbn; lia].
  eapply reach_open; [..|exact right_channel_ok|]; try (simpl; lia); try (by intros ? ?%elem_of_nil).
  - intros m ->%list_elem_of_singleton. simpl. lia.
  - by apply (within_example _ 0).
Qed.
Lemma start_opening : ex_opening l0.
Proof.
  split; try done; try (by intros []); try (intros []; vm_compute; split; discriminate).
  - intros []; [apply left_untouched|apply right_untouched].
  - split; try done; by intros [].
Qed.

(** Whether it still counts, and neither side has sent [stfu]. *)
Definition fits_bool (l : link unit) : bool :=
  forallb (fun s =>
    let p := (node l).[s] in
    match sym_swap_req (chan p) with None => true | Some _ => false end
    && (sum_with amt (the_htlcs (chan p)) + swap_size (chan_sym_swap (chan p)) <=? 1000000000) && (htlc_id p <? UINT64_MAX)
    && negb (stfu_sent p).[LOCAL])
    [LOCAL; REMOTE].
Lemma fits_bounded l : fits_bool l = true -> bounded (mk_sat 1000000) l.
Proof.
  intros Hf s. unfold fits_bool in Hf. rewrite forallb_forall in Hf. specialize (Hf s ltac:(destruct s; cbn; auto)).
  apply andb_true_iff in Hf as [[[H1 H2%Z.leb_le]%andb_true_iff H3%Z.ltb_lt]%andb_true_iff _]. split; [|done].
  eapply within_example; [|done|exact H2]. by destruct (sym_swap_req _).
Qed.
Lemma fits_unquiet l s : fits_bool l = true -> (stfu_sent (node l).[s]).[LOCAL] = false.
Proof.
  intros Hf. unfold fits_bool in Hf. rewrite forallb_forall in Hf. specialize (Hf s ltac:(destruct s; cbn; auto)).
  by apply andb_true_iff in Hf as [_ Hf%negb_true_iff].
Qed.
Fixpoint counted_run (es : list event) (l : link unit) : option (link unit) :=
  match es with
  | [] => Some l
  | e :: es =>
    match link_step net no_hash no_point (both ex_features) (both []) (both []) true no_fields 0 (both counting_signer) e l with
    | Some (Done l') => if fits_bool l' then counted_run es l' else None
    | _ => None
    end
  end.
Lemma counted_run_talk es l l' :
  Forall wf_event es -> counted_run es l = Some l' -> forall k, ex_conversation k l -> ex_conversation k l'.
Proof.
  intros Hwf. revert l. induction Hwf as [|e es He Hwf IH]; intros l E k Hk; cbn [counted_run] in E; [by injection E as <-|].
  destruct (link_step _ _ _ _ _ _ _ _ _ _ _ _) as [[l1|]|] eqn:E1; try done. destruct (fits_bool l1) eqn:Ef; [|done].
  apply (IH l1 E). by eapply talk_step; [exact Hk|exact He|exact E1|apply fits_bounded].
Qed.

Abbreviation ex_idles :=
  (idles net no_hash no_point (both ex_features) (both []) (both []) true no_fields 0 (both counting_signer) (mk_sat 1000000)).
Definition unasked (e : event) : Prop := match e with asked _ _ => False | _ => True end.
Lemma counted_run_idles es l l' :
  Forall unasked es -> fits_bool l = true -> counted_run es l = Some l' -> ex_idles (length es) l l'.
Proof.
  intros Hes. revert l. induction Hes as [|e es He Hes IH]; intros l Hf E; cbn [counted_run length] in *; [injection E as <-; constructor|].
  destruct (link_step _ _ _ _ _ _ _ _ _ _ _ _) as [[l1|]|] eqn:E1; try done. destruct (fits_bool l1) eqn:Ef; [|done].
  eapply idles_step; [|exact E1|by apply fits_bounded|by apply IH]. destruct e; [done|by apply fits_unquiet|done].
Qed.

(** The left side offers an HTLC and commits to it; the other side gets both. *)
Definition offered : list event := [offers 50000000 LOCAL; timer_fired LOCAL; arrived REMOTE].
Definition l_offered : link unit := Eval vm_compute in default l0 (counted_run offered l0).
(** It answers; then it commits in turn, and is answered. *)
Definition l_revoked : link unit := Eval vm_compute in default l0 (counted_run [arrived REMOTE] l_offered).
Definition finishing : list event :=
  [arrived LOCAL; timer_fired REMOTE; arrived LOCAL; arrived REMOTE; timer_fired LOCAL; timer_fired REMOTE].
Definition l_rest : link unit := Eval vm_compute in default l0 (counted_run finishing l_revoked).

Lemma talk_offered : ex_conversation l0 l_offered.
Proof.
  apply (counted_run_talk offered l0); [repeat constructor; cbn; lia|vm_compute; reflexivity|].
  by apply talk_start, fits_bounded.
Qed.
Lemma talk_revoked : ex_conversation l0 l_revoked.
Proof. apply (counted_run_talk [arrived REMOTE] l_offered); [by repeat constructor|vm_compute; reflexivity|apply talk_offered]. Qed.
Lemma talk_rest : ex_conversation l0 l_rest.
Proof. apply (counted_run_talk finishing l_revoked); [by repeat constructor|vm_compute; reflexivity|apply talk_revoked]. Qed.




Lemma rest_is_settled_witness :
  settled (chan (node l_rest).[LOCAL]) = true /\ map h_state (the_htlcs (chan (node l_rest).[LOCAL])) = [SENT_ADD_ACK_REVOCATION].
Proof.
  split; [|vm_compute; reflexivity].
  apply (rest_is_settled net no_hash no_point (both ex_features) (both []) (both []) true no_fields 0
    (both counting_signer) (mk_sat 1000000) ex_starts 5000 100 ex_points l0 l_rest LOCAL).
  - apply start_opening.
  - by intros [].
  - apply talk_rest.
  - intros []; vm_compute; auto.
Defined.

